(* ===== verification/_CoqProject ===== *)
-Q . S2P
Prelude.v
GoStrings.v
StringFacts.v
Regex.v
Time.v
Codec.v
Json.v
Api.v
Limiter.v
Totp.v
Password.v
JsonParse.v
JsonMore.v
SessionFile.v
Session.v
Schema.v
Store.v
StoreNav.v
StoreSettings.v
WebApp.v
WebGate.v
WebAdmin.v
WebActions.v
WebRuns.v
Crontab.v
Backup.v
CronTasks.v
CronFacts.v
CronSpecs.v
Backtrack.v
Command.v
Triple.v
Files.v
Firewall.v
FirewallFacts.v
JsonPretty.v
Units.v
Network.v
Fail2ban.v
Tor.v
Services.v
Logs.v
Upgrade.v
UpgradeFacts.v
Composer.v
ComposerFacts.v
Updates.v
Apache.v
ApacheFacts.v
AdminAccess.v
AdminAccessFacts.v
Snapshots.v
SnapshotsFacts.v
Configuration.v
ConfigurationFacts.v
Storage.v
Mysql.v
Php.v
Certbot.v
CertbotFacts.v
Floats.v
System.v
SystemFacts.v
Daemon.v
Migrations.v
MysqlSetup.v
AdminTool.v
AdminToolFacts.v
Dashboard.v
Html.v
WebReads.v
Fragments.v
Fragments2.v
Fragments3.v
Fragments4.v
Differences.v
Fragments5.v
Pages.v
PagesFacts.v
