(* ===== verification/Prelude.v ===== *)
(** * AegisAdmin: a verification library for the Go back end

    AegisAdmin administers a Linux server from a web page.  Its back end, in Go under
    [src/backend/go], is three programs: the web program ([cmd/aegisadmin-web],
    [internal/webapp] and the packages it uses), which signs users in, keeps their sessions
    and decides who may do what; the local daemon, which runs as root and answers requests
    on a Unix socket ([internal/server], [router], [api], [protocol]) by the domains under
    [internal/domain]; and small programs run by systemd: the backup runner, the updater.
    The web program reaches the daemon through [internal/client] only.

    This library translates that code and proves what it promises.  A definition has the
    name of the function it translates; the manifest maps each one to its lines.

    ** Layout

    Shared ground: [Prelude] (results, tactics, machine integers), [GoStrings],
    [StringFacts] ([strings], [strconv], [unicode/utf8], [sort]), [Regex] and [Backtrack]
    ([regexp] without and with groups), [Time] (dates in UTC), [Codec] (base32, base64,
    hex, SHA-1, SHA-256, HMAC), [Json], [JsonParse], [JsonMore] and [JsonPretty] ([encoding/json],
    both ways).

    The daemon's door: [Api] (protocol, reply envelope, router, server, client).

    The web program.  [Limiter], [Totp], [Password], [Session] and
    [SessionFile]: the parts of sign-in ([internal/webauth], [websession]).  [Schema], [Store], [StoreNav], [StoreSettings]:
    the account database and the methods of [internal/authstore] on it.  [WebApp]: the
    handlers that open, change and end a session, over these parts; [WebGate]: what the
    gate of every page lets through; [WebAdmin]: administration; [WebActions]: the pages
    that send requests to the daemon, and their clients; [WebRuns]: runs of the whole web
    program and what a served page tells about the past.

    The domains of the daemon.  [Command] is the small monad they are written in: programs
    are run on a machine, every call is recorded, a refusal stops the command with its
    reply; [only], [guarded] and [refuses] are the three facts proved of commands, by the
    tactic [walk].  [Files] adds the files they keep and [Units] the questions asked of
    systemd.  [Crontab], [CronTasks], [CronFacts], [CronSpecs]: domain cron; [Backup]: the
    backup runner ([internal/backup]) the scheduled tasks start; [Firewall],
    [FirewallFacts]; [Network]; [Fail2ban]; [Tor]; [Services]; [Logs]; the domain updates in three parts: [Upgrade] and [UpgradeFacts] (the
    upgrade jobs), [Composer] and [ComposerFacts] (the Composer monitor), [Updates]
    (the listings and the dispatch); [Apache] and [ApacheFacts];
    [AdminAccess] and [AdminAccessFacts]; the domain configuration in [Snapshots] and
    [SnapshotsFacts] (the store), [Configuration] and [ConfigurationFacts] (the inventory
    and the commands); [Storage]; [Mysql]; [Php]; [Certbot] and
    [CertbotFacts]; [Floats] (the numbers of type float64), [System] and [SystemFacts];
    [Daemon], where the router is composed with the handlers of all the
    domains.  [Triple] is
    a program logic for commands, used where a refused command must have undone its work.

    Around them: [Migrations] (the scripts of the account database), [MysqlSetup] (the
    database account the daemon reads with), [AdminTool] and [AdminToolFacts]
    ([cmd/aegisadmin-admin]: the root account is set up and recovered).

    The pages that read.  [Dashboard] gathers the cards of the dashboard from four requests
    sent at once; [WebReads] has the clients of the other pages, and the decoding of what they
    are answered; [Html] has the escaping, the translations ([internal/i18n]), the replacing of
    places and a reader of markup; [Fragments] to [Fragments5] are the functions that write
    HTML, in the order of the files of [internal/webapp]; [Differences] is the comparison of
    two snapshots; [Pages] has the handlers of the GET requests, which put the fragments in
    the places of templates, and [PagesFacts] what they show, to whom, and what they ask.

    ** State and operations

    The state of a component is a record or a finite map ([Session], [Limiter], [Schema]),
    and each exported method is one function that takes it and gives the next one, in the
    order of the code, error returns included: [res E A] is the Go pair of a value and an
    error.  A method that holds a mutex is atomic; the attempts of a sign-in, which take the
    mutex of the limiter twice, are interleaved in [Limiter].  What comes from outside is an argument
    or the field of a class: clock readings, random bytes, the outcome of a write, what a
    program prints, password hashing, AES-GCM, the address parsers of [net] and
    [net/netip], Unicode case tables.  The laws such a class states are documented facts
    (opening a sealed text gives it back, a hash has the length asked); every theorem that
    has a hypothesis is applied to a concrete instance by a witness.

    ** What the theorems show

    Authentication: a served page implies an account that is active, at the version of its
    session, and a password (and one-time password) given in the past of the run; sessions
    are revoked by every change that guards an account, for ever but for a restore of the
    database from before it; attempts are bounded; hashes,
    tokens and sessions survive their round trips.  Rights: no request reaches the daemon
    and no administration happens without the right for it and the form token.  The root
    account cannot be removed or demoted.  Cron: an edition changes the task it names and
    no other line, and the editor refines the actions on an abstract list of tasks;
    backups succeed with an archive or lose nothing.  The other domains: which programs a
    command may run and what must have been verified before; what is parsed is well
    formed; every reply is a success with data or a failure with an error.  Upgrades: a
    started job comes to an end with its outcome written, one runs at a time, no reboot is
    scheduled during one.  Composer never runs as root, and its runs end.
    Apache: the commands on sites refine updates of an abstract map of files, and a refused
    one leaves it as it was; no reload without a test that passed.  Dedicated access: what is
    generated has the lines meant, an update is accepted and read back, or undone.
    Configuration: the inventory is the same whatever the interleaving of the goroutines;
    a snapshot is read back, immutable, and imported elsewhere as it was exported.
    Storage: the physical devices found are those below the one of the mount.  mysql, php and
    certbot: the programs they run are the few listed, no word of a request reaches their
    command lines, and the execution an action of certbot starts is read back.
    System: the amounts of memory are consistent, and the sampler answers the load between
    the last two readings that succeeded.  The daemon: its router is built with a handler
    for each known domain, and every connection is delivered one reply of the protocol, or
    its failure is logged.
    Set-up: the root account initialised by the tool signs in with the password typed, a
    recovery ends every session, migrations run again change nothing, the set-up of the
    database account leaves no file behind but one the system refuses to remove.  Pages: a GET request changes no account, asks the
    daemon only the readings its page is made of, and only for someone who may read it; the
    dashboard does not depend on the order of the answers; the comparison of two snapshots
    ends, with a row for each place where they differ and no other.

    ** Bounds and fuel

    Recursion is structural or has a measure written as fuel.  The JSON reader has twice
    the length of its input, which [cost_bound] shows to be enough for what the writer
    produces, and the depth limit 10000 of the package.  The client's connection loop has
    fuel 42, which [connect_terminates] shows to be enough.  Integers are [Z], with the
    64-bit and 32-bit wrap-around of the code where it can occur ([atoi], counters,
    [strconv.ParseUint]).

    ** Not modelled

    The templates and style sheets themselves, and JavaScript; the HTML of the sign-in and
    account pages, which are named with what they are made of; sockets, signals, the
    cancellation of requests, and time-outs other than as an outcome of the call; SQLite
    beyond the meaning of each statement on the tables; the SQL text of the migrations.
    Parameters of the model, then: the templates, the translation catalogs, the file of the
    known services, the order in which requests sent at once are answered.  A number above
    2^53 that crosses the local API is kept exactly, where Go makes a float of it; the age of
    an upgrade job is counted from the second its start is written with.
    The connections of the daemon are served one after the other, and a request of the web
    program is one step of its runs.  A restore of the database is a step of these runs when
    the backup is not older than the sessions and the restore does not fail halfway.

    ** Plan

    The programs are modelled but for their entry points and the download statistics, a
    report made apart from the administration.  What would come next is the sign-in pages as
    HTML, with the proof that their fields are escaped. *)

From stdpp Require Export base gmap strings list sorting.
From Stdlib Require Export ZArith Lia.

#[export] Set Warnings "-clear-no-such-hyp,-register-all,-implicit-create-rewrite-hint-db".

(** ** Results: a Go pair [(value, error)] *)

Inductive res (E A : Type) : Type :=
| Ok (a : A)
| Err (e : E).
Arguments Ok {E A} a.
Arguments Err {E A} e.

Definition res_bind {E A B} (m : res E A) (k : A → res E B) : res E B :=
  match m with
  | Ok a => k a
  | Err e => Err e
  end.

Definition res_map {E A B} (f : A → B) (m : res E A) : res E B :=
  res_bind m (λ a, Ok (f a)).

Definition is_ok {E A} (m : res E A) : bool :=
  match m with Ok _ => true | Err _ => false end.

Definition from_option_res {E A} (e : E) (o : option A) : res E A :=
  match o with Some a => Ok a | None => Err e end.

Declare Scope go_scope.
Delimit Scope go_scope with go.
Notation "'let!' x ':=' m 'in' k" := (res_bind m (λ x, k))
  (at level 10, x binder, m at level 200, k at level 200) : go_scope.
(** An early return: the Go [if condition { return error }]. *)
Notation "'guard!' c 'else' e 'in' k" := (if c then k else Err e)
  (at level 10, c at level 200, e at level 200, k at level 200) : go_scope.
#[global] Open Scope go_scope.

Lemma res_bind_Ok {E A B} (m : res E A) (k : A → res E B) b :
  res_bind m k = Ok b ↔ ∃ a, m = Ok a ∧ k a = Ok b.
Proof. destruct m; simpl; naive_solver. Qed.

Lemma res_bind_Err {E A B} (m : res E A) (k : A → res E B) e :
  res_bind m k = Err e ↔ m = Err e ∨ ∃ a, m = Ok a ∧ k a = Err e.
Proof. destruct m; simpl; naive_solver. Qed.

#[global] Instance res_eq_dec {E A} `{EqDecision E} `{EqDecision A} : EqDecision (res E A).
Proof. solve_decision. Defined.

(** ** Automation *)

(** Split one [match] or [if] of a hypothesis or of the goal, keeping its equation. *)
Ltac go_case_in H :=
  match type of H with
  | context [ match ?x with _ => _ end ] => destruct x eqn:?; simplify_eq/=
  end.

Ltac go_case :=
  match goal with
  | |- context [ match ?x with _ => _ end ] => destruct x eqn:?; simplify_eq/=
  end.

(** Break a chain of early returns that ended in success. *)
Ltac go_ok H :=
  repeat first
    [ progress simplify_eq/=
    | apply res_bind_Ok in H as (? & ? & H)
    | go_case_in H ].

(** Boolean facts to propositions. *)
Ltac bool_prop :=
  repeat match goal with
  | H : (_ && _)%bool = true |- _ => apply andb_prop in H as [??]
  | H : (_ || _)%bool = false |- _ => apply orb_false_elim in H as [??]
  | H : negb _ = true |- _ => apply negb_true_iff in H
  | H : negb _ = false |- _ => apply negb_false_iff in H
  | H : bool_decide _ = true |- _ => apply bool_decide_eq_true_1 in H
  | H : bool_decide _ = false |- _ => apply bool_decide_eq_false_1 in H
  | H : Z.leb _ _ = true |- _ => apply Z.leb_le in H
  | H : Z.leb _ _ = false |- _ => apply Z.leb_gt in H
  | H : Z.ltb _ _ = true |- _ => apply Z.ltb_lt in H
  | H : Z.ltb _ _ = false |- _ => apply Z.ltb_ge in H
  | H : Z.eqb _ _ = true |- _ => apply Z.eqb_eq in H
  | H : Z.eqb _ _ = false |- _ => apply Z.eqb_neq in H
  | H : Nat.leb _ _ = true |- _ => apply Nat.leb_le in H
  | H : Nat.leb _ _ = false |- _ => apply Nat.leb_gt in H
  | H : Nat.ltb _ _ = true |- _ => apply Nat.ltb_lt in H
  | H : Nat.ltb _ _ = false |- _ => apply Nat.ltb_ge in H
  | H : Nat.eqb _ _ = true |- _ => apply Nat.eqb_eq in H
  | H : Nat.eqb _ _ = false |- _ => apply Nat.eqb_neq in H
  | H : String.eqb _ _ = true |- _ => apply String.eqb_eq in H
  | H : String.eqb _ _ = false |- _ => apply String.eqb_neq in H
  end.

Create HintDb aegis discriminated.

(** ** Machine integers of Go on linux/amd64 *)

Definition int_min : Z := (-2^63)%Z.
Definition int_max : Z := (2^63 - 1)%Z.
Definition uint32_max : Z := (2^32 - 1)%Z.
Definition wrap64 (z : Z) : Z := ((z + 2^63) mod 2^64 - 2^63)%Z.
Definition wrapu64 (z : Z) : Z := (z mod 2^64)%Z.
Definition wrapu32 (z : Z) : Z := (z mod 2^32)%Z.

Lemma wrap64_id z : (int_min ≤ z ≤ int_max)%Z → wrap64 z = z.
Proof. unfold wrap64, int_min, int_max. intros H. rewrite Z.mod_small; lia. Qed.

Lemma wrap64_range z : (int_min ≤ wrap64 z ≤ int_max)%Z.
Proof.
  unfold wrap64, int_min, int_max.
  pose proof (Z.mod_pos_bound (z + 2^63) (2^64) ltac:(lia)). lia.
Qed.

(** ** Lists *)

Lemma take_drop_middle_eq {A} (l : list A) i x :
  l !! i = Some x → l = take i l ++ x :: drop (S i) l.
Proof. intros H. by rewrite take_drop_middle. Qed.

Lemma list_lookup_app_cons {A} (l1 l2 : list A) x :
  (l1 ++ x :: l2) !! length l1 = Some x.
Proof. rewrite lookup_app_r by lia. by rewrite Nat.sub_diag. Qed.

Lemma filter_all {A} (P : A → Prop) `{∀ x, Decision (P x)} (l : list A) :
  Forall P l → filter P l = l.
Proof. induction 1; [done|]. rewrite filter_cons_True by done. by f_equal. Qed.

Lemma filter_none {A} (P : A → Prop) `{∀ x, Decision (P x)} (l : list A) :
  Forall (λ x, ¬ P x) l → filter P l = [].
Proof. induction 1; [done|]. by rewrite filter_cons_False by done. Qed.

Lemma elem_of_merge_sort {A} (R : A → A → Prop) `{∀ x y, Decision (R x y)} (x : A) (l : list A) :
  x ∈ merge_sort R l ↔ x ∈ l.
Proof. by rewrite (merge_sort_Permutation R l). Qed.
