(* ===== verification/GoStrings.v ===== *)
(** * Go strings

    The functions of [strings], [strconv], [unicode/utf8] and [sort] the program
    calls, on byte strings.  A Go string is a sequence of bytes, here a Rocq
    [string].  White space is Go's [unicode.IsSpace], recognised on the UTF-8
    encoding of the code point; the case tables above ASCII are the class
    [UnicodeCase]. *)

From S2P Require Import Prelude.
From stdpp Require Export sorting pretty.
From Stdlib Require Import Ascii String.
#[local] Open Scope Z_scope.


#[global] Arguments String.append !_ _ /.
Infix "+++" := String.append (at level 60, right associativity) : go_scope.

Definition byte (c : ascii) : Z := Z.of_N (N_of_ascii c).
Definition chr (z : Z) : ascii := ascii_of_N (Z.to_N z).
Definition slen (s : string) : Z := Z.of_nat (String.length s).

Definition nl : ascii := "010"%char.
Definition cr : ascii := "013"%char.
Definition nul : ascii := "000"%char.
Definition snl : string := String nl "".
Definition snul : string := String nul "".

(** A byte-range class, such as [a-z]. *)
Definition between (lo hi : ascii) (c : ascii) : bool :=
  (byte lo <=? byte c) && (byte c <=? byte hi).
Definition is_digit : ascii → bool := between "0" "9".
Definition is_lower : ascii → bool := between "a" "z".
Definition is_upper : ascii → bool := between "A" "Z".
Definition is_ascii_byte (c : ascii) : bool := byte c <? 128.

Fixpoint sforall (p : ascii → bool) (s : string) : bool :=
  match s with
  | EmptyString => true
  | String c s' => p c && sforall p s'
  end.

Fixpoint sexists (p : ascii → bool) (s : string) : bool :=
  match s with
  | EmptyString => false
  | String c s' => p c || sexists p s'
  end.

Definition contains_byte (c : ascii) (s : string) : bool := sexists (Ascii.eqb c) s.
(** [strings.ContainsAny] for a set of ASCII bytes. *)
Definition contains_any (s chars : string) : bool := sexists (λ c, contains_byte c chars) s.
Definition digits_only (s : string) : bool := negb (String.eqb s "") && sforall is_digit s.

Definition smap (f : ascii → ascii) : string → string :=
  fix go s := match s with EmptyString => EmptyString | String c s' => String (f c) (go s') end.

(** ** Prefixes, suffixes, substrings *)

Definition has_prefix (s p : string) : bool := String.prefix p s.

Fixpoint sdrop (n : nat) (s : string) : string :=
  match n, s with
  | O, _ => s
  | S n, EmptyString => EmptyString
  | S n, String _ s' => sdrop n s'
  end.

Fixpoint stake (n : nat) (s : string) : string :=
  match n, s with
  | O, _ => EmptyString
  | S n, EmptyString => EmptyString
  | S n, String c s' => String c (stake n s')
  end.

Definition has_suffix (s p : string) : bool :=
  (String.length p <=? String.length s)%nat &&
  String.eqb (sdrop (String.length s - String.length p) s) p.

Definition trim_prefix (s p : string) : string :=
  if has_prefix s p then sdrop (String.length p) s else s.
Definition trim_suffix (s p : string) : string :=
  if has_suffix s p then stake (String.length s - String.length p) s else s.

Fixpoint contains (s sub : string) : bool :=
  has_prefix s sub ||
  match s with EmptyString => false | String _ s' => contains s' sub end.

(** ** White space: [unicode.IsSpace] on UTF-8 *)

Definition ascii_space (c : ascii) : bool :=
  let b := byte c in (b =? 32) || ((9 <=? b) && (b <=? 13)).
(** U+0085 and U+00A0. *)
Definition space2 (a b : ascii) : bool :=
  (byte a =? 194) && ((byte b =? 133) || (byte b =? 160)).
(** U+1680, U+2000..U+200A, U+2028, U+2029, U+202F, U+205F, U+3000. *)
Definition space3 (a b c : ascii) : bool :=
  let a := byte a in let b := byte b in let c := byte c in
  ((a =? 225) && (b =? 154) && (c =? 128)) ||
  ((a =? 226) && (b =? 128) &&
    (((128 <=? c) && (c <=? 138)) || (c =? 168) || (c =? 169) || (c =? 175))) ||
  ((a =? 226) && (b =? 129) && (c =? 159)) ||
  ((a =? 227) && (b =? 128) && (c =? 128)).

(** Width in bytes of the white-space code point at the head of [s], 0 if none. *)
Definition space_width (s : string) : nat :=
  match s with
  | EmptyString => 0
  | String a s1 =>
      if ascii_space a then 1
      else match s1 with
      | EmptyString => 0
      | String b s2 =>
          if space2 a b then 2
          else match s2 with
          | EmptyString => 0
          | String c _ => if space3 a b c then 3 else 0
          end
      end
  end%nat.

Fixpoint trim_left_from (skip : nat) (s : string) : string :=
  match s with
  | EmptyString => EmptyString
  | String _ s' =>
      match skip with
      | S k => trim_left_from k s'
      | O => match space_width s with O => s | S k => trim_left_from k s' end
      end
  end.
Definition trim_left_space := trim_left_from 0.

(** The string is a sequence of white-space code points. *)
Fixpoint all_space_from (skip : nat) (s : string) : bool :=
  match s with
  | EmptyString => match skip with O => true | _ => false end
  | String _ s' =>
      match skip with
      | S k => all_space_from k s'
      | O => match space_width s with O => false | S k => all_space_from k s' end
      end
  end.
Definition all_space := all_space_from 0.

Fixpoint trim_right_space (s : string) : string :=
  match s with
  | EmptyString => EmptyString
  | String c s' => if all_space s then EmptyString else String c (trim_right_space s')
  end.

Definition trim_space (s : string) : string := trim_right_space (trim_left_space s).

(** [strings.Fields]. *)
Definition flush (cur : string) (rest : list string) : list string :=
  if String.eqb cur "" then rest else cur :: rest.
Fixpoint fields_from (skip : nat) (cur s : string) : list string :=
  match s with
  | EmptyString => flush cur []
  | String c s' =>
      match skip with
      | S k => fields_from k cur s'
      | O => match space_width s with
             | O => fields_from 0 (cur +++ String c "") s'
             | S k => flush cur (fields_from k "" s')
             end
      end
  end.
Definition fields (s : string) : list string := fields_from 0 "" s.

(** ** Splitting, joining, cutting *)

Fixpoint split (sep : ascii) (s : string) : list string :=
  match s with
  | EmptyString => [EmptyString]
  | String c s' =>
      if Ascii.eqb c sep then EmptyString :: split sep s'
      else match split sep s' with
           | [] => [String c ""]
           | x :: l => String c x :: l
           end
  end.

Fixpoint join (sep : string) (l : list string) : string :=
  match l with
  | [] => ""
  | [x] => x
  | x :: l => x +++ sep +++ join sep l
  end.

(** [strings.Cut] at a one-byte separator: before, after, found. *)
Fixpoint cut (sep : ascii) (s : string) : string * string * bool :=
  match s with
  | EmptyString => ("", "", false)
  | String c s' =>
      if Ascii.eqb c sep then ("", s', true)
      else let '(a, b, f) := cut sep s' in (String c a, b, f)
  end.

(** [strings.SplitN(s, sep, 2)[0]]. *)
Definition before (sep : ascii) (s : string) : string := let '(a, _, _) := cut sep s in a.

(** [strings.Trim] and [strings.TrimRight], [strings.TrimLeft] for an ASCII cut set. *)
Fixpoint trim_left_set (p : ascii → bool) (s : string) : string :=
  match s with
  | EmptyString => EmptyString
  | String c s' => if p c then trim_left_set p s' else s
  end.
Fixpoint trim_right_set (p : ascii → bool) (s : string) : string :=
  match s with
  | EmptyString => EmptyString
  | String c s' => if sforall p s then EmptyString else String c (trim_right_set p s')
  end.
Definition trim_set (p : ascii → bool) (s : string) : string := trim_right_set p (trim_left_set p s).

(** [strings.ReplaceAll(s, CR LF, LF)]. *)
Fixpoint crlf_to_lf (s : string) : string :=
  match s with
  | EmptyString => EmptyString
  | String c s' =>
      match s' with
      | String d s'' =>
          if Ascii.eqb c cr && Ascii.eqb d nl then crlf_to_lf s' else String c (crlf_to_lf s')
      | EmptyString => s
      end
  end.

(** ** Case *)

Class UnicodeCase := {
  to_lower_unicode : string → string;   (** [strings.ToLower] on a string with a non-ASCII byte *)
  to_upper_unicode : string → string;
}.
(** An instance for concrete runs: no case outside ASCII. *)
Definition ascii_case : UnicodeCase := {| to_lower_unicode := id; to_upper_unicode := id |}.
Definition ascii_lower (c : ascii) : ascii := if is_upper c then chr (byte c + 32) else c.
Definition ascii_upper (c : ascii) : ascii := if is_lower c then chr (byte c - 32) else c.
Definition is_ascii (s : string) : bool := sforall is_ascii_byte s.
Definition to_lower `{UnicodeCase} (s : string) : string :=
  if is_ascii s then smap ascii_lower s else to_lower_unicode s.
Definition to_upper `{UnicodeCase} (s : string) : string :=
  if is_ascii s then smap ascii_upper s else to_upper_unicode s.

(** ** [strconv] *)

Definition digit_value (c : ascii) : Z := byte c - 48.

Fixpoint digits_value (acc : Z) (s : string) : Z :=
  match s with
  | EmptyString => acc
  | String c s' => digits_value (10 * acc + digit_value c) s'
  end.

Inductive num_error := ErrSyntax | ErrRange.

Definition split_sign (s : string) : bool * string :=
  match s with
  | String c s' => if Ascii.eqb c "-" then (true, s')
                   else if Ascii.eqb c "+" then (false, s') else (false, s)
  | EmptyString => (false, s)
  end.

(** [strconv.Atoi] and [strconv.ParseInt(s, 10, 64)]: the value Go returns beside
    the error is 0 on a syntax error and the nearest bound on a range error. *)
Definition atoi_full (s : string) : Z * option num_error :=
  let '(neg, digits) := split_sign s in
  if digits_only digits then
    let v := digits_value 0 digits in
    if (neg : bool)
    then if v <=? 2^63 then (- v, None) else (int_min, Some ErrRange)
    else if v <=? int_max then (v, None) else (int_max, Some ErrRange)
  else (0, Some ErrSyntax).

Definition atoi (s : string) : option Z :=
  match atoi_full s with (v, None) => Some v | (_, Some _) => None end.
(** [v, _ := strconv.Atoi(s)] *)
Definition atoi_val (s : string) : Z := (atoi_full s).1.

(** [strconv.ParseUint(s, 10, 32)] *)
Definition parse_uint32 (s : string) : option Z :=
  if digits_only s then
    let v := digits_value 0 s in if v <=? uint32_max then Some v else None
  else None.

Definition itoa (z : Z) : string := pretty z.

(** [strconv.ParseBool] *)
Definition parse_bool (s : string) : option bool :=
  if existsb (String.eqb s) ["1"; "t"; "T"; "TRUE"; "true"; "True"] then Some true
  else if existsb (String.eqb s) ["0"; "f"; "F"; "FALSE"; "false"; "False"] then Some false
  else None.

(** ** [unicode/utf8] *)

Definition is_cont (lo hi : Z) (c : ascii) : bool := (lo <=? byte c) && (byte c <=? hi).

(** Width of the valid UTF-8 sequence at the head of [s]; 0 when it is invalid. *)
Definition rune_width (s : string) : nat :=
  match s with
  | EmptyString => 0%nat
  | String a s1 =>
    let x := byte a in
    if x <? 128 then 1%nat
    else match s1 with
    | EmptyString => 0%nat
    | String b s2 =>
      if (194 <=? x) && (x <=? 223) then (if is_cont 128 191 b then 2%nat else 0%nat)
      else match s2 with
      | EmptyString => 0%nat
      | String c s3 =>
        if x =? 224 then (if is_cont 160 191 b && is_cont 128 191 c then 3%nat else 0%nat)
        else if x =? 237 then (if is_cont 128 159 b && is_cont 128 191 c then 3%nat else 0%nat)
        else if (225 <=? x) && (x <=? 239) then (if is_cont 128 191 b && is_cont 128 191 c then 3%nat else 0%nat)
        else match s3 with
        | EmptyString => 0%nat
        | String d _ =>
          let tail := is_cont 128 191 c && is_cont 128 191 d in
          if x =? 240 then (if is_cont 144 191 b && tail then 4%nat else 0%nat)
          else if x =? 244 then (if is_cont 128 143 b && tail then 4%nat else 0%nat)
          else if (241 <=? x) && (x <=? 243) then (if is_cont 128 191 b && tail then 4%nat else 0%nat)
          else 0%nat
        end
      end
    end
  end.

Fixpoint rune_scan (skip : nat) (s : string) : Z * bool :=
  match s with
  | EmptyString => (0, true)
  | String _ s' =>
      match skip with
      | S k => rune_scan k s'
      | O => match rune_width s with
             | O => let '(n, _) := rune_scan 0 s' in (n + 1, false)
             | S k => let '(n, v) := rune_scan k s' in (n + 1, v)
             end
      end
  end.
(** [utf8.RuneCountInString] (an invalid byte counts one) and [utf8.ValidString]. *)
Definition rune_count (s : string) : Z := (rune_scan 0 s).1.
Definition valid_utf8 (s : string) : bool := (rune_scan 0 s).2.

(** [strings.ToValidUTF8] with U+FFFD: runs of invalid bytes become one U+FFFD. *)
Definition replacement_rune : string := String "239" (String "191" (String "189" "")).
Fixpoint to_valid_utf8 (skip : nat) (in_run : bool) (s : string) : string :=
  match s with
  | "" => ""
  | String c s' =>
      match skip with
      | S k => String c (to_valid_utf8 k false s')
      | O => match rune_width s with
             | O => if in_run then to_valid_utf8 0 true s' else replacement_rune +++ to_valid_utf8 0 true s'
             | S k => String c (to_valid_utf8 k false s')
             end
      end
  end.

(** ** Order and sorting *)

Definition str_le (s t : string) : Prop := String.leb s t = true.
Definition str_ltb (s t : string) : bool := String.ltb s t.
#[export] Instance str_le_dec s t : Decision (str_le s t).
Proof. exact (decide (String.leb s t = true)). Defined.
(** [sort.Strings] *)
Definition sort_strings (l : list string) : list string := merge_sort str_le l.

(** Order-preserving removal of duplicates through a [seen] map. *)
Fixpoint unique_from (seen : list string) (l : list string) : list string :=
  match l with
  | [] => []
  | x :: l' => if existsb (String.eqb x) seen then unique_from seen l'
               else x :: unique_from (x :: seen) l'
  end.

(** ** Facts: append, length *)

Lemma sapp_nil_r s : s +++ "" = s.
Proof. induction s; simpl; by f_equal. Qed.

Lemma sapp_assoc s t u : (s +++ t) +++ u = s +++ t +++ u.
Proof. induction s; simpl; by f_equal. Qed.

Lemma sapp_length s t : String.length (s +++ t) = (String.length s + String.length t)%nat.
Proof. induction s; simpl; by f_equal. Qed.

Lemma sapp_inj_l s t u : s +++ t = s +++ u → t = u.
Proof. induction s; simpl; [done|]. intros [=]. auto. Qed.

Lemma sapp_cons c s t : String c s +++ t = String c (s +++ t).
Proof. done. Qed.

Lemma slen_nonneg s : 0 ≤ slen s.
Proof. unfold slen. lia. Qed.

Lemma sforall_app p s t : sforall p (s +++ t) = sforall p s && sforall p t.
Proof. induction s; simpl; [done|]. by rewrite IHs, andb_assoc. Qed.

Lemma sexists_app p s t : sexists p (s +++ t) = sexists p s || sexists p t.
Proof. induction s; simpl; [done|]. by rewrite IHs, orb_assoc. Qed.

Lemma sexists_false p s : sexists p s = false ↔ sforall (λ c, negb (p c)) s = true.
Proof.
  induction s as [|c s IH]; simpl; [done|].
  rewrite orb_false_iff, andb_true_iff, negb_true_iff. naive_solver.
Qed.

Lemma sforall_impl (p q : ascii → bool) s :
  (∀ c, p c = true → q c = true) → sforall p s = true → sforall q s = true.
Proof. intros H. induction s; simpl; [done|]. rewrite !andb_true_iff. naive_solver. Qed.

Lemma sforall_not_contains (p : ascii → bool) c s :
  p c = false → sforall p s = true → contains_byte c s = false.
Proof.
  intros Hp. unfold contains_byte. induction s as [|d s IH]; simpl; [done|].
  intros [Hd Hs]%andb_prop. rewrite (IH Hs), orb_false_r.
  apply Ascii.eqb_neq. intros ->. congruence.
Qed.

Lemma has_prefix_app s p : has_prefix (p +++ s) p = true.
Proof. induction p; simpl; [by destruct s|]. unfold has_prefix in *. simpl. by case_match. Qed.

Lemma has_prefix_spec s p : has_prefix s p = true ↔ ∃ t, s = p +++ t.
Proof.
  split.
  - unfold has_prefix. revert s. induction p as [|c p IH]; intros s; simpl; [by eauto|].
    destruct s as [|d s]; simpl; [done|]. case_match; [subst|done].
    intros [t ->]%IH. by exists t.
  - intros [t ->]. apply has_prefix_app.
Qed.

Lemma sdrop_app s t : sdrop (String.length s) (s +++ t) = t.
Proof. induction s; simpl; [done|]. done. Qed.

Lemma stake_app s t : stake (String.length s) (s +++ t) = s.
Proof. induction s; simpl; [by destruct t|]. by f_equal. Qed.

Lemma stake_sdrop n s : stake n s +++ sdrop n s = s.
Proof. revert s. induction n; intros [|c s]; simpl; by f_equal. Qed.

Lemma stake_length n s : String.length (stake n s) = Nat.min n (String.length s).
Proof. revert s. induction n; intros [|c s]; simpl; by f_equal. Qed.

Lemma has_suffix_app s p : has_suffix (s +++ p) p = true.
Proof.
  unfold has_suffix. rewrite sapp_length. apply andb_true_intro; split.
  - apply Nat.leb_le. lia.
  - replace (String.length s + String.length p - String.length p)%nat with (String.length s) by lia.
    rewrite sdrop_app. apply String.eqb_refl.
Qed.

Lemma has_suffix_spec s p : has_suffix s p = true ↔ ∃ t, s = t +++ p.
Proof.
  split; [|intros [t ->]; apply has_suffix_app].
  unfold has_suffix. intros [_ Heq%String.eqb_eq]%andb_prop.
  eexists. by rewrite <- (stake_sdrop (String.length s - String.length p) s), Heq at 1.
Qed.

Lemma trim_suffix_app s p : trim_suffix (s +++ p) p = s.
Proof.
  unfold trim_suffix. rewrite has_suffix_app, sapp_length, Nat.add_sub. apply stake_app.
Qed.

Lemma trim_prefix_app s p : trim_prefix (p +++ s) p = s.
Proof. unfold trim_prefix. rewrite has_prefix_app. apply sdrop_app. Qed.
