(* ===== verification/StringFacts.v ===== *)
(** * Facts about the Go string functions

    White space, [Fields], [Split]/[Join], [Cut], numbers and the order on
    strings: the lemmas the components share. *)

From S2P Require Import Prelude GoStrings.
From Stdlib Require Import Ascii String.
#[local] Open Scope Z_scope.

(** ** White space *)

Ltac space_cases :=
  unfold space_width in *; simpl in *; repeat case_match; simplify_eq/=; try done.

Lemma space_width_app u v : space_width u ≠ 0%nat → space_width (u +++ v) = space_width u.
Proof. destruct u as [|a [|b [|c u]]]; intros; space_cases. Qed.

Lemma space_width_prefix u v : space_width (u +++ v) = 0%nat → space_width u = 0%nat.
Proof.
  intros H. destruct (space_width u) eqn:E; [done|].
  rewrite <- E, <- H. symmetry. apply space_width_app. by rewrite E.
Qed.

Lemma space2_ascii a c : is_ascii_byte c = true → space2 a c = false.
Proof.
  unfold is_ascii_byte, space2. intros ?%Z.ltb_lt.
  apply andb_false_intro2, orb_false_intro; apply Z.eqb_neq; lia.
Qed.

Lemma space3_ascii2 a c d : is_ascii_byte c = true → space3 a c d = false.
Proof.
  unfold is_ascii_byte, space3. intros ?%Z.ltb_lt.
  assert (∀ k, 128 ≤ k → (byte c =? k) = false) as Hk by (intros; apply Z.eqb_neq; lia).
  by rewrite !Hk, !andb_false_r by lia.
Qed.

Lemma space3_ascii3 a b c : is_ascii_byte c = true → space3 a b c = false.
Proof.
  unfold is_ascii_byte, space3. intros ?%Z.ltb_lt.
  assert (∀ k, 128 ≤ k → (byte c =? k) = false) as Hk by (intros; apply Z.eqb_neq; lia).
  assert ((128 <=? byte c) = false) as -> by (apply Z.leb_gt; lia).
  by rewrite !Hk, !andb_false_r by lia.
Qed.

Lemma space_width_app_ascii u c v :
  u ≠ "" → is_ascii_byte c = true → space_width u = 0%nat → space_width (u +++ String c v) = 0%nat.
Proof.
  intros Hu Hc. destruct u as [|a [|b [|d u]]]; [done|..]; unfold space_width; simpl.
  - case_match; [done|]. rewrite space2_ascii by done.
    destruct v; [done|]. by rewrite space3_ascii2.
  - repeat (case_match; [done|]). by rewrite space3_ascii3.
  - done.
Qed.

(** No position of the string starts a white-space code point. *)
Fixpoint spaceless (s : string) : bool :=
  match s with
  | EmptyString => true
  | String _ s' => Nat.eqb (space_width s) 0 && spaceless s'
  end.

(** No position of [cur] starts one when [s] follows. *)
Fixpoint clean (cur s : string) : Prop :=
  match cur with
  | EmptyString => True
  | String _ cur' => space_width (cur +++ s) = 0%nat ∧ clean cur' s
  end.

Lemma clean_snoc cur c s :
  clean cur (String c s) → space_width (String c s) = 0%nat → clean (cur +++ String c "") s.
Proof.
  induction cur as [|d cur IH]; simpl; [done|]. intros [Hd Hc] Hs. split; [|auto].
  by rewrite sapp_assoc.
Qed.

Lemma clean_spaceless cur s : clean cur s → spaceless cur = true.
Proof.
  induction cur as [|d cur IH]; [done|]. cbn [clean spaceless]. intros [Hd Hc].
  rewrite IH by done. by rewrite (space_width_prefix _ _ Hd).
Qed.

Definition is_field (f : string) : Prop := f ≠ "" ∧ spaceless f = true.

Lemma flush_Forall P cur rest :
  (cur ≠ "" → P cur) → Forall P rest → Forall P (flush cur rest).
Proof.
  intros Hc Hr. unfold flush. case_match eqn:E; [done|]. constructor; [|done].
  by apply Hc, String.eqb_neq.
Qed.

Lemma fields_from_is_field s : ∀ skip cur,
  (skip = 0%nat → clean cur s) → (skip ≠ 0%nat → cur = "") → Forall is_field (fields_from skip cur s).
Proof.
  induction s as [|c s IH]; intros skip cur Hc Hs; simpl.
  - apply flush_Forall; [|done]. intros Hne. split; [done|].
    destruct skip; [|by rewrite Hs in Hne]. by eapply clean_spaceless, Hc.
  - destruct skip as [|k].
    + case_match eqn:E.
      * apply IH; [|done]. intros _. apply clean_snoc; auto.
      * apply flush_Forall.
        { intros. split; [done|]. by eapply clean_spaceless, Hc. }
        apply IH; [|done]. by destruct n.
    + apply IH; [|by intros; apply Hs]. intros ->. by rewrite Hs.
Qed.

Lemma fields_is_field s : Forall is_field (fields s).
Proof. by apply fields_from_is_field. Qed.

Lemma spaceless_cons c s :
  spaceless (String c s) = true ↔ space_width (String c s) = 0%nat ∧ spaceless s = true.
Proof. cbn [spaceless]. by rewrite andb_true_iff, Nat.eqb_eq. Qed.

(** An ASCII byte that is neither a space nor a control never starts a white space. *)
Definition graphic (c : ascii) : bool := (32 <? byte c) && (byte c <? 128).

Lemma graphic_width c s : graphic c = true → space_width (String c s) = 0%nat.
Proof.
  unfold graphic, space_width, ascii_space, space2, space3. intros [Hlo Hhi]%andb_prop.
  apply Z.ltb_lt in Hlo, Hhi.
  rewrite (proj2 (Z.eqb_neq (byte c) 32)) by lia.
  rewrite (proj2 (Z.leb_gt (byte c) 13)) by lia. rewrite andb_false_r. cbn [orb].
  rewrite (proj2 (Z.eqb_neq (byte c) 194)), (proj2 (Z.eqb_neq (byte c) 225)),
    (proj2 (Z.eqb_neq (byte c) 226)), (proj2 (Z.eqb_neq (byte c) 227)) by lia.
  by destruct s as [|? [|? ?]].
Qed.

Lemma graphic_spaceless s : sforall graphic s = true → spaceless s = true.
Proof.
  induction s as [|c s IH]; [done|]. cbn [sforall]. intros [Hc Hs]%andb_prop.
  apply spaceless_cons. split; [by apply graphic_width|auto].
Qed.

Lemma graphic_field s : s ≠ "" → sforall graphic s = true → is_field s.
Proof. intros. split; [done|by apply graphic_spaceless]. Qed.

Lemma fields_from_field f : ∀ cur rest,
  spaceless f = true → (rest = "" ∨ ∃ c r, rest = String c r ∧ is_ascii_byte c = true) →
  fields_from 0 cur (f +++ rest) = fields_from 0 (cur +++ f) rest.
Proof.
  induction f as [|c f IH]; intros cur rest Hf Hr; [by rewrite sapp_nil_r|].
  apply spaceless_cons in Hf as [Hw Hf]. rewrite sapp_cons. cbn [fields_from].
  assert (space_width (String c (f +++ rest)) = 0%nat) as ->.
  { destruct Hr as [->|(d & r & -> & Hd)]; [by rewrite sapp_nil_r|].
    by apply (space_width_app_ascii (String c f)). }
  rewrite IH by done. by rewrite sapp_assoc.
Qed.

Lemma fields_join l : Forall is_field l → fields (join " " l) = l.
Proof.
  unfold fields. induction 1 as [|f l [Hne Hf] Hl IH]; [done|].
  assert (Hflush : ∀ r, flush f r = f :: r).
  { intros r. unfold flush. by rewrite (proj2 (String.eqb_neq _ _) Hne). }
  destruct l as [|g l].
  - simpl. rewrite <- (sapp_nil_r f) at 1. rewrite fields_from_field by auto. apply Hflush.
  - cbn [join]. rewrite (fields_from_field f "" _ Hf); [|right; by eexists _, _].
    transitivity (flush f (fields_from 0 "" (join " " (g :: l)))); [done|].
    by rewrite IH, Hflush.
Qed.

Lemma fields_field s : is_field s → fields s = [s].
Proof. intros Hs. apply (fields_join [s]). by apply Forall_singleton. Qed.

(** ** TrimSpace *)

Lemma trim_left_from_spec s : ∀ k,
  space_width (trim_left_from k s) = 0%nat ∧ ∃ p, s = p +++ trim_left_from k s.
Proof.
  induction s as [|c s IH]; intros k; [by split; [|exists ""]|]. cbn [trim_left_from].
  assert (∀ k, ∃ p, String c s = p +++ trim_left_from k s) as Hx.
  { intros j. destruct (proj2 (IH j)) as [p Hp]. exists (String c p). simpl. by rewrite <- Hp. }
  destruct k; [|split; [apply IH|apply Hx]].
  destruct (space_width (String c s)) eqn:E; [by split; [|exists ""]|].
  split; [apply IH|apply Hx].
Qed.

Lemma trim_left_id s : space_width s = 0%nat → trim_left_space s = s.
Proof. unfold trim_left_space. destruct s; [done|]. cbn [trim_left_from]. by intros ->. Qed.

Lemma trim_right_prefix s : ∃ t, s = trim_right_space s +++ t.
Proof.
  induction s as [|c s [t IH]]; [by exists ""|]. cbn [trim_right_space].
  case_match; [by eexists|]. exists t. by rewrite sapp_cons, <- IH.
Qed.

Lemma all_space_from_app s : ∀ k t,
  all_space_from k s = true → all_space_from 0 t = true → all_space_from k (s +++ t) = true.
Proof.
  induction s as [|c s IH]; intros k t Hs Ht; [by destruct k|].
  rewrite sapp_cons. cbn [all_space_from] in *. destruct k; [|by apply IH].
  destruct (space_width (String c s)) eqn:E; [done|].
  rewrite <- (sapp_cons c s t), space_width_app, E by (by rewrite E). by apply IH.
Qed.

Lemma trim_right_rest_space s t : s = trim_right_space s +++ t → all_space t = true.
Proof.
  revert t. induction s as [|c s IH]; intros t; cbn [trim_right_space]; simpl; [by intros <-|].
  case_match eqn:E; simpl; [by intros <-|]. intros [= Ht]. auto.
Qed.

Lemma trim_right_idemp s : trim_right_space (trim_right_space s) = trim_right_space s.
Proof.
  induction s as [|c s IH]; [done|]. cbn [trim_right_space]. case_match eqn:E; [done|].
  cbn [trim_right_space]. case_match eqn:E2; [|by rewrite IH].
  exfalso. destruct (trim_right_prefix s) as [t Ht].
  pose proof (trim_right_rest_space _ _ Ht) as Hs.
  pose proof (all_space_from_app _ _ _ E2 Hs) as Hall.
  rewrite sapp_cons, <- Ht in Hall. unfold all_space in *. congruence.
Qed.

Lemma trim_space_idemp s : trim_space (trim_space s) = trim_space s.
Proof.
  unfold trim_space. rewrite (trim_left_id (trim_right_space _)); [apply trim_right_idemp|].
  destruct (trim_right_prefix (trim_left_space s)) as [t Ht].
  apply (space_width_prefix _ t). rewrite <- Ht. apply trim_left_from_spec.
Qed.

Lemma trim_space_nil_iff_left s : trim_space s ≠ "" → space_width (trim_space s) = 0%nat.
Proof.
  intros _. unfold trim_space. destruct (trim_right_prefix (trim_left_space s)) as [t Ht].
  apply (space_width_prefix _ t). rewrite <- Ht. apply trim_left_from_spec.
Qed.

(** ** Split, join, cut *)

Lemma split_not_nil sep s : split sep s ≠ [].
Proof. destruct s; simpl; [done|]. repeat case_match; done. Qed.

Lemma split_cons_other sep c s :
  Ascii.eqb c sep = false →
  ∃ x l, split sep s = x :: l ∧ split sep (String c s) = String c x :: l.
Proof.
  intros Hc. simpl. rewrite Hc. pose proof (split_not_nil sep s).
  destruct (split sep s) as [|x l]; [done|]. eauto.
Qed.

Lemma join_cons_ne sep x l : l ≠ [] → join sep (x :: l) = x +++ sep +++ join sep l.
Proof. by destruct l. Qed.

Lemma join_split sep s : join (String sep "") (split sep s) = s.
Proof.
  induction s as [|c s IH]; [done|]. simpl. destruct (Ascii.eqb_spec c sep) as [->|Hne].
  - pose proof (split_not_nil sep s). destruct (split sep s); [done|]. by rewrite <- IH.
  - pose proof (split_not_nil sep s). destruct (split sep s) as [|x [|y l]]; [done|..];
      rewrite <- IH; done.
Qed.

Lemma split_no_sep sep s : Forall (λ x, contains_byte sep x = false) (split sep s).
Proof.
  induction s as [|c s IH]; simpl; [by repeat constructor|].
  destruct (Ascii.eqb_spec c sep) as [->|Hne]; [by constructor|].
  destruct (split sep s) as [|x l].
  - constructor; [|done]. unfold contains_byte. simpl. rewrite orb_false_r. by apply Ascii.eqb_neq.
  - inv IH. constructor; [|done]. unfold contains_byte in *. simpl.
    apply orb_false_intro; [by apply Ascii.eqb_neq|done].
Qed.

Lemma split_field sep x : contains_byte sep x = false → split sep x = [x].
Proof.
  unfold contains_byte. induction x as [|c x IH]; [done|]. simpl.
  intros [Hc Hx]%orb_false_elim. rewrite Ascii.eqb_sym, Hc. by rewrite IH.
Qed.

Lemma split_app_sep sep x s :
  contains_byte sep x = false → split sep (x +++ String sep s) = x :: split sep s.
Proof.
  unfold contains_byte. induction x as [|c x IH]; simpl; [by rewrite Ascii.eqb_refl|].
  intros [Hc Hx]%orb_false_elim. rewrite Ascii.eqb_sym, Hc. by rewrite IH.
Qed.

Lemma split_app sep a s : split sep (a +++ String sep s) = split sep a ++ split sep s.
Proof.
  induction a as [|c a IH]; simpl; [by rewrite Ascii.eqb_refl|]. destruct (Ascii.eqb c sep); [by rewrite IH|].
  rewrite IH. pose proof (split_not_nil sep a). by destruct (split sep a).
Qed.

Lemma split_join sep l :
  l ≠ [] → Forall (λ x, contains_byte sep x = false) l →
  split sep (join (String sep "") l) = l.
Proof.
  induction l as [|x l IH]; [done|]. intros _ Hl. inv Hl.
  destruct l as [|y l]; [by apply split_field|].
  rewrite join_cons_ne by done. cbn [String.append].
  rewrite split_app_sep by done. by rewrite IH.
Qed.

Lemma cut_found sep s a b : cut sep s = (a, b, true) → s = a +++ String sep b ∧ contains_byte sep a = false.
Proof.
  revert a. induction s as [|c s IH]; intros a; simpl; [done|].
  destruct (Ascii.eqb_spec c sep) as [->|Hne]; [by intros [= <- <-]|].
  destruct (cut sep s) as [[a' b'] f] eqn:E. intros [= <- -> ->].
  destruct (IH a') as [-> Hc]; [done|]. split; [done|]. unfold contains_byte in *. simpl.
  apply orb_false_intro; [by apply Ascii.eqb_neq|done].
Qed.

Lemma cut_not_found sep s a b : cut sep s = (a, b, false) → a = s ∧ b = "" ∧ contains_byte sep s = false.
Proof.
  revert a. induction s as [|c s IH]; intros a; simpl; [by intros [= <- <-]|].
  destruct (Ascii.eqb_spec c sep) as [->|Hne]; [done|].
  destruct (cut sep s) as [[a' b'] f] eqn:E. intros [= <- -> ->].
  destruct (IH a') as (-> & -> & Hc); [done|]. split_and!; [done..|].
  unfold contains_byte in *. simpl. apply orb_false_intro; [by apply Ascii.eqb_neq|done].
Qed.

Lemma cut_app sep a b : contains_byte sep a = false → cut sep (a +++ String sep b) = (a, b, true).
Proof.
  unfold contains_byte. induction a as [|c a IH]; simpl; [by rewrite Ascii.eqb_refl|].
  intros [Hc Ha]%orb_false_elim. rewrite Ascii.eqb_sym, Hc. by rewrite IH.
Qed.

(** ** Numbers *)

Lemma digit_value_range c : is_digit c = true → 0 ≤ digit_value c ≤ 9.
Proof.
  unfold is_digit, between, digit_value. intros [H1 H2]%andb_prop.
  apply Z.leb_le in H1, H2. change (byte "0") with 48 in H1. change (byte "9") with 57 in H2. lia.
Qed.

Lemma digits_value_nonneg s acc : 0 ≤ acc → sforall is_digit s = true → 0 ≤ digits_value acc s.
Proof.
  revert acc. induction s as [|c s IH]; intros acc Ha; simpl; [done|].
  intros [Hc Hs]%andb_prop. apply IH; [|done]. pose proof (digit_value_range _ Hc). lia.
Qed.

Lemma atoi_full_range s : int_min ≤ (atoi_full s).1 ≤ int_max.
Proof.
  unfold atoi_full, int_min, int_max. destruct (split_sign s) as [neg s0].
  case_match eqn:Hd; simpl; [|lia]. unfold digits_only in Hd. bool_prop.
  pose proof (digits_value_nonneg s0 0 ltac:(lia) ltac:(done)).
  repeat case_match; simpl; bool_prop; lia.
Qed.

Lemma atoi_range s v : atoi s = Some v → int_min ≤ v ≤ int_max.
Proof.
  pose proof (atoi_full_range s) as H. unfold atoi. destruct (atoi_full s) as [? [?|]]; [done|].
  by intros [= <-].
Qed.

Lemma parse_uint32_range s v : parse_uint32 s = Some v → 0 ≤ v ≤ uint32_max.
Proof.
  unfold parse_uint32, digits_only. repeat case_match; [|done..]. intros [= <-]. bool_prop.
  split; [|done]. by apply digits_value_nonneg.
Qed.

(** ** Decimal numerals *)

Lemma pretty_N_char_digit d : (d < 10)%N →
  is_digit (pretty_N_char d) = true ∧ digit_value (pretty_N_char d) = Z.of_N d.
Proof.
  intros Hd. assert (d = 0 ∨ d = 1 ∨ d = 2 ∨ d = 3 ∨ d = 4 ∨ d = 5 ∨ d = 6 ∨ d = 7 ∨ d = 8 ∨ d = 9)%N as Hc by lia.
  repeat destruct Hc as [-> |Hc]; [by vm_compute..|]. by subst.
Qed.

Lemma pretty_N_go_digits x s :
  sforall is_digit (pretty_N_go x s) = sforall is_digit s ∧
  digits_value 0 (pretty_N_go x s) = digits_value (Z.of_N x) s.
Proof.
  revert s. induction (N.lt_wf_0 x) as [x _ IH]. intros s.
  destruct (decide (x = 0)%N) as [->|Hx]; [by rewrite pretty_N_go_0|].
  rewrite pretty_N_go_step by lia.
  destruct (IH (x `div` 10)%N) with (s := String (pretty_N_char (x `mod` 10)) s) as [-> ->].
  { apply N.div_lt; lia. }
  destruct (pretty_N_char_digit (x `mod` 10)) as [Hd Hv]; [by apply N.mod_lt|].
  cbn [sforall digits_value]. rewrite Hd, Hv. split; [done|]. f_equal.
  rewrite N2Z.inj_div, N2Z.inj_mod. pose proof (Z.div_mod (Z.of_N x) (Z.of_N 10)). lia.
Qed.

Lemma pretty_N_digits x : digits_only (pretty x) = true ∧ digits_value 0 (pretty x) = Z.of_N x.
Proof.
  unfold pretty, pretty_N. case_decide as Hx; [by subst|].
  destruct (pretty_N_go_digits x "") as [Hd Hv]. split; [|done].
  unfold digits_only. rewrite Hd, andb_true_r. apply negb_true_iff, String.eqb_neq. intros E.
  rewrite E in Hv. cbn in Hv. lia.
Qed.

Lemma digits_only_sign s : digits_only s = true → split_sign s = (false, s).
Proof.
  destruct s as [|c s]; [done|]. unfold digits_only. cbn [sforall split_sign]. intros Hd. bool_prop.
  assert (Ascii.eqb c "-" = false) as ->; [|assert (Ascii.eqb c "+" = false) as ->; [|done]];
    apply Ascii.eqb_neq; intros ->; done.
Qed.

(** Printing then reading an integer. *)
Lemma atoi_itoa z : int_min ≤ z ≤ int_max → atoi (itoa z) = Some z.
Proof.
  unfold int_min, int_max. intros Hz. unfold atoi, atoi_full, itoa, pretty, pretty_Z.
  destruct z as [|p|p]; [done|..].
  - change (pretty p) with (pretty (N.pos p)).
    destruct (pretty_N_digits (Npos p)) as [Hd Hv]. rewrite digits_only_sign, Hd, Hv by done.
    unfold int_max. rewrite (proj2 (Z.leb_le _ _)) by lia. done.
  - change (pretty p) with (pretty (N.pos p)). cbn [String.append split_sign Ascii.eqb Bool.eqb].
    destruct (pretty_N_digits (Npos p)) as [Hd Hv]. rewrite Hd, Hv.
    rewrite (proj2 (Z.leb_le _ _)) by lia. done.
Qed.

Lemma itoa_inj z z' : itoa z = itoa z' → z = z'.
Proof. apply (inj pretty). Qed.

Lemma itoa_digits z : 0 ≤ z → digits_only (itoa z) = true ∧ digits_value 0 (itoa z) = z.
Proof.
  intros Hz. destruct z as [|p|p]; [done| |lia]. destruct (pretty_N_digits (Npos p)) as [Hd Hv].
  split; [exact Hd|exact Hv].
Qed.

(** ** Order *)

Lemma ascii_compare_Lt_trans a b c :
  Ascii.compare a b = Lt → Ascii.compare b c = Lt → Ascii.compare a c = Lt.
Proof. unfold Ascii.compare. rewrite !N.compare_lt_iff. lia. Qed.

Lemma ascii_compare_Eq a b : Ascii.compare a b = Eq → a = b.
Proof. apply Ascii.compare_eq_iff. Qed.

Lemma ascii_compare_refl a : Ascii.compare a a = Eq.
Proof. unfold Ascii.compare. apply N.compare_refl. Qed.

Lemma str_compare_cons a s b t :
  String.compare (String a s) (String b t) =
  match Ascii.compare a b with Eq => String.compare s t | o => o end.
Proof. done. Qed.

Lemma str_le_compare s t : str_le s t ↔ String.compare s t ≠ Gt.
Proof. unfold str_le, String.leb. case_match; naive_solver. Qed.

#[export] Instance str_le_trans : Transitive str_le.
Proof.
  intros s t u. rewrite !str_le_compare. revert t u.
  induction s as [|a s IH]; intros [|b t] [|c u]; try done.
  rewrite !str_compare_cons.
  destruct (Ascii.compare a b) eqn:E1; destruct (Ascii.compare b c) eqn:E2; try done; intros H1 H2.
  - apply ascii_compare_Eq in E1 as ->, E2 as ->. rewrite ascii_compare_refl. eauto.
  - apply ascii_compare_Eq in E1 as ->. by rewrite E2.
  - apply ascii_compare_Eq in E2 as ->. by rewrite E1.
  - by rewrite (ascii_compare_Lt_trans _ _ _ E1 E2).
Qed.

#[export] Instance str_le_total : Total str_le.
Proof. intros s t. apply String.leb_total. Qed.

#[export] Instance str_le_antisymm : AntiSymm (=) str_le.
Proof. intros s t. apply String.leb_antisym. Qed.

#[export] Instance str_le_reflexive : Reflexive str_le.
Proof. intros s. destruct (total str_le s s); done. Qed.

Lemma sort_strings_perm l : sort_strings l ≡ₚ l.
Proof. apply merge_sort_Permutation. Qed.

Lemma sort_strings_sorted l : StronglySorted str_le (sort_strings l).
Proof. apply (StronglySorted_merge_sort str_le). Qed.

Lemma elem_of_sort_strings x l : x ∈ sort_strings l ↔ x ∈ l.
Proof. by rewrite sort_strings_perm. Qed.

(** ** Removal of duplicates *)

Lemma existsb_eqb_elem x l : existsb (String.eqb x) l = true ↔ x ∈ l.
Proof.
  rewrite existsb_exists. split.
  - intros (y & Hy & ->%String.eqb_eq). by apply list_elem_of_In.
  - intros H. exists x. by rewrite <- list_elem_of_In, String.eqb_refl.
Qed.

Lemma elem_of_unique_from x l seen : x ∈ unique_from seen l ↔ x ∈ l ∧ x ∉ seen.
Proof.
  revert seen. induction l as [|y l IH]; intros seen; simpl; [set_solver|].
  case_match eqn:E.
  - apply existsb_eqb_elem in E. rewrite IH. set_solver.
  - apply not_true_iff_false in E. rewrite existsb_eqb_elem in E.
    rewrite elem_of_cons, IH. destruct (decide (x = y)); set_solver.
Qed.

Lemma NoDup_unique_from l seen : NoDup (unique_from seen l).
Proof.
  revert seen. induction l as [|y l IH]; intros seen; simpl; [constructor|].
  case_match; [done|]. constructor; [|done]. rewrite elem_of_unique_from. set_solver.
Qed.

(** ** Bytes kept by cutting *)

Lemma sforall_sdrop p n s : sforall p s = true → sforall p (sdrop n s) = true.
Proof. revert s. induction n as [|n IH]; intros [|c s]; cbn [sdrop sforall]; try done. intros [_ ?]%andb_prop. auto. Qed.

Lemma sforall_stake p n s : sforall p s = true → sforall p (stake n s) = true.
Proof.
  revert s. induction n as [|n IH]; intros [|c s]; cbn [stake sforall]; try done.
  intros [-> ?]%andb_prop. cbn. auto.
Qed.

Lemma sforall_trim_prefix p s t : sforall p s = true → sforall p (trim_prefix s t) = true.
Proof. unfold trim_prefix. intros Hs. case_match; [by apply sforall_sdrop|done]. Qed.

Lemma sforall_trim_suffix p s t : sforall p s = true → sforall p (trim_suffix s t) = true.
Proof. unfold trim_suffix. intros Hs. case_match; [by apply sforall_stake|done]. Qed.

Lemma sforall_trim_right_set p q s : sforall p s = true → sforall p (trim_right_set q s) = true.
Proof.
  induction s as [|c s IH]; [done|]. cbn [trim_right_set]. destruct (sforall q (String c s)); [done|].
  cbn [sforall]. intros [-> ?]%andb_prop. cbn. auto.
Qed.

Lemma sforall_smap p f s : sforall p (smap f s) = sforall (λ c, p (f c)) s.
Proof. induction s as [|c s IH]; [done|]. cbn [smap sforall]. by rewrite IH. Qed.

Lemma sforall_weaken (p q : ascii → bool) s : (∀ c, p c = true → q c = true) → sforall p s = true → sforall q s = true.
Proof.
  intros Hpq. induction s as [|c s IH]; [done|]. cbn [sforall]. intros [Hc ?]%andb_prop. rewrite (Hpq c Hc). cbn. auto.
Qed.

Lemma contains_any_free s chars c : contains_any s chars = false → contains_byte c chars = true → contains_byte c s = false.
Proof.
  unfold contains_any. intros Hs Hc. induction s as [|d s IH]; [done|]. cbn [sexists] in Hs. bool_prop.
  unfold contains_byte in *. cbn [sexists]. rewrite IH by done. rewrite orb_false_r.
  destruct (Ascii.eqb_spec c d) as [->|]; congruence.
Qed.

Lemma contains_byte_sforall c s : contains_byte c s = false ↔ sforall (λ d, negb (Ascii.eqb c d)) s = true.
Proof.
  unfold contains_byte. induction s as [|d s IH]; [done|]. cbn [sexists sforall].
  rewrite orb_false_iff, andb_true_iff, negb_true_iff. by rewrite IH.
Qed.

Lemma has_prefix_weaken s t p : has_prefix s p = true → has_prefix (s +++ t) p = true.
Proof.
  unfold has_prefix. revert s. induction p as [|c p IH]; intros [|d s]; simpl; try done; [by destruct t|].
  destruct (ascii_dec c d); [apply IH|done].
Qed.

Lemma contains_byte_app c s t : contains_byte c (s +++ t) = contains_byte c s || contains_byte c t.
Proof. apply sexists_app. Qed.

Lemma sforall_suffix p s t : sforall p (s +++ t) = true → sforall p t = true.
Proof. rewrite sforall_app. by intros [_ ?]%andb_prop. Qed.

#[export] Hint Rewrite sapp_nil_r sapp_assoc sapp_length sforall_app sexists_app trim_space_idemp : aegis.
#[export] Hint Resolve fields_is_field split_not_nil split_no_sep atoi_range parse_uint32_range : aegis.
