(* ===== verification/Regex.v ===== *)
(** * Regular expressions

    The patterns the program compiles with [regexp.MustCompile] and tests with
    [MatchString].  A pattern is a syntax tree over byte classes; [rx_match] is the
    derivative matcher, [Lang] the language it denotes, and [rx_match_spec] relates
    them.  [full r] is the pattern [^r$], [search r] the unanchored one.  A negated
    class of the source matches whole code points; repeated, as the program uses it,
    it accepts the same strings byte by byte. *)

From S2P Require Import Prelude GoStrings StringFacts.
From Stdlib Require Import Ascii String.

Inductive rx : Type :=
| Void
| Eps
| Cls (p : ascii → bool)                     (** a byte class [[...]] *)
| Rep (p : ascii → bool) (lo hi : nat)       (** a class repeated, [[...]{lo,hi}] *)
| Cat (r1 r2 : rx)
| Alt (r1 r2 : rx)
| Star (r : rx).

Declare Scope rx_scope.
Delimit Scope rx_scope with rx.
Infix ";;;" := Cat (at level 62, right associativity) : rx_scope.
Infix "|||" := Alt : rx_scope.
#[global] Open Scope rx_scope.

Fixpoint lit (s : string) : rx :=
  match s with
  | EmptyString => Eps
  | String c EmptyString => Cls (Ascii.eqb c)
  | String c s' => Cls (Ascii.eqb c) ;;; lit s'
  end.
Definition plus (r : rx) : rx := r ;;; Star r.
Definition opt (r : rx) : rx := Alt Eps r.
Definition any_byte (c : ascii) : bool := true.
(** A class from a predicate for ranges and a list of single bytes. *)
Definition cls (p : ascii → bool) (chars : string) : ascii → bool :=
  λ c, p c || contains_byte c chars.

Fixpoint nullable (r : rx) : bool :=
  match r with
  | Void => false
  | Eps => true
  | Cls _ => false
  | Rep _ lo _ => Nat.eqb lo 0
  | Cat r1 r2 => nullable r1 && nullable r2
  | Alt r1 r2 => nullable r1 || nullable r2
  | Star _ => true
  end.

(** Constructors that drop the trivial branches the derivatives create. *)
Definition cat' (r1 r2 : rx) : rx :=
  match r1, r2 with
  | Void, _ => Void
  | _, Void => Void
  | Eps, r => r
  | r1, r2 => Cat r1 r2
  end.
Definition alt' (r1 r2 : rx) : rx :=
  match r1, r2 with
  | Void, r => r
  | r, Void => r
  | r1, r2 => Alt r1 r2
  end.

Fixpoint deriv (c : ascii) (r : rx) : rx :=
  match r with
  | Void => Void
  | Eps => Void
  | Cls p => if p c then Eps else Void
  | Rep p lo hi =>
      match hi with
      | O => Void
      | S hi' => if p c then Rep p (pred lo) hi' else Void
      end
  | Cat r1 r2 =>
      if nullable r1 then alt' (cat' (deriv c r1) r2) (deriv c r2) else cat' (deriv c r1) r2
  | Alt r1 r2 => alt' (deriv c r1) (deriv c r2)
  | Star r => cat' (deriv c r) (Star r)
  end.

Fixpoint rx_match (r : rx) (s : string) : bool :=
  match s with
  | EmptyString => nullable r
  | String c s' => rx_match (deriv c r) s'
  end.

Definition full (r : rx) (s : string) : bool := rx_match r s.
Definition search (r : rx) (s : string) : bool :=
  rx_match (Star (Cls any_byte) ;;; r ;;; Star (Cls any_byte)) s.

(** ** The language of a pattern *)

Inductive Lang : rx → string → Prop :=
| L_eps : Lang Eps ""
| L_cls p c : p c = true → Lang (Cls p) (String c "")
| L_rep p lo hi s : (lo ≤ String.length s ≤ hi)%nat → sforall p s = true → Lang (Rep p lo hi) s
| L_cat r1 r2 s1 s2 : Lang r1 s1 → Lang r2 s2 → Lang (Cat r1 r2) (s1 +++ s2)
| L_alt_l r1 r2 s : Lang r1 s → Lang (Alt r1 r2) s
| L_alt_r r1 r2 s : Lang r2 s → Lang (Alt r1 r2) s
| L_star_nil r : Lang (Star r) ""
| L_star_cons r c s1 s2 : Lang r (String c s1) → Lang (Star r) s2 → Lang (Star r) (String c s1 +++ s2).

#[export] Hint Constructors Lang : aegis.

Lemma nullable_spec r : nullable r = true ↔ Lang r "".
Proof.
  split.
  - induction r; simpl; intros H; try done; eauto with aegis.
    + apply Nat.eqb_eq in H as ->. constructor; simpl; [lia|done].
    + apply andb_prop in H as [H1 H2].
      apply (L_cat r1 r2 "" ""); auto.
    + apply orb_prop in H as [H|H]; eauto with aegis.
  - remember "" as s eqn:E. induction 1; simplify_eq/=; auto.
    + apply Nat.eqb_eq. lia.
    + assert (s1 = "" ∧ s2 = "") as [-> ->] by (by destruct s1).
      by rewrite IHLang1, IHLang2.
    + by rewrite IHLang.
    + by rewrite IHLang, orb_true_r.
Qed.

Lemma cat'_spec r1 r2 s : Lang (cat' r1 r2) s ↔ Lang (Cat r1 r2) s.
Proof.
  assert (∀ r, Lang (Cat Void r) s ↔ False) as Hv by (split; [by inversion 1; inv select (Lang Void _)|done]).
  assert (∀ r, Lang (Cat r Void) s ↔ False) as Hv' by (split; [by inversion 1; inv select (Lang Void _)|done]).
  assert (Lang Void s ↔ False) as Hvoid by (split; [by inversion 1|done]).
  assert (∀ r, Lang r s ↔ Lang (Cat Eps r) s) as He.
  { intros r. split; [intros; by apply (L_cat Eps r "" s); [constructor|]|].
    inversion 1; subst. by inv select (Lang Eps _). }
  destruct r1, r2; simpl; rewrite ?Hv, ?Hv', ?Hvoid; try done; apply He.
Qed.

Lemma alt'_spec r1 r2 s : Lang (alt' r1 r2) s ↔ Lang r1 s ∨ Lang r2 s.
Proof.
  assert (Lang Void s → False) as Hvoid by (by inversion 1).
  assert (∀ a b, Lang (Alt a b) s ↔ Lang a s ∨ Lang b s) as Ha.
  { intros a b. split; [inversion 1; auto|]. intros [?|?]; eauto with aegis. }
  destruct r1, r2; simpl; rewrite ?Ha; naive_solver.
Qed.

Lemma Lang_cat r1 r2 s : Lang (Cat r1 r2) s ↔ ∃ s1 s2, s = s1 +++ s2 ∧ Lang r1 s1 ∧ Lang r2 s2.
Proof. split; [inversion 1; eauto|]. intros (? & ? & -> & ? & ?). by constructor. Qed.

Lemma deriv_spec c r : ∀ s, Lang (deriv c r) s ↔ Lang r (String c s).
Proof.
  induction r as [| |p|p lo hi|r1 IH1 r2 IH2|r1 IH1 r2 IH2|r IH]; intros s; simpl.
  - split; by inversion 1.
  - split; by inversion 1.
  - split.
    + case_match; [|by inversion 1]. inversion 1; subst. by constructor.
    + inversion 1; simplify_eq. case_match; [constructor|congruence].
  - split.
    + destruct hi; [by inversion 1|]. case_match; [|by inversion 1].
      inversion 1; subst. constructor; simpl; [lia|]. by apply andb_true_intro.
    + inversion 1; subst. simpl in *. bool_prop. destruct hi; [lia|].
      case_match; [|congruence]. constructor; [lia|done].
  - assert (Lang (cat' (deriv c r1) r2) s ↔
      ∃ s1 s2, s = s1 +++ s2 ∧ Lang r1 (String c s1) ∧ Lang r2 s2) as Hc.
    { rewrite cat'_spec, Lang_cat. by setoid_rewrite IH1. }
    rewrite Lang_cat. case_match eqn:Hn; rewrite ?alt'_spec, Hc, ?IH2; split.
    + intros [(s1 & s2 & -> & ? & ?)|?].
      * by exists (String c s1), s2.
      * exists "", (String c s). by rewrite <- nullable_spec.
    + intros ([|d s1] & s2 & Heq & ? & ?); simplify_eq/=; [by right|]. left. eauto.
    + intros (s1 & s2 & -> & ? & ?). by exists (String c s1), s2.
    + intros ([|d s1] & s2 & Heq & Hl & ?); simplify_eq/=; [|by eauto].
      apply nullable_spec in Hl. congruence.
  - rewrite alt'_spec, IH1, IH2. split; [intros [?|?]; eauto with aegis|].
    inversion 1; auto.
  - rewrite cat'_spec, Lang_cat. split.
    + intros (s1 & s2 & -> & H1%IH & H2). by apply (L_star_cons r c s1 s2).
    + inversion 1; simplify_eq/=. eexists _, _. split_and!; [done| |done]. by apply IH.
Qed.

(** The matcher decides the language. *)
Lemma rx_match_spec r s : rx_match r s = true ↔ Lang r s.
Proof.
  revert r. induction s as [|c s IH]; intros r; simpl; [apply nullable_spec|].
  rewrite IH. apply deriv_spec.
Qed.

(** ** Inversions for the shapes the program uses *)

Lemma Lang_cls p s : Lang (Cls p) s ↔ ∃ c, s = String c "" ∧ p c = true.
Proof. split; [inversion 1; eauto|]. intros (? & -> & ?). by constructor. Qed.

Lemma Lang_alt r1 r2 s : Lang (Alt r1 r2) s ↔ Lang r1 s ∨ Lang r2 s.
Proof. split; [inversion 1; auto|]. intros [?|?]; eauto with aegis. Qed.

Lemma Lang_eps s : Lang Eps s ↔ s = "".
Proof. split; [by inversion 1|]. intros ->. constructor. Qed.

Lemma Lang_rep p lo hi s :
  Lang (Rep p lo hi) s ↔ (lo ≤ String.length s ≤ hi)%nat ∧ sforall p s = true.
Proof. split; [by inversion 1|]. intros [??]. by constructor. Qed.

Lemma Lang_star_cls p s : Lang (Star (Cls p)) s ↔ sforall p s = true.
Proof.
  split.
  - remember (Star (Cls p)) as r eqn:E. induction 1; simplify_eq; [done|].
    apply Lang_cls in H as (d & [= -> ->] & Hd). simpl. by rewrite Hd, IHLang2.
  - induction s as [|c s IH]; simpl; [constructor|]. intros [Hc Hs]%andb_prop.
    apply (L_star_cons _ c "" s); [by constructor|auto].
Qed.

Lemma Lang_lit w s : Lang (lit w) s ↔ s = w.
Proof.
  revert s. induction w as [|c [|d w] IH]; intros s.
  - apply Lang_eps.
  - simpl. rewrite Lang_cls. split.
    + intros (? & -> & ->%Ascii.eqb_eq). done.
    + intros ->. exists c. by rewrite Ascii.eqb_refl.
  - change (lit (String c (String d w))) with (Cls (Ascii.eqb c) ;;; lit (String d w)).
    rewrite Lang_cat. setoid_rewrite Lang_cls. setoid_rewrite IH. split.
    + by intros (? & ? & -> & (? & -> & ->%Ascii.eqb_eq) & ->).
    + intros ->. exists (String c ""), (String d w). split; [done|]. split; [|done].
      exists c. by rewrite Ascii.eqb_refl.
Qed.

Lemma Lang_cls_cat p r s :
  Lang (Cls p ;;; r) s ↔ ∃ c s', s = String c s' ∧ p c = true ∧ Lang r s'.
Proof.
  rewrite Lang_cat. setoid_rewrite Lang_cls. split.
  - intros (? & s' & -> & (c & -> & ?) & ?). by exists c, s'.
  - intros (c & s' & -> & ? & ?). exists (String c ""), s'. eauto 6.
Qed.

(** [^[p][q]*$], the shape of most identifiers. *)
Lemma full_ident p q s :
  full (Cls p ;;; Star (Cls q)) s = true ↔
  ∃ c s', s = String c s' ∧ p c = true ∧ sforall q s' = true.
Proof.
  unfold full. rewrite rx_match_spec, Lang_cls_cat. by setoid_rewrite Lang_star_cls.
Qed.

(** [^[p]+$] *)
Lemma full_plus p s : full (plus (Cls p)) s = true ↔ s ≠ "" ∧ sforall p s = true.
Proof.
  unfold plus. rewrite full_ident. destruct s as [|c s]; simpl; [naive_solver|].
  rewrite andb_true_iff. naive_solver.
Qed.

(** [^[p]{lo,hi}$] *)
Lemma full_rep p lo hi s :
  full (Rep p lo hi) s = true ↔ (lo ≤ String.length s ≤ hi)%nat ∧ sforall p s = true.
Proof. unfold full. by rewrite rx_match_spec, Lang_rep. Qed.

(** Every byte of a matched string satisfies a predicate all classes of the pattern imply. *)
Fixpoint rx_bytes (q : ascii → bool) (r : rx) : Prop :=
  match r with
  | Void | Eps => True
  | Cls p | Rep p _ _ => ∀ c, p c = true → q c = true
  | Cat r1 r2 | Alt r1 r2 => rx_bytes q r1 ∧ rx_bytes q r2
  | Star r => rx_bytes q r
  end.

Lemma Lang_bytes q r s : Lang r s → rx_bytes q r → sforall q s = true.
Proof.
  induction 1; simpl; intros Hb; auto.
  - by rewrite Hb.
  - by eapply sforall_impl.
  - destruct Hb. rewrite sforall_app, IHLang1, IHLang2; auto.
  - naive_solver.
  - naive_solver.
  - pose proof (sforall_app q (String c s1) s2) as E. simpl in *.
    by rewrite E, IHLang1, IHLang2.
Qed.

Lemma full_bytes q r s : full r s = true → rx_bytes q r → sforall q s = true.
Proof. intros H%rx_match_spec. by apply Lang_bytes. Qed.

#[export] Hint Rewrite full_plus full_ident full_rep : aegis.
