(* ===== verification/Time.v ===== *)
(** * Dates

    The part of package [time] that the domains use: an instant is a number of seconds
    since the epoch, printed in UTC by the layouts [time.RFC3339] and [20060102T150405Z],
    and read back by [time.Parse(time.RFC3339, …)].  The calendar is computed by eras of
    400 years, of centuries, of cycles of four years; the table of the days of one year is
    checked by evaluation and the rest by arithmetic. *)

From S2P Require Import Prelude GoStrings StringFacts.
From Stdlib Require Import Ascii String.
#[local] Open Scope string_scope.
#[local] Open Scope list_scope.
#[local] Open Scope Z_scope.

(** ** The calendar *)

Definition leap (y : Z) : bool := (y mod 4 =? 0) && (negb (y mod 100 =? 0) || (y mod 400 =? 0)).
Definition month_days (y m : Z) : Z :=
  if m =? 2 then (if leap y then 29 else 28) else if (m =? 4) || (m =? 6) || (m =? 9) || (m =? 11) then 30 else 31.

(** Years begin in March: the day of a leap year is the last one. *)
Definition era_days : Z := 146097.
Definition year_of_era (doe : Z) : Z * Z :=
  let c := Z.min 3 (doe / 36524) in
  let in_century := doe - 36524 * c in
  let q := in_century / 1461 in
  let in_cycle := in_century - 1461 * q in
  let r := Z.min 3 (in_cycle / 365) in
  (100 * c + 4 * q + r, in_cycle - 365 * r).
Definition month_of_year (doy : Z) : Z * Z :=
  let mp := (5 * doy + 2) / 153 in (mp, doy - (153 * mp + 2) / 5 + 1).
Definition era_date (doe : Z) : Z * Z * Z :=
  let (yoe, doy) := year_of_era doe in let (mp, d) := month_of_year doy in (yoe, mp, d).
Definition date_of (days : Z) : Z * Z * Z :=
  let z := days + 719468 in
  let '(yoe, mp, d) := era_date (z mod era_days) in
  let m := if mp <? 10 then mp + 3 else mp - 9 in
  (yoe + (z / era_days) * 400 + (if m <=? 2 then 1 else 0), m, d).
Definition days_of (y m d : Z) : Z :=
  let y := if m <=? 2 then y - 1 else y in
  let yoe := y mod 400 in
  let doy := (153 * (if 2 <? m then m - 3 else m + 9) + 2) / 5 + d - 1 in
  (y / 400) * era_days + (yoe * 365 + yoe / 4 - yoe / 100 + doy) - 719468.

(** ** Printing *)

Definition digit (n : Z) : ascii := chr (48 + n).
Definition two (n : Z) : string := String (digit (n / 10)) (String (digit (n mod 10)) "").
Definition four (n : Z) : string := two (n / 100) +++ two (n mod 100).
Definition clock_of (s : Z) : Z * Z * Z := (s / 3600, s mod 3600 / 60, s mod 60).

(** [t.UTC().Format(time.RFC3339)], for the years of four digits. *)
Definition rfc3339 (t : Z) : string :=
  let '(y, m, d) := date_of (t / 86400) in
  let '(h, mi, s) := clock_of (t mod 86400) in
  four y +++ "-" +++ two m +++ "-" +++ two d +++ "T" +++ two h +++ ":" +++ two mi +++ ":" +++ two s +++ "Z".
(** What [time.RFC3339Nano] prints of the nanoseconds [n] of a second: nine digits without the zeros at the end. *)
Fixpoint digits_of (k : nat) (n : Z) : string :=
  match k with O => "" | S k => digits_of k (n / 10) +++ String (digit (n mod 10)) "" end.
Fixpoint fraction_of (k : nat) (n : Z) : string :=
  match k with O => "" | S k' => if n mod 10 =? 0 then fraction_of k' (n / 10) else "." +++ digits_of k n end.
Definition date_text (t : Z) : string :=
  let '(y, m, d) := date_of (t / 86400) in
  let '(h, mi, s) := clock_of (t mod 86400) in
  four y +++ "-" +++ two m +++ "-" +++ two d +++ "T" +++ two h +++ ":" +++ two mi +++ ":" +++ two s.
(** [t.UTC().Format(time.RFC3339Nano)], of nanoseconds. *)
Definition rfc3339nano (t : Z) : string := date_text (t / 10^9) +++ fraction_of 9 (t mod 10^9) +++ "Z".
(** [t.UTC().Format("20060102T150405Z")] *)
Definition stamp (t : Z) : string :=
  let '(y, m, d) := date_of (t / 86400) in
  let '(h, mi, s) := clock_of (t mod 86400) in
  four y +++ two m +++ two d +++ "T" +++ two h +++ two mi +++ two s +++ "Z".

(** ** Reading *)

Definition read_two (s : string) : option (Z * string) :=
  match s with
  | String a (String b s) => if is_digit a && is_digit b then Some (10 * digit_value a + digit_value b, s) else None
  | _ => None
  end.
Definition read_four (s : string) : option (Z * string) :=
  match read_two s with
  | Some (a, s) => match read_two s with Some (b, s) => Some (100 * a + b, s) | None => None end
  | None => None
  end.
(** The hour of the layout may have one digit. *)
Definition read_hour (s : string) : option (Z * string) :=
  match read_two s with
  | Some x => Some x
  | None => match s with String a s => if is_digit a then Some (digit_value a, s) else None | "" => None end
  end.
Definition expect (c : ascii) (s : string) : option string :=
  match s with String a s => if Ascii.eqb a c then Some s else None | "" => None end.
Fixpoint skip_digits (s : string) : string :=
  match s with String c s' => if is_digit c then skip_digits s' else s | "" => "" end.
(** The fraction of a second, which the layout does not name. *)
Definition skip_fraction (s : string) : string :=
  match s with
  | String p (String c s') => if contains_byte p ".," && is_digit c then skip_digits s' else s
  | _ => s
  end.
(** Its nanoseconds: nine digits at most count. *)
Fixpoint nanos_of (k : nat) (s : string) : Z :=
  match k, s with
  | S k, String c s => if is_digit c then digit_value c * 10 ^ Z.of_nat k + nanos_of k s else 0
  | _, _ => 0
  end.
Definition fraction_nanos (s : string) : Z :=
  match s with
  | String p (String c _ as s') => if contains_byte p ".," && is_digit c then nanos_of 9 s' else 0
  | _ => 0
  end.
(** The offset of the zone, in seconds. *)
Definition read_zone (s : string) : option Z :=
  match s with
  | String "Z" "" => Some 0
  | String c s =>
      if Ascii.eqb c "+" || Ascii.eqb c "-" then
        match read_two s with
        | Some (h, s) =>
            match expect ":" s with
            | Some s => match read_two s with
                | Some (m, "") =>
                    if (h <=? 24) && (m <=? 60) then Some ((if Ascii.eqb c "-" then -1 else 1) * (h * 3600 + m * 60)) else None
                | _ => None end
            | None => None
            end
        | None => None
        end
      else None
  | "" => None
  end.
(** [time.Parse(time.RFC3339, s)]: the seconds and the nanoseconds. *)
Definition read_rfc3339 (s : string) : option (Z * Z) :=
  match read_four s with None => None | Some (y, s) =>
  match expect "-" s with None => None | Some s =>
  match read_two s with None => None | Some (m, s) =>
  match expect "-" s with None => None | Some s =>
  match read_two s with None => None | Some (d, s) =>
  match expect "T" s with None => None | Some s =>
  match read_hour s with None => None | Some (h, s) =>
  match expect ":" s with None => None | Some s =>
  match read_two s with None => None | Some (mi, s) =>
  match expect ":" s with None => None | Some s =>
  match read_two s with None => None | Some (sec, s) =>
  match read_zone (skip_fraction s) with None => None | Some zone =>
    if (1 <=? m) && (m <=? 12) && (1 <=? d) && (d <=? month_days y m) && (h <? 24) && (mi <? 60) && (sec <? 60)
    then Some (days_of y m d * 86400 + h * 3600 + mi * 60 + sec - zone, fraction_nanos s) else None
  end end end end end end end end end end end end.
(** Down to the second, and in nanoseconds. *)
Definition parse_rfc3339 (s : string) : option Z := fst <$> read_rfc3339 s.
Definition parse_rfc3339nano (s : string) : option Z := (λ x : Z * Z, x.1 * 10^9 + x.2) <$> read_rfc3339 s.

Example epoch_text : rfc3339 0 = "1970-01-01T00:00:00Z". Proof. reflexivity. Qed.
Example leap_day_text : rfc3339 951782400 = "2000-02-29T00:00:00Z". Proof. vm_compute. reflexivity. Qed.
Example offset_read : parse_rfc3339 "2026-03-01T02:30:00.25+02:00" = Some 1772325000.
Proof. vm_compute. reflexivity. Qed.
Example thirtieth_of_february : parse_rfc3339 "2026-02-30T00:00:00Z" = None. Proof. vm_compute. reflexivity. Qed.

(** ** The calendar is exact *)

Lemma year_of_era_spec doe yoe doy :
  0 <= doe < era_days → year_of_era doe = (yoe, doy) →
  0 <= yoe < 400 ∧ 0 <= doy <= 365 ∧ yoe * 365 + yoe / 4 - yoe / 100 + doy = doe ∧ (doy = 365 → leap (yoe + 1) = true).
Proof.
  unfold year_of_era, era_days. intros Hd. set (c := Z.min 3 (doe / 36524)). set (i := doe - 36524 * c).
  set (q := i / 1461). set (j := i - 1461 * q). set (r := Z.min 3 (j / 365)). intros [= <- <-].
  assert (0 <= c <= 3 ∧ 0 <= i <= 36524 ∧ (i = 36524 → c = 3)) as (Hc & Hi & Hic).
  { subst i c. Z.to_euclidean_division_equations. lia. }
  assert (0 <= q <= 24 ∧ 0 <= j <= 1460 ∧ i = 1461 * q + j) as (Hq & Hj & Hiq).
  { subst q j. Z.to_euclidean_division_equations. lia. }
  assert (0 <= r <= 3 ∧ 0 <= j - 365 * r <= 365 ∧ (j - 365 * r = 365 → r = 3 ∧ j = 1460)) as (Hr & Hy & Hlast).
  { subst r. Z.to_euclidean_division_equations. lia. }
  assert ((100 * c + 4 * q + r) / 4 = 25 * c + q) as -> by (Z.to_euclidean_division_equations; lia).
  assert ((100 * c + 4 * q + r) / 100 = c) as -> by (Z.to_euclidean_division_equations; lia).
  repeat split; try lia. intros [-> Hj']%Hlast. unfold leap.
  assert ((100 * c + 4 * q + 3 + 1) mod 4 = 0) as -> by (Z.to_euclidean_division_equations; lia). cbn [Z.eqb andb].
  destruct (Z.eq_dec q 24) as [->|Hq24].
  - assert (c = 3) as -> by lia. reflexivity.
  - assert ((100 * c + 4 * q + 3 + 1) mod 100 ≠ 0) by (Z.to_euclidean_division_equations; lia).
    by rewrite (proj2 (Z.eqb_neq _ _)).
Qed.

(** One day of a year: its date is a date of the calendar and has that day back. *)
Definition day_ok (doy : Z) : bool :=
  let (mp, d) := month_of_year doy in
  (0 <=? mp) && (mp <? 12) && (1 <=? d) && (d <=? 31) &&
  (if mp =? 11 then (d <=? 28) || (doy =? 365) && (d =? 29) else d <=? month_days 1 (if mp <? 10 then mp + 3 else mp - 9)) &&
  ((153 * mp + 2) / 5 + d - 1 =? doy).
Lemma day_ok_all doy : 0 <= doy <= 365 → day_ok doy = true.
Proof.
  intros Hd. assert (forallb day_ok (seqZ 0 366) = true) as Hall by (vm_compute; reflexivity).
  rewrite forallb_forall in Hall. apply Hall. apply list_elem_of_In, elem_of_seqZ. lia.
Qed.

Lemma month_days_other y m : m ≠ 2 → month_days y m = month_days 1 m.
Proof. intros Hm. unfold month_days. by rewrite (proj2 (Z.eqb_neq m 2)). Qed.

Lemma leap_era y k : leap (y + k * 400) = leap y.
Proof.
  unfold leap.
  rewrite <- (Z.mod_add y (k * 100) 4), <- (Z.mod_add y (k * 4) 100), <- (Z.mod_add y k 400) by lia.
  by replace (y + k * 100 * 4) with (y + k * 400) by lia; replace (y + k * 4 * 100) with (y + k * 400) by lia.
Qed.

Lemma month_days_era y k m : month_days (y + k * 400) m = month_days y m.
Proof. unfold month_days. by rewrite leap_era. Qed.

Lemma era_date_spec doe yoe mp d :
  0 <= doe < era_days → era_date doe = (yoe, mp, d) →
  0 <= yoe < 400 ∧ 0 <= mp < 12 ∧ 1 <= d ∧
  d <= month_days (if mp <? 10 then yoe else yoe + 1) (if mp <? 10 then mp + 3 else mp - 9) ∧
  yoe * 365 + yoe / 4 - yoe / 100 + (153 * mp + 2) / 5 + d - 1 = doe.
Proof.
  intros Hd. unfold era_date. destruct (year_of_era doe) as [y0 doy] eqn:Hy.
  apply year_of_era_spec in Hy as (Hy & Hdoy & Hdoe & Hleap); [|done]. pose proof (day_ok_all doy Hdoy) as Hok.
  unfold day_ok in Hok. destruct (month_of_year doy) as [mp0 d0]. intros [= <- <- <-]. bool_prop.
  repeat split; try lia. destruct (Z.eqb_spec mp0 11) as [->|Hmp].
  - change (11 <? 10) with false. cbv iota. unfold month_days. change (11 - 9 =? 2) with true. cbv iota. destruct (Z.leb_spec d0 28) as [|Hd0]; [case_match; lia|]. cbn [orb] in *.
    bool_prop. rewrite Hleap by lia. lia.
  - destruct (Z.ltb_spec mp0 10); rewrite month_days_other by lia; bool_prop; lia.
Qed.

Lemma date_of_spec days y m d :
  date_of days = (y, m, d) →
  days_of y m d = days ∧ 1 <= m <= 12 ∧ 1 <= d <= month_days y m.
Proof.
  unfold date_of, days_of. set (z := days + 719468).
  pose proof (Z.mod_pos_bound z era_days ltac:(done)) as Hb.
  pose proof (Z.div_mod z era_days ltac:(done)) as Hz. set (e := z / era_days) in *. set (doe := z mod era_days) in *.
  destruct (era_date doe) as [[yoe mp] d0] eqn:He. apply era_date_spec in He as (Hy & Hm & Hd & Hd' & Hdoe); [|done].
  intros [= <- <- <-]. destruct (Z.ltb_spec mp 10) as [Hmp|Hmp].
  - rewrite (proj2 (Z.leb_gt (mp + 3) 2)) by lia. rewrite (proj2 (Z.ltb_lt 2 (mp + 3))) by lia.
    replace (yoe + e * 400 + 0) with (yoe + e * 400) by lia. rewrite month_days_era, Z.mod_add, Z.div_add by lia.
    rewrite (Z.mod_small yoe 400), (Z.div_small yoe 400) by lia. replace (mp + 3 - 3) with mp by lia.
    unfold era_days in *. lia.
  - rewrite (proj2 (Z.leb_le (mp - 9) 2)) by lia. rewrite (proj2 (Z.ltb_ge 2 (mp - 9))) by lia.
    replace (yoe + e * 400 + 1 - 1) with (yoe + e * 400) by lia.
    replace (yoe + e * 400 + 1) with (yoe + 1 + e * 400) by lia. rewrite month_days_era, Z.mod_add, Z.div_add by lia.
    rewrite (Z.mod_small yoe 400), (Z.div_small yoe 400) by lia. replace (mp - 9 + 9) with mp by lia.
    unfold era_days in *. lia.
Qed.

(** ** Round trip *)

Definition digit_ok (n : Z) : bool := is_digit (digit n) && (digit_value (digit n) =? n).
Lemma digit_spec n : 0 <= n < 10 → is_digit (digit n) = true ∧ digit_value (digit n) = n.
Proof.
  intros Hn. assert (n = 0 ∨ n = 1 ∨ n = 2 ∨ n = 3 ∨ n = 4 ∨ n = 5 ∨ n = 6 ∨ n = 7 ∨ n = 8 ∨ n = 9) as Hc by lia.
  by destruct Hc as [->|[->|[->|[->|[->|[->|[->|[->|[->| ->]]]]]]]]].
Qed.

Lemma read_two_text n s : 0 <= n < 100 → read_two (two n +++ s) = Some (n, s).
Proof.
  intros Hn. unfold two. cbn [String.append read_two].
  destruct (digit_spec (n / 10)) as [-> ->]. { split; [apply Z.div_pos|apply Z.div_lt_upper_bound]; lia. }
  destruct (digit_spec (n mod 10)) as [-> ->]. { apply Z.mod_pos_bound. lia. }
  cbn [andb]. by rewrite <- Z.div_mod by lia.
Qed.

Lemma read_four_text n s : 0 <= n < 10000 → read_four (four n +++ s) = Some (n, s).
Proof.
  intros Hn. unfold read_four, four. rewrite sapp_assoc, read_two_text.
  2:{ split; [apply Z.div_pos|apply Z.div_lt_upper_bound]; lia. }
  rewrite read_two_text by (apply Z.mod_pos_bound; lia). by rewrite <- Z.div_mod by lia.
Qed.

(** The instants of years 0 to 9999. *)
Definition in_range (t : Z) : Prop := -62167219200 <= t < 253402300800.

Lemma year_range t y m d : in_range t → date_of (t / 86400) = (y, m, d) → 0 <= y < 10000.
Proof.
  intros [Hl Hh] Hd. apply date_of_spec in Hd as (Hd & Hm & Hdd).
  assert (-719528 <= t / 86400 < 2932897) as Ht.
  { split; [apply Z.div_le_lower_bound|apply Z.div_lt_upper_bound]; lia. }
  assert (month_days y m <= 31) by (unfold month_days; repeat case_match; lia).
  unfold days_of in Hd. pose proof (Z.div_mod (if m <=? 2 then y - 1 else y) 400 ltac:(done)) as H1.
  pose proof (Z.mod_pos_bound (if m <=? 2 then y - 1 else y) 400 ltac:(done)) as H2.
  set (q := (if m <=? 2 then y - 1 else y) / 400) in *. set (r := (if m <=? 2 then y - 1 else y) mod 400) in *.
  assert (m <= 2 ∨ 2 < m) as [Hc|Hc] by lia.
  - rewrite (proj2 (Z.leb_le m 2)) in H1 by lia. rewrite (proj2 (Z.ltb_ge 2 m)) in Hd by lia.
    unfold era_days in Hd. Z.to_euclidean_division_equations. lia.
  - rewrite (proj2 (Z.leb_gt m 2)) in H1 by lia. rewrite (proj2 (Z.ltb_lt 2 m)) in Hd by lia.
    unfold era_days in Hd. Z.to_euclidean_division_equations. lia.
Qed.

Lemma read_hour_text n s : 0 <= n < 100 → read_hour (two n +++ s) = Some (n, s).
Proof. intros Hn. unfold read_hour. by rewrite read_two_text. Qed.

Lemma clock_range t : let '(h, mi, s) := clock_of (t mod 86400) in
  0 <= h < 24 ∧ 0 <= mi < 60 ∧ 0 <= s < 60 ∧ h * 3600 + mi * 60 + s = t mod 86400.
Proof. unfold clock_of. pose proof (Z.mod_pos_bound t 86400 ltac:(done)). Z.to_euclidean_division_equations. lia. Qed.

(** What [Format] prints, [Parse] reads back. *)
Lemma read_date_text t rest : in_range t → read_zone (skip_fraction rest) = Some 0 →
  read_rfc3339 (date_text t +++ rest) = Some (t, fraction_nanos rest).
Proof.
  intros Ht Hz. unfold date_text. destruct (date_of (t / 86400)) as [[y m] d] eqn:Hd.
  pose proof (year_range t y m d Ht Hd) as Hy. apply date_of_spec in Hd as (Hdays & Hm & Hdd).
  assert (month_days y m <= 31) by (unfold month_days; repeat case_match; lia).
  pose proof (clock_range t) as Hc. destruct (clock_of (t mod 86400)) as [[h mi] s]. destruct Hc as (Hh & Hmi & Hs & Hsum).
  rewrite !sapp_assoc. unfold read_rfc3339. rewrite read_four_text by lia. cbn [String.append expect Ascii.eqb Bool.eqb].
  rewrite read_two_text by lia. cbn [String.append expect Ascii.eqb Bool.eqb].
  rewrite read_two_text by lia. cbn [String.append expect Ascii.eqb Bool.eqb].
  rewrite read_hour_text by lia. cbn [String.append expect Ascii.eqb Bool.eqb].
  rewrite read_two_text by lia. cbn [String.append expect Ascii.eqb Bool.eqb].
  rewrite read_two_text by lia. rewrite Hz.
  rewrite (proj2 (Z.leb_le 1 m)), (proj2 (Z.leb_le m 12)), (proj2 (Z.leb_le 1 d)), (proj2 (Z.leb_le d _)),
    (proj2 (Z.ltb_lt h 24)), (proj2 (Z.ltb_lt mi 60)), (proj2 (Z.ltb_lt s 60)) by lia.
  cbn [andb]. do 2 f_equal. rewrite Hdays. pose proof (Z.div_mod t 86400 ltac:(done)). lia.
Qed.
Lemma rfc3339_date t : rfc3339 t = date_text t +++ "Z".
Proof. unfold rfc3339, date_text. destruct (date_of _) as [[y m] d], (clock_of _) as [[h mi] s]. by rewrite !sapp_assoc. Qed.
Lemma parse_rfc3339_text t : in_range t → parse_rfc3339 (rfc3339 t) = Some t.
Proof. intros Ht. unfold parse_rfc3339. by rewrite rfc3339_date, read_date_text. Qed.

Lemma digits_of_spec k : ∀ n, 0 <= n < 10 ^ Z.of_nat k →
  sforall is_digit (digits_of k n) = true ∧ String.length (digits_of k n) = k ∧ ∀ j rest, (k ≤ j)%nat → nanos_of j (digits_of k n +++ rest) =
    n * 10 ^ (Z.of_nat j - Z.of_nat k) + nanos_of (j - k) rest.
Proof.
  induction k as [|k IH]; intros n Hn.
  { split_and!; [done|done|]. intros j rest _. cbn [digits_of String.append]. rewrite Nat.sub_0_r. change (10 ^ Z.of_nat 0) with 1 in Hn.
    assert (n = 0) as -> by lia. lia. }
  assert (10 ^ Z.of_nat (S k) = 10 * 10 ^ Z.of_nat k) as Hp by (rewrite Nat2Z.inj_succ, Z.pow_succ_r; lia).
  destruct (IH (n / 10)) as (Hd & Hl & Hv). { split; [apply Z.div_pos|apply Z.div_lt_upper_bound]; lia. }
  destruct (digit_spec (n mod 10)) as [Hg Hgv]. { apply Z.mod_pos_bound; lia. }
  cbn [digits_of]. split_and!.
  - rewrite sforall_app, Hd. cbn [sforall]. by rewrite Hg.
  - rewrite sapp_length, Hl. cbn [String.length]. lia.
  - intros j rest Hj. rewrite sapp_assoc, Hv by lia. cbn [String.append]. destruct (j - k)%nat as [|i] eqn:Hi; [lia|]. cbn [nanos_of]. rewrite Hg, Hgv.
    replace (j - S k)%nat with i by lia. replace (Z.of_nat j - Z.of_nat k) with (Z.succ (Z.of_nat i)) by lia.
    replace (Z.of_nat j - Z.of_nat (S k)) with (Z.of_nat i) by lia. rewrite Z.pow_succ_r by lia.
    pose proof (Z.div_mod n 10 ltac:(done)) as Hm. set (q := n / 10) in *. set (x := n mod 10) in *. rewrite Hm. ring.
Qed.
Lemma skip_digits_all s c rest : sforall is_digit s = true → is_digit c = false → skip_digits (s +++ String c rest) = String c rest.
Proof.
  intros Hs Hc. induction s as [|d s IH]; cbn [String.append skip_digits]; [by rewrite Hc|]. cbn [sforall] in Hs. apply andb_prop in Hs as [-> Hs]. auto.
Qed.
Lemma fraction_of_spec k : ∀ n, 0 <= n < 10 ^ Z.of_nat k → (k ≤ 9)%nat →
  skip_fraction (fraction_of k n +++ "Z") = "Z" ∧ fraction_nanos (fraction_of k n +++ "Z") = n * 10 ^ (9 - Z.of_nat k) ∧
  sforall (λ c, is_digit c || Ascii.eqb c ".") (fraction_of k n) = true ∧ (String.length (fraction_of k n) ≤ S k)%nat.
Proof.
  induction k as [|k IH]; intros n Hn Hk.
  { change (10 ^ Z.of_nat 0) with 1 in Hn. assert (n = 0) as -> by lia. split_and!; (done || cbn; lia). }
  assert (10 ^ Z.of_nat (S k) = 10 * 10 ^ Z.of_nat k) as Hp by (rewrite Nat2Z.inj_succ, Z.pow_succ_r; lia).
  cbn [fraction_of]. destruct (Z.eqb_spec (n mod 10) 0) as [Hz|Hz].
  - destruct (IH (n / 10)) as (H1 & H2 & H3 & H4); [split; [apply Z.div_pos|apply Z.div_lt_upper_bound]; lia|lia|].
    split_and!; [done| |done|lia]. rewrite H2. replace (9 - Z.of_nat k) with (Z.succ (9 - Z.of_nat (S k))) by lia.
    rewrite Z.pow_succ_r by lia. pose proof (Z.div_mod n 10 ltac:(done)) as Hm. rewrite Hz in Hm. rewrite Hm at 2. ring.
  - clear IH. destruct (digits_of_spec (S k) n Hn) as (Hd & Hl & Hv). rewrite sapp_assoc. cbn [String.append].
    specialize (Hv 9%nat "Z" Hk). assert (nanos_of (9 - S k) "Z" = 0) as Hnz by (by destruct (9 - S k)%nat). rewrite Hnz, Z.add_0_r in Hv.
    destruct (digits_of (S k) n) as [|c ds]; [done|]. cbn [String.append] in *. pose proof Hd as Hd'. cbn [sforall] in Hd. apply andb_prop in Hd as [Hc Hd].
    assert (contains_byte "." ".," = true) as Hdot by done. split_and!.
    + cbn [skip_fraction]. rewrite Hdot, Hc. cbn [andb]. by apply skip_digits_all.
    + cbn [fraction_nanos]. rewrite Hdot, Hc. cbn [andb]. rewrite Hv. done.
    + cbn [sforall]. rewrite Hc. cbn [andb orb]. change (Ascii.eqb "." ".") with true. cbn [andb]. rewrite orb_true_r. eapply sforall_weaken; [|exact Hd]. by intros d ->.
    + cbn [String.length] in *. lia.
Qed.
Lemma parse_rfc3339nano_text t : in_range (t / 10^9) → parse_rfc3339nano (rfc3339nano t) = Some t.
Proof.
  intros Ht. pose proof (Z.mod_pos_bound t (10^9) ltac:(done)) as Hm.
  destruct (fraction_of_spec 9 (t mod 10^9)) as (H1 & H2 & _); [exact Hm|done|].
  unfold parse_rfc3339nano, rfc3339nano. rewrite read_date_text; [|done|by rewrite H1]. rewrite H2. cbn [fmap option_fmap option_map fst snd].
  change (10 ^ (9 - Z.of_nat 9)) with 1. f_equal. pose proof (Z.div_mod t (10^9) ltac:(done)). lia.
Qed.
Example half_second : rfc3339nano (1772325000 * 10^9 + 250000000) = "2026-03-01T00:30:00.25Z" ∧ rfc3339nano 7 = "1970-01-01T00:00:00.000000007Z".
Proof. vm_compute. done. Qed.

Lemma two_digits n : 0 <= n < 100 → sforall is_digit (two n) = true.
Proof.
  intros Hn. unfold two. cbn [sforall].
  destruct (digit_spec (n / 10)) as [-> _]. { split; [apply Z.div_pos|apply Z.div_lt_upper_bound]; lia. }
  destruct (digit_spec (n mod 10)) as [-> _]; [|done]. apply Z.mod_pos_bound; lia.
Qed.

(** An RFC 3339 date is made of visible ASCII characters. *)
Lemma rfc3339_graphic t : in_range t → sforall graphic (rfc3339 t) = true.
Proof.
  intros Ht. unfold rfc3339. destruct (date_of (t / 86400)) as [[y m] d] eqn:Hd.
  pose proof (year_range t y m d Ht Hd) as Hy. apply date_of_spec in Hd as (_ & Hm & Hdd).
  assert (month_days y m <= 31) by (unfold month_days; repeat case_match; lia).
  pose proof (clock_range t) as Hc. destruct (clock_of (t mod 86400)) as [[h mi] s]. destruct Hc as (Hh & Hmi & Hs & _).
  assert (∀ n, 0 <= n < 100 → sforall graphic (two n) = true) as H2.
  { intros n Hn. eapply sforall_weaken; [|by apply two_digits]. intros c. unfold is_digit, between, graphic.
    intros [H1 H2]%andb_prop. apply Z.leb_le in H1, H2. change (byte "0") with 48 in H1. change (byte "9") with 57 in H2.
    apply andb_true_iff. split; apply Z.ltb_lt; lia. }
  unfold four. rewrite !sforall_app, !H2; [done|lia..| |].
  - apply Z.mod_pos_bound. lia.
  - split; [apply Z.div_pos|apply Z.div_lt_upper_bound]; lia.
Qed.
