(* ===== verification/Codec.v ===== *)
(** * Byte codecs and digests of the Go standard library

    [encoding/base64] without padding (URL and standard alphabets, strict or not),
    [encoding/base32] without padding (decoding), [encoding/hex], [crypto/sha1],
    [crypto/hmac] and [crypto/sha256].  Byte slices are strings. *)

From S2P Require Import Prelude GoStrings StringFacts.
From Stdlib Require Import Ascii String.
#[local] Open Scope Z_scope.

(** ** base64 *)

Inductive alphabet := StdAlphabet | URLAlphabet.

Definition b64_char (al : alphabet) (k : Z) : ascii :=
  if k <? 26 then chr (65 + k)
  else if k <? 52 then chr (97 + (k - 26))
  else if k <? 62 then chr (48 + (k - 52))
  else match al with
       | StdAlphabet => if k =? 62 then "+"%char else "/"%char
       | URLAlphabet => if k =? 62 then "-"%char else "_"%char
       end.

Definition b64_val (al : alphabet) (c : ascii) : option Z :=
  if is_upper c then Some (byte c - 65)
  else if is_lower c then Some (byte c - 97 + 26)
  else if is_digit c then Some (byte c - 48 + 52)
  else if Ascii.eqb c (b64_char al 62) then Some 62
  else if Ascii.eqb c (b64_char al 63) then Some 63
  else None.

(** [EncodeToString] of the raw encodings. *)
Fixpoint b64_encode (al : alphabet) (s : string) : string :=
  match s with
  | EmptyString => ""
  | String a EmptyString =>
      let v := byte a * 65536 in
      String (b64_char al (v / 2^18)) (String (b64_char al (v / 2^12 mod 64)) "")
  | String a (String b EmptyString) =>
      let v := byte a * 65536 + byte b * 256 in
      String (b64_char al (v / 2^18)) (String (b64_char al (v / 2^12 mod 64))
        (String (b64_char al (v / 2^6 mod 64)) ""))
  | String a (String b (String c s')) =>
      let v := byte a * 65536 + byte b * 256 + byte c in
      String (b64_char al (v / 2^18)) (String (b64_char al (v / 2^12 mod 64))
        (String (b64_char al (v / 2^6 mod 64)) (String (b64_char al (v mod 64))
          (b64_encode al s'))))
  end.

Fixpoint digits_of (val : ascii → option Z) (s : string) : option (list Z) :=
  match s with
  | EmptyString => Some []
  | String c s' =>
      match val c, digits_of val s' with
      | Some k, Some l => Some (k :: l)
      | _, _ => None
      end
  end.

(** The quanta of four digits; the last may have two or three.  With [strict] the
    trailing bits of a short quantum must be zero. *)
Fixpoint b64_quanta (strict : bool) (l : list Z) : option string :=
  match l with
  | [] => Some ""
  | [_] => None
  | [w; x] =>
      let v := w * 2^18 + x * 2^12 in
      if strict && negb (x mod 16 =? 0) then None else Some (String (chr (v / 65536)) "")
  | [w; x; y] =>
      let v := w * 2^18 + x * 2^12 + y * 2^6 in
      if strict && negb (y mod 4 =? 0) then None
      else Some (String (chr (v / 65536)) (String (chr (v / 256 mod 256)) ""))
  | w :: x :: y :: z :: l' =>
      let v := w * 2^18 + x * 2^12 + y * 2^6 + z in
      match b64_quanta strict l' with
      | Some s => Some (String (chr (v / 65536)) (String (chr (v / 256 mod 256))
                    (String (chr (v mod 256)) s)))
      | None => None
      end
  end.

Fixpoint sfilter (p : ascii → bool) (s : string) : string :=
  match s with
  | EmptyString => ""
  | String c s' => if p c then String c (sfilter p s') else sfilter p s'
  end.
(** The decoders skip carriage returns and line feeds. *)
Definition not_newline (c : ascii) : bool := negb (Ascii.eqb c nl || Ascii.eqb c cr).

(** [DecodeString] of the raw encodings; [Strict()] when [strict]. *)
Definition b64_decode (al : alphabet) (strict : bool) (s : string) : option string :=
  match digits_of (b64_val al) (sfilter not_newline s) with
  | Some l => b64_quanta strict l
  | None => None
  end.

(** [base64.StdEncoding]: the same, padded to groups of four. *)
Definition b64_padded (s : string) : string :=
  b64_encode StdAlphabet s +++ match (String.length s mod 3)%nat with O => "" | S O => "==" | _ => "=" end.
Definition b64_padded_decode (strict : bool) (s : string) : option string :=
  let s := sfilter not_newline s in
  let body := trim_right_set (Ascii.eqb "=") s in
  if (slen s - slen body <=? 2) && (slen s mod 4 =? 0) then b64_decode StdAlphabet strict body else None.

(** ** base32, standard alphabet, no padding *)

Definition b32_val (c : ascii) : option Z :=
  if is_upper c then Some (byte c - 65)
  else if between "2" "7" c then Some (byte c - 50 + 26)
  else None.

(** A short last quantum of 1, 3 or 6 digits yields no byte and no error. *)
Fixpoint b32_quanta (l : list Z) : string :=
  match l with
  | a :: b :: c :: d :: e :: f :: g :: h :: l' =>
      let v := a * 2^35 + b * 2^30 + c * 2^25 + d * 2^20 + e * 2^15 + f * 2^10 + g * 2^5 + h in
      String (chr (v / 2^32)) (String (chr (v / 2^24 mod 256)) (String (chr (v / 2^16 mod 256))
        (String (chr (v / 2^8 mod 256)) (String (chr (v mod 256)) (b32_quanta l')))))
  | [a; b; c; d; e; f; g] =>
      let v := a * 2^30 + b * 2^25 + c * 2^20 + d * 2^15 + e * 2^10 + f * 2^5 + g in
      String (chr (v / 2^27)) (String (chr (v / 2^19 mod 256)) (String (chr (v / 2^11 mod 256))
        (String (chr (v / 2^3 mod 256)) "")))
  | [a; b; c; d; e] =>
      let v := a * 2^20 + b * 2^15 + c * 2^10 + d * 2^5 + e in
      String (chr (v / 2^17)) (String (chr (v / 2^9 mod 256)) (String (chr (v / 2 mod 256)) ""))
  | [a; b; c; d] =>
      let v := a * 2^15 + b * 2^10 + c * 2^5 + d in
      String (chr (v / 2^12)) (String (chr (v / 2^4 mod 256)) "")
  | [a; b] => String (chr ((a * 2^5 + b) / 2^2)) ""
  | _ => ""
  end.

Definition b32_decode (s : string) : option string :=
  match digits_of b32_val (sfilter not_newline s) with
  | Some l => Some (b32_quanta l)
  | None => None
  end.

(** ** hex *)

Definition hex_char (k : Z) : ascii := if k <? 10 then chr (48 + k) else chr (87 + k).
Fixpoint hex_encode (s : string) : string :=
  match s with
  | EmptyString => ""
  | String c s' => String (hex_char (byte c / 16)) (String (hex_char (byte c mod 16)) (hex_encode s'))
  end.
Definition is_hex_lower (c : ascii) : bool := is_digit c || between "a" "f" c.
Definition is_hex (c : ascii) : bool := is_hex_lower c || between "A" "F" c.

(** ** 32-bit words *)

Definition w32 (z : Z) : Z := z mod 2^32.
Definition rotl (n x : Z) : Z := Z.lor (w32 (Z.shiftl x n)) (Z.shiftr x (32 - n)).
Definition rotr (n x : Z) : Z := rotl (32 - n) x.

Definition be_bytes (n : nat) (v : Z) : string :=
  (fix go (k : nat) : string → string :=
     match k with
     | O => λ acc, acc
     | S k' => λ acc, go k' (String (chr (v / 2^(8 * Z.of_nat (n - k)) mod 256)) acc)
     end) n "".

Fixpoint be_value (acc : Z) (s : string) : Z :=
  match s with
  | EmptyString => acc
  | String c s' => be_value (acc * 256 + byte c) s'
  end.

Fixpoint zeros (n : nat) : string := match n with O => "" | S n => String nul (zeros n) end.

(** Padding to 64-byte blocks, common to SHA-1 and SHA-256. *)
Definition sha_pad (s : string) : string :=
  let l := slen s in
  s +++ String (chr 128) (zeros (Z.to_nat ((55 - l) mod 64)) +++ be_bytes 8 (8 * l)).

Fixpoint chunks (fuel : nat) (n : nat) (s : string) : list string :=
  match fuel with
  | O => []
  | S k => match s with EmptyString => [] | _ => stake n s :: chunks k n (sdrop n s) end
  end.
Definition words_of (block : string) : list Z := be_value 0 <$> chunks 16 4 block.
Definition blocks_of (s : string) : list string := chunks (String.length s) 64 s.

(** ** SHA-1 and HMAC-SHA-1 *)

(** Message schedule: the words so far, most recent first. *)
Fixpoint sha1_schedule (n : nat) (rev_w : list Z) : list Z :=
  match n with
  | O => rev rev_w
  | S k =>
      let w i := nth (i - 1) rev_w 0 in
      sha1_schedule k (rotl 1 (Z.lxor (Z.lxor (w 3%nat) (w 8%nat)) (Z.lxor (w 14%nat) (w 16%nat))) :: rev_w)
  end.

Definition not32 (x : Z) : Z := 2^32 - 1 - x.

Definition sha1_round (st : Z * Z * Z * Z * Z * Z) (w : Z) : Z * Z * Z * Z * Z * Z :=
  let '(t, a, b, c, d, e) := st in
  let '(f, k) :=
    if t <? 20 then (Z.lor (Z.land b c) (Z.land (not32 b) d), 1518500249)
    else if t <? 40 then (Z.lxor (Z.lxor b c) d, 1859775393)
    else if t <? 60 then (Z.lor (Z.lor (Z.land b c) (Z.land b d)) (Z.land c d), 2400959708)
    else (Z.lxor (Z.lxor b c) d, 3395469782) in
  (t + 1, w32 (rotl 5 a + f + e + k + w), a, rotl 30 b, c, d).

Definition sha1_block (h : Z * Z * Z * Z * Z) (block : string) : Z * Z * Z * Z * Z :=
  let '(h0, h1, h2, h3, h4) := h in
  let '(_, a, b, c, d, e) :=
    fold_left sha1_round (sha1_schedule 64 (rev (words_of block))) (0, h0, h1, h2, h3, h4) in
  (w32 (h0 + a), w32 (h1 + b), w32 (h2 + c), w32 (h3 + d), w32 (h4 + e)).

Definition sha1 (s : string) : string :=
  let '(h0, h1, h2, h3, h4) :=
    fold_left sha1_block (blocks_of (sha_pad s))
      (1732584193, 4023233417, 2562383102, 271733878, 3285377520) in
  be_bytes 4 h0 +++ be_bytes 4 h1 +++ be_bytes 4 h2 +++ be_bytes 4 h3 +++ be_bytes 4 h4.

Definition xor_pad (k : Z) (key : string) : string :=
  smap (λ c, chr (Z.lxor (byte c) k)) (key +++ zeros (64 - String.length key)).
Definition hmac_sha1 (key msg : string) : string :=
  let key := if 64 <? slen key then sha1 key else key in
  sha1 (xor_pad 92 key +++ sha1 (xor_pad 54 key +++ msg)).

(** ** SHA-256 *)

(** The constants are the first 32 bits of the fractional parts of the square and cube
    roots of the first primes. *)
Definition primes (n : nat) : list Z :=
  take n (filter (λ p, forallb (λ d, negb (p mod Z.of_nat d =? 0)) (seq 2 (Z.to_nat p - 2)) = true)
    (Z.of_nat <$> seq 2 311)).

(** The largest [x] with [x ^ k <= v] and fewer than [bits] binary digits. *)
Fixpoint root_search (bits : nat) (k v acc : Z) : Z :=
  match bits with
  | O => acc
  | S b => let x := acc + 2^(Z.of_nat b) in root_search b k v (if x^k <=? v then x else acc)
  end.
Definition root_fraction (k p : Z) : Z := w32 (root_search 40 k (p * 2^(32 * k)) 0).

Definition sha256_k : list Z := Eval vm_compute in (root_fraction 3 <$> primes 64).
Definition sha256_h : list Z := Eval vm_compute in (root_fraction 2 <$> primes 8).

Fixpoint sha256_schedule (n : nat) (rev_w : list Z) : list Z :=
  match n with
  | O => rev rev_w
  | S k =>
      let w i := nth (i - 1) rev_w 0 in
      let x := w 15%nat in let y := w 2%nat in
      let s0 := Z.lxor (Z.lxor (rotr 7 x) (rotr 18 x)) (Z.shiftr x 3) in
      let s1 := Z.lxor (Z.lxor (rotr 17 y) (rotr 19 y)) (Z.shiftr y 10) in
      sha256_schedule k (w32 (w 16%nat + s0 + w 7%nat + s1) :: rev_w)
  end.

Definition sha256_round (st : list Z) (kw : Z * Z) : list Z :=
  match st with
  | [a; b; c; d; e; f; g; h] =>
      let s1 := Z.lxor (Z.lxor (rotr 6 e) (rotr 11 e)) (rotr 25 e) in
      let ch := Z.lxor (Z.land e f) (Z.land (not32 e) g) in
      let t1 := w32 (h + s1 + ch + kw.1 + kw.2) in
      let s0 := Z.lxor (Z.lxor (rotr 2 a) (rotr 13 a)) (rotr 22 a) in
      let maj := Z.lxor (Z.lxor (Z.land a b) (Z.land a c)) (Z.land b c) in
      [w32 (t1 + s0 + maj); a; b; c; w32 (d + t1); e; f; g]
  | _ => st
  end.

Definition sha256_block (h : list Z) (block : string) : list Z :=
  zip_with (λ x y, w32 (x + y)) h
    (fold_left sha256_round (zip sha256_k (sha256_schedule 48 (rev (words_of block)))) h).

Definition sha256 (s : string) : string :=
  foldr (λ w acc, be_bytes 4 w +++ acc) ""
    (fold_left sha256_block (blocks_of (sha_pad s)) sha256_h).

(** ** Test vectors (FIPS 180, RFC 2202) *)

Example sha1_abc : hex_encode (sha1 "abc") = "a9993e364706816aba3e25717850c26c9cd0d89d".
Proof. vm_compute. reflexivity. Qed.
Example hmac_sha1_rfc2202 :
  hex_encode (hmac_sha1 "Jefe" "what do ya want for nothing?") = "effcdf6ae5eb2fa2d27416d5f184df9c259a7c79".
Proof. vm_compute. reflexivity. Qed.
Example sha256_abc :
  hex_encode (sha256 "abc") = "ba7816bf8f01cfea414140de5dae2223b00361a396177a9cb410ff61f20015ad".
Proof. vm_compute. reflexivity. Qed.
Example b64_hello : b64_encode StdAlphabet "hello" = "aGVsbG8".
Proof. vm_compute. reflexivity. Qed.
Example b32_foobar : b32_decode "MZXW6YTBOI" = Some "foobar".
Proof. vm_compute. reflexivity. Qed.

(** ** Bytes *)

Lemma byte_range c : 0 ≤ byte c < 256.
Proof. unfold byte. pose proof (N_ascii_bounded c). lia. Qed.

Lemma chr_byte c : chr (byte c) = c.
Proof. unfold chr, byte. by rewrite N2Z.id, ascii_N_embedding. Qed.

Lemma byte_chr z : 0 ≤ z < 256 → byte (chr z) = z.
Proof. intros H. unfold chr, byte. rewrite N_ascii_embedding by lia. lia. Qed.

Lemma byte_inj c d : byte c = byte d → c = d.
Proof. intros H. by rewrite <- (chr_byte c), H, chr_byte. Qed.

(** A decidable fact about the numbers below [n] checked by computation. *)
Lemma forall_below (n : nat) (P : Z → bool) :
  forallb (λ k, P (Z.of_nat k)) (seq 0 n) = true → ∀ z, 0 ≤ z < Z.of_nat n → P z = true.
Proof.
  rewrite forallb_forall. intros H z Hz.
  rewrite <- (Z2Nat.id z) by lia. apply H, in_seq. lia.
Qed.

Lemma forall_bytes (P : ascii → bool) :
  forallb (λ k, P (chr (Z.of_nat k))) (seq 0 256) = true → ∀ c, P c = true.
Proof.
  intros H c. rewrite <- (chr_byte c).
  apply (forall_below 256 (λ z, P (chr z))); [done|]. apply byte_range.
Qed.

(** ** base64 round trips *)

Lemma b64_val_char al k : 0 ≤ k < 64 → b64_val al (b64_char al k) = Some k.
Proof.
  intros Hk. pose proof (forall_below 64
    (λ k, bool_decide (b64_val al (b64_char al k) = Some k)) ltac:(by destruct al; vm_compute) k ltac:(lia)) as H.
  by apply bool_decide_eq_true_1 in H.
Qed.

Lemma b64_char_not_newline al k : 0 ≤ k < 64 → not_newline (b64_char al k) = true.
Proof.
  intros Hk. apply (forall_below 64 (λ k, not_newline (b64_char al k))); [|lia].
  by destruct al; vm_compute.
Qed.

Lemma b64_char_val al c k : b64_val al c = Some k → c = b64_char al k ∧ 0 ≤ k < 64.
Proof.
  pose proof (forall_bytes (λ c, match b64_val al c with
    | Some k => Ascii.eqb c (b64_char al k) && (0 <=? k) && (k <? 64) | None => true end)
    ltac:(by destruct al; vm_compute) c) as H. simpl in H.
  intros E. rewrite E in H. bool_prop. split; [by apply Ascii.eqb_eq|lia].
Qed.

Ltac div_mod := Z.div_mod_to_equations; lia.

(** Induction by three bytes. *)
Lemma string_ind3 (P : string → Prop) :
  P "" → (∀ a, P (String a "")) → (∀ a b, P (String a (String b ""))) →
  (∀ a b c s, P s → P (String a (String b (String c s)))) → ∀ s, P s.
Proof.
  intros H0 H1 H2 H3. fix IH 1.
  intros [|a [|b [|c s]]]; [exact H0|exact (H1 a)|exact (H2 a b)|exact (H3 a b c s (IH s))].
Qed.

Lemma list_ind4 {A} (P : list A → Prop) :
  P [] → (∀ a, P [a]) → (∀ a b, P [a; b]) → (∀ a b c, P [a; b; c]) →
  (∀ a b c d l, P l → P (a :: b :: c :: d :: l)) → ∀ l, P l.
Proof. intros H0 H1 H2 H3 H4. fix IH 1.
  intros [|a [|b [|c [|d l]]]];
    [exact H0|exact (H1 a)|exact (H2 a b)|exact (H3 a b c)|exact (H4 a b c d l (IH l))].
Qed.

Lemma b64_encode_digits al s :
  ∃ l, digits_of (b64_val al) (sfilter not_newline (b64_encode al s)) = Some l ∧
       ∀ strict, b64_quanta strict l = Some s.
Proof.
  assert (∀ c, 0 ≤ byte c < 256) as Hb by apply byte_range.
  induction s as [|a|a b|a b c s (l & Hl & Hq)] using string_ind3; cbn [b64_encode].
  - by exists [].
  - pose proof (Hb a). set (v := byte a * 65536).
    assert (0 ≤ v / 2^18 < 64) by (subst v; div_mod).
    assert (0 ≤ v / 2^12 mod 64 < 64) by div_mod.
    exists [v / 2^18; v / 2^12 mod 64]. cbn [sfilter].
    rewrite !b64_char_not_newline by done. cbn [digits_of]. rewrite !b64_val_char by done.
    split; [done|]. intros strict. cbn [b64_quanta].
    replace (v / 2^12 mod 64 mod 16) with 0 by (subst v; div_mod). rewrite andb_false_r.
    replace ((v / 2^18 * 2^18 + v / 2^12 mod 64 * 2^12) / 65536) with (byte a) by (subst v; div_mod).
    by rewrite chr_byte.
  - pose proof (Hb a). pose proof (Hb b). set (v := byte a * 65536 + byte b * 256).
    assert (0 ≤ v / 2^18 < 64) by (subst v; div_mod).
    assert (0 ≤ v / 2^12 mod 64 < 64) by div_mod.
    assert (0 ≤ v / 2^6 mod 64 < 64) by div_mod.
    exists [v / 2^18; v / 2^12 mod 64; v / 2^6 mod 64]. cbn [sfilter].
    rewrite !b64_char_not_newline by done. cbn [digits_of]. rewrite !b64_val_char by done.
    split; [done|]. intros strict. cbn [b64_quanta].
    replace (v / 2^6 mod 64 mod 4) with 0 by (subst v; div_mod). rewrite andb_false_r.
    replace (v / 2^18 * 2^18 + v / 2^12 mod 64 * 2^12 + v / 2^6 mod 64 * 2^6) with v by (subst v; div_mod).
    replace (v / 65536) with (byte a) by (subst v; div_mod).
    replace (v / 256 mod 256) with (byte b) by (subst v; div_mod).
    by rewrite !chr_byte.
  - pose proof (Hb a). pose proof (Hb b). pose proof (Hb c).
    set (v := byte a * 65536 + byte b * 256 + byte c).
    assert (0 ≤ v / 2^18 < 64) by (subst v; div_mod).
    assert (0 ≤ v / 2^12 mod 64 < 64) by div_mod.
    assert (0 ≤ v / 2^6 mod 64 < 64) by div_mod.
    assert (0 ≤ v mod 64 < 64) by div_mod.
    exists (v / 2^18 :: v / 2^12 mod 64 :: v / 2^6 mod 64 :: v mod 64 :: l). cbn [sfilter].
    rewrite !b64_char_not_newline by done. cbn [digits_of]. rewrite !b64_val_char, Hl by done.
    split; [done|]. intros strict. cbn [b64_quanta]. rewrite Hq.
    replace (v / 2^18 * 2^18 + v / 2^12 mod 64 * 2^12 + v / 2^6 mod 64 * 2^6 + v mod 64)
      with v by (subst v; div_mod).
    replace (v / 65536) with (byte a) by (subst v; div_mod).
    replace (v / 256 mod 256) with (byte b) by (subst v; div_mod).
    replace (v mod 256) with (byte c) by (subst v; div_mod).
    by rewrite !chr_byte.
Qed.

(** Decoding inverts encoding, strict or not. *)
Lemma b64_decode_encode al strict s : b64_decode al strict (b64_encode al s) = Some s.
Proof.
  unfold b64_decode. destruct (b64_encode_digits al s) as (l & -> & Hq). apply Hq.
Qed.

(** The digits of the standard alphabet. *)
Definition std_char (c : ascii) : bool := match b64_val StdAlphabet c with Some _ => true | None => false end.
Lemma b64_encode_std s : sforall std_char (b64_encode StdAlphabet s) = true.
Proof.
  assert (∀ k, 0 ≤ k < 64 → std_char (b64_char StdAlphabet k) = true) as Hk by (intros k H; unfold std_char; by rewrite b64_val_char).
  assert (∀ c, 0 ≤ byte c < 256) as Hb by apply byte_range.
  induction s as [|a|a b|a b c s IH] using string_ind3; cbn [b64_encode sforall]; [done|..];
    pose proof (Hb a); try pose proof (Hb b); try pose proof (Hb c); rewrite !Hk by div_mod; done.
Qed.
Lemma b64_encode_length s : Z.of_nat (String.length (b64_encode StdAlphabet s)) mod 4 =
  match (String.length s mod 3)%nat with O => 0 | S O => 2 | _ => 3 end.
Proof.
  induction s as [|a|a b|a b c s IH] using string_ind3; [done..|]. cbn [b64_encode String.length].
  replace (S (S (S (String.length s)))) with (String.length s + 1 * 3)%nat by lia. rewrite Nat.Div0.mod_add, <- IH.
  replace (Z.of_nat (S (S (S (S (String.length (b64_encode StdAlphabet s))))))) with
    (Z.of_nat (String.length (b64_encode StdAlphabet s)) + 1 * 4) by lia. by rewrite Z_mod_plus_full.
Qed.
Lemma sfilter_all p s : sforall p s = true → sfilter p s = s.
Proof. induction s as [|c s IH]; [done|]. cbn. intros [-> ?]%andb_prop. by rewrite IH. Qed.
Lemma trim_right_pad p s t : sforall (λ c, negb (p c)) s = true → sforall p t = true → trim_right_set p (s +++ t) = s.
Proof.
  intros Hs Ht. induction s as [|c s IH].
  - destruct t as [|c t]; [done|]. change ((if sforall p (String c t) then "" else String c (trim_right_set p t)) = ""). by rewrite Ht.
  - cbn in Hs |- *. apply andb_prop in Hs as [Hc Hs]. apply negb_true_iff in Hc. by rewrite Hc, (IH Hs).
Qed.
(** What the encoder writes, the decoder reads. *)
Lemma b64_padded_read strict s : b64_padded_decode strict (b64_padded s) = Some s.
Proof.
  unfold b64_padded_decode, b64_padded. pose proof (b64_encode_std s) as Hs. pose proof (b64_encode_length s) as Hl.
  set (pad := match (String.length s mod 3)%nat with O => "" | S O => "==" | _ => "=" end).
  assert (sforall (Ascii.eqb "=") pad = true ∧ sforall not_newline pad = true ∧ slen pad <= 2 ∧
    (Z.of_nat (String.length (b64_encode StdAlphabet s)) mod 4 + slen pad) mod 4 = 0) as (H1 & H2 & H3 & H4).
  { rewrite Hl. subst pad. by destruct (String.length s mod 3)%nat as [|[|?]]. }
  rewrite sfilter_all, trim_right_pad; [| |done|].
  - unfold slen at 1 3. rewrite sapp_length. fold (slen pad). unfold slen at 1.
    replace (Z.of_nat (String.length (b64_encode StdAlphabet s) + String.length pad) - Z.of_nat (String.length (b64_encode StdAlphabet s)) <=? 2)
      with true by (symmetry; apply Z.leb_le; unfold slen in H3; lia).
    rewrite Nat2Z.inj_add, <- Zplus_mod_idemp_l. unfold slen in H4. rewrite H4. apply b64_decode_encode.
  - eapply sforall_impl; [|exact Hs]. intros c. destruct (Ascii.eqb_spec "=" c) as [<-|]; [done|done].
  - rewrite sforall_app, H2, andb_true_r. eapply sforall_impl; [|exact Hs]. intros c. unfold not_newline.
    destruct (Ascii.eqb_spec c nl) as [->|]; [done|]. by destruct (Ascii.eqb_spec c cr) as [->|].
Qed.

Lemma digits_of_chars al s l :
  digits_of (b64_val al) s = Some l →
  s = foldr (λ k, String (b64_char al k)) "" l ∧ Forall (λ k, 0 ≤ k < 64) l.
Proof.
  revert l. induction s as [|c s IH]; intros l; simpl; [by intros [= <-]|].
  destruct (b64_val al c) as [k|] eqn:Hc; [|done].
  destruct (digits_of (b64_val al) s) as [l'|]; [|done]. intros [= <-].
  apply b64_char_val in Hc as [-> Hk]. destruct (IH l' eq_refl) as [-> Hf]. by split; [|constructor].
Qed.

Ltac char_eq := apply f_equal2; [apply f_equal; div_mod|]; try reflexivity.

Lemma b64_quanta_strict al l s :
  Forall (λ k, 0 ≤ k < 64) l → b64_quanta true l = Some s →
  b64_encode al s = foldr (λ k, String (b64_char al k)) "" l.
Proof.
  revert s. induction l as [|w|w x|w x y|w x y z l IH] using list_ind4; intros s Hf; cbn [b64_quanta].
  - by intros [= <-].
  - done.
  - case_match eqn:E; [done|]. intros [= <-]. bool_prop. simpl in E. bool_prop.
    decompose_Forall. cbn [b64_encode foldr]. rewrite byte_chr by div_mod.
    repeat char_eq.
  - case_match eqn:E; [done|]. intros [= <-]. simpl in E. bool_prop.
    decompose_Forall. cbn [b64_encode foldr]. rewrite !byte_chr by div_mod.
    repeat char_eq.
  - destruct (b64_quanta true l) as [s'|]; [|done]. intros [= <-].
    decompose_Forall. cbn [b64_encode foldr]. rewrite !byte_chr by div_mod.
    rewrite IH by done. repeat char_eq.
Qed.

(** A strict decoder accepts only the canonical text, up to line ends. *)
Lemma b64_decode_strict_canonical al v s :
  b64_decode al true v = Some s → sfilter not_newline v = b64_encode al s.
Proof.
  unfold b64_decode. destruct (digits_of _ _) as [l|] eqn:E; [|done].
  intros H. apply digits_of_chars in E as [-> Hf]. symmetry. by apply b64_quanta_strict.
Qed.

(** The URL alphabet, the class [A-Za-z0-9_-] of the managed cron markers. *)
Definition is_b64url (c : ascii) : bool :=
  is_upper c || is_lower c || is_digit c || contains_byte c "_-".

Lemma b64_char_url k : 0 ≤ k < 64 → is_b64url (b64_char URLAlphabet k) = true.
Proof.
  intros Hk. apply (forall_below 64 (λ k, is_b64url (b64_char URLAlphabet k))); [|lia].
  by vm_compute.
Qed.

Lemma b64_encode_url s : sforall is_b64url (b64_encode URLAlphabet s) = true.
Proof.
  assert (∀ c, 0 ≤ byte c < 256) as Hb by apply byte_range.
  induction s as [|a|a b|a b c s IH] using string_ind3; cbn [b64_encode sforall]; [done|..].
  - pose proof (Hb a). by rewrite !b64_char_url by div_mod.
  - pose proof (Hb a). pose proof (Hb b). by rewrite !b64_char_url by div_mod.
  - pose proof (Hb a). pose proof (Hb b). pose proof (Hb c). by rewrite !b64_char_url, IH by div_mod.
Qed.

Lemma b64_encode_nil al s : b64_encode al s = "" → s = "".
Proof. by destruct s as [|a [|b [|c s]]]. Qed.

(** ** hex *)

Lemma hex_char_lower k : 0 ≤ k < 16 → is_hex_lower (hex_char k) = true.
Proof. intros. apply (forall_below 16 (λ k, is_hex_lower (hex_char k))); [by vm_compute|lia]. Qed.

Lemma hex_encode_lower s : sforall is_hex_lower (hex_encode s) = true.
Proof.
  induction s as [|c s IH]; [done|]. cbn [hex_encode sforall]. pose proof (byte_range c).
  rewrite !hex_char_lower, IH by div_mod. done.
Qed.

Lemma hex_encode_length s : String.length (hex_encode s) = (2 * String.length s)%nat.
Proof. induction s; simpl; lia. Qed.
