(* ===== verification/Json.v ===== *)
(** * JSON text, as [encoding/json] writes it

    Strings with the escapes of [json.Marshal], objects, and the indented form of
    [json.MarshalIndent] for a flat object. *)

From S2P Require Import Prelude GoStrings.
From Stdlib Require Import Ascii String.
#[local] Open Scope string_scope.
#[local] Open Scope list_scope.
#[local] Open Scope Z_scope.

(** [json.Marshal] of a string, with the escapes of HTML. *)
Definition hex4 (k : Z) : string :=
  let low d := if d <? 10 then chr (48 + d) else chr (87 + d) in
  "\u00" +++ String (low (k / 16)) (String (low (k mod 16)) "").
Definition json_byte (c : ascii) : string :=
  if (byte c =? 34) || (byte c =? 92) then String "092" (String c "")
  else if byte c =? 8 then "\b" else if byte c =? 12 then "\f"
  else if byte c =? 10 then "\n" else if byte c =? 13 then "\r" else if byte c =? 9 then "\t"
  else if (byte c <? 32) || contains_byte c "<>&" then hex4 (byte c)
  else String c "".
(** U+2028 and U+2029 *)
Definition line_separator (s : string) : bool :=
  has_prefix s (String "226" (String "128" (String "168" ""))) || has_prefix s (String "226" (String "128" (String "169" ""))).
(** [mute]: the bytes left of a sequence already written as an escape. *)
Fixpoint json_escape (skip : nat) (mute : bool) (s : string) : string :=
  match s with
  | "" => ""
  | String c s' =>
      match skip with
      | S k => if mute then json_escape k true s' else String c (json_escape k false s')
      | O => if byte c <? 128 then json_byte c +++ json_escape 0 false s'
             else match rune_width s with
                  | O => "\ufffd" +++ json_escape 0 false s'
                  | S k =>
                      if line_separator s
                      then (if has_prefix s (String "226" (String "128" (String "168" ""))) then "\u2028" else "\u2029")
                           +++ json_escape k true s'
                      else String c (json_escape k false s')
                  end
      end
  end.
Definition json_quote (s : string) : string := String "034" (json_escape 0 false s +++ String "034" "").

(** [json.Marshal] of a map from text: the keys in order. *)
Definition json_object (members : list (string * string)) : string :=
  "{" +++ join "," ((λ kv, json_quote kv.1 +++ ":" +++ kv.2) <$> members) +++ "}".

(** [json.MarshalIndent] with two spaces, of a flat object: the members in order. *)
Definition json_indented (members : list (string * string)) : string :=
  "{" +++ snl +++
  join ("," +++ snl) ((λ kv, "  " +++ json_quote kv.1 +++ ": " +++ kv.2) <$> members) +++ snl +++ "}".

Definition json_bool (b : bool) : string := if b then "true" else "false".
