(* ===== verification/Api.v ===== *)
(** * The back-end protocol: requests, replies, router, server and client

    [internal/protocol], [internal/api], [internal/router], the request decoder of
    [internal/server] and the connection loop of [internal/client]. *)

From S2P Require Import Prelude GoStrings StringFacts Regex.
From Stdlib Require Import Ascii String.
#[local] Open Scope Z_scope.

(** ** Values: Go's [any] as the program fills it *)

Inductive Value :=
| VNil
| VBool (b : bool)
| VInt (z : Z)
| VStr (s : string)
| VNum (literal : string)                  (** a [json.Number] *)
| VList (l : list Value)
| VMap (m : list (string * Value)).

Definition vget (m : list (string * Value)) (k : string) : Value :=
  match find (λ kv, String.eqb kv.1 k) m with Some (_, v) => v | None => VNil end.
(** [data[k] = v] *)
Fixpoint vset (m : list (string * Value)) (k : string) (v : Value) : list (string * Value) :=
  match m with
  | [] => [(k, v)]
  | (k', v') :: m' => if String.eqb k' k then (k, v) :: m' else (k', v') :: vset m' k v
  end.

(** ** [internal/api] *)

Definition Version : Z := 1.

Record ApiError := { err_code : string; err_message : string; err_details : list (string * Value) }.

Record Response := {
  resp_success : bool;
  resp_api : Z;
  resp_data : option (list (string * Value));
  resp_error : option ApiError;
}.

(** A nil map becomes the empty map. *)
Definition Success (data : option (list (string * Value))) : Response :=
  {| resp_success := true; resp_api := Version;
     resp_data := Some (match data with None => [] | Some d => d end); resp_error := None |}.

Definition Failure (code message : string) : Response :=
  {| resp_success := false; resp_api := Version; resp_data := None;
     resp_error := Some {| err_code := code; err_message := message; err_details := [] |} |}.

(** ** [internal/protocol] *)

Definition MaximumMessageBytes : Z := 64 * 1024 * 1024.

Record Request := { Domain : string; Command : string; Arguments : list string }.
Record Reply := { ExitCode : Z; Resp : Response }.

Definition failure (exitCode : Z) (code message : string) : Reply :=
  {| ExitCode := exitCode; Resp := Failure code message |}.
Definition success (data : list (string * Value)) : Reply :=
  {| ExitCode := 0; Resp := Success (Some data) |}.

Definition reply_code (r : Reply) : string :=
  match resp_error (Resp r) with Some e => err_code e | None => "" end.

(** What a well-formed reply is: exit code 0 exactly for success, and then data and no error. *)
Definition reply_ok (r : Reply) : Prop :=
  resp_api (Resp r) = Version ∧
  ((ExitCode r = 0 ∧ resp_success (Resp r) = true ∧ is_Some (resp_data (Resp r)) ∧ resp_error (Resp r) = None) ∨
   (ExitCode r ≠ 0 ∧ resp_success (Resp r) = false ∧ resp_data (Resp r) = None ∧ is_Some (resp_error (Resp r)))).

(** ** [internal/router] *)

Definition ExitMissingArgument : Z := 2.
Definition ExitDomainNotFound : Z := 3.
Definition ExitFeatureNotAvailable : Z := 8.
Definition ExitInvalidDomain : Z := 10.

(** [^[a-z][a-z0-9_-]*$] *)
Definition domainPattern : rx :=
  Cls is_lower ;;; Star (Cls (cls (λ c, is_lower c || is_digit c) "_-")).

Definition knownDomains : list string :=
  ["admin-access"; "apache"; "certbot"; "configuration"; "cron"; "fail2ban"; "firewall"; "logs";
   "mysql"; "network"; "php"; "services"; "storage"; "system"; "tor"; "updates"].

Module Router.
Section Router.
(** The state of the system the handlers act on. *)
Context {World : Type}.

Definition Handler : Type := World → string → list string → World * Reply.
Record Router := { handlers : gmap string Handler }.

Definition New : Router := {| handlers := ∅ |}.

(** [Register]: a panic is [None].  A nil handler is [None] too. *)
Definition Register (r : Router) (domain : string) (handler : option Handler) : option Router :=
  if negb (full domainPattern domain) then None
  else match handler with
  | None => None
  | Some h =>
      match handlers r !! domain with
      | Some _ => None
      | None => Some {| handlers := <[domain := h]> (handlers r) |}
      end
  end.

Definition Route (r : Router) (w : World) (request : Request) : World * Reply :=
  if negb (full domainPattern (Domain request)) then
    (w, failure ExitInvalidDomain "INVALID_DOMAIN_NAME" "Le nom interne du domaine est invalide.")
  else if negb (existsb (String.eqb (Domain request)) knownDomains) then
    (w, failure ExitDomainNotFound "DOMAIN_NOT_FOUND" "Le domaine demandé n’existe pas.")
  else match handlers r !! Domain request with
  | None =>
      (w, failure ExitFeatureNotAvailable "FEATURE_NOT_AVAILABLE"
            "Ce domaine n’est pas encore disponible dans le backend Go.")
  | Some handler => handler w (Command request) (Arguments request)
  end.

(** The routers a program can build. *)
Inductive built : Router → Prop :=
| built_new : built New
| built_register r d h r' : built r → Register r d h = Some r' → built r'.

Lemma built_domains r d h : built r → handlers r !! d = Some h → full domainPattern d = true.
Proof.
  induction 1 as [|r d' h' r' Hb IH Hr]; simpl; [by rewrite lookup_empty|].
  unfold Register in Hr. go_ok Hr. bool_prop. simpl. rewrite lookup_insert.
  case_decide; [by subst|done].
Qed.
End Router.
End Router.

(** ** [internal/server]: reading one request *)

(** [encoding/json]: the next value of a text with the text left after it. *)
Class JsonDecoder := { json_next : string → option (Value * string) }.

(** The field names of a struct are matched by [foldName]: ASCII case, and the two
    code points U+017F and U+212A that fold to s and k. *)
Fixpoint json_fold (s : string) : string :=
  match s with
  | EmptyString => ""
  | String a s1 =>
      let lower := String (ascii_lower a) (json_fold s1) in
      match s1 with
      | EmptyString => lower
      | String b s2 =>
          if (byte a =? 197) && (byte b =? 191) then String "s" (json_fold s2)
          else match s2 with
          | EmptyString => lower
          | String c s3 =>
              if (byte a =? 226) && (byte b =? 132) && (byte c =? 170)
              then String "k" (json_fold s3) else lower
          end
      end
  end.

Definition json_string (v : Value) (old : string) : option string :=
  match v with VStr s => Some s | VNil => Some old | _ => None end.

Fixpoint json_strings (l : list Value) : option (list string) :=
  match l with
  | [] => Some []
  | v :: l' =>
      match json_string v "", json_strings l' with
      | Some s, Some r => Some (s :: r)
      | _, _ => None
      end
  end.

(** One field of a [Request], an unknown one refused ([DisallowUnknownFields]). *)
Definition request_field (acc : option Request) (kv : string * Value) : option Request :=
  match acc with
  | None => None
  | Some r =>
      let k := json_fold kv.1 in
      if String.eqb k "domain" then
        (λ s, {| Domain := s; Command := Command r; Arguments := Arguments r |}) <$> json_string kv.2 (Domain r)
      else if String.eqb k "command" then
        (λ s, {| Domain := Domain r; Command := s; Arguments := Arguments r |}) <$> json_string kv.2 (Command r)
      else if String.eqb k "arguments" then
        (λ l, {| Domain := Domain r; Command := Command r; Arguments := l |}) <$>
          match kv.2 with VNil => Some [] | VList l => json_strings l | _ => None end
      else None
  end.

Definition zero_request : Request := {| Domain := ""; Command := ""; Arguments := [] |}.
Definition unmarshal_request (v : Value) : option Request :=
  match v with
  | VNil => Some zero_request
  | VMap m => fold_left request_field m (Some zero_request)
  | _ => None
  end.

(** What the connection delivers: its bytes, then end of file or an error. *)
Record Stream := { stream_data : string; stream_failed : bool }.

(** [ReadBytes] up to a line feed on the limited reader. *)
Fixpoint read_line (limit : nat) (s : string) : string * bool :=
  match limit, s with
  | O, _ => ("", true)
  | _, EmptyString => ("", false)
  | S k, String c s' =>
      if Ascii.eqb c nl then (String c "", true)
      else let '(l, f) := read_line k s' in (String c l, f)
  end.

(** White space of JSON: all that may follow the value of a request. *)
Definition json_space (c : ascii) : bool := contains_byte c (String cr (String "009" (String " " snl))).

Section Server.
Context `{JsonDecoder}.

Definition decodeRequest (maximum : nat) (reader : Stream) : option Request :=
  let '(message, complete) := read_line (S maximum) (stream_data reader) in
  if negb complete && stream_failed reader then None
  else if (maximum <? String.length message)%nat then None
  else if String.eqb (trim_space message) "" then None
  else match json_next message with
  | None => None
  | Some (v, rest) =>
      match unmarshal_request v with
      | None => None
      | Some request => if sforall json_space rest then Some request else None
      end
  end.

Definition invalidRequestExit : Z := 2.

(** A connection: what it delivers (an error when nothing more came before the deadline of
    thirty seconds), when the writing of the reply would end, in nanoseconds since the
    deadline was set, and the error of that writing, if it has one. *)
Record Connection := { incoming : Stream; writing_ends : Z; peer_error : option string }.
Definition requestTimeout : Z := 30 * 10^9.
Inductive LogEntry := InvalidRequest | WriteFailed (error : string).
(** [writeReply] on a connection with a deadline: the reply that reached the other side whole,
    and what is logged. *)
Definition writeReply (c : Connection) (reply : Reply) : option Reply * list LogEntry :=
  if requestTimeout <=? writing_ends c then (None, [WriteFailed "i/o timeout"])
  else match peer_error c with
       | Some err => (None, [WriteFailed err])
       | None => (Some reply, [])
       end.
(** What is to be answered: a request that cannot be decoded reaches no handler. *)
Definition answer {World} (r : Router.Router (World:=World)) (maximum : nat) (w : World) (reader : Stream) : World * Reply :=
  match decodeRequest maximum reader with
  | None => (w, failure invalidRequestExit "INVALID_REQUEST"
                  "La requête transmise au backend Go est invalide.")
  | Some request => Router.Route r w request
  end.
Definition handleConnection {World} (r : Router.Router (World:=World)) (maximum : nat)
    (w : World) (c : Connection) : World * (option Reply * list LogEntry) :=
  let '(w, reply) := answer r maximum w (incoming c) in
  let '(delivered, log) := writeReply c reply in
  (w, (delivered, (match decodeRequest maximum (incoming c) with None => [InvalidRequest] | Some _ => [] end) ++ log)).
End Server.

(** ** [internal/client]: the connection loop *)

Inductive DialOutcome := Connected | NotExist | ConnRefused | OtherError.
Inductive ConnectResult := ConnOk (attempt : nat) | ConnDeadlineExceeded | ConnError | OutOfFuel.

Definition defaultTimeout : Z := 10000.      (** milliseconds *)
Definition startupRetryWindow : Z := 1000.
Definition startupRetryDelay : Z := 25.

(** The outside world of the loop: the outcome of dial [i], how long it takes, and by
    how much the sleep after it overshoots. *)
Record DialWorld := {
  dial : nat → DialOutcome;
  dial_time : nat → Z;
  oversleep : nat → Z;
}.

Fixpoint connect_loop (fuel : nat) (w : DialWorld) (deadline : Z) (now : Z) (i : nat) : ConnectResult :=
  match fuel with
  | O => OutOfFuel
  | S fuel' =>
      let remaining := deadline - now in
      if remaining <=? 0 then ConnDeadlineExceeded
      else match dial w i with
      | Connected => ConnOk i
      | OtherError => ConnError
      | NotExist | ConnRefused =>
          let delay := if remaining <? startupRetryDelay then remaining else startupRetryDelay in
          connect_loop fuel' w deadline (now + dial_time w i + delay + oversleep w i) (S i)
      end
  end.

Definition connect (fuel : nat) (w : DialWorld) (timeout now : Z) : ConnectResult :=
  let deadline := if now + timeout <? now + startupRetryWindow then now + timeout else now + startupRetryWindow in
  connect_loop fuel w deadline now 0.

(** ** Lemmas *)

Lemma failure_ok x c m : x ≠ 0 → reply_ok (failure x c m).
Proof. intros. split; [done|]. right. split_and!; [done..|]. by eexists. Qed.

Lemma success_ok d : reply_ok (success d).
Proof. split; [done|]. left. split_and!; [done..| |done]. by eexists. Qed.

#[export] Hint Resolve failure_ok success_ok : aegis.

Lemma read_line_length limit s : (String.length (read_line limit s).1 ≤ limit)%nat.
Proof.
  revert s. induction limit as [|k IH]; intros [|c s]; simpl; try lia.
  case_match; simpl; [lia|]. specialize (IH s). destruct (read_line k s). simpl in *. lia.
Qed.

Lemma connect_loop_terminates fuel w deadline now i :
  (∀ i, 0 ≤ dial_time w i) → (∀ i, 0 ≤ oversleep w i) →
  deadline - now ≤ startupRetryDelay * (Z.of_nat fuel - 1) → (0 < fuel)%nat →
  connect_loop fuel w deadline now i ≠ OutOfFuel.
Proof.
  intros Hd Ho. unfold startupRetryDelay.
  revert now i. induction fuel as [|fuel IH]; intros now i Hf Hpos; [lia|]. cbn [connect_loop].
  case_match eqn:Hr; [done|]. bool_prop. specialize (Hd i). specialize (Ho i).
  case_match; try done; apply IH; try lia; unfold startupRetryDelay; case_match; bool_prop; lia.
Qed.

(** ** Properties *)

(** The router dispatches a request exactly when its domain is well formed, one of
    the sixteen known domains, and has a registered handler; every refusal leaves the
    system unchanged and answers the documented exit code. *)
Theorem Route_spec {World} (r : Router.Router (World:=World)) w req :
  (∃ h, full domainPattern (Domain req) = true ∧ Domain req ∈ knownDomains ∧
        Router.handlers r !! Domain req = Some h ∧
        Router.Route r w req = h w (Command req) (Arguments req)) ∨
  (full domainPattern (Domain req) = false ∧ ∃ m,
        Router.Route r w req = (w, failure 10 "INVALID_DOMAIN_NAME" m)) ∨
  (full domainPattern (Domain req) = true ∧ ¬ (Domain req ∈ knownDomains) ∧ ∃ m,
        Router.Route r w req = (w, failure 3 "DOMAIN_NOT_FOUND" m)) ∨
  (Domain req ∈ knownDomains ∧ Router.handlers r !! Domain req = None ∧ ∃ m,
        Router.Route r w req = (w, failure 8 "FEATURE_NOT_AVAILABLE" m)).
Proof.
  unfold Router.Route.
  destruct (full domainPattern (Domain req)) eqn:E1; cbn [negb]; [|right; left; by split; [|eexists]].
  destruct (existsb (String.eqb (Domain req)) knownDomains) eqn:E2; cbn [negb].
  - apply existsb_eqb_elem in E2.
    destruct (Router.handlers r !! Domain req) as [h|] eqn:E3.
    + left. exists h. by split_and!.
    + right. right. right. split_and!; [done..|]. by eexists.
  - apply not_true_iff_false in E2. rewrite existsb_eqb_elem in E2.
    right. right. left. split_and!; [done..|]. by eexists.
Qed.

(** A connection to the daemon is served only when the bytes up to the first line
    feed (or end of file) fit the protocol limit, are not blank, hold exactly one JSON
    value with nothing but white space after it, and that value is a request with no
    unknown field; otherwise the reply is INVALID_REQUEST with exit code 2 and no handler
    runs. *)
Theorem handleConnection_spec `{JsonDecoder} {World} (r : Router.Router (World:=World)) maximum w conn :
  (∃ v rest req,
      let message := (read_line (S maximum) (stream_data conn)).1 in
      (String.length message ≤ maximum)%nat ∧ trim_space message ≠ "" ∧
      json_next message = Some (v, rest) ∧ sforall json_space rest = true ∧
      unmarshal_request v = Some req ∧
      answer r maximum w conn = Router.Route r w req) ∨
  (decodeRequest maximum conn = None ∧
   (answer r maximum w conn).1 = w ∧
   ExitCode (answer r maximum w conn).2 = 2 ∧
   reply_code (answer r maximum w conn).2 = "INVALID_REQUEST").
Proof.
  destruct (decodeRequest maximum conn) as [req|] eqn:E.
  - left. unfold answer. rewrite E. unfold decodeRequest in E.
    destruct (read_line _ _) as [message complete]. cbn [fst]. go_ok E. bool_prop. eexists _, _, _. by split_and!.
  - right. unfold answer. by rewrite E.
Qed.

(** The reply reaches the other side exactly when its writing ends before the deadline and does
    not fail; a reply that does not is logged, and what the handler did stays done. *)
Lemma handleConnection_delivers `{JsonDecoder} {World} (r : Router.Router (World:=World)) maximum w c :
  let '(w', (delivered, log)) := handleConnection r maximum w c in
  (w', (answer r maximum w (incoming c)).2) = answer r maximum w (incoming c) ∧
  (delivered = Some (answer r maximum w (incoming c)).2 ∧ writing_ends c < requestTimeout ∧ peer_error c = None ∨
   delivered = None ∧ (requestTimeout ≤ writing_ends c ∨ is_Some (peer_error c)) ∧ ∃ err, WriteFailed err ∈ log).
Proof.
  unfold handleConnection. destruct (answer r maximum w (incoming c)) as [w' reply]. unfold writeReply.
  destruct (Z.leb_spec requestTimeout (writing_ends c)); [|destruct (peer_error c) as [err|]]; (split; [done|]); [right|right|by left].
  - split; [done|]. split; [by left|]. eexists. apply elem_of_app. right. by left.
  - split; [done|]. split; [right; eauto|]. exists err. apply elem_of_app. right. by left.
Qed.

(** The connection loop of the client always returns: whatever each dial answers and
    however long dials and sleeps take, forty-two iterations settle it. *)
Theorem connect_terminates w timeout now :
  (∀ i, 0 ≤ dial_time w i) → (∀ i, 0 ≤ oversleep w i) →
  connect 42 w timeout now ≠ OutOfFuel.
Proof.
  intros Hd Ho. unfold connect. apply connect_loop_terminates; [done..| |lia].
  unfold startupRetryWindow, startupRetryDelay. case_match; bool_prop; lia.
Qed.

Definition refused_world : DialWorld :=
  {| dial := λ _, ConnRefused; dial_time := λ _, 0; oversleep := λ _, 0 |}.

Lemma connect_terminates_witness :
  connect 42 refused_world defaultTimeout 0 ≠ OutOfFuel ∧
  connect 42 refused_world defaultTimeout 0 = ConnDeadlineExceeded.
Proof.
  split; [|reflexivity]. apply (connect_terminates refused_world defaultTimeout 0); intros i; simpl; lia.
Defined.
