(* ===== verification/Limiter.v ===== *)
(** * The login limiter ([internal/webauth/limiter.go])

    The map of attempt counters, its three operations, and the bound on the
    attempts an attacker gets.  The mutex makes each operation atomic, and no more: an
    attempt asks, has its password checked, and tells how that ended, and any number of
    attempts may be between the two.  [now] is the clock reading of the operation, in
    nanoseconds. *)

From S2P Require Import Prelude GoStrings StringFacts.
From Stdlib Require Import Ascii String.
#[local] Open Scope Z_scope.

Record attempt := { count : Z; expiresAt : Z }.

Record LoginLimiter := {
  entries : gmap string attempt;
  window : Z;
  account : Z;
  address : Z;
}.

Definition minute : Z := 60 * 10^9.

Definition NewLoginLimiter : LoginLimiter :=
  {| entries := ∅; window := 5 * minute; account := 8; address := 30 |}.

Definition with_entries (l : LoginLimiter) (e : gmap string attempt) : LoginLimiter :=
  {| entries := e; window := window l; account := account l; address := address l |}.

Section Limiter.
Context `{UnicodeCase}.

Definition ip_key (addr : string) : string := "ip:" +++ addr.
Definition login_key (login : string) : string := "login:" +++ to_lower (trim_space login).

(** An expired counter is dropped and counts zero. *)
Definition countLocked (l : LoginLimiter) (key : string) (now : Z) : Z * LoginLimiter :=
  match entries l !! key with
  | Some value =>
      if negb (now <? expiresAt value) then (0, with_entries l (delete key (entries l)))
      else (count value, l)
  | None => (0, with_entries l (delete key (entries l)))
  end.

(** The second counter is read only when the first allows. *)
Definition Allowed (l : LoginLimiter) (now : Z) (addr login : string) : bool * LoginLimiter :=
  let '(c, l1) := countLocked l (ip_key addr) now in
  if c <? address l then
    let '(c', l2) := countLocked l1 (login_key login) now in (c' <? account l, l2)
  else (false, l1).

Definition bump (now : Z) (l : LoginLimiter) (key : string) : LoginLimiter :=
  let value := match entries l !! key with Some v => v | None => {| count := 0; expiresAt := 0 |} end in
  let value := if (match entries l !! key with Some v => now <? expiresAt v | None => false end)
               then value else {| count := 0; expiresAt := now + window l |} in
  with_entries l (<[key := {| count := count value + 1; expiresAt := expiresAt value |}]> (entries l)).

Definition LimiterFailure (l : LoginLimiter) (now : Z) (addr login : string) : LoginLimiter :=
  fold_left (bump now) [ip_key addr; login_key login] l.

Definition LimiterSuccess (l : LoginLimiter) (login : string) : LoginLimiter :=
  with_entries l (delete (login_key login) (entries l)).

(** ** Attempts, as the handlers of [webapp.go] make them *)

(** An attempt between [Allowed] and what it answers: a password being checked, or a refusal to record. *)
Record flight := mkFlight { f_address : string; f_login : string; f_allowed : bool }.
(** How a check ends; when the accounts cannot be read, nothing is recorded. *)
Inductive ending := Rejected | Accepted | Unavailable.
(** What may happen next: an attempt asks; one whose fields have no valid length is recorded as a failure without asking;
    the [i]-th attempt under way ends. *)
Inductive move := Asks (addr login : string) | Malformed (addr login : string) | Ends (i : nat) (e : ending).
Definition event : Type := Z * move.
(** The limiter and the attempts under way. *)
Definition state : Type := LoginLimiter * list flight.

Definition close (l : LoginLimiter) (now : Z) (f : flight) (e : ending) : LoginLimiter :=
  if negb (f_allowed f) then LimiterFailure l now (f_address f) (f_login f)
  else match e with
       | Rejected => LimiterFailure l now (f_address f) (f_login f)
       | Accepted => LimiterSuccess l (f_login f)
       | Unavailable => l
       end.
(** What ended, and what comes of it. *)
Definition next (st : state) (x : event) : option (flight * ending) * state :=
  let (l, fs) := st in
  match x.2 with
  | Asks addr login => let (ok, l) := Allowed l x.1 addr login in (None, (l, fs ++ [mkFlight addr login ok]))
  | Malformed addr login => (None, (LimiterFailure l x.1 addr login, fs))
  | Ends i e =>
      match fs !! i with
      | Some f => (Some (f, e), (close l x.1 f e, base.delete i fs))
      | None => (None, (l, fs))
      end
  end.
(** The attempts that ended along a trace, in order. *)
Fixpoint run (st : state) (trace : list event) : list (flight * ending) * state :=
  match trace with
  | [] => ([], st)
  | x :: trace =>
      let (o, st) := next st x in
      let (r, st) := run st trace in (option_list o ++ r, st)
  end.

Definition touches (key addr login : string) : bool := String.eqb key (ip_key addr) || String.eqb key (login_key login).
(** An attempt on [key] that was let through. *)
Definition guesses (key : string) (f : flight) : bool := touches key (f_address f) (f_login f) && f_allowed f.
Definition is_rejected (e : ending) : bool := match e with Rejected => true | _ => false end.
Definition is_accepted (e : ending) : bool := match e with Accepted => true | _ => false end.
(** The passwords tried on [key] and found wrong. *)
Definition wrong (key : string) (r : list (flight * ending)) : Z :=
  Z.of_nat (List.length (List.filter (λ fe, guesses key fe.1 && is_rejected fe.2) r)).
(** A success that resets the counter [key]. *)
Definition resets (key : string) (fe : flight * ending) : bool :=
  f_allowed fe.1 && is_accepted fe.2 && String.eqb key (login_key (f_login fe.1)).
(** The attempts on [key] under way and let through, and the most there are along a trace. *)
Definition under_way (key : string) (fs : list flight) : Z := Z.of_nat (List.length (List.filter (guesses key) fs)).
Fixpoint peak (key : string) (st : state) (trace : list event) : Z :=
  Z.max (under_way key st.2) (match trace with [] => 0 | x :: trace => peak key (next st x).2 trace end).

Definition limit (l : LoginLimiter) (key : string) : Z :=
  if has_prefix key "ip:" then address l else account l.

(** ** Lemmas *)

Lemma ip_login_ne addr login : ip_key addr ≠ login_key login.
Proof. done. Qed.

Lemma countLocked_window l k now : window (countLocked l k now).2 = window l
  ∧ account (countLocked l k now).2 = account l ∧ address (countLocked l k now).2 = address l.
Proof. unfold countLocked. by repeat case_match. Qed.

(** What reading a counter does to the entry of [k]: expired entries may go. *)
Lemma countLocked_entries l k k' now :
  entries (countLocked l k' now).2 !! k = entries l !! k ∨
  (entries (countLocked l k' now).2 !! k = None ∧
   ∀ v, entries l !! k = Some v → expiresAt v ≤ now).
Proof.
  unfold countLocked. destruct (decide (k' = k)) as [->|Hne].
  - destruct (entries l !! k) as [v|] eqn:E.
    + destruct (now <? expiresAt v) eqn:Ev; simpl; [by left|]. right.
      rewrite lookup_delete_eq. split; [done|]. intros ? [= <-]. bool_prop. lia.
    + simpl. left. by rewrite lookup_delete_eq.
  - left. destruct (entries l !! k') as [v|]; [destruct (now <? expiresAt v)|]; simpl;
      rewrite ?lookup_delete_ne; done.
Qed.

Lemma countLocked_value l k now :
  (countLocked l k now).1 = match entries l !! k with
                            | Some v => if now <? expiresAt v then count v else 0
                            | None => 0 end.
Proof. unfold countLocked. by repeat case_match. Qed.

Lemma bump_entries l now k k' :
  entries (bump now l k') !! k =
  if decide (k' = k) then
    match entries l !! k with
    | Some v => if now <? expiresAt v then Some {| count := count v + 1; expiresAt := expiresAt v |}
                else Some {| count := 1; expiresAt := now + window l |}
    | None => Some {| count := 1; expiresAt := now + window l |}
    end
  else entries l !! k.
Proof.
  unfold bump. cbn [entries with_entries]. rewrite lookup_insert. case_decide; [subst|done].
  by destruct (entries l !! k) as [v|]; [destruct (now <? expiresAt v)|].
Qed.

Definition same_limits (l l' : LoginLimiter) : Prop :=
  window l' = window l ∧ account l' = account l ∧ address l' = address l.

Lemma Allowed_limits l now addr login : same_limits l (Allowed l now addr login).2.
Proof.
  unfold Allowed, same_limits.
  pose proof (countLocked_window l (ip_key addr) now).
  destruct (countLocked l (ip_key addr) now) as [c l1]; cbn [fst snd] in *.
  destruct (c <? address l); [|done].
  pose proof (countLocked_window l1 (login_key login) now).
  destruct (countLocked l1 (login_key login) now) as [c' l2]; cbn [fst snd] in *.
  naive_solver congruence.
Qed.

Lemma Allowed_entries l k now addr login :
  entries (Allowed l now addr login).2 !! k = entries l !! k ∨
  (entries (Allowed l now addr login).2 !! k = None ∧
   ∀ v, entries l !! k = Some v → expiresAt v ≤ now).
Proof.
  unfold Allowed.
  pose proof (countLocked_entries l k (ip_key addr) now) as H1.
  destruct (countLocked l (ip_key addr) now) as [c l1]; cbn [fst snd] in *.
  destruct (c <? address l); [|done].
  pose proof (countLocked_entries l1 k (login_key login) now) as H2.
  destruct (countLocked l1 (login_key login) now) as [c' l2]; cbn [fst snd] in *.
  destruct H1 as [H1|[H1 ?]], H2 as [H2|[H2 ?]]; rewrite ?H1 in *; auto.
Qed.

(** The counter of [k] as an operation at time [now] reads it. *)
Definition current (l : LoginLimiter) (k : string) (now : Z) : option attempt :=
  match entries l !! k with
  | Some v => if now <? expiresAt v then Some v else None
  | None => None
  end.

Lemma current_Allowed l k now addr login t : now ≤ t →
  current (Allowed l now addr login).2 k t = current l k t.
Proof.
  intros Ht. unfold current.
  destruct (Allowed_entries l k now addr login) as [->|[-> Hv]]; [done|].
  destruct (entries l !! k) as [v|]; [|done]. specialize (Hv v eq_refl).
  destruct (Z.ltb_spec t (expiresAt v)); [lia|done].
Qed.

Lemma touches_cases key addr login : touches key addr login = true ↔ key = ip_key addr ∨ key = login_key login.
Proof. unfold touches. by rewrite orb_true_iff, !String.eqb_eq. Qed.

(** A failure raises the counter of each of its two keys, and no other. *)
Lemma current_Failure l k now addr login t : now ≤ t →
  current (LimiterFailure l now addr login) k t =
  if touches k addr login then
    match current l k now with
    | Some v => if t <? expiresAt v then Some {| count := count v + 1; expiresAt := expiresAt v |} else None
    | None => if t <? now + window l then Some {| count := 1; expiresAt := now + window l |} else None
    end
  else current l k t.
Proof.
  intros Ht. unfold LimiterFailure. cbn [fold_left].
  assert (touches k addr login = bool_decide (ip_key addr = k ∨ login_key login = k)) as ->.
  { apply eq_true_iff_eq. rewrite touches_cases, bool_decide_eq_true. naive_solver. }
  unfold current. rewrite !bump_entries. pose proof (ip_login_ne addr login).
  case_bool_decide as Hk.
  - destruct (decide (login_key login = k)) as [<-|];
      [rewrite decide_False by done|rewrite decide_True by naive_solver];
      by destruct (entries l !! _) as [v|]; [destruct (now <? expiresAt v)|].
  - by rewrite !decide_False by naive_solver.
Qed.

Lemma limit_same l l' k : same_limits l l' → limit l' k = limit l k.
Proof. unfold same_limits, limit. intros (? & -> & ->). done. Qed.

Lemma limit_ip l addr : limit l (ip_key addr) = address l.
Proof. unfold limit, ip_key. by rewrite has_prefix_app. Qed.

Lemma limit_login l login : limit l (login_key login) = account l.
Proof. done. Qed.

Lemma countLocked_current l k now :
  (countLocked l k now).1 = from_option count 0 (current l k now).
Proof. rewrite countLocked_value. unfold current. by repeat case_match. Qed.

(** What [Allowed] decides: both counters are below their limits. *)
Lemma Allowed_true l now addr login :
  (Allowed l now addr login).1 = true ↔
  ∀ k, touches k addr login = true → from_option count 0 (current l k now) < limit l k.
Proof.
  unfold Allowed.
  pose proof (countLocked_current l (ip_key addr) now) as H1.
  pose proof (countLocked_entries l (login_key login) (ip_key addr) now) as He.
  destruct (countLocked l (ip_key addr) now) as [c l1] eqn:E1; cbn [fst snd] in *.
  assert (current l1 (login_key login) now = current l (login_key login) now) as Hl.
  { unfold current. destruct He as [->|[-> Hv]]; [done|].
    destruct (entries l !! _) as [v|]; [|done]. specialize (Hv v eq_refl).
    by destruct (Z.ltb_spec now (expiresAt v)); [lia|]. }
  destruct (Z.ltb_spec c (address l)) as [Hc|Hc].
  - pose proof (countLocked_current l1 (login_key login) now) as H2. rewrite Hl in H2.
    destruct (countLocked l1 (login_key login) now) as [c' l2]; cbn [fst snd] in *.
    rewrite Z.ltb_lt. split.
    + intros Hc' k [->| ->]%touches_cases; rewrite ?limit_ip, ?limit_login; lia.
    + intros Hk. specialize (Hk (login_key login)). rewrite touches_cases, limit_login in Hk.
      rewrite H2. by apply Hk; right.
  - split; [done|]. intros Hk. specialize (Hk (ip_key addr)).
    rewrite touches_cases, limit_ip in Hk. specialize (Hk (or_introl eq_refl)). lia.
Qed.

(** The windows that can start in [[a, b]]. *)
Definition windows (w a b : Z) : Z := if a <=? b then (b - a) `div` w + 1 else 0.

Lemma windows_step w a b : 0 < w → a ≤ b → windows w a b = 1 + windows w (a + w) b.
Proof.
  intros Hw Hab. unfold windows. destruct (Z.leb_spec a b); [|lia].
  destruct (Z.leb_spec (a + w) b).
  - replace (b - a) with ((b - (a + w)) + 1 * w) by lia. rewrite Z.div_add; lia.
  - rewrite Z.div_small; lia.
Qed.

Lemma windows_mono w a a' b : 0 < w → a ≤ a' → 0 ≤ windows w a' b ≤ windows w a b.
Proof.
  intros Hw Ha. unfold windows. destruct (Z.leb_spec a' b), (Z.leb_spec a b); try lia.
  - pose proof (Z.div_le_mono (b - a') (b - a) w). pose proof (Z.div_pos (b - a') w). lia.
  - pose proof (Z.div_pos (b - a) w). lia.
Qed.

(** The wrong passwords on [k] still possible in the window of its counter: those up to the limit, the last of which finds
    up to [n - 1] others under way, and past the limit those under way. *)
Definition left_over (n : Z) (l : LoginLimiter) (k : string) (v : attempt) (fs : list flight) : Z :=
  if count v <? limit l k then limit l k - count v + n - 1 else under_way k fs.
(** Those still possible from [s] on until [b]. *)
Definition budget (n : Z) (st : state) (k : string) (s b : Z) : Z :=
  let (l, fs) := st in
  match current l k s with
  | Some v => left_over n l k v fs + (limit l k + n - 1) * windows (window l) (expiresAt v) b
  | None => (limit l k + n - 1) * windows (window l) s b
  end.

(** Time does not go back along a trace. *)
Fixpoint ordered (s b : Z) (trace : list event) : Prop :=
  match trace with
  | [] => True
  | (now, _) :: trace' => s ≤ now ≤ b ∧ ordered now b trace'
  end.

(** *** Counting *)

Lemma under_way_app k fs gs : under_way k (fs ++ gs) = under_way k fs + under_way k gs.
Proof. unfold under_way. rewrite List.filter_app, length_app. lia. Qed.
Lemma under_way_one k f : under_way k [f] = if guesses k f then 1 else 0.
Proof. unfold under_way. cbn [List.filter]. by destruct (guesses k f). Qed.
Lemma under_way_pos k fs : 0 ≤ under_way k fs.
Proof. unfold under_way. lia. Qed.
Lemma under_way_delete k fs i f : fs !! i = Some f → under_way k fs = (if guesses k f then 1 else 0) + under_way k (base.delete i fs).
Proof.
  revert i. induction fs as [|g fs IH]; intros i; [done|]. change (g :: fs) with ([g] ++ fs). rewrite under_way_app, under_way_one. destruct i as [|i].
  - change (base.delete 0%nat ([g] ++ fs)) with fs. intros [= ->]. lia.
  - intros Hf. specialize (IH i Hf). change (base.delete (S i) ([g] ++ fs)) with ([g] ++ base.delete i fs). rewrite under_way_app, under_way_one. lia.
Qed.
Lemma wrong_app k r r' : wrong k (r ++ r') = wrong k r + wrong k r'.
Proof. unfold wrong. rewrite List.filter_app, length_app. lia. Qed.
Lemma left_over_pos n l k v fs : 1 ≤ n → 0 ≤ left_over n l k v fs.
Proof. intros Hn. unfold left_over. destruct (Z.ltb_spec (count v) (limit l k)); [lia|apply under_way_pos]. Qed.
Lemma windows_pos w a b : 0 < w → 0 ≤ windows w a b.
Proof. intros Hw. pose proof (windows_mono w a a b Hw). lia. Qed.
Lemma budget_pos n st k s b : 0 < window st.1 → 0 < limit st.1 k → 1 ≤ n → 0 ≤ budget n st k s b.
Proof.
  intros Hw Hl Hn. destruct st as [l fs]. unfold budget. cbn [fst] in *. destruct (current l k s) as [v|].
  - pose proof (windows_pos (window l) (expiresAt v) b Hw). pose proof (left_over_pos n l k v fs Hn). nia.
  - pose proof (windows_pos (window l) s b Hw). nia.
Qed.
Lemma budget_later n st k s t b : 0 < window st.1 → 0 < limit st.1 k → 1 ≤ n → s ≤ t → budget n st k t b ≤ budget n st k s b.
Proof.
  intros Hw Hl Hn Hst. destruct st as [l fs]. cbn [fst] in *. unfold budget, current. destruct (entries l !! k) as [v|].
  - pose proof (left_over_pos n l k v fs Hn). destruct (Z.ltb_spec t (expiresAt v)), (Z.ltb_spec s (expiresAt v)); try lia.
    + pose proof (windows_mono (window l) (expiresAt v) t b). nia.
    + pose proof (windows_mono (window l) s t b). nia.
  - pose proof (windows_mono (window l) s t b). nia.
Qed.

(** *** A step *)

Lemma Failure_limits l now addr login : same_limits l (LimiterFailure l now addr login).
Proof. done. Qed.
Lemma close_limits l now f e : same_limits l (close l now f e).
Proof. unfold close. by destruct (f_allowed f), e. Qed.
Lemma next_limits st x : same_limits st.1 (next st x).2.1.
Proof.
  destruct st as [l fs], x as [now [addr login|addr login|i e]]; cbn [next fst snd].
  - pose proof (Allowed_limits l now addr login). by destruct (Allowed l now addr login).
  - done.
  - destruct (fs !! i); [apply close_limits|done].
Qed.
Lemma current_later l k now v : current l k now = Some v → now < expiresAt v.
Proof. unfold current. destruct (entries l !! k) as [x|]; [|done]. destruct (Z.ltb_spec now (expiresAt x)); [|done]. by intros [= <-]. Qed.
(** A failure on [k] costs one, when it ends an attempt that was let through or the attempts under way are at most [n]. *)
Lemma budget_failure n l fs gs k now addr login b (spent : Z) :
  0 < window l → 0 < limit l k → 1 ≤ n → now ≤ b → touches k addr login = true → under_way k fs = spent + under_way k gs →
  under_way k fs ≤ n → 0 ≤ spent ≤ 1 →
  spent + budget n (LimiterFailure l now addr login, gs) k now b ≤ budget n (l, fs) k now b.
Proof.
  intros Hw Hl Hn Hb Ht Hu Hp Hs. unfold budget. rewrite current_Failure, Ht by lia.
  rewrite (limit_same _ _ k (Failure_limits l now addr login)). change (window (LimiterFailure l now addr login)) with (window l).
  assert (∀ v, left_over n (LimiterFailure l now addr login) k v gs = left_over n l k v gs) as Hlo
    by (intros v; unfold left_over; by rewrite (limit_same _ _ k (Failure_limits l now addr login))).
  pose proof (under_way_pos k gs). destruct (current l k now) as [v|] eqn:Ev.
  - apply current_later in Ev as Hv. rewrite (proj2 (Z.ltb_lt _ _) Hv), Hlo. unfold left_over. cbn [count expiresAt].
    destruct (Z.ltb_spec (count v + 1) (limit l k)), (Z.ltb_spec (count v) (limit l k)); lia.
  - destruct (Z.ltb_spec now (now + window l)); [|lia]. rewrite Hlo, (windows_step (window l) now b) by lia. unfold left_over. cbn [count expiresAt].
    pose proof (windows_pos (window l) (now + window l) b Hw). destruct (Z.ltb_spec 1 (limit l k)); nia.
Qed.
(** What leaves the counter of [k] alone and ends an attempt costs nothing. *)
Lemma budget_same n l l' fs gs k now b : same_limits l l' → current l' k now = current l k now →
  (∀ v, current l k now = Some v → count v < limit l k ∨ under_way k gs ≤ under_way k fs) → budget n (l', gs) k now b ≤ budget n (l, fs) k now b.
Proof.
  intros Hs Hc Hu. pose proof (limit_same l l' k Hs) as Hl. destruct Hs as (Hw & _ & _). unfold budget, left_over. rewrite Hc, Hl, Hw.
  destruct (current l k now) as [v|]; [|lia]. specialize (Hu v eq_refl). destruct (Z.ltb_spec (count v) (limit l k)); lia.
Qed.
Lemma budget_next n st x k b : 0 < window st.1 → 0 < limit st.1 k → 1 ≤ n → x.1 ≤ b → under_way k st.2 ≤ n →
  (∀ fe, (next st x).1 = Some fe → resets k fe = false) →
  wrong k (option_list (next st x).1) + budget n (next st x).2 k x.1 b ≤ budget n st k x.1 b.
Proof.
  destruct st as [l fs], x as [now [addr login|addr login|i e]]; cbn [fst snd]; intros Hw Hl Hn Hb Hp Hr.
  - cbn [next fst snd]. pose proof (Allowed_limits l now addr login) as Hs. pose proof (current_Allowed l k now addr login now) as Hc.
    pose proof (Allowed_true l now addr login) as [Ht _]. destruct (Allowed l now addr login) as [ok l1]. cbn [fst snd option_list] in *.
    change (wrong k []) with 0. apply budget_same; [done|by apply Hc|]. intros v Hv. rewrite under_way_app, under_way_one. unfold guesses. cbn [f_address f_login f_allowed].
    destruct ok; [|rewrite andb_false_r; lia]. destruct (touches k addr login) eqn:Hk; [|cbn [andb]; lia]. left. specialize (Ht eq_refl k Hk). by rewrite Hv in Ht.
  - cbn [next fst snd option_list]. change (wrong k []) with 0. destruct (touches k addr login) eqn:Hk.
    + apply (budget_failure n l fs fs); (done || lia).
    + apply budget_same; [done| |intros; lia]. by rewrite current_Failure, Hk by lia.
  - revert Hr. cbn [next fst snd]. destruct (fs !! i) as [f|] eqn:Hf; cbn [fst snd option_list]; [|intros _; apply Z.le_refl].
    intros Hr. specialize (Hr _ eq_refl). pose proof (under_way_delete k fs i f Hf) as Hd. pose proof (under_way_pos k (base.delete i fs)).
    change (option_list (Some (f, e))) with [(f, e)]. assert (wrong k [(f, e)] = if guesses k f && is_rejected e then 1 else 0) as -> by (unfold wrong; cbn [List.filter fst snd]; by destruct (guesses k f && is_rejected e)).
    unfold resets in Hr. cbn [fst snd] in Hr. unfold close, guesses in *. destruct (f_allowed f) eqn:Ha; cbn [negb andb] in *; rewrite ?andb_true_r, ?andb_false_r in *.
    + destruct (touches k (f_address f) (f_login f)) eqn:Hk; cbn [andb] in *.
      * destruct e; cbn [is_rejected is_accepted] in *.
        -- apply (budget_failure n l fs (base.delete i fs)); (done || lia).
        -- apply budget_same; [done| |intros; lia]. unfold current, LimiterSuccess. cbn [entries with_entries andb] in *. rewrite lookup_delete_ne; [done|].
           intros E. by rewrite E, String.eqb_refl in Hr.
        -- apply budget_same; [done|done|intros; lia].
      * destruct e; cbn [is_rejected].
        -- apply budget_same; [done| |intros; lia]. by rewrite current_Failure, Hk by lia.
        -- apply budget_same; [done| |intros; lia]. unfold current, LimiterSuccess. cbn [entries with_entries]. rewrite lookup_delete_ne; [done|].
           intros <-. assert (touches (login_key (f_login f)) (f_address f) (f_login f) = true) by (apply touches_cases; by right). congruence.
        -- apply budget_same; [done|done|intros; lia].
    + destruct (touches k (f_address f) (f_login f)) eqn:Hk; cbn [andb] in *.
      * apply (budget_failure n l fs (base.delete i fs)); (done || lia).
      * apply budget_same; [done| |intros; lia]. by rewrite current_Failure, Hk by lia.
Qed.

Lemma run_budget n k s b trace : ∀ st,
  0 < window st.1 → 0 < limit st.1 k → 1 ≤ n → ordered s b trace → peak k st trace ≤ n →
  Forall (λ fe, resets k fe = false) (run st trace).1 →
  wrong k (run st trace).1 ≤ budget n st k s b.
Proof.
  revert s. induction trace as [|[now m] trace IH]; intros s st Hw Hl Hn Ht Hp Hr.
  { cbn [run fst]. change (wrong k []) with 0. by apply budget_pos. }
  cbn [ordered peak] in Ht, Hp. destruct Ht as [Hb Ht]. pose proof (budget_later n st k s now b Hw Hl Hn ltac:(lia)) as Hlater.
  pose proof (budget_next n st (now, m) k b Hw Hl Hn ltac:(cbn [fst]; lia) ltac:(lia)) as Hnext. pose proof (next_limits st (now, m)) as Hs.
  cbn [run] in *. destruct (next st (now, m)) as [o st1]. cbn [fst snd] in *. specialize (IH now st1).
  destruct (run st1 trace) as [r st2]. cbn [fst] in *. apply Forall_app in Hr as [Hr1 Hr2]. rewrite wrong_app.
  pose proof (limit_same _ _ k Hs) as Hk. destruct Hs as (Hwin & _).
  ospecialize (Hnext _); [intros fe ->; by inversion Hr1|]. ospecialize (IH _ _ _ _ _ _); [lia|lia|done|done|lia|done|]. lia.
Qed.

(** C35: brute force: however attempts come between [s] and [b], several at once, each asking the
    limiter and recording its end in two steps with the check of the password between them,
    the wrong passwords that are tried on a client address or on an account are at most, per
    started window, the limit and the number of attempts on it that were ever under way at
    the same time, less one: the limit itself when they come one after the other.  For an
    account this is while none of them signs in, since a success resets its counter. *)
Theorem limiter_bound l key s b trace :
  entries l !! key = None → 0 < window l → 0 < limit l key → s ≤ b → ordered s b trace →
  Forall (λ fe, resets key fe = false) (run (l, []) trace).1 →
  wrong key (run (l, []) trace).1 ≤ (limit l key + (Z.max 1 (peak key (l, []) trace) - 1)) * ((b - s) `div` window l + 1).
Proof.
  intros Hn Hw Hl Hsb Ht Hr.
  pose proof (run_budget (Z.max 1 (peak key (l, []) trace)) key s b trace (l, []) Hw Hl ltac:(lia) Ht ltac:(lia) Hr) as H1.
  unfold budget, current, windows in H1. rewrite Hn in H1. rewrite (proj2 (Z.leb_le s b) Hsb) in H1. lia.
Qed.

(** Lockout and reset: an attempt is let through exactly when the counters of its
    address and of its account are below the limits; a success clears the counter of
    the account (whatever the case and the spaces of the login) and leaves the counter
    of the address, and every other account, as they were. *)
Theorem limiter_lockout l now addr login :
  ((Allowed l now addr login).1 = true ↔
     ∀ k, touches k addr login = true → from_option count 0 (current l k now) < limit l k) ∧
  (∀ t, current (LimiterSuccess l login) (login_key login) t = None) ∧
  (∀ k t, k ≠ login_key login → current (LimiterSuccess l login) k t = current l k t).
Proof.
  split; [apply Allowed_true|]. unfold current, LimiterSuccess. cbn [entries with_entries].
  split; intros; [by rewrite lookup_delete_eq|by rewrite lookup_delete_ne].
Qed.
End Limiter.

Arguments touches {_} key addr login : simpl never.

(** Within a minute, ten attempts on one account ask one after the other and fail, but for the eighth and the ninth, which are
    both under way when the seventh has failed: nine wrong passwords, one more than the limit. *)
Definition sample_attempt (now : Z) : list event := [(now, Asks "10.0.0.1" "root"); (now, Ends 0 Rejected)].
Definition sample_trace : list event :=
  mjoin (replicate 7 (sample_attempt 0)) ++ [(0, Asks "10.0.0.1" "root"); (0, Asks "10.0.0.2" "Root"); (1, Ends 1 Rejected); (1, Ends 0 Rejected)] ++ sample_attempt 2.

Lemma limiter_bound_witness :
  wrong (H := ascii_case) "login:root" (run (H := ascii_case) (NewLoginLimiter, []) sample_trace).1 = 9 ∧
  peak (H := ascii_case) "login:root" (NewLoginLimiter, []) sample_trace = 2 ∧
  wrong (H := ascii_case) "login:root" (run (H := ascii_case) (NewLoginLimiter, []) sample_trace).1
    ≤ (8 + (Z.max 1 (peak (H := ascii_case) "login:root" (NewLoginLimiter, []) sample_trace) - 1)) * (minute `div` (5 * minute) + 1).
Proof.
  split; [vm_compute; reflexivity|]. split; [vm_compute; reflexivity|].
  apply (limiter_bound (H := ascii_case) NewLoginLimiter "login:root" 0 minute sample_trace);
    [done|by vm_compute|by vm_compute|by vm_compute| |].
  - unfold sample_trace, sample_attempt. cbn [mjoin list_join replicate app ordered]. unfold minute. repeat (split; [lia|]). exact I.
  - vm_compute. repeat (constructor; [reflexivity|]). constructor.
Defined.
