(* ===== verification/Totp.v ===== *)
(** * One-time passwords ([internal/webauth/totp.go], [enrollment.go])

    The verifier of six-digit codes, the decoding of a stored secret, the generation
    of a new one and its provisioning URI.  Base32, SHA-1 and HMAC are those of
    [Codec], written out; the clock reading of the verifier is the argument [unix]
    ([time.Now().Unix()]); the twenty random bytes of a new secret are an argument. *)

From S2P Require Import Prelude GoStrings StringFacts Codec.
From Stdlib Require Import Ascii String.
#[local] Open Scope string_scope.
#[local] Open Scope Z_scope.

(** A byte of a Go slice; the accesses below are all in range ([totp_offset_in_range]). *)
Definition byte_at (s : string) (i : Z) : Z :=
  match String.get (Z.to_nat i) s with Some c => byte c | None => 0 end.

Definition totp_number (sum : string) : Z :=
  let offset := Z.land (byte_at sum (slen sum - 1)) 15 in
  Z.lor (Z.lor (Z.lor
    (Z.shiftl (Z.land (byte_at sum offset) 127) 24)
    (Z.shiftl (byte_at sum (offset + 1)) 16))
    (Z.shiftl (byte_at sum (offset + 2)) 8))
    (byte_at sum (offset + 3)).

Definition totpCode (key : string) (counter : Z) : string :=
  let sum := hmac_sha1 key (be_bytes 8 counter) in
  let number := totp_number sum mod 1000000 in
  let digit d := chr (d + 48) in
  String (digit (number / 100000)) (String (digit (number / 10000 mod 10))
    (String (digit (number / 1000 mod 10)) (String (digit (number / 100 mod 10))
      (String (digit (number / 10 mod 10)) (String (digit (number mod 10)) ""))))).

Section Totp.
Context `{UnicodeCase}.

Definition squeeze (s : string) : string := join "" (fields s).

Definition decodeTOTPSecret (secret : string) : option string :=
  let secret := to_upper (squeeze secret) in
  if String.eqb secret "" || (256 <? slen secret) then None else b32_decode secret.

Definition totp_offsets : list Z := [-1; 0; 1].

Definition Verify (unix : Z) (secret code : string) : bool :=
  let code := squeeze code in
  if negb (slen code =? 6) then false
  else if negb (sforall is_digit code) then false
  else match decodeTOTPSecret secret with
       | None => false
       | Some key =>
           let counter := Z.quot unix 30 in
           existsb (λ offset, String.eqb (totpCode key (wrapu64 (wrap64 (counter + offset)))) code)
             totp_offsets
       end.
End Totp.

(** ** Enrollment *)

(** [base32.StdEncoding.WithPadding(NoPadding).EncodeToString]. *)
Definition b32_char (k : Z) : ascii := if k <? 26 then chr (65 + k) else chr (24 + k).

Definition b32_digits (n : nat) (v : Z) : string :=
  fold_right (λ k acc, String (b32_char (v / 2^(5 * Z.of_nat k) mod 32)) acc) "" (rev (seq 0 n)).

Fixpoint b32_encode (s : string) : string :=
  match s with
  | "" => ""
  | String a (String b (String c (String d (String e s')))) =>
      b32_digits 8 (be_value 0 (String a (String b (String c (String d (String e "")))))) +++ b32_encode s'
  | String _ (String _ (String _ (String _ ""))) => b32_digits 7 (be_value 0 s * 2^3)
  | String _ (String _ (String _ "")) => b32_digits 5 (be_value 0 s * 2)
  | String _ (String _ "") => b32_digits 4 (be_value 0 s * 2^4)
  | String _ "" => b32_digits 2 (be_value 0 s * 2^2)
  end.

Definition GenerateTOTPSecret (rand : option string) : option string :=
  match rand with
  | Some value => Some (b32_encode value)
  | None => None
  end.

(** [net/url]: the bytes left as they are in a path segment and in a query value. *)
Definition unreserved (c : ascii) : bool :=
  is_lower c || is_upper c || is_digit c || contains_byte c "-_.~".
Definition path_byte (c : ascii) : bool := unreserved c || contains_byte c "$&+=:@".
Definition upper_hex (k : Z) : ascii := if k <? 10 then chr (48 + k) else chr (55 + k).
Definition percent (c : ascii) : string :=
  String "%" (String (upper_hex (byte c / 16)) (String (upper_hex (byte c mod 16)) "")).
Fixpoint PathEscape (s : string) : string :=
  match s with
  | "" => ""
  | String c s' => (if path_byte c then String c "" else percent c) +++ PathEscape s'
  end.
Fixpoint QueryEscape (s : string) : string :=
  match s with
  | "" => ""
  | String c s' =>
      (if unreserved c then String c "" else if Ascii.eqb c " " then "+" else percent c) +++ QueryEscape s'
  end.

(** [url.Values.Encode]: the keys come out sorted. *)
Definition encode_values (values : list (string * string)) : string :=
  join "&" ((λ kv, QueryEscape kv.1 +++ "=" +++ QueryEscape kv.2) <$> values).

Section Enrollment.
Context `{UnicodeCase}.

Definition TOTPProvisioningURI (login secret : string) : option string :=
  match decodeTOTPSecret secret with
  | None => None
  | Some _ =>
      let label := "AegisAdmin:" +++ trim_space login in
      let query := [("algorithm", "SHA1"); ("digits", "6"); ("issuer", "AegisAdmin");
                    ("period", "30"); ("secret", secret)] in
      Some ("otpauth://totp/" +++ PathEscape label +++ "?" +++ encode_values query)
  end.
End Enrollment.

(** ** The code *)

Lemma be_bytes_length n v : String.length (be_bytes n v) = n.
Proof.
  unfold be_bytes. set (m := n) at 1.
  cut (∀ k acc, String.length ((fix go (k : nat) : string → string :=
     match k with
     | O => λ acc, acc
     | S k' => λ acc, go k' (String (chr (v / 2^(8 * Z.of_nat (m - k)) mod 256)) acc)
     end) k acc) = (k + String.length acc)%nat).
  { intros Hk. rewrite Hk. simpl. lia. }
  intros k. induction k as [|k IH]; intros acc; [done|]. rewrite IH. simpl. lia.
Qed.

Lemma sha1_length s : String.length (sha1 s) = 20%nat.
Proof.
  unfold sha1. destruct (fold_left _ _ _) as [[[[h0 h1] h2] h3] h4].
  by rewrite !sapp_length, !be_bytes_length.
Qed.

Lemma hmac_sha1_length key msg : String.length (hmac_sha1 key msg) = 20%nat.
Proof. apply sha1_length. Qed.

Lemma byte_at_range s i : 0 ≤ byte_at s i < 256.
Proof. unfold byte_at. case_match; [apply byte_range|lia]. Qed.

Lemma land_ones_range x n : 0 ≤ n → 0 ≤ Z.land x (2^n - 1) < 2^n.
Proof.
  intros Hn. replace (2^n - 1) with (Z.ones n) by (rewrite Z.ones_equiv; lia).
  rewrite Z.land_ones by done. apply Z.mod_pos_bound. lia.
Qed.

(** The dynamic truncation never leaves the digest. *)
Lemma totp_offset_in_range key msg :
  let sum := hmac_sha1 key msg in
  let offset := Z.land (byte_at sum (slen sum - 1)) 15 in 0 ≤ offset ∧ offset + 3 < slen sum.
Proof.
  intros sum offset. pose proof (land_ones_range (byte_at sum (slen sum - 1)) 4).
  assert (slen sum = 20) as -> by (unfold slen, sum; by rewrite hmac_sha1_length).
  unfold offset. change (2^4 - 1) with 15 in *. lia.
Qed.

Lemma lor_below n x y : 0 ≤ n → 0 ≤ x < 2^n → 0 ≤ y < 2^n → 0 ≤ Z.lor x y < 2^n.
Proof.
  intros Hn Hx Hy. assert (0 ≤ Z.lor x y) by (apply Z.lor_nonneg; lia).
  destruct (decide (n = 0)) as [->|]; [rewrite Z.pow_0_r in *; replace x with 0 by lia; replace y with 0 by lia; done|].
  assert (∀ z, 0 ≤ z < 2^n → Z.log2 z < n) as Hz.
  { intros z Hz. destruct (decide (z = 0)) as [->|]; [simpl; lia|apply Z.log2_lt_pow2; lia]. }
  split; [done|]. destruct (decide (Z.lor x y = 0)); [lia|].
  apply Z.log2_lt_pow2; [lia|]. rewrite Z.log2_lor by lia.
  pose proof (Hz x Hx). pose proof (Hz y Hy). lia.
Qed.

Lemma shiftl_below x n k : 0 ≤ k → 0 ≤ x < 2^n → 0 ≤ n → 0 ≤ Z.shiftl x k < 2^(n + k).
Proof. intros. rewrite Z.shiftl_mul_pow2, Z.pow_add_r by done. nia. Qed.

(** The truncated number is a 31-bit integer: no sign, no wrap-around in [uint32]. *)
Lemma totp_number_range sum : 0 ≤ totp_number sum < 2^31.
Proof.
  unfold totp_number. set (o := Z.land _ 15).
  pose proof (land_ones_range (byte_at sum o) 7 ltac:(lia)) as H0.
  pose proof (byte_at_range sum (o + 1)) as H1. pose proof (byte_at_range sum (o + 2)) as H2.
  pose proof (byte_at_range sum (o + 3)) as H3.
  pose proof (shiftl_below _ 7 24 ltac:(lia) H0 ltac:(lia)).
  pose proof (shiftl_below _ 8 16 ltac:(lia) H1 ltac:(lia)).
  pose proof (shiftl_below _ 8 8 ltac:(lia) H2 ltac:(lia)).
  change (2^7 - 1) with 127 in *.
  repeat apply lor_below; lia.
Qed.

Lemma digit_char d : 0 ≤ d < 10 → is_digit (chr (d + 48)) = true ∧ digit_value (chr (d + 48)) = d.
Proof.
  intros Hd. unfold digit_value. rewrite byte_chr by lia. split; [|lia].
  unfold is_digit, between. rewrite byte_chr by lia.
  apply andb_true_iff. split; apply Z.leb_le; unfold byte; simpl; lia.
Qed.

(** A one-time password is six decimal digits, the number truncated from the HMAC
    modulo one million, leading zeros kept. *)
Theorem totpCode_digits key counter :
  slen (totpCode key counter) = 6 ∧ sforall is_digit (totpCode key counter) = true ∧
  digits_value 0 (totpCode key counter)
    = totp_number (hmac_sha1 key (be_bytes 8 counter)) mod 1000000.
Proof.
  unfold totpCode. set (n := totp_number _ mod 1000000).
  assert (0 ≤ n < 1000000) as Hn by (apply Z.mod_pos_bound; lia).
  assert (0 ≤ n / 100000 < 10) as H1 by (split; [apply Z.div_pos|apply Z.div_lt_upper_bound]; lia).
  assert (∀ k, 0 ≤ n / k mod 10 < 10) as Hk by (intros; apply Z.mod_pos_bound; lia).
  assert (0 ≤ n mod 10 < 10) as H0 by (apply Z.mod_pos_bound; lia).
  clearbody n. split; [done|]. cbn [sforall digits_value].
  destruct (digit_char _ H1) as [-> ->]. destruct (digit_char _ H0) as [-> ->].
  rewrite !(proj1 (digit_char _ (Hk _))), !(proj2 (digit_char _ (Hk _))).
  split; [done|]. Z.div_mod_to_equations. lia.
Qed.

(** ** The verifier *)

Section VerifyFacts.
Context `{UnicodeCase}.

Definition accepts (unix : Z) (key code : string) : Prop :=
  ∃ offset, -1 ≤ offset ≤ 1 ∧ code = totpCode key (wrapu64 (wrap64 (Z.quot unix 30 + offset))).

Lemma accepts_existsb unix key code :
  existsb (λ offset, String.eqb (totpCode key (wrapu64 (wrap64 (Z.quot unix 30 + offset)))) code)
    totp_offsets = true ↔ accepts unix key code.
Proof.
  unfold accepts, totp_offsets. rewrite existsb_exists. split.
  - intros (o & Ho & He). apply String.eqb_eq in He. exists o. split; [|done].
    simpl in Ho. lia.
  - intros (o & Ho & ->). exists o. rewrite String.eqb_refl. split; [|done].
    simpl. lia.
Qed.

(** The verifier accepts exactly the codes, spaces apart, of the time step of the
    clock, of the one before and of the one after, under the key the stored secret
    decodes to; everything else is refused, whatever its length or characters. *)
Theorem Verify_spec unix secret code :
  Verify unix secret code = true ↔
  ∃ key, decodeTOTPSecret secret = Some key ∧ accepts unix key (squeeze code).
Proof.
  unfold Verify. cbv zeta. set (c := squeeze code). split.
  - destruct (negb (slen c =? 6)); [done|]. destruct (negb (sforall is_digit c)); [done|].
    destruct (decodeTOTPSecret secret) as [key|]; [|done].
    intros Ha%accepts_existsb. by exists key.
  - intros (key & Hk & Ha). rewrite Hk. destruct Ha as (o & Ho & Hc).
    destruct (totpCode_digits key (wrapu64 (wrap64 (Z.quot unix 30 + o)))) as (Hl & Hd & _).
    rewrite <- Hc in Hl, Hd. rewrite Hl, Hd. cbn [negb Z.eqb].
    apply accepts_existsb. by exists o.
Qed.
End VerifyFacts.

(** ** Base32 *)

Lemma b32_val_char k : 0 ≤ k < 32 → b32_val (b32_char k) = Some k ∧ not_newline (b32_char k) = true
  ∧ (is_upper (b32_char k) || is_digit (b32_char k)) = true.
Proof.
  intros Hk. pose proof (forall_below 32 (λ k, bool_decide (b32_val (b32_char k) = Some k ∧
    not_newline (b32_char k) = true ∧ (is_upper (b32_char k) || is_digit (b32_char k)) = true))
    eq_refl k Hk) as H. by apply bool_decide_eq_true in H.
Qed.

Lemma b32_quantum a b c d e :
  ∃ d0 d1 d2 d3 d4 d5 d6 d7,
    b32_digits 8 (be_value 0 (String a (String b (String c (String d (String e "")))))) =
      String (b32_char d0) (String (b32_char d1) (String (b32_char d2) (String (b32_char d3)
        (String (b32_char d4) (String (b32_char d5) (String (b32_char d6) (String (b32_char d7) ""))))))) ∧
    Forall (λ k, 0 ≤ k < 32) [d0; d1; d2; d3; d4; d5; d6; d7] ∧
    d0 * 2^35 + d1 * 2^30 + d2 * 2^25 + d3 * 2^20 + d4 * 2^15 + d5 * 2^10 + d6 * 2^5 + d7 =
      (((byte a * 256 + byte b) * 256 + byte c) * 256 + byte d) * 256 + byte e.
Proof.
  set (v := be_value 0 _).
  assert (v = (((byte a * 256 + byte b) * 256 + byte c) * 256 + byte d) * 256 + byte e) as Hv.
  { subst v. cbn [be_value]. lia. }
  pose proof (byte_range a). pose proof (byte_range b). pose proof (byte_range c).
  pose proof (byte_range d). pose proof (byte_range e).
  assert (0 ≤ v < 2^40) as Hr by lia. rewrite <- Hv. clearbody v. clear Hv.
  exists (v / 2^35 mod 32), (v / 2^30 mod 32), (v / 2^25 mod 32), (v / 2^20 mod 32),
    (v / 2^15 mod 32), (v / 2^10 mod 32), (v / 2^5 mod 32), (v / 2^0 mod 32).
  split; [done|]. split; [repeat constructor; apply Z.mod_pos_bound; lia|].
  rewrite Z.pow_0_r, Z.div_1_r.
  assert (∀ p, 0 < p → v / p = 32 * (v / (p * 32)) + v / p mod 32) as Hs.
  { intros p Hp. rewrite <- Z.div_div by lia. apply Z.div_mod. lia. }
  pose proof (Hs 1 ltac:(lia)) as Hone. rewrite Z.div_1_r in Hone.
  pose proof (Hs (2^5) ltac:(lia)). pose proof (Hs (2^10) ltac:(lia)).
  pose proof (Hs (2^15) ltac:(lia)). pose proof (Hs (2^20) ltac:(lia)).
  pose proof (Hs (2^25) ltac:(lia)). pose proof (Hs (2^30) ltac:(lia)).
  assert (v / 2^35 mod 32 = v / 2^35) as ->.
  { apply Z.mod_small. split; [apply Z.div_pos; lia|apply Z.div_lt_upper_bound; lia]. }
  change (1 * 32) with (2^5) in *. change (2^5 * 32) with (2^10) in *.
  change (2^10 * 32) with (2^15) in *. change (2^15 * 32) with (2^20) in *.
  change (2^20 * 32) with (2^25) in *. change (2^25 * 32) with (2^30) in *.
  change (2^30 * 32) with (2^35) in *. lia.
Qed.

Definition b32_letter (c : ascii) : bool := is_upper c || is_digit c.

Lemma b32_encode_digits n s : String.length s = (5 * n)%nat →
  (∃ l, digits_of b32_val (sfilter not_newline (b32_encode s)) = Some l ∧ b32_quanta l = s) ∧
  sforall b32_letter (b32_encode s) = true ∧ String.length (b32_encode s) = (8 * n)%nat.
Proof.
  revert s. induction n as [|n IH]; intros s Hs.
  { destruct s; [|done]. split_and!; [by exists []|done..]. }
  destruct s as [|a [|b [|c [|d [|e s]]]]]; try (simpl in Hs; lia).
  destruct (IH s) as ((l & Hl & Hq) & Hall & Hlen); [simpl in Hs; lia|].
  destruct (b32_quantum a b c d e) as (d0 & d1 & d2 & d3 & d4 & d5 & d6 & d7 & He & Hd & Hv).
  cbn [b32_encode]. rewrite He. rewrite !Forall_cons in Hd.
  destruct Hd as (H0 & H1 & H2 & H3 & H4 & H5 & H6 & H7 & _).
  rewrite !sapp_cons. cbn [String.append sfilter digits_of sforall String.length].
  assert (∀ k, 0 ≤ k < 32 → not_newline (b32_char k) = true) as Hn by apply b32_val_char.
  assert (∀ k, 0 ≤ k < 32 → b32_letter (b32_char k) = true) as Hu by apply b32_val_char.
  assert (∀ k, 0 ≤ k < 32 → b32_val (b32_char k) = Some k) as Hval by apply b32_val_char.
  rewrite !Hn, !Hu by done. cbn [digits_of]. rewrite !Hval by done.
  rewrite Hl, Hall, Hlen. cbn [andb]. split_and!; [|done|lia].
  eexists; split; [done|]. cbn [b32_quanta]. rewrite Hv, Hq.
  pose proof (byte_range a). pose proof (byte_range b). pose proof (byte_range c).
  pose proof (byte_range d). pose proof (byte_range e). set (v := _ * 256 + byte e).
  replace (v / 2^32) with (byte a) by (subst v; div_mod).
  replace (v / 2^24 mod 256) with (byte b) by (subst v; div_mod).
  replace (v / 2^16 mod 256) with (byte c) by (subst v; div_mod).
  replace (v / 2^8 mod 256) with (byte d) by (subst v; div_mod).
  replace (v mod 256) with (byte e) by (subst v; div_mod).
  by rewrite !chr_byte.
Qed.

(** ** Enrollment *)

Section EnrollmentFacts.
Context `{UnicodeCase}.

Lemma b32_letter_facts c : b32_letter c = true →
  graphic c = true ∧ is_ascii_byte c = true ∧ ascii_upper c = c ∧ unreserved c = true.
Proof.
  intros Hc. pose proof (forall_bytes (λ c, negb (b32_letter c) || (graphic c && is_ascii_byte c &&
    Ascii.eqb (ascii_upper c) c && unreserved c)) eq_refl c) as Hall.
  cbv beta in Hall. rewrite Hc in Hall. cbn [negb orb] in Hall. bool_prop.
  match goal with He : Ascii.eqb _ _ = true |- _ => apply Ascii.eqb_eq in He end. done.
Qed.

Lemma smap_id f s : (∀ c, b32_letter c = true → f c = c) → sforall b32_letter s = true → smap f s = s.
Proof.
  intros Hf. induction s as [|c s IH]; [done|]. cbn [sforall]. intros [Hc Hs]%andb_prop.
  unfold smap in *. by rewrite (Hf c Hc), (IH Hs).
Qed.

Lemma QueryEscape_id s : sforall b32_letter s = true → QueryEscape s = s.
Proof.
  induction s as [|c s IH]; [done|]. cbn [sforall QueryEscape]. intros [Hc Hs]%andb_prop.
  destruct (b32_letter_facts c Hc) as (_ & _ & _ & ->). by rewrite IH.
Qed.

Lemma squeeze_field s : is_field s → squeeze s = s.
Proof. intros Hs. unfold squeeze. by rewrite fields_field. Qed.

Lemma decodeTOTPSecret_generated value n :
  String.length value = (5 * n)%nat → (0 < n ≤ 32)%nat →
  decodeTOTPSecret (b32_encode value) = Some value.
Proof.
  intros Hv Hn. destruct (b32_encode_digits n value Hv) as ((l & Hl & Hq) & Hall & Hlen).
  set (s := b32_encode value) in *.
  assert (s ≠ "") as Hne by (intros E; rewrite E in Hlen; simpl in Hlen; lia).
  assert (is_field s) as Hf.
  { apply graphic_field; [done|]. apply (sforall_impl b32_letter); [|done].
    intros c Hc. by destruct (b32_letter_facts c Hc). }
  unfold decodeTOTPSecret. rewrite squeeze_field by done.
  assert (to_upper s = s) as ->.
  { unfold to_upper. assert (is_ascii s = true) as ->.
    { apply (sforall_impl b32_letter); [|done]. intros c Hc. by destruct (b32_letter_facts c Hc) as (_ & ? & _). }
    apply smap_id; [|done]. intros c Hc. by destruct (b32_letter_facts c Hc) as (_ & _ & ? & _). }
  rewrite (proj2 (String.eqb_neq s "") Hne). cbn [orb].
  assert ((256 <? slen s) = false) as -> by (apply Z.ltb_ge; unfold slen; rewrite Hlen; lia).
  unfold b32_decode. by rewrite Hl, Hq.
Qed.

(** Enrollment round trip: a secret generated from twenty random bytes is what the
    provisioning URI hands to the authenticator application, decodes to those very
    bytes, and the code the application computes from them at its clock is accepted by
    the verifier as long as the two clocks are at most thirty seconds apart. *)
Theorem enrolled_code_accepted value secret login t0 t :
  slen value = 20 → GenerateTOTPSecret (Some value) = Some secret →
  0 ≤ t0 < 2^62 → 0 ≤ t < 2^62 → Z.abs (t - t0) ≤ 30 →
  TOTPProvisioningURI login secret =
    Some ("otpauth://totp/" +++ PathEscape ("AegisAdmin:" +++ trim_space login)
          +++ "?algorithm=SHA1&digits=6&issuer=AegisAdmin&period=30&secret=" +++ secret) ∧
  Verify t secret (totpCode value (t0 / 30)) = true.
Proof.
  intros Hv [= <-] Ht0 Ht Hd.
  assert (String.length value = (5 * 4)%nat) as Hlen by (unfold slen in Hv; lia).
  assert (decodeTOTPSecret (b32_encode value) = Some value) as Hdec
    by (apply (decodeTOTPSecret_generated value 4); lia).
  split.
  - unfold TOTPProvisioningURI. rewrite Hdec. unfold encode_values.
    cbn [fmap list_fmap fst snd]. rewrite (QueryEscape_id (b32_encode value)).
    + reflexivity.
    + by destruct (b32_encode_digits 4 value Hlen) as (_ & ? & _).
  - apply Verify_spec. exists value. split; [done|].
    destruct (totpCode_digits value (t0 / 30)) as (Hl & Hdig & _).
    rewrite squeeze_field.
    2:{ apply graphic_field; [intros E; by rewrite E in Hl|].
        apply (sforall_impl is_digit); [|done]. intros c Hc.
        pose proof (forall_bytes (λ c, negb (is_digit c) || graphic c) eq_refl c) as Hg.
        cbv beta in Hg. by rewrite Hc in Hg. }
    exists (t0 / 30 - t / 30). rewrite Z.quot_div_nonneg by lia.
    assert (0 ≤ t0 / 30 < 2^62) by div_mod. assert (0 ≤ t / 30) by div_mod.
    split; [div_mod|].
    replace (t / 30 + (t0 / 30 - t / 30)) with (t0 / 30) by lia.
    rewrite wrap64_id by (unfold int_min, int_max; lia).
    unfold wrapu64. by rewrite Z.mod_small by lia.
Qed.
End EnrollmentFacts.

(** RFC 6238, appendix B (the last six digits), and a whole enrollment. *)
Example totp_rfc6238_59 : totpCode "12345678901234567890" (59 / 30) = "287082".
Proof. vm_compute. reflexivity. Qed.
Example totp_rfc6238_1111111109 : totpCode "12345678901234567890" (1111111109 / 30) = "081804".
Proof. vm_compute. reflexivity. Qed.

Lemma enrolled_code_accepted_witness :
  TOTPProvisioningURI (H := ascii_case) " root " "GEZDGNBVGY3TQOJQGEZDGNBVGY3TQOJQ" =
    Some "otpauth://totp/AegisAdmin:root?algorithm=SHA1&digits=6&issuer=AegisAdmin&period=30&secret=GEZDGNBVGY3TQOJQGEZDGNBVGY3TQOJQ" ∧
  Verify (H := ascii_case) 80 "GEZDGNBVGY3TQOJQGEZDGNBVGY3TQOJQ" "287082" = true.
Proof.
  apply (enrolled_code_accepted (H := ascii_case) "12345678901234567890"
    "GEZDGNBVGY3TQOJQGEZDGNBVGY3TQOJQ" " root " 59 80);
    [vm_compute; reflexivity|vm_compute; reflexivity|lia|lia|lia].
Defined.
