(* ===== verification/Password.v ===== *)
(** * Password hashes ([internal/webauth/password.go])

    The format of a stored hash, the bounds on its parameters, hashing and
    verification.  Argon2 and bcrypt ([golang.org/x/crypto]) are not under [src/]:
    they are the fields of the class [PasswordHash].  The only fact the theorems use of
    them is that [argon2.IDKey] returns as many bytes as asked ([LawfulArgon2]). *)

From S2P Require Import Prelude GoStrings StringFacts Codec.
From Stdlib Require Import Ascii String.
#[local] Open Scope string_scope.
#[local] Open Scope Z_scope.

Class PasswordHash := {
  (** [IDKey(password, salt, time, memory, threads, keyLen)] *)
  argon2_IDKey : string → string → Z → Z → Z → Z → string;
  (** [CompareHashAndPassword(hash, password) == nil] *)
  bcrypt_compare : string → string → bool;
}.

Class LawfulArgon2 `{PasswordHash} : Prop :=
  argon2_length : ∀ password salt time memory threads len,
    0 ≤ len → slen (argon2_IDKey password salt time memory threads len) = len.

Definition maxArgonMemory : Z := 256 * 1024.
Definition maxArgonIterations : Z := 10.
Definition maxArgonParallelism : Z := 16.
Definition passwordMinimumLength : Z := 12.
Definition passwordMaximumLength : Z := 128.

Record argonParameters := { memory : Z; iterations : Z; parallelism : Z }.

Inductive password_error :=
| ErrNotUTF8 | ErrTooShort | ErrTooLong | ErrSalt
| ErrFormat | ErrParameters | ErrParseParameter | ErrUnsafe | ErrBadSalt | ErrBadHash.

(** One parameter [key=value] of the list, stored in the map [values]. *)
Definition parse_parameter (values : gmap string Z) (item : string) : res password_error (gmap string Z) :=
  let '(key, value, found) := cut "=" item in
  if negb found || (negb (String.eqb key "m") && negb (String.eqb key "t") && negb (String.eqb key "p"))
  then Err ErrParameters
  else match parse_uint32 value with
       | None => Err ErrParseParameter
       | Some parsed => Ok (<[key := parsed]> values)
       end.

Fixpoint parse_parameters (values : gmap string Z) (items : list string) : res password_error (gmap string Z) :=
  match items with
  | [] => Ok values
  | item :: items' => let! values := parse_parameter values item in parse_parameters values items'
  end.

(** A missing key of a Go map reads as zero. *)
Definition value_of (values : gmap string Z) (key : string) : Z := default 0 (values !! key).

Definition parseArgon2ID (encoded : string) : res password_error (argonParameters * string * string) :=
  match split "$" encoded with
  | [_; kind; version; parameters; salt_text; hash_text] =>
      if negb (String.eqb kind "argon2id") || negb (String.eqb version "v=19") then Err ErrFormat
      else
        let! values := parse_parameters ∅ (split "," parameters) in
        let m := value_of values "m" in
        let t := value_of values "t" in
        let p := value_of values "p" in
        if negb (size values =? 3)%nat || (m <? 8) || (maxArgonMemory <? m) ||
           (t <? 1) || (maxArgonIterations <? t) || (p <? 1) || (maxArgonParallelism <? p)
        then Err ErrUnsafe
        else
          match b64_decode StdAlphabet true salt_text with
          | None => Err ErrBadSalt
          | Some salt =>
              if (slen salt <? 8) || (64 <? slen salt) then Err ErrBadSalt
              else match b64_decode StdAlphabet true hash_text with
                   | None => Err ErrBadHash
                   | Some hash =>
                       if (slen hash <? 16) || (64 <? slen hash) then Err ErrBadHash
                       else Ok ({| memory := m; iterations := t; parallelism := p |}, salt, hash)
                   end
          end
  | _ => Err ErrFormat
  end.

Section Password.
Context `{PasswordHash}.

Definition encode_hash (salt hash : string) : string :=
  "$argon2id$v=19$m=" +++ itoa 65536 +++ ",t=" +++ itoa 4 +++ ",p=" +++ itoa 1 +++ "$"
    +++ b64_encode StdAlphabet salt +++ "$" +++ b64_encode StdAlphabet hash.

(** [salt] is what [rand.Read] delivers for sixteen bytes, [None] when it fails. *)
Definition HashPassword (password : string) (salt : option string) : res password_error string :=
  if negb (valid_utf8 password) then Err ErrNotUTF8
  else
    let length := rune_count password in
    if length <? passwordMinimumLength then Err ErrTooShort
    else if passwordMaximumLength <? length then Err ErrTooLong
    else match salt with
         | None => Err ErrSalt
         | Some salt => Ok (encode_hash salt (argon2_IDKey password salt 4 65536 1 32))
         end.

Definition verifyArgon2ID (password encoded : string) : bool :=
  match parseArgon2ID encoded with
  | Err _ => false
  | Ok (parameters, salt, expected) =>
      let actual := argon2_IDKey password salt (iterations parameters) (memory parameters)
                      (parallelism parameters) (slen expected) in
      String.eqb actual expected
  end.

Definition VerifyPassword (password encoded : string) : bool :=
  if String.eqb password "" || (1024 <? slen password) || String.eqb encoded "" then false
  else if has_prefix encoded "$argon2id$" then verifyArgon2ID password encoded
  else if has_prefix encoded "$2y$" || has_prefix encoded "$2b$" || has_prefix encoded "$2a$"
  then bcrypt_compare encoded password
  else false.

(** ** Facts *)

(** Base64 text has no dollar sign. *)
Lemma b64_no_dollar s : contains_byte "$" (b64_encode StdAlphabet s) = false.
Proof.
  assert (∀ k, 0 ≤ k < 64 → Ascii.eqb "$" (b64_char StdAlphabet k) = false) as Hc.
  { intros k Hk. pose proof (forall_below 64 (λ k, negb (Ascii.eqb "$" (b64_char StdAlphabet k)))
      eq_refl k Hk) as Hn. by apply negb_true_iff in Hn. }
  unfold contains_byte. induction s as [|a|a b|a b c s IH] using string_ind3; [done|..];
    cbn [b64_encode sexists].
  - pose proof (byte_range a). by rewrite !Hc by div_mod.
  - pose proof (byte_range a). pose proof (byte_range b). by rewrite !Hc by div_mod.
  - pose proof (byte_range a). pose proof (byte_range b). pose proof (byte_range c).
    by rewrite !Hc, IH by div_mod.
Qed.

Lemma split_hash salt hash :
  split "$" (encode_hash salt hash) =
    [""; "argon2id"; "v=19"; "m=65536,t=4,p=1"; b64_encode StdAlphabet salt; b64_encode StdAlphabet hash].
Proof.
  rewrite <- (split_join "$" [""; "argon2id"; "v=19"; "m=65536,t=4,p=1";
    b64_encode StdAlphabet salt; b64_encode StdAlphabet hash]); [|done|].
  - reflexivity.
  - rewrite !Forall_cons. split_and!; try done; apply b64_no_dollar.
Qed.

Lemma parse_encode salt hash :
  8 ≤ slen salt ≤ 64 → 16 ≤ slen hash ≤ 64 →
  parseArgon2ID (encode_hash salt hash) =
    Ok ({| memory := 65536; iterations := 4; parallelism := 1 |}, salt, hash).
Proof.
  intros Hs Hh. unfold parseArgon2ID. rewrite split_hash. cbn [String.eqb negb orb].
  replace (parse_parameters ∅ (split "," "m=65536,t=4,p=1"))
    with (Ok (E := password_error) (<["p" := 1]> (<["t" := 4]> (<["m" := 65536]> (∅ : gmap string Z)))))
    by (vm_compute; reflexivity).
  cbn [res_bind].
  rewrite !b64_decode_encode.
  rewrite (proj2 (Z.ltb_ge (slen salt) 8)), (proj2 (Z.ltb_ge 64 (slen salt))),
    (proj2 (Z.ltb_ge (slen hash) 16)), (proj2 (Z.ltb_ge 64 (slen hash))) by lia.
  vm_compute (value_of _ _). reflexivity.
Qed.

Lemma parse_bounds encoded p salt hash : parseArgon2ID encoded = Ok (p, salt, hash) →
  8 ≤ memory p ≤ maxArgonMemory ∧ 1 ≤ iterations p ≤ maxArgonIterations ∧
  1 ≤ parallelism p ≤ maxArgonParallelism ∧ 8 ≤ slen salt ≤ 64 ∧ 16 ≤ slen hash ≤ 64.
Proof.
  unfold parseArgon2ID. intros Hp.
  destruct (split "$" encoded) as [|? [|kind [|version [|ps [|st [|ht [|]]]]]]]; try done.
  destruct (negb _ || negb _); [done|].
  apply res_bind_Ok in Hp as (values & _ & Hp). cbv zeta in Hp.
  match type of Hp with (if ?c then _ else _) = _ => destruct c eqn:Hc end; [done|].
  repeat match type of Hc with (_ || _)%bool = false => apply orb_false_elim in Hc as [Hc ?] end.
  destruct (b64_decode StdAlphabet true st) as [sa|]; [|done].
  destruct ((slen sa <? 8) || (64 <? slen sa)) eqn:Hs; [done|].
  destruct (b64_decode StdAlphabet true ht) as [h|]; [|done].
  destruct ((slen h <? 16) || (64 <? slen h)) eqn:Hh; [done|].
  simplify_eq. bool_prop. cbn [memory iterations parallelism]. lia.
Qed.

Lemma HashPassword_verify `{!LawfulArgon2} password salt encoded other :
  slen salt = 16 → HashPassword password (Some salt) = Ok encoded → slen password ≤ 1024 →
  VerifyPassword password encoded = true ∧
  (VerifyPassword other encoded = true ↔
     other ≠ "" ∧ slen other ≤ 1024 ∧
     argon2_IDKey other salt 4 65536 1 32 = argon2_IDKey password salt 4 65536 1 32).
Proof.
  intros Hs Hh Hlen. unfold HashPassword in Hh.
  destruct (negb (valid_utf8 password)); [done|].
  destruct (rune_count password <? passwordMinimumLength) eqn:Hmin; [done|].
  destruct (passwordMaximumLength <? rune_count password); [done|].
  injection Hh as <-.
  assert (password ≠ "") as Hne by (intros ->; done).
  assert (∀ o, VerifyPassword o (encode_hash salt (argon2_IDKey password salt 4 65536 1 32)) = true ↔
     o ≠ "" ∧ slen o ≤ 1024 ∧ argon2_IDKey o salt 4 65536 1 32 = argon2_IDKey password salt 4 65536 1 32)
    as Hv.
  { intros o. unfold VerifyPassword.
    set (e := encode_hash _ _).
    assert (String.eqb e "" = false) as -> by done. rewrite orb_false_r.
    assert (has_prefix e "$argon2id$" = true) as -> by (subst e; unfold encode_hash; by destruct (b64_encode _ _)).
    unfold verifyArgon2ID. subst e. pose proof (argon2_length password salt 4 65536 1 32 ltac:(lia)).
    rewrite parse_encode by lia. cbn [memory iterations parallelism].
    destruct (String.eqb_spec o ""), (Z.ltb_spec 1024 (slen o)); cbn [orb].
    1-3: split; [done|]; intros (? & ? & ?); [done || lia].
    rewrite String.eqb_eq. rewrite argon2_length by lia. split; [|by intros (_ & _ & ?)]. done. }
  split; [|apply Hv]. by apply Hv.
Qed.

(** C40: hash and verify: a password the policy accepts (valid UTF-8, 12 to 128
    characters, so at most 512 of the 1024 bytes the verification takes) is hashed into a text that verifies with the same password and, since
    verification recomputes the key from the parsed text, with another password only
    when Argon2 maps both to the same key. *)
Theorem hash_verify `{!LawfulArgon2} password salt encoded other :
  slen salt = 16 → HashPassword password (Some salt) = Ok encoded → slen password ≤ 1024 →
  VerifyPassword password encoded = true ∧
  (VerifyPassword other encoded = true ↔
     other ≠ "" ∧ slen other ≤ 1024 ∧
     argon2_IDKey other salt 4 65536 1 32 = argon2_IDKey password salt 4 65536 1 32).
Proof. apply HashPassword_verify. Qed.

(** A stored hash never makes the verifier spend more than the configured Argon2
    resources: the key is computed only for parameters, a salt and a key length within
    the bounds, and a text in no known format verifies with no password. *)
Theorem VerifyPassword_bounded password encoded :
  VerifyPassword password encoded = true →
  1 ≤ slen password ≤ 1024 ∧
  ((∃ p salt hash, has_prefix encoded "$argon2id$" = true ∧
      parseArgon2ID encoded = Ok (p, salt, hash) ∧
      8 ≤ memory p ≤ maxArgonMemory ∧ 1 ≤ iterations p ≤ maxArgonIterations ∧
      1 ≤ parallelism p ≤ maxArgonParallelism ∧ 8 ≤ slen salt ≤ 64 ∧ 16 ≤ slen hash ≤ 64 ∧
      argon2_IDKey password salt (iterations p) (memory p) (parallelism p) (slen hash) = hash) ∨
   (has_prefix encoded "$2y$" || has_prefix encoded "$2b$" || has_prefix encoded "$2a$" = true ∧
      bcrypt_compare encoded password = true)).
Proof.
  unfold VerifyPassword.
  destruct (String.eqb_spec password ""); [done|]. destruct (Z.ltb_spec 1024 (slen password)); [done|].
  destruct (String.eqb encoded ""); [done|]. cbn [orb]. intros Hv. split.
  { destruct password; [done|]. unfold slen in *. cbn [String.length] in *. lia. }
  destruct (has_prefix encoded "$argon2id$"); [left|right].
  - unfold verifyArgon2ID in Hv. destruct (parseArgon2ID encoded) as [[[p salt] hash]|] eqn:Hp; [|done].
    exists p, salt, hash. apply String.eqb_eq in Hv. pose proof (parse_bounds _ _ _ _ Hp).
    naive_solver.
  - case_match; [|done]. done.
Qed.
End Password.

(** A concrete key derivation, for runs: the password and the salt, cut or padded. *)
Definition toy_hash : PasswordHash := {|
  argon2_IDKey := λ password salt _ _ _ len,
    stake (Z.to_nat len) (password +++ salt +++ zeros (Z.to_nat len));
  bcrypt_compare := λ _ _, false;
|}.

Lemma zeros_length n : String.length (zeros n) = n.
Proof. induction n; simpl; congruence. Qed.

Lemma toy_hash_lawful : LawfulArgon2 (H := toy_hash).
Proof.
  intros password salt t m p len Hlen. cbn. unfold slen.
  rewrite stake_length, !sapp_length, zeros_length. lia.
Qed.

Definition sample_salt : string := "0123456789abcdef".
Definition sample_hash : string := encode_hash sample_salt (argon2_IDKey (PasswordHash := toy_hash) "correct horse" sample_salt 4 65536 1 32).

Lemma hash_verify_witness :
  HashPassword (H := toy_hash) "correct horse" (Some sample_salt) = Ok sample_hash ∧
  VerifyPassword (H := toy_hash) "correct horse" sample_hash = true.
Proof.
  split; [vm_compute; reflexivity|].
  refine (proj1 (hash_verify (H := toy_hash) (H0 := toy_hash_lawful)
    "correct horse" sample_salt sample_hash "x" _ _ _)); vm_compute; first [reflexivity|discriminate].
Defined.

Lemma VerifyPassword_bounded_witness : 1 ≤ slen "correct horse" ≤ 1024.
Proof.
  refine (proj1 (VerifyPassword_bounded (H := toy_hash) "correct horse" sample_hash _)).
  vm_compute. reflexivity.
Defined.
