(* ===== verification/JsonParse.v ===== *)
(** * JSON values: [encoding/json] reading and writing

    The grammar as [json.Unmarshal] accepts it (white space, escapes, surrogate pairs,
    invalid UTF-8 replaced, the bound on nesting), the compact and the indented text
    [json.Marshal] and [json.MarshalIndent] write, [json.Compact], and the reading of the
    fields of a struct.  What is written is read back: [parse_text]. *)

From S2P Require Import Prelude GoStrings StringFacts Codec Json.
From Stdlib Require Import Ascii String.
#[local] Open Scope string_scope.
#[local] Open Scope list_scope.
#[local] Open Scope Z_scope.

(** A number is kept as its literal. *)
Inductive json :=
| JNull
| JBool (b : bool)
| JNum (literal : string)
| JStr (s : string)
| JArr (l : list json)
| JObj (m : list (string * json)).

Section induction.
Context (P : json → Prop) (Hnull : P JNull) (Hbool : ∀ b, P (JBool b)) (Hnum : ∀ s, P (JNum s)) (Hstr : ∀ s, P (JStr s))
  (Harr : ∀ l, Forall P l → P (JArr l)) (Hobj : ∀ m, Forall (λ kv, P kv.2) m → P (JObj m)).
Fixpoint json_ind' (v : json) : P v :=
  match v with
  | JNull => Hnull
  | JBool b => Hbool b
  | JNum s => Hnum s
  | JStr s => Hstr s
  | JArr l => Harr l ((fix go l : Forall P l :=
      match l with [] => Forall_nil_2 _ | x :: l => Forall_cons_2 _ x l (json_ind' x) (go l) end) l)
  | JObj m => Hobj m ((fix go (m : list (string * json)) : Forall (λ kv, P kv.2) m :=
      match m with [] => Forall_nil_2 _ | kv :: m => Forall_cons_2 _ kv m (json_ind' kv.2) (go m) end) m)
  end.
End induction.

(** ** Writing *)

Definition quote_char : ascii := "034"%char.
Definition backslash : ascii := "092"%char.

Fixpoint json_text (v : json) : string :=
  match v with
  | JNull => "null"
  | JBool b => json_bool b
  | JNum s => s
  | JStr s => json_quote s
  | JArr l => "[" +++ join "," (map json_text l) +++ "]"
  | JObj m => "{" +++ join "," (map (λ kv, json_quote kv.1 +++ ":" +++ json_text kv.2) m) +++ "}"
  end.

Fixpoint indent (n : nat) : string := match n with O => "" | S n => "  " +++ indent n end.
(** [json.MarshalIndent] with an empty prefix and two spaces: nothing inside an empty
    array or object. *)
Fixpoint json_pretty (n : nat) (v : json) : string :=
  match v with
  | JArr ((_ :: _) as l) =>
      "[" +++ snl +++ join ("," +++ snl) (map (λ x, indent (S n) +++ json_pretty (S n) x) l) +++ snl +++ indent n +++ "]"
  | JObj ((_ :: _) as m) =>
      "{" +++ snl +++
      join ("," +++ snl) (map (λ kv, indent (S n) +++ json_quote kv.1 +++ ": " +++ json_pretty (S n) kv.2) m) +++
      snl +++ indent n +++ "}"
  | _ => json_text v
  end.

Example pretty_nested :
  json_pretty 0 (JObj [("a", JArr [JNum "1"; JNull]); ("b", JObj [])]) =
    join snl (map (smap (λ c, if Ascii.eqb c "~" then quote_char else c))
      ["{"; "  ~a~: ["; "    1,"; "    null"; "  ],"; "  ~b~: {}"; "}"]).
Proof. vm_compute. reflexivity. Qed.

(** ** Reading *)

Definition json_space (c : ascii) : bool := (byte c =? 32) || (byte c =? 9) || (byte c =? 10) || (byte c =? 13).
Fixpoint skip_space (s : string) : string :=
  match s with
  | String c s' => if json_space c then skip_space s' else s
  | EmptyString => s
  end.

(** [utf8.EncodeRune]; a surrogate or a value out of range gives U+FFFD. *)
Definition rune_text (r : Z) : string :=
  let cont k := chr (128 + Z.land (Z.shiftr r k) 63) in
  if r <? 128 then String (chr r) ""
  else if r <? 2048 then String (chr (192 + Z.shiftr r 6)) (String (cont 0) "")
  else if (55296 <=? r) && (r <=? 57343) || (1114111 <? r) then String "239" (String "191" (String "189" ""))
  else if r <? 65536 then String (chr (224 + Z.shiftr r 12)) (String (cont 6) (String (cont 0) ""))
  else String (chr (240 + Z.shiftr r 18)) (String (cont 12) (String (cont 6) (String (cont 0) ""))).

Definition hex_digit (c : ascii) : option Z :=
  if is_digit c then Some (byte c - 48)
  else if between "a" "f" c then Some (byte c - 87)
  else if between "A" "F" c then Some (byte c - 55) else None.
Definition hex_rune (a b c d : ascii) : option Z :=
  match hex_digit a, hex_digit b, hex_digit c, hex_digit d with
  | Some a, Some b, Some c, Some d => Some (4096 * a + 256 * b + 16 * c + d)
  | _, _, _, _ => None
  end.
Definition escape_char (c : ascii) : option ascii :=
  match c with
  | "034" | "092" | "/" => Some c
  | "b" => Some "008" | "f" => Some "012" | "n" => Some "010" | "r" => Some "013" | "t" => Some "009"
  | _ => None
  end%char.
Definition replacement : string := String "239" (String "191" (String "189" "")).
Definition prepend (s : string) (o : option (string * string)) : option (string * string) :=
  match o with Some (t, rest) => Some (s +++ t, rest) | None => None end.

(** The text of a string after its opening quote: its value and what follows the closing one.
    [skip]: bytes left of a UTF-8 sequence. *)
Fixpoint unquote (skip : nat) (s : string) : option (string * string) :=
  match s with
  | EmptyString => None
  | String c s' =>
      match skip with
      | S k => prepend (String c "") (unquote k s')
      | O =>
          if Ascii.eqb c quote_char then Some ("", s')
          else if Ascii.eqb c backslash then
            match s' with
            | EmptyString => None
            | String e s2 =>
                if Ascii.eqb e "u" then
                  match s2 with
                  | String h1 (String h2 (String h3 (String h4 s3))) =>
                      match hex_rune h1 h2 h3 h4 with
                      | None => None
                      | Some r =>
                          if (55296 <=? r) && (r <=? 56319) then
                            match s3 with
                            | String b (String u (String l1 (String l2 (String l3 (String l4 s4))))) =>
                                match hex_rune l1 l2 l3 l4 with
                                | Some low =>
                                    if Ascii.eqb b backslash && Ascii.eqb u "u" && (56320 <=? low) && (low <=? 57343)
                                    then prepend (rune_text (65536 + (r - 55296) * 1024 + (low - 56320))) (unquote 0 s4)
                                    else prepend replacement (unquote 0 s3)
                                | None => prepend replacement (unquote 0 s3)
                                end
                            | _ => prepend replacement (unquote 0 s3)
                            end
                          else prepend (rune_text r) (unquote 0 s3)
                      end
                  | _ => None
                  end
                else match escape_char e with Some d => prepend (String d "") (unquote 0 s2) | None => None end
            end
          else if byte c <? 32 then None
          else if byte c <? 128 then prepend (String c "") (unquote 0 s')
          else match rune_width s with
               | O => prepend replacement (unquote 0 s')
               | S k => prepend (String c "") (unquote k s')
               end
      end
  end.

(** [-?(0|[1-9][0-9]* )(\.[0-9]+)?([eE][+-]?[0-9]+)?], the longest prefix. *)
Fixpoint take_digits (s : string) : string * string :=
  match s with
  | String c s' => if is_digit c then let (d, r) := take_digits s' in (String c d, r) else ("", s)
  | EmptyString => ("", s)
  end.
Definition number_integer (s : string) : option (string * string) :=
  match s with
  | String c s' =>
      if Ascii.eqb c "0" then Some ("0", s')
      else if is_digit c then let (d, r) := take_digits s in Some (d, r) else None
  | EmptyString => None
  end.
Definition number_fraction (s : string) : option (string * string) :=
  match s with
  | String "." s' => let (d, r) := take_digits s' in if String.eqb d "" then None else Some (String "." d, r)
  | _ => Some ("", s)
  end.
Definition number_exponent (s : string) : option (string * string) :=
  match s with
  | String c s' =>
      if Ascii.eqb c "e" || Ascii.eqb c "E" then
        let '(sign, s'') := match s' with
          | String d s'' => if Ascii.eqb d "+" || Ascii.eqb d "-" then (String d "", s'') else ("", s')
          | EmptyString => ("", s') end in
        let (d, r) := take_digits s'' in
        if String.eqb d "" then None else Some (String c (sign +++ d), r)
      else Some ("", s)
  | EmptyString => Some ("", s)
  end.
Definition number (s : string) : option (string * string) :=
  let '(sign, s1) := match s with String "-" s' => ("-", s') | _ => ("", s) end in
  match number_integer s1 with
  | None => None
  | Some (i, s2) =>
      match number_fraction s2 with
      | None => None
      | Some (f, s3) =>
          match number_exponent s3 with
          | None => None
          | Some (e, s4) => Some (sign +++ i +++ f +++ e, s4)
          end
      end
  end.

Definition keyword (word : string) (v : json) (s : string) : option (json * string) :=
  if has_prefix s word then Some (v, sdrop (String.length word) s) else None.

(** The nesting [encoding/json] accepts. *)
Definition max_depth : nat := N.to_nat 10000.

(** A value at the head of the text, which holds no leading space. *)
Fixpoint value (fuel depth : nat) (s : string) : option (json * string) :=
  match fuel with
  | O => None
  | S fuel =>
      match s with
      | EmptyString => None
      | String c s' =>
          if Ascii.eqb c quote_char then
            match unquote 0 s' with Some (t, r) => Some (JStr t, r) | None => None end
          else if Ascii.eqb c "[" then
            match depth with
            | O => None
            | S depth =>
                match skip_space s' with
                | String "]" r => Some (JArr [], r)
                | r => match elements fuel depth r with Some (l, r) => Some (JArr l, r) | None => None end
                end
            end
          else if Ascii.eqb c "{" then
            match depth with
            | O => None
            | S depth =>
                match skip_space s' with
                | String "}" r => Some (JObj [], r)
                | r => match members fuel depth r with Some (m, r) => Some (JObj m, r) | None => None end
                end
            end
          else if Ascii.eqb c "n" then keyword "null" JNull s
          else if Ascii.eqb c "t" then keyword "true" (JBool true) s
          else if Ascii.eqb c "f" then keyword "false" (JBool false) s
          else match number s with Some (d, r) => Some (JNum d, r) | None => None end
      end
  end
with elements (fuel depth : nat) (s : string) : option (list json * string) :=
  match fuel with
  | O => None
  | S fuel =>
      match value fuel depth s with
      | None => None
      | Some (x, r) =>
          match skip_space r with
          | String "," r => match elements fuel depth (skip_space r) with Some (l, r) => Some (x :: l, r) | None => None end
          | String "]" r => Some ([x], r)
          | _ => None
          end
      end
  end
with members (fuel depth : nat) (s : string) : option (list (string * json) * string) :=
  match fuel with
  | O => None
  | S fuel =>
      match s with
      | String c s' =>
          if Ascii.eqb c quote_char then
            match unquote 0 s' with
            | None => None
            | Some (k, r) =>
                match skip_space r with
                | String ":" r =>
                    match value fuel depth (skip_space r) with
                    | None => None
                    | Some (x, r) =>
                        match skip_space r with
                        | String "," r =>
                            match members fuel depth (skip_space r) with Some (m, r) => Some ((k, x) :: m, r) | None => None end
                        | String "}" r => Some ([(k, x)], r)
                        | _ => None
                        end
                    end
                | _ => None
                end
            end
          else None
      | EmptyString => None
      end
  end.

(** A whole text is one value between spaces. *)
Definition json_parse (s : string) : option json :=
  let s := skip_space s in
  match value (2 * String.length s + 2) max_depth s with
  | Some (v, r) => if String.eqb (skip_space r) "" then Some v else None
  | None => None
  end.

(** [json.Compact] of a valid text: the spaces outside strings go away. *)
Fixpoint compact_from (inside escaped : bool) (s : string) : string :=
  match s with
  | EmptyString => ""
  | String c s' =>
      if inside then
        String c (if escaped then compact_from true false s'
                  else if Ascii.eqb c backslash then compact_from true true s'
                  else compact_from (negb (Ascii.eqb c quote_char)) false s')
      else if json_space c then compact_from false false s'
      else String c (compact_from (Ascii.eqb c quote_char) false s')
  end.
Definition compact : string → string := compact_from false false.

(** ** What is written is read back *)

Lemma prepend_Some s t rest : prepend s (Some (t, rest)) = Some (s +++ t, rest).
Proof. done. Qed.

Lemma unquote_byte c t :
  byte c < 128 → unquote 0 (json_byte c +++ t) = prepend (String c "") (unquote 0 t).
Proof.
  destruct c as [[] [] [] [] [] [] [] []]; intros Hc; try (vm_compute in Hc; discriminate); try reflexivity.
Qed.

Lemma rune_width_bound s k : rune_width s = S k → (k < String.length s)%nat.
Proof.
  destruct s as [|a [|b [|c [|d s]]]]; unfold rune_width; intros Hw; repeat case_match; simpl; try lia; simplify_eq; lia.
Qed.

Lemma rune_width_head s t k : rune_width s = S k → stake (S k) s = stake (S k) t → rune_width t = S k.
Proof.
  destruct s as [|a s]; [done|]. destruct t as [|a' t]; [done|]. cbn [stake]. intros Hw [= <- Hs].
  destruct k as [|k].
  { destruct s as [|b [|c [|d s]]], t as [|b' [|c' [|d' t]]]; unfold rune_width in *; repeat case_match; congruence. }
  destruct s as [|b s]; [unfold rune_width in Hw; by case_match|]. destruct t as [|b' t]; [done|]. cbn [stake] in Hs.
  injection Hs as <- Hs. destruct k as [|k].
  { destruct s as [|c [|d s]], t as [|c' [|d' t]]; unfold rune_width in *; repeat case_match; congruence. }
  destruct s as [|c s]; [unfold rune_width in Hw; by repeat case_match|]. destruct t as [|c' t]; [done|]. cbn [stake] in Hs.
  injection Hs as <- Hs. destruct k as [|k].
  { destruct s as [|d s], t as [|d' t]; unfold rune_width in *; repeat case_match; congruence. }
  destruct s as [|d s]; [unfold rune_width in Hw; by repeat case_match|]. destruct t as [|d' t]; [done|]. cbn [stake] in Hs.
  injection Hs as <- Hs. unfold rune_width in *. done.
Qed.

Lemma escape_copies k s t : (k ≤ String.length s)%nat →
  stake k (json_escape k false s +++ t) = stake k s.
Proof.
  revert s. induction k as [|k IH]; intros s Hk; [by destruct (json_escape _ _ _ +++ t), s|].
  destruct s as [|c s]; [simpl in Hk; lia|]. cbn [json_escape String.append stake]. f_equal. apply IH. simpl in Hk. lia.
Qed.

Lemma escape_mute k s : (k ≤ String.length s)%nat → json_escape k true s = json_escape 0 false (sdrop k s).
Proof.
  revert s. induction k as [|k IH]; intros s Hk.
  - destruct s; reflexivity.
  - destruct s as [|c s]; [simpl in Hk; lia|]. cbn [json_escape sdrop]. apply IH. simpl in Hk. lia.
Qed.

Lemma rune_scan_drop k s : (k ≤ String.length s)%nat → (rune_scan k s).2 = (rune_scan 0 (sdrop k s)).2.
Proof.
  revert s. induction k as [|k IH]; intros s Hk; [done|]. destruct s as [|c s]; [simpl in Hk; lia|].
  cbn [rune_scan sdrop]. apply IH. simpl in Hk. lia.
Qed.

Lemma scan_cons skip c s : (rune_scan skip (String c s)).2 = true →
  (∃ k, skip = S k ∧ (rune_scan k s).2 = true) ∨
  (skip = 0%nat ∧ ∃ k, rune_width (String c s) = S k ∧ (rune_scan k s).2 = true).
Proof.
  destruct skip as [|k]; cbn [rune_scan].
  - destruct (rune_width (String c s)) as [|k] eqn:Hw; destruct (rune_scan _ s) as [n v] eqn:Hr; cbn [snd]; [done|].
    intros ->. right. split; [done|]. exists k. by rewrite Hr.
  - intros Hv. left. eauto.
Qed.

Lemma rune_width_one c s k : byte c < 128 → rune_width (String c s) = S k → k = 0%nat.
Proof.
  intros Hc. unfold rune_width. assert ((byte c <? 128) = true) as -> by by apply Z.ltb_lt. congruence.
Qed.

Lemma unquote_multi k c s : 128 ≤ byte c → rune_width (String c s) = S k →
  unquote 0 (String c s) = prepend (String c "") (unquote k s).
Proof.
  intros Hc Hw. cbn [unquote]. rewrite Hw.
  destruct (Ascii.eqb_spec c quote_char) as [->|_]; [exfalso; vm_compute in Hc; by apply Hc|].
  destruct (Ascii.eqb_spec c backslash) as [->|_]; [exfalso; vm_compute in Hc; by apply Hc|].
  assert ((byte c <? 32) = false) as -> by (apply Z.ltb_ge; lia).
  assert ((byte c <? 128) = false) as -> by (apply Z.ltb_ge; lia). done.
Qed.

Lemma separator_text c s : line_separator (String c s) = true →
  ∃ d s', s = String "128" (String d s') ∧ c = "226"%char ∧ (d = "168"%char ∨ d = "169"%char).
Proof.
  unfold line_separator. intros [Hp|Hp]%orb_prop; apply has_prefix_spec in Hp as [t Ht];
    cbn [String.append] in Ht; injection Ht as -> ->; eauto 8.
Qed.

(** Each byte of an invalid sequence becomes U+FFFD. *)
Fixpoint coerce (skip : nat) (s : string) : string :=
  match s with
  | EmptyString => ""
  | String c s' =>
      match skip with
      | S k => String c (coerce k s')
      | O => match rune_width s with O => replacement +++ coerce 0 s' | S k => String c (coerce k s') end
      end
  end.
Definition to_text (s : string) : string := coerce 0 s.

Lemma coerce_valid s : ∀ skip, (rune_scan skip s).2 = true → coerce skip s = s.
Proof.
  induction s as [|c s IH]; intros skip Hv; [done|].
  apply scan_cons in Hv as [(k & -> & Hv)|(-> & k & Hw & Hv)]; cbn [coerce]; [by rewrite IH|]. by rewrite Hw, IH.
Qed.
Lemma to_text_valid s : valid_utf8 s = true → to_text s = s.
Proof. apply coerce_valid. Qed.

Lemma to_text_ascii s : sforall is_ascii_byte s = true → to_text s = s.
Proof.
  unfold to_text. induction s as [|c s IH]; [done|]. cbn [sforall coerce]. intros [Hc Hs]%andb_prop.
  unfold is_ascii_byte in Hc. assert (rune_width (String c s) = 1%nat) as ->; [|by rewrite IH].
  unfold rune_width. by rewrite Hc.
Qed.

Lemma coerce_drop k s : (k ≤ String.length s)%nat → coerce k s = stake k s +++ coerce 0 (sdrop k s).
Proof.
  revert s. induction k as [|k IH]; intros s Hk; [done|]. destruct s as [|c s]; [simpl in Hk; lia|].
  cbn [coerce stake sdrop String.append]. f_equal. apply IH. simpl in Hk. lia.
Qed.

Definition separator (d : ascii) : string := String "226" (String "128" (String d "")).
Lemma unquote_separators t :
  unquote 0 ("\u2028" +++ t) = prepend (separator "168") (unquote 0 t) ∧
  unquote 0 ("\u2029" +++ t) = prepend (separator "169") (unquote 0 t) ∧
  unquote 0 ("\ufffd" +++ t) = prepend replacement (unquote 0 t).
Proof.
  split_and!; cbn [String.append unquote Ascii.eqb Bool.eqb quote_char backslash].
  - by replace (hex_rune "2" "0" "2" "8") with (Some 8232) by reflexivity.
  - by replace (hex_rune "2" "0" "2" "9") with (Some 8233) by reflexivity.
  - by replace (hex_rune "f" "f" "f" "d") with (Some 65533) by reflexivity.
Qed.

Lemma json_escape_invalid c s : 128 ≤ byte c → rune_width (String c s) = 0%nat →
  json_escape 0 false (String c s) = "\ufffd" +++ json_escape 0 false s.
Proof. intros Hc Hw. cbn [json_escape]. rewrite Hw. by destruct (Z.ltb_spec (byte c) 128); [lia|]. Qed.

Lemma unquote_escape n s skip rest :
  (String.length s ≤ n)%nat → (skip ≤ String.length s)%nat →
  unquote skip (json_escape skip false s +++ String quote_char rest) = Some (coerce skip s, rest).
Proof.
  revert s skip. induction n as [|n IH]; intros s skip Hn Hskip.
  { destruct s; [|simpl in Hn; lia]. destruct skip; [done|simpl in Hskip; lia]. }
  destruct s as [|c s]; [destruct skip; [done|simpl in Hskip; lia]|]. cbn [String.length] in *.
  destruct skip as [|k].
  2:{ cbn [json_escape String.append unquote coerce]. by rewrite IH by lia. }
  destruct (rune_width (String c s)) as [|k] eqn:Hw.
  { assert (128 ≤ byte c) as Hc.
    { destruct (Z.ltb_spec (byte c) 128) as [Hc|]; [|done]. exfalso. unfold rune_width in Hw.
      apply Z.ltb_lt in Hc. by rewrite Hc in Hw. }
    rewrite json_escape_invalid by done. cbn [coerce]. rewrite Hw, sapp_assoc.
    destruct (unquote_separators (json_escape 0 false s +++ String quote_char rest)) as (_ & _ & Hr).
    rewrite Hr. by rewrite IH by lia. }
  pose proof (rune_width_bound _ _ Hw) as Hb. cbn [String.length] in Hb. cbn [json_escape coerce].
  destruct (Z.ltb_spec (byte c) 128) as [Hc|Hc].
  { pose proof (rune_width_one _ _ _ Hc Hw) as ->. rewrite sapp_assoc, unquote_byte, Hw by done.
    by rewrite IH by lia. }
  rewrite Hw. destruct (line_separator (String c s)) eqn:Hl.
  - apply separator_text in Hl as (d & s' & -> & -> & Hd).
    assert (k = 2%nat) as -> by (destruct Hd as [-> | ->]; by injection Hw).
    rewrite escape_mute by lia. cbn [sdrop String.length coerce] in *.
    destruct (unquote_separators (json_escape 0 false s' +++ String quote_char rest)) as (H8 & H9 & _).
    rewrite IH in H8, H9 by lia.
    destruct Hd as [-> | ->].
    + pose proof (has_prefix_app s' (separator "168")) as Hp. unfold separator in Hp. cbn [String.append] in Hp.
      rewrite Hp. exact H8.
    + exact H9.
  - cbn [String.append]. rewrite (unquote_multi k); [by rewrite IH by lia|done|].
    eapply rune_width_head; [exact Hw|]. cbn [stake]. f_equal. by rewrite escape_copies by lia.
Qed.

Lemma unquote_quoted s rest :
  unquote 0 (json_escape 0 false s +++ String quote_char rest) = Some (to_text s, rest).
Proof. apply (unquote_escape (String.length s)); [done|lia]. Qed.

(** *** Numbers *)

(** What follows does not continue a number. *)
Definition boundary (t : string) : bool :=
  match t with EmptyString => true | String c _ => negb (is_digit c || contains_byte c ".eE") end.

Lemma boundary_head c t : boundary (String c t) = true →
  is_digit c = false ∧ Ascii.eqb c "." = false ∧ Ascii.eqb c "e" = false ∧ Ascii.eqb c "E" = false.
Proof.
  unfold boundary. intros [Hd Hc]%negb_true_iff%orb_false_elim. split; [done|].
  unfold contains_byte in Hc. cbn [sexists] in Hc. by apply orb_false_elim in Hc as [? [? [? _]%orb_false_elim]%orb_false_elim].
Qed.

Lemma take_digits_app s t d r : take_digits s = (d, r) → boundary t = true → take_digits (s +++ t) = (d, r +++ t).
Proof.
  intros Hs Ht. revert d r Hs. induction s as [|c s IH]; intros d r Hs.
  - injection Hs as <- <-. destruct t as [|c t]; [done|]. apply boundary_head in Ht as [Hd _].
    cbn [String.append take_digits]. by rewrite Hd.
  - cbn [String.append take_digits] in *. destruct (is_digit c); [|by injection Hs as <- <-].
    destruct (take_digits s) as [d' r'] eqn:Hr. injection Hs as <- <-. by rewrite (IH d' r' eq_refl).
Qed.

Lemma number_integer_app s t d r : number_integer s = Some (d, r) → boundary t = true → number_integer (s +++ t) = Some (d, r +++ t).
Proof.
  intros Hs Ht. destruct s as [|c s]; [done|]. cbn [number_integer String.append] in *.
  destruct (Ascii.eqb c "0"); [by injection Hs as <- <-|]. destruct (is_digit c); [|done].
  destruct (take_digits (String c s)) as [d' r'] eqn:Hr. apply (take_digits_app _ t) in Hr; [|done].
  cbn [String.append] in Hr. rewrite Hr. congruence.
Qed.

Lemma number_fraction_other s : (∀ s', s ≠ String "." s') → number_fraction s = Some ("", s).
Proof. intros Hs. destruct s as [|c s]; [done|]. destruct c as [[] [] [] [] [] [] [] []]; try done. by destruct (Hs s). Qed.

Lemma number_fraction_app s t d r : number_fraction s = Some (d, r) → boundary t = true → number_fraction (s +++ t) = Some (d, r +++ t).
Proof.
  intros Hs Ht. destruct s as [|c s].
  - injection Hs as <- <-. cbn [String.append]. apply number_fraction_other. intros t' ->. apply boundary_head in Ht as (_ & Hd & _). done.
  - destruct (Ascii.eqb_spec c ".") as [->|Hc].
    + cbn [number_fraction String.append] in *. destruct (take_digits s) as [d' r'] eqn:Hr.
      rewrite (take_digits_app _ _ _ _ Hr Ht). destruct (String.eqb d' ""); [done|]. by injection Hs as <- <-.
    + rewrite number_fraction_other in Hs by congruence. injection Hs as <- <-. apply number_fraction_other. intros s' Hs'.
      cbn [String.append] in Hs'. congruence.
Qed.

Lemma number_exponent_app s t d r : number_exponent s = Some (d, r) → boundary t = true → number_exponent (s +++ t) = Some (d, r +++ t).
Proof.
  intros Hs Ht. destruct s as [|c s].
  - injection Hs as <- <-. destruct t as [|c t]; [done|]. apply boundary_head in Ht as (_ & _ & He & HE).
    cbn [String.append number_exponent]. by rewrite He, HE.
  - cbn [String.append number_exponent] in *. destruct (_ || _); [|by injection Hs as <- <-].
    destruct s as [|c' s].
    + done.
    + cbn [String.append]. destruct (_ || _); cbn beta iota.
      * destruct (take_digits s) as [d' r'] eqn:Hr. rewrite (take_digits_app _ _ _ _ Hr Ht).
        destruct (String.eqb d' ""); [done|]. by injection Hs as <- <-.
      * destruct (take_digits (String c' s)) as [d' r'] eqn:Hr. apply (take_digits_app _ t) in Hr; [|done].
        cbn [String.append] in Hr. rewrite Hr. destruct (String.eqb d' ""); [done|]. by injection Hs as <- <-.
Qed.

Lemma number_app s t d r : number s = Some (d, r) → boundary t = true → number (s +++ t) = Some (d, r +++ t).
Proof.
  intros Hs Ht. unfold number in *.
  set (split_ := λ s, match s with String "-" s' => ("-"%string, s') | _ => (""%string, s) end) in *.
  change (match s +++ t with String "-" s' => ("-"%string, s') | _ => (""%string, s +++ t) end) with (split_ (s +++ t)).
  change (match s with String "-" s' => ("-"%string, s') | _ => (""%string, s) end) with (split_ s) in Hs.
  assert (s = "" ∨ split_ (s +++ t) = ((split_ s).1, (split_ s).2 +++ t)) as [->|Hsp]; [|done|].
  { destruct s as [|c s]; [by left|right]. destruct c as [[] [] [] [] [] [] [] []]; reflexivity. }
  rewrite Hsp. destruct (split_ s) as [sign s1]. cbn [fst snd].
  destruct (number_integer s1) as [[i s2]|] eqn:Hi; [|done]. rewrite (number_integer_app _ _ _ _ Hi Ht).
  destruct (number_fraction s2) as [[f s3]|] eqn:Hf; [|done]. rewrite (number_fraction_app _ _ _ _ Hf Ht).
  destruct (number_exponent s3) as [[e s4]|] eqn:He; [|done]. rewrite (number_exponent_app _ _ _ _ He Ht).
  by injection Hs as <- <-.
Qed.

Definition literal (s : string) : bool := match number s with Some (d, r) => String.eqb d s && String.eqb r "" | None => false end.

Lemma literal_app s t : literal s = true → boundary t = true → number (s +++ t) = Some (s, t).
Proof.
  unfold literal. destruct (number s) as [[d r]|] eqn:Hn; [|done]. intros [Hd Hr]%andb_prop Ht.
  apply String.eqb_eq in Hd as ->. apply String.eqb_eq in Hr as ->. by apply (number_app _ t) in Hn.
Qed.

(** The text of an integer is a literal. *)
Lemma pretty_N_go_head (x : N) : ∀ s, (0 < x)%N →
  ∃ c t, pretty_N_go x s = String c t ∧ is_digit c = true ∧ c ≠ "0"%char.
Proof.
  induction x as [x IH] using (well_founded_induction N.lt_wf_0). intros s Hx. rewrite pretty_N_go_step by done.
  destruct (decide (x < 10)%N) as [Hlt|Hge].
  - rewrite N.div_small, pretty_N_go_0 by done. rewrite N.mod_small by done. eexists _, _. split; [done|].
    assert (x = 1 ∨ x = 2 ∨ x = 3 ∨ x = 4 ∨ x = 5 ∨ x = 6 ∨ x = 7 ∨ x = 8 ∨ x = 9)%N as Hc by lia.
    by destruct Hc as [->|[->|[->|[->|[->|[->|[->|[->| ->]]]]]]]].
  - apply IH; [apply N.div_lt; lia|]. apply N.div_str_pos. lia.
Qed.

Lemma take_digits_all s : sforall is_digit s = true → take_digits s = (s, "").
Proof.
  induction s as [|c s IH]; [done|]. cbn [sforall take_digits]. intros [-> Hs]%andb_prop. by rewrite IH.
Qed.

Lemma itoa_head z : 0 < z → ∃ c t, itoa z = String c t ∧ is_digit c = true ∧ c ≠ "0"%char ∧ sforall is_digit t = true.
Proof.
  intros Hz. destruct (itoa_digits z ltac:(lia)) as [Hd _]. unfold digits_only in Hd. apply andb_prop in Hd as [_ Hd].
  destruct z as [|p|p]; try lia. change (itoa (Zpos p)) with (pretty (Npos p)) in *.
  destruct (pretty_N_go_head (Npos p) "" ltac:(lia)) as (c & t & Ht & Hc & H0).
  change (pretty (Npos p)) with (pretty_N_go (Npos p) "") in *. rewrite Ht in *. cbn [sforall] in Hd.
  apply andb_prop in Hd as [_ Hd]. by exists c, t.
Qed.

Lemma literal_itoa z : literal (itoa z) = true.
Proof.
  assert (∀ z, 0 < z → number_integer (itoa z) = Some (itoa z, "")) as Hi.
  { intros y Hy. destruct (itoa_head y Hy) as (c & t & -> & Hc & H0 & Ht). cbn [number_integer].
    rewrite (proj2 (Ascii.eqb_neq c "0")) by done. rewrite Hc.
    rewrite take_digits_all; [done|]. cbn [sforall]. by rewrite Hc. }
  destruct (Z.lt_trichotomy z 0) as [Hz|[->|Hz]]; [|done|].
  - assert (itoa z = "-" +++ itoa (- z)) as -> by (destruct z; try lia; done).
    unfold literal, number. cbn [String.append]. rewrite Hi by lia. cbn [number_fraction number_exponent].
    rewrite !sapp_nil_r. cbn [String.append]. by rewrite !String.eqb_refl.
  - unfold literal, number. destruct (itoa_head z Hz) as (c & t & He & Hc & H0 & Ht).
    assert (match itoa z with String "-" s' => ("-", s') | _ => ("", itoa z) end = ("", itoa z)) as ->.
    { rewrite He. destruct (Ascii.eqb_spec c "-") as [->|Hm]; [done|].
      destruct c as [[] [] [] [] [] [] [] []]; try reflexivity. by exfalso. }
    rewrite Hi by done. cbn [number_fraction number_exponent String.append]. rewrite !sapp_nil_r, String.eqb_refl. done.
Qed.

(** A literal starts with a sign or a digit. *)
Lemma literal_head s : literal s = true → ∃ c s', s = String c s' ∧ (c = "-"%char ∨ is_digit c = true).
Proof.
  unfold literal. destruct s as [|c s]; [done|]. intros Hl. exists c, s. split; [done|].
  destruct (Ascii.eqb_spec c "-") as [->|Hc]; [by left|]. right.
  assert (number (String c s) ≠ None) as Hn by (intros Hn; by rewrite Hn in Hl).
  unfold number in Hn. revert Hn.
  assert ((match String c s with String "-" s' => ("-"%string, s') | _ => (""%string, String c s) end) = (""%string, String c s)) as ->.
  { destruct c as [[] [] [] [] [] [] [] []]; try reflexivity. done. }
  cbn [number_integer]. destruct (Ascii.eqb_spec c "0") as [->|]; [done|]. by destruct (is_digit c).
Qed.

(** *** Values *)

(** Values nested at most [depth] deep, their numbers literals: what Go's values become. *)
Fixpoint json_ok (depth : nat) (v : json) {struct v} : bool :=
  match v with
  | JNull | JBool _ => true
  | JNum s => literal s
  | JStr _ => true
  | JArr l => match depth with O => false | S depth => forallb (λ x, json_ok depth x) l end
  | JObj m => match depth with O => false | S depth => forallb (λ kv, json_ok depth kv.2) m end
  end.
(** What is read back: the strings made valid. *)
Fixpoint to_json (v : json) : json :=
  match v with
  | JStr s => JStr (to_text s)
  | JArr l => JArr (map to_json l)
  | JObj m => JObj (map (λ kv, (to_text kv.1, to_json kv.2)) m)
  | _ => v
  end.

Lemma skip_space_graphic c s : json_space c = false → skip_space (String c s) = String c s.
Proof. intros Hc. cbn [skip_space]. by rewrite Hc. Qed.

(** The heads a value may have: none of them is a space or a delimiter. *)
Definition value_head (c : ascii) : bool := negb (json_space c || contains_byte c ",:]}").
Lemma value_head_text v t d : json_ok d v = true → ∃ c s, json_text v +++ t = String c s ∧ value_head c = true.
Proof.
  destruct v as [|[]|s|s|l|m]; cbn [json_ok json_text]; intros Hv.
  1, 2, 3, 5, 6, 7: by eexists _, _.
  apply literal_head in Hv as (c & s' & -> & [->|Hc]); [by eexists _, _|]. exists c, (s' +++ t). split; [done|].
  destruct c as [[] [] [] [] [] [] [] []]; try (vm_compute in Hc; discriminate); reflexivity.
Qed.

Lemma value_head_space c : value_head c = true → json_space c = false.
Proof. unfold value_head. intros [? _]%negb_true_iff%orb_false_elim. done. Qed.

(** The calls a value costs, and the bound on it. *)
Fixpoint cost (v : json) : nat :=
  match v with
  | JArr l => S (fold_right (λ x n, S (cost x + n)) O l)
  | JObj m => S (fold_right (λ kv n, S (cost kv.2 + n)) O m)
  | _ => 1%nat
  end.

Lemma join_cons_length sep x l : (String.length x + String.length (join sep l) ≤ String.length (join sep (x :: l)))%nat ∧
  (l ≠ [] → String.length x + String.length sep + String.length (join sep l) = String.length (join sep (x :: l)))%nat.
Proof. destruct l as [|y l]; cbn [join]; rewrite ?sapp_length; simpl; split; try done; lia. Qed.

Lemma cost_bound v d : json_ok d v = true → (cost v ≤ 2 * String.length (json_text v))%nat.
Proof.
  revert d. induction v as [|[]|s|s|l IH|m IH] using json_ind'; intros d Hv; cbn [cost json_text json_bool] in *;
    try (simpl; lia).
  - cbn [json_ok] in Hv. apply literal_head in Hv as (c & s' & -> & _). simpl. lia.
  - cbn [json_ok] in Hv. destruct d as [|d]; [done|].
    assert (fold_right (λ x n, S (cost x + n)) O l ≤ 2 * String.length (join "," (map json_text l)) + 1)%nat as Hl;
      [|rewrite !sapp_length; cbn [String.length]; lia].
    induction IH as [|x l Hx _ IHl]; [simpl; lia|]. cbn [forallb] in Hv. apply andb_prop in Hv as [Hvx Hvl].
    specialize (Hx d Hvx). specialize (IHl Hvl). cbn [fold_right map].
    destruct (join_cons_length "," (json_text x) (map json_text l)) as [H1 H2].
    change (String.length ",") with 1%nat in H2. destruct l as [|y l]; [cbn [map join fold_right] in *; lia|].
    specialize (H2 ltac:(done)). lia.
  - cbn [json_ok] in Hv. destruct d as [|d]; [done|].
    assert (fold_right (λ kv n, S (cost kv.2 + n)) O m ≤
      2 * String.length (join "," (map (λ kv, json_quote kv.1 +++ ":" +++ json_text kv.2) m)) + 1)%nat as Hl;
      [|rewrite !sapp_length; cbn [String.length]; lia].
    induction IH as [|[k x] l Hx _ IHl]; [simpl; lia|]. cbn [forallb fst snd] in *.
    apply andb_prop in Hv as [Hvx Hvl].
    specialize (Hx d Hvx). specialize (IHl Hvl). cbn [fold_right map fst snd].
    destruct (join_cons_length "," (json_quote k +++ ":" +++ json_text x)
      (map (λ kv, json_quote kv.1 +++ ":" +++ json_text kv.2) l)) as [H1 H2].
    change (String.length ",") with 1%nat in H2.
    assert (String.length (json_text x) < String.length (json_quote k +++ ":" +++ json_text x))%nat as Hk.
    { unfold json_quote. rewrite !sapp_length. cbn [String.length]. lia. }
    destruct l as [|y l]; [cbn [map join fold_right fst snd] in *; lia|]. specialize (H2 ltac:(done)). lia.
Qed.

Lemma value_literal fuel d s t : literal s = true → boundary t = true → value (S fuel) d (s +++ t) = Some (JNum s, t).
Proof.
  intros Hs Ht. pose proof (literal_app s t Hs Ht) as Hn. destruct (literal_head s Hs) as (c & s' & -> & Hc).
  cbn [String.append value] in *.
  assert (Ascii.eqb c quote_char = false ∧ Ascii.eqb c "[" = false ∧ Ascii.eqb c "{" = false ∧ Ascii.eqb c "n" = false ∧
    Ascii.eqb c "t" = false ∧ Ascii.eqb c "f" = false) as (-> & -> & -> & -> & -> & ->).
  { destruct Hc as [->|Hc]; [done|]. repeat split; apply Ascii.eqb_neq; intros ->; vm_compute in Hc; discriminate. }
  by rewrite Hn.
Qed.

Lemma json_quote_app s t : json_quote s +++ t = String quote_char (json_escape 0 false s +++ String quote_char t).
Proof. unfold json_quote. cbn [String.append]. by rewrite sapp_assoc. Qed.

Lemma join_head sep x l : ∃ z, join sep (x :: l) = x +++ z.
Proof. destruct l; cbn [join]; [exists ""; by rewrite sapp_nil_r|by eexists]. Qed.

Lemma skip_text v t d : json_ok d v = true → skip_space (json_text v +++ t) = json_text v +++ t.
Proof.
  intros Hv. destruct (value_head_text v t d Hv) as (c & s & -> & Hc). apply skip_space_graphic. by apply value_head_space.
Qed.

(** What [value] does on the text of [x], at any cost and followed by anything. *)
Definition reads (d : nat) (x : json) : Prop :=
  ∀ fuel t, (cost x ≤ fuel)%nat → boundary t = true → value fuel d (json_text x +++ t) = Some (to_json x, t).

Lemma comma_app s : "," +++ s = String "," s.
Proof. done. Qed.

Lemma elements_text fuel d l t :
  Forall (reads d) l → forallb (λ x, json_ok d x) l = true → l ≠ [] →
  (fold_right (λ x n, S (cost x + n)) O l ≤ fuel)%nat →
  elements fuel d (join "," (map json_text l) +++ String "]" t) = Some (map to_json l, t).
Proof.
  revert fuel. induction l as [|x l IH]; intros fuel Hx Hv Hne Hf; [done|].
  apply Forall_cons in Hx as [Hx Hxl]. cbn [fold_right] in Hf. destruct fuel as [|fuel]; [lia|].
  cbn [forallb] in Hv. apply andb_prop in Hv as [Hvx Hvl]. cbn [elements map]. destruct l as [|y l].
  - cbn [map join]. by rewrite Hx by (done || lia).
  - rewrite join_cons_ne by done. rewrite !sapp_assoc, comma_app, Hx by (done || lia).
    change (skip_space (String "," ?s)) with (String "," s). cbv beta iota.
    specialize (IH fuel Hxl Hvl ltac:(done) ltac:(lia)). cbn [map] in *.
    destruct (join_head "," (json_text y) (map json_text l)) as [z Hz].
    rewrite Hz, sapp_assoc, (skip_text y _ d), <- sapp_assoc, <- Hz by by apply andb_prop in Hvl as [? _].
    by rewrite IH.
Qed.

Lemma members_text fuel d m t :
  Forall (λ kv, reads d kv.2) m → forallb (λ kv, json_ok d kv.2) m = true → m ≠ [] →
  (fold_right (λ kv n, S (cost kv.2 + n)) O m ≤ fuel)%nat →
  members fuel d (join "," (map (λ kv, json_quote kv.1 +++ ":" +++ json_text kv.2) m) +++ String "}" t) = Some (map (λ kv, (to_text kv.1, to_json kv.2)) m, t).
Proof.
  revert fuel. induction m as [|[k x] m IH]; intros fuel Hx Hv Hne Hf; [done|].
  apply Forall_cons in Hx as [Hx Hxl]. cbn [fold_right fst snd] in *. destruct fuel as [|fuel]; [lia|].
  cbn [forallb fst snd] in Hv. apply andb_prop in Hv as [Hvx Hvl]. cbn [map fst snd].
  assert (∀ s, members (S fuel) d ((json_quote k +++ ":" +++ json_text x) +++ s) =
    match value fuel d (json_text x +++ s) with
    | None => None
    | Some (x, r) => match skip_space r with
        | String "," r => match members fuel d (skip_space r) with Some (m, r) => Some ((to_text k, x) :: m, r) | None => None end
        | String "}" r => Some ([(to_text k, x)], r)
        | _ => None end
    end) as Hstep.
  { intros s. rewrite !sapp_assoc, json_quote_app. cbn [members Ascii.eqb Bool.eqb quote_char].
    rewrite unquote_quoted. cbn [String.append]. change (skip_space (String ":" ?s)) with (String ":" s). cbv beta iota.
    by rewrite (skip_text x _ d) by done. }
  destruct m as [|[k' y] m].
  - cbn [map join]. rewrite Hstep. by rewrite Hx by (done || lia).
  - rewrite join_cons_ne by done. rewrite (sapp_assoc (_ +++ _ +++ _)), Hstep, sapp_assoc. rewrite comma_app.
    rewrite Hx by (done || lia). change (skip_space (String "," ?s)) with (String "," s). cbv beta iota.
    specialize (IH fuel Hxl Hvl ltac:(done) ltac:(lia)). cbn [map fst snd] in *.
    destruct (join_head "," (json_quote k' +++ ":" +++ json_text y) (map (λ kv, json_quote kv.1 +++ ":" +++ json_text kv.2) m)) as [z Hz].
    rewrite Hz, !sapp_assoc in IH |- *. rewrite json_quote_app in IH |- *. rewrite skip_space_graphic by done. by rewrite IH.
Qed.

Lemma Forall_checked {A} (Q : A → Prop) (p : A → bool) l :
  Forall (λ x, p x = true → Q x) l → forallb p l = true → Forall Q l.
Proof. induction 1; intros Hl; constructor; apply andb_prop in Hl as [? ?]; auto. Qed.

Lemma value_text v : ∀ d, json_ok d v = true → reads d v.
Proof.
  induction v as [|[]|s|s|l IH|m IH] using json_ind'; intros d Hv fuel t Hf Ht; (destruct fuel as [|fuel]; [simpl in Hf; lia|]).
  - cbn [value json_text keyword]. unfold keyword. by rewrite (has_prefix_app t "null"), (sdrop_app "null" t).
  - cbn [value json_text json_bool]. unfold keyword. by rewrite (has_prefix_app t "true"), (sdrop_app "true" t).
  - cbn [value json_text json_bool]. unfold keyword. by rewrite (has_prefix_app t "false"), (sdrop_app "false" t).
  - by apply value_literal.
  - cbn [json_text]. rewrite json_quote_app. cbn [value Ascii.eqb Bool.eqb quote_char].
    by rewrite unquote_quoted.
  - cbn [json_ok] in Hv. destruct d as [|d]; [done|]. cbn [json_text cost] in *.
    rewrite !sapp_assoc. cbn [String.append value Ascii.eqb Bool.eqb quote_char].
    destruct l as [|x l]; [done|].
    pose proof (elements_text fuel d (x :: l) t) as He. cbn [map] in *.
    destruct (join_head "," (json_text x) (map json_text l)) as [z Hz]. rewrite Hz, sapp_assoc in *.
    pose proof (andb_prop _ _ Hv) as [Hvx _]. destruct (value_head_text x (z +++ String "]" t) d Hvx) as (c & s & Hs & Hc).
    rewrite Hs in *. rewrite skip_space_graphic by by apply value_head_space.
    assert (match String c s with String "]" r => Some (JArr [], r)
      | r => match elements fuel d r with Some (l, r) => Some (JArr l, r) | None => None end end
      = match elements fuel d (String c s) with Some (l, r) => Some (JArr l, r) | None => None end) as ->.
    { destruct c as [[] [] [] [] [] [] [] []]; try reflexivity. done. }
    rewrite He; [done| |done|done|lia]. apply (Forall_checked _ (λ x, json_ok d x)); [|done].
    eapply Forall_impl; [exact IH|]. intros y Hy. apply Hy.
  - cbn [json_ok] in Hv. destruct d as [|d]; [done|]. cbn [json_text cost] in *.
    rewrite !sapp_assoc. change ("{" +++ ?s) with (String "{" s). cbn [value Ascii.eqb Bool.eqb quote_char].
    destruct m as [|[k x] m]; [done|].
    pose proof (members_text fuel d ((k, x) :: m) t) as He. cbn [map fst snd] in *.
    destruct (join_head "," (json_quote k +++ ":" +++ json_text x) (map (λ kv, json_quote kv.1 +++ ":" +++ json_text kv.2) m)) as [z Hz].
    rewrite Hz, !sapp_assoc in He |- *. rewrite json_quote_app in He |- *.
    rewrite skip_space_graphic by done. cbn [String.append] in He |- *. unfold quote_char in He |- *. cbv beta iota.
    rewrite He; [done| |done|done|lia]. apply (Forall_checked _ (λ kv, json_ok d kv.2)); [|done].
    eapply Forall_impl; [exact IH|]. intros y Hy Hd. by apply Hy.
Qed.

(** What [json.Marshal] writes, [json.Unmarshal] reads back. *)
Lemma parse_text v : json_ok max_depth v = true → json_parse (json_text v) = Some (to_json v).
Proof.
  intros Hv. unfold json_parse. rewrite <- (sapp_nil_r (json_text v)), (skip_text v "" max_depth Hv).
  rewrite (value_text v max_depth Hv); [done| |done]. rewrite sapp_nil_r. pose proof (cost_bound v max_depth Hv). lia.
Qed.

(** The same with the end of line the program adds to its files. *)
Lemma parse_text_nl v : json_ok max_depth v = true → json_parse (json_text v +++ snl) = Some (to_json v).
Proof.
  intros Hv. unfold json_parse. rewrite (skip_text v snl max_depth Hv).
  rewrite (value_text v max_depth Hv); [done| |done]. rewrite sapp_length. pose proof (cost_bound v max_depth Hv). lia.
Qed.

(** ** Fields of a struct *)

(** Field names match in either case; two code points fold to ASCII letters. *)
Fixpoint fold_key (s : string) : string :=
  match s with
  | String "197" (String "191" s') => String "s" (fold_key s')
  | String "226" (String "132" (String "170" s')) => String "k" (fold_key s')
  | String c s' => String (ascii_lower c) (fold_key s')
  | EmptyString => ""
  end.
Definition same_key (name key : string) : bool := String.eqb (fold_key name) (fold_key key).

(** The members of an object are stored one after the other into the field of their name;
    a value of another type is an error, and the rest is still stored. *)
Definition store_field {A} (name : string) (store : A → json → A * bool) (zero : A) (m : list (string * json)) : A * bool :=
  fold_left (λ (a : A * bool) kv,
    if same_key name kv.1 then let (x, ok) := store a.1 kv.2 in (x, a.2 && ok) else a) m (zero, true).
Definition store_string (a : string) (v : json) : string * bool :=
  match v with JNull => (a, true) | JStr s => (s, true) | _ => (a, false) end.
Definition store_bool (a : bool) (v : json) : bool * bool :=
  match v with JNull => (a, true) | JBool b => (b, true) | _ => (a, false) end.
(** A literal with a fraction or an exponent does not fit an [int]. *)
Definition store_int (a : Z) (v : json) : Z * bool :=
  match v with
  | JNull => (a, true)
  | JNum s => match atoi s with Some n => (n, true) | None => (a, false) end
  | _ => (a, false)
  end.
Definition store_pointer {A} (zero : A) (store : A → json → A * bool) (a : option A) (v : json) : option A * bool :=
  match v with
  | JNull => (None, true)
  | _ => let (x, ok) := store (default zero a) v in (Some x, ok)
  end.
Definition store_raw (_ : option json) (v : json) : option json * bool := (Some v, true).
Definition store_strings (a : list string) (v : json) : list string * bool :=
  match v with
  | JNull => ([], true)
  | JArr l => fold_left (λ (a : list string * bool) x, let (s, ok) := store_string "" x in (a.1 ++ [s], a.2 && ok)) l ([], true)
  | _ => (a, false)
  end.

(** Reading one field of an object whose keys are known. *)
Lemma store_field_other {A} name store (z : A) k v m :
  same_key name k = false → store_field name store z ((k, v) :: m) = store_field name store z m.
Proof. intros Hk. unfold store_field. cbn [fold_left fst]. by rewrite Hk. Qed.
Lemma store_field_none {A} name (store : A → json → A * bool) z m b :
  forallb (λ kv : string * json, negb (same_key name kv.1)) m = true →
  fold_left (λ (a : A * bool) kv,
    if same_key name kv.1 then let (x, ok) := store a.1 kv.2 in (x, a.2 && ok) else a) m (z, b) = (z, b).
Proof.
  induction m as [|kv m IH]; [done|]. cbn [forallb fold_left]. intros [Hk Hm]%andb_prop.
  apply negb_true_iff in Hk. rewrite Hk. auto.
Qed.
Lemma store_field_same {A} name store (z : A) k v m :
  same_key name k = true → forallb (λ kv : string * json, negb (same_key name kv.1)) m = true →
  store_field name store z ((k, v) :: m) = store z v.
Proof.
  intros Hk Hm. unfold store_field. cbn [fold_left fst snd]. rewrite Hk. destruct (store z v) as [x ok]. cbn [andb].
  by apply store_field_none.
Qed.
Lemma store_field_nil {A} name (store : A → json → A * bool) z : store_field name store z [] = (z, true).
Proof. done. Qed.
Ltac read_fields :=
  repeat first [ rewrite store_field_same by reflexivity | rewrite store_field_other by reflexivity | rewrite store_field_nil ].

Example reads_spaces_escapes_numbers :
  json_parse (smap (λ c, if Ascii.eqb c "~" then quote_char else c) " {~a~ : [1, -2.5e3, ~x\u0041\ud83d\ude00~], ~b~: {}} ")
    = Some (JObj [("a", JArr [JNum "1"; JNum "-2.5e3"; JStr "xA😀"]); ("b", JObj [])]).
Proof. vm_compute. reflexivity. Qed.
