(* ===== verification/JsonMore.v ===== *)
(** * JSON: raw messages, values of any type, slices

    What some domains use of [encoding/json] besides [JsonParse]: the text of a field kept
    as it was written ([json.RawMessage]), the first value of a text ([json.Decoder]), the
    decoding into [any], whose numbers must fit a float64, and the decoding of a slice into
    the elements it already has. *)

From S2P Require Import Prelude GoStrings StringFacts Json JsonParse.
From Stdlib Require Import Ascii String.
#[local] Open Scope string_scope.
#[local] Open Scope list_scope.
#[local] Open Scope Z_scope.

(** ** The first value of a text *)

Definition fuel_of (s : string) : nat := 2 * String.length s + 2.
(** What a decoder reads: a value, and the text after it. *)
Definition json_prefix (s : string) : option (json * string) :=
  let s := skip_space s in value (fuel_of s) max_depth s.
(** The text between a suffix and a longer one. *)
Definition consumed (s r : string) : string := stake (String.length s - String.length r) s.

(** ** Raw fields *)

(** The members of an object with the text of their values; [s] starts at a key. *)
Fixpoint raw_members (fuel : nat) (s : string) : list (string * string) :=
  match fuel with
  | O => []
  | S fuel =>
      match s with
      | String c s' =>
          if Ascii.eqb c quote_char then
            match unquote 0 s' with
            | None => []
            | Some (k, r) =>
                match skip_space r with
                | String ":" r =>
                    let start := skip_space r in
                    match value (fuel_of start) max_depth start with
                    | None => []
                    | Some (_, r) =>
                        (k, consumed start r) ::
                        match skip_space r with String "," r => raw_members fuel (skip_space r) | _ => [] end
                    end
                | _ => []
                end
            end
          else []
      | EmptyString => []
      end
  end.
(** The raw members of a text that [json_parse] reads as an object. *)
Definition raw_object (s : string) : list (string * string) :=
  match skip_space s with
  | String "{" r => raw_members (String.length s) (skip_space r)
  | _ => []
  end.
(** The text of the field: that of its last member, none when there is none. *)
Definition raw_field (name : string) (s : string) : option string :=
  last (omap (λ kv : string * string, if same_key name kv.1 then Some kv.2 else None) (raw_object s)).

Example raw_field_text :
  raw_field "Devices" (smap (λ c, if Ascii.eqb c "~" then quote_char else c) " { ~a~ : [1, 2] , ~devices~: [ {~b~ : ~,}~} ] }")
    = Some (smap (λ c, if Ascii.eqb c "~" then quote_char else c) "[ {~b~ : ~,}~} ]").
Proof. vm_compute. reflexivity. Qed.

(** ** Values of any type *)

Definition float_limit : Z := 2 ^ 1024 - 2 ^ 970.
(** The digits of a literal and its power of ten. *)
Definition literal_parts (s : string) : Z * Z :=
  let s := trim_prefix s "-" in
  let '(mantissa, exponent, _) := cut "e" (smap (λ c, if Ascii.eqb c "E" then "e"%char else c) s) in
  let '(int, frac, _) := cut "." mantissa in
  let (negative, digits) := split_sign exponent in
  let e := digits_value 0 digits in
  (digits_value 0 (int +++ frac), (if negative then - e else e) - slen frac).
Definition decimal_length (m : Z) : Z := slen (itoa m).
(** Whether [strconv.ParseFloat] answers that the literal is out of range. *)
Definition overflows (s : string) : bool :=
  let (m, e) := literal_parts s in
  if m =? 0 then false
  else
    let n := decimal_length m + e in
    if 310 <? n then true else if n <? 300 then false
    else if 0 <=? e then float_limit <=? m * 10 ^ e else float_limit * 10 ^ (- e) <=? m.
(** The numbers of a value decoded into [any]. *)
Fixpoint any_ok (v : json) : bool :=
  match v with
  | JNum s => negb (overflows s)
  | JArr l => forallb any_ok l
  | JObj m => forallb (λ kv, any_ok kv.2) m
  | _ => true
  end.
(** A member of a map: the last of that very key. *)
Definition any_member (k : string) (m : list (string * json)) : option json :=
  last (omap (λ kv : string * json, if String.eqb kv.1 k then Some kv.2 else None) m).
Definition any_text (v : option json) : string := match v with Some (JStr s) => s | _ => "" end.

Example huge_number : overflows "1e309" = true ∧ overflows "179769313486231570000e288" = false ∧ overflows "-0.0e99999" = false.
Proof. vm_compute. done. Qed.

(** ** Maps *)

Definition jmap := list (string * json).
(** The members in the order [json.Marshal] writes those of a map. *)
Definition key_le (x y : string * json) : Prop := str_le x.1 y.1.
#[global] Instance key_le_dec x y : Decision (key_le x y).
Proof. unfold key_le. apply _. Defined.
Definition sorted_members (m : gmap string json) : jmap := merge_sort key_le (map_to_list m).
(** The last member of each key. *)
Definition as_map (m : jmap) : jmap := sorted_members (list_to_map (rev m)).
(** A value decoded into [any]: its objects are maps. *)
Fixpoint canonical (v : json) : json :=
  match v with
  | JArr l => JArr (map canonical l)
  | JObj m => JObj (as_map (map (λ kv, (kv.1, canonical kv.2)) m))
  | _ => v
  end.
Definition canonical_members (m : jmap) : jmap := as_map (map (λ kv, (kv.1, canonical kv.2)) m).

(** ** Slices *)

(** Each element is decoded into the element the slice already holds there. *)
Fixpoint store_elements {A} (store : A → json → A * bool) (zero : A) (old : list A) (l : list json) : list A * bool :=
  match l with
  | [] => ([], true)
  | v :: l =>
      let (x, ok) := store (match old with x :: _ => x | [] => zero end) v in
      let (r, ok') := store_elements store zero (match old with _ :: old => old | [] => [] end) l in
      (x :: r, ok && ok')
  end.
Definition store_list {A} (store : A → json → A * bool) (zero : A) (old : list A) (v : json) : list A * bool :=
  match v with
  | JNull => ([], true)
  | JArr l => store_elements store zero old l
  | _ => (old, false)
  end.

(** ** Members of maps *)

Lemma any_member_map m k : any_member k m = (list_to_map (rev m) : gmap string json) !! k.
Proof.
  induction m as [|[k' v] m IH] using rev_ind; [done|]. unfold any_member in *. rewrite rev_app_distr. cbn [rev app].
  rewrite omap_app. cbn [omap list_omap fst snd list_to_map foldr]. destruct (String.eqb_spec k' k) as [->|Hne].
  - by rewrite last_snoc, lookup_insert_eq.
  - by rewrite app_nil_r, lookup_insert_ne by done.
Qed.
Lemma any_member_sorted (m : gmap string json) k : any_member k (sorted_members m) = m !! k.
Proof.
  rewrite any_member_map. rewrite <- (list_to_map_to_list m) at 2. f_equal. apply list_to_map_proper.
  - rewrite <- Permutation_rev. unfold sorted_members. rewrite merge_sort_Permutation. apply NoDup_fst_map_to_list.
  - rewrite <- Permutation_rev. apply merge_sort_Permutation.
Qed.

Lemma any_member_last k v m : any_member k (m ++ [(k, v)]) = Some v.
Proof. unfold any_member. rewrite omap_app. cbn. rewrite String.eqb_refl. apply last_snoc. Qed.
Lemma any_member_canonical m k : any_member k (canonical_members m) = canonical <$> any_member k m.
Proof.
  unfold canonical_members, as_map. rewrite any_member_sorted, <- any_member_map. unfold any_member.
  rewrite <- fmap_last. f_equal. induction m as [|[k' v] m IH]; [done|]. cbn [map omap list_omap fst snd].
  destruct (String.eqb k' k); cbn [fmap list_fmap]; by rewrite IH.
Qed.
