(* ===== verification/SessionFile.v ===== *)
(** * The file of the web sessions ([internal/websession/persistence.go])

    The document that keeps the authenticated sessions across a restart, as the text
    [encoding/json] writes and as the strict decoder of the program reads it: dates in
    RFC 3339 with nanoseconds, fields that are not known refused, and what follows the
    document told apart.  A date of a file the program did not write may not be spelled with
    escapes, which the decoder of [time.Time] does not undo and this one does. *)

From S2P Require Import Prelude GoStrings StringFacts Codec Json JsonParse JsonMore Time.
From Stdlib Require Import Ascii String.
#[local] Open Scope string_scope.
#[local] Open Scope list_scope.
#[local] Open Scope Z_scope.

Definition persistenceVersion : Z := 1.
Definition maximumFileSize : Z := 16 * 1024 * 1024.

(** Dates are in nanoseconds since the Unix epoch. *)
Record persistedSession := mkPersisted {
  p_ID : string; p_CSRFToken : string; p_UserID : Z; p_AuthVersion : Z; p_CreatedAt : Z; p_LastSeenAt : Z }.
Record persistedSessions := mkDocument { p_Version : Z; p_Sessions : list persistedSession }.
(** The zero [time.Time]: January 1 of year 1. *)
Definition zero_time : Z := -62135596800 * 10^9.

(** ** Writing *)

(** [time.Time.MarshalJSON] fails on a year that has not four digits. *)
Definition year_ok (t : Z) : bool := (-62167219200 <=? t / 10^9) && (t / 10^9 <? 253402300800).
Definition session_json (item : persistedSession) : json :=
  JObj [("id", JStr (p_ID item)); ("csrf_token", JStr (p_CSRFToken item)); ("user_id", JNum (itoa (p_UserID item)));
        ("auth_version", JNum (itoa (p_AuthVersion item))); ("created_at", JStr (rfc3339nano (p_CreatedAt item)));
        ("last_seen_at", JStr (rfc3339nano (p_LastSeenAt item)))].
Definition document_json (document : persistedSessions) : json :=
  JObj [("version", JNum (itoa (p_Version document))); ("sessions", JArr (map session_json (p_Sessions document)))].
(** [json.NewEncoder(temporary).Encode] *)
Definition encode (document : persistedSessions) : option string :=
  if forallb (λ item, year_ok (p_CreatedAt item) && year_ok (p_LastSeenAt item)) (p_Sessions document)
  then Some (json_text (document_json document) +++ snl) else None.

(** ** Reading *)

(** [DisallowUnknownFields] *)
Definition known_fields (names : list string) (m : list (string * json)) : bool :=
  forallb (λ kv : string * json, existsb (λ name, same_key name kv.1) names) m.
(** [time.Time.UnmarshalJSON] *)
Definition store_time (a : Z) (v : json) : Z * bool :=
  match v with
  | JNull => (a, true)
  | JStr s => match parse_rfc3339nano s with Some t => (t, true) | None => (a, false) end
  | _ => (a, false)
  end.
Definition session_fields : list string := ["id"; "csrf_token"; "user_id"; "auth_version"; "created_at"; "last_seen_at"].
Definition store_session (a : persistedSession) (v : json) : persistedSession * bool :=
  match v with
  | JNull => (a, true)
  | JObj m =>
      let (id, ok1) := store_field "id" store_string (p_ID a) m in
      let (csrf, ok2) := store_field "csrf_token" store_string (p_CSRFToken a) m in
      let (user, ok3) := store_field "user_id" store_int (p_UserID a) m in
      let (version, ok4) := store_field "auth_version" store_int (p_AuthVersion a) m in
      let (created, ok5) := store_field "created_at" store_time (p_CreatedAt a) m in
      let (seen, ok6) := store_field "last_seen_at" store_time (p_LastSeenAt a) m in
      (mkPersisted id csrf user version created seen, known_fields session_fields m && ok1 && ok2 && ok3 && ok4 && ok5 && ok6)
  | _ => (a, false)
  end.
Definition no_session : persistedSession := mkPersisted "" "" 0 0 zero_time zero_time.
Definition store_document (a : persistedSessions) (v : json) : persistedSessions * bool :=
  match v with
  | JNull => (a, true)
  | JObj m =>
      let (version, ok1) := store_field "version" store_int (p_Version a) m in
      let (sessions, ok2) := store_field "sessions" (store_list store_session no_session) (p_Sessions a) m in
      (mkDocument version sessions, known_fields ["version"; "sessions"] m && ok1 && ok2)
  | _ => (a, false)
  end.
(** [decoder.Decode(&stored)]: the document, and the text after it. *)
Definition decode (text : string) : option (persistedSessions * string) :=
  match json_prefix text with
  | Some (v, rest) => let (document, ok) := store_document (mkDocument 0 []) v in if ok then Some (document, rest) else None
  | None => None
  end.
(** [ensureJSONEnd] *)
Definition ensureJSONEnd (rest : string) : bool := String.eqb (skip_space rest) "".

(** ** What is written is read back *)

Lemma year_range_ok t : year_ok t = true → in_range (t / 10^9).
Proof. unfold year_ok, in_range. rewrite andb_true_iff, Z.leb_le, Z.ltb_lt. done. Qed.
Lemma digit_or_dot_ascii c : is_digit c || Ascii.eqb c "." = true → is_ascii_byte c = true.
Proof.
  intros [Hc|Hc]%orb_prop; [|apply Ascii.eqb_eq in Hc as ->; by vm_compute].
  unfold is_digit, between in Hc. apply andb_prop in Hc as [_ Hc%Z.leb_le]. unfold is_ascii_byte. apply Z.ltb_lt. change (byte "9") with 57 in Hc. lia.
Qed.
Lemma rfc3339nano_ascii t : year_ok t = true → sforall is_ascii_byte (rfc3339nano t) = true.
Proof.
  intros Ht%year_range_ok. unfold rfc3339nano. pose proof (Z.mod_pos_bound t (10^9) ltac:(done)) as Hm.
  destruct (fraction_of_spec 9 (t mod 10^9)) as (_ & _ & Hf & _); [exact Hm|done|].
  assert (∀ c, graphic c = true → is_ascii_byte c = true) as Hg.
  { intros c. unfold graphic, is_ascii_byte. rewrite andb_true_iff, !Z.ltb_lt. lia. }
  pose proof (rfc3339_graphic _ Ht) as Hd. rewrite rfc3339_date, sforall_app in Hd. apply andb_prop in Hd as [Hd _].
  rewrite !sforall_app. rewrite (sforall_weaken _ _ _ Hg Hd), (sforall_weaken _ _ _ digit_or_dot_ascii Hf). done.
Qed.
Lemma store_time_text a t : year_ok t = true → store_time a (JStr (to_text (rfc3339nano t))) = (t, true).
Proof.
  intros Ht. rewrite to_text_ascii by by apply rfc3339nano_ascii. cbn [store_time]. by rewrite parse_rfc3339nano_text by by apply year_range_ok.
Qed.
(** A record as it is read: the strings made valid; the integers of the program fit. *)
Definition read_back (item : persistedSession) : persistedSession :=
  mkPersisted (to_text (p_ID item)) (to_text (p_CSRFToken item)) (p_UserID item) (p_AuthVersion item) (p_CreatedAt item) (p_LastSeenAt item).
Definition fits (item : persistedSession) : Prop := int_min ≤ p_UserID item ≤ int_max ∧ int_min ≤ p_AuthVersion item ≤ int_max.
Definition years_ok (item : persistedSession) : bool := year_ok (p_CreatedAt item) && year_ok (p_LastSeenAt item).
Lemma atoi_itoa_value z n : atoi (itoa z) = Some n → n = z.
Proof.
  unfold atoi, atoi_full, itoa, pretty, pretty_Z. destruct z as [|p|p]; [by intros [= <-]|..].
  - change (pretty p) with (pretty (N.pos p)). destruct (pretty_N_digits (Npos p)) as [Hd Hv]. rewrite digits_only_sign, Hd, Hv by done.
    destruct (Z.of_N (N.pos p) <=? int_max); [|done]. by intros [= <-].
  - change (pretty p) with (pretty (N.pos p)). cbn [String.append split_sign Ascii.eqb Bool.eqb].
    destruct (pretty_N_digits (Npos p)) as [Hd Hv]. rewrite Hd, Hv. destruct (Z.of_N (N.pos p) <=? 2^63); [|done]. by intros [= <-].
Qed.
Lemma store_int_text z : (int_min ≤ z ≤ int_max → store_int 0 (JNum (itoa z)) = (z, true)) ∧
  ∀ n, store_int 0 (JNum (itoa z)) = (n, true) → n = z ∧ int_min ≤ z ≤ int_max.
Proof.
  cbn [store_int]. split; [intros Hz; by rewrite atoi_itoa|]. intros n. destruct (atoi (itoa z)) as [x|] eqn:Ha; [|done]. intros [= ->].
  pose proof (atoi_range _ _ Ha) as Hr. apply atoi_itoa_value in Ha as ->. done.
Qed.
Lemma store_session_text item : years_ok item = true →
  store_session no_session (to_json (session_json item)) =
  let (user, ok3) := store_int 0 (JNum (itoa (p_UserID item))) in
  let (version, ok4) := store_int 0 (JNum (itoa (p_AuthVersion item))) in
  (mkPersisted (to_text (p_ID item)) (to_text (p_CSRFToken item)) user version (p_CreatedAt item) (p_LastSeenAt item), ok3 && ok4).
Proof.
  intros [Hc Hl]%andb_prop.
  change (to_json (session_json item)) with (JObj [("id", JStr (to_text (p_ID item))); ("csrf_token", JStr (to_text (p_CSRFToken item)));
    ("user_id", JNum (itoa (p_UserID item))); ("auth_version", JNum (itoa (p_AuthVersion item)));
    ("created_at", JStr (to_text (rfc3339nano (p_CreatedAt item)))); ("last_seen_at", JStr (to_text (rfc3339nano (p_LastSeenAt item))))]).
  unfold store_session. change (known_fields session_fields _) with true. read_fields. cbn [no_session p_ID p_CSRFToken p_UserID p_AuthVersion p_CreatedAt p_LastSeenAt].
  rewrite !store_time_text by done. cbn [store_string]. destruct (store_int 0 (JNum (itoa (p_UserID item)))), (store_int 0 (JNum (itoa (p_AuthVersion item)))).
  by rewrite !andb_true_r.
Qed.
Definition session_read (item item' : persistedSession) : Prop := item' = read_back item ∧ fits item.
Lemma store_sessions_text l : ∀ l' ok, forallb years_ok l = true →
  store_elements store_session no_session [] (map to_json (map session_json l)) = (l', ok) →
  (ok = true → Forall2 session_read l l') ∧ (Forall fits l → ok = true).
Proof.
  induction l as [|item l IH]; intros l' ok Hy; cbn [map store_elements]; [intros [= <- <-]; by split|].
  cbn [forallb] in Hy. apply andb_prop in Hy as [Hi Hy]. rewrite store_session_text by done.
  destruct (store_int_text (p_UserID item)) as [Hu Hu'], (store_int_text (p_AuthVersion item)) as [Hv Hv'].
  destruct (store_int 0 (JNum (itoa (p_UserID item)))) as [user ok3], (store_int 0 (JNum (itoa (p_AuthVersion item)))) as [version ok4].
  destruct (store_elements store_session no_session [] (map to_json (map session_json l))) as [r ok'] eqn:E.
  destruct (IH r ok' Hy eq_refl) as [H1 H2]. intros [= <- <-]. split.
  - intros [[-> ->]%andb_prop ->]%andb_prop. destruct (Hu' user eq_refl) as [-> ?], (Hv' version eq_refl) as [-> ?].
    constructor; [by split; [|split]|by apply H1].
  - intros [[Hf1 Hf2] Hf]%Forall_cons. specialize (Hu Hf1). specialize (Hv Hf2). injection Hu as _ ->. injection Hv as _ ->. by rewrite H2.
Qed.
Lemma document_ok document : json_ok max_depth (document_json document) = true.
Proof.
  assert (max_depth = S (S (S (N.to_nat 9997)))) as -> by by vm_compute. unfold document_json. cbn [json_ok forallb snd]. rewrite literal_itoa. cbn [andb].
  rewrite andb_true_r. apply forallb_forall. intros x (item & <- & _)%in_map_iff. unfold session_json. cbn [json_ok forallb snd]. by rewrite !literal_itoa.
Qed.
Lemma json_prefix_text_app v t : json_ok max_depth v = true → boundary t = true → json_prefix (json_text v +++ t) = Some (to_json v, t).
Proof.
  intros Hv Ht. unfold json_prefix, fuel_of. rewrite (skip_text v t max_depth Hv).
  apply (value_text v max_depth Hv); [|done]. rewrite sapp_length. pose proof (cost_bound v max_depth Hv). lia.
Qed.
Lemma encode_Some document text : encode document = Some text →
  forallb years_ok (p_Sessions document) = true ∧ text = json_text (document_json document) +++ snl.
Proof. unfold encode. fold years_ok. destruct (forallb _ _) eqn:Hy; [|done]. by intros [= <-]. Qed.
(** What is read of a file the program wrote: the sessions written, with their users and versions, if at all. *)
Lemma decode_encoded document text document' rest : encode document = Some text → decode text = Some (document', rest) →
  Forall2 session_read (p_Sessions document) (p_Sessions document').
Proof.
  intros [Hy ->]%encode_Some. unfold decode. rewrite json_prefix_text_app by (by apply document_ok || done).
  change (to_json (document_json document)) with (JObj [("version", JNum (itoa (p_Version document))); ("sessions", JArr (map to_json (map session_json (p_Sessions document))))]).
  unfold store_document. change (known_fields _ _) with true. read_fields. cbn [p_Version p_Sessions store_list].
  destruct (store_int 0 _) as [version ok1]. destruct (store_elements _ _ _ _) as [l ok2] eqn:E. destruct (store_sessions_text _ _ _ Hy E) as [Hl _].
  destruct ok1, ok2; try done. intros [= <- <-]. by apply Hl.
Qed.
(** The sessions of the program are read back as they are. *)
Lemma decode_encode document text : encode document = Some text → int_min ≤ p_Version document ≤ int_max → Forall fits (p_Sessions document) →
  Forall (λ item, read_back item = item) (p_Sessions document) → decode text = Some (document, snl).
Proof.
  intros [Hy ->]%encode_Some Hv Hf Hr. unfold decode. rewrite json_prefix_text_app by (by apply document_ok || done).
  change (to_json (document_json document)) with (JObj [("version", JNum (itoa (p_Version document))); ("sessions", JArr (map to_json (map session_json (p_Sessions document))))]).
  unfold store_document. change (known_fields _ _) with true. read_fields. cbn [p_Version p_Sessions store_list].
  rewrite (proj1 (store_int_text _) Hv). destruct (store_elements _ _ _ _) as [l ok2] eqn:E. destruct (store_sessions_text _ _ _ Hy E) as [Hl Hok].
  rewrite (Hok Hf) in *. specialize (Hl eq_refl). cbn [andb]. assert (l = p_Sessions document) as ->; [|by destruct document].
  clear - Hl Hr. induction Hl as [|x y l k [-> _] _ IH]; [done|]. apply Forall_cons in Hr as [-> Hr]. by rewrite IH.
Qed.
