(* ===== verification/Session.v ===== *)
(** * Web sessions ([internal/websession])

    The session manager with its map, its capacity, its two timeouts, the allocation of
    random tokens and the file that lets authenticated sessions survive a restart.

    Each operation holds the manager's mutex, so an operation is one function of the
    world; it takes the clock reading ([now], nanoseconds since the Unix epoch), the
    bytes the random source delivers and, where it writes the file, how the write
    ended.  The file is a text, which [SessionFile] encodes and decodes. *)

From S2P Require Import Prelude GoStrings StringFacts Codec SessionFile.
From S2P Require JsonParse.
From Stdlib Require Import Ascii String.
#[local] Open Scope string_scope.
#[local] Open Scope Z_scope.

Definition State : Type := string.
Definition StateAnonymous : State := "anonymous".
Definition StatePassword : State := "password_change".
Definition StateTwoFactor : State := "two_factor_challenge".
Definition StateTwoFactorSetup : State := "two_factor_enrollment".
Definition StateAuthenticated : State := "authenticated".

Record Config := {
  IdleTimeout : Z;
  AbsoluteTimeout : Z;
  PendingTimeout : Z;
  MaximumSessions : Z;
}.

Definition time_minute : Z := 60 * 10^9.

Definition DefaultConfig : Config :=
  {| IdleTimeout := 30 * time_minute; AbsoluteTimeout := 8 * 60 * time_minute;
     PendingTimeout := 5 * time_minute; MaximumSessions := 10000 |}.

Record Session := {
  ID : string;
  CSRFToken : string;
  SState : State;
  UserID : Z;
  AuthVersion : Z;
  CreatedAt : Z;
  LastSeenAt : Z;
}.

#[global] Instance Session_eq_dec : EqDecision Session.
Proof. solve_decision. Defined.

(** What the path holds: nothing, something [Lstat] rejects whatever its size, something that
    cannot be opened, or a text. *)
Inductive SessionFile :=
| FileMissing
| FileUnsafe
| FileUnreadable
| FileText (text : string).

Record Manager := {
  sessions : gmap string Session;
  config : Config;
  persistencePath : string;
  lastPersistence : Z;
  disk : SessionFile;
}.

Inductive session_error :=
| ErrConfiguration | ErrCapacity | ErrRandom | ErrState | ErrIdentity | ErrUnique
| ErrPersist | ErrPath | ErrDirectory | ErrFileUnsafe | ErrOpen | ErrFileInvalid
| ErrTrailing | ErrRecord | ErrDuplicate.

Definition IsZero (t : Z) : bool := t =? zero_time.
(** [Time.Sub] saturates at the bounds of a [Duration]. *)
Definition time_sub (a b : Z) : Z := Z.max int_min (Z.min int_max (a - b)).

Definition with_sessions (m : Manager) (s : gmap string Session) : Manager :=
  {| sessions := s; config := config m; persistencePath := persistencePath m;
     lastPersistence := lastPersistence m; disk := disk m |}.

Definition New (c : Config) (file : SessionFile) : res session_error Manager :=
  if (IdleTimeout c <=? 0) || (AbsoluteTimeout c <=? 0) || (PendingTimeout c <=? 0)
     || (MaximumSessions c <? 1)
  then Err ErrConfiguration
  else Ok {| sessions := ∅; config := c; persistencePath := ""; lastPersistence := zero_time; disk := file |}.

Definition expired (m : Manager) (now : Z) (session : Session) : bool :=
  let absolute := if negb (String.eqb (SState session) StateAuthenticated)
                  then PendingTimeout (config m) else AbsoluteTimeout (config m) in
  (absolute <? time_sub now (CreatedAt session)) || (IdleTimeout (config m) <? time_sub now (LastSeenAt session)).

Definition removeExpiredLocked (m : Manager) (now : Z) : Manager :=
  with_sessions m (filter (λ kv, expired m now kv.2 = false) (sessions m)).

(** [io.ReadFull] of thirty-two bytes, in base64url. *)
Definition randomToken (source : string) : option (string * string) :=
  if slen source <? 32 then None
  else Some (b64_encode URLAlphabet (stake 32 source), sdrop 32 source).

Definition known_state (s : State) : bool :=
  String.eqb s StateAnonymous || String.eqb s StatePassword || String.eqb s StateTwoFactor
  || String.eqb s StateTwoFactorSetup || String.eqb s StateAuthenticated.

Fixpoint allocate (attempts : nat) (m : Manager) (now : Z) (random : string)
    (state : State) (userID authVersion : Z) : res session_error (Session * Manager) :=
  match attempts with
  | O => Err ErrUnique
  | S attempts' =>
      match randomToken random with
      | None => Err ErrRandom
      | Some (id, random) =>
          match sessions m !! id with
          | Some _ => allocate attempts' m now random state userID authVersion
          | None =>
              match randomToken random with
              | None => Err ErrRandom
              | Some (csrf, _) =>
                  let session := {| ID := id; CSRFToken := csrf; SState := state; UserID := userID;
                                    AuthVersion := authVersion; CreatedAt := now; LastSeenAt := now |} in
                  Ok (session, with_sessions m (<[id := session]> (sessions m)))
              end
          end
      end
  end.

Definition createLocked (m : Manager) (now : Z) (random : string)
    (state : State) (userID authVersion : Z) : res session_error (Session * Manager) :=
  if negb (known_state state) then Err ErrState
  else if (String.eqb state StateAnonymous && (negb (userID =? 0) || negb (authVersion =? 0))) ||
          (negb (String.eqb state StateAnonymous) && ((userID <? 1) || (authVersion <? 1)))
  then Err ErrIdentity
  else allocate 4 m now random state userID authVersion.

(** ** Persistence *)

Definition to_persisted (s : Session) : persistedSession :=
  {| p_ID := ID s; p_CSRFToken := CSRFToken s; p_UserID := UserID s; p_AuthVersion := AuthVersion s;
     p_CreatedAt := CreatedAt s; p_LastSeenAt := LastSeenAt s |}.

Definition of_persisted (item : persistedSession) : Session :=
  {| ID := p_ID item; CSRFToken := p_CSRFToken item; SState := StateAuthenticated; UserID := p_UserID item;
     AuthVersion := p_AuthVersion item; CreatedAt := p_CreatedAt item; LastSeenAt := p_LastSeenAt item |}.

Definition item_le (a b : persistedSession) : Prop := str_le (p_ID a) (p_ID b).
#[global] Instance item_le_dec a b : Decision (item_le a b).
Proof. unfold item_le. apply _. Defined.

(** How the write of the temporary file, its rename and the directory sync ended. *)
Inductive persist_outcome := PersistOK | PersistFailedBeforeRename | PersistFailedAfterRename.

Definition persisted_items (m : Manager) (now : Z) : list persistedSession :=
  merge_sort item_le
    ((λ kv, to_persisted kv.2) <$>
       filter (λ kv, SState kv.2 = StateAuthenticated ∧ expired m now kv.2 = false)
         (map_to_list (sessions m))).

Definition persistLocked (m : Manager) (now : Z) (outcome : persist_outcome) : option session_error * Manager :=
  if String.eqb (persistencePath m) "" then (None, m)
  else
    let document := {| p_Version := persistenceVersion; p_Sessions := persisted_items m now |} in
    let written text last := {| sessions := sessions m; config := config m; persistencePath := persistencePath m;
                                lastPersistence := last; disk := FileText text |} in
    match encode document, outcome with
    | Some text, PersistOK => (None, written text now)
    | None, _ | _, PersistFailedBeforeRename => (Some ErrPersist, m)
    | Some text, PersistFailedAfterRename => (Some ErrPersist, written text (lastPersistence m))
    end.

Definition validToken (value : string) : bool :=
  match b64_decode URLAlphabet true value with
  | Some decoded => slen decoded =? 32
  | None => false
  end.

Definition validPersistentSession (s : Session) (now : Z) : bool :=
  validToken (ID s) && validToken (CSRFToken s) && (0 <? UserID s) && (0 <? AuthVersion s) &&
  negb (IsZero (CreatedAt s)) && negb (IsZero (LastSeenAt s)) && negb (LastSeenAt s <? CreatedAt s) &&
  negb (now + time_minute <? CreatedAt s) && negb (now + time_minute <? LastSeenAt s).

Fixpoint load_items (m : Manager) (now : Z) (items : list persistedSession) : res session_error Manager :=
  match items with
  | [] => Ok m
  | item :: items' =>
      let session := of_persisted item in
      if negb (validPersistentSession session now) then Err ErrRecord
      else match sessions m !! ID session with
           | Some _ => Err ErrDuplicate
           | None =>
               let m := if negb (expired m now session)
                        then with_sessions m (<[ID session := session]> (sessions m)) else m in
               load_items m now items'
           end
  end.

Definition loadPersistent (m : Manager) (now : Z) : res session_error Manager :=
  match disk m with
  | FileMissing => Ok m
  | FileUnsafe => Err ErrFileUnsafe
  | FileUnreadable => Err ErrOpen
  | FileText text =>
      if maximumFileSize <? slen text then Err ErrFileUnsafe
      else match decode text with
      | None => Err ErrFileInvalid
      | Some (stored, rest) =>
          if negb (p_Version stored =? persistenceVersion)
             || (MaximumSessions (config m) <? Z.of_nat (List.length (p_Sessions stored)))
          then Err ErrFileInvalid
          else if negb (ensureJSONEnd rest) then Err ErrTrailing
          else
            let! m := load_items m now (p_Sessions stored) in
            Ok {| sessions := sessions m; config := config m; persistencePath := persistencePath m;
                  lastPersistence := now; disk := disk m |}
      end
  end.
(** The records a start may read of a file. *)
Definition records (file : SessionFile) : list persistedSession :=
  match file with FileText text => match decode text with Some (stored, _) => p_Sessions stored | None => [] end | _ => [] end.

(** [Lstat] of the directory: a real directory, closed to group and others. *)
Record FileInfo := { IsDir : bool; IsSymlink : bool; Perm : Z }.

Definition NewPersistent (c : Config) (path : string) (directory : option FileInfo)
    (file : SessionFile) (now : Z) : res session_error Manager :=
  let! manager := New c file in
  if negb (has_prefix path "/") then Err ErrPath
  else match directory with
       | None => Err ErrDirectory
       | Some info =>
           if negb (IsDir info) || IsSymlink info || negb (Z.land (Perm info) 63 =? 0)
           then Err ErrDirectory
           else loadPersistent {| sessions := sessions manager; config := config manager;
                                  persistencePath := path; lastPersistence := lastPersistence manager;
                                  disk := disk manager |} now
       end.

(** ** The operations *)

Definition Create (m : Manager) (now : Z) (random : string) (outcome : persist_outcome)
    (state : State) (userID authVersion : Z) : res session_error Session * Manager :=
  let m := removeExpiredLocked m now in
  if MaximumSessions (config m) <=? Z.of_nat (size (sessions m)) then (Err ErrCapacity, m)
  else match createLocked m now random state userID authVersion with
       | Err e => (Err e, m)
       | Ok (session, m) =>
           if String.eqb state StateAuthenticated then
             match persistLocked m now outcome with
             | (Some e, m) => (Err e, with_sessions m (delete (ID session) (sessions m)))
             | (None, m) => (Ok session, m)
             end
           else (Ok session, m)
       end.

Definition restore (m : Manager) (id : string) (previous : option Session) : Manager :=
  match previous with
  | Some s => with_sessions m (<[id := s]> (sessions m))
  | None => m
  end.

Definition was_authenticated (previous : option Session) : bool :=
  match previous with Some s => String.eqb (SState s) StateAuthenticated | None => false end.

Definition Rotate (m : Manager) (now : Z) (random : string) (outcome : persist_outcome)
    (id : string) (state : State) (userID authVersion : Z) : res session_error Session * Manager :=
  let previous := sessions m !! id in
  let m := with_sessions m (delete id (sessions m)) in
  let m := removeExpiredLocked m now in
  if MaximumSessions (config m) <=? Z.of_nat (size (sessions m)) then (Err ErrCapacity, m)
  else match createLocked m now random state userID authVersion with
       | Err e => (Err e, restore m id previous)
       | Ok (session, m) =>
           if was_authenticated previous || String.eqb state StateAuthenticated then
             match persistLocked m now outcome with
             | (Some e, m) => (Err e, restore (with_sessions m (delete (ID session) (sessions m))) id previous)
             | (None, m) => (Ok session, m)
             end
           else (Ok session, m)
       end.

Definition touch (s : Session) (now : Z) : Session :=
  {| ID := ID s; CSRFToken := CSRFToken s; SState := SState s; UserID := UserID s;
     AuthVersion := AuthVersion s; CreatedAt := CreatedAt s; LastSeenAt := now |}.

Definition Get (m : Manager) (now : Z) (outcome : persist_outcome) (id : string) : option Session * Manager :=
  match sessions m !! id with
  | None => (None, with_sessions m (delete id (sessions m)))
  | Some session =>
      if expired m now session then (None, with_sessions m (delete id (sessions m)))
      else
        let session := touch session now in
        let m := with_sessions m (<[id := session]> (sessions m)) in
        let m := if String.eqb (SState session) StateAuthenticated
                    && negb (String.eqb (persistencePath m) "")
                    && (time_minute <=? time_sub (LastSeenAt session) (lastPersistence m))
                 then (persistLocked m now outcome).2 else m in
        (Some session, m)
  end.

Definition ValidateCSRF (m : Manager) (now : Z) (outcome : persist_outcome) (id token : string) : bool * Manager :=
  let '(found, m) := Get m now outcome id in
  match found with
  | None => (false, m)
  | Some session =>
      (match b64_decode URLAlphabet true (CSRFToken session), b64_decode URLAlphabet true token with
       | Some expected, Some actual =>
           (slen expected =? 32) && (slen actual =? 32) && String.eqb expected actual
       | _, _ => false
       end, m)
  end.

Definition Destroy (m : Manager) (now : Z) (outcome : persist_outcome) (id : string)
    : option session_error * Manager :=
  let previous := sessions m !! id in
  let m := with_sessions m (delete id (sessions m)) in
  if was_authenticated previous then
    match persistLocked m now outcome with
    | (Some e, m) => (Some e, restore m id previous)
    | (None, m) => (None, m)
    end
  else (None, m).

(** ** Cookies *)

Definition CookieName : string := "__Host-aegisadmin_session".

Inductive same_site := SameSiteDefault | SameSiteLax | SameSiteStrict | SameSiteNone.

Record HTTPCookie := {
  cookie_Name : string;
  cookie_Value : string;
  cookie_Path : string;
  cookie_Domain : string;
  cookie_Secure : bool;
  cookie_HttpOnly : bool;
  cookie_SameSite : same_site;
  cookie_MaxAge : Z;
  cookie_Expires : option Z;
}.

Definition Cookie (id : string) : HTTPCookie :=
  {| cookie_Name := CookieName; cookie_Value := id; cookie_Path := "/"; cookie_Domain := "";
     cookie_Secure := true; cookie_HttpOnly := true; cookie_SameSite := SameSiteStrict;
     cookie_MaxAge := 0; cookie_Expires := None |}.

Definition ExpiredCookie : HTTPCookie :=
  {| cookie_Name := CookieName; cookie_Value := ""; cookie_Path := "/"; cookie_Domain := "";
     cookie_Secure := true; cookie_HttpOnly := true; cookie_SameSite := SameSiteStrict;
     cookie_MaxAge := -1; cookie_Expires := Some (10^9) |}.

(** ** Allocation *)

(** The identity a session may have: a state of the list, and a user exactly when it
    is not anonymous. *)
Definition identity_ok (state : State) (userID authVersion : Z) : Prop :=
  known_state state = true ∧
  (if String.eqb state StateAnonymous then userID = 0 ∧ authVersion = 0
   else 1 ≤ userID ∧ 1 ≤ authVersion).

Definition session_ok (s : Session) : Prop :=
  identity_ok (SState s) (UserID s) (AuthVersion s) ∧
  validToken (ID s) = true ∧ validToken (CSRFToken s) = true.

#[global] Instance session_ok_dec s : Decision (session_ok s).
Proof. unfold session_ok, identity_ok. destruct (String.eqb _ _); apply _. Defined.

(** The session an allocation makes. *)
Definition fresh (now : Z) (state : State) (userID authVersion : Z) (s : Session) : Prop :=
  SState s = state ∧ UserID s = userID ∧ AuthVersion s = authVersion ∧
  CreatedAt s = now ∧ LastSeenAt s = now ∧ session_ok s.

Lemma stake_32 r : 32 ≤ slen r → slen (stake 32 r) = 32.
Proof. unfold slen. rewrite stake_length. lia. Qed.

Lemma randomToken_valid r id r' : randomToken r = Some (id, r') → validToken id = true.
Proof.
  unfold randomToken, validToken. destruct (Z.ltb_spec (slen r) 32); [done|]. intros [= <- _].
  rewrite b64_decode_encode. apply Z.eqb_eq, stake_32. lia.
Qed.

Lemma allocate_spec n m now r state u a s m' :
  allocate n m now r state u a = Ok (s, m') → identity_ok state u a →
  sessions m !! ID s = None ∧ m' = with_sessions m (<[ID s := s]> (sessions m)) ∧
  fresh now state u a s.
Proof.
  intros Ha Hi. revert r Ha. induction n as [|n IH]; intros r; cbn [allocate]; [done|].
  destruct (randomToken r) as [[id r1]|] eqn:E1; [|done].
  destruct (sessions m !! id) eqn:E2; [by apply IH|].
  destruct (randomToken r1) as [[csrf r2]|] eqn:E3; [|done].
  intros [= <- <-]. cbn [ID]. split_and!; [done..|].
  unfold fresh, session_ok. cbn [SState UserID AuthVersion CreatedAt LastSeenAt ID CSRFToken].
  split_and!; eauto using randomToken_valid.
Qed.

Lemma createLocked_spec m now r state u a s m' :
  createLocked m now r state u a = Ok (s, m') →
  sessions m !! ID s = None ∧ m' = with_sessions m (<[ID s := s]> (sessions m)) ∧
  fresh now state u a s.
Proof.
  unfold createLocked. destruct (known_state state) eqn:Hk; cbn [negb]; [|done].
  match goal with |- (if ?c then _ else _) = _ → _ => destruct c eqn:Hc end; [done|].
  intros Ha. apply allocate_spec in Ha; [done|]. split; [done|].
  destruct (String.eqb state StateAnonymous); cbn [negb andb orb] in Hc; bool_prop; lia.
Qed.

Lemma createLocked_error m now r state u a e :
  createLocked m now r state u a = Err e → e ≠ ErrCapacity.
Proof.
  unfold createLocked. destruct (negb _); [by intros [= <-]|].
  destruct (_ || _); [by intros [= <-]|].
  generalize 4%nat. intros n. revert r. induction n as [|n IH]; intros r; cbn [allocate]; [by intros [= <-]|].
  destruct (randomToken r) as [[id r1]|]; [|by intros [= <-]].
  destruct (sessions m !! id); [apply IH|].
  destruct (randomToken r1) as [[csrf r2]|]; [done|by intros [= <-]].
Qed.

Lemma persistLocked_fst m now o :
  (persistLocked m now o).1 = None ∨ (persistLocked m now o).1 = Some ErrPersist.
Proof. unfold persistLocked. case_match; [by left|]. cbv zeta. destruct (encode _), o; auto. Qed.

Lemma persistLocked_frame m now o :
  sessions (persistLocked m now o).2 = sessions m ∧ config (persistLocked m now o).2 = config m ∧
  persistencePath (persistLocked m now o).2 = persistencePath m.
Proof. unfold persistLocked. case_match; [done|]. cbv zeta. by destruct (encode _), o. Qed.

(** ** The invariant *)

Definition wf (m : Manager) : Prop :=
  1 ≤ MaximumSessions (config m) ∧
  Z.of_nat (size (sessions m)) ≤ MaximumSessions (config m) ∧
  map_Forall (λ id s, ID s = id ∧ session_ok s) (sessions m).

#[global] Instance wf_dec m : Decision (wf m).
Proof. unfold wf. apply _. Defined.

(** The unexpired sessions other than [id]. *)
Definition others (m : Manager) (now : Z) (id : string) : gmap string Session :=
  filter (λ kv, expired m now kv.2 = false) (delete id (sessions m)).

Lemma others_subseteq m now id : others m now id ⊆ delete id (sessions m).
Proof. apply map_filter_subseteq. Qed.

Lemma others_none m now id : others m now id !! id = None.
Proof. apply map_lookup_filter_None. left. apply lookup_delete_eq. Qed.

Lemma wf_submap m m' : wf m → config m' = config m → sessions m' ⊆ sessions m → wf m'.
Proof.
  intros (H1 & H2 & H3) Hc Hs. unfold wf. rewrite Hc. split_and!; [done| |].
  - pose proof (map_subseteq_size _ _ Hs). lia.
  - intros i s Hi. apply (H3 i). by apply (lookup_weaken _ _ _ _ Hi).
Qed.

Lemma wf_insert m s : wf m → Z.of_nat (size (sessions m)) < MaximumSessions (config m) →
  session_ok s → wf (with_sessions m (<[ID s := s]> (sessions m))).
Proof.
  intros (H1 & H2 & H3) Hlt Hs. unfold wf. cbn [sessions config with_sessions].
  split_and!; [done| |by apply map_Forall_insert_2].
  rewrite map_size_insert. case_match; unfold id; lia.
Qed.

Lemma wf_same m m' : wf m → config m' = config m → sessions m' = sessions m → wf m'.
Proof. intros Hw Hc Hs. apply (wf_submap m); [done..|by rewrite Hs]. Qed.

(** Every outcome of [Rotate], errors included. *)
Lemma Rotate_cases m now r o id state u a : wf m →
  config (Rotate m now r o id state u a).2 = config m ∧
  match (Rotate m now r o id state u a).1 with
  | Ok s => sessions (Rotate m now r o id state u a).2 = <[ID s := s]> (others m now id) ∧
            others m now id !! ID s = None ∧ fresh now state u a s ∧
            Z.of_nat (size (others m now id)) < MaximumSessions (config m)
  | Err e => sessions (Rotate m now r o id state u a).2 =
               match sessions m !! id with Some p => <[id := p]> (others m now id) | None => others m now id end ∧
             (e = ErrCapacity → sessions m !! id = None)
  end.
Proof.
  intros (Hmax & Hsize & _). unfold Rotate. cbv zeta.
  set (m1 := removeExpiredLocked _ now).
  assert (sessions m1 = others m now id) as Hm1 by done.
  assert (config m1 = config m) as Hc1 by done. clearbody m1. rewrite Hc1, Hm1.
  destruct (Z.leb_spec (MaximumSessions (config m)) (Z.of_nat (size (others m now id)))) as [Hfull|Hroom].
  { cbn [fst snd]. rewrite Hm1, Hc1. split; [done|].
    assert (sessions m !! id = None) as ->; [|done].
    destruct (sessions m !! id) as [p|] eqn:Hp; [|done].
    pose proof (map_subseteq_size _ _ (others_subseteq m now id)) as Hle.
    rewrite map_size_delete_Some in Hle by (rewrite Hp; eauto).
    assert (size (sessions m) ≠ 0)%nat by (intros E%map_size_empty_inv; by rewrite E in Hp). lia. }
  destruct (createLocked m1 now r state u a) as [[s m2]|e] eqn:Hcr.
  - apply createLocked_spec in Hcr as (Hnone & -> & Hf). rewrite Hm1 in Hnone.
    set (m2 := with_sessions m1 _).
    assert (sessions m2 = <[ID s := s]> (others m now id)) as Hm2 by (by rewrite <- Hm1).
    destruct (was_authenticated (sessions m !! id) || String.eqb state StateAuthenticated).
    2:{ cbn [fst snd]. by rewrite Hm2. }
    pose proof (persistLocked_frame m2 now o) as (Hs3 & Hc3 & _).
    pose proof (persistLocked_fst m2 now o) as Hfst.
    destruct (persistLocked m2 now o) as [[e|] m3]; cbn [fst snd] in *.
    + unfold restore. destruct (sessions m !! id) as [p|] eqn:Hp; cbn [sessions config with_sessions];
        rewrite Hs3, Hm2, delete_insert_id by done; (split; [by rewrite Hc3|]); naive_solver.
    + by rewrite Hs3, Hm2, Hc3.
  - apply createLocked_error in Hcr. cbn [fst snd]. unfold restore.
    destruct (sessions m !! id) as [p|]; cbn [sessions config with_sessions]; by rewrite Hm1.
Qed.

Lemma with_sessions_id m : with_sessions m (sessions m) = m.
Proof. by destruct m. Qed.

(** Creation is rotation from an absent identifier. *)
Lemma Create_Rotate m now r o id state u a : sessions m !! id = None →
  Create m now r o state u a = Rotate m now r o id state u a.
Proof.
  intros Hid. unfold Create, Rotate. cbv zeta. rewrite Hid, delete_id, with_sessions_id by done.
  done.
Qed.

Lemma empty_not_token : validToken "" = false.
Proof. vm_compute. reflexivity. Qed.

Lemma wf_empty_key m : wf m → sessions m !! "" = None.
Proof.
  intros (_ & _ & Hw). destruct (sessions m !! "") as [s|] eqn:E; [|done].
  destruct (Hw _ _ E) as [Hid (_ & Ht & _)]. rewrite Hid in Ht. by rewrite empty_not_token in Ht.
Qed.

Lemma Rotate_wf m now r o id state u a : wf m → wf (Rotate m now r o id state u a).2.
Proof.
  intros Hw. pose proof (Rotate_cases m now r o id state u a Hw) as [Hc H].
  destruct (Rotate m now r o id state u a) as [[s|e] m']; cbn [fst snd] in *.
  - destruct H as (Hs & Hn & (_ & _ & _ & _ & _ & Hok) & Hroom).
    assert (wf (with_sessions m (others m now id))) as Hw'.
    { apply (wf_submap m); [done..|]. cbn. etrans; [apply others_subseteq|apply delete_subseteq]. }
    apply (wf_same (with_sessions m (<[ID s := s]> (others m now id)))); [|done..].
    by apply (wf_insert (with_sessions m (others m now id))).
  - destruct H as [Hs _]. apply (wf_submap m); [done..|]. rewrite Hs.
    pose proof (others_subseteq m now id) as Hsub. destruct (sessions m !! id) as [p|] eqn:Hp.
    + rewrite <- (insert_delete_id _ _ _ Hp) at 1. by apply insert_mono.
    + etrans; [done|]. apply delete_subseteq.
Qed.

Lemma Get_cases m now o id :
  config (Get m now o id).2 = config m ∧
  match sessions m !! id with
  | Some s => if expired m now s
              then (Get m now o id).1 = None ∧ sessions (Get m now o id).2 = delete id (sessions m)
              else (Get m now o id).1 = Some (touch s now) ∧
                   sessions (Get m now o id).2 = <[id := touch s now]> (sessions m)
  | None => (Get m now o id).1 = None ∧ sessions (Get m now o id).2 = sessions m
  end.
Proof.
  unfold Get. destruct (sessions m !! id) as [s|] eqn:E.
  2:{ cbn [fst snd sessions with_sessions]. by rewrite delete_id. }
  destruct (expired m now s); [done|]. cbv zeta. cbn [fst snd].
  match goal with |- context [if ?c then _ else _] => destruct c end; [|done].
  match goal with |- context [persistLocked ?m2 _ _] =>
    destruct (persistLocked_frame m2 now o) as (-> & -> & _) end. done.
Qed.

Lemma touch_ok s now : session_ok s → session_ok (touch s now).
Proof. done. Qed.

Lemma Get_wf m now o id : wf m → wf (Get m now o id).2.
Proof.
  intros Hw. destruct (Get_cases m now o id) as [Hc H].
  destruct (sessions m !! id) as [s|] eqn:E; [|by apply (wf_same m); [..|apply H]].
  destruct (expired m now s); destruct H as [_ Hs].
  - apply (wf_submap m); [done..|]. rewrite Hs. apply delete_subseteq.
  - destruct Hw as (H1 & H2 & H3). unfold wf. rewrite Hc, Hs. split_and!; [done| |].
    + by rewrite map_size_insert_Some by (rewrite E; eauto).
    + apply map_Forall_insert_2; [|done]. apply (H3 id s E).
Qed.

Lemma Destroy_cases m now o id :
  config (Destroy m now o id).2 = config m ∧
  match (Destroy m now o id).1 with
  | None => sessions (Destroy m now o id).2 = delete id (sessions m)
  | Some _ => sessions (Destroy m now o id).2 = sessions m ∧ is_Some (sessions m !! id)
  end.
Proof.
  unfold Destroy. cbv zeta. destruct (was_authenticated (sessions m !! id)) eqn:Hp; [|done].
  set (m1 := with_sessions m _).
  destruct (persistLocked_frame m1 now o) as (Hs & Hc & _).
  destruct (persistLocked m1 now o) as [[e|] m2]; cbn [fst snd] in *; [|by rewrite Hs, Hc].
  unfold restore. destruct (sessions m !! id) as [p|] eqn:E; [|done].
  cbn [sessions config with_sessions]. rewrite Hs, Hc. cbn.
  rewrite insert_delete_id by done. by eauto.
Qed.

Lemma Destroy_wf m now o id : wf m → wf (Destroy m now o id).2.
Proof.
  intros Hw. destruct (Destroy_cases m now o id) as [Hc H].
  apply (wf_submap m); [done..|].
  destruct (Destroy m now o id).1; [destruct H as [-> _]; done|rewrite H; apply delete_subseteq].
Qed.

(** ** The life of a manager *)

Inductive manager_step (m : Manager) : Manager → Prop :=
| step_Create now r o state u a : manager_step m (Create m now r o state u a).2
| step_Rotate now r o id state u a : manager_step m (Rotate m now r o id state u a).2
| step_Get now o id : manager_step m (Get m now o id).2
| step_ValidateCSRF now o id token : manager_step m (ValidateCSRF m now o id token).2
| step_Destroy now o id : manager_step m (Destroy m now o id).2.

Inductive manager_reachable : Manager → Prop :=
| reach_New c file m : New c file = Ok m → manager_reachable m
| reach_NewPersistent c path dir file now m :
    NewPersistent c path dir file now = Ok m → manager_reachable m
| reach_step m m' : manager_reachable m → manager_step m m' → manager_reachable m'.

Lemma New_wf c file m : New c file = Ok m → wf m ∧ sessions m = ∅ ∧ config m = c ∧ disk m = file.
Proof.
  unfold New. match goal with |- (if ?b then _ else _) = _ → _ => destruct b eqn:Hb end; [done|].
  intros [= <-]. bool_prop. split; [|done]. unfold wf. cbn. split_and!; [lia|rewrite map_size_empty; lia|].
  apply map_Forall_empty.
Qed.

Lemma valid_of_persisted item now : validPersistentSession (of_persisted item) now = true →
  session_ok (of_persisted item).
Proof.
  unfold validPersistentSession, session_ok, identity_ok. intros Hv. bool_prop.
  cbn [of_persisted SState]. split_and!; [vm_compute; reflexivity| |done..]. cbn in *. lia.
Qed.

Lemma load_items_keeps items m now m' : load_items m now items = Ok m' →
  config m' = config m ∧
  (size (sessions m') ≤ size (sessions m) + List.length items)%nat ∧
  ∀ id s, sessions m' !! id = Some s →
    sessions m !! id = Some s ∨
    (∃ item, item ∈ items ∧ s = of_persisted item ∧ id = ID s ∧ session_ok s ∧ expired m now s = false).
Proof.
  revert m. induction items as [|item items IH]; intros m; cbn [load_items].
  { intros [= <-]. split_and!; [done|lia|by left]. }
  cbv zeta. destruct (validPersistentSession (of_persisted item) now) eqn:Hv; cbn [negb]; [|done].
  apply valid_of_persisted in Hv. set (s0 := of_persisted item) in *.
  destruct (sessions m !! ID s0) eqn:Hd; [done|].
  destruct (expired m now s0) eqn:He; cbn [negb]; intros (Hc & Hsz & Hs)%IH.
  - split_and!; [done|cbn [List.length]; lia|]. intros id s H. destruct (Hs id s H) as [?|(it & ? & ?)]; [by left|].
    right. exists it. rewrite elem_of_cons. naive_solver.
  - split_and!; [done| |].
    + cbn [List.length]. cbn [sessions with_sessions] in Hsz.
      rewrite map_size_insert_None in Hsz by done. lia.
    + intros id s H. destruct (Hs id s H) as [Hl|(it & Hi & ?)].
      * cbn [sessions with_sessions] in Hl. apply lookup_insert_Some in Hl as [[<- <-]|[_ ?]]; [|by left].
        right. exists item. rewrite elem_of_cons. by split_and!; [left|..].
      * right. exists it. rewrite elem_of_cons. naive_solver.
Qed.

(** A start that succeeds: from no file, or from the records of a text that is decoded. *)
Lemma loadPersistent_Ok m now m' : loadPersistent m now = Ok m' →
  m' = m ∨ ∃ m2, load_items m now (records (disk m)) = Ok m2 ∧ sessions m' = sessions m2 ∧ config m' = config m2 ∧ disk m' = disk m2 ∧
    Z.of_nat (List.length (records (disk m))) ≤ MaximumSessions (config m).
Proof.
  unfold loadPersistent, records. destruct (disk m) as [| | |text]; [intros [= <-]; by left|done|done|].
  destruct (_ <? _); [done|]. destruct (decode text) as [[stored rest]|]; [|done].
  destruct (negb _ || _) eqn:Hb; [done|]. destruct (negb (ensureJSONEnd rest)); [done|]. intros (m2 & Hl & [= <-])%res_bind_Ok. right. exists m2.
  bool_prop. by split_and!.
Qed.
Lemma NewPersistent_wf c path dir file now m : NewPersistent c path dir file now = Ok m → wf m.
Proof.
  unfold NewPersistent. intros (m0 & Hn & H)%res_bind_Ok.
  apply New_wf in Hn as (Hw & Hs & Hc & Hd).
  destruct (negb _); [done|]. destruct dir as [info|]; [|done]. destruct (_ || _); [done|].
  set (m1 := {| sessions := _ |}) in H. assert (wf m1) as Hw1 by by apply (wf_same m0).
  apply loadPersistent_Ok in H as [->|(m2 & Hl & Es & Ec & _ & Hmax)]; [done|].
  apply load_items_keeps in Hl as (Hc2 & Hsz & Hl).
  destruct Hw1 as (H1 & H2 & H3). unfold wf. rewrite Ec, Es, Hc2. split_and!; [done| |].
  - cbn in Hsz. rewrite Hs, map_size_empty in Hsz. cbn in *. lia.
  - intros id s Hin. destruct (Hl id s Hin) as [?|(it & _ & -> & -> & ? & _)]; [by apply H3|done].
Qed.

(** C11: invariant: in every state a manager reaches from its start, from an empty map or
    from the file of a previous run, through any sequence of operations, with any clock,
    any random source and any failure of the file: the number of sessions is within the
    capacity, the key of an entry is the session's identifier, identifiers and CSRF
    tokens are base64url of thirty-two bytes, canonical but for line ends a file the program
    did not write may have in them, and a session has a user and an authentication version
    exactly when it is not anonymous. *)
Theorem manager_invariant m : manager_reachable m → wf m.
Proof.
  induction 1 as [c file m Hn|c path dir file now m Hn|m m' _ IH Hs].
  - by apply New_wf in Hn as [? _].
  - by apply NewPersistent_wf in Hn.
  - destruct Hs.
    + rewrite (Create_Rotate _ _ _ _ "") by (by apply wf_empty_key). by apply Rotate_wf.
    + by apply Rotate_wf.
    + by apply Get_wf.
    + pose proof (Get_wf m now o id IH). unfold ValidateCSRF.
      destruct (Get m now o id) as [[s|] m2]; done.
    + by apply Destroy_wf.
Qed.

(** ** What the operations do *)

Definition live (m : Manager) (now : Z) (id : string) : option Session :=
  match sessions m !! id with
  | Some s => if expired m now s then None else Some s
  | None => None
  end.

Lemma others_lookup m now id k : k ≠ id → others m now id !! k = live m now k.
Proof.
  intros Hk. unfold others, live. destruct (sessions m !! k) as [s|] eqn:E.
  - destruct (expired m now s) eqn:He.
    + apply map_lookup_filter_None. right. intros s'. rewrite lookup_delete_ne, E by done.
      intros [= <-]. cbn. by rewrite He.
    + apply map_lookup_filter_Some. by rewrite lookup_delete_ne, E by done.
  - apply map_lookup_filter_None. left. by rewrite lookup_delete_ne.
Qed.

(** Rotation: on success the new session carries the requested identity, the old
    identifier no longer names a session (unless the random source drew it again) and
    every other live session stays; on any error, capacity, random source, identity or
    file, no new session exists, the old one is still there and so is every other live
    one; and a client that holds a session is never refused for capacity. *)
Theorem Rotate_spec m now r o id state u a : wf m →
  match Rotate m now r o id state u a with
  | (Ok s, m') =>
      fresh now state u a s ∧ sessions m' !! ID s = Some s ∧
      (id ≠ ID s → sessions m' !! id = None) ∧
      (∀ k, k ≠ id → k ≠ ID s → sessions m' !! k = live m now k) ∧
      (ID s ≠ id → live m now (ID s) = None)
  | (Err e, m') =>
      sessions m' !! id = sessions m !! id ∧
      (∀ k, k ≠ id → sessions m' !! k = live m now k) ∧
      (e = ErrCapacity → sessions m !! id = None)
  end.
Proof.
  intros Hw. destruct (Rotate_cases m now r o id state u a Hw) as [_ H].
  destruct (Rotate m now r o id state u a) as [[s|e] m']; cbn [fst snd] in *.
  - destruct H as (-> & Hn & Hf & _). split_and!; [done|by rewrite lookup_insert_eq| | |].
    + intros Hne. rewrite lookup_insert_ne by done. apply others_none.
    + intros k Hk Hk'. rewrite lookup_insert_ne by done. by apply others_lookup.
    + intros Hne. by rewrite <- (others_lookup m now id).
  - destruct H as [-> Hcap]. destruct (sessions m !! id) as [p|] eqn:Hp.
    + split_and!; [by rewrite lookup_insert_eq| |naive_solver].
      intros k Hk. rewrite lookup_insert_ne by done. by apply others_lookup.
    + split_and!; [apply others_none| |done]. intros k Hk. by apply others_lookup.
Qed.

Lemma Get_live m now o id : (Get m now o id).1 = (λ s, touch s now) <$> live m now id.
Proof.
  destruct (Get_cases m now o id) as [_ H]. unfold live.
  destruct (sessions m !! id) as [s|]; [destruct (expired m now s)|]; by destruct H as [-> _].
Qed.

(** Timeouts: a session is handed out exactly when it is in the map, is not older than
    the absolute limit of its kind (eight hours once authenticated, five minutes for the
    steps before, by default) and was seen within the idle limit; it is then seen now and
    nothing else of it changes; otherwise its entry is gone, so that asking again later,
    even with an earlier clock, finds nothing. *)
Theorem Get_spec m now o id :
  match Get m now o id with
  | (Some s, m') =>
      ∃ s0, sessions m !! id = Some s0 ∧ s = touch s0 now ∧ sessions m' = <[id := s]> (sessions m) ∧
        time_sub now (LastSeenAt s0) ≤ IdleTimeout (config m) ∧
        time_sub now (CreatedAt s0) ≤
          (if decide (SState s0 = StateAuthenticated) then AbsoluteTimeout (config m)
           else PendingTimeout (config m))
  | (None, m') =>
      live m now id = None ∧ sessions m' = delete id (sessions m) ∧
      (∀ now' o', (Get m' now' o' id).1 = None)
  end.
Proof.
  destruct (Get_cases m now o id) as [_ H]. pose proof (Get_live m now o id) as Hl.
  destruct (Get m now o id) as [[s|] m']; cbn [fst snd] in *.
  - unfold live in Hl. destruct (sessions m !! id) as [s0|]; [|done].
    destruct (expired m now s0) eqn:He; [done|]. exists s0. destruct H as [[= ->] ->].
    split_and!; [done..| |]; unfold expired in He; bool_prop; [done|].
    case_decide as Hs; [rewrite Hs in *; cbn in *; lia|].
    apply String.eqb_neq in Hs. rewrite Hs in *. cbn in *. lia.
  - symmetry in Hl. apply fmap_None in Hl. split_and!; [done| |].
    + destruct (sessions m !! id) as [s|] eqn:E; [|by rewrite delete_id; [apply H|]].
      destruct (expired m now s); by destruct H as [? ?].
    + intros now' o'. rewrite Get_live. apply fmap_None. unfold live.
      assert (sessions m' !! id = None) as ->; [|done].
      destruct (sessions m !! id) as [s|] eqn:E; [destruct (expired m now s)|]; destruct H as [? ->];
        [apply lookup_delete_eq|done|done].
Qed.

Lemma validToken_decode t : validToken t = true →
  ∃ v, b64_decode URLAlphabet true t = Some v ∧ slen v = 32.
Proof. unfold validToken. destruct (b64_decode _ _ _) as [v|]; [|done]. intros ?%Z.eqb_eq. eauto. Qed.

Lemma ValidateCSRF_true m now o id token : wf m →
  (ValidateCSRF m now o id token).1 = true ↔
  ∃ s, live m now id = Some s ∧ sfilter not_newline token = sfilter not_newline (CSRFToken s).
Proof.
  intros (_ & _ & Hw). unfold ValidateCSRF. pose proof (Get_live m now o id) as Hl.
  destruct (Get m now o id) as [found m']; cbn [fst] in Hl. subst found.
  destruct (live m now id) as [s|] eqn:El; cbn [fmap option_fmap option_map].
  2:{ split; [done|]. by intros (? & ? & _). }
  assert (session_ok s) as (_ & _ & Ht).
  { unfold live in El. destruct (sessions m !! id) as [s0|] eqn:E; [|done].
    destruct (expired m now s0); [done|]. injection El as ->. by apply (Hw id). }
  cbn [fst]. destruct (validToken_decode _ Ht) as (v & Hv & Hlen). change (CSRFToken (touch s now)) with (CSRFToken s). rewrite Hv, Hlen.
  pose proof (b64_decode_strict_canonical _ _ _ Hv) as Hc.
  split.
  - destruct (b64_decode URLAlphabet true token) as [v'|] eqn:Hv'; [|done]. intros Hb. bool_prop. subst v'.
    exists s. split; [done|]. rewrite Hc. by apply b64_decode_strict_canonical.
  - intros (s' & [= <-] & Heq).
    assert (b64_decode URLAlphabet true token = Some v) as ->.
    { rewrite <- Hv. unfold b64_decode. by rewrite Heq. }
    by rewrite Hlen, String.eqb_refl.
Qed.

(** CSRF: a token validates exactly when the session is live and the token is, line
    ends apart, the one drawn for it: no other spelling of the same bytes passes. *)
Theorem ValidateCSRF_spec m now o id token : wf m →
  (ValidateCSRF m now o id token).1 = true ↔
  ∃ s, live m now id = Some s ∧ sfilter not_newline token = sfilter not_newline (CSRFToken s).
Proof. apply ValidateCSRF_true. Qed.

(** ** Persistence round trip *)

#[local] Instance item_le_total : Total item_le.
Proof. intros a b. unfold item_le. apply (total str_le). Qed.
#[local] Instance item_le_trans : Transitive item_le.
Proof. intros a b c. unfold item_le. apply transitivity. Qed.

Lemma of_to_persisted s : SState s = StateAuthenticated → of_persisted (to_persisted s) = s.
Proof. destruct s. cbn. by intros ->. Qed.

Definition kept (m : Manager) (now : Z) (s : Session) : Prop :=
  SState s = StateAuthenticated ∧ expired m now s = false.

Lemma elem_of_persisted_items m now item :
  item ∈ persisted_items m now ↔
  ∃ id s, sessions m !! id = Some s ∧ kept m now s ∧ item = to_persisted s.
Proof.
  unfold persisted_items. rewrite merge_sort_Permutation, list_elem_of_fmap. split.
  - intros ([id s] & -> & [Hk Hin]%list_elem_of_filter). exists id, s.
    by apply elem_of_map_to_list in Hin.
  - intros (id & s & Hs & Hk & ->). exists (id, s). split; [done|].
    apply list_elem_of_filter. split; [done|]. by apply elem_of_map_to_list.
Qed.

Lemma persisted_items_ids m now : wf m → NoDup (p_ID <$> persisted_items m now).
Proof.
  intros (_ & _ & Hw). unfold persisted_items. rewrite merge_sort_Permutation, <- list_fmap_compose.
  pose proof (NoDup_fst_map_to_list (sessions m)) as Hnd.
  assert (∀ kv, kv ∈ map_to_list (sessions m) → ID kv.2 = kv.1) as Hk.
  { intros [k v] Hin%elem_of_map_to_list. by apply (Hw k). }
  revert Hnd Hk. induction (map_to_list (sessions m)) as [|kv l IH]; cbn [fmap list_fmap]; intros Hnd Hk; [done|].
  apply NoDup_cons in Hnd as [Hni Hnd].
  assert (NoDup (p_ID ∘ (λ kv, to_persisted kv.2) <$>
    filter (λ kv, SState kv.2 = StateAuthenticated ∧ expired m now kv.2 = false) l)) as IH'.
  { apply IH; [done|]. intros kv' Hin. apply Hk. by right. }
  rewrite filter_cons. case_decide; [|done]. cbn [fmap list_fmap]. apply NoDup_cons. split; [|done].
  intros ([k v] & Heq & [_ Hin]%list_elem_of_filter)%list_elem_of_fmap. apply Hni.
  cbn in Heq. rewrite (Hk kv (list_elem_of_here _ _)) in Heq; pose proof (Hk (k, v) (list_elem_of_further _ _ _ Hin)) as Hkv; cbn in Hkv; rewrite Hkv in Heq; rewrite Heq.
  apply list_elem_of_fmap. by exists (k, v).
Qed.

Lemma persisted_items_length m now :
  (List.length (persisted_items m now) ≤ size (sessions m))%nat.
Proof.
  unfold persisted_items. rewrite merge_sort_Permutation, length_fmap.
  etrans; [apply length_filter|]. by rewrite length_map_to_list.
Qed.

(** Loading distinct, valid records keeps exactly the unexpired ones. *)
Lemma load_items_Ok items m now :
  Forall (λ item, validPersistentSession (of_persisted item) now = true) items →
  NoDup (p_ID <$> items) → (∀ item, item ∈ items → sessions m !! p_ID item = None) →
  ∃ m', load_items m now items = Ok m' ∧ config m' = config m ∧
    ∀ id s, sessions m' !! id = Some s ↔
      sessions m !! id = Some s ∨
      ∃ item, item ∈ items ∧ s = of_persisted item ∧ id = p_ID item ∧ expired m now s = false.
Proof.
  revert m. induction items as [|item items IH]; intros m; cbn [load_items fmap list_fmap].
  { intros _ _ _. exists m. split_and!; [done..|]. intros id s. split; [by left|].
    intros [?|(? & ?%elem_of_nil & _)]; done. }
  intros [Hv Hvs]%Forall_cons [Hni Hnd]%NoDup_cons Hfree. cbv zeta. rewrite Hv. cbn [negb].
  assert (sessions m !! ID (of_persisted item) = None) as Hid by (apply Hfree; by left).
  rewrite Hid. set (s0 := of_persisted item) in *.
  assert (∀ it, it ∈ items → p_ID it ≠ ID s0) as Hne.
  { intros it Hin Heq. apply Hni. apply list_elem_of_fmap. by exists it. }
  destruct (expired m now s0) eqn:He; cbn [negb].
  - destruct (IH m Hvs Hnd) as (m' & Hl & Hc & Hs); [intros it Hin; apply Hfree; by right|].
    exists m'. split_and!; [done..|]. intros id s. rewrite Hs. split.
    + intros [?|(it & ? & ?)]; [by left|right]. exists it. rewrite elem_of_cons. naive_solver.
    + intros [?|(it & [->|?]%elem_of_cons & -> & -> & Hx)]; [by left| |right; by exists it].
      subst s0. congruence.
  - destruct (IH (with_sessions m (<[ID s0 := s0]> (sessions m))) Hvs Hnd) as (m' & Hl & Hc & Hs).
    { intros it Hin. cbn [sessions with_sessions]. rewrite lookup_insert_ne by (symmetry; by apply Hne).
      apply Hfree. by right. }
    exists m'. split_and!; [done..|]. intros id s. rewrite Hs. cbn [sessions with_sessions].
    rewrite lookup_insert_Some. split.
    + intros [[[<- <-]|[_ ?]]|(it & ? & ?)]; [|by left|].
      * right. exists item. rewrite elem_of_cons. by split_and!; [left|..].
      * right. exists it. rewrite elem_of_cons. naive_solver.
    + intros [Hm|(it & [->|Hin]%elem_of_cons & -> & -> & Hx)].
      * left. right. split; [|done]. intros <-. by rewrite Hid in Hm.
      * left. by left.
      * right. by exists it.
Qed.

(** The sessions of a program: users and versions fit in 64 bits, and each was last seen after it was created, both in
    a year of four digits. *)
Definition typed (s : Session) : Prop :=
  (int_min ≤ UserID s ≤ int_max) ∧ (int_min ≤ AuthVersion s ≤ int_max) ∧
  zero_time < CreatedAt s ≤ LastSeenAt s ∧ year_ok (CreatedAt s) = true ∧ year_ok (LastSeenAt s) = true.
#[global] Instance typed_dec s : Decision (typed s).
Proof. unfold typed. apply _. Defined.
(** The clock, at [now], is not more than a minute before a session was last seen. *)
Definition clock_ok (m : Manager) (now : Z) : Prop := map_Forall (λ _ s, LastSeenAt s ≤ now + time_minute) (sessions m).
#[global] Instance clock_ok_dec m now : Decision (clock_ok m now).
Proof. unfold clock_ok. apply _. Defined.

Lemma kept_valid m now now2 id s : wf m → map_Forall (λ _, typed) (sessions m) → clock_ok m now2 →
  sessions m !! id = Some s → kept m now s → validPersistentSession s now2 = true.
Proof.
  intros (_ & _ & Hw) Hd Hle Hs [Ha _]. destruct (Hw _ _ Hs) as [_ ((_ & Hi) & Ht & Hc)].
  destruct (Hd _ _ Hs) as (_ & _ & Hd1 & _). specialize (Hle _ _ Hs). cbn in Hle. rewrite Ha in Hi. cbn in Hi.
  unfold validPersistentSession, IsZero. rewrite Ht, Hc. cbn [andb].
  repeat (apply andb_true_intro; split);
    rewrite ?negb_true_iff, ?Z.ltb_ge, ?Z.ltb_lt, ?Z.eqb_neq; unfold time_minute in *; lia.
Qed.
Lemma b64url_ascii c : is_b64url c = true → is_ascii_byte c = true.
Proof. destruct c as [[] [] [] [] [] [] [] []]; by vm_compute. Qed.
(** A token is text the encoder keeps. *)
Lemma validToken_text t : validToken t = true → JsonParse.to_text t = t.
Proof.
  intros (v & Hv & _)%validToken_decode. apply b64_decode_strict_canonical in Hv. apply JsonParse.to_text_ascii.
  pose proof (b64_encode_url v) as Hu. rewrite <- Hv in Hu. clear Hv v.
  induction t as [|c t IH]; [done|]. cbn [sfilter sforall] in *. unfold not_newline in *. destruct (negb (Ascii.eqb c nl || Ascii.eqb c cr)) eqn:Hc.
  - cbn [sforall] in Hu. apply andb_prop in Hu as [Hb Hu]. rewrite (IH Hu), andb_true_r. by apply b64url_ascii.
  - rewrite (IH Hu), andb_true_r. apply negb_false_iff, orb_prop in Hc as [Hc|Hc]; apply Ascii.eqb_eq in Hc as ->; by vm_compute.
Qed.
Lemma persisted_written m now : wf m → map_Forall (λ _, typed) (sessions m) →
  ∃ text, encode (mkDocument persistenceVersion (persisted_items m now)) = Some text ∧
    decode text = Some (mkDocument persistenceVersion (persisted_items m now), snl).
Proof.
  intros (_ & _ & Hw) Ht.
  assert (∃ text, encode (mkDocument persistenceVersion (persisted_items m now)) = Some text) as [text Htext].
  { unfold encode. cbn [p_Sessions]. rewrite (proj2 (forallb_forall _ _)); [by eexists|].
    intros it (id & s & Hs & Hk & ->)%list_elem_of_In%elem_of_persisted_items. destruct (Ht _ _ Hs) as (_ & _ & _ & Hc & Hl). cbn. by rewrite Hc, Hl. }
  exists text. split; [done|]. apply (decode_encode _ _ Htext); [by vm_compute| |].
  - apply Forall_forall. intros it (id & s & Hs & Hk & ->)%elem_of_persisted_items. destruct (Ht _ _ Hs) as (? & ? & _). by split.
  - apply Forall_forall. intros it (id & s & Hs & Hk & ->)%elem_of_persisted_items. destruct (Hw _ _ Hs) as (_ & _ & Hi & Hc).
    unfold read_back, to_persisted. cbn. by rewrite !validToken_text.
Qed.

(** C39: restart: after a write that succeeded, the file holds a text of JSON, and a new manager
    with the same configuration opens it, when its text is at most 16 MiB, and holds, under
    the same identifiers and with the same tokens, users, versions and dates to the
    nanosecond, exactly the authenticated sessions that had not expired when the file was
    written and have not expired since; no pending session comes back.  A longer text is
    refused as unsafe.  It is assumed that users and versions fit in 64 bits, that each session
    was last seen at or after its creation, in years of four digits, and that the clock of the
    new manager is at most a minute behind the time a session was last seen: a clock set
    back further makes it refuse the file. *)
Theorem persist_load_roundtrip m now m' now2 dir :
  wf m → map_Forall (λ _, typed) (sessions m) → clock_ok m now2 →
  0 < IdleTimeout (config m) → 0 < AbsoluteTimeout (config m) → 0 < PendingTimeout (config m) →
  has_prefix (persistencePath m) "/" = true →
  IsDir dir = true → IsSymlink dir = false → Z.land (Perm dir) 63 = 0 →
  persistLocked m now PersistOK = (None, m') →
  ∃ text, disk m' = FileText text ∧
    if maximumFileSize <? slen text
    then NewPersistent (config m) (persistencePath m) (Some dir) (FileText text) now2 = Err ErrFileUnsafe
    else ∃ m2, NewPersistent (config m) (persistencePath m) (Some dir) (FileText text) now2 = Ok m2 ∧
      ∀ id s, sessions m2 !! id = Some s ↔
        sessions m !! id = Some s ∧ kept m now s ∧ expired m now2 s = false.
Proof.
  intros Hw Hd Hle Hi Ha Hp Hpath Hdir Hsym Hperm Hpl. destruct (persisted_written m now Hw Hd) as (text & He & Hdec).
  exists text. split.
  { unfold persistLocked in Hpl. destruct (String.eqb_spec (persistencePath m) "") as [E|_]; [by rewrite E in Hpath|].
    change {| p_Version := persistenceVersion; p_Sessions := persisted_items m now |} with (mkDocument persistenceVersion (persisted_items m now)) in Hpl.
    rewrite He in Hpl. by injection Hpl as <-. }
  pose proof Hw as (Hmax & Hsize & Hall). unfold NewPersistent, New.
  rewrite (proj2 (Z.leb_gt _ 0) Hi), (proj2 (Z.leb_gt _ 0) Ha), (proj2 (Z.leb_gt _ 0) Hp), (proj2 (Z.ltb_ge _ 1)) by lia.
  cbn [orb res_bind]. rewrite Hpath, Hdir, Hsym, Hperm. cbn [negb orb Z.eqb]. unfold loadPersistent. cbn [disk config].
  destruct (maximumFileSize <? slen text); [done|]. rewrite Hdec. cbn [p_Version p_Sessions].
  pose proof (persisted_items_length m now). rewrite (proj2 (Z.ltb_ge _ (Z.of_nat _))) by lia. change (ensureJSONEnd snl) with true. cbn [Z.eqb negb orb].
  rewrite Z.eqb_refl. cbn [negb orb].
  match goal with |- context [load_items ?mm _ _] => set (m1 := mm) end.
  destruct (load_items_Ok (persisted_items m now) m1 now2) as (m2 & -> & Hc & Hs).
  { apply Forall_forall. intros it (id & s & Hs & Hk & ->)%elem_of_persisted_items.
    rewrite of_to_persisted by apply Hk. by apply (kept_valid m now now2 id). }
  { by apply persisted_items_ids. }
  { intros. apply lookup_empty. }
  cbn [res_bind]. eexists. split; [done|]. cbn [sessions]. intros id s. rewrite Hs. split.
  - intros [H0|(it & (id' & s' & Hs' & Hk & ->)%elem_of_persisted_items & -> & -> & Hx)].
    { change (sessions m1) with (∅ : gmap string Session) in H0. by apply lookup_empty_Some in H0. }
    rewrite of_to_persisted in * by apply Hk. cbn [p_ID to_persisted].
    by destruct (Hall _ _ Hs') as [-> _].
  - intros (Hs' & Hk & Hx). right. exists (to_persisted s). rewrite elem_of_persisted_items.
    split_and!; [by exists id, s|by rewrite of_to_persisted by apply Hk| |done].
    by destruct (Hall _ _ Hs') as [<- _].
Qed.

(** ** Identities *)

(** What the rest of the program reads in a session: its state and the account it is for. *)
Definition identity (s : Session) : State * Z * Z := (SState s, UserID s, AuthVersion s).

(** Every session of the map and every record of the file satisfies [P]. *)
Definition all_identities (P : State * Z * Z → Prop) (m : Manager) : Prop :=
  map_Forall (λ _ s, P (identity s)) (sessions m) ∧
  ∀ item, item ∈ records (disk m) → P (identity (of_persisted item)).

Section Identities.
Context (P : State * Z * Z → Prop).

Lemma all_identities_impl (Q : State * Z * Z → Prop) m :
  (∀ i, P i → Q i) → all_identities P m → all_identities Q m.
Proof. intros HPQ [Hs Hd]. split; [intros k s Hk; apply HPQ, (Hs k s Hk)|eauto]. Qed.

Lemma all_identities_sub m ss : all_identities P m → ss ⊆ sessions m → all_identities P (with_sessions m ss).
Proof. intros [Hs Hd] Hsub. split; [|done]. intros k s Hk. apply (Hs k). by apply (lookup_weaken _ _ _ _ Hk). Qed.

Lemma all_identities_insert m k s :
  all_identities P m → P (identity s) → all_identities P (with_sessions m (<[k := s]> (sessions m))).
Proof. intros [Hs Hd] HP. split; [by apply map_Forall_insert_2|done]. Qed.

Lemma all_identities_delete m k : all_identities P m → all_identities P (with_sessions m (delete k (sessions m))).
Proof. intros Hm. apply all_identities_sub; [done|apply delete_subseteq]. Qed.

Lemma all_identities_expired m now : all_identities P m → all_identities P (removeExpiredLocked m now).
Proof. intros Hm. apply all_identities_sub; [done|apply map_filter_subseteq]. Qed.

Lemma all_identities_persist m now o : all_identities P m → all_identities P (persistLocked m now o).2.
Proof.
  intros [Hs Hd]. unfold persistLocked. case_match; [done|]. cbv zeta.
  destruct (encode _) as [text|] eqn:He; [|done].
  assert (∀ item, item ∈ records (FileText text) → P (identity (of_persisted item))) as Hw.
  { unfold records. destruct (decode text) as [[stored rest]|] eqn:Hdec; [|by intros item ?%not_elem_of_nil].
    pose proof (decode_encoded _ _ _ _ He Hdec) as Hf. cbn [p_Sessions] in Hf. intros item (i & Hi)%list_elem_of_lookup.
    destruct (Forall2_lookup_r _ _ _ _ _ Hf Hi) as (x & Hx & -> & _). apply list_elem_of_lookup_2 in Hx.
    apply elem_of_persisted_items in Hx as (k & s & Hk & [Hst _] & ->). pose proof (Hs k s Hk) as HP. unfold identity in *. cbn. by rewrite <- Hst. }
  destruct o; (split; [exact Hs|]); [exact Hw|exact Hd|exact Hw].
Qed.

Lemma all_identities_restore m k prev :
  all_identities P m → (∀ s, prev = Some s → P (identity s)) → all_identities P (restore m k prev).
Proof. intros Hm Hp. destruct prev as [s|]; [|done]. apply all_identities_insert; eauto. Qed.

Lemma all_identities_allocated m now r state u a s m' :
  createLocked m now r state u a = Ok (s, m') → P (state, u, a) → all_identities P m → all_identities P m'.
Proof.
  intros (_ & -> & Hst & Hu & Ha & _)%createLocked_spec HP Hm. apply all_identities_insert; [done|].
  unfold identity. by rewrite Hst, Hu, Ha.
Qed.

(** A request for a session adds its identity and no other. *)
Lemma all_identities_Rotate m now r o id state u a :
  all_identities P m → P (state, u, a) → all_identities P (Rotate m now r o id state u a).2.
Proof.
  intros Hm HP. unfold Rotate. cbv zeta.
  assert (∀ s, sessions m !! id = Some s → P (identity s)) as Hprev by (intros s Hs; exact (proj1 Hm id s Hs)).
  pose proof (all_identities_expired _ now (all_identities_delete m id Hm)) as H1.
  set (m1 := removeExpiredLocked _ now) in *. clearbody m1.
  destruct (_ <=? _); [done|].
  destruct (createLocked m1 now r state u a) as [[s m2]|e] eqn:Hcr; [|by apply all_identities_restore].
  pose proof (all_identities_allocated _ _ _ _ _ _ _ _ Hcr HP H1) as H2.
  case_match; [|done]. pose proof (all_identities_persist m2 now o H2) as H3.
  destruct (persistLocked m2 now o) as [[e|] m3]; cbn [fst snd] in *; [|done].
  apply all_identities_restore; [by apply all_identities_delete|done].
Qed.

Lemma all_identities_Create m now r o state u a :
  all_identities P m → P (state, u, a) → all_identities P (Create m now r o state u a).2.
Proof.
  intros Hm HP. unfold Create. cbv zeta. pose proof (all_identities_expired _ now Hm) as H1.
  set (m1 := removeExpiredLocked _ now) in *. clearbody m1. destruct (_ <=? _); [done|].
  destruct (createLocked m1 now r state u a) as [[s m2]|e] eqn:Hcr; [|done].
  pose proof (all_identities_allocated _ _ _ _ _ _ _ _ Hcr HP H1) as H2.
  case_match; [|done]. pose proof (all_identities_persist m2 now o H2) as H3.
  destruct (persistLocked m2 now o) as [[e|] m3]; cbn [fst snd] in *; [by apply all_identities_delete|done].
Qed.

Lemma all_identities_Get m now o id : all_identities P m → all_identities P (Get m now o id).2.
Proof.
  intros Hm. unfold Get. destruct (sessions m !! id) as [s|] eqn:Hs; [|by apply all_identities_delete].
  case_match; [by apply all_identities_delete|]. cbv zeta. cbn [snd].
  pose proof (all_identities_insert m id (touch s now) Hm (proj1 Hm id s Hs)) as H1.
  case_match; [by apply all_identities_persist|done].
Qed.

Lemma all_identities_ValidateCSRF m now o id token :
  all_identities P m → all_identities P (ValidateCSRF m now o id token).2.
Proof.
  intros Hm. pose proof (all_identities_Get m now o id Hm) as H1. unfold ValidateCSRF.
  destruct (Get m now o id) as [[s|] m1]; done.
Qed.

Lemma all_identities_Destroy m now o id : all_identities P m → all_identities P (Destroy m now o id).2.
Proof.
  intros Hm. pose proof (all_identities_delete m id Hm) as H1. unfold Destroy. cbv zeta.
  case_match; [|done]. pose proof (all_identities_persist _ now o H1) as H2.
  destruct (persistLocked _ now o) as [[e|] m2]; cbn [fst snd] in *; [|done].
  apply all_identities_restore; [done|]. intros s Hs. exact (proj1 Hm id s Hs).
Qed.

Lemma load_items_disk items m now m' : load_items m now items = Ok m' → disk m' = disk m.
Proof.
  revert m. induction items as [|item items IH]; intros m; cbn [load_items]; [by intros [= <-]|]. cbv zeta.
  destruct (negb (validPersistentSession _ _)); [done|]. case_match; [done|].
  case_match; intros ->%IH; done.
Qed.

(** The sessions a start loads are in the file. *)
Lemma all_identities_NewPersistent c path dir file now m :
  NewPersistent c path dir file now = Ok m →
  (∀ item, item ∈ records file → P (identity (of_persisted item))) → all_identities P m.
Proof.
  unfold NewPersistent. intros (m0 & Hn & H)%res_bind_Ok Hfile. apply New_wf in Hn as (_ & Hs & _ & Hd).
  destruct (negb _); [done|]. destruct dir as [info|]; [|done]. destruct (_ || _); [done|].
  apply loadPersistent_Ok in H as [->|(m2 & Hl & Es & _ & Ed & _)]; unfold all_identities; cbn [sessions disk] in *; rewrite Hd in *.
  { split; [by rewrite Hs|done]. }
  rewrite Es, Ed, (load_items_disk _ _ _ _ Hl). split; [|exact Hfile].
  apply load_items_keeps in Hl as (_ & _ & Hl). intros k s Hk.
  destruct (Hl k s Hk) as [H0|(it & ? & -> & _)]; [cbn in H0; by rewrite Hs, lookup_empty in H0|by apply Hfile].
Qed.
End Identities.

(** ** A run *)

Definition sample_random : string :=
  "0123456789abcdef0123456789abcdefFEDCBA9876543210FEDCBA9876543210".
Definition sample_manager : Manager :=
  {| sessions := ∅; config := DefaultConfig; persistencePath := "/var/lib/aegisadmin/sessions.json";
     lastPersistence := zero_time; disk := FileMissing |}.
Definition sample_login : res session_error Session * Manager :=
  Create sample_manager 1000 sample_random PersistOK StateAuthenticated 1 1.
Definition sample_id : string := "MDEyMzQ1Njc4OWFiY2RlZjAxMjM0NTY3ODlhYmNkZWY".

Lemma sample_wf : wf sample_manager.
Proof. unfold wf. cbn. split_and!; [lia|rewrite map_size_empty; lia|apply map_Forall_empty]. Qed.

Lemma sample_login_wf : wf sample_login.2.
Proof.
  unfold sample_login. rewrite (Create_Rotate _ _ _ _ "") by done. apply Rotate_wf, sample_wf.
Qed.

Lemma manager_invariant_witness : wf sample_login.2.
Proof.
  apply manager_invariant. apply (reach_step sample_manager); [|apply step_Create].
  apply (reach_NewPersistent DefaultConfig "/var/lib/aegisadmin/sessions.json"
    (Some {| IsDir := true; IsSymlink := false; Perm := 448 |}) FileMissing 0).
  vm_compute. reflexivity.
Defined.

Lemma Rotate_spec_witness :
  match Rotate sample_login.2 2000 (sdrop 32 sample_random +++ sample_random) PersistOK sample_id StateAnonymous 0 0 with
  | (Ok s, m') => sample_id ≠ ID s ∧ sessions m' !! sample_id = None
  | _ => False
  end.
Proof.
  pose proof (Rotate_spec sample_login.2 2000 (sdrop 32 sample_random +++ sample_random) PersistOK sample_id
    StateAnonymous 0 0 sample_login_wf) as H.
  assert (∃ s m', Rotate sample_login.2 2000 (sdrop 32 sample_random +++ sample_random) PersistOK sample_id
    StateAnonymous 0 0 = (Ok s, m') ∧ sample_id ≠ ID s) as (s & m' & E & Hne).
  { eexists _, _. split; [vm_compute; reflexivity|]. vm_compute. discriminate. }
  rewrite E in *. split; [exact Hne|]. apply H, Hne.
Defined.

Lemma ValidateCSRF_spec_witness :
  (ValidateCSRF sample_login.2 2000 PersistOK sample_id "RkVEQ0JBOTg3NjU0MzIxMEZFRENCQTk4NzY1NDMyMTA").1 = true.
Proof.
  apply (ValidateCSRF_spec sample_login.2 2000 PersistOK sample_id); [exact sample_login_wf|].
  eexists. split; vm_compute; reflexivity.
Defined.

(** The text the file has after a sign-in. *)
Example sample_file : disk (persistLocked sample_login.2 3000 PersistOK).2 = FileText (smap (λ c, if Ascii.eqb c "~" then JsonParse.quote_char else c)
  ("{~version~:1,~sessions~:[{~id~:~MDEyMzQ1Njc4OWFiY2RlZjAxMjM0NTY3ODlhYmNkZWY~,~csrf_token~:~RkVEQ0JBOTg3NjU0MzIxMEZFRENCQTk4NzY1NDMyMTA~," +++
   "~user_id~:1,~auth_version~:1,~created_at~:~1970-01-01T00:00:00.000001Z~,~last_seen_at~:~1970-01-01T00:00:00.000001Z~}]}" +++ snl)).
Proof. vm_compute. reflexivity. Qed.
Lemma persist_load_roundtrip_witness :
  ∃ m2, NewPersistent (config sample_login.2) (persistencePath sample_login.2)
          (Some {| IsDir := true; IsSymlink := false; Perm := 448 |})
          (disk (persistLocked sample_login.2 3000 PersistOK).2) 4000 = Ok m2 ∧
    sessions m2 !! sample_id = sessions sample_login.2 !! sample_id.
Proof.
  destruct (persist_load_roundtrip sample_login.2 3000 (persistLocked sample_login.2 3000 PersistOK).2 4000
    {| IsDir := true; IsSymlink := false; Perm := 448 |}) as (text & Ht & H2);
    [exact sample_login_wf| | |vm_compute; reflexivity..|].
  - apply (bool_decide_eq_true_1 _). vm_compute. reflexivity.
  - apply (bool_decide_eq_true_1 _). vm_compute. reflexivity.
  - assert (maximumFileSize <? slen text = false) as Hl by (pose proof Ht as Ht'; vm_compute in Ht'; injection Ht' as <-; vm_compute; reflexivity).
    rewrite Hl in H2. destruct H2 as (m2 & H2 & Hs).
    exists m2. split; [rewrite Ht; exact H2|]. apply option_eq. intros s. rewrite Hs. split; [by intros (? & _)|].
    intros Hin. split; [exact Hin|]. vm_compute in Hin. injection Hin as <-.
    split; [split|]; vm_compute; reflexivity.
Defined.
