(* ===== verification/Schema.v ===== *)
(** * The account database ([database/migrations], used by [internal/authstore])

    The tables the store works on, with the constraints and the triggers the migrations
    give them.  A statement that would break one fails and changes nothing: that is
    the meaning [commit_users], [commit_modules], ... give to INSERT, UPDATE and DELETE.
    SQLite itself is not modelled further: a statement on a sound connection is a
    function of the tables; I/O errors roll back and return an error. *)

From S2P Require Import Prelude GoStrings StringFacts.
From Stdlib Require Import Ascii String.
#[local] Open Scope string_scope.
#[local] Open Scope Z_scope.

Inductive sql_error :=
| ErrConstraint            (** a CHECK, UNIQUE or FOREIGN KEY constraint, or a trigger *)
| ErrNoRows
| ErrMessage (text : string)
| ErrDatabase.             (** the connection failed *)

(** ** users (001, 005, 007) *)

Record identity := { login : string; first_name : string; last_name : string; email : string }.
Record rights := { kind : string; status : string; can_view : Z; can_act : Z; can_modify : Z }.
Record credentials := {
  password_hash : string;
  must_change_password : Z;
  auth_version : Z;
  two_factor_required : Z;
  totp_secret : option string;
  totp_enabled_at : option string;
}.
Record stamps := { created_at : string; updated_at : string; password_changed_at : string }.
Record UserRow := {
  u_identity : identity;
  u_rights : rights;
  u_credentials : credentials;
  u_stamps : stamps;
}.

(** COLLATE NOCASE folds the ASCII letters. *)
Definition nocase (s : string) : string := smap ascii_lower s.
Definition nocase_eq (s t : string) : bool := String.eqb (nocase s) (nocase t).

(** [length(text)] of SQLite: the characters before the first NUL. *)
Definition sql_length (s : string) : Z := rune_count (before nul s).
(** [trim(text)] of SQLite: ASCII spaces only. *)
Definition sql_trim (s : string) : string := trim_set (Ascii.eqb " ") s.

Definition is_bool (z : Z) : bool := (z =? 0) || (z =? 1).
Definition one_of (s : string) (l : list string) : bool := existsb (String.eqb s) l.

Definition user_checks (u : UserRow) : bool :=
  let i := u_identity u in let r := u_rights u in let c := u_credentials u in
  (3 <=? sql_length (login i)) && (sql_length (login i) <=? 64) &&
  one_of (kind r) ["root"; "user"] && one_of (status r) ["active"; "suspended"] &&
  is_bool (can_view r) && is_bool (can_act r) && is_bool (can_modify r) &&
  is_bool (must_change_password c) && (1 <=? auth_version c) &&
  ((can_view r =? 1) || ((can_act r =? 0) && (can_modify r =? 0))) &&
  (negb (String.eqb (kind r) "root") ||
    (String.eqb (status r) "active" && (can_view r =? 1) && (can_act r =? 1) && (can_modify r =? 1))) &&
  is_bool (two_factor_required c) &&
  match totp_enabled_at c, totp_secret c with Some _, None => false | _, _ => true end.

(** Two rows the unique constraint and the two unique indices accept together. *)
Definition users_compatible (u v : UserRow) : bool :=
  negb (nocase_eq (login (u_identity u)) (login (u_identity v))) &&
  (String.eqb (email (u_identity u)) "" || negb (nocase_eq (email (u_identity u)) (email (u_identity v)))) &&
  negb (String.eqb (kind (u_rights u)) "root" && String.eqb (kind (u_rights v)) "root").

Definition users_valid (m : gmap Z UserRow) : Prop :=
  map_Forall (λ i u, user_checks u = true ∧
    map_Forall (λ j v, i = j ∨ users_compatible u v = true) m) m.
#[global] Instance users_valid_dec m : Decision (users_valid m).
Proof. unfold users_valid. apply _. Defined.

(** ** navigation_categories, navigation_modules (002), user_module_permissions (006) *)

Record CategoryRow := { c_name : string; c_position : Z; c_created_at : string; c_updated_at : string }.

Record ModuleRow := {
  module_key : string;
  m_name : string;
  route : string;
  icon : string;
  category_id : Z;
  m_position : Z;
  is_enabled : Z;
  is_essential : Z;
  access_policy : string;
  m_created_at : string;
  m_updated_at : string;
}.

Definition category_checks (c : CategoryRow) : bool :=
  (2 <=? sql_length (sql_trim (c_name c))) && (sql_length (sql_trim (c_name c)) <=? 64) && (0 <=? c_position c).

Definition categories_valid (m : gmap Z CategoryRow) : Prop :=
  map_Forall (λ i c, category_checks c = true ∧
    map_Forall (λ j d, i = j ∨ nocase_eq (c_name c) (c_name d) = false) m) m.
#[global] Instance categories_valid_dec m : Decision (categories_valid m).
Proof. unfold categories_valid. apply _. Defined.

Definition module_checks (m : ModuleRow) : bool :=
  (2 <=? sql_length (module_key m)) && (sql_length (module_key m) <=? 64) &&
  (2 <=? sql_length (sql_trim (m_name m))) && (sql_length (sql_trim (m_name m)) <=? 64) &&
  (2 <=? sql_length (route m)) && has_prefix (route m) "/" &&
  (1 <=? sql_length (sql_trim (icon m))) && (0 <=? m_position m) &&
  is_bool (is_enabled m) && is_bool (is_essential m) &&
  ((is_essential m =? 0) || (is_enabled m =? 1)) &&
  one_of (access_policy m) ["view"; "root"].

Definition modules_valid (categories : gmap Z CategoryRow) (m : gmap Z ModuleRow) : Prop :=
  map_Forall (λ i x, module_checks x = true ∧ is_Some (categories !! category_id x) ∧
    map_Forall (λ j y, i = j ∨
      (nocase_eq (module_key x) (module_key y) = false ∧ route x ≠ route y)) m) m.
#[global] Instance modules_valid_dec c m : Decision (modules_valid c m).
Proof. unfold modules_valid. apply _. Defined.

(** ** user_access_log (008), user_preferences (012, 013) *)

Record AccessRow := {
  l_user_id : option Z;
  l_login : string;
  l_event : string;
  l_success : bool;
  l_ip_address : string;
  l_user_agent : string;
  l_occurred_at : string;
}.

(** The CHECK of migration 008. *)
Definition access_events : list string :=
  ["login_success"; "login_failure"; "two_factor_success"; "two_factor_failure"; "logout";
   "password_changed"; "two_factor_enabled"; "two_factor_disabled"].

Record PreferenceRow := { theme : string; language : string; p_updated_at : string }.

Definition preference_checks (p : PreferenceRow) : bool :=
  one_of (theme p) ["dark"; "light"; "bootstrap"; "neon"] && one_of (language p) ["fr"; "en"].

(** ** The database *)

Record Database := {
  users : gmap Z UserRow;
  users_seq : Z;                    (** AUTOINCREMENT: the largest identifier ever given *)
  categories : gmap Z CategoryRow;
  categories_seq : Z;
  modules : gmap Z ModuleRow;
  modules_seq : Z;
  permissions : gmap (Z * Z) string;
  settings : gmap string string;
  preferences : gmap Z PreferenceRow;
  access_log : gmap Z AccessRow;
  access_log_seq : Z;
}.

Definition with_users (db : Database) (u : gmap Z UserRow) (seq : Z) (p : gmap (Z * Z) string) : Database :=
  {| users := u; users_seq := seq; categories := categories db; categories_seq := categories_seq db;
     modules := modules db; modules_seq := modules_seq db; permissions := p;
     settings := settings db; preferences := preferences db; access_log := access_log db;
     access_log_seq := access_log_seq db |}.

Definition with_navigation (db : Database) (c : gmap Z CategoryRow) (cseq : Z)
    (m : gmap Z ModuleRow) (mseq : Z) : Database :=
  {| users := users db; users_seq := users_seq db; categories := c; categories_seq := cseq;
     modules := m; modules_seq := mseq; permissions := permissions db;
     settings := settings db; preferences := preferences db; access_log := access_log db;
     access_log_seq := access_log_seq db |}.

Definition with_settings (db : Database) (s : gmap string string) : Database :=
  {| users := users db; users_seq := users_seq db; categories := categories db;
     categories_seq := categories_seq db; modules := modules db; modules_seq := modules_seq db;
     permissions := permissions db; settings := s; preferences := preferences db;
     access_log := access_log db; access_log_seq := access_log_seq db |}.

Definition with_preferences (db : Database) (p : gmap Z PreferenceRow) : Database :=
  {| users := users db; users_seq := users_seq db; categories := categories db;
     categories_seq := categories_seq db; modules := modules db; modules_seq := modules_seq db;
     permissions := permissions db; settings := settings db; preferences := p;
     access_log := access_log db; access_log_seq := access_log_seq db |}.

Definition with_access_log (db : Database) (l : gmap Z AccessRow) (seq : Z) : Database :=
  {| users := users db; users_seq := users_seq db; categories := categories db;
     categories_seq := categories_seq db; modules := modules db; modules_seq := modules_seq db;
     permissions := permissions db; settings := settings db; preferences := preferences db;
     access_log := l; access_log_seq := seq |}.

(** ** Statements on users *)

(** The triggers of 001: a root row keeps its type, its status and its rights. *)
Definition demotes_root (old new : UserRow) : bool :=
  String.eqb (kind (u_rights old)) "root" &&
  negb (String.eqb (kind (u_rights new)) "root" && String.eqb (status (u_rights new)) "active" &&
        (can_view (u_rights new) =? 1) && (can_act (u_rights new) =? 1) && (can_modify (u_rights new) =? 1)).

(** UPDATE users SET ... WHERE ...: the rows changed, as RowsAffected counts them and
    RETURNING lists them. *)
Definition update_users (db : Database) (where_ : Z → UserRow → bool) (set : UserRow → UserRow)
    : res sql_error (list (Z * UserRow) * Database) :=
  let changed := filter (λ iu, where_ iu.1 iu.2 = true) (map_to_list (users db)) in
  let users' := map_imap (λ i u, Some (if where_ i u then set u else u)) (users db) in
  if existsb (λ iu, demotes_root iu.2 (set iu.2)) changed then Err ErrConstraint
  else if decide (users_valid users') then
    Ok ((λ iu, (iu.1, set iu.2)) <$> changed, with_users db users' (users_seq db) (permissions db))
  else Err ErrConstraint.

(** INSERT INTO users: the next identifier. *)
Definition insert_user (db : Database) (u : UserRow) : res sql_error (Z * Database) :=
  let id := users_seq db + 1 in
  let users' := <[id := u]> (users db) in
  if decide (users_valid users') then Ok (id, with_users db users' id (permissions db))
  else Err ErrConstraint.

(** DELETE FROM users WHERE id: the root row is protected by a trigger; permissions and
    preferences cascade, the access log keeps its rows without the user. *)
Definition delete_user (db : Database) (id : Z) : res sql_error Database :=
  match users db !! id with
  | Some u =>
      if String.eqb (kind (u_rights u)) "root" then Err ErrConstraint
      else Ok {| users := delete id (users db); users_seq := users_seq db;
                 categories := categories db; categories_seq := categories_seq db;
                 modules := modules db; modules_seq := modules_seq db;
                 permissions := filter (λ kv, kv.1.1 ≠ id) (permissions db);
                 settings := settings db; preferences := delete id (preferences db);
                 access_log := (λ row, if decide (l_user_id row = Some id)
                   then {| l_user_id := None; l_login := l_login row; l_event := l_event row;
                           l_success := l_success row; l_ip_address := l_ip_address row;
                           l_user_agent := l_user_agent row; l_occurred_at := l_occurred_at row |}
                   else row) <$> access_log db;
                 access_log_seq := access_log_seq db |}
  | None => Ok db
  end.

(** ** Facts *)

Lemma update_users_lookup db w s rows db' id :
  update_users db w s = Ok (rows, db') →
  users db' !! id = (λ u, if w id u then s u else u) <$> users db !! id.
Proof.
  unfold update_users. destruct (existsb _ _); [done|]. case_decide; [|done].
  intros [= <- <-]. cbn [users with_users]. rewrite map_lookup_imap.
  by destruct (users db !! id).
Qed.

Lemma update_users_frame db w s rows db' :
  update_users db w s = Ok (rows, db') →
  users_seq db' = users_seq db ∧ modules db' = modules db ∧ permissions db' = permissions db ∧
  categories db' = categories db.
Proof. unfold update_users. destruct (existsb _ _); [done|]. case_decide; [|done]. by intros [= <- <-]. Qed.

Lemma update_users_valid db w s rows db' :
  update_users db w s = Ok (rows, db') → users_valid (users db').
Proof. unfold update_users. destruct (existsb _ _); [done|]. case_decide; [|done]. by intros [= <- <-]. Qed.

Lemma update_users_rows db w s rows db' id u :
  update_users db w s = Ok (rows, db') →
  (id, u) ∈ rows ↔ ∃ u0, users db !! id = Some u0 ∧ w id u0 = true ∧ u = s u0.
Proof.
  unfold update_users. destruct (existsb _ _); [done|]. case_decide; [|done]. intros [= <- <-].
  rewrite list_elem_of_fmap. split.
  - intros ([i u0] & [= -> ->] & [Hw Hin]%list_elem_of_filter).
    exists u0. by apply elem_of_map_to_list in Hin.
  - intros (u0 & Hu & Hw & ->). exists (id, u0). split; [done|].
    apply list_elem_of_filter. split; [done|]. by apply elem_of_map_to_list.
Qed.

Lemma root_not_demoted db w s rows db' id u :
  update_users db w s = Ok (rows, db') → users db !! id = Some u → w id u = true →
  demotes_root u (s u) = false.
Proof.
  unfold update_users. destruct (existsb _ _) eqn:He; [done|]. intros _ Hu Hw.
  apply not_true_iff_false. intros Hd. apply not_true_iff_false in He. apply He.
  apply existsb_exists. exists (id, u). split; [|done].
  apply list_elem_of_In, list_elem_of_filter. split; [done|]. by apply elem_of_map_to_list.
Qed.
