(* ===== verification/Store.v ===== *)
(** * Accounts ([internal/authstore]: store.go, admin.go, lifecycle.go, backup.go)

    Every statement the store runs on [users] and [user_module_permissions], one
    definition per method.  A method returns [Err] with the database unchanged (its
    transaction rolls back) or its result with the new database; [now] is the RFC 3339
    time of the call. *)

From S2P Require Import Prelude GoStrings StringFacts Codec Schema.
From Stdlib Require Import Ascii String.
#[local] Open Scope string_scope.
#[local] Open Scope Z_scope.

Record User := {
  UserID : Z;
  Login : string;
  PasswordHash : string;
  Type_ : string;
  Status : string;
  MustChangePassword : bool;
  AuthVersion : Z;
  TwoFactorRequired : bool;
  TOTPSecret : option string;
  TOTPEnabledAt : option string;
}.

Definition scanUser (id : Z) (u : UserRow) : User :=
  {| UserID := id; Login := login (u_identity u); PasswordHash := password_hash (u_credentials u);
     Type_ := kind (u_rights u); Status := status (u_rights u);
     MustChangePassword := must_change_password (u_credentials u) =? 1;
     AuthVersion := auth_version (u_credentials u);
     TwoFactorRequired := two_factor_required (u_credentials u) =? 1;
     TOTPSecret := totp_secret (u_credentials u); TOTPEnabledAt := totp_enabled_at (u_credentials u) |}.

(** The row an UPDATE ... RETURNING gives, or an error when the WHERE matched none. *)
Definition scanRequiredUser (action : string) (result : res sql_error (list (Z * UserRow) * Database))
    : res sql_error (User * Database) :=
  match result with
  | Err e => Err e
  | Ok ([], _) => Err (ErrMessage (action +++ ": account state changed"))
  | Ok ((id, u) :: _, db) => Ok (scanUser id u, db)
  end.

Definition id_le (a b : Z * UserRow) : Prop := a.1 ≤ b.1.
#[global] Instance id_le_dec a b : Decision (id_le a b).
Proof. unfold id_le. apply _. Defined.

(** The first row in the order of the identifiers. *)
Definition first_user (p : Z → UserRow → bool) (db : Database) : option User :=
  (λ iu, scanUser iu.1 iu.2) <$>
    head (merge_sort id_le
      (filter (λ iu, p iu.1 iu.2 = true) (map_to_list (users db)))).

Definition FindByLogin (db : Database) (l : string) : option User :=
  first_user (λ _ u, nocase_eq (login (u_identity u)) l) db.
Definition FindRoot (db : Database) : option User :=
  first_user (λ _ u, String.eqb (kind (u_rights u)) "root") db.
Definition FindByID (db : Database) (id : Z) : option User :=
  first_user (λ i _, i =? id) db.

(** SET on the credential columns, with [updated_at]. *)
Definition with_credentials (now : string) (f : credentials → credentials) (u : UserRow) : UserRow :=
  {| u_identity := u_identity u; u_rights := u_rights u; u_credentials := f (u_credentials u);
     u_stamps := {| created_at := created_at (u_stamps u); updated_at := now;
                    password_changed_at := password_changed_at (u_stamps u) |} |}.
Definition stamp_password (now : string) (u : UserRow) : UserRow :=
  {| u_identity := u_identity u; u_rights := u_rights u; u_credentials := u_credentials u;
     u_stamps := {| created_at := created_at (u_stamps u); updated_at := updated_at (u_stamps u);
                    password_changed_at := now |} |}.

Definition is_active (u : UserRow) : bool := String.eqb (status (u_rights u)) "active".
Definition is_root (u : UserRow) : bool := String.eqb (kind (u_rights u)) "root".
Definition is_user (u : UserRow) : bool := String.eqb (kind (u_rights u)) "user".

Definition PrepareTOTP (db : Database) (now : string) (id authVersion : Z) (secret : string) :=
  scanRequiredUser "prepare TOTP" (update_users db
    (λ i u, (i =? id) && is_active u && (auth_version (u_credentials u) =? authVersion) &&
            bool_decide (totp_enabled_at (u_credentials u) = None))
    (with_credentials now (λ c,
      {| password_hash := password_hash c; must_change_password := must_change_password c;
         auth_version := auth_version c; two_factor_required := two_factor_required c;
         totp_secret := Some (default secret (totp_secret c)); totp_enabled_at := None |}))).

Definition EnableTOTP (db : Database) (now : string) (id authVersion : Z) (secret : string) :=
  scanRequiredUser "enable TOTP" (update_users db
    (λ i u, (i =? id) && is_active u && (auth_version (u_credentials u) =? authVersion) &&
            bool_decide (totp_secret (u_credentials u) = Some secret) &&
            bool_decide (totp_enabled_at (u_credentials u) = None))
    (with_credentials now (λ c,
      {| password_hash := password_hash c; must_change_password := must_change_password c;
         auth_version := auth_version c + 1; two_factor_required := two_factor_required c;
         totp_secret := totp_secret c; totp_enabled_at := Some now |}))).

Definition DisableTOTP (db : Database) (now : string) (id authVersion : Z) :=
  scanRequiredUser "disable TOTP" (update_users db
    (λ i u, (i =? id) && is_active u && (auth_version (u_credentials u) =? authVersion) &&
            (two_factor_required (u_credentials u) =? 0) &&
            bool_decide (totp_enabled_at (u_credentials u) ≠ None))
    (with_credentials now (λ c,
      {| password_hash := password_hash c; must_change_password := must_change_password c;
         auth_version := auth_version c + 1; two_factor_required := two_factor_required c;
         totp_secret := None; totp_enabled_at := None |}))).

Definition ChangePassword (db : Database) (now : string) (id authVersion : Z) (currentHash newHash : string) :=
  scanRequiredUser "change password" (update_users db
    (λ i u, (i =? id) && is_active u && (auth_version (u_credentials u) =? authVersion) &&
            String.eqb (password_hash (u_credentials u)) currentHash)
    (λ u, stamp_password now (with_credentials now (λ c,
      {| password_hash := newHash; must_change_password := 0;
         auth_version := auth_version c + 1; two_factor_required := two_factor_required c;
         totp_secret := totp_secret c; totp_enabled_at := totp_enabled_at c |}) u))).

(** ** Administration *)

Record AdminUser := {
  a_ID : Z;
  a_Login : string; FirstName : string; LastName : string; Email : string;
  a_Type : string; a_Status : string;
  a_MustChangePassword : bool; a_TwoFactorRequired : bool; TwoFactorEnabled : bool;
  a_AuthVersion : Z;
}.

Definition boolInt (value : bool) : Z := if value then 1 else 0.

Definition admin_row (id : Z) (u : UserRow) : AdminUser :=
  {| a_ID := id; a_Login := login (u_identity u); FirstName := first_name (u_identity u);
     LastName := last_name (u_identity u); Email := email (u_identity u);
     a_Type := kind (u_rights u); a_Status := status (u_rights u);
     a_MustChangePassword := must_change_password (u_credentials u) =? 1;
     a_TwoFactorRequired := two_factor_required (u_credentials u) =? 1;
     TwoFactorEnabled := match totp_enabled_at (u_credentials u) with Some _ => true | None => false end;
     a_AuthVersion := auth_version (u_credentials u) |}.

(** ORDER BY type='root' DESC, login COLLATE NOCASE *)
Definition admin_le (a b : AdminUser) : Prop :=
  if String.eqb (a_Type a) "root" then True
  else if String.eqb (a_Type b) "root" then False
  else str_le (nocase (a_Login a)) (nocase (a_Login b)).
#[global] Instance admin_le_dec a b : Decision (admin_le a b).
Proof. unfold admin_le. repeat case_match; apply _. Defined.

Definition AdminUsers (db : Database) : list AdminUser :=
  merge_sort admin_le ((λ iu, admin_row iu.1 iu.2) <$> map_to_list (users db)).

Definition AccessLogUsers (db : Database) : list string := a_Login <$> AdminUsers db.

Definition ModulePermissions (db : Database) (userID : Z) : gmap Z string :=
  list_to_map (omap (λ kv : Z * Z * string, if kv.1.1 =? userID then Some (kv.1.2, kv.2) else None)
    (map_to_list (permissions db))).

(** A module an ordinary user can be given a right on. *)
Definition assignable (m : ModuleRow) : bool := (is_enabled m =? 1) && String.eqb (access_policy m) "view".

Definition grant (m : gmap Z ModuleRow) (userID : Z) (p : gmap (Z * Z) string) (item : Z * string)
    : res sql_error (gmap (Z * Z) string) :=
  let '(id, level) := item in
  if String.eqb level "none" then Ok p
  else if negb (String.eqb level "view") && negb (String.eqb level "action") && negb (String.eqb level "modify")
  then Err (ErrMessage "invalid permission")
  else match m !! id with
       | Some row => if assignable row then Ok (<[(userID, id) := level]> p) else Err (ErrMessage "invalid module")
       | None => Err (ErrMessage "invalid module")
       end.

Fixpoint grant_all (m : gmap Z ModuleRow) (userID : Z) (p : gmap (Z * Z) string) (items : list (Z * string))
    : res sql_error (gmap (Z * Z) string) :=
  match items with
  | [] => Ok p
  | item :: items' => let! p := grant m userID p item in grant_all m userID p items'
  end.

Definition replacePermissions (db : Database) (userID : Z) (items : gmap Z string) : res sql_error Database :=
  let! p := grant_all (modules db) userID (filter (λ kv, kv.1.1 ≠ userID) (permissions db)) (map_to_list items) in
  Ok (with_users db (users db) (users_seq db) p).

Definition CreateAdminUser (db : Database) (now : string) (u : AdminUser) (passwordHash : string)
    (items : gmap Z string) : res sql_error (Z * Database) :=
  let! r := insert_user db
    {| u_identity := {| login := a_Login u; first_name := FirstName u; last_name := LastName u; email := Email u |};
       u_rights := {| kind := "user"; status := "active"; can_view := 1; can_act := 0; can_modify := 0 |};
       u_credentials := {| password_hash := passwordHash; must_change_password := 1; auth_version := 1;
                           two_factor_required := boolInt (a_TwoFactorRequired u);
                           totp_secret := None; totp_enabled_at := None |};
       u_stamps := {| created_at := now; updated_at := now; password_changed_at := now |} |} in
  let! db := replacePermissions r.2 r.1 items in
  Ok (r.1, db).

Definition UpdateAdminUser (db : Database) (now : string) (u : AdminUser) (items : gmap Z string)
    (resetTOTP : bool) : res sql_error Database :=
  match users db !! a_ID u with
  | None => Err ErrNoRows
  | Some row =>
      if is_root row then
        let! r := update_users db (λ i x, (i =? a_ID u) && is_root x) (λ x,
          {| u_identity := {| login := login (u_identity x); first_name := FirstName u;
                              last_name := LastName u; email := Email u |};
             u_rights := u_rights x; u_credentials := u_credentials x;
             u_stamps := {| created_at := created_at (u_stamps x); updated_at := now;
                            password_changed_at := password_changed_at (u_stamps x) |} |}) in
        Ok r.2
      else
        let! r := update_users db (λ i x, (i =? a_ID u) && is_user x) (λ x,
          {| u_identity := {| login := a_Login u; first_name := FirstName u;
                              last_name := LastName u; email := Email u |};
             u_rights := {| kind := kind (u_rights x); status := a_Status u; can_view := can_view (u_rights x);
                            can_act := can_act (u_rights x); can_modify := can_modify (u_rights x) |};
             u_credentials :=
               {| password_hash := password_hash (u_credentials x);
                  must_change_password := must_change_password (u_credentials x);
                  auth_version := auth_version (u_credentials x) + (if resetTOTP then 1 else 0);
                  two_factor_required := boolInt (a_TwoFactorRequired u);
                  totp_secret := if resetTOTP then None else totp_secret (u_credentials x);
                  totp_enabled_at := if resetTOTP then None else totp_enabled_at (u_credentials x) |};
             u_stamps := {| created_at := created_at (u_stamps x); updated_at := now;
                            password_changed_at := password_changed_at (u_stamps x) |} |}) in
        replacePermissions r.2 (a_ID u) items
  end.

(** An UPDATE that must have changed one row. *)
Definition one_changed (message : string) (result : res sql_error (list (Z * UserRow) * Database))
    : res sql_error Database :=
  let! r := result in
  if (List.length r.1 =? 1)%nat then Ok r.2 else Err (ErrMessage message).

Definition ResetAdminPassword (db : Database) (now : string) (id : Z) (hash : string) : res sql_error Database :=
  one_changed "ordinary user not found" (update_users db
    (λ i u, (i =? id) && is_user u)
    (λ u, stamp_password now (with_credentials now (λ c,
      {| password_hash := hash; must_change_password := 1;
         auth_version := auth_version c + 1; two_factor_required := two_factor_required c;
         totp_secret := totp_secret c; totp_enabled_at := totp_enabled_at c |}) u))).

Definition DeleteAdminUser (db : Database) (id : Z) : res sql_error Database :=
  match users db !! id with
  | Some u => if is_user u then delete_user db id else Err (ErrMessage "ordinary user not found")
  | None => Err (ErrMessage "ordinary user not found")
  end.

(** ** The root account *)

Section Lifecycle.
Context `{UnicodeCase}.
(** [bcrypt.GenerateFromPassword(password, DefaultCost)] and [mail.ParseAddress]. *)
Context (bcrypt_generate : string → option string) (parse_address : string → option string).

Definition hashAdministrativePassword (password : string) : res sql_error string :=
  let length := rune_count password in
  if (length <? 12) || (72 <? length)
  then Err (ErrMessage "password must contain between 12 and 72 characters")
  else from_option_res (ErrMessage "bcrypt") (bcrypt_generate password).

Definition valid_name (value : string) : bool :=
  let length := rune_count (trim_space value) in (1 <=? length) && (length <=? 100).

Definition validateRootIdentity (firstName lastName email : string) : res sql_error unit :=
  if negb (valid_name firstName) || negb (valid_name lastName)
  then Err (ErrMessage "first name and last name must contain between 1 and 100 characters")
  else
    let address := to_lower (trim_space email) in
    match parse_address address with
    | Some parsed => if String.eqb parsed address && negb (254 <? slen address) then Ok tt
                     else Err (ErrMessage "invalid email address")
    | None => Err (ErrMessage "invalid email address")
    end.

Definition InitializeRoot (db : Database) (now firstName lastName mail password : string)
    : res sql_error Database :=
  let! _ := validateRootIdentity firstName lastName mail in
  let! hash := hashAdministrativePassword password in
  let! r := insert_user db
    {| u_identity := {| login := "root"; first_name := trim_space firstName;
                        last_name := trim_space lastName; email := to_lower (trim_space mail) |};
       u_rights := {| kind := "root"; status := "active"; can_view := 1; can_act := 1; can_modify := 1 |};
       u_credentials := {| password_hash := hash; must_change_password := 0; auth_version := 1;
                           two_factor_required := 0; totp_secret := None; totp_enabled_at := None |};
       u_stamps := {| created_at := now; updated_at := now; password_changed_at := now |} |} in
  Ok r.2.

Definition ResetRootPassword (db : Database) (now password : string) : res sql_error Database :=
  let! hash := hashAdministrativePassword password in
  one_changed "root account is not initialized" (update_users db (λ _ u, is_root u)
    (λ u, stamp_password now (with_credentials now (λ c,
      {| password_hash := hash; must_change_password := 0;
         auth_version := auth_version c + 1; two_factor_required := two_factor_required c;
         totp_secret := totp_secret c; totp_enabled_at := totp_enabled_at c |}) u))).
End Lifecycle.

Definition DisableRootTwoFactor (db : Database) (now : string) : res sql_error Database :=
  one_changed "root account is not initialized" (update_users db (λ _ u, is_root u)
    (with_credentials now (λ c,
      {| password_hash := password_hash c; must_change_password := must_change_password c;
         auth_version := auth_version c + 1; two_factor_required := 0;
         totp_secret := None; totp_enabled_at := None |}))).

(** ** Restoring a backup *)

Definition maximumRestoreBytes : Z := 20 * 1024 * 1024.

Section Restore.
(** What SQLite makes of the bytes of a file: its tables when the integrity check
    passes and the seven tables are there. *)
Context (sqlite_open : string → option Database).

Definition validateBackup (content : string) : res sql_error Database :=
  match sqlite_open content with
  | None => Err (ErrMessage "backup integrity check failed")
  | Some backup =>
      if (List.length (filter (λ iu, is_root iu.2 && is_active iu.2 = true)
            (map_to_list (users backup))) =? 1)%nat
      then Ok backup else Err (ErrMessage "backup root account is invalid")
  end.

(** How the calls of a restore end, [None] when they succeed: the temporary file is written;
    the safety copy is made and kept; the tables are copied, in one transaction; the
    versions are raised; the schema is read. *)
Record RestoreCalls := {
  written : option string; saved : option string; copied : option string; raised : option string; read_back : option string }.
Definition all_succeed : RestoreCalls := {| written := None; saved := None; copied := None; raised := None; read_back := None |}.
(** [UPDATE users SET auth_version=auth_version+1]. *)
Definition raise_versions (db : Database) : res sql_error Database :=
  let! r := update_users db (λ _ _, true) (λ u,
    {| u_identity := u_identity u; u_rights := u_rights u; u_stamps := u_stamps u;
       u_credentials := let c := u_credentials u in
         {| password_hash := password_hash c; must_change_password := must_change_password c;
            auth_version := auth_version c + 1; two_factor_required := two_factor_required c;
            totp_secret := totp_secret c; totp_enabled_at := totp_enabled_at c |} |}) in
  Ok r.2.

(** The tables come from the backup, then every version goes up by one.  Once the tables are
    copied an error leaves them so. *)
Definition RestoreDatabase (calls : RestoreCalls) (db : Database) (content : string) : option sql_error * Database :=
  if (slen content <? 100) || (maximumRestoreBytes <? slen content)
     || negb (String.eqb (stake 16 content) ("SQLite format 3" +++ snul))
  then (Some (ErrMessage "invalid SQLite backup"), db)
  else match written calls with
  | Some err => (Some (ErrMessage err), db)
  | None =>
  match validateBackup content with
  | Err err => (Some err, db)
  | Ok backup =>
  match saved calls with
  | Some err => (Some (ErrMessage err), db)
  | None =>
  match copied calls with
  | Some err => (Some (ErrMessage ("restore database: " +++ err)), db)
  | None =>
  match (match raised calls with Some err => Err (ErrMessage err) | None => raise_versions backup end) with
  | Err err => (Some err, backup)
  | Ok d => (ErrMessage <$> read_back calls, d)
  end end end end end.
End Restore.

(** ** Lookups *)

Lemma first_user_spec p db user : first_user p db = Some user →
  ∃ id u, users db !! id = Some u ∧ p id u = true ∧ user = scanUser id u.
Proof.
  unfold first_user. intros ([id u] & Hh & ->)%fmap_Some.
  assert (Hin : (id, u) ∈ filter (λ iu, p iu.1 iu.2 = true) (map_to_list (users db))).
  { apply head_Some_elem_of in Hh. by apply elem_of_merge_sort in Hh. }
  apply list_elem_of_filter in Hin as [Hp Hin]. apply elem_of_map_to_list in Hin.
  exists id, u. done.
Qed.

Lemma first_user_none p db id u : first_user p db = None → users db !! id = Some u → p id u = false.
Proof.
  unfold first_user. intros Hn%fmap_None Hu. apply not_true_iff_false. intros Hp.
  assert (Hin : (id, u) ∈ merge_sort id_le (filter (λ iu, p iu.1 iu.2 = true) (map_to_list (users db)))).
  { apply elem_of_merge_sort.
    apply list_elem_of_filter. split; [done|]. by apply elem_of_map_to_list. }
  apply head_None in Hn. rewrite Hn in Hin. by apply elem_of_nil in Hin.
Qed.

Lemma FindByID_eq db id : FindByID db id = scanUser id <$> users db !! id.
Proof.
  unfold FindByID. destruct (first_user _ db) as [user|] eqn:E.
  - apply first_user_spec in E as (i & u & Hu & Hi & ->). apply Z.eqb_eq in Hi as ->. by rewrite Hu.
  - destruct (users db !! id) as [u|] eqn:Hu; [|done].
    pose proof (first_user_none _ _ _ _ E Hu) as Hf. cbv beta in Hf. by rewrite Z.eqb_refl in Hf.
Qed.

(** ** One step of the store *)

Section Steps.
Context `{UnicodeCase}.
Context (bcrypt_generate : string → option string) (parse_address : string → option string).

(** Any method that succeeds but [RestoreDatabase], which puts other tables in place of all of
    these: a backup may hold lower versions.  [store_life] has it, for the backups taken
    since its start. *)
Inductive store_step (db : Database) : Database → Prop :=
| do_PrepareTOTP now id v s u db' : PrepareTOTP db now id v s = Ok (u, db') → store_step db db'
| do_EnableTOTP now id v s u db' : EnableTOTP db now id v s = Ok (u, db') → store_step db db'
| do_DisableTOTP now id v u db' : DisableTOTP db now id v = Ok (u, db') → store_step db db'
| do_ChangePassword now id v h h' u db' : ChangePassword db now id v h h' = Ok (u, db') → store_step db db'
| do_Create now a h items id db' : CreateAdminUser db now a h items = Ok (id, db') → store_step db db'
| do_Update now a items reset db' : UpdateAdminUser db now a items reset = Ok db' → store_step db db'
| do_Reset now id h db' : ResetAdminPassword db now id h = Ok db' → store_step db db'
| do_Delete id db' : DeleteAdminUser db id = Ok db' → store_step db db'
| do_Init now f l m p db' :
    InitializeRoot bcrypt_generate parse_address db now f l m p = Ok db' → store_step db db'
| do_ResetRoot now p db' : ResetRootPassword bcrypt_generate db now p = Ok db' → store_step db db'
| do_DisableRoot now db' : DisableRootTwoFactor db now = Ok db' → store_step db db'.

(** The secret in force: none until the second factor is confirmed. *)
Definition active_secret (u : UserRow) : option string :=
  match totp_enabled_at (u_credentials u) with Some _ => totp_secret (u_credentials u) | None => None end.

(** What guards a session: the password, the obligation to change it, the second factor
    with its secret. *)
Definition guard_of (u : UserRow) : string * Z * option string * option string :=
  (password_hash (u_credentials u), must_change_password (u_credentials u), totp_enabled_at (u_credentials u),
   active_secret u).
Definition version (u : UserRow) : Z := auth_version (u_credentials u).

(** The effect of one statement on one row. *)
Definition row_step (u u' : UserRow) : Prop :=
  version u ≤ version u' ∧ (guard_of u ≠ guard_of u' → version u < version u') ∧
  kind (u_rights u') = kind (u_rights u).

Lemma row_step_refl u : row_step u u.
Proof. split_and!; [lia|congruence|done]. Qed.

(** The shape of every step: rows change by [row_step], one row may appear under a new
    identifier, one ordinary user may go. *)
Definition users_step (db db' : Database) : Prop :=
  users_seq db ≤ users_seq db' ∧
  (∀ id u, users db !! id = Some u →
     (∃ u', users db' !! id = Some u' ∧ row_step u u') ∨
     (users db' !! id = None ∧ is_user u = true)) ∧
  (∀ id u', users db' !! id = Some u' → users db !! id = None → id = users_seq db + 1 ∧ id ≤ users_seq db') ∧
  (users_valid (users db) → users_valid (users db')).

Lemma update_step db w s rows db' :
  update_users db w s = Ok (rows, db') →
  (∀ id u, w id u = true → row_step u (s u)) → users_step db db'.
Proof.
  intros Hu Hs. pose proof (update_users_frame _ _ _ _ _ Hu) as (Hq & _).
  split_and!; [lia| | |intros _; by apply update_users_valid in Hu].
  - intros id u Hl. left. rewrite (update_users_lookup _ _ _ _ _ id Hu), Hl. cbn [fmap option_fmap option_map].
    eexists. split; [done|]. destruct (w id u) eqn:E; [by apply (Hs id)|apply row_step_refl].
  - intros id u' Hl Hn. by rewrite (update_users_lookup _ _ _ _ _ id Hu), Hn in Hl.
Qed.

Lemma scanRequired_step db action w s u db' :
  scanRequiredUser action (update_users db w s) = Ok (u, db') →
  (∀ id u, w id u = true → row_step u (s u)) → users_step db db'.
Proof.
  unfold scanRequiredUser. destruct (update_users db w s) as [[rows db0]|e] eqn:E; [|done].
  destruct rows as [|[i r] rows]; [done|]. intros [= _ <-]. exact (update_step _ _ _ _ _ E).
Qed.

Lemma one_changed_step db message w s db' :
  one_changed message (update_users db w s) = Ok db' →
  (∀ id u, w id u = true → row_step u (s u)) → users_step db db'.
Proof.
  unfold one_changed. destruct (update_users db w s) as [[rows db0]|e] eqn:E; [|done]. cbn [res_bind fst snd].
  destruct (_ =? 1)%nat; [|done]. intros [= <-]. exact (update_step _ _ _ _ _ E).
Qed.

(** Replacing the permissions leaves the users alone. *)
Lemma replacePermissions_users db id items db' :
  replacePermissions db id items = Ok db' → users db' = users db ∧ users_seq db' = users_seq db.
Proof. unfold replacePermissions. intros (p & _ & [= <-])%res_bind_Ok. done. Qed.

Lemma users_step_same db db1 db2 : users_step db db1 →
  users db2 = users db1 → users_seq db2 = users_seq db1 → users_step db db2.
Proof. unfold users_step. intros Hs -> ->. done. Qed.

Lemma insert_step db u id db' : insert_user db u = Ok (id, db') →
  (∀ i, is_Some (users db !! i) → i ≤ users_seq db) → users_step db db'.
Proof.
  unfold insert_user. case_decide as Hv; [|done]. intros [= <- <-] Hseq.
  split_and!; cbn [users users_seq with_users]; [lia| | |done].
  - intros i x Hx. left. assert (i ≤ users_seq db) by (apply Hseq; eauto).
    rewrite lookup_insert_ne by lia. exists x. split; [done|apply row_step_refl].
  - intros i x Hx Hn. apply lookup_insert_Some in Hx as [[<- _]|[_ Hx]]; [lia|by rewrite Hn in Hx].
Qed.

Lemma map_Forall_delete_valid m i : users_valid m → users_valid (delete i m).
Proof.
  intros Hv j u Hj. apply lookup_delete_Some in Hj as [_ Hj]. destruct (Hv _ _ Hj) as [H1 H2].
  split; [done|]. intros k v Hk. apply lookup_delete_Some in Hk as [_ Hk]. by apply H2.
Qed.

Definition seq_ok (db : Database) : Prop := ∀ i, is_Some (users db !! i) → i ≤ users_seq db.

Ltac row := intros i x Hw; bool_prop; unfold row_step, version, guard_of; cbn; split_and!; [lia|intros; lia|reflexivity].

Lemma store_step_users db db' : seq_ok db → store_step db db' → users_step db db'.
Proof.
  intros Hseq Hs. destruct Hs as [now id v s u db' E|now id v s u db' E|now id v u db' E
    |now id v h h' u db' E|now a h items id db' E|now a items reset db' E|now id h db' E|id db' E
    |now f l m p db' E|now p db' E|now db' E].
  - apply (scanRequired_step _ _ _ _ _ _ E). intros i x Hw. bool_prop.
    unfold row_step, version, guard_of, active_secret. cbn.
    match goal with Hn : totp_enabled_at _ = None |- _ => rewrite Hn end. split_and!; [lia|congruence|done].
  - apply (scanRequired_step _ _ _ _ _ _ E). row.
  - apply (scanRequired_step _ _ _ _ _ _ E). row.
  - apply (scanRequired_step _ _ _ _ _ _ E). row.
  - unfold CreateAdminUser in E. apply res_bind_Ok in E as ([i db1] & Hi & E).
    apply res_bind_Ok in E as (db2 & Hp & [= _ <-]). cbn [fst snd] in *.
    apply replacePermissions_users in Hp as [Hu Hq].
    apply (users_step_same db db1); [|done..]. by apply insert_step in Hi.
  - unfold UpdateAdminUser in E. destruct (users db !! a_ID a) as [r|] eqn:Hr; [|done].
    destruct (is_root r).
    + apply res_bind_Ok in E as ([rows db1] & Hu & [= <-]). cbn [snd].
      apply (update_step _ _ _ _ _ Hu). intros i x _.
      unfold row_step, version, guard_of, active_secret. cbn. split_and!; [lia|congruence|done].
    + apply res_bind_Ok in E as ([rows db1] & Hu & Hp). cbn [snd] in Hp.
      apply replacePermissions_users in Hp as [Hus Hq].
      apply (users_step_same db db1); [|done..].
      apply (update_step _ _ _ _ _ Hu). intros i x _. unfold row_step, version, guard_of, active_secret. cbn.
      destruct reset; split_and!; [lia|intros; lia|done|lia|congruence|done].
  - apply (one_changed_step _ _ _ _ _ E). row.
  - unfold DeleteAdminUser in E. destruct (users db !! id) as [u|] eqn:Hu; [|done].
    destruct (is_user u) eqn:Hk; [|done]. unfold delete_user in E. rewrite Hu in E.
    destruct (String.eqb _ _); [done|]. injection E as <-.
    split_and!; cbn [users users_seq]; [lia| | |apply map_Forall_delete_valid].
    + intros i x Hx. destruct (decide (i = id)) as [->|Hne].
      * right. rewrite lookup_delete_eq. split; [done|]. congruence.
      * left. rewrite lookup_delete_ne by done. exists x. split; [done|apply row_step_refl].
    + intros i x Hx Hn. apply lookup_delete_Some in Hx as [_ Hx]. by rewrite Hn in Hx.
  - unfold InitializeRoot in E. apply res_bind_Ok in E as (_ & _ & E).
    apply res_bind_Ok in E as (h & _ & E). apply res_bind_Ok in E as ([i db1] & Hi & [= <-]).
    by apply insert_step in Hi.
  - unfold ResetRootPassword in E. apply res_bind_Ok in E as (h & _ & E).
    apply (one_changed_step _ _ _ _ _ E). row.
  - apply (one_changed_step _ _ _ _ _ E). row.
Qed.

Lemma users_step_seq db db' : seq_ok db → users_step db db' → seq_ok db'.
Proof.
  intros Hs (Hq & Hold & Hnew & _) i [u Hu]. destruct (users db !! i) as [u0|] eqn:E.
  - assert (i ≤ users_seq db) by (apply Hs; eauto). lia.
  - by destruct (Hnew i u Hu E).
Qed.

Definition store_run : Database → Database → Prop := rtc store_step.

Lemma store_run_ind (P : Database → Prop) db db' :
  seq_ok db → P db → (∀ d d', seq_ok d → P d → users_step d d' → P d') → store_run db db' → P db'.
Proof.
  intros Hseq HP Hstep Hrun. induction Hrun as [d|d d1 d2 Hs _ IH]; [done|].
  pose proof (store_step_users d d1 Hseq Hs) as Hu. apply IH; [by apply users_step_seq in Hu|].
  by apply (Hstep d).
Qed.

(** A life of the store: its methods in any order, and restores of backups taken during that
    life, whether they succeed or fail at any call. *)
Inductive store_life (sqlite_open : string → option Database) (d0 : Database) : Database → Prop :=
| life_start : store_life sqlite_open d0 d0
| life_step d d' : store_life sqlite_open d0 d → store_step d d' → store_life sqlite_open d0 d'
| life_restore d backup content calls :
    store_life sqlite_open d0 d → store_life sqlite_open d0 backup → sqlite_open content = Some backup →
    store_life sqlite_open d0 (RestoreDatabase sqlite_open calls d content).2.

(** What a restore puts in place of the accounts. *)
Lemma RestoreDatabase_cases sqlite_open calls d content :
  (RestoreDatabase sqlite_open calls d content).2 = d ∨
  ∃ backup, sqlite_open content = Some backup ∧
    (((RestoreDatabase sqlite_open calls d content).2 = backup ∧ is_Some (RestoreDatabase sqlite_open calls d content).1) ∨
     raise_versions backup = Ok (RestoreDatabase sqlite_open calls d content).2).
Proof.
  unfold RestoreDatabase. destruct (_ || _); [by left|]. destruct (written calls); [by left|].
  destruct (validateBackup sqlite_open content) as [backup|] eqn:Hv; [|by left].
  unfold validateBackup in Hv. destruct (sqlite_open content) as [b|]; [|done]. destruct (_ =? 1)%nat; [|done]. injection Hv as ->.
  destruct (saved calls); [by left|]. destruct (copied calls); [by left|]. right. exists backup. split; [done|].
  destruct (raised calls); [by left; cbn; eauto|]. destruct (raise_versions backup); [by right|left; cbn; eauto].
Qed.
Lemma raise_versions_spec db db' : raise_versions db = Ok db' →
  users_step db db' ∧
  (∀ id u, users db !! id = Some u → ∃ u', users db' !! id = Some u' ∧ version u' = version u + 1 ∧ is_active u' = is_active u) ∧
  users_seq db' = users_seq db ∧ (∀ id, is_Some (users db' !! id) ↔ is_Some (users db !! id)).
Proof.
  unfold raise_versions. intros ([rows d] & Hu & [= <-])%res_bind_Ok. cbn [snd]. split_and!.
  - apply (update_step _ _ _ _ _ Hu). intros i x _. unfold row_step, version, guard_of, active_secret. cbn. split_and!; [lia|congruence|done].
  - intros id u Hl. rewrite (update_users_lookup _ _ _ _ _ id Hu), Hl. cbn. by eexists.
  - by pose proof (update_users_frame _ _ _ _ _ Hu) as (Hq & _).
  - intros id. rewrite (update_users_lookup _ _ _ _ _ id Hu). by destruct (users db !! id).
Qed.
(** A property of a database that every step of the accounts keeps. *)
Lemma store_life_ind_step sqlite_open (P : Database → Prop) d0 db :
  seq_ok d0 → P d0 → (∀ d d', seq_ok d → P d → users_step d d' → P d') → store_life sqlite_open d0 db → P db.
Proof.
  intros Hseq HP Hstep Hrun. cut (seq_ok db ∧ P db); [by intros []|].
  induction Hrun as [|d d' _ [Hq Hd] Hs|d backup content calls _ [Hq Hd] _ [Hqb Hb] Ho]; [done| |].
  - pose proof (store_step_users d d' Hq Hs) as Hu. split; [by apply users_step_seq in Hu|by apply (Hstep d)].
  - destruct (RestoreDatabase_cases sqlite_open calls d content) as [->|(b & Ho' & [[-> _]|Hr])]; [done|by simplify_eq|].
    simplify_eq. apply raise_versions_spec in Hr as [Hu _]. split; [by apply users_step_seq in Hu|by apply (Hstep backup)].
Qed.

(** C8: whatever method changes what guards an account, its password, the obligation to
    change it, its second factor being on or off or the secret in force, strictly raises
    the account's authentication version, and no method ever lowers one.  The methods are all
    those on the accounts but [RestoreDatabase], which replaces the tables by those of an
    older file; the identifiers in use are not above the sequence of the table. *)
Theorem guard_change_bumps_version db db' id u u' :
  seq_ok db → store_step db db' → users db !! id = Some u → users db' !! id = Some u' →
  version u ≤ version u' ∧ (guard_of u ≠ guard_of u' → version u < version u').
Proof.
  intros Hseq Hs Hu Hu'. destruct (store_step_users db db' Hseq Hs) as (_ & Hold & _).
  destruct (Hold id u Hu) as [(u1 & Hu1 & Hr)|[Hn _]]; [|by rewrite Hn in Hu'].
  rewrite Hu' in Hu1. injection Hu1 as ->. by destruct Hr as (? & ? & _).
Qed.

(** A session made for version [v] of account [id] is accepted. *)
Definition session_accepted (db : Database) (id v : Z) : Prop :=
  ∃ u, users db !! id = Some u ∧ is_active u = true ∧ version u = v.

(** The account is gone or has a later version. *)
Definition superseded (v id : Z) (db : Database) : Prop :=
  id ≤ users_seq db ∧ ∀ u, users db !! id = Some u → v < version u.

(** A session that is superseded stays refused. *)
Lemma superseded_final sqlite_open db db' id v :
  seq_ok db → superseded v id db → store_life sqlite_open db db' → ¬ session_accepted db' id v.
Proof.
  intros Hseq Hsup Hrun.
  assert (superseded v id db') as [_ Hv].
  { revert Hrun. apply store_life_ind_step; [done..|]. intros d d' Hd [Hq Hv] (Hq' & Hold & Hnew & _).
    split; [lia|]. intros u Hu. destruct (users d !! id) as [u0|] eqn:E.
    - destruct (Hold id u0 E) as [(u1 & Hu1 & Hle & _)|[Hn _]]; [|by rewrite Hn in Hu].
      rewrite Hu in Hu1. injection Hu1 as ->. specialize (Hv u0 eq_refl). lia.
    - destruct (Hnew id u Hu E). lia. }
  intros (u & Hu & _ & Hver). specialize (Hv u Hu). lia.
Qed.

(** C9: revocation is final: once the account of a session has been deleted or has moved to
    a later version, no sequence of operations on the store makes that session acceptable
    again: not the creation of new accounts, nor a restore, succeeding or failing at any
    call, of a backup taken since the revocation.  (A backup taken before it is the
    exception: it may bring the version back.)  The identifiers in use are not above the
    sequence of the table. *)
Theorem revocation_final sqlite_open db db' id v :
  seq_ok db → superseded v id db → store_life sqlite_open db db' → ¬ session_accepted db' id v.
Proof. apply superseded_final. Qed.

Lemma root_checks u : user_checks u = true → is_root u = true →
  is_active u = true ∧ can_view (u_rights u) = 1 ∧ can_act (u_rights u) = 1 ∧ can_modify (u_rights u) = 1.
Proof.
  unfold user_checks, is_root, is_active. cbv zeta. intros Hc Hr. rewrite Hr in Hc.
  cbn [negb orb] in Hc. bool_prop. by rewrite String.eqb_eq.
Qed.

(** The root account: in a sound database, no sequence of operations removes it, demotes
    it, suspends it, takes one of its rights or adds a second one. *)
Theorem root_protected db db' r u :
  seq_ok db → users_valid (users db) → users db !! r = Some u → is_root u = true →
  store_run db db' →
  ∃ u', users db' !! r = Some u' ∧ is_root u' = true ∧ is_active u' = true ∧
    can_view (u_rights u') = 1 ∧ can_act (u_rights u') = 1 ∧ can_modify (u_rights u') = 1 ∧
    ∀ i x, users db' !! i = Some x → is_root x = true → i = r.
Proof.
  intros Hseq Hval Hu Hr Hrun.
  assert (users_valid (users db') ∧ ∃ u', users db' !! r = Some u' ∧ is_root u' = true)
    as (Hv & u' & Hu' & Hr').
  { revert Hrun. apply (store_run_ind (λ d, users_valid (users d) ∧ ∃ u', users d !! r = Some u' ∧ is_root u' = true));
      [done|by eauto|]. intros d d' Hd (Hv & x & Hx & Hxr) (_ & Hold & _ & Hval').
    split; [by apply Hval'|]. destruct (Hold r x Hx) as [(x' & Hx' & _ & _ & Hk)|[_ Hk]].
    - exists x'. split; [done|]. unfold is_root in *. by rewrite Hk.
    - unfold is_user, is_root in *. apply String.eqb_eq in Hk. by rewrite Hk in Hxr. }
  exists u'. destruct (Hv _ _ Hu') as [Hc Hcomp]. destruct (root_checks u' Hc Hr') as (? & ? & ? & ?).
  split_and!; [done..|]. intros i x Hx Hxr. destruct (Hcomp i x Hx) as [?|Hb]; [done|].
  unfold users_compatible in Hb. unfold is_root in *. rewrite Hr', Hxr in Hb. by rewrite andb_false_r in Hb.
Qed.
End Steps.

(** ** What the methods on one account return *)

Lemma scanRequired_row db action w s user db' :
  scanRequiredUser action (update_users db w s) = Ok (user, db') →
  ∃ id u, users db !! id = Some u ∧ w id u = true ∧ users db' !! id = Some (s u) ∧ user = scanUser id (s u).
Proof.
  unfold scanRequiredUser. destruct (update_users db w s) as [[rows db0]|e] eqn:E; [|done].
  destruct rows as [|[i r] rows]; [done|]. intros [= <- <-].
  destruct (proj1 (update_users_rows _ _ _ _ _ i r E)) as (u & Hu & Hw & ->); [left|].
  exists i, u. split_and!; [done..| |done].
  rewrite (update_users_lookup _ _ _ _ _ i E), Hu. cbn. by rewrite Hw.
Qed.

(** The account [id] at version [v] gave way to the one returned. *)
Definition account_changed (db db' : Database) (id v : Z) (user : User) (u u' : UserRow) : Prop :=
  users db !! id = Some u ∧ users db' !! id = Some u' ∧ user = scanUser id u' ∧ version u = v ∧
  is_active u = true ∧ is_active u' = true.

Ltac account H :=
  apply scanRequired_row in H as (i & u & Hu & Hw & Hu' & ->); bool_prop;
  match goal with Hi : i = _ |- _ => rewrite Hi in * end;
  eexists u, _; split; [split_and!; [exact Hu|exact Hu'|reflexivity|done..]|].

Lemma ChangePassword_account db now id v h h' user db' :
  ChangePassword db now id v h h' = Ok (user, db') →
  ∃ u u', account_changed db db' id v user u u' ∧ password_hash (u_credentials u) = h ∧
    password_hash (u_credentials u') = h' ∧ version u' = v + 1 ∧
    must_change_password (u_credentials u') = 0 ∧ active_secret u' = active_secret u.
Proof. intros H0. account H0. unfold version in *. cbn. split_and!; [done..|lia|done|done]. Qed.

Lemma PrepareTOTP_account db now id v secret user db' :
  PrepareTOTP db now id v secret = Ok (user, db') →
  ∃ u u', account_changed db db' id v user u u' ∧ version u' = v ∧
    must_change_password (u_credentials u') = must_change_password (u_credentials u) ∧
    totp_enabled_at (u_credentials u') = None ∧ totp_secret (u_credentials u') ≠ None.
Proof. intros H0. account H0. by unfold version in *. Qed.

Lemma EnableTOTP_account db now id v secret user db' :
  EnableTOTP db now id v secret = Ok (user, db') →
  ∃ u u', account_changed db db' id v user u u' ∧ version u' = v + 1 ∧
    must_change_password (u_credentials u') = must_change_password (u_credentials u) ∧
    active_secret u' = Some secret.
Proof. intros H0. account H0. unfold version, active_secret in *. cbn. split_and!; [lia|done..]. Qed.

Lemma DisableTOTP_account db now id v user db' :
  DisableTOTP db now id v = Ok (user, db') →
  ∃ u u', account_changed db db' id v user u u' ∧ version u' = v + 1 ∧
    must_change_password (u_credentials u') = must_change_password (u_credentials u) ∧
    active_secret u' = None.
Proof. intros H0. account H0. unfold version, active_secret in *. cbn. split_and!; [lia|done..]. Qed.

(** Logins are unique, letter case apart. *)
Lemma FindByLogin_unique db id u l : users_valid (users db) → users db !! id = Some u →
  nocase_eq (login (u_identity u)) l = true → FindByLogin db l = Some (scanUser id u).
Proof.
  intros Hv Hu Hl. unfold FindByLogin. destruct (first_user _ db) as [user|] eqn:E.
  - apply first_user_spec in E as (j & x & Hx & Hp & ->). destruct (decide (id = j)) as [<-|Hne]; [congruence|].
    destruct (Hv _ _ Hu) as [_ Hd]. destruct (Hd _ _ Hx) as [?|Hc]; [done|].
    unfold users_compatible in Hc. unfold nocase_eq in *. bool_prop. congruence.
  - pose proof (first_user_none _ _ _ _ E Hu) as Hf. cbv beta in Hf. congruence.
Qed.

Lemma CreateAdminUser_spec db now u hash items id db' : CreateAdminUser db now u hash items = Ok (id, db') →
  id = users_seq db + 1 ∧ users_valid (users db') ∧
  ∃ row, users db' = <[id := row]> (users db) ∧ login (u_identity row) = a_Login u ∧ is_user row = true ∧
    is_active row = true ∧ password_hash (u_credentials row) = hash ∧
    must_change_password (u_credentials row) = 1 ∧ version row = 1 ∧
    two_factor_required (u_credentials row) = boolInt (a_TwoFactorRequired u) ∧
    totp_secret (u_credentials row) = None ∧ totp_enabled_at (u_credentials row) = None.
Proof.
  unfold CreateAdminUser, insert_user. intros ([i db1] & Hi & H)%res_bind_Ok. case_decide as Hv; [|done].
  injection Hi as <- <-. apply res_bind_Ok in H as (db2 & Hp & [= <- <-]). cbn [fst snd] in *.
  apply replacePermissions_users in Hp as [Hu _]. rewrite Hu. split_and!; [done|done|].
  eexists. split; [reflexivity|]. done.
Qed.

(** ** Permissions *)

Definition valid_level (level : string) : Prop := level = "view" ∨ level = "action" ∨ level = "modify".

(** What the form may ask for a module. *)
Definition item_ok (m : gmap Z ModuleRow) (item : Z * string) : Prop :=
  item.2 = "none" ∨
  (valid_level item.2 ∧ ∃ row, m !! item.1 = Some row ∧ assignable row = true).

Lemma grant_cases m userID p item :
  (item_ok m item ∧ grant m userID p item =
     Ok (if String.eqb item.2 "none" then p else <[(userID, item.1) := item.2]> p)) ∨
  (¬ item_ok m item ∧ ∃ e, grant m userID p item = Err e).
Proof.
  destruct item as [id level]. unfold grant, item_ok, valid_level. cbn [fst snd].
  destruct (String.eqb_spec level "none") as [->|Hn]; [left; split; [by left|done]|].
  match goal with |- context [if ?b then Err _ else _] => destruct b eqn:Hb end.
  - right. split; [|by eauto]. by intros [?|[[->|[->| ->]] _]].
  - assert (level = "view" ∨ level = "action" ∨ level = "modify") as Hv.
    { destruct (String.eqb_spec level "view"), (String.eqb_spec level "action"),
        (String.eqb_spec level "modify"); auto; discriminate. }
    destruct (m !! id) as [row|]; [destruct (assignable row) eqn:Ea|].
    + left. split; [right; split; [done|by eauto]|done].
    + right. split; [|by eauto]. intros [?|[_ (? & [= ->] & ?)]]; congruence.
    + right. split; [|by eauto]. by intros [?|[_ (? & ? & _)]].
Qed.

Lemma grant_all_Ok m userID items p : NoDup items.*1 →
  (∃ p', grant_all m userID p items = Ok p') ↔ Forall (item_ok m) items.
Proof.
  revert p. induction items as [|item items IH]; intros p; cbn [grant_all fmap list_fmap].
  { intros _. split; [constructor|by eauto]. }
  intros [_ Hnd]%NoDup_cons. rewrite Forall_cons.
  destruct (grant_cases m userID p item) as [[Hok ->]|[Hno [e ->]]]; cbn [res_bind].
  - rewrite IH by done. tauto.
  - split; [by intros [? ?]|tauto].
Qed.

Lemma grant_all_lookup m userID items p p' : NoDup items.*1 →
  grant_all m userID p items = Ok p' →
  ∀ k, p' !! k = match (list_to_map items : gmap Z string) !! k.2 with
                 | Some level => if decide (k.1 = userID ∧ level ≠ "none") then Some level else p !! k
                 | None => p !! k
                 end.
Proof.
  revert p. induction items as [|[id level] items IH]; intros p; cbn [grant_all fmap list_fmap list_to_map foldr fst].
  { intros _ [= <-] k. done. }
  intros [Hni Hnd]%NoDup_cons Hg [u i]. cbn [fst snd].
  destruct (grant_cases m userID p (id, level)) as [[_ Hgr]|[_ [e Hgr]]]; rewrite Hgr in Hg; cbn [res_bind fst snd] in Hg; [|done].
  rewrite (IH _ Hnd Hg). cbn [fst snd uncurry]. destruct (decide (i = id)) as [->|Hne].
  - rewrite lookup_insert_eq, (not_elem_of_list_to_map_1 _ _ Hni).
    destruct (String.eqb_spec level "none") as [->|Hl].
    + by rewrite decide_False by naive_solver.
    + destruct (decide (u = userID)) as [->|Hu].
      * by rewrite lookup_insert_eq, decide_True.
      * rewrite decide_False by naive_solver. by rewrite lookup_insert_ne by congruence.
  - rewrite (lookup_insert_ne _ id i) by done.
    assert ((if String.eqb level "none" then p else <[(userID, id):=level]> p) !! (u, i) = p !! (u, i)) as ->; [|done].
    destruct (String.eqb level "none"); [done|]. by rewrite lookup_insert_ne by congruence.
Qed.

(** Saving the rights of an account: it succeeds exactly when every level asked, other
    than "none", is one of view, action and modify on an enabled module of view policy;
    then the account has exactly the rights asked and every other account keeps its own;
    when it fails nothing changes. *)
Theorem replacePermissions_spec db userID items :
  ((∃ db', replacePermissions db userID items = Ok db') ↔ map_Forall (λ id level, item_ok (modules db) (id, level)) items) ∧
  ∀ db', replacePermissions db userID items = Ok db' →
    users db' = users db ∧ modules db' = modules db ∧
    ∀ u m, permissions db' !! (u, m) =
      if decide (u = userID)
      then match items !! m with Some level => if decide (level = "none") then None else Some level | None => None end
      else permissions db !! (u, m).
Proof.
  unfold replacePermissions. set (p0 := filter _ (permissions db)).
  pose proof (NoDup_fst_map_to_list items) as Hnd. split.
  - rewrite map_Forall_to_list.
    transitivity (Forall (item_ok (modules db)) (map_to_list items)).
    2:{ apply Forall_proper; [|done]. by intros [? ?]. }
    rewrite <- (grant_all_Ok (modules db) userID _ p0 Hnd). split.
    + intros (db' & (p & Hp & _)%res_bind_Ok). by exists p.
    + intros (p & ->). cbn. by eauto.
  - intros db' (p & Hp & [= <-])%res_bind_Ok. cbn [users modules permissions with_users].
    split_and!; [done..|]. intros u m. rewrite (grant_all_lookup _ _ _ _ _ Hnd Hp), list_to_map_to_list.
    cbn [fst snd]. subst p0. destruct (decide (u = userID)) as [->|Hu].
    + assert (filter (λ kv : Z * Z * string, kv.1.1 ≠ userID) (permissions db) !! (userID, m) = None) as ->.
      { apply map_lookup_filter_None. right. intros l _. cbn. tauto. }
      destruct (items !! m) as [l|]; [|done]. destruct (decide (l = "none")).
      * by rewrite decide_False by tauto.
      * by rewrite decide_True.
    + assert (filter (λ kv : Z * Z * string, kv.1.1 ≠ userID) (permissions db) !! (u, m) = permissions db !! (u, m)) as ->.
      { apply option_eq. intros l. rewrite map_lookup_filter_Some. cbn. tauto. }
      destruct (items !! m); [|done]. by rewrite decide_False by tauto.
Qed.

(** ** Restoring *)

(** Restoring a backup replaces the accounts by those of the backup with every
    authentication version one higher: a session made for version [v] is accepted
    afterwards exactly when the backup would have accepted a session of version [v - 1].
    Sessions of the version the backup was made at are revoked; a session opened later, at
    the next version, is not. *)
Theorem RestoreDatabase_versions sqlite_open calls db content db' :
  RestoreDatabase sqlite_open calls db content = (None, db') →
  ∃ backup, sqlite_open content = Some backup ∧ slen content ≤ maximumRestoreBytes ∧
    ∀ id v, session_accepted db' id v ↔ session_accepted backup id (v - 1).
Proof.
  unfold RestoreDatabase. intros Hr.
  destruct ((slen content <? 100) || (maximumRestoreBytes <? slen content) || _) eqn:Hc; [done|].
  destruct (written calls); [done|]. unfold validateBackup in Hr. destruct (sqlite_open content) as [backup|]; [|done].
  destruct (_ =? 1)%nat; [|done]. destruct (saved calls); [done|]. destruct (copied calls); [done|].
  destruct (raised calls); [done|]. destruct (raise_versions backup) as [d|] eqn:Hu; [|done].
  injection Hr as _ ->. exists backup. bool_prop. split_and!; [done..|].
  apply raise_versions_spec in Hu as (_ & Hrows & _ & Hdom). intros id v. unfold session_accepted.
  destruct (users backup !! id) as [u|] eqn:Hb.
  - destruct (Hrows id u Hb) as (u' & Hu' & Hv & Ha). rewrite Hu'.
    split; intros (x & [= <-] & Hx & Hxv); eexists; (split; [done|]); (split; [congruence|lia]).
  - destruct (users db' !! id) as [x|] eqn:Hx; [by destruct (proj1 (Hdom id) ltac:(eauto)) as [? ?]; congruence|].
    split; by intros (? & ? & _).
Qed.

(** ** A small database *)

Definition sample_user (kind_ : string) (name : string) (hash : string) (v : Z) : UserRow :=
  let root := String.eqb kind_ "root" in
  {| u_identity := {| login := name; first_name := "A"; last_name := "B"; email := "" |};
     u_rights := {| kind := kind_; status := "active"; can_view := 1; can_act := boolInt root; can_modify := boolInt root |};
     u_credentials := {| password_hash := hash; must_change_password := 0; auth_version := v;
                         two_factor_required := 0; totp_secret := None; totp_enabled_at := None |};
     u_stamps := {| created_at := ""; updated_at := ""; password_changed_at := "" |} |}.

Definition sample_module (key : string) (category position enabled essential : Z) (policy : string) : ModuleRow :=
  {| module_key := key; m_name := key; route := "/" +++ key; icon := "*"; category_id := category;
     m_position := position; is_enabled := enabled; is_essential := essential; access_policy := policy;
     m_created_at := ""; m_updated_at := "" |}.

Definition sample_category (name : string) (position : Z) : CategoryRow :=
  {| c_name := name; c_position := position; c_created_at := ""; c_updated_at := "" |}.

Definition sample_db (hash : string) (v : Z) : Database :=
  {| users := {[ 1 := sample_user "root" "root" hash v; 2 := sample_user "user" "alice" "h2" 1 ]};
     users_seq := 2;
     categories := {[ 1 := sample_category "Supervision" 0; 2 := sample_category "Information" 1 ]};
     categories_seq := 2;
     modules := {[ 1 := sample_module "services" 1 0 1 0 "view"; 2 := sample_module "cron" 1 1 1 0 "view";
                   3 := sample_module "about" 2 0 1 1 "view"; 4 := sample_module "users" 2 1 1 1 "root" ]};
     modules_seq := 4;
     permissions := {[ (2, 1) := "action" ]};
     settings := ∅; preferences := ∅; access_log := ∅; access_log_seq := 0 |}.

Lemma sample_seq_ok hash v : seq_ok (sample_db hash v).
Proof.
  intros i [u Hi]. cbn [users sample_db] in Hi. cbn [users_seq sample_db].
  apply lookup_insert_Some in Hi as [[<- _]|[_ Hi]]; [lia|].
  apply lookup_singleton_Some in Hi as [<- _]. lia.
Qed.

Definition no_hash : string → option string := λ p, Some ("$2a$10$" +++ p).

(** The root password is changed on the command line. *)
Definition sample_changed : Database :=
  match ResetRootPassword no_hash (sample_db "old" 1) "t" "new password" with Ok d => d | Err _ => sample_db "old" 1 end.

Lemma sample_change_step :
  store_step (H := ascii_case) no_hash Some (sample_db "old" 1) sample_changed.
Proof. eapply (do_ResetRoot (H := ascii_case) _ _ _ "t" "new password"). vm_compute. reflexivity. Qed.

Lemma guard_change_bumps_version_witness :
  ∃ u u', users (sample_db "old" 1) !! 1 = Some u ∧ users sample_changed !! 1 = Some u' ∧
    guard_of u ≠ guard_of u' ∧ version u < version u'.
Proof.
  eexists _, _. split; [vm_compute; reflexivity|]. split; [vm_compute; reflexivity|].
  split; [vm_compute; discriminate|].
  refine (proj2 (guard_change_bumps_version (H := ascii_case) no_hash Some (sample_db "old" 1) sample_changed 1 _ _
    (sample_seq_ok _ _) sample_change_step _ _) _); vm_compute; [reflexivity..|discriminate].
Defined.

Lemma sample_valid : users_valid (users (sample_db "old" 1)).
Proof. apply (bool_decide_eq_true_1 _). vm_compute. reflexivity. Qed.

Lemma root_protected_witness : ∃ u', users sample_changed !! 1 = Some u' ∧ is_root u' = true.
Proof.
  destruct (root_protected (H := ascii_case) no_hash Some (sample_db "old" 1) sample_changed 1
    (sample_user "root" "root" "old" 1)) as (u' & H1 & H2 & _);
    [apply sample_seq_ok|exact sample_valid|vm_compute; reflexivity..|eapply rtc_once, sample_change_step|].
  exists u'. exact (conj H1 H2).
Defined.

(** A session opened after the backup, under the new password, survives the restore of
    the backup, although its account is back to the old password. *)
Definition sample_backup : string :=
  "SQLite format 3" +++ snul +++ zeros 100.
Definition sample_open (content : string) : option Database :=
  if String.eqb content sample_backup then Some (sample_db "old" 1) else None.
Definition sample_restored : Database := (RestoreDatabase sample_open all_succeed sample_changed sample_backup).2.

Lemma RestoreDatabase_versions_witness :
  session_accepted sample_changed 1 2 ∧ session_accepted sample_restored 1 2 ∧
  (∃ u, users sample_changed !! 1 = Some u ∧ password_hash (u_credentials u) = "$2a$10$new password") ∧
  (∃ u, users sample_restored !! 1 = Some u ∧ password_hash (u_credentials u) = "old").
Proof.
  assert (RestoreDatabase sample_open all_succeed sample_changed sample_backup = (None, sample_restored)) as Hr
    by (vm_compute; reflexivity).
  destruct (RestoreDatabase_versions _ _ _ _ _ Hr) as (backup & Hb & _ & Hiff).
  assert (backup = sample_db "old" 1) as -> by (vm_compute in Hb; injection Hb as <-; reflexivity).
  split_and!.
  - eexists. split; [vm_compute; reflexivity|]. split; vm_compute; reflexivity.
  - apply Hiff. eexists. split; [vm_compute; reflexivity|]. split; vm_compute; reflexivity.
  - eexists. split; vm_compute; reflexivity.
  - eexists. split; vm_compute; reflexivity.
Defined.

(** A session of version 1 is revoked by the change of the password; a backup is then taken,
    the password is changed again, and the backup restored. *)
Definition changed_open (content : string) : option Database :=
  if String.eqb content sample_backup then Some sample_changed else None.
Definition sample_changed_twice : Database :=
  match ResetRootPassword no_hash sample_changed "t" "third password" with Ok d => d | Err _ => sample_changed end.
Lemma sample_second_change : store_step (H := ascii_case) no_hash Some sample_changed sample_changed_twice.
Proof. eapply (do_ResetRoot (H := ascii_case) _ _ _ "t" "third password"). vm_compute. reflexivity. Qed.
Lemma sample_changed_seq : seq_ok sample_changed.
Proof.
  apply (users_step_seq (sample_db "old" 1)); [apply sample_seq_ok|].
  apply (store_step_users (H := ascii_case) no_hash Some); [apply sample_seq_ok|exact sample_change_step].
Qed.

Lemma revocation_final_witness :
  session_accepted (sample_db "old" 1) 1 1 ∧
  ¬ session_accepted (RestoreDatabase changed_open all_succeed sample_changed_twice sample_backup).2 1 1.
Proof.
  split; [eexists; split_and!; vm_compute; reflexivity|].
  apply (revocation_final (H := ascii_case) no_hash Some changed_open sample_changed); [exact sample_changed_seq| |].
  - split; [vm_compute; discriminate|]. intros u Hu. vm_compute in Hu. injection Hu as <-. vm_compute. reflexivity.
  - apply life_restore with sample_changed; [eapply life_step; [apply life_start|exact sample_second_change]|apply life_start|].
    vm_compute. reflexivity.
Defined.
