(* ===== verification/StoreNav.v ===== *)
(** * Navigation and rights ([internal/authstore]: store.go, admin.go, navigation_admin.go)

    The two queries that decide what an account may reach, the menu and the right on one
    module, and the administration of categories and modules. *)

From S2P Require Import Prelude GoStrings StringFacts Schema Store.
From Stdlib Require Import Ascii String.
#[local] Open Scope string_scope.
#[local] Open Scope list_scope.
#[local] Open Scope Z_scope.

(** ** Statements on the two tables *)

(** The trigger of migration 002: an essential module stays essential and enabled. *)
Definition unprotects (old new : ModuleRow) : bool :=
  (is_essential old =? 1) && (negb (is_enabled new =? 1) || negb (is_essential new =? 1)).

Definition update_modules (db : Database) (where_ : Z → ModuleRow → bool) (set : ModuleRow → ModuleRow)
    : res sql_error (nat * Database) :=
  let changed := filter (λ im, where_ im.1 im.2 = true) (map_to_list (modules db)) in
  let modules' := map_imap (λ i m, Some (if where_ i m then set m else m)) (modules db) in
  if existsb (λ im, unprotects im.2 (set im.2)) changed then Err ErrConstraint
  else if decide (modules_valid (categories db) modules') then
    Ok (List.length changed, with_navigation db (categories db) (categories_seq db) modules' (modules_seq db))
  else Err ErrConstraint.

Definition update_categories (db : Database) (where_ : Z → CategoryRow → bool) (set : CategoryRow → CategoryRow)
    : res sql_error (nat * Database) :=
  let changed := filter (λ ic, where_ ic.1 ic.2 = true) (map_to_list (categories db)) in
  let categories' := map_imap (λ i c, Some (if where_ i c then set c else c)) (categories db) in
  if decide (categories_valid categories') then
    Ok (List.length changed, with_navigation db categories' (categories_seq db) (modules db) (modules_seq db))
  else Err ErrConstraint.

(** [oneRow]: the statement must have changed exactly one row. *)
Definition oneRow (result : res sql_error (nat * Database)) : res sql_error Database :=
  let! r := result in
  if (r.1 =? 1)%nat then Ok r.2 else Err (ErrMessage "item not found or protected").

(** ** The menu *)

Record NavigationModule := {
  nm_ID : Z; nm_Key : string; nm_Name : string; nm_Route : string; nm_Icon : string; PermissionLevel : string;
}.
Record NavigationCategory := { nc_ID : Z; nc_Name : string; nc_Modules : list NavigationModule }.

(** A joined row: the category, then the module when there is one. *)
Record nav_row := { row_cid : Z; row_category : CategoryRow; row_mid : Z; row_module : ModuleRow }.

(** ORDER BY c.position, c.id, m.position, m.id *)
Definition nav_le (a b : nav_row) : Prop :=
  c_position (row_category a) < c_position (row_category b) ∨
  c_position (row_category a) = c_position (row_category b) ∧
    (row_cid a < row_cid b ∨ row_cid a = row_cid b ∧
      (m_position (row_module a) < m_position (row_module b) ∨
       m_position (row_module a) = m_position (row_module b) ∧ row_mid a ≤ row_mid b)).
#[global] Instance nav_le_dec a b : Decision (nav_le a b).
Proof. unfold nav_le. apply _. Defined.

Definition joined (db : Database) : list nav_row :=
  omap (λ im : Z * ModuleRow,
    (λ c, {| row_cid := category_id im.2; row_category := c; row_mid := im.1; row_module := im.2 |})
      <$> categories db !! category_id im.2) (map_to_list (modules db)).

Definition is_about (m : ModuleRow) : bool := nocase_eq (module_key m) "about".

(** The right an account has on a module row, by both queries. *)
Definition row_level (db : Database) (user : User) (mid : Z) (m : ModuleRow) : option string :=
  if negb (is_enabled m =? 1) then None
  else if String.eqb (Type_ user) "root" then Some "modify"
  else if negb (String.eqb (access_policy m) "view") then None
  else if is_about m then Some "view"
  else permissions db !! (UserID user, mid).

(** One row added to the list of categories, found by the [index] map. *)
Definition add_row (state : list NavigationCategory * gmap Z nat) (row : Z * string * NavigationModule)
    : list NavigationCategory * gmap Z nat :=
  let '(items, index) := state in
  let '(cid, cname, m) := row in
  let '(at_, items, index) :=
    match index !! cid with
    | Some position => (position, items, index)
    | None => (List.length items, (items ++ [{| nc_ID := cid; nc_Name := cname; nc_Modules := [] |}])%list,
               <[cid := List.length items]> index)
    end in
  (alter (λ c, {| nc_ID := nc_ID c; nc_Name := nc_Name c; nc_Modules := (nc_Modules c ++ [m])%list |}) at_ items, index).

Definition group_rows (rows : list (Z * string * NavigationModule)) : list NavigationCategory :=
  (fold_left add_row rows ([], ∅)).1.

Definition nav_module (mid : Z) (m : ModuleRow) (level : string) : NavigationModule :=
  {| nm_ID := mid; nm_Key := module_key m; nm_Name := m_name m; nm_Route := route m; nm_Icon := icon m;
     PermissionLevel := level |}.

Definition menu_row (db : Database) (user : User) (r : nav_row) : option (Z * string * NavigationModule) :=
  (λ level, (row_cid r, c_name (row_category r), nav_module (row_mid r) (row_module r) level))
    <$> row_level db user (row_mid r) (row_module r).

Definition Menu (db : Database) (user : User) : list NavigationCategory :=
  group_rows (omap (menu_row db user) (merge_sort nav_le (joined db))).

(** [PermissionForModule]: the level, or nothing when the account may not open the module. *)
Definition PermissionForModule (db : Database) (user : User) (moduleKey : string) : option string :=
  match filter (λ im : Z * ModuleRow, nocase_eq (module_key im.2) moduleKey = true) (map_to_list (modules db)) with
  | [] => None
  | (mid, m) :: _ =>
      if String.eqb (Type_ user) "root" then (if is_enabled m =? 1 then Some "modify" else None)
      else if (is_enabled m =? 1) && String.eqb (access_policy m) "view"
      then (if is_about m then Some "view" else permissions db !! (UserID user, mid))
      else None
  end.

(** ** Administration *)

Record AssignableModule := { as_ID : Z; as_Key : string; as_Name : string; as_Category : string }.

Definition AssignableModules (db : Database) : list AssignableModule :=
  omap (λ r, if assignable (row_module r) && negb (is_about (row_module r))
             then Some {| as_ID := row_mid r; as_Key := module_key (row_module r);
                          as_Name := m_name (row_module r); as_Category := c_name (row_category r) |}
             else None) (merge_sort nav_le (joined db)).

Definition set_position (now : string) (position : Z) (c : CategoryRow) : CategoryRow :=
  {| c_name := c_name c; c_position := position; c_created_at := c_created_at c; c_updated_at := now |}.
Definition set_name (now name : string) (c : CategoryRow) : CategoryRow :=
  {| c_name := name; c_position := c_position c; c_created_at := c_created_at c; c_updated_at := now |}.
Definition place_module (now : string) (category position : Z) (m : ModuleRow) : ModuleRow :=
  {| module_key := module_key m; m_name := m_name m; route := route m; icon := icon m;
     category_id := category; m_position := position; is_enabled := is_enabled m;
     is_essential := is_essential m; access_policy := access_policy m;
     m_created_at := m_created_at m; m_updated_at := now |}.
Definition enable_module (now : string) (enabled : bool) (m : ModuleRow) : ModuleRow :=
  {| module_key := module_key m; m_name := m_name m; route := route m; icon := icon m;
     category_id := category_id m; m_position := m_position m; is_enabled := boolInt enabled;
     is_essential := is_essential m; access_policy := access_policy m;
     m_created_at := m_created_at m; m_updated_at := now |}.

(** COALESCE((SELECT MAX(position)+1 ...), 0) *)
Definition next_position (positions : list Z) : Z :=
  match positions with [] => 0 | p :: l => fold_left Z.max l p + 1 end.

Definition CreateCategory (db : Database) (now name : string) : res sql_error Database :=
  let id := categories_seq db + 1 in
  let row := {| c_name := name; c_position := next_position ((λ ic, c_position ic.2) <$> map_to_list (categories db));
                c_created_at := now; c_updated_at := now |} in
  let categories' := <[id := row]> (categories db) in
  if decide (categories_valid categories')
  then Ok (with_navigation db categories' id (modules db) (modules_seq db)) else Err ErrConstraint.

Definition RenameCategory (db : Database) (now : string) (id : Z) (name : string) : res sql_error Database :=
  oneRow (update_categories db (λ i _, i =? id) (set_name now name)).

Definition DeleteCategory (db : Database) (id : Z) : res sql_error Database :=
  match categories db !! id with
  | Some _ =>
      if existsb (λ im, category_id im.2 =? id) (map_to_list (modules db))
      then Err (ErrMessage "item not found or protected")
      else Ok (with_navigation db (delete id (categories db)) (categories_seq db) (modules db) (modules_seq db))
  | None => Err (ErrMessage "item not found or protected")
  end.

Definition ToggleModule (db : Database) (now : string) (id : Z) (enabled : bool) : res sql_error Database :=
  oneRow (update_modules db (λ i m, (i =? id) && (is_essential m =? 0)) (enable_module now enabled)).

(** The neighbour [move] swaps with: the nearest position strictly before or after,
    ties broken by identifier the same way. *)
Definition nearer (direction : Z) (a b : Z * Z) : bool :=
  if 0 <? direction then (a.2 <? b.2) || ((a.2 =? b.2) && (a.1 <? b.1))
  else (b.2 <? a.2) || ((a.2 =? b.2) && (b.1 <? a.1)).

Definition neighbour (direction position : Z) (rows : list (Z * Z)) : option (Z * Z) :=
  let candidates := filter (λ r : Z * Z,
    (if 0 <? direction then position <? r.2 else r.2 <? position) = true) rows in
  fold_left (λ best r, match best with
                       | Some b => if nearer direction r b then Some r else Some b
                       | None => Some r end) candidates None.

Definition move_category (db : Database) (now : string) (id direction : Z) : res sql_error Database :=
  if negb (direction =? -1) && negb (direction =? 1) then Err (ErrMessage "invalid direction")
  else match categories db !! id with
       | None => Err ErrNoRows
       | Some row =>
           let position := c_position row in
           match neighbour direction position ((λ ic, (ic.1, c_position ic.2)) <$> map_to_list (categories db)) with
           | None => Err ErrNoRows
           | Some (otherID, otherPosition) =>
               let! r := update_categories db (λ i _, i =? id) (set_position now otherPosition) in
               let! r := update_categories r.2 (λ i _, i =? otherID) (set_position now position) in
               Ok r.2
           end
       end.

Definition MoveCategory := move_category.

Definition set_module_position (now : string) (position : Z) (m : ModuleRow) : ModuleRow :=
  place_module now (category_id m) position m.

Definition MoveModule (db : Database) (now : string) (id direction : Z) : res sql_error Database :=
  match modules db !! id with
  | None => Err ErrNoRows
  | Some row =>
      let category := category_id row in
      if negb (direction =? -1) && negb (direction =? 1) then Err (ErrMessage "invalid direction")
      else
        let position := m_position row in
        match neighbour direction position
          (omap (λ im : Z * ModuleRow, if category_id im.2 =? category then Some (im.1, m_position im.2) else None)
            (map_to_list (modules db))) with
        | None => Err ErrNoRows
        | Some (otherID, otherPosition) =>
            let! r := update_modules db (λ i _, i =? id) (set_module_position now otherPosition) in
            let! r := update_modules r.2 (λ i _, i =? otherID) (set_module_position now position) in
            Ok r.2
        end
  end.

(** The module a release added, when its category is there and the module is not. *)
Definition EnsureGoNavigation (db : Database) (now : string) : res sql_error Database :=
  if existsb (λ im, nocase_eq (module_key im.2) "processes") (map_to_list (modules db)) then Ok db
  else match filter (λ ic : Z * CategoryRow, nocase_eq (c_name ic.2) "Supervision" = true) (map_to_list (categories db)) with
       | [] => Ok db
       | (cid, _) :: _ =>
           let id := modules_seq db + 1 in
           let row := {| module_key := "processes"; m_name := "Processus"; route := "/processes"; icon := "≋";
                         category_id := cid;
                         m_position := next_position (omap (λ im : Z * ModuleRow,
                           if category_id im.2 =? cid then Some (m_position im.2) else None) (map_to_list (modules db)));
                         is_enabled := 1; is_essential := 0; access_policy := "view";
                         m_created_at := now; m_updated_at := now |} in
           let modules' := <[id := row]> (modules db) in
           if decide (modules_valid (categories db) modules')
           then Ok (with_navigation db (categories db) (categories_seq db) modules' id) else Err ErrConstraint
       end.

(** [AdminNavigation]: every category, with its modules if any. *)
Record AdminModule := {
  am_ID : Z; am_Key : string; am_Name : string; am_Route : string; am_Icon : string; am_AccessPolicy : string;
  am_Position : Z; am_Enabled : bool; am_Essential : bool;
}.
Record AdminCategory := { ac_ID : Z; ac_Name : string; ac_Position : Z; ac_Modules : list AdminModule }.

Definition category_le (a b : Z * CategoryRow) : Prop :=
  c_position a.2 < c_position b.2 ∨ c_position a.2 = c_position b.2 ∧ a.1 ≤ b.1.
#[global] Instance category_le_dec a b : Decision (category_le a b).
Proof. unfold category_le. apply _. Defined.

(** The rows of the LEFT JOIN in their order: those of each category, or one row without a
    module. *)
Definition admin_rows (db : Database) : list (Z * CategoryRow * option AdminModule) :=
  ic ← merge_sort category_le (map_to_list (categories db));
  match omap (λ r, if row_cid r =? ic.1
      then Some {| am_ID := row_mid r; am_Key := module_key (row_module r); am_Name := m_name (row_module r);
                   am_Route := route (row_module r); am_Icon := icon (row_module r);
                   am_AccessPolicy := access_policy (row_module r); am_Position := m_position (row_module r);
                   am_Enabled := is_enabled (row_module r) =? 1; am_Essential := is_essential (row_module r) =? 1 |}
      else None) (merge_sort nav_le (joined db)) with
  | [] => [(ic.1, ic.2, None)]
  | ms => (λ m, (ic.1, ic.2, Some m)) <$> ms
  end.

Definition add_admin_row (state : list AdminCategory * gmap Z nat) (row : Z * CategoryRow * option AdminModule)
    : list AdminCategory * gmap Z nat :=
  let '(items, index) := state in
  let '(cid, c, m) := row in
  let '(at_, items, index) :=
    match index !! cid with
    | Some position => (position, items, index)
    | None => (List.length items,
               items ++ [{| ac_ID := cid; ac_Name := c_name c; ac_Position := c_position c; ac_Modules := [] |}],
               <[cid := List.length items]> index)
    end in
  match m with
  | None => (items, index)
  | Some m => (alter (λ a, {| ac_ID := ac_ID a; ac_Name := ac_Name a; ac_Position := ac_Position a;
                              ac_Modules := ac_Modules a ++ [m] |}) at_ items, index)
  end.

Definition AdminNavigation (db : Database) : list AdminCategory :=
  (fold_left add_admin_row (admin_rows db) ([], ∅)).1.

(** ** Reordering everything *)

Record reorder_state := { seenCategories : gset Z; seenModules : gset Z; r_db : Database }.

Fixpoint place_modules (knownModules : gset Z) (now : string) (categoryID modulePosition : Z) (ids : list Z)
    (st : reorder_state) : res sql_error reorder_state :=
  match ids with
  | [] => Ok st
  | moduleID :: ids' =>
      if negb (bool_decide (moduleID ∈ knownModules)) || bool_decide (moduleID ∈ seenModules st)
      then Err (ErrMessage "invalid module identifier")
      else
        let! r := update_modules (r_db st) (λ i _, i =? moduleID) (place_module now categoryID modulePosition) in
        place_modules knownModules now categoryID (modulePosition + 1) ids'
          {| seenCategories := seenCategories st; seenModules := {[moduleID]} ∪ seenModules st; r_db := r.2 |}
  end.

Fixpoint place_categories (knownCategories knownModules : gset Z) (now : string)
    (moduleIDsByCategory : gmap Z (list Z)) (categoryPosition : Z) (ids : list Z) (st : reorder_state)
    : res sql_error reorder_state :=
  match ids with
  | [] => Ok st
  | categoryID :: ids' =>
      if negb (bool_decide (categoryID ∈ knownCategories)) || bool_decide (categoryID ∈ seenCategories st)
      then Err (ErrMessage "invalid category identifier")
      else match moduleIDsByCategory !! categoryID with
           | None => Err (ErrMessage "missing category modules")
           | Some moduleIDs =>
               let! r := update_categories (r_db st) (λ i _, i =? categoryID) (set_position now categoryPosition) in
               let! st := place_modules knownModules now categoryID 0 moduleIDs
                 {| seenCategories := {[categoryID]} ∪ seenCategories st; seenModules := seenModules st; r_db := r.2 |} in
               place_categories knownCategories knownModules now moduleIDsByCategory (categoryPosition + 1) ids' st
           end
  end.

Definition ReorderNavigation (db : Database) (now : string) (categoryIDs : list Z)
    (moduleIDsByCategory : gmap Z (list Z)) : res sql_error Database :=
  if (List.length categoryIDs =? 0)%nat || (100 <? List.length categoryIDs)%nat
  then Err (ErrMessage "invalid category order")
  else
    let knownCategories := dom (categories db) in
    let knownModules := dom (modules db) in
    let! st := place_categories knownCategories knownModules now moduleIDsByCategory 0 categoryIDs
      {| seenCategories := ∅; seenModules := ∅; r_db := db |} in
    if negb (size (seenCategories st) =? size knownCategories)%nat ||
       negb (size (seenModules st) =? size knownModules)%nat
    then Err (ErrMessage "incomplete navigation order")
    else Ok (r_db st).

(** ** The menu and the right on one module agree *)

Definition grouped (done : list (Z * string * NavigationModule)) (state : list NavigationCategory * gmap Z nat) : Prop :=
  (∀ cid pos, state.2 !! cid = Some pos → ∃ c, state.1 !! pos = Some c ∧ nc_ID c = cid) ∧
  ∀ cid m, (∃ c, c ∈ state.1 ∧ nc_ID c = cid ∧ m ∈ nc_Modules c) ↔ ∃ name, (cid, name, m) ∈ done.

(** Appending a module at a position whose category is known. *)
Lemma alter_module_elem (items : list NavigationCategory) at_ c0 m0 cid m :
  items !! at_ = Some c0 →
  (∃ c, c ∈ alter (λ c, {| nc_ID := nc_ID c; nc_Name := nc_Name c; nc_Modules := (nc_Modules c ++ [m0])%list |}) at_ items
        ∧ nc_ID c = cid ∧ m ∈ nc_Modules c) ↔
  (∃ c, c ∈ items ∧ nc_ID c = cid ∧ m ∈ nc_Modules c) ∨ (cid = nc_ID c0 ∧ m = m0).
Proof.
  intros Hat. split.
  - intros (c & [j Hj]%list_elem_of_lookup & Hc & Hm). destruct (decide (at_ = j)) as [<-|Hne].
    + rewrite list_lookup_alter_eq, Hat in Hj. injection Hj as <-. cbn in *.
      apply elem_of_app in Hm as [Hm| ->%list_elem_of_singleton]; [left|by right].
      exists c0. split; [|done]. by apply list_elem_of_lookup_2 in Hat.
    + rewrite list_lookup_alter_ne in Hj by done. left. exists c. split; [|done].
      by apply list_elem_of_lookup_2 in Hj.
  - intros [(c & [j Hj]%list_elem_of_lookup & Hc & Hm)|[-> ->]].
    + destruct (decide (at_ = j)) as [<-|Hne].
      * rewrite Hat in Hj. injection Hj as ->. eexists. split; [|split].
        { apply (list_elem_of_lookup_2 _ at_). by rewrite list_lookup_alter_eq, Hat. }
        { done. } cbn. apply elem_of_app. by left.
      * exists c. split; [|done]. apply (list_elem_of_lookup_2 _ j). by rewrite list_lookup_alter_ne.
    + eexists. split; [|split].
      { apply (list_elem_of_lookup_2 _ at_). by rewrite list_lookup_alter_eq, Hat. }
      { done. } cbn. apply elem_of_app. right. by apply list_elem_of_singleton.
Qed.

Lemma add_row_grouped done state row : grouped done state → grouped (done ++ [row]) (add_row state row).
Proof.
  destruct state as [items index], row as [[cid name] m]. intros [Hidx Hel]. cbn [fst snd] in *.
  assert (∀ cid' m', (∃ n, (cid', n, m') ∈ done ++ [(cid, name, m)]) ↔
            (∃ n, (cid', n, m') ∈ done) ∨ (cid' = cid ∧ m' = m)) as Hdone.
  { intros cid' m'. setoid_rewrite elem_of_app. setoid_rewrite list_elem_of_singleton. naive_solver. }
  unfold add_row. destruct (index !! cid) as [pos|] eqn:E.
  - destruct (Hidx cid pos E) as (c0 & Hc0 & <-). split; cbn [fst snd].
    + intros cid' pos' Hp. destruct (Hidx cid' pos' Hp) as (c & Hc & <-).
      destruct (decide (pos = pos')) as [<-|Hne].
      * exists {| nc_ID := nc_ID c; nc_Name := nc_Name c; nc_Modules := (nc_Modules c ++ [m])%list |}.
        by rewrite list_lookup_alter_eq, Hc.
      * exists c. by rewrite list_lookup_alter_ne.
    + intros cid' m'. rewrite (alter_module_elem _ _ _ _ _ _ Hc0), Hdone, Hel. done.
  - set (new := {| nc_ID := cid; nc_Name := name; nc_Modules := [] |}).
    assert ((items ++ [new])%list !! List.length items = Some new) as Hnew by apply list_lookup_app_cons.
    split; cbn [fst snd].
    + intros cid' pos' [[<- <-]|[Hne Hp]]%lookup_insert_Some.
      * eexists. rewrite list_lookup_alter_eq, Hnew. done.
      * destruct (Hidx cid' pos' Hp) as (c & Hc & <-).
        pose proof (lookup_lt_Some _ _ _ Hc). exists c.
        rewrite list_lookup_alter_ne by lia. by rewrite lookup_app_l.
    + intros cid' m'. rewrite (alter_module_elem _ _ _ _ _ _ Hnew), Hdone, <- Hel. cbn [nc_ID new].
      setoid_rewrite elem_of_app. setoid_rewrite list_elem_of_singleton.
      split; [|naive_solver]. intros [(c & [?| ->] & ? & Hm)|?]; [left; by eauto| |by right].
      cbn in Hm. by apply elem_of_nil in Hm.
Qed.

Lemma group_rows_elem rows cid m :
  (∃ c, c ∈ group_rows rows ∧ nc_ID c = cid ∧ m ∈ nc_Modules c) ↔ ∃ name, (cid, name, m) ∈ rows.
Proof.
  unfold group_rows.
  cut (grouped rows (fold_left add_row rows ([], ∅))); [intros [_ H]; apply H|].
  change rows with ([] ++ rows)%list at 1.
  assert (grouped [] ([], ∅)) as Hg.
  { split; [done|]. intros ? ?. split; [intros (? & ?%elem_of_nil & _)|intros (? & ?%elem_of_nil)]; done. }
  revert Hg. generalize (@nil (Z * string * NavigationModule)) as done.
  generalize (([], ∅) : list NavigationCategory * gmap Z nat) as state.
  induction rows as [|row rows IH]; intros state done Hg; cbn [fold_left]; [by rewrite app_nil_r|].
  replace (done ++ row :: rows) with ((done ++ [row]) ++ rows) by (by rewrite <- app_assoc).
  apply IH. by apply add_row_grouped.
Qed.

Lemma modules_valid_joined db mid m : modules_valid (categories db) (modules db) →
  modules db !! mid = Some m →
  ∃ c, {| row_cid := category_id m; row_category := c; row_mid := mid; row_module := m |} ∈ joined db.
Proof.
  intros Hv Hm. destruct (Hv _ _ Hm) as (_ & [c Hc] & _). exists c. unfold joined.
  apply list_elem_of_omap. exists (mid, m). split; [by apply elem_of_map_to_list|]. cbn. by rewrite Hc.
Qed.

Lemma joined_module db r : r ∈ joined db → modules db !! row_mid r = Some (row_module r).
Proof.
  unfold joined. intros ([mid m] & Hin & Hr)%list_elem_of_omap. cbn in Hr.
  apply elem_of_map_to_list in Hin. apply fmap_Some in Hr as (c & _ & ->). done.
Qed.

Lemma PermissionForModule_row db user key level : modules_valid (categories db) (modules db) →
  PermissionForModule db user key = Some level ↔
  ∃ mid m, modules db !! mid = Some m ∧ nocase_eq (module_key m) key = true ∧ row_level db user mid m = Some level.
Proof.
  intros Hv. unfold PermissionForModule.
  set (l := filter _ (map_to_list (modules db))).
  assert (∀ mid m, (mid, m) ∈ l ↔ modules db !! mid = Some m ∧ nocase_eq (module_key m) key = true) as Hl.
  { intros mid m. subst l. rewrite list_elem_of_filter, elem_of_map_to_list. cbn. tauto. }
  destruct l as [|[mid m] l].
  - split; [done|]. intros (mid & m & Hm & Hk & _). assert ((mid, m) ∈ @nil (Z * ModuleRow)) as Hin by by apply Hl.
    by apply elem_of_nil in Hin.
  - destruct (proj1 (Hl mid m)) as [Hm Hk]; [by left|].
    assert (∀ mid' m', modules db !! mid' = Some m' → nocase_eq (module_key m') key = true → mid' = mid ∧ m' = m) as Huniq.
    { intros mid' m' Hm' Hk'. destruct (Hv _ _ Hm) as (_ & _ & Hd).
      destruct (Hd mid' m' Hm') as [->|[Hne _]]; [by rewrite Hm in Hm'; injection Hm'|].
      unfold nocase_eq in *. bool_prop. congruence. }
    transitivity (row_level db user mid m = Some level).
    + unfold row_level. destruct (is_enabled m =? 1), (String.eqb (Type_ user) "root"); cbn [negb andb]; try done.
      destruct (String.eqb (access_policy m) "view"); done.
    + split; [by eauto|]. intros (mid' & m' & Hm' & Hk' & Hr). by destruct (Huniq mid' m' Hm' Hk') as [-> ->].
Qed.

(** The menu an account sees and the right the page of a module asks for agree: a
    module is in the menu, at a level, exactly when the right on it is that level.  So no
    page outside the menu opens, and every entry of the menu does. *)
Theorem Menu_PermissionForModule db user key level :
  modules_valid (categories db) (modules db) →
  PermissionForModule db user key = Some level ↔
  ∃ c m, c ∈ Menu db user ∧ m ∈ nc_Modules c ∧ nocase_eq (nm_Key m) key = true ∧ PermissionLevel m = level.
Proof.
  intros Hv. rewrite PermissionForModule_row by done. unfold Menu.
  set (rows := omap (menu_row db user) _).
  assert (∀ cid nm, (∃ name, (cid, name, nm) ∈ rows) ↔
    ∃ r level, r ∈ joined db ∧ cid = row_cid r ∧ nm = nav_module (row_mid r) (row_module r) level ∧
      row_level db user (row_mid r) (row_module r) = Some level) as Hrows.
  { intros cid nm. subst rows. unfold menu_row. split.
    - intros (name & (r & Hr & Hl)%list_elem_of_omap). apply elem_of_merge_sort in Hr.
      apply fmap_Some in Hl as (lv & Hlv & [= -> -> ->]). by exists r, lv.
    - intros (r & lv & Hr & -> & -> & Hlv). exists (c_name (row_category r)).
      apply list_elem_of_omap. exists r. rewrite elem_of_merge_sort. split; [done|]. by rewrite Hlv. }
  split.
  - intros (mid & m & Hm & Hk & Hl). destruct (modules_valid_joined _ _ _ Hv Hm) as [cat Hin].
    destruct (proj2 (group_rows_elem rows (category_id m) (nav_module mid m level))) as (c & Hc & _ & Hmem).
    { apply Hrows. by eexists _, level. }
    by exists c, (nav_module mid m level).
  - intros (c & nm & Hc & Hmem & Hk & Hl).
    destruct (proj1 (group_rows_elem rows (nc_ID c) nm)) as [name Hin]; [by exists c|].
    destruct (proj1 (Hrows (nc_ID c) nm)) as (r & lv & Hr & _ & -> & Hlv); [by exists name|].
    cbn in Hk, Hl. subst lv. exists (row_mid r), (row_module r). split; [by apply joined_module|done].
Qed.

(** What an ordinary account can reach: only enabled modules of view policy, at the
    level recorded for it, "about" excepted which everyone views; while the root account
    modifies every enabled module. *)
Theorem row_level_spec db user key level :
  modules_valid (categories db) (modules db) → PermissionForModule db user key = Some level →
  ∃ mid m, modules db !! mid = Some m ∧ nocase_eq (module_key m) key = true ∧ is_enabled m = 1 ∧
    (Type_ user = "root" ∧ level = "modify" ∨
     Type_ user ≠ "root" ∧ access_policy m = "view" ∧
       (is_about m = true ∧ level = "view" ∨ is_about m = false ∧ permissions db !! (UserID user, mid) = Some level)).
Proof.
  intros Hv (mid & m & Hm & Hk & Hl)%(PermissionForModule_row _ _ _ _ Hv).
  exists mid, m. split_and!; [done..| |]; unfold row_level in Hl;
    destruct (Z.eqb_spec (is_enabled m) 1) as [He|]; cbn [negb] in Hl; try done.
  destruct (String.eqb_spec (Type_ user) "root"); [left; by simplify_eq|right].
  destruct (String.eqb_spec (access_policy m) "view"); cbn [negb] in Hl; [|done].
  split_and!; [done..|]. destruct (is_about m); [left|right]; by simplify_eq.
Qed.

(** ** Statements *)

Definition same_accounts (db db' : Database) : Prop :=
  users db' = users db ∧ users_seq db' = users_seq db ∧ permissions db' = permissions db.

Lemma same_accounts_trans db1 db2 db3 : same_accounts db1 db2 → same_accounts db2 db3 → same_accounts db1 db3.
Proof. unfold same_accounts. naive_solver congruence. Qed.

Lemma update_modules_Ok db w f n db' : update_modules db w f = Ok (n, db') →
  (∀ i, modules db' !! i = (λ m, if w i m then f m else m) <$> modules db !! i) ∧
  categories db' = categories db ∧ same_accounts db db' ∧ modules_valid (categories db') (modules db').
Proof.
  unfold update_modules. destruct (existsb _ _); [done|]. case_decide; [|done]. intros [= _ <-].
  split_and!; [|done..]. intros i. cbn [modules with_navigation]. rewrite map_lookup_imap.
  by destruct (modules db !! i).
Qed.

Lemma update_categories_Ok db w f n db' : update_categories db w f = Ok (n, db') →
  (∀ i, categories db' !! i = (λ c, if w i c then f c else c) <$> categories db !! i) ∧
  modules db' = modules db ∧ same_accounts db db'.
Proof.
  unfold update_categories. case_decide; [|done]. intros [= _ <-].
  split_and!; [|done..]. intros i. cbn [categories with_navigation]. rewrite map_lookup_imap.
  by destruct (categories db !! i).
Qed.

Lemma dom_update {A} (m m' : gmap Z A) (f : Z → A → A) :
  (∀ i, m' !! i = f i <$> m !! i) → dom m' = dom m.
Proof.
  intros Hm. apply set_eq. intros i. rewrite !elem_of_dom, Hm. by rewrite fmap_is_Some.
Qed.

(** A module can be switched only when it is not essential, and switching changes
    nothing but that module's state; no account and no right is touched. *)
Theorem ToggleModule_spec db now id enabled db' : ToggleModule db now id enabled = Ok db' →
  same_accounts db db' ∧ categories db' = categories db ∧
  ∀ i, modules db' !! i =
    (λ m, if (i =? id) && (is_essential m =? 0) then enable_module now enabled m else m) <$> modules db !! i.
Proof.
  unfold ToggleModule, oneRow. intros ([n db1] & Hu & H)%res_bind_Ok. cbn [fst snd] in H.
  destruct (n =? 1)%nat; [|done]. injection H as <-. by apply update_modules_Ok in Hu as (? & ? & ? & _).
Qed.

(** ** Reordering *)

Lemma place_modules_Ok known now cat ids : ∀ pos st st',
  place_modules known now cat pos ids st = Ok st' →
  NoDup ids ∧ (∀ i, i ∈ ids → i ∈ known ∧ i ∉ seenModules st) ∧
  seenCategories st' = seenCategories st ∧ seenModules st' = list_to_set ids ∪ seenModules st ∧
  categories (r_db st') = categories (r_db st) ∧ same_accounts (r_db st) (r_db st') ∧
  (∀ j i, ids !! j = Some i → modules (r_db st') !! i =
     place_module now cat (pos + Z.of_nat j) <$> modules (r_db st) !! i) ∧
  (∀ i, i ∉ ids → modules (r_db st') !! i = modules (r_db st) !! i).
Proof.
  induction ids as [|id ids IH]; intros pos st st'; cbn [place_modules].
  { intros [= <-]. split_and!; try done; [constructor|by intros ? ?%elem_of_nil|set_solver]. }
  destruct (negb _ || _) eqn:Hc; [done|]. bool_prop. intros ([n db1] & Hu & Hr)%res_bind_Ok. cbn [fst snd] in Hr.
  apply update_modules_Ok in Hu as (Hm & Hcat & Hacc & _).
  apply IH in Hr as (Hnd & Hin & Hsc & Hsm & Hc' & Ha & Hj & Hout).
  cbn [seenCategories seenModules r_db] in *.
  assert (id ∉ ids) as Hni by (intros Hi; apply Hin in Hi as [_ Hi]; set_solver +Hi).
  split_and!.
  - by constructor.
  - intros i [->|Hi]%elem_of_cons; [done|]. apply Hin in Hi as [? Hi]. split; [done|set_solver +Hi].
  - done.
  - rewrite Hsm. set_solver +.
  - congruence.
  - by apply (same_accounts_trans _ db1).
  - intros [|j] i; cbn [lookup list_lookup].
    + intros [= ->]. rewrite Hout, Hm, Z.eqb_refl, Z.add_0_r by done. done.
    + intros Hl. assert (i ≠ id) as Hne by (intros ->; apply list_elem_of_lookup_2 in Hl; done).
      rewrite (Hj j i Hl), Hm. apply Z.eqb_neq in Hne. rewrite Hne.
      replace (pos + 1 + Z.of_nat j) with (pos + Z.of_nat (S j)) by lia.
      by destruct (modules (r_db st) !! i).
  - intros i [Hne Hi]%not_elem_of_cons. rewrite Hout, Hm by done. apply Z.eqb_neq in Hne. rewrite Hne.
    by destruct (modules (r_db st) !! i).
Qed.

Lemma place_categories_Ok knownC knownM now mbc ids : ∀ pos st st',
  place_categories knownC knownM now mbc pos ids st = Ok st' →
  NoDup ids ∧ (∀ i, i ∈ ids → i ∈ knownC ∧ i ∉ seenCategories st) ∧
  seenCategories st' = list_to_set ids ∪ seenCategories st ∧
  seenModules st ⊆ seenModules st' ∧ (seenModules st ⊆ knownM → seenModules st' ⊆ knownM) ∧
  same_accounts (r_db st) (r_db st') ∧
  (∀ j i, ids !! j = Some i → categories (r_db st') !! i =
     set_position now (pos + Z.of_nat j) <$> categories (r_db st) !! i) ∧
  (∀ i, i ∉ ids → categories (r_db st') !! i = categories (r_db st) !! i) ∧
  (∀ i, i ∈ seenModules st → modules (r_db st') !! i = modules (r_db st) !! i) ∧
  (∀ cid, cid ∈ ids → is_Some (mbc !! cid)) ∧
  (∀ i, i ∈ seenModules st' → i ∉ seenModules st →
     ∃ cid mids j, cid ∈ ids ∧ mbc !! cid = Some mids ∧ mids !! j = Some i) ∧
  (∀ cid mids i, cid ∈ ids → mbc !! cid = Some mids → i ∈ mids →
     (i ∉ seenModules st) ∧ i ∈ seenModules st') ∧
  (∀ cid mids j i, cid ∈ ids → mbc !! cid = Some mids → mids !! j = Some i →
     modules (r_db st') !! i = place_module now cid (Z.of_nat j) <$> modules (r_db st) !! i).
Proof.
  induction ids as [|cid ids IH]; intros pos st st'; cbn [place_categories].
  { intros [= <-]. split_and!; try done; try set_solver. constructor. }
  destruct (negb _ || _) eqn:Hc; [done|]. bool_prop.
  destruct (mbc !! cid) as [mids|] eqn:Hmbc; [|done].
  intros ([n db1] & Hu & (st1 & Hp & Hr)%res_bind_Ok)%res_bind_Ok. cbn [fst snd] in Hp.
  apply update_categories_Ok in Hu as (Hcat & Hmod & Hacc).
  apply place_modules_Ok in Hp as (Hmnd & Hmin & Hsc1 & Hsm1 & Hc1 & Ha1 & Hj1 & Hout1).
  apply IH in Hr as (Hnd & Hin & Hsc & Hsub & Hkn & Ha & Hj & Hout & Hseen & Hsome & Hnew & Hfresh & Hplace).
  cbn [seenCategories seenModules r_db] in *. rewrite Hmod in *.
  assert (cid ∉ ids) as Hni by (intros Hi; apply Hin in Hi as [_ Hi]; rewrite Hsc1 in Hi; set_solver +Hi).
  split_and!.
  - by constructor.
  - intros i [->|Hi]%elem_of_cons; [done|]. apply Hin in Hi as [? Hi]. split; [done|]. rewrite Hsc1 in Hi. set_solver +Hi.
  - rewrite Hsc, Hsc1. set_solver +.
  - rewrite Hsm1 in Hsub. set_solver +Hsub.
  - intros Hk. apply Hkn. rewrite Hsm1. intros i [Hi%elem_of_list_to_set|Hi]%elem_of_union; [by apply Hmin|by apply Hk].
  - apply (same_accounts_trans _ db1); [done|]. by apply (same_accounts_trans _ (r_db st1)).
  - intros [|j] i; cbn [lookup list_lookup].
    + intros [= ->]. rewrite Hout, Hc1, Hcat, Z.eqb_refl, Z.add_0_r by done. done.
    + intros Hl. assert (i ≠ cid) as Hne by (intros ->; apply list_elem_of_lookup_2 in Hl; done).
      rewrite (Hj j i Hl), Hc1, Hcat. apply Z.eqb_neq in Hne. rewrite Hne.
      replace (pos + 1 + Z.of_nat j) with (pos + Z.of_nat (S j)) by lia.
      by destruct (categories (r_db st) !! i).
  - intros i [Hne Hi]%not_elem_of_cons. rewrite Hout, Hc1, Hcat by done. apply Z.eqb_neq in Hne. rewrite Hne.
    by destruct (categories (r_db st) !! i).
  - intros i Hi. rewrite Hseen by (rewrite Hsm1; set_solver +Hi). apply Hout1. intros Hi'. by apply Hmin in Hi' as [_ ?].
  - intros i [->|Hi]%elem_of_cons; [by eexists|by apply Hsome].
  - intros i Hi Hni'. destruct (decide (i ∈ seenModules st1)) as [Hi1|Hi1].
    + rewrite Hsm1 in Hi1. apply elem_of_union in Hi1 as [Hi1%elem_of_list_to_set|]; [|done].
      apply list_elem_of_lookup in Hi1 as [j Hl]. exists cid, mids, j. split; [by left|done].
    + destruct (Hnew i Hi Hi1) as (c & ms & j & ? & ?). exists c, ms, j. split; [by right|done].
  - intros c ms i [->|Hin']%elem_of_cons Hms Hi.
    + rewrite Hmbc in Hms. injection Hms as <-. split; [by apply Hmin|].
      apply Hsub. rewrite Hsm1. set_solver +Hi.
    + destruct (Hfresh c ms i Hin' Hms Hi) as [Hf ?]. split; [|done]. rewrite Hsm1 in Hf. set_solver +Hf.
  - intros c ms j i [->|Hin']%elem_of_cons Hms Hl.
    + rewrite Hmbc in Hms. injection Hms as <-. rewrite Hseen.
      * by rewrite (Hj1 j i Hl).
      * rewrite Hsm1. apply elem_of_union. left. apply elem_of_list_to_set. by apply list_elem_of_lookup_2 in Hl.
    + rewrite (Hplace c ms j i Hin' Hms Hl). f_equal. apply Hout1. intros Hi.
      assert (i ∈ seenModules st1) as Hs1 by (rewrite Hsm1; set_solver +Hi).
      by destruct (Hfresh c ms i Hin' Hms (list_elem_of_lookup_2 _ _ _ Hl)).
Qed.

(** Reordering: it succeeds only when the request lists every category exactly once and,
    under them, every module exactly once; then each category has its rank as position and
    each module its category and its rank, and nothing else of them changes, nor any
    account or right.  A partial or duplicated request changes nothing. *)
Theorem ReorderNavigation_spec db now ids mbc db' : ReorderNavigation db now ids mbc = Ok db' →
  NoDup ids ∧ (∀ cid, cid ∈ ids ↔ is_Some (categories db !! cid)) ∧
  (∀ mid, is_Some (modules db !! mid) ↔ ∃ cid mids, cid ∈ ids ∧ mbc !! cid = Some mids ∧ mid ∈ mids) ∧
  (∀ j cid, ids !! j = Some cid → categories db' !! cid = set_position now (Z.of_nat j) <$> categories db !! cid) ∧
  (∀ cid mids j mid, cid ∈ ids → mbc !! cid = Some mids → mids !! j = Some mid →
     modules db' !! mid = place_module now cid (Z.of_nat j) <$> modules db !! mid) ∧
  same_accounts db db'.
Proof.
  unfold ReorderNavigation. destruct (_ || _)%bool; [done|].
  intros (st & Hp & Hr)%res_bind_Ok. destruct (_ || _)%bool eqn:Hs; [done|]. injection Hr as <-.
  apply place_categories_Ok in Hp as (Hnd & Hin & Hsc & _ & Hkn & Ha & Hj & _ & _ & Hsome & Hnew & Hfresh & Hplace).
  cbn [seenCategories seenModules r_db] in *. bool_prop.
  assert (seenCategories st = dom (categories db)) as Hcat.
  { apply set_subseteq_size_eq; [|lia]. rewrite Hsc. intros i Hi.
    apply elem_of_union in Hi as [Hi%elem_of_list_to_set|Hi]; [by apply Hin|by apply elem_of_empty in Hi]. }
  assert (seenModules st = dom (modules db)) as Hmod.
  { apply set_subseteq_size_eq; [|lia]. apply Hkn. apply empty_subseteq. }
  assert (∀ cid, cid ∈ ids ↔ is_Some (categories db !! cid)) as Hids.
  { intros cid. rewrite <- elem_of_dom, <- Hcat, Hsc. rewrite elem_of_union, elem_of_list_to_set.
    split; [by left|]. intros [?|?%elem_of_empty]; done. }
  split_and!; [done..| |done|done|done].
  intros mid. rewrite <- elem_of_dom, <- Hmod. split.
  - intros Hm. destruct (Hnew mid Hm) as (cid & mids & j & ? & ? & ?%list_elem_of_lookup_2); [apply not_elem_of_empty|].
    by exists cid, mids.
  - intros (cid & mids & Hc & Hms & Hi). by destruct (Hfresh cid mids mid Hc Hms Hi).
Qed.

(** ** Moving a category *)

Definition positions (db : Database) : list (Z * Z) :=
  (λ ic, (ic.1, c_position ic.2)) <$> map_to_list (categories db).

Lemma elem_of_positions db i p : (i, p) ∈ positions db ↔ c_position <$> categories db !! i = Some p.
Proof.
  unfold positions. rewrite list_elem_of_fmap. split.
  - intros ([j c] & [= -> ->] & Hin%elem_of_map_to_list). cbn. by rewrite Hin.
  - intros (c & Hc & ->)%fmap_Some. exists (i, c). split; [done|]. by apply elem_of_map_to_list.
Qed.

Definition beyond (direction position q : Z) : Prop := if 0 <? direction then position < q else q < position.
Definition closer (direction q r : Z) : Prop := if 0 <? direction then q ≤ r else r ≤ q.

Lemma neighbour_fold direction l best :
  (∀ b, best = Some b → ∃ o, fold_left (λ best r, match best with
      | Some b => if nearer direction r b then Some r else Some b | None => Some r end) l best = Some o) ∧
  ∀ o, fold_left (λ best r, match best with
      | Some b => if nearer direction r b then Some r else Some b | None => Some r end) l best = Some o →
    (best = Some o ∨ o ∈ l) ∧ (∀ r, r ∈ l ∨ best = Some r → closer direction o.2 r.2).
Proof.
  revert best. induction l as [|r l IH]; intros best; cbn [fold_left].
  - split; [by eauto|]. intros o ->. split; [by left|]. intros r [?%elem_of_nil|[= ->]]; [done|].
    unfold closer. case_match; lia.
  - set (best' := match best with Some b => _ | None => Some r end).
    assert (∃ b, best' = Some b ∧ (b = r ∨ best = Some b) ∧ closer direction b.2 r.2 ∧
              ∀ b0, best = Some b0 → closer direction b.2 b0.2) as (b & Hb & Hor & Hc1 & Hc2).
    { subst best'. destruct best as [b0|].
      - destruct (nearer direction r b0) eqn:E; eexists; (split; [done|]); unfold nearer, closer in *;
          destruct (0 <? direction); (split; [auto|]); split; try lia; intros ? [= <-]; lia.
      - eexists. split; [done|]. split; [auto|]. unfold closer. split; [case_match; lia|done]. }
    destruct (IH best') as [Hex Hspec]. split; [intros _ _; by apply (Hex b)|].
    intros o Ho. destruct (Hspec o Ho) as [Hin Hcl]. split.
    + rewrite elem_of_cons. destruct Hin as [Hin|?]; [|by auto]. rewrite Hb in Hin. injection Hin as <-.
      destruct Hor as [->|?]; auto.
    + assert (closer direction o.2 b.2) as Hob by (apply Hcl; by right).
      intros r' [[->|?]%elem_of_cons|Hb0]; [|by apply Hcl; left|]; unfold closer in *.
      * destruct (0 <? direction); lia.
      * specialize (Hc2 r' Hb0). destruct (0 <? direction); lia.
Qed.

Lemma neighbour_spec direction position rows o q :
  neighbour direction position rows = Some (o, q) →
  (o, q) ∈ rows ∧ beyond direction position q ∧
  ∀ i r, (i, r) ∈ rows → beyond direction position r → closer direction q r.
Proof.
  unfold neighbour. set (l := filter _ rows). intros H.
  assert (∀ i r, (i, r) ∈ l ↔ beyond direction position r ∧ (i, r) ∈ rows) as Hl.
  { intros i r. subst l. rewrite list_elem_of_filter. cbn [snd]. unfold beyond.
    destruct (0 <? direction); by rewrite Z.ltb_lt. }
  destruct (neighbour_fold direction l None) as [_ Hs]. destruct (Hs _ H) as [[?|Hin] Hc]; [done|].
  apply Hl in Hin as [? ?]. split_and!; [done..|]. intros i r Hr Hb. apply (Hc (i, r)). left. by apply Hl.
Qed.

Lemma neighbour_exists direction position rows i r :
  (i, r) ∈ rows → beyond direction position r → is_Some (neighbour direction position rows).
Proof.
  intros Hin Hb. unfold neighbour. set (l := filter _ rows).
  assert ((i, r) ∈ l) as Hl.
  { subst l. rewrite list_elem_of_filter. cbn [snd]. unfold beyond in Hb.
    destruct (0 <? direction); by rewrite Z.ltb_lt. }
  destruct l as [|x l]; [by apply elem_of_nil in Hl|]. cbn [fold_left].
  destruct (neighbour_fold direction l (Some x)) as [Hex _]. by destruct (Hex x eq_refl) as [o ->].
Qed.

Definition position_of (db : Database) (i : Z) : option Z := c_position <$> categories db !! i.

Lemma set_position_Ok db now id p : categories_valid (categories db) → 0 ≤ p →
  ∃ n db', update_categories db (λ i _, i =? id) (set_position now p) = Ok (n, db').
Proof.
  intros Hv Hp. unfold update_categories. rewrite decide_True; [by eauto|].
  intros i c Hc. rewrite map_lookup_imap in Hc. apply bind_Some in Hc as (c0 & Hc0 & [= <-]).
  destruct (Hv _ _ Hc0) as [Hck Hd]. split.
  - destruct (i =? id); [|done]. unfold category_checks in *. cbn. bool_prop.
    rewrite !andb_true_iff, !Z.leb_le. done.
  - intros j d Hj. rewrite map_lookup_imap in Hj. apply bind_Some in Hj as (d0 & Hd0 & [= <-]).
    destruct (Hd _ _ Hd0) as [?|Hne]; [by left|right]. by destruct (i =? id), (j =? id).
Qed.

Lemma set_position_positions db now id p n db' i :
  update_categories db (λ i _, i =? id) (set_position now p) = Ok (n, db') →
  position_of db' i = if decide (i = id) then (λ _, p) <$> position_of db i else position_of db i.
Proof.
  intros (Hc & _ & _)%update_categories_Ok. unfold position_of. rewrite Hc.
  destruct (categories db !! i) as [c|]; cbn; [|by case_decide].
  destruct (Z.eqb_spec i id); [by rewrite decide_True|by rewrite decide_False].
Qed.

Lemma update_categories_valid db w f n db' :
  update_categories db w f = Ok (n, db') → categories_valid (categories db').
Proof. unfold update_categories. case_decide; [|done]. by intros [= _ <-]. Qed.

Lemma MoveCategory_cases db now id direction db' : MoveCategory db now id direction = Ok db' →
  (direction = -1 ∨ direction = 1) ∧ categories_valid (categories db') ∧
  ∃ p o q, position_of db id = Some p ∧ position_of db o = Some q ∧ o ≠ id ∧ beyond direction p q ∧
    (∀ i r, position_of db i = Some r → beyond direction p r → closer direction q r) ∧
    ∀ i, position_of db' i =
      if decide (i = id) then Some q else if decide (i = o) then Some p else position_of db i.
Proof.
  unfold MoveCategory, move_category. destruct (negb _ && negb _) eqn:Hd; [done|].
  destruct (categories db !! id) as [c|] eqn:Hc; [|done]. cbv zeta.
  change ((λ ic, (ic.1, c_position ic.2)) <$> map_to_list (categories db)) with (positions db).
  destruct (neighbour direction (c_position c) (positions db)) as [[o q]|] eqn:Hn; [|done].
  intros ([n1 db1] & H1 & ([n2 db2] & H2 & [= <-])%res_bind_Ok)%res_bind_Ok. cbn [snd] in *.
  apply neighbour_spec in Hn as (Hin & Hb & Hmin). apply elem_of_positions in Hin.
  assert (position_of db id = Some (c_position c)) as Hp by (unfold position_of; by rewrite Hc).
  assert (o ≠ id) as Hne.
  { intros ->. unfold position_of in Hp. rewrite Hin in Hp. injection Hp as ->.
    unfold beyond in Hb. case_match; lia. }
  split; [apply andb_false_iff in Hd; rewrite !negb_false_iff, !Z.eqb_eq in Hd; tauto|].
  split; [by apply update_categories_valid in H2|].
  exists (c_position c), o, q. split_and!; [done..| |].
  - intros i r Hi. apply Hmin with i. by apply elem_of_positions.
  - intros i. rewrite (set_position_positions _ _ _ _ _ _ i H2), (set_position_positions _ _ _ _ _ _ i H1).
    destruct (decide (i = o)) as [->|Ho].
    + rewrite !(decide_False (P := o = id)) by done. unfold position_of. by rewrite Hin.
    + destruct (decide (i = id)) as [->|]; [by rewrite Hp|done].
Qed.

Lemma opposite direction x y : direction = -1 ∨ direction = 1 →
  (beyond (- direction) x y ↔ beyond direction y x) ∧ (closer (- direction) x y ↔ closer direction y x) ∧
  (beyond direction x y ↔ (¬ closer direction y x) ).
Proof. unfold beyond, closer. intros Hd. destruct (Z.ltb_spec 0 (- direction)), (Z.ltb_spec 0 direction); lia. Qed.

(** Moving a category up or down exchanges its rank with its neighbour's, and the
    opposite move puts every category back where it was. *)
Theorem MoveCategory_roundtrip db now now' id direction db1 :
  (∀ i j p, position_of db i = Some p → position_of db j = Some p → i = j) →
  MoveCategory db now id direction = Ok db1 →
  ∃ db2, MoveCategory db1 now' id (- direction) = Ok db2 ∧ ∀ i, position_of db2 i = position_of db i.
Proof.
  intros Hinj Hm. pose proof (MoveCategory_cases _ _ _ _ _ Hm) as (Hdir & Hv & p & o & q & Hp & Hq & Hne & Hb & Hmin & Hpos).
  assert (position_of db1 id = Some q) as Hp1 by (rewrite Hpos; by rewrite decide_True).
  assert (position_of db1 o = Some p) as Hq1 by (by rewrite Hpos, decide_False, decide_True).
  assert (∀ i r, position_of db1 i = Some r → beyond (- direction) q r → i ≠ o → beyond (- direction) p r) as Hother.
  { intros i r Hi Hbr Hio. rewrite Hpos in Hi. rewrite (decide_False (P := i = o)) in Hi by done.
    destruct (decide (i = id)) as [->|Hid]; [injection Hi as ->; unfold beyond in Hbr; case_match; lia|].
    assert (r ≠ p) as Hrp by (intros ->; apply Hid, (Hinj _ _ p); done).
    assert (¬ beyond direction p r) as Hnb.
    { intros Hx. pose proof (Hmin i r Hi Hx) as Hcl. apply (opposite direction q r Hdir) in Hbr.
      apply (opposite direction r q Hdir) in Hbr. done. }
    apply (opposite direction p r Hdir), (opposite direction r p Hdir).
    unfold beyond, closer in *. destruct (0 <? direction); lia. }
  assert (beyond (- direction) q p) as Hbp by by apply (opposite direction q p Hdir).
  destruct (categories db1 !! id) as [c1|] eqn:Hc1; [|unfold position_of in Hp1; by rewrite Hc1 in Hp1].
  assert (c_position c1 = q) as Hcq by (unfold position_of in Hp1; rewrite Hc1 in Hp1; by injection Hp1).
  assert (∃ db2, MoveCategory db1 now' id (- direction) = Ok db2) as [db2 H2].
  { unfold MoveCategory, move_category.
    replace (negb (- direction =? -1) && negb (- direction =? 1)) with false by (by destruct Hdir as [-> | ->]).
    rewrite Hc1. cbv zeta. change ((λ ic, (ic.1, c_position ic.2)) <$> map_to_list (categories db1)) with (positions db1).
    destruct (neighbour_exists (- direction) (c_position c1) (positions db1) o p) as [[o' q'] Hn];
      [by apply elem_of_positions|by rewrite Hcq|]. rewrite Hn.
    apply neighbour_spec in Hn as (Hin & _ & _). apply elem_of_positions in Hin.
    assert (∀ i r, position_of db1 i = Some r → 0 ≤ r) as Hpos0.
    { intros i r (c & Hc & ->)%fmap_Some. destruct (Hv _ _ Hc) as [Hck _]. unfold category_checks in Hck. by bool_prop. }
    destruct (set_position_Ok db1 now' id q') as (n1 & d1 & Hd1); [done|by apply (Hpos0 o')|].
    rewrite Hd1. cbn [res_bind snd]. destruct (set_position_Ok d1 now' o' (c_position c1)) as (n2 & d2 & Hd2);
      [by apply update_categories_valid in Hd1|by apply (Hpos0 id); rewrite Hcq|].
    rewrite Hd2. by eauto. }
  exists db2. split; [done|].
  pose proof (MoveCategory_cases _ _ _ _ _ H2) as (_ & _ & p' & o' & q' & Hp' & Hq' & Hne' & Hb' & Hmin' & Hpos').
  rewrite Hp1 in Hp'. injection Hp' as <-.
  assert (o' = o) as ->.
  { destruct (decide (o' = o)) as [|Ho]; [done|exfalso].
    pose proof (Hother o' q' Hq' Hb' Ho) as Hbq. pose proof (Hmin' o p Hq1 Hbp) as Hcl.
    apply (opposite direction p q' Hdir) in Hbq. apply (opposite direction q' p Hdir) in Hcl.
    by apply (opposite direction q' p Hdir) in Hbq. }
  rewrite Hq1 in Hq'. injection Hq' as <-.
  intros i. rewrite Hpos'. destruct (decide (i = id)) as [->|]; [done|].
  destruct (decide (i = o)) as [->|]; [done|]. rewrite Hpos. by rewrite !decide_False.
Qed.

(** ** Runs *)

Definition alice : User := scanUser 2 (sample_user "user" "alice" "h2" 1).

Lemma sample_modules_valid : modules_valid (categories (sample_db "h" 1)) (modules (sample_db "h" 1)).
Proof. apply (bool_decide_eq_true_1 _). vm_compute. reflexivity. Qed.

Lemma Menu_PermissionForModule_witness :
  ∃ c m, c ∈ Menu (sample_db "h" 1) alice ∧ m ∈ nc_Modules c ∧
    nocase_eq (nm_Key m) "Services" = true ∧ PermissionLevel m = "action".
Proof.
  apply (Menu_PermissionForModule (sample_db "h" 1) alice "Services" "action" sample_modules_valid).
  vm_compute. reflexivity.
Defined.

Lemma row_level_spec_witness :
  PermissionForModule (sample_db "h" 1) alice "cron" = None ∧
  ∃ mid m, modules (sample_db "h" 1) !! mid = Some m ∧ access_policy m = "view" ∧
    permissions (sample_db "h" 1) !! (2, mid) = Some "action".
Proof.
  split; [vm_compute; reflexivity|].
  destruct (row_level_spec (sample_db "h" 1) alice "services" "action" sample_modules_valid) as
    (mid & m & Hm & Hk & _ & [[Hr _]|(_ & Hp & [[_ H]|[_ H]])]); [vm_compute; reflexivity|discriminate|discriminate|].
  exists mid, m. exact (conj Hm (conj Hp H)).
Defined.

Definition sample_toggled : Database :=
  match ToggleModule (sample_db "h" 1) "t" 2 false with Ok d => d | Err _ => sample_db "h" 1 end.

Lemma ToggleModule_spec_witness :
  is_enabled <$> modules sample_toggled !! 2 = Some 0 ∧ modules sample_toggled !! 3 = modules (sample_db "h" 1) !! 3.
Proof.
  destruct (ToggleModule_spec (sample_db "h" 1) "t" 2 false sample_toggled) as (_ & _ & H); [vm_compute; reflexivity|].
  rewrite !H. split; vm_compute; reflexivity.
Defined.

Definition sample_order : gmap Z (list Z) := {[ 2 := [4; 2]; 1 := [3; 1] ]}.
Definition sample_reordered : Database :=
  match ReorderNavigation (sample_db "h" 1) "t" [2; 1] sample_order with Ok d => d | Err _ => sample_db "h" 1 end.

Lemma ReorderNavigation_spec_witness :
  c_position <$> categories sample_reordered !! 2 = Some 0 ∧
  category_id <$> modules sample_reordered !! 3 = Some 1.
Proof.
  destruct (ReorderNavigation_spec (sample_db "h" 1) "t" [2; 1] sample_order sample_reordered)
    as (_ & _ & _ & Hc & Hm & _); [vm_compute; reflexivity|].
  rewrite (Hc 0%nat 2 eq_refl). rewrite (Hm 1 [3; 1] 0%nat 3); [split; vm_compute; reflexivity| |vm_compute; reflexivity|reflexivity].
  right. left.
Defined.

Definition sample_moved : Database :=
  match MoveCategory (sample_db "h" 1) "t" 2 (-1) with Ok d => d | Err _ => sample_db "h" 1 end.

Lemma sample_positions_inj i j p : position_of (sample_db "h" 1) i = Some p → position_of (sample_db "h" 1) j = Some p → i = j.
Proof.
  unfold position_of. intros (c & Hc & ->)%fmap_Some (d & Hd & Hp)%fmap_Some. cbn [categories sample_db] in *.
  apply lookup_insert_Some in Hc as [[<- <-]|[_ [<- <-]%lookup_singleton_Some]];
    apply lookup_insert_Some in Hd as [[<- <-]|[_ [<- <-]%lookup_singleton_Some]]; cbn in Hp; congruence.
Qed.

Lemma MoveCategory_roundtrip_witness :
  position_of sample_moved 2 = Some 0 ∧
  ∃ db2, MoveCategory sample_moved "t" 2 1 = Ok db2 ∧ position_of db2 2 = Some 1.
Proof.
  split; [vm_compute; reflexivity|].
  destruct (MoveCategory_roundtrip (sample_db "h" 1) "t" "t" 2 (-1) sample_moved sample_positions_inj) as (db2 & H & Hp);
    [vm_compute; reflexivity|].
  exists db2. split; [exact H|]. rewrite (Hp 2). vm_compute. reflexivity.
Defined.
