(* ===== verification/StoreSettings.v ===== *)
(** * Settings, preferences, access log, secrets ([internal/authstore]: settings.go,
    preferences.go, access_log.go, secret_crypto.go)

    AES-GCM is a parameter ([Aead]) with the law that opening what was sealed with the
    same key, nonce and associated data gives the text back. *)

From S2P Require Import Prelude GoStrings StringFacts Codec Schema.
From Stdlib Require Import Ascii String.
#[local] Open Scope string_scope.
#[local] Open Scope list_scope.
#[local] Open Scope Z_scope.

(** ** Application settings *)

(** The checks of migration 004. *)
Definition setting_checks (key value : string) : bool :=
  (2 <=? sql_length key) && (sql_length key <=? 64) && (sql_length value <=? 2048).

(** INSERT ... ON CONFLICT(setting_key) DO UPDATE for each pair, in one transaction. *)
Fixpoint upsert_settings (s : gmap string string) (items : list (string * string)) : res sql_error (gmap string string) :=
  match items with
  | [] => Ok s
  | (key, item) :: items' =>
      if setting_checks key item then upsert_settings (<[key := item]> s) items' else Err ErrConstraint
  end.

Record ApplicationSettings := { DefaultLog : string; CertbotEmail : string; DefaultLanguage : string }.
Record SMTPSettings_ := { Host : string; Username : string; Security : string; Port : Z; PasswordConfigured : bool }.

Definition setting (db : Database) (key : string) : string := default "" (settings db !! key).

Definition Settings (db : Database) : ApplicationSettings :=
  {| DefaultLog := setting db "logs.default_source"; CertbotEmail := setting db "certbot.default_email";
     DefaultLanguage := setting db "interface.default_language" |}.

Definition UpdateSettings (db : Database) (value : ApplicationSettings) : res sql_error Database :=
  let! s := upsert_settings (settings db)
    [("logs.default_source", DefaultLog value); ("certbot.default_email", CertbotEmail value);
     ("interface.default_language", DefaultLanguage value)] in
  Ok (with_settings db s).

Definition SMTPSettings (db : Database) : SMTPSettings_ :=
  {| Host := setting db "smtp.host"; Username := setting db "smtp.username";
     Security := default "starttls" (settings db !! "smtp.security");
     Port := match settings db !! "smtp.port" with
             | Some value => default 587 (atoi value)
             | None => 587 end;
     PasswordConfigured := match settings db !! "smtp.password" with
                           | Some value => negb (String.eqb value "")
                           | None => false end |}.

(** ** Secrets *)

Class Aead := {
  gcm_seal : string → string → string → string → string;          (** key, nonce, text, associated data *)
  gcm_open : string → string → string → string → option string;   (** key, nonce, sealed, associated data *)
}.
Class LawfulAead `{Aead} : Prop :=
  gcm_open_seal : ∀ key nonce text aad, gcm_open key nonce (gcm_seal key nonce text aad) aad = Some text.

Definition encryptedSecretPrefix : string := "aegisadmin:v1:".
Definition NonceSize : nat := 12.
Definition secret_aad : string := "smtp.password".

Section Secrets.
Context `{Aead}.

(** [SetSecretKey] *)
Definition SetSecretKey (key : string) : res sql_error string :=
  if negb (slen key =? 32) then Err (ErrMessage "secret key must contain 32 bytes") else Ok key.

(** [rand] is what the random source delivers for twelve bytes. *)
Definition encryptSecret (secretKey : string) (rand : option string) (value : string) : res sql_error string :=
  if negb (slen secretKey =? 32) then Err (ErrMessage "secret encryption is unavailable")
  else match rand with
       | None => Err (ErrMessage "rand")
       | Some nonce =>
           Ok (encryptedSecretPrefix +++ b64_encode StdAlphabet (nonce +++ gcm_seal secretKey nonce value secret_aad))
       end.

Definition decryptSecret (secretKey value : string) : res sql_error string :=
  if negb (slen secretKey =? 32) || negb (has_prefix value encryptedSecretPrefix)
  then Err (ErrMessage "encrypted secret is invalid")
  else match b64_decode StdAlphabet false (trim_prefix value encryptedSecretPrefix) with
       | None => Err (ErrMessage "encrypted secret is invalid")
       | Some payload =>
           if slen payload <? Z.of_nat NonceSize then Err (ErrMessage "encrypted secret is invalid")
           else match gcm_open secretKey (stake NonceSize payload) (sdrop NonceSize payload) secret_aad with
                | Some plain => Ok plain
                | None => Err (ErrMessage "encrypted secret cannot be decrypted")
                end
       end.

Definition UpdateSMTPSettings (db : Database) (secretKey : string) (rand : option string)
    (value : SMTPSettings_) (password : option string) : res sql_error Database :=
  let items := [("smtp.host", Host value); ("smtp.username", Username value);
                ("smtp.port", itoa (Port value)); ("smtp.security", Security value)] in
  let! items :=
    match password with
    | None => Ok items
    | Some password =>
        let! encrypted := (if String.eqb password "" then Ok "" else encryptSecret secretKey rand password) in
        Ok (items ++ [("smtp.password", encrypted)])
    end in
  let! s := upsert_settings (settings db) items in
  Ok (with_settings db s).

(** [connection] is false when the query fails: the scanned value is then empty. *)
Definition SMTPPassword (db : Database) (secretKey : string) (connection : bool) : res sql_error string :=
  let '(value, err) :=
    if negb connection then ("", Some ErrDatabase)
    else match settings db !! "smtp.password" with
         | Some value => (value, None)
         | None => ("", Some ErrNoRows)
         end in
  if (match err with Some ErrNoRows => true | _ => false end) || String.eqb value "" then Ok ""
  else match err with
       | Some e => Err e
       | None => decryptSecret secretKey value
       end.

(** [LoadOrCreateSecretKey]: what the path holds, and the fresh bytes. *)
Inductive key_file := KeyMissing | KeyUnsafe | KeyStatError | KeyUnreadable | KeyContent (bytes : string).

Definition LoadOrCreateSecretKey (path : string) (file : key_file) (rand : option string) (written : bool)
    : res sql_error string :=
  if negb (has_prefix path "/") then Err (ErrMessage "secret key path must be absolute")
  else match file with
       | KeyUnsafe => Err (ErrMessage "secret key must be a private regular non-symlink file")
       | KeyStatError | KeyUnreadable => Err (ErrMessage "read secret key")
       | KeyContent key =>
           if negb (slen key =? 32) then Err (ErrMessage "secret key has an invalid size") else Ok key
       | KeyMissing =>
           match rand with
           | None => Err (ErrMessage "generate secret key")
           | Some key => if written then Ok key else Err (ErrMessage "write secret key")
           end
       end.
End Secrets.

(** ** Preferences *)

Definition validThemes : list string := ["dark"; "light"; "bootstrap"; "neon"].
Definition validLanguages : list string := ["fr"; "en"].

Definition ThemeForUser (db : Database) (userID : Z) : res sql_error string :=
  match preferences db !! userID with
  | None => Ok "dark"
  | Some p => if one_of (theme p) validThemes then Ok (theme p) else Err (ErrMessage "stored user theme is invalid")
  end.

Definition LanguageForUser (db : Database) (userID : Z) : res sql_error string :=
  match preferences db !! userID with
  | None => Ok ""
  | Some p => if one_of (language p) validLanguages then Ok (language p) else Err (ErrMessage "stored user language is invalid")
  end.

(** The upsert: the row inserted or changed must satisfy the checks and name a user. *)
Definition upsert_preference (db : Database) (userID : Z) (p : PreferenceRow) : res sql_error Database :=
  match users db !! userID with
  | None => Err ErrConstraint
  | Some _ => if preference_checks p then Ok (with_preferences db (<[userID := p]> (preferences db))) else Err ErrConstraint
  end.

Definition SetTheme (db : Database) (now : string) (userID : Z) (value : string) : res sql_error Database :=
  if (userID <=? 0) || negb (one_of value validThemes) then Err (ErrMessage "invalid user theme")
  else upsert_preference db userID
    {| theme := value; language := from_option language "fr" (preferences db !! userID); p_updated_at := now |}.

Definition SetLanguage (db : Database) (now : string) (userID : Z) (value : string) : res sql_error Database :=
  if (userID <=? 0) || negb (one_of value validLanguages) then Err (ErrMessage "invalid user language")
  else upsert_preference db userID
    {| theme := from_option theme "dark" (preferences db !! userID); language := value; p_updated_at := now |}.

(** ** The access log *)

Definition AccessLogEvents : list string :=
  ["login_success"; "login_failure"; "two_factor_success"; "two_factor_failure"; "logout"; "password_changed";
   "two_factor_enabled"; "two_factor_disabled"; "server_reboot_scheduled"].
Definition accessLogEventSet (event : string) : bool := one_of event AccessLogEvents.

Definition RecordAccess (db : Database) (now : string) (userID : option Z) (login event : string)
    (success : bool) (ipAddress userAgent : string) : res sql_error Database :=
  if negb (accessLogEventSet event) then Err (ErrMessage "invalid access log event")
  else
    let login := trim_space login in
    let login := if String.eqb login "" then "(inconnu)" else login in
    let login := if 190 <? slen login then stake 190 login else login in
    let ipAddress := if 45 <? slen ipAddress then stake 45 ipAddress else ipAddress in
    let userAgent := if 512 <? slen userAgent then stake 512 userAgent else userAgent in
    let row := {| l_user_id := userID; l_login := login; l_event := event; l_success := success;
                  l_ip_address := ipAddress; l_user_agent := userAgent; l_occurred_at := now |} in
    let user_exists := match userID with Some id => bool_decide (is_Some (users db !! id)) | None => true end in
    if one_of event access_events && user_exists
    then let id := access_log_seq db + 1 in Ok (with_access_log db (<[id := row]> (access_log db)) id)
    else Err ErrConstraint.

Record AccessLogFilter := { f_Login : string; f_IPAddress : string; f_Event : string; f_Page : Z; f_PerPage : Z }.
Record AccessLogResult := { Items : list (Z * AccessRow); Total : Z; Page : Z; PerPage : Z }.

Definition normal_filter (f : AccessLogFilter) : AccessLogFilter :=
  {| f_Login := trim_space (f_Login f); f_IPAddress := trim_space (f_IPAddress f);
     f_Event := if accessLogEventSet (f_Event f) then f_Event f else "";
     f_Page := if f_Page f <? 1 then 1 else f_Page f;
     f_PerPage := if (f_PerPage f <? 1) || (100 <? f_PerPage f) then 50 else f_PerPage f |}.

(** The WHERE clause; [lower] of SQLite folds ASCII. *)
Definition log_matches (f : AccessLogFilter) (row : AccessRow) : bool :=
  (String.eqb (f_Login f) "" || contains (nocase (l_login row)) (nocase (f_Login f))) &&
  (String.eqb (f_IPAddress f) "" || String.eqb (l_ip_address row) (f_IPAddress f)) &&
  (String.eqb (f_Event f) "" || String.eqb (l_event row) (f_Event f)).

(** ORDER BY occurred_at DESC, id DESC *)
Definition log_le (a b : Z * AccessRow) : Prop :=
  if String.eqb (l_occurred_at a.2) (l_occurred_at b.2) then b.1 ≤ a.1
  else str_le (l_occurred_at b.2) (l_occurred_at a.2).
#[global] Instance log_le_dec a b : Decision (log_le a b).
Proof. unfold log_le. case_match; apply _. Defined.

Definition log_rows (db : Database) (f : AccessLogFilter) : list (Z * AccessRow) :=
  merge_sort log_le (filter (λ ir, log_matches f ir.2 = true) (map_to_list (access_log db))).

(** LIMIT and OFFSET; SQLite takes a negative offset as zero. *)
Definition AccessLog (db : Database) (filter_ : AccessLogFilter) : AccessLogResult :=
  let f := normal_filter filter_ in
  let rows := log_rows db f in
  let offset := wrap64 (wrap64 (f_Page f - 1) * f_PerPage f) in
  {| Items := take (Z.to_nat (f_PerPage f)) (drop (Z.to_nat offset) rows);
     Total := Z.of_nat (List.length rows); Page := f_Page f; PerPage := f_PerPage f |}.

(** ** Facts *)

Lemma upsert_settings_lookup items s s' : upsert_settings s items = Ok s' → NoDup items.*1 →
  ∀ key, s' !! key = match (list_to_map items : gmap string string) !! key with
                     | Some v => Some v | None => s !! key end.
Proof.
  revert s. induction items as [|[k v] items IH]; intros s; cbn [upsert_settings fmap list_fmap fst].
  { by intros [= <-] _ key. }
  destruct (setting_checks k v); [|done]. intros Hu [Hni Hnd]%NoDup_cons key.
  rewrite (IH _ Hu Hnd), list_to_map_cons. destruct (decide (k = key)) as [->|Hne].
  - rewrite lookup_insert_eq.
    assert ((list_to_map items : gmap string string) !! key = None) as Hn by by apply not_elem_of_list_to_map_1.
    rewrite Hn. by rewrite lookup_insert_eq.
  - by rewrite !lookup_insert_ne by done.
Qed.

(** Application settings: what was saved is what is read back, and nothing else of the
    settings changes. *)
Theorem Settings_roundtrip db value db' : UpdateSettings db value = Ok db' →
  Settings db' = value ∧
  ∀ key, key ∉ ["logs.default_source"; "certbot.default_email"; "interface.default_language"] →
    settings db' !! key = settings db !! key.
Proof.
  unfold UpdateSettings. intros (s & Hu & [= <-])%res_bind_Ok.
  pose proof (upsert_settings_lookup _ _ _ Hu) as Hl. split.
  - unfold Settings, setting. cbn [settings with_settings]. rewrite !Hl by (apply (bool_decide_eq_true_1 _); reflexivity).
    by destruct value.
  - intros key Hk. cbn [settings with_settings]. rewrite Hl by (apply (bool_decide_eq_true_1 _); reflexivity).
    rewrite not_elem_of_list_to_map_1; [done|]. exact Hk.
Qed.

Section SecretFacts.
Context `{Aead} `{!LawfulAead}.

Lemma decrypt_encrypt key nonce value encrypted :
  slen nonce = Z.of_nat NonceSize → encryptSecret key (Some nonce) value = Ok encrypted →
  decryptSecret key encrypted = Ok value.
Proof.
  intros Hn. unfold encryptSecret, decryptSecret. destruct (slen key =? 32); cbn [negb]; [|done].
  intros Heq. assert (encrypted = encryptedSecretPrefix +++ b64_encode StdAlphabet
    (nonce +++ gcm_seal key nonce value secret_aad)) as -> by congruence.
  rewrite has_prefix_app, trim_prefix_app, b64_decode_encode. cbn [negb orb].
  assert (String.length nonce = NonceSize) as Hl by (unfold slen in Hn; lia).
  assert ((slen (nonce +++ gcm_seal key nonce value secret_aad) <? Z.of_nat NonceSize) = false) as ->.
  { apply Z.ltb_ge. unfold slen. rewrite sapp_length. lia. }
  rewrite <- Hl, stake_app, sdrop_app. by rewrite gcm_open_seal.
Qed.

(** SMTP settings: what was saved is what is read back; the password is stored only
    encrypted, reads back as it was, and is left alone when the form leaves it out. *)
Theorem SMTPSettings_roundtrip db key nonce value password db' :
  slen nonce = Z.of_nat NonceSize → int_min ≤ Port value ≤ int_max →
  UpdateSMTPSettings db key (Some nonce) value password = Ok db' →
  Host (SMTPSettings db') = Host value ∧ Username (SMTPSettings db') = Username value ∧
  Security (SMTPSettings db') = Security value ∧ Port (SMTPSettings db') = Port value ∧
  match password with
  | None => settings db' !! "smtp.password" = settings db !! "smtp.password"
  | Some p => SMTPPassword db' key true = Ok p ∧ PasswordConfigured (SMTPSettings db') = negb (String.eqb p "")
  end.
Proof.
  intros Hn Hp. unfold UpdateSMTPSettings. cbv zeta.
  destruct password as [p|].
  - intros (items & (encrypted & He & [= <-])%res_bind_Ok & (s & Hu & [= <-])%res_bind_Ok)%res_bind_Ok.
    pose proof (upsert_settings_lookup _ _ _ Hu ltac:(apply (bool_decide_eq_true_1 _); reflexivity)) as Hl.
    unfold SMTPSettings, setting, SMTPPassword. cbn [Host Username Security Port PasswordConfigured settings with_settings negb].
    rewrite !Hl.
    change (list_to_map ?l !! "smtp.password") with (Some encrypted).
    split_and!; try done.
    + change (default 587 (atoi (itoa (Port value))) = Port value). by rewrite atoi_itoa.
    + destruct (String.eqb_spec p "") as [->|Hne]; [by injection He as <-|].
      pose proof (decrypt_encrypt _ _ _ _ Hn He) as Hd. unfold encryptSecret in He.
      destruct (negb _); [done|]. injection He as <-. cbn [orb]. by destruct (b64_encode _ _).
    + destruct (String.eqb_spec p "") as [->|Hne]; [by injection He as <-|].
      unfold encryptSecret in He. destruct (negb _); [done|]. injection He as <-. done.
  - cbn [res_bind]. intros (s & Hu & [= <-])%res_bind_Ok.
    pose proof (upsert_settings_lookup _ _ _ Hu ltac:(apply (bool_decide_eq_true_1 _); reflexivity)) as Hl.
    unfold SMTPSettings, setting. cbn [Host Username Security Port settings with_settings].
    rewrite !Hl. split_and!; try done.
    change (default 587 (atoi (itoa (Port value))) = Port value). by rewrite atoi_itoa.
Qed.

(** Reading the SMTP password: a failure of the query is not reported, it reads as "no
    password" (the error test comes after the test for the empty value, which the failed
    scan always satisfies); otherwise an absent or empty entry is no password and any
    other entry is decrypted. *)
Theorem SMTPPassword_spec db key :
  SMTPPassword db key false = Ok "" ∧
  SMTPPassword db key true =
    match settings db !! "smtp.password" with
    | Some value => if String.eqb value "" then Ok "" else decryptSecret key value
    | None => Ok ""
    end.
Proof.
  unfold SMTPPassword. cbn [negb]. split; [done|].
  destruct (settings db !! "smtp.password") as [value|]; [|done]. by destruct (String.eqb value "").
Qed.
End SecretFacts.

(** ** The access log *)

Lemma cap_length (n : Z) s : 0 ≤ n → slen (if n <? slen s then stake (Z.to_nat n) s else s) ≤ n.
Proof.
  intros Hn. destruct (Z.ltb_spec n (slen s)); [|lia]. unfold slen. rewrite stake_length. lia.
Qed.

(** The access log: an entry is recorded exactly when its event is one of the eight the
    table accepts and its user, if any, exists; login, address and user agent are cut to
    190, 45 and 512 bytes, an empty login is named, the entry takes the next identifier and
    nothing else changes.  The ninth event of the code's list, the scheduled reboot, is
    never recorded: the table rejects it. *)
Theorem RecordAccess_spec db now userID login event success ip ua :
  (is_ok (RecordAccess db now userID login event success ip ua) = true ↔
     event ∈ access_events ∧ ∀ id, userID = Some id → is_Some (users db !! id)) ∧
  (∀ db', RecordAccess db now userID login event success ip ua = Ok db' →
     ∃ row, access_log db' = <[access_log_seq db + 1 := row]> (access_log db) ∧
       access_log_seq db' = access_log_seq db + 1 ∧ users db' = users db ∧ settings db' = settings db ∧
       l_user_id row = userID ∧ l_event row = event ∧ l_success row = success ∧ l_occurred_at row = now ∧
       l_login row ≠ "" ∧ slen (l_login row) ≤ 190 ∧ slen (l_ip_address row) ≤ 45 ∧ slen (l_user_agent row) ≤ 512) ∧
  ("server_reboot_scheduled" ∈ AccessLogEvents ∧
   ∀ e, e = "server_reboot_scheduled" → is_ok (RecordAccess db now userID login e success ip ua) = false).
Proof.
  assert (∀ e l, one_of e l = true ↔ e ∈ l) as Hone by (intros; apply existsb_eqb_elem).
  split; [|split].
  - unfold RecordAccess, accessLogEventSet. cbv zeta.
    destruct (one_of event AccessLogEvents) eqn:Hev; cbn [negb].
    + destruct (one_of event access_events) eqn:Ha; cbn [andb].
      * apply Hone in Ha. destruct userID as [id|]; [|by split; [split|]].
        case_bool_decide as Hu; cbn [is_ok].
        -- split; [|done]. intros _. split; [done|]. by intros ? [= <-].
        -- split; [done|]. intros [_ Hx]. destruct Hu. by apply Hx.
      * split; [done|]. intros [Hin _]. apply Hone in Hin. congruence.
    + split; [done|]. intros [Hin _]. apply not_true_iff_false in Hev. destruct Hev.
      apply Hone. unfold AccessLogEvents. unfold access_events in Hin.
      repeat (apply elem_of_cons in Hin as [->|Hin]; [apply (bool_decide_eq_true_1 _); reflexivity|]).
      by apply elem_of_nil in Hin.
  - intros db'. unfold RecordAccess. destruct (negb _); [done|]. cbv zeta.
    match goal with |- (if ?b then _ else _) = _ → _ => destruct b; [|done] end.
    intros [= <-]. cbn [access_log access_log_seq with_access_log users settings].
    eexists. split; [done|]. cbn [l_user_id l_event l_success l_occurred_at l_login l_ip_address l_user_agent].
    split_and!; try done; [|apply (cap_length 190); lia|apply (cap_length 45); lia|apply (cap_length 512); lia].
    set (l := if String.eqb (trim_space login) "" then "(inconnu)" else trim_space login).
    assert (l ≠ "") as Hl by (subst l; destruct (String.eqb_spec (trim_space login) ""); done).
    destruct (190 <? slen l); [|done]. by destruct l.
  - split; [apply (bool_decide_eq_true_1 _); reflexivity|]. by intros e ->.
Qed.

Lemma concat_pages {A} (l : list A) k n :
  List.concat ((λ i, take k (drop (i * k) l)) <$> seq 0 n) = take (n * k) l.
Proof.
  induction n as [|n IH]; [done|].
  rewrite seq_S, fmap_app, List.concat_app, IH. cbn [fmap list_fmap List.concat Nat.add]. rewrite app_nil_r.
  replace (S n * k)%nat with (n * k + k)%nat by lia.
  by rewrite <- take_take_drop.
Qed.

Definition with_page (f : AccessLogFilter) (page : Z) : AccessLogFilter :=
  {| f_Login := f_Login f; f_IPAddress := f_IPAddress f; f_Event := f_Event f; f_Page := page; f_PerPage := f_PerPage f |}.

Lemma log_rows_page db f p : log_rows db (normal_filter (with_page f p)) = log_rows db (normal_filter f).
Proof. done. Qed.

(** Paging: the pages from the first one on, put end to end, are the whole filtered log
    in order, without loss or repetition, and each announces its size. *)
Theorem AccessLog_pages db f n :
  1 ≤ f_PerPage f ≤ 100 → Z.of_nat n ≤ 2^48 →
  Z.of_nat (List.length (log_rows db (normal_filter f))) ≤ Z.of_nat n * f_PerPage f →
  List.concat ((λ i, Items (AccessLog db (with_page f (Z.of_nat i + 1)))) <$> seq 0 n) = log_rows db (normal_filter f) ∧
  ∀ p, Total (AccessLog db (with_page f p)) = Z.of_nat (List.length (log_rows db (normal_filter f))).
Proof.
  intros Hper Hn Hlen. split; [|done]. set (rows := log_rows db (normal_filter f)) in *.
  transitivity (List.concat ((λ i, take (Z.to_nat (f_PerPage f)) (drop (i * Z.to_nat (f_PerPage f)) rows)) <$> seq 0 n)).
  - f_equal. apply list_fmap_ext. intros j i Hi. apply lookup_seq in Hi as [-> Hj].
    unfold AccessLog. cbn [Items]. rewrite log_rows_page. fold rows.
    assert (f_PerPage (normal_filter (with_page f (Z.of_nat (0 + j) + 1))) = f_PerPage f) as ->.
    { cbn [normal_filter with_page f_PerPage].
      by rewrite (proj2 (Z.ltb_ge _ 1)), (proj2 (Z.ltb_ge 100 _)) by lia. }
    assert (f_Page (normal_filter (with_page f (Z.of_nat (0 + j) + 1))) = Z.of_nat j + 1) as ->.
    { cbn [normal_filter with_page f_Page]. rewrite (proj2 (Z.ltb_ge _ 1)) by lia. lia. }
    rewrite (wrap64_id (Z.of_nat j + 1 - 1)) by (unfold int_min, int_max; lia).
    rewrite wrap64_id by (unfold int_min, int_max; nia).
    f_equal. f_equal. lia.
  - rewrite concat_pages. apply take_ge. nia.
Qed.

(** ** Runs *)

(** A toy sealing: the key and the nonce are not used. *)
Definition toy_aead : Aead := {|
  gcm_seal := λ _ _ text _, text;
  gcm_open := λ _ _ sealed _, Some sealed;
|}.
Lemma toy_aead_lawful : LawfulAead (H := toy_aead).
Proof. by intros ? ? ? ?. Qed.

Definition empty_db : Database :=
  {| users := ∅; users_seq := 0; categories := ∅; categories_seq := 0; modules := ∅; modules_seq := 0;
     permissions := ∅; settings := ∅; preferences := ∅; access_log := ∅; access_log_seq := 0 |}.

Definition sample_settings : ApplicationSettings :=
  {| DefaultLog := "auth"; CertbotEmail := "a@b.fr"; DefaultLanguage := "fr" |}.
Definition sample_saved : Database :=
  match UpdateSettings empty_db sample_settings with Ok d => d | Err _ => empty_db end.

Lemma Settings_roundtrip_witness : Settings sample_saved = sample_settings.
Proof. apply (Settings_roundtrip empty_db sample_settings sample_saved). vm_compute. reflexivity. Defined.

Definition sample_key : string := "0123456789abcdef0123456789abcdef".
Definition sample_smtp : SMTPSettings_ :=
  {| Host := "mail"; Username := "u"; Security := "tls"; Port := 465; PasswordConfigured := false |}.
Definition sample_mail : Database :=
  match UpdateSMTPSettings (H := toy_aead) empty_db sample_key (Some "abcdefghijkl") sample_smtp (Some "secret") with
  | Ok d => d | Err _ => empty_db end.

Lemma SMTPSettings_roundtrip_witness :
  Port (SMTPSettings sample_mail) = 465 ∧ SMTPPassword (H := toy_aead) sample_mail sample_key true = Ok "secret".
Proof.
  destruct (SMTPSettings_roundtrip (H := toy_aead) (H0 := toy_aead_lawful) empty_db sample_key "abcdefghijkl" sample_smtp
    (Some "secret") sample_mail) as (_ & _ & _ & Hp & Hs & _);
    [reflexivity|unfold int_min, int_max; cbn; lia|vm_compute; reflexivity|].
  exact (conj Hp Hs).
Defined.

Definition sample_entry (n : Z) : AccessRow :=
  {| l_user_id := None; l_login := "root"; l_event := "logout"; l_success := true; l_ip_address := "::1";
     l_user_agent := ""; l_occurred_at := "2026-01-01T00:00:0" +++ itoa n +++ "Z" |}.
Definition sample_log : Database :=
  with_access_log empty_db {[ 1 := sample_entry 1; 2 := sample_entry 3; 3 := sample_entry 2 ]} 3.
Definition sample_filter : AccessLogFilter :=
  {| f_Login := "ROOT"; f_IPAddress := ""; f_Event := ""; f_Page := 1; f_PerPage := 2 |}.

Lemma AccessLog_pages_witness :
  fst <$> List.concat ((λ i, Items (AccessLog sample_log (with_page sample_filter (Z.of_nat i + 1)))) <$> seq 0 2) = [2; 3; 1].
Proof.
  rewrite (proj1 (AccessLog_pages sample_log sample_filter 2 ltac:(cbn; lia) ltac:(lia)
    ltac:(apply (bool_decide_eq_true_1 _); vm_compute; reflexivity))).
  vm_compute. reflexivity.
Defined.
