(* ===== verification/WebApp.v ===== *)
(** * Sign-in and account pages ([internal/webapp/webapp.go], [internal/webauth/authentication.go])

    The handlers that create, change and end sessions, each one whole: the session and
    the CSRF token, the limiters, the account store, the access log, the cookies and the
    answer, in the order of the code.  A handler is a function of the request, of what
    the outside gives it while it runs ([Env]) and of the state of the program ([World]).

    The clock is read once per request.  The wiring of [cmd/aegisadmin-web] gives every
    dependency, so the tests for a missing one are left out.  The HTML of these pages is not
    modelled: a page is named with what it is made of, its language apart. *)

From S2P Require Import Prelude GoStrings StringFacts Codec Limiter Totp Password.
From S2P Require Api Session Schema Store StoreSettings.
From Stdlib Require Import Ascii String.
#[local] Open Scope string_scope.
#[local] Open Scope list_scope.
#[local] Open Scope Z_scope.

(** ** [Authenticate] *)

Definition NextStep : Type := string.
Definition StepInvalid : NextStep := "invalid".
Definition StepAuthenticated : NextStep := "authenticated".
Definition StepPasswordChange : NextStep := "password_change".
Definition StepTwoFactorChallenge : NextStep := "two_factor_challenge".
Definition StepTwoFactorEnrollment : NextStep := "two_factor_enrollment".

Definition is_valid {A} (o : option A) : bool := match o with Some _ => true | None => false end.

Section Authenticate.
Context `{PasswordHash}.

(** The root account stands in for an unknown login, so that a hash is always computed.
    [None]: the store failed. *)
Definition Authenticate (db_up : bool) (db : Schema.Database) (login password : string)
    : option (option Store.User * NextStep) :=
  let login := trim_space login in
  if negb db_up then None
  else
    let user := Store.FindByLogin db login in
    let reference_hash := match user with
      | Some u => Store.PasswordHash u
      | None => match Store.FindRoot db with Some r => Store.PasswordHash r | None => "" end
      end in
    let passwordValid := VerifyPassword password reference_hash in
    match user with
    | None => Some (None, StepInvalid)
    | Some u =>
        if negb passwordValid || negb (String.eqb (Store.Status u) "active") then Some (None, StepInvalid)
        else if is_valid (Store.TOTPSecret u) && is_valid (Store.TOTPEnabledAt u)
        then Some (Some u, StepTwoFactorChallenge)
        else if Store.TwoFactorRequired u then Some (Some u, StepTwoFactorEnrollment)
        else if Store.MustChangePassword u then Some (Some u, StepPasswordChange)
        else Some (Some u, StepAuthenticated)
    end.
End Authenticate.

Definition nextState (step : NextStep) : Session.State * string :=
  if String.eqb step StepPasswordChange then (Session.StatePassword, "/go/account/password")
  else if String.eqb step StepTwoFactorChallenge then (Session.StateTwoFactor, "/go/two-factor")
  else if String.eqb step StepTwoFactorEnrollment then (Session.StateTwoFactorSetup, "/go/two-factor/setup")
  else (Session.StateAuthenticated, "/go/dashboard").

(** ** Requests, answers, state *)

(** [form]: the decoded form, [None] when the body is too long or not a form. *)
Record HTTPRequest := {
  session_cookie : option string;
  content_type : string;
  form : option (gmap string string);
  RemoteAddr : string;
  X_Forwarded_For : string;
  X_Real_IP : string;
  UserAgent : string;
}.

Definition field (request : HTTPRequest) (key : string) : string :=
  match form request with Some f => default "" (f !! key) | None => "" end.

Definition is_form (request : HTTPRequest) : bool :=
  has_prefix (content_type request) "application/x-www-form-urlencoded".

(** What the outside gives a handler: the clock in nanoseconds, in seconds and as the
    store writes it, whether the database answers, the random bytes, how the writes of
    the session file end. *)
Record Env := {
  now : Z;
  stamp : string;
  db_up : bool;
  session_random : string;
  totp_random : option string;
  password_salt : option string;
  get_outcome : Session.persist_outcome;
  csrf_outcome : Session.persist_outcome;
  change_outcome : Session.persist_outcome;
}.
Definition unix (e : Env) : Z := now e / 10^9.

(** [sent]: the requests sent to the local API, most recent first. *)
Record World := {
  db : Schema.Database;
  mgr : Session.Manager;
  login_limiter : LoginLimiter;
  password_limiter : LoginLimiter;
  two_factor_limiter : LoginLimiter;
  sent : list Api.Request;
}.

Definition with_db (w : World) d := {| db := d; mgr := mgr w; login_limiter := login_limiter w;
  password_limiter := password_limiter w; two_factor_limiter := two_factor_limiter w; sent := sent w |}.
Definition with_mgr (w : World) m := {| db := db w; mgr := m; login_limiter := login_limiter w;
  password_limiter := password_limiter w; two_factor_limiter := two_factor_limiter w; sent := sent w |}.
Definition with_login_limiter (w : World) l := {| db := db w; mgr := mgr w; login_limiter := l;
  password_limiter := password_limiter w; two_factor_limiter := two_factor_limiter w; sent := sent w |}.
Definition with_password_limiter (w : World) l := {| db := db w; mgr := mgr w; login_limiter := login_limiter w;
  password_limiter := l; two_factor_limiter := two_factor_limiter w; sent := sent w |}.
Definition with_two_factor_limiter (w : World) l := {| db := db w; mgr := mgr w; login_limiter := login_limiter w;
  password_limiter := password_limiter w; two_factor_limiter := l; sent := sent w |}.
Definition with_sent (w : World) l := {| db := db w; mgr := mgr w; login_limiter := login_limiter w;
  password_limiter := password_limiter w; two_factor_limiter := two_factor_limiter w; sent := l |}.

Inductive Page :=
| NoPage
| ErrorText (message : string)
| LoginPage (csrf : string) (failed : bool) (uninitialized : bool)
| PasswordPage (csrf message_key : string) (mandatory : bool) (user : Store.User)
| TwoFactorPage (csrf : string) (user : Z) (failed : bool)
| TwoFactorSetupPage (csrf secret : string) (failed : bool) (action : string)
| StatePage (title message : string)
| Html (template : string) (values : list (string * string)) (finish : string → string)   (** a template, what is put in its places, what is made of the text *)
| Body (text : string)
| Served (session : Session.Session) (user : Store.User).   (** a page behind [authenticatedUser] *)

Record Answer := { code : Z; location : string; set_cookies : list Session.HTTPCookie; page : Page }.

Definition StatusOK : Z := 200.
Definition StatusNoContent : Z := 204.
Definition StatusSeeOther : Z := 303.
Definition StatusBadRequest : Z := 400.
Definition StatusUnauthorized : Z := 401.
Definition StatusForbidden : Z := 403.
Definition StatusNotFound : Z := 404.
Definition StatusConflict : Z := 409.
Definition StatusServiceUnavailable : Z := 503.

(** [http.Error], [writeHTML], [http.Redirect], after the cookies set before them. *)
Definition http_error (cookies : list Session.HTTPCookie) (message : string) (code_ : Z) : Answer :=
  {| code := code_; location := ""; set_cookies := cookies; page := ErrorText message |}.
Definition show (p : Page) (code_ : Z) : Answer := {| code := code_; location := ""; set_cookies := []; page := p |}.
Definition redirect (cookies : list Session.HTTPCookie) (target : string) : Answer :=
  {| code := StatusSeeOther; location := target; set_cookies := cookies; page := NoPage |}.

Definition themeCookie (theme : string) : Session.HTTPCookie :=
  {| Session.cookie_Name := "aegisadmin_theme"; Session.cookie_Value := theme; Session.cookie_Path := "/";
     Session.cookie_Domain := ""; Session.cookie_Secure := true; Session.cookie_HttpOnly := false;
     Session.cookie_SameSite := Session.SameSiteStrict; Session.cookie_MaxAge := 31536000; Session.cookie_Expires := None |}.
Definition languageCookie (language : string) : Session.HTTPCookie :=
  {| Session.cookie_Name := "aegisadmin_language"; Session.cookie_Value := language; Session.cookie_Path := "/";
     Session.cookie_Domain := ""; Session.cookie_Secure := true; Session.cookie_HttpOnly := false;
     Session.cookie_SameSite := Session.SameSiteStrict; Session.cookie_MaxAge := 31536000; Session.cookie_Expires := None |}.

(** ** The address of the client *)

(** [net.ParseIP]: the canonical text and whether it is a loopback address. *)
Class NetIP := { ParseIP : string → option (string * bool) }.

(** [strings.LastIndexByte] through the parts of [strings.Split]. *)
Definition SplitHostPort_host (hostport : string) : option string :=
  match rev (split ":" hostport) with
  | _ :: x :: before_ =>
      let host := join ":" (rev (x :: before_)) in
      if has_prefix hostport "[" then
        let '(inside, rest, found) := cut "]" (sdrop 1 hostport) in
        if found && has_prefix rest ":" && negb (contains_byte ":" (sdrop 1 rest))
           && negb (contains_byte "[" (sdrop 1 hostport)) && negb (contains_byte "]" rest)
        then Some inside else None
      else if contains_byte ":" host || contains_byte "[" hostport || contains_byte "]" hostport then None
      else Some host
  | _ => None
  end.

Example SplitHostPort_v4 : SplitHostPort_host "192.0.2.7:4711" = Some "192.0.2.7". Proof. reflexivity. Qed.
Example SplitHostPort_v6 : SplitHostPort_host "[2001:db8::1]:443" = Some "2001:db8::1". Proof. reflexivity. Qed.
Example SplitHostPort_bare : SplitHostPort_host "2001:db8::1" = None. Proof. reflexivity. Qed.
Example SplitHostPort_port : SplitHostPort_host "192.0.2.7" = None. Proof. reflexivity. Qed.
Example SplitHostPort_bracket : SplitHostPort_host "[::1]" = None. Proof. reflexivity. Qed.

Definition remoteAddress (value : string) : string := default value (SplitHostPort_host value).

Definition supported_language (language : string) : bool := String.eqb language "fr" || String.eqb language "en".

Section App.
Context `{UnicodeCase} `{PasswordHash} `{NetIP}.
(** [qrcode.Encode] and the language given on the command line. *)
Context (qrcode : string → option string) (flag_language : string).

Fixpoint first_parsed (l : list string) : option string :=
  match l with
  | [] => None
  | candidate :: l' =>
      match ParseIP (trim_space candidate) with Some (text, _) => Some text | None => first_parsed l' end
  end.

Definition requestAddress (request : HTTPRequest) : string :=
  let direct := remoteAddress (RemoteAddr request) in
  match ParseIP direct with
  | Some (_, true) =>
      match first_parsed (rev (split "," (X_Forwarded_For request))) with
      | Some text => text
      | None =>
          let candidate := trim_space (X_Real_IP request) in
          if String.eqb candidate "" then direct
          else match ParseIP candidate with Some (text, _) => text | None => direct end
      end
  | _ => direct
  end.

(** ** Helpers of the handlers *)

(** The error of [RecordAccess] is dropped. *)
Definition recordAccess (e : Env) (request : HTTPRequest) (user : option Z) (login event : string) (success : bool)
    (w : World) : World :=
  if negb (db_up e) then w
  else match StoreSettings.RecordAccess (db w) (stamp e) user login event success
               (requestAddress request) (to_valid_utf8 0 false (UserAgent request)) with
       | Ok d => with_db w d
       | Err _ => w
       end.

Definition requestSession (e : Env) (request : HTTPRequest) (w : World) : option Session.Session * World :=
  match session_cookie request with
  | None => (None, w)
  | Some id => let '(s, m) := Session.Get (mgr w) (now e) (get_outcome e) id in (s, with_mgr w m)
  end.

Definition session_id (s : option Session.Session) : string := from_option Session.ID "" s.

Definition invalidate (e : Env) (id : string) (w : World) : list Session.HTTPCookie * World :=
  ([Session.ExpiredCookie],
   if String.eqb id "" then w else with_mgr w (Session.Destroy (mgr w) (now e) (change_outcome e) id).2).

(** [a.invalidate(...)] then the redirection to the login page. *)
Definition reject (e : Env) (id : string) (w : World) : Answer * World :=
  let '(cookies, w) := invalidate e id w in (redirect cookies "/login", w).

Definition csrf_ok (e : Env) (request : HTTPRequest) (s : Session.Session) (w : World) : bool * World :=
  match form request with
  | None => (false, w)
  | Some f =>
      let '(ok, m) := Session.ValidateCSRF (mgr w) (now e) (csrf_outcome e) (Session.ID s) (field request "_token") in
      (ok, with_mgr w m)
  end.

(** [http.SetCookie(...); http.Redirect(...)] after a rotation, or the 503 of a failed one. *)
Definition rotate_to (e : Env) (s : Session.Session) (state : Session.State) (user : Store.User) (target : string)
    (w : World) : Answer * World :=
  match Session.Rotate (mgr w) (now e) (session_random e) (change_outcome e) (Session.ID s) state
          (Store.UserID user) (Store.AuthVersion user) with
  | (Err _, m) => (http_error [] "Service de session indisponible." StatusServiceUnavailable, with_mgr w m)
  | (Ok rotated, m) => (redirect [Session.Cookie (Session.ID rotated)] target, with_mgr w m)
  end.

Definition defaultLanguage (e : Env) (w : World) : string :=
  let stored := StoreSettings.DefaultLanguage (StoreSettings.Settings (db w)) in
  if db_up e && supported_language stored then stored
  else if supported_language flag_language then flag_language else "fr".

Definition renderLogin (e : Env) (csrf : string) (failed : bool) (status : Z) (w : World) : Answer :=
  show (LoginPage csrf failed (db_up e && negb (is_valid (Store.FindRoot (db w))))) status.

(** ** The account behind a session *)

(** A continuation runs with the session and the account when the checks pass. *)
Definition guarded (e : Env) (request : HTTPRequest) (session_allowed : Session.Session → bool)
    (user_allowed : Session.Session → Store.User → bool) (w : World)
    (k : Session.Session → Store.User → World → Answer * World) : Answer * World :=
  let '(found, w) := requestSession e request w in
  match found with
  | None => reject e "" w
  | Some s =>
      if negb (session_allowed s) then reject e (Session.ID s) w
      else if negb (db_up e)
      then (http_error [] "Service d’authentification indisponible." StatusServiceUnavailable, w)
      else match Store.FindByID (db w) (Session.UserID s) with
           | None => reject e (Session.ID s) w
           | Some user =>
               if negb (String.eqb (Store.Status user) "active") ||
                  negb (Store.AuthVersion user =? Session.AuthVersion s) || negb (user_allowed s user)
               then reject e (Session.ID s) w
               else k s user w
           end
  end.

Definition in_state (state : Session.State) (s : Session.Session) : bool := String.eqb (Session.SState s) state.

Definition authenticatedUser (e : Env) (request : HTTPRequest) : World →
    (Session.Session → Store.User → World → Answer * World) → Answer * World :=
  guarded e request (in_state Session.StateAuthenticated) (λ _ _, true).

Definition passwordUser (e : Env) (request : HTTPRequest) : World →
    (Session.Session → Store.User → World → Answer * World) → Answer * World :=
  guarded e request (λ s, in_state Session.StatePassword s || in_state Session.StateAuthenticated s)
    (λ s user, negb (in_state Session.StatePassword s && negb (Store.MustChangePassword user))).

Definition pendingTwoFactorUser (e : Env) (request : HTTPRequest) : World →
    (Session.Session → Store.User → World → Answer * World) → Answer * World :=
  guarded e request (in_state Session.StateTwoFactor)
    (λ _ user, is_valid (Store.TOTPSecret user) && is_valid (Store.TOTPEnabledAt user)).

Definition protected (state : Session.State) (title message : string) (e : Env) (request : HTTPRequest)
    (w : World) : Answer * World :=
  guarded e request (in_state state) (λ _ _, true) w (λ _ _ w, (show (StatePage title message) StatusOK, w)).

(** A secret is prepared for an account that has none. *)
Definition pendingEnrollmentUser (e : Env) (request : HTTPRequest) (w : World)
    (k : Session.Session → Store.User → World → Answer * World) : Answer * World :=
  guarded e request (in_state Session.StateTwoFactorSetup)
    (λ _ user, Store.TwoFactorRequired user && negb (is_valid (Store.TOTPEnabledAt user))) w
    (λ s user w,
      if is_valid (Store.TOTPSecret user) then k s user w
      else match GenerateTOTPSecret (totp_random e) with
           | None => (http_error [] "La configuration TOTP n’a pas pu être préparée." StatusServiceUnavailable, w)
           | Some secret =>
               match Store.PrepareTOTP (db w) (stamp e) (Store.UserID user) (Store.AuthVersion user) secret with
               | Err _ => reject e (Session.ID s) w
               | Ok (user, d) => k s user (with_db w d)
               end
           end).

(** ** Sign-in *)

Definition login (e : Env) (request : HTTPRequest) (w : World) : Answer * World :=
  let '(found, w) := requestSession e request w in
  match found with
  | Some s =>
      if in_state Session.StateAuthenticated s then (redirect [] "/go/dashboard", w)
      else (renderLogin e (Session.CSRFToken s) false StatusOK w, w)
  | None =>
      match Session.Create (mgr w) (now e) (session_random e) (change_outcome e) Session.StateAnonymous 0 0 with
      | (Err _, m) => (http_error [] "Service de session indisponible." StatusServiceUnavailable, with_mgr w m)
      | (Ok s, m) =>
          let w := with_mgr w m in
          let a := renderLogin e (Session.CSRFToken s) false StatusOK w in
          ({| code := code a; location := ""; set_cookies := [Session.Cookie (Session.ID s)]; page := page a |}, w)
      end
  end.

(** The theme and language cookies of a fresh sign-in; a missing language is stored. *)
Definition preference_cookies (e : Env) (user : Z) (w : World) : list Session.HTTPCookie * World :=
  if negb (db_up e) then ([], w)
  else
    let theme := match StoreSettings.ThemeForUser (db w) user with Ok t => [themeCookie t] | Err _ => [] end in
    match StoreSettings.LanguageForUser (db w) user with
    | Err _ => (theme, w)
    | Ok language =>
        if supported_language language then (theme ++ [languageCookie language], w)
        else
          let language := defaultLanguage e w in
          let w := match StoreSettings.SetLanguage (db w) (stamp e) user language with
                   | Ok d => with_db w d | Err _ => w end in
          (theme ++ [languageCookie language], w)
    end.

Definition refuse_login (e : Env) (request : HTTPRequest) (s : Session.Session) (address login : string)
    (w : World) : Answer * World :=
  let w := with_login_limiter w (LimiterFailure (login_limiter w) (now e) address login) in
  let w := recordAccess e request None login "login_failure" false w in
  (renderLogin e (Session.CSRFToken s) true StatusUnauthorized w, w).

Definition authenticate (e : Env) (request : HTTPRequest) (w : World) : Answer * World :=
  let '(found, w) := requestSession e request w in
  match found with
  | None => (redirect [Session.ExpiredCookie] "/login", w)
  | Some s =>
      if negb (in_state Session.StateAnonymous s) then (redirect [Session.ExpiredCookie] "/login", w)
      else if negb (is_form request) then (renderLogin e (Session.CSRFToken s) true StatusBadRequest w, w)
      else
        let '(ok, w) := csrf_ok e request s w in
        if negb ok then (renderLogin e (Session.CSRFToken s) true StatusBadRequest w, w)
        else
          let login := field request "login" in
          let password := field request "password" in
          let address := requestAddress request in
          if (slen login <? 3) || (64 <? slen login) || String.eqb password "" || (1024 <? slen password)
          then refuse_login e request s address login w
          else
            let '(allowed, l) := Allowed (login_limiter w) (now e) address login in
            let w := with_login_limiter w l in
            if negb allowed then refuse_login e request s address login w
            else match Authenticate (db_up e) (db w) login password with
                 | None => (http_error [] "Service d’authentification indisponible." StatusServiceUnavailable, w)
                 | Some (None, _) => refuse_login e request s address login w
                 | Some (Some user, step) =>
                     let w := with_login_limiter w (LimiterSuccess (login_limiter w) login) in
                     let w := recordAccess e request (Some (Store.UserID user)) (Store.Login user) "login_success" true w in
                     let '(state, target) := nextState step in
                     match Session.Rotate (mgr w) (now e) (session_random e) (change_outcome e) (Session.ID s) state
                             (Store.UserID user) (Store.AuthVersion user) with
                     | (Err _, m) => (http_error [] "Service de session indisponible." StatusServiceUnavailable, with_mgr w m)
                     | (Ok rotated, m) =>
                         let '(cookies, w) := preference_cookies e (Store.UserID user) (with_mgr w m) in
                         (redirect (Session.Cookie (Session.ID rotated) :: cookies) target, w)
                     end
                 end
  end.

(** ** Preferences *)

Definition changeTheme (e : Env) (request : HTTPRequest) (w : World) : Answer * World :=
  authenticatedUser e request w (λ s user w,
    let bad := http_error [] "La requête est invalide." StatusBadRequest in
    if negb (is_form request) then (bad, w)
    else
      let '(ok, w) := csrf_ok e request s w in
      if negb ok then (bad, w)
      else
        let theme := field request "theme" in
        if negb (existsb (String.eqb theme) ["dark"; "light"; "bootstrap"; "neon"])
        then (http_error [] "Le thème demandé est invalide." StatusBadRequest, w)
        else match StoreSettings.SetTheme (db w) (stamp e) (Store.UserID user) theme with
             | Err _ => (http_error [] "Le thème n’a pas pu être enregistré." StatusServiceUnavailable, w)
             | Ok d => ({| code := StatusNoContent; location := ""; set_cookies := [themeCookie theme]; page := NoPage |},
                        with_db w d)
             end).

Definition changeLanguage (e : Env) (request : HTTPRequest) (w : World) : Answer * World :=
  authenticatedUser e request w (λ s user w,
    let bad := http_error [] "La requête est invalide." StatusBadRequest in
    if negb (is_form request) then (bad, w)
    else
      let '(ok, w) := csrf_ok e request s w in
      if negb ok then (bad, w)
      else
        let language := field request "language" in
        if negb (supported_language language)
        then (http_error [] "La langue demandée est invalide." StatusBadRequest, w)
        else match StoreSettings.SetLanguage (db w) (stamp e) (Store.UserID user) language with
             | Err _ => (http_error [] "La langue n’a pas pu être enregistrée." StatusServiceUnavailable, w)
             | Ok d => (redirect [languageCookie language] "/go/account/password?result=language", with_db w d)
             end).

(** ** Password *)

Definition password (e : Env) (request : HTTPRequest) (w : World) : Answer * World :=
  passwordUser e request w (λ s user w,
    (show (PasswordPage (Session.CSRFToken s) "" (in_state Session.StatePassword s) user) StatusOK, w)).

Definition changePassword (e : Env) (request : HTTPRequest) (w : World) : Answer * World :=
  passwordUser e request w (λ s user w,
    let fail key status w :=
      (show (PasswordPage (Session.CSRFToken s) key (in_state Session.StatePassword s) user) status, w) in
    if negb (is_form request) then fail "password.error.request" StatusBadRequest w
    else
      let '(ok, w) := csrf_ok e request s w in
      if negb ok then fail "password.error.request" StatusBadRequest w
      else
        let newPassword := field request "new_password" in
        let address := requestAddress request in
        let account := Store.Login user in
        let '(allowed, l) := Allowed (password_limiter w) (now e) address account in
        let w := with_password_limiter w l in
        if negb allowed || negb (VerifyPassword (field request "current_password") (Store.PasswordHash user))
        then fail "password.error.current" StatusUnauthorized
               (with_password_limiter w (LimiterFailure (password_limiter w) (now e) address account))
        else if negb (String.eqb newPassword (field request "new_password_confirmation"))
        then fail "password.error.confirmation" StatusBadRequest w
        else if VerifyPassword newPassword (Store.PasswordHash user)
        then fail "password.error.same" StatusBadRequest w
        else match HashPassword newPassword (password_salt e) with
             | Err _ => fail "password.error.length" StatusBadRequest w
             | Ok newHash =>
                 match Store.ChangePassword (db w) (stamp e) (Store.UserID user) (Store.AuthVersion user)
                         (Store.PasswordHash user) newHash with
                 | Err _ => reject e (Session.ID s) w
                 | Ok (updated, d) =>
                     let w := with_db w d in
                     let w := with_password_limiter w (LimiterSuccess (password_limiter w) account) in
                     let w := recordAccess e request (Some (Store.UserID updated)) (Store.Login updated)
                                "password_changed" true w in
                     rotate_to e s Session.StateAuthenticated updated "/go/dashboard" w
                 end
             end).

(** ** Second factor *)

Definition secret_of (user : Store.User) : string := default "" (Store.TOTPSecret user).

Definition twoFactor (e : Env) (request : HTTPRequest) (w : World) : Answer * World :=
  pendingTwoFactorUser e request w (λ s user w,
    (show (TwoFactorPage (Session.CSRFToken s) (Store.UserID user) false) StatusOK, w)).

Definition after_second_factor (user : Store.User) : Session.State * string :=
  if Store.MustChangePassword user then (Session.StatePassword, "/go/account/password")
  else (Session.StateAuthenticated, "/go/dashboard").

Definition verifyTwoFactor (e : Env) (request : HTTPRequest) (w : World) : Answer * World :=
  pendingTwoFactorUser e request w (λ s user w,
    let fail status w := (show (TwoFactorPage (Session.CSRFToken s) (Store.UserID user) true) status, w) in
    if negb (is_form request) then fail StatusBadRequest w
    else
      let '(ok, w) := csrf_ok e request s w in
      if negb ok then fail StatusBadRequest w
      else
        let address := requestAddress request in
        let account := Store.Login user in
        let '(allowed, l) := Allowed (two_factor_limiter w) (now e) address account in
        let w := with_two_factor_limiter w l in
        if negb allowed || negb (Verify (unix e) (secret_of user) (field request "code"))
        then
          let w := with_two_factor_limiter w (LimiterFailure (two_factor_limiter w) (now e) address account) in
          fail StatusUnauthorized
            (recordAccess e request (Some (Store.UserID user)) account "two_factor_failure" false w)
        else
          let w := with_two_factor_limiter w (LimiterSuccess (two_factor_limiter w) account) in
          let w := recordAccess e request (Some (Store.UserID user)) account "two_factor_success" true w in
          let '(state, target) := after_second_factor user in
          rotate_to e s state user target w).

(** [renderTwoFactorSetup]: the URI and its QR code must exist. *)
Definition renderTwoFactorSetup (csrf : string) (user : Store.User) (failed : bool) (status : Z) (action : string) : Answer :=
  match TOTPProvisioningURI (Store.Login user) (secret_of user) with
  | None => http_error [] "La configuration TOTP est invalide." StatusServiceUnavailable
  | Some uri =>
      match qrcode uri with
      | None => http_error [] "Le QR code n’a pas pu être généré." StatusServiceUnavailable
      | Some _ => show (TwoFactorSetupPage csrf (secret_of user) failed action) status
      end
  end.

Definition accountTwoFactorSetup (e : Env) (request : HTTPRequest) (w : World) : Answer * World :=
  authenticatedUser e request w (λ s user w,
    let render user w := (renderTwoFactorSetup (Session.CSRFToken s) user false StatusOK "/go/account/two-factor/setup", w) in
    let failed := http_error [] "La configuration TOTP n’a pas pu être préparée." StatusServiceUnavailable in
    if is_valid (Store.TOTPEnabledAt user) then (redirect [] "/go/account/password", w)
    else if is_valid (Store.TOTPSecret user) then render user w
    else match GenerateTOTPSecret (totp_random e) with
         | None => (failed, w)
         | Some secret =>
             match Store.PrepareTOTP (db w) (stamp e) (Store.UserID user) (Store.AuthVersion user) secret with
             | Err _ => (failed, w)
             | Ok (user, d) => render user (with_db w d)
             end
         end).

Definition confirmAccountTwoFactorSetup (e : Env) (request : HTTPRequest) (w : World) : Answer * World :=
  authenticatedUser e request w (λ s user w,
    let '(ok, w) := csrf_ok e request s w in
    if negb ok || negb (is_valid (Store.TOTPSecret user)) || negb (Verify (unix e) (secret_of user) (field request "code"))
    then (renderTwoFactorSetup (Session.CSRFToken s) user true StatusBadRequest "/go/account/two-factor/setup", w)
    else match Store.EnableTOTP (db w) (stamp e) (Store.UserID user) (Store.AuthVersion user) (secret_of user) with
         | Err _ => (http_error [] "La double authentification n’a pas pu être activée." StatusConflict, w)
         | Ok (updated, d) =>
             let w := recordAccess e request (Some (Store.UserID updated)) (Store.Login updated) "two_factor_enabled" true (with_db w d) in
             rotate_to e s Session.StateAuthenticated updated "/go/account/password" w
         end).

Definition disableAccountTwoFactor (e : Env) (request : HTTPRequest) (w : World) : Answer * World :=
  authenticatedUser e request w (λ s user w,
    let '(ok, w) := csrf_ok e request s w in
    if negb ok || Store.TwoFactorRequired user || negb (is_valid (Store.TOTPSecret user))
       || negb (is_valid (Store.TOTPEnabledAt user)) || negb (Verify (unix e) (secret_of user) (field request "code"))
    then (http_error [] "La désactivation de la double authentification est invalide." StatusBadRequest, w)
    else match Store.DisableTOTP (db w) (stamp e) (Store.UserID user) (Store.AuthVersion user) with
         | Err _ => (http_error [] "La double authentification n’a pas pu être désactivée." StatusConflict, w)
         | Ok (updated, d) =>
             let w := recordAccess e request (Some (Store.UserID updated)) (Store.Login updated) "two_factor_disabled" true (with_db w d) in
             rotate_to e s Session.StateAuthenticated updated "/go/account/password" w
         end).

Definition twoFactorSetup (e : Env) (request : HTTPRequest) (w : World) : Answer * World :=
  pendingEnrollmentUser e request w (λ s user w,
    (renderTwoFactorSetup (Session.CSRFToken s) user false StatusOK "/go/two-factor/setup", w)).

Definition confirmTwoFactorSetup (e : Env) (request : HTTPRequest) (w : World) : Answer * World :=
  pendingEnrollmentUser e request w (λ s user w,
    let fail status w := (renderTwoFactorSetup (Session.CSRFToken s) user true status "/go/two-factor/setup", w) in
    if negb (is_form request) then fail StatusBadRequest w
    else
      let '(ok, w) := csrf_ok e request s w in
      if negb ok then fail StatusBadRequest w
      else
        let address := requestAddress request in
        let account := Store.Login user in
        let '(allowed, l) := Allowed (two_factor_limiter w) (now e) address account in
        let w := with_two_factor_limiter w l in
        if negb allowed || negb (Verify (unix e) (secret_of user) (field request "code"))
        then fail StatusUnauthorized
               (with_two_factor_limiter w (LimiterFailure (two_factor_limiter w) (now e) address account))
        else match Store.EnableTOTP (db w) (stamp e) (Store.UserID user) (Store.AuthVersion user) (secret_of user) with
             | Err _ => reject e (Session.ID s) w
             | Ok (updated, d) =>
                 let w := recordAccess e request (Some (Store.UserID updated)) (Store.Login updated) "two_factor_enabled" true (with_db w d) in
                 let w := with_two_factor_limiter w (LimiterSuccess (two_factor_limiter w) account) in
                 let '(state, target) := after_second_factor updated in
                 rotate_to e s state updated target w
             end).

(** ** Sign-out *)

Definition logout (e : Env) (request : HTTPRequest) (w : World) : Answer * World :=
  let '(found, w) := requestSession e request w in
  match found with
  | None => reject e "" w
  | Some s =>
      if negb (in_state Session.StateAuthenticated s) then reject e (Session.ID s) w
      else if negb (is_form request) then (http_error [] "La requête est invalide." StatusBadRequest, w)
      else
        let '(ok, w) := csrf_ok e request s w in
        if negb ok then (http_error [] "La requête est invalide." StatusBadRequest, w)
        else
          let w := match (if db_up e then Store.FindByID (db w) (Session.UserID s) else None) with
                   | Some user => recordAccess e request (Some (Store.UserID user)) (Store.Login user) "logout" true w
                   | None => w
                   end in
          match Session.Destroy (mgr w) (now e) (change_outcome e) (Session.ID s) with
          | (Some _, m) => (http_error [] "La déconnexion n’a pas pu être enregistrée." StatusServiceUnavailable, with_mgr w m)
          | (None, m) => (redirect [Session.ExpiredCookie] "/login", with_mgr w m)
          end
  end.

(** Any page of the application proper: behind [authenticatedUser]. *)
Definition serve_page (e : Env) (request : HTTPRequest) (w : World) : Answer * World :=
  authenticatedUser e request w (λ s user w, (show (Served s user) StatusOK, w)).
End App.
