(* ===== verification/WebGate.v ===== *)
(** * The gate of the handlers

    Facts the handlers share: what [guarded] may do, what a request finds of its session,
    and what a form token proves. *)

From S2P Require Import Prelude GoStrings StringFacts Codec Limiter Totp Password.
From S2P Require Session Schema Store StoreSettings.
From S2P Require Import WebApp.
From Stdlib Require Import Ascii String.
#[local] Open Scope string_scope.
#[local] Open Scope list_scope.
#[local] Open Scope Z_scope.

Definition same_users (d d' : Schema.Database) : Prop :=
  Schema.users d' = Schema.users d ∧ Schema.users_seq d' = Schema.users_seq d.

Lemma same_users_refl d : same_users d d.
Proof. done. Qed.

Lemma same_users_trans d1 d2 d3 : same_users d1 d2 → same_users d2 d3 → same_users d1 d3.
Proof. unfold same_users. intros [-> ->] [-> ->]. done. Qed.

Lemma same_users_step d d' : same_users d d' → Store.users_step d d'.
Proof.
  intros [Hu Hq]. split_and!; [lia| | |by rewrite Hu].
  - intros i u Hi. left. rewrite Hu. exists u. split; [done|apply Store.row_step_refl].
  - intros i u Hi Hn. rewrite Hu in Hi. by rewrite Hi in Hn.
Qed.


Section Gate.
Context `{UnicodeCase} `{NetIP}.

Lemma recordAccess_cases e r user l event success w :
  recordAccess e r user l event success w = w ∨
  ∃ d, same_users (db w) d ∧ recordAccess e r user l event success w = with_db w d.
Proof.
  unfold recordAccess. destruct (negb (db_up e)); [by left|].
  destruct (StoreSettings.RecordAccess _ _ _ _ _ _ _ _) as [d|] eqn:E; [right|by left]. exists d. split; [|done].
  unfold StoreSettings.RecordAccess in E. destruct (negb _); [done|]. cbv zeta in E.
  match type of E with (if ?b then _ else _) = _ => destruct b end; [|done]. by injection E as <-.
Qed.

(** The account [u] behind the session [s], as the guarded handlers get it. *)
Definition behind (w : World) (s : Session.Session) (u : Schema.UserRow) : Prop :=
  Schema.users (db w) !! Session.UserID s = Some u ∧ Store.is_active u = true ∧
  Store.version u = Session.AuthVersion s.

Lemma guarded_cases e r sa ua w k :
  let found := (requestSession e r w).1 in
  let w1 := (requestSession e r w).2 in
  (∃ id, guarded e r sa ua w k = reject e id w1) ∨
  guarded e r sa ua w k =
    (http_error [] "Service d’authentification indisponible." StatusServiceUnavailable, w1) ∨
  (∃ s u, found = Some s ∧ sa s = true ∧ behind w1 s u ∧ ua s (Store.scanUser (Session.UserID s) u) = true ∧
     db_up e = true ∧ guarded e r sa ua w k = k s (Store.scanUser (Session.UserID s) u) w1).
Proof.
  cbv zeta. unfold guarded. destruct (requestSession e r w) as [[s|] w1]; cbn [fst snd]; [|eauto].
  destruct (sa s) eqn:Hs; cbn [negb]; [|eauto]. destruct (db_up e) eqn:Hd; cbn [negb]; [|eauto].
  rewrite Store.FindByID_eq. destruct (Schema.users (db w1) !! _) as [u|] eqn:Hu; cbn [fmap option_fmap option_map]; [|eauto].
  destruct (String.eqb (Store.Status _) "active") eqn:Ha; cbn [negb orb]; [|eauto].
  destruct (_ =? _) eqn:Hv; cbn [negb orb]; [|eauto].
  destruct (ua s _) eqn:Hua; cbn [negb]; [|eauto].
  right. right. exists s, u. apply Z.eqb_eq in Hv. done.
Qed.

(** The cookie names a live authenticated session whose account would accept it. *)
Definition granted (e : Env) (r : HTTPRequest) (w : World) : Prop :=
  ∃ id s, session_cookie r = Some id ∧ Session.live (mgr w) (now e) id = Some s ∧
    Session.SState s = Session.StateAuthenticated ∧
    Store.session_accepted (db w) (Session.UserID s) (Session.AuthVersion s).

Lemma requestSession_live e r w :
  (requestSession e r w).1 =
    match session_cookie r with
    | Some id => (λ s, Session.touch s (now e)) <$> Session.live (mgr w) (now e) id
    | None => None
    end.
Proof.
  unfold requestSession. destruct (session_cookie r) as [id|]; [|done].
  rewrite <- (Session.Get_live _ _ (get_outcome e)). by destruct (Session.Get _ _ _ _).
Qed.

Lemma requestSession_db e r w : db (requestSession e r w).2 = db w.
Proof. unfold requestSession. destruct (session_cookie r) as [id|]; [|done]. by destruct (Session.Get _ _ _ _). Qed.

Lemma csrf_ok_frame e r s w :
  db (csrf_ok e r s w).2 = db w ∧ (Session.wf (mgr w) → Session.wf (mgr (csrf_ok e r s w).2)).
Proof.
  unfold csrf_ok. destruct (form r) as [f|]; [|done]. unfold Session.ValidateCSRF.
  pose proof (Session.Get_wf (mgr w) (now e) (csrf_outcome e) (Session.ID s)) as Hw.
  destruct (Session.Get _ _ _ _) as [[s1|] m]; done.
Qed.

Lemma requestSession_wf e r w : Session.wf (mgr w) → Session.wf (mgr (requestSession e r w).2).
Proof.
  intros Hw. unfold requestSession. destruct (session_cookie r) as [id|]; [|done].
  pose proof (Session.Get_wf (mgr w) (now e) (get_outcome e) id Hw). by destruct (Session.Get _ _ _ _).
Qed.

Lemma recordAccess_frame e r i l ev b w :
  same_users (db w) (db (recordAccess e r i l ev b w)) ∧ mgr (recordAccess e r i l ev b w) = mgr w.
Proof. by destruct (recordAccess_cases e r i l ev b w) as [->|(d & Hd & ->)]. Qed.

Lemma recordAccess_sent e r i l ev b w : sent (recordAccess e r i l ev b w) = sent w.
Proof. by destruct (recordAccess_cases e r i l ev b w) as [->|(d & Hd & ->)]. Qed.

(** ** A form of a signed-in browser *)

(** The token is the one of the session; the decoder skips line ends. *)
Definition bears_token (token : string) (s : Session.Session) : Prop :=
  sfilter not_newline token = sfilter not_newline (Session.CSRFToken s).

(** The cookie names the live authenticated session [s] of the account [u]. *)
Definition signed_in (e : Env) (r : HTTPRequest) (w : World) (s : Session.Session) (u : Schema.UserRow) : Prop :=
  (∃ id, session_cookie r = Some id ∧ Session.live (mgr w) (now e) id = Some s) ∧
  Session.SState s = Session.StateAuthenticated ∧ behind w s u.

(** Nothing but sessions changed. *)
Definition unmoved (w w' : World) : Prop := db w' = db w ∧ sent w' = sent w.

Lemma unmoved_refl w : unmoved w w.
Proof. done. Qed.

Lemma reject_unmoved e id w : unmoved w (reject e id w).2.
Proof. unfold reject, invalidate. by destruct (String.eqb id ""). Qed.

Lemma requestSession_unmoved e r w : unmoved w (requestSession e r w).2.
Proof. unfold requestSession. destruct (session_cookie r) as [id|]; [|done]. by destruct (Session.Get _ _ _ _). Qed.

Lemma csrf_ok_unmoved e r s w : unmoved w (csrf_ok e r s w).2.
Proof. unfold csrf_ok. destruct (form r) as [f|]; [|done]. by destruct (Session.ValidateCSRF _ _ _ _ _). Qed.

(** Tokens the manager of [w] accepts for [s] are its own. *)
Definition guards_token (e : Env) (w : World) (s : Session.Session) : Prop :=
  ∀ o token, (Session.ValidateCSRF (mgr w) (now e) o (Session.ID s) token).1 = true → bears_token token s.

Lemma requestSession_token e r w s : Session.wf (mgr w) → (requestSession e r w).1 = Some s →
  guards_token e (requestSession e r w).2 s.
Proof.
  intros Hw Hs o token Ht. pose proof (requestSession_wf e r w Hw) as Hw1.
  apply Session.ValidateCSRF_true in Ht as (s' & Hl & Heq); [|done]. unfold bears_token. rewrite Heq. f_equal.
  unfold requestSession in *. destruct (session_cookie r) as [id|]; [|done].
  destruct (Session.Get_cases (mgr w) (now e) (get_outcome e) id) as [_ Hg].
  destruct (Session.Get _ _ _ _) as [found m]; cbn [fst snd mgr with_mgr] in *. subst found.
  destruct (Session.sessions (mgr w) !! id) as [s0|]; [|by destruct Hg].
  destruct (Session.expired (mgr w) (now e) s0); [by destruct Hg|]. destruct Hg as [[= ->] Hm].
  assert (Session.sessions m !! id = Some (Session.touch s0 (now e))) as Hid by by rewrite Hm, lookup_insert_eq.
  destruct (proj2 (proj2 Hw1) _ _ Hid) as [Hk _]. unfold Session.live in Hl. rewrite Hk, Hid in Hl.
  destruct (Session.expired _ _ _); [done|]. by injection Hl as <-.
Qed.

Lemma authenticated_cases e r w k : Session.wf (mgr w) →
  (∃ w', (authenticatedUser e r w k).2 = w' ∧ unmoved w w' ∧ code (authenticatedUser e r w k).1 ∈ [StatusSeeOther; StatusServiceUnavailable]) ∨
  (∃ s u w1, signed_in e r w s u ∧ unmoved w w1 ∧ Session.wf (mgr w1) ∧ guards_token e w1 (Session.touch s (now e)) ∧
     authenticatedUser e r w k = k (Session.touch s (now e)) (Store.scanUser (Session.UserID s) u) w1).
Proof.
  intros Hw. pose proof (requestSession_unmoved e r w) as [Hdb Hsent].
  pose proof (requestSession_wf e r w Hw) as Hw1. pose proof (requestSession_live e r w) as Hlive.
  pose proof (λ s, requestSession_token e r w s Hw) as Htok. unfold authenticatedUser.
  match goal with |- context [guarded e r ?sa ?ua w k] =>
    destruct (guarded_cases e r sa ua w k) as [[i ->]|[->|(s & u & Hf & Hst & Hb & _ & _ & ->)]] end.
  - left. eexists. split; [done|]. destruct (reject_unmoved e i (requestSession e r w).2) as [Hd Hs].
    split; [split; congruence|left].
  - left. eexists. split; [done|]. split; [done|right; left].
  - right. rewrite Hf in Hlive. destruct (session_cookie r) as [id|] eqn:Hc; [|done].
    destruct (Session.live (mgr w) (now e) id) as [s0|] eqn:El; [|done]. injection Hlive as ->.
    exists s0, u, (requestSession e r w).2. unfold in_state in Hst. apply String.eqb_eq in Hst.
    split_and!; [|done|done|by apply Htok|done]. split_and!; [by exists id|done|].
    unfold behind in *. by rewrite Hdb in Hb.
Qed.

Lemma csrf_ok_token e r w s : guards_token e w s → (csrf_ok e r s w).1 = true → bears_token (field r "_token") s.
Proof.
  intros Hg. unfold csrf_ok. destruct (form r) as [f|]; [|done].
  specialize (Hg (csrf_outcome e) (field r "_token")). by destruct (Session.ValidateCSRF _ _ _ _ _).
Qed.
End Gate.

(** ** A signed-in browser *)

Definition toy_ip : NetIP := {| ParseIP := λ s, if String.eqb s "" then None else Some (s, false) |}.

Definition root_world : World :=
  {| db := Store.sample_db sample_hash 1; mgr := Session.sample_login.2; login_limiter := NewLoginLimiter;
     password_limiter := NewLoginLimiter; two_factor_limiter := NewLoginLimiter; sent := [] |}.
Definition root_env : Env :=
  {| now := 2000; stamp := "2026-01-02"; db_up := true; session_random := "z" +++ Session.sample_random;
     totp_random := None; password_salt := Some sample_salt; get_outcome := Session.PersistOK;
     csrf_outcome := Session.PersistOK; change_outcome := Session.PersistOK |}.
Definition root_token : string := "RkVEQ0JBOTg3NjU0MzIxMEZFRENCQTk4NzY1NDMyMTA".
Definition root_request (fields : list (string * string)) : HTTPRequest :=
  {| session_cookie := Some Session.sample_id; content_type := "application/x-www-form-urlencoded";
     form := Some (list_to_map (("_token", root_token) :: fields)); RemoteAddr := "192.0.2.7:4711";
     X_Forwarded_For := ""; X_Real_IP := ""; UserAgent := "Mozilla" |}.

Lemma root_world_wf : Session.wf (mgr root_world).
Proof. apply Session.sample_login_wf. Qed.
