(* ===== verification/WebAdmin.v ===== *)
(** * Administration pages ([internal/webapp]: users.go, modules.go, settings.go)

    The handlers by which the root account manages accounts, rights, navigation and
    settings, and restores the database.  The segment of the path that names the item is
    the argument [path_id]; the pages that only read are not modelled. *)

From S2P Require Import Prelude GoStrings StringFacts Regex Codec Limiter Totp Password.
From S2P Require Api Session Schema Store StoreNav StoreSettings.
From S2P Require Import WebApp WebGate.
From Stdlib Require Import Ascii String.
#[local] Open Scope string_scope.
#[local] Open Scope list_scope.
#[local] Open Scope Z_scope.

(** [^[a-z0-9](?:[a-z0-9._-]*[a-z0-9])?$] *)
Definition login_edge (c : ascii) : bool := is_lower c || is_digit c.
Definition login_inner : ascii → bool := cls login_edge "._-".
Definition adminLoginPattern (s : string) : bool :=
  full (Cls login_edge ;;; opt (Star (Cls login_inner) ;;; Cls login_edge)) s.

(** The body of the navigation editor, decoded: the token, the order of the categories,
    the modules of each category, in the order the map is walked. *)
Record navigation_payload := {
  payload_token : string;
  categoryIDs : list Z;
  moduleIDsByCategory : list (string * list Z);
}.

(** The upload of a backup: the form, and the file with its announced size. *)
Record upload := {
  upload_fields : gmap string string;
  upload_file : option (Z * option string);
}.

Section Admin.
Context `{UnicodeCase} `{PasswordHash} `{NetIP} `{StoreSettings.Aead}.
(** [mail.ParseAddress], [strings.EqualFold], what SQLite makes of a file, the key of the
    secrets and its nonces, the log sources of the back end. *)
Context (parse_address : string → option string) (equal_fold : string → string → bool)
  (sqlite_open : string → option Schema.Database) (restore_calls : Store.RestoreCalls) (secretKey : string) (nonce : option string)
  (logSources : option (list string)).

(** ** Access *)

Definition forbidden : Answer := http_error [] "Accès interdit." StatusForbidden.
Definition invalid_request : Answer := http_error [] "La requête est invalide." StatusBadRequest.
Definition not_found : Answer := http_error [] "404 page not found" StatusNotFound.

Definition rootUser (e : Env) (r : HTTPRequest) (w : World)
    (k : Session.Session → Store.User → World → Answer * World) : Answer * World :=
  authenticatedUser e r w (λ s user w,
    if negb (String.eqb (Store.Type_ user) "root") then (forbidden, w) else k s user w).

Definition validForm (e : Env) (r : HTTPRequest) (s : Session.Session) (w : World)
    (k : World → Answer * World) : Answer * World :=
  let '(ok, w) := csrf_ok e r s w in if negb ok then (invalid_request, w) else k w.

(** The handlers that change a database: a failure leaves it as it was. *)
Definition stored (failed done_ : Answer) (w : World) (result : res Schema.sql_error Schema.Database) : Answer * World :=
  match result with Err _ => (failed, w) | Ok d => (done_, with_db w d) end.

(** ** Accounts *)

Definition length_between (lo hi : Z) (n : Z) : bool := (lo <=? n) && (n <=? hi).

Definition adminUserForm (db_up : bool) (d : Schema.Database) (r : HTTPRequest) (id : Z)
    : res string (Store.AdminUser * gmap Z string) :=
  let login := to_lower (trim_space (field r "login")) in
  let first := trim_space (field r "first_name") in
  let last := trim_space (field r "last_name") in
  let email := to_lower (trim_space (field r "email")) in
  if (slen login <? 3) || (64 <? slen login) || negb (adminLoginPattern login) then Err "Identifiant invalide."
  else if negb (length_between 1 100 (rune_count first)) || negb (length_between 1 100 (rune_count last))
  then Err "Nom ou prénom invalide."
  else if negb (match parse_address email with Some a => String.eqb a email | None => false end)
  then Err "Adresse e-mail invalide."
  else
    let status := if String.eqb (field r "status") "" then "active" else field r "status" in
    if negb (String.eqb status "active") && negb (String.eqb status "suspended") then Err "État invalide."
    else if negb db_up then Err "database"
    else
      let level m :=
        let key := if id =? 0 then itoa (StoreNav.as_ID m) else "permission_" +++ itoa (StoreNav.as_ID m) in
        let value := field r key in
        (StoreNav.as_ID m, if String.eqb value "" then "none" else value) in
      Ok ({| Store.a_ID := id; Store.a_Login := login; Store.FirstName := first; Store.LastName := last;
             Store.Email := email; Store.a_Type := ""; Store.a_Status := status;
             Store.a_MustChangePassword := false;
             Store.a_TwoFactorRequired := String.eqb (field r "two_factor_required") "1";
             Store.TwoFactorEnabled := false; Store.a_AuthVersion := 0 |},
          list_to_map (rev (level <$> StoreNav.AssignableModules d))).

Fixpoint userIdentityConflict (items : list Store.AdminUser) (candidate : Store.AdminUser) : string :=
  match items with
  | [] => ""
  | existing :: items' =>
      if equal_fold (Store.Email existing) (Store.Email candidate)
      then "Cette adresse e-mail est déjà utilisée par un autre utilisateur."
      else if equal_fold (Store.a_Login existing) (Store.a_Login candidate)
      then "Cet identifiant est déjà utilisé par un autre utilisateur."
      else userIdentityConflict items' candidate
  end.

Definition create_page (message : string) (code_ : Z) : Answer := show (ErrorText message) code_.

Definition createUser (e : Env) (r : HTTPRequest) (w : World) : Answer * World :=
  rootUser e r w (λ s _ w, validForm e r s w (λ w,
    match adminUserForm (db_up e) (db w) r 0 with
    | Err message => (http_error [] message StatusBadRequest, w)
    | Ok (u, permissions) =>
        let message := userIdentityConflict (Store.AdminUsers (db w)) u in
        if negb (String.eqb message "") then (create_page message StatusConflict, w)
        else match HashPassword (field r "password") (password_salt e) with
             | Err _ => (create_page "Le mot de passe doit contenir entre 12 et 128 caractères." StatusBadRequest, w)
             | Ok hash =>
                 stored (create_page "Le compte n’a pas pu être créé. Vérifiez que l’identifiant et l’adresse e-mail ne sont pas déjà utilisés." StatusConflict)
                   (redirect [] "/users?result=created") w
                   (let! r := Store.CreateAdminUser (db w) (stamp e) u hash permissions in Ok r.2)
             end
    end)).

(** A form on the item of the path. *)
Definition on_item (e : Env) (r : HTTPRequest) (path_id : string) (w : World)
    (k : Z → World → Answer * World) : Answer * World :=
  rootUser e r w (λ s _ w, validForm e r s w (λ w,
    match atoi path_id with None => (not_found, w) | Some id => k id w end)).

Definition updateUser (e : Env) (r : HTTPRequest) (path_id : string) (w : World) : Answer * World :=
  on_item e r path_id w (λ id w,
    match adminUserForm (db_up e) (db w) r id with
    | Err message => (http_error [] message StatusBadRequest, w)
    | Ok (u, permissions) =>
        stored (http_error [] "Le compte n’a pas pu être modifié." StatusConflict) (redirect [] "/users?result=updated") w
          (Store.UpdateAdminUser (db w) (stamp e) u permissions (String.eqb (field r "reset_totp") "1"))
    end).

Definition resetUserPassword (e : Env) (r : HTTPRequest) (path_id : string) (w : World) : Answer * World :=
  on_item e r path_id w (λ id w,
    let password := field r "password" in
    if negb (String.eqb password (field r "password_confirmation"))
    then (http_error [] "Les deux mots de passe ne correspondent pas." StatusBadRequest, w)
    else match HashPassword password (password_salt e) with
         | Err _ => (http_error [] "Mot de passe invalide." StatusBadRequest, w)
         | Ok hash =>
             stored (http_error [] "Réinitialisation impossible." StatusConflict) (redirect [] "/users?result=password") w
               (Store.ResetAdminPassword (db w) (stamp e) id hash)
         end).

Definition deleteUser (e : Env) (r : HTTPRequest) (path_id : string) (w : World) : Answer * World :=
  on_item e r path_id w (λ id w,
    stored (http_error [] "Suppression impossible." StatusConflict) (redirect [] "/users?result=deleted") w
      (Store.DeleteAdminUser (db w) id)).

(** ** Navigation *)

Definition navigationAction (e : Env) (r : HTTPRequest) (path_id : string) (w : World)
    (operation : Z → Schema.Database → res Schema.sql_error Schema.Database) : Answer * World :=
  on_item e r path_id w (λ id w,
    stored (http_error [] "La navigation n’a pas pu être modifiée." StatusConflict) (redirect [] "/modules?result=updated") w
      (operation id (db w))).

Definition category_name (r : HTTPRequest) : string := trim_space (field r "name").
Definition bad_name (name : string) : bool := (slen name <? 2) || (64 <? slen name).

Definition createCategory (e : Env) (r : HTTPRequest) (w : World) : Answer * World :=
  rootUser e r w (λ s _ w, validForm e r s w (λ w,
    let name := category_name r in
    if bad_name name then (http_error [] "Nom invalide." StatusBadRequest, w)
    else stored (http_error [] "Création impossible." StatusConflict) (redirect [] "/modules?result=created") w
           (StoreNav.CreateCategory (db w) (stamp e) name))).

Definition renameCategory (e : Env) (r : HTTPRequest) (path_id : string) (w : World) : Answer * World :=
  navigationAction e r path_id w (λ id d,
    let name := category_name r in
    if bad_name name then Err (Schema.ErrMessage "invalid name") else StoreNav.RenameCategory d (stamp e) id name).

Definition deleteCategory (e : Env) (r : HTTPRequest) (path_id : string) (w : World) : Answer * World :=
  navigationAction e r path_id w (λ id d, StoreNav.DeleteCategory d id).

Definition toggleModule (e : Env) (r : HTTPRequest) (path_id : string) (w : World) : Answer * World :=
  navigationAction e r path_id w (λ id d, StoreNav.ToggleModule d (stamp e) id (String.eqb (field r "enabled") "true")).

Definition moveCategory (e : Env) (r : HTTPRequest) (path_id : string) (w : World) : Answer * World :=
  navigationAction e r path_id w (λ id d, StoreNav.MoveCategory d (stamp e) id (atoi_val (field r "direction"))).

Definition moveModule (e : Env) (r : HTTPRequest) (path_id : string) (w : World) : Answer * World :=
  navigationAction e r path_id w (λ id d, StoreNav.MoveModule d (stamp e) id (atoi_val (field r "direction"))).

Fixpoint payload_modules (items : list (string * list Z)) (acc : gmap Z (list Z)) : option (gmap Z (list Z)) :=
  match items with
  | [] => Some acc
  | (key, ids) :: items' =>
      match atoi key with
      | Some id => if id <? 1 then None else payload_modules items' (<[id := ids]> acc)
      | None => None
      end
  end.

(** [payload]: [None] when the body is not the expected object. *)
Definition reorderNavigation (e : Env) (r : HTTPRequest) (payload : option navigation_payload) (w : World) : Answer * World :=
  rootUser e r w (λ s _ w,
    match payload with
    | None => (show (ErrorText "La requête est invalide.") StatusBadRequest, w)
    | Some p =>
        let '(ok, m) := Session.ValidateCSRF (mgr w) (now e) (csrf_outcome e) (Session.ID s) (payload_token p) in
        let w := with_mgr w m in
        if negb ok then (show (ErrorText "La requête est invalide.") StatusBadRequest, w)
        else match payload_modules (moduleIDsByCategory p) ∅ with
             | None => (show (ErrorText "Une catégorie est invalide.") StatusBadRequest, w)
             | Some modules =>
                 stored (show (ErrorText "L’organisation du menu n’a pas pu être enregistrée.") StatusConflict)
                   (show (ErrorText "L’organisation du menu a été enregistrée.") StatusOK) w
                   (StoreNav.ReorderNavigation (db w) (stamp e) (categoryIDs p) modules)
             end
    end).

(** ** Settings *)

Definition updateSettings (e : Env) (r : HTTPRequest) (w : World) : Answer * World :=
  rootUser e r w (λ s _ w, validForm e r s w (λ w,
    let defaultLog := trim_space (field r "default_log") in
    let email := to_lower (trim_space (field r "certbot_email")) in
    let defaultLanguage := trim_space (field r "default_language") in
    let bad message := (http_error [] message StatusBadRequest, w) in
    if negb (supported_language defaultLanguage) then bad "Langue par défaut invalide."
    else if (128 <? slen defaultLog) || contains_any defaultLog (String nul (String cr snl)) then bad "Journal par défaut invalide."
    else match logSources with
         | None => (http_error [] "La liste des journaux n’a pas pu être contrôlée." StatusServiceUnavailable, w)
         | Some sources =>
             if negb (String.eqb defaultLog "") && negb (existsb (String.eqb defaultLog) sources)
             then bad "Le journal par défaut sélectionné n’est pas disponible."
             else if negb (String.eqb email "") &&
                     (negb (match parse_address email with Some a => String.eqb a email | None => false end) || (254 <? slen email))
             then bad "Adresse Certbot invalide."
             else stored (http_error [] "Enregistrement impossible." StatusServiceUnavailable)
                    (redirect [] "/setting?result=updated") w
                    (StoreSettings.UpdateSettings (db w)
                       {| StoreSettings.DefaultLog := defaultLog; StoreSettings.CertbotEmail := email;
                          StoreSettings.DefaultLanguage := defaultLanguage |})
         end)).

Definition updateSMTPSettings (e : Env) (r : HTTPRequest) (w : World) : Answer * World :=
  rootUser e r w (λ s _ w, validForm e r s w (λ w,
    let host := trim_space (field r "smtp_host") in
    let username := trim_space (field r "smtp_username") in
    let password := field r "smtp_password" in
    let security := to_lower (trim_space (field r "smtp_security")) in
    let port := atoi_val (field r "smtp_port") in
    if String.eqb host "" || (253 <? slen host) || contains_any host (String nul (String cr (String nl (String "092" " /")))) ||
       (254 <? slen username) || contains_any username (String nul (String cr snl)) ||
       (1024 <? slen password) || (port <? 1) || (65535 <? port) ||
       negb (existsb (String.eqb security) ["none"; "starttls"; "tls"])
    then (http_error [] "Configuration SMTP invalide." StatusBadRequest, w)
    else
      let update := if String.eqb (field r "clear_password") "1" then Some ""
                    else if negb (String.eqb password "") then Some password else None in
      stored (http_error [] "Enregistrement SMTP impossible." StatusServiceUnavailable) (redirect [] "/setting?result=smtp") w
        (StoreSettings.UpdateSMTPSettings (db w) secretKey nonce
           {| StoreSettings.Host := host; StoreSettings.Username := username; StoreSettings.Security := security;
              StoreSettings.Port := port; StoreSettings.PasswordConfigured := false |} update))).

(** [upload]: [None] when the body is too long or not a multipart form. *)
Definition restoreDatabase (e : Env) (r : HTTPRequest) (u : option upload) (w : World) : Answer * World :=
  rootUser e r w (λ s _ w,
    let bad w := (http_error [] "La requête de restauration est invalide." StatusBadRequest, w) in
    match u with
    | None => bad w
    | Some u =>
        let value key := default "" (upload_fields u !! key) in
        let '(ok, m) := Session.ValidateCSRF (mgr w) (now e) (csrf_outcome e) (Session.ID s) (value "_token") in
        let w := with_mgr w m in
        if negb ok || negb (String.eqb (value "confirmation") "restore") then bad w
        else match upload_file u with
             | None => (http_error [] "La sauvegarde est absente ou trop volumineuse." StatusBadRequest, w)
             | Some (Size, content) =>
                 if (Size <? 100) || (20 * 1024 * 1024 <? Size)
                 then (http_error [] "La sauvegarde est absente ou trop volumineuse." StatusBadRequest, w)
                 else match content with
                      | None => (http_error [] "La sauvegarde est illisible." StatusBadRequest, w)
                      | Some content =>
                          if 20 * 1024 * 1024 <? slen content
                          then (http_error [] "La sauvegarde est illisible." StatusBadRequest, w)
                          else match Store.RestoreDatabase sqlite_open restore_calls (db w) content with
                               | (Some _, d) => (http_error [] "La sauvegarde est invalide ou incompatible." StatusBadRequest, with_db w d)
                               | (None, d) => reject e (Session.ID s) (with_db w d)
                               end
                      end
             end
    end).

(** ** Every handler *)

Inductive admin_action :=
| CreateUser | UpdateUser (path_id : string) | ResetUserPassword (path_id : string) | DeleteUser (path_id : string)
| CreateCategory | RenameCategory (path_id : string) | DeleteCategory (path_id : string)
| ToggleModule (path_id : string) | MoveCategory (path_id : string) | MoveModule (path_id : string)
| ReorderNavigation (payload : option navigation_payload)
| UpdateSettings | UpdateSMTPSettings | RestoreDatabase (file : option upload).

Definition administer (a : admin_action) (e : Env) (r : HTTPRequest) : World → Answer * World :=
  match a with
  | CreateUser => createUser e r
  | UpdateUser id => updateUser e r id
  | ResetUserPassword id => resetUserPassword e r id
  | DeleteUser id => deleteUser e r id
  | CreateCategory => createCategory e r
  | RenameCategory id => renameCategory e r id
  | DeleteCategory id => deleteCategory e r id
  | ToggleModule id => toggleModule e r id
  | MoveCategory id => moveCategory e r id
  | MoveModule id => moveModule e r id
  | ReorderNavigation p => reorderNavigation e r p
  | UpdateSettings => updateSettings e r
  | UpdateSMTPSettings => updateSMTPSettings e r
  | RestoreDatabase u => restoreDatabase e r u
  end.
End Admin.

(** ** Who may administer *)

Section AdminFacts.
Context `{UnicodeCase} `{PasswordHash} `{NetIP} `{StoreSettings.Aead}.
Context (parse_address : string → option string) (equal_fold : string → string → bool)
  (sqlite_open : string → option Schema.Database) (restore_calls : Store.RestoreCalls) (secretKey : string) (nonce : option string)
  (logSources : option (list string)).

(** The request comes from the browser of a signed-in root account, with its token. *)
Definition root_session (e : Env) (r : HTTPRequest) (w : World) (token : string) : Prop :=
  ∃ s u, signed_in e r w s u ∧ Store.is_root u = true ∧ bears_token token s.

Definition action_token (a : admin_action) (r : HTTPRequest) : string :=
  match a with
  | ReorderNavigation (Some p) => payload_token p
  | RestoreDatabase (Some u) => default "" (upload_fields u !! "_token")
  | _ => field r "_token"
  end.

Lemma rootUser_needs e r w k token : Session.wf (mgr w) →
  (∀ s user w1, guards_token e w1 s → unmoved w1 (k s user w1).2 ∨ bears_token token s) →
  unmoved w (rootUser e r w k).2 ∨ root_session e r w token.
Proof.
  intros Hw Hk. unfold rootUser.
  match goal with |- context [authenticatedUser e r w ?k'] =>
    destruct (authenticated_cases e r w k' Hw) as [(w' & -> & Hun & _)|(s & u & w1 & Hs & [Hd1 Hs1] & _ & Hg & ->)] end;
    [by left|].
  destruct (String.eqb _ "root") eqn:Hroot; cbn [negb snd]; [|by left].
  destruct (Hk _ (Store.scanUser (Session.UserID s) u) w1 Hg) as [[Hd2 Hs2]|Ht].
  - left. split; congruence.
  - right. by exists s, u.
Qed.

Lemma validForm_needs e r s w k : guards_token e w s →
  unmoved w (validForm e r s w k).2 ∨ bears_token (field r "_token") s.
Proof.
  intros Hg. unfold validForm. pose proof (csrf_ok_unmoved e r s w) as Hun.
  pose proof (csrf_ok_token e r w s Hg) as Ht. destruct (csrf_ok e r s w) as [[|] w1]; cbn [fst snd negb] in *; auto.
Qed.

Lemma form_needs e r w (k : Session.Session → Store.User → World → Answer * World) : Session.wf (mgr w) →
  unmoved w (rootUser e r w (λ s user w, validForm e r s w (k s user))).2 ∨ root_session e r w (field r "_token").
Proof. intros Hw. apply rootUser_needs; [done|]. intros s user w1 Hg. by apply validForm_needs. Qed.

(** C3: administration is for root: whatever handler of these pages changes the database,
    the request carried the cookie of a live authenticated session of an active root
    account, still at its version, and the token of that very session. *)
Theorem administration_needs_root a e r w : Session.wf (mgr w) →
  db (administer parse_address equal_fold sqlite_open restore_calls secretKey nonce logSources a e r w).2 ≠ db w →
  root_session e r w (action_token a r).
Proof.
  intros Hw Hne. assert (∀ x, unmoved w x ∨ root_session e r w (action_token a r) → db x ≠ db w →
    root_session e r w (action_token a r)) as Hor by (intros x [[? _]|?]; done).
  revert Hne. apply Hor. clear Hor.
  destruct a as [|i|i|i| |i|i|i|i|i|[p|]| | |[u|]]; cbn [administer action_token];
    try (apply form_needs; done); apply rootUser_needs; try done; intros s user w1 Hg; try (by left).
  - specialize (Hg (csrf_outcome e) (payload_token p)).
    destruct (Session.ValidateCSRF _ _ _ _ _) as [[|] m]; cbn [fst negb] in *; [auto|by left].
  - cbv zeta. specialize (Hg (csrf_outcome e) (default "" (upload_fields u !! "_token"))).
    destruct (Session.ValidateCSRF _ _ _ _ _) as [[|] m]; cbn [fst negb orb] in *; [auto|by left].
Qed.

(** ** A new account *)

Lemma rootUser_redirect e r w k target : Session.wf (mgr w) → location (rootUser e r w k).1 = target → target ≠ "/login" →
  target ≠ "" → ∃ s user w1, unmoved w w1 ∧ rootUser e r w k = k s user w1.
Proof.
  intros Hw Hloc Hlogin Hnone. unfold rootUser in *. destruct (requestSession_unmoved e r w) as [Hd Hs].
  match goal with |- context [authenticatedUser e r w ?k'] =>
    unfold authenticatedUser in *; destruct (guarded_cases e r (in_state Session.StateAuthenticated) (λ _ _, true) w k')
      as [[i Hg]|[Hg|(s & u & _ & _ & _ & _ & _ & Hg)]]; rewrite Hg in * end.
  - by subst target.
  - by subst target.
  - destruct (negb _); [by subst target|]. by exists s, (Store.scanUser (Session.UserID s) u), (requestSession e r w).2.
Qed.

Lemma form_redirect e r w (k : Session.Session → Store.User → World → Answer * World) target : Session.wf (mgr w) →
  location (rootUser e r w (λ s user w, validForm e r s w (k s user))).1 = target → target ≠ "/login" → target ≠ "" →
  ∃ s user w1, unmoved w w1 ∧ rootUser e r w (λ s user w, validForm e r s w (k s user)) = k s user w1.
Proof.
  intros Hw Hloc Hlogin Hnone. destruct (rootUser_redirect _ _ _ _ _ Hw Hloc Hlogin Hnone) as (s & user & w1 & [Hd Hs] & E).
  rewrite E in *. unfold validForm in *. destruct (csrf_ok_unmoved e r s w1) as [Hd2 Hs2].
  destruct (csrf_ok e r s w1) as [[|] w2]; cbn [negb snd] in *; [|by subst target].
  exists s, user, w2. split; [split; congruence|done].
Qed.

(** A created account: the page answers that the account was created only when a new
    row appeared, ordinary and active, under the login of the form, every other account
    being what it was; signing in with that login, in any letter case, and the password
    of the form then leads to the change of the password or, when asked for, to the
    enrolment of a second factor, never straight into the application. *)
Theorem createUser_first_sign_in `{!LawfulArgon2} e r w salt :
  Session.wf (mgr w) → Store.seq_ok (db w) → password_salt e = Some salt → slen salt = 16 →
  slen (field r "password") ≤ 1024 →
  location (createUser parse_address equal_fold e r w).1 = "/users?result=created" →
  let w' := (createUser parse_address equal_fold e r w).2 in
  ∃ id u, Schema.users (db w) !! id = None ∧ Schema.users (db w') = <[id := u]> (Schema.users (db w)) ∧
    Store.is_user u = true ∧ Store.is_active u = true ∧
    Schema.login (Schema.u_identity u) = to_lower (trim_space (field r "login")) ∧
    ∀ l, Schema.nocase_eq (Schema.login (Schema.u_identity u)) (trim_space l) = true →
      Authenticate true (db w') l (field r "password") =
        Some (Some (Store.scanUser id u),
              if String.eqb (field r "two_factor_required") "1" then StepTwoFactorEnrollment else StepPasswordChange).
Proof.
  intros Hw Hseq Hsalt Hlen Hpw Hloc. unfold createUser in *.
  destruct (form_redirect _ _ _ _ _ Hw Hloc) as (s & user & w1 & [Hdb _] & E); [done|done|]. rewrite E in *.
  rewrite Hdb in *. destruct (adminUserForm _ _ _ _ _) as [[u permissions]|message] eqn:Hform; [|done].
  destruct (negb _); [done|]. destruct (HashPassword _ _) as [hash|] eqn:Hhash; [|done].
  destruct (Store.CreateAdminUser _ _ _ _ _) as [[id d]|] eqn:Hc; [|done]. cbn [res_bind stored snd db with_db].
  apply Store.CreateAdminUser_spec in Hc as (-> & Hvalid & row & Hu & Hl & Huser & Hact & Hh & Hm & _ & Htwo & Hs & Ht).
  exists (Schema.users_seq (db w) + 1), row. split_and!; [|done..| |].
  - destruct (Schema.users (db w) !! _) eqn:Hx; [|done]. pose proof (Hseq _ ltac:(by eexists)). lia.
  - rewrite Hl. unfold adminUserForm in Hform. cbv zeta in Hform.
    repeat (match type of Hform with (if ?b then _ else _) = _ => destruct b end; [done|]). by injection Hform as <- _.
  - intros l Hll. assert (Schema.users d !! (Schema.users_seq (db w) + 1) = Some row) as Hrow by by rewrite Hu, lookup_insert_eq.
    unfold Authenticate. cbn [negb]. rewrite (Store.FindByLogin_unique _ _ _ _ Hvalid Hrow Hll).
    cbn [Store.PasswordHash Store.scanUser Store.Status Store.TOTPSecret Store.TOTPEnabledAt Store.TwoFactorRequired Store.MustChangePassword].
    rewrite Hh, Hs, Ht, Hm, Htwo. rewrite Hsalt in Hhash.
    destruct (HashPassword_verify _ _ _ (field r "password") Hlen Hhash Hpw) as [-> _]. cbn [negb orb is_valid andb].
    change (String.eqb (Schema.status (Schema.u_rights row)) "active") with (Store.is_active row). rewrite Hact. cbn [negb].
    unfold adminUserForm in Hform. cbv zeta in Hform.
    repeat (match type of Hform with (if ?b then _ else _) = _ => destruct b end; [done|]). injection Hform as <- _.
    cbn [Store.a_TwoFactorRequired]. by destruct (String.eqb (field r "two_factor_required") "1").
Qed.
End AdminFacts.

(** ** An account created and an account deleted *)

#[local] Existing Instance ascii_case.
#[local] Existing Instance toy_hash.
#[local] Existing Instance toy_ip.
#[local] Existing Instance StoreSettings.toy_aead.

Definition sample_administer : admin_action → Env → HTTPRequest → World → Answer * World :=
  administer Some String.eqb (λ _, None) Store.all_succeed "" None (Some []).

Lemma administration_needs_root_witness :
  db (sample_administer (DeleteUser "2") root_env (root_request []) root_world).2 ≠ db root_world ∧
  ∃ u, Schema.users (db root_world) !! 1 = Some u ∧ Store.is_root u = true.
Proof.
  assert (db (sample_administer (DeleteUser "2") root_env (root_request []) root_world).2 ≠ db root_world) as Hne.
  { intros E. apply (f_equal (λ d, Schema.users d !! 2)) in E. vm_compute in E. discriminate. }
  split; [exact Hne|].
  destruct (administration_needs_root Some String.eqb (λ _, None) Store.all_succeed "" None (Some []) (DeleteUser "2") root_env
    (root_request []) root_world root_world_wf Hne) as (s & u & Hs & Hr & _).
  exists u. split; [|exact Hr]. destruct Hs as ((id & Hc & Hl) & _ & (Hu & _)). injection Hc as <-.
  assert (Session.UserID s = 1) as Hid by (vm_compute in Hl; injection Hl as <-; reflexivity).
  rewrite Hid in Hu. exact Hu.
Defined.

Definition new_account : HTTPRequest := root_request
  [("login", " Bob "); ("first_name", "Bob"); ("last_name", "Martin"); ("email", "bob@example.org");
   ("password", "battery staple"); ("1", "action")].

Lemma createUser_first_sign_in_witness :
  let w' := (createUser Some String.eqb root_env new_account root_world).2 in
  ∃ id, Authenticate true (db w') "BOB" "battery staple" =
    Some (option_map (Store.scanUser id) (Schema.users (db w') !! id), StepPasswordChange) ∧
    Schema.permissions (db w') !! (id, 1) = Some "action".
Proof.
  cbv zeta. destruct (createUser_first_sign_in (H3 := toy_hash_lawful) Some String.eqb root_env new_account root_world sample_salt
    root_world_wf (Store.sample_seq_ok _ _)) as (id & u & Hn & Hu & _ & _ & Hl & Ha);
    [reflexivity|reflexivity|vm_compute; discriminate|vm_compute; reflexivity|].
  exists id. rewrite Hu, lookup_insert_eq. split.
  - assert (field new_account "password" = "battery staple") as <- by (vm_compute; reflexivity).
    rewrite (Ha "BOB"); [reflexivity|]. rewrite Hl. vm_compute. reflexivity.
  - assert (id = 3) as ->; [|vm_compute; reflexivity].
    assert (is_Some (Schema.users (db (createUser Some String.eqb root_env new_account root_world).2) !! 3)) as [x Hx] by (vm_compute; eexists; reflexivity).
    rewrite Hu in Hx. apply lookup_insert_Some in Hx as [[? _]|[_ Hx]]; [done|]. vm_compute in Hx. discriminate.
Defined.
