(* ===== verification/WebActions.v ===== *)
(** * Actions on the server ([internal/webapp], [internal/webservices], [webphp],
    [webmysql], [webtor], [webapache], [webcertbot], [webfail2ban], [webfirewall],
    [webcron], [webupdates], [websettings])

    The handlers that ask the local API to do something, with the clients they go through:
    who may ask, and which request is sent.  The API is the function [execute] of the
    requests sent before and of the request; every request sent is added to [sent].
    [action] and [path_id] are the segments of the path. *)

From S2P Require Import Prelude GoStrings StringFacts Regex Codec Json Limiter Totp Password.
From S2P Require Api Session Schema Store StoreNav StoreSettings.
From S2P Require Import WebApp WebGate WebAdmin.
From Stdlib Require Import Ascii String.
#[local] Open Scope string_scope.
#[local] Open Scope list_scope.
#[local] Open Scope Z_scope.

(** ** Text *)

Definition alnum (c : ascii) : bool := is_digit c || is_lower c || is_upper c.
Definition lower_alnum (c : ascii) : bool := is_digit c || is_lower c.

(** [^[a-zA-Z0-9][a-zA-Z0-9@._-]*$] *)
Definition identifierPattern (s : string) : bool :=
  full (Cls alnum ;;; Star (Cls (cls alnum "@._-"))) s.
(** [^fpm-[0-9]+\.[0-9]+$] *)
Definition runtimePattern (s : string) : bool :=
  full (lit "fpm-" ;;; plus (Cls is_digit) ;;; lit "." ;;; plus (Cls is_digit)) s.
(** [^[A-Za-z0-9][A-Za-z0-9_.-]{0,127}$] *)
Definition jailPattern (s : string) : bool := full (Cls alnum ;;; Rep (cls alnum "_.-") 0 127) s.
(** [^(?:\*\.)?[A-Za-z0-9](?:[A-Za-z0-9.-]{0,251}[A-Za-z0-9])?$] *)
Definition apacheHostPattern (s : string) : bool :=
  full (opt (lit "*.") ;;; Cls alnum ;;; opt (Rep (cls alnum ".-") 0 251 ;;; Cls alnum)) s.
Definition dns_label (p : ascii → bool) (edge : ascii → bool) : rx :=
  Cls edge ;;; opt (Rep (cls p "-") 0 61 ;;; Cls p).
Definition certbotDomainPattern (s : string) : bool :=
  full (plus (dns_label lower_alnum lower_alnum ;;; lit ".") ;;; dns_label lower_alnum is_lower) s.
Definition certbotEmailPattern (s : string) : bool :=
  full (plus (Cls (cls alnum ".!#$%&'*+/=?^_{}|~-")) ;;; lit "@" ;;; dns_label alnum alnum ;;;
        plus (lit "." ;;; dns_label alnum alnum)) s.

(** ** The clients *)

Definition data : Type := list (string * Api.Value).

Section Actions.
Context `{UnicodeCase} `{PasswordHash} `{NetIP}.
(** The local API: [Err] when the connection fails. *)
Context (execute : list Api.Request → Api.Request → res string Api.Reply).
(** [strconv.NumError.Error] for [Atoi] of a text. *)
Context (Atoi_error : string → num_error → string).
(** [netip.ParseAddr] with [String], and [url.Parse]: scheme, host and [String]. *)
Context (ParseAddr : string → option string) (ParseURL : string → option (string * string * string)).

Definition ask (w : World) (domain command : string) (arguments : list string) : res string Api.Reply * World :=
  let q := {| Api.Domain := domain; Api.Command := command; Api.Arguments := arguments |} in
  (execute (sent w) q, with_sent w (q :: sent w)).

(** The clients with one message for every failure. *)
Definition fixed_call (domain message : string) (w : World) (command : string) (arguments : list string) : res string data * World :=
  let '(reply, w) := ask w domain command arguments in
  (match reply with
   | Ok r => if negb (Api.resp_success (Api.Resp r)) then Err message
             else from_option_res message (Api.resp_data (Api.Resp r))
   | Err _ => Err message
   end, w).

(** The clients that repeat the message of the API; [quoted] tells whether an empty one is
    repeated. *)
Definition message_call (domain rejected incomplete : string) (quoted : bool) (w : World) (command : string)
    (arguments : list string) : res string data * World :=
  let '(reply, w) := ask w domain command arguments in
  (match reply with
   | Ok r =>
       if negb (Api.resp_success (Api.Resp r)) then
         match Api.resp_error (Api.Resp r) with
         | Some error => if quoted || negb (String.eqb (Api.err_message error) "") then Err (Api.err_message error) else Err rejected
         | None => Err rejected
         end
       else from_option_res incomplete (Api.resp_data (Api.Resp r))
   | Err message => Err message
   end, w).

Definition php_call := fixed_call "php" "PHP backend request failed".
Definition mysql_call := fixed_call "mysql" "mysql backend request failed".
Definition tor_call := fixed_call "tor" "Tor backend request failed".
Definition fail2ban_call := fixed_call "fail2ban" "fail2ban request failed".
Definition updates_call := fixed_call "updates" "updates request failed".
Definition admin_access_call := fixed_call "admin-access" "admin access request failed".
Definition firewall_call := message_call "firewall" "L’action du pare-feu a échoué." "La réponse du pare-feu est incomplète." false.
Definition certbot_call := message_call "certbot" "L’action Certbot a échoué." "La réponse Certbot est incomplète." false.
Definition cron_call := message_call "cron" "cron request failed" "cron response is empty" true.

Definition RestartService (w : World) (service : string) : res string unit * World :=
  if negb (identifierPattern service) then (Err "invalid service identifier", w)
  else
    let '(reply, w) := ask w "services" "restart" [service] in
    (match reply with
     | Err e => Err ("restart service backend: " +++ e)
     | Ok r => if negb (Api.resp_success (Api.Resp r)) then Err "services backend rejected restart" else Ok tt
     end, w).

Definition RestartPHP (w : World) (runtime : string) : res string data * World :=
  if negb (runtimePattern runtime) then (Err "invalid PHP runtime", w) else php_call w "restart" [runtime].

Definition RestartMySQL (w : World) : res string data * World := mysql_call w "restart" [].

Definition TorAction (w : World) (action : string) : res string data * World :=
  if negb (String.eqb action "reload") && negb (String.eqb action "restart") then (Err "invalid Tor action", w)
  else tor_call w action [].

Definition ApacheAction (w : World) (action : string) : res string unit * World :=
  if negb (String.eqb action "reload") && negb (String.eqb action "restart") then (Err "invalid apache action", w)
  else
    let '(reply, w) := ask w "apache" action [] in
    (match reply with
     | Ok r => if negb (Api.resp_success (Api.Resp r)) then Err "apache action failed" else Ok tt
     | Err _ => Err "apache action failed"
     end, w).

(** [responseError] *)
Definition responseError (r : Api.Reply) : string :=
  match Api.resp_error (Api.Resp r) with
  | Some error =>
      if negb (String.eqb (Api.err_message error) "") then
        match Api.vget (Api.err_details error) "output" with
        | Api.VStr output => if negb (String.eqb output "") then Api.err_message error +++ " : " +++ output else Api.err_message error
        | _ => Api.err_message error
        end
      else "apache request failed"
  | None => "apache request failed"
  end.

Definition ApacheSiteAction (w : World) (action identifier filename content : string) : res string unit * World :=
  let arguments :=
    if String.eqb action "create"
    then Some [json_object [("content", json_quote (b64_padded content)); ("filename", json_quote filename)]]
    else if String.eqb action "update"
    then Some [json_object [("config_id", json_quote identifier); ("content", json_quote (b64_padded content))]]
    else if existsb (String.eqb action) ["enable"; "disable"; "delete"] then Some [identifier]
    else None in
  match arguments with
  | None => (Err "invalid apache site action", w)
  | Some arguments =>
      let '(reply, w) := ask w "apache" action arguments in
      (match reply with
       | Err e => Err e
       | Ok r => if negb (Api.resp_success (Api.Resp r)) then Err (responseError r) else Ok tt
       end, w)
  end.

(** The identifier of thirty-two characters a started task answers with. *)
Definition task_id (key message : string) (long : bool) (d : data) : res string string :=
  match Api.vget d key with
  | Api.VStr id => if long && negb (slen id =? 32) then Err message else Ok id
  | _ => Err message
  end.

Definition certbot_actions : list string := ["renew-test"; "renew"; "issue"; "delete"; "reinstall"; "renew-replace"].
Definition CertbotStart (w : World) (action : string) (arguments : list string) : res string string * World :=
  if negb (existsb (String.eqb action) certbot_actions) then (Err "invalid certbot action", w)
  else
    let '(result, w) := certbot_call w action arguments in
    (res_bind result (task_id "execution_id" "invalid certbot execution" true), w).

Definition Fail2banAction (w : World) (action jail address : string) : res string data * World :=
  if String.eqb action "reload" || String.eqb action "restart" then fail2ban_call w action []
  else if String.eqb action "ban" || String.eqb action "unban" then
    if negb (jailPattern jail) then (Err "invalid jail", w)
    else match ParseAddr address with
         | None => (Err "invalid address", w)
         | Some ip => fail2ban_call w action [jail; ip]
         end
  else (Err "invalid action", w).

(** A rule is deleted with the fingerprint the check just returned for it. *)
Definition FirewallDelete (w : World) (id : Z) : res string data * World :=
  if id <? 1 then (Err "invalid rule", w)
  else
    let '(checked, w) := firewall_call w "delete-check" [itoa id] in
    match checked with
    | Err e => (Err e, w)
    | Ok d =>
        match Api.vget d "rule_id", Api.vget d "fingerprint" with
        | Api.VInt rule, Api.VStr fingerprint =>
            if (rule =? id) && (slen fingerprint =? 64) then firewall_call w "delete" [itoa id; fingerprint; "yes"]
            else (Err "invalid delete check", w)
        | _, _ => (Err "invalid delete check", w)
        end
    end.

Definition CronAction (w : World) (action user id schedule command : string) : res string string * World :=
  let arguments :=
    if String.eqb action "create" then Some [user; schedule; command]
    else if String.eqb action "update" then Some [user; id; schedule; command]
    else if existsb (String.eqb action) ["suspend"; "resume"; "delete"; "run"] then Some [user; id]
    else None in
  match arguments with
  | None => (Err "invalid cron action", w)
  | Some arguments =>
      let '(result, w) := cron_call w action arguments in
      (match result with
       | Err e => Err e
       | Ok d => if negb (String.eqb action "run") then Ok "" else task_id "execution_id" "invalid cron execution" true d
       end, w)
  end.

Definition backup_fields : list string :=
  ["name"; "kind"; "source"; "destination"; "schedule"; "remote_host"; "remote_user"; "remote_port"; "remote_path";
   "ssh_key"; "retention_days"].

Definition CronBackupCreate (w : World) (request : list string) : res string data * World :=
  cron_call w "backup-create" request.

Definition CronBackupAction (w : World) (action id : string) : res string string * World :=
  if negb (String.eqb action "run") && negb (String.eqb action "delete") then (Err "invalid backup action", w)
  else
    let '(result, w) := cron_call w ("backup-" +++ action) [id] in
    (match result with
     | Err e => Err e
     | Ok d => if String.eqb action "delete" then Ok "" else task_id "execution_id" "invalid backup execution" false d
     end, w).

Definition StartUpgrade (w : World) : res string string * World :=
  let '(result, w) := updates_call w "upgrade-start" [] in
  (res_bind result (task_id "job_id" "invalid update job" true), w).

Definition RefreshComposer (w : World) : res string data * World := updates_call w "composer-refresh" [].
Definition Reboot (w : World) (delayMinutes : Z) : res string data * World := updates_call w "reboot" [itoa delayMinutes].

(** The types [json.Unmarshal] wants; the keys are those the API writes. *)
Definition admin_access_typed (d : data) : bool :=
  forallb (λ k, match Api.vget d k with Api.VBool _ | Api.VNil => true | _ => false end) ["available"; "enabled"] &&
  forallb (λ k, match Api.vget d k with Api.VStr _ | Api.VNil => true | _ => false end) ["address"; "allow_from"; "url"; "message"] &&
  match Api.vget d "port" with Api.VInt _ | Api.VNil => true | _ => false end.

Definition UpdateAdminAccess (w : World) (enabled : bool) (address : string) (port : Z) (allow_from : string) : res string data * World :=
  let '(result, w) := admin_access_call w "update"
    [json_object [("address", json_quote address); ("allow_from", json_quote allow_from);
                  ("enabled", if enabled then "true" else "false"); ("port", itoa port)]] in
  (let! d := result in if admin_access_typed d then Ok d else Err "json", w).

(** ** The handlers *)

Definition acts (level : string) : bool := String.eqb level "action" || String.eqb level "modify".
Definition modifies (level : string) : bool := String.eqb level "modify".

Definition modulePermission (e : Env) (user : Store.User) (module : string) (w : World)
    (k : string → bool → World → Answer * World) : Answer * World :=
  if negb (db_up e) then (http_error [] "Les droits d’accès n’ont pas pu être vérifiés." StatusServiceUnavailable, w)
  else match StoreNav.PermissionForModule (db w) user module with
       | Some level => k level true w
       | None => k "" false w
       end.

Definition unavailable (message : string) : Answer := http_error [] message StatusServiceUnavailable.

(** The answer to a client call: the error or the redirection. *)
Definition answered {A} (result : res string A * World) (failed : string → Answer) (done_ : A → Answer) : Answer * World :=
  let '(r, w) := result in (match r with Ok a => done_ a | Err message => failed message end, w).

(** [authenticatedUser] then [modulePermission]. *)
Definition on_module (e : Env) (r : HTTPRequest) (module : string) (w : World)
    (k : Session.Session → string → bool → World → Answer * World) : Answer * World :=
  authenticatedUser e r w (λ s user w, modulePermission e user module w (k s)).

Definition restartService (e : Env) (r : HTTPRequest) (w : World) : Answer * World :=
  on_module e r "services" w (λ s level granted w,
    if negb granted || negb (acts level) then (forbidden, w)
    else if negb (is_form r) then (invalid_request, w)
    else validForm e r s w (λ w,
      answered (RestartService w (field r "service"))
        (λ _, unavailable "Le redémarrage du service a échoué.") (λ _, redirect [] "/services?result=restarted"))).

Definition restartPHP (e : Env) (r : HTTPRequest) (w : World) : Answer * World :=
  on_module e r "php" w (λ s level granted w,
    if negb granted || negb (acts level) then (forbidden, w)
    else if negb (is_form r) then (invalid_request, w)
    else validForm e r s w (λ w,
      answered (RestartPHP w (field r "runtime"))
        (λ _, unavailable "Le redémarrage de PHP-FPM a échoué.") (λ _, redirect [] "/php?result=restarted"))).

Definition restartMySQL (e : Env) (r : HTTPRequest) (w : World) : Answer * World :=
  on_module e r "mysql" w (λ s level granted w,
    if negb granted || negb (acts level) then (forbidden, w)
    else if negb (is_form r) then (invalid_request, w)
    else validForm e r s w (λ w,
      answered (RestartMySQL w)
        (λ _, unavailable "Le redémarrage MySQL a échoué.") (λ _, redirect [] "/mysql?result=restarted"))).

Definition torAction (e : Env) (r : HTTPRequest) (action : string) (w : World) : Answer * World :=
  on_module e r "tor" w (λ s level granted w,
    if negb granted || negb (acts level) then (forbidden, w)
    else if negb (String.eqb action "reload") && negb (String.eqb action "restart") then (not_found, w)
    else validForm e r s w (λ w,
      answered (TorAction w action) (λ _, unavailable "L’action Tor a échoué.") (λ _, redirect [] ("/tor?result=" +++ action)))).

Definition fail2banAction (e : Env) (r : HTTPRequest) (action : string) (w : World) : Answer * World :=
  on_module e r "fail2ban" w (λ s level granted w,
    let modify_only := String.eqb action "ban" || String.eqb action "unban" in
    if negb (granted && (modifies level || (negb modify_only && String.eqb level "action"))) then (forbidden, w)
    else validForm e r s w (λ w,
      answered (Fail2banAction w action (field r "jail") (field r "address"))
        (λ _, unavailable "L’action Fail2ban a échoué.")
        (λ _, redirect [] ("/fail2ban?jail=" +++ QueryEscape (field r "jail") +++ "&result=" +++ action)))).

Definition firewallAction (e : Env) (r : HTTPRequest) (action : string) (w : World) : Answer * World :=
  on_module e r "firewall" w (λ s level granted w,
    let modify_only := String.eqb action "add" || String.eqb action "delete" in
    if negb (granted && (modifies level || (negb modify_only && String.eqb level "action"))) then (forbidden, w)
    else validForm e r s w (λ w,
      let finish result := answered result (λ message, redirect [] ("/firewall?error=" +++ QueryEscape message))
                             (λ _, redirect [] ("/firewall?result=" +++ action)) in
      if String.eqb action "reload" then finish (firewall_call w "reload" [])
      else if String.eqb action "enable" then finish (firewall_call w "enable" [])
      else if String.eqb action "disable" then finish (firewall_call w "disable" [])
      else if String.eqb action "add" then
        finish (firewall_call w "add" [field r "rule_action"; field r "ports"; field r "protocol"; field r "source"])
      else if String.eqb action "delete" then
        match atoi_full (field r "id") with
        | (id, None) => finish (FirewallDelete w id)
        | (_, Some error) => finish (Err (Atoi_error (field r "id") error), w)
        end
      else (not_found, w))).

Definition cronAction (e : Env) (r : HTTPRequest) (action : string) (w : World) : Answer * World :=
  on_module e r "cron" w (λ s level granted w,
    if negb (existsb (String.eqb action) ["run"; "create"; "update"; "suspend"; "resume"; "delete"]) then (not_found, w)
    else if negb (granted && (modifies level || (String.eqb action "run" && String.eqb level "action"))) then (forbidden, w)
    else validForm e r s w (λ w,
      answered (CronAction w action (field r "user") (field r "task_id") (field r "schedule") (field r "command"))
        (λ message, unavailable ("L’action Cron a échoué : " +++ message))
        (λ execution, redirect [] (if String.eqb action "run" then "/cron?execution=" +++ QueryEscape execution
                                   else "/cron?result=" +++ QueryEscape action)))).

Definition cronBackupCreate (e : Env) (r : HTTPRequest) (w : World) : Answer * World :=
  on_module e r "cron" w (λ s level granted w,
    if negb granted || negb (modifies level) then (forbidden, w)
    else validForm e r s w (λ w,
      let remove := if String.eqb (field r "remove_local") "true" then "true" else "false" in
      answered (CronBackupCreate w ((field r <$> backup_fields) ++ [remove]))
        (λ message, unavailable ("La tâche de sauvegarde n’a pas pu être créée : " +++ message))
        (λ _, redirect [] "/cron?result=backup-create"))).

Definition cronBackupAction (e : Env) (r : HTTPRequest) (action : string) (w : World) : Answer * World :=
  on_module e r "cron" w (λ s level granted w,
    let allowed := granted && (modifies level || (String.eqb level "action" && String.eqb action "run")) in
    if negb allowed || (negb (String.eqb action "run") && negb (String.eqb action "delete")) then (forbidden, w)
    else validForm e r s w (λ w,
      answered (CronBackupAction w action (field r "task_id"))
        (λ message, unavailable ("L’action de sauvegarde a échoué : " +++ message))
        (λ execution, redirect [] (if String.eqb action "run" then "/cron?execution=" +++ QueryEscape execution
                                   else "/cron?result=backup-delete")))).

Definition certbotAction (e : Env) (r : HTTPRequest) (action : string) (w : World) : Answer * World :=
  on_module e r "certbot" w (λ s level granted w,
    if negb granted || negb (acts level) then (forbidden, w)
    else validForm e r s w (λ w,
      let start arguments :=
        answered (CertbotStart w action arguments) (λ _, unavailable "L’action Certbot a échoué.")
          (λ id, redirect [] ("/certbot?execution=" +++ QueryEscape id)) in
      if existsb (String.eqb action) ["renew-test"; "renew"] then start []
      else if existsb (String.eqb action) ["delete"; "reinstall"; "renew-replace"] then start [field r "certificate"]
      else if String.eqb action "issue" then start (field r "email" :: field r "redirect" :: fields (field r "domains"))
      else (not_found, w))).

Definition startUpdates (e : Env) (r : HTTPRequest) (w : World) : Answer * World :=
  on_module e r "updates" w (λ s level granted w,
    if negb granted || negb (modifies level) then (forbidden, w)
    else validForm e r s w (λ w,
      answered (StartUpgrade w) (λ _, unavailable "La mise à jour n’a pas pu démarrer.")
        (λ id, redirect [] ("/updates?job=" +++ QueryEscape id)))).

Definition refreshComposer (e : Env) (r : HTTPRequest) (w : World) : Answer * World :=
  on_module e r "updates" w (λ s level granted w,
    if negb granted || negb (modifies level) then (forbidden, w)
    else validForm e r s w (λ w,
      answered (RefreshComposer w) (λ _, unavailable "Actualisation impossible.") (λ _, redirect [] "/updates"))).

Definition reboot_delays : list Z := [0; 5; 15; 30; 60].

(** For the root account, with a confirmation; recorded in the access log either way. *)
Definition rebootServer (e : Env) (r : HTTPRequest) (w : World) : Answer * World :=
  authenticatedUser e r w (λ s user w,
    if negb (String.eqb (Store.Type_ user) "root") then (http_error [] "Accès réservé au compte root." StatusForbidden, w)
    else
      let '(ok, w) := csrf_ok e r s w in
      if negb ok || negb (String.eqb (field r "confirmation") "reboot")
      then (http_error [] "Confirmation de redémarrage invalide." StatusBadRequest, w)
      else match atoi (field r "delay") with
           | Some delay =>
               if negb (existsb (Z.eqb delay) reboot_delays) then (http_error [] "Délai de redémarrage invalide." StatusBadRequest, w)
               else
                 let '(result, w) := Reboot w delay in
                 let done_ := is_ok result in
                 let w := recordAccess e r (Some (Store.UserID user)) (Store.Login user) "server_reboot_scheduled" done_ w in
                 if negb done_
                 then (unavailable "Le redémarrage ne peut pas être programmé pendant une mise à jour active ou lorsque systemd est indisponible.", w)
                 else if delay =? 0 then (show (StatePage "reboot" "") StatusOK, w)
                 else (redirect [] ("/updates?reboot=" +++ QueryEscape (itoa delay)), w)
           | None => (http_error [] "Délai de redémarrage invalide." StatusBadRequest, w)
           end).

Definition updateAdminAccess (e : Env) (r : HTTPRequest) (w : World) : Answer * World :=
  rootUser e r w (λ s _ w, validForm e r s w (λ w,
    let address := trim_space (field r "address") in
    let allow := trim_space (field r "allow_from") in
    let bad := (http_error [] "Configuration HTTPS invalide." StatusBadRequest, w) in
    match atoi (field r "port") with
    | None => bad
    | Some port =>
        if (port <? 1024) || (65535 <? port) || String.eqb address "" || (768 <? slen address) || String.eqb allow "" ||
           (64 <? slen allow) || contains_any (address +++ allow) (String nul (String cr ""))
        then bad
        else answered (UpdateAdminAccess w (String.eqb (field r "enabled") "1") address port allow)
               (λ _, unavailable "La configuration HTTPS n’a pas pu être appliquée.") (λ _, redirect [] "/setting?result=admin-access")
    end)).
(** ** Apache sites and their certificates *)

Definition separators_to_spaces : string → string := smap (λ c, if Ascii.eqb c "," || Ascii.eqb c ";" then " "%char else c).

Fixpoint issue_domains (values seen : list string) : res string (list string) :=
  match values with
  | [] => Ok []
  | value :: values' =>
      let domain := to_lower (trim_suffix (trim_space value) ".") in
      if negb (certbotDomainPattern domain) || has_suffix domain ".onion"
      then Err ("Le domaine « " +++ value +++ " » ne peut pas être utilisé par Certbot. Un nom DNS public complet est requis.")
      else if existsb (String.eqb domain) seen then issue_domains values' seen
      else let! rest := issue_domains values' (domain :: seen) in Ok (domain :: rest)
  end.

Definition certbotIssueValues (email rawDomains : string) : res string (list string) :=
  let email := trim_space email in
  if (slen email <? 3) || (254 <? slen email) || negb (certbotEmailPattern email)
  then Err "L’adresse e-mail indiquée pour Certbot est invalide."
  else
    let! domains := issue_domains (fields (separators_to_spaces rawDomains)) [] in
    if (List.length domains =? 0)%nat then Err "Au moins un domaine doit être indiqué pour Certbot." else Ok domains.

Definition lines (l : list string) : string := List.fold_right (λ x rest, x +++ String nl rest) "" l.

Definition website_lines (root options override : string) : list string :=
  ["    DocumentRoot " +++ root; ""; "    <Directory " +++ root +++ ">"; "        Options " +++ options;
   "        AllowOverride " +++ override; "        Require all granted"; "    </Directory>"].
Definition proxy_lines (value : string) : list string :=
  ["    ProxyPreserveHost On"; "    ProxyPass / " +++ value; "    ProxyPassReverse / " +++ value].

Definition site_body (r : HTTPRequest) : res string (list string) :=
  if String.eqb (field r "site_type") "website" then
    let root := trim_space (field r "document_root") in
    if String.eqb root "" || negb (has_prefix root "/") || contains_any root (String cr (String nl snul))
    then Err "Le chemin DocumentRoot est invalide."
    else
      let override := if negb (String.eqb (field r "allow_override") "All") then "None" else "All" in
      let options := if String.eqb (field r "follow_sym_links") "1" then "-Indexes +FollowSymLinks" else "-Indexes" in
      Ok (website_lines root options override)
  else if String.eqb (field r "site_type") "proxy" then
    match ParseURL (trim_space (field r "target_url")) with
    | Some (scheme, host, text) =>
        if String.eqb host "" || (negb (String.eqb scheme "http") && negb (String.eqb scheme "https")) ||
           contains_any text (String cr (String nl snul))
        then Err "L’URL du proxy inverse est invalide."
        else Ok (proxy_lines (trim_right_set (Ascii.eqb "/") text +++ "/"))
    | None => Err "L’URL du proxy inverse est invalide."
    end
  else Err "Le type de site Apache est invalide.".

Definition site_lines (serverName : string) (aliases body : list string) (name : string) : list string :=
  ["<VirtualHost *:80>"; "    ServerName " +++ serverName] ++
  (if (List.length aliases =? 0)%nat then [] else ["    ServerAlias " +++ join " " aliases]) ++ body ++
  [""; "    ErrorLog ${APACHE_LOG_DIR}/" +++ name +++ "-error.log";
   "    CustomLog ${APACHE_LOG_DIR}/" +++ name +++ "-access.log combined"; "</VirtualHost>"].

(** The file of a virtual host. *)
Definition apacheSiteConfiguration (r : HTTPRequest) : res string (string * string) :=
  let serverName := trim_space (field r "server_name") in
  if negb (apacheHostPattern serverName) then Err "Le nom de domaine est invalide."
  else
    let aliases := fields (separators_to_spaces (field r "aliases")) in
    if negb (forallb apacheHostPattern aliases) then Err "Un alias de domaine est invalide."
    else
      let filename := trim_prefix (to_lower serverName) "*." +++ ".conf" in
      let! body := site_body r in
      Ok (filename, lines (site_lines serverName aliases body (trim_suffix filename ".conf"))).

Definition site_actions : list string := ["create"; "update"; "enable"; "disable"; "delete"; "issue-certificate"].

Definition apacheAction (e : Env) (r : HTTPRequest) (action : string) (w : World) : Answer * World :=
  on_module e r "apache" w (λ s level granted w,
    if negb granted || negb (acts level) then (forbidden, w)
    else
      let reloads := String.eqb action "reload" || String.eqb action "restart" in
      if negb (reloads || (modifies level && existsb (String.eqb action) site_actions)) then (not_found, w)
      else validForm e r s w (λ w,
        let failed message := redirect [] ("/apache?error=" +++ QueryEscape message) in
        let done_ {A} (_ : A) := redirect [] ("/apache?result=" +++ action) in
        if reloads then answered (ApacheAction w action) failed done_
        else if String.eqb action "issue-certificate" then
          match certbotIssueValues (field r "email") (field r "domains") with
          | Err message => (failed message, w)
          | Ok domains =>
              let redirects := if String.eqb (field r "redirect") "1" then "redirect" else "no-redirect" in
              answered (CertbotStart w "issue" (trim_space (field r "email") :: redirects :: domains)) failed
                (λ id, redirect [] ("/certbot?execution=" +++ QueryEscape id))
          end
        else if String.eqb action "create" then
          match apacheSiteConfiguration r with
          | Err message => (failed message, w)
          | Ok (filename, content) => answered (ApacheSiteAction w action (field r "config_id") filename content) failed done_
          end
        else answered (ApacheSiteAction w action (field r "config_id") (field r "filename") (field r "content")) failed done_)).

(** ** Every handler *)

Inductive server_action :=
| RestartService_ | RestartPHP_ | RestartMySQL_ | Tor (action : string) | Fail2ban (action : string)
| Firewall (action : string) | Cron (action : string) | CronBackupCreate_ | CronBackup (action : string)
| Certbot (action : string) | Apache (action : string) | StartUpdates | RefreshComposer_ | RebootServer | AdminAccess.

Definition act (a : server_action) (e : Env) (r : HTTPRequest) : World → Answer * World :=
  match a with
  | RestartService_ => restartService e r
  | RestartPHP_ => restartPHP e r
  | RestartMySQL_ => restartMySQL e r
  | Tor x => torAction e r x
  | Fail2ban x => fail2banAction e r x
  | Firewall x => firewallAction e r x
  | Cron x => cronAction e r x
  | CronBackupCreate_ => cronBackupCreate e r
  | CronBackup x => cronBackupAction e r x
  | Certbot x => certbotAction e r x
  | Apache x => apacheAction e r x
  | StartUpdates => startUpdates e r
  | RefreshComposer_ => refreshComposer e r
  | RebootServer => rebootServer e r
  | AdminAccess => updateAdminAccess e r
  end.
End Actions.

(** ** Who may act *)

Definition action_module (a : server_action) : string :=
  match a with
  | RestartService_ => "services" | RestartPHP_ => "php" | RestartMySQL_ => "mysql" | Tor _ => "tor"
  | Fail2ban _ => "fail2ban" | Firewall _ => "firewall" | Cron _ | CronBackupCreate_ | CronBackup _ => "cron"
  | Certbot _ => "certbot" | Apache _ => "apache" | StartUpdates | RefreshComposer_ | RebootServer => "updates"
  | AdminAccess => "settings"
  end.

(** The levels of the module's right that allow the action. *)
Definition allowed (a : server_action) (level : string) : bool :=
  match a with
  | RestartService_ | RestartPHP_ | RestartMySQL_ | Tor _ | Certbot _ => acts level
  | Fail2ban x => if Schema.one_of x ["ban"; "unban"] then modifies level else acts level
  | Firewall x => if Schema.one_of x ["add"; "delete"] then modifies level else acts level
  | Cron x | CronBackup x => if String.eqb x "run" then acts level else modifies level
  | Apache x => if Schema.one_of x ["reload"; "restart"] then acts level else modifies level
  | CronBackupCreate_ | StartUpdates | RefreshComposer_ => modifies level
  | RebootServer | AdminAccess => false
  end.

(** Restarting the machine and opening the HTTPS access are for root; the rest goes by
    the right on the module. *)
Definition entitled (a : server_action) (d : Schema.Database) (user : Store.User) : Prop :=
  match a with
  | RebootServer | AdminAccess => Store.Type_ user = "root"
  | _ => ∃ level, StoreNav.PermissionForModule d user (action_module a) = Some level ∧ allowed a level = true
  end.

(** The domains of the API an action may address. *)
Definition action_domains (a : server_action) : list string :=
  match a with
  | Apache _ => ["apache"; "certbot"]
  | AdminAccess => ["admin-access"]
  | _ => [action_module a]
  end.

(** Requests were added, all for these domains. *)
Definition sends (ds : list string) (w w' : World) : Prop :=
  ∃ l, sent w' = l ++ sent w ∧ Forall (λ q, Api.Domain q ∈ ds) l.

Section ActionFacts.
Context `{UnicodeCase} `{PasswordHash} `{NetIP}.
Context (execute : list Api.Request → Api.Request → res string Api.Reply).
Context (Atoi_error : string → num_error → string).
Context (ParseAddr : string → option string) (ParseURL : string → option (string * string * string)).

Lemma sends_refl ds w : sends ds w w.
Proof. by exists []. Qed.

Lemma sends_trans ds w1 w2 w3 : sends ds w1 w2 → sends ds w2 w3 → sends ds w1 w3.
Proof. intros (l1 & E1 & F1) (l2 & E2 & F2). exists (l2 ++ l1). rewrite E2, E1, app_assoc. split; [done|by apply Forall_app]. Qed.

Lemma ask_sends ds w domain command arguments : domain ∈ ds → sends ds w (ask execute w domain command arguments).2.
Proof. intros Hd. eexists [_]. split; [reflexivity|]. by constructor. Qed.

Lemma fixed_call_sends ds domain message w command arguments : domain ∈ ds →
  sends ds w (fixed_call execute domain message w command arguments).2.
Proof. intros Hd. apply (ask_sends ds w domain command arguments Hd). Qed.

Lemma message_call_sends ds domain rejected incomplete quoted w command arguments : domain ∈ ds →
  sends ds w (message_call execute domain rejected incomplete quoted w command arguments).2.
Proof. intros Hd. apply (ask_sends ds w domain command arguments Hd). Qed.

Lemma answered_world {A} (x : res string A * World) f g : (answered x f g).2 = x.2.
Proof. by destruct x. Qed.

Lemma FirewallDelete_sends w id : sends ["firewall"] w (FirewallDelete execute w id).2.
Proof.
  unfold FirewallDelete. destruct (id <? 1); [apply sends_refl|].
  pose proof (message_call_sends ["firewall"] "firewall" "L’action du pare-feu a échoué." "La réponse du pare-feu est incomplète." false
    w "delete-check" [itoa id] ltac:(left)) as Hs. fold (firewall_call execute) in Hs.
  destruct (firewall_call execute w "delete-check" [itoa id]) as [[d|err] w1]; cbn [snd] in *; [|done].
  destruct (Api.vget d "rule_id"); try done. destruct (Api.vget d "fingerprint"); try done.
  destruct (_ && _); [|done]. apply (sends_trans _ w w1); [done|]. apply message_call_sends. left.
Qed.

(** A condition that ends the handler, a client call, a value of a form. *)
Ltac sending :=
  repeat first
    [ apply sends_refl
    | rewrite answered_world
    | apply FirewallDelete_sends
    | apply fixed_call_sends; set_solver
    | apply message_call_sends; set_solver
    | apply ask_sends; set_solver
    | match goal with
      | |- context [if ?b then _ else _] => destruct b
      | |- context [match ?x with _ => _ end] => destruct x
      end ].

Lemma validForm_sends ds e r s w k : guards_token e w s → (∀ w1, db w1 = db w → sends ds w1 (k w1).2) →
  sent (validForm e r s w k).2 = sent w ∨ (bears_token (field r "_token") s ∧ sends ds w (validForm e r s w k).2).
Proof.
  intros Hg Hk. unfold validForm. destruct (csrf_ok_unmoved e r s w) as [Hd Hs].
  pose proof (csrf_ok_token e r w s Hg) as Ht. destruct (csrf_ok e r s w) as [[|] w1]; cbn [fst snd negb] in *; [|by left].
  right. split; [auto|]. destruct (Hk w1 Hd) as (l & Hl & F). exists l. by rewrite Hl, Hs.
Qed.

(** What the checks of a handler have established when it sends. *)
Definition authorized (a : server_action) (e : Env) (r : HTTPRequest) (w : World) : Prop :=
  ∃ s u, signed_in e r w s u ∧ bears_token (field r "_token") s ∧
    entitled a (db w) (Store.scanUser (Session.UserID s) u).

Lemma gate_sends ds a e r w k : Session.wf (mgr w) →
  (∀ s user w1, guards_token e w1 s →
     sent (k s user w1).2 = sent w1 ∨
     (bears_token (field r "_token") s ∧ entitled a (db w1) user ∧ sends ds w1 (k s user w1).2)) →
  sent (authenticatedUser e r w k).2 = sent w ∨ (authorized a e r w ∧ sends ds w (authenticatedUser e r w k).2).
Proof.
  intros Hw Hk. destruct (authenticated_cases e r w k Hw) as [(w' & -> & [_ Hs] & _)|(s & u & w1 & Hsig & [Hd Hs] & _ & Hg & ->)];
    [by left|].
  destruct (Hk _ (Store.scanUser (Session.UserID s) u) w1 Hg) as [Hsame|(Ht & He & l & Hl & F)]; [left; congruence|right].
  split; [exists s, u; by rewrite Hd in He|]. exists l. by rewrite Hl, Hs.
Qed.

Lemma on_module_sends ds a e r w k : Session.wf (mgr w) →
  entitled a = (λ d user, ∃ level, StoreNav.PermissionForModule d user (action_module a) = Some level ∧ allowed a level = true) →
  (∀ s level granted w1, guards_token e w1 s →
     sent (k s level granted w1).2 = sent w1 ∨
     (granted = true ∧ allowed a level = true ∧ bears_token (field r "_token") s ∧ sends ds w1 (k s level granted w1).2)) →
  sent (on_module e r (action_module a) w k).2 = sent w ∨
  (authorized a e r w ∧ sends ds w (on_module e r (action_module a) w k).2).
Proof.
  intros Hw He Hk. apply gate_sends; [done|]. intros s user w1 Hg. unfold modulePermission.
  destruct (negb (db_up e)); [by left|]. rewrite He.
  destruct (StoreNav.PermissionForModule (db w1) user (action_module a)) as [level|] eqn:Hp.
  - destruct (Hk s level true w1 Hg) as [?|(_ & Ha & Ht & Hs)]; [by left|right]. split_and!; [done|by exists level|done].
  - destruct (Hk s "" false w1 Hg) as [?|(? & _)]; [by left|done].
Qed.

(** The usual body: the right, then the form. *)
Lemma form_sends ds a e r s level granted w (denied : bool) (refusal : Answer) k : guards_token e w s →
  (denied = false → granted = true ∧ allowed a level = true) →
  (∀ w1, db w1 = db w → sends ds w1 (k w1).2) →
  sent (if denied then (refusal, w) else validForm e r s w k).2 = sent w ∨
  (granted = true ∧ allowed a level = true ∧ bears_token (field r "_token") s ∧
   sends ds w (if denied then (refusal, w) else validForm e r s w k).2).
Proof.
  intros Hg Hd Hk. destruct denied; [by left|]. destruct (Hd eq_refl) as [-> ->].
  destruct (validForm_sends ds e r s w k Hg Hk) as [?|[? ?]]; [by left|by right].
Qed.

(** Whether the sent requests of a client are all for its domain. *)
Ltac client :=
  intros ? _; rewrite ?answered_world;
  unfold RestartService, RestartPHP, RestartMySQL, TorAction, ApacheAction, ApacheSiteAction, CertbotStart, Fail2banAction,
    CronAction, CronBackupCreate, CronBackupAction, StartUpgrade, RefreshComposer, UpdateAdminAccess;
  sending.

(** The guards of the handlers against [allowed], by cases on the tests they share. *)
Ltac right_cases :=
  unfold allowed, acts, modifies, Schema.one_of, existsb, site_actions in *;
  repeat match goal with
  | |- context [String.eqb ?x ?y] => destruct (String.eqb x y)
  | b : bool |- _ => destruct b
  end; cbn; try done; try (by intros).

Ltac on_module_action a :=
  apply (on_module_sends _ a); [done|done|]; intros s level granted w1 Hg; cbv zeta;
  try (apply form_sends; [done|by right_cases|client]).

Lemma act_sends a e r w : Session.wf (mgr w) →
  sent (act execute Atoi_error ParseAddr ParseURL a e r w).2 = sent w ∨
  (authorized a e r w ∧ sends (action_domains a) w (act execute Atoi_error ParseAddr ParseURL a e r w).2).
Proof.
  intros Hw. destruct a as [| | |x|x|x|x| |x|x|x| | | |]; cbn [act].
  - on_module_action RestartService_. destruct (negb granted || negb (acts level)) eqn:Hd; [by left|].
    apply form_sends; [done|by right_cases|client].
  - on_module_action RestartPHP_. destruct (negb granted || negb (acts level)) eqn:Hd; [by left|].
    apply form_sends; [done|by right_cases|client].
  - on_module_action RestartMySQL_. destruct (negb granted || negb (acts level)) eqn:Hd; [by left|].
    apply form_sends; [done|by right_cases|client].
  - on_module_action (Tor x). destruct (negb granted || negb (acts level)) eqn:Hd; [by left|].
    apply form_sends; [done|by right_cases|client].
  - on_module_action (Fail2ban x).
  - on_module_action (Firewall x).
  - on_module_action (Cron x). destruct (negb (existsb _ _)) eqn:Hx; [by left|].
    apply form_sends; [done|by right_cases|client].
  - on_module_action CronBackupCreate_.
  - on_module_action (CronBackup x).
  - on_module_action (Certbot x).
  - on_module_action (Apache x). destruct (negb granted || negb (acts level)) eqn:Hd; [by left|].
    apply form_sends; [done|by right_cases|client].
  - on_module_action StartUpdates.
  - on_module_action RefreshComposer_.
  - apply gate_sends; [done|]. intros s user w1 Hg.
    destruct (String.eqb (Store.Type_ user) "root") eqn:Hr; [|by left]. cbn [negb].
    destruct (csrf_ok_unmoved e r s w1) as [Hd Hs].
    pose proof (csrf_ok_token e r w1 s Hg) as Ht. destruct (csrf_ok e r s w1) as [[|] w2]; cbn [fst snd negb orb] in *; [|by left].
    destruct (negb (String.eqb _ "reboot")); [by left|]. destruct (atoi _) as [delay|]; [|by left].
    destruct (negb (existsb _ _)); [by left|]. right. split_and!; [auto|by apply String.eqb_eq|].
    assert (sends ["updates"] w2 (Reboot execute w2 delay).2) as (l & Hl & F) by (apply fixed_call_sends; left).
    destruct (Reboot execute w2 delay) as [result w3]; cbn [snd] in Hl. cbv zeta.
    exists l. split; [|done]. rewrite <- Hs, <- Hl.
    repeat match goal with |- context [if ?b then _ else _] => destruct b end; apply recordAccess_sent.
  - apply gate_sends; [done|]. intros s user w1 Hg.
    destruct (String.eqb (Store.Type_ user) "root") eqn:Hr; [|by left]. cbn [negb].
    match goal with |- context [validForm e r s w1 ?k] =>
      destruct (validForm_sends (action_domains AdminAccess) e r s w1 k Hg) as [?|[? ?]] end; [|by left|right].
    + client.
    + split_and!; [done|by apply String.eqb_eq|done].
Qed.

(** *** The file of a site *)

Lemma split_lines l : Forall (λ x, contains_byte nl x = false) l → split nl (lines l) = l ++ [""].
Proof.
  induction 1 as [|x l Hx _ IH]; [done|]. cbn [lines List.fold_right app]. rewrite split_app_sep by done. f_equal. exact IH.
Qed.

(** The bytes of a host name. *)
Definition host_byte : ascii → bool := cls alnum "*.-".

Lemma host_pattern_bytes s : apacheHostPattern s = true → sforall host_byte s = true.
Proof.
  intros Hs. apply (full_bytes host_byte) in Hs; [done|]. cbn [rx_bytes lit opt plus].
  repeat split; intros [[] [] [] [] [] [] [] []]; vm_compute; congruence.
Qed.

Lemma host_byte_facts c : host_byte c = true → host_byte (ascii_lower c) = true ∧ negb (Ascii.eqb nl c) = true ∧ is_ascii_byte c = true.
Proof. destruct c as [[] [] [] [] [] [] [] []]; vm_compute; intros ?; split_and!; congruence. Qed.
Lemma host_bytes_no_newline s : sforall host_byte s = true → contains_byte nl s = false.
Proof. intros Hs. apply contains_byte_sforall. revert Hs. apply sforall_weaken. intros c Hc. by apply host_byte_facts. Qed.

Lemma to_lower_host s : sforall host_byte s = true → sforall host_byte (to_lower s) = true.
Proof.
  intros Hs. unfold to_lower.
  assert (is_ascii s = true) as ->.
  { unfold is_ascii. revert Hs. apply sforall_weaken. intros c Hc. by apply host_byte_facts. }
  rewrite sforall_smap. revert Hs. apply sforall_weaken. intros c Hc. by apply host_byte_facts.
Qed.

Lemma join_no_newline l : Forall (λ x, contains_byte nl x = false) l → contains_byte nl (join " " l) = false.
Proof.
  induction 1 as [|x l Hx Hl IH]; [done|]. destruct l as [|y l]; [done|].
  rewrite join_cons_ne by done. by rewrite !contains_byte_app, Hx, IH.
Qed.

(** The directives of a site, for a directory or for a proxy. *)
Inductive site_directives : list string → Prop :=
| website_directives root follow override : has_prefix root "/" = true → override ∈ ["None"; "All"] →
    site_directives (website_lines root (if follow : bool then "-Indexes +FollowSymLinks" else "-Indexes") override)
| proxy_directives value : site_directives (proxy_lines value).

Lemma site_body_spec r body : site_body ParseURL r = Ok body →
  site_directives body ∧ Forall (λ x, contains_byte nl x = false) body.
Proof.
  unfold site_body. destruct (String.eqb (field r "site_type") "website").
  - cbv zeta. destruct (_ || _ || _) eqn:Hc; [done|]. bool_prop. intros [= <-]. split.
    + destruct (String.eqb (field r "follow_sym_links") "1"); [apply (website_directives _ true)|apply (website_directives _ false)];
        try done; case_match; set_solver.
    + assert (contains_byte nl (trim_space (field r "document_root")) = false) as Hr by (by eapply contains_any_free).
      unfold website_lines. repeat constructor; rewrite ?contains_byte_app, ?Hr; repeat case_match; done.
  - destruct (String.eqb _ "proxy"); [|done]. destruct (ParseURL _) as [[[scheme host] text]|]; [|done].
    destruct (_ || _ || _) eqn:Hc; [done|]. bool_prop. intros [= <-]. split; [constructor|].
    assert (contains_byte nl (trim_right_set (Ascii.eqb "/") text) = false) as Ht.
    { apply contains_byte_sforall, sforall_trim_right_set, contains_byte_sforall. by eapply contains_any_free. }
    unfold proxy_lines. repeat constructor; rewrite ?contains_byte_app, ?Ht; done.
Qed.

(** The file written for a new site holds the directives of the template and nothing
    else: cut at its line ends it is, line for line, the template with the values of the
    form, for a website or for a proxy; no value can add a line.  The file name is made of
    the bytes of a host name. *)
Theorem apacheSiteConfiguration_lines r filename content :
  apacheSiteConfiguration ParseURL r = Ok (filename, content) →
  ∃ server aliases body name,
    split nl content = site_lines server aliases body name ++ [""] ∧ site_directives body ∧
    apacheHostPattern server = true ∧ Forall (λ a, apacheHostPattern a = true) aliases ∧
    filename = name +++ ".conf" ∧ sforall host_byte name = true.
Proof.
  unfold apacheSiteConfiguration. cbv zeta. set (server := trim_space _).
  destruct (apacheHostPattern server) eqn:Hserver; [|done]. cbn [negb].
  set (aliases := fields _). destruct (forallb apacheHostPattern aliases) eqn:Haliases; [|done]. cbn [negb].
  assert (Forall (λ a, apacheHostPattern a = true) aliases) as Ha
    by (apply Forall_forall; intros x Hx; apply (proj1 (List.forallb_forall _ _) Haliases), list_elem_of_In, Hx).
  set (name := trim_prefix (to_lower server) "*."). rewrite trim_suffix_app.
  intros (body & Hb & E)%res_bind_Ok. apply site_body_spec in Hb as [Hd Hbody].
  assert (filename = name +++ ".conf" ∧ content = lines (site_lines server aliases body name)) as [-> ->]
    by (split; congruence). clear E.
  pose proof (host_pattern_bytes _ Hserver) as Hbytes.
  assert (sforall host_byte name = true) as Hname by by apply sforall_trim_prefix, to_lower_host.
  exists server, aliases, body, name. split_and!; [|done..]. apply split_lines. unfold site_lines.
  apply host_bytes_no_newline in Hname as Hn. apply host_bytes_no_newline in Hbytes as Hs.
  rewrite !Forall_app. split_and!; [repeat constructor|case_match; repeat constructor|done|repeat constructor];
    rewrite ?contains_byte_app, ?Hn, ?Hs; try done.
  rewrite join_no_newline; [done|]. eapply Forall_impl; [exact Ha|].
  intros x Hx. by apply host_bytes_no_newline, host_pattern_bytes.
Qed.

(** C2: no request reaches the local API for nothing: whatever handler of these pages adds
    requests to those sent, all are for the domains of the action, and the browser showed
    the cookie of a live authenticated session of an active account at its version, the
    token of that session, and the account's right on the module is of a level the action
    needs (restarting the machine and changing the HTTPS access need the root account). *)
Theorem action_authorized a e r w : Session.wf (mgr w) →
  ∃ l, sent (act execute Atoi_error ParseAddr ParseURL a e r w).2 = l ++ sent w ∧
    Forall (λ q, Api.Domain q ∈ action_domains a) l ∧ (l ≠ [] → authorized a e r w).
Proof.
  intros Hw. destruct (act_sends a e r w Hw) as [Hs|(Ha & l & Hl & F)].
  - exists []. by rewrite Hs.
  - by exists l.
Qed.

(** Deleting a firewall rule: the deletion is sent only after the API was asked about
    that very rule and answered with its number and a fingerprint, and it carries that
    fingerprint, so that a rule that moved since is not deleted in its place. *)
Theorem FirewallDelete_confirmed w id :
  let check := {| Api.Domain := "firewall"; Api.Command := "delete-check"; Api.Arguments := [itoa id] |} in
  let w' := (FirewallDelete execute w id).2 in
  sent w' = sent w ∨ sent w' = check :: sent w ∨
  ∃ reply d fingerprint,
    execute (sent w) check = Ok reply ∧ Api.resp_success (Api.Resp reply) = true ∧
    Api.resp_data (Api.Resp reply) = Some d ∧ Api.vget d "rule_id" = Api.VInt id ∧
    Api.vget d "fingerprint" = Api.VStr fingerprint ∧ slen fingerprint = 64 ∧ 1 ≤ id ∧
    sent w' = {| Api.Domain := "firewall"; Api.Command := "delete"; Api.Arguments := [itoa id; fingerprint; "yes"] |}
              :: check :: sent w.
Proof.
  cbv zeta. unfold FirewallDelete. destruct (Z.ltb_spec id 1); [by left|]. right.
  unfold firewall_call, message_call, ask. cbv zeta.
  destruct (execute (sent w) _) as [reply|err]; [|by left].
  destruct (Api.resp_success (Api.Resp reply)) eqn:Hok; cbn [negb].
  2:{ left. destruct (Api.resp_error (Api.Resp reply)) as [er|]; [|done].
      by destruct (false || negb (String.eqb (Api.err_message er) "")). }
  destruct (Api.resp_data (Api.Resp reply)) as [d|] eqn:Hd; [|by left]. cbn [from_option_res].
  destruct (Api.vget d "rule_id") as [| |rule| | | |] eqn:Hr; try by left.
  destruct (Api.vget d "fingerprint") as [| | |fp| | |] eqn:Hf; try by left.
  destruct ((rule =? id) && (slen fp =? 64)) eqn:Hb; [|by left]. bool_prop. subst rule.
  right. by exists reply, d, fp.
Qed.
End ActionFacts.

(** ** A restart and a site *)

#[local] Existing Instance ascii_case.
#[local] Existing Instance toy_hash.
#[local] Existing Instance toy_ip.

(** An API that accepts everything. *)
Definition sample_execute (_ : list Api.Request) (_ : Api.Request) : res string Api.Reply :=
  Ok {| Api.ExitCode := 0; Api.Resp := Api.Success None |}.
Definition sample_act : server_action → Env → HTTPRequest → World → Answer * World :=
  act sample_execute (λ _ _, "") Some (λ _, None).

Definition restart_request : HTTPRequest := root_request [("service", "ssh@1.service")].

Lemma action_authorized_witness :
  sent (sample_act RestartService_ root_env restart_request root_world).2 =
    [{| Api.Domain := "services"; Api.Command := "restart"; Api.Arguments := ["ssh@1.service"] |}] ∧
  authorized RestartService_ root_env restart_request root_world.
Proof.
  assert (sent (sample_act RestartService_ root_env restart_request root_world).2 =
    [{| Api.Domain := "services"; Api.Command := "restart"; Api.Arguments := ["ssh@1.service"] |}]) as Hs
    by (vm_compute; reflexivity).
  split; [exact Hs|].
  destruct (action_authorized sample_execute (λ _ _, "") Some (λ _, None) RestartService_ root_env restart_request root_world
    root_world_wf) as (l & Hl & _ & Ha). apply Ha. intros ->. unfold sample_act in Hs. rewrite Hl in Hs. discriminate Hs.
Defined.

Definition site_request : HTTPRequest := root_request
  [("server_name", "*.Example.org"); ("aliases", "www.example.org, example.net"); ("site_type", "website");
   ("document_root", "/var/www/example"); ("follow_sym_links", "1")].

Lemma apacheSiteConfiguration_lines_witness :
  ∃ filename content name, apacheSiteConfiguration (λ _, None) site_request = Ok (filename, content) ∧
    filename = name +++ ".conf" ∧ sforall host_byte name = true ∧ name = "example.org".
Proof.
  destruct (apacheSiteConfiguration (λ _, None) site_request) as [[filename content]|e] eqn:E;
    [|vm_compute in E; discriminate].
  destruct (apacheSiteConfiguration_lines (λ _, None) site_request filename content E)
    as (server & aliases & body & name & _ & _ & _ & _ & Hf & Hn).
  exists filename, content, name. split_and!; [reflexivity|exact Hf|exact Hn|].
  assert (filename = "example.org.conf") as Hx by (vm_compute in E; injection E as <- _; reflexivity).
  rewrite Hx in Hf. apply (f_equal (λ s, trim_suffix s ".conf")) in Hf. rewrite trim_suffix_app in Hf. symmetry. exact Hf.
Defined.
