(* ===== verification/WebRuns.v ===== *)
(** * What the sign-in handlers guarantee

    Runs of the web program: requests to the handlers of [WebApp] in any order, from any
    client and with any outcome of the file, the clock and the random source, mixed with
    the other operations on the accounts (administration, command line) and restarts.
    The main theorem says what a page that is served tells about the past of the run. *)

From S2P Require Import Prelude GoStrings StringFacts Codec Limiter Totp Password.
From S2P Require Session Schema Store StoreSettings.
From S2P Require Import WebApp WebGate.
From Stdlib Require Import Ascii String.
#[local] Open Scope string_scope.
#[local] Open Scope list_scope.
#[local] Open Scope Z_scope.

(** ** What is known of a session *)

Definition must_change (u : Schema.UserRow) : bool := Schema.must_change_password (Schema.u_credentials u) =? 1.

Section Evidence.
(** [code_shown secret]: a code of [secret] was presented; [password_shown id]: the
    password of the account was. *)
Context (code_shown : string → Prop) (password_shown : Z → Prop).

(** What a session of this state says of the account while it is still at the session's
    version. *)
Definition account_ok (st : Session.State) (u : Schema.UserRow) : Prop :=
  (st = Session.StateAuthenticated → must_change u = false) ∧
  (st = Session.StateAuthenticated ∨ st = Session.StatePassword →
     ∀ secret, Store.active_secret u = Some secret → code_shown secret).

Definition good (d : Schema.Database) (i : Session.State * Z * Z) : Prop :=
  let '(st, id, v) := i in
  st = Session.StateAnonymous ∨
  (id ≤ Schema.users_seq d ∧ password_shown id ∧
   ∀ u, Schema.users d !! id = Some u → v ≤ Store.version u ∧ (Store.version u = v → account_ok st u)).

Lemma good_step d d' i : Store.users_step d d' → good d i → good d' i.
Proof.
  destruct i as [[st id] v]. intros (Hq & Hold & Hnew & _) [?|(Hid & Hp & Hu)]; [by left|right].
  split_and!; [lia|done|]. intros u' Hu'. destruct (Schema.users d !! id) as [u|] eqn:E.
  2:{ destruct (Hnew id u' Hu' E). lia. }
  destruct (Hu u eq_refl) as [Hle Hok].
  destruct (Hold id u E) as [(u1 & Hu1 & Hv & Hg & _)|[Hn _]]; [|by rewrite Hn in Hu'].
  rewrite Hu' in Hu1. injection Hu1 as <-. split; [lia|]. intros Heq.
  assert (Store.guard_of u = Store.guard_of u') as Hsame.
  { destruct (decide (Store.guard_of u = Store.guard_of u')) as [?|Hne]; [done|]. specialize (Hg Hne). lia. }
  destruct (Hok ltac:(lia)) as [H1 H2]. injection Hsame as _ Hm _ Hs.
  split; [unfold must_change in *; by rewrite <- Hm|by rewrite <- Hs].
Qed.

Lemma good_intro d st id v u :
  Store.seq_ok d → Schema.users d !! id = Some u → Store.version u = v → password_shown id →
  account_ok st u → good d (st, id, v).
Proof.
  intros Hs Hu Hv Hp Hok. right. split_and!; [apply Hs; by exists u|done|].
  intros x Hx. rewrite Hu in Hx. injection Hx as <-. split; [lia|done].
Qed.

Definition Inv (w : World) : Prop :=
  Store.seq_ok (db w) ∧ Session.all_identities (good (db w)) (mgr w).

(** [Inv] kept, the accounts and the login limiter as they were. *)
Definition keeps (w w' : World) : Prop :=
  Inv w' ∧ same_users (db w) (db w') ∧ login_limiter w' = login_limiter w.

Lemma inv_step w d : Inv w → Store.users_step (db w) d → Inv (with_db w d).
Proof.
  intros [Hs Ha] Hstep. split; [by apply Store.users_step_seq in Hstep|].
  apply (Session.all_identities_impl (good (db w))); [intros i; by apply good_step|done].
Qed.

Lemma keeps_db w d : Inv w → same_users (db w) d → keeps w (with_db w d).
Proof. intros HI Hd. split_and!; [by apply inv_step; [|apply same_users_step]|done..]. Qed.

Lemma keeps_trans w1 w2 w3 : keeps w1 w2 → keeps w2 w3 → keeps w1 w3.
Proof. intros (_ & H1 & H2) (H3 & H4 & H5). split_and!; [done|by apply (same_users_trans _ (db w2))|congruence]. Qed.

Lemma good_keeps w w' i : keeps w w' → good (db w) i → good (db w') i.
Proof. intros (_ & Hs & _). apply good_step. by apply same_users_step. Qed.

(** ** The helpers of the handlers *)

Section Handlers.
Context `{UnicodeCase} `{Password.PasswordHash} `{NetIP}.
Context (qrcode : string → option string) (flag_language : string).

Lemma keeps_mgr w m : Inv w → Session.all_identities (good (db w)) m → keeps w (with_mgr w m).
Proof. intros [Hs _] Hm. done. Qed.

Lemma keeps_refl w : Inv w → keeps w w.
Proof. done. Qed.

Lemma requestSession_keeps e r w : Inv w →
  keeps w (requestSession e r w).2 ∧
  ∀ s, (requestSession e r w).1 = Some s → good (db w) (Session.identity s).
Proof.
  intros HI. unfold requestSession. destruct (session_cookie r) as [id|]; [|done].
  pose proof (Session.all_identities_Get _ (mgr w) (now e) (get_outcome e) id (proj2 HI)) as Hg.
  pose proof (Session.Get_live (mgr w) (now e) (get_outcome e) id) as Hl.
  destruct (Session.Get _ _ _ _) as [found m]; cbn [fst snd] in *.
  split; [by apply keeps_mgr|]. intros s ->. unfold Session.live in Hl. destruct (_ !! id) as [s0|] eqn:E; [|done].
  destruct (Session.expired _ _ _); [done|]. injection Hl as ->. exact (proj1 (proj2 HI) id s0 E).
Qed.

Lemma reject_keeps e id w : Inv w → keeps w (reject e id w).2.
Proof.
  intros HI. unfold reject, invalidate. destruct (String.eqb id ""); [done|].
  apply keeps_mgr; [done|]. by apply Session.all_identities_Destroy, HI.
Qed.

Lemma csrf_ok_keeps e r s w : Inv w → keeps w (csrf_ok e r s w).2.
Proof.
  intros HI. unfold csrf_ok. destruct (form r) as [f|]; [|done].
  pose proof (Session.all_identities_ValidateCSRF _ (mgr w) (now e) (csrf_outcome e) (Session.ID s)
    (field r "_token") (proj2 HI)).
  destruct (Session.ValidateCSRF _ _ _ _ _) as [ok m]. by apply keeps_mgr.
Qed.

Lemma recordAccess_keeps e r user l event success w : Inv w → keeps w (recordAccess e r user l event success w).
Proof. intros HI. destruct (recordAccess_cases e r user l event success w) as [->|(d & Hd & ->)]; [done|by apply keeps_db]. Qed.

Lemma SetTheme_users d now_ id v d' : StoreSettings.SetTheme d now_ id v = Ok d' → same_users d d'.
Proof.
  unfold StoreSettings.SetTheme, StoreSettings.upsert_preference. destruct (_ || _); [done|].
  destruct (_ !! _); [|done]. match goal with |- (if ?b then _ else _) = _ → _ => destruct b end; [|done].
  by intros [= <-].
Qed.

Lemma SetLanguage_users d now_ id v d' : StoreSettings.SetLanguage d now_ id v = Ok d' → same_users d d'.
Proof.
  unfold StoreSettings.SetLanguage, StoreSettings.upsert_preference. destruct (_ || _); [done|].
  destruct (_ !! _); [|done]. match goal with |- (if ?b then _ else _) = _ → _ => destruct b end; [|done].
  by intros [= <-].
Qed.

Lemma rotate_to_inv e s st user target w :
  Inv w → good (db w) (st, Store.UserID user, Store.AuthVersion user) → Inv (rotate_to e s st user target w).2.
Proof.
  intros HI Hg. unfold rotate_to.
  pose proof (Session.all_identities_Rotate _ (mgr w) (now e) (session_random e) (change_outcome e)
    (Session.ID s) st (Store.UserID user) (Store.AuthVersion user) (proj2 HI) Hg).
  destruct (Session.Rotate _ _ _ _ _ _ _ _) as [[rotated|err] m]; (split; [apply HI|done]).
Qed.

Lemma preference_cookies_keeps e user w : Inv w → keeps w (preference_cookies flag_language e user w).2.
Proof.
  intros HI. unfold preference_cookies. destruct (negb (db_up e)); [done|]. cbv zeta.
  destruct (StoreSettings.LanguageForUser _ _) as [l|]; [|done].
  destruct (supported_language l); [done|]. cbn [snd].
  destruct (StoreSettings.SetLanguage _ _ _ _) as [d|] eqn:E; [|done].
  apply keeps_db; [done|]. by apply SetLanguage_users in E.
Qed.

Lemma guarded_inv e r sa ua w k : Inv w →
  (∀ s u w', Inv w' → sa s = true → ua s (Store.scanUser (Session.UserID s) u) = true → behind w' s u →
     good (db w') (Session.identity s) → Inv (k s (Store.scanUser (Session.UserID s) u) w').2) →
  Inv (guarded e r sa ua w k).2.
Proof.
  intros HI Hk. destruct (requestSession_keeps e r w HI) as [Hkeep Hgood].
  destruct (guarded_cases e r sa ua w k) as [[id ->]|[->|(s & u & Hf & Hs & Hb & Hu & _ & ->)]].
  - apply reject_keeps, Hkeep.
  - apply Hkeep.
  - apply Hk; [apply Hkeep|done..|]. apply (good_keeps w); [done|by apply Hgood].
Qed.

Lemma behind_ok w s u : behind w s u → good (db w) (Session.identity s) →
  Session.SState s ≠ Session.StateAnonymous → password_shown (Session.UserID s) ∧ account_ok (Session.SState s) u.
Proof.
  intros (Hu & _ & Hv) [?|(_ & Hp & Hg)] Hne; [done|]. split; [done|]. by apply (Hg u Hu).
Qed.

Lemma active_secret_of id u secret : Store.active_secret u = Some secret → secret_of (Store.scanUser id u) = secret.
Proof.
  unfold Store.active_secret, secret_of. cbn. destruct (Schema.totp_enabled_at _); [|done]. by intros ->.
Qed.

Lemma after_second_factor_ok id u :
  (∀ secret, Store.active_secret u = Some secret → code_shown secret) →
  account_ok (after_second_factor (Store.scanUser id u)).1 u.
Proof.
  intros Hc. unfold after_second_factor. cbn [Store.MustChangePassword Store.scanUser].
  fold (must_change u). destruct (must_change u) eqn:E; (split; [|done]); [discriminate|done].
Qed.

Ltac session_state :=
  repeat match goal with
  | H : in_state _ _ = true |- _ => unfold in_state in H; apply String.eqb_eq in H
  end.

(** One condition of a handler, and the answers that touch neither store nor sessions. *)
Ltac branch :=
  match goal with
  | |- Inv (let '(_, _) := csrf_ok ?e ?r ?s ?w in _).2 =>
      let Hk := fresh "Hcsrf" in
      pose proof (csrf_ok_keeps e r s w ltac:(assumption)) as Hk;
      destruct (csrf_ok e r s w) as [? ?]; cbn [fst snd] in *
  | |- Inv (if ?b then _ else _).2 => destruct b eqn:?
  | |- Inv (match ?x with _ => _ end).2 => destruct x eqn:?
  end.

(** *** Sign-in *)

Lemma login_inv e r w : Inv w → Inv (login e r w).2.
Proof.
  intros HI. unfold login. pose proof (requestSession_keeps e r w HI) as [(HI1 & _) _].
  destruct (requestSession e r w) as [[s|] w1]; cbn [fst snd] in *; [by branch|].
  assert (good (db w1) (Session.StateAnonymous, 0, 0)) as Hg by by left.
  pose proof (Session.all_identities_Create _ (mgr w1) (now e) (session_random e) (change_outcome e)
    Session.StateAnonymous 0 0 (proj2 HI1) Hg) as Hc.
  destruct (Session.Create _ _ _ _ _ _ _) as [[s|err] m]; (split; [apply HI1|done]).
Qed.

Lemma refuse_login_inv e r s address l w : Inv w → Inv (refuse_login e r s address l w).2.
Proof. intros HI. unfold refuse_login. cbn [snd]. by apply recordAccess_keeps. Qed.

(** What a successful [Authenticate] says. *)
Lemma Authenticate_spec up d l pw user step :
  Authenticate up d l pw = Some (Some user, step) →
  ∃ id u, Schema.users d !! id = Some u ∧ user = Store.scanUser id u ∧ Store.is_active u = true ∧
    Schema.nocase_eq (Schema.login (Schema.u_identity u)) (trim_space l) = true ∧
    VerifyPassword pw (Schema.password_hash (Schema.u_credentials u)) = true ∧
    ((nextState step).1 = Session.StateAuthenticated → must_change u = false) ∧
    ((nextState step).1 = Session.StateAuthenticated ∨ (nextState step).1 = Session.StatePassword →
       Store.active_secret u = None ∧ Store.TwoFactorRequired user = false).
Proof.
  unfold Authenticate. cbv zeta. destruct (negb up); [done|].
  destruct (Store.FindByLogin d (trim_space l)) as [x|] eqn:Hf; [|done].
  apply Store.first_user_spec in Hf as (id & u & Hu & Hl & ->). cbv beta in Hl.
  destruct (VerifyPassword _ _) eqn:Hv; cbn [negb orb]; [|done].
  destruct (String.eqb (Store.Status _) "active") eqn:Ha; cbn [negb]; [|done].
  assert (is_valid (Store.TOTPSecret (Store.scanUser id u)) && is_valid (Store.TOTPEnabledAt (Store.scanUser id u)) = false →
    Store.active_secret u = None) as Hoff.
  { unfold Store.active_secret. cbn. destruct (Schema.totp_secret _), (Schema.totp_enabled_at _); done. }
  destruct (is_valid _ && is_valid _); [|specialize (Hoff eq_refl); destruct (Store.TwoFactorRequired _) eqn:H2];
    [| |destruct (Store.MustChangePassword _) eqn:Hm]; intros [= <- <-]; exists id, u;
    (split_and!; [done..| |]); cbn; try done; by intros [?|?].
Qed.

Lemma authenticate_inv e r w : Inv w →
  (∀ id u, Schema.users (db w) !! id = Some u → Store.is_active u = true →
     Schema.nocase_eq (Schema.login (Schema.u_identity u)) (trim_space (field r "login")) = true →
     VerifyPassword (field r "password") (Schema.password_hash (Schema.u_credentials u)) = true →
     (Allowed (login_limiter w) (now e) (requestAddress r) (field r "login")).1 = true →
     password_shown id) →
  Inv (authenticate flag_language e r w).2.
Proof.
  intros HI Hpw. unfold authenticate. cbv zeta. destruct (requestSession_keeps e r w HI) as [(HI1 & [Hu1 _] & Hl1) _].
  destruct (requestSession e r w) as [[s|] w1]; cbn [fst snd] in *; [|done]. branch; [done|]. branch; [done|].
  destruct (csrf_ok_keeps e r s w1 HI1) as (HI2 & [Hu2 _] & Hl2).
  destruct (csrf_ok e r s w1) as [ok w2]; cbn [fst snd] in *. branch; [done|].
  branch; [by apply refuse_login_inv|].
  rewrite <- Hl1, <- Hl2 in Hpw. destruct (Allowed _ _ _ _) as [allowed l]; cbn [fst] in Hpw.
  set (w3 := with_login_limiter w2 l). assert (Inv w3) as HI3 by done.
  destruct allowed; [|by apply refuse_login_inv]. cbn [negb].
  destruct (Authenticate _ _ _ _) as [[[user|] step]|] eqn:Ha; [|by apply refuse_login_inv|done].
  apply Authenticate_spec in Ha as (id & u & Hu & -> & Hact & Hlog & Hv & Hmust & Hoff).
  assert (Inv (with_login_limiter w3 (LimiterSuccess (login_limiter w3) (field r "login")))) as HI4 by done.
  set (w4 := with_login_limiter w3 _) in *.
  pose proof (recordAccess_keeps e r (Some (Store.UserID (Store.scanUser id u))) (Store.Login (Store.scanUser id u))
    "login_success" true w4 HI4) as (HI5 & [Hu5 _] & _).
  set (w5 := recordAccess _ _ _ _ _ _ _) in *. clearbody w5. destruct (nextState step) as [st target]; cbn [fst] in *.
  change (db w4) with (db w2) in Hu5. change (db w3) with (db w2) in Hu.
  assert (good (db w5) (st, id, Store.version u)) as Hg.
  { apply (good_intro _ _ _ _ u); [apply HI5|by rewrite Hu5|done| |].
    - apply (Hpw id u); [by rewrite <- Hu1, <- Hu2|done..].
    - split; [done|]. intros Hst secret Hs. destruct (Hoff Hst). congruence. }
  pose proof (Session.all_identities_Rotate _ (mgr w5) (now e) (session_random e) (change_outcome e)
    (Session.ID s) st id (Store.version u) (proj2 HI5) Hg) as Hr.
  cbn [Store.UserID Store.AuthVersion Store.scanUser]. fold (Store.version u).
  destruct (Session.Rotate _ _ _ _ _ _ _ _) as [[rotated|err] m]; cbn [snd] in Hr; [|by split; [apply HI5|]].
  assert (Inv (with_mgr w5 m)) as HI6 by by split; [apply HI5|].
  pose proof (preference_cookies_keeps e id (with_mgr w5 m) HI6) as [Hp _].
  destruct (preference_cookies _ _ _ _) as [cookies w6]. exact Hp.
Qed.

(** *** Preferences and pages *)

Lemma changeTheme_inv e r w : Inv w → Inv (changeTheme e r w).2.
Proof.
  intros HI. apply guarded_inv; [done|]. intros s u w1 HI1 _ _ _ _. cbv zeta.
  branch; [done|]. branch. destruct Hcsrf as [? _]. branch; [done|]. branch; [done|].
  destruct (StoreSettings.SetTheme _ _ _ _) as [d|] eqn:E; [|done].
  apply keeps_db; [done|]. by apply SetTheme_users in E.
Qed.

Lemma changeLanguage_inv e r w : Inv w → Inv (changeLanguage e r w).2.
Proof.
  intros HI. apply guarded_inv; [done|]. intros s u w1 HI1 _ _ _ _. cbv zeta.
  branch; [done|]. branch. destruct Hcsrf as [? _]. branch; [done|]. branch; [done|].
  destruct (StoreSettings.SetLanguage _ _ _ _) as [d|] eqn:E; [|done].
  apply keeps_db; [done|]. by apply SetLanguage_users in E.
Qed.

Lemma shown_inv e r sa ua w (k : Session.Session → Store.User → Answer) :
  Inv w → Inv (guarded e r sa ua w (λ s u w, (k s u, w))).2.
Proof. intros HI. by apply guarded_inv. Qed.

Lemma logout_inv e r w : Inv w → Inv (logout e r w).2.
Proof.
  intros HI. unfold logout. destruct (requestSession_keeps e r w HI) as [(HI1 & _) _].
  destruct (requestSession e r w) as [[s|] w1]; cbn [fst snd] in *; [|by apply reject_keeps].
  branch; [by apply reject_keeps|]. branch; [done|]. branch. destruct Hcsrf as [HI2 _]. branch; [done|].
  match goal with |- context [mgr ?x] => set (w3 := x) end.
  assert (Inv w3) as HI3 by (subst w3; case_match; [by apply recordAccess_keeps|done]). clearbody w3.
  pose proof (Session.all_identities_Destroy _ (mgr w3) (now e) (change_outcome e) (Session.ID s) (proj2 HI3)).
  destruct (Session.Destroy _ _ _ _) as [[err|] m]; (split; [apply HI3|done]).
Qed.

(** *** Password *)

(** A session for the account after a change: it is at the new version. *)
Lemma open_inv e r s st event target w d' id v user u u' w0 :
  Inv w → Store.users_step (db w) d' → Store.account_changed (db w) d' id v user u u' →
  password_shown id → account_ok st u' → db w0 = d' → mgr w0 = mgr w →
  let w1 := recordAccess e r (Some (Store.UserID user)) (Store.Login user) event true w0 in
  ∀ w2, db w2 = db w1 → mgr w2 = mgr w1 → Inv (rotate_to e s st user target w2).2.
Proof.
  intros HI Hs (_ & Hu' & -> & _) Hp Hok Hd0 Hm0 w1 w2 Hd Hm.
  assert (Inv w0) as HI0 by (pose proof (inv_step w d' HI Hs) as K; unfold Inv in *; by rewrite Hd0, Hm0).
  assert (keeps w0 w1) as (HI1 & [Hu1 _] & _) by by apply recordAccess_keeps. clearbody w1.
  assert (Inv w2) as HI2 by (unfold Inv; by rewrite Hd, Hm). apply rotate_to_inv; [done|]. rewrite Hd.
  apply (good_intro _ _ _ _ u'); [apply HI1|by rewrite Hu1, Hd0|done..].
Qed.

Lemma changePassword_inv e r w : Inv w → Inv (changePassword e r w).2.
Proof.
  intros HI. apply guarded_inv; [done|]. intros s u w1 HI1 Hst _ Hb Hg. cbv zeta.
  assert (Session.SState s ≠ Session.StateAnonymous ∧
    (Session.SState s = Session.StateAuthenticated ∨ Session.SState s = Session.StatePassword)) as [Hne Hst'].
  { apply orb_prop in Hst as [Hst|Hst]; session_state; rewrite Hst; (split; [discriminate|auto]). }
  destruct (behind_ok w1 s u Hb Hg Hne) as [Hp [_ Hcodes]].
  branch; [done|]. branch. destruct Hcsrf as (HI2 & [Hu2 _] & _). branch; [done|].
  destruct (Allowed _ _ _ _) as [allowed l]. branch; [done|]. branch; [done|]. branch; [done|].
  destruct (HashPassword _ _) as [newHash|]; [|done]. cbn [db with_password_limiter].
  set (w3 := with_password_limiter w0 l). assert (Inv w3) as HI3 by done.
  destruct (Store.ChangePassword _ _ _ _ _ _) as [[user d]|] eqn:E; [|by apply reject_keeps].
  pose proof E as Hstep. apply Store.ChangePassword_account in E as (x & x' & Hacc & _ & _ & _ & Hm & Hs).
  assert (x = u) as ->.
  { destruct Hacc as (Hx & _), Hb as (Hu & _). cbn in Hx. rewrite Hu2, Hu in Hx. congruence. }
  eapply (open_inv e r s Session.StateAuthenticated _ _ w3 d _ _ user u x'); cycle -2;
    [reflexivity|reflexivity|done| |exact Hacc|done| |reflexivity..].
  - apply (Store.store_step_users (λ _, None) (λ _, None)); [apply HI3|by eapply Store.do_ChangePassword].
  - split; [by unfold must_change; rewrite Hm|]. intros _ secret. rewrite Hs. by apply Hcodes.
Qed.

(** *** Second factor *)

Lemma PrepareTOTP_step w now_ id v secret user d : Inv w →
  Store.PrepareTOTP (db w) now_ id v secret = Ok (user, d) → Store.users_step (db w) d.
Proof.
  intros HI E. apply (Store.store_step_users (λ _, None) (λ _, None)); [apply HI|by eapply Store.do_PrepareTOTP].
Qed.

Lemma EnableTOTP_step w now_ id v secret user d : Inv w →
  Store.EnableTOTP (db w) now_ id v secret = Ok (user, d) → Store.users_step (db w) d.
Proof.
  intros HI E. apply (Store.store_step_users (λ _, None) (λ _, None)); [apply HI|by eapply Store.do_EnableTOTP].
Qed.

Lemma DisableTOTP_step w now_ id v user d : Inv w →
  Store.DisableTOTP (db w) now_ id v = Ok (user, d) → Store.users_step (db w) d.
Proof.
  intros HI E. apply (Store.store_step_users (λ _, None) (λ _, None)); [apply HI|by eapply Store.do_DisableTOTP].
Qed.

Lemma must_same (u u' : Schema.UserRow) :
  Schema.must_change_password (Schema.u_credentials u') = Schema.must_change_password (Schema.u_credentials u) →
  must_change u' = must_change u.
Proof. unfold must_change. by intros ->. Qed.

Definition code_evidence (e : Env) (r : HTTPRequest) : Prop :=
  ∀ secret, Verify (unix e) secret (field r "code") = true → code_shown secret.

Lemma renderTwoFactorSetup_inv csrf user failed status action w :
  Inv w → Inv (renderTwoFactorSetup qrcode csrf user failed status action, w).2.
Proof. done. Qed.

Lemma verifyTwoFactor_inv e r w : code_evidence e r → Inv w → Inv (verifyTwoFactor e r w).2.
Proof.
  intros Hcode HI. apply guarded_inv; [done|]. intros s u w1 HI1 Hst _ Hb Hg. cbv zeta. session_state.
  destruct (behind_ok w1 s u Hb Hg) as [Hp _]; [by rewrite Hst|].
  branch; [done|]. branch. destruct Hcsrf as (HI2 & [Hu2 _] & _). branch; [done|].
  destruct (Allowed _ _ _ _) as [allowed l]. branch; [by apply recordAccess_keeps|].
  match goal with |- context [recordAccess ?e ?r ?i ?a ?ev ?b ?x] =>
    assert (keeps x (recordAccess e r i a ev b x)) as (HI3 & [Hu3 _] & _) by (by apply recordAccess_keeps);
    set (w3 := recordAccess e r i a ev b x) in *; clearbody w3 end.
  bool_prop. pose proof (after_second_factor_ok (Session.UserID s) u) as Hok.
  destruct (after_second_factor _) as [st target]; cbn [fst] in Hok. apply rotate_to_inv; [done|].
  apply (good_intro _ _ _ _ u); [apply HI3| |done..|].
  - rewrite Hu3. cbn. rewrite Hu2. apply Hb.
  - apply Hok. intros secret Hs. apply Hcode. by rewrite <- (active_secret_of (Session.UserID s) u secret Hs).
Qed.

Lemma accountTwoFactorSetup_inv e r w : Inv w → Inv (accountTwoFactorSetup qrcode e r w).2.
Proof.
  intros HI. apply guarded_inv; [done|]. intros s u w1 HI1 _ _ _ _. cbv zeta. branch; [done|]. branch; [done|].
  destruct (GenerateTOTPSecret _) as [secret|]; [|done].
  destruct (Store.PrepareTOTP _ _ _ _ _) as [[user d]|] eqn:E; [|done].
  apply inv_step; [done|]. by apply PrepareTOTP_step in E.
Qed.

Lemma confirmAccountTwoFactorSetup_inv e r w :
  code_evidence e r → Inv w → Inv (confirmAccountTwoFactorSetup qrcode e r w).2.
Proof.
  intros Hcode HI. apply guarded_inv; [done|]. intros s u w1 HI1 Hst _ Hb Hg. cbv zeta. session_state.
  destruct (behind_ok w1 s u Hb Hg) as [Hp [Hm _]]; [by rewrite Hst|].
  branch. destruct Hcsrf as (HI2 & [Hu2 _] & _). branch; [done|]. bool_prop.
  destruct (Store.EnableTOTP _ _ _ _ _) as [[user d]|] eqn:E; [|done].
  pose proof (EnableTOTP_step w0 _ _ _ _ _ _ HI2 E) as Hstep.
  apply Store.EnableTOTP_account in E as (x & x' & Hacc & _ & Hmx & Hs).
  assert (x = u) as ->.
  { destruct Hacc as (Hx & _), Hb as (Hu & _). cbn in Hx. rewrite Hu2, Hu in Hx. congruence. }
  eapply (open_inv e r s Session.StateAuthenticated _ _ w0 d _ _ user u x'); cycle -2;
    [reflexivity|reflexivity|done|done|exact Hacc|done| |reflexivity..].
  split; [by rewrite (must_same u x'), Hm|]. intros _ secret. rewrite Hs. intros [= <-]. by apply Hcode.
Qed.

Lemma disableAccountTwoFactor_inv e r w : Inv w → Inv (disableAccountTwoFactor e r w).2.
Proof.
  intros HI. apply guarded_inv; [done|]. intros s u w1 HI1 Hst _ Hb Hg. cbv zeta. session_state.
  destruct (behind_ok w1 s u Hb Hg) as [Hp [Hm _]]; [by rewrite Hst|].
  branch. destruct Hcsrf as (HI2 & [Hu2 _] & _). branch; [done|].
  destruct (Store.DisableTOTP _ _ _ _) as [[user d]|] eqn:E; [|done].
  pose proof (DisableTOTP_step w0 _ _ _ _ _ HI2 E) as Hstep.
  apply Store.DisableTOTP_account in E as (x & x' & Hacc & _ & Hmx & Hs).
  assert (x = u) as ->.
  { destruct Hacc as (Hx & _), Hb as (Hu & _). cbn in Hx. rewrite Hu2, Hu in Hx. congruence. }
  eapply (open_inv e r s Session.StateAuthenticated _ _ w0 d _ _ user u x'); cycle -2;
    [reflexivity|reflexivity|done|done|exact Hacc|done| |reflexivity..].
  split; [by rewrite (must_same u x'), Hm|]. intros _ secret. by rewrite Hs.
Qed.

(** The page behind an enrolment runs with the secret prepared. *)
Lemma pendingEnrollmentUser_inv e r w k : Inv w →
  (∀ s u w', Inv w' → password_shown (Session.UserID s) → Schema.users (db w') !! Session.UserID s = Some u →
     Inv (k s (Store.scanUser (Session.UserID s) u) w').2) →
  Inv (pendingEnrollmentUser e r w k).2.
Proof.
  intros HI Hk. apply guarded_inv; [done|]. intros s u w1 HI1 Hst _ Hb Hg. session_state.
  destruct (behind_ok w1 s u Hb Hg) as [Hp _]; [by rewrite Hst|].
  branch; [apply Hk; [done..|apply Hb]|]. destruct (GenerateTOTPSecret _) as [secret|]; [|done].
  destruct (Store.PrepareTOTP _ _ _ _ _) as [[user d]|] eqn:E; [|by apply reject_keeps].
  pose proof (PrepareTOTP_step w1 _ _ _ _ _ _ HI1 E) as Hstep.
  apply Store.PrepareTOTP_account in E as (x & x' & (_ & Hx' & -> & _) & _).
  apply (Hk s x' (with_db w1 d)); [by apply inv_step|done..].
Qed.

Lemma twoFactorSetup_inv e r w : Inv w → Inv (twoFactorSetup qrcode e r w).2.
Proof. intros HI. by apply pendingEnrollmentUser_inv. Qed.

Lemma confirmTwoFactorSetup_inv e r w :
  code_evidence e r → Inv w → Inv (confirmTwoFactorSetup qrcode e r w).2.
Proof.
  intros Hcode HI. apply pendingEnrollmentUser_inv; [done|]. intros s u w1 HI1 Hp Hu. cbv zeta.
  branch; [done|]. branch. destruct Hcsrf as (HI2 & [Hu2 _] & _). branch; [done|].
  destruct (Allowed _ _ _ _) as [allowed l]. branch; [done|]. bool_prop. cbn [db with_two_factor_limiter].
  destruct (Store.EnableTOTP _ _ _ _ _) as [[user d]|] eqn:E; [|by apply reject_keeps].
  pose proof (EnableTOTP_step w0 _ _ _ _ _ _ HI2 E) as Hstep.
  apply Store.EnableTOTP_account in E as (x & x' & Hacc & _ & _ & Hs).
  pose proof (after_second_factor_ok (Session.UserID s) x') as Hok.
  assert (user = Store.scanUser (Session.UserID s) x') as Huser by (by destruct Hacc as (_ & _ & -> & _)).
  rewrite <- Huser in Hok. destruct (after_second_factor user) as [st target]; cbn [fst] in Hok.
  eapply (open_inv e r s st _ _ w0 d _ _ user x x'); cycle -2;
    [reflexivity|reflexivity|done|done|exact Hacc|done| |reflexivity..].
  apply Hok. intros secret. rewrite Hs. intros [= <-]. by apply Hcode.
Qed.
End Handlers.
End Evidence.

(** ** Runs *)

Inductive action :=
| DoLogin | DoAuthenticate | DoPage | DoTheme | DoLanguage | DoPassword | DoChangePassword
| DoTwoFactor | DoVerifyTwoFactor | DoAccountSetup | DoConfirmAccountSetup | DoDisableAccount
| DoSetup | DoConfirmSetup | DoLogout.

Record event := { ev_action : action; ev_env : Env; ev_request : HTTPRequest; ev_world : World }.

Section Runs.
Context `{UnicodeCase} `{Password.PasswordHash} `{NetIP}.
Context (qrcode : string → option string) (flag_language : string).
Context (bcrypt_generate parse_address : string → option string).
Context (sqlite_open : string → option Schema.Database).

(** The routes of [webapp.New]. *)
Definition serve (a : action) : Env → HTTPRequest → World → Answer * World :=
  match a with
  | DoLogin => login
  | DoAuthenticate => authenticate flag_language
  | DoPage => serve_page
  | DoTheme => changeTheme
  | DoLanguage => changeLanguage
  | DoPassword => password
  | DoChangePassword => changePassword
  | DoTwoFactor => twoFactor
  | DoVerifyTwoFactor => verifyTwoFactor
  | DoAccountSetup => accountTwoFactorSetup qrcode
  | DoConfirmAccountSetup => confirmAccountTwoFactorSetup qrcode
  | DoDisableAccount => disableAccountTwoFactor
  | DoSetup => twoFactorSetup qrcode
  | DoConfirmSetup => confirmTwoFactorSetup qrcode
  | DoLogout => logout
  end.

(** A start of the program without a session in its file. *)
Definition started (w : World) : Prop :=
  Session.sessions (mgr w) = ∅ ∧ Session.records (Session.disk (mgr w)) = [] ∧ Store.seq_ok (db w).

(** A backup that is not older than the sessions: for each of them, in the program or in its
    file, the account of the backup, if it has one, is at that version or a later one.
    Identifiers in use are not above the sequence of the table. *)
Definition recent_backup (backup : Schema.Database) (m : Session.Manager) : Prop :=
  Store.seq_ok backup ∧
  Session.all_identities (λ i, let '(st, id, v) := i in st = Session.StateAnonymous ∨
    (id ≤ Schema.users_seq backup ∧ ∀ u, Schema.users backup !! id = Some u → v ≤ Store.version u)) m.

(** The requests served, most recent first, each with the state it found.  Between two of
    them any operation on the accounts may run, other tables may change, a recent backup
    may be restored, by a restore that reports success or that fails before the tables are
    copied, and the program may be restarted on its session file. *)
Inductive app_run (w0 : World) : list event → World → Prop :=
| run_start : app_run w0 [] w0
| run_serve tr w a e r : app_run w0 tr w →
    app_run w0 ({| ev_action := a; ev_env := e; ev_request := r; ev_world := w |} :: tr) (serve a e r w).2
| run_store tr w d : app_run w0 tr w → Store.store_step bcrypt_generate parse_address (db w) d →
    app_run w0 tr (with_db w d)
| run_restore tr w backup content calls : app_run w0 tr w →
    sqlite_open content = Some backup → recent_backup backup (mgr w) →
    (Store.RestoreDatabase sqlite_open calls (db w) content).1 = None ∨ (Store.RestoreDatabase sqlite_open calls (db w) content).2 = db w →
    app_run w0 tr (with_db w (Store.RestoreDatabase sqlite_open calls (db w) content).2)
| run_tables tr w d : app_run w0 tr w → same_users (db w) d → app_run w0 tr (with_db w d)
| run_restart tr w c path dir now_ m : app_run w0 tr w →
    Session.NewPersistent c path dir (Session.disk (mgr w)) now_ = Ok m →
    app_run w0 tr {| db := db w; mgr := m; login_limiter := NewLoginLimiter;
                     password_limiter := NewLoginLimiter; two_factor_limiter := NewLoginLimiter; sent := sent w |}.

(** The request signed in to account [id]: its password was right, the account active and
    the limiter open. *)
Definition password_presented (ev : event) (id : Z) : Prop :=
  ev_action ev = DoAuthenticate ∧
  ∃ u, Schema.users (db (ev_world ev)) !! id = Some u ∧ Store.is_active u = true ∧
    Schema.nocase_eq (Schema.login (Schema.u_identity u)) (trim_space (field (ev_request ev) "login")) = true ∧
    VerifyPassword (field (ev_request ev) "password") (Schema.password_hash (Schema.u_credentials u)) = true ∧
    (Allowed (login_limiter (ev_world ev)) (now (ev_env ev)) (requestAddress (ev_request ev))
       (field (ev_request ev) "login")).1 = true.

(** The request gave a code of the secret valid at its time. *)
Definition code_presented (ev : event) (secret : string) : Prop :=
  ev_action ev ∈ [DoVerifyTwoFactor; DoConfirmSetup; DoConfirmAccountSetup] ∧
  Verify (unix (ev_env ev)) secret (field (ev_request ev) "code") = true.

Definition run_inv (tr : list event) : World → Prop :=
  Inv (λ secret, ∃ ev, ev ∈ tr ∧ code_presented ev secret) (λ id, ∃ ev, ev ∈ tr ∧ password_presented ev id).

Lemma Inv_impl (P P' : string → Prop) (Q Q' : Z → Prop) w :
  (∀ s, P s → P' s) → (∀ i, Q i → Q' i) → Inv P Q w → Inv P' Q' w.
Proof.
  intros HP HQ [Hs Ha]. split; [done|]. revert Ha. apply Session.all_identities_impl.
  intros [[st id] v] [?|(Hid & Hq & Hu)]; [by left|right]. split_and!; [done|by apply HQ|].
  intros u Hl. destruct (Hu u Hl) as [? Hok]. split; [done|]. intros Hv. destruct (Hok Hv) as [? Hc].
  split; [done|]. intros Hst secret Hsec. by eapply HP, Hc.
Qed.

Lemma serve_inv tr w a e r :
  let ev := {| ev_action := a; ev_env := e; ev_request := r; ev_world := w |} in
  run_inv tr w → run_inv (ev :: tr) (serve a e r w).2.
Proof.
  intros ev HI.
  assert (run_inv (ev :: tr) w) as HI'.
  { revert HI. apply Inv_impl; intros x (y & ? & ?); (exists y; split; [by right|done]). }
  unfold run_inv in *. clear HI. set (C := λ secret, ∃ ev0, _ ∧ code_presented ev0 secret) in *.
  set (Q := λ id, ∃ ev0, _ ∧ password_presented ev0 id) in *.
  assert (a ∈ [DoVerifyTwoFactor; DoConfirmSetup; DoConfirmAccountSetup] → code_evidence C e r) as Hcode.
  { intros Ha secret Hv. exists ev. split; [left|]. by split. }
  destruct a; cbn [serve].
  - by apply login_inv.
  - apply authenticate_inv; [done|]. intros id u Hu Ha Hl Hv Hal. exists ev. split; [left|]. split; [done|]. by exists u.
  - by apply shown_inv.
  - by apply changeTheme_inv.
  - by apply changeLanguage_inv.
  - by apply shown_inv.
  - by apply changePassword_inv.
  - by apply shown_inv.
  - apply verifyTwoFactor_inv; [apply Hcode; set_solver|done].
  - by apply accountTwoFactorSetup_inv.
  - apply confirmAccountTwoFactorSetup_inv; [apply Hcode; set_solver|done].
  - by apply disableAccountTwoFactor_inv.
  - by apply twoFactorSetup_inv.
  - apply confirmTwoFactorSetup_inv; [apply Hcode; set_solver|done].
  - by apply logout_inv.
Qed.

(** Every session of an account is behind the versions of a recent backup once restored. *)
Lemma restore_inv P Q w backup content calls :
  Inv P Q w → sqlite_open content = Some backup → recent_backup backup (mgr w) →
  (Store.RestoreDatabase sqlite_open calls (db w) content).1 = None →
  Inv P Q (with_db w (Store.RestoreDatabase sqlite_open calls (db w) content).2).
Proof.
  intros [Hs Ha] Ho [Hq Hb] Hok. destruct (Store.RestoreDatabase_cases sqlite_open calls (db w) content) as [->|(b & Hb' & Hc)]; [done|].
  simplify_eq. destruct Hc as [[_ [? He]]|Hr]; [by rewrite Hok in He|].
  apply Store.raise_versions_spec in Hr as (Hstep & Hrows & Hseq & Hdom). split; [by apply Store.users_step_seq in Hstep|].
  assert (∀ i, good P Q (db w) i → (let '(st, id, v) := i in st = Session.StateAnonymous ∨
    (id ≤ Schema.users_seq backup ∧ ∀ u, Schema.users backup !! id = Some u → v ≤ Store.version u)) →
    good P Q (Store.RestoreDatabase sqlite_open calls (db w) content).2 i) as Hgood.
  { intros [[st id] v] [?|(_ & Hp & _)] [?|(Hid & Hv)]; [by left..|]. right. rewrite Hseq. split_and!; [done..|].
    intros u' Hu'. destruct (proj1 (Hdom id) ltac:(by exists u')) as [u Hu]. destruct (Hrows id u Hu) as (x & Hx & Hxv & _).
    rewrite Hu' in Hx. injection Hx as <-. specialize (Hv u Hu). split; lia. }
  destruct Ha as [Ha1 Ha2], Hb as [Hb1 Hb2]. split.
  - intros id s Hl. apply Hgood; [by eapply Ha1|by eapply Hb1].
  - intros item Hi. apply Hgood; [by apply Ha2|by apply Hb2].
Qed.

Lemma app_run_inv w0 tr w : started w0 → app_run w0 tr w → run_inv tr w.
Proof.
  intros (Hs & Hd & Hq). induction 1 as [|tr w a e r _ IH|tr w d _ IH Hst|tr w b content calls _ IH Ho Hb Hc|tr w d _ IH Hst|tr w c path dir n m _ IH Hm].
  - split; [done|]. split; [by rewrite Hs|]. rewrite Hd. by intros item ?%not_elem_of_nil.
  - by apply serve_inv.
  - apply inv_step; [done|]. by apply Store.store_step_users in Hst; [|apply IH].
  - destruct Hc as [Hc|Hc]; [by eapply restore_inv|]. rewrite Hc. by destruct IH.
  - apply inv_step; [done|]. by apply same_users_step.
  - split; [apply IH|]. cbn [mgr db]. apply (Session.all_identities_NewPersistent _ _ _ _ _ _ _ Hm).
    exact (proj2 (proj2 IH)).
Qed.

(** C1: a page of the application is served to a session only when: its account exists, is
    active and still at the version the session was opened for; no password change is due;
    an earlier request of the run signed in to that account with its password, through an
    open limiter; and when the account has a second factor in force, an earlier request
    gave a code of that very secret, valid when it was given.  This holds after any
    interleaving of requests from any clients, of operations on the accounts, of restores
    of a backup that is not older than the sessions (in which no account is at a version
    below that of one of its sessions), of restarts on the session file, and of failures of
    the file, the random source and the database.  Two restores are left out: of an older
    backup, which can make a version valid again, and one that fails after the tables were
    copied. *)
Theorem served_page_provenance w0 tr w e r s user :
  started w0 → app_run w0 tr w → page (serve_page e r w).1 = Served s user →
  ∃ u, Schema.users (db w) !! Session.UserID s = Some u ∧ user = Store.scanUser (Session.UserID s) u ∧
    Store.is_active u = true ∧ Store.version u = Session.AuthVersion s ∧
    Store.MustChangePassword user = false ∧
    (∃ ev, ev ∈ tr ∧ password_presented ev (Session.UserID s)) ∧
    ∀ secret, Store.active_secret u = Some secret → ∃ ev, ev ∈ tr ∧ code_presented ev secret.
Proof.
  intros Hs Hrun Hpage. apply app_run_inv in Hrun as HI; [|done]. unfold run_inv in HI.
  destruct (requestSession_keeps _ _ e r w HI) as [Hkeep Hgood].
  unfold serve_page, authenticatedUser in Hpage.
  match type of Hpage with context [guarded e r ?sa ?ua w ?k] =>
    destruct (guarded_cases e r sa ua w k) as [[id Hg]|[Hg|(s1 & u & Hf & Hst & Hb & _ & _ & Hg)]] end;
    rewrite Hg in Hpage; [done|done|].
  cbn in Hpage. injection Hpage as <- <-. unfold in_state in Hst. apply String.eqb_eq in Hst.
  pose proof (good_keeps _ _ w _ _ Hkeep (Hgood s1 Hf)) as Hgood1.
  destruct (behind_ok _ _ _ s1 u Hb Hgood1) as [Hp [Hm Hc]]; [by rewrite Hst|].
  destruct Hkeep as (_ & [Hu _] & _), Hb as (Hul & Ha & Hv). rewrite Hu in Hul. exists u.
  split_and!; [done..| |done|intros; apply Hc; auto]. by apply Hm.
Qed.
End Runs.

(** ** The gate *)

Section Gate.
Context `{UnicodeCase} `{Password.PasswordHash} `{NetIP}.

(** The gate of every page: with the database up, the page is served exactly when the
    cookie names a live authenticated session whose account exists, is active and has the
    session's version; any other request is sent to the login page with a cookie that
    erases the browser's; with the database down nothing is served. *)
Theorem gate_spec e r w :
  ((∃ s user, page (serve_page e r w).1 = Served s user) ↔ db_up e = true ∧ granted e r w) ∧
  (¬ granted e r w → db_up e = true → (serve_page e r w).1 = redirect [Session.ExpiredCookie] "/login") ∧
  (page (serve_page e r w).1 ≠ NoPage → ∃ id s, session_cookie r = Some id ∧
     Session.live (mgr w) (now e) id = Some s ∧ Session.SState s = Session.StateAuthenticated).
Proof.
  unfold serve_page, authenticatedUser, guarded, granted.
  pose proof (requestSession_live e r w) as Hlive. pose proof (requestSession_db e r w) as Hdb.
  destruct (requestSession e r w) as [found w1]; cbn [fst snd] in *. subst found.
  destruct (session_cookie r) as [id|]; [destruct (Session.live (mgr w) (now e) id) as [s|] eqn:El|];
    cbn [fmap option_fmap option_map].
  2,3: split_and!; [split; [by intros (? & ? & ?)|naive_solver]|done|done].
  unfold in_state. cbn [Session.SState Session.touch Session.UserID Session.AuthVersion].
  destruct (String.eqb_spec (Session.SState s) Session.StateAuthenticated) as [Hst|Hst]; cbn [negb].
  2: split_and!; [split; [by intros (? & ? & ?)|naive_solver]|done|done].
  destruct (db_up e) eqn:Hup; cbn [negb];
    [|split_and!; [split; [by intros (? & ? & ?)|by intros [? _]]|done|naive_solver]].
  rewrite Store.FindByID_eq, Hdb. unfold Store.session_accepted.
  destruct (Schema.users (db w) !! Session.UserID s) as [u|] eqn:Hu; cbn [fmap option_fmap option_map].
  2: split_and!; [split; [by intros (? & ? & ?)|naive_solver]|done|done].
  destruct (String.eqb (Store.Status _) "active") eqn:Ha; cbn [negb orb].
  2: { change (Store.is_active u = false) in Ha.
       split_and!; [split; [by intros (? & ? & ?)|]|done|done].
       intros (_ & i & s1 & [= ->] & Hl & _ & x & Hx & Hxa & _). congruence. }
  destruct (Z.eqb_spec (Store.AuthVersion (Store.scanUser (Session.UserID s) u)) (Session.AuthVersion s)) as [Hv|Hv]; cbn [negb orb].
  - split_and!; [split; [|by eauto]|intros []|by eauto]; [intros _; split; [done|]|]; by exists id, s; split_and!; [..|exists u].
  - split_and!; [split; [by intros (? & ? & ?)|]|done|done].
    intros (_ & i & s1 & [= ->] & Hl & _ & x & Hx & _ & Hxv). rewrite El in Hl. injection Hl as <-.
    rewrite Hu in Hx. injection Hx as <-. done.
Qed.

(** The address the limiter counts: a direct client cannot choose it, whatever headers
    it sends; behind a local proxy it is the last entry of X-Forwarded-For, the one the
    proxy wrote, whatever the client put before it. *)
Theorem requestAddress_spec r :
  (∀ text, ParseIP (remoteAddress (RemoteAddr r)) = Some (text, false) → requestAddress r = remoteAddress (RemoteAddr r)) ∧
  ∀ text sent last address loopback,
    ParseIP (remoteAddress (RemoteAddr r)) = Some (text, true) →
    X_Forwarded_For r = last ∨ X_Forwarded_For r = sent +++ "," +++ last →
    contains_byte "," last = false → ParseIP (trim_space last) = Some (address, loopback) →
    requestAddress r = address.
Proof.
  unfold requestAddress. split; [by intros text ->|].
  intros text sent last address loopback -> Hx Hc Hp.
  assert (∃ l, rev (split "," (X_Forwarded_For r)) = last :: l) as [l ->].
  { destruct Hx as [-> | ->].
    - rewrite split_field by done. by exists [].
    - change (sent +++ "," +++ last) with (sent +++ String "," last). rewrite split_app, (split_field _ last) by done.
      rewrite rev_app_distr. cbn. eauto. }
  cbn [first_parsed]. by rewrite Hp.
Qed.

(** ** Ending sessions *)

(** Signing out: when the answer sends the browser to the login page, the session its
    cookie named is gone. *)
Theorem logout_spec e r w id :
  Session.wf (mgr w) → session_cookie r = Some id → code (logout e r w).1 = StatusSeeOther →
  Session.sessions (mgr (logout e r w).2) !! id = None.
Proof.
  intros Hw Hc. unfold logout, requestSession. rewrite Hc.
  pose proof (Session.Get_wf (mgr w) (now e) (get_outcome e) id Hw) as Hw1.
  destruct (Session.Get_cases (mgr w) (now e) (get_outcome e) id) as [_ Hg].
  pose proof (Session.Get_live (mgr w) (now e) (get_outcome e) id) as Hl.
  destruct (Session.Get _ _ _ _) as [[s|] m]; cbn [fst snd] in *.
  2:{ intros _. cbn. destruct (Session.sessions (mgr w) !! id) eqn:E; [case_match|];
        destruct Hg as [? ->]; [apply lookup_delete_eq|done|done]. }
  assert (Session.sessions m !! id = Some s ∧ Session.ID s = id ∧ id ≠ "") as (Hs & Hid & Hne).
  { destruct (Session.sessions (mgr w) !! id) as [s0|] eqn:E; [|by destruct Hg].
    case_match; [by destruct Hg|]. destruct Hg as [[= ->] Hm].
    assert (Session.sessions m !! id = Some (Session.touch s0 (now e))) as Hs by (by rewrite Hm, lookup_insert_eq).
    split_and!; [done|apply (proj2 (proj2 Hw1) _ _ Hs)|].
    intros ->. by rewrite (Session.wf_empty_key m Hw1) in Hs. }
  destruct (in_state Session.StateAuthenticated s) eqn:Hst; cbn [negb].
  - destruct (is_form r); [|done]. cbn [negb]. destruct (csrf_ok _ _ _ _) as [[|] w2]; [|done]. cbn [negb].
    match goal with |- context [Session.Destroy ?m ?n ?o ?i] =>
      destruct (Session.Destroy_cases m n o i) as [_ Hd]; destruct (Session.Destroy m n o i) as [[err|] m3] end;
      cbn [fst snd] in *; [done|]. intros _. cbn [mgr with_mgr]. rewrite Hd, Hid. apply lookup_delete_eq.
  - intros _. unfold reject, invalidate. rewrite Hid. apply String.eqb_neq in Hne. rewrite Hne.
    cbn [mgr with_mgr snd]. unfold Session.Destroy. cbv zeta. rewrite Hs. cbn [Session.was_authenticated].
    unfold in_state in Hst. rewrite Hst. apply lookup_delete_eq.
Qed.

Lemma rotate_to_cookie e s st user target w id : Session.wf (mgr w) →
  set_cookies (rotate_to e s st user target w).1 = [Session.Cookie id] →
  db (rotate_to e s st user target w).2 = db w ∧
  ∃ new, Session.sessions (mgr (rotate_to e s st user target w).2) !! id = Some new ∧
    Session.identity new = (st, Store.UserID user, Store.AuthVersion user).
Proof.
  intros Hw. unfold rotate_to.
  pose proof (Session.Rotate_cases (mgr w) (now e) (session_random e) (change_outcome e) (Session.ID s) st
    (Store.UserID user) (Store.AuthVersion user) Hw) as [_ Hr].
  destruct (Session.Rotate _ _ _ _ _ _ _ _) as [[new|err] m]; cbn [fst snd] in *; [|done].
  intros [= <-]. split; [done|]. exists new. destruct Hr as (Hs & _ & (Hst & Huid & Hver & _) & _).
  cbn [mgr with_mgr]. rewrite Hs, lookup_insert_eq. split; [done|]. unfold Session.identity. by rewrite Hst, Huid, Hver.
Qed.

(** C10: changing the password: a fresh session comes back only when the current password
    was given; the account then has the hash of the new one and no obligation to change
    it, every session opened before, for any earlier version, is refused from then on,
    whatever is done to the accounts, restores of backups taken since included, and the
    fresh session is authenticated and accepted.  (The identifiers in use are not above the
    sequence of the table.) *)
Theorem changePassword_revokes e r w id :
  Session.wf (mgr w) → Store.seq_ok (db w) → set_cookies (changePassword e r w).1 = [Session.Cookie id] →
  let w' := (changePassword e r w).2 in
  ∃ user u u' new,
    Schema.users (db w) !! user = Some u ∧ Schema.users (db w') !! user = Some u' ∧
    VerifyPassword (field r "current_password") (Schema.password_hash (Schema.u_credentials u)) = true ∧
    HashPassword (field r "new_password") (password_salt e) = Ok (Schema.password_hash (Schema.u_credentials u')) ∧
    must_change u' = false ∧
    (∀ bcrypt_generate parse_address sqlite_open later v,
       Store.store_life bcrypt_generate parse_address sqlite_open (db w') later → v ≤ Store.version u →
       ¬ Store.session_accepted later user v) ∧
    Session.sessions (mgr w') !! id = Some new ∧
    Session.identity new = (Session.StateAuthenticated, user, Store.version u') ∧
    Store.session_accepted (db w') user (Store.version u').
Proof.
  intros Hw Hseq. unfold changePassword, passwordUser. cbv zeta.
  match goal with |- context [guarded e r ?sa ?ua w ?k] =>
    destruct (guarded_cases e r sa ua w k) as [[i ->]|[->|(s & u & Hf & _ & Hb & _ & _ & ->)]] end; [done..|].
  pose proof (requestSession_db e r w) as Hdb. pose proof (requestSession_wf e r w Hw) as Hw1.
  destruct (requestSession e r w) as [found w1]; cbn [fst snd] in *.
  destruct (is_form r); [|done]. cbn [negb]. destruct (csrf_ok_frame e r s w1) as [Hdb2 Hw2]. specialize (Hw2 Hw1).
  destruct (csrf_ok e r s w1) as [[|] w2]; [|done]. cbn [negb fst snd] in *.
  destruct (Allowed _ _ _ _) as [[|] l]; [|done]. cbn [negb orb].
  destruct (VerifyPassword (field r "current_password") _) eqn:Hcur; [|done]. cbn [negb].
  destruct (String.eqb (field r "new_password") _); [|done]. cbn [negb].
  destruct (VerifyPassword (field r "new_password") _); [done|].
  destruct (HashPassword _ _) as [newHash|] eqn:Hhash; [|done]. cbn [db with_password_limiter].
  destruct (Store.ChangePassword _ _ _ _ _ _) as [[user d]|] eqn:E; [|done].
  assert (Store.users_step (db w2) d) as Hstep
    by (apply (Store.store_step_users (λ _, None) (λ _, None)); [by rewrite Hdb2, Hdb|by eapply Store.do_ChangePassword]).
  apply Store.ChangePassword_account in E as (x & x' & (Hx & Hx' & -> & _ & _ & Ha) & _ & Hh & Hv & Hm & _).
  match goal with |- context [rotate_to _ _ _ _ _ ?x] => set (w3 := x) end.
  assert (same_users d (db w3) ∧ mgr w3 = mgr w2) as [[Hu3 Hq3] Hm3].
  { subst w3. match goal with |- context [recordAccess ?e ?r ?i ?l ?ev ?b ?x] =>
      exact (recordAccess_frame e r i l ev b x) end. }
  intros Hset. apply rotate_to_cookie in Hset as (Hdb3 & new & Hnew & Hid); [|by rewrite Hm3].
  cbn in Hx, Hv. rewrite Hdb2, Hdb in Hx. destruct Hb as (Hu & _). rewrite Hdb in Hu.
  assert (x = u) as -> by congruence. rewrite Hdb3, Hu3. exists (Session.UserID s), u, x', new.
  split_and!; [done|done|done|by rewrite Hh|by unfold must_change; rewrite Hm| |done|done|].
  - intros bcrypt_generate parse_address sqlite_open later v Hlater Hle. revert Hlater.
    apply Store.superseded_final.
    + intros i Hi. rewrite Hu3 in Hi. rewrite Hq3. apply Store.users_step_seq in Hstep; [by apply Hstep|by rewrite Hdb2, Hdb].
    + split; [|intros y Hy; rewrite Hu3 in Hy; cbn [Store.UserID Store.scanUser] in Hx'; rewrite Hx' in Hy; injection Hy as <-;
        unfold Store.version in *; lia].
      rewrite Hq3. destruct Hstep as (Hq & _). rewrite Hdb2, Hdb in Hq. transitivity (Schema.users_seq (db w)); [|done].
      apply Hseq. by exists u.
  - exists x'. rewrite Hu3. done.
Qed.
End Gate.

(** ** A sign-in *)

#[local] Instance toy_ip : NetIP := {| ParseIP := λ s, if String.eqb s "" then None else Some (s, false) |}.
#[local] Existing Instance ascii_case.
#[local] Existing Instance toy_hash.

Definition sample_secret : string := "GEZDGNBVGY3TQOJQGEZDGNBVGY3TQOJQ".

(** An account with a second factor. *)
Definition protect (u : Schema.UserRow) : Schema.UserRow :=
  {| Schema.u_identity := Schema.u_identity u; Schema.u_rights := Schema.u_rights u; Schema.u_stamps := Schema.u_stamps u;
     Schema.u_credentials := {| Schema.password_hash := sample_hash; Schema.must_change_password := 0;
       Schema.auth_version := 3; Schema.two_factor_required := 1;
       Schema.totp_secret := Some sample_secret; Schema.totp_enabled_at := Some "2026-01-01" |} |}.

Definition sample_world : World :=
  let d := Store.sample_db sample_hash 3 in
  {| db := Schema.with_users d (protect <$> Schema.users d) 2 ∅; mgr := Session.sample_manager;
     login_limiter := NewLoginLimiter; password_limiter := NewLoginLimiter; two_factor_limiter := NewLoginLimiter; sent := [] |}.

Definition sample_env (seed : string) : Env :=
  {| now := 59 * 10^9; stamp := "2026-01-02"; db_up := true;
     session_random := seed +++ Session.sample_random; totp_random := None; password_salt := None;
     get_outcome := Session.PersistOK; csrf_outcome := Session.PersistOK; change_outcome := Session.PersistOK |}.

Definition cookie_of (a : Answer) : option string := Session.cookie_Value <$> head (set_cookies a).
Definition token_of (p : Page) : string :=
  match p with LoginPage t _ _ => t | TwoFactorPage t _ _ => t | _ => "" end.
Definition sample_request (cookie : option string) (fields : list (string * string)) : HTTPRequest :=
  {| session_cookie := cookie; content_type := "application/x-www-form-urlencoded"; form := Some (list_to_map fields);
     RemoteAddr := "192.0.2.7:4711"; X_Forwarded_For := ""; X_Real_IP := ""; UserAgent := "Mozilla" |}.

Definition sample_serve : action → Env → HTTPRequest → World → Answer * World := serve Some "fr".

Definition step1 : Answer * World := Eval vm_compute in
  sample_serve DoLogin (sample_env "a") (sample_request None []) sample_world.
Definition request2 : HTTPRequest :=
  sample_request (cookie_of step1.1)
    [("_token", token_of (page step1.1)); ("login", "ROOT "); ("password", "correct horse")].
Definition step2 : Answer * World := Eval vm_compute in sample_serve DoAuthenticate (sample_env "b") request2 step1.2.
Definition request3 : HTTPRequest := sample_request (cookie_of step2.1) [].
Definition step3 : Answer * World := Eval vm_compute in sample_serve DoTwoFactor (sample_env "c") request3 step2.2.
Definition request4 : HTTPRequest :=
  sample_request (cookie_of step2.1) [("_token", token_of (page step3.1)); ("code", "287 082")].
Definition step4 : Answer * World := Eval vm_compute in sample_serve DoVerifyTwoFactor (sample_env "d") request4 step3.2.
Definition request5 : HTTPRequest := sample_request (cookie_of step4.1) [].

Definition sample_trace : list event :=
  [{| ev_action := DoVerifyTwoFactor; ev_env := sample_env "d"; ev_request := request4; ev_world := step3.2 |};
   {| ev_action := DoTwoFactor; ev_env := sample_env "c"; ev_request := request3; ev_world := step2.2 |};
   {| ev_action := DoAuthenticate; ev_env := sample_env "b"; ev_request := request2; ev_world := step1.2 |};
   {| ev_action := DoLogin; ev_env := sample_env "a"; ev_request := sample_request None []; ev_world := sample_world |}].

Lemma sample_started : started sample_world.
Proof.
  split_and!; [done|done|]. intros i Hi.
  change (is_Some ((protect <$> Schema.users (Store.sample_db sample_hash 3)) !! i)) in Hi.
  rewrite lookup_fmap, fmap_is_Some in Hi. exact (Store.sample_seq_ok sample_hash 3 i Hi).
Qed.

Lemma run_serve_eq tr w w' a e r :
  app_run Some "fr" Store.no_hash Some (λ _, None) sample_world tr w → w' = (sample_serve a e r w).2 →
  app_run Some "fr" Store.no_hash Some (λ _, None) sample_world
    ({| ev_action := a; ev_env := e; ev_request := r; ev_world := w |} :: tr) w'.
Proof. intros Hr ->. by apply run_serve. Qed.

Lemma sample_run : app_run Some "fr" Store.no_hash Some (λ _, None) sample_world sample_trace step4.2.
Proof. do 4 (eapply run_serve_eq; [|vm_compute; reflexivity]). apply run_start. Qed.

(** The page is served; the run shows the code that opened the session. *)
Lemma served_page_provenance_witness :
  ∃ s user, page (serve_page (sample_env "e") request5 step4.2).1 = Served s user ∧
    ∃ ev, ev ∈ sample_trace ∧ code_presented ev sample_secret.
Proof.
  destruct (page (serve_page (sample_env "e") request5 step4.2).1) as [| | | | | | | | |s user] eqn:E;
    [vm_compute in E; discriminate..|].
  exists s, user. split; [reflexivity|].
  destruct (served_page_provenance Some "fr" Store.no_hash Some (λ _, None) sample_world sample_trace step4.2 (sample_env "e")
    request5 s user sample_started sample_run E) as (u & Hu & _ & _ & _ & _ & _ & Hc).
  apply Hc. assert (Session.UserID s = 1) as Hid by (vm_compute in E; injection E as <- <-; reflexivity).
  rewrite Hid in Hu. clear E Hid Hc. vm_compute in Hu. injection Hu as <-. vm_compute. reflexivity.
Defined.

(** A client behind the local proxy that sends a header of its own. *)
Definition proxy_ip : NetIP := {| ParseIP := λ s,
  if String.eqb s "" then None else Some (s, String.eqb s "127.0.0.1") |}.
Definition spoofed : HTTPRequest :=
  {| session_cookie := None; content_type := ""; form := None; RemoteAddr := "127.0.0.1:9000";
     X_Forwarded_For := "10.0.0.1, 10.0.0.2" +++ "," +++ " 203.0.113.9"; X_Real_IP := "10.0.0.3"; UserAgent := "" |}.

Lemma requestAddress_spec_witness : requestAddress (H1 := proxy_ip) spoofed = "203.0.113.9".
Proof.
  apply (proj2 (requestAddress_spec (H1 := proxy_ip) spoofed) "127.0.0.1" "10.0.0.1, 10.0.0.2" " 203.0.113.9" _ false);
    [vm_compute; reflexivity|right; reflexivity|vm_compute; reflexivity..].
Defined.

Lemma step4_wf : Session.wf (mgr step4.2).
Proof. apply (bool_decide_eq_true_1 _). vm_compute. reflexivity. Qed.
Lemma step4_seq : Store.seq_ok (db step4.2).
Proof. exact (proj1 (app_run_inv Some "fr" Store.no_hash Some (λ _, None) sample_world sample_trace step4.2 sample_started sample_run)). Qed.

Definition sample_session : string := default "" (cookie_of step4.1).
Definition sample_token : string :=
  match Session.sessions (mgr step4.2) !! sample_session with Some s => Session.CSRFToken s | None => "" end.

Lemma logout_spec_witness :
  is_valid (Session.sessions (mgr step4.2) !! sample_session) = true ∧
  let r := sample_request (Some sample_session) [("_token", sample_token)] in
  Session.sessions (mgr (logout (sample_env "e") r step4.2).2) !! sample_session = None.
Proof.
  split; [vm_compute; reflexivity|]. intros r. apply logout_spec; [exact step4_wf|reflexivity|].
  vm_compute. reflexivity.
Defined.

Definition password_request : HTTPRequest := sample_request (Some sample_session)
  [("_token", sample_token); ("current_password", "correct horse"); ("new_password", "battery staple");
   ("new_password_confirmation", "battery staple")].
Definition password_env : Env :=
  let e := sample_env "e" in
  {| now := now e; stamp := stamp e; db_up := true; session_random := session_random e; totp_random := None;
     password_salt := Some sample_salt; get_outcome := get_outcome e; csrf_outcome := csrf_outcome e;
     change_outcome := change_outcome e |}.
Definition password_answer : Answer * World := Eval vm_compute in changePassword password_env password_request step4.2.

Lemma changePassword_revokes_witness :
  ∃ user u', Schema.users (db password_answer.2) !! user = Some u' ∧
    ¬ Store.session_accepted (db password_answer.2) user 3 ∧ Store.session_accepted (db password_answer.2) user 4.
Proof.
  assert (changePassword password_env password_request step4.2 = password_answer) as E by (vm_compute; reflexivity).
  destruct (changePassword_revokes password_env password_request step4.2 (default "" (cookie_of password_answer.1)))
    as (user & u & u' & new & Hu & Hu' & _ & _ & _ & Hold & Hs & Hi & Hnew).
  - exact step4_wf.
  - exact step4_seq.
  - rewrite E. vm_compute. reflexivity.
  - rewrite E in Hu', Hold, Hs, Hnew. clear E. assert (user = 1 ∧ Store.version u' = 4) as [-> Hv].
    { clear - Hs Hi. vm_compute in Hs. injection Hs as <-. unfold Session.identity in Hi. cbn in Hi.
      injection Hi as <- Hi. split; [reflexivity|symmetry; exact Hi]. }
    exists 1, u'. split; [exact Hu'|]. rewrite Hv in Hnew. split; [|exact Hnew].
    apply (Hold Store.no_hash Some (λ _, None)); [apply Store.life_start|]. vm_compute in Hu. injection Hu as <-. vm_compute. discriminate.
Defined.

Lemma gate_spec_witness :
  granted (sample_env "e") request5 step4.2 ∧
  (serve_page (sample_env "e") request3 step4.2).1 = redirect [Session.ExpiredCookie] "/login".
Proof.
  split.
  - apply (proj1 (gate_spec (sample_env "e") request5 step4.2)).
    destruct (page (serve_page (sample_env "e") request5 step4.2).1) as [| | | | | | | | |s user] eqn:E;
      [vm_compute in E; discriminate..|]. by exists s, user.
  - apply (proj1 (proj2 (gate_spec (sample_env "e") request3 step4.2))); [|reflexivity].
    intros (id & s & Hc & Hl & _). injection Hc as <-. vm_compute in Hl. discriminate.
Defined.
