(* ===== verification/Crontab.v ===== *)
(** * Crontab lines: [domain/cron/jobs.go] and [domain/cron/manage.go], the pure part

    Reading a crontab line into its schedule, user and command; the markers that make
    a task a managed one; the records of a user's crontab; the jobs listed from a
    crontab file or from the anacron table.  The regular expressions with capture
    groups are written as the scanners they denote: their classes are disjoint, so
    the greedy match is the only one, except for the final [.+] after [\s+], whose
    backtracking [tail_group] writes out.  [\s] is the ASCII class of the regexp
    package, [trim_space] and [fields] know every Unicode space. *)

From S2P Require Import Prelude GoStrings StringFacts Regex Codec.
From Stdlib Require Import Ascii String.
#[local] Open Scope string_scope.
#[local] Open Scope list_scope.
#[local] Open Scope Z_scope.

(** ** Scanners *)

(** The class [\s] of the regexp package: tab, LF, FF, CR, space. *)
Definition re_space (c : ascii) : bool :=
  let b := byte c in (b =? 32) || (b =? 9) || (b =? 10) || (b =? 12) || (b =? 13).
Definition word_byte (c : ascii) : bool :=
  is_upper c || is_lower c || is_digit c || Ascii.eqb c "_".

(** The longest prefix in a class, and the rest. *)
Fixpoint span (p : ascii → bool) (s : string) : string * string :=
  match s with
  | EmptyString => ("", "")
  | String c s' => if p c then let (a, b) := span p s' in (String c a, b) else ("", s)
  end.

(** [n] groups [(\S+)], each after [\s*]: the words and the rest. *)
Fixpoint word_groups (n : nat) (s : string) : option (list string * string) :=
  match n with
  | O => Some ([], s)
  | S n =>
      let (_, r) := span re_space s in
      let (w, r') := span (λ c, negb (re_space c)) r in
      if String.eqb w "" then None
      else match word_groups n r' with
           | Some (ws, rest) => Some (w :: ws, rest)
           | None => None
           end
  end.

Fixpoint last_byte (s : string) : option ascii :=
  match s with
  | EmptyString => None
  | String c EmptyString => Some c
  | String _ s' => last_byte s'
  end.

(** The end of a pattern, [\s+(.+)$]: on a rest of spaces only, the group gives the
    spaces up to the last one back. *)
Definition tail_group (s : string) : option string :=
  let (ws, r) := span re_space s in
  if String.eqb ws "" then None
  else if String.eqb r "" then
    match last_byte ws with
    | Some c => if (2 <=? slen ws) && negb (Ascii.eqb c nl) then Some (String c "") else None
    | None => None
    end
  else if contains_byte nl r then None else Some r.

(** [^\s*(\S+)\s+ ... (.+)$] with [n] words. *)
Definition line_groups (n : nat) (s : string) : option (list string * string) :=
  match word_groups n s with
  | Some (ws, r) => match tail_group r with Some c => Some (ws, c) | None => None end
  | None => None
  end.

Definition safeName (s : string) : bool :=
  full (plus (Cls (cls (λ c, is_upper c || is_lower c || is_digit c) "_-"))) s.

(** [environment]: a name, spaces, an equals sign at the head of the line. *)
Definition environment (line : string) : bool :=
  match line with
  | String c r =>
      (is_upper c || is_lower c || Ascii.eqb c "_") &&
      (let (_, r1) := span word_byte r in
       let (_, r2) := span re_space r1 in has_prefix r2 "=")
  | EmptyString => false
  end.

Definition macros : list string :=
  ["reboot"; "yearly"; "annually"; "monthly"; "weekly"; "daily"; "midnight"; "hourly"].

(** [\b] after a macro name: the next byte is no word byte. *)
Definition word_boundary (r : string) : bool :=
  match r with String c _ => negb (word_byte c) | EmptyString => true end.
Definition macroLine (s : string) : bool :=
  existsb (λ m, has_prefix s ("@" +++ m) && word_boundary (sdrop (S (String.length m)) s)) macros.
Definition macroExact (s : string) : bool := existsb (λ m, String.eqb s ("@" +++ m)) macros.

Definition errorsText := string.

(** [parseJobLine]: schedule, user, command. *)
Definition parseJobLine (line implicitUser : string) : res errorsText (string * string * string) :=
  let trimmed := trim_space line in
  if has_prefix trimmed "@" then
    guard! macroLine trimmed else "invalid cron macro" in
    if String.eqb implicitUser "" then
      match line_groups 2 line with
      | Some ([schedule; owner], command) => Ok (schedule, owner, command)
      | _ => Err "invalid cron macro"
      end
    else match line_groups 1 line with
         | Some ([schedule], command) => Ok (schedule, implicitUser, command)
         | _ => Err "invalid cron macro"
         end
  else if String.eqb implicitUser "" then
    match line_groups 6 line with
    | Some ([a; b; c; d; e; owner], command) => Ok (join " " [a; b; c; d; e], owner, command)
    | _ => Err "invalid cron line"
    end
  else match line_groups 5 line with
       | Some (parts, command) => Ok (join " " parts, implicitUser, command)
       | None => Err "invalid cron line"
       end.

(** ** Identifiers and markers *)

Definition taskIdentifier (prefix : string) (parts : list string) : string :=
  prefix +++ "-" +++ hex_encode (stake 16 (sha256 (join snul parts))).

Definition normalizeSchedule (value : string) : string := join " " (fields value).

Definition legacyTaskIdentifier (owner schedule command : string) (occurrence : Z) : string :=
  taskIdentifier "legacy"
    [owner; normalizeSchedule schedule; trim_space command; itoa occurrence].

Definition hex_class : rx := Cls is_hex_lower.
(** [managedID]: a UUID of version 1 to 5. *)
Definition uuid_rx : rx :=
  Rep is_hex_lower 8 8 ;;; lit "-" ;;; Rep is_hex_lower 4 4 ;;; lit "-" ;;;
  Cls (between "1" "5") ;;; Rep is_hex_lower 3 3 ;;; lit "-" ;;;
  Cls (λ c, contains_byte c "89ab") ;;; Rep is_hex_lower 3 3 ;;; lit "-" ;;;
  Rep is_hex_lower 12 12.
Definition managedID (s : string) : bool := full uuid_rx s.
Definition legacyID (s : string) : bool := full (lit "legacy-" ;;; Rep is_hex_lower 32 32) s.
Definition executionID (s : string) : bool := full (Rep is_hex_lower 32 32) s.

Inductive marker_state := ACTIVE | SUSPENDED.
#[global] Instance marker_state_eq_dec : EqDecision marker_state.
Proof. solve_decision. Defined.

Definition marker_prefix : string := "# AEGISADMIN-TASK: ".

(** The optional third group: empty, or a space and a payload. *)
Definition marker_payload (r : string) : option string :=
  match r with
  | EmptyString => Some ""
  | String c payload =>
      if Ascii.eqb c " " && negb (String.eqb payload "") && sforall is_b64url payload
      then Some payload else None
  end.

(** [managedMarker.FindStringSubmatch]: identifier, state, payload. *)
Definition managedMarker (line : string) : option (string * marker_state * string) :=
  if has_prefix line marker_prefix then
    let r := sdrop 19 line in
    let id := stake 36 r in
    let t := sdrop 36 r in
    if managedID id then
      if has_prefix t " ACTIVE" then
        match marker_payload (sdrop 7 t) with Some p => Some (id, ACTIVE, p) | None => None end
      else if has_prefix t " SUSPENDED" then
        match marker_payload (sdrop 10 t) with Some p => Some (id, SUSPENDED, p) | None => None end
      else None
    else None
  else None.

Definition activeMarker (id : string) : string := "# AEGISADMIN-TASK: " +++ id +++ " ACTIVE".
Definition suspendedMarker (id line : string) : string :=
  "# AEGISADMIN-TASK: " +++ id +++ " SUSPENDED " +++ b64_encode URLAlphabet line.

(** The line a suspended marker carries, refused when it would be several. *)
Definition suspended_line (payload : string) : option string :=
  match b64_decode URLAlphabet false payload with
  | Some decoded =>
      if String.eqb decoded "" || contains_byte cr decoded || contains_byte nl decoded
      then None else Some decoded
  | None => None
  end.

(** ** The records of a user's crontab *)

Record crecord := Rec {
  rec_id : string; rec_line : string; rec_schedule : string; rec_command : string;
  rec_start : nat; rec_end : nat; rec_enabled : bool; rec_managed : bool }.

Definition splitContent (content : string) : list string :=
  let content := trim_suffix (crlf_to_lf content) snl in
  if String.eqb content "" then [] else split nl content.

Definition errInvalid : errorsText := "invalid".

(** Blank lines, comments and settings hold no task. *)
Definition no_task (line : string) : bool :=
  String.eqb line "" || has_prefix line "#" || environment line.

Definition occurrence_key (schedule command : string) : string :=
  normalizeSchedule schedule +++ snul +++ trim_space command.

Definition count_of (occurrences : gmap string Z) (key : string) : Z :=
  default 0 (occurrences !! key).

(** The loop of [parseRecords] from [index] on, the count of each legacy task so far
    in [occurrences]. *)
Fixpoint records_from (owner : string) (index : nat) (occurrences : gmap string Z)
    (lines : list string) : res errorsText (list crecord) :=
  match lines with
  | [] => Ok []
  | raw :: rest =>
      let line := trim_space raw in
      match managedMarker line with
      | Some (id, SUSPENDED, payload) =>
          match suspended_line payload with
          | None => Err errInvalid
          | Some decoded =>
              let! '(schedule, _, command) := parseJobLine decoded owner in
              let! records := records_from owner (S index) occurrences rest in
              Ok (Rec id decoded schedule command index index false true :: records)
          end
      | Some (id, ACTIVE, payload) =>
          match rest with
          | [] => Err errInvalid
          | taskLine :: rest' =>
              guard! String.eqb payload "" && negb (no_task (trim_space taskLine)) else errInvalid in
              let! '(schedule, _, command) := parseJobLine taskLine owner in
              let! records := records_from owner (S (S index)) occurrences rest' in
              Ok (Rec id taskLine schedule command index (S index) true true :: records)
          end
      | None =>
          if has_prefix line "# AEGISADMIN-TASK:" then Err errInvalid
          else if no_task line then records_from owner (S index) occurrences rest
          else
            let! '(schedule, _, command) := parseJobLine raw owner in
            let key := occurrence_key schedule command in
            let n := count_of occurrences key + 1 in
            let! records := records_from owner (S index) (<[key := n]> occurrences) rest in
            Ok (Rec (legacyTaskIdentifier owner schedule command n) raw schedule command
                    index index true false :: records)
      end
  end.
Definition parseRecords (owner : string) (lines : list string) : res errorsText (list crecord) :=
  records_from owner 0 ∅ lines.

(** [findRecord]: the only record with the identifier. *)
Definition findRecord (records : list crecord) (id : string) : option crecord :=
  match filter (λ r, rec_id r = id) records with
  | [r] => Some r
  | _ => None
  end.

Definition replace (lines : list string) (start stop : nat) (replacement : list string) : list string :=
  take start lines ++ replacement ++ drop (S stop) lines.

(** ** Validation of a new task *)

Definition macro_or_five (normalized : string) : bool :=
  if has_prefix normalized "@" then macroExact normalized
  else Nat.eqb (List.length (fields normalized)) 5.

Definition forbidden : string := String nul (String cr snl).
Definition validTaskInput (schedule command : string) : bool :=
  if String.eqb schedule "" || (128 <? rune_count schedule) || contains_any schedule forbidden
     || String.eqb (trim_space command) "" || (8192 <? rune_count command)
     || contains_any command forbidden
  then false
  else macro_or_five (normalizeSchedule schedule).

(** The line written for a task. *)
Definition task_line (schedule command : string) : string :=
  normalizeSchedule schedule +++ " " +++ trim_space command.

(** [install]: the text written for a list of lines. *)
Definition content_of (lines : list string) : string :=
  if bool_decide (lines = []) then "" else join snl lines +++ snl.

Definition hex_at (value : string) (from n : nat) : string := hex_encode (stake n (sdrop from value)).
Definition set_version (v : ascii) : ascii := chr (Z.lor (Z.land (byte v) 15) 64).
Definition set_variant (v : ascii) : ascii := chr (Z.lor (Z.land (byte v) 63) 128).
Fixpoint set_byte (n : nat) (f : ascii → ascii) (s : string) : string :=
  match s, n with
  | EmptyString, _ => EmptyString
  | String c s', O => String (f c) s'
  | String c s', S n => String c (set_byte n f s')
  end.
(** [newUUID] from the sixteen bytes the random generator gave. *)
Definition newUUID (random : option string) : option string :=
  match random with
  | Some value =>
      let value := set_byte 8 set_variant (set_byte 6 set_version value) in
      Some (join "-" [hex_at value 0 4; hex_at value 4 2; hex_at value 6 2; hex_at value 8 2; hex_at value 10 6])
  | None => None
  end.

(** ** The jobs listed from a file *)

Record Job := mkJob {
  job_ID : string; job_Source : string; job_Type : string; job_User : string;
  job_Schedule : string; job_Command : string; job_Line : option Z;
  job_Enabled : bool; job_Editable : bool; job_Managed : bool }.

(** [jobParser.append]: the job built, under a derived identifier when it has none. *)
Definition build_job (source kind owner schedule command : string) (line : option Z)
    (id : string) (enabled editable managed : bool) : res errorsText Job :=
  guard! negb (String.eqb owner "" || String.eqb schedule "" || String.eqb command "")
    else "incomplete cron job" in
  let id := if String.eqb id "" then
              taskIdentifier "readonly"
                [source; kind; owner; schedule; command; match line with Some l => itoa l | None => "None" end]
            else id in
  Ok (mkJob id source kind owner schedule command line enabled editable managed).

Definition periods : list string := ["hourly"; "daily"; "weekly"; "monthly"].
Definition period_end (r : string) : bool :=
  match r with
  | EmptyString => true
  | String c _ => re_space c || Ascii.eqb c ";" || Ascii.eqb c "}"
  end.
(** [periodicPath]: the leftmost [/etc/cron.PERIOD], its period. *)
Fixpoint periodicPath (s : string) : option string :=
  match List.find (λ p, has_prefix s ("/etc/cron." +++ p) &&
                        period_end (sdrop (10 + String.length p) s)) periods with
  | Some p => Some p
  | None => match s with EmptyString => None | String _ s' => periodicPath s' end
  end.

Section jobs.
(** The users whose crontab may be managed, and [expandPeriodic]: the executable
    scripts of [/etc/cron.PERIOD], read from the file system. *)
Context (editable : string → bool) (expand_periodic : string → string → res errorsText (list Job)).
Context (path kind implicitUser : string) (expand : bool).

(** The loop of [parseCrontab]; [pending] is the identifier of an active marker
    waiting for its line. *)
Fixpoint crontab_from (index : Z) (pending : string) (occurrences : gmap string Z)
    (lines : list string) : res errorsText (list Job) :=
  match lines with
  | [] => if String.eqb pending "" then Ok [] else Err "orphan managed task"
  | raw :: rest =>
      let line := trim_space raw in
      match managedMarker line with
      | Some (id, state, payload) =>
          if String.eqb implicitUser "" || negb (String.eqb pending "") then Err "invalid managed task"
          else match state with
          | ACTIVE =>
              guard! String.eqb payload "" else "invalid active task" in
              crontab_from (index + 1) id occurrences rest
          | SUSPENDED =>
              match suspended_line payload with
              | None => Err "invalid suspended task"
              | Some decoded =>
                  let! '(schedule, owner, command) := parseJobLine decoded implicitUser in
                  let! job := build_job path "user" owner schedule command (Some index) id
                                false (editable owner) true in
                  let! jobs := crontab_from (index + 1) pending occurrences rest in
                  Ok (job :: jobs)
              end
          end
      | None =>
          if has_prefix line "# AEGISADMIN-TASK:" then Err "invalid managed marker"
          else if no_task line then crontab_from (index + 1) pending occurrences rest
          else
            let! '(schedule, owner, command) := parseJobLine line implicitUser in
            match periodicPath command, expand with
            | Some period, true =>
                guard! String.eqb pending "" else "managed periodic expansion" in
                let! scripts := expand_periodic period schedule in
                let! jobs := crontab_from (index + 1) pending occurrences rest in
                Ok (scripts ++ jobs)
            | _, _ =>
                let key := occurrence_key schedule command in
                let legacy := String.eqb pending "" && negb (String.eqb implicitUser "") in
                let n := count_of occurrences key + 1 in
                let occurrences := if legacy then <[key := n]> occurrences else occurrences in
                let id := if legacy then legacyTaskIdentifier implicitUser schedule command n else pending in
                let! job := build_job path kind owner schedule command (Some index) id true
                              (String.eqb kind "user" && editable owner) (negb (String.eqb pending "")) in
                let! jobs := crontab_from (index + 1) "" occurrences rest in
                Ok (job :: jobs)
            end
      end
  end.

(** [parseCrontab] on the bytes of the file. *)
Definition parseCrontab (content : string) : res errorsText (list Job) :=
  guard! valid_utf8 content else "invalid UTF-8" in
  crontab_from 1 "" ∅ (split nl (crlf_to_lf content)).

(** The loop of [parseAnacron] over the lines of the anacron table [path]. *)
Fixpoint anacron_from (index : Z) (lines : list string) : res errorsText (list Job) :=
  match lines with
  | [] => Ok []
  | raw :: rest =>
      let line := trim_space raw in
      if no_task line then anacron_from (index + 1) rest
      else match line_groups 3 line with
      | None => Err "invalid anacron line"
      | Some (parts, command) =>
          let schedule := "@anacron " +++ join " " parts in
          let! here :=
            match periodicPath command with
            | Some period => expand_periodic period schedule
            | None => res_map (λ job, [job])
                        (build_job path "anacron" "root" schedule command (Some index) "" true false false)
            end in
          let! jobs := anacron_from (index + 1) rest in
          Ok (here ++ jobs)
      end
  end.
Definition parseAnacron (content : string) : res errorsText (list Job) :=
  guard! valid_utf8 content else "invalid UTF-8" in
  anacron_from 1 (split nl content).
End jobs.

(** ** Scanning a line back *)

Lemma span_app p a b :
  sforall p a = true → (∀ c s, b = String c s → p c = false) → span p (a +++ b) = (a, b).
Proof.
  induction a as [|c a IH]; intros Ha Hb.
  - destruct b as [|d b]; [done|]. simpl. by rewrite (Hb d b).
  - simpl in Ha. bool_prop. rewrite sapp_cons. simpl. by rewrite H, IH.
Qed.

Lemma span_spec p s a b :
  span p s = (a, b) → s = a +++ b ∧ sforall p a = true ∧ ∀ c t, b = String c t → p c = false.
Proof.
  revert a b. induction s as [|c s IH]; intros a b; simpl; [by intros [= <- <-]|].
  destruct (p c) eqn:Hc; [|intros [= <- <-]; split_and!; [done..|]; by intros ?? [= <- <-]].
  destruct (span p s) as [a' b'] eqn:E. intros [= <- <-].
  destruct (IH _ _ eq_refl) as (-> & Ha & Hb). split_and!; [done| |done]. simpl. by rewrite Hc.
Qed.

Lemma re_space_width c s : re_space c = true → space_width (String c s) ≠ 0%nat.
Proof.
  intros Hc. simpl. replace (ascii_space c) with true; [done|].
  unfold re_space, ascii_space in *. bool_prop. symmetry.
  apply orb_true_iff. repeat (apply orb_prop in Hc as [Hc|Hc]); bool_prop; [left; lia|right; lia..].
Qed.

Lemma spaceless_no_re_space w : spaceless w = true → sforall (λ c, negb (re_space c)) w = true.
Proof.
  induction w as [|c w IH]; [done|]. intros Hw. cbn [spaceless] in Hw.
  destruct (space_width (String c w)) eqn:Ew; [|done]. simpl.
  destruct (re_space c) eqn:Hc; [by apply (re_space_width c w) in Hc|]. by rewrite IH.
Qed.

Definition head_free (p : ascii → bool) (s : string) : Prop := ∀ c t, s = String c t → p c = false.

Lemma trim_head_free s : head_free re_space (trim_space s).
Proof.
  intros c t Heq. destruct (re_space c) eqn:Hc; [|done].
  apply (re_space_width c t) in Hc. rewrite <- Heq in Hc.
  by destruct Hc; apply trim_space_nil_iff_left; rewrite Heq.
Qed.

Lemma field_head_free w s : is_field w → head_free re_space (w +++ s).
Proof.
  intros [Hne Hw] c t. destruct w as [|d w]; [done|]. rewrite sapp_cons. intros [= <- _].
  apply spaceless_no_re_space in Hw. simpl in Hw. bool_prop. done.
Qed.

Lemma tail_group_command c :
  c ≠ "" → head_free re_space c → contains_byte nl c = false → tail_group (" " +++ c) = Some c.
Proof.
  intros Hc Hh Hn. unfold tail_group. rewrite (span_app re_space " " c) by done.
  simpl. by rewrite (proj2 (String.eqb_neq c "") Hc), Hn.
Qed.

Lemma word_groups_words ws c :
  Forall is_field ws → ws ≠ [] →
  word_groups (List.length ws) (join " " ws +++ " " +++ c) = Some (ws, " " +++ c).
Proof.
  intros Hws. assert (∀ pre ws, Forall is_field ws → ws ≠ [] → sforall re_space pre = true →
    word_groups (List.length ws) (pre +++ join " " ws +++ " " +++ c) = Some (ws, " " +++ c)) as Hx.
  { clear Hws ws. intros pre ws Hws. revert pre.
    induction Hws as [|w ws Hw Hws IH]; intros pre Hne Hpre; [done|].
    assert (∃ rest, join " " (w :: ws) +++ " " +++ c = w +++ String " " rest ∧
      word_groups (List.length ws) (String " " rest) = Some (ws, " " +++ c)) as (rest & -> & Hr).
    { destruct (decide (ws = [])) as [->|Hn].
      - by exists c.
      - exists (join " " ws +++ " " +++ c). split; [|apply (IH " "); done].
        rewrite join_cons_ne by done. by rewrite !sapp_assoc. }
    cbn [List.length word_groups]. rewrite span_app by (done || by apply field_head_free).
    destruct Hw as [Hw1 Hw2]. rewrite span_app.
    - by rewrite (proj2 (String.eqb_neq w "") Hw1), Hr.
    - by apply spaceless_no_re_space.
    - by intros ?? [= <- _]. }
  intros Hne. by apply (Hx "").
Qed.

Lemma line_groups_words ws c :
  Forall is_field ws → ws ≠ [] → c ≠ "" → head_free re_space c → contains_byte nl c = false →
  line_groups (List.length ws) (join " " ws +++ " " +++ c) = Some (ws, c).
Proof.
  intros. unfold line_groups. rewrite word_groups_words by done. by rewrite tail_group_command.
Qed.

(** ** Trimming a line made of a word and a trimmed rest *)

Lemma space_width_bound s : (space_width s <= 3)%nat.
Proof. destruct s as [|a [|b [|c s]]]; space_cases; lia. Qed.

(** No code point of white space straddles an ASCII byte. *)
Lemma space_width_before_ascii a c s :
  is_ascii_byte c = true → a ≠ "" → (space_width (a +++ String c s) <= String.length a)%nat.
Proof.
  intros Hc Ha. destruct (space_width a) eqn:Ew.
  - rewrite space_width_app_ascii by done. lia.
  - rewrite space_width_app by (by rewrite Ew).
    clear. destruct a as [|x [|y [|z a]]]; space_cases; simpl; lia.
Qed.

Lemma all_space_boundary a c s : ∀ k, (k <= String.length a)%nat →
  is_ascii_byte c = true → all_space_from k (a +++ String c s) = true → all_space (String c s) = true.
Proof.
  intros k Hk Hc. revert k Hk. induction a as [|d a IH]; intros k Hk.
  - simpl in Hk. by replace k with 0%nat by lia.
  - rewrite sapp_cons. cbn [all_space_from]. destruct k as [|k].
    + pose proof (space_width_before_ascii (String d a) c s Hc ltac:(done)) as Hw.
      rewrite sapp_cons in Hw. cbn [String.length] in Hk, Hw.
      destruct (space_width _); [done|]. apply IH. lia.
    + apply IH. simpl in Hk. lia.
Qed.

Lemma all_space_trim s : all_space s = true → trim_right_space s = "".
Proof. destruct s; [done|]. cbn [trim_right_space]. by intros ->. Qed.

Lemma trim_right_tail a c s :
  is_ascii_byte c = true → s ≠ "" → trim_right_space s = s →
  (space_width (String c s) ≤ 1)%nat → trim_right_space (a +++ String c s) = a +++ String c s.
Proof.
  intros Hc Hs Ht Hw. assert (all_space (String c s) = false) as Hall.
  { destruct (all_space (String c s)) eqn:E; [|done]. exfalso. apply Hs.
    unfold all_space in E. cbn [all_space_from] in E.
    destruct (space_width _) as [|[|n]]; [done| |lia].
    by rewrite <- Ht, all_space_trim. }
  induction a as [|d a IH].
  - change ("" +++ String c s) with (String c s). cbn [trim_right_space]. by rewrite Hall, Ht.
  - rewrite sapp_cons. cbn [trim_right_space]. rewrite IH.
    destruct (all_space (String d _)) eqn:E; [|done].
    pose proof (all_space_boundary (String d a) c s 0 ltac:(lia) Hc E). congruence.
Qed.

(** A field, a space and a trimmed text: nothing left to trim. *)
Lemma trim_space_task w c :
  w ≠ "" → space_width w = 0%nat → c ≠ "" → trim_space c = c →
  trim_space (w +++ " " +++ c) = w +++ " " +++ c.
Proof.
  intros Hw Hw0 Hc Ht. unfold trim_space. rewrite trim_left_id.
  - apply (trim_right_tail w " "%char c); [done|done| |simpl; lia].
    rewrite <- Ht. unfold trim_space. apply trim_right_idemp.
  - by apply (space_width_app_ascii w " "%char).
Qed.

(** ** A validated task, read back *)

Lemma trim_left_from_bytes p s : ∀ k, sforall p s = true → sforall p (trim_left_from k s) = true.
Proof. intros k. destruct (trim_left_from_spec s k) as [_ [u Hu]]. rewrite Hu at 1. apply sforall_suffix. Qed.

Lemma trim_space_bytes p s : sforall p s = true → sforall p (trim_space s) = true.
Proof.
  intros Hs. apply (trim_left_from_bytes p s 0) in Hs. unfold trim_space.
  destruct (trim_right_prefix (trim_left_space s)) as [t Ht].
  change (trim_left_from 0 s) with (trim_left_space s) in Hs.
  rewrite Ht, sforall_app in Hs. by apply andb_prop in Hs as [? _].
Qed.

Lemma trim_space_free c s : contains_byte c s = false → contains_byte c (trim_space s) = false.
Proof. rewrite !contains_byte_sforall. apply trim_space_bytes. Qed.

Lemma fields_from_bytes p s : ∀ k cur,
  sforall p cur = true → sforall p s = true → Forall (λ f, sforall p f = true) (fields_from k cur s).
Proof.
  induction s as [|c s IH]; intros k cur Hc Hs; cbn [fields_from].
  - by apply flush_Forall.
  - simpl in Hs. apply andb_prop in Hs as [Hd Hs]. destruct k as [|k]; [|by apply IH].
    destruct (space_width _); [|by apply flush_Forall; [|apply IH]].
    apply IH; [|done]. rewrite sforall_app, Hc. simpl. by rewrite Hd.
Qed.

Lemma join_bytes p sep l :
  sforall p sep = true → Forall (λ f, sforall p f = true) l → sforall p (join sep l) = true.
Proof.
  intros Hsep. induction 1 as [|f l Hf Hl IH]; [done|].
  destruct l; [done|]. rewrite join_cons_ne by done. by rewrite !sforall_app, Hf, Hsep, IH.
Qed.

Lemma normalize_bytes p s :
  p " "%char = true → sforall p s = true → sforall p (normalizeSchedule s) = true.
Proof.
  intros Hp Hs. apply join_bytes; [by simpl; rewrite Hp|]. by apply fields_from_bytes.
Qed.

Lemma fields_normalize s : fields (normalizeSchedule s) = fields s.
Proof. unfold normalizeSchedule. apply fields_join, fields_is_field. Qed.

(** What [validTaskInput] grants. *)
Lemma validTaskInput_spec schedule command :
  validTaskInput schedule command = true →
  (has_prefix (normalizeSchedule schedule) "@" = true ∧ macroExact (normalizeSchedule schedule) = true ∨
   has_prefix (normalizeSchedule schedule) "@" = false ∧ List.length (fields schedule) = 5%nat) ∧
  trim_space command ≠ "" ∧
  (∀ c, contains_byte c forbidden = true → contains_byte c schedule = false ∧ contains_byte c command = false).
Proof.
  unfold validTaskInput. match goal with |- context [if ?b then _ else _] => destruct b eqn:Hb end; [done|].
  unfold macro_or_five. rewrite fields_normalize.
  destruct (String.eqb schedule ""), (128 <? rune_count schedule); try done. simpl in Hb.
  destruct (contains_any schedule forbidden) eqn:Hs; [done|]. simpl in Hb.
  destruct (String.eqb_spec (trim_space command) "") as [|Hc]; [done|]. simpl in Hb.
  destruct (8192 <? rune_count command); [done|]. simpl in Hb. intros Hv. split_and!; [|done|].
  - destruct (has_prefix _ "@"); [by left|right]. split; [done|]. by apply Nat.eqb_eq.
  - intros c Hf. split; by eapply contains_any_free.
Qed.

Lemma macroExact_word s : macroExact s = true → s ≠ "" ∧ sforall graphic s = true.
Proof.
  unfold macroExact. rewrite existsb_exists. intros (m & Hm & ->%String.eqb_eq).
  simpl in Hm. by repeat destruct Hm as [<-|Hm].
Qed.

Lemma macroLine_space s t : macroExact s = true → macroLine (s +++ " " +++ t) = true.
Proof.
  unfold macroExact. rewrite existsb_exists. intros (m & Hm & ->%String.eqb_eq).
  simpl in Hm. by repeat destruct Hm as [<-|Hm]; [destruct t..|].
Qed.

Lemma has_prefix_at s t : s ≠ "" → has_prefix (s +++ t) "@" = has_prefix s "@".
Proof. destruct s as [|c s]; [done|]. intros _. unfold has_prefix. simpl. case_match; [|done]. by destruct s, t. Qed.

(** The line written for a valid task is read back as that task, whoever reads it. *)
Lemma parseJobLine_task schedule command owner :
  validTaskInput schedule command = true → owner ≠ "" →
  parseJobLine (task_line schedule command) owner = Ok (normalizeSchedule schedule, owner, trim_space command).
Proof.
  intros (Hv & Hc & Hfree)%validTaskInput_spec Ho.
  destruct (Hfree nl) as [_ Hnl]; [done|]. apply trim_space_free in Hnl.
  assert (∃ ws, Forall is_field ws ∧ ws ≠ [] ∧ normalizeSchedule schedule = join " " ws ∧
    (List.length ws = 1%nat ∧ macroExact (join " " ws) = true ∧ has_prefix (join " " ws) "@" = true ∨
     List.length ws = 5%nat ∧ has_prefix (join " " ws) "@" = false)) as (ws & Hws & Hne & Hn & Hk).
  { destruct Hv as [[Hp Hm]|[Hp Hl]].
    - exists [normalizeSchedule schedule]. destruct (macroExact_word _ Hm) as (? & ?).
      split_and!; [by constructor; [apply graphic_field|]|done..|left; done].
    - exists (fields schedule). split_and!; [apply fields_is_field|by intros E; rewrite E in Hl|done|by right]. }
  assert (Hjoin : join " " ws ≠ "" ∧ space_width (join " " ws) = 0%nat).
  { clear -Hws Hne. destruct ws as [|w ws]; [done|]. inv Hws. destruct H1 as [Hw1 Hw2].
    assert (space_width w = 0%nat) by (destruct w; [done|]; by apply spaceless_cons in Hw2 as [? _]).
    destruct ws; [done|]. rewrite join_cons_ne by done. split; [by destruct w|].
    by apply (space_width_app_ascii w " "%char). }
  destruct Hjoin as [Hj1 Hj2].
  unfold parseJobLine, task_line. rewrite Hn.
  rewrite trim_space_task by (done || apply trim_space_idemp).
  rewrite has_prefix_at by done. rewrite (proj2 (String.eqb_neq owner "") Ho).
  assert (Hlg := line_groups_words ws (trim_space command) Hws Hne Hc (trim_head_free _) Hnl).
  destruct Hk as [(Hl & Hm & Hp)|(Hl & Hp)]; rewrite Hp; rewrite Hl in Hlg; rewrite Hlg.
  - rewrite macroLine_space by done. by destruct ws as [|w [|]].
  - done.
Qed.

(** ** The markers, read back *)

(** The length of the strings of a pattern without choice. *)
Fixpoint rx_width (r : rx) : option nat :=
  match r with
  | Eps => Some 0
  | Cls _ => Some 1
  | Rep _ lo hi => if Nat.eqb lo hi then Some lo else None
  | Cat r1 r2 => match rx_width r1, rx_width r2 with Some a, Some b => Some (a + b) | _, _ => None end
  | _ => None
  end%nat.

Lemma Lang_width r s n : Lang r s → rx_width r = Some n → String.length s = n.
Proof.
  intros Hl. revert n. induction Hl; intros n Hn; simplify_eq/=; try done.
  - case_match eqn:E; [|done]. apply Nat.eqb_eq in E. simplify_eq. lia.
  - destruct (rx_width r1) as [a|], (rx_width r2) as [b|]; simplify_eq.
    rewrite sapp_length. by rewrite (IHHl1 a), (IHHl2 b).
Qed.

Lemma managedID_length id : managedID id = true → String.length id = 36%nat.
Proof. unfold managedID, full. intros H%rx_match_spec. by apply (Lang_width uuid_rx). Qed.

(** One byte class inside another, by evaluation. *)
Lemma class_incl (p q : ascii → bool) :
  forallb (λ k, implb (p (chr (Z.of_nat k))) (q (chr (Z.of_nat k)))) (seq 0 256) = true →
  ∀ c, p c = true → q c = true.
Proof.
  intros H c Hc. pose proof (forall_bytes (λ c, implb (p c) (q c)) H c) as Hi.
  simpl in Hi. by rewrite Hc in Hi.
Qed.

Definition id_byte (c : ascii) : bool := is_hex_lower c || Ascii.eqb c "-".
Lemma managedID_bytes id : managedID id = true → sforall id_byte id = true.
Proof.
  intros H. apply (full_bytes id_byte) in H; [done|]. simpl.
  split_and!; by apply class_incl; vm_compute.
Qed.

Lemma managedMarker_parts id t :
  managedID id = true →
  managedMarker (marker_prefix +++ id +++ t) =
    if has_prefix t " ACTIVE" then
      match marker_payload (sdrop 7 t) with Some p => Some (id, ACTIVE, p) | None => None end
    else if has_prefix t " SUSPENDED" then
      match marker_payload (sdrop 10 t) with Some p => Some (id, SUSPENDED, p) | None => None end
    else None.
Proof.
  intros Hid. pose proof (managedID_length _ Hid) as Hl. unfold managedMarker.
  rewrite has_prefix_weaken by done.
  cbv zeta. pose proof (sdrop_app marker_prefix (id +++ t)) as Hm.
  change (String.length marker_prefix) with 19%nat in Hm. rewrite Hm.
  pose proof (sdrop_app id t) as Hd. pose proof (stake_app id t) as Hs.
  rewrite Hl in Hd, Hs. by rewrite Hd, Hs, Hid.
Qed.

Lemma managedMarker_active id :
  managedID id = true → managedMarker (activeMarker id) = Some (id, ACTIVE, "").
Proof. intros Hid. by etrans; [apply (managedMarker_parts id " ACTIVE")|]. Qed.

Lemma managedMarker_suspended id line :
  managedID id = true → line ≠ "" →
  managedMarker (suspendedMarker id line) = Some (id, SUSPENDED, b64_encode URLAlphabet line).
Proof.
  intros Hid Hl.
  etrans; [by apply (managedMarker_parts id (" SUSPENDED " +++ b64_encode URLAlphabet line))|].
  cbn -[b64_encode is_b64url sforall]. pose proof (b64_encode_url line) as Hu.
  destruct (String.eqb_spec (b64_encode URLAlphabet line) "") as [E|_]; [by apply b64_encode_nil in E|].
  simpl. by rewrite Hu.
Qed.

Lemma suspended_line_encode line :
  line ≠ "" → contains_byte cr line = false → contains_byte nl line = false →
  suspended_line (b64_encode URLAlphabet line) = Some line.
Proof.
  intros Hl Hc Hn. unfold suspended_line. rewrite b64_decode_encode, Hc, Hn.
  by rewrite (proj2 (String.eqb_neq _ _) Hl).
Qed.

Lemma graphic_trim s : s ≠ "" → sforall graphic s = true → trim_space s = s.
Proof.
  intros Hs Hg. unfold trim_space. destruct s as [|c s]; [done|]. rewrite trim_left_id.
  - clear Hs. revert Hg. generalize (String c s). intros u. induction u as [|d u IH]; [done|].
    simpl. intros [Hd Hu]%andb_prop. cbn [trim_right_space]. rewrite IH by done.
    unfold all_space. cbn [all_space_from]. by rewrite graphic_width.
  - simpl in Hg. apply andb_prop in Hg as [? _]. by apply graphic_width.
Qed.

Lemma trim_marker id t :
  managedID id = true → t ≠ "" → trim_space t = t →
  trim_space (marker_prefix +++ id +++ " " +++ t) = marker_prefix +++ id +++ " " +++ t.
Proof.
  intros Hid Ht Hg. change marker_prefix with ("#" +++ " " +++ "AEGISADMIN-TASK: ").
  rewrite !sapp_assoc. apply trim_space_task; [done..|].
  rewrite <- !sapp_assoc. change ("AEGISADMIN-TASK: " +++ id) with ("AEGISADMIN-TASK:" +++ " " +++ id).
  rewrite sapp_assoc. rewrite sapp_assoc. rewrite sapp_assoc.
  apply trim_space_task; [done..| |].
  - by destruct id.
  - apply trim_space_task; [| |done|done].
    + intros ->. done.
    + pose proof (managedID_bytes _ Hid) as Hb. destruct id as [|c id]; [done|]. simpl in Hb.
      apply andb_prop in Hb as [Hb _]. apply graphic_width. revert Hb. clear. revert c. by apply class_incl; vm_compute.
Qed.

(** ** The structure of a crontab: the lines of each task *)

Lemma list_two_ind {A} (P : list A → Prop) :
  P [] → (∀ x, P [x]) → (∀ x y l, P l → P (y :: l) → P (x :: y :: l)) → ∀ l, P l.
Proof.
  intros H0 H1 H2 l. enough (P l ∧ ∀ x, P (x :: l)) by naive_solver.
  induction l as [|x l [IH1 IH2]]; [auto|]. split; [auto|]. intros y. apply H2; auto.
Qed.

(** [Block owner mid id line schedule command enabled managed]: the lines [mid] hold
    that task; the identifier of an unmanaged task comes from its rank. *)
Inductive Block (owner : string) : list string → string → string → string → string → bool → bool → Prop :=
| Block_active raw taskLine id schedule user command :
    managedMarker (trim_space raw) = Some (id, ACTIVE, "") → no_task (trim_space taskLine) = false →
    parseJobLine taskLine owner = Ok (schedule, user, command) →
    Block owner [raw; taskLine] id taskLine schedule command true true
| Block_suspended raw payload decoded id schedule user command :
    managedMarker (trim_space raw) = Some (id, SUSPENDED, payload) → suspended_line payload = Some decoded →
    parseJobLine decoded owner = Ok (schedule, user, command) →
    Block owner [raw] id decoded schedule command false true
| Block_plain raw id schedule user command :
    managedMarker (trim_space raw) = None → has_prefix (trim_space raw) "# AEGISADMIN-TASK:" = false →
    no_task (trim_space raw) = false → parseJobLine raw owner = Ok (schedule, user, command) →
    Block owner [raw] id raw schedule command true false.

Lemma records_block owner mid id line schedule command enabled i occ rest :
  Block owner mid id line schedule command enabled true →
  records_from owner i occ (mid ++ rest) =
    res_map (cons (Rec id line schedule command i (i + List.length mid - 1)%nat enabled true))
      (records_from owner (i + List.length mid) occ rest).
Proof.
  inversion 1; subst; cbn [app List.length].
  - cbn [records_from]. rewrite H0, H1, H2. simpl. replace (i + 2 - 1)%nat with (S i) by lia.
    by replace (i + 2)%nat with (S (S i)) by lia.
  - cbn [records_from]. rewrite H0, H1, H2. simpl. replace (i + 1 - 1)%nat with i by lia.
    by replace (i + 1)%nat with (S i) by lia.
Qed.

(** One record, or none, then the rest. *)
Inductive Step (owner : string) (i : nat) (occ : gmap string Z) : list string → list crecord → gmap string Z → Prop :=
| Step_blank raw :
    managedMarker (trim_space raw) = None → has_prefix (trim_space raw) "# AEGISADMIN-TASK:" = false →
    no_task (trim_space raw) = true → Step owner i occ [raw] [] occ
| Step_managed mid id line schedule command enabled :
    Block owner mid id line schedule command enabled true → mid ≠ [] →
    Step owner i occ mid [Rec id line schedule command i (i + List.length mid - 1)%nat enabled true] occ
| Step_plain raw schedule command n :
    Block owner [raw] (legacyTaskIdentifier owner schedule command n) raw schedule command true false →
    n = count_of occ (occurrence_key schedule command) + 1 →
    Step owner i occ [raw]
      [Rec (legacyTaskIdentifier owner schedule command n) raw schedule command i i true false]
      (<[occurrence_key schedule command := n]> occ).

Lemma records_step owner i occ mid here occ' rest :
  Step owner i occ mid here occ' →
  records_from owner i occ (mid ++ rest) =
    res_map (app here) (records_from owner (i + List.length mid) occ' rest).
Proof.
  inversion 1; subst.
  - cbn [app records_from List.length]. rewrite H0, H1, H2. replace (i + 1)%nat with (S i) by lia.
    by destruct (records_from _ _ _ _).
  - by rewrite (records_block _ _ _ _ _ _ _ _ _ _ H0).
  - inversion H0; subst. cbn [app records_from List.length]. rewrite H2, H3, H4, H5. simpl.
    by replace (i + 1)%nat with (S i) by lia.
Qed.

(** Reading a crontab is a sequence of such steps. *)
Lemma records_inv owner i occ lines rs :
  records_from owner i occ lines = Ok rs → lines ≠ [] →
  ∃ mid rest here occ' rs', lines = mid ++ rest ∧ mid ≠ [] ∧ Step owner i occ mid here occ' ∧
    records_from owner (i + List.length mid) occ' rest = Ok rs' ∧ rs = here ++ rs'.
Proof.
  destruct lines as [|raw rest]; [done|]. intros Hr _. cbn [records_from] in Hr.
  destruct (managedMarker (trim_space raw)) as [[[id []] payload]|] eqn:Hm.
  - destruct rest as [|taskLine rest]; [done|].
    destruct (String.eqb_spec payload ""); [|done]. subst.
    destruct (no_task (trim_space taskLine)) eqn:Hn; [done|]. simpl in Hr.
    apply res_bind_Ok in Hr as ([[schedule user] command] & Hp & Hr).
    apply res_bind_Ok in Hr as (rs' & Hrest & [= <-]).
    exists [raw; taskLine], rest. eexists [_], occ, rs'. split_and!; [done..| | |].
    + apply (Step_managed _ _ _ _ id taskLine schedule command true); [|done]. by econstructor.
    + by replace (i + List.length [raw; taskLine])%nat with (S (S i)) by (simpl; lia).
    + cbn [List.length app]. by replace (i + 2 - 1)%nat with (S i) by lia.
  - destruct (suspended_line payload) as [decoded|] eqn:Hd; [|done].
    apply res_bind_Ok in Hr as ([[schedule user] command] & Hp & Hr).
    apply res_bind_Ok in Hr as (rs' & Hrest & [= <-]).
    exists [raw], rest. eexists [_], occ, rs'. split_and!; [done..| | |].
    + apply (Step_managed _ _ _ _ id decoded schedule command false); [|done]. by econstructor.
    + by replace (i + List.length [raw])%nat with (S i) by (simpl; lia).
    + cbn [List.length app]. by replace (i + 1 - 1)%nat with i by lia.
  - destruct (has_prefix (trim_space raw) "# AEGISADMIN-TASK:") eqn:Hp0; [done|].
    destruct (no_task (trim_space raw)) eqn:Hn.
    + exists [raw], rest, [], occ, rs. split_and!; [done..|by constructor| |done].
      by replace (i + List.length [raw])%nat with (S i) by (simpl; lia).
    + apply res_bind_Ok in Hr as ([[schedule user] command] & Hp & Hr).
      apply res_bind_Ok in Hr as (rs' & Hrest & [= <-]).
      exists [raw], rest. eexists [_], _, rs'. split_and!; [done..| | |].
      * apply Step_plain; [|done]. by econstructor.
      * by replace (i + List.length [raw])%nat with (S i) by (simpl; lia).
      * done.
Qed.

Lemma records_app owner n : ∀ l1 i occ rs1, (List.length l1 <= n)%nat →
  records_from owner i occ l1 = Ok rs1 →
  ∃ occ', ∀ l2, records_from owner i occ (l1 ++ l2) =
    res_map (app rs1) (records_from owner (i + List.length l1) occ' l2).
Proof.
  induction n as [|n IH]; intros l1 i occ rs1 Hl Hr.
  - destruct l1; [|simpl in Hl; lia]. injection Hr as <-. exists occ. intros l2. simpl.
    rewrite Nat.add_0_r. by destruct (records_from _ _ _ l2).
  - destruct (decide (l1 = [])) as [->|Hne].
    { injection Hr as <-. exists occ. intros l2. simpl. rewrite Nat.add_0_r. by destruct (records_from _ _ _ l2). }
    destruct (records_inv _ _ _ _ _ Hr Hne) as (mid & rest & here & occ1 & rs' & -> & Hm & Hs & Hr' & ->).
    destruct (IH rest (i + List.length mid)%nat occ1 rs') as [occ' Ho]; [|done|].
    { rewrite length_app in Hl. destruct mid; [done|]. simpl in Hl. lia. }
    exists occ'. intros l2. rewrite <- app_assoc, (records_step _ _ _ _ _ _ _ Hs), Ho, length_app.
    rewrite Nat.add_assoc. destruct (records_from _ _ _ l2); [|done]. simpl. by rewrite app_assoc.
Qed.

(** Positions aside. *)
Definition strip (r : crecord) : crecord :=
  Rec (rec_id r) (rec_line r) (rec_schedule r) (rec_command r) 0 0 (rec_enabled r) (rec_managed r).

Lemma records_shift owner n : ∀ l i j occ rs, (List.length l <= n)%nat →
  records_from owner i occ l = Ok rs →
  ∃ rs', records_from owner j occ l = Ok rs' ∧ strip <$> rs' = strip <$> rs.
Proof.
  induction n as [|n IH]; intros l i j occ rs Hl Hr;
    (destruct (decide (l = [])) as [->|Hne]; [injection Hr as <-; by exists []|]).
  { destruct l; [done|simpl in Hl; lia]. }
  destruct (records_inv _ _ _ _ _ Hr Hne) as (mid & rest & here & occ1 & rs' & -> & Hm & Hs & Hr' & ->).
  assert (∃ here', Step owner j occ mid here' occ1 ∧ strip <$> here' = strip <$> here) as (here' & Hs' & Hh).
  { destruct Hs; eexists; (split; [by econstructor|]); reflexivity. }
  destruct (IH rest (i + List.length mid)%nat (j + List.length mid)%nat occ1 rs') as (rs2 & H2 & Heq); [|done|].
  { rewrite length_app in Hl. destruct mid; [done|]. simpl in Hl. lia. }
  exists (here' ++ rs2). rewrite (records_step _ _ _ _ _ _ _ Hs'), H2. split; [done|].
  by rewrite !fmap_app, Hh, Heq.
Qed.

(** Where a record comes from: its lines between those of the records before it and
    those of the records after it. *)
Definition focus (owner : string) (i : nat) (occ : gmap string Z) (lines : list string)
    (rs : list crecord) (r : crecord) (l1 mid l3 : list string) (rs1 rs3 : list crecord)
    (occ1 occ2 : gmap string Z) : Prop :=
  lines = l1 ++ mid ++ l3 ∧ mid ≠ [] ∧ rs = rs1 ++ r :: rs3 ∧
  rec_start r = (i + List.length l1)%nat ∧ rec_end r = (i + List.length l1 + List.length mid - 1)%nat ∧
  Block owner mid (rec_id r) (rec_line r) (rec_schedule r) (rec_command r) (rec_enabled r) (rec_managed r) ∧
  (∀ l2, records_from owner i occ (l1 ++ l2) =
     res_map (app rs1) (records_from owner (i + List.length l1) occ1 l2)) ∧
  records_from owner (i + List.length l1 + List.length mid) occ2 l3 = Ok rs3 ∧
  (rec_managed r = true → occ2 = occ1).

Lemma step_focus owner i occ mid r occ2 :
  Step owner i occ mid [r] occ2 →
  rec_start r = i ∧ rec_end r = (i + List.length mid - 1)%nat ∧
  Block owner mid (rec_id r) (rec_line r) (rec_schedule r) (rec_command r) (rec_enabled r) (rec_managed r) ∧
  (rec_managed r = true → occ2 = occ).
Proof. inversion 1; subst; simpl; split_and!; try done. lia. Qed.

Lemma records_focus owner n : ∀ lines i occ rs r, (List.length lines <= n)%nat →
  records_from owner i occ lines = Ok rs → r ∈ rs →
  ∃ l1 mid l3 rs1 rs3 occ1 occ2, focus owner i occ lines rs r l1 mid l3 rs1 rs3 occ1 occ2.
Proof.
  induction n as [|n IH]; intros lines i occ rs r Hl Hr Hin;
    (destruct (decide (lines = [])) as [->|Hne]; [by injection Hr as <-; apply not_elem_of_nil in Hin|]).
  { destruct lines; [done|simpl in Hl; lia]. }
  destruct (records_inv _ _ _ _ _ Hr Hne) as (mid & rest & here & occ1 & rs' & -> & Hm & Hs & Hr' & ->).
  apply elem_of_app in Hin as [Hin|Hin].
  - assert (here = [r]) as ->.
    { destruct Hs; [by apply not_elem_of_nil in Hin|..]; apply list_elem_of_singleton in Hin; by subst. }
    destruct (step_focus _ _ _ _ _ _ Hs) as (H1 & H2 & H3 & H4).
    exists [], mid, rest, [], rs', occ, occ1. unfold focus. simpl. rewrite Nat.add_0_r.
    split_and!; try done. intros l2. by destruct (records_from _ _ _ l2).
  - destruct (IH rest (i + List.length mid)%nat occ1 rs' r) as (l1 & mid' & l3 & rs1 & rs3 & o1 & o2 & Hf); [|done..|].
    { rewrite length_app in Hl. destruct mid; [done|]. simpl in Hl. lia. }
    destruct Hf as (-> & Hm' & -> & H1 & H2 & H3 & H4 & H5 & H6).
    exists (mid ++ l1), mid', l3, (here ++ rs1), rs3, o1, o2. unfold focus.
    rewrite !length_app, Nat.add_assoc, <- !app_assoc. split_and!; try done.
    intros l2. rewrite <- app_assoc, (records_step _ _ _ _ _ _ _ Hs), H4.
    destruct (records_from _ _ _ l2); [|done]. simpl. by rewrite app_assoc.
Qed.

Lemma replace_focus l1 mid l3 (new : list string) i :
  mid ≠ [] → i = (List.length l1 + List.length mid - 1)%nat →
  replace (l1 ++ mid ++ l3) (List.length l1) i new = l1 ++ new ++ l3.
Proof.
  intros Hm ->. unfold replace. rewrite take_app_length. f_equal. f_equal.
  destruct mid as [|x mid]; [done|].
  replace (S (List.length l1 + List.length (x :: mid) - 1)) with (List.length (l1 ++ x :: mid))
    by (rewrite length_app; simpl; lia).
  rewrite app_assoc. apply drop_app_length.
Qed.

(** Putting other lines of a managed task in the place of a task. *)
Lemma records_replace owner lines rs r l1 mid l3 rs1 rs3 occ1 occ2 mid' id line schedule command enabled :
  focus owner 0 ∅ lines rs r l1 mid l3 rs1 rs3 occ1 occ2 → rec_managed r = true →
  Block owner mid' id line schedule command enabled true →
  ∃ rs3', parseRecords owner (l1 ++ mid' ++ l3) =
      Ok (rs1 ++ Rec id line schedule command (List.length l1) (List.length l1 + List.length mid' - 1)
            enabled true :: rs3') ∧
    strip <$> rs3' = strip <$> rs3.
Proof.
  intros (-> & Hm & -> & H1 & H2 & H3 & H4 & H5 & H6) Hman Hb.
  destruct (records_shift owner (List.length l3) l3 _ (List.length l1 + List.length mid') occ2 rs3
    ltac:(lia) H5) as (rs3' & Hr & Heq).
  exists rs3'. split; [|done]. unfold parseRecords. rewrite H4, (records_block _ _ _ _ _ _ _ _ _ _ Hb).
  rewrite <- (H6 Hman), (Nat.add_0_l (List.length l1)), Hr. done.
Qed.

(** ** Identifiers *)

Lemma findRecord_unique records id r :
  findRecord records id = Some r →
  r ∈ records ∧ rec_id r = id ∧ filter (λ r, rec_id r = id) records = [r].
Proof.
  unfold findRecord. destruct (filter _ records) as [|x [|]] eqn:E; [done| |done]. intros [= ->].
  assert (r ∈ filter (λ r, rec_id r = id) records) as Hin by (rewrite E; left).
  apply list_elem_of_filter in Hin as [? ?]. done.
Qed.

Lemma filter_nil_ids (l l' : list crecord) id :
  filter (λ r, rec_id r = id) l = [] → strip <$> l' = strip <$> l → filter (λ r, rec_id r = id) l' = [].
Proof.
  revert l. induction l' as [|r' l' IH]; intros [|r l] Hf Heq; try done.
  rewrite !fmap_cons in Heq.
  pose proof (f_equal (default (strip r) ∘ head) Heq) as Hr. pose proof (f_equal tail Heq) as Hl.
  cbn [tail] in Hl. change (strip r' = strip r) in Hr.
  assert (rec_id r' = rec_id r) as Hid by (unfold strip in Hr; congruence).
  rewrite filter_cons in *. rewrite Hid. destruct (decide (rec_id r = id)); [done|]. by eapply IH.
Qed.

Lemma findRecord_replaced rs1 r rs3 id r' rs3' :
  findRecord (rs1 ++ r :: rs3) id = Some r → rec_id r' = id → strip <$> rs3' = strip <$> rs3 →
  findRecord (rs1 ++ r' :: rs3') id = Some r'.
Proof.
  intros (_ & Hid & Hf)%findRecord_unique Hid' Hs. unfold findRecord.
  rewrite filter_app, filter_cons_True in Hf by done. rewrite filter_app, filter_cons_True by done.
  assert (filter (λ r, rec_id r = id) rs1 = [] ∧ filter (λ r, rec_id r = id) rs3 = []) as [-> H3].
  { destruct (filter _ rs1) as [|x l]; [by injection Hf|]. injection Hf as _ Hf. by destruct l. }
  by rewrite (filter_nil_ids _ _ _ H3 Hs).
Qed.

(** ** The text of a crontab *)

Definition free (c : ascii) (lines : list string) : Prop := Forall (λ l, contains_byte c l = false) lines.

Lemma crlf_id s : contains_byte cr s = false → crlf_to_lf s = s.
Proof.
  induction s as [|c s IH]; [done|]. unfold contains_byte. cbn [sexists]. intros [Hc Hs]%orb_false_elim.
  cbn [crlf_to_lf]. destruct s as [|d s]; [done|]. rewrite Ascii.eqb_sym, Hc. simpl andb. cbv iota.
  by rewrite (IH Hs).
Qed.

Lemma join_free c sep lines :
  contains_byte c sep = false → free c lines → contains_byte c (join sep lines) = false.
Proof.
  rewrite contains_byte_sforall. intros Hs Hl. apply contains_byte_sforall, join_bytes; [done|].
  eapply Forall_impl; [done|]. intros l. simpl. by rewrite contains_byte_sforall.
Qed.

Lemma splitContent_content lines :
  free nl lines → free cr lines → lines ≠ [""] → splitContent (content_of lines) = lines.
Proof.
  intros Hn Hc Hne. unfold content_of. destruct (bool_decide_reflect (lines = [])) as [->|Hn0]; [done|].
  unfold splitContent. rewrite crlf_id, trim_suffix_app.
  - destruct (String.eqb_spec (join snl lines) "") as [E|].
    + exfalso. destruct lines as [|x [|y l]]; [done| |].
      * simpl in E. by subst.
      * rewrite join_cons_ne in E by done. by destruct x.
    + by apply split_join.
  - rewrite contains_byte_app. by rewrite join_free.
Qed.

Lemma splitContent_nl content : free nl (splitContent content).
Proof. unfold splitContent, free. case_match; [done|]. apply split_no_sep. Qed.

Lemma split_free c sep s : contains_byte c s = false → free c (split sep s).
Proof.
  unfold free, contains_byte. induction s as [|d s IH]; simpl; [by constructor|].
  intros [Hd Hs]%orb_false_elim. destruct (Ascii.eqb d sep); [by constructor; [|apply IH]|].
  specialize (IH Hs). destruct (split sep s) as [|x l]; [by constructor; [simpl; rewrite Hd|]|].
  inv IH. constructor; [|done]. simpl. by rewrite Hd.
Qed.

Lemma splitContent_cr content : contains_byte cr content = false → free cr (splitContent content).
Proof.
  intros Hc. unfold splitContent. case_match; [by constructor|]. apply split_free.
  rewrite contains_byte_sforall in *. rewrite crlf_id by by apply contains_byte_sforall.
  by apply sforall_trim_suffix.
Qed.
