(* ===== verification/Backup.v ===== *)
(** * The backup runner: [internal/backup/runner.go]

    Validation of a backup task, the archive made, its transfer and the purge of old
    archives.  All the work happens in the destination directory of the task, the
    [Depot]: its entries by name.  The programs run (mysqldump, the tar walk, rsync)
    are parameters that say whether they succeed and what size they write; the
    JSON decoder of a task file is a parameter too. *)

From S2P Require Import Prelude GoStrings StringFacts Regex.
From S2P Require Time.
From Stdlib Require Import Ascii String.
#[local] Open Scope string_scope.
#[local] Open Scope list_scope.
#[local] Open Scope Z_scope.

(** ** [path/filepath] *)

Definition slash : ascii := "/"%char.
Definition IsAbs (path : string) : bool := has_prefix path "/".

(** One element of a path onto the reversed elements kept so far. *)
Definition clean_step (rooted : bool) (kept : list string) (element : string) : list string :=
  if String.eqb element "" || String.eqb element "." then kept
  else if String.eqb element ".." then
    match kept with
    | [] => if rooted then [] else [".."]
    | last :: kept' => if String.eqb last ".." then ".." :: kept else kept'
    end
  else element :: kept.

Definition clean_elements (path : string) : list string :=
  rev (fold_left (clean_step (IsAbs path)) (split slash path) []).

(** [filepath.Clean]. *)
Definition Clean (path : string) : string :=
  let elements := join "/" (clean_elements path) in
  if IsAbs path then "/" +++ elements
  else if String.eqb elements "" then "." else elements.

(** [filepath.Join] of two elements. *)
Definition Join (directory name : string) : string :=
  if String.eqb directory "" then (if String.eqb name "" then "" else Clean name)
  else if String.eqb name "" then Clean directory
  else Clean (directory +++ "/" +++ name).

(** ** Tasks *)

Record Task := mkTask {
  task_ID : string; task_Name : string; task_Kind : string; task_Source : string;
  task_Destination : string; task_RemoteHost : string; task_RemoteUser : string;
  task_RemotePath : string; task_SSHKey : string; task_RemotePort : Z;
  task_RetentionDays : Z; task_RemoveLocal : bool }.

Definition alnum (c : ascii) : bool := is_upper c || is_lower c || is_digit c.
Definition idPattern : rx := Rep (λ c, between "a" "f" c || is_digit c || Ascii.eqb c "-") 36 36.
Definition hostPattern : rx :=
  Cls alnum ;;; opt (Rep (cls alnum ".-") 0 251 ;;; Cls alnum).
Definition userPattern : rx :=
  Cls (cls is_lower "_") ;;; Rep (cls (λ c, is_lower c || is_digit c) "_-") 0 31.
Definition remotePathPattern : rx := Cls (Ascii.eqb slash) ;;; plus (Cls (cls alnum "_./-")).
Definition databaseName : rx := plus (Cls (cls alnum "_$-")).
Definition databaseListPattern : rx := databaseName ;;; Star (lit "," ;;; databaseName).

Definition breaks : string := String nul (String cr snl).

Definition backup_root : string := "/var/backups/aegisadmin".
Definition under (root path : string) : bool :=
  String.eqb path root || has_prefix path (root +++ "/").

(** [Validate]: the message of the first check that fails. *)
Definition Validate (t : Task) : option string :=
  if negb (full idPattern (task_ID t)) || String.eqb (task_Name t) ""
     || (task_RetentionDays t <? 0) || (3650 <? task_RetentionDays t)
  then Some "paramètres de sauvegarde invalides"
  else if existsb (λ v, contains_any v breaks)
       [task_Source t; task_Destination t; task_RemoteHost t; task_RemoteUser t; task_RemotePath t; task_SSHKey t]
  then Some "paramètres de sauvegarde invalides"
  else if negb (IsAbs (task_Destination t)) || (negb (String.eqb (task_Kind t) "mysql") && negb (IsAbs (task_Source t)))
  then Some "les chemins locaux doivent être absolus"
  else if negb (under backup_root (Clean (task_Destination t)))
  then Some "le stockage local doit se trouver sous /var/backups/aegisadmin"
  else if String.eqb (task_Kind t) "apache" && negb (String.eqb (Clean (task_Source t)) "/etc/apache2")
  then Some "la source Apache doit être /etc/apache2"
  else if String.eqb (task_Kind t) "sites" && negb (under "/var/www" (Clean (task_Source t)))
  then Some "la source du site doit se trouver sous /var/www"
  else if String.eqb (task_Kind t) "mysql" && negb (String.eqb (task_Source t) "")
       && negb (String.eqb (task_Source t) "all") && negb (full databaseListPattern (task_Source t))
  then Some "la liste des bases est invalide"
  else if negb (String.eqb (task_RemoteHost t) "") &&
       (negb (full hostPattern (task_RemoteHost t)) || negb (full userPattern (task_RemoteUser t))
        || negb (full remotePathPattern (task_RemotePath t))
        || (task_RemotePort t <? 1) || (65535 <? task_RemotePort t))
  then Some "destination distante incomplète"
  else if negb (has_prefix (Clean (task_SSHKey t)) "/etc/aegisadmin-system/backup-ssh/")
  then Some "la clé SSH doit se trouver dans le répertoire sécurisé AegisAdmin"
  else None.

(** ** Running a task *)

(** Runs of other bytes become one dash. *)
Definition safe_byte (c : ascii) : bool := cls alnum "._-" c.
Fixpoint dash_runs (in_run : bool) (v : string) : string :=
  match v with
  | EmptyString => ""
  | String c v' =>
      if safe_byte c then String c (dash_runs false v')
      else if in_run then dash_runs true v' else String "-" (dash_runs true v')
  end.
Definition safeName (v : string) : string :=
  let r := trim_set (λ c, contains_byte c "-.") (dash_runs false v) in
  if String.eqb r "" then "backup" else r.

Record Entry := mkEntry { size : Z; modified : Z; regular : bool }.
#[global] Instance Entry_eq_dec : EqDecision Entry.
Proof. solve_decision. Defined.
Abbreviation Depot := (gmap string Entry).

(** The times are in nanoseconds. *)
Definition day : Z := 24 * 3600 * 10^9.

Class BackupPrograms := {
  task_unmarshal : string → option Task;         (** [json.Unmarshal] of a task file *)
  mysqldump : list string → option Z;            (** the size of the compressed dump *)
  source_is_directory : string → bool;
  tar_gzip : string → option Z;                  (** the size of the archive of a directory *)
  rsync : list string → bool;
}.

(** What the calls of one run answer besides: the task file, the directory and its
    lock, and the clock at each time it is read or put on a file. *)
Record Answers := mkAnswers {
  task_file : option string; make_directory : bool; open_lock : bool; lock_free : bool;
  created : bool;                    (** the temporary file could be created *)
  partial : Z;                       (** what a program that failed had written *)
  renamed : bool;                    (** it could be given its name *)
  removable : string → bool;         (** whether an entry can be removed *)
  listed : bool;                     (** whether the directory could be listed *)
  inspected : string → bool;         (** whether an entry listed could be inspected *)
  locked_at : Z;                     (** when the lock file is made, if there is none *)
  named_at : Z;                      (** when the archive is named *)
  finished : Z;                      (** when it was last written *)
  purged_at : Z;                     (** when the purge reads the clock *)
}.
(** The time in the layout [20060102T150405Z], in UTC. *)
Definition stamp (e : Answers) : string := Time.stamp (named_at e / 10^9).
Definition lock_name : string := ".aegisadmin-backup.lock".

Section runner.
Context `{BackupPrograms}.

(** The archive is written under a temporary name, then renamed; the temporary file
    must not exist, and is removed when the program fails, if it can be. *)
Definition produce (e : Answers) (name : string) (made : option Z) (depot : Depot) : res string string * Depot :=
  let temporary := name +++ ".tmp" in
  match depot !! temporary, created e with
  | None, true =>
      match made with
      | Some n =>
          if renamed e then (Ok name, <[name := mkEntry n (finished e) true]> depot)
          else (Err "rename", <[temporary := mkEntry n (finished e) true]> depot)
      | None => (Err "archive", if removable e temporary then depot else <[temporary := mkEntry (partial e) (finished e) true]> depot)
      end
  | _, _ => (Err "file exists", depot)
  end.

Definition mysqlDump_arguments (t : Task) : list string :=
  if negb (String.eqb (task_Source t) "") && negb (String.eqb (task_Source t) "all")
  then ["--single-transaction"; "--routines"; "--events"; "--triggers"; "--databases"] ++ split "," (task_Source t)
  else ["--single-transaction"; "--routines"; "--events"; "--triggers"; "--all-databases"].

Definition mysqlDump (e : Answers) (t : Task) (base : string) : Depot → res string string * Depot :=
  produce e (base +++ ".sql.gz") (mysqldump (mysqlDump_arguments t)).

Definition tarSource (e : Answers) (t : Task) (base : string) (depot : Depot) : res string string * Depot :=
  if source_is_directory (task_Source t)
  then produce e (base +++ ".tar.gz") (tar_gzip (task_Source t)) depot
  else (Err "source absente ou invalide", depot).

Definition remote_shell (t : Task) : string :=
  "ssh -i " +++ task_SSHKey t +++ " -p " +++ itoa (task_RemotePort t) +++
  " -o BatchMode=yes -o StrictHostKeyChecking=yes -o UserKnownHostsFile=/etc/aegisadmin-system/backup-ssh/known_hosts".
Definition transfer_arguments (t : Task) (archive : string) : list string :=
  ["--archive"; "--partial"; "--protect-args"; "--rsh"; remote_shell t; "--"; archive;
   task_RemoteUser t +++ "@" +++ task_RemoteHost t +++ ":" +++
     trim_right_set (Ascii.eqb slash) (task_RemotePath t) +++ "/"].
Definition transfer (t : Task) (archive : string) : bool :=
  rsync (transfer_arguments t archive).

(** [purge]: the regular entries with the prefix of the task, older than the limit. *)
Definition expired (e : Answers) (t : Task) (name : string) (entry : Entry) : bool :=
  has_prefix name (safeName (task_Name t) +++ "-") && regular entry &&
  inspected e name &&
  (modified entry <? purged_at e - task_RetentionDays t * day).
(** What the purge removes: it ignores the errors of the removals. *)
Definition purged (e : Answers) (t : Task) (name : string) (entry : Entry) : bool :=
  negb (task_RetentionDays t =? 0) && expired e t name entry && removable e name.
Definition purge (e : Answers) (t : Task) (depot : Depot) : option string * Depot :=
  if task_RetentionDays t =? 0 then (None, depot)
  else if negb (listed e) then (Some "readdir", depot)
  else (None, filter (λ kv, expired e t kv.1 kv.2 && removable e kv.1 = false) depot).

Definition archive_base (e : Answers) (t : Task) : string := safeName (task_Name t) +++ "-" +++ stamp e.

(** The end of [Run], once the archive is there. *)
Definition deliver (e : Answers) (t : Task) (archive : string) (depot : Depot) : option string * Depot :=
  if (match depot !! archive with Some entry => size entry =? 0 | None => true end)
  then (Some "l’archive produite est vide ou illisible", depot)
  else if negb (String.eqb (task_RemoteHost t) "") then
    if transfer t (Join (task_Destination t) archive) then
      if task_RemoveLocal t then
        if removable e archive then purge e t (delete archive depot) else (Some "remove", depot)
      else purge e t depot
    else (Some "transfert rsync", depot)
  else purge e t depot.

Definition archive_made (e : Answers) (t : Task) (depot : Depot) : res string string * Depot :=
  if String.eqb (task_Kind t) "mysql" then mysqlDump e t (archive_base e t) depot
  else if String.eqb (task_Kind t) "apache" || String.eqb (task_Kind t) "sites"
  then tarSource e t (archive_base e t) depot
  else (Err "type de sauvegarde inconnu", depot).

(** The lock file is opened, and made when there is none. *)
Definition opened (e : Answers) (depot : Depot) : Depot :=
  match depot !! lock_name with Some _ => depot | None => <[lock_name := mkEntry 0 (locked_at e) true]> depot end.

(** [Run]: the error, if any, and the destination directory afterwards. *)
Definition Run (e : Answers) (id : string) (depot : Depot) : option string * Depot :=
  if negb (full idPattern id) then (Some "identifiant de sauvegarde invalide", depot)
  else match task_file e with
  | None => (Some "read", depot)
  | Some data =>
      match task_unmarshal data with
      | None => (Some "configuration de sauvegarde invalide", depot)
      | Some t =>
          if negb (String.eqb (task_ID t) id) then (Some "configuration de sauvegarde invalide", depot)
          else match Validate t with
          | Some message => (Some message, depot)
          | None =>
              if negb (make_directory e) then (Some "mkdir", depot)
              else if negb (open_lock e) then (Some "open", depot)
              else if negb (lock_free e) then (Some "une sauvegarde est déjà en cours", opened e depot)
              else
                match archive_made e t (opened e depot) with
                | (Ok archive, depot) => deliver e t archive depot
                | (Err message, depot) => (Some message, depot)
                end
          end
      end
  end.
End runner.

(** ** Clean paths *)

(** An element that names an entry of a directory. *)
Definition proper (element : string) : Prop :=
  element ≠ "" ∧ element ≠ "." ∧ element ≠ ".." ∧ contains_byte slash element = false.

Lemma clean_step_proper kept element :
  Forall proper kept → contains_byte slash element = false → Forall proper (clean_step true kept element).
Proof.
  intros Hk He. unfold clean_step.
  destruct (String.eqb_spec element ""), (String.eqb_spec element "."); try done. simpl.
  destruct (String.eqb_spec element "..").
  - destruct Hk as [|last kept Hl Hk]; [by constructor|]. destruct (String.eqb_spec last ".."); [|done].
    by destruct Hl as (? & ? & ? & ?).
  - by constructor.
Qed.

Lemma clean_elements_proper path : IsAbs path = true → Forall proper (clean_elements path).
Proof.
  intros Ha. unfold clean_elements. rewrite Ha. apply Forall_rev.
  pose proof (split_no_sep slash path) as Hs. assert (Forall proper []) as Hk by constructor.
  revert Hk. generalize (@nil string). induction Hs as [|x l Hx Hl IH]; intros kept Hk; [done|].
  simpl. apply IH. by apply clean_step_proper.
Qed.

Lemma split_join_proper l : Forall proper l → l ≠ [] → split slash (join "/" l) = l.
Proof.
  intros Hl Hne. apply (split_join slash l Hne). eapply Forall_impl; [done|]. by intros x (? & ? & ? & ?).
Qed.

(** A clean absolute path is the path of its elements. *)
Lemma Clean_elements path :
  IsAbs path = true → Clean path = "/" +++ join "/" (clean_elements path).
Proof. unfold Clean. by intros ->. Qed.

(** A file of a directory. *)
Lemma Join_elements directory name :
  IsAbs directory = true → proper name →
  Join directory name = "/" +++ join "/" (clean_elements directory ++ [name]).
Proof.
  intros Ha (Hn1 & Hn2 & Hn3 & Hn4). unfold Join.
  destruct (String.eqb_spec directory "") as [E|_]; [by rewrite E in Ha|].
  rewrite (proj2 (String.eqb_neq name "") Hn1).
  assert (IsAbs (directory +++ "/" +++ name) = true) as Ha' by (by apply has_prefix_weaken).
  rewrite (Clean_elements _ Ha'). do 2 f_equal.
  unfold clean_elements. rewrite Ha, Ha'. change ("/" +++ name) with (String slash name).
  rewrite split_app, (split_field slash name), fold_left_app by done. simpl. unfold clean_step at 1.
  by rewrite !(proj2 (String.eqb_neq _ _)) by done.
Qed.

(** The elements of a path whose clean form has a prefix of proper elements. *)
Lemma clean_prefix path base t :
  IsAbs path = true → Forall proper base → base ≠ [] → Clean path = "/" +++ join "/" base +++ t →
  t = "" ∨ (∃ u, t = String slash u) →
  ∃ rest, clean_elements path = base ++ rest ∧ Forall proper rest.
Proof.
  intros Ha Hb Hne Hc Ht. pose proof (clean_elements_proper path Ha) as He.
  rewrite (Clean_elements path Ha) in Hc.
  assert (join "/" (clean_elements path) = join "/" base +++ t) as Hj by (by apply (sapp_inj_l "/")).
  destruct (decide (clean_elements path = [])) as [E|E].
  { exfalso. rewrite E in Hj. destruct Hb as [|b base (Hb1 & _) Hb]; [done|].
    destruct b; [done|]. destruct base; [done|]. by rewrite join_cons_ne in Hj. }
  pose proof (split_join_proper _ He E) as Hs. rewrite Hj in Hs.
  destruct Ht as [->|[u ->]].
  - exists []. rewrite sapp_nil_r, (split_join_proper base) in Hs by done. by rewrite app_nil_r.
  - rewrite split_app, (split_join_proper base) in Hs by done.
    exists (split slash u). split; [done|]. rewrite <- Hs in He. by apply Forall_app in He as [_ ?].
Qed.

Section theorems.
Context `{BackupPrograms}.
Implicit Types (e : Answers) (t : Task) (depot : Depot).

Lemma Validate_spec t :
  Validate t = None →
  0 ≤ task_RetentionDays t ≤ 3650 ∧ IsAbs (task_Destination t) = true ∧
  under backup_root (Clean (task_Destination t)) = true.
Proof.
  unfold Validate. intros Hv.
  repeat match type of Hv with (if ?b then _ else _) = _ => destruct b eqn:?; [done|] end.
  bool_prop. rewrite Heqb2. split_and!; [lia|lia|done|done].
Qed.

Lemma archive_made_cases e t depot :
  match archive_made e t depot with
  | (Ok name, depot') =>
      (name = archive_base e t +++ ".sql.gz" ∨ name = archive_base e t +++ ".tar.gz") ∧
      (∃ n, depot' = <[name := mkEntry n (finished e) true]> depot)
  | (Err _, depot') =>
      depot' = depot ∨ ∃ name n, depot !! name = None ∧
        (name = archive_base e t +++ ".sql.gz" +++ ".tmp" ∨ name = archive_base e t +++ ".tar.gz" +++ ".tmp") ∧
        depot' = <[name := mkEntry n (finished e) true]> depot
  end.
Proof.
  unfold archive_made, mysqlDump, tarSource, produce. cbv zeta. rewrite !sapp_assoc.
  repeat case_match; simplify_eq/=; eauto 8.
Qed.

Lemma purge_lookup e t depot depot' name :
  purge e t depot = (None, depot') →
  depot' !! name = match depot !! name with Some entry => if purged e t name entry then None else Some entry | None => None end.
Proof.
  unfold purge, purged. destruct (_ =? 0); [intros [= <-]; by destruct (depot !! name)|].
  destruct (listed e); [|done]. intros [= <-]. simpl.
  destruct (depot !! name) as [entry|] eqn:E.
  - destruct (expired e t name entry && removable e name) eqn:Hx.
    + apply map_lookup_filter_None. right. intros x Hx' Hf. pose proof (eq_trans (eq_sym Hx') E) as [= ->]. cbn [fst snd] in Hf. congruence.
    + by apply map_lookup_filter_Some.
  - apply map_lookup_filter_None. by left.
Qed.

Lemma purge_error e t depot message depot' : purge e t depot = (Some message, depot') → depot' = depot.
Proof. unfold purge. repeat case_match; by intros [= <- <-]. Qed.

Definition is_archive e t (name : string) : Prop :=
  name = archive_base e t +++ ".sql.gz" ∨ name = archive_base e t +++ ".tar.gz" ∨
  name = archive_base e t +++ ".sql.gz" +++ ".tmp" ∨ name = archive_base e t +++ ".tar.gz" +++ ".tmp".

(** What [deliver] does to the depot. *)
Lemma deliver_success e t archive depot depot' :
  0 ≤ task_RetentionDays t → deliver e t archive depot = (None, depot') →
  (∃ entry, depot !! archive = Some entry ∧ size entry ≠ 0) ∧
  (task_RemoteHost t ≠ "" → transfer t (Join (task_Destination t) archive) = true) ∧
  ∃ kept, purge e t kept = (None, depot') ∧
    (kept = depot ∨ kept = delete archive depot ∧ task_RemoteHost t ≠ "" ∧ task_RemoveLocal t = true).
Proof.
  intros Hr. unfold deliver. destruct (depot !! archive) as [entry|]; [|done].
  destruct (size entry =? 0) eqn:Hs; [done|]. bool_prop.
  destruct (String.eqb_spec (task_RemoteHost t) "") as [E|E]; cbn [negb].
  { intros Hp. split_and!; [by eexists|done|]. exists depot. auto. }
  destruct (transfer t _) eqn:Ht; [|done]. destruct (task_RemoveLocal t).
  - destruct (removable e archive); [|done]. intros Hp. split_and!; [by eexists|done|].
    exists (delete archive depot). auto.
  - intros Hp. split_and!; [by eexists|done|]. exists depot. auto.
Qed.

Lemma deliver_failure e t archive depot message depot' :
  deliver e t archive depot = (Some message, depot') →
  ∀ name, name ≠ archive → depot' !! name = depot !! name.
Proof.
  unfold deliver. intros Hd name Hne.
  repeat match type of Hd with
  | (if ?b then _ else _) = _ => first [destruct b; [simplify_eq; reflexivity|] | destruct b]
  | purge _ _ _ = _ => apply purge_error in Hd; subst; rewrite ?lookup_delete_ne by done
  end; by simplify_eq.
Qed.

(** The task of an identifier: read from its file and valid. *)
Definition configured e id t : Prop :=
  (∃ data, task_file e = Some data ∧ task_unmarshal data = Some t) ∧ task_ID t = id ∧ Validate t = None.

(** The run, up to the task and its archive. *)
Lemma Run_inv e id depot out :
  Run e id depot = out →
  (∃ t, configured e id t ∧
     out = match archive_made e t (opened e depot) with
           | (Ok archive, depot) => deliver e t archive depot
           | (Err message, depot) => (Some message, depot)
           end) ∨
  ∃ message, out = (Some message, depot) ∨ out = (Some message, opened e depot).
Proof.
  unfold Run. intros <-. destruct (full idPattern id); simpl; [|by right; eexists; left].
  destruct (task_file e) as [data|] eqn:Hf; [|by right; eexists; left].
  destruct (task_unmarshal data) as [t|] eqn:Hu; [|by right; eexists; left].
  destruct (String.eqb_spec (task_ID t) id); simpl; [|by right; eexists; left].
  destruct (Validate t) eqn:Hv; [by right; eexists; left|].
  destruct (make_directory e); simpl; [|by right; eexists; left].
  destruct (open_lock e); simpl; [|by right; eexists; left].
  destruct (lock_free e); simpl; [|by right; eexists; right]. left. exists t. unfold configured. eauto 6.
Qed.
Lemma opened_lookup e depot name :
  opened e depot !! name = depot !! name ∨ name = lock_name ∧ depot !! name = None ∧ opened e depot !! name = Some (mkEntry 0 (locked_at e) true).
Proof.
  unfold opened. destruct (depot !! lock_name) eqn:E; [by left|]. destruct (decide (name = lock_name)) as [->|Hne].
  - right. by rewrite lookup_insert_eq.
  - left. by rewrite lookup_insert_ne.
Qed.

(** What a run removes for a task is not older than the retention: its own archive is, only when more time than that goes
    by between the end of the archive and the purge. *)
Lemma purged_old e t name entry : purged e t name entry = true → task_RetentionDays t ≠ 0 ∧ modified entry < purged_at e - task_RetentionDays t * day.
Proof. unfold purged, expired. rewrite !andb_true_iff, negb_true_iff, Z.eqb_neq, Z.ltb_lt. tauto. Qed.

(** ** The names of the files of a run *)

Lemma dash_runs_safe v : ∀ b, sforall (cls alnum "._-") (dash_runs b v) = true.
Proof.
  induction v as [|c v IH]; intros b; cbn [dash_runs]; [done|]. destruct (safe_byte c) eqn:Hc.
  - cbn [sforall]. unfold safe_byte in Hc. by rewrite Hc, IH.
  - destruct b; [apply IH|]. cbn [sforall]. by rewrite IH.
Qed.
Lemma sforall_trim_left_set p q s : sforall p s = true → sforall p (trim_left_set q s) = true.
Proof. induction s as [|c s IH]; [done|]. cbn [trim_left_set]. destruct (q c); [|done]. cbn [sforall]. intros [_ ?]%andb_prop. auto. Qed.
Lemma safeName_safe v : sforall (cls alnum "._-") (safeName v) = true.
Proof.
  unfold safeName. destruct (String.eqb _ ""); [done|]. unfold trim_set. apply sforall_trim_right_set, sforall_trim_left_set, dash_runs_safe.
Qed.
Lemma safeName_ne v : safeName v ≠ "".
Proof. unfold safeName. by destruct (String.eqb_spec (trim_set (λ c, contains_byte c "-.") (dash_runs false v)) ""). Qed.
Lemma stamp_digits now : Time.in_range now → sforall (λ c, is_digit c || Ascii.eqb c "T" || Ascii.eqb c "Z") (Time.stamp now) = true.
Proof.
  intros Ht. unfold Time.stamp. destruct (Time.date_of (now / 86400)) as [[y m] d] eqn:Hd.
  pose proof (Time.year_range now y m d Ht Hd) as Hy. apply Time.date_of_spec in Hd as (_ & Hm & Hdd).
  assert (Time.month_days y m <= 31) by (unfold Time.month_days; repeat case_match; lia).
  pose proof (Time.clock_range now) as Hc. destruct (Time.clock_of (now mod 86400)) as [[h mi] s]. destruct Hc as (Hh & Hmi & Hs & _).
  assert (∀ n, 0 <= n < 100 → sforall (λ c, is_digit c || Ascii.eqb c "T" || Ascii.eqb c "Z") (Time.two n) = true) as H2.
  { intros n Hn. eapply sforall_weaken; [|by apply Time.two_digits]. by intros c ->. }
  unfold Time.four. rewrite !sforall_app, !H2; [done|lia..| |].
  - apply Z.mod_pos_bound. lia.
  - split; [apply Z.div_pos|apply Z.div_lt_upper_bound]; lia.
Qed.
(** A name of safe bytes that is longer than two of them is an entry of a directory. *)
Lemma safe_proper name : sforall (cls alnum "._-") name = true → 3 ≤ slen name → proper name.
Proof.
  intros Hs Hl. unfold proper. split_and!; [intros ->; by cbn in Hl..|]. apply contains_byte_sforall. eapply sforall_weaken; [|exact Hs].
  intros c Hc. destruct (Ascii.eqb_spec slash c) as [<-|]; [by vm_compute in Hc|done].
Qed.
Lemma is_archive_proper e t name : Time.in_range (named_at e / 10^9) → is_archive e t name → proper name.
Proof.
  intros Ht Hn. assert (sforall (cls alnum "._-") (archive_base e t) = true) as Hb.
  { unfold archive_base. rewrite !sforall_app, safeName_safe. unfold stamp. eapply sforall_weaken; [|exact (stamp_digits _ Ht)].
    intros c. unfold cls, alnum. destruct (is_digit c); [by rewrite orb_true_r|]. cbn [orb]. intros [E%Ascii.eqb_eq|E%Ascii.eqb_eq]%orb_prop; rewrite E; by vm_compute. }
  assert (0 ≤ slen (archive_base e t)) by (unfold slen; lia).
  destruct Hn as [->|[->|[->| ->]]]; (apply safe_proper; [by rewrite !sforall_app, Hb|unfold slen in *; rewrite !sapp_length; cbn [String.length]; lia]).
Qed.

(** C36: a backup run that reports success has made a non-empty archive of the configured
    task, in the stamp of the time it read, and has transferred it when the task names a
    remote host.  The archive is then in the destination, unless the task asks for its
    removal after the transfer, or unless more time than the retention went by between the end
    of the archive and the purge.  Besides, the lock file is made when there was none, and of
    the other entries the run removes exactly those the purge of the task does: with a
    retention other than zero, the regular files whose name starts with that of the task, made
    safe, and a dash (which may be archives of another task kept in the same directory), which
    are older than the retention at the time of the purge, and which can be inspected and
    removed: the errors of the removals are ignored. *)
Theorem Run_success e id depot depot' :
  Run e id depot = (None, depot') →
  ∃ t archive entry, configured e id t ∧
    (archive = archive_base e t +++ ".sql.gz" ∨ archive = archive_base e t +++ ".tar.gz") ∧
    size entry ≠ 0 ∧ modified entry = finished e ∧
    (task_RemoteHost t ≠ "" → rsync (transfer_arguments t (Join (task_Destination t) archive)) = true) ∧
    (depot' !! archive = (if purged e t archive entry then None else Some entry) ∨
     depot' !! archive = None ∧ task_RemoteHost t ≠ "" ∧ task_RemoveLocal t = true) ∧
    (purged e t archive entry = true → 0 < task_RetentionDays t ∧ finished e + task_RetentionDays t * day < purged_at e) ∧
    (∀ name, name ≠ archive →
       depot' !! name = match opened e depot !! name with
         | Some old => if purged e t name old then None else Some old
         | None => None
         end).
Proof.
  intros [(t & Hc & Ho)|[message [Ho|Ho]]]%Run_inv; [|done..]. exists t.
  pose proof (archive_made_cases e t (opened e depot)) as Hm.
  destruct (archive_made e t (opened e depot)) as [[archive|] depot1]; [|done].
  destruct Hm as [Ha [n ->]]. symmetry in Ho.
  assert (0 ≤ task_RetentionDays t) as Hr by (destruct Hc as (_ & _ & [? _]%Validate_spec); lia).
  apply deliver_success in Ho as ((entry & He & Hs) & Ht & kept & Hp & Hk); [|done].
  rewrite lookup_insert_eq in He. injection He as <-.
  exists archive, (mkEntry n (finished e) true). split_and!; try done.
  - destruct Hk as [->|(-> & ? & ?)]; [left|right].
    + by rewrite (purge_lookup _ _ _ _ archive Hp), lookup_insert_eq.
    + split; [|done]. by rewrite (purge_lookup _ _ _ _ archive Hp), lookup_delete_eq.
  - intros [? ?]%purged_old. cbn [modified] in *. lia.
  - intros name Hne. rewrite (purge_lookup _ _ _ _ name Hp).
    destruct Hk as [->|(-> & _)]; rewrite ?lookup_delete_ne, lookup_insert_ne by done; done.
Qed.

(** C37: a backup run that fails loses nothing: every entry of the destination is what
    it was, except the archive (or temporary file) of this very run, and the lock file, which
    is made when there was none. *)
Theorem Run_failure e id depot message depot' name :
  Run e id depot = (Some message, depot') →
  depot' !! name = depot !! name ∨ (∃ t, configured e id t ∧ is_archive e t name) ∨
  (name = lock_name ∧ depot !! name = None ∧ depot' !! name = Some (mkEntry 0 (locked_at e) true)).
Proof.
  assert (∀ d : Depot, d !! name = opened e depot !! name → d !! name = depot !! name ∨ (∃ t, configured e id t ∧ is_archive e t name) ∨
    (name = lock_name ∧ depot !! name = None ∧ d !! name = Some (mkEntry 0 (locked_at e) true))) as Hsame.
  { intros d ->. destruct (opened_lookup e depot name) as [?|?]; auto. }
  intros [(t & Hc & Ho)|[? [Ho|Ho]]]%Run_inv; [|by left; simplify_eq|by simplify_eq; apply Hsame].
  pose proof (archive_made_cases e t (opened e depot)) as Hm. symmetry in Ho.
  destruct (archive_made e t (opened e depot)) as [[archive|?] depot1].
  - destruct Hm as [Ha [n ->]]. destruct (decide (name = archive)) as [->|Hne].
    { right. left. exists t. split; [done|]. unfold is_archive. tauto. }
    apply Hsame. rewrite (deliver_failure _ _ _ _ _ _ Ho name Hne). by rewrite lookup_insert_ne.
  - simplify_eq. destruct Hm as [->|(x & n & _ & Hx & ->)]; [by apply Hsame|].
    destruct (decide (name = x)) as [->|Hne]; [|apply Hsame; by rewrite lookup_insert_ne].
    right. left. exists t. split; [done|]. unfold is_archive. tauto.
Qed.

(** C38: the destination of a valid task, once cleaned, is [/var/backups/aegisadmin]
    or a directory below it, without a parent reference left; and whatever the name of the
    task, the files a run makes, its archive, its temporary file and its lock file, are
    entries of that directory: their names have no slash and are no reference to a
    directory.  The time the archive is named with has a year of four digits. *)
Theorem destination_confined e t name :
  Validate t = None → Time.in_range (named_at e / 10^9) → is_archive e t name ∨ name = lock_name →
  proper name ∧ ∃ rest, Forall proper rest ∧
    clean_elements (task_Destination t) = ["var"; "backups"; "aegisadmin"] ++ rest ∧
    Join (task_Destination t) name = "/" +++ join "/" (["var"; "backups"; "aegisadmin"] ++ rest ++ [name]).
Proof.
  intros (_ & Ha & Hu)%Validate_spec Ht Hname. assert (proper name) as Hn.
  { destruct Hname as [Hname| ->]; [by eapply is_archive_proper|]. unfold proper. split_and!; by vm_compute. }
  split; [done|]. unfold under in Hu.
  assert (∃ u, Clean (task_Destination t) = "/" +++ join "/" ["var"; "backups"; "aegisadmin"] +++ u ∧
    (u = "" ∨ ∃ v, u = String slash v)) as (u & Hc & Hu').
  { apply orb_prop in Hu as [->%String.eqb_eq|[v ->]%has_prefix_spec]; [by exists ""; auto|].
    exists (String slash v). split; [done|]. right. by exists v. }
  assert (Forall proper ["var"; "backups"; "aegisadmin"]) as Hroot
    by (repeat (constructor; [by unfold proper; split_and!|]); constructor).
  destruct (clean_prefix _ _ _ Ha Hroot ltac:(done) Hc Hu') as (rest & Hr & Hp).
  exists rest. split_and!; [done..|]. rewrite Join_elements, Hr by done. by rewrite <- app_assoc.
Qed.
End theorems.

(** ** A host for the examples: every archive has one kilobyte, every transfer works. *)

Definition web_task : Task :=
  mkTask "12345678-1234-4234-8234-123456789abc" "Sites" "sites" "/var/www" "/var/backups/aegisadmin/sites"
    "backup.example.net" "backup" "/srv/backups/web" "/etc/aegisadmin-system/backup-ssh/id_ed25519" 22 2 false.
#[local] Instance toy_programs : BackupPrograms := {|
  task_unmarshal := λ s, if String.eqb s "task" then Some web_task else None;
  mysqldump := λ _, Some 1024; source_is_directory := λ _, true; tar_gzip := λ _, Some 1024;
  rsync := λ _, true |}.
(** The second of June 2024, at two o'clock; the archive takes an hour. *)
Definition hour : Z := 3600 * 10^9.
Definition toy_time : Z := 1717293600 * 10^9.
Definition toy_answers (renamed : bool) : Answers :=
  mkAnswers (Some "task") true true true true 0 renamed (λ _, true) true (λ _, true) toy_time toy_time (toy_time + hour) (toy_time + 2 * hour).
Definition toy_depot : Depot :=
  {[ "Sites-20240501T020000Z.tar.gz" := mkEntry 900 (toy_time - 32 * day) true; "other" := mkEntry 5 0 true ]}.
Definition toy_archive : string := "Sites-20240602T020000Z.tar.gz".
Definition toy_after : Depot :=
  {[ toy_archive := mkEntry 1024 (toy_time + hour) true; "other" := mkEntry 5 0 true; lock_name := mkEntry 0 toy_time true ]}.

Lemma Run_success_witness :
  Run (toy_answers true) (task_ID web_task) toy_depot = (None, toy_after) ∧
  ∃ t archive entry, configured (toy_answers true) (task_ID web_task) t ∧ modified entry = finished (toy_answers true) ∧
    (task_RemoteHost t ≠ "" → rsync (transfer_arguments t (Join (task_Destination t) archive)) = true) ∧
    (∀ name, name ≠ archive →
       toy_after !! name = match opened (toy_answers true) toy_depot !! name with
         | Some old => if purged (toy_answers true) t name old then None else Some old
         | None => None
         end).
Proof.
  assert (Run (toy_answers true) (task_ID web_task) toy_depot = (None, toy_after)) as E by (apply (bool_decide_eq_true_1 _); vm_compute; reflexivity).
  split; [exact E|]. destruct (Run_success (toy_answers true) (task_ID web_task) toy_depot toy_after E) as (t & archive & entry & H1 & _ & _ & H2 & H3 & _ & _ & H4).
  exists t, archive, entry. split_and!; assumption.
Defined.

Lemma Run_failure_witness :
  let after := <[toy_archive +++ ".tmp" := mkEntry 1024 (toy_time + hour) true]> (<[lock_name := mkEntry 0 toy_time true]> toy_depot) in
  after !! "other" = toy_depot !! "other" ∨
  (∃ t, configured (toy_answers false) (task_ID web_task) t ∧ is_archive (toy_answers false) t "other") ∨
  ("other" = lock_name ∧ toy_depot !! "other" = None ∧ after !! "other" = Some (mkEntry 0 toy_time true)).
Proof.
  apply (Run_failure (toy_answers false) (task_ID web_task) toy_depot "rename").
  apply (bool_decide_eq_true_1 _). vm_compute. reflexivity.
Defined.

(** A task whose name is a path to another directory. *)
Definition escaping_task : Task :=
  mkTask "12345678-1234-4234-8234-123456789abc" "../../../etc/cron.d/x" "sites" "/var/www" "/var/backups/aegisadmin/sites/../web/"
    "" "" "" "/etc/aegisadmin-system/backup-ssh/id_ed25519" 22 2 false.
Lemma destination_confined_witness :
  archive_base (toy_answers true) escaping_task = "etc-cron.d-x-20240602T020000Z" ∧
  proper (archive_base (toy_answers true) escaping_task +++ ".tar.gz") ∧ ∃ rest, Forall proper rest ∧
    clean_elements (task_Destination escaping_task) = ["var"; "backups"; "aegisadmin"] ++ rest ∧
    Join (task_Destination escaping_task) (archive_base (toy_answers true) escaping_task +++ ".tar.gz") =
      "/" +++ join "/" (["var"; "backups"; "aegisadmin"] ++ rest ++ [archive_base (toy_answers true) escaping_task +++ ".tar.gz"]).
Proof.
  split; [vm_compute; reflexivity|].
  apply (destination_confined (toy_answers true) escaping_task); [vm_compute; reflexivity|vm_compute; split; [discriminate|reflexivity]|left; right; left; reflexivity].
Defined.

(** ** What the purge and the remote shell accept *)

Definition task_named (id name key : string) (retention : Z) : Task :=
  mkTask id name "sites" "/var/www" "/var/backups/aegisadmin" "backup.example.net" "backup" "/srv/web" key 22 retention false.
Definition good_key : string := "/etc/aegisadmin-system/backup-ssh/id_ed25519".

(** Two valid tasks share the default destination; the name of one is the name of the
    other, a dash and more.  The run of the first removes the archives of the second,
    which the second keeps for a year. *)
Theorem purge_crosses_tasks :
  ∃ t1 t2 e archive old, Validate t1 = None ∧ Validate t2 = None ∧ task_ID t1 ≠ task_ID t2 ∧
    task_Destination t1 = task_Destination t2 ∧ task_Name t1 ≠ task_Name t2 ∧
    archive = archive_base (toy_answers true) t2 +++ ".tar.gz" ∧
    expired e t1 archive old = true ∧ expired e t2 archive old = false.
Proof.
  exists (task_named "12345678-1234-4234-8234-123456789abc" "Sites" good_key 2),
    (task_named "12345678-1234-4234-8234-123456789abd" "Sites-clients" good_key 365),
    (toy_answers true), "Sites-clients-20240602T020000Z.tar.gz", (mkEntry 1024 (toy_time - 10 * day) true).
  split_and!; first [reflexivity | discriminate].
Qed.

(** A key path with spaces passes the validation and puts options of its own on the
    command line rsync splits into words. *)
Theorem remote_shell_splits_key :
  ∃ t, Validate t = None ∧
    fields (remote_shell t) !! 3%nat = Some "-oProxyCommand=id" ∧ fields (remote_shell t) !! 0%nat = Some "ssh".
Proof.
  exists (task_named "12345678-1234-4234-8234-123456789abc" "Sites" (good_key +++ " -oProxyCommand=id") 2).
  split_and!; vm_compute; reflexivity.
Qed.
