(* ===== verification/CronTasks.v ===== *)
(** * The cron domain: [domain/cron/cron.go], [users.go], [manage.go], [backup.go], [profile.go]

    The handler of the cron commands: who may have a crontab managed, the edition of a
    crontab under its lock, the scheduled backups and the start of a task.  The
    programs run (crontab, systemd-run) are parameters; the files read and the answers
    of the system calls are those of an [Answers] record.  The state is the crontabs,
    the files written and the units started. *)

From S2P Require Import Prelude GoStrings StringFacts Regex Codec Json Crontab.
From S2P Require Api Backup.
From Stdlib Require Import Ascii String.
#[local] Open Scope string_scope.
#[local] Open Scope list_scope.
#[local] Open Scope Z_scope.

Import Api(Reply, failure, success, VStr, VInt, VBool, Value).

(** ** Paths and profile *)

Record Paths := mkPaths {
  packageName : string; service : string; unit_ : string;
  DpkgQuery : string; RPM : string; Systemctl : string; Anacron : string; Crontab : string;
  SystemdRun : string; Runner : string; Anacrontab : string; SystemCrontab : string;
  CronDirectory : string; SpoolDirectory : string; BackupDirectory : string; ResultDirectory : string;
  BackupTaskDirectory : string; BackupCronDirectory : string; BackupExecutable : string }.

Definition debian : Paths :=
  mkPaths "cron" "cron" "cron.service"
    "/usr/bin/dpkg-query" "/usr/bin/rpm" "/usr/bin/systemctl" "/usr/sbin/anacron" "/usr/bin/crontab"
    "/usr/bin/systemd-run" "/usr/local/lib/aegisadmin-system/libexec/cron-runner.py"
    "/etc/anacrontab" "/etc/crontab" "/etc/cron.d" "/var/spool/cron/crontabs"
    "/var/backups/aegisadmin-system/cron" "/run/aegisadmin-system/cron"
    "/etc/aegisadmin-system/backup-tasks" "/etc/cron.d" "/usr/libexec/aegisadmin/aegisadmin-backup".

Definition with_profile (b : Paths) (packageName service unit_ crontab spool anacron : string) : Paths :=
  mkPaths packageName service unit_ (DpkgQuery b) (RPM b) (Systemctl b) anacron crontab (SystemdRun b)
    (Runner b) (Anacrontab b) (SystemCrontab b) (CronDirectory b) spool (BackupDirectory b)
    (ResultDirectory b) (BackupTaskDirectory b) (BackupCronDirectory b) (BackupExecutable b).

Definition one_of (value : string) (allowed : list string) : bool := existsb (String.eqb value) allowed.

(** One line of the profile: a known key with an allowed value changes its path; the
    keys with one allowed value change nothing. *)
Definition profile_line (b : Paths) (text : string) : Paths :=
  let line := trim_space text in
  if String.eqb line "" || has_prefix line "#" then b
  else
    let '(key, value, found) := cut "=" line in
    let value := trim_space value in
    let key := trim_space key in
    if negb found || String.eqb value "auto" then b
    else if String.eqb key "package" && one_of value ["cron"; "cronie"] then
      with_profile b value (service b) (unit_ b) (Crontab b) (SpoolDirectory b) (Anacron b)
    else if String.eqb key "unit" && one_of value ["cron.service"; "crond.service"] then
      with_profile b (packageName b) (trim_suffix value ".service") value (Crontab b) (SpoolDirectory b) (Anacron b)
    else if String.eqb key "crontab" && one_of value ["/usr/bin/crontab"; "/usr/local/bin/crontab"] then
      with_profile b (packageName b) (service b) (unit_ b) value (SpoolDirectory b) (Anacron b)
    else if String.eqb key "spool_directory" && one_of value ["/var/spool/cron/crontabs"; "/var/spool/cron"] then
      with_profile b (packageName b) (service b) (unit_ b) (Crontab b) value (Anacron b)
    else if String.eqb key "anacron" && one_of value ["/usr/sbin/anacron"; "/usr/bin/anacron"] then
      with_profile b (packageName b) (service b) (unit_ b) (Crontab b) (SpoolDirectory b) value
    else b.
(** [loadProfile], the lines of the file as the scanner gives them. *)
Definition loadProfile (b : Paths) (lines : option (list string)) : Paths :=
  match lines with Some lines => fold_left profile_line lines b | None => b end.

(** [NewLinuxBackend]. *)
Definition NewLinuxBackend (executable : string → bool) (profile : option (list string)) : Paths :=
  let b := if negb (executable (DpkgQuery debian)) && executable (RPM debian)
           then with_profile debian "cronie" "crond" "crond.service" (Crontab debian) "/var/spool/cron" (Anacron debian)
           else debian in
  loadProfile b profile.

(** ** Users *)

Record passwdEntry := mkPasswd { pw_name : string; pw_uid : Z; pw_home : string; pw_shell : string }.
Record CronUser := mkCronUser { cu_Name : string; cu_UID : Z; cu_System : bool }.

Definition defaultMinimumUserID : Z := 1000.

Definition passwd_line (line : string) : option passwdEntry :=
  match split ":" line with
  | [name; _; uid; _; _; home; shell] =>
      match atoi uid with
      | Some uid => if safeName name && (0 <=? uid) then Some (mkPasswd name uid home shell) else None
      | None => None
      end
  | _ => None
  end.
Fixpoint passwd_lines (lines : list string) : option (list passwdEntry) :=
  match lines with
  | [] => Some []
  | line :: rest =>
      if String.eqb line "" then passwd_lines rest
      else match passwd_line line with
           | Some entry => match passwd_lines rest with Some l => Some (entry :: l) | None => None end
           | None => None
           end
  end.
Definition readPasswd (content : option string) : option (list passwdEntry) :=
  match content with Some text => passwd_lines (split nl text) | None => None end.

(** The first [UID_MIN] with a positive number. *)
Fixpoint minimum_line (lines : list string) : Z :=
  match lines with
  | [] => defaultMinimumUserID
  | raw :: rest =>
      match fields (trim_space (before "#" raw)) with
      | ["UID_MIN"; value] =>
          match atoi value with
          | Some v => if 0 <? v then v else minimum_line rest
          | None => minimum_line rest
          end
      | _ => minimum_line rest
      end
  end.
Definition readMinimumUID (content : option string) : Z :=
  match content with Some text => minimum_line (split nl text) | None => defaultMinimumUserID end.

(** A file that may be missing. *)
Inductive file := Missing | Unreadable | Content (text : string).

Fixpoint allowed_lines (lines : list string) : option (gset string) :=
  match lines with
  | [] => Some ∅
  | raw :: rest =>
      let value := trim_space (before "#" raw) in
      if String.eqb value "" then allowed_lines rest
      else if negb (safeName value) || String.eqb value "root" then None
      else match allowed_lines rest with Some l => Some ({[value]} ∪ l) | None => None end
  end.
Definition readAllowedUsers (content : file) : option (gset string) :=
  match content with
  | Missing => Some ∅
  | Unreadable => None
  | Content text => allowed_lines (split nl text)
  end.

(** [filepath.Base] of an absolute path. *)
Definition path_base (path : string) : string :=
  let p := trim_right_set (Ascii.eqb Backup.slash) path in
  if String.eqb p "" then "/" else List.last (split Backup.slash p) "".

Definition usableLogin (entry : passwdEntry) : bool :=
  if negb (Backup.IsAbs (pw_home entry)) || negb (Backup.IsAbs (pw_shell entry)) then false
  else let shell := path_base (pw_shell entry) in
       negb (String.eqb shell "nologin") && negb (String.eqb shell "false").

(** The configuration files the users are read from. *)
Record UserFiles := mkUserFiles {
  passwd_file : option string; login_defs : option string;
  cron_users : file; cron_users_deny : file }.

Definition cron_user (minimumUID : Z) (explicit denied : gset string) (entry : passwdEntry) : option CronUser :=
  if String.eqb (pw_name entry) "root" || (pw_uid entry =? 65534) then None
  else if bool_decide (pw_name entry ∈ denied) then None
  else
    let human := (minimumUID <=? pw_uid entry) && usableLogin entry in
    if human || bool_decide (pw_name entry ∈ explicit)
    then Some (mkCronUser (pw_name entry) (pw_uid entry) (negb human)) else None.

(** [users], before the sort by name. *)
Definition users_unsorted (f : UserFiles) : option (list CronUser) :=
  match readPasswd (passwd_file f) with
  | None => None
  | Some entries =>
      let minimumUID := readMinimumUID (login_defs f) in
      match readAllowedUsers (cron_users f) with
      | None => None
      | Some explicit =>
          match readAllowedUsers (cron_users_deny f) with
          | None => None
          | Some denied => Some (omap (cron_user minimumUID explicit denied) entries)
          end
      end
  end.

Definition editable (f : UserFiles) (owner : string) : bool :=
  match users_unsorted f with
  | Some users => existsb (λ u, String.eqb (cu_Name u) owner) users
  | None => false
  end.

(** ** The editor of a crontab *)

Record Host := mkHost {
  tables : gmap string string;              (** the crontab of each user that has one *)
  host_files : gmap string string;          (** the files written, by path *)
  units : list (list string) }.             (** the arguments of each unit started *)

(** The answers of [Runner.Run] for the programs of the cron domain. *)
Class CronPrograms := {
  crontab_list : string → option string → string * Z;      (** [crontab -u owner -l] *)
  crontab_check : string → string → string * Z;            (** [crontab -u owner -n file] *)
  crontab_install : string → string → option string → option string * Z;
                                    (** [crontab -u owner file]: the table left and the status *)
  systemd_run : list string → Z;
  run_program : string → list string → string * Z;         (** the programs that only read *)
}.

(** What crontab(1) documents: [-l] prints the table, or fails with status 1 when there
    is none; installing a file, when it succeeds, makes it the table. *)
Class CronLaws `{CronPrograms} : Prop := {
  list_table owner table : crontab_list owner (Some table) = (table, 0);
  list_none owner : (crontab_list owner None).2 = 1;
  install_table owner content old new : crontab_install owner content old = (new, 0) → new = Some content;
}.

(** The system calls that can fail. *)
Inductive osCall :=
| LockDirectory | LockFile | LockAcquire | BackupDirectoryCheck | BackupFile | TempFile
| ResultDirectoryCheck | ResultFile | TaskDirectoryCheck | TaskFile | CronFile | RemoveCron | RemoveTask.
#[global] Instance osCall_eq_dec : EqDecision osCall.
Proof. solve_decision. Defined.

Record Answers := mkAnswers {
  user_files : UserFiles;
  user_Lookup : string → bool;
  grants : osCall → bool;
  random : option string;                   (** sixteen random bytes *)
  executable : string → bool;
  secureExecutable : string → bool;
  stale_results : list string;              (** the result files older than a day *)
  stamp : string }.                         (** the time as [20060102T150405.000000Z] *)

Definition data := list (string * Value).

Definition refuse {A} (exit : Z) (code message : string) (h : Host) : res Reply A * Host :=
  (Err (failure exit code message), h).

Definition action_codes (action : string) : string * string :=
  if String.eqb action "create" then ("CRON_TASK_CREATE_FAILED", "La création de la tâche Cron a échoué.")
  else if String.eqb action "update" then ("CRON_TASK_UPDATE_FAILED", "La modification de la tâche Cron a échoué.")
  else if String.eqb action "suspend" then ("CRON_TASK_SUSPEND_FAILED", "La suspension de la tâche Cron a échoué.")
  else if String.eqb action "resume" then ("CRON_TASK_RESUME_FAILED", "La réactivation de la tâche Cron a échoué.")
  else if String.eqb action "delete" then ("CRON_TASK_DELETE_FAILED", "La suppression de la tâche Cron a échoué.")
  else if String.eqb action "run" then ("CRON_TASK_RUN_FAILED", "Le lancement de la tâche Cron a échoué.")
  else ("", "").
Definition actionFailure {A} (action : string) (h : Host) : res Reply A * Host :=
  refuse 10 (action_codes action).1 (action_codes action).2 h.

Definition invalid_task : Reply :=
  failure 2 "INVALID_CRON_TASK" "Les paramètres de la tâche Cron sont invalides.".
Definition invalid_state : Reply :=
  failure 5 "INVALID_CRON_TASK_STATE" "L’état actuel de la tâche Cron interdit cette action.".
Definition not_found : Reply :=
  failure 5 "CRON_TASK_NOT_FOUND" "La tâche Cron demandée est introuvable.".
Definition action_failed (action : string) : Reply :=
  failure 10 (action_codes action).1 (action_codes action).2.

Definition set_table (owner : string) (table : option string) (h : Host) : Host :=
  mkHost (partial_alter (λ _, table) owner (tables h)) (host_files h) (units h).
Definition write_file (path content : string) (h : Host) : Host :=
  mkHost (tables h) (<[path := content]> (host_files h)) (units h).
Definition remove_file (path : string) (h : Host) : Host :=
  mkHost (tables h) (delete path (host_files h)) (units h).
Definition start_unit (arguments : list string) (h : Host) : Host :=
  mkHost (tables h) (host_files h) (units h ++ [arguments]).

(** What an edition asks for. *)
Record Edition := mkEdition { ed_id : string; ed_enabled : bool; ed_lines : list string }.

(** The middle of [manage]: the lines after the action, from the records read. *)
Definition edit (action id schedule command : string) (random : option string)
    (lines : list string) (records : list crecord) : res Reply Edition :=
  if String.eqb action "create" then
    match newUUID random with
    | None => Err (action_failed action)
    | Some new => Ok (mkEdition new true (lines ++ [activeMarker new; task_line schedule command]))
    end
  else match findRecord records id with
  | None => Err not_found
  | Some task =>
      match (if rec_managed task then Some id else newUUID random) with
      | None => Err (action_failed action)
      | Some resultID =>
          let put enabled replacement :=
            Ok (mkEdition resultID enabled (replace lines (rec_start task) (rec_end task) replacement)) in
          if String.eqb action "update" then
            let line := task_line schedule command in
            if rec_enabled task then put true [activeMarker resultID; line]
            else put false [suspendedMarker resultID line]
          else if String.eqb action "suspend" then
            if rec_enabled task then put false [suspendedMarker resultID (rec_line task)] else Err invalid_state
          else if String.eqb action "resume" then
            if rec_enabled task then Err invalid_state else put true [activeMarker resultID; rec_line task]
          else if String.eqb action "delete" then put false []
          else put true []
      end
  end.

(** [unsupportedCronValidation]: a crontab without the option [-n]. *)
Definition unsupportedCronValidation `{UnicodeCase} (output : string) : bool :=
  let message := to_lower output in
  contains message "invalid option" || contains message "illegal option" ||
  contains message "unknown option" || (contains message "usage:" && contains message "crontab").

Section backend.
Context `{CronPrograms} `{UnicodeCase}.
Context (b : Paths).

(** [backup]: a copy of the table under a name of its own. *)
Definition backup_path (a : Answers) (owner : string) : string :=
  Backup.Join (BackupDirectory b) (stamp a +++ "-" +++ owner +++ ".crontab").
Definition backup (a : Answers) (owner content : string) (h : Host) : option Host :=
  if grants a BackupDirectoryCheck && grants a BackupFile &&
     bool_decide (host_files h !! backup_path a owner = None)
  then Some (write_file (backup_path a owner) content h) else None.

(** [install]: checked first when the program knows how, then installed. *)
Definition install (a : Answers) (action owner : string) (lines : list string) (h : Host) : option Reply * Host :=
  let content := content_of lines in
  if negb (grants a TempFile) then (Some (action_failed action), h)
  else
    let (output, status) := crontab_check owner content in
    if negb (status =? 0) && negb (unsupportedCronValidation output) then (Some invalid_task, h)
    else
      let (table, status) := crontab_install owner content (tables h !! owner) in
      let h := set_table owner table h in
      if status =? 0 then (None, h) else (Some (action_failed action), h).

(** ** Running a task *)

Definition result_path (name : string) : string := Backup.Join (ResultDirectory b) name.
Definition hex_id (random : option string) : option string := hex_encode <$> random.

(** [json.Marshal] of the pending result: the keys in order. *)
Definition pending_result (execution : string) : string :=
  json_object [("duration_ms", "0"); ("execution_id", json_quote execution); ("exit_code", "null");
    ("status", json_quote "running"); ("stderr", json_quote ""); ("stdout", json_quote "");
    ("timed_out", "false"); ("truncated", "false")].

Definition unit_arguments (execution owner command : string) : list string :=
  ["--quiet"; "--collect"; "--unit=aegisadmin-cron-run-" +++ execution; "--property=Type=exec";
   "--property=RuntimeMaxSec=" +++ (if String.eqb owner "root" then "2h10min" else "70s");
   Runner b; execution; owner; command].

Definition startExecution (a : Answers) (owner taskID command : string) (h : Host) : res Reply data * Host :=
  if negb (secureExecutable a (Runner b)) then actionFailure "run" h
  else if negb (grants a ResultDirectoryCheck) then actionFailure "run" h
  else
    let h := foldr (λ name, remove_file (result_path name)) h (stale_results a) in
    match hex_id (random a) with
    | None => actionFailure "run" h
    | Some execution =>
        if negb (grants a ResultFile) then actionFailure "run" h
        else
          let path := result_path (execution +++ ".json") in
          let h := write_file path (pending_result execution +++ snl) h in
          let arguments := unit_arguments execution owner command in
          if systemd_run arguments =? 0 then
            (Ok [("action", VStr "run"); ("user", VStr owner); ("id", VStr taskID);
                 ("execution_id", VStr execution); ("result", VStr "scheduled")], start_unit arguments h)
          else actionFailure "run" (remove_file path h)
    end.

(** ** [manage] *)

Definition arg (args : list string) (n : nat) : string := default "" (args !! n).

Definition is_edit (action : string) : bool := String.eqb action "create" || String.eqb action "update".
(** The identifier, schedule and command of the arguments. *)
Definition task_arguments (action : string) (args : list string) : string * string * string :=
  if String.eqb action "create" then ("", arg args 1, arg args 2)
  else if String.eqb action "update" then (arg args 1, arg args 2, arg args 3)
  else (arg args 1, "", "").

(** Under the lock: the table is read, edited, saved and installed. *)
Definition manage_locked (a : Answers) (action owner id schedule command : string) (h : Host) : res Reply data * Host :=
  let (output, status) := crontab_list owner (tables h !! owner) in
  if negb (status =? 0) && negb (status =? 1) then actionFailure action h
  else
    let original := if status =? 1 then "" else output in
    let lines := splitContent original in
    match parseRecords owner lines with
    | Err _ => (Err invalid_task, h)
    | Ok records =>
        if String.eqb action "run" then
          match findRecord records id with
          | None => (Err not_found, h)
          | Some task =>
              if rec_enabled task then startExecution a owner id (rec_command task) h
              else (Err invalid_state, h)
          end
        else match edit action id schedule command (random a) lines records with
        | Err reply => (Err reply, h)
        | Ok edition =>
            match backup a owner original h with
            | None => actionFailure action h
            | Some h =>
                match install a action owner (ed_lines edition) h with
                | (Some reply, h) => (Err reply, h)
                | (None, h) =>
                    (Ok [("action", VStr action); ("user", VStr owner); ("id", VStr (ed_id edition));
                         ("enabled", VBool (ed_enabled edition)); ("result", VStr "success")], h)
                end
            end
        end
    end.

Definition manage (a : Answers) (action : string) (args : list string) (h : Host) : res Reply data * Host :=
  let owner := arg args 0 in
  if negb (editable (user_files a) owner) then
    refuse 2 "INVALID_CRON_USER" "L’utilisateur Cron demandé n’est pas autorisé." h
  else if negb (user_Lookup a owner) then (Err invalid_task, h)
  else
    let '(id, schedule, command) := task_arguments action args in
    if negb (String.eqb action "create") && negb (managedID id) && negb (legacyID id) then
      refuse 2 "INVALID_CRON_TASK_ID" "L’identifiant de la tâche Cron est invalide." h
    else if is_edit action && negb (validTaskInput schedule command) then (Err invalid_task, h)
    else if negb (grants a LockDirectory) || negb (grants a LockFile) || negb (grants a LockAcquire)
    then actionFailure action h
    else manage_locked a action owner id schedule command h.

(** ** Scheduled backups *)

Definition label_letter (c : ascii) : bool := is_upper c || is_lower c || is_digit c.
(** A code point of [[:alnum:]À-ÿ], or of the class with [ ._-] after the first:
    U+00C0 to U+00FF are two bytes, 195 and a continuation byte. *)
Fixpoint label_points (punctuation : bool) (s : string) : option nat :=
  match s with
  | EmptyString => Some O
  | String c s' =>
      if label_letter c || (punctuation && contains_byte c " ._-") then S <$> label_points true s'
      else match s' with
           | String d s'' =>
               if (byte c =? 195) && (128 <=? byte d) && (byte d <=? 191) then S <$> label_points true s'' else None
           | EmptyString => None
           end
  end.
(** [backupLabel]: one letter or digit, then at most 63 more. *)
Definition backupLabel (s : string) : bool :=
  match label_points false s with Some n => (1 <=? n)%nat && (n <=? 64)%nat | None => false end.

(** [json.MarshalIndent] of a task: its fields in the order of the structure. *)
Definition task_json (t : Backup.Task) : string :=
  json_indented
    [("ID", json_quote (Backup.task_ID t)); ("Name", json_quote (Backup.task_Name t));
     ("Kind", json_quote (Backup.task_Kind t)); ("Source", json_quote (Backup.task_Source t));
     ("Destination", json_quote (Backup.task_Destination t));
     ("RemoteHost", json_quote (Backup.task_RemoteHost t)); ("RemoteUser", json_quote (Backup.task_RemoteUser t));
     ("RemotePath", json_quote (Backup.task_RemotePath t)); ("SSHKey", json_quote (Backup.task_SSHKey t));
     ("RemotePort", itoa (Backup.task_RemotePort t)); ("RetentionDays", itoa (Backup.task_RetentionDays t));
     ("RemoveLocal", json_bool (Backup.task_RemoveLocal t))].

Definition task_path (id : string) : string := Backup.Join (BackupTaskDirectory b) (id +++ ".json").
Definition cron_path (id : string) : string := Backup.Join (BackupCronDirectory b) ("aegisadmin-backup-" +++ id).
Definition cron_text (name schedule id : string) : string :=
  "# Sauvegarde gérée par AegisAdmin : " +++ name +++ snl +++
  schedule +++ " root " +++ BackupExecutable b +++ " " +++ id +++ snl.

Definition create_failed {A} (message : string) (h : Host) : res Reply A * Host :=
  refuse 10 "BACKUP_TASK_CREATE_FAILED" message h.
Definition invalid_backup (message : string) : Reply := failure 2 "INVALID_BACKUP_TASK" message.

(** The task of the arguments, before its identifier is known to be free. *)
Definition backup_task (args : list string) (id : string) (port retention : Z) (removeLocal : bool) : Backup.Task :=
  Backup.mkTask id (trim_space (arg args 0)) (arg args 1) (trim_space (arg args 2)) (trim_space (arg args 3))
    (trim_space (arg args 5)) (trim_space (arg args 6)) (trim_space (arg args 8)) (trim_space (arg args 9))
    port retention removeLocal.

Definition createBackupTask (a : Answers) (args : list string) (h : Host) : res Reply data * Host :=
  let name := trim_space (arg args 0) in
  let kind := arg args 1 in
  let schedule := normalizeSchedule (arg args 4) in
  match atoi (arg args 7), atoi (arg args 10), parse_bool (arg args 11) with
  | Some port, Some retention, Some removeLocal =>
      if negb (backupLabel name)
         || (negb (String.eqb kind "mysql") && negb (String.eqb kind "apache") && negb (String.eqb kind "sites"))
         || negb (validTaskInput schedule "true")
      then (Err (invalid_backup "Les paramètres de la sauvegarde sont invalides."), h)
      else match newUUID (random a) with
      | None => create_failed "La création de la sauvegarde a échoué." h
      | Some id =>
          let task := backup_task args id port retention removeLocal in
          match Backup.Validate task with
          | Some message => (Err (invalid_backup message), h)
          | None =>
              if negb (secureExecutable a (BackupExecutable b)) then
                refuse 3 "DEPENDENCY_NOT_FOUND" "L’exécuteur de sauvegarde sécurisé est introuvable." h
              else if negb (grants a TaskDirectoryCheck) then
                create_failed "Le stockage sécurisé des tâches est indisponible." h
              else if negb (grants a TaskFile) then
                create_failed "La configuration de la sauvegarde n’a pas pu être écrite." h
              else
                let h := write_file (task_path id) (task_json task +++ snl) h in
                if negb (grants a CronFile) then
                  create_failed "La planification de la sauvegarde a échoué." (remove_file (task_path id) h)
                else
                  (Ok [("id", VStr id); ("name", VStr name); ("kind", VStr kind); ("result", VStr "success")],
                   write_file (cron_path id) (cron_text name schedule id) h)
          end
      end
  | _, _, _ => (Err (invalid_backup "Les paramètres de la sauvegarde sont invalides."), h)
  end.

Definition deleteBackupTask (a : Answers) (id : string) (h : Host) : res Reply data * Host :=
  if negb (managedID id) then (Err (invalid_backup "L’identifiant de sauvegarde est invalide."), h)
  else match host_files h !! task_path id with
  | None => refuse 5 "BACKUP_TASK_NOT_FOUND" "La tâche de sauvegarde est introuvable." h
  | Some _ =>
      if negb (grants a RemoveCron) && bool_decide (host_files h !! cron_path id ≠ None) then
        refuse 10 "BACKUP_TASK_DELETE_FAILED" "La planification n’a pas pu être supprimée." h
      else
        let h := remove_file (cron_path id) h in
        if negb (grants a RemoveTask) then
          refuse 10 "BACKUP_TASK_DELETE_FAILED" "La configuration n’a pas pu être supprimée." h
        else (Ok [("id", VStr id); ("result", VStr "success")], remove_file (task_path id) h)
  end.

Definition runBackupTask (a : Answers) (id : string) (h : Host) : res Reply data * Host :=
  if negb (managedID id) then (Err (invalid_backup "L’identifiant de sauvegarde est invalide."), h)
  else match host_files h !! task_path id with
  | None => refuse 5 "BACKUP_TASK_NOT_FOUND" "La tâche de sauvegarde est introuvable." h
  | Some _ => startExecution a "root" id (BackupExecutable b +++ " " +++ id) h
  end.

(** ** Status and version *)

Definition property (name fallback : string) : string :=
  let (value, _) := run_program (Systemctl b) ["show"; "--property=" +++ name; "--value"; "--"; unit_ b] in
  if String.eqb value "" || String.eqb value "[not set]" then fallback else value.
Definition succeeds (arguments : list string) : bool := (run_program (Systemctl b) arguments).2 =? 0.
(** A number of the status, 0 when it cannot be read or is negative. *)
Definition counter (name : string) : Value :=
  VInt match atoi (property name "0") with Some v => if 0 <=? v then v else 0 | None => 0 end.

Definition status : data :=
  let load := property "LoadState" "not-found" in
  let exists_ := String.eqb load "loaded" || String.eqb load "masked" in
  let head := [("service", VStr (service b)); ("unit", VStr (unit_ b)); ("exists", VBool exists_)] in
  if negb exists_ then
    head ++ [("active", VBool false); ("enabled", VBool false); ("load_state", VStr load);
      ("active_state", VStr "inactive"); ("state", VStr "unknown"); ("main_pid", VInt 0);
      ("memory_bytes", VInt 0); ("tasks", VInt 0)]
  else
    head ++ [("active", VBool (succeeds ["is-active"; "--quiet"; "--"; unit_ b]));
      ("enabled", VBool (succeeds ["is-enabled"; "--quiet"; "--"; unit_ b])); ("load_state", VStr load);
      ("active_state", VStr (property "ActiveState" "inactive")); ("state", VStr (property "SubState" "unknown"));
      ("main_pid", counter "MainPID"); ("memory_bytes", counter "MemoryCurrent"); ("tasks", counter "TasksCurrent")].

(** The answer of a program that succeeded with some text. *)
Definition answered (program : string) (arguments : list string) : option string :=
  let (value, status) := run_program program arguments in
  if (status =? 0) && negb (String.eqb (trim_space value) "") then Some (trim_space value) else None.
Definition packageVersion (a : Answers) : string :=
  let first := if executable a (DpkgQuery b)
    then answered (DpkgQuery b) ["--show"; "--showformat=${Version}"; "--"; packageName b] else None in
  match first with
  | Some version => version
  | None =>
      let second := if executable a (RPM b)
        then answered (RPM b) ["-q"; "--qf"; "%{EVR}"; packageName b] else None in
      match second with
      | Some version => version
      | None =>
          let (value, status) := run_program (Crontab b) ["--version"] in
          if status =? 0 then trim_space (hd "" (split nl value)) else ""
      end
  end.

(** ** The result of a run *)

Definition maximumResultBytes : Z := 256 * 1024.
Record ExecutionResult := mkResult {
  ExecutionID : string; Status : string; ExitCode_ : option Z; TimedOut : bool; Truncated : bool;
  DurationMS : Z; Stdout : string; Stderr : string }.

(** [os.Lstat]: missing, an error, or what the check of mode and owner says, the size
    and the age in nanoseconds. *)
Inductive stat := StatMissing | StatError | Stat (secure : bool) (size age : Z).

Definition required_fields : list string :=
  ["execution_id"; "status"; "exit_code"; "timed_out"; "truncated"; "duration_ms"; "stdout"; "stderr"].

Definition validResult (r : ExecutionResult) : bool :=
  if negb (one_of (Status r) ["running"; "finished"; "failed"]) then false
  else (0 <=? DurationMS r) && (slen (Stdout r) + slen (Stderr r) <=? maximumResultBytes).

Definition result_unreadable : Reply :=
  failure 10 "CRON_EXECUTION_READ_FAILED" "Le résultat de l’exécution Cron n’a pas pu être lu.".
Definition result_missing : Reply :=
  failure 5 "CRON_EXECUTION_NOT_FOUND" "L’exécution Cron demandée est introuvable.".

Section results.
(** The JSON decoder on the bytes of a result file: the names of its members, and
    the members decoded when every one has its type. *)
Context (decode : string → option (list string * option ExecutionResult)).
(** The directory, the file, its bytes. *)
Context (directory file : stat) (content : option string).

Definition decoded_result : option ExecutionResult :=
  match content with
  | None => None
  | Some text =>
      match decode text with
      | Some (members, Some r) => if forallb (λ f, one_of f members) required_fields then Some r else None
      | _ => None
      end
  end.

Definition runResult (id : string) : res Reply ExecutionResult :=
  if negb (executionID id) then
    Err (failure 2 "INVALID_CRON_EXECUTION_ID" "L’identifiant d’exécution Cron est invalide.")
  else match directory with
  | StatMissing => Err result_missing
  | StatError | Stat false _ _ => Err result_unreadable
  | Stat true _ _ =>
      match file with
      | StatMissing => Err result_missing
      | StatError => Err result_unreadable
      | Stat secure size age =>
          if negb secure || (maximumResultBytes <? size) then Err result_unreadable
          else match decoded_result with
          | None => Err result_unreadable
          | Some r =>
              if negb (String.eqb (ExecutionID r) id) || negb (validResult r) then Err result_unreadable
              else if String.eqb (Status r) "running" && (75 * 10^9 <? age) then
                Ok (mkResult id "failed" None true false 75000 ""
                      "Le résultat de l’exécution Cron n’est pas disponible.")
              else Ok r
          end
      end
  end.
End results.

(** The members of the answer, as the result is encoded then decoded again. *)
Definition result_data (r : ExecutionResult) : data :=
  [("execution_id", VStr (ExecutionID r)); ("status", VStr (Status r));
   ("exit_code", match ExitCode_ r with Some z => VInt z | None => Api.VNil end);
   ("timed_out", VBool (TimedOut r)); ("truncated", VBool (Truncated r)); ("duration_ms", VInt (DurationMS r));
   ("stdout", VStr (Stdout r)); ("stderr", VStr (Stderr r))].

(** ** Listing the jobs *)

(** A directory entry: its name, and whether it is a regular file when its
    information can be read. *)
Record Dirent := mkDirent { d_name : string; d_regular : option bool }.
Inductive directory := NoDirectory | DirectoryError | Entries (l : list Dirent).

Record Tree := mkTree {
  read_directory : string → directory;
  read_file : string → option string;
  regular_file : string → bool;
  executable_file : string → bool;
  user_exists : string → bool;
  results_directory : stat;
  stat_result : string → stat }.

Fixpoint safe_entries (path : string) (entries : list Dirent) : option (list string) :=
  match entries with
  | [] => Some []
  | e :: rest =>
      if negb (safeName (d_name e)) then safe_entries path rest
      else match d_regular e with
      | None => None
      | Some regular =>
          match safe_entries path rest with
          | None => None
          | Some paths => Some (if regular then Backup.Join path (d_name e) :: paths else paths)
          end
      end
  end.
Definition safeFiles (t : Tree) (path : string) : option (list string) :=
  match read_directory t path with
  | NoDirectory => Some []
  | DirectoryError => None
  | Entries l => sort_strings <$> safe_entries path l
  end.

Fixpoint res_concat {A} (l : list (res errorsText (list A))) : res errorsText (list A) :=
  match l with
  | [] => Ok []
  | m :: l => let! x := m in let! y := res_concat l in Ok (x ++ y)
  end.

(** [expandPeriodic]. *)
Definition expandPeriodic (t : Tree) (kind schedule : string) : res errorsText (list Job) :=
  match safeFiles t ("/etc/cron." +++ kind) with
  | None => Err "directory"
  | Some scripts =>
      res_concat ((λ script, res_map (λ job, [job])
        (build_job script "periodic" "root" schedule script None "" true false false))
        <$> filter (λ script, executable_file t script = true) scripts)
  end.

Definition parse_file (t : Tree) (f : UserFiles) (path kind owner : string) (expand : bool) : res errorsText (list Job) :=
  match read_file t path with
  | None => Err "read"
  | Some content => parseCrontab (editable f) (expandPeriodic t) path kind owner expand content
  end.

Definition job_key (j : Job) : string :=
  let pad z := let s := itoa z in
    if z <? 0 then "-" +++ String.concat "" (repeat "0" (12 - String.length s)) +++ sdrop 1 s
    else String.concat "" (repeat "0" (12 - String.length s)) +++ s in
  join snul [job_Type j; job_Source j; pad (default (-1) (job_Line j)); job_User j; job_Schedule j; job_Command j].
Definition job_le (x y : Job) : Prop := str_le (job_key x) (job_key y).
#[global] Instance job_le_dec x y : Decision (job_le x y) := str_le_dec _ _.

(** [jobs]: the crontabs of the system, of the users, the anacron table, in order. *)
Definition jobs (t : Tree) (f : UserFiles) (a : Answers) : res errorsText (list Job) :=
  match users_unsorted f with
  | None => Err "users"
  | Some _ =>
      let anacron := executable a (Anacron b) && regular_file t (Anacrontab b) in
      let! system := if regular_file t (SystemCrontab b)
        then parse_file t f (SystemCrontab b) "system" "" (negb anacron) else Ok [] in
      let! files := from_option_res "directory" (safeFiles t (CronDirectory b)) in
      let! daily := res_concat ((λ path, parse_file t f path "system" "" true) <$> files) in
      let! spools := from_option_res "directory" (safeFiles t (SpoolDirectory b)) in
      let! own := res_concat ((λ path,
        let owner := path_base path in
        if user_exists t owner then parse_file t f path "user" owner true else Err "user") <$> spools) in
      let! later := if anacron then
          match read_file t (Anacrontab b) with
          | None => Err "read"
          | Some content => parseAnacron (expandPeriodic t) (Anacrontab b) content
          end
        else Ok [] in
      Ok (merge_sort job_le (system ++ daily ++ own ++ later))
  end.

(** ** The handler *)

Definition user_name_le (x y : CronUser) : Prop := str_le (cu_Name x) (cu_Name y).
#[global] Instance user_name_le_dec x y : Decision (user_name_le x y) := str_le_dec _ _.
Definition users (f : UserFiles) : option (list CronUser) := merge_sort user_name_le <$> users_unsorted f.

Definition user_value (u : CronUser) : Value :=
  Api.VMap [("name", VStr (cu_Name u)); ("uid", VInt (cu_UID u)); ("system", VBool (cu_System u))].
Definition job_value (j : Job) : Value :=
  Api.VMap [("id", VStr (job_ID j)); ("source", VStr (job_Source j)); ("type", VStr (job_Type j));
    ("user", VStr (job_User j)); ("schedule", VStr (job_Schedule j)); ("command", VStr (job_Command j));
    ("line", match job_Line j with Some n => VInt n | None => Api.VNil end);
    ("enabled", VBool (job_Enabled j)); ("editable", VBool (job_Editable j)); ("managed", VBool (job_Managed j))].

Definition argumentCounts : list (string * nat) :=
  [("info", 0); ("status", 0); ("users", 0); ("jobs", 0); ("create", 3); ("update", 4); ("suspend", 2);
   ("resume", 2); ("delete", 2); ("run", 2); ("run-result", 1); ("backup-create", 12); ("backup-delete", 1);
   ("backup-run", 1)]%nat.

Definition missing_dependency (message : string) : option Reply :=
  Some (failure 3 "DEPENDENCY_NOT_FOUND" message).
Definition dependencies (a : Answers) (command : string) : option Reply :=
  if negb (executable a (Systemctl b)) then
    missing_dependency "Une dépendance nécessaire au domaine cron est introuvable."
  else if String.eqb command "status" then None
  else if negb (one_of command ["info"; "jobs"]) && negb (executable a (Crontab b)) then
    missing_dependency "La dépendance crontab nécessaire à la gestion des tâches est introuvable."
  else if one_of command ["run"; "run-result"] then
    if negb (executable a (SystemdRun b)) then
      missing_dependency "La dépendance systemd-run nécessaire au test des tâches est introuvable."
    else if negb (executable a (Runner b)) then
      missing_dependency "Le lanceur contrôlé des tâches Cron est introuvable."
    else None
  else None.

Definition execute (decode : string → option (list string * option ExecutionResult))
    (t : Tree) (a : Answers) (command : string) (args : list string) (h : Host) : res Reply data * Host :=
  if negb (String.eqb command "status") && negb (executable a (Crontab b)) then
    refuse 5 "CRON_NOT_INSTALLED" "Cron n’est pas installé sur ce serveur." h
  else if String.eqb command "info" then
    let version := packageVersion a in
    if String.eqb version "" then
      refuse 10 "CRON_VERSION_UNAVAILABLE" "La version de Cron n’a pas pu être déterminée." h
    else (Ok [("product", VStr "Cron"); ("version", VStr version); ("service", VStr (service b));
              ("unit", VStr (unit_ b));
              ("anacron_available", VBool (executable a (Anacron b) && regular_file t (Anacrontab b)))], h)
  else if String.eqb command "status" then (Ok status, h)
  else if String.eqb command "jobs" then
    match jobs t (user_files a) a with
    | Ok l => (Ok [("jobs", Api.VList (job_value <$> l)); ("count", VInt (Z.of_nat (List.length l)))], h)
    | Err _ => refuse 10 "CRON_JOBS_READ_FAILED" "Les tâches Cron n’ont pas pu être lues." h
    end
  else if String.eqb command "users" then
    match users (user_files a) with
    | Some l => (Ok [("users", Api.VList (user_value <$> l)); ("count", VInt (Z.of_nat (List.length l)))], h)
    | None => refuse 10 "CRON_USERS_READ_FAILED" "Les utilisateurs Cron n’ont pas pu être lus." h
    end
  else if String.eqb command "run-result" then
    let id := arg args 0 in
    let path := result_path (id +++ ".json") in
    (res_map result_data (runResult decode (results_directory t) (stat_result t path) (read_file t path) id), h)
  else if String.eqb command "backup-create" then createBackupTask a args h
  else if String.eqb command "backup-delete" then deleteBackupTask a (arg args 0) h
  else if String.eqb command "backup-run" then runBackupTask a (arg args 0) h
  else manage a command args h.

(** [Handle], a handler of the router. *)
Definition Handle (decode : string → option (list string * option ExecutionResult))
    (t : Tree) (a : Answers) (h : Host) (command : string) (args : list string) : Host * Reply :=
  if String.eqb command "" then
    (h, failure 2 "MISSING_COMMAND" "Aucune commande n’a été indiquée pour le domaine cron.")
  else match List.find (λ c, String.eqb c.1 command) argumentCounts with
  | None => (h, failure 4 "COMMAND_NOT_FOUND" "La commande demandée n’existe pas dans le domaine cron.")
  | Some (_, expected) =>
      if negb (Nat.eqb (List.length args) expected) then
        (h, failure 2 "INVALID_ARGUMENT_COUNT" "Le nombre d’arguments fourni est invalide.")
      else match dependencies a command with
      | Some reply => (h, reply)
      | None =>
          match execute decode t a command args h with
          | (Ok d, h) => (h, success d)
          | (Err reply, h) => (h, reply)
          end
      end
  end.
End backend.
