(* ===== verification/CronFacts.v ===== *)
(** * The cron domain: what its commands guarantee

    Identifiers, who may have a crontab changed, what an edition leaves of the other
    lines, how a task written is read back, which units are started. *)

From S2P Require Import Prelude GoStrings StringFacts Regex Codec Json Crontab CronTasks.
From S2P Require Api Backup.
From Stdlib Require Import Ascii String.
#[local] Open Scope string_scope.
#[local] Open Scope list_scope.
#[local] Open Scope Z_scope.

Import Api(Reply, failure, success, VStr, VInt, VBool, Value).

(** ** Identifiers *)

Lemma hex_at_spec value from n :
  (from + n <= String.length value)%nat →
  String.length (hex_at value from n) = (2 * n)%nat ∧ sforall is_hex_lower (hex_at value from n) = true.
Proof.
  intros Hl. unfold hex_at. split; [|apply hex_encode_lower]. rewrite hex_encode_length, stake_length.
  assert (String.length (sdrop from value) = (String.length value - from)%nat) as ->; [|lia].
  clear. revert value. induction from as [|k IH]; intros [|c s]; simpl; try done; apply IH.
Qed.

Lemma set_byte_length n f s : String.length (set_byte n f s) = String.length s.
Proof. revert n. induction s as [|c s IH]; intros [|n]; simpl; auto. Qed.

Lemma set_byte_at n f s c t : sdrop n s = String c t → sdrop n (set_byte n f s) = String (f c) t.
Proof.
  revert s. induction n as [|n IH]; intros [|d s]; simpl; try done; [by intros [= -> ->]|]. apply IH.
Qed.

Lemma set_byte_other n m f s c t :
  n ≠ m → sdrop n s = String c t → ∃ t', sdrop n (set_byte m f s) = String c t'.
Proof.
  revert m s. induction n as [|n IH]; intros [|m] [|d s] Hne; simpl; try done.
  - intros [= -> ->]. by eexists.
  - intros ->. by eexists.
  - intros Hs. apply (IH m s); [lia|done].
Qed.

Lemma version_digit c t :
  ∃ d e r, hex_encode (String (set_version c) t) = String d (String e r) ∧ between "1" "5" d = true ∧
    is_hex_lower e = true ∧ hex_encode t = r.
Proof.
  eexists _, _, _. split; [reflexivity|]. split_and!; [| |done].
  - pose proof (forall_bytes (λ c, between "1" "5" (hex_char (byte (set_version c) / 16))) eq_refl c). done.
  - apply (forall_bytes (λ c, is_hex_lower (hex_char (byte (set_version c) mod 16)))). done.
Qed.

Lemma variant_digit c t :
  ∃ d e r, hex_encode (String (set_variant c) t) = String d (String e r) ∧ contains_byte d "89ab" = true ∧
    is_hex_lower e = true ∧ hex_encode t = r.
Proof.
  eexists _, _, _. split; [reflexivity|]. split_and!; [| |done].
  - apply (forall_bytes (λ c, contains_byte (hex_char (byte (set_variant c) / 16)) "89ab")). done.
  - apply (forall_bytes (λ c, is_hex_lower (hex_char (byte (set_variant c) mod 16)))). done.
Qed.

Lemma Lang_rep_cat p n r s t :
  String.length s = n → sforall p s = true → Lang r t → Lang (Rep p n n ;;; r) (s +++ t).
Proof. intros Hl Hp Hr. apply L_cat; [|done]. constructor; [lia|done]. Qed.
Lemma Lang_lit_cat w r t : Lang r t → Lang (lit w ;;; r) (w +++ t).
Proof. intros Hr. apply L_cat; [by apply Lang_lit|done]. Qed.
Lemma Lang_byte_cat p r c t : p c = true → Lang r t → Lang (Cls p ;;; r) (String c t).
Proof. intros Hp Hr. apply Lang_cls_cat. eauto. Qed.

Lemma digits_after (c d e : ascii) (s t r : string) :
  String.length (String c (String d t)) = 4%nat → sforall is_hex_lower (String c (String d t)) = true →
  String.length (String d t) = 3%nat ∧ sforall is_hex_lower (String d t) = true.
Proof. simpl. intros Hl [_ Hs]%andb_prop. split; [lia|done]. Qed.

(** Every identifier the generator makes is one the markers and commands accept. *)
Lemma newUUID_valid value id :
  String.length value = 16%nat → newUUID (Some value) = Some id → managedID id = true.
Proof.
  intros Hl. unfold newUUID. set (v := set_byte 8 set_variant (set_byte 6 set_version value)). cbv zeta.
  intros Heq. match type of Heq with Some ?x = _ => assert (id = x) as -> by congruence end. clear Heq.
  assert (String.length v = 16%nat) as Hv by (unfold v; by rewrite !set_byte_length).
  destruct (hex_at_spec v 0 4 ltac:(lia)) as [L0 S0]. destruct (hex_at_spec v 4 2 ltac:(lia)) as [L1 S1].
  destruct (hex_at_spec v 6 2 ltac:(lia)) as [L2 S2]. destruct (hex_at_spec v 8 2 ltac:(lia)) as [L3 S3].
  destruct (hex_at_spec v 10 6 ltac:(lia)) as [L4 S4].
  assert (∃ c t, sdrop 6 v = String (set_version c) t) as (c6 & t6 & H6).
  { assert (∃ c t, sdrop 6 value = String c t) as (c & t & Hc).
    { clear -Hl. do 7 (destruct value as [|? value]; [done|]). by eexists _, _. }
    apply (set_byte_at 6 set_version) in Hc. unfold v.
    clear -Hc. revert Hc. generalize (set_byte 6 set_version value). intros s Hs.
    do 7 (destruct s as [|? s]; [done|]). simpl in *. injection Hs as -> _. by eexists _, _. }
  assert (∃ c t, sdrop 8 v = String (set_variant c) t) as (c8 & t8 & H8).
  { assert (∃ c t, sdrop 8 (set_byte 6 set_version value) = String c t) as (c & t & Hc).
    { pose proof (set_byte_length 6 set_version value) as Hs. rewrite Hl in Hs. clear -Hs.
      destruct (set_byte 6 set_version value) as [|? s]; [done|].
      do 8 (destruct s as [|? s]; [done|]). by eexists _, _. }
    apply (set_byte_at 8 set_variant) in Hc. by eexists _, _. }
  unfold managedID, full. apply rx_match_spec. unfold uuid_rx.
  cbn [join]. apply Lang_rep_cat, Lang_lit_cat, Lang_rep_cat, Lang_lit_cat; [done..|].
  unfold hex_at in L2, S2, L3, S3 |- *. rewrite H6 in *. rewrite H8 in *.
  change (stake 2 (String (set_version c6) t6)) with (String (set_version c6) (stake 1 t6)) in *.
  change (stake 2 (String (set_variant c8) t8)) with (String (set_variant c8) (stake 1 t8)) in *.
  destruct (version_digit c6 (stake 1 t6)) as (d6 & e6 & r6 & E6 & Hd6 & _).
  destruct (variant_digit c8 (stake 1 t8)) as (d8 & e8 & r8 & E8 & Hd8 & _).
  rewrite E6 in *. rewrite E8 in *.
  destruct (digits_after d6 e6 e6 r6 r6 r6 L2 S2), (digits_after d8 e8 e8 r8 r8 r8 L3 S3).
  rewrite (sapp_cons d6). apply Lang_byte_cat, Lang_rep_cat, Lang_lit_cat; [done..|].
  rewrite (sapp_cons d8). apply Lang_byte_cat, Lang_rep_cat, Lang_lit_cat; [done..|].
  unfold hex_at in L4, S4. apply L_rep; [rewrite L4; lia|done].
Qed.

(** ** Lines written, read back *)

Lemma b64url_graphic c : is_b64url c = true → graphic c = true.
Proof. revert c. by apply class_incl; vm_compute. Qed.

Lemma trim_active id : managedID id = true → trim_space (activeMarker id) = activeMarker id.
Proof. intros Hid. by apply (trim_marker id "ACTIVE"). Qed.

Lemma trim_suspended id line :
  managedID id = true → line ≠ "" → trim_space (suspendedMarker id line) = suspendedMarker id line.
Proof.
  intros Hid Hl. apply (trim_marker id ("SUSPENDED" +++ " " +++ b64_encode URLAlphabet line)); [done..|].
  apply trim_space_task; [done..| |].
  - by intros ?%b64_encode_nil.
  - apply graphic_trim; [by intros ?%b64_encode_nil|].
    eapply sforall_weaken; [apply b64url_graphic|apply b64_encode_url].
Qed.

(** A schedule whose first byte cannot start a comment or a setting: a digit, a star, a
    macro.  [validTaskInput] does not ask for it. *)
Definition name_start (c : ascii) : bool := is_upper c || is_lower c || Ascii.eqb c "_".
Definition cron_start (schedule : string) : bool :=
  match normalizeSchedule schedule with
  | String c _ => negb (name_start c) && negb (Ascii.eqb c "#")
  | EmptyString => false
  end.

Lemma task_line_trim schedule command :
  validTaskInput schedule command = true → trim_space (task_line schedule command) = task_line schedule command.
Proof.
  intros (Hv & Hc & _)%validTaskInput_spec. unfold task_line.
  assert (normalizeSchedule schedule ≠ "" ∧ space_width (normalizeSchedule schedule) = 0%nat) as [? ?].
  { unfold normalizeSchedule. pose proof (fields_is_field schedule) as Hf.
    destruct (fields schedule) as [|w ws] eqn:E.
    - exfalso. destruct Hv as [[_ Hm]|[_ Hl]]; [|done].
      unfold normalizeSchedule in Hm. by rewrite E in Hm.
    - inversion Hf as [|?? [Hw1 Hw2] _]; subst.
      assert (space_width w = 0%nat) by (destruct w; [done|]; by apply spaceless_cons in Hw2 as [? _]).
      destruct ws; [done|]. rewrite join_cons_ne by done. split; [by destruct w|].
      by apply (space_width_app_ascii w " "%char). }
  apply trim_space_task; [done..|]. apply trim_space_idemp.
Qed.

Lemma task_line_task schedule command :
  validTaskInput schedule command = true → cron_start schedule = true →
  no_task (trim_space (task_line schedule command)) = false.
Proof.
  intros Hv Hs. rewrite task_line_trim by done. unfold cron_start in Hs. unfold task_line, no_task.
  destruct (normalizeSchedule schedule) as [|c s]; [done|]. bool_prop. rewrite sapp_cons.
  assert (has_prefix (String c (s +++ " " +++ trim_space command)) "#" = false) as ->.
  { unfold has_prefix. simpl. case_match; [|done]. subst. by rewrite Ascii.eqb_refl in *. }
  unfold environment. unfold name_start in *. by rewrite H.
Qed.

Lemma task_line_free schedule command c :
  validTaskInput schedule command = true → contains_byte c forbidden = true → c ≠ " "%char →
  contains_byte c (task_line schedule command) = false.
Proof.
  intros (_ & _ & Hf)%validTaskInput_spec Hc Hsp. destruct (Hf c Hc) as [Hs Hm]. unfold task_line.
  rewrite !contains_byte_app, (trim_space_free _ _ Hm), orb_false_r.
  apply orb_false_intro.
  - apply contains_byte_sforall, normalize_bytes; [|by apply contains_byte_sforall].
    by destruct (Ascii.eqb_spec c " "%char).
  - unfold contains_byte. simpl. by destruct (Ascii.eqb_spec c " "%char).
Qed.

Lemma task_line_nonempty schedule command : task_line schedule command ≠ "".
Proof. unfold task_line. by destruct (normalizeSchedule schedule). Qed.

Lemma active_block owner id line schedule user command :
  managedID id = true → no_task (trim_space line) = false →
  parseJobLine line owner = Ok (schedule, user, command) →
  Block owner [activeMarker id; line] id line schedule command true true.
Proof. intros Hid Hn Hp. econstructor; [|done..]. rewrite trim_active by done. by apply managedMarker_active. Qed.

Lemma suspended_block owner id line schedule user command :
  managedID id = true → line ≠ "" → contains_byte cr line = false → contains_byte nl line = false →
  parseJobLine line owner = Ok (schedule, user, command) →
  Block owner [suspendedMarker id line] id line schedule command false true.
Proof.
  intros Hid Hl Hc Hn Hp. econstructor; [| |done].
  - rewrite trim_suspended by done. by apply managedMarker_suspended.
  - by apply suspended_line_encode.
Qed.

Lemma marker_free c id t :
  managedID id = true → id_byte c = false → contains_byte c marker_prefix = false → contains_byte c t = false →
  contains_byte c (marker_prefix +++ id +++ t) = false.
Proof.
  intros Hid Hb Hm Ht. rewrite !contains_byte_app, Hm, Ht, orb_false_r. simpl.
  apply contains_byte_sforall. eapply sforall_weaken; [|by apply managedID_bytes].
  intros d Hd. by destruct (Ascii.eqb_spec c d); [congruence|].
Qed.

Lemma active_free c id : c = nl ∨ c = cr → managedID id = true → contains_byte c (activeMarker id) = false.
Proof. intros Hc Hid. apply (marker_free c id " ACTIVE"); [done|..]; by destruct Hc as [->| ->]. Qed.

Lemma suspended_free c id line :
  c = nl ∨ c = cr → managedID id = true → contains_byte c (suspendedMarker id line) = false.
Proof.
  intros Hc Hid. apply (marker_free c id (" SUSPENDED " +++ b64_encode URLAlphabet line)); [done|..];
    [by destruct Hc as [->| ->]..|].
  rewrite contains_byte_app. apply orb_false_intro; [by destruct Hc as [->| ->]|].
  apply contains_byte_sforall. eapply sforall_weaken; [|apply b64_encode_url].
  intros d Hd. destruct (Ascii.eqb_spec c d) as [->|]; [|done].
  by destruct Hc as [->| ->].
Qed.

(** ** Who may have a crontab managed *)

Lemma passwd_lines_safe lines entries :
  passwd_lines lines = Some entries → Forall (λ e, safeName (pw_name e) = true ∧ 0 ≤ pw_uid e) entries.
Proof.
  revert entries. induction lines as [|line lines IH]; intros entries; simpl; [by intros [= <-]|].
  destruct (String.eqb line ""); [apply IH|]. unfold passwd_line.
  destruct (split ":" line) as [|x1 [|x2 [|x3 [|x4 [|x5 [|x6 [|x7 [|]]]]]]]]; try done.
  destruct (atoi x3) as [uid|]; [|done]. destruct (safeName x1) eqn:Hs; [|done].
  destruct (0 <=? uid) eqn:Hu; [|done]. simpl. bool_prop.
  destruct (passwd_lines lines) as [l|]; [|done]. intros [= <-]. constructor; [done|by apply IH].
Qed.

(** A user whose crontab may be managed: an account of the password file, neither root
    nor nobody nor denied, that is a person's or is explicitly allowed. *)
Definition manageable (f : UserFiles) (owner : string) : Prop :=
  ∃ entries explicit denied e,
    readPasswd (passwd_file f) = Some entries ∧ readAllowedUsers (cron_users f) = Some explicit ∧
    readAllowedUsers (cron_users_deny f) = Some denied ∧
    e ∈ entries ∧ pw_name e = owner ∧ owner ≠ "" ∧ owner ≠ "root" ∧ pw_uid e ≠ 65534 ∧ (owner ∉ denied) ∧
    (owner ∈ explicit ∨ (readMinimumUID (login_defs f) ≤ pw_uid e ∧ usableLogin e = true)).

Lemma cron_user_spec m explicit denied e u :
  cron_user m explicit denied e = Some u ↔
  u = mkCronUser (pw_name e) (pw_uid e) (negb ((m <=? pw_uid e) && usableLogin e)) ∧
  pw_name e ≠ "root" ∧ pw_uid e ≠ 65534 ∧ (pw_name e ∉ denied) ∧
  (pw_name e ∈ explicit ∨ (m ≤ pw_uid e ∧ usableLogin e = true)).
Proof.
  unfold cron_user. destruct (String.eqb_spec (pw_name e) "root"); simpl; [naive_solver|].
  destruct (Z.eqb_spec (pw_uid e) 65534); simpl; [naive_solver|].
  destruct (bool_decide_reflect (pw_name e ∈ denied)); [naive_solver|].
  destruct (Z.leb_spec m (pw_uid e)), (usableLogin e), (bool_decide_reflect (pw_name e ∈ explicit)); simpl;
    naive_solver lia.
Qed.

Lemma editable_spec f owner : editable f owner = true ↔ manageable f owner.
Proof.
  unfold editable, users_unsorted, manageable. split.
  - destruct (readPasswd (passwd_file f)) as [entries|] eqn:Hp; [|done].
    destruct (readAllowedUsers (cron_users f)) as [explicit|]; [|done].
    destruct (readAllowedUsers (cron_users_deny f)) as [denied|]; [|done].
    rewrite existsb_exists. intros (u & Hu & Hn%String.eqb_eq). apply list_elem_of_In in Hu.
    apply list_elem_of_omap in Hu as (e & He & Hc%cron_user_spec). destruct Hc as (-> & Hr & H65 & Hd & Hh).
    simpl in Hn. subst owner. exists entries, explicit, denied, e. split_and!; try done.
    unfold readPasswd in Hp. destruct (passwd_file f); [|done]. apply passwd_lines_safe in Hp.
    rewrite Forall_forall in Hp. destruct (Hp e He) as [Hs _]. intros E. by rewrite E in Hs.
  - intros (entries & explicit & denied & e & -> & -> & -> & He & <- & _ & Hr & H65 & Hd & Hh).
    apply existsb_exists. eexists. split.
    + apply list_elem_of_In, list_elem_of_omap. exists e. split; [done|]. by apply cron_user_spec.
    + by apply String.eqb_eq.
Qed.

Lemma manageable_owner f owner : manageable f owner → owner ≠ "" ∧ owner ≠ "root".
Proof. by intros (? & ? & ? & ? & _ & _ & _ & _ & _ & ? & ? & _). Qed.

(** ** What [manage] does to the host *)

Section facts.
Context `{CronPrograms} `{UnicodeCase}.
Context (b : Paths).
Implicit Types (a : Answers) (h : Host).

Lemma install_cases a action owner lines h out h' :
  install a action owner lines h = (out, h') →
  host_files h' = host_files h ∧ units h' = units h ∧ (∀ o, o ≠ owner → tables h' !! o = tables h !! o) ∧
  (out = None → ∃ table, crontab_install owner (content_of lines) (tables h !! owner) = (table, 0) ∧
                 tables h' !! owner = table).
Proof.
  unfold install. destruct (grants a TempFile); simpl; [|by intros [= <- <-]].
  destruct (crontab_check owner (content_of lines)) as [output st].
  match goal with |- context [if ?c then _ else _] => destruct c end; [by intros [= <- <-]|].
  destruct (crontab_install owner _ _) as [table st'] eqn:Hi. simpl.
  destruct (Z.eqb_spec st' 0) as [->|]; intros [= <- <-]; simpl; split_and!; try done.
  - intros o Ho. by rewrite lookup_partial_alter_ne.
  - intros _. exists table. split; [done|]. apply lookup_partial_alter_eq.
  - intros o Ho. by rewrite lookup_partial_alter_ne.
Qed.

Lemma foldr_remove_units paths h : units (foldr (λ p, remove_file (result_path b p)) h paths) = units h.
Proof. induction paths; simpl; done. Qed.
Lemma foldr_remove_tables paths h : tables (foldr (λ p, remove_file (result_path b p)) h paths) = tables h.
Proof. induction paths; simpl; done. Qed.

(** A start touches no crontab; it starts one unit when it succeeds, none otherwise. *)
Lemma startExecution_cases a owner id command h out h' :
  startExecution b a owner id command h = (out, h') →
  tables h' = tables h ∧
  match out with
  | Ok _ => ∃ execution, hex_id (random a) = Some execution ∧ secureExecutable a (Runner b) = true ∧
             units h' = units h ++ [unit_arguments b execution owner command]
  | Err _ => units h' = units h
  end.
Proof.
  unfold startExecution, actionFailure, refuse.
  destruct (secureExecutable a (Runner b)) eqn:Hs; simpl; [|by intros [= <- <-]].
  destruct (grants a ResultDirectoryCheck); simpl; [|by intros [= <- <-]].
  destruct (hex_id (random a)) as [execution|]; simpl.
  - destruct (grants a ResultFile); simpl.
    + destruct (systemd_run _ =? 0); intros [= <- <-]; simpl;
        rewrite ?foldr_remove_units, ?foldr_remove_tables; eauto 6.
    + intros [= <- <-]. by rewrite foldr_remove_units, foldr_remove_tables.
  - intros [= <- <-]. by rewrite foldr_remove_units, foldr_remove_tables.
Qed.

(** The guards before the lock. *)
Lemma manage_guards a action args h out :
  manage b a action args h = out →
  (∃ reply, out = (Err reply, h)) ∨
  (manageable (user_files a) (arg args 0) ∧
   let '(id, schedule, command) := task_arguments action args in
   (action = "create" ∨ managedID id = true ∨ legacyID id = true) ∧
   (is_edit action = true → validTaskInput schedule command = true) ∧
   out = manage_locked b a action (arg args 0) id schedule command h).
Proof.
  unfold manage, refuse, actionFailure. intros <-.
  destruct (editable (user_files a) (arg args 0)) eqn:He; simpl; [|by left; eexists].
  apply editable_spec in He.
  destruct (user_Lookup a (arg args 0)); simpl; [|by left; eexists].
  destruct (task_arguments action args) as [[id schedule] command].
  destruct (negb (String.eqb action "create") && negb (managedID id) && negb (legacyID id)) eqn:Hi;
    [by left; eexists|].
  destruct (is_edit action && negb (validTaskInput schedule command)) eqn:Hv; [by left; eexists|].
  match goal with |- context [if ?c then _ else _] => destruct c end; [by left; eexists|].
  right. split_and!; try done.
  - destruct (String.eqb_spec action "create"), (managedID id), (legacyID id); simpl in Hi; auto; done.
  - intros Hed. rewrite Hed in Hv. by destruct (validTaskInput schedule command).
Qed.

(** The table of a user, as [crontab -l] gives it. *)
Definition table_text h owner : string := default "" (tables h !! owner).

Lemma table_read `{!CronLaws} owner h output st :
  crontab_list owner (tables h !! owner) = (output, st) →
  (st = 0 ∨ st = 1) ∧ (if st =? 1 then "" else output) = table_text h owner.
Proof.
  unfold table_text. destruct (tables h !! owner) as [t|].
  - rewrite list_table. intros [= <- <-]. auto.
  - intros Hl. pose proof (list_none owner) as Hn. rewrite Hl in Hn. simpl in Hn. subst. auto.
Qed.

(** A refused command leaves the crontabs of the others, and starts nothing; a table
    changed is the table of the owner. *)
Lemma manage_locked_frame a action owner id schedule command h out h' :
  manage_locked b a action owner id schedule command h = (out, h') →
  (∀ o, o ≠ owner → tables h' !! o = tables h !! o) ∧
  (units h' = units h ∨ ∃ records output st task execution,
     action = "run" ∧ crontab_list owner (tables h !! owner) = (output, st) ∧
     parseRecords owner (splitContent (if st =? 1 then "" else output)) = Ok records ∧
     findRecord records id = Some task ∧ rec_enabled task = true ∧
     units h' = units h ++ [unit_arguments b execution owner (rec_command task)]).
Proof.
  unfold manage_locked, actionFailure, refuse.
  destruct (crontab_list owner (tables h !! owner)) as [output st] eqn:Hl.
  match goal with |- context [if ?c then (Err _, _) else _] => destruct c end; [intros [= <- <-]; auto|].
  destruct (parseRecords owner _) as [records|] eqn:Hp; [|intros [= <- <-]; auto].
  destruct (String.eqb_spec action "run") as [->|Hr].
  - destruct (findRecord records id) as [task|] eqn:Hf; [|intros [= <- <-]; auto].
    destruct (rec_enabled task) eqn:He; [|intros [= <- <-]; auto].
    intros Hs%startExecution_cases. destruct Hs as [Ht Hu]. rewrite Ht. split; [done|].
    destruct out as [d|]; [right|by left]. destruct Hu as (execution & _ & _ & Hu). eauto 12.
  - destruct (edit _ _ _ _ _ _ records) as [edition|]; [|intros [= <- <-]; auto].
    unfold backup. destruct (_ && _); [|intros [= <- <-]; auto].
    destruct (install _ _ _ _ _) as [[reply|] h1] eqn:Hi; intros [= <- <-];
      apply install_cases in Hi as (_ & Hu & Ht & _); auto.
Qed.

(** An edition that succeeds: read, edited, saved, installed. *)
Lemma manage_edited `{!CronLaws} a action args h d h' :
  manage b a action args h = (Ok d, h') → action ≠ "run" →
  let owner := arg args 0 in
  let '(id, schedule, command) := task_arguments action args in
  let original := table_text h owner in
  manageable (user_files a) owner ∧ (is_edit action = true → validTaskInput schedule command = true) ∧
  (action = "create" ∨ managedID id = true ∨ legacyID id = true) ∧
  ∃ records edition, parseRecords owner (splitContent original) = Ok records ∧
    edit action id schedule command (random a) (splitContent original) records = Ok edition ∧
    tables h' = <[owner := content_of (ed_lines edition)]> (tables h) ∧
    host_files h !! backup_path b a owner = None ∧
    host_files h' = <[backup_path b a owner := original]> (host_files h) ∧
    d = [("action", VStr action); ("user", VStr owner); ("id", VStr (ed_id edition));
         ("enabled", VBool (ed_enabled edition)); ("result", VStr "success")].
Proof.
  intros Hm Hr owner. apply manage_guards in Hm as [[? Hm]|Hm]; [done|].
  destruct (task_arguments action args) as [[id schedule] command].
  destruct Hm as (Ho & Hid & Hv & Hm). fold owner in Ho, Hm. cbv zeta. split_and!; [done..|].
  symmetry in Hm. unfold manage_locked, actionFailure, refuse in Hm.
  destruct (crontab_list owner (tables h !! owner)) as [output st] eqn:Hl.
  apply table_read in Hl as [_ Hl]. rewrite Hl in Hm.
  match type of Hm with (if ?c then (Err _, _) else _) = _ => destruct c end; [done|].
  destruct (parseRecords owner _) as [records|] eqn:Hp; [|done].
  rewrite (proj2 (String.eqb_neq action "run") Hr) in Hm.
  destruct (edit _ _ _ _ _ _ records) as [edition|] eqn:He; [|done].
  unfold backup in Hm. destruct (_ && _) eqn:Hb; [|done]. bool_prop.
  destruct (install _ _ _ _ _) as [[reply|] h1] eqn:Hi; [done|].
  apply install_cases in Hi as (Hf & Hu & Ht & Hok). destruct Hok as (table & Hins & Hnew); [done|].
  apply install_table in Hins. exists records, edition. injection Hm as <- <-. split_and!; try done.
  apply map_eq. intros o. destruct (decide (o = owner)) as [->|Hne].
  - by rewrite lookup_insert_eq, Hnew.
  - rewrite lookup_insert_ne by done. by rewrite Ht.
Qed.
End facts.

(** ** Editions *)

Lemma managedMarker_inv line id st payload :
  managedMarker line = Some (id, st, payload) → managedID id = true ∧
  line = marker_prefix +++ id +++
    (match st with ACTIVE => " ACTIVE" | SUSPENDED => " SUSPENDED" end) +++
    (if String.eqb payload "" then "" else " " +++ payload).
Proof.
  assert (∀ r p, marker_payload r = Some p → r = (if String.eqb p "" then "" else " " +++ p)) as Hpay.
  { intros [|c r] p; simpl; [by intros [= <-]|].
    destruct (Ascii.eqb_spec c " "%char) as [->|]; [|done].
    destruct (String.eqb_spec r ""); simpl; [done|]. destruct (sforall is_b64url r); [|done].
    intros [= <-]. by rewrite (proj2 (String.eqb_neq r "")). }
  unfold managedMarker. destruct (has_prefix line marker_prefix) eqn:Hp; [|done].
  apply has_prefix_spec in Hp as [r ->]. cbv zeta.
  pose proof (sdrop_app marker_prefix r) as Hd. change (String.length marker_prefix) with 19%nat in Hd. rewrite Hd.
  destruct (managedID (stake 36 r)) eqn:Hid; [|done].
  replace (marker_prefix +++ r) with (marker_prefix +++ stake 36 r +++ sdrop 36 r) by (by rewrite stake_sdrop).
  generalize (sdrop 36 r). intros t.
  destruct (has_prefix t " ACTIVE") eqn:Ha.
  - apply has_prefix_spec in Ha as [u ->]. change (sdrop 7 (" ACTIVE" +++ u)) with u.
    destruct (marker_payload u) as [p|] eqn:Hu; [|done]. apply Hpay in Hu.
    intros Heq. assert (stake 36 r = id ∧ ACTIVE = st ∧ p = payload) as (<- & <- & <-) by (split_and!; congruence).
    split; [done|]. by rewrite <- Hu.
  - destruct (has_prefix t " SUSPENDED") eqn:Hs; [|done].
    apply has_prefix_spec in Hs as [u ->]. change (sdrop 10 (" SUSPENDED" +++ u)) with u.
    destruct (marker_payload u) as [p|] eqn:Hu; [|done]. apply Hpay in Hu.
    intros Heq. assert (stake 36 r = id ∧ SUSPENDED = st ∧ p = payload) as (<- & <- & <-) by (split_and!; congruence).
    split; [done|]. by rewrite <- Hu.
Qed.

Lemma marker_active_inv line id : managedMarker line = Some (id, ACTIVE, "") → line = activeMarker id ∧ managedID id = true.
Proof. intros [Hid ->]%managedMarker_inv. done. Qed.

(** What [edit] writes in the place of a task. *)
Definition replacement (action id schedule command : string) (task : crecord) : res Reply (bool * list string) :=
  if String.eqb action "update" then
    if rec_enabled task then Ok (true, [activeMarker id; task_line schedule command])
    else Ok (false, [suspendedMarker id (task_line schedule command)])
  else if String.eqb action "suspend" then
    if rec_enabled task then Ok (false, [suspendedMarker id (rec_line task)]) else Err invalid_state
  else if String.eqb action "resume" then
    if rec_enabled task then Err invalid_state else Ok (true, [activeMarker id; rec_line task])
  else if String.eqb action "delete" then Ok (false, []) else Ok (true, []).

Lemma edit_task action id schedule command random lines records task resultID :
  action ≠ "create" → findRecord records id = Some task →
  (if rec_managed task then Some id else newUUID random) = Some resultID →
  edit action id schedule command random lines records =
    res_map (λ p, mkEdition resultID p.1 (replace lines (rec_start task) (rec_end task) p.2))
      (replacement action resultID schedule command task).
Proof.
  intros Hc Hf Hr. unfold edit. rewrite (proj2 (String.eqb_neq action "create") Hc), Hf, Hr.
  unfold replacement. destruct (rec_enabled task);
    destruct (String.eqb action "update"), (String.eqb action "suspend"), (String.eqb action "resume"),
      (String.eqb action "delete"); reflexivity.
Qed.

Lemma edit_inv action id schedule command random lines records ed :
  edit action id schedule command random lines records = Ok ed →
  (action = "create" ∧ newUUID random = Some (ed_id ed) ∧ ed_enabled ed = true ∧
     ed_lines ed = lines ++ [activeMarker (ed_id ed); task_line schedule command]) ∨
  (action ≠ "create" ∧ ∃ task enabled new, findRecord records id = Some task ∧
     (if rec_managed task then Some id else newUUID random) = Some (ed_id ed) ∧
     replacement action (ed_id ed) schedule command task = Ok (enabled, new) ∧ ed_enabled ed = enabled ∧
     ed_lines ed = replace lines (rec_start task) (rec_end task) new).
Proof.
  destruct (String.eqb_spec action "create") as [->|Hc].
  - unfold edit. simpl. destruct (newUUID random) as [new|]; [|done]. intros [= <-]. by left.
  - intros He. right. split; [done|]. destruct (findRecord records id) as [task|] eqn:Hf.
    + destruct (if rec_managed task then Some id else newUUID random) as [resultID|] eqn:Hr.
      * rewrite (edit_task _ _ _ _ _ _ _ _ _ Hc Hf Hr) in He.
        destruct (replacement _ _ _ _ _) as [[enabled new]|] eqn:Hp; [|done]. simpl in He.
        injection He as <-. exists task, enabled, new. done.
      * unfold edit in He. by rewrite (proj2 (String.eqb_neq action "create") Hc), Hf, Hr in He.
    + unfold edit in He. by rewrite (proj2 (String.eqb_neq action "create") Hc), Hf in He.
Qed.

Lemma focus_of owner lines records id task :
  parseRecords owner lines = Ok records → findRecord records id = Some task →
  ∃ l1 mid l3 rs1 rs3 occ1 occ2, focus owner 0 ∅ lines records task l1 mid l3 rs1 rs3 occ1 occ2.
Proof.
  intros Hp (Hin & _ & _)%findRecord_unique.
  by apply (records_focus owner (List.length lines) lines 0%nat ∅ records task).
Qed.

(** A task written at the end. *)
Lemma records_append owner lines records id schedule command :
  parseRecords owner lines = Ok records → managedID id = true → owner ≠ "" →
  validTaskInput schedule command = true → cron_start schedule = true →
  parseRecords owner (lines ++ [activeMarker id; task_line schedule command]) =
    Ok (records ++ [Rec id (task_line schedule command) (normalizeSchedule schedule) (trim_space command)
                      (List.length lines) (S (List.length lines)) true true]).
Proof.
  intros Hp Hid Ho Hv Hs. unfold parseRecords in *.
  destruct (records_app owner (List.length lines) lines 0 ∅ records ltac:(lia) Hp) as [occ' Ha].
  rewrite Ha. simpl Nat.add. rewrite <- (app_nil_r [activeMarker _; _]).
  erewrite records_block by (eapply active_block; [done|by apply task_line_task|by apply parseJobLine_task]).
  simpl. by replace (List.length lines + 2 - 1)%nat with (S (List.length lines)) by lia.
Qed.

(** The lines of an edited crontab: those before and after the task are kept. *)
Lemma edit_lines owner action id schedule command random lines records ed :
  parseRecords owner lines = Ok records →
  edit action id schedule command random lines records = Ok ed →
  ∃ l1 old new l3, lines = l1 ++ old ++ l3 ∧ ed_lines ed = l1 ++ new ++ l3 ∧
    (action = "create" ∧ old = [] ∧ l3 = [] ∧ new = [activeMarker (ed_id ed); task_line schedule command] ∨
     action ≠ "create" ∧ ∃ task, findRecord records id = Some task ∧
       Block owner old id (rec_line task) (rec_schedule task) (rec_command task) (rec_enabled task) (rec_managed task) ∧
       replacement action (ed_id ed) schedule command task = Ok (ed_enabled ed, new)).
Proof.
  intros Hp [(-> & _ & _ & Hl)|(Hc & task & enabled & new & Hf & _ & Hr & <- & Hl)]%edit_inv.
  - exists lines, [], [activeMarker (ed_id ed); task_line schedule command], [].
    split_and!; [by rewrite app_nil_r|done|]. by left.
  - destruct (focus_of _ _ _ _ _ Hp Hf) as (l1 & mid & l3 & rs1 & rs3 & o1 & o2 & -> & Hm & -> & Hs & He & Hb & _).
    simpl in Hs, He. pose proof (findRecord_unique _ _ _ Hf) as (_ & Hid & _). rewrite Hid in Hb.
    exists l1, mid, new, l3. split_and!; [done| |right; split; [done|]; by exists task].
    rewrite Hl, Hs. by rewrite replace_focus.
Qed.

Section theorems.
Context `{CronPrograms} `{UnicodeCase} `{!CronLaws}.
Context (b : Paths).
Implicit Types (a : Answers) (h : Host).

(** A command that edits a crontab and succeeds was given for a manageable user,
    changes the crontab of that user alone, keeps every line outside the task it
    names, and has saved the former text under a new name first. *)
Theorem manage_keeps_lines a action args h d h' :
  manage b a action args h = (Ok d, h') → action ≠ "run" →
  let owner := arg args 0 in
  let '(id, schedule, command) := task_arguments action args in
  manageable (user_files a) owner ∧
  (∀ o, o ≠ owner → tables h' !! o = tables h !! o) ∧
  host_files h !! backup_path b a owner = None ∧
  host_files h' = <[backup_path b a owner := table_text h owner]> (host_files h) ∧
  ∃ l1 old new l3, splitContent (table_text h owner) = l1 ++ old ++ l3 ∧
    tables h' !! owner = Some (content_of (l1 ++ new ++ l3)) ∧
    (action = "create" ∧ old = [] ∧ l3 = [] ∧ (∃ new_id, new = [activeMarker new_id; task_line schedule command]) ∨
     action ≠ "create" ∧ ∃ task records, parseRecords owner (splitContent (table_text h owner)) = Ok records ∧
       findRecord records id = Some task ∧
       Block owner old id (rec_line task) (rec_schedule task) (rec_command task) (rec_enabled task) (rec_managed task)).
Proof.
  intros Hm Hr. pose proof (manage_edited b a action args h d h' Hm Hr) as Hed. cbv zeta in Hed |- *.
  destruct (task_arguments action args) as [[id schedule] command].
  destruct Hed as (Ho & _ & _ & records & ed & Hp & He & Ht & Hb & Hf & _).
  split_and!; try done.
  - intros o Hne. by rewrite Ht, lookup_insert_ne.
  - destruct (edit_lines _ _ _ _ _ _ _ _ _ Hp He) as (l1 & old & new & l3 & Hl & Hn & Hk).
    exists l1, old, new, l3. split_and!; [done|by rewrite Ht, lookup_insert_eq, Hn|].
    destruct Hk as [(? & ? & ? & ?)|(? & task & ? & ? & ?)]; [left; eauto 6|right; eauto 6].
Qed.

Lemma free_app c l1 l2 : free c (l1 ++ l2) ↔ free c l1 ∧ free c l2.
Proof. apply Forall_app. Qed.

(** A crontab written without carriage returns and ending in a task is read back. *)
Lemma written_back owner h (lines : list string) :
  tables h !! owner = Some (content_of lines) → free nl lines → free cr lines → lines ≠ [""] →
  splitContent (table_text h owner) = lines.
Proof. intros Ht Hn Hc Hne. unfold table_text. rewrite Ht. by apply splitContent_content. Qed.

(** A task created by a command that succeeds is in the crontab: reading it again
    gives the records it had, then the new one, enabled and managed, with the schedule
    normalized and the command trimmed, under the identifier the command answered. *)
Theorem create_read_back a args h d h' value :
  manage b a "create" args h = (Ok d, h') → random a = Some value → String.length value = 16%nat →
  cron_start (arg args 1) = true → contains_byte cr (table_text h (arg args 0)) = false →
  let owner := arg args 0 in
  let lines := splitContent (table_text h owner) in
  ∃ id records, d = [("action", VStr "create"); ("user", VStr owner); ("id", VStr id);
                     ("enabled", VBool true); ("result", VStr "success")] ∧
    parseRecords owner lines = Ok records ∧
    parseRecords owner (splitContent (table_text h' owner)) =
      Ok (records ++ [Rec id (task_line (arg args 1) (arg args 2)) (normalizeSchedule (arg args 1))
                        (trim_space (arg args 2)) (List.length lines) (S (List.length lines)) true true]).
Proof.
  intros Hm Hrand Hlen Hstart Hcr owner lines.
  destruct (manage_edited b a "create" args h d h' Hm ltac:(done)) as
    (Ho & Hv & _ & records & ed & Hp & He & Ht & _ & _ & Hd). fold owner in Ho, Hp, Ht, Hd. fold lines in Hp, He.
  cbn [task_arguments String.eqb Ascii.eqb Bool.eqb] in Hv, He.
  apply edit_inv in He as [(_ & Hid & Hen & Hl)|[? _]]; [|done].
  rewrite Hrand in Hid. pose proof (newUUID_valid _ _ Hlen Hid) as Hm'.
  assert (validTaskInput (arg args 1) (arg args 2) = true) as Hval by (by apply Hv).
  destruct (manageable_owner _ _ Ho) as [Hne _].
  exists (ed_id ed), records. split_and!; [by rewrite Hd, Hen|done|].
  rewrite (written_back owner h' (ed_lines ed)); cycle 1.
  - by rewrite Ht, lookup_insert_eq.
  - rewrite Hl. apply free_app. split; [apply splitContent_nl|].
    repeat constructor; [by apply active_free; auto|by apply task_line_free].
  - rewrite Hl. apply free_app. split; [by apply splitContent_cr|].
    repeat constructor; [by apply active_free; auto|by apply task_line_free].
  - rewrite Hl. intros E. apply (f_equal List.length) in E. rewrite length_app in E. simpl in E. lia.
  - rewrite Hl. by apply records_append.
Qed.
End theorems.

(** ** Suspending and resuming *)

Lemma parseJobLine_user line owner s u c :
  parseJobLine line owner = Ok (s, u, c) → owner ≠ "" → parseJobLine line owner = Ok (s, owner, c).
Proof.
  intros Hp Ho. rewrite Hp. unfold parseJobLine in Hp. rewrite (proj2 (String.eqb_neq owner "") Ho) in Hp.
  repeat case_match; simplify_eq/=; done.
Qed.

Lemma block_active_lines owner mid id line s c :
  Block owner mid id line s c true true →
  ∃ raw u, mid = [raw; line] ∧ trim_space raw = activeMarker id ∧ managedID id = true ∧
    no_task (trim_space line) = false ∧ parseJobLine line owner = Ok (s, u, c).
Proof.
  inversion 1; subst. match goal with Hm : managedMarker _ = _ |- _ => apply marker_active_inv in Hm as [Hm Hid] end.
  eauto 10.
Qed.

Lemma no_task_nonempty line : no_task (trim_space line) = false → line ≠ "".
Proof. by intros Hn ->. Qed.

Lemma free_middle c l1 mid l3 (new : list string) :
  free c (l1 ++ mid ++ l3) → free c new → free c (l1 ++ new ++ l3).
Proof. rewrite !free_app. tauto. Qed.

(** Suspending an active managed task then resuming it, each on the crontab as it
    is read back, always succeeds and gives the crontab back: the task keeps its
    identifier, its line and its place, every other line is as before, and only the
    spaces around the marker may have gone.  In between the same task is found,
    disabled. *)
Theorem suspend_resume owner lines records id task random :
  parseRecords owner lines = Ok records → findRecord records id = Some task →
  rec_managed task = true → rec_enabled task = true → free nl lines → free cr lines →
  ∃ suspended records1 task1 resumed l1 raw l3,
    edit "suspend" id "" "" random lines records = Ok suspended ∧ ed_id suspended = id ∧
    parseRecords owner (splitContent (content_of (ed_lines suspended))) = Ok records1 ∧
    findRecord records1 id = Some task1 ∧ rec_enabled task1 = false ∧ rec_line task1 = rec_line task ∧
    edit "resume" id "" "" random (splitContent (content_of (ed_lines suspended))) records1 = Ok resumed ∧
    lines = l1 ++ [raw; rec_line task] ++ l3 ∧ trim_space raw = activeMarker id ∧
    ed_lines resumed = l1 ++ [activeMarker id; rec_line task] ++ l3.
Proof.
  intros Hp Hf Hman Hen Hn Hc.
  destruct (focus_of _ _ _ _ _ Hp Hf) as (l1 & mid & l3 & rs1 & rs3 & o1 & o2 & Hfoc).
  pose proof (findRecord_unique _ _ _ Hf) as (_ & Hid & _).
  pose proof Hfoc as (-> & Hmid & -> & Hs & He & Hb & _).
  rewrite Hid, Hen, Hman in Hb. apply block_active_lines in Hb as (raw & u & -> & Hraw & Hm & Hnt & Hj).
  pose proof (no_task_nonempty _ Hnt) as Hne.
  assert (contains_byte nl (rec_line task) = false ∧ contains_byte cr (rec_line task) = false) as [Hln Hlc].
  { apply free_app in Hn as [_ [Hn _]%free_app], Hc as [_ [Hc _]%free_app].
    by inv Hn; inv Hc; repeat match goal with Hx : Forall _ (_ :: _) |- _ => inv Hx end. }
  pose proof (suspended_block owner id _ _ _ _ Hm Hne Hlc Hln Hj) as Hsb.
  assert (free nl [suspendedMarker id (rec_line task)] ∧ free cr [suspendedMarker id (rec_line task)]) as [Hfn Hfc]
    by (split; repeat constructor; apply suspended_free; auto).
  destruct (records_replace _ _ _ _ _ _ _ _ _ _ _ _ _ _ _ _ _ Hfoc Hman Hsb) as (rs3' & Hp1 & Hst).
  set (task1 := Rec id (rec_line task) _ _ _ _ false true) in Hp1.
  assert (splitContent (content_of (l1 ++ [suspendedMarker id (rec_line task)] ++ l3)) =
          l1 ++ [suspendedMarker id (rec_line task)] ++ l3) as Hback.
  { apply splitContent_content;
      [exact (free_middle nl l1 _ l3 _ Hn Hfn)|exact (free_middle cr l1 _ l3 _ Hc Hfc)|].
    by destruct l1 as [|? [|]]. }
  exists (mkEdition id false (l1 ++ [suspendedMarker id (rec_line task)] ++ l3)), (rs1 ++ task1 :: rs3'), task1,
    (mkEdition id true (l1 ++ [activeMarker id; rec_line task] ++ l3)), l1, raw, l3.
  assert (findRecord (rs1 ++ task1 :: rs3') id = Some task1) as Hf1 by (exact (findRecord_replaced rs1 task rs3 id task1 rs3' Hf eq_refl Hst)).
  cbn [ed_lines ed_id]. rewrite Hback. split_and!; try done.
  - rewrite (edit_task "suspend" id "" "" random _ _ task id ltac:(done) Hf) by (by rewrite Hman).
    assert (replacement "suspend" id "" "" task = Ok (false, [suspendedMarker id (rec_line task)])) as ->
      by (unfold replacement; by rewrite Hen).
    unfold res_map, res_bind. cbn [fst snd]. rewrite Hs.
    rewrite (replace_focus l1 [raw; rec_line task] l3 [suspendedMarker id (rec_line task)]) by done. done.
  - rewrite (edit_task "resume" id "" "" random _ _ task1 id ltac:(done) Hf1) by done.
    assert (replacement "resume" id "" "" task1 = Ok (true, [activeMarker id; rec_line task])) as -> by reflexivity.
    unfold res_map, res_bind. cbn [fst snd].
    rewrite (replace_focus l1 [suspendedMarker id (rec_line task)] l3 [activeMarker id; rec_line task]
      (rec_end task1) ltac:(done) eq_refl : replace _ (rec_start task1) _ _ = _). done.
Qed.

(** ** The whole handler *)

Section handler.
Context `{CronPrograms} `{UnicodeCase} `{!CronLaws}.
Context (b : Paths) (decode : string → option (list string * option ExecutionResult)) (t : Tree).
Implicit Types (a : Answers) (h : Host).

Definition no_effect h h' : Prop := tables h' = tables h ∧ units h' = units h.

Lemma createBackupTask_quiet a args h out h' : createBackupTask b a args h = (out, h') → no_effect h h'.
Proof.
  unfold createBackupTask, create_failed, refuse, no_effect.
  destruct (atoi (arg args 7)), (atoi (arg args 10)), (parse_bool (arg args 11)); try by intros [= <- <-].
  match goal with |- context [if ?c then _ else _] => destruct c end; [by intros [= <- <-]|].
  destruct (newUUID (random a)); [|by intros [= <- <-]].
  destruct (Backup.Validate _); [by intros [= <- <-]|].
  destruct (secureExecutable a _); simpl; [|by intros [= <- <-]].
  destruct (grants a TaskDirectoryCheck), (grants a TaskFile), (grants a CronFile); simpl; by intros [= <- <-].
Qed.

Lemma deleteBackupTask_quiet a id h out h' : deleteBackupTask b a id h = (out, h') → no_effect h h'.
Proof.
  unfold deleteBackupTask, refuse, no_effect. destruct (managedID id); simpl; [|by intros [= <- <-]].
  destruct (host_files h !! task_path b id); [|by intros [= <- <-]].
  match goal with |- context [if ?c then _ else _] => destruct c end; [by intros [= <- <-]|].
  destruct (grants a RemoveTask); simpl; by intros [= <- <-].
Qed.

Lemma execute_cases a command args h out h' :
  execute b decode t a command args h = (out, h') →
  no_effect h h' ∨ (command = "backup-run" ∧ runBackupTask b a (arg args 0) h = (out, h')) ∨
  ((command ∉ ["info"; "status"; "jobs"; "users"; "run-result"; "backup-create"; "backup-delete"; "backup-run"]) ∧
   manage b a command args h = (out, h')).
Proof.
  unfold execute, refuse. match goal with |- context [if ?c then _ else _] => destruct c end;
    [intros [= <- <-]; by left|].
  destruct (String.eqb_spec command "info"); [case_match; intros [= <- <-]; by left|].
  destruct (String.eqb_spec command "status"); [intros [= <- <-]; by left|].
  destruct (String.eqb_spec command "jobs"); [case_match; intros [= <- <-]; by left|].
  destruct (String.eqb_spec command "users"); [case_match; intros [= <- <-]; by left|].
  destruct (String.eqb_spec command "run-result"); [intros [= <- <-]; by left|].
  destruct (String.eqb_spec command "backup-create"); [intros ?%createBackupTask_quiet; by left|].
  destruct (String.eqb_spec command "backup-delete"); [intros ?%deleteBackupTask_quiet; by left|].
  destruct (String.eqb_spec command "backup-run"); [auto|]. intros Hm. right. right. split; [|done].
  rewrite !not_elem_of_cons. split_and!; try done. apply not_elem_of_nil.
Qed.

(** What a command may start: the enabled task it names, as its owner, or the backup
    it names, as root. *)
Inductive started a h (command : string) (args : list string) : list string → Prop :=
| started_task records task execution :
    command = "run" → manageable (user_files a) (arg args 0) →
    parseRecords (arg args 0) (splitContent (table_text h (arg args 0))) = Ok records →
    findRecord records (arg args 1) = Some task → rec_enabled task = true →
    started a h command args (unit_arguments b execution (arg args 0) (rec_command task))
| started_backup execution :
    command = "backup-run" → managedID (arg args 0) = true → host_files h !! task_path b (arg args 0) ≠ None →
    started a h command args (unit_arguments b execution "root" (BackupExecutable b +++ " " +++ arg args 0)).

(** C6: a command of the cron domain changes no crontab of a user but that of the user it
    names, who is manageable (never root, never a denied or system account that is not allowed
    explicitly), and starts at most one unit: the enabled task it names, run as its
    owner, or the configured backup it names.  The entry of root that a configured backup has
    in the directory of the system is not a crontab of a user. *)
Theorem Handle_effects a h command args h' reply :
  Handle b decode t a h command args = (h', reply) →
  (∀ o, tables h' !! o ≠ tables h !! o → o = arg args 0 ∧ manageable (user_files a) o) ∧
  (units h' = units h ∨ ∃ arguments, started a h command args arguments ∧ units h' = units h ++ [arguments]).
Proof.
  assert (∀ h', no_effect h h' →
    (∀ o, tables h' !! o ≠ tables h !! o → o = arg args 0 ∧ manageable (user_files a) o) ∧
    (units h' = units h ∨ ∃ arguments, started a h command args arguments ∧ units h' = units h ++ [arguments])) as Hq.
  { intros h1 [Ht Hu]. split; [|by left]. intros o Ho. by rewrite Ht in Ho. }
  unfold Handle. destruct (String.eqb command ""); [intros [= <- _]; by apply Hq|].
  destruct (List.find _ argumentCounts) as [[c n]|] eqn:Hfind; [|intros [= <- _]; by apply Hq].
  destruct (Nat.eqb _ n); simpl; [|intros [= <- _]; by apply Hq].
  destruct (dependencies b a command); [intros [= <- _]; by apply Hq|].
  destruct (execute b decode t a command args h) as [out h1] eqn:He.
  intros Hout. assert (h1 = h') as -> by (destruct out; by simplify_eq). clear Hout.
  apply execute_cases in He as [He|[[-> Hb]|[Hc Hm]]]; [by apply Hq| |].
  - unfold runBackupTask, refuse in Hb. destruct (managedID (arg args 0)) eqn:Hid; simpl in Hb;
      [|injection Hb as <- <-; by apply Hq].
    destruct (host_files h !! task_path b (arg args 0)) eqn:Hf; [|injection Hb as <- <-; by apply Hq].
    apply startExecution_cases in Hb as [Ht Hu]. split; [intros o Ho; by rewrite Ht in Ho|].
    destruct out; [right|by left]. destruct Hu as (execution & _ & _ & Hu). eexists. split; [|done].
    apply started_backup; [done..|by rewrite Hf].
  - apply manage_guards in Hm as [[reply' Hm]|Hm]; [simplify_eq; by apply Hq|].
    destruct (task_arguments command args) as [[id schedule] com] eqn:Hargs.
    destruct Hm as (Ho & _ & _ & Hm). symmetry in Hm. apply manage_locked_frame in Hm as [Ht Hu]. split.
    + intros o Hne. destruct (decide (o = arg args 0)) as [->|Hn]; [done|]. by rewrite Ht in Hne.
    + destruct Hu as [Hu|(records & output & st & task & execution & Hr & Hl & Hp & Hf & Hen & Hu)]; [by left|].
      right. eexists. split; [|done]. apply table_read in Hl as [_ Hl]. rewrite Hl in Hp. subst command.
      cbn [task_arguments] in Hargs. injection Hargs as <- _ _. by eapply started_task.
Qed.
End handler.

(** ** Scheduled backups *)

(** The words of a validated schedule. *)
Lemma schedule_words schedule command :
  validTaskInput schedule command = true →
  ∃ ws, Forall is_field ws ∧ ws ≠ [] ∧ normalizeSchedule schedule = join " " ws ∧
    join " " ws ≠ "" ∧ space_width (join " " ws) = 0%nat ∧
    (List.length ws = 1%nat ∧ macroExact (join " " ws) = true ∧ has_prefix (join " " ws) "@" = true ∨
     List.length ws = 5%nat ∧ has_prefix (join " " ws) "@" = false).
Proof.
  intros (Hv & _ & _)%validTaskInput_spec.
  assert (∃ ws, Forall is_field ws ∧ ws ≠ [] ∧ normalizeSchedule schedule = join " " ws ∧
    (List.length ws = 1%nat ∧ macroExact (join " " ws) = true ∧ has_prefix (join " " ws) "@" = true ∨
     List.length ws = 5%nat ∧ has_prefix (join " " ws) "@" = false)) as (ws & Hws & Hne & Hn & Hk).
  { destruct Hv as [[Hp Hm]|[Hp Hl]].
    - exists [normalizeSchedule schedule]. destruct (macroExact_word _ Hm) as (? & ?).
      split_and!; [by constructor; [apply graphic_field|]|done..|left; done].
    - exists (fields schedule). split_and!; [apply fields_is_field|by intros E; rewrite E in Hl|done|by right]. }
  exists ws. split_and!; try done.
  - destruct Hws as [|w ws [Hw _] _]; [done|]. destruct ws; [done|]. rewrite join_cons_ne by done. by destruct w.
  - destruct Hws as [|w ws [Hw1 Hw2] _]; [done|].
    assert (space_width w = 0%nat) by (destruct w; [done|]; by apply spaceless_cons in Hw2 as [? _]).
    destruct ws; [done|]. rewrite join_cons_ne by done. by apply (space_width_app_ascii w " "%char).
Qed.

Lemma join_snoc sep l x : l ≠ [] → join sep (l ++ [x]) = join sep l +++ sep +++ x.
Proof.
  induction l as [|y l IH]; [done|]. intros _. destruct l as [|z l]; [done|].
  rewrite <- app_comm_cons, !join_cons_ne, IH by (done || by destruct l). by rewrite !sapp_assoc.
Qed.

(** A line of a system crontab, with its user. *)
Lemma parseJobLine_system schedule owner c :
  validTaskInput schedule "true" = true → is_field owner → c ≠ "" → trim_space c = c → contains_byte nl c = false →
  let line := normalizeSchedule schedule +++ " " +++ owner +++ " " +++ c in
  trim_space line = line ∧ parseJobLine line "" = Ok (normalizeSchedule schedule, owner, c).
Proof.
  intros Hv [Ho1 Ho2] Hc Ht Hnl line.
  destruct (schedule_words _ _ Hv) as (ws & Hws & Hne & Hn & Hj1 & Hj2 & Hk).
  assert (trim_space line = line) as Hl.
  { unfold line. rewrite Hn. apply trim_space_task; [done..|by destruct owner|].
    apply trim_space_task; [done| |done..]. destruct owner; [done|]. by apply spaceless_cons in Ho2 as [? _]. }
  split; [done|]. unfold parseJobLine. rewrite Hl. unfold line. rewrite Hn.
  rewrite (has_prefix_at (join " " ws)) by done.
  assert (Hlg := line_groups_words (ws ++ [owner]) c ltac:(by apply Forall_app; repeat constructor) ltac:(by destruct ws)
    Hc ltac:(rewrite <- Ht; apply trim_head_free) Hnl).
  rewrite join_snoc, !sapp_assoc, length_app in Hlg by done.
  destruct Hk as [(Hlen & Hm & Hp)|(Hlen & Hp)]; rewrite Hp; rewrite Hlen in Hlg;
    [change (1 + List.length [owner])%nat with 2%nat in Hlg|change (5 + List.length [owner])%nat with 6%nat in Hlg];
    rewrite Hlg.
  - rewrite macroLine_space by done. by destruct ws as [|w [|]].
  - by destruct ws as [|x1 [|x2 [|x3 [|x4 [|x5 [|]]]]]].
Qed.

Lemma periodicPath_none s : contains_byte "/" s = false → periodicPath s = None.
Proof.
  unfold contains_byte. induction s as [|c s IH]; [done|]. cbn [sexists]. intros [Hc Hs]%orb_false_elim.
  cbn [periodicPath]. rewrite (IH Hs).
  assert (∀ p, has_prefix (String c s) ("/etc/cron." +++ p) = false) as Hp.
  { intros p. unfold has_prefix. simpl. case_match; [|done]. subst. by rewrite Ascii.eqb_refl in Hc. }
  assert (List.find (λ p, has_prefix (String c s) ("/etc/cron." +++ p) &&
    period_end (sdrop (10 + String.length p) (String c s))) periods = None) as ->; [|done].
  generalize periods. intros l. induction l as [|p l IHl]; [done|]. cbn [List.find]. rewrite Hp. exact IHl.
Qed.

Lemma periodicPath_backup id :
  contains_byte "/" id = false → periodicPath (BackupExecutable debian +++ " " +++ id) = None.
Proof. intros Hid. simpl. by rewrite periodicPath_none. Qed.

Definition printable (c : ascii) : bool := 32 <=? byte c.
Lemma label_printable n : ∀ p s k, (String.length s <= n)%nat → label_points p s = Some k → sforall printable s = true.
Proof.
  assert (∀ p c, label_letter c || (p && contains_byte c " ._-") = true → printable c = true) as Hl.
  { intros [] c; revert c; by apply class_incl; vm_compute. }
  assert (∀ c d, (byte c =? 195) && (128 <=? byte d) && (byte d <=? 191) = true →
    printable c = true ∧ printable d = true) as Hm.
  { intros c d Hb. bool_prop. unfold printable. split; apply Z.leb_le; lia. }
  induction n as [|n IH]; intros p [|c s] k Hlen; [done|simpl in Hlen; lia|done|].
  cbn [label_points]. destruct (label_letter c || _) eqn:E.
  - destruct (label_points true s) as [j|] eqn:Ej; [|done]. intros _. simpl.
    rewrite (Hl _ _ E), (IH true s j); [done|simpl in Hlen; lia|done].
  - destruct s as [|d s]; [done|]. destruct ((byte c =? 195) && (128 <=? byte d) && (byte d <=? 191)) eqn:E2; [|done]. apply Hm in E2 as [Hc Hd].
    destruct (label_points true s) as [j|] eqn:Ej; [|done]. intros _. simpl.
    rewrite Hc, Hd, (IH true s j); [done|simpl in Hlen; lia|done].
Qed.

Lemma backupLabel_spec s :
  backupLabel s = true → s ≠ "" ∧ contains_byte nl s = false ∧ contains_byte cr s = false.
Proof.
  unfold backupLabel. destruct (label_points false s) as [n|] eqn:E; [|done]. intros Hn. bool_prop.
  pose proof (label_printable _ _ _ _ (le_n _) E) as Hp.
  split_and!; [by intros ->; simplify_eq/=; lia|..]; apply contains_byte_sforall;
    (eapply sforall_weaken; [|done]); apply class_incl; by vm_compute.
Qed.

Definition comment_text (name : string) : string := "# Sauvegarde gérée par AegisAdmin : " +++ name.

(** The first line of the file of a backup is a comment whatever its name. *)
Lemma comment_line name :
  name ≠ "" → trim_space name = name →
  trim_space (comment_text name) = comment_text name ∧ managedMarker (comment_text name) = None ∧
  has_prefix (comment_text name) "# AEGISADMIN-TASK:" = false ∧ no_task (comment_text name) = true.
Proof.
  intros Hn Ht. split; [|done].
  apply (trim_space_task "#"); [done..|]. apply (trim_space_task "Sauvegarde"); [done..|].
  apply (trim_space_task "gérée"); [done..|]. apply (trim_space_task "par"); [done..|].
  apply (trim_space_task "AegisAdmin"); [done..|]. by apply (trim_space_task ":").
Qed.

Lemma id_free c id : managedID id = true → id_byte c = false → contains_byte c id = false.
Proof.
  intros Hid Hc. apply contains_byte_sforall. eapply sforall_weaken; [|by apply managedID_bytes].
  intros d Hd. by destruct (Ascii.eqb_spec c d); [congruence|].
Qed.

Section scheduled.
Context (editable : string → bool) (expand_periodic : string → string → res errorsText (list Job)).

(** The file written for a backup, listed: one job, of root, running the backup. *)
Lemma cron_text_listed name schedule id path :
  name ≠ "" → trim_space name = name → contains_byte nl name = false → contains_byte cr name = false →
  validTaskInput schedule "true" = true → normalizeSchedule schedule = schedule → cron_start schedule = true →
  managedID id = true → valid_utf8 (cron_text debian name schedule id) = true →
  parseCrontab editable expand_periodic path "system" "" true (cron_text debian name schedule id) =
    Ok [mkJob (taskIdentifier "readonly" [path; "system"; "root"; schedule; BackupExecutable debian +++ " " +++ id; "2"])
          path "system" "root" schedule (BackupExecutable debian +++ " " +++ id) (Some 2) true false false].
Proof.
  intros Hn Ht Hnl Hcr Hv Hnorm Hstart Hid Hutf. unfold parseCrontab. rewrite Hutf.
  destruct (comment_line name Hn Ht) as (Hc1 & Hc2 & Hc3 & Hc4).
  set (command := BackupExecutable debian +++ " " +++ id).
  assert (trim_space command = command) as Htc.
  { apply trim_space_task; [done..| |].
    - by intros ->.
    - apply graphic_trim; [by intros ->|]. eapply sforall_weaken; [|by apply managedID_bytes].
      by apply class_incl; vm_compute. }
  assert (contains_byte nl command = false ∧ contains_byte cr command = false) as [Hcn Hcc]
    by (unfold command; rewrite !contains_byte_app, !(id_free _ _ Hid) by done; done).
  destruct (parseJobLine_system schedule "root" command Hv ltac:(done) ltac:(done) Htc Hcn) as [Hl Hp].
  rewrite Hnorm in Hl, Hp. set (line := schedule +++ " " +++ "root" +++ " " +++ command) in *.
  assert (contains_byte nl schedule = false ∧ contains_byte cr schedule = false) as [Hsn Hsc].
  { destruct (validTaskInput_spec _ _ Hv) as (_ & _ & Hf). split; by apply Hf. }
  assert (contains_byte nl line = false ∧ contains_byte cr line = false) as [Hln Hlc]
    by (unfold line; rewrite !contains_byte_app, Hcn, Hcc, Hsn, Hsc; done).
  assert (cron_text debian name schedule id = comment_text name +++ String nl (line +++ String nl "")) as ->.
  { unfold cron_text, comment_text, line, command. by rewrite !sapp_assoc. }
  assert (contains_byte nl (comment_text name) = false ∧ contains_byte cr (comment_text name) = false) as [Hxn Hxc]
    by (unfold comment_text; rewrite !contains_byte_app, Hnl, Hcr; done).
  rewrite crlf_id; [|rewrite contains_byte_app, Hxc; change (contains_byte cr (line +++ snl) = false);
    by rewrite contains_byte_app, Hlc].
  rewrite split_app_sep, split_app_sep by done. cbn [split crontab_from].
  rewrite Hc1, Hc2, Hc3, Hc4, Hl.
  assert (∃ c r, line = String c r ∧ name_start c = false ∧ Ascii.eqb c "#" = false) as (c & r & Hline & Hns & Hh).
  { unfold cron_start in Hstart. rewrite Hnorm in Hstart. unfold line. destruct schedule as [|c s]; [done|].
    bool_prop. exists c. eexists. by rewrite sapp_cons. }
  assert (∀ w, has_prefix line (String "#" w) = false) as Hpre.
  { intros w. rewrite Hline. unfold has_prefix. simpl. case_match; [|done]. subst. by rewrite Ascii.eqb_refl in Hh. }
  assert (managedMarker line = None) as -> by (unfold managedMarker; by rewrite (Hpre " AEGISADMIN-TASK: " : has_prefix line marker_prefix = false)).
  assert (no_task line = false) as ->.
  { unfold no_task. rewrite Hpre. rewrite Hline. unfold environment. unfold name_start in Hns. by rewrite Hns. }
  rewrite Hpre, Hp. cbn [res_bind]. unfold command at 1. rewrite periodicPath_backup by (by apply id_free).
  cbn [String.eqb negb andb]. unfold build_job.
  assert (String.eqb schedule "" = false ∧ String.eqb command "" = false) as [-> ->].
  { split; [|done]. by destruct schedule. }
  reflexivity.
Qed.
End scheduled.
