(* ===== verification/CronSpecs.v ===== *)
(** * The cron domain: scheduled backups, run results, the listing, examples

    The theorems on scheduled backups and on the results of runs, the agreement of the
    listing with the editor of crontabs, and the concrete host on which the theorems of
    the cron domain are applied. *)

From S2P Require Import Prelude GoStrings StringFacts Regex Codec Json Crontab CronTasks CronFacts.
From S2P Require Api Backup.
From Stdlib Require Import Ascii String.
#[local] Open Scope string_scope.
#[local] Open Scope list_scope.
#[local] Open Scope Z_scope.

Import Api(Reply, failure, success, VStr, VInt, VBool, Value).

(** ** Scheduled backups *)

Lemma normalize_idemp s : normalizeSchedule (normalizeSchedule s) = normalizeSchedule s.
Proof. unfold normalizeSchedule. by rewrite fields_join by apply fields_is_field. Qed.

Lemma backup_paths id :
  managedID id = true →
  task_path debian id = "/etc/aegisadmin-system/backup-tasks/" +++ id +++ ".json" ∧
  cron_path debian id = "/etc/cron.d/aegisadmin-backup-" +++ id.
Proof.
  intros Hid. assert (∀ s t, contains_byte "/" (s +++ id +++ t) = false → s +++ id +++ t ≠ "" → (2 < String.length (s +++ id +++ t))%nat →
    Backup.proper (s +++ id +++ t)) as Hp.
  { intros s t Hs Hne Hl. unfold Backup.proper. split_and!; try done; intros E; rewrite E in Hl; simpl in Hl; lia. }
  pose proof (managedID_length _ Hid) as Hl. pose proof (id_free "/" id Hid eq_refl) as Hf.
  split.
  - unfold task_path. rewrite Backup.Join_elements; [done..|]. apply (Hp "" ".json").
    + by rewrite !contains_byte_app, Hf.
    + by destruct id.
    + rewrite !sapp_length, Hl. simpl. lia.
  - unfold cron_path. rewrite Backup.Join_elements; [done..|].
    rewrite <- (sapp_nil_r id). apply (Hp "aegisadmin-backup-" "").
    + by rewrite !contains_byte_app, Hf.
    + done.
    + rewrite !sapp_length, Hl. simpl. lia.
Qed.

Lemma paths_differ id : managedID id = true → cron_path debian id ≠ task_path debian id.
Proof. intros [-> ->]%backup_paths. done. Qed.

Section backups.
Context `{CronPrograms}.
Implicit Types (a : Answers) (h : Host).

Lemma createBackupTask_inv b a args h d h' :
  createBackupTask b a args h = (Ok d, h') →
  ∃ id port retention removeLocal, newUUID (random a) = Some id ∧
    backupLabel (trim_space (arg args 0)) = true ∧
    one_of (arg args 1) ["mysql"; "apache"; "sites"] = true ∧
    validTaskInput (normalizeSchedule (arg args 4)) "true" = true ∧
    Backup.Validate (backup_task args id port retention removeLocal) = None ∧
    d = [("id", VStr id); ("name", VStr (trim_space (arg args 0))); ("kind", VStr (arg args 1)); ("result", VStr "success")] ∧
    h' = write_file (cron_path b id) (cron_text b (trim_space (arg args 0)) (normalizeSchedule (arg args 4)) id)
           (write_file (task_path b id) (task_json (backup_task args id port retention removeLocal) +++ snl) h).
Proof.
  unfold createBackupTask, create_failed, refuse.
  destruct (atoi (arg args 7)) as [port|], (atoi (arg args 10)) as [retention|],
    (parse_bool (arg args 11)) as [removeLocal|]; try done.
  match goal with |- context [if ?c then _ else _] => destruct c eqn:Hc end; [done|]. bool_prop.
  destruct (newUUID (random a)) as [id|]; [|done].
  destruct (Backup.Validate _) eqn:Hval; [done|].
  destruct (secureExecutable a _), (grants a TaskDirectoryCheck), (grants a TaskFile), (grants a CronFile); try done.
  cbn [negb]. intros Heq. assert (h' = _) as -> by (symmetry; exact (f_equal snd Heq)).
  exists id, port, retention, removeLocal. split_and!; try done.
  - unfold one_of. simpl. by destruct (String.eqb (arg args 1) "mysql"), (String.eqb (arg args 1) "apache"),
      (String.eqb (arg args 1) "sites").
  - assert (Ok (E := Reply) d = Ok _) as Hd by (symmetry; exact (f_equal fst Heq)). congruence.
Qed.

(** Creating a scheduled backup that succeeds writes exactly two files, the task and
    its schedule; the listing reads the schedule back as one enabled job of root that
    runs the backup program with the identifier of the task, on the schedule asked for,
    and deleting the task takes both files away again. *)
Theorem createBackupTask_listed a args h d h' value expand path :
  createBackupTask debian a args h = (Ok d, h') → random a = Some value → String.length value = 16%nat →
  cron_start (arg args 4) = true →
  ∃ id task job, managedID id = true ∧ Backup.Validate task = None ∧ Backup.task_ID task = id ∧
    host_files h' = <[cron_path debian id := cron_text debian (trim_space (arg args 0)) (normalizeSchedule (arg args 4)) id]>
                      (<[task_path debian id := task_json task +++ snl]> (host_files h)) ∧
    (valid_utf8 (cron_text debian (trim_space (arg args 0)) (normalizeSchedule (arg args 4)) id) = true →
     parseCrontab (editable (user_files a)) expand path "system" "" true
       (cron_text debian (trim_space (arg args 0)) (normalizeSchedule (arg args 4)) id) = Ok [job]) ∧
    job_User job = "root" ∧ job_Enabled job = true ∧ job_Managed job = false ∧
    job_Schedule job = normalizeSchedule (arg args 4) ∧
    job_Command job = BackupExecutable debian +++ " " +++ id ∧
    ∀ a', grants a' RemoveCron = true → grants a' RemoveTask = true →
      ∃ d', deleteBackupTask debian a' id h' =
        (Ok d', mkHost (tables h) (delete (task_path debian id) (delete (cron_path debian id) (host_files h))) (units h)).
Proof.
  intros Hc Hr Hlen Hstart. apply createBackupTask_inv in Hc as
    (id & port & retention & remove & Hid & Hlab & _ & Hv & Hval & -> & ->).
  rewrite Hr in Hid. pose proof (newUUID_valid _ _ Hlen Hid) as Hm.
  destruct (backupLabel_spec _ Hlab) as (Hn & Hnl & Hcr).
  eexists id, (backup_task args id port retention remove), (mkJob _ path "system" "root" _ _ (Some 2) true false false).
  split_and!; try done.
  - intros Hutf. apply cron_text_listed; try done; [apply trim_space_idemp|apply normalize_idemp|].
    unfold cron_start in *. by rewrite normalize_idemp.
  - intros a' Hg1 Hg2. unfold deleteBackupTask. rewrite Hm, Hg1, Hg2. cbn [negb andb].
    unfold write_file, remove_file. cbn [host_files tables units].
    rewrite lookup_insert_ne, lookup_insert_eq.
    + eexists. do 2 f_equal. apply map_eq. intros k.
      destruct (decide (k = task_path debian id)) as [->|H1]; [by rewrite !lookup_delete_eq|].
      rewrite !(lookup_delete_ne _ (task_path debian id)) by done.
      destruct (decide (k = cron_path debian id)) as [->|H2]; [by rewrite !lookup_delete_eq|].
      by rewrite !lookup_delete_ne, !lookup_insert_ne by done.
    + by apply paths_differ.
Qed.
End backups.

(** ** The listing agrees with the editor *)

Lemma word_groups_nonempty n : ∀ s ws r, word_groups n s = Some (ws, r) → Forall (λ w, w ≠ "") ws ∧ List.length ws = n.
Proof.
  induction n as [|n IH]; intros s ws r; cbn [word_groups]; [by intros [= <- <-]|].
  destruct (span re_space s) as [x y]. destruct (span _ y) as [w z].
  destruct (String.eqb_spec w ""); [done|]. destruct (word_groups n z) as [[ws' r']|] eqn:E; [|done].
  intros [= <- <-]. apply IH in E as [? ?]. split; [by constructor|]. simpl. by f_equal.
Qed.

Lemma line_groups_nonempty n s ws c :
  line_groups n s = Some (ws, c) → Forall (λ w, w ≠ "") ws ∧ List.length ws = n ∧ c ≠ "".
Proof.
  unfold line_groups. destruct (word_groups n s) as [[ws' r]|] eqn:E; [|done].
  apply word_groups_nonempty in E as [Hw Hl]. unfold tail_group.
  destruct (span re_space r) as [x y]. destruct (String.eqb_spec x ""); [done|].
  destruct (String.eqb_spec y "").
  - destruct (last_byte x); [|done]. destruct (_ && _); [|done]. by intros [= <- <-].
  - destruct (contains_byte nl y); [done|]. by intros [= <- <-].
Qed.

Lemma join_nonempty sep ws : Forall (λ w, w ≠ "") ws → ws ≠ [] → join sep ws ≠ "".
Proof. intros [|w ws' Hw _] Hn; [done|]. destruct ws'; [done|]. rewrite join_cons_ne by done. by destruct w. Qed.

Lemma parseJobLine_nonempty line owner s u c :
  owner ≠ "" → parseJobLine line owner = Ok (s, u, c) → s ≠ "" ∧ u = owner ∧ c ≠ "".
Proof.
  intros Ho. unfold parseJobLine. rewrite (proj2 (String.eqb_neq owner "") Ho).
  destruct (has_prefix (trim_space line) "@").
  - destruct (macroLine _); [|done]. destruct (line_groups 1 line) as [[ws c']|] eqn:E; [|done].
    apply line_groups_nonempty in E as (Hw & Hl & Hc). destruct ws as [|w [|]]; try done.
    intros [= <- <- <-]. by inv Hw.
  - destruct (line_groups 5 line) as [[ws c']|] eqn:E; [|done].
    apply line_groups_nonempty in E as (Hw & Hl & Hc). intros [= <- <- <-]. split_and!; [|done..].
    apply join_nonempty; [done|]. by intros ->.
Qed.

Lemma no_task_no_marker line :
  no_task line = false → managedMarker line = None ∧ has_prefix line "# AEGISADMIN-TASK:" = false.
Proof.
  unfold no_task. intros Hn. bool_prop.
  assert (∀ w, has_prefix line (String "#" w) = false) as Hw.
  { intros w. destruct (has_prefix line (String "#" w)) eqn:E; [|done].
    apply has_prefix_spec in E as [t ->]. change (has_prefix (String "#" (w +++ t)) "#" = false) in H1.
    unfold has_prefix in H1. simpl in H1. by destruct (w +++ t). }
  split; [|apply (Hw " AEGISADMIN-TASK:")]. unfold managedMarker.
  by rewrite (Hw " AEGISADMIN-TASK: " : has_prefix line marker_prefix = false).
Qed.

(** What the listing and the editor both say of a task. *)
Definition job_view (j : Job) : string * string * string * bool * bool :=
  (job_ID j, job_Schedule j, job_Command j, job_Enabled j, job_Managed j).
Definition record_view (r : crecord) : string * string * string * bool * bool :=
  (rec_id r, rec_schedule r, rec_command r, rec_enabled r, rec_managed r).

Section listing.
Context (editable : string → bool) (expand_periodic : string → string → res errorsText (list Job)).
Context (path owner : string).

Let listed := crontab_from editable expand_periodic path "user" owner true.

Lemma build_job_ok source kind user schedule command line id enabled edit managed :
  user ≠ "" → schedule ≠ "" → command ≠ "" → id ≠ "" →
  build_job source kind user schedule command line id enabled edit managed =
    Ok (mkJob id source kind user schedule command line enabled edit managed).
Proof. intros. unfold build_job. by rewrite !(proj2 (String.eqb_neq _ _)) by done. Qed.

Lemma id_nonempty id : managedID id = true → id ≠ "".
Proof. by intros Hid ->. Qed.

Lemma legacy_nonempty user s c n : legacyTaskIdentifier user s c n ≠ "".
Proof. done. Qed.

(** One step of the editor is one step, or two, of the listing. *)
Lemma listed_step i j occ mid here occ' rest :
  owner ≠ "" → Step owner i occ mid here occ' → Forall (λ l, trim_space l = l) mid →
  Forall (λ r, periodicPath (rec_command r) = None) here →
  ∃ jobs j', listed j "" occ (mid ++ rest) = res_map (app jobs) (listed j' "" occ' rest) ∧
    job_view <$> jobs = record_view <$> here.
Proof.
  intros Ho Hs Htrim Hper. destruct Hs as [raw Hm Hp Hn|mid id line s c en Hb Hne|raw s c n Hb Hn].
  - inv Htrim. exists [], (j + 1). split; [|done]. unfold listed. cbn [app crontab_from].
    rewrite Hm, Hp, Hn. by destruct (crontab_from _ _ _ _ _ _ _ _ _ _).
  - inv Hper. cbn [rec_command] in *. destruct en.
    + apply block_active_lines in Hb as (raw & u & -> & Hraw & Hid & Hnt & Hj).
      destruct (parseJobLine_nonempty _ _ _ _ _ Ho Hj) as (Hs & -> & Hc).
      inv Htrim. match goal with Hx : Forall _ [line] |- _ => inv Hx end.
      destruct (no_task_no_marker _ Hnt) as [Hk1 Hk2].
      eexists [_], (j + 1 + 1). split.
      * unfold listed. cbn [app crontab_from]. rewrite Hraw, managedMarker_active by done.
        rewrite (proj2 (String.eqb_neq owner "") Ho). cbn [String.eqb negb orb].
        rewrite Hk1, Hk2, Hnt. replace (trim_space line) with line by done. rewrite Hj. cbn [res_bind].
        match goal with Hx : periodicPath _ = None |- _ => rewrite Hx end.
        rewrite (proj2 (String.eqb_neq id "") (id_nonempty _ Hid)). cbn [negb andb].
        rewrite build_job_ok by (done || by apply id_nonempty). reflexivity.
      * reflexivity.
    + inversion Hb as [| |]; subst. inv Htrim.
      match goal with Hj : parseJobLine _ _ = _ |- _ =>
        destruct (parseJobLine_nonempty _ _ _ _ _ Ho Hj) as (Hs & -> & Hc) end.
      match goal with Hm : managedMarker _ = _ |- _ => pose proof (managedMarker_inv _ _ _ _ Hm) as [Hid _] end.
      eexists [_], (j + 1). split.
      * unfold listed. cbn [app crontab_from].
        match goal with Hm : managedMarker _ = _ |- _ => rewrite Hm end.
        rewrite (proj2 (String.eqb_neq owner "") Ho). cbn [String.eqb negb orb].
        match goal with Hd : suspended_line _ = _ |- _ => rewrite Hd end.
        match goal with Hj : parseJobLine _ _ = _ |- _ => rewrite Hj end. cbn [res_bind].
        rewrite build_job_ok by (done || by apply id_nonempty). reflexivity.
      * reflexivity.
  - inversion Hb as [| |? ? ? ? ? Hm Hp Hnt Hj]; subst. inv Htrim. inv Hper. cbn [rec_command] in *.
    destruct (parseJobLine_nonempty _ _ _ _ _ Ho Hj) as (Hs & -> & Hc).
    eexists [_], (j + 1). split.
    + unfold listed. cbn [app crontab_from]. rewrite Hm, Hp, Hnt.
      replace (trim_space raw) with raw by done. rewrite Hj. cbn [res_bind].
      match goal with Hx : periodicPath _ = None |- _ => rewrite Hx end.
      rewrite (proj2 (String.eqb_neq owner "") Ho). cbn [String.eqb negb andb].
      rewrite build_job_ok by (done || apply legacy_nonempty). reflexivity.
    + reflexivity.
Qed.
Lemma listed_lines n : ∀ lines i j occ rs tail, (List.length lines <= n)%nat → owner ≠ "" →
  records_from owner i occ lines = Ok rs → Forall (λ l, trim_space l = l) lines →
  Forall (λ r, periodicPath (rec_command r) = None) rs → Forall (λ l, l = "") tail →
  ∃ jobs, listed j "" occ (lines ++ tail) = Ok jobs ∧ job_view <$> jobs = record_view <$> rs.
Proof.
  induction n as [|n IH]; intros lines i j occ rs tail Hl Ho Hr Ht Hp Htail;
    (destruct (decide (lines = [])) as [->|Hne];
     [injection Hr as <-; exists []; split; [|done]; clear -Htail; revert j;
      induction Htail as [|x tail -> _ IHt]; intros j; [done|apply IHt]|]).
  { destruct lines; [done|simpl in Hl; lia]. }
  destruct (records_inv _ _ _ _ _ Hr Hne) as (mid & rest & here & occ1 & rs' & -> & Hm & Hs & Hr' & ->).
  apply Forall_app in Ht as [Ht1 Ht2]. apply Forall_app in Hp as [Hp1 Hp2].
  destruct (listed_step i j occ mid here occ1 (rest ++ tail) Ho Hs Ht1 Hp1) as (jobs1 & j' & H1 & Hv1).
  destruct (IH rest (i + List.length mid)%nat j' occ1 rs' tail) as (jobs2 & H2 & Hv2); [|done..|].
  { rewrite length_app in Hl. destruct mid; [done|]. simpl in Hl. lia. }
  exists (jobs1 ++ jobs2). rewrite <- app_assoc, H1, H2. split; [done|]. by rewrite !fmap_app, Hv1, Hv2.
Qed.

(** The lines of the file are those of the editor, and perhaps an empty one at the end. *)
Lemma split_content content :
  ∃ tail, split nl (crlf_to_lf content) = splitContent content ++ tail ∧ Forall (λ l, l = "") tail.
Proof.
  unfold splitContent. set (c := crlf_to_lf content). unfold trim_suffix.
  destruct (has_suffix c snl) eqn:E.
  - apply has_suffix_spec in E as [t ->]. pose proof (trim_suffix_app t snl) as Ht.
    unfold trim_suffix in Ht. rewrite has_suffix_app in Ht. rewrite Ht.
    change (t +++ snl) with (t +++ String nl ""). rewrite split_app.
    destruct (String.eqb_spec t "") as [->|]; [exists ["" ; ""]|exists [""]]; (split; [done|]); by repeat constructor.
  - destruct (String.eqb_spec c "") as [->|]; [exists [""]; split; [done|by repeat constructor]|].
    exists []. by rewrite app_nil_r.
Qed.

(** The listing and the editor agree on a user's crontab: when the editor can read
    it, and its lines carry no space around and no periodic directory, the listing reads
    it too and gives, in the same order, one job for each task, under the identifier by
    which the editor finds it, with the same schedule, command and state. *)
Theorem listing_agrees content records :
  owner ≠ "" → parseRecords owner (splitContent content) = Ok records → valid_utf8 content = true →
  Forall (λ l, trim_space l = l) (splitContent content) →
  Forall (λ r, periodicPath (rec_command r) = None) records →
  ∃ jobs, parseCrontab editable expand_periodic path "user" owner true content = Ok jobs ∧
    job_view <$> jobs = record_view <$> records.
Proof.
  intros Ho Hr Hu Ht Hp. destruct (split_content content) as (tail & Hs & Htail).
  unfold parseCrontab. rewrite Hu, Hs.
  by apply (listed_lines (List.length (splitContent content)) _ 0%nat).
Qed.
End listing.

(** ** Refinement: the editor on tasks *)

(** A crontab as its user sees it: a sequence of tasks. *)
Record task := mkTask { t_id : string; t_schedule : string; t_command : string; t_enabled : bool; t_managed : bool }.
Definition task_of (r : crecord) : task :=
  mkTask (rec_id r) (rec_schedule r) (rec_command r) (rec_enabled r) (rec_managed r).

(** What an action means on the tasks: a new one comes last, the named one is changed,
    switched or removed, nothing else moves. *)
Definition on_task (action schedule command : string) (x : task) : option task :=
  if String.eqb action "update" then
    Some (mkTask (t_id x) (normalizeSchedule schedule) (trim_space command) (t_enabled x) (t_managed x))
  else if String.eqb action "suspend" then
    Some (mkTask (t_id x) (t_schedule x) (t_command x) false (t_managed x))
  else if String.eqb action "resume" then
    Some (mkTask (t_id x) (t_schedule x) (t_command x) true (t_managed x))
  else if String.eqb action "delete" then None else Some x.
Definition act_on_tasks (action id schedule command new_id : string) (tasks : list task) : list task :=
  if String.eqb action "create" then
    tasks ++ [mkTask new_id (normalizeSchedule schedule) (trim_space command) true true]
  else omap (λ x, if String.eqb (t_id x) id then on_task action schedule command x else Some x) tasks.

Lemma parse_back owner lines :
  free nl lines → free cr lines → parseRecords owner (splitContent (content_of lines)) = parseRecords owner lines.
Proof.
  intros Hn Hc. destruct (decide (lines = [""])) as [->|Hne]; [done|]. by rewrite splitContent_content.
Qed.

Lemma omap_others action id schedule command (l : list crecord) :
  filter (λ r, rec_id r = id) l = [] →
  omap (λ x, if String.eqb (t_id x) id then on_task action schedule command x else Some x) (task_of <$> l) = task_of <$> l.
Proof.
  induction l as [|r l IH]; [done|]. rewrite filter_cons. destruct (decide (rec_id r = id)) as [|Hne]; [done|].
  intros Hf. cbn [fmap list_fmap omap list_omap task_of t_id]. rewrite (proj2 (String.eqb_neq _ _) Hne).
  f_equal. by apply IH.
Qed.

Lemma filter_split (rs1 : list crecord) r rs3 id :
  findRecord (rs1 ++ r :: rs3) id = Some r →
  filter (λ r, rec_id r = id) rs1 = [] ∧ filter (λ r, rec_id r = id) rs3 = [].
Proof.
  intros (_ & Hid & Hf)%findRecord_unique. rewrite filter_app, filter_cons_True in Hf by done.
  destruct (filter _ rs1) as [|x l]; [by injection Hf|]. injection Hf as _ Hf. by destruct l.
Qed.

Lemma act_on_middle action id schedule command new_id rs1 r rs3 :
  action ≠ "create" → findRecord (rs1 ++ r :: rs3) id = Some r →
  act_on_tasks action id schedule command new_id (task_of <$> (rs1 ++ r :: rs3)) =
    (task_of <$> rs1) ++ option_list (on_task action schedule command (task_of r)) ++ (task_of <$> rs3).
Proof.
  intros Hc Hf. pose proof (filter_split _ _ _ _ Hf) as [H1 H3].
  pose proof (findRecord_unique _ _ _ Hf) as (_ & Hid & _).
  unfold act_on_tasks. rewrite (proj2 (String.eqb_neq action "create") Hc), fmap_app, omap_app, omap_others by done.
  f_equal. cbn [fmap list_fmap omap list_omap task_of t_id]. rewrite Hid, String.eqb_refl.
  change (list_fmap crecord task task_of rs3) with (task_of <$> rs3).
  change (list_omap task task ?f ?l) with (omap f l). rewrite omap_others by done.
  by destruct (on_task _ _ _ _).
Qed.

Lemma strip_tasks (l l' : list crecord) : strip <$> l = strip <$> l' → task_of <$> l = task_of <$> l'.
Proof.
  revert l'. induction l as [|r l IH]; intros [|r' l'] Heq; try done.
  pose proof (f_equal (default (strip r) ∘ head) Heq) as Hr. pose proof (f_equal tail Heq) as Hl.
  cbn [tail] in Hl. change (strip r = strip r') in Hr. cbn [fmap list_fmap]. f_equal; [|by apply IH].
  unfold strip, task_of in *. congruence.
Qed.

(** The records without a managed task. *)
Lemma records_delete owner lines rs r l1 mid l3 rs1 rs3 occ1 occ2 :
  focus owner 0 ∅ lines rs r l1 mid l3 rs1 rs3 occ1 occ2 → rec_managed r = true →
  ∃ rs3', parseRecords owner (l1 ++ l3) = Ok (rs1 ++ rs3') ∧ strip <$> rs3' = strip <$> rs3.
Proof.
  intros (-> & Hm & -> & H1 & H2 & H3 & H4 & H5 & H6) Hman.
  destruct (records_shift owner (List.length l3) l3 _ (List.length l1) occ2 rs3 ltac:(lia) H5) as (rs3' & Hr & Heq).
  exists rs3'. split; [|done]. unfold parseRecords. rewrite H4, <- (H6 Hman). simpl. by rewrite Hr.
Qed.

Lemma block_parsed owner mid id line s c en man :
  Block owner mid id line s c en man → free cr mid → free nl mid →
  (∃ u, parseJobLine line owner = Ok (s, u, c)) ∧ line ≠ "" ∧ contains_byte cr line = false ∧ contains_byte nl line = false.
Proof.
  intros Hb Hc Hn. inversion Hb as [raw tl ? ? u ? Hm Hnt Hj|raw p ? ? ? u ? Hm Hd Hj|raw ? ? u ? Hm Hp Hnt Hj]; subst;
    (split; [by exists u|]).
  - split; [by apply no_task_nonempty|]. split; [by inv Hc; inv H2|by inv Hn; inv H2].
  - unfold suspended_line in Hd. destruct (b64_decode _ _ p) as [x|]; [|done].
    destruct (String.eqb_spec x ""), (contains_byte cr x) eqn:E1, (contains_byte nl x) eqn:E2; try done.
    by injection Hd as <-.
  - split; [by apply no_task_nonempty|]. split; [by inv Hc|by inv Hn].
Qed.

(** What [replacement] writes is a block of the task [on_task] gives. *)
Lemma edited_block action id schedule command r owner enabled new :
  replacement action id schedule command r = Ok (enabled, new) → action ∈ ["update"; "suspend"; "resume"] →
  managedID id = true → (is_edit action = true → validTaskInput schedule command = true ∧ cron_start schedule = true) →
  owner ≠ "" → (∃ user, parseJobLine (rec_line r) owner = Ok (rec_schedule r, user, rec_command r)) →
  no_task (trim_space (rec_line r)) = false →
  contains_byte cr (rec_line r) = false → contains_byte nl (rec_line r) = false →
  free nl new ∧ free cr new ∧ ∃ line s c, Block owner new id line s c enabled true ∧
    on_task action schedule command (task_of r) = Some (mkTask (rec_id r) s c enabled (rec_managed r)).
Proof.
  intros Hr Ha Hid Hv Ho [user Hp] Hres Hc Hn. pose proof (no_task_nonempty _ Hres) as Hne.
  assert (∀ line s c u, parseJobLine line owner = Ok (s, u, c) → no_task (trim_space line) = false →
    contains_byte cr line = false → contains_byte nl line = false →
    (free nl [activeMarker id; line] ∧ free cr [activeMarker id; line] ∧ Block owner [activeMarker id; line] id line s c true true) ∧
    (free nl [suspendedMarker id line] ∧ free cr [suspendedMarker id line] ∧
     Block owner [suspendedMarker id line] id line s c false true)) as Hb.
  { intros line s c u Hj Hnt Hlc Hln. pose proof (no_task_nonempty _ Hnt).
    pose proof (λ ch Hch, active_free ch id Hch Hid) as Hact. pose proof (λ ch Hch, suspended_free ch id line Hch Hid) as Hsus.
    split; split_and!.
    - apply Forall_cons; split; [auto|by apply Forall_singleton].
    - apply Forall_cons; split; [auto|by apply Forall_singleton].
    - by eapply active_block.
    - apply Forall_singleton; auto.
    - apply Forall_singleton; auto.
    - by eapply suspended_block. }
  assert (∀ y, y = rec_enabled r → mkTask (rec_id r) (rec_schedule r) (rec_command r) y (rec_managed r) = task_of r) as Ht
    by (by intros ? ->).
  unfold replacement in Hr.
  repeat (apply elem_of_cons in Ha as [->|Ha]); [..|by apply not_elem_of_nil in Ha]; cbn in Hr.
  - destruct Hv as [Hv Hs]; [done|].
    destruct (Hb _ _ _ _ (parseJobLine_task schedule command owner Hv Ho) (task_line_task _ _ Hv Hs)
      ltac:(by apply task_line_free) ltac:(by apply task_line_free)) as [(?&?&?) (?&?&?)].
    destruct (rec_enabled r) eqn:He; injection Hr as <- <-; (split_and!; [done..|]); eexists _, _, _; (split; [done|]);
      unfold on_task, task_of; cbn; by rewrite He.
  - destruct (Hb _ _ _ _ Hp Hres Hc Hn) as [_ (?&?&?)].
    destruct (rec_enabled r); [|done]. injection Hr as <- <-. split_and!; [done..|]. by eexists _, _, _.
  - destruct (Hb _ _ _ _ Hp Hres Hc Hn) as [(?&?&?) _].
    destruct (rec_enabled r); [done|]. injection Hr as <- <-. split_and!; [done..|]. by eexists _, _, _.
Qed.

(** C7: the editor refines the actions on tasks: on a crontab without carriage returns,
    an action on a managed task (or a creation) that is accepted writes a text which,
    read back, is the sequence of tasks the action means: one task more at the end, the
    named one changed, switched or gone, every other task as it was and where it was.
    This is for a schedule that cron reads as one, and a named task whose line cron reads
    as a task: neither a comment nor a setting.  The command itself does not check it: a
    schedule that begins with a hash is accepted, and the crontab is then refused (see
    [comment_schedule_locks]).  The random value of an identifier has sixteen bytes. *)
Theorem edit_refines owner action id schedule command random lines records ed :
  owner ≠ "" → parseRecords owner lines = Ok records → free nl lines → free cr lines →
  action ∈ ["create"; "update"; "suspend"; "resume"; "delete"] →
  (is_edit action = true → validTaskInput schedule command = true ∧ cron_start schedule = true) →
  (∀ value, random = Some value → String.length value = 16%nat) →
  (∀ r, findRecord records id = Some r → rec_managed r = true ∧ no_task (trim_space (rec_line r)) = false) →
  edit action id schedule command random lines records = Ok ed →
  ∃ records', parseRecords owner (splitContent (content_of (ed_lines ed))) = Ok records' ∧
    task_of <$> records' = act_on_tasks action id schedule command (ed_id ed) (task_of <$> records).
Proof.
  intros Ho Hp Hn Hc Ha Hv Hrand Hman
    [(-> & Hid & _ & Hl)|(Hcr & r & enabled & new & Hf & Hid & Hr & _ & Hl)]%edit_inv.
  - destruct random as [value|]; [|done]. pose proof (newUUID_valid _ _ (Hrand value eq_refl) Hid) as Hm.
    destruct Hv as [Hv Hs]; [done|].
    assert (∀ c, c = nl ∨ c = cr → free c lines → free c (ed_lines ed)) as Hfree.
    { intros c Hcc Hfc. rewrite Hl. apply free_app. split; [done|].
      repeat constructor; [by apply active_free|]. by destruct Hcc as [->| ->]; apply task_line_free. }
    rewrite parse_back by auto. rewrite Hl. eexists. split; [by apply records_append|]. by rewrite fmap_app.
  - destruct (focus_of _ _ _ _ _ Hp Hf) as (l1 & mid & l3 & rs1 & rs3 & o1 & o2 & Hfoc).
    destruct (Hman r Hf) as [Hmg Hnt]. rewrite Hmg in Hid. injection Hid as Hid. rewrite <- Hid in Hr |- *.
    pose proof (findRecord_unique _ _ _ Hf) as (_ & Hrid & _).
    pose proof Hfoc as (-> & Hmid & -> & Hs & He & Hb & _). rewrite Hs in Hl. simpl in Hl.
    rewrite (replace_focus l1 mid l3 new _ Hmid He) in Hl. rewrite Hl.
    rewrite (act_on_middle action id schedule command id rs1 r rs3 Hcr Hf).
    pose proof Hn as [Hn1 [Hn2 Hn3]%free_app]%free_app. pose proof Hc as [Hc1 [Hc2 Hc3]%free_app]%free_app.
    destruct (decide (action = "delete")) as [->|Hnd].
    + injection Hr as <- <-.
      destruct (records_delete _ _ _ _ _ _ _ _ _ _ _ Hfoc Hmg) as (rs3' & Hp' & Hst).
      exists (rs1 ++ rs3'). rewrite parse_back by (apply free_app; done). split; [done|].
      by rewrite fmap_app, (strip_tasks _ _ Hst).
    + assert (action ∈ ["update"; "suspend"; "resume"]) as Ha' by set_solver.
      rewrite Hmg in Hb. pose proof (block_parsed _ _ _ _ _ _ _ _ Hb Hc2 Hn2) as (Hj & _ & Hlc & Hln).
      assert (managedID id = true) as Hmi.
      { rewrite Hrid in Hb. inversion Hb; subst;
          match goal with Hm : managedMarker _ = Some _ |- _ => by apply managedMarker_inv in Hm as [? _] end. }
      destruct (edited_block _ _ _ _ _ _ _ _ Hr Ha' Hmi Hv Ho Hj Hnt Hlc Hln) as (Hf1 & Hf2 & line & s & c & Hbl & Hon).
      destruct (records_replace _ _ _ _ _ _ _ _ _ _ _ _ _ _ _ _ _ Hfoc Hmg Hbl) as (rs3' & Hp' & Hst).
      eexists. rewrite parse_back by (repeat (apply free_app; split); done). split; [exact Hp'|].
      rewrite Hon, fmap_app, fmap_cons, (strip_tasks _ _ Hst), Hmg. unfold task_of at 2. cbn. by rewrite Hrid.
Qed.

(** ** The result of a run *)

(** A result is answered only under its own identifier, of a known state, within
    the size limit and from a file and directory of root that others cannot touch; a run
    whose file has not changed for 75 seconds is reported failed, never running. *)
Theorem runResult_spec decode directory file content id r :
  runResult decode directory file content id = Ok r →
  executionID id = true ∧ ExecutionID r = id ∧ validResult r = true ∧
  (∃ s a, directory = Stat true s a) ∧
  ∃ size age, file = Stat true size age ∧ size ≤ maximumResultBytes ∧
    (75 * 10^9 < age → Status r ≠ "running").
Proof.
  unfold runResult. destruct (executionID id) eqn:He; simpl; [|done].
  destruct directory as [| |[] ds da]; try done.
  destruct file as [| |secure size age]; try done.
  destruct (negb secure || (maximumResultBytes <? size)) eqn:Hs; [done|]. bool_prop. subst.
  destruct (decoded_result _ _) as [x|]; [|done].
  destruct (negb (String.eqb (ExecutionID x) id) || negb (validResult x)) eqn:Hx; [done|]. bool_prop. subst.
  destruct (String.eqb_spec (Status x) "running"), (Z.ltb_spec (75 * 10^9) age); cbn [andb]; intros Hr;
    assert (r = _) as -> by (symmetry; injection Hr; intros Hq; exact Hq); simpl;
    (split_and!; [done..|by eexists _, _|]); exists size, age; split_and!; try done; lia.
Qed.

(** ** A host for the examples *)

#[local] Existing Instance ascii_case.
#[local] Instance toy_cron : CronPrograms := {|
  crontab_list := λ _ table, match table with Some t => (t, 0) | None => ("no crontab for user", 1) end;
  crontab_check := λ _ _, ("", 0);
  crontab_install := λ _ content _, (Some content, 0);
  systemd_run := λ _, 0;
  run_program := λ _ _, ("", 0) |}.
#[local] Instance toy_laws : CronLaws.
Proof. split; [done..|]. intros ???? Hi. by injection Hi as <-. Qed.

Definition toy_users : UserFiles :=
  mkUserFiles (Some ("root:x:0:0:root:/root:/bin/bash" +++ snl +++ "alice:x:1000:1000::/home/alice:/bin/bash" +++ snl))
    None Missing Missing.
Definition toy_random : string := "0123456789abcdef".
Definition toy_answers : Answers :=
  mkAnswers toy_users (λ _, true) (λ _, true) (Some toy_random) (λ _, true) (λ _, true) [] "20240601T020000.000000Z".
Definition toy_id : string := "30313233-3435-4637-b839-616263646566".
Definition toy_table : string := "# tasks" +++ snl +++ "5 4 * * * /usr/bin/backup" +++ snl.
Definition toy_host : Host := mkHost {[ "alice" := toy_table; "bob" := "1 1 * * * true" +++ snl ]} ∅ [].
Definition toy_create : list string := ["alice"; " 10  3 * * 1 "; " /usr/bin/report --all "].

Example toy_create_answers :
  manage debian toy_answers "create" toy_create toy_host =
    (Ok [("action", VStr "create"); ("user", VStr "alice"); ("id", VStr toy_id); ("enabled", VBool true); ("result", VStr "success")],
     mkHost (<["alice" := toy_table +++ activeMarker toy_id +++ snl +++ "10 3 * * 1 /usr/bin/report --all" +++ snl]> (tables toy_host))
       {[ "/var/backups/aegisadmin-system/cron/20240601T020000.000000Z-alice.crontab" := toy_table ]} []).
Proof. vm_compute. reflexivity. Qed.

Definition toy_created : Host :=
  mkHost (<["alice" := toy_table +++ activeMarker toy_id +++ snl +++ "10 3 * * 1 /usr/bin/report --all" +++ snl]> (tables toy_host))
    {[ "/var/backups/aegisadmin-system/cron/20240601T020000.000000Z-alice.crontab" := toy_table ]} [].
Definition toy_data : data :=
  [("action", VStr "create"); ("user", VStr "alice"); ("id", VStr toy_id); ("enabled", VBool true); ("result", VStr "success")].

Lemma manage_keeps_lines_witness :
  manageable (user_files toy_answers) "alice" ∧
  (∀ o, o ≠ "alice" → tables toy_created !! o = tables toy_host !! o) ∧
  host_files toy_host !! backup_path debian toy_answers "alice" = None ∧
  host_files toy_created = <[backup_path debian toy_answers "alice" := table_text toy_host "alice"]> (host_files toy_host) ∧
  ∃ l1 old new l3, splitContent (table_text toy_host "alice") = l1 ++ old ++ l3 ∧
    tables toy_created !! "alice" = Some (content_of (l1 ++ new ++ l3)) ∧
    ("create" = "create" ∧ old = [] ∧ l3 = [] ∧
       (∃ new_id, new = [activeMarker new_id; task_line " 10  3 * * 1 " " /usr/bin/report --all "]) ∨
     "create" ≠ "create" ∧ ∃ task records, parseRecords "alice" (splitContent (table_text toy_host "alice")) = Ok records ∧
       findRecord records "" = Some task ∧
       Block "alice" old "" (rec_line task) (rec_schedule task) (rec_command task) (rec_enabled task) (rec_managed task)).
Proof.
  apply (manage_keeps_lines debian toy_answers "create" toy_create toy_host toy_data toy_created);
    [vm_compute; reflexivity|discriminate].
Defined.

Lemma create_read_back_witness :
  ∃ id records, toy_data = [("action", VStr "create"); ("user", VStr "alice"); ("id", VStr id);
                            ("enabled", VBool true); ("result", VStr "success")] ∧
    parseRecords "alice" (splitContent (table_text toy_host "alice")) = Ok records ∧
    parseRecords "alice" (splitContent (table_text toy_created "alice")) =
      Ok (records ++ [Rec id (task_line " 10  3 * * 1 " " /usr/bin/report --all ") (normalizeSchedule " 10  3 * * 1 ")
                        (trim_space " /usr/bin/report --all ")
                        (List.length (splitContent (table_text toy_host "alice")))
                        (S (List.length (splitContent (table_text toy_host "alice")))) true true]).
Proof.
  apply (create_read_back debian toy_answers toy_create toy_host toy_data toy_created toy_random); vm_compute; reflexivity.
Defined.

Definition toy_lines : list string :=
  ["# tasks"; activeMarker toy_id; "10 3 * * 1 /usr/bin/report --all"; "5 4 * * * /usr/bin/backup"].
Definition toy_task : crecord :=
  Rec toy_id "10 3 * * 1 /usr/bin/report --all" "10 3 * * 1" "/usr/bin/report --all" 1 2 true true.
Definition toy_legacy : crecord :=
  Rec (legacyTaskIdentifier "alice" "5 4 * * *" "/usr/bin/backup" 1) "5 4 * * * /usr/bin/backup" "5 4 * * *"
    "/usr/bin/backup" 3 3 true false.

Lemma suspend_resume_witness :
  ∃ suspended records1 task1 resumed l1 raw l3,
    edit "suspend" toy_id "" "" None toy_lines [toy_task; toy_legacy] = Ok suspended ∧ ed_id suspended = toy_id ∧
    parseRecords "alice" (splitContent (content_of (ed_lines suspended))) = Ok records1 ∧
    findRecord records1 toy_id = Some task1 ∧ rec_enabled task1 = false ∧ rec_line task1 = rec_line toy_task ∧
    edit "resume" toy_id "" "" None (splitContent (content_of (ed_lines suspended))) records1 = Ok resumed ∧
    toy_lines = l1 ++ [raw; rec_line toy_task] ++ l3 ∧ trim_space raw = activeMarker toy_id ∧
    ed_lines resumed = l1 ++ [activeMarker toy_id; rec_line toy_task] ++ l3.
Proof.
  apply (suspend_resume "alice" toy_lines [toy_task; toy_legacy] toy_id toy_task None);
    [vm_compute; reflexivity..| |]; repeat constructor.
Defined.

Definition toy_updated : Edition :=
  mkEdition toy_id true ["# tasks"; activeMarker toy_id; "*/5 * * * * /usr/bin/report"; "5 4 * * * /usr/bin/backup"].
Lemma edit_refines_witness :
  ∃ records', parseRecords "alice" (splitContent (content_of (ed_lines toy_updated))) = Ok records' ∧
    task_of <$> records' =
      act_on_tasks "update" toy_id "*/5 * * * *" "/usr/bin/report" toy_id (task_of <$> [toy_task; toy_legacy]).
Proof.
  apply (edit_refines "alice" "update" toy_id "*/5 * * * *" "/usr/bin/report" None toy_lines [toy_task; toy_legacy] toy_updated).
  - discriminate.
  - vm_compute. reflexivity.
  - repeat constructor.
  - repeat constructor.
  - apply (bool_decide_eq_true_1 _). vm_compute. reflexivity.
  - intros _. split; vm_compute; reflexivity.
  - discriminate.
  - intros r. vm_compute. intros Hr. injection Hr as <-. split; reflexivity.
  - vm_compute. reflexivity.
Defined.

Definition toy_tree : Tree :=
  mkTree (λ _, NoDirectory) (λ _, None) (λ _, false) (λ _, false) (λ _, true) StatMissing (λ _, StatMissing).
Definition toy_decode (s : string) : option (list string * option ExecutionResult) :=
  Some (required_fields, Some (mkResult "0123456789abcdef0123456789abcdef" "finished" (Some 0) false false 12 "done" "")).

Definition handled : Host * Reply := Handle debian toy_decode toy_tree toy_answers toy_host "create" toy_create.
Lemma Handle_effects_witness :
  (∀ o, tables handled.1 !! o ≠ tables toy_host !! o → o = "alice" ∧ manageable toy_users o) ∧
  (units handled.1 = units toy_host ∨ ∃ arguments,
     started debian toy_answers toy_host "create" toy_create arguments ∧ units handled.1 = units toy_host ++ [arguments]).
Proof.
  apply (Handle_effects debian toy_decode toy_tree toy_answers toy_host "create" toy_create handled.1 handled.2).
  reflexivity.
Defined.

Lemma listing_agrees_witness :
  ∃ jobs, parseCrontab (λ _, true) (λ _ _, Ok []) "/var/spool/cron/crontabs/alice" "user" "alice" true
      (content_of toy_lines) = Ok jobs ∧ job_view <$> jobs = record_view <$> [toy_task; toy_legacy].
Proof.
  apply (listing_agrees (λ _, true) (λ _ _, Ok []) "/var/spool/cron/crontabs/alice" "alice" (content_of toy_lines)
    [toy_task; toy_legacy]); [discriminate|vm_compute; reflexivity..| |].
  - vm_compute. repeat constructor.
  - repeat constructor.
Defined.

Lemma runResult_spec_witness :
  executionID "0123456789abcdef0123456789abcdef" = true ∧
  ExecutionID (mkResult "0123456789abcdef0123456789abcdef" "finished" (Some 0) false false 12 "done" "") =
    "0123456789abcdef0123456789abcdef" ∧
  validResult (mkResult "0123456789abcdef0123456789abcdef" "finished" (Some 0) false false 12 "done" "") = true ∧
  (∃ s a, Stat true 4096 0 = Stat true s a) ∧
  ∃ size age, Stat true 200 (10^9) = Stat true size age ∧ size ≤ maximumResultBytes ∧
    (75 * 10^9 < age → Status (mkResult "0123456789abcdef0123456789abcdef" "finished" (Some 0) false false 12 "done" "") ≠ "running").
Proof.
  apply (runResult_spec toy_decode (Stat true 4096 0) (Stat true 200 (10^9)) (Some "{}")). vm_compute. reflexivity.
Defined.

Definition toy_backup : list string :=
  ["Sites"; "sites"; "/var/www"; "/var/backups/aegisadmin/sites"; "0 2 * * *"; "backup.example.net"; "backup"; "22";
   "/srv/backups/web"; "/etc/aegisadmin-system/backup-ssh/id_ed25519"; "2"; "false"].
Definition backup_made : res Reply data * Host := createBackupTask debian toy_answers toy_backup toy_host.
Definition backup_data : data :=
  [("id", VStr toy_id); ("name", VStr "Sites"); ("kind", VStr "sites"); ("result", VStr "success")].

Lemma createBackupTask_listed_witness :
  ∃ id task job, managedID id = true ∧ Backup.Validate task = None ∧ Backup.task_ID task = id ∧
    host_files backup_made.2 = <[cron_path debian id := cron_text debian (trim_space "Sites") (normalizeSchedule "0 2 * * *") id]>
                      (<[task_path debian id := task_json task +++ snl]> (host_files toy_host)) ∧
    (valid_utf8 (cron_text debian (trim_space "Sites") (normalizeSchedule "0 2 * * *") id) = true →
     parseCrontab (editable toy_users) (λ _ _, Ok []) "/etc/cron.d/x" "system" "" true
       (cron_text debian (trim_space "Sites") (normalizeSchedule "0 2 * * *") id) = Ok [job]) ∧
    job_User job = "root" ∧ job_Enabled job = true ∧ job_Managed job = false ∧
    job_Schedule job = normalizeSchedule "0 2 * * *" ∧
    job_Command job = BackupExecutable debian +++ " " +++ id ∧
    ∀ a', grants a' RemoveCron = true → grants a' RemoveTask = true →
      ∃ d', deleteBackupTask debian a' id backup_made.2 =
        (Ok d', mkHost (tables toy_host) (delete (task_path debian id) (delete (cron_path debian id) (host_files toy_host))) (units toy_host)).
Proof.
  apply (createBackupTask_listed toy_answers toy_backup toy_host backup_data backup_made.2 toy_random (λ _ _, Ok [])
    "/etc/cron.d/x"); vm_compute; reflexivity.
Defined.

(** ** What [validTaskInput] lets through *)

(** A schedule of five words that starts with a hash is accepted and written; the line is
    a comment to cron, and the crontab can no longer be read by the editor: every later
    command on that user's crontab answers [INVALID_CRON_TASK]. *)
Theorem comment_schedule_locks :
  ∃ d h', manage debian toy_answers "create" ["alice"; "# * * * *"; "/usr/bin/report"] toy_host = (Ok d, h') ∧
    ∀ args, arg args 0 = "alice" → validTaskInput (arg args 1) (arg args 2) = true →
      manage debian toy_answers "create" args h' = (Err invalid_task, h').
Proof.
  eexists _, _. split; [vm_compute; reflexivity|]. intros args Hu Hv. unfold manage. rewrite Hu.
  assert (editable (user_files toy_answers) "alice" = true) as -> by (vm_compute; reflexivity).
  cbn [task_arguments String.eqb Ascii.eqb Bool.eqb negb andb is_edit orb user_Lookup toy_answers grants].
  rewrite Hv. cbn [negb]. vm_compute. reflexivity.
Qed.
