(* ===== verification/Backtrack.v ===== *)
(** * Patterns with groups: [FindStringSubmatch]

    A matcher for the patterns whose groups the program reads.  Repetition is of a byte
    class, greedy or lazy; the first match in the order of the regexp package (leftmost,
    earlier alternatives and longer or shorter repetitions first) is the one returned.  A
    class that stands for any code point is taken byte by byte: the bytes after a
    repetition are ASCII in every pattern, so no code point is split.  [(?i)] is written
    with classes of both cases. *)

From S2P Require Import Prelude GoStrings StringFacts.
From Stdlib Require Import Ascii String.
#[local] Open Scope string_scope.
#[local] Open Scope list_scope.
#[local] Open Scope Z_scope.

Inductive pat :=
| PEps
| PCls (p : ascii → bool)
| PSeq (a b : pat)
| PAlt (a b : pat)
| PRep (greedy : bool) (lo : nat) (hi : option nat) (p : ascii → bool)
| PGroup (n : nat) (a : pat)
| PEnd.

Declare Scope pat_scope.
Delimit Scope pat_scope with pat.
Infix ">>" := PSeq (at level 62, right associativity) : pat_scope.
#[global] Open Scope pat_scope.

Definition re_space (c : ascii) : bool :=
  let b := byte c in (b =? 32) || (b =? 9) || (b =? 10) || (b =? 12) || (b =? 13).
Definition re_word (c : ascii) : bool := is_upper c || is_lower c || is_digit c || Ascii.eqb c "_".
Definition not_nl (c : ascii) : bool := negb (Ascii.eqb c nl).
Definition but (p : ascii → bool) (c : ascii) : bool := negb (p c).
Definition one_byte_of (chars : string) (c : ascii) : bool := contains_byte c chars.

Definition spaces : pat := PRep true 0 None re_space.         (** [\s*] *)
Definition spaces1 : pat := PRep true 1 None re_space.        (** [\s+] *)
Definition digits : pat := PRep true 1 None is_digit.         (** [\d+] *)
Definition some_bytes (p : ascii → bool) : pat := PRep true 1 None p.
Definition lazy_bytes : pat := PRep false 1 None not_nl.      (** [.+?] *)
Definition rest : pat := PRep true 0 None not_nl.             (** [.*] *)
Fixpoint word (s : string) : pat :=
  match s with
  | EmptyString => PEps
  | String c EmptyString => PCls (Ascii.eqb c)
  | String c s' => PCls (Ascii.eqb c) >> word s'
  end.
(** A letter in either case; U+017F folds to s and U+212A to k. *)
Definition letter_i (c : ascii) : pat :=
  let both := PCls (λ d, Ascii.eqb (ascii_lower c) (ascii_lower d)) in
  if Ascii.eqb (ascii_lower c) "s" then PAlt both (PCls (Ascii.eqb "197") >> PCls (Ascii.eqb "191"))
  else if Ascii.eqb (ascii_lower c) "k" then
    PAlt both (PCls (Ascii.eqb "226") >> PCls (Ascii.eqb "132") >> PCls (Ascii.eqb "170"))
  else both.
(** A word in either case. *)
Fixpoint word_i (s : string) : pat :=
  match s with
  | EmptyString => PEps
  | String c s' => letter_i c >> word_i s'
  end.
Definition maybe (a : pat) : pat := PAlt a PEps.

Fixpoint repeat_bytes {A} (greedy : bool) (p : ascii → bool) (lo : nat) (hi : option nat)
    (s : string) (k : string → option A) : option A :=
  let stop := match lo with O => k s | _ => None end in
  let more := match hi, s with
    | Some O, _ | _, EmptyString => None
    | _, String c s' =>
        if p c then repeat_bytes greedy p (pred lo) (option_map pred hi) s' k else None
    end in
  if greedy then match more with Some x => Some x | None => stop end
  else match stop with Some x => Some x | None => more end.

Definition captures := list (nat * string).

Fixpoint bt {A} (r : pat) (s : string) (groups : captures) (k : string → captures → option A) : option A :=
  match r with
  | PEps => k s groups
  | PCls p => match s with String c s' => if p c then k s' groups else None | EmptyString => None end
  | PSeq a b => bt a s groups (λ s' g, bt b s' g k)
  | PAlt a b => match bt a s groups k with Some x => Some x | None => bt b s groups k end
  | PRep greedy lo hi p => repeat_bytes greedy p lo hi s (λ s', k s' groups)
  | PGroup n a =>
      bt a s groups (λ s' g, k s' ((n, stake (String.length s - String.length s') s) :: g))
  | PEnd => match s with EmptyString => k s groups | _ => None end
  end.

(** The groups of the match that starts at the head of the text. *)
Definition match_here (r : pat) (s : string) : option captures := bt r s [] (λ _ g, Some g).
(** The leftmost match. *)
Fixpoint find_match (r : pat) (s : string) : option captures :=
  match match_here r s with
  | Some g => Some g
  | None => match s with EmptyString => None | String _ s' => find_match r s' end
  end.
(** What the leftmost match leaves on its left and right. *)
Fixpoint find_around (r : pat) (s : string) : option (string * captures * string) :=
  match bt r s [] (λ s' g, Some (g, s')) with
  | Some (g, after) => Some ("", g, after)
  | None => match s with
            | EmptyString => None
            | String c s' => match find_around r s' with
                             | Some (before, g, after) => Some (String c before, g, after)
                             | None => None
                             end
            end
  end.
(** All the matches, from left to right, of a pattern that takes at least one byte. *)
Fixpoint matches_from (fuel : nat) (r : pat) (s : string) : list captures :=
  match fuel with
  | O => []
  | S fuel => match find_around r s with Some (_, g, rest_) => g :: matches_from fuel r rest_ | None => [] end
  end.
Definition find_all (r : pat) (s : string) : list captures := matches_from (String.length s) r s.
(** A group, empty when it took no part in the match. *)
Definition group (g : captures) (n : nat) : string :=
  match find (λ x, Nat.eqb x.1 n) g with Some (_, s) => s | None => "" end.

Example lazy_groups :
  match_here (PGroup 1 lazy_bytes >> PRep true 2 None re_space >> PGroup 2 lazy_bytes >> spaces >> PEnd) "a b   c d "
    = Some [(2%nat, "c d"); (1%nat, "a b")].
Proof. reflexivity. Qed.

(** A match found at the head of a text is found in it. *)
Lemma find_match_here r s g : match_here r s = Some g → find_match r s = Some g.
Proof. destruct s; simpl; by intros ->. Qed.
