(* ===== verification/Command.v ===== *)
(** * Programs run by the domains

    The domains of the local API act by running programs.  [cmd] threads the machine
    they run on and the list of the programs run so far, and stops at the first refused
    step with its reply, as the handlers return it.  What a program does is a parameter:
    [exec] gives, for each state of the machine, the next one and what was printed. *)

From S2P Require Import Prelude GoStrings.
From S2P Require Api.
From Stdlib Require Import String.
#[local] Open Scope string_scope.
#[local] Open Scope list_scope.
#[local] Open Scope Z_scope.

Import Api(Reply, failure, success, Value).

(** Standard output and error as the runner of the domain keeps them, and the exit status,
    -1 when the program did not run to its end. *)
Record outcome := mkOutcome { stdout : string; stderr : string; status : Z }.
Definition succeeded (o : outcome) : bool := status o =? 0.
#[global] Instance outcome_eq_dec : EqDecision outcome.
Proof. solve_decision. Defined.

Class Programs (W : Type) := {
  exec : W → string → list string → W * outcome;
  executable : string → bool;          (** [os.Stat]: a regular file with a permission to run *)
}.

(** A program that was run, with its arguments, and what came of it. *)
Definition call : Type := string * list string * outcome.
Record Machine (W : Type) := mkMachine { inside : W; ran : list call }.
Arguments mkMachine {W} inside ran.
Arguments inside {W} m.
Arguments ran {W} m.

Definition cmd (W A : Type) : Type := Machine W → res Reply A * Machine W.

Section commands.
Context {W : Type} `{!Programs W}.

Definition ret {A} (x : A) : cmd W A := λ m, (Ok x, m).
Definition stop {A} (r : Reply) : cmd W A := λ m, (Err r, m).
Definition bind {A B} (c : cmd W A) (k : A → cmd W B) : cmd W B :=
  λ m, match c m with (Ok x, m) => k x m | (Err r, m) => (Err r, m) end.
Definition lift {A} (r : res Reply A) : cmd W A := λ m, (r, m).

Definition run (name : string) (arguments : list string) : cmd W outcome :=
  λ m, let (w, o) := exec (inside m) name arguments in
       (Ok o, mkMachine w (ran m ++ [(name, arguments, o)])).

(** What is read of the machine, and what changes it, without running a program. *)
Definition look {A} (f : W → A) : cmd W A := λ m, (Ok (f (inside m)), m).
Definition touch {A} (f : W → A * W) : cmd W A :=
  λ m, let (x, w) := f (inside m) in (Ok x, mkMachine w (ran m)).

(** The reply of a handler whose commands stop with their refusal. *)
Definition serve (c : cmd W (list (string * Value))) : Machine W → Reply * Machine W :=
  λ m, match c m with (Ok d, m) => (success d, m) | (Err r, m) => (r, m) end.

Lemma serve_machine c m out m' : c m = (out, m') → (serve c m).2 = m'.
Proof. unfold serve. intros ->. by destruct out. Qed.

(** The programs a command ran. *)
Definition ran_since (m m' : Machine W) (l : list call) : Prop := ran m' = ran m ++ l.

Lemma bind_inv {A B} (c : cmd W A) (k : A → cmd W B) m out m' :
  bind c k m = (out, m') →
  (∃ r, c m = (Err r, m') ∧ out = Err r) ∨ (∃ x m1, c m = (Ok x, m1) ∧ k x m1 = (out, m')).
Proof.
  unfold bind. destruct (c m) as [[x|r] m1]; [|intros [= <- <-]; left; eauto]. intros Hk. right. eauto.
Qed.

Lemma bind_Ok {A B} (c : cmd W A) (k : A → cmd W B) m y m' :
  bind c k m = (Ok y, m') → ∃ x m1, c m = (Ok x, m1) ∧ k x m1 = (Ok y, m').
Proof. intros [(? & ? & ?)|?]%bind_inv; [done|auto]. Qed.

Lemma run_inv name arguments m out m' :
  run name arguments m = (out, m') →
  ∃ o, out = Ok o ∧ m' = mkMachine (inside m') (ran m ++ [(name, arguments, o)]) ∧
    exec (inside m) name arguments = (inside m', o).
Proof.
  unfold run. destruct (exec (inside m) name arguments) as [w o] eqn:E. intros [= <- <-]. exists o. done.
Qed.

(** How a command proceeds, by its first step. *)
Lemma bind_look {A B} (f : W → A) (k : A → cmd W B) m : bind (look f) k m = k (f (inside m)) m.
Proof. done. Qed.
Lemma bind_ret {A B} (x : A) (k : A → cmd W B) m : bind (ret x) k m = k x m.
Proof. done. Qed.
Lemma bind_stop {A B} r (k : A → cmd W B) m : bind (stop r) k m = (Err r, m).
Proof. done. Qed.
Lemma bind_touch {A B} (f : W → A * W) (k : A → cmd W B) m :
  bind (touch f) k m = k (f (inside m)).1 (mkMachine (f (inside m)).2 (ran m)).
Proof. unfold bind, touch. by destruct (f (inside m)). Qed.
Lemma bind_run {B} name arguments (k : outcome → cmd W B) m : ∃ o w,
  exec (inside m) name arguments = (w, o) ∧
  bind (run name arguments) k m = k o (mkMachine w (ran m ++ [(name, arguments, o)])).
Proof. unfold bind, run. destruct (exec (inside m) name arguments) as [w o]. by exists o, w. Qed.
Lemma bind_Ok_eq {A B} (c : cmd W A) (k : A → cmd W B) m x m1 : c m = (Ok x, m1) → bind c k m = k x m1.
Proof. unfold bind. by intros ->. Qed.
Lemma bind_assoc {A B C} (c : cmd W A) (k : A → cmd W B) (h : B → cmd W C) m :
  bind (bind c k) h m = bind c (λ x, bind (k x) h) m.
Proof. unfold bind. by destruct (c m) as [[x|r] m1]. Qed.

(** The call is one of a class. *)
Definition calls (P : string → list string → Prop) (x : call) : Prop := P x.1.1 x.1.2.
(** A command that only runs programs of a class, whatever it answers. *)
Definition only {A} (P : string → list string → Prop) (c : cmd W A) : Prop :=
  ∀ m out m', c m = (out, m') → ∃ l, ran_since m m' l ∧ Forall (calls P) l.

Lemma only_ret {A} P (x : A) : only P (ret x).
Proof. intros m out m' [= _ <-]. exists []. split; [|done]. unfold ran_since. by rewrite app_nil_r. Qed.
Lemma only_stop {A} P r : only P (stop (A := A) r).
Proof. intros m out m' [= _ <-]. exists []. split; [|done]. unfold ran_since. by rewrite app_nil_r. Qed.
Lemma only_lift {A} P (r : res Reply A) : only P (lift r).
Proof. intros m out m' [= _ <-]. exists []. split; [|done]. unfold ran_since. by rewrite app_nil_r. Qed.
Lemma only_run (P : string → list string → Prop) name arguments : P name arguments → only P (run name arguments).
Proof.
  intros HP m out m' (o & _ & Hm & _)%run_inv. exists [(name, arguments, o)]. rewrite Hm.
  split; [done|]. by repeat constructor.
Qed.
Lemma only_look {A} P (f : W → A) : only P (look f).
Proof. intros m out m' [= _ <-]. exists []. split; [|done]. unfold ran_since. by rewrite app_nil_r. Qed.
Lemma only_touch {A} P (f : W → A * W) : only P (touch f).
Proof.
  intros m out m'. unfold touch. destruct (f (inside m)). intros [= _ <-]. exists []. split; [|done].
  unfold ran_since. by rewrite app_nil_r.
Qed.
Lemma only_bind {A B} P (c : cmd W A) (k : A → cmd W B) : only P c → (∀ x, only P (k x)) → only P (bind c k).
Proof.
  intros Hc Hk m out m' [(r & Hr & _)|(x & m1 & H1 & H2)]%bind_inv; [by eapply Hc|].
  apply Hc in H1 as (l1 & E1 & F1). apply Hk in H2 as (l2 & E2 & F2).
  exists (l1 ++ l2). unfold ran_since in *. rewrite E2, E1, app_assoc. split; [done|]. by apply Forall_app.
Qed.
Lemma only_weaken {A} (P Q : string → list string → Prop) (c : cmd W A) :
  (∀ n a, P n a → Q n a) → only P c → only Q c.
Proof.
  intros Hi Hc m out m' (l & Hl & Hf)%Hc. exists l. split; [done|]. eapply Forall_impl; [done|].
  intros [[n a] o]. apply Hi.
Qed.

(** Each call of the class [P] comes after a call that satisfies [Q]. *)
Definition preceded (P : string → list string → Prop) (Q : call → Prop) (l : list call) : Prop :=
  ∀ l1 x l2, l = l1 ++ x :: l2 → calls P x → ∃ y, y ∈ l1 ∧ Q y.
Definition guarded {A} P Q (c : cmd W A) : Prop :=
  ∀ m out m', c m = (out, m') → ∃ l, ran_since m m' l ∧ preceded P Q l.
(** A command that runs no call of the class [P], and succeeds only after a call that
    satisfies [Q]. *)
Definition establishes {A} (P : string → list string → Prop) (Q : call → Prop) (c : cmd W A) : Prop :=
  ∀ m out m', c m = (out, m') →
  ∃ l, ran_since m m' l ∧ Forall (calls (λ n a, ¬ P n a)) l ∧ (is_ok out = true → ∃ y, y ∈ l ∧ Q y).

Lemma preceded_none P Q l : Forall (calls (λ n a, ¬ P n a)) l → preceded P Q l.
Proof.
  intros Hf l1 x l2 -> Hx. exfalso. apply Forall_app in Hf as [_ Hf]. apply Forall_cons in Hf as [Hf _]. by apply Hf.
Qed.

Lemma guarded_only {A} P Q (c : cmd W A) : only (λ n a, ¬ P n a) c → guarded P Q c.
Proof. intros Hc m out m' (l & Hl & Hf)%Hc. exists l. split; [done|]. by apply preceded_none. Qed.

Lemma preceded_app P Q l1 l2 :
  Forall (calls (λ n a, ¬ P n a)) l1 → preceded P Q l2 ∨ (∃ y, y ∈ l1 ∧ Q y) → preceded P Q (l1 ++ l2).
Proof.
  intros Hf Hp k1 x k2 Hk Hx. destruct (decide (List.length k1 < List.length l1)%nat) as [Hlt|Hge].
  - exfalso. assert (x ∈ l1) as Hin.
    { apply list_elem_of_lookup. exists (List.length k1). rewrite <- (lookup_app_l l1 l2) by done. rewrite Hk.
      apply list_lookup_app_cons. }
    rewrite Forall_forall in Hf. by apply (Hf x).
  - assert (k1 = l1 ++ drop (List.length l1) k1) as Hk1.
    { rewrite <- (take_drop (List.length l1) k1) at 1. f_equal. apply (f_equal (take (List.length l1))) in Hk.
      rewrite take_app_length, take_app_le in Hk by lia. by symmetry. }
    destruct Hp as [Hp|(y & Hy & Hq)].
    + rewrite Hk1 in Hk. rewrite <- app_assoc in Hk. apply app_inv_head in Hk.
      destruct (Hp _ _ _ Hk Hx) as (y & Hy & Hq). exists y. split; [|done]. rewrite Hk1. set_solver.
    + exists y. split; [|done]. rewrite Hk1. set_solver.
Qed.

Lemma guarded_bind {A B} P Q (c : cmd W A) (k : A → cmd W B) :
  only (λ n a, ¬ P n a) c → (∀ x, guarded P Q (k x)) → guarded P Q (bind c k).
Proof.
  intros Hc Hk m out m' [(r & Hr & _)|(x & m1 & Hm & Hx)]%bind_inv.
  - apply Hc in Hr as (l & Hl & Hf). exists l. split; [done|]. by apply preceded_none.
  - apply Hc in Hm as (l1 & E1 & F1). apply Hk in Hx as (l2 & E2 & F2). exists (l1 ++ l2). split.
    + unfold ran_since in *. by rewrite E2, E1, app_assoc.
    + apply preceded_app; auto.
Qed.

Lemma guarded_after {A B} P Q (c : cmd W A) (k : A → cmd W B) :
  establishes P Q c → (∀ x, only (λ _ _, True) (k x)) → guarded P Q (bind c k).
Proof.
  intros Hc Hk m out m' [(r & Hr & _)|(x & m1 & Hm & Hx)]%bind_inv.
  - apply Hc in Hr as (l & Hl & Hf & _). exists l. split; [done|]. by apply preceded_none.
  - apply Hc in Hm as (l1 & E1 & F1 & Hq). apply Hk in Hx as (l2 & E2 & F2). exists (l1 ++ l2). split.
    + unfold ran_since in *. by rewrite E2, E1, app_assoc.
    + apply preceded_app; [done|]. right. by apply Hq.
Qed.

(** A program whose success is required. *)
Lemma establishes_required (P : string → list string → Prop) (Q : call → Prop) name arguments (r : Reply) :
  ¬ P name arguments → (∀ o, succeeded o = true → Q (name, arguments, o)) →
  establishes P Q (bind (run name arguments) (λ o, if succeeded o then ret () else stop r)).
Proof.
  intros Hp Hq m out m' [(e & He & _)|(o & m1 & Hm & Hx)]%bind_inv; [by apply run_inv in He as (? & ? & _)|].
  apply run_inv in Hm as (o' & [= <-] & Hm1 & _). exists [(name, arguments, o)].
  assert (m1 = m') as <- by (destruct (succeeded o); unfold ret, stop in Hx; congruence).
  split; [unfold ran_since; by rewrite Hm1|]. split; [by repeat constructor|]. intros Hok.
  exists (name, arguments, o). split; [by left|]. apply Hq. destruct (succeeded o); [done|].
  injection Hx as <-. done.
Qed.

(** A command stops with refusals only: a reply of the error kind, never a success. *)
Definition refusal (r : Reply) : Prop :=
  Api.reply_ok r ∧ Api.resp_success (Api.Resp r) = false.
Definition refuses {A} (c : cmd W A) : Prop := ∀ m r m', c m = (Err r, m') → refusal r.

Lemma refusal_failure code name message : code ≠ 0 → refusal (failure code name message).
Proof. intros Hc. split; [|done]. split; [done|]. right. done. Qed.
Lemma refuses_ret {A} (x : A) : refuses (ret x).
Proof. by intros m r m' [=]. Qed.
Lemma refuses_stop {A} code name message : code ≠ 0 → refuses (stop (A := A) (failure code name message)).
Proof. intros Hc m r m' Hr. injection Hr as <- <-. by apply refusal_failure. Qed.
Lemma refuses_lift {A} (x : res Reply A) : (∀ r, x = Err r → refusal r) → refuses (lift x).
Proof. intros Hx m r m' Hr. injection Hr as Hr <-. by apply Hx. Qed.
Lemma refuses_run name arguments : refuses (run name arguments).
Proof. intros m r m' (o & Ho & _)%run_inv. done. Qed.
Lemma refuses_look {A} (f : W → A) : refuses (look f).
Proof. by intros m r m' [=]. Qed.
Lemma refuses_touch {A} (f : W → A * W) : refuses (touch f).
Proof. intros m r m'. unfold touch. by destruct (f (inside m)). Qed.
Lemma refuses_bind {A B} (c : cmd W A) (k : A → cmd W B) : refuses c → (∀ x, refuses (k x)) → refuses (bind c k).
Proof.
  intros Hc Hk m r m' [(e & He & [= <-])|(x & m1 & _ & Hx)]%bind_inv; [by eapply Hc|by eapply Hk].
Qed.
Lemma refuses_stop_of {A} r : refusal r → refuses (stop (A := A) r).
Proof. intros Hr m e m' He. injection He as <- <-. done. Qed.
(** A handler that refuses well answers well. *)
Lemma serve_ok (c : cmd W (list (string * Value))) m : refuses c → Api.reply_ok (serve c m).1.
Proof.
  intros Hc. unfold serve. destruct (c m) as [[d|r] m'] eqn:Hm; [apply Api.success_ok|by apply Hc in Hm as [? _]].
Qed.
Lemma refuses_if {A} (b : bool) (c d : cmd W A) : refuses c → refuses d → refuses (if b then c else d).
Proof. by destruct b. Qed.

(** ** Undoing

    A step whose refusal is followed by the command that undoes what was done; a step
    followed by a clean-up in any case; a step whose outcome is ignored, or kept as a
    value; a question to the machine that may be refused. *)
Definition ignore {A} (c : cmd W A) : cmd W () := λ m, (Ok (), (c m).2).
Definition attempt {A} (c : cmd W A) : cmd W (res Reply A) := λ m, let (out, m) := c m in (Ok out, m).
Definition undoing {A} (c : cmd W A) (undo : cmd W ()) : cmd W A :=
  λ m, match c m with (Ok x, m) => (Ok x, m) | (Err r, m) => (Err r, (undo m).2) end.
Definition finally {A} (c : cmd W A) (d : cmd W ()) : cmd W A := λ m, let (out, m) := c m in (out, (d m).2).

Definition consult {A} (f : W → res Reply A) : cmd W A := λ m, (f (inside m), m).

Lemma only_consult {A} P (f : W → res Reply A) : only P (consult f).
Proof. intros m out m' [= _ <-]. exists []. split; [|done]. unfold ran_since. by rewrite app_nil_r. Qed.
Lemma refuses_consult {A} (f : W → res Reply A) : (∀ w r, f w = Err r → refusal r) → refuses (consult f).
Proof. intros Hf m r m' Hr. injection Hr as Hr <-. by eapply Hf. Qed.
Lemma only_attempt {A} P (c : cmd W A) : only P c → only P (attempt c).
Proof. intros Hc m out m'. unfold attempt. destruct (c m) as [o m1] eqn:E. intros [= _ <-]. by apply Hc in E. Qed.
Lemma refuses_attempt {A} (c : cmd W A) : refuses (attempt c).
Proof. intros m r m'. unfold attempt. destruct (c m). by intros [=]. Qed.
Lemma only_ignore {A} P (c : cmd W A) : only P c → only P (ignore c).
Proof. intros Hc m out m' [= _ <-]. destruct (c m) as [o m1] eqn:E. by apply Hc in E. Qed.
Lemma only_followed {A} P (c : cmd W A) (d : cmd W ()) m out m1 : only P c → only P d → c m = (out, m1) →
  ∃ l, ran_since m (d m1).2 l ∧ Forall (calls P) l.
Proof.
  intros Hc Hd (l1 & E1 & F1)%Hc. destruct (d m1) as [o m2] eqn:E. apply Hd in E as (l2 & E2 & F2).
  exists (l1 ++ l2). unfold ran_since in *. cbn [snd]. rewrite E2, E1, app_assoc. split; [done|]. by apply Forall_app.
Qed.
Lemma only_undoing {A} P (c : cmd W A) undo : only P c → only P undo → only P (undoing c undo).
Proof.
  intros Hc Hu m out m'. unfold undoing. destruct (c m) as [[x|r] m1] eqn:E; intros [= <- <-].
  - by apply Hc in E.
  - exact (only_followed P c undo m _ _ Hc Hu E).
Qed.
Lemma only_finally {A} P (c : cmd W A) d : only P c → only P d → only P (finally c d).
Proof.
  intros Hc Hd m out m'. unfold finally. destruct (c m) as [o m1] eqn:E. intros [= _ <-].
  exact (only_followed P c d m _ _ Hc Hd E).
Qed.
Lemma refuses_ignore {A} (c : cmd W A) : refuses (ignore c).
Proof. by intros m r m' [=]. Qed.
Lemma refuses_undoing {A} (c : cmd W A) undo : refuses c → refuses (undoing c undo).
Proof.
  intros Hc m r m'. unfold undoing. destruct (c m) as [[x|e] m1] eqn:E; intros H; [done|].
  injection H as <- _. by apply Hc in E.
Qed.
Lemma refuses_finally {A} (c : cmd W A) d : refuses c → refuses (finally c d).
Proof.
  intros Hc m r m'. unfold finally. destruct (c m) as [[x|e] m1] eqn:E; intros H; [done|].
  injection H as <- _. by apply Hc in E.
Qed.
End commands.

Notation "'do!' x ':=' c 'in' k" := (bind c (λ x, k))
  (at level 10, x binder, c at level 200, k at level 200) : go_scope.

(** Run the program at the head of the command. *)
Tactic Notation "run_program" ident(o) ident(w) :=
  match goal with
  | |- context [bind (run ?n ?a) ?k ?m] => destruct (bind_run n a k m) as (o & w & _ & ->)
  end.

Create HintDb commands discriminated.
#[export] Hint Resolve only_ret only_stop only_lift only_run only_look only_touch only_bind : commands.
#[export] Hint Resolve refuses_ret refuses_stop refuses_run refuses_look refuses_touch refuses_bind refuses_if refusal_failure : commands.
#[export] Hint Extern 1 (_ ≠ 0) => discriminate : commands.

(** Walk through a command: the programs it may run ([only]) or its refusals ([refuses]).
    A definition is unfolded unless a hint deals with it. *)
Ltac head_of c := lazymatch c with ?f _ => head_of f | _ => c end.
Ltac command_step :=
  match goal with
  | |- only _ (bind _ _) => apply only_bind; [|intros ?]
  | |- only _ (ret _) => apply only_ret
  | |- only _ (stop _) => apply only_stop
  | |- only _ (lift _) => apply only_lift
  | |- only _ (run _ _) => apply only_run
  | |- only _ (look _) => apply only_look
  | |- only _ (touch _) => apply only_touch
  | |- only _ (ignore _) => apply only_ignore
  | |- only _ (attempt _) => apply only_attempt
  | |- only _ (consult _) => apply only_consult
  | |- only _ (undoing _ _) => apply only_undoing
  | |- only _ (finally _ _) => apply only_finally
  | |- refuses (bind _ _) => apply refuses_bind; [|intros ?]
  | |- refuses (ret _) => apply refuses_ret
  | |- refuses (stop (failure _ _ _)) => apply refuses_stop; discriminate
  | |- refuses (stop _) => apply refuses_stop_of
  | |- refuses (lift _) => apply refuses_lift; intros ? ?
  | |- refuses (run _ _) => apply refuses_run
  | |- refuses (look _) => apply refuses_look
  | |- refuses (touch _) => apply refuses_touch
  | |- refuses (ignore _) => apply refuses_ignore
  | |- refuses (attempt _) => apply refuses_attempt
  | |- refuses (consult _) => apply refuses_consult; intros ? ? ?
  | |- refuses (undoing _ _) => apply refuses_undoing
  | |- refuses (finally _ _) => apply refuses_finally
  | |- only _ (match ?x with _ => _ end) => destruct x eqn:?
  | |- refuses (match ?x with _ => _ end) => destruct x eqn:?
  | |- only _ ?c => let h := head_of c in unfold h
  | |- refuses ?c => let h := head_of c in unfold h
  end.
Ltac walk := repeat (first [progress eauto 3 with commands nocore | command_step]; try done).
