(* ===== verification/Triple.v ===== *)
(** * A program logic for commands

    [triple P c Q R]: run from a machine that satisfies [P], the command [c] leaves one
    that satisfies [Q x] when it answers [x], and [R] when it is refused.  The rules
    follow the shape of commands; [step] applies the one of the head of the command. *)

From S2P Require Import Prelude GoStrings Command.
From S2P Require Api.
From Stdlib Require Import String.

Import Api(Reply).

Section triples.
Context {W : Type} `{!Programs W}.
Implicit Types (P R : W → Prop) (w : W).

Definition triple {A} P (c : cmd W A) (Q : A → W → Prop) R : Prop :=
  ∀ m, P (inside m) → match c m with (Ok x, m') => Q x (inside m') | (Err _, m') => R (inside m') end.

Lemma triple_weaken {A} P P' (c : cmd W A) (Q Q' : A → W → Prop) R R' :
  triple P c Q R → (∀ w, P' w → P w) → (∀ x w, Q x w → Q' x w) → (∀ w, R w → R' w) → triple P' c Q' R'.
Proof. intros Hc HP HQ HR m Hm. specialize (Hc m (HP _ Hm)). destruct (c m) as [[x|r] m']; auto. Qed.
Lemma triple_pre {A} P P' (c : cmd W A) (Q : A → W → Prop) R :
  triple P c Q R → (∀ w, P' w → P w) → triple P' c Q R.
Proof. intros Hc HP. by eapply triple_weaken. Qed.
Lemma triple_post {A} P (c : cmd W A) (Q Q' : A → W → Prop) R :
  triple P c Q R → (∀ x w, Q x w → Q' x w) → triple P c Q' R.
Proof. intros Hc HQ. by eapply triple_weaken. Qed.

Lemma triple_ret {A} P (x : A) (Q : A → W → Prop) R : (∀ w, P w → Q x w) → triple P (ret x) Q R.
Proof. intros H m Hm. exact (H _ Hm). Qed.
Lemma triple_stop {A} P r (Q : A → W → Prop) R : (∀ w, P w → R w) → triple P (stop r) Q R.
Proof. intros H m Hm. exact (H _ Hm). Qed.
Lemma triple_lift {A} P (r : res Reply A) (Q : A → W → Prop) R :
  (∀ x w, r = Ok x → P w → Q x w) → (∀ w, P w → R w) → triple P (lift r) Q R.
Proof. intros HQ HR m Hm. unfold lift. destruct r; auto. Qed.
Lemma triple_consult {A} P (f : W → res Reply A) (Q : A → W → Prop) R :
  (∀ x w, f w = Ok x → P w → Q x w) → (∀ w, P w → R w) → triple P (consult f) Q R.
Proof. intros HQ HR m Hm. unfold consult. destruct (f (inside m)) eqn:E; auto. Qed.
Lemma triple_look {A} P (f : W → A) (Q : A → W → Prop) R : (∀ w, P w → Q (f w) w) → triple P (look f) Q R.
Proof. intros H m Hm. exact (H _ Hm). Qed.
Lemma triple_touch {A} P (f : W → A * W) (Q : A → W → Prop) R :
  (∀ w, P w → Q (f w).1 (f w).2) → triple P (touch f) Q R.
Proof. intros H m Hm. unfold touch. specialize (H _ Hm). by destruct (f (inside m)). Qed.
Lemma triple_run P name arguments (Q : outcome → W → Prop) R :
  (∀ w, P w → Q (exec w name arguments).2 (exec w name arguments).1) → triple P (run name arguments) Q R.
Proof. intros H m Hm. unfold run. specialize (H _ Hm). by destruct (exec (inside m) name arguments). Qed.
Lemma triple_bind {A B} P (c : cmd W A) (k : A → cmd W B) (Q : A → W → Prop) (Q' : B → W → Prop) R :
  triple P c Q R → (∀ x, triple (Q x) (k x) Q' R) → triple P (bind c k) Q' R.
Proof.
  intros Hc Hk m Hm. unfold bind. specialize (Hc m Hm). destruct (c m) as [[x|r] m1]; [|done]. exact (Hk x m1 Hc).
Qed.
Lemma triple_undoing {A} P (c : cmd W A) undo (Q : A → W → Prop) R R' :
  triple P c Q R' → triple R' undo (λ _, R) R → triple P (undoing c undo) Q R.
Proof.
  intros Hc Hu m Hm. unfold undoing. specialize (Hc m Hm). destruct (c m) as [[x|r] m1]; [done|].
  specialize (Hu m1 Hc). by destruct (undo m1) as [[y|e] m2].
Qed.
Lemma triple_ignore {A} P (c : cmd W A) (Q : W → Prop) R : triple P c (λ _, Q) Q → triple P (ignore c) (λ _, Q) R.
Proof. intros Hc m Hm. unfold ignore. specialize (Hc m Hm). by destruct (c m) as [[x|r] m1]. Qed.
Lemma triple_attempt {A} P (c : cmd W A) (Q : A → W → Prop) R R' :
  triple P c Q R' → triple P (attempt c) (λ out w, match out with Ok x => Q x w | Err _ => R' w end) R.
Proof. intros Hc m Hm. unfold attempt. specialize (Hc m Hm). by destruct (c m) as [[x|r] m1]. Qed.
Lemma triple_finally {A} P (c : cmd W A) d (Q Q' : A → W → Prop) R R' :
  triple P c Q R → (∀ x, triple (Q x) d (λ _, Q' x) (Q' x)) → triple R d (λ _, R') R' → triple P (finally c d) Q' R'.
Proof.
  intros Hc Hd Hr m Hm. unfold finally. specialize (Hc m Hm). destruct (c m) as [[x|r] m1].
  - specialize (Hd x m1 Hc). by destruct (d m1) as [[y|e] m2].
  - specialize (Hr m1 Hc). by destruct (d m1) as [[y|e] m2].
Qed.

(** A command that leaves an assertion true, whatever it answers. *)
Definition keeps {A} P (c : cmd W A) : Prop := triple P c (λ _, P) P.
Lemma keeps_ret {A} P (x : A) : keeps P (ret x).
Proof. by apply triple_ret. Qed.
Lemma keeps_stop {A} P r : keeps P (stop (A := A) r).
Proof. by apply triple_stop. Qed.
Lemma keeps_lift {A} P (r : res Reply A) : keeps P (lift r).
Proof. by apply triple_lift. Qed.
Lemma keeps_consult {A} P (f : W → res Reply A) : keeps P (consult f).
Proof. by apply triple_consult. Qed.
Lemma keeps_look {A} P (f : W → A) : keeps P (look f).
Proof. by apply triple_look. Qed.
Lemma keeps_bind {A B} P (c : cmd W A) (k : A → cmd W B) : keeps P c → (∀ x, keeps P (k x)) → keeps P (bind c k).
Proof. intros Hc Hk. by eapply triple_bind. Qed.
Lemma keeps_ignore {A} P (c : cmd W A) : keeps P c → keeps P (ignore c).
Proof. apply triple_ignore. Qed.
Lemma keeps_attempt {A} P (c : cmd W A) : keeps P c → keeps P (attempt c).
Proof. intros Hc. eapply triple_post; [by eapply triple_attempt|]. by intros []. Qed.
Lemma keeps_undoing {A} P (c : cmd W A) undo : keeps P c → keeps P undo → keeps P (undoing c undo).
Proof. apply triple_undoing. Qed.
Lemma keeps_finally {A} P (c : cmd W A) d : keeps P c → keeps P d → keeps P (finally c d).
Proof. intros Hc Hd. by eapply triple_finally. Qed.
(** What is read of a machine whose assertion is known. *)
Lemma triple_consult_bind {A B} P (f : W → res Reply A) (k : A → cmd W B) (Q : B → W → Prop) R :
  (∀ x, triple (λ w, P w ∧ f w = Ok x) (k x) Q R) → (∀ w, P w → R w) → triple P (bind (consult f) k) Q R.
Proof. intros Hk HR. eapply triple_bind; [|exact Hk]. by apply triple_consult. Qed.
Lemma triple_lift_bind {A B} P (r : res Reply A) (k : A → cmd W B) (Q : B → W → Prop) R :
  (∀ x, r = Ok x → triple P (k x) Q R) → (∀ w, P w → R w) → triple P (bind (lift r) k) Q R.
Proof.
  intros Hk HR m Hm. unfold bind, lift. destruct r as [x|e]; [by apply Hk|by apply HR].
Qed.
Lemma triple_look_bind {A B} P (f : W → A) (k : A → cmd W B) (Q : B → W → Prop) R :
  (∀ x, triple (λ w, P w ∧ f w = x) (k x) Q R) → triple P (bind (look f) k) Q R.
Proof. intros Hk. eapply triple_bind; [|exact Hk]. by apply triple_look. Qed.
Lemma triple_keeps_bind {A B} P (c : cmd W A) (k : A → cmd W B) (Q : B → W → Prop) R :
  keeps P c → (∀ w, P w → R w) → (∀ x, triple P (k x) Q R) → triple P (bind c k) Q R.
Proof. intros Hc HR Hk. eapply triple_bind; [|exact Hk]. by eapply triple_weaken. Qed.
Lemma triple_touch_bind {A B} P (f : W → A * W) (k : A → cmd W B) (M : A → W → Prop) (Q : B → W → Prop) R :
  (∀ w, P w → M (f w).1 (f w).2) → (∀ x, triple (M x) (k x) Q R) → triple P (bind (touch f) k) Q R.
Proof. intros Hf Hk. eapply triple_bind; [|exact Hk]. by apply triple_touch. Qed.
Lemma triple_keeps {A} P (c : cmd W A) R : keeps P c → (∀ w, P w → R w) → triple P c (λ _, P) R.
Proof. intros Hc HR. by eapply triple_weaken. Qed.
(** A fact that does not depend on the machine. *)
Lemma triple_given {A} (φ : Prop) P (c : cmd W A) (Q : A → W → Prop) R :
  (φ → triple P c Q R) → triple (λ w, P w ∧ φ) c Q R.
Proof. intros Hc m [Hm Hφ]. by apply Hc. Qed.
(** From one machine. *)
Lemma triple_consult_at {A B} w0 (f : W → res Reply A) (k : A → cmd W B) (Q : B → W → Prop) R :
  (∀ x, f w0 = Ok x → triple (λ w, w = w0) (k x) Q R) → R w0 → triple (λ w, w = w0) (bind (consult f) k) Q R.
Proof.
  intros Hk HR m Hm. unfold bind, consult. rewrite Hm. destruct (f w0) as [x|r]; [by apply Hk|]. by rewrite Hm.
Qed.
Lemma triple_look_at {A B} w0 (f : W → A) (k : A → cmd W B) (Q : B → W → Prop) R :
  triple (λ w, w = w0) (k (f w0)) Q R → triple (λ w, w = w0) (bind (look f) k) Q R.
Proof. intros Hk m Hm. unfold bind, look. rewrite Hm. exact (Hk m Hm). Qed.
End triples.

(** Walk through a command that keeps an assertion. *)
Ltac keeps_step :=
  match goal with
  | |- keeps _ (bind _ _) => apply keeps_bind; [|intros ?]
  | |- keeps _ (ret _) => apply keeps_ret
  | |- keeps _ (stop _) => apply keeps_stop
  | |- keeps _ (lift _) => apply keeps_lift
  | |- keeps _ (consult _) => apply keeps_consult
  | |- keeps _ (look _) => apply keeps_look
  | |- keeps _ (ignore _) => apply keeps_ignore
  | |- keeps _ (attempt _) => apply keeps_attempt
  | |- keeps _ (undoing _ _) => apply keeps_undoing
  | |- keeps _ (finally _ _) => apply keeps_finally
  | |- keeps _ (match ?x with _ => _ end) => destruct x eqn:?
  | |- keeps _ ?c => let h := head_of c in unfold h
  end.
Ltac hold := repeat (first [progress eauto 3 with commands nocore | keeps_step]; try done).
