(* ===== verification/Files.v ===== *)
(** * The files of the host

    The domains that keep files read, write and remove them by path.  [FileSystem] is
    what they see of it: the contents of the regular files, and whether a write or a
    removal succeeds, which may depend on everything else.  A write goes through a
    temporary file renamed into place, so that it is whole or does not happen. *)

From S2P Require Import Prelude GoStrings Command.
From S2P Require Backup.
From Stdlib Require Import Ascii String.
#[local] Open Scope string_scope.
#[local] Open Scope list_scope.
#[local] Open Scope Z_scope.

Import Backup(Clean).

(** [filepath.Dir]. *)
Fixpoint up_to_slash (s : string) : string :=
  match s with
  | "" => ""
  | String c s' => match up_to_slash s' with "" => if Ascii.eqb c "/" then "/" else "" | r => String c r end
  end.
Definition Dir (path : string) : string := Clean (up_to_slash path).

Class FileSystem (W : Type) := {
  files : W → gmap string string;
  set_files : gmap string string → W → W;
  may_write : W → string → string → bool;    (** every call of the write of this content succeeds *)
  may_remove : W → string → bool;
  files_set fs w : files (set_files fs w) = fs;
}.

Section files.
Context {W : Type} `{!FileSystem W}.

Definition write_at (path content : string) (w : W) : bool * W :=
  if may_write w path content then (true, set_files (<[path := content]> (files w)) w) else (false, w).
Definition remove_at (path : string) (w : W) : bool * W :=
  match files w !! path with
  | Some _ => if may_remove w path then (true, set_files (delete path (files w)) w) else (false, w)
  | None => (false, w)
  end.

(** Every write and removal succeeds. *)
Definition writable : Prop := ∀ w path content, may_write w path content = true.

Lemma write_at_ok path content w :
  writable → write_at path content w = (true, set_files (<[path := content]> (files w)) w).
Proof. intros Hw. unfold write_at. by rewrite Hw. Qed.

Lemma write_at_cases path content w ok w' :
  write_at path content w = (ok, w') →
  (ok = true ∧ files w' = <[path := content]> (files w)) ∨ (ok = false ∧ w' = w).
Proof.
  unfold write_at. destruct (may_write w path content); intros [= <- <-]; [left|by right].
  by rewrite files_set.
Qed.

Lemma write_at_read path content w w' : write_at path content w = (true, w') → files w' !! path = Some content.
Proof. intros [[_ ->]|[[=] _]]%write_at_cases. by rewrite lookup_insert_eq. Qed.

(** A write touches its own file only, whether it succeeds or not. *)
Lemma write_at_other path path' content w ok w' :
  write_at path content w = (ok, w') → path ≠ path' → files w' !! path' = files w !! path'.
Proof. intros [[_ ->]|[_ ->]]%write_at_cases Hne; [|done]. by rewrite lookup_insert_ne. Qed.

Context `{!Programs W}.
Definition read_file (path : string) : cmd W (option string) := look (λ w, files w !! path).
Definition write_file (path content : string) : cmd W bool := touch (write_at path content).
Definition remove_file (path : string) : cmd W bool := touch (remove_at path).
End files.

Arguments writable W {_}.
