(* ===== verification/Firewall.v ===== *)
(** * The firewall domain: [domain/firewall]

    UFW or firewalld: what their commands print is parsed into rules, a rule to add is
    validated, actions are scheduled or executed, and a rule is deleted only while it
    still has the fingerprint the caller saw.  The address parser of [net/netip] is a
    parameter. *)

From S2P Require Import Prelude GoStrings StringFacts Regex Codec Backtrack Command.
From S2P Require Api.
From Stdlib Require Import Ascii String.
#[local] Open Scope string_scope.
#[local] Open Scope list_scope.
#[local] Open Scope Z_scope.

Import Api(Reply, failure, success, VStr, VInt, VBool, VList, VMap, VNil, Value).

(** [netip.ParsePrefix] and [netip.ParseAddr]: whether the address is IPv6. *)
Class NetIP := { ParsePrefix : string → option bool; ParseAddr : string → option bool }.

Record Rule := mkRule {
  ID : Z; Action : string; Direction : string; Protocol : string; Ports : list string;
  Source : string; Destination : string; Family : string; line : string }.
Record Listener := mkListener { Port : Z; LProtocol : string; Service : option string; Process : option string }.
#[global] Instance Listener_eq_dec : EqDecision Listener.
Proof. solve_decision. Defined.

Definition ufw : string := "/usr/sbin/ufw".
Definition firewallCMD : string := "/usr/bin/firewall-cmd".
Definition systemd_run : string := "/usr/bin/systemd-run".
Definition ss : string := "/usr/bin/ss".
Definition goCLI : string := "/usr/local/sbin/aegisadmin-system-go".

Definition counts : list (string * nat) :=
  [("info", 0); ("status", 0); ("rules", 0); ("add", 4); ("add-execute", 4); ("delete-check", 1);
   ("delete", 3); ("delete-execute", 3); ("enable", 0); ("disable", 0); ("reload", 0)]%nat.

(** [^\[\s*(\d+)\]\s+(.+?)\s{2,}(.+?)\s{2,}(.+?)\s*$] *)
Definition numbered : pat :=
  word "[" >> spaces >> PGroup 1 digits >> word "]" >> spaces1 >> PGroup 2 lazy_bytes >>
  PRep true 2 None re_space >> PGroup 3 lazy_bytes >> PRep true 2 None re_space >> PGroup 4 lazy_bytes >>
  spaces >> PEnd.
(** The version after the word ufw, in either case; its boundary checked by [version_of]. *)
Definition versionPattern : pat :=
  word_i "ufw" >> spaces1 >>
  PGroup 1 (PCls is_digit >> PRep true 0 None (cls (λ c, is_digit c || is_upper c || is_lower c) ".+:~_-")).
Definition fingerprintPattern : rx := Rep is_hex_lower 64 64.

(** The first version after a word boundary. *)
Fixpoint version_from (boundary : bool) (s : string) : option string :=
  match (if boundary then match_here versionPattern s else None) with
  | Some g => Some (group g 1)
  | None => match s with EmptyString => None | String c s' => version_from (negb (re_word c)) s' end
  end.
Definition version_of (s : string) : option string := version_from true s.

Section parsers.
Context `{UnicodeCase}.

(** [parseVerbose]: the last line of each kind wins. *)
Record Status := mkStatus {
  active : bool; logging : string; default_incoming : string; default_outgoing : string; default_routed : string }.
Definition unknown_status (active : bool) : Status := mkStatus active "unknown" "unknown" "unknown" "unknown".

Definition status_pattern : pat :=
  word_i "status:" >> spaces >> PGroup 1 (PAlt (word_i "active") (word_i "inactive")) >> PEnd.
Definition logging_pattern : pat := word_i "logging:" >> spaces >> PGroup 1 lazy_bytes >> spaces >> PEnd.
Definition word_group (n : nat) : pat := PGroup n (some_bytes (but re_space)).
Definition default_pattern : pat :=
  word_i "default:" >> spaces >> word_group 1 >> spaces >> word_i "(incoming)," >> spaces >> word_group 2 >>
  spaces >> word_i "(outgoing)," >> spaces >> word_group 3 >> spaces >> word_i "(routed)" >> PEnd.

Definition verbose_line (d : Status) (raw : string) : Status :=
  let l := trim_space raw in
  let d := match match_here status_pattern l with
    | Some g => mkStatus (String.eqb (to_lower (group g 1)) "active") (logging d) (default_incoming d)
                  (default_outgoing d) (default_routed d)
    | None => d end in
  let d := match match_here logging_pattern l with
    | Some g => mkStatus (active d) (to_lower (trim_space (group g 1))) (default_incoming d)
                  (default_outgoing d) (default_routed d)
    | None => d end in
  match match_here default_pattern l with
  | Some g => mkStatus (active d) (logging d) (to_lower (group g 1)) (to_lower (group g 2)) (to_lower (group g 3))
  | None => d
  end.
Definition parseVerbose (o : string) : Status := fold_left verbose_line (split nl o) (unknown_status false).

(** [(?i)\s*\(v6\)\s*$] taken away. *)
Definition v6_pattern : pat := spaces >> word_i "(v6)" >> spaces >> PEnd.
Definition without_v6 (s : string) : string :=
  match find_around v6_pattern s with Some (left_, _, _) => left_ | None => s end.
(** [(?i)/(tcp|udp)\s*$] *)
Definition proto_pattern : pat :=
  word "/" >> PGroup 1 (PAlt (word_i "tcp") (word_i "udp")) >> spaces >> PEnd.
Definition ports_pattern : rx :=
  plus (Cls is_digit) ;;; Star (Cls (λ c, contains_byte c ":,-") ;;; plus (Cls is_digit)).

(** One line of [ufw status numbered]. *)
Definition parse_rule (raw : string) : option Rule :=
  match match_here numbered (trim_space raw) with
  | None => None
  | Some g =>
      let id := atoi_val (group g 1) in
      let target := trim_space (group g 2) in
      let actionText := trim_space (group g 3) in
      let source := trim_space (group g 4) in
      let family := if contains (to_lower target) "(v6)" || contains (to_lower source) "(v6)" then "ipv6" else "ipv4" in
      let target := without_v6 target in
      let source := without_v6 source in
      let parts := fields actionText in
      let action := match parts with x :: _ => to_lower x | [] => "unknown" end in
      let direction := match parts with _ :: x :: _ => to_lower x | _ => "in" end in
      let '(protocol, destination) :=
        match find_around proto_pattern target with
        | Some (left_, g, _) => (to_lower (group g 1), trim_space left_)
        | None => ("any", trim_space target)
        end in
      let '(ports, destination) :=
        if full ports_pattern destination then ([destination], "any") else ([], destination) in
      Some (mkRule id action direction protocol ports source
              (if String.eqb destination "" then "any" else destination) family raw)
  end.
Definition parseRules (o : string) : list Rule := omap parse_rule (split nl o).
End parsers.

(** [readIPv6]: the first line of the defaults file that sets IPV6. *)
Definition quote_byte (c : ascii) : bool := (byte c =? 34) || (byte c =? 39).
Definition ipv6_pattern : pat :=
  spaces >> word_i "ipv6" >> spaces >> word "=" >> spaces >> maybe (PCls quote_byte) >>
  PGroup 1 (some_bytes (λ c, negb (quote_byte c || re_space c || Ascii.eqb c "#"))).
Fixpoint ipv6_lines (lines : list string) : option string :=
  match lines with
  | [] => None
  | l :: lines' =>
      match match_here ipv6_pattern (join snl (l :: lines')) with
      | Some g => Some (group g 1)
      | None => ipv6_lines lines'
      end
  end.
Definition readIPv6 `{UnicodeCase} (content : option string) : Value :=
  match content with
  | None => VNil
  | Some text =>
      match ipv6_lines (split nl text) with
      | None => VNil
      | Some v =>
          if existsb (String.eqb (to_lower v)) ["yes"; "true"; "1"; "on"] then VBool true
          else if existsb (String.eqb (to_lower v)) ["no"; "false"; "0"; "off"] then VBool false
          else VNil
      end
  end.

Definition fingerprint (line : string) : string := hex_encode (sha256 line).

(** ** Validation *)

Definition validID (v : string) : res Reply Z :=
  if full (Cls (between "1" "9") ;;; Star (Cls is_digit)) v then Ok (atoi_val v)
  else Err (failure 2 "INVALID_RULE_ID" "L’identifiant de la règle UFW est invalide.").

Definition invalid_rule : Reply :=
  failure 2 "INVALID_FIREWALL_RULE" "Le port, la plage de ports ou la source est invalide.".

(** A port, or a range of two: Atoi gives its bound on overflow, which the range check refuses. *)
Definition port_item (p : string) : bool :=
  match split ":" (trim_space p) with
  | [x] => let '(start, e) := atoi_full x in
           match e with None => (1 <=? start) && (start <=? 65535) | Some _ => false end
  | [x; y] =>
      let start := (atoi_full x).1 in
      let '(stop_, e) := atoi_full y in
      match e with None => (1 <=? start) && (start <=? stop_) && (stop_ <=? 65535) | Some _ => false end
  | _ => false
  end.

Definition argument (a : list string) (n : nat) : string := default "" (a !! n).

Definition validateAdd `{NetIP} (a : list string) : option Reply :=
  if negb (existsb (String.eqb (argument a 0)) ["allow"; "deny"; "reject"; "limit"]) then
    Some (failure 2 "INVALID_FIREWALL_ACTION" "L’action de la règle du pare-feu est invalide.")
  else if negb (existsb (String.eqb (argument a 2)) ["tcp"; "udp"]) then
    Some (failure 2 "INVALID_FIREWALL_PROTOCOL" "Le protocole de la règle du pare-feu est invalide.")
  else if negb (forallb port_item (split "," (argument a 1))) then Some invalid_rule
  else if negb (String.eqb (argument a 3) "any") then
    match ParsePrefix (argument a 3), ParseAddr (argument a 3) with
    | None, None => Some invalid_rule
    | _, _ => None
    end
  else None.

(** ** firewalld rules *)

(** Attributes: lower-case letters, an equals sign, a quoted value; every match from
    left to right. *)
Definition attribute_pattern : pat :=
  PGroup 1 (some_bytes is_lower) >> word "=" >> PCls (Ascii.eqb "034") >>
  PGroup 2 (some_bytes (λ c, negb (Ascii.eqb c "034"))) >> PCls (Ascii.eqb "034").
Fixpoint attributes_from (fuel : nat) (s : string) : list (string * string) :=
  match fuel with
  | O => []
  | S fuel =>
      match find_around attribute_pattern s with
      | Some (_, g, rest_) => (group g 1, group g 2) :: attributes_from fuel rest_
      | None => []
      end
  end.
(** The last value of an attribute. *)
Definition attribute (l : list (string * string)) (name : string) : string :=
  match find (λ x, String.eqb x.1 name) (rev l) with Some (_, v) => v | None => "" end.

Definition replace_byte (from to : ascii) : string → string := smap (λ c, if Ascii.eqb c from then to else c).

Definition parseFirewalldRule `{NetIP} (l : string) : option Rule :=
  if negb (has_prefix l "rule ") then
    let '(port, protocol, found) := cut "/" l in
    if found && (String.eqb protocol "tcp" || String.eqb protocol "udp")
    then Some (mkRule 0 "allow" "in" protocol [replace_byte "-" ":" port] "any" "any" "ipv4" "")
    else None
  else
    let attributes := attributes_from (String.length l) l in
    let source := attribute attributes "address" in
    let family :=
      if String.eqb (attribute attributes "family") "ipv6"
         || (negb (String.eqb source "") && match ParsePrefix source with Some six => six | None => false end)
      then "ipv6" else "ipv4" in
    let protocol := attribute attributes "protocol" in
    let port := attribute attributes "port" in
    let action :=
      if has_suffix l " accept" then Some "allow"
      else if has_suffix l " drop" then Some "deny"
      else if has_suffix l " reject" then Some "reject" else None in
    match action with
    | None => None
    | Some action =>
        if String.eqb port "" then None
        else Some (mkRule 0 action "in"
               (if String.eqb protocol "tcp" || String.eqb protocol "udp" then protocol else "any")
               [replace_byte "-" ":" port] (if String.eqb source "" then "any" else source) "any" family "")
    end.

Definition nonblank_lines (o : string) : list string :=
  filter (λ l, l ≠ "") (trim_space <$> split nl o).

(** The rules are numbered in the order of their lines. *)
Fixpoint number_rules `{NetIP} (n : Z) (lines : list string) : list Rule :=
  match lines with
  | [] => []
  | l :: lines =>
      match parseFirewalldRule l with
      | Some r => mkRule n (Action r) (Direction r) (Protocol r) (Ports r) (Source r) (Destination r) (Family r) l
                  :: number_rules (n + 1) lines
      | None => number_rules n lines
      end
  end.
Definition firewalld_list `{NetIP} (rich ports : string) : list Rule :=
  number_rules 1 (sort_strings (nonblank_lines rich ++ nonblank_lines ports)).

(** ** Commands *)

Section domain.
Context {W : Type} `{!Programs W} `{UnicodeCase} `{NetIP}.
(** The file of UFW defaults. *)
Context (defaults : option string).

Definition data := list (string * Value).
Definition firewalld_only : bool := negb (executable ufw) && executable firewallCMD.

(** A command whose output is read: its message when it fails. *)
Definition read_output (program code default_message : string) (arguments : list string) : cmd W string :=
  do! o := run program arguments in
  if succeeded o then ret (stdout o)
  else
    let m := if String.eqb (stderr o) "" then stdout o else stderr o in
    stop (failure 10 code (if String.eqb m "" then default_message else m)).
Definition runUFW : list string → cmd W string :=
  read_output ufw "UFW_READ_FAILED" "La commande UFW a échoué.".
Definition runFirewalld : list string → cmd W string :=
  read_output firewallCMD "FIREWALLD_READ_FAILED" "La commande firewalld a échoué.".

Definition firewalldRules : cmd W (list Rule) :=
  do! rich := runFirewalld ["--list-rich-rules"] in
  do! ports := runFirewalld ["--list-ports"] in
  ret (firewalld_list rich ports).

Definition read : cmd W (Status * list Rule) :=
  do! verbose := runUFW ["status"; "verbose"] in
  do! numbered := runUFW ["status"; "numbered"] in
  ret (parseVerbose verbose, parseRules numbered).

Definition rule_of (id : Z) (rules : list Rule) (code message : string) : res Reply Rule :=
  match find (λ r, ID r =? id) rules with
  | Some r => Ok r
  | None => Err (failure 6 code message)
  end.
Definition rule (id : Z) : cmd W Rule :=
  if firewalld_only then
    do! rules := firewalldRules in
    lift (rule_of id rules "FIREWALL_RULE_NOT_FOUND" "La règle firewalld demandée n’existe plus.")
  else
    do! o := runUFW ["status"; "numbered"] in
    lift (rule_of id (parseRules o) "UFW_RULE_NOT_FOUND" "La règle UFW demandée n’existe plus.").

(** *** Who listens *)

(** The ports of one item of the expression: a port or a range, up to 65535. *)
Definition item_covers (item : string) (port : Z) : bool :=
  match split ":" (trim_space item) with
  | x :: rest_ =>
      match atoi x with
      | None => false
      | Some start =>
          let stop_ := match rest_ with [y] => atoi_val y | _ => start end in
          (start <=? port) && (port <=? stop_) && (port <=? 65535)
      end
  | [] => false
  end.
Definition rule_ports (r : Rule) (port : Z) : bool :=
  let expr := match Ports r with x :: _ => x | [] => Destination r end in
  existsb (λ item, item_covers item port) (split "," expr).

Definition port_pattern : pat := word ":" >> PGroup 1 digits >> PEnd.
(** The name quoted after a parenthesis. *)
Definition service_pattern : pat :=
  word "(" >> PCls (Ascii.eqb "034") >> PGroup 1 (some_bytes (λ c, negb (Ascii.eqb c "034"))) >> PCls (Ascii.eqb "034").

Definition listener_of (r : Rule) (l : string) : option Listener :=
  let cols := fields l in
  match cols with
  | first :: _ :: _ :: _ :: local :: _ =>
      match find_match port_pattern local with
      | None => None
      | Some g =>
          let port := atoi_val (group g 1) in
          let proto := to_lower first in
          if negb (rule_ports r port) || (negb (String.eqb (Protocol r) "any") && negb (String.eqb (Protocol r) proto))
          then None
          else
            let process := join " " (drop 6 cols) in
            Some (mkListener port proto
              (if String.eqb process "" then None
               else match find_match service_pattern process with Some g => Some (group g 1) | None => None end)
              (if String.eqb process "" then None else Some process))
      end
  | _ => None
  end.
Definition text (o : option string) : string := default "" o.
Definition same_listener (x y : Listener) : bool :=
  (Port x =? Port y) && String.eqb (LProtocol x) (LProtocol y) &&
  String.eqb (text (Service x)) (text (Service y)) && String.eqb (text (Process x)) (text (Process y)).
Definition add_listener (l : list Listener) (x : Listener) : list Listener :=
  if existsb (λ y, same_listener y x) l then l else l ++ [x].
Definition listeners_of (r : Rule) (output : string) : list Listener :=
  fold_left add_listener (omap (listener_of r) (split nl output)) [].
Definition is_ssh (l : Listener) : bool :=
  (Port l =? 22) || String.eqb (text (Service l)) "ssh" || String.eqb (text (Service l)) "sshd".

Definition listener_le (x y : Listener) : Prop :=
  Port x < Port y ∨ (Port x = Port y ∧ (String.ltb (LProtocol x) (LProtocol y) = true ∨
    (LProtocol x = LProtocol y ∧ str_le (text (Service x)) (text (Service y))))).
#[global] Instance listener_le_dec x y : Decision (listener_le x y).
Proof. unfold listener_le. apply _. Defined.
Definition sorted_listeners (l : list Listener) : list Listener := merge_sort listener_le l.

Record Usage := mkUsage {
  rule_id : Z; u_fingerprint : string; in_use : bool; ssh_access_risk : bool; listeners : list Listener }.
Definition usage (id : Z) : cmd W Usage :=
  do! r := rule id in
  do! o := run ss ["-H"; "-lntup"] in
  let l := listeners_of r (stdout o) in
  ret (mkUsage id (fingerprint (line r)) (negb (Nat.eqb (List.length l) 0)) (existsb is_ssh l) (sorted_listeners l)).

(** *** Actions *)

Definition schedule (action command : string) (arguments : list string) : cmd W data :=
  do! o := run systemd_run (["--quiet"; "--collect"; "--on-active=5s"; command] ++ arguments) in
  if succeeded o then
    ret [("action", VStr action); ("backend", VStr "ufw"); ("result", VStr "scheduled"); ("delay_seconds", VInt 5)]
  else
    let code :=
      if String.eqb action "add" then "UFW_ADD_FAILED" else if String.eqb action "enable" then "UFW_ENABLE_FAILED"
      else if String.eqb action "disable" then "UFW_DISABLE_FAILED" else if String.eqb action "reload" then "UFW_RELOAD_FAILED"
      else if String.eqb action "delete" then "UFW_ACTION_SCHEDULE_FAILED" else "" in
    stop (failure 10 code "La programmation de l’action UFW a échoué.").
Definition scheduleFirewalld (action command : string) (arguments : list string) : cmd W data :=
  do! o := run systemd_run (["--quiet"; "--collect"; "--on-active=5s"; command] ++ arguments) in
  if succeeded o then
    ret [("action", VStr action); ("backend", VStr "firewalld"); ("result", VStr "scheduled"); ("delay_seconds", VInt 5)]
  else stop (failure 10 "FIREWALLD_ACTION_SCHEDULE_FAILED" "La programmation de l’action firewalld a échoué.").

(** A program that must succeed. *)
Definition must (program code message : string) (arguments : list string) : cmd W () :=
  do! o := run program arguments in
  if succeeded o then ret () else stop (failure 10 code message).

Definition reload_firewalld : cmd W () :=
  must firewallCMD "FIREWALL_RELOAD_FAILED" "Le rechargement de firewalld a échoué." ["--reload"].

(** The end of [delete]: the rule goes away now. *)
Definition delete_now (id : Z) (id_text : string) : cmd W data :=
  if firewalld_only then
    do! r := rule id in
    do! _ := must firewallCMD "FIREWALL_DELETE_FAILED" "La suppression de la règle firewalld a échoué."
      ["--permanent"; (if has_prefix (line r) "rule " then "--remove-rich-rule=" else "--remove-port=") +++ line r] in
    do! _ := reload_firewalld in
    ret [("action", VStr "delete"); ("backend", VStr "firewalld"); ("result", VStr "completed"); ("rule_id", VInt id)]
  else
    do! _ := must ufw "UFW_DELETE_FAILED" "La suppression de la règle UFW a échoué." ["--force"; "delete"; id_text] in
    ret [("action", VStr "delete"); ("backend", VStr "ufw"); ("result", VStr "completed"); ("rule_id", VInt id)].

(** The checks of [delete] on the rule as it is now. *)
Definition delete_checked (command : string) (id : Z) (seen confirmation : string) : cmd W () :=
  do! u := usage id in
  if negb (String.eqb (u_fingerprint u) seen) then
    stop (failure 9 "UFW_RULE_CHANGED" "La règle UFW a changé. Rechargez la liste avant de recommencer.")
  else if negb (String.eqb confirmation "yes") && in_use u then
    stop (failure 8 "UFW_RULE_IN_USE"
      (if String.eqb command "delete-execute"
       then "La suppression a été annulée car un service utilise désormais ce port."
       else "Un service actif utilise le port concerné. Une confirmation explicite est requise."))
  else ret ().

Definition delete (command : string) (a : list string) : cmd W data :=
  do! id := lift (validID (argument a 0)) in
  if negb (full fingerprintPattern (argument a 1)) then
    stop (failure 2 "INVALID_RULE_FINGERPRINT" "L’empreinte de la règle UFW est invalide.")
  else if negb (String.eqb (argument a 2) "yes") && negb (String.eqb (argument a 2) "no") then
    stop (failure 2 "INVALID_CONFIRMATION" "La confirmation de suppression est invalide.")
  else
    do! _ := delete_checked command id (argument a 1) (argument a 2) in
    if String.eqb command "delete" then
      let later := ["firewall"; "delete-execute"; argument a 0; argument a 1; argument a 2] in
      if firewalld_only then scheduleFirewalld "delete" goCLI later else schedule "delete" goCLI later
    else delete_now id (argument a 0).

(** *** Dispatch *)

Definition rule_value (r : Rule) : Value :=
  VMap [("id", VInt (ID r)); ("action", VStr (Action r)); ("direction", VStr (Direction r));
    ("protocol", VStr (Protocol r)); ("ports", VList (VStr <$> Ports r)); ("source", VStr (Source r));
    ("destination", VStr (Destination r)); ("family", VStr (Family r))].
Definition status_data (s : Status) : data :=
  [("active", VBool (active s)); ("logging", VStr (logging s)); ("default_incoming", VStr (default_incoming s));
   ("default_outgoing", VStr (default_outgoing s)); ("default_routed", VStr (default_routed s))].
Definition rules_data (r : list Rule) : data :=
  [("rules", VList (rule_value <$> r)); ("count", VInt (Z.of_nat (List.length r)))].
Definition optional_text (o : option string) : Value := match o with Some s => VStr s | None => VNil end.
Definition listener_value (l : Listener) : Value :=
  VMap [("port", VInt (Port l)); ("protocol", VStr (LProtocol l)); ("service", optional_text (Service l));
    ("process", optional_text (Process l))].
Definition usage_data (u : Usage) : data :=
  [("rule_id", VInt (rule_id u)); ("fingerprint", VStr (u_fingerprint u)); ("in_use", VBool (in_use u));
   ("ssh_access_risk", VBool (ssh_access_risk u)); ("listeners", VList (listener_value <$> listeners u))].

Definition delete_check (a : list string) : cmd W data :=
  do! id := lift (validID (argument a 0)) in
  do! u := usage id in
  ret (usage_data u).

(** The rich rules of an addition. *)
Definition quoted (s : string) : string := String "034" (s +++ String "034" "").
Definition is_six (source : string) : bool :=
  match ParsePrefix source with
  | Some true => true
  | _ => match ParseAddr source with Some six => six | None => false end
  end.
Definition rich_rule (a : list string) (port : string) : string :=
  let source := argument a 3 in
  let family := if negb (String.eqb source "any") && is_six source then "ipv6" else "ipv4" in
  let action := if String.eqb (argument a 0) "allow" then "accept"
    else if String.eqb (argument a 0) "deny" then "drop" else "reject" in
  "rule family=" +++ quoted family +++
  (if String.eqb source "any" then "" else " source address=" +++ quoted source) +++
  " port port=" +++ quoted (replace_byte ":" "-" (trim_space port)) +++
  " protocol=" +++ quoted (argument a 2) +++ " " +++ action.

Fixpoint add_rich (rules : list string) : cmd W () :=
  match rules with
  | [] => ret ()
  | r :: rules =>
      do! _ := must firewallCMD "FIREWALL_ADD_FAILED" "L’ajout de la règle firewalld a échoué."
        ["--permanent"; "--add-rich-rule=" +++ r] in
      add_rich rules
  end.

Definition add_firewalld (command : string) (a : list string) : cmd W data :=
  match validateAdd a with
  | Some r => stop r
  | None =>
      if String.eqb (argument a 0) "limit" then
        stop (failure 2 "UNSUPPORTED_FIREWALL_ACTION" "L’action limit n’est pas prise en charge par firewalld.")
      else if String.eqb command "add" then
        scheduleFirewalld "add" goCLI ["firewall"; "add-execute"; argument a 0; argument a 1; argument a 2; argument a 3]
      else
        do! _ := add_rich (rich_rule a <$> split "," (argument a 1)) in
        do! _ := reload_firewalld in
        ret [("action", VStr "add"); ("backend", VStr "firewalld"); ("result", VStr "completed")]
  end.

Definition nullableText (s : string) : Value := if String.eqb (trim_space s) "" then VNil else VStr (trim_space s).
(** A read whose failure counts as an empty text. *)
Definition or_empty (c : cmd W string) : cmd W string :=
  λ m, match c m with (Ok s, m) => (Ok s, m) | (Err _, m) => (Ok "", m) end.

Definition read_firewalld (command : string) : cmd W data :=
  do! state := run firewallCMD ["--state"] in
  let active := succeeded state && String.eqb (trim_space (stdout state)) "running" in
  do! rules := firewalldRules in
  if String.eqb command "rules" then ret (rules_data rules)
  else if String.eqb command "status" then
    ret (status_data (unknown_status active) ++ [("rule_count", VInt (Z.of_nat (List.length rules)))])
  else
    do! version := or_empty (runFirewalld ["--version"]) in
    ret [("backend", VStr "firewalld"); ("product", VStr "firewalld"); ("installed", VBool true);
      ("version", nullableText version); ("active", VBool active); ("ipv6", VBool true);
      ("default_incoming", VStr "unknown"); ("default_outgoing", VStr "unknown"); ("default_routed", VStr "unknown")].

Definition one_of (x : string) (l : list string) : bool := existsb (String.eqb x) l.

Definition executeFirewalld (command : string) (a : list string) : cmd W data :=
  if one_of command ["info"; "status"; "rules"] then read_firewalld command
  else if one_of command ["add"; "add-execute"] then add_firewalld command a
  else if String.eqb command "enable" then
    scheduleFirewalld "enable" "/usr/bin/systemctl" ["enable"; "--now"; "firewalld.service"]
  else if String.eqb command "disable" then
    scheduleFirewalld "disable" "/usr/bin/systemctl" ["disable"; "--now"; "firewalld.service"]
  else if String.eqb command "reload" then scheduleFirewalld "reload" firewallCMD ["--reload"]
  else if String.eqb command "delete-check" then delete_check a
  else if one_of command ["delete"; "delete-execute"] then delete command a
  else ret [].

Definition info_ufw : cmd W data :=
  do! s := read in
  do! version := runUFW ["version"] in
  ret [("backend", VStr "ufw"); ("product", VStr "UFW"); ("installed", VBool true);
    ("version", optional_text (version_of version)); ("active", VBool (active s.1)); ("ipv6", readIPv6 defaults);
    ("default_incoming", VStr (default_incoming s.1)); ("default_outgoing", VStr (default_outgoing s.1));
    ("default_routed", VStr (default_routed s.1))].

Definition execute (command : string) (a : list string) : cmd W data :=
  if firewalld_only then executeFirewalld command a
  else if String.eqb command "add-execute" then
    stop (failure 4 "COMMAND_NOT_FOUND" "La commande demandée n’existe pas dans le domaine Firewall.")
  else if String.eqb command "info" then info_ufw
  else if String.eqb command "status" then
    do! s := read in
    ret (status_data s.1 ++ [("rule_count", VInt (Z.of_nat (List.length s.2)))])
  else if String.eqb command "rules" then do! s := read in ret (rules_data s.2)
  else if String.eqb command "add" then
    match validateAdd a with
    | Some r => stop r
    | None => schedule "add" ufw [argument a 0; "from"; argument a 3; "to"; "any"; "port"; argument a 1; "proto"; argument a 2]
    end
  else if String.eqb command "enable" then schedule "enable" ufw ["--force"; "enable"]
  else if String.eqb command "disable" then schedule "disable" ufw ["--force"; "disable"]
  else if String.eqb command "reload" then schedule "reload" ufw ["reload"]
  else if String.eqb command "delete-check" then delete_check a
  else if one_of command ["delete"; "delete-execute"] then delete command a
  else ret [].

Definition Handle (command : string) (a : list string) : Machine W → Reply * Machine W :=
  λ m,
  if String.eqb command "" then
    (failure 2 "MISSING_COMMAND" "Aucune commande n’a été indiquée pour le domaine Firewall.", m)
  else match find (λ c, String.eqb c.1 command) counts with
  | None => (failure 4 "COMMAND_NOT_FOUND" "La commande demandée n’existe pas dans le domaine Firewall.", m)
  | Some (_, n) =>
      if negb (Nat.eqb (List.length a) n) then
        (failure 2 "INVALID_ARGUMENT_COUNT" "Le nombre d’arguments fourni est invalide.", m)
      else if negb (executable ufw) && negb (executable firewallCMD) then
        (failure 5 "FIREWALL_NOT_INSTALLED"
           "Aucun pare-feu UFW ou firewalld pris en charge n’est installé sur ce serveur.", m)
      else match execute command a m with
      | (Ok d, m) => (success d, m)
      | (Err r, m) => (r, m)
      end
  end.
End domain.
