(* ===== verification/FirewallFacts.v ===== *)
(** * Properties of the firewall domain

    Which programs a command runs, what a deletion removes, what a validated addition
    becomes.  The programs that print the state are assumed not to change it where a
    deletion is concerned; what they print stays a parameter. *)

From S2P Require Import Prelude GoStrings StringFacts Regex Codec Backtrack Command Firewall.
From S2P Require Api.
From Stdlib Require Import Ascii String.
#[local] Open Scope string_scope.
#[local] Open Scope list_scope.
#[local] Open Scope Z_scope.

Import Api(Reply, failure, success, VStr, VInt, VBool, VList, VMap, VNil, Value).

(** The calls that print the state of the firewall and of the sockets. *)
Definition readings : list (string * list string) :=
  [(ufw, ["status"; "verbose"]); (ufw, ["status"; "numbered"]); (ufw, ["version"]);
   (firewallCMD, ["--list-rich-rules"]); (firewallCMD, ["--list-ports"]); (firewallCMD, ["--state"]);
   (firewallCMD, ["--version"]); (ss, ["-H"; "-lntup"])].
Definition reading (name : string) (arguments : list string) : Prop := (name, arguments) ∈ readings.
#[global] Instance reading_dec name arguments : Decision (reading name arguments).
Proof. unfold reading. apply _. Defined.
(** The calls that leave the firewall as it is: the readings and [systemd-run], whose
    unit starts after the answer. *)
Definition deferring (name : string) (arguments : list string) : Prop :=
  reading name arguments ∨ (name = systemd_run ∧ ∃ rest, arguments = "--quiet" :: "--collect" :: "--on-active=5s" :: rest).

Lemma reading_in name arguments : bool_decide (reading name arguments) = true → reading name arguments.
Proof. apply bool_decide_eq_true_1. Qed.
Ltac is_reading := apply reading_in; vm_compute; reflexivity.

Section firewall.
Context {W : Type} `{!Programs W} `{UnicodeCase} `{NetIP}.
Context (defaults : option string).

(** ** Commands that only read *)

#[local] Hint Extern 1 (reading _ _) => is_reading : commands.
#[local] Hint Extern 1 (only _ (run _ _)) => apply only_run; is_reading : commands.

Lemma read_output_only P program code message arguments :
  P program arguments → only P (read_output (W := W) program code message arguments).
Proof.
  intros HP. apply only_bind; [by apply only_run|]. intros o. by destruct (succeeded o); auto with commands.
Qed.

Lemma firewalldRules_reads : only reading (firewalldRules (W := W)).
Proof. walk. Qed.

Lemma rule_reads id : only reading (rule (W := W) id).
Proof. walk. Qed.

Lemma usage_reads id : only reading (usage (W := W) id).
Proof. walk. Qed.

Lemma read_reads : only reading (read (W := W)).
Proof. walk. Qed.

Lemma or_empty_only P (c : cmd W string) : only P c → only P (or_empty c).
Proof.
  intros Hc m out m'. unfold or_empty. destruct (c m) as [[s|r] m1] eqn:Hr; intros [= _ <-]; by apply Hc in Hr.
Qed.

Lemma read_firewalld_reads command : only reading (read_firewalld (W := W) command).
Proof.
  apply only_bind; [apply only_run; is_reading|]. intros state.
  apply only_bind; [apply firewalldRules_reads|]. intros rules.
  destruct (String.eqb command "rules"); [apply only_ret|].
  destruct (String.eqb command "status"); [apply only_ret|].
  apply only_bind; [apply or_empty_only, read_output_only; is_reading|]. intros version. apply only_ret.
Qed.

Lemma delete_check_reads a : only reading (delete_check (W := W) a).
Proof. walk. Qed.

Lemma delete_checked_reads command id seen confirmation : only reading (delete_checked (W := W) command id seen confirmation).
Proof. walk. Qed.

(** What a command answers is a function [v] of the machine, which it does not change. *)
Definition reads_as {A} (c : cmd W A) (v : W → res Reply A) : Prop :=
  ∀ m, ∃ l, c m = (v (inside m), mkMachine (inside m) (ran m ++ l)) ∧ Forall (calls reading) l.

Lemma reads_as_lift {A} (r : res Reply A) : reads_as (lift r) (λ _, r).
Proof. intros [w l]. exists []. by rewrite app_nil_r. Qed.
Lemma reads_as_ret {A} (x : A) : reads_as (ret x) (λ _, Ok x).
Proof. apply (reads_as_lift (Ok x)). Qed.
Lemma reads_as_stop {A} r : reads_as (stop (A := A) r) (λ _, Err r).
Proof. apply (reads_as_lift (Err r)). Qed.
Lemma reads_as_bind {A B} (c : cmd W A) (k : A → cmd W B) v u :
  reads_as c v → (∀ x, reads_as (k x) (u x)) → reads_as (bind c k) (λ w, res_bind (v w) (λ x, u x w)).
Proof.
  intros Hc Hk m. destruct (Hc m) as (l & Hm & Hl). unfold bind. rewrite Hm.
  destruct (v (inside m)) as [x|r]; simpl; [|by exists l].
  destruct (Hk x (mkMachine (inside m) (ran m ++ l))) as (l' & Hx & Hl'). rewrite Hx. simpl.
  exists (l ++ l'). rewrite app_assoc. split; [done|]. by apply Forall_app.
Qed.

Definition prints (w : W) (name : string) (arguments : list string) : outcome := (exec w name arguments).2.

(** The rules as the firewall prints them. *)
Definition read_now (program code message : string) (arguments : list string) (w : W) : res Reply string :=
  let o := prints w program arguments in
  if succeeded o then Ok (stdout o)
  else let m := if String.eqb (stderr o) "" then stdout o else stderr o in
       Err (failure 10 code (if String.eqb m "" then message else m)).
Definition rules_now (w : W) : res Reply (list Rule) :=
  if firewalld_only then
    let! rich := read_now firewallCMD "FIREWALLD_READ_FAILED" "La commande firewalld a échoué." ["--list-rich-rules"] w in
    let! ports := read_now firewallCMD "FIREWALLD_READ_FAILED" "La commande firewalld a échoué." ["--list-ports"] w in
    Ok (firewalld_list rich ports)
  else
    let! o := read_now ufw "UFW_READ_FAILED" "La commande UFW a échoué." ["status"; "numbered"] w in
    Ok (parseRules o).
Definition rule_now (id : Z) (w : W) : res Reply Rule :=
  let! rules := rules_now w in
  if firewalld_only
  then rule_of id rules "FIREWALL_RULE_NOT_FOUND" "La règle firewalld demandée n’existe plus."
  else rule_of id rules "UFW_RULE_NOT_FOUND" "La règle UFW demandée n’existe plus.".
(** Who listens on the ports of a rule. *)
Definition listening_now (r : Rule) (w : W) : list Listener := listeners_of r (stdout (prints w ss ["-H"; "-lntup"])).
Definition usage_now (id : Z) (w : W) : res Reply Usage :=
  let! r := rule_now id w in
  let l := listening_now r w in
  Ok (mkUsage id (fingerprint (line r)) (negb (Nat.eqb (List.length l) 0)) (existsb is_ssh l) (sorted_listeners l)).

(** ** What a command may run *)

Lemma schedule_defers action command arguments : only deferring (schedule (W := W) action command arguments).
Proof.
  apply only_bind; [apply only_run; right; eauto|]. intros o. by destruct (succeeded o); [apply only_ret|apply only_stop].
Qed.
Lemma scheduleFirewalld_defers action command arguments : only deferring (scheduleFirewalld (W := W) action command arguments).
Proof.
  apply only_bind; [apply only_run; right; eauto|]. intros o. by destruct (succeeded o); [apply only_ret|apply only_stop].
Qed.
Lemma reads_defer {A} (c : cmd W A) : only reading c → only deferring c.
Proof. apply only_weaken. by left. Qed.

Lemma delete_defers a : only deferring (delete (W := W) "delete" a).
Proof.
  apply only_bind; [apply only_lift|]. intros id.
  destruct (negb _); [apply only_stop|]. destruct (_ && _); [apply only_stop|].
  apply only_bind; [apply reads_defer, delete_checked_reads|]. intros _. cbn [String.eqb Ascii.eqb Bool.eqb].
  destruct firewalld_only; [apply scheduleFirewalld_defers|apply schedule_defers].
Qed.

Lemma add_defers a : only deferring (add_firewalld (W := W) "add" a).
Proof.
  unfold add_firewalld. destruct (validateAdd a); [apply only_stop|].
  destruct (String.eqb _ "limit"); [apply only_stop|]. apply scheduleFirewalld_defers.
Qed.

Lemma info_ufw_reads : only reading (info_ufw (W := W) defaults).
Proof. walk. Qed.

#[local] Hint Resolve schedule_defers scheduleFirewalld_defers delete_defers add_defers info_ufw_reads reads_defer
  read_reads read_firewalld_reads delete_check_reads : commands.

Lemma execute_reads command a :
  command ∈ ["info"; "status"; "rules"; "delete-check"] → only reading (execute (W := W) defaults command a).
Proof.
  intros Hc. unfold execute, executeFirewalld.
  repeat (apply elem_of_cons in Hc as [->|Hc]); [..|by apply not_elem_of_nil in Hc];
    cbn [String.eqb Ascii.eqb Bool.eqb one_of existsb orb]; destruct firewalld_only; auto with commands.
Qed.

Lemma execute_defers command a :
  command ∈ ["add"; "delete"; "enable"; "disable"; "reload"] → only deferring (execute (W := W) defaults command a).
Proof.
  intros Hc. unfold execute, executeFirewalld.
  repeat (apply elem_of_cons in Hc as [->|Hc]); [..|by apply not_elem_of_nil in Hc];
    cbn [String.eqb Ascii.eqb Bool.eqb one_of existsb orb]; destruct firewalld_only; auto with commands.
  destruct (validateAdd a); auto with commands.
Qed.

Definition any_program : string → list string → Prop := λ _ _, True.
Lemma must_any program code message arguments : only any_program (must (W := W) program code message arguments).
Proof.
  apply only_bind; [by apply only_run|]. intros o. destruct (succeeded o); [apply only_ret|apply only_stop].
Qed.
Lemma reads_any {A} (c : cmd W A) : only reading c → only any_program c.
Proof. by apply only_weaken. Qed.
Lemma defers_any {A} (c : cmd W A) : only deferring c → only any_program c.
Proof. by apply only_weaken. Qed.
#[local] Hint Resolve must_any : commands.

Lemma delete_execute_any a : only any_program (delete (W := W) "delete-execute" a).
Proof.
  apply only_bind; [apply only_lift|]. intros id.
  destruct (negb _); [apply only_stop|]. destruct (_ && _); [apply only_stop|].
  apply only_bind; [apply reads_any, delete_checked_reads|]. intros _. cbn [String.eqb Ascii.eqb Bool.eqb].
  unfold delete_now, reload_firewalld. destruct firewalld_only; [|auto with commands].
  apply only_bind; [apply reads_any, rule_reads|]. intros r. auto 6 with commands.
Qed.

Lemma add_execute_any a : only any_program (add_firewalld (W := W) "add-execute" a).
Proof.
  unfold add_firewalld, reload_firewalld. destruct (validateAdd a); [apply only_stop|].
  destruct (String.eqb _ "limit"); [apply only_stop|]. cbn [String.eqb Ascii.eqb Bool.eqb].
  apply only_bind; [|intros _; auto 6 with commands].
  induction (rich_rule a <$> split "," (argument a 1)); simpl; auto with commands.
Qed.

Lemma known_command command :
  is_Some (find (λ c, String.eqb c.1 command) counts) →
  command ∈ ["info"; "status"; "rules"; "delete-check"] ∨ command ∈ ["add"; "delete"; "enable"; "disable"; "reload"] ∨
  command ∈ ["add-execute"; "delete-execute"].
Proof.
  intros [[c n] [Hin Heq]%find_some]. apply String.eqb_eq in Heq. cbn [fst] in Heq. subst c.
  apply (in_map fst) in Hin. cbn [counts map fst] in Hin. apply list_elem_of_In in Hin. set_solver.
Qed.

Lemma execute_any command a :
  is_Some (find (λ c, String.eqb c.1 command) counts) → only any_program (execute (W := W) defaults command a).
Proof.
  intros [Hc|[Hc|Hc]]%known_command; [by apply reads_any, execute_reads|by apply defers_any, execute_defers|].
  repeat (apply elem_of_cons in Hc as [->|Hc]); [..|by apply not_elem_of_nil in Hc].
  all: unfold execute, executeFirewalld; cbn [String.eqb Ascii.eqb Bool.eqb one_of existsb orb].
  - destruct firewalld_only; [apply add_execute_any|apply only_stop].
  - destruct firewalld_only; apply delete_execute_any.
Qed.

(** ** Refusals *)

Lemma validateAdd_refusal a r : validateAdd a = Some r → refusal r.
Proof. unfold validateAdd. intros Hv. repeat (case_match; simplify_eq/=); by apply refusal_failure. Qed.

Lemma rule_of_refusal id rules code message r : rule_of id rules code message = Err r → refusal r.
Proof. unfold rule_of. destruct (find _ rules); [done|]. intros Hr. injection Hr as <-. by apply refusal_failure. Qed.
#[local] Hint Resolve validateAdd_refusal rule_of_refusal : commands.

Lemma lift_validID_refuses v : refuses (lift (W := W) (validID v)).
Proof.
  apply refuses_lift. unfold validID. intros r. destruct (full _ v); [done|]. intros [= <-]. by apply refusal_failure.
Qed.
Lemma usage_refuses id : refuses (usage (W := W) id).
Proof. walk. Qed.
Lemma or_empty_refuses (c : cmd W string) : refuses (or_empty c).
Proof. intros m r m'. unfold or_empty. destruct (c m) as [[s|e] m1]; done. Qed.
Lemma add_rich_refuses rules : refuses (add_rich (W := W) rules).
Proof. induction rules; simpl; walk. Qed.
#[local] Hint Resolve lift_validID_refuses or_empty_refuses usage_refuses add_rich_refuses : commands.

Lemma schedule_refuses action command arguments : refuses (schedule (W := W) action command arguments).
Proof. walk. Qed.
Lemma executeFirewalld_refuses command a : refuses (executeFirewalld (W := W) command a).
Proof. walk. Qed.
Lemma delete_refuses command a : refuses (delete (W := W) command a).
Proof. walk. Qed.
#[local] Hint Resolve schedule_refuses executeFirewalld_refuses delete_refuses : commands.
Lemma execute_refuses command a : refuses (execute (W := W) defaults command a).
Proof. walk. Qed.

Lemma Handle_inv command a m r m' :
  Handle defaults command a m = (r, m') →
  (m' = m ∧ refusal r) ∨
  ∃ out, is_Some (find (λ c, String.eqb c.1 command) counts) ∧ execute defaults command a m = (out, m') ∧
    ((∃ d, out = Ok d ∧ r = success d) ∨ (out = Err r ∧ refusal r)).
Proof.
  unfold Handle. destruct (String.eqb command ""); [intros [= <- ->]; left; split; [done|by apply refusal_failure]|].
  destruct (find _ counts) as [[c n]|]; [|intros [= <- ->]; left; split; [done|by apply refusal_failure]].
  destruct (negb (_ =? n)%nat); [intros [= <- ->]; left; split; [done|by apply refusal_failure]|].
  destruct (_ && _); [intros [= <- ->]; left; split; [done|by apply refusal_failure]|].
  destruct (execute _ _ _ _) as [out m1] eqn:He. intros Hr. right. exists out.
  destruct out; injection Hr as <- <-; split_and!; eauto. right. split; [done|]. by eapply execute_refuses.
Qed.

Lemma Handle_only P command a m r m' :
  only P (execute (W := W) defaults command a) → Handle defaults command a m = (r, m') →
  ∃ l, ran_since m m' l ∧ Forall (calls P) l.
Proof.
  intros Hp [[-> _]|(out & _ & He & _)]%Handle_inv; [|by apply Hp in He].
  exists []. unfold ran_since. by rewrite app_nil_r.
Qed.

(** The commands info, status, rules and delete-check run programs that print the state
    and no other.  The commands add, delete, enable, disable and reload change nothing
    before they answer: beside those programs they run systemd-run, with its delay of five
    seconds.  Only add-execute and delete-execute may run a program that changes the
    firewall at once. *)
Theorem firewall_effects command a m r m' :
  Handle defaults command a m = (r, m') →
  ∃ l, ran m' = ran m ++ l ∧
    (command ∈ ["info"; "status"; "rules"; "delete-check"] → Forall (calls reading) l) ∧
    (command ∉ ["add-execute"; "delete-execute"] → Forall (calls deferring) l).
Proof.
  intros Hh. destruct (decide (command ∈ ["info"; "status"; "rules"; "delete-check"])) as [Hc|Hc].
  - destruct (Handle_only reading _ _ _ _ _ (execute_reads command a Hc) Hh) as (l & Hl & Hf).
    exists l. split; [done|]. split; [done|]. intros _. eapply Forall_impl; [done|]. by left.
  - destruct (decide (command ∈ ["add"; "delete"; "enable"; "disable"; "reload"])) as [Hd|Hd].
    + destruct (Handle_only deferring _ _ _ _ _ (execute_defers command a Hd) Hh) as (l & Hl & Hf). by exists l.
    + pose proof Hh as [[-> _]|(out & Hs & _)]%Handle_inv; [exists []; by rewrite app_nil_r|].
      destruct (Handle_only any_program _ _ _ _ _ (execute_any command a Hs) Hh) as (l & Hl & _).
      exists l. split; [done|]. split; [done|]. intros Hx. exfalso. apply known_command in Hs. set_solver.
Qed.

Context (quiet : ∀ w name arguments, reading name arguments → (exec w name arguments).1 = w).

Lemma reads_as_run name arguments : reading name arguments → reads_as (run name arguments) (λ w, Ok (prints w name arguments)).
Proof.
  intros Hr m. pose proof (quiet (inside m) name arguments Hr) as Hq. unfold run, prints.
  destruct (exec (inside m) name arguments) as [w o]. simpl in *. subst w.
  exists [(name, arguments, o)]. split; [done|]. by apply Forall_singleton.
Qed.

Lemma reads_as_ext {A} (c : cmd W A) v u : reads_as c v → (∀ w, v w = u w) → reads_as c u.
Proof. intros Hc Hu m. rewrite <- Hu. apply Hc. Qed.

Lemma read_output_now program code message arguments :
  reading program arguments →
  reads_as (read_output program code message arguments) (read_now program code message arguments).
Proof.
  intros Hr. eapply reads_as_ext.
  - apply reads_as_bind; [by apply reads_as_run|]. intros o.
    instantiate (1 := λ o w, if succeeded o then Ok (stdout o) else _).
    simpl. destruct (succeeded o); [apply reads_as_ret|apply reads_as_stop].
  - intros w. unfold read_now. simpl. done.
Qed.

Lemma rule_reads_now id : reads_as (rule id) (rule_now id).
Proof.
  unfold rule. destruct firewalld_only eqn:Hf; eapply reads_as_ext.
  - apply reads_as_bind; [|intros rules; exact (reads_as_lift _)].
    apply reads_as_bind; [apply read_output_now; is_reading|]. intros rich.
    apply reads_as_bind; [apply read_output_now; is_reading|]. intros ports. exact (reads_as_ret _).
  - intros w. unfold rule_now, rules_now. rewrite Hf. done.
  - apply reads_as_bind; [apply read_output_now; is_reading|]. intros o. exact (reads_as_lift _).
  - intros w. unfold rule_now, rules_now. rewrite Hf. by destruct (read_now _ _ _ _ w).
Qed.

Lemma usage_reads_now id : reads_as (usage id) (usage_now id).
Proof.
  eapply reads_as_ext.
  - apply reads_as_bind; [apply rule_reads_now|]. intros r.
    apply reads_as_bind; [apply reads_as_run; is_reading|]. intros o. exact (reads_as_ret _).
  - done.
Qed.

(** ** Deletion *)

Lemma delete_checked_now command id seen confirmation m out m' :
  delete_checked command id seen confirmation m = (out, m') →
  inside m' = inside m ∧ (∃ l, ran m' = ran m ++ l ∧ Forall (calls reading) l) ∧
  (out = Ok () → ∃ r, rule_now id (inside m) = Ok r ∧ fingerprint (line r) = seen ∧
    (confirmation = "yes" ∨ listening_now r (inside m) = [])).
Proof.
  unfold delete_checked, bind. destruct (usage_reads_now id m) as (l & Hu & Hl). rewrite Hu. unfold usage_now.
  intros Hd. split; [|split]; [..|intros ->].
  1, 2: destruct (rule_now id (inside m)); cbn [res_bind] in Hd;
    repeat (match type of Hd with context [if ?b then _ else _] => destruct b end);
    injection Hd as _ <-; simpl; eauto.
  destruct (rule_now id (inside m)) as [r|e]; [|discriminate]. exists r. split; [done|].
  cbn [res_bind u_fingerprint in_use] in Hd.
  destruct (String.eqb_spec (fingerprint (line r)) seen) as [Hs|Hs]; [|discriminate]. split; [done|].
  destruct (String.eqb_spec confirmation "yes") as [->|Hc]; [by left|]. right.
  destruct (Nat.eqb_spec (List.length (listening_now r (inside m))) 0) as [Hn|Hn]; [|discriminate].
  by apply length_zero_iff_nil.
Qed.

(** The call that removes a rule. *)
Definition removal (id_text : string) (r : Rule) : string * list string :=
  if firewalld_only
  then (firewallCMD, ["--permanent"; (if has_prefix (line r) "rule " then "--remove-rich-rule=" else "--remove-port=") +++ line r])
  else (ufw, ["--force"; "delete"; id_text]).

Lemma must_ran program code message arguments m out m' :
  must program code message arguments m = (out, m') → ∃ o, ran m' = ran m ++ [(program, arguments, o)].
Proof.
  unfold must. intros [(r & Hr & _)|(o & m1 & Hr & Hm)]%bind_inv.
  - by apply run_inv in Hr as (? & ? & _).
  - apply run_inv in Hr as (o' & _ & Hm1 & _). exists o'. rewrite Hm1 in Hm.
    destruct (succeeded o); apply (f_equal (ran ∘ snd)) in Hm; symmetry; exact Hm.
Qed.

Lemma delete_now_ran id id_text r m out m' :
  rule_now id (inside m) = Ok r → delete_now id id_text m = (out, m') →
  ∃ l1 o l2, ran m' = ran m ++ l1 ++ (removal id_text r, o) :: l2 ∧
    Forall (calls reading) l1 ∧ (l2 = [] ∨ ∃ o', l2 = [(firewallCMD, ["--reload"], o')]).
Proof.
  intros Hn. unfold delete_now, removal. destruct firewalld_only eqn:Hf.
  - unfold bind at 1. destruct (rule_reads_now id m) as (l1 & Hr & Hl). rewrite Hr, Hn. intros Hm. exists l1.
    apply bind_inv in Hm as [(e & He & _)|(x & m1 & H1 & [(e & He & _)|(y & m2 & H2 & H3)]%bind_inv)].
    + apply must_ran in He as [o He]. cbn [ran] in He. rewrite He, <- app_assoc. eauto 6.
    + apply must_ran in H1 as [o H1], He as [o' He]. cbn [ran] in H1. rewrite He, H1, <- !app_assoc. eauto 8.
    + apply must_ran in H1 as [o H1], H2 as [o' H2]. cbn [ran] in H1. injection H3 as _ <-.
      rewrite H2, H1, <- !app_assoc. eauto 8.
  - intros Hm. assert (∃ o, ran m' = ran m ++ [(ufw, ["--force"; "delete"; id_text], o)]) as [o Ho].
    { apply bind_inv in Hm as [(e & He & _)|(x & m1 & Hx & [= _ <-])]; by eapply must_ran. }
    exists [], o, []. split; [exact Ho|by auto].
Qed.

(** A deletion is refused after readings, or the rule passed the checks and goes. *)
Lemma delete_inv id seen confirmation m out m' :
  delete "delete-execute" [id; seen; confirmation] m = (out, m') →
  (∃ e, out = Err e ∧ ∃ l, ran m' = ran m ++ l ∧ Forall (calls reading) l) ∨
  ∃ m1 x l, ran m1 = ran m ++ l ∧ Forall (calls reading) l ∧ inside m1 = inside m ∧
    rule_now (atoi_val id) (inside m) = Ok x ∧
    (confirmation = "yes" ∨ listening_now x (inside m) = []) ∧ fingerprint (line x) = seen ∧
    delete_now (atoi_val id) id m1 = (out, m').
Proof.
  unfold delete. cbn [argument lookup list_lookup default].
  intros [(e & He & ->)|(n & m1 & Hn & He)]%bind_inv.
  { injection He as _ <-. left. exists e. split; [done|]. exists []. by rewrite app_nil_r. }
  injection Hn as Hn <-.
  assert (n = atoi_val id) as ->.
  { unfold validID in Hn. change (argument [id; seen; confirmation] 0) with id in Hn.
    destruct (full _ id); congruence. }
  assert (∀ r, stop r m = (out, m') → ∃ e, out = Err e ∧ ∃ l, ran m' = ran m ++ l ∧ Forall (calls reading) l) as Hstop.
  { intros r Hr. injection Hr as <- <-. exists r. split; [done|]. exists []. by rewrite app_nil_r. }
  case_match; [left; by eapply Hstop|]. case_match; [left; by eapply Hstop|].
  apply bind_inv in He as [(e & He & ->)|([] & m1 & Hc & He)].
  - apply delete_checked_now in He as (_ & Hl & _). left. eauto.
  - apply delete_checked_now in Hc as (Hi & (l & Hl & Hf) & Hx).
    destruct (Hx eq_refl) as (x & Hr & Hs & Hy). right. exists m1, x, l. split_and!; try done.
Qed.

(** C28: When the programs that print the state do not change it, delete-execute either runs
    such programs only, or it removes one rule: the first one listed with the given number
    at that moment, whose fingerprint is the one the caller saw, and on whose ports nobody
    listens unless the caller confirmed.  What follows is the reload of firewalld at most.
    An accepted deletion is of the second kind. *)
Theorem delete_execute_spec id seen confirmation m r m' :
  Handle defaults "delete-execute" [id; seen; confirmation] m = (r, m') →
  ∃ l, ran m' = ran m ++ l ∧
    (Forall (calls reading) l ∧ refusal r ∨
     ∃ x l1 o l2, l = l1 ++ (removal id x, o) :: l2 ∧ Forall (calls reading) l1 ∧
       (l2 = [] ∨ ∃ o', l2 = [(firewallCMD, ["--reload"], o')]) ∧
       rule_now (atoi_val id) (inside m) = Ok x ∧ fingerprint (line x) = seen ∧
       (confirmation = "yes" ∨ listening_now x (inside m) = [])).
Proof.
  intros [[-> Hr]|(out & _ & He & Hr)]%Handle_inv; [exists []; rewrite app_nil_r; auto|].
  assert (execute defaults "delete-execute" [id; seen; confirmation] m =
          delete "delete-execute" [id; seen; confirmation] m) as Hd.
  { unfold execute, executeFirewalld. by destruct firewalld_only. }
  rewrite Hd in He. clear Hd.
  assert (∀ e m1, out = Err e → m1 = m' → refusal r) as Href by (intros ? ? -> _; by destruct Hr as [(? & ? & _)|[_ ?]]).
  apply delete_inv in He as [(e & -> & l & Hl & Hf)|(m1 & x & l & Hl & Hf & Hi & Hx & Hc & Hs & Hn)].
  { exists l. split; [done|]. left. eauto. }
  apply (delete_now_ran _ _ x) in Hn as (l1 & o & l2 & Hr1 & Hf1 & H2); [|by rewrite Hi].
  exists (l ++ l1 ++ (removal id x, o) :: l2). rewrite Hr1, Hl, app_assoc. split; [by rewrite <- !app_assoc|].
  right. exists x, (l ++ l1), o, l2. rewrite app_assoc. split_and!; try done. by apply Forall_app.
Qed.

(** Every reply of the domain is well formed: an exit code of 0 with data and no error,
    or another exit code with an error and no data. *)
Theorem firewall_reply_ok command a m : Api.reply_ok (Handle defaults command a m).1.
Proof.
  destruct (Handle defaults command a m) as [r m'] eqn:Hh.
  apply Handle_inv in Hh as [[_ [Hr _]]|(out & _ & _ & [(d & _ & ->)|[_ [Hr _]]])]; [done|apply Api.success_ok|done].
Qed.
End firewall.

(** ** Attributes of a rich rule *)

Definition quote : ascii := "034"%char.
Definition unquoted (s : string) : Prop := contains_byte quote s = false.
(** Bytes no attribute starts in: no equals sign, and the last one is not a letter. *)
Fixpoint barren (pre : string) : bool :=
  match pre with
  | EmptyString => true
  | String c EmptyString => negb (Ascii.eqb "=" c) && negb (is_lower c)
  | String c pre' => negb (Ascii.eqb "=" c) && barren pre'
  end.

Lemma barren_cons c pre : barren (String c pre) = true → Ascii.eqb "=" c = false ∧ barren pre = true.
Proof. destruct pre; intros Hb; cbn [barren] in Hb; bool_prop; done. Qed.

Lemma repeat_barren {A} lo pre s (k : string → option A) :
  (∀ c s', Ascii.eqb "=" c = false → k (String c s') = None) → pre ≠ "" → barren pre = true →
  repeat_bytes true is_lower lo None (pre +++ s) k = None.
Proof.
  intros Hk. revert lo. induction pre as [|c pre IH]; intros lo Hne Hb; [done|].
  pose proof (barren_cons _ _ Hb) as [Hc Hb']. cbn [String.append repeat_bytes option_map].
  assert ((if is_lower c then repeat_bytes true is_lower (pred lo) None (pre +++ s) k else None) = None) as ->.
  { destruct (is_lower c) eqn:Hl; [|done]. apply IH; [|done]. intros ->. cbn [barren] in Hb. rewrite Hl in Hb. by bool_prop. }
  destruct lo; [by apply Hk|done].
Qed.

Lemma repeat_through {A} p lo w c s (k : string → option A) x :
  sforall p w = true → p c = false → (lo ≤ String.length w)%nat → k (String c s) = Some x →
  repeat_bytes true p lo None (w +++ String c s) k = Some x.
Proof.
  intros Hw Hc Hlo Hk. revert lo Hlo Hw. induction w as [|d w IH]; intros lo Hlo Hw.
  - cbn [String.append repeat_bytes option_map]. rewrite Hc. destruct lo; [done|simpl in Hlo; lia].
  - cbn [sforall] in Hw. bool_prop. cbn [String.append repeat_bytes option_map].
    rewrite H, IH by (simpl in *; try lia; done). done.
Qed.

Lemma stake_head s t : stake (String.length (s +++ t) - String.length t) (s +++ t) = s.
Proof. rewrite sapp_length, Nat.add_sub. apply stake_app. Qed.

Lemma attribute_here name v rest :
  name ≠ "" → sforall is_lower name = true → v ≠ "" → unquoted v →
  bt attribute_pattern (name +++ String "=" (String quote (v +++ String quote rest))) [] (λ s' g, Some (g, s'))
    = Some ([(2%nat, v); (1%nat, name)], rest).
Proof.
  intros Hn Hl Hv Hq. unfold attribute_pattern. cbn [bt some_bytes word].
  assert (∀ w, w ≠ "" → (1 ≤ String.length w)%nat) as Hlen by (intros [|]; simpl; [done|lia]).
  apply repeat_through; [done|done|by apply Hlen|]. cbv beta. cbn [Ascii.eqb Bool.eqb quote].
  apply repeat_through; [by apply contains_byte_sforall in Hq|done|by apply Hlen|]. cbv beta. cbn [Ascii.eqb Bool.eqb].
  by rewrite !stake_head.
Qed.

Lemma attribute_found pre name v rest :
  barren pre = true → name ≠ "" → sforall is_lower name = true → v ≠ "" → unquoted v →
  find_around attribute_pattern (pre +++ name +++ String "=" (String quote (v +++ String quote rest)))
    = Some (pre, [(2%nat, v); (1%nat, name)], rest).
Proof.
  intros Hb Hn Hl Hv Hq. induction pre as [|c pre IH].
  - cbn [String.append]. pose proof (attribute_here name v rest Hn Hl Hv Hq) as Hh.
    destruct name as [|d name]; [done|]. cbn [String.append find_around] in *. by rewrite Hh.
  - pose proof (barren_cons _ _ Hb) as [Hc Hb']. specialize (IH Hb'). cbn [String.append find_around].
    rewrite IH. change (String c (?x +++ ?y)) with (String c x +++ y).
    assert (bt attribute_pattern (String c pre +++ name +++ String "=" (String quote (v +++ String quote rest))) []
      (λ s' g, Some (g, s')) = None) as ->; [|done].
    unfold attribute_pattern. cbn [bt some_bytes word]. apply repeat_barren; [|done|done].
    intros d s' Hd. by rewrite Hd.
Qed.

Lemma attributes_step fuel pre name v rest :
  barren pre = true → name ≠ "" → sforall is_lower name = true → v ≠ "" → unquoted v →
  attributes_from (S fuel) (pre +++ name +++ String "=" (String quote (v +++ String quote rest)))
    = (name, v) :: attributes_from fuel rest.
Proof. intros. cbn [attributes_from]. rewrite attribute_found by done. done. Qed.

(** ** Validated ports *)

Definition port_byte (c : ascii) : bool := is_digit c || Ascii.eqb c "+".
Lemma atoi_port s n : (atoi_full s).1 = n → 1 ≤ n ≤ 65535 → sforall port_byte s = true.
Proof.
  unfold atoi_full, split_sign. destruct s as [|c s]; [simpl; lia|].
  destruct (Ascii.eqb_spec c "-") as [->|Hc].
  - destruct (digits_only s) eqn:Hd; [|simpl; lia].
    assert (0 ≤ digits_value 0 s) by (apply digits_value_nonneg; [lia|by unfold digits_only in Hd; bool_prop]).
    destruct (_ <=? 2 ^ 63); simpl; unfold int_min; lia.
  - destruct (Ascii.eqb_spec c "+") as [->|Hp].
    + destruct (digits_only s) eqn:Hd; [|simpl; lia]. unfold digits_only in Hd. bool_prop. intros _ _.
      cbn [sforall]. apply andb_true_intro. split; [done|].
      eapply sforall_impl; [|done]. unfold port_byte. intros d ->. done.
    + destruct (digits_only (String c s)) eqn:Hd; [|simpl; lia]. unfold digits_only in Hd. bool_prop. intros _ _.
      eapply sforall_impl; [|done]. unfold port_byte. intros d ->. done.
Qed.

Definition port_text_byte (c : ascii) : bool := port_byte c || Ascii.eqb c ":".
Lemma port_item_text p : port_item p = true → trim_space p ≠ "" ∧ sforall port_text_byte (trim_space p) = true.
Proof.
  assert (∀ s, sforall port_byte s = true → sforall port_text_byte s = true) as Hw.
  { intros s. apply sforall_impl. unfold port_text_byte. intros c ->. done. }
  unfold port_item. pose proof (join_split ":" (trim_space p)) as Hj.
  destruct (split ":" (trim_space p)) as [|x [|y [|]]]; try done; cbn [join] in Hj; rewrite <- Hj.
  - destruct (atoi_full x) as [n [|]] eqn:Ha; [done|]. intros Hr. bool_prop. split.
    + intros ->. vm_compute in Ha. congruence.
    + apply Hw, (atoi_port _ n); [by rewrite Ha|lia].
  - destruct (atoi_full x) as [n o] eqn:Ha. destruct (atoi_full y) as [k [|]] eqn:Hk; [done|]. cbn [fst].
    intros Hr. bool_prop. split; [by destruct x|].
    rewrite sforall_app. cbn [String.append sforall]. rewrite !andb_true_intro; split_and?; try done.
    + apply Hw, (atoi_port _ n); [by rewrite Ha|lia].
    + apply Hw, (atoi_port _ k); [by rewrite Hk|lia].
Qed.

Lemma replace_back s : sforall port_text_byte s = true → replace_byte "-" ":" (replace_byte ":" "-" s) = s.
Proof.
  induction s as [|c s IH]; [done|]. cbn [sforall]. intros [Hc Hs]%andb_prop. cbn [replace_byte smap].
  f_equal; [|by apply IH]. destruct (Ascii.eqb_spec c ":") as [->|Hn]; [done|].
  destruct (Ascii.eqb_spec c "-") as [->|]; [done|done].
Qed.

Lemma dashed_unquoted s : s ≠ "" → sforall port_text_byte s = true → replace_byte ":" "-" s ≠ "" ∧ unquoted (replace_byte ":" "-" s).
Proof.
  intros Hs Ht. split; [by destruct s|]. unfold unquoted. apply contains_byte_sforall. unfold replace_byte. rewrite sforall_smap.
  eapply sforall_impl; [|exact Ht]. intros c Hc. destruct (Ascii.eqb_spec c ":") as [->|]; [done|].
  destruct (Ascii.eqb_spec quote c) as [<-|]; [vm_compute in Hc; discriminate|done].
Qed.

(** A suffix is decided by the last bytes alone. *)
Lemma suffix_end s x y w : String.length x = String.length y → String.eqb x y = false → has_suffix (s +++ x) (w +++ y) = false.
Proof.
  intros Hl Hxy. apply not_true_is_false. intros [u Hu]%has_suffix_spec.
  assert (has_suffix (s +++ x) y = true) as Hs. { apply has_suffix_spec. exists (u +++ w). by rewrite sapp_assoc. }
  unfold has_suffix in Hs. rewrite sapp_length, Hl, Nat.add_sub, sdrop_app in Hs. apply andb_prop in Hs as [_ Hs]. congruence.
Qed.

(** The parts of a rich rule: family, optional source, port, protocol, verdict. *)
Definition rich (family source port protocol verdict : string) : string :=
  "rule family=" +++ quoted family +++
  (if String.eqb source "any" then "" else " source address=" +++ quoted source) +++
  " port port=" +++ quoted port +++ " protocol=" +++ quoted protocol +++ " " +++ verdict.

Lemma quoted_app s t : quoted s +++ t = String quote (s +++ String quote t).
Proof. unfold quoted. cbn [String.append]. by rewrite sapp_assoc. Qed.

Lemma rich_attributes family source port protocol verdict fuel :
  family ∈ ["ipv4"; "ipv6"] → source ≠ "" → unquoted source → port ≠ "" → unquoted port →
  protocol ∈ ["tcp"; "udp"] → verdict ∈ ["accept"; "drop"; "reject"] →
  attributes_from (4 + fuel) (rich family source port protocol verdict) =
    ("family", family) :: (if String.eqb source "any" then [] else [("address", source)]) ++
    [("port", port); ("protocol", protocol)].
Proof.
  intros Hf Hs Hsq Hp Hpq Hpr Hv. unfold rich. cbn [Nat.add].
  assert (∀ n, attributes_from n (" " +++ verdict) = []) as Hend.
  { intros [|n]; [done|]. cbn [attributes_from].
    repeat (apply elem_of_cons in Hv as [->|Hv]; [reflexivity|]). by apply not_elem_of_nil in Hv. }
  assert (family ≠ "" ∧ unquoted family) as [??].
  { repeat (apply elem_of_cons in Hf as [->|Hf]; [done|]). by apply not_elem_of_nil in Hf. }
  assert (protocol ≠ "" ∧ unquoted protocol) as [??].
  { repeat (apply elem_of_cons in Hpr as [->|Hpr]; [done|]). by apply not_elem_of_nil in Hpr. }
  rewrite !quoted_app.
  etransitivity; [apply (attributes_step _ "rule " "family" family); done|]. f_equal.
  destruct (String.eqb source "any").
  - etransitivity; [apply (attributes_step _ " port " "port" port); done|]. cbn [app]. f_equal.
    etransitivity; [apply (attributes_step _ " " "protocol" protocol); done|]. by rewrite Hend.
  - rewrite !sapp_assoc, !quoted_app. etransitivity; [apply (attributes_step _ " source " "address" source); done|]. cbn [app]. f_equal.
    etransitivity; [apply (attributes_step _ " port " "port" port); done|]. f_equal.
    etransitivity; [apply (attributes_step _ " " "protocol" protocol); done|]. by rewrite Hend.
Qed.

Lemma rich_verdict family source port protocol verdict :
  verdict ∈ ["accept"; "drop"; "reject"] →
  let l := rich family source port protocol verdict in
  (if has_suffix l " accept" then Some "allow"
   else if has_suffix l " drop" then Some "deny"
   else if has_suffix l " reject" then Some "reject" else None) =
  Some (if String.eqb verdict "accept" then "allow" else if String.eqb verdict "drop" then "deny" else "reject").
Proof.
  intros Hv l.
  assert (∃ b, l = b +++ String " " verdict) as [b Hl].
  { exists ("rule family=" +++ quoted family +++ (if String.eqb source "any" then "" else " source address=" +++ quoted source) +++
      " port port=" +++ quoted port +++ " protocol=" +++ quoted protocol).
    unfold l, rich. by rewrite !sapp_assoc. }
  rewrite Hl. repeat (apply elem_of_cons in Hv as [->|Hv]); [..|by apply not_elem_of_nil in Hv].
  - by rewrite has_suffix_app.
  - assert (has_suffix (b +++ " drop") " accept" = false) as ->.
    { change " drop" with (" " +++ "drop"). rewrite <- sapp_assoc. by apply (suffix_end (b +++ " ") "drop" "cept" " ac"). }
    by rewrite has_suffix_app.
  - assert (has_suffix (b +++ " reject") " accept" = false) as -> by by apply (suffix_end b " reject" " accept" "").
    assert (has_suffix (b +++ " reject") " drop" = false) as ->.
    { change " reject" with (" r" +++ "eject"). rewrite <- sapp_assoc. by apply (suffix_end (b +++ " r") "eject" " drop" ""). }
    by rewrite has_suffix_app.
Qed.

Lemma validateAdd_parts `{NetIP} a :
  validateAdd a = None →
  argument a 0 ∈ ["allow"; "deny"; "reject"; "limit"] ∧ argument a 2 ∈ ["tcp"; "udp"] ∧
  Forall (λ p, port_item p = true) (split "," (argument a 1)) ∧
  (argument a 3 = "any" ∨ is_Some (ParsePrefix (argument a 3)) ∨ is_Some (ParseAddr (argument a 3))).
Proof.
  unfold validateAdd. destruct (existsb _ ["allow"; _; _; _]) eqn:Ha; [|done]. cbn [negb].
  destruct (existsb _ ["tcp"; _]) eqn:Hp; [|done]. cbn [negb].
  destruct (forallb _ _) eqn:Hf; [|done]. cbn [negb]. intros Hs.
  apply existsb_eqb_elem in Ha, Hp. split_and!; [done|done| |].
  - apply Forall_forall. intros p Hin. apply list_elem_of_In in Hin. by apply (proj1 (forallb_forall _ _) Hf).
  - destruct (String.eqb_spec (argument a 3) "any") as [->|Hn]; [by left|]. right.
    destruct (ParsePrefix (argument a 3)); [by left; eexists|]. destruct (ParseAddr _); [right; by eexists|done].
Qed.

(** C29: A rule the validation accepts, whose source is given and holds no quote, becomes one
    rich rule per port, and reading that rich rule back gives the action, the protocol, the
    port, the source and the family that were asked for.  The action is not [limit], which the
    program refuses to firewalld before it makes a rich rule. *)
Theorem rich_rule_read_back `{NetIP} a p :
  validateAdd a = None → argument a 0 ≠ "limit" → p ∈ split "," (argument a 1) →
  argument a 3 ≠ "" → unquoted (argument a 3) →
  parseFirewalldRule (rich_rule a p) =
    Some (mkRule 0 (argument a 0) "in" (argument a 2) [trim_space p] (argument a 3) "any"
            (if negb (String.eqb (argument a 3) "any") && is_six (argument a 3) then "ipv6" else "ipv4") "").
Proof.
  intros Hv Hlim Hp Hs Hq. destruct (validateAdd_parts a Hv) as (Ha & Hpr & Hports & Hsix).
  pose proof (proj1 (Forall_forall _ _) Hports p Hp) as [Hpe Hpt]%port_item_text.
  set (port := replace_byte ":" "-" (trim_space p)).
  assert (port ≠ "" ∧ unquoted port) as [Hne Hun].
  { apply dashed_unquoted; done. }
  set (family := if negb (String.eqb (argument a 3) "any") && is_six (argument a 3) then "ipv6" else "ipv4").
  set (verdict := if String.eqb (argument a 0) "allow" then "accept" else if String.eqb (argument a 0) "deny" then "drop" else "reject").
  change (rich_rule a p) with (rich family (argument a 3) port (argument a 2) verdict).
  assert (verdict ∈ ["accept"; "drop"; "reject"]) as Hve by (unfold verdict; repeat case_match; set_solver).
  assert (family ∈ ["ipv4"; "ipv6"]) as Hfa by (unfold family; repeat case_match; set_solver).
  unfold parseFirewalldRule.
  replace (has_prefix (rich family (argument a 3) port (argument a 2) verdict) "rule ") with true by reflexivity.
  cbn [negb].
  assert (∃ n, String.length (rich family (argument a 3) port (argument a 2) verdict) = (4 + n)%nat) as [n ->] by by eexists.
  rewrite rich_attributes by done. rewrite (rich_verdict family (argument a 3) port (argument a 2) verdict Hve).
  assert ((if String.eqb verdict "accept" then "allow" else if String.eqb verdict "drop" then "deny" else "reject") = argument a 0) as ->.
  { unfold verdict. clear -Ha Hlim. set_unfold. destruct Ha as [->|[->|[->|[?|[]]]]]; done. }
  assert ((if String.eqb (argument a 2) "tcp" || String.eqb (argument a 2) "udp" then argument a 2 else "any") = argument a 2) as Hpre.
  { clear -Hpr. set_unfold. destruct Hpr as [->|[->|[]]]; done. }
  apply String.eqb_neq in Hne.
  destruct (String.eqb_spec (argument a 3) "any") as [Hany|Hany]; cbn [app]; unfold attribute;
    cbn [rev app find String.eqb Ascii.eqb Bool.eqb fst]; rewrite Hpre, Hne; unfold port; rewrite replace_back by done.
  - by rewrite Hany.
  - apply String.eqb_neq in Hs. rewrite Hs. do 2 f_equal. unfold family, is_six. cbn [negb andb].
    destruct (ParsePrefix (argument a 3)) as [[]|]; destruct (ParseAddr (argument a 3)) as [[]|]; done.
Qed.


(** ** A host with one rule, for concrete runs *)

Module Toy.
Definition rule_line : string := "[ 1] 22/tcp                    ALLOW IN    Anywhere".
Definition socket_line : string := "tcp LISTEN 0 128 0.0.0.0:22 0.0.0.0:*".
(** Whether the rule is there. *)
#[global] Instance ufw_host : Programs bool := {|
  exec w name arguments :=
    if bool_decide ((name, arguments) = (ufw, ["status"; "numbered"])) then (w, mkOutcome (if (w : bool) then rule_line else "") "" 0)
    else if bool_decide ((name, arguments) = (ss, ["-H"; "-lntup"])) then (w, mkOutcome socket_line "" 0)
    else if bool_decide ((name, arguments) = (ufw, ["--force"; "delete"; "1"])) then (false, mkOutcome "" "" 0)
    else (w, mkOutcome "" "" 0);
  executable p := String.eqb p ufw |}.
#[global] Instance addresses : NetIP := {|
  ParsePrefix s := if String.eqb s "192.0.2.0/24" then Some false else None;
  ParseAddr s := if String.eqb s "2001:db8::1" then Some true else None |}.
#[global] Instance case : UnicodeCase := ascii_case.

Lemma ufw_quiet w name arguments : reading name arguments → (exec w name arguments).1 = w.
Proof.
  intros Hr. unfold exec, ufw_host. do 2 (case_bool_decide; [done|]). case_bool_decide as Hd; [|done].
  exfalso. unfold reading in Hr. rewrite Hd in Hr. revert Hr.
  apply (bool_decide_eq_false_1 ((ufw, ["--force"; "delete"; "1"]) ∈ readings)). vm_compute. reflexivity.
Qed.

Definition seen : string := fingerprint rule_line.
Definition start : Machine bool := mkMachine true [].
End Toy.

Example confirmed_deletion :
  (λ x, (x.1, fst <$> ran x.2)) (Handle None "delete-execute" ["1"; Toy.seen; "yes"] Toy.start) =
    (success [("action", VStr "delete"); ("backend", VStr "ufw"); ("result", VStr "completed"); ("rule_id", VInt 1)],
     [(ufw, ["status"; "numbered"]); (ss, ["-H"; "-lntup"]); (ufw, ["--force"; "delete"; "1"])]).
Proof. vm_compute. reflexivity. Qed.
Example unconfirmed_deletion :
  Api.reply_code (Handle None "delete-execute" ["1"; Toy.seen; "no"] Toy.start).1 = "UFW_RULE_IN_USE".
Proof. vm_compute. reflexivity. Qed.

Lemma delete_execute_spec_witness :
  ∃ x, rule_now 1 true = Ok x ∧ fingerprint (line x) = Toy.seen ∧
    inside (Handle None "delete-execute" ["1"; Toy.seen; "yes"] Toy.start).2 = false ∧
    ∃ l, ran (Handle None "delete-execute" ["1"; Toy.seen; "yes"] Toy.start).2 = l.
Proof.
  destruct (Handle None "delete-execute" ["1"; Toy.seen; "yes"] Toy.start) as [r m'] eqn:Hh.
  destruct (delete_execute_spec None Toy.ufw_quiet "1" Toy.seen "yes" Toy.start r m' Hh)
    as (l & Hl & [[_ [_ Hr]]|(x & l1 & o & l2 & _ & _ & _ & Hx & Hs & _)]).
  - exfalso. revert Hr. assert (r = (Handle None "delete-execute" ["1"; Toy.seen; "yes"] Toy.start).1) as -> by by rewrite Hh.
    vm_compute. discriminate.
  - exists x. split_and!; [exact Hx|exact Hs| |by eexists].
    change (inside (r, m').2 = false). rewrite <- Hh. vm_compute. reflexivity.
Defined.
Lemma firewall_effects_witness :
  ∃ l, ran (Handle None "delete-check" ["1"] Toy.start).2 = l ∧ Forall (calls reading) l ∧ l ≠ [].
Proof.
  destruct (Handle None "delete-check" ["1"] Toy.start) as [r m'] eqn:Hh.
  destruct (firewall_effects None "delete-check" ["1"] Toy.start r m' Hh) as (l & Hl & Hr & _).
  exists l. split; [exact Hl|]. split; [apply Hr; set_solver|]. intros ->.
  assert (ran (Handle None "delete-check" ["1"] Toy.start).2 = []) as Hn by (rewrite Hh; exact Hl).
  vm_compute in Hn. discriminate.
Defined.

Definition asked : list string := ["deny"; "22, 8000:8010"; "tcp"; "192.0.2.0/24"].
Lemma rich_rule_read_back_witness :
  validateAdd asked = None ∧
  parseFirewalldRule (rich_rule asked " 8000:8010") =
    Some (mkRule 0 "deny" "in" "tcp" ["8000:8010"] "192.0.2.0/24" "any" "ipv4" "").
Proof.
  split; [reflexivity|].
  rewrite (rich_rule_read_back asked " 8000:8010"); [reflexivity|reflexivity|discriminate| |discriminate|reflexivity].
  apply (bool_decide_eq_true_1 (" 8000:8010" ∈ split "," (argument asked 1))). reflexivity.
Defined.

(** The ports firewalld opens are printed on one line, separated by spaces: from two ports
    on, the line is read as one rule, refused, and the listing holds none of them. *)
Lemma open_ports_missed :
  List.length (firewalld_list "" "80/tcp") = 1%nat ∧ firewalld_list "" "80/tcp 443/tcp" = [].
Proof. vm_compute. done. Qed.

Example test_rules :
  (λ r, (Ports r, Family r, Direction r)) <$>
    parseRules (join snl ["[ 1] 22/tcp                    ALLOW IN    Anywhere";
                          "[ 2] 53/udp (v6)              DENY OUT    Anywhere (v6)"])
  = [(["22"], "ipv4", "in"); (["53"], "ipv6", "out")].
Proof. vm_compute. reflexivity. Qed.
