(* ===== verification/JsonPretty.v ===== *)
(** * Indented JSON: [json.MarshalIndent] read back and compacted

    The indented text of a value is read as its compact text is, and [json.Compact] turns
    one into the other. *)

From S2P Require Import Prelude GoStrings StringFacts Codec Json JsonParse JsonMore.
From Stdlib Require Import Ascii String.
#[local] Open Scope string_scope.
#[local] Open Scope list_scope.
#[local] Open Scope Z_scope.

(** ** Reading *)

Lemma skip_spaces g s : sforall json_space g = true → skip_space (g +++ s) = skip_space s.
Proof. induction g as [|c g IH]; [done|]. cbn [sforall]. intros [Hc Hg]%andb_prop. rewrite sapp_cons. cbn [skip_space]. rewrite Hc. auto. Qed.
Lemma indent_spaces n : sforall json_space (indent n) = true.
Proof. induction n as [|n IH]; [done|]. cbn [indent]. by rewrite sforall_app, IH. Qed.
Lemma skip_newline n s : skip_space (snl +++ indent n +++ s) = skip_space s.
Proof. rewrite (skip_spaces snl) by done. apply skip_spaces, indent_spaces. Qed.
(** What a value is written as, when it is not one of its own lines. *)
Lemma pretty_flat n v : (∀ x l, v ≠ JArr (x :: l)) → (∀ x l, v ≠ JObj (x :: l)) → json_pretty n v = json_text v.
Proof. destruct v as [| | | |[|x l]|[|x m]]; intros H1 H2; try done; [by destruct (H1 x l)|by destruct (H2 x m)]. Qed.
Lemma pretty_head n v t d : json_ok d v = true → ∃ c s, json_pretty n v +++ t = String c s ∧ value_head c = true.
Proof.
  intros Hv. destruct v as [| | | |[|x l]|[|x m]]; try (rewrite pretty_flat by done; by eapply value_head_text);
    cbn [json_pretty]; rewrite ?sapp_assoc; by eexists _, _.
Qed.
Lemma skip_pretty n v t d : json_ok d v = true → skip_space (json_pretty n v +++ t) = json_pretty n v +++ t.
Proof.
  intros Hv. destruct (pretty_head n v t d Hv) as (c & s & -> & Hc). apply skip_space_graphic. by apply value_head_space.
Qed.

Definition reads_pretty (d : nat) (x : json) : Prop :=
  ∀ n fuel t, (cost x ≤ fuel)%nat → boundary t = true → value fuel d (json_pretty n x +++ t) = Some (to_json x, t).
Definition pretty_element (n : nat) (x : json) : string := indent n +++ json_pretty n x.
Definition pretty_member (n : nat) (kv : string * json) : string := indent n +++ json_quote kv.1 +++ ": " +++ json_pretty n kv.2.
Definition comma_nl : string := "," +++ snl.

Lemma pretty_array n x l : json_pretty n (JArr (x :: l)) =
  "[" +++ snl +++ join comma_nl (map (pretty_element (S n)) (x :: l)) +++ snl +++ indent n +++ "]".
Proof. done. Qed.
Lemma pretty_object n x m : json_pretty n (JObj (x :: m)) =
  "{" +++ snl +++ join comma_nl (map (pretty_member (S n)) (x :: m)) +++ snl +++ indent n +++ "}".
Proof. done. Qed.
Lemma comma_nl_app s : comma_nl +++ s = String "," (snl +++ s).
Proof. done. Qed.
Lemma skip_comma s : skip_space (String "," s) = String "," s.
Proof. done. Qed.
Lemma elements_pretty fuel d n k l t :
  Forall (reads_pretty d) l → forallb (λ x, json_ok d x) l = true → l ≠ [] →
  (fold_right (λ x n, S (cost x + n)) O l ≤ fuel)%nat →
  elements fuel d (skip_space (join comma_nl (map (pretty_element n) l) +++ snl +++ indent k +++ String "]" t)) = Some (map to_json l, t).
Proof.
  revert fuel. induction l as [|x l IH]; intros fuel Hx Hv Hne Hf; [done|].
  apply Forall_cons in Hx as [Hx Hxl]. cbn [fold_right] in Hf. destruct fuel as [|fuel]; [lia|].
  cbn [forallb] in Hv. apply andb_prop in Hv as [Hvx Hvl]. cbn [map].
  assert (∀ s, boundary s = true → elements (S fuel) d (skip_space (pretty_element n x +++ s)) =
    match skip_space s with
    | String "," r => match elements fuel d (skip_space r) with Some (l, r) => Some (to_json x :: l, r) | None => None end
    | String "]" r => Some ([to_json x], r)
    | _ => None end) as Hstep.
  { intros s Hs. unfold pretty_element. rewrite sapp_assoc, skip_spaces by apply indent_spaces.
    rewrite (skip_pretty n x s d Hvx). cbn [elements]. by rewrite Hx by (done || lia). }
  destruct l as [|y l].
  - cbn [map join]. rewrite Hstep by done. by rewrite skip_newline.
  - rewrite join_cons_ne by done. rewrite !sapp_assoc, Hstep by done. rewrite comma_nl_app, skip_comma.
    rewrite (skip_spaces snl) by done. by rewrite IH by (done || lia).
Qed.
Lemma members_pretty fuel d n k m t :
  Forall (λ kv, reads_pretty d kv.2) m → forallb (λ kv, json_ok d kv.2) m = true → m ≠ [] →
  (fold_right (λ kv n, S (cost kv.2 + n)) O m ≤ fuel)%nat →
  members fuel d (skip_space (join comma_nl (map (pretty_member n) m) +++ snl +++ indent k +++ String "}" t))
    = Some (map (λ kv, (to_text kv.1, to_json kv.2)) m, t).
Proof.
  revert fuel. induction m as [|[key x] m IH]; intros fuel Hx Hv Hne Hf; [done|].
  apply Forall_cons in Hx as [Hx Hxl]. cbn [fold_right fst snd] in *. destruct fuel as [|fuel]; [lia|].
  cbn [forallb fst snd] in Hv. apply andb_prop in Hv as [Hvx Hvl]. cbn [map fst snd].
  assert (∀ s, boundary s = true → members (S fuel) d (skip_space (pretty_member n (key, x) +++ s)) =
    match skip_space s with
    | String "," r => match members fuel d (skip_space r) with Some (m, r) => Some ((to_text key, to_json x) :: m, r) | None => None end
    | String "}" r => Some ([(to_text key, to_json x)], r)
    | _ => None end) as Hstep.
  { intros s Hs. unfold pretty_member. cbn [fst snd]. rewrite !sapp_assoc, skip_spaces by apply indent_spaces.
    rewrite json_quote_app, skip_space_graphic by done. cbn [members Ascii.eqb Bool.eqb quote_char].
    rewrite unquote_quoted. change (": " +++ ?z) with (String ":" (" " +++ z)).
    change (skip_space (String ":" ?z)) with (String ":" z). cbv beta iota. rewrite (skip_spaces " ") by done.
    rewrite (skip_pretty n x s d Hvx). by rewrite Hx by (done || lia). }
  destruct m as [|y m].
  - cbn [map join]. rewrite Hstep by done. by rewrite skip_newline.
  - rewrite join_cons_ne by done. rewrite !sapp_assoc, Hstep by done. rewrite comma_nl_app, skip_comma.
    rewrite (skip_spaces snl) by done. by rewrite IH by (done || lia).
Qed.
Lemma pretty_text v : ∀ d, json_ok d v = true → reads_pretty d v.
Proof.
  induction v as [| | | |l IH|m IH] using json_ind'; intros d Hv n fuel t Hf Ht; try (rewrite pretty_flat by done; by apply value_text).
  - destruct l as [|x l]; [by apply (value_text (JArr []))|]. cbn [json_ok] in Hv. destruct d as [|d]; [done|]. cbn [cost] in Hf.
    destruct fuel as [|fuel]; [lia|]. rewrite pretty_array.
    rewrite !sapp_assoc. change ("[" +++ ?s) with (String "[" s). cbn [value Ascii.eqb Bool.eqb quote_char].
    rewrite (skip_spaces snl) by done. change ("]" +++ t) with (String "]" t).
    pose proof (elements_pretty fuel d (S n) n (x :: l) t) as He.
    assert (∃ c s, skip_space (join comma_nl (map (pretty_element (S n)) (x :: l)) +++ snl +++ indent n +++ String "]" t) = String c s ∧
      value_head c = true) as (c & s & Hs & Hc).
    { cbn [map]. destruct (join_head comma_nl (pretty_element (S n) x) (map (pretty_element (S n)) l)) as [z ->].
      unfold pretty_element at 1. rewrite !sapp_assoc, skip_spaces by apply indent_spaces.
      cbn [forallb] in Hv. apply andb_prop in Hv as [Hvx _]. rewrite (skip_pretty _ _ _ d Hvx). by apply (pretty_head _ _ _ d). }
    rewrite Hs in He |- *.
    assert (match String c s with String "]" r => Some (JArr [], r)
      | r => match elements fuel d r with Some (l, r) => Some (JArr l, r) | None => None end end
      = match elements fuel d (String c s) with Some (l, r) => Some (JArr l, r) | None => None end) as ->.
    { destruct c as [[] [] [] [] [] [] [] []]; try reflexivity. done. }
    rewrite He; [done| |done|done|lia]. apply (Forall_checked _ (λ x, json_ok d x)); [|done].
    eapply Forall_impl; [exact IH|]. intros y Hy. apply Hy.
  - destruct m as [|[k x] m]; [by apply (value_text (JObj []))|]. cbn [json_ok] in Hv. destruct d as [|d]; [done|]. cbn [cost] in Hf.
    destruct fuel as [|fuel]; [lia|]. rewrite pretty_object.
    rewrite !sapp_assoc. change ("{" +++ ?s) with (String "{" s). cbn [value Ascii.eqb Bool.eqb quote_char].
    rewrite (skip_spaces snl) by done. change ("}" +++ t) with (String "}" t).
    pose proof (members_pretty fuel d (S n) n ((k, x) :: m) t) as He.
    assert (∃ s, skip_space (join comma_nl (map (pretty_member (S n)) ((k, x) :: m)) +++ snl +++ indent n +++ String "}" t) = String quote_char s)
      as (s & Hs).
    { cbn [map]. destruct (join_head comma_nl (pretty_member (S n) (k, x)) (map (pretty_member (S n)) m)) as [z ->].
      unfold pretty_member at 1. cbn [fst snd]. rewrite !sapp_assoc, skip_spaces by apply indent_spaces.
      rewrite json_quote_app, skip_space_graphic by done. by eexists. }
    rewrite Hs in He |- *. unfold quote_char in He |- *. cbv beta iota.
    rewrite He; [done| |done|done|lia]. apply (Forall_checked _ (λ kv, json_ok d kv.2)); [|done].
    eapply Forall_impl; [exact IH|]. intros y Hy. apply Hy.
Qed.

(** ** Compacting *)

(** A text that, met inside a string, leaves [json.Compact] inside it. *)
Definition inert (u : string) : Prop := ∀ s, compact_from true false (u +++ s) = u +++ compact_from true false s.
Lemma inert_empty : inert "".
Proof. done. Qed.
Lemma inert_cat u v : inert u → inert v → inert (u +++ v).
Proof. intros Hu Hv s. by rewrite !sapp_assoc, Hu, Hv. Qed.
Lemma inert_byte c : c ≠ quote_char → c ≠ backslash → inert (String c "").
Proof.
  intros H1 H2 s. cbn [String.append compact_from]. rewrite (proj2 (Ascii.eqb_neq c backslash) H2).
  by rewrite (proj2 (Ascii.eqb_neq c quote_char) H1).
Qed.
Lemma inert_json_byte c : inert (json_byte c).
Proof. destruct c as [[] [] [] [] [] [] [] []]; intros s; vm_compute (json_byte _); reflexivity. Qed.
Lemma high_byte c : 128 <= byte c → c ≠ quote_char ∧ c ≠ backslash.
Proof. intros Hc. split; intros ->; vm_compute in Hc; done. Qed.
Definition high (c : ascii) : bool := 128 <=? byte c.
Lemma cont_high lo hi c : 128 <= lo → is_cont lo hi c = true → high c = true.
Proof. unfold is_cont, high. intros Hl [H1%Z.leb_le _]%andb_prop. apply Z.leb_le. lia. Qed.
Lemma cont_high_full c : is_cont 128 191 c = true → high c = true.
Proof. by apply cont_high. Qed.
Lemma rune_tail_high a s k : rune_width (String a s) = S k → sforall high (stake k s) = true.
Proof.
  cbn [rune_width]. destruct (byte a <? 128); [by intros [= <-]|]. destruct s as [|b s]; [done|].
  destruct (_ && _).
  { destruct (is_cont 128 191 b) eqn:Hb; [|done]. intros [= <-]. cbn. by rewrite (cont_high_full _ Hb). }
  destruct s as [|c s]; [done|].
  assert (∀ lo hi, 128 <= lo → (if is_cont lo hi b && is_cont 128 191 c then 3%nat else 0%nat) = S k →
    sforall high (stake k (String b (String c s))) = true) as H3.
  { intros lo hi Hl. destruct (_ && _) eqn:E; [|done]. apply andb_prop in E as [Hb Hc]. intros [= <-]. cbn.
    by rewrite (cont_high _ _ _ Hl Hb), (cont_high_full _ Hc). }
  destruct (byte a =? 224); [by apply H3|]. destruct (byte a =? 237); [by apply H3|]. destruct (_ && _); [by apply H3|].
  destruct s as [|d s]; [done|].
  assert (∀ lo hi, 128 <= lo → (if is_cont lo hi b && (is_cont 128 191 c && is_cont 128 191 d) then 4%nat else 0%nat) = S k →
    sforall high (stake k (String b (String c (String d s)))) = true) as H4.
  { intros lo hi Hl. destruct (_ && _) eqn:E; [|done]. apply andb_prop in E as [Hb [Hc Hd]%andb_prop]. intros [= <-]. cbn.
    by rewrite (cont_high _ _ _ Hl Hb), (cont_high_full _ Hc), (cont_high_full _ Hd). }
  destruct (byte a =? 240); [by apply H4|]. destruct (byte a =? 244); [by apply H4|].
  destruct ((241 <=? byte a) && (byte a <=? 243)); [by apply H4|done].
Qed.
Lemma inert_high u : sforall high u = true → inert u.
Proof.
  induction u as [|c u IH]; [intros _; apply inert_empty|]. cbn [sforall]. intros [Hc Hu]%andb_prop.
  apply Z.leb_le in Hc. destruct (high_byte c Hc). change (String c u) with (String c "" +++ u). apply inert_cat; [by apply inert_byte|auto].
Qed.
Lemma escape_copied k : ∀ s, (k ≤ String.length s)%nat → json_escape k false s = stake k s +++ json_escape 0 false (sdrop k s).
Proof. induction k as [|k IH]; intros [|c s] Hk; cbn [String.length] in Hk; [done|done|lia|]. cbn. by rewrite IH by lia. Qed.
Lemma inert_escape n s : (String.length s ≤ n)%nat → inert (json_escape 0 false s).
Proof.
  revert s. induction n as [|n IH]; intros s Hn; (destruct s as [|c s]; [apply inert_empty|]); cbn [String.length] in Hn; [lia|].
  cbn [json_escape]. destruct (byte c <? 128) eqn:Hc; [apply inert_cat; [apply inert_json_byte|apply IH; lia]|].
  apply Z.ltb_ge in Hc. destruct (rune_width (String c s)) as [|k] eqn:Hw.
  { apply inert_cat; [intros t; reflexivity|apply IH; lia]. }
  pose proof (rune_width_bound _ _ Hw) as Hk. cbn [String.length] in Hk.
  assert (inert (json_escape 0 false (sdrop k s))) as Hd.
  { apply IH. pose proof (stake_sdrop k s) as Hs. apply (f_equal String.length) in Hs. rewrite sapp_length in Hs. lia. }
  destruct (line_separator (String c s)).
  - apply inert_cat; [destruct (has_prefix _ _); intros t; reflexivity|]. by rewrite escape_mute by lia.
  - change (String c ?z) with (String c "" +++ z). destruct (high_byte c Hc). apply inert_cat; [by apply inert_byte|].
    rewrite escape_copied by lia. apply inert_cat; [apply inert_high; by eapply rune_tail_high|done].
Qed.
Lemma compact_quote s t : compact_from false false (json_quote s +++ t) = json_quote s +++ compact_from false false t.
Proof.
  rewrite !json_quote_app. cbn [compact_from json_space]. change (json_space quote_char) with false. cbv beta iota.
  change (Ascii.eqb quote_char quote_char) with true. rewrite (inert_escape (String.length s)) by done. reflexivity.
Qed.
Lemma compact_plain u t : sforall (λ c, negb (json_space c) && negb (Ascii.eqb c quote_char)) u = true →
  compact_from false false (u +++ t) = u +++ compact_from false false t.
Proof.
  induction u as [|c u IH]; [done|]. cbn [sforall]. intros [[Hs Hq]%andb_prop Hu]%andb_prop.
  apply negb_true_iff in Hs, Hq. rewrite !sapp_cons. cbn [compact_from]. by rewrite Hs, Hq, IH.
Qed.
Lemma compact_space g t : sforall json_space g = true → compact_from false false (g +++ t) = compact_from false false t.
Proof. induction g as [|c g IH]; [done|]. cbn [sforall]. intros [Hc Hg]%andb_prop. rewrite sapp_cons. cbn [compact_from]. rewrite Hc. auto. Qed.


Definition plain (c : ascii) : bool := negb (json_space c) && negb (Ascii.eqb c quote_char).
Lemma take_digits_plain s d r : take_digits s = (d, r) → sforall plain d = true.
Proof.
  revert d r. induction s as [|c s IH]; intros d r; cbn [take_digits]; [by intros [= <- _]|].
  destruct (is_digit c) eqn:Hc; [|by intros [= <- _]]. destruct (take_digits s) as [d' r']. intros [= <- _]. cbn [sforall].
  rewrite (IH d' r') by done. destruct c as [[] [] [] [] [] [] [] []]; by vm_compute in Hc |- *.
Qed.
Lemma integer_plain s d r : number_integer s = Some (d, r) → sforall plain d = true.
Proof.
  destruct s as [|c s]; [done|]. unfold number_integer. destruct (Ascii.eqb c "0"); [by intros [= <- _]|].
  destruct (is_digit c); [|done]. destruct (take_digits (String c s)) as [d' r'] eqn:E. intros [= <- _]. by eapply take_digits_plain.
Qed.
Lemma fraction_plain s d r : number_fraction s = Some (d, r) → sforall plain d = true.
Proof.
  assert (∀ s d r, (let (d, r) := take_digits s in if String.eqb d "" then None else Some (String "." d, r)) = Some (d, r) →
    sforall plain d = true) as Hp.
  { intros s' d' r'. destruct (take_digits s') as [d0 r0] eqn:E. destruct (String.eqb d0 ""); [done|]. intros [= <- _].
    cbn [sforall]. by rewrite (take_digits_plain _ _ _ E). }
  destruct s as [|c s]; [by intros [= <- _]|]. destruct (Ascii.eqb_spec c ".") as [->|Hc]; [apply Hp|].
  rewrite number_fraction_other; [by intros [= <- _]|]. intros s' [= ->]. done.
Qed.
Lemma exponent_plain s d r : number_exponent s = Some (d, r) → sforall plain d = true.
Proof.
  destruct s as [|c s]; [by intros [= <- _]|]. unfold number_exponent. destruct (Ascii.eqb c "e" || Ascii.eqb c "E") eqn:Hc; [|by intros [= <- _]].
  assert (plain c = true) as Hpc by (apply orb_prop in Hc as [Hc|Hc]; apply Ascii.eqb_eq in Hc as ->; done).
  destruct (match s with String d s'' => _ | EmptyString => _ end) as [sign s''] eqn:Es.
  assert (sforall plain sign = true) as Hsign.
  { destruct s as [|e s]; [by injection Es as <- _|]. destruct (Ascii.eqb e "+" || Ascii.eqb e "-") eqn:He; injection Es as <- _; [|done].
    apply orb_prop in He as [He|He]; apply Ascii.eqb_eq in He as ->; done. }
  destruct (take_digits s'') as [d' r'] eqn:E. destruct (String.eqb d' ""); [done|]. intros [= <- _].
  cbn [sforall]. by rewrite Hpc, sforall_app, Hsign, (take_digits_plain _ _ _ E).
Qed.
Lemma literal_plain s : literal s = true → sforall plain s = true.
Proof.
  unfold literal. destruct (number s) as [[d r]|] eqn:E; [|done]. intros [Hs%String.eqb_eq _]%andb_prop. subst d.
  unfold number in E. destruct (match s with String "-" s' => _ | _ => _ end) as [sign s1] eqn:Es.
  assert (sforall plain sign = true) as Hsign.
  { destruct s as [|c s]; [by injection Es as <- _|]. destruct c as [[] [] [] [] [] [] [] []]; injection Es as <- _; done. }
  destruct (number_integer s1) as [[i s2]|] eqn:Hi; [|done]. destruct (number_fraction s2) as [[f s3]|] eqn:Hf; [|done].
  destruct (number_exponent s3) as [[e s4]|] eqn:He; [|done]. injection E as <- _.
  by rewrite !sforall_app, Hsign, (integer_plain _ _ _ Hi), (fraction_plain _ _ _ Hf), (exponent_plain _ _ _ He).
Qed.
Lemma compact_literal s t : literal s = true → compact_from false false (s +++ t) = s +++ compact_from false false t.
Proof. intros Hs%literal_plain. by apply compact_plain. Qed.

Definition compacts (x : json) : Prop := ∀ n t, compact_from false false (json_pretty n x +++ t) = json_text x +++ compact_from false false t.
Lemma compact_newline n t : compact_from false false (snl +++ indent n +++ t) = compact_from false false t.
Proof. rewrite (compact_space snl) by done. apply compact_space, indent_spaces. Qed.
(** The elements of an array, the members of an object. *)
Lemma compact_join {A} (f g : A → string) l t :
  (∀ x s, x ∈ l → compact_from false false (f x +++ s) = g x +++ compact_from false false s) →
  compact_from false false (join comma_nl (map f l) +++ t) = join "," (map g l) +++ compact_from false false t.
Proof.
  induction l as [|x l IH]; intros Hl; [done|]. cbn [map]. destruct l as [|y l].
  - cbn [map join]. apply Hl. by left.
  - rewrite !join_cons_ne by done. rewrite !sapp_assoc, Hl by by left. f_equal. rewrite comma_nl_app, comma_app.
    change (String "," ?s) with ("," +++ s). rewrite (compact_plain ",") by done. rewrite (compact_space snl) by done.
    f_equal. apply IH. intros z s Hz. apply Hl. by right.
Qed.
Lemma compact_pretty v d : json_ok d v = true → compacts v.
Proof.
  revert d. induction v as [|[]|s|s|l IH|m IH] using json_ind'; intros d Hv n t; cbn [json_ok] in Hv.
  - by apply (compact_plain "null").
  - by apply (compact_plain "true").
  - by apply (compact_plain "false").
  - by apply compact_literal.
  - apply compact_quote.
  - destruct l as [|x l]; [by apply (compact_plain "[]")|]. destruct d as [|d]; [done|].
    rewrite pretty_array. cbn [json_text]. rewrite !sapp_assoc, (compact_plain "[") by done. rewrite (compact_space snl) by done.
    rewrite (compact_join _ json_text).
    + rewrite compact_newline. by rewrite (compact_plain "]").
    + intros y s Hy. unfold pretty_element. rewrite sapp_assoc, compact_space by apply indent_spaces.
      rewrite Forall_forall in IH. apply (IH y Hy d). apply forallb_forall with (x := y) in Hv; [done|]. by apply list_elem_of_In.
  - destruct m as [|x m]; [by apply (compact_plain "{}")|]. destruct d as [|d]; [done|].
    rewrite pretty_object. cbn [json_text]. rewrite !sapp_assoc, (compact_plain "{") by done. rewrite (compact_space snl) by done.
    rewrite (compact_join _ (λ kv, json_quote kv.1 +++ ":" +++ json_text kv.2)).
    + rewrite compact_newline. by rewrite (compact_plain "}").
    + intros y s Hy. unfold pretty_member. rewrite !sapp_assoc, compact_space by apply indent_spaces.
      rewrite compact_quote. f_equal. change (": " +++ ?z) with (":" +++ " " +++ z). rewrite (compact_plain ":") by done.
      rewrite (compact_space " ") by done. f_equal. rewrite Forall_forall in IH. apply (IH y Hy d).
      apply forallb_forall with (x := y) in Hv; [done|]. by apply list_elem_of_In.
Qed.
(** [json.Compact] of the indented text is the compact text. *)
Lemma compact_of_pretty n v : json_ok max_depth v = true → compact (json_pretty n v) = json_text v.
Proof.
  intros Hv. pose proof (compact_pretty v _ Hv n "") as Hc. unfold compact. by rewrite !sapp_nil_r in Hc.
Qed.

(** ** The indented text, read *)

Lemma pretty_cost v n d : json_ok d v = true → (cost v ≤ 2 * String.length (json_pretty n v))%nat.
Proof.
  intros Hv. pose proof (cost_bound v d Hv) as Hb. pose proof (compact_pretty v d Hv n "") as Hc.
  rewrite !sapp_nil_r in Hc. assert (∀ a e s, (String.length (compact_from a e s) ≤ String.length s)%nat) as Hl.
  { intros a e s. revert a e. induction s as [|c s IH]; intros a e; [done|]. cbn [compact_from].
    destruct a; [destruct e; [|destruct (Ascii.eqb c backslash)]|destruct (json_space c)]; cbn [String.length];
      match goal with |- context [compact_from ?a ?e s] => specialize (IH a e) end; lia. }
  specialize (Hl false false (json_pretty n v)). rewrite Hc in Hl. lia.
Qed.
Lemma prefix_pretty n v t : json_ok max_depth v = true → boundary t = true → json_prefix (json_pretty n v +++ t) = Some (to_json v, t).
Proof.
  intros Hv Ht. unfold json_prefix, fuel_of. rewrite (skip_pretty n v t max_depth Hv).
  apply (pretty_text v max_depth Hv); [|done]. rewrite sapp_length. pose proof (pretty_cost v n _ Hv). lia.
Qed.
Lemma parse_pretty n v t : json_ok max_depth v = true → sforall json_space t = true → boundary t = true →
  json_parse (json_pretty n v +++ t) = Some (to_json v).
Proof.
  intros Hv Hs Ht. pose proof (prefix_pretty n v t Hv Ht) as Hp. unfold json_prefix, fuel_of in Hp. unfold json_parse.
  rewrite Hp. rewrite <- (sapp_nil_r t), skip_spaces by done. done.
Qed.

Lemma json_ok_mono v : ∀ d, json_ok d v = true → json_ok (S d) v = true.
Proof.
  induction v as [| | | |l IH|m IH] using json_ind'; intros d Hv; try done; cbn [json_ok] in *; destruct d as [|d]; try done.
  - apply forallb_forall. intros x Hx. rewrite Forall_forall in IH. apply IH; [by apply list_elem_of_In|].
    by apply (proj1 (forallb_forall _ _) Hv).
  - apply forallb_forall. intros x Hx. rewrite Forall_forall in IH. apply (IH x); [by apply list_elem_of_In|].
    by apply (proj1 (forallb_forall _ _) Hv).
Qed.
Lemma consumed_app s r : consumed (s +++ r) r = s.
Proof.
  unfold consumed. rewrite sapp_length. replace (String.length s + String.length r - String.length r)%nat with (String.length s) by lia.
  apply stake_app.
Qed.
(** The members of an indented object, their values as they are written. *)
Lemma raw_members_pretty fuel n k m t : forallb (λ kv, json_ok max_depth kv.2) m = true → m ≠ [] → (List.length m ≤ fuel)%nat →
  raw_members fuel (skip_space (join comma_nl (map (pretty_member n) m) +++ snl +++ indent k +++ String "}" t))
    = map (λ kv, (to_text kv.1, json_pretty n kv.2)) m.
Proof.
  revert fuel. induction m as [|[key x] m IH]; intros fuel Hv Hne Hf; [done|]. cbn [List.length] in Hf.
  destruct fuel as [|fuel]; [lia|]. cbn [forallb fst snd] in Hv. apply andb_prop in Hv as [Hvx Hvl]. cbn [map fst snd].
  assert (∀ s, boundary s = true → raw_members (S fuel) (skip_space (pretty_member n (key, x) +++ s)) =
    (to_text key, json_pretty n x) :: match skip_space s with String "," r => raw_members fuel (skip_space r) | _ => [] end) as Hstep.
  { intros s Hs. unfold pretty_member. cbn [fst snd]. rewrite !sapp_assoc, skip_spaces by apply indent_spaces.
    rewrite json_quote_app, skip_space_graphic by done. cbn [raw_members Ascii.eqb Bool.eqb quote_char].
    rewrite unquote_quoted. change (": " +++ ?z) with (String ":" (" " +++ z)).
    change (skip_space (String ":" ?z)) with (String ":" z). cbv beta iota. rewrite (skip_spaces " ") by done.
    rewrite (skip_pretty n x s _ Hvx). rewrite (pretty_text x _ Hvx); [by rewrite consumed_app| |done].
    unfold fuel_of. rewrite sapp_length. pose proof (pretty_cost x n _ Hvx). lia. }
  destruct m as [|y m].
  - cbn [map join]. rewrite Hstep by done. by rewrite skip_newline.
  - rewrite join_cons_ne by done. rewrite !sapp_assoc, Hstep by done. rewrite comma_nl_app, skip_comma.
    rewrite (skip_spaces snl) by done. by rewrite IH by (done || lia).
Qed.
Lemma join_many {A} (f : A → string) sep l : (∀ x, x ∈ l → (1 ≤ String.length (f x))%nat) → (List.length l ≤ String.length (join sep (map f l)))%nat.
Proof.
  induction l as [|x l IH]; intros Hl; [done|]. cbn [map List.length].
  destruct (join_cons_length sep (f x) (map f l)) as [Hj _]. pose proof (Hl x ltac:(by left)).
  specialize (IH ltac:(intros y Hy; apply Hl; by right)). lia.
Qed.
Lemma raw_object_pretty n m t : json_ok max_depth (JObj m) = true → m ≠ [] →
  raw_object (json_pretty n (JObj m) +++ t) = map (λ kv, (to_text kv.1, json_pretty (S n) kv.2)) m.
Proof.
  intros Hv Hne. destruct m as [|x m]; [done|]. unfold raw_object. rewrite (skip_pretty n _ t _ Hv).
  rewrite pretty_object, !sapp_assoc. change ("{" +++ ?s) with (String "{" s). cbv beta iota. rewrite (skip_spaces snl) by done.
  change ("}" +++ t) with (String "}" t). apply raw_members_pretty; [|done|].
  - assert (∃ d, max_depth = S d) as [d Hd]. { exists (N.to_nat 9999). unfold max_depth. lia. }
    rewrite Hd in Hv |- *. cbn [json_ok] in Hv. apply forallb_forall. intros y Hy. apply json_ok_mono.
    by apply (proj1 (forallb_forall _ _) Hv).
  - cbn [String.length]. rewrite !sapp_length. pose proof (join_many (pretty_member (S n)) comma_nl (x :: m)) as Hm.
    assert (∀ y, y ∈ x :: m → (1 ≤ String.length (pretty_member (S n) y))%nat) as Hy.
    { intros y _. unfold pretty_member, json_quote. rewrite !sapp_length. cbn [String.length]. lia. }
    specialize (Hm Hy). lia.
Qed.
