(* ===== verification/Units.v ===== *)
(** * Lines of profiles, units of systemd, files

    What several domains share: the lines [bufio.Scanner] reads, the entries of a profile,
    the questions asked of [systemctl] about one unit.  Their runners combine the two
    output streams: [stdout] of an outcome is the combined text, trimmed. *)

From S2P Require Import Prelude GoStrings StringFacts Regex Json JsonParse Command.
From S2P Require Api.
From Stdlib Require Import Ascii String.
#[local] Open Scope string_scope.
#[local] Open Scope list_scope.
#[local] Open Scope Z_scope.

Import Api(Reply, failure, success, VStr, VInt, VBool, VNum, VList, VMap, VNil, Value).

(** ** [bufio.Scanner] *)

Definition drop_cr (l : string) : string := trim_suffix l (String cr "").
Definition maximum_token : Z := 65535.
(** Up to the first line too long for the buffer, which stops the scan with an error. *)
Fixpoint within_limit (limit : Z) (lines : list string) : list string * bool :=
  match lines with
  | [] => ([], true)
  | l :: lines => if limit <? slen l then ([], false) else let (r, ok) := within_limit limit lines in (drop_cr l :: r, ok)
  end.
(** No empty line after a final end of line. *)
Definition scan_lines_up_to (limit : Z) (content : string) : list string * bool :=
  let lines := split nl content in
  within_limit limit (match last lines with Some "" => removelast lines | _ => lines end).
Definition scan_lines : string → list string * bool := scan_lines_up_to maximum_token.

(** The entries [key = value] of a profile, comments and blank lines left out. *)
Definition profile_entry (raw : string) : option (string * string) :=
  let l := trim_space raw in
  if String.eqb l "" || has_prefix l "#" then None
  else match cut "=" l with
    | (key, value, true) => Some (trim_space key, trim_space value)
    | _ => None
    end.
Definition profile_entries (content : option string) : list (string * string) :=
  match content with None => [] | Some text => omap profile_entry (scan_lines text).1 end.

(** ** systemd *)

Definition systemctl : string := "/usr/bin/systemctl".
Definition systemd_run : string := "/usr/bin/systemd-run".

Definition parse_int64 (s : string) : Z := atoi_val s.

Section units.
Context {W : Type} `{!Programs W} (unit_ : string).

(** One property, or the fallback when it cannot be read. *)
Definition value (property fallback : string) : cmd W string :=
  do! o := run systemctl ["show"; "--property=" +++ property; "--value"; "--"; unit_] in
  ret (if negb (succeeded o) || String.eqb (stdout o) "" then fallback else stdout o).
Definition present (load : string) : bool := String.eqb load "loaded" || String.eqb load "masked".
Definition exists_ : cmd W bool := do! v := value "LoadState" "not-found" in ret (present v).
Definition succeeds (program : string) (arguments : list string) : cmd W bool :=
  do! o := run program arguments in ret (succeeded o).
Definition active : cmd W bool := succeeds systemctl ["is-active"; "--quiet"; "--"; unit_].
Definition enabled : cmd W bool := succeeds systemctl ["is-enabled"; "--quiet"; "--"; unit_].
(** A counter: 0 when it is no number or negative, the bound when it is too large. *)
Definition counter (property : string) : cmd W Z :=
  do! v := value property "0" in
  ret (let n := parse_int64 v in if 0 <=? n then n else 0).
End units.

(** The restart of a unit, five seconds after the answer. *)
Definition restart_later (unit_ : string) : list string :=
  ["--quiet"; "--collect"; "--on-active=5s"; systemctl; "restart"; "--"; unit_].

(** ** Errors with details *)

Definition failure_with (exit : Z) (code message : string) (details : list (string * Value)) : Reply :=
  {| Api.ExitCode := exit;
     Api.Resp := {| Api.resp_success := false; Api.resp_api := Api.Version; Api.resp_data := None;
                    Api.resp_error := Some {| Api.err_code := code; Api.err_message := message; Api.err_details := details |} |} |}.
Lemma refusal_failure_with exit code message details : exit ≠ 0 → refusal (failure_with exit code message details).
Proof. intros He. split; [|done]. split; [done|]. right. done. Qed.
#[export] Hint Resolve refusal_failure_with : commands.

(** The runners that tell the delay exceeded (status -1) and the program that was not
    started (status -2, the reason as standard error) from an exit status. *)
Definition run_or_fail {W} `{!Programs W} (prefix tool name : string) (arguments : list string) : cmd W outcome :=
  do! o := run name arguments in
  if status o =? -1 then stop (failure_with 124 (prefix +++ "_COMMAND_TIMEOUT") ("La commande " +++ tool +++ " a dépassé le délai autorisé.") [])
  else if status o =? -2 then
    stop (failure_with 10 (prefix +++ "_COMMAND_FAILED") ("La commande " +++ tool +++ " n’a pas pu être exécutée.") [("reason", VStr (stderr o))])
  else ret o.

(** ** Values decoded into [any], and answered *)

(** The text [encoding/json] gives the float64 nearest to a literal; that of a small integer is known. *)
Class FloatTexts := { float_literal : string → string }.
Definition number_text `{!FloatTexts} (literal : string) : string :=
  match atoi literal with
  | Some n => if (Z.abs n <=? 2 ^ 53) && String.eqb (itoa n) literal then literal else float_literal literal
  | None => float_literal literal
  end.
Fixpoint any_value `{!FloatTexts} (v : json) : Value :=
  match v with
  | JNull => VNil
  | JBool b => VBool b
  | JNum literal => VNum (number_text literal)
  | JStr s => VStr s
  | JArr l => VList (map any_value l)
  | JObj m => VMap (map (λ kv, (kv.1, any_value kv.2)) m)
  end.

(** ** What a command answers *)

(** Whatever the machine, an answer satisfies the predicate. *)
Definition yields {W A} (Q : A → Prop) (c : cmd W A) : Prop := ∀ m x m', c m = (Ok x, m') → Q x.
Section yields.
Context {W : Type} `{!Programs W}.
Lemma yields_ret {A} (Q : A → Prop) (x : A) : Q x → yields (W := W) Q (ret x).
Proof. by intros Hx m y m' [= <- <-]. Qed.
Lemma yields_stop {A} (Q : A → Prop) r : yields (W := W) Q (stop r).
Proof. by intros m y m' [=]. Qed.
Lemma yields_lift {A} (Q : A → Prop) r : (∀ x, r = Ok x → Q x) → yields (W := W) Q (lift r).
Proof. intros Hr m x m' E. injection E as E _. by apply Hr. Qed.
Lemma yields_bind {A B} (P : A → Prop) (Q : B → Prop) (c : cmd W A) k :
  yields P c → (∀ x, P x → yields Q (k x)) → yields Q (bind c k).
Proof. intros Hc Hk m y m' (x & m1 & Hx%Hc & Hy)%bind_Ok. by eapply Hk. Qed.
Lemma yields_then {A B} (Q : B → Prop) (c : cmd W A) k : (∀ x, yields Q (k x)) → yields Q (bind c k).
Proof. intros Hk. apply (yields_bind (λ _, True)); [done|auto]. Qed.
Lemma only_yields {A B} P (Q : A → Prop) (c : cmd W A) (k : A → cmd W B) :
  only P c → yields Q c → (∀ x, Q x → only P (k x)) → only P (bind c k).
Proof.
  intros Hc Hy Hk m out m' [(r & Hr & _)|(x & m1 & H1 & H2)]%bind_inv; [by eapply Hc|].
  pose proof (Hy _ _ _ H1) as Hx. apply Hc in H1 as (l1 & E1 & F1). apply (Hk x Hx) in H2 as (l2 & E2 & F2).
  exists (l1 ++ l2). unfold ran_since in *. rewrite E2, E1, app_assoc. split; [done|]. by apply Forall_app.
Qed.
(** What a handler ran. *)
Lemma only_serve (P : string → list string → Prop) (c : cmd W (list (string * Value))) m :
  only P c → ∃ l, ran (serve c m).2 = ran m ++ l ∧ Forall (calls P) l.
Proof. intros Hc. destruct (c m) as [out m1] eqn:E. rewrite (serve_machine _ _ _ _ E). by apply Hc in E. Qed.
Lemma only_run_or_fail (P : string → list string → Prop) prefix tool name arguments :
  P name arguments → only P (run_or_fail (W := W) prefix tool name arguments).
Proof. intros HP. unfold run_or_fail. apply only_bind; [by apply only_run|]. intros o. walk. Qed.
Lemma refuses_run_or_fail prefix tool name arguments : refuses (run_or_fail (W := W) prefix tool name arguments).
Proof. unfold run_or_fail. walk. Qed.
(** What the runner hands over was run to its end. *)
Lemma run_or_fail_Ok prefix tool name arguments m o m' :
  run_or_fail (W := W) prefix tool name arguments m = (Ok o, m') →
  m' = mkMachine (inside m') (ran m ++ [(name, arguments, o)]) ∧ exec (inside m) name arguments = (inside m', o) ∧ status o ≠ -1 ∧ status o ≠ -2.
Proof.
  unfold run_or_fail. intros (x & m1 & (o' & [= <-] & Hm & He)%run_inv & Hx)%bind_Ok.
  destruct (Z.eqb_spec (status x) (-1)); [done|]. destruct (Z.eqb_spec (status x) (-2)); [done|]. by injection Hx as <- <-.
Qed.
End yields.
#[export] Hint Resolve refuses_run_or_fail : commands.
