(* ===== verification/Network.v ===== *)
(** * The network domain: [domain/network]

    The interfaces the [ip] command prints as JSON, normalised, sorted and served.  What
    [ip] prints is a parameter; its decoding is that of [encoding/json]. *)

From S2P Require Import Prelude GoStrings StringFacts Regex Json JsonParse Command.
From S2P Require Api.
From Stdlib Require Import Ascii String.
#[local] Open Scope string_scope.
#[local] Open Scope list_scope.
#[local] Open Scope Z_scope.

Import Api(Reply, failure, success, VStr, VInt, VBool, VList, VMap, VNil, Value).

Definition alnum (c : ascii) : bool := is_lower c || is_upper c || is_digit c.
Definition identifierPattern : rx := Cls alnum ;;; Rep (cls alnum "_.:-") 0 63.
Definition ipCommandCandidates : list string := ["/usr/sbin/ip"; "/usr/bin/ip"].

Record Address := mkAddress { a_Address : string; a_Prefix : Z }.
Record Interface := mkInterface {
  i_ID : string; i_Name : string; i_Type : string; i_State : string; i_MAC : option string; i_MTU : option Z;
  i_IPv4 : list Address; i_IPv6 : list Address }.

(** The JSON of an interface as it is decoded. *)
Record ipInterface := mkIpInterface {
  Name : string; LinkType : string; OperState : string; LinkAddress : string; MTU : option Z;
  LinkInfo : option json; AddrInfo : option json }.

Definition decode_interface (v : json) : option ipInterface :=
  match v with
  | JNull => Some (mkIpInterface "" "" "" "" None None None)
  | JObj m =>
      let '(name, ok1) := store_field "ifname" store_string "" m in
      let '(link, ok2) := store_field "link_type" store_string "" m in
      let '(state, ok3) := store_field "operstate" store_string "" m in
      let '(address, ok4) := store_field "address" store_string "" m in
      let '(mtu, ok5) := store_field "mtu" (store_pointer 0 store_int) None m in
      let '(info, _) := store_field "linkinfo" store_raw None m in
      let '(addresses, _) := store_field "addr_info" store_raw None m in
      if ok1 && ok2 && ok3 && ok4 && ok5 then Some (mkIpInterface name link state address mtu info addresses) else None
  | _ => None
  end.

Section decoding.
Context `{UnicodeCase}.

Definition normalizeState (state : string) : string :=
  if String.eqb (to_upper state) "UP" then "up" else if String.eqb (to_upper state) "DOWN" then "down" else "unknown".

(** The text of a field, whatever the errors elsewhere: the code ignores them. *)
Definition ignoring_errors (name : string) (v : option json) : string :=
  match v with Some (JObj m) => (store_field name store_string "" m).1 | _ => "" end.
Definition raw_field (name : string) (v : option json) : option json :=
  match v with Some (JObj m) => (store_field name store_raw None m).1 | _ => None end.

Definition plain_kinds : list string := ["bridge"; "vlan"; "bond"; "wireguard"; "tun"; "tap"].
Definition normalizeType (source : ipInterface) : string :=
  if String.eqb (Name source) "lo" || String.eqb (to_lower (LinkType source)) "loopback" then "loopback"
  else
    let kind := to_lower (ignoring_errors "info_kind" (LinkInfo source)) in
    let mode := to_lower (ignoring_errors "mode" (raw_field "info_data" (LinkInfo source))) in
    if existsb (String.eqb kind) plain_kinds then kind
    else if String.eqb kind "tuntap" && (String.eqb mode "tun" || String.eqb mode "tap") then mode
    else if String.eqb (to_lower (LinkType source)) "ether" then "ethernet" else "unknown".

Record ipAddress := mkIpAddress { Family : string; Local : string; Prefix : option Z }.
Definition decode_address (v : json) : option ipAddress :=
  match v with
  | JNull => Some (mkIpAddress "" "" None)
  | JObj m =>
      let '(family, ok1) := store_field "family" store_string "" m in
      let '(local, ok2) := store_field "local" store_string "" m in
      let '(prefix, ok3) := store_field "prefixlen" (store_pointer 0 store_int) None m in
      if ok1 && ok2 && ok3 then Some (mkIpAddress family local prefix) else None
  | _ => None
  end.

Definition address_le (x y : Address) : Prop :=
  (a_Address x ≠ a_Address y ∧ str_le (a_Address x) (a_Address y)) ∨ (a_Address x = a_Address y ∧ a_Prefix x ≤ a_Prefix y).
#[global] Instance address_le_dec x y : Decision (address_le x y).
Proof. unfold address_le. apply _. Defined.

(** The complete addresses of a family, in the order of the text. *)
Definition addresses_of (family : string) (entries : list json) : list Address :=
  omap (λ v, match decode_address v with
    | Some (mkIpAddress f l (Some p)) => if String.eqb f family && negb (String.eqb l "") then Some (mkAddress l p) else None
    | _ => None end) entries.
Definition normalizeAddresses (raw : option json) : list Address * list Address :=
  match raw with
  | Some (JArr entries) => (merge_sort address_le (addresses_of "inet" entries), merge_sort address_le (addresses_of "inet6" entries))
  | _ => ([], [])
  end.

Definition normalize_entry (v : json) : option Interface :=
  match decode_interface v with
  | None => None
  | Some source =>
      if String.eqb (Name source) "" then None
      else
        let '(ipv4, ipv6) := normalizeAddresses (AddrInfo source) in
        Some (mkInterface (Name source) (Name source) (normalizeType source) (normalizeState (OperState source))
          (if String.eqb (LinkAddress source) "" then None else Some (LinkAddress source))
          (match MTU source with Some n => if 0 <=? n then Some n else None | None => None end) ipv4 ipv6)
  end.
Definition interface_le (x y : Interface) : Prop := str_le (i_ID x) (i_ID y).
#[global] Instance interface_le_dec x y : Decision (interface_le x y).
Proof. unfold interface_le. apply _. Defined.

Definition normalize (raw : string) : option (list Interface) :=
  match json_parse raw with
  | Some (JArr payload) => Some (merge_sort interface_le (omap normalize_entry payload))
  | _ => None
  end.

(** ** Commands *)

Context {W : Type} `{!Programs W}.

Definition Interfaces : cmd W (list Interface) :=
  match find executable ipCommandCandidates with
  | None => stop (failure 3 "DEPENDENCY_NOT_FOUND" "La commande ip nécessaire au domaine network est introuvable.")
  | Some command =>
      do! o := run command ["-j"; "address"; "show"] in
      if negb (succeeded o) then stop (failure 3 "NETWORK_READ_FAILED" "Les informations réseau n’ont pas pu être lues.")
      else if String.eqb (stdout o) "" then
        stop (failure 3 "NETWORK_READ_FAILED" "La commande ip n’a retourné aucune information réseau.")
      else match normalize (stdout o) with
        | None => stop (failure 3 "INVALID_NETWORK_DATA" "Les informations réseau retournées par le système sont invalides.")
        | Some interfaces => ret interfaces
        end
  end.

Definition data := list (string * Value).
Definition summary (i : Interface) : data :=
  [("id", VStr (i_ID i)); ("name", VStr (i_Name i)); ("type", VStr (i_Type i)); ("state", VStr (i_State i))].
Definition address_value (a : Address) : Value := VMap [("address", VStr (a_Address a)); ("prefix", VInt (a_Prefix a))].
Definition details (i : Interface) : data :=
  summary i ++
  [("mac", match i_MAC i with Some s => VStr s | None => VNil end);
   ("mtu", match i_MTU i with Some n => VInt n | None => VNil end);
   ("ipv4", VList (address_value <$> i_IPv4 i)); ("ipv6", VList (address_value <$> i_IPv6 i))].

Definition invalidArgumentCount : Reply := failure 2 "INVALID_ARGUMENT_COUNT" "Le nombre d’arguments fourni est invalide.".

Definition execute (command : string) (arguments : list string) : cmd W data :=
  if String.eqb command "" then stop (failure 2 "MISSING_COMMAND" "Aucune commande n’a été indiquée pour le domaine network.")
  else if String.eqb command "list" then
    match arguments with
    | [] => do! interfaces := Interfaces in ret [("interfaces", VList (VMap ∘ summary <$> interfaces))]
    | _ => stop invalidArgumentCount
    end
  else if String.eqb command "status" then
    match arguments with
    | [id] =>
        if full identifierPattern id then
          do! interfaces := Interfaces in
          match find (λ i, String.eqb (i_ID i) id) interfaces with
          | Some i => ret (details i)
          | None => stop (failure 5 "NETWORK_INTERFACE_NOT_FOUND" "L’interface réseau demandée est introuvable.")
          end
        else stop (failure 2 "INVALID_NETWORK_IDENTIFIER" "L’identifiant de l’interface réseau est invalide.")
    | _ => stop invalidArgumentCount
    end
  else stop (failure 4 "COMMAND_NOT_FOUND" "La commande demandée n’existe pas dans le domaine network.").

Definition Handle (command : string) (arguments : list string) : Machine W → Reply * Machine W := serve (execute command arguments).
End decoding.

(** ** What a listing holds *)

(** The states, the types, the numbers an interface may show. *)
Definition well_formed (i : Interface) : Prop :=
  i_ID i = i_Name i ∧ i_ID i ≠ "" ∧ i_State i ∈ ["up"; "down"; "unknown"] ∧
  i_Type i ∈ ["loopback"; "ethernet"; "unknown"] ++ plain_kinds ∧
  (∀ n, i_MTU i = Some n → 0 ≤ n ≤ int_max) ∧ i_MAC i ≠ Some "" ∧
  Forall (λ a, a_Address a ≠ "") (i_IPv4 i ++ i_IPv6 i).

Section listing.
Context `{UnicodeCase}.

Lemma normalizeType_kind s : normalizeType s ∈ ["loopback"; "ethernet"; "unknown"] ++ plain_kinds.
Proof.
  unfold normalizeType. repeat case_match; try (unfold plain_kinds; set_solver).
  - apply existsb_eqb_elem in H1. set_solver.
  - apply andb_prop in H2 as [_ Hm]. apply orb_prop in Hm as [->%String.eqb_eq| ->%String.eqb_eq]; unfold plain_kinds; set_solver.
Qed.

Lemma addresses_of_named family l : Forall (λ a, a_Address a ≠ "") (addresses_of family l).
Proof.
  apply Forall_forall. intros a (v & _ & Ha)%list_elem_of_omap. destruct (decode_address v) as [[f s [p|]]|]; try done.
  destruct (String.eqb f family); [|done]. destruct (String.eqb_spec s ""); [done|]. by injection Ha as <-.
Qed.

Lemma store_mtu_range m o : (store_field "mtu" (store_pointer 0 store_int) None m).1 = Some o → int_min ≤ o ≤ int_max.
Proof.
  assert (∀ (l : list (string * json)) (a : option Z * bool), (∀ n, a.1 = Some n → int_min ≤ n ≤ int_max) →
    ∀ n, (fold_left (λ (a : option Z * bool) kv, if same_key "mtu" kv.1 then let (x, ok) := store_pointer 0 store_int a.1 kv.2 in (x, a.2 && ok) else a) l a).1
      = Some n → int_min ≤ n ≤ int_max) as Hf.
  { induction l as [|[k v] l IH]; intros a Ha; [done|]. cbn [fold_left fst snd]. apply IH. destruct (same_key _ _); [|done].
    assert (int_min ≤ default 0 a.1 ≤ int_max) as Hd by (destruct a as [[z|] b]; [by apply Ha|done]).
    destruct v; cbn [store_pointer store_int fst]; try (intros n [= <-]; exact Hd); try done.
    destruct (atoi literal) eqn:Hl; cbn [fst]; intros n [= <-]; [by eapply atoi_range|done]. }
  unfold store_field. by apply Hf.
Qed.

Lemma normalize_entry_well_formed v i : normalize_entry v = Some i → well_formed i.
Proof.
  unfold normalize_entry. destruct (decode_interface v) as [s|] eqn:Hd; [|done].
  destruct (String.eqb_spec (Name s) ""); [done|]. destruct (normalizeAddresses (AddrInfo s)) as [v4 v6] eqn:Ha.
  intros [= <-]. unfold well_formed. cbn [i_ID i_Name i_State i_Type i_MTU i_MAC i_IPv4 i_IPv6]. split_and!; try done.
  - unfold normalizeState. repeat case_match; set_solver.
  - apply normalizeType_kind.
  - intros k. destruct (MTU s) as [z|] eqn:Hm; [|done]. destruct (Z.leb_spec 0 z); [|done]. intros [= <-]. split; [done|].
    unfold decode_interface in Hd. destruct v; try done; [by injection Hd as <-|].
    destruct (store_field "mtu" _ _ _) as [mtu ok] eqn:Hs. repeat case_match; try done. injection Hd as <-. cbn [MTU] in Hm. subst mtu.
    apply (store_mtu_range m z). by rewrite Hs.
  - by destruct (String.eqb_spec (LinkAddress s) ""); [|intros [= Hl]].
  - unfold normalizeAddresses in Ha. destruct (AddrInfo s) as [[]|]; injection Ha as <- <-; try done.
    apply Forall_app. split; apply Forall_forall; intros a Hin; apply elem_of_merge_sort in Hin; exact (proj1 (Forall_forall _ _) (addresses_of_named _ l) a Hin).
Qed.

(** Whatever the command ip prints, an accepted listing is sorted by identifier and each
    of its interfaces is well formed: a name, a known state and type, an MTU that is absent
    or a non-negative int, addresses that are not empty. *)
Theorem normalize_spec raw l :
  normalize raw = Some l → Sorted interface_le l ∧ Forall well_formed l.
Proof.
  unfold normalize. destruct (json_parse raw) as [[]|]; try done. intros Hl. injection Hl as <-. split.
  - apply Sorted_merge_sort. intros x y. unfold interface_le, str_le. destruct (String.leb_total (i_ID x) (i_ID y)); auto.
  - apply Forall_forall. intros i Hi. apply elem_of_merge_sort in Hi. apply list_elem_of_omap in Hi as (v & _ & Hv).
    by eapply normalize_entry_well_formed.
Qed.

Lemma network_reply_ok {W} `{!Programs W} command args (m : Machine W) : Api.reply_ok (Handle command args m).1.
Proof. apply serve_ok. walk. Qed.
End listing.

Definition printed : string :=
  smap (λ c, if Ascii.eqb c "~" then quote_char else c)
    "[{~ifname~:~lo~,~mtu~:65536},{~ifname~:~eth0~,~link_type~:~ether~,~operstate~:~UP~,~mtu~:-1,~addr_info~:[{~family~:~inet~,~local~:~192.0.2.1~,~prefixlen~:24},{~family~:~inet~}]},{~ifname~:7}]".
Lemma normalize_spec_witness :
  ∃ l, normalize (H := ascii_case) printed = Some l ∧ Sorted interface_le l ∧ List.length l = 2%nat.
Proof.
  destruct (normalize (H := ascii_case) printed) as [l|] eqn:Hn; [|exfalso; vm_compute in Hn; discriminate].
  exists l. destruct (normalize_spec (H := ascii_case) printed l Hn) as [Hs _]. split_and!; [done|exact Hs|].
  assert (List.length (default [] (normalize (H := ascii_case) printed)) = 2%nat) as Hl by (vm_compute; reflexivity).
  by rewrite Hn in Hl.
Defined.
