(* ===== verification/Fail2ban.v ===== *)
(** * The Fail2ban domain: [domain/fail2ban]

    The client of Fail2ban and its unit: jails, their state, bans, and the actions on the
    service, which test the configuration first.  Go ranges over a map to read three
    counters; they are read here in one order. *)

From S2P Require Import Prelude GoStrings StringFacts Regex Backtrack Command Units.
From S2P Require Api.
From Stdlib Require Import Ascii String.
#[local] Open Scope string_scope.
#[local] Open Scope list_scope.
#[local] Open Scope Z_scope.

Import Api(Reply, failure, success, VStr, VInt, VBool, VList, VMap, VNil, Value).

(** [netip.ParseAddr] with [Addr.String]: the canonical text of an address, and the order
    of [Addr.Compare]. *)
Class Addresses := {
  canonical : string → option string;
  address_le : string → string → Prop;
  address_le_dec x y :: Decision (address_le x y) }.

Record Backend := mkBackend { client : string; unit_ : string; service : string }.
Definition standard : Backend := mkBackend "/usr/bin/fail2ban-client" "fail2ban.service" "fail2ban".
Definition local_client : string := "/usr/local/bin/fail2ban-client".

Definition counts : list (string * nat) :=
  [("info", 0); ("status", 0); ("jail", 1); ("configtest", 0); ("reload", 0); ("restart", 0); ("ban", 2); ("unban", 2)]%nat.
Definition alnum (c : ascii) : bool := is_lower c || is_upper c || is_digit c.
Definition jailPattern : rx := plus (Cls (cls alnum "._-")).
Definition fail2banUnitPattern : rx :=
  lit "fail2ban" ;;; opt (Cls (cls (λ _, false) "-@") ;;; plus (Cls (cls alnum "_.-"))) ;;; lit ".service".

(** [loadProfile]: each entry in turn. *)
Definition profile_step (b : Backend) (entry : string * string) : Backend :=
  let '(key, v) := entry in
  if String.eqb key "client" then
    if String.eqb v (client standard) || String.eqb v local_client then mkBackend v (unit_ b) (service b) else b
  else if String.eqb key "unit" then
    if full fail2banUnitPattern v then mkBackend (client b) v (trim_suffix v ".service") else b
  else b.
Definition loadProfile (b : Backend) (content : option string) : Backend := fold_left profile_step (profile_entries content) b.
Definition NewLinuxBackend (executable : string → bool) (content : option string) : Backend :=
  let b := loadProfile standard content in
  if String.eqb (client b) (client standard) && negb (executable (client b)) && executable local_client
  then mkBackend local_client (unit_ b) (service b) else b.

Section domain.
Context {W : Type} `{!Programs W} `{UnicodeCase} `{Addresses} (b : Backend).

Definition data := list (string * Value).
Notation ask := (run (client b)).

Definition requireActive : cmd W () :=
  do! e := exists_ (unit_ b) in
  if negb e then stop (failure 5 "FAIL2BAN_SERVICE_NOT_FOUND" "Le service Fail2ban est introuvable.")
  else do! a := active (unit_ b) in
  if negb a then stop (failure 7 "FAIL2BAN_SERVICE_NOT_ACTIVE" "Le service Fail2ban n’est pas actif.") else ret ().

(** A label, spaces (line ends included), then the rest of the line. *)
Definition labelled_line (label : string) : pat := word label >> spaces >> PGroup 1 rest.

Definition lower_le (x y : string) : Prop := str_le (to_lower x) (to_lower y).
#[global] Instance lower_le_dec x y : Decision (lower_le x y).
Proof. unfold lower_le. apply _. Defined.
Definition jail_names (o : string) : list string :=
  match find_match (labelled_line "Jail list:") o with
  | None => []
  | Some g => merge_sort lower_le (remove_dups (filter (λ v, v ≠ "") (trim_space <$> split "," (group g 1))))
  end.
Definition jails : cmd W (option (list string)) :=
  do! o := ask ["status"] in ret (if succeeded o then Some (jail_names (stdout o)) else None).
Definition jails_failed : Reply :=
  failure 10 "FAIL2BAN_JAILS_FAILED" "La liste des prisons Fail2ban n’a pas pu être obtenue.".

Definition requireJail (j : string) : cmd W () :=
  if negb (full jailPattern j) then stop (failure 6 "INVALID_JAIL" "Le nom de la prison Fail2ban est invalide.")
  else
    do! js := jails in
    match js with
    | None => stop jails_failed
    | Some js =>
        if existsb (String.eqb j) js then ret ()
        else stop (failure 6 "FAIL2BAN_JAIL_NOT_FOUND" "La prison Fail2ban demandée n’existe pas.")
    end.

(** [label:\s*(\d+)], 0 when there is none. *)
Definition integer (text label : string) : Z :=
  match find_match (word (label +++ ":") >> spaces >> PGroup 1 digits) text with
  | Some g => parse_int64 (group g 1)
  | None => 0
  end.
Definition banned_ips (o : string) : list string :=
  match find_match (labelled_line "Banned IP list:") o with
  | None => []
  | Some g => merge_sort address_le (remove_dups (omap canonical (fields (group g 1))))
  end.
Definition jailStatus (j : string) : cmd W (option data) :=
  do! r := ask ["status"; j] in
  let o := stdout r in
  ret (if succeeded r then Some
    [("currently_failed", VInt (integer o "Currently failed")); ("total_failed", VInt (integer o "Total failed"));
     ("currently_banned", VInt (integer o "Currently banned")); ("total_banned", VInt (integer o "Total banned"));
     ("banned_ips", VList (VStr <$> banned_ips o))] else None).

Definition status_of (load : string) (is_there is_active is_enabled : bool) (active_state state : string)
    (pid memory tasks : Z) (js : list string) : data :=
  [("service", VStr (service b)); ("unit", VStr (unit_ b)); ("exists", VBool is_there); ("active", VBool is_active);
   ("enabled", VBool is_enabled); ("load_state", VStr load); ("active_state", VStr active_state); ("state", VStr state);
   ("main_pid", VInt pid); ("memory_bytes", VInt memory); ("tasks", VInt tasks); ("jails", VList (VStr <$> js))].
Definition status : cmd W data :=
  do! load := value (unit_ b) "LoadState" "not-found" in
  if negb (present load) then ret (status_of load false false false "inactive" "unknown" 0 0 0 [])
  else
    do! is_active := active (unit_ b) in
    do! is_enabled := enabled (unit_ b) in
    do! active_state := value (unit_ b) "ActiveState" "inactive" in
    do! state := value (unit_ b) "SubState" "unknown" in
    do! pid := counter (unit_ b) "MainPID" in
    do! memory := counter (unit_ b) "MemoryCurrent" in
    do! tasks := counter (unit_ b) "TasksCurrent" in
    if is_active then
      do! js := jails in
      match js with
      | None => stop jails_failed
      | Some js => ret (status_of load true is_active is_enabled active_state state pid memory tasks js)
      end
    else ret (status_of load true is_active is_enabled active_state state pid memory tasks []).

(** The test every action on the service runs first. *)
Definition configtest : cmd W () :=
  do! o := ask ["--test"] in
  if succeeded o then ret () else stop (failure 9 "FAIL2BAN_CONFIG_INVALID" "La configuration de Fail2ban est invalide.").

Definition info : cmd W data :=
  do! o := ask ["--version"] in
  let v := trim_prefix (stdout o) "Fail2Ban v" in
  if String.eqb v "" || String.eqb v (stdout o)
  then stop (failure 10 "FAIL2BAN_VERSION_INVALID" "La version de Fail2ban n’a pas pu être déterminée.")
  else ret [("product", VStr "Fail2ban"); ("version", VStr v); ("service", VStr (service b)); ("unit", VStr (unit_ b))].

Definition jail (j : string) : cmd W data :=
  do! _ := requireActive in
  do! _ := requireJail j in
  do! s := jailStatus j in
  match s with
  | None => stop (failure 10 "FAIL2BAN_JAIL_STATUS_FAILED" "L’état de la prison Fail2ban n’a pas pu être obtenu.")
  | Some s => ret [("jail", VStr j); ("status", VMap s)]
  end.

Definition reload : cmd W data :=
  do! _ := requireActive in
  do! _ := configtest in
  do! o := ask ["reload"] in
  if succeeded o then ret [("action", VStr "reload"); ("service", VStr (service b)); ("result", VStr "success")]
  else stop (failure 10 "FAIL2BAN_RELOAD_FAILED" "Le rechargement de Fail2ban a échoué.").

Definition restart : cmd W data :=
  do! e := exists_ (unit_ b) in
  if negb e then stop (failure 5 "FAIL2BAN_SERVICE_NOT_FOUND" "Le service Fail2ban est introuvable.")
  else
    do! _ := configtest in
    do! o := run systemd_run (restart_later (unit_ b)) in
    if succeeded o then
      ret [("action", VStr "restart"); ("service", VStr (service b)); ("result", VStr "scheduled"); ("delay_seconds", VInt 5)]
    else stop (failure 10 "FAIL2BAN_RESTART_FAILED" "La programmation du redémarrage de Fail2ban a échoué.").

(** [ban] and [unban]. *)
Definition ban (command j address : string) : cmd W data :=
  do! _ := requireActive in
  do! _ := requireJail j in
  match canonical address with
  | None => stop (failure 6 "INVALID_IP_ADDRESS" "L’adresse IP fournie est invalide.")
  | Some ip =>
      do! o := ask ["set"; j; (if String.eqb command "ban" then "banip" else "unbanip"); ip] in
      if succeeded o then
        ret [("action", VStr command); ("jail", VStr j); ("address", VStr address); ("result", VStr "success")]
      else if String.eqb command "ban"
      then stop (failure 10 "FAIL2BAN_BAN_FAILED" "L’adresse IP n’a pas pu être bannie.")
      else stop (failure 10 "FAIL2BAN_UNBAN_FAILED" "L’adresse IP n’a pas pu être débannie.")
  end.

Definition arg (a : list string) (n : nat) : string := default "" (a !! n).
Definition execute (c : string) (a : list string) : cmd W data :=
  if String.eqb c "info" then info
  else if String.eqb c "status" then status
  else if String.eqb c "jail" then jail (arg a 0)
  else if String.eqb c "configtest" then
    do! _ := configtest in
    ret [("valid", VBool true); ("message", VStr "La configuration de Fail2ban est valide.")]
  else if String.eqb c "reload" then reload
  else if String.eqb c "restart" then restart
  else if String.eqb c "ban" || String.eqb c "unban" then ban c (arg a 0) (arg a 1)
  else ret [].

Definition handle (command : string) (args : list string) : cmd W data :=
  if String.eqb command "" then stop (failure 2 "MISSING_COMMAND" "Aucune commande n’a été indiquée pour le domaine Fail2ban.")
  else match find (λ c, String.eqb c.1 command) counts with
  | None => stop (failure 4 "COMMAND_NOT_FOUND" "La commande demandée n’existe pas dans le domaine Fail2ban.")
  | Some (_, n) =>
      if negb (Nat.eqb (List.length args) n) then
        stop (failure 2 "INVALID_ARGUMENT_COUNT" "Le nombre d’arguments fourni est invalide.")
      else if negb (executable (client b)) then
        stop (failure 5 "FAIL2BAN_NOT_INSTALLED" "Fail2ban n’est pas installé sur ce serveur.")
      else execute command args
  end.
Definition Handle (command : string) (args : list string) : Machine W → Reply * Machine W := serve (handle command args).
End domain.

(** ** What runs, and after what *)

Definition known_client (b : Backend) : Prop := client b = client standard ∨ client b = local_client.
(** A profile cannot name another client. *)
Lemma profile_client l : ∀ b, known_client b → known_client (fold_left profile_step l b).
Proof.
  induction l as [|[k v] l IH]; intros b Hb; [done|]. apply IH. unfold profile_step.
  destruct (String.eqb k "client"); [|by repeat case_match].
  destruct (String.eqb_spec v (client standard)) as [->|_]; [by left|].
  destruct (String.eqb_spec v local_client) as [->|_]; [by right|done].
Qed.
Lemma NewLinuxBackend_client executable content : known_client (NewLinuxBackend executable content).
Proof.
  unfold NewLinuxBackend. destruct (_ && _ && _); [by right|]. apply profile_client. by left.
Qed.

Section facts.
Context {W : Type} `{!Programs W} `{UnicodeCase} `{Addresses} (b : Backend).

(** The calls that act on the service. *)
Definition service_call (n : string) (a : list string) : Prop :=
  (n = client b ∧ a = ["reload"]) ∨ (n = systemd_run ∧ a = restart_later (unit_ b)).
(** The test passed. *)
Definition tested (x : call) : Prop := x.1 = (client b, ["--test"]) ∧ succeeded x.2 = true.
(** The calls that ban or unban, and a list of jails with a given one. *)
Definition ban_call (n : string) (a : list string) : Prop := n = client b ∧ head a = Some "set".
Definition lists_jail (j : string) (x : call) : Prop :=
  x.1 = (client b, ["status"]) ∧ succeeded x.2 = true ∧ j ∈ jail_names (stdout x.2).

Definition harmless (n : string) (a : list string) : Prop := ¬ service_call n a ∧ ¬ ban_call n a.
(** The calls of [systemctl], and those of the client whose first word changes nothing. *)
Lemma harmless_systemctl a : client b ≠ systemctl → harmless systemctl a.
Proof. intros Hc. split; [intros [[Hn _]|[Hn _]]|intros [Hn _]]; try congruence. done. Qed.
Lemma harmless_client w a : (w, a) ≠ ("reload", []) → w ≠ "set" → client b ≠ systemd_run → harmless (client b) (w :: a).
Proof. intros Hw Hs Hc. split; [intros [[_ Hn]|[Hn _]]|intros [_ Hn]]; [|congruence|cbn [head] in Hn]; congruence. Qed.

Context (Hclient : known_client b).

Lemma client_other : client b ≠ systemctl ∧ client b ≠ systemd_run.
Proof. by destruct Hclient as [->| ->]. Qed.
#[local] Hint Extern 1 (harmless systemctl _) => apply harmless_systemctl, client_other : commands.
#[local] Hint Extern 1 (harmless (client _) _) => apply harmless_client; [done|done|apply client_other] : commands.

Lemma requireActive_harmless : only harmless (requireActive (W := W) b).
Proof. walk. Qed.
Lemma jails_harmless : only harmless (jails (W := W) b).
Proof. walk. Qed.
Lemma configtest_harmless : only harmless (configtest (W := W) b).
Proof. walk. Qed.
Lemma status_harmless : only harmless (status (W := W) b).
Proof. walk. Qed.
#[local] Hint Resolve requireActive_harmless jails_harmless configtest_harmless status_harmless : commands.

Lemma harmless_service {A} (c : cmd W A) : only harmless c → only (λ n a, ¬ service_call n a) c.
Proof. apply only_weaken. by intros n a [? _]. Qed.
Lemma harmless_ban {A} (c : cmd W A) : only harmless c → only (λ n a, ¬ ban_call n a) c.
Proof. apply only_weaken. by intros n a [_ ?]. Qed.

Lemma configtest_establishes : establishes service_call tested (configtest (W := W) b).
Proof.
  apply establishes_required; [|by intros o Ho].
  apply harmless_client; [done|done|apply client_other].
Qed.

Lemma requireJail_harmless j : only harmless (requireJail (W := W) b j).
Proof. walk. Qed.
#[local] Hint Resolve requireJail_harmless : commands.

Lemma ban_tested c j address : only (λ n a, ¬ service_call n a) (ban (W := W) b c j address).
Proof.
  unfold ban. apply only_bind; [by apply harmless_service, requireActive_harmless|]. intros _.
  apply only_bind; [by apply harmless_service, requireJail_harmless|]. intros _.
  destruct (canonical address); [|apply only_stop]. apply only_bind.
  - apply only_run. intros [[_ Hn]|[Hn _]]; [done|by apply client_other in Hn].
  - intros o. walk.
Qed.


(** The jail is in the list the client just printed. *)
Lemma requireJail_establishes j : establishes ban_call (lists_jail j) (requireJail (W := W) b j).
Proof.
  intros m out m' Hm. destruct (requireJail_harmless j m out m' Hm) as (l & Hl & Hf).
  exists l. split; [done|]. split; [eapply Forall_impl; [exact Hf|]; by intros x [_ ?]|].
  revert Hm. unfold requireJail. destruct (full jailPattern j); [|intros Hm; by injection Hm as <- _].
  intros Hm Hok. apply bind_inv in Hm as [(e & _ & ->)|(js & m1 & Hj & Hx)]; [done|].
  unfold jails in Hj. apply bind_inv in Hj as [(? & ? & ?)|(o & m2 & Ho & Hs)]; [done|].
  apply run_inv in Ho as (o' & [= <-] & Hm2 & _). injection Hs as <- <-.
  destruct (succeeded o) eqn:Hso; [|injection Hx as <- _; done].
  destruct (existsb _ _) eqn:He; [|injection Hx as <- _; done]. injection Hx as _ <-.
  exists (client b, ["status"], o). split; [|split; [done|]; split; [done|by apply existsb_eqb_elem]].
  unfold ran_since in Hl. rewrite Hm2 in Hl. cbn [ran] in Hl. apply app_inv_head in Hl. subst l. by left.
Qed.

Definition exact_ban (j address : string) (n : string) (a : list string) : Prop :=
  ban_call n a → ∃ verb ip, a = ["set"; j; verb; ip] ∧ verb ∈ ["banip"; "unbanip"] ∧ canonical address = Some ip.
Lemma harmless_exact {A} j address (c : cmd W A) : only harmless c → only (exact_ban j address) c.
Proof. apply only_weaken. by intros n a [_ ?] ?. Qed.

Lemma ban_exact c j address : only (exact_ban j address) (ban (W := W) b c j address).
Proof.
  unfold ban. apply only_bind; [by apply harmless_exact, requireActive_harmless|]. intros _.
  apply only_bind; [by apply harmless_exact, requireJail_harmless|]. intros _.
  destruct (canonical address) as [ip|] eqn:Hip; [|apply only_stop]. apply only_bind; [|intros o; walk].
  apply only_run. intros _. exists (if String.eqb c "ban" then "banip" else "unbanip"), ip.
  split_and!; [done| |done]. destruct (String.eqb c "ban"); set_solver.
Qed.

Lemma ban_guarded c j address : guarded ban_call (lists_jail j) (ban (W := W) b c j address).
Proof.
  unfold ban. apply guarded_bind; [by apply harmless_ban, requireActive_harmless|]. intros _.
  apply guarded_after; [apply requireJail_establishes|]. intros _. walk.
Qed.

Lemma reload_no_ban : only (λ n a, ¬ ban_call n a) (reload (W := W) b).
Proof.
  unfold reload. apply only_bind; [by apply harmless_ban, requireActive_harmless|]. intros _.
  apply only_bind; [by apply harmless_ban, configtest_harmless|]. intros _.
  apply only_bind; [|intros o; walk]. apply only_run. by intros [_ Hh].
Qed.
Lemma restart_no_ban : only (λ n a, ¬ ban_call n a) (restart (W := W) b).
Proof.
  unfold restart. apply only_bind; [apply harmless_ban; walk|]. intros []; [|apply only_stop]. cbn [negb].
  apply only_bind; [by apply harmless_ban, configtest_harmless|]. intros _.
  apply only_bind; [|intros o; walk]. apply only_run. by intros [_ Hh].
Qed.

(** Every other command only runs harmless calls, reload and restart apart. *)
Lemma fail2ban_execute_cases (P : cmd W data → Prop) c a :
  (∀ d, only harmless d → P d) → P (reload b) → P (restart b) → P (ban b c (arg a 0) (arg a 1)) → P (execute (W := W) b c a).
Proof.
  intros Hh Hr Hs Hb. unfold execute.
  repeat (match goal with |- context [if ?x then _ else _] => destruct x; try done; try (by apply Hh; walk) end).
Qed.

Lemma handle_cases (P : cmd W data → Prop) c a :
  (∀ d, only harmless d → P d) → P (reload b) → P (restart b) → P (ban b c (arg a 0) (arg a 1)) → P (handle (W := W) b c a).
Proof.
  intros Hh Hr Hs Hb. unfold handle.
  repeat (match goal with |- P (match ?x with _ => _ end) => destruct x end); try (apply Hh, only_stop).
  by apply fail2ban_execute_cases.
Qed.

Lemma reload_tested : guarded service_call tested (reload (W := W) b).
Proof.
  apply guarded_bind; [by apply harmless_service, requireActive_harmless|]. intros _.
  apply guarded_after; [apply configtest_establishes|]. intros _. walk.
Qed.
Lemma restart_tested : guarded service_call tested (restart (W := W) b).
Proof.
  apply guarded_bind; [apply harmless_service; walk|]. intros []; [|apply guarded_only, only_stop].
  apply guarded_after; [apply configtest_establishes|]. intros _. walk.
Qed.

Lemma handle_effects command args m r m' :
  Handle b command args m = (r, m') →
  ∃ l, ran m' = ran m ++ l ∧ preceded service_call tested l ∧ preceded ban_call (lists_jail (arg args 0)) l ∧
    Forall (calls (exact_ban (arg args 0) (arg args 1))) l.
Proof.
  unfold Handle, serve. destruct (handle b command args m) as [out m1] eqn:Hh. intros Hr.
  assert (m1 = m') as -> by (destruct out; congruence). clear Hr.
  assert (guarded service_call tested (handle (W := W) b command args)) as Hs.
  { apply handle_cases; [|apply reload_tested|apply restart_tested|apply guarded_only, ban_tested].
    intros d Hd. by apply guarded_only, harmless_service. }
  assert (guarded ban_call (lists_jail (arg args 0)) (handle (W := W) b command args)) as Hb.
  { apply handle_cases; [|apply guarded_only, reload_no_ban|apply guarded_only, restart_no_ban|apply ban_guarded].
    intros d Hd. by apply guarded_only, harmless_ban. }
  assert (only (exact_ban (arg args 0) (arg args 1)) (handle (W := W) b command args)) as He.
  { apply handle_cases; [|eapply only_weaken; [|apply reload_no_ban]; by intros n a Hn ?
      |eapply only_weaken; [|apply restart_no_ban]; by intros n a Hn ?|apply ban_exact].
    intros d Hd. by apply harmless_exact. }
  apply Hs in Hh as Hs'. apply Hb in Hh as Hb'. apply He in Hh as (l & Hl & Hf).
  destruct Hs' as (l1 & Hl1 & Hp1), Hb' as (l2 & Hl2 & Hp2). unfold ran_since in *.
  rewrite Hl in Hl1, Hl2. apply app_inv_head in Hl1 as <-, Hl2 as <-. by exists l.
Qed.

Lemma fail2ban_reply_ok command args m : Api.reply_ok (Handle (W := W) b command args m).1.
Proof. apply serve_ok. walk. Qed.
End facts.

(** With any profile, whatever the command, the service is reloaded, or its restart scheduled, only after
    a test of the configuration that passed; an address is banned or unbanned only after the
    client printed a list of jails that holds the one asked for, and the call names that jail
    and the canonical form of the address. *)
Theorem fail2ban_effects {W} `{!Programs W} `{UnicodeCase} `{Addresses} content command args (m : Machine W) r m' :
  let b := NewLinuxBackend executable content in
  Handle b command args m = (r, m') →
  ∃ l, ran m' = ran m ++ l ∧ preceded (service_call b) (tested b) l ∧
    preceded (ban_call b) (lists_jail b (arg args 0)) l ∧ Forall (calls (exact_ban b (arg args 0) (arg args 1))) l.
Proof. apply handle_effects, NewLinuxBackend_client. Qed.

(** A host whose client knows one jail. *)
#[global] Instance f2b_host : Programs nat := {|
  exec w name arguments :=
    (S w, if bool_decide (arguments = ["status"]) then mkOutcome ("Jail list:" +++ String "009" "sshd, nginx") "" 0
          else if bool_decide (arguments = ["show"; "--property=LoadState"; "--value"; "--"; "fail2ban.service"])
          then mkOutcome "loaded" "" 0
          else mkOutcome "" "" 0);
  executable _ := true |}.
#[global] Instance f2b_addresses : Addresses := {|
  canonical s := if String.eqb s "192.0.2.1" then Some s else None;
  address_le := str_le |}.
Definition f2b_start : Machine nat := mkMachine 0%nat [].
Definition f2b_ban : Reply * Machine nat := @Handle _ _ ascii_case _ standard "ban" ["sshd"; "192.0.2.1"] f2b_start.

Example ban_succeeds : Api.resp_success (Api.Resp f2b_ban.1) = true.
Proof. vm_compute. reflexivity. Qed.

Lemma fail2ban_effects_witness :
  ∃ x, x ∈ ran f2b_ban.2 ∧ x.1 = ("/usr/bin/fail2ban-client", ["set"; "sshd"; "banip"; "192.0.2.1"]) ∧
    ∃ y, y ∈ ran f2b_ban.2 ∧ lists_jail (H := ascii_case) standard "sshd" y.
Proof.
  destruct f2b_ban as [r m'] eqn:Hh.
  destruct (@fail2ban_effects _ _ ascii_case _ None "ban" ["sshd"; "192.0.2.1"] f2b_start r m' Hh)
    as (l & Hl & _ & Hp & _). cbn [snd].
  assert (ran m' = ran f2b_ban.2) as Hr by (rewrite Hh; reflexivity).
  assert (∃ l1 x, ran f2b_ban.2 = l1 ++ [x] ∧ x.1 = ("/usr/bin/fail2ban-client", ["set"; "sshd"; "banip"; "192.0.2.1"])) as (l1 & x & Hx & H1).
  { vm_compute. eexists [_; _; _], _. done. }
  rewrite Hr. exists x. split; [rewrite Hx; set_solver|]. split; [done|].
  rewrite Hr in Hl. cbn [ran f2b_start app] in Hl. subst l.
  destruct (Hp l1 x [] Hx) as (y & Hy & Hq).
  { unfold calls. rewrite H1. done. }
  exists y. split; [rewrite Hx; set_solver|done].
Defined.
