(* ===== verification/Tor.v ===== *)
(** * The Tor domain: [domain/tor]

    The Tor binary and its unit, the onion services of its configuration, and the actions
    on the service, which verify the configuration first.  The files it opens are
    parameters: [None] when one cannot be opened. *)

From S2P Require Import Prelude GoStrings StringFacts Regex Backtrack Command Units.
From S2P Require Api Backup CronTasks.
From Stdlib Require Import Ascii String.
#[local] Open Scope string_scope.
#[local] Open Scope list_scope.
#[local] Open Scope Z_scope.

Import Api(Reply, failure, success, VStr, VInt, VBool, VList, VMap, VNil, Value).

Record Backend := mkBackend {
  binary : string; config : string; defaults : string; unit_ : string; service : string; dataDirectory : string }.
Definition standard : Backend :=
  mkBackend "/usr/sbin/tor" "/etc/tor/torrc" "/usr/share/tor/tor-service-defaults-torrc" "tor@default.service"
    "tor@default" "/var/lib/tor".

Definition alnum (c : ascii) : bool := is_lower c || is_upper c || is_digit c.
Definition torUnitPattern : rx := lit "tor" ;;; opt (Cls (Ascii.eqb "@") ;;; plus (Cls (cls alnum "_.-"))) ;;; lit ".service".
Definition safeTorConfig (v : string) : bool :=
  has_prefix (Backup.Clean v) "/etc/tor/" || has_prefix (Backup.Clean v) "/usr/local/etc/tor/".

(** [loadProfile]: each entry in turn. *)
Definition profile_step (b : Backend) (entry : string * string) : Backend :=
  let '(mkBackend bin conf defs u s data_) := b in
  let '(key, v) := entry in
  if String.eqb key "binary" then
    if String.eqb v "/usr/sbin/tor" || String.eqb v "/usr/bin/tor" then mkBackend v conf defs u s data_ else b
  else if String.eqb key "config" then
    if safeTorConfig v then mkBackend bin (Backup.Clean v) defs u s data_ else b
  else if String.eqb key "defaults" then
    if String.eqb v "" || safeTorConfig v || has_prefix (Backup.Clean v) "/usr/share/tor/"
    then mkBackend bin conf (if String.eqb v "" then "" else Backup.Clean v) u s data_ else b
  else if String.eqb key "unit" then
    if full torUnitPattern v then mkBackend bin conf defs v (trim_suffix v ".service") data_ else b
  else if String.eqb key "data_directory" then
    if String.eqb (Backup.Clean v) "/var/lib/tor" || has_prefix (Backup.Clean v) "/var/lib/tor-"
    then mkBackend bin conf defs u s (Backup.Clean v) else b
  else b.
Definition loadProfile (b : Backend) (content : option string) : Backend := fold_left profile_step (profile_entries content) b.
Definition NewLinuxBackend (executable regular : string → bool) (content : option string) : Backend :=
  let '(mkBackend bin conf defs u s data_) := loadProfile standard content in
  mkBackend
    (if String.eqb bin (binary standard) && negb (executable bin) && executable "/usr/bin/tor" then "/usr/bin/tor" else bin)
    conf (if negb (String.eqb defs "") && negb (regular defs) then "" else defs) u s data_.

(** ** Onion services *)

Record onion := mkOnion { o_ID : string; Hostname : option string; Ports : list (Z * string) }.

Definition not_space : ascii → bool := but re_space.
Definition dirRe : pat := word_i "HiddenServiceDir" >> spaces1 >> PGroup 1 (some_bytes not_space) >> spaces >> PEnd.
Definition portRe : pat :=
  word_i "HiddenServicePort" >> spaces1 >> PGroup 1 digits >> spaces1 >> PGroup 2 (some_bytes not_space) >> spaces >> PEnd.
Definition onionName : rx := Rep (λ c, is_lower c || between "2" "7" c) 56 56 ;;; lit ".onion".

Section hidden.
(** The files of host names. *)
Context (read_file : string → option string) (data_directory : string).

Definition under_data (d : string) : bool :=
  negb (String.eqb d data_directory) && has_prefix d (data_directory +++ "/").
Definition onion_of (d : string) : onion :=
  mkOnion (trim_prefix (CronTasks.path_base d) "aegisadmin-")
    (match read_file (Backup.Join d "hostname") with
     | Some h => if full onionName (trim_space h) then Some (trim_space h) else None
     | None => None
     end) [].
(** The services read so far, the last first, and whether it takes the ports that follow. *)
Definition hidden_line (a : list onion * bool) (raw : string) : list onion * bool :=
  let '(items, open_) := a in
  let l := trim_space raw in
  if String.eqb l "" || has_prefix l "#" then a
  else match match_here dirRe l with
  | Some g =>
      let d := Backup.Clean (group g 1) in
      if under_data d then (onion_of d :: items, true) else (items, false)
  | None =>
      match match_here portRe l, items with
      | Some g, x :: items' =>
          let n := atoi_val (group g 1) in
          if open_ && (1 <=? n) && (n <=? 65535)
          then (mkOnion (o_ID x) (Hostname x) (Ports x ++ [(n, group g 2)]) :: items', true) else a
      | _, _ => a
      end
  end.
Definition onion_le (x y : onion) : Prop := str_le (o_ID x) (o_ID y).
#[global] Instance onion_le_dec x y : Decision (onion_le x y).
Proof. unfold onion_le. apply _. Defined.
Definition hidden (content : option string) : option (list onion) :=
  match content with
  | None => None
  | Some text =>
      let '(lines, ok) := scan_lines text in
      if ok then Some (merge_sort onion_le (rev (fold_left hidden_line lines ([], false)).1)) else None
  end.
End hidden.

Section domain.
Context {W : Type} `{!Programs W} (b : Backend) (read_file : string → option string).

Definition data := list (string * Value).

(** [valid]: the configuration as the binary verifies it. *)
Definition verify_arguments : list string :=
  (if String.eqb (defaults b) "" then [] else ["--defaults-torrc"; defaults b]) ++
  ["-f"; config b; "--RunAsDaemon"; "0"; "--verify-config"].
Definition valid : cmd W () :=
  do! o := run (binary b) verify_arguments in
  if succeeded o then ret () else stop (failure 9 "TOR_CONFIG_INVALID" "La configuration de Tor est invalide.").

Definition bootstrapped : pat := word "Bootstrapped " >> PGroup 1 digits >> word "%".
(** The last progress in the journal. *)
Definition bootstrap_percent (o : string) : Value :=
  match last (find_all bootstrapped o) with
  | Some g => let n := atoi_val (group g 1) in if n <=? 100 then VInt n else VNil
  | None => VNil
  end.

Definition status_of (load : string) (is_there is_active is_enabled : bool) (active_state state : string)
    (pid memory tasks : Z) (percent : Value) : data :=
  [("service", VStr (service b)); ("unit", VStr (unit_ b)); ("exists", VBool is_there); ("active", VBool is_active);
   ("enabled", VBool is_enabled); ("load_state", VStr load); ("active_state", VStr active_state); ("state", VStr state);
   ("main_pid", VInt pid); ("memory_bytes", VInt memory); ("tasks", VInt tasks); ("bootstrap_percent", percent)].
Definition status : cmd W data :=
  do! load := value (unit_ b) "LoadState" "not-found" in
  if negb (present load) then ret (status_of load false false false "inactive" "unknown" 0 0 0 VNil)
  else
    do! is_active := active (unit_ b) in
    do! is_enabled := enabled (unit_ b) in
    do! active_state := value (unit_ b) "ActiveState" "inactive" in
    do! state := value (unit_ b) "SubState" "unknown" in
    do! pid := counter (unit_ b) "MainPID" in
    do! memory := counter (unit_ b) "MemoryCurrent" in
    do! tasks := counter (unit_ b) "TasksCurrent" in
    do! o := run "/usr/bin/journalctl" ["--unit=" +++ unit_ b; "--output=cat"; "--no-pager"; "--lines=300"] in
    ret (status_of load true is_active is_enabled active_state state pid memory tasks (bootstrap_percent (stdout o))).

Definition info : cmd W data :=
  do! o := run (binary b) ["--version"] in
  let first := default "" (head (split nl (stdout o))) in
  let v := trim_suffix (trim_prefix first "Tor version ") "." in
  if negb (succeeded o) || String.eqb v "" || String.eqb v (stdout o)
  then stop (failure 10 "TOR_VERSION_INVALID" "La version de Tor n’a pas pu être déterminée.")
  else ret [("product", VStr "Tor"); ("version", VStr v); ("config_file", VStr (config b)); ("service", VStr (service b));
            ("unit", VStr (unit_ b))].

Definition require_unit : cmd W () :=
  do! e := exists_ (unit_ b) in
  if e then ret () else stop (failure 5 "TOR_SERVICE_NOT_FOUND" "Le service Tor est introuvable.").

Definition reload : cmd W data :=
  do! _ := valid in
  do! _ := require_unit in
  do! a := active (unit_ b) in
  if negb a then stop (failure 7 "TOR_SERVICE_NOT_ACTIVE" "Le service Tor n’est pas actif.")
  else
    do! o := run systemctl ["reload"; "--"; unit_ b] in
    if succeeded o then ret [("action", VStr "reload"); ("service", VStr (service b)); ("result", VStr "success")]
    else stop (failure 10 "TOR_RELOAD_FAILED" "Le rechargement de Tor a échoué.").

Definition restart : cmd W data :=
  do! _ := valid in
  do! _ := require_unit in
  do! o := run systemd_run (restart_later (unit_ b)) in
  if succeeded o then
    ret [("action", VStr "restart"); ("service", VStr (service b)); ("result", VStr "scheduled"); ("delay_seconds", VInt 5)]
  else stop (failure 10 "TOR_RESTART_FAILED" "La programmation du redémarrage de Tor a échoué.").

Definition port_value (p : Z * string) : Value := VMap [("public_port", VInt p.1); ("target", VStr p.2)].
Definition onion_value (o : onion) : Value :=
  VMap [("id", VStr (o_ID o)); ("hostname", match Hostname o with Some h => VStr h | None => VNil end);
        ("ports", VList (port_value <$> Ports o))].

Definition execute (c : string) : cmd W data :=
  if String.eqb c "info" then info
  else if String.eqb c "status" then status
  else if String.eqb c "configtest" then
    do! _ := valid in
    ret [("valid", VBool true); ("message", VStr "La configuration de Tor est valide.")]
  else if String.eqb c "hidden-services" then
    match hidden read_file (dataDirectory b) (read_file (config b)) with
    | None => stop (failure 10 "TOR_HIDDEN_SERVICES_FAILED" "Les services Onion n’ont pas pu être lus.")
    | Some s => ret [("services", VList (onion_value <$> s))]
    end
  else if String.eqb c "reload" then reload
  else if String.eqb c "restart" then restart
  else ret [].

Definition known : list string := ["info"; "status"; "configtest"; "hidden-services"; "reload"; "restart"].
Definition handle (c : string) (a : list string) : cmd W data :=
  if String.eqb c "" then stop (failure 2 "MISSING_COMMAND" "Aucune commande n’a été indiquée pour le domaine Tor.")
  else if negb (existsb (String.eqb c) known) then
    stop (failure 4 "COMMAND_NOT_FOUND" "La commande demandée n’existe pas dans le domaine Tor.")
  else if negb (Nat.eqb (List.length a) 0) then
    stop (failure 2 "INVALID_ARGUMENT_COUNT" "Le nombre d’arguments fourni est invalide.")
  else if negb (executable (binary b)) then
    stop (failure 5 "TOR_NOT_INSTALLED" "Tor n’est pas installé sur ce serveur.")
  else match read_file (config b) with
  | None => stop (failure 5 "TOR_CONFIG_NOT_FOUND" "La configuration principale de Tor est introuvable.")
  | Some _ => execute c
  end.
Definition Handle (c : string) (a : list string) : Machine W → Reply * Machine W := serve (handle c a).

(** ** What runs, and after what *)

Definition service_call (n : string) (a : list string) : Prop :=
  (n = systemctl ∧ a = ["reload"; "--"; unit_ b]) ∨ (n = systemd_run ∧ a = restart_later (unit_ b)).
Definition verified (x : call) : Prop := x.1 = (binary b, verify_arguments) ∧ succeeded x.2 = true.

Context (Hbinary : binary b = "/usr/sbin/tor" ∨ binary b = "/usr/bin/tor").

Lemma binary_other : binary b ≠ systemctl ∧ binary b ≠ systemd_run.
Proof. by destruct Hbinary as [->| ->]. Qed.

Lemma not_service_binary a : ¬ service_call (binary b) a.
Proof. intros [[Hn _]|[Hn _]]; by apply binary_other in Hn. Qed.
Lemma not_service_systemctl w a : w ≠ "reload" → ¬ service_call systemctl (w :: a).
Proof. intros Hw [[_ Hn]|[Hn _]]; [congruence|done]. Qed.
Lemma not_service_journal a : ¬ service_call "/usr/bin/journalctl" a.
Proof. by intros [[Hn _]|[Hn _]]. Qed.
#[local] Hint Resolve not_service_binary not_service_systemctl not_service_journal : commands.
#[local] Hint Extern 1 (_ ≠ "reload") => done : commands.

Lemma valid_establishes : establishes service_call verified valid.
Proof. apply establishes_required; [apply not_service_binary|]. by intros o Ho. Qed.

Lemma handle_verified c a : guarded service_call verified (handle c a).
Proof.
  unfold handle, execute.
  repeat (match goal with |- guarded _ _ (match ?x with _ => _ end) => destruct x end).
  all: try (by apply guarded_only; walk).
  all: apply guarded_after; [apply valid_establishes|]; intros _; walk.
Qed.
End domain.

(** *** What a profile can choose *)

(** The binary is one of two, the configuration and the data stay in Tor's directories, the
    unit is one of Tor's. *)
Definition confined (b : Backend) : Prop :=
  (binary b = "/usr/sbin/tor" ∨ binary b = "/usr/bin/tor") ∧
  (has_prefix (config b) "/etc/tor/" = true ∨ has_prefix (config b) "/usr/local/etc/tor/" = true) ∧
  full torUnitPattern (unit_ b) = true ∧ unit_ b = service b +++ ".service" ∧
  (dataDirectory b = "/var/lib/tor" ∨ has_prefix (dataDirectory b) "/var/lib/tor-" = true).

Lemma unit_service v : full torUnitPattern v = true → v = trim_suffix v ".service" +++ ".service".
Proof.
  unfold full, torUnitPattern. intros Hv%rx_match_spec.
  apply Lang_cat in Hv as (s1 & s2 & -> & _ & Hv). apply Lang_cat in Hv as (s3 & s4 & -> & _ & Hv%Lang_lit). subst s4.
  rewrite <- sapp_assoc. by rewrite trim_suffix_app.
Qed.

Lemma profile_step_confined b entry : confined b → confined (profile_step b entry).
Proof.
  destruct b as [bin conf defs u s data_], entry as [key v]. unfold confined. cbn [binary config unit_ service dataDirectory].
  intros (Hb & Hc & Hu & Hs & Hd). unfold profile_step.
  repeat (match goal with |- context [if ?x then _ else _] => destruct x eqn:? end);
    cbn [binary config unit_ service dataDirectory]; split_and!; try done.
  - bool_prop. apply orb_prop in Heqb0 as [->%String.eqb_eq| ->%String.eqb_eq]; auto.
  - by apply orb_prop in Heqb1 as [?|?]; [left|right].
  - by apply unit_service.
  - apply orb_prop in Heqb4 as [?%String.eqb_eq|?]; auto.
Qed.

Lemma NewLinuxBackend_confined executable regular content : confined (NewLinuxBackend executable regular content).
Proof.
  assert (confined (loadProfile standard content)) as Hl.
  { unfold loadProfile. assert (confined standard) as Hs by (unfold confined; auto 10).
    revert Hs. generalize standard. induction (profile_entries content) as [|x l IH]; intros b Hb; [done|].
    apply IH. by apply profile_step_confined. }
  unfold NewLinuxBackend. destruct (loadProfile standard content) as [bin conf defs u s data_].
  destruct Hl as (Hb & Hc & Hu & Hs & Hd). unfold confined. cbn [binary config unit_ service dataDirectory] in *.
  split_and!; try done. destruct (_ && _ && _); [by right|done].
Qed.

(** With any profile, the service of Tor is reloaded, or its restart scheduled, only after
    the configured binary verified the configuration and succeeded. *)
Theorem tor_effects {W} `{!Programs W} regular content read_file command args (m : Machine W) :
  let b := NewLinuxBackend executable regular content in
  ∃ l, ran (Handle b read_file command args m).2 = ran m ++ l ∧ preceded (service_call b) (verified b) l.
Proof.
  intros b. destruct (handle b read_file command args m) as [out m1] eqn:Hh. unfold Handle.
  rewrite (serve_machine _ _ _ _ Hh). eapply handle_verified in Hh; [exact Hh|apply NewLinuxBackend_confined].
Qed.

Lemma tor_reply_ok {W} `{!Programs W} b read_file command args (m : Machine W) :
  Api.reply_ok (Handle b read_file command args m).1.
Proof. apply serve_ok. walk. Qed.

(** Ports follow the directory they stand under, and a directory elsewhere is left out with
    its ports. *)
Example onion_services :
  hidden (λ p, if String.eqb p "/var/lib/tor/web/hostname" then Some "not an onion name" else None) "/var/lib/tor"
    (Some (join snl ["HiddenServiceDir /var/lib/tor/web/"; "HiddenServicePort 80 127.0.0.1:8080";
                     "HiddenServiceDir /etc/elsewhere"; "HiddenServicePort 22 127.0.0.1:22";
                     "HiddenServiceDir /var/lib/tor/aegisadmin-a"; "HiddenServicePort 99999 127.0.0.1:1"]))
  = Some [mkOnion "a" None []; mkOnion "web" None [(80, "127.0.0.1:8080")]].
Proof. vm_compute. reflexivity. Qed.
