(* ===== verification/Services.v ===== *)
(** * The services domain: [domain/services]

    The services the administrator allows, their state as [systemctl show] prints it, and
    the restart of one of them. *)

From S2P Require Import Prelude GoStrings StringFacts Regex Command.
From S2P Require Api.
From Stdlib Require Import Ascii String.
#[local] Open Scope string_scope.
#[local] Open Scope list_scope.
#[local] Open Scope Z_scope.

Import Api(Reply, failure, success, VStr, VInt, VBool, VList, VMap, VNil, Value).

Definition systemctlCommand : string := "/usr/bin/systemctl".
Definition defaultAllowedServices : list string :=
  ["apache2"; "httpd"; "mysql"; "mariadb"; "mysqld"; "fail2ban"; "tor"; "tor@default"; "cron"; "crond"; "ssh"; "sshd"].

Definition alnum (c : ascii) : bool := is_lower c || is_upper c || is_digit c.
Definition identifierPattern : rx := Cls alnum ;;; Star (Cls (cls alnum "@._-")).
Definition phpFPMUnitPattern : rx :=
  lit "php" ;;; plus (Cls is_digit) ;;; lit "." ;;; plus (Cls is_digit) ;;; lit "-fpm.service".

Record Service := mkService { ID : string; Exists : bool; Active : bool; Enabled : bool; State : string }.

Definition uniqueSorted (values : list string) : list string := sort_strings (unique_from [] values).

(** The file of allowed services: [None] when it cannot be read. *)
Definition configuredServices (content : option string) : list string :=
  match content with
  | None => defaultAllowedServices
  | Some text => uniqueSorted (filter (λ v, full identifierPattern v = true) ((λ raw, trim_space (before "#" raw)) <$> split nl text))
  end.
Definition serviceAllowed (content : option string) (service : string) : bool :=
  full phpFPMUnitPattern (service +++ ".service") || existsb (String.eqb service) (configuredServices content).

(** ** [parseSystemctlShow] *)

Definition properties := gmap string string.
Definition prop (p : properties) (k : string) : string := default "" (p !! k).
Definition flush (items : list properties) (current : properties) : list properties :=
  if bool_decide (current = ∅) then items else items ++ [current].
Definition show_line (a : list properties * properties) (raw : string) : list properties * properties :=
  let '(items, current) := a in
  let l := trim_space raw in
  if String.eqb l "" then (flush items current, ∅)
  else match cut "=" l with
  | (key, value, true) =>
      if String.eqb key "Id" && negb (String.eqb (prop current "Id") "")
      then (flush items current, {[key := value]})
      else (items, <[key := value]> current)
  | _ => a
  end.
Definition parseSystemctlShow (output : string) : list properties :=
  let '(items, current) := fold_left show_line (split nl output) ([], ∅) in flush items current.

(** ** [statuses] *)

(** The last index of a unit, as the map of the code keeps it. *)
Fixpoint index_from (i : nat) (found : option nat) (services : list string) (unit_ : string) : option nat :=
  match services with
  | [] => found
  | s :: services => index_from (S i) (if String.eqb (s +++ ".service") unit_ then Some i else found) services unit_
  end.
Definition by_unit (services : list string) (unit_ : string) : option nat := index_from 0 None services unit_.

Fixpoint first_found {A} (f : string → option A) (l : list string) : option A :=
  match l with [] => None | x :: l => match f x with Some a => Some a | None => first_found f l end end.
Definition block_index (services : list string) (p : properties) : option nat :=
  match by_unit services (prop p "Id") with
  | Some i => Some i
  | None => first_found (by_unit services) (fields (prop p "Names"))
  end.
Definition record_block (services : list string) (results : list Service) (p : properties) : list Service :=
  match block_index services p with
  | None => results
  | Some i =>
      let load := prop p "LoadState" in
      if negb (String.eqb load "loaded") && negb (String.eqb load "masked") then results
      else <[i := mkService (default "" (services !! i)) true (String.eqb (prop p "ActiveState") "active")
                    (String.eqb (prop p "UnitFileState") "enabled")
                    (if String.eqb (prop p "SubState") "" then "unknown" else prop p "SubState")]> results
  end.
Definition absent (service : string) : Service := mkService service false false false "not-found".
Definition statuses_of (services : list string) (output : string) : list Service :=
  fold_left (record_block services) (parseSystemctlShow output) (absent <$> services).

Section domain.
Context {W : Type} `{!Programs W} (allowed_file : option string).

Definition data := list (string * Value).
Definition show_arguments (services : list string) : list string :=
  ["show"; "--property=Id"; "--property=Names"; "--property=LoadState"; "--property=ActiveState";
   "--property=UnitFileState"; "--property=SubState"; "--"] ++ ((λ s, s +++ ".service") <$> services).
Definition statuses (services : list string) : cmd W (list Service) :=
  do! o := run systemctlCommand (show_arguments services) in
  ret (if negb (succeeded o) && String.eqb (stdout o) "" then absent <$> services else statuses_of services (stdout o)).

Definition fpm_units (output : string) : list string :=
  omap (λ l, match fields l with
    | u :: _ => if full phpFPMUnitPattern u then Some (trim_suffix u ".service") else None
    | [] => None end) (split nl output).
Definition allowedServices : cmd W (list string) :=
  do! o := run systemctlCommand ["list-unit-files"; "--type=service"; "--no-legend"; "--no-pager"; "php*-fpm.service"] in
  ret (uniqueSorted (configuredServices allowed_file ++ fpm_units (stdout o))).

Definition List_ : cmd W (list Service) := do! services := allowedServices in statuses services.
Definition Status (service : string) : cmd W Service :=
  do! l := statuses [service] in ret (default (absent service) (l !! 0%nat)).

Definition service_value (s : Service) : Value :=
  VMap [("id", VStr (ID s)); ("exists", VBool (Exists s)); ("active", VBool (Active s)); ("enabled", VBool (Enabled s));
        ("state", VStr (State s))].

Definition validateService (service : string) : cmd W () :=
  if negb (full identifierPattern service) then
    stop (failure 2 "INVALID_SERVICE_IDENTIFIER" "L’identifiant du service est invalide.")
  else if serviceAllowed allowed_file service then ret ()
  else stop (failure 6 "SERVICE_NOT_ALLOWED" "Le service demandé n’est pas autorisé.").

Definition restart (service : string) : cmd W data :=
  do! _ := validateService service in
  do! s := Status service in
  if negb (Exists s) then stop (failure 5 "SERVICE_NOT_FOUND" "Le service demandé est introuvable.")
  else
    do! o := run systemctlCommand ["restart"; "--"; service +++ ".service"] in
    if succeeded o then ret [("service", VStr service); ("action", VStr "restart"); ("result", VStr "success")]
    else stop (failure 10 "SERVICE_RESTART_FAILED" "Le redémarrage du service a échoué.").

Definition invalidArgumentCount : Reply := failure 2 "INVALID_ARGUMENT_COUNT" "Le nombre d’arguments fourni est invalide.".
Definition handle (command : string) (arguments : list string) : cmd W data :=
  if String.eqb command "" then stop (failure 2 "MISSING_COMMAND" "Aucune commande n’a été indiquée pour le domaine services.")
  else if String.eqb command "list" then
    match arguments with
    | [] => do! items := List_ in ret [("services", VList (service_value <$> items))]
    | _ => stop invalidArgumentCount
    end
  else if String.eqb command "status" then
    match arguments with
    | [service] => do! _ := validateService service in do! s := Status service in ret [("service", service_value s)]
    | _ => stop invalidArgumentCount
    end
  else if String.eqb command "restart" then
    match arguments with [service] => restart service | _ => stop invalidArgumentCount end
  else stop (failure 4 "COMMAND_NOT_FOUND" "La commande demandée n’existe pas dans le domaine services.").
Definition Handle (command : string) (arguments : list string) : Machine W → Reply * Machine W := serve (handle command arguments).

(** ** What is restarted *)

Definition restart_call (n : string) (a : list string) : Prop := n = systemctlCommand ∧ head a = Some "restart".
(** The state of the unit as it was printed just before. *)
Definition shown (service : string) (x : call) : Prop :=
  x.1 = (systemctlCommand, show_arguments [service]) ∧
  ∃ s, statuses_of [service] (stdout x.2) !! 0%nat = Some s ∧ Exists s = true.
Definition exact_restart (service : string) (n : string) (a : list string) : Prop :=
  restart_call n a → a = ["restart"; "--"; service +++ ".service"] ∧ full identifierPattern service = true ∧
    serviceAllowed allowed_file service = true.

Lemma record_block_length services l : ∀ r, List.length (fold_left (record_block services) l r) = List.length r.
Proof.
  induction l as [|p l IH]; intros r; [done|]. cbn [fold_left]. rewrite IH. unfold record_block.
  repeat case_match; by rewrite ?length_insert.
Qed.

Lemma Status_establishes service m s m' :
  Status service m = (Ok s, m') → Exists s = true →
  ∃ x, ran m' = ran m ++ [x] ∧ shown service x.
Proof.
  unfold Status, statuses. intros Hs He.
  apply bind_Ok in Hs as (l & m1 & Hs & Hl). apply bind_Ok in Hs as (o & m2 & Ho & Hr).
  apply run_inv in Ho as (o' & [= <-] & Hm & _). injection Hr as Hr <-. injection Hl as Hl <-.
  exists (systemctlCommand, show_arguments [service], o). split; [by rewrite Hm|]. split; [done|].
  destruct (negb (succeeded o) && _); subst l.
  - cbn in Hl. by subst s.
  - cbn [stdout snd]. destruct (statuses_of [service] (stdout o) !! 0%nat) as [x|] eqn:Hx.
    + exists x. change (x = s) in Hl. by rewrite Hl.
    + change (absent service = s) in Hl. by subst s.
Qed.

(** Which calls restart something: none but the last of [restart]. *)
Definition reading (n : string) (a : list string) : Prop := ¬ restart_call n a.
Lemma reading_word w a : w ≠ "restart" → reading systemctlCommand (w :: a).
Proof. intros Hw [_ Hh]. cbn [head] in Hh. congruence. Qed.
#[local] Hint Extern 1 (reading systemctlCommand _) => by apply reading_word : commands.
Lemma show_reading services : reading systemctlCommand (show_arguments services).
Proof. by apply reading_word. Qed.
#[local] Hint Resolve show_reading : commands.

Lemma Status_reads service : only reading (Status service).
Proof. walk. Qed.
Lemma validateService_reads service : only reading (validateService service).
Proof. walk. Qed.

Lemma restart_spec service m out m' :
  restart service m = (out, m') →
  ∃ l, ran m' = ran m ++ l ∧ preceded restart_call (shown service) l ∧ Forall (calls (exact_restart service)) l.
Proof.
  unfold restart. intros [(e & He & _)|([] & m1 & Hv & Hm)]%bind_inv.
  { apply validateService_reads in He as (l & Hl & Hf). exists l. split; [done|]. split; [by apply preceded_none|].
    eapply Forall_impl; [exact Hf|]. intros x Hx Hr. by destruct Hx. }
  assert (full identifierPattern service = true ∧ serviceAllowed allowed_file service = true ∧ m1 = m) as (Hi & Ha & ->).
  { unfold validateService in Hv. destruct (full _ _); [|done]. cbn [negb] in Hv.
    destruct (serviceAllowed _ _); [|done]. split_and!; try done. by injection Hv. }
  destruct (Status service m) as [s m2] eqn:Hs. pose proof (Status_reads _ _ _ _ Hs) as (l & Hl & Hf).
  assert (∀ l', Forall (calls reading) l' → Forall (calls (exact_restart service)) l') as Hex.
  { intros l' Hl'. eapply Forall_impl; [exact Hl'|]. intros x Hx Hr. by destruct Hx. }
  unfold bind at 1 in Hm. rewrite Hs in Hm. destruct s as [s|e]; [|injection Hm as _ <-].
  2:{ exists l. split; [done|]. split; [by apply preceded_none|by apply Hex]. }
  destruct (Exists s) eqn:He; cbn [negb] in Hm.
  2:{ injection Hm as _ <-. exists l. split; [done|]. split; [by apply preceded_none|by apply Hex]. }
  destruct (Status_establishes _ _ _ _ Hs He) as (x & Hx & Hsh).
  apply bind_inv in Hm as [(e & Hr & _)|(o & m3 & Hr & Hd)]; [by apply run_inv in Hr as (? & ? & _)|].
  apply run_inv in Hr as (o' & [= <-] & Hm3 & _).
  assert (m3 = m') as <- by (destruct (succeeded o); unfold ret, stop in Hd; congruence).
  exists (l ++ [(systemctlCommand, ["restart"; "--"; service +++ ".service"], o)]). split_and!.
  - rewrite Hm3. cbn [ran]. rewrite Hl, app_assoc. done.
  - apply preceded_app; [done|]. right. exists x. split; [|done]. rewrite Hl in Hx. apply app_inv_head in Hx as ->. by left.
  - apply Forall_app. split; [by apply Hex|]. constructor; [|done]. intros _. done.
Qed.
End domain.
#[local] Hint Extern 1 (reading systemctlCommand _) => by apply reading_word : commands.
#[local] Hint Resolve show_reading : commands.

(** A service is restarted only by the command restart with its name, only when the name
    is well formed and allowed by the administrator's file (or is a PHP-FPM unit), and only
    after systemctl printed that its unit exists; the call names that unit and no other. *)
Theorem services_effects {W} `{!Programs W} allowed_file command args (m : Machine W) :
  ∃ l, ran (Handle allowed_file command args m).2 = ran m ++ l ∧
    (command ≠ "restart" ∨ List.length args ≠ 1%nat → Forall (λ x, ¬ restart_call x.1.1 x.1.2) l) ∧
    ∀ service, args = [service] → preceded restart_call (shown service) l ∧
      Forall (calls (exact_restart allowed_file service)) l.
Proof.
  destruct (handle allowed_file command args m) as [out m'] eqn:Hh. unfold Handle. rewrite (serve_machine _ _ _ _ Hh).
  destruct (decide (command = "restart" ∧ List.length args = 1%nat)) as [[-> Ha]|Hn].
  - destruct args as [|service [|]]; try done. apply restart_spec in Hh as (l & Hl & Hp & Hf).
    exists l. split; [done|]. split; [by intros [?|?]|]. intros s Hs. injection Hs as <-. done.
  - assert (only reading (handle (W := W) allowed_file command args)) as Ho.
    { unfold handle. destruct (String.eqb_spec command "restart") as [->|Hc]; [|walk].
      destruct args as [|? [|]]; [walk| |walk]. by destruct Hn. }
    apply Ho in Hh as (l & Hl & Hf). exists l. split; [done|]. split; [by intros _|].
    intros s Hs. split; [by apply preceded_none|]. eapply Forall_impl; [exact Hf|]. intros x Hx Hr. by destruct Hx.
Qed.

Lemma services_reply_ok {W} `{!Programs W} allowed_file command args (m : Machine W) :
  Api.reply_ok (Handle allowed_file command args m).1.
Proof. apply serve_ok. walk. Qed.

(** [list] gives one state per allowed service, in order. *)
Lemma statuses_of_length services output : List.length (statuses_of services output) = List.length services.
Proof. unfold statuses_of. by rewrite record_block_length, length_fmap. Qed.

Example show_output :
  statuses_of ["cron"; "ssh"] (join snl ["Id=ssh.service"; "Names=ssh.service sshd.service"; "LoadState=loaded";
    "ActiveState=active"; "UnitFileState=enabled"; "SubState=running"; ""; "Id=cron.service"; "LoadState=not-found"])
  = [absent "cron"; mkService "ssh" true true true "running"].
Proof. vm_compute. reflexivity. Qed.
