(* ===== verification/Logs.v ===== *)
(** * The logs domain: [domain/logs]

    The policy that says which directories and files of [/var/log] may be read, the list
    of logs it gives, and the reading of the end of one of them.  What the file system
    holds is a parameter: resolved paths, directory entries, kinds of files, contents. *)

From S2P Require Import Prelude GoStrings StringFacts Regex Command.
From S2P Require Api Backup CronTasks.
From Stdlib Require Import Ascii String.
#[local] Open Scope string_scope.
#[local] Open Scope list_scope.
#[local] Open Scope Z_scope.

Import Api(Reply, failure, success, VStr, VInt, VBool, VList, VMap, VNil, Value).
Import Backup(Clean, IsAbs, Join, clean_elements, proper, slash).
Import CronTasks(path_base).

Definition minimumLines : Z := 1.
Definition maximumLines : Z := 5000.
Definition tailCommand : string := "/usr/bin/tail".
Definition logsRoot : string := "/var/log".

Definition alnum (c : ascii) : bool := is_lower c || is_upper c || is_digit c.
Definition identifierPattern : rx := plus (Cls (cls alnum "._/-")).
(** A dot, digits and the end of the name; the same before the suffix of a compressor. *)
Definition numberedRotationPattern (s : string) : bool :=
  full (Star (Cls any_byte) ;;; lit "." ;;; plus (Cls is_digit)) s.
Definition compressedRotationPattern (s : string) : bool :=
  full (Star (Cls any_byte) ;;; lit "." ;;; plus (Cls is_digit) ;;; lit "." ;;;
        (Alt (lit "gz") (Alt (lit "xz") (Alt (lit "zst") (Alt (lit "zip") (lit "bz2")))))) s.

Record Log := mkLog { ID : string; Path : string }.

(** ** Paths *)

(** [filepath.Rel] of two clean absolute paths. *)
Fixpoint rel_elements (base target : list string) : list string :=
  match base, target with
  | x :: base', y :: target' =>
      if String.eqb x y then rel_elements base' target' else (const ".." <$> base) ++ target
  | _, _ => (const ".." <$> base) ++ target
  end.
Definition Rel (base target : string) : option string :=
  if negb (Bool.eqb (IsAbs (Clean base)) (IsAbs (Clean target))) then None
  else
    let r := join "/" (rel_elements (clean_elements base) (clean_elements target)) in
    Some (if String.eqb r "" then "." else r).
(** Below the base: not the base itself, and no step up. *)
Definition below (base target : string) : bool :=
  match Rel base target with
  | Some r => negb (String.eqb r "." || String.eqb r ".." || has_prefix r "../")
  | None => false
  end.

Definition safeConfiguredPath (path : string) : bool :=
  IsAbs path && String.eqb (Clean path) path && negb (String.eqb path logsRoot) && below logsRoot path.

(** ** Policy *)

Definition defaultPolicy : list string * list string :=
  (["/var/log/apache2"; "/var/log/httpd"; "/var/log/mysql"; "/var/log/mariadb"; "/var/log/php"; "/var/log/nginx"],
   ["/var/log/fail2ban.log"]).
Definition uniquePaths (paths : list string) : list string := sort_strings (unique_from [] paths).
Definition policy_line (raw : string) : option (string * string) :=
  match cut "=" (trim_space (before "#" raw)) with
  | (kind, v, true) => if safeConfiguredPath (trim_space v) then Some (trim_space kind, trim_space v) else None
  | _ => None
  end.
Definition of_kind (kind : string) (entries : list (string * string)) : list string :=
  snd <$> filter (λ e, e.1 = kind) entries.
Definition loadPolicy (content : option string) : list string * list string :=
  match content with
  | None => defaultPolicy
  | Some text =>
      let entries := omap policy_line (split nl text) in
      (uniquePaths (of_kind "directory" entries), uniquePaths (of_kind "file" entries))
  end.

(** ** The file system *)

(** An entry of a directory: its name, whether it is a link, whether it is a regular file
    ([None] when it cannot be examined). *)
Record Dirent := mkDirent { d_name : string; d_link : bool; d_regular : option bool }.
Class LogFiles := {
  EvalSymlinks : string → option string;
  ReadDir : string → option (list Dirent);
  regular : string → bool;                     (** [os.Lstat] finds a regular file *)
  chunks : string → option (list string)       (** what the reads of an opened file give; [None] on an error *)
}.

Definition safeResolvedPath `{LogFiles} (root path : string) : option string :=
  match EvalSymlinks path with
  | Some resolved => if String.eqb resolved (Clean path) && below root resolved then Some resolved else None
  | None => None
  end.

Definition validIdentifier (s : string) : bool :=
  negb (String.eqb s "") && negb (has_prefix s "/") && negb (contains s "..") && negb (contains s "//") &&
  full identifierPattern s.
Definition excluded_suffixes : list string := [".gz"; ".xz"; ".zst"; ".zip"; ".bz2"; ".old"; ".tmp"; ".temp"; ".swp"].
Definition excludedFilename (name : string) : bool :=
  existsb (has_suffix name) excluded_suffixes || numberedRotationPattern name || compressedRotationPattern name.

Section files.
Context `{LogFiles} (root : string) (policy : list string * list string).

Definition directory_log (resolved : string) (e : Dirent) : option Log :=
  if d_link e || excludedFilename (d_name e) then None
  else match d_regular e with
  | Some true =>
      let identifier := path_base resolved +++ "/" +++ d_name e in
      if validIdentifier identifier then Some (mkLog identifier (Join resolved (d_name e))) else None
  | _ => None
  end.
Definition directory_logs (directory : string) : list Log :=
  match safeResolvedPath root directory with
  | Some resolved => match ReadDir resolved with Some entries => omap (directory_log resolved) entries | None => [] end
  | None => []
  end.
Definition file_log (path : string) : option Log :=
  match safeResolvedPath root path with
  | Some resolved =>
      if negb (regular resolved) || excludedFilename (path_base path) then None
      else if validIdentifier (path_base path) then Some (mkLog (path_base path) resolved) else None
  | None => None
  end.
Definition log_le (x y : Log) : Prop := str_le (ID x) (ID y).
#[global] Instance log_le_dec x y : Decision (log_le x y).
Proof. unfold log_le. apply _. Defined.
Definition logs : list Log := merge_sort log_le (mjoin (directory_logs <$> policy.1) ++ omap file_log policy.2).
End files.

(** ** [countLines] *)

Fixpoint newlines (s : string) : Z :=
  match s with EmptyString => 0 | String c s' => (if Ascii.eqb c nl then 1 else 0) + newlines s' end.
Fixpoint last_byte (s : string) : option ascii :=
  match s with EmptyString => None | String c EmptyString => Some c | String _ s' => last_byte s' end.
(** The state of the loop: the total, and the last byte of what was read. *)
Definition count_chunk (a : Z * option ascii) (chunk : string) : Z * option ascii :=
  match last_byte chunk with None => a | Some c => (a.1 + newlines chunk, Some c) end.
Definition countLines (reads : list string) : Z :=
  match fold_left count_chunk reads (0, None) with
  | (total, Some c) => if Ascii.eqb c nl then total else total + 1
  | (total, None) => total
  end.

(** ** Commands *)

Section domain.
Context {W : Type} `{!Programs W} `{LogFiles} (policy : list string * list string).

Definition data := list (string * Value).
Definition tail_lines (output : string) : list string :=
  let trimmed := trim_right_set (Ascii.eqb nl) output in
  if String.eqb trimmed "" then [] else split nl trimmed.

Definition Tail (identifier : string) (lines : Z) : cmd W (list string * Z) :=
  match find (λ l, String.eqb (ID l) identifier) (logs logsRoot policy) with
  | None => stop (failure 5 "LOG_NOT_FOUND" "Le journal demandé est introuvable ou n’est pas autorisé.")
  | Some log =>
      match chunks (Path log) with
      | None => stop (failure 7 "LOG_NOT_READABLE" "Le journal demandé ne peut pas être lu.")
      | Some reads =>
          do! o := run tailCommand ["-n"; itoa lines; "--"; Path log] in
          if succeeded o then ret (tail_lines (stdout o), countLines reads)
          else stop (failure 10 "LOG_READ_FAILED" "La lecture du journal a échoué.")
      end
  end.

Definition invalidArgumentCount : Reply := failure 2 "INVALID_ARGUMENT_COUNT" "Le nombre d’arguments fourni est invalide.".
Definition tail_ (identifier count : string) : cmd W data :=
  if negb (validIdentifier identifier) then stop (failure 2 "INVALID_LOG_IDENTIFIER" "L’identifiant du journal est invalide.")
  else
    let '(lines, e) := atoi_full count in
    if match e with Some _ => true | None => false end || (lines <? minimumLines) || (maximumLines <? lines) ||
       negb (digits_only count)
    then stop (failure 2 "INVALID_LINE_COUNT" "Le nombre de lignes doit être compris entre 1 et 5000.")
    else
      do! t := Tail identifier lines in
      ret [("id", VStr identifier); ("requested_lines", VInt lines); ("total_lines", VInt t.2); ("lines", VList (VStr <$> t.1))].

Definition handle (command : string) (arguments : list string) : cmd W data :=
  if String.eqb command "" then stop (failure 2 "MISSING_COMMAND" "Aucune commande n’a été indiquée pour le domaine logs.")
  else if String.eqb command "list" then
    match arguments with
    | [] => ret [("logs", VList ((λ l, VMap [("id", VStr (ID l))]) <$> logs logsRoot policy))]
    | _ => stop invalidArgumentCount
    end
  else if String.eqb command "tail" then
    match arguments with [identifier; count] => tail_ identifier count | _ => stop invalidArgumentCount end
  else stop (failure 4 "COMMAND_NOT_FOUND" "La commande demandée n’existe pas dans le domaine logs.").
Definition Handle (command : string) (arguments : list string) : Machine W → Reply * Machine W := serve (handle command arguments).
End domain.

(** ** Only logs below the root are read *)

Lemma clean_elements_named path : Forall (λ x, x ≠ "" ∧ contains_byte slash x = false) (clean_elements path).
Proof.
  unfold clean_elements. apply Forall_rev. pose proof (split_no_sep slash path) as Hs.
  assert (Forall (λ x, x ≠ "" ∧ contains_byte slash x = false) []) as Hk by constructor.
  revert Hk. generalize (@nil string). induction Hs as [|x l Hx Hl IH]; intros kept Hk; [done|].
  apply IH. unfold Backup.clean_step.
  destruct (String.eqb_spec x ""), (String.eqb_spec x "."); try done. cbn [orb].
  destruct (String.eqb_spec x ".."); [|by constructor].
  destruct Hk as [|y kept Hy Hk]; [destruct (IsAbs path); repeat constructor; done|].
  destruct (String.eqb_spec y ".."); [|done]. repeat constructor; try done; by destruct Hy.
Qed.

Lemma IsAbs_Clean path : IsAbs (Clean path) = true → IsAbs path = true.
Proof.
  unfold Clean. destruct (IsAbs path) eqn:Ha; [done|]. pose proof (clean_elements_named path) as Hn.
  destruct (clean_elements path) as [|x l]; [done|]. apply Forall_cons in Hn as [[Hx Hs] _].
  destruct x as [|c x]; [done|]. intros Hp. exfalso.
  assert (∃ z, join "/" (String c x :: l) = String c z) as [z Hz] by (destruct l; [by exists x|by eexists]).
  rewrite Hz in Hp. cbn [String.eqb] in Hp. apply has_prefix_spec in Hp as [t Ht]. injection Ht as -> _.
  by cbn in Hs.
Qed.

Lemma rel_elements_split base target :
  ∃ pre b t, base = pre ++ b ∧ target = pre ++ t ∧ rel_elements base target = (const ".." <$> b) ++ t.
Proof.
  revert target. induction base as [|x base IH]; intros target; [by exists [], [], target|].
  destruct target as [|y target]; [by exists [], (x :: base), []|]. cbn [rel_elements].
  destruct (String.eqb_spec x y) as [->|_]; [|by exists [], (x :: base), (y :: target)].
  destruct (IH target) as (pre & b & t & -> & -> & ->). by exists (y :: pre), b, t.
Qed.

Lemma join_dots l : join "/" (".." :: l) = ".." ∨ ∃ z, join "/" (".." :: l) = "../" +++ z.
Proof. destruct l as [|x l]; [by left|]. right. by eexists. Qed.

(** A path below a base has the elements of the base, then at least one more. *)
Lemma below_spec base target :
  IsAbs base = true → below base target = true →
  IsAbs target = true ∧ ∃ rest, clean_elements target = clean_elements base ++ rest ∧ rest ≠ [].
Proof.
  intros Hb. unfold below, Rel.
  assert (IsAbs (Clean base) = true) as -> by (rewrite (Backup.Clean_elements base Hb); apply has_prefix_app).
  destruct (IsAbs (Clean target)) eqn:Ht; cbn [Bool.eqb negb]; [|done]. intros Hr. split; [by apply IsAbs_Clean|].
  destruct (rel_elements_split (clean_elements base) (clean_elements target)) as (pre & b & t & Eb & Et & Er).
  rewrite Er in Hr. destruct b as [|x b].
  - rewrite app_nil_r in Eb. exists t. rewrite Eb. split; [done|]. by intros ->.
  - exfalso. cbn [fmap list_fmap const app] in Hr.
    destruct (join_dots ((const ".." <$> b) ++ t)) as [Hj|[z Hj]]; cbn [const] in *; rewrite Hj in Hr; [done|].
    replace (if String.eqb ("../" +++ z) "" then "." else "../" +++ z) with ("../" +++ z) in Hr by reflexivity.
    by rewrite has_prefix_app, !orb_true_r in Hr.
Qed.

Lemma fold_clean_proper l : ∀ kept, Forall proper l → fold_left (Backup.clean_step true) l kept = rev l ++ kept.
Proof.
  induction l as [|x l IH]; intros kept Hl; [done|]. apply Forall_cons in Hl as [(H1 & H2 & H3 & _) Hl].
  cbn [fold_left rev]. rewrite IH by done. unfold Backup.clean_step.
  rewrite !(proj2 (String.eqb_neq _ _)) by done. by rewrite <- app_assoc.
Qed.

(** The path of proper elements has those elements. *)
Lemma clean_elements_join l : Forall proper l → l ≠ [] → clean_elements ("/" +++ join "/" l) = l.
Proof.
  intros Hl Hne. unfold clean_elements.
  assert (IsAbs ("/" +++ join "/" l) = true) as -> by apply has_prefix_app.
  change ("/" +++ join "/" l) with (String slash (join "/" l)). cbn [split]. rewrite Ascii.eqb_refl. cbn [fold_left].
  rewrite Backup.split_join_proper by done. unfold Backup.clean_step at 2. cbn [String.eqb orb].
  rewrite fold_clean_proper by done. by rewrite app_nil_r, rev_involutive.
Qed.

Section theorems.
Context `{LogFiles} (root : string) (policy : list string * list string) (Hroot : IsAbs root = true).
(** What a directory lists: names, not paths. *)
Context (names : ∀ p es e, ReadDir p = Some es → e ∈ es → proper (d_name e)).

(** Strictly below the root, element by element. *)
Definition confined (path : string) : Prop :=
  IsAbs path = true ∧ ∃ rest, clean_elements path = clean_elements root ++ rest ∧ rest ≠ [].

Lemma safeResolvedPath_confined path resolved :
  safeResolvedPath root path = Some resolved → confined resolved ∧ resolved = Clean path ∧ EvalSymlinks path = Some resolved.
Proof.
  unfold safeResolvedPath. destruct (EvalSymlinks path) as [r|]; [|done].
  destruct (String.eqb_spec r (Clean path)) as [Hr|]; [|done]. destruct (below root r) eqn:Hb; [|done].
  intros [= <-]. split; [by apply below_spec|done].
Qed.

Lemma Join_confined directory name : confined directory → proper name → confined (Join directory name).
Proof.
  intros (Ha & rest & Hc & Hne) Hn. rewrite (Backup.Join_elements directory name Ha Hn).
  assert (IsAbs ("/" +++ join "/" (clean_elements directory ++ [name])) = true) as Hj by apply has_prefix_app.
  split; [done|]. exists (rest ++ [name]). split; [|by destruct rest].
  assert (Forall proper (clean_elements directory ++ [name])) as Hf.
  { apply Forall_app. split; [by apply Backup.clean_elements_proper|by constructor]. }
  rewrite app_assoc, <- Hc. apply clean_elements_join; [done|]. by destruct (clean_elements directory).
Qed.

(** What may be read: a regular file strictly below the root, whose name is not that of a
    rotated or temporary file, reached without a symbolic link. *)
Definition readable (l : Log) : Prop :=
  confined (Path l) ∧ validIdentifier (ID l) = true ∧
  ((∃ directory es e, directory ∈ policy.1 ∧ EvalSymlinks directory = Some (Clean directory) ∧
      ReadDir (Clean directory) = Some es ∧ e ∈ es ∧ Path l = Join (Clean directory) (d_name e) ∧
      d_link e = false ∧ d_regular e = Some true ∧ excludedFilename (d_name e) = false) ∨
   (∃ file, file ∈ policy.2 ∧ EvalSymlinks file = Some (Clean file) ∧ Path l = Clean file ∧
      regular (Path l) = true ∧ excludedFilename (path_base file) = false)).

Lemma directory_log_readable directory l : directory ∈ policy.1 → l ∈ directory_logs root directory → readable l.
Proof.
  intros Hd. unfold directory_logs. destruct (safeResolvedPath root directory) as [r|] eqn:Hr; [|by intros ?%not_elem_of_nil].
  destruct (ReadDir r) as [es|] eqn:He; [|by intros ?%not_elem_of_nil].
  intros (e & Hin & Hl)%list_elem_of_omap. unfold directory_log in Hl.
  destruct (d_link e) eqn:Hk; [done|]. destruct (excludedFilename (d_name e)) eqn:Hx; [done|]. cbn [orb] in Hl.
  destruct (d_regular e) as [[]|] eqn:Hg; try done. destruct (validIdentifier _) eqn:Hv; [|done]. injection Hl as <-.
  apply safeResolvedPath_confined in Hr as (Hc & -> & Hs). split; [|split; [done|]].
  - apply Join_confined; [done|]. by eapply names.
  - left. exists directory, es, e. done.
Qed.

Lemma file_log_readable file l : file ∈ policy.2 → file_log root file = Some l → readable l.
Proof.
  intros Hf. unfold file_log. destruct (safeResolvedPath root file) as [r|] eqn:Hr; [|done].
  destruct (regular r) eqn:Hg; [|done]. destruct (excludedFilename (path_base file)) eqn:Hx; [done|]. cbn [negb orb].
  destruct (validIdentifier _) eqn:Hv; [|done]. intros Hl. injection Hl as <-.
  apply safeResolvedPath_confined in Hr as (Hc & -> & Hs). split; [done|]. split; [done|]. right. exists file. done.
Qed.

Lemma logs_readable l : l ∈ logs root policy → readable l.
Proof.
  unfold logs. rewrite elem_of_merge_sort, elem_of_app. intros [(ls & Hl & Hin)%list_elem_of_join|(f & Hf & Hl)%list_elem_of_omap].
  - apply list_elem_of_fmap in Hin as (d & -> & Hd). by eapply directory_log_readable.
  - by eapply file_log_readable.
Qed.
End theorems.

Lemma loadPolicy_rooted : IsAbs logsRoot = true.
Proof. reflexivity. Qed.

(** ** Counting lines *)

(** The lines of a text: its line ends, and one more when it does not end with one. *)
Definition line_count (s : string) : Z :=
  newlines s + match last_byte s with Some c => if Ascii.eqb c nl then 0 else 1 | None => 0 end.

Lemma newlines_app s t : newlines (s +++ t) = newlines s + newlines t.
Proof. induction s as [|c s IH]; [done|]. cbn [String.append newlines]. rewrite IH. lia. Qed.

Lemma last_byte_none s : last_byte s = None → s = "".
Proof.
  destruct s as [|c s]; [done|]. revert c. induction s as [|d s IH]; intros c Hs; [done|].
  cbn [last_byte] in Hs. by apply IH in Hs.
Qed.

Lemma last_byte_app s t : last_byte (s +++ t) = match last_byte t with Some c => Some c | None => last_byte s end.
Proof.
  destruct (last_byte t) as [e|] eqn:Ht; [|apply last_byte_none in Ht as ->; by rewrite sapp_nil_r].
  induction s as [|c s IH]; [done|]. cbn [String.append]. destruct (s +++ t) as [|d u] eqn:Hu; [done|]. exact IH.
Qed.

(** However the reads cut a log into pieces (empty ones included), countLines gives the
    number of lines of the whole: its line ends, and one more for a last line without one. *)
Theorem countLines_spec (reads : list string) : countLines reads = line_count (List.fold_right String.append "" reads).
Proof.
  assert (∀ a text, a = (newlines text, last_byte text) →
    fold_left count_chunk reads a =
      (newlines (text +++ List.fold_right String.append "" reads), last_byte (text +++ List.fold_right String.append "" reads))) as Hf.
  { induction reads as [|r reads IH]; intros a text ->; cbn [fold_left List.fold_right]; [by rewrite sapp_nil_r|].
    rewrite <- sapp_assoc. apply IH. unfold count_chunk. rewrite newlines_app, last_byte_app.
    destruct (last_byte r) eqn:Hr; [done|]. apply last_byte_none in Hr as ->. cbn [newlines]. by rewrite Z.add_0_r. }
  unfold countLines, line_count. rewrite (Hf (0, None) "" eq_refl). cbn [String.append].
  destruct (last_byte _) as [c|]; [|lia]. destruct (Ascii.eqb c nl); lia.
Qed.

Lemma tail_ran {W} `{!Programs W} `{LogFiles} policy id n (m : Machine W) out m' :
  tail_ policy id n m = (out, m') →
  m' = m ∨ ∃ log o, ID log = id ∧ log ∈ logs logsRoot policy ∧ 1 ≤ atoi_val n ≤ 5000 ∧
    ran m' = ran m ++ [(tailCommand, ["-n"; itoa (atoi_val n); "--"; Path log], o)].
Proof.
  unfold tail_. destruct (validIdentifier id); [|intros Hr; injection Hr as _ <-; by left]. cbn [negb].
  unfold atoi_val. destruct (atoi_full n) as [k e]. cbn [fst].
  destruct (_ || negb (digits_only n)) eqn:Hg; [intros Hr; injection Hr as _ <-; by left|].
  unfold minimumLines, maximumLines in Hg. apply orb_false_elim in Hg as [[[_ Hlo]%orb_false_elim Hhi]%orb_false_elim _].
  bool_prop. intros Hm.
  assert (∃ out1, Tail policy id k m = (out1, m')) as [out1 Ht].
  { apply bind_inv in Hm as [(r & Hr & _)|(t & m1 & Hr & Hd)]; [eauto|]. injection Hd as _ <-. eauto. }
  clear Hm. revert Ht. unfold Tail. destruct (find _ _) as [log|] eqn:Hf; [|intros Hr; injection Hr as _ <-; by left].
  apply find_some in Hf as [Hin Hid%String.eqb_eq]. destruct (chunks (Path log)); [|intros Hr; injection Hr as _ <-; by left].
  intros [(r & Hr & _)|(o & m1 & Hr & Hd)]%bind_inv; [by apply run_inv in Hr as (? & ? & _)|].
  apply run_inv in Hr as (o' & [= <-] & Hm1 & _). right. exists log, o.
  assert (m1 = m') as <- by (destruct (succeeded o); unfold ret, stop in Hd; congruence).
  split_and!; [done|by apply list_elem_of_In|lia|lia|by rewrite Hm1].
Qed.

(** C33: Reading a log runs the program tail alone, on a path of the policy's logs that is
    a regular file strictly below /var/log, reached without a symbolic link, not a rotated
    or temporary one; the log has the identifier asked for, and between 1 and 5000 lines
    are read.  No other command of the domain runs a program. *)
Theorem logs_confined {W} `{!Programs W} `{LogFiles} content command args (m : Machine W) :
  (∀ p es e, ReadDir p = Some es → e ∈ es → proper (d_name e)) →
  let policy := loadPolicy content in
  ∃ l, ran (Handle policy command args m).2 = ran m ++ l ∧
    (l = [] ∨ ∃ log n o, command = "tail" ∧ args = [ID log; n] ∧
      l = [(tailCommand, ["-n"; itoa (atoi_val n); "--"; Path log], o)] ∧
      1 ≤ atoi_val n ≤ 5000 ∧ log ∈ logs logsRoot policy ∧ readable logsRoot policy log).
Proof.
  intros Hnames policy. destruct (handle policy command args m) as [out m'] eqn:Hh. unfold Handle.
  rewrite (serve_machine _ _ _ _ Hh). revert Hh. unfold handle.
  assert (∀ (o : res Reply data) (P : list call → Prop), (o, m) = (out, m') → ∃ l, ran m' = ran m ++ l ∧ (l = [] ∨ P l)) as Hno.
  { intros o P Ho. injection Ho as _ <-. exists []. rewrite app_nil_r. auto. }
  destruct (String.eqb command ""); [by apply Hno|].
  destruct (String.eqb command "list"); [by destruct args; apply Hno|].
  destruct (String.eqb_spec command "tail") as [->|]; [|by apply Hno].
  destruct args as [|id [|n [|]]]; try (by apply Hno).
  intros Hh. apply tail_ran in Hh as [->|(log & o & Hid & Hlog & Hn & Hran)]; [exists []; rewrite app_nil_r; auto|].
  exists [(tailCommand, ["-n"; itoa (atoi_val n); "--"; Path log], o)]. split; [done|]. right.
  exists log, n, o. rewrite Hid. split_and!; try done; try lia. by apply logs_readable.
Qed.

Lemma logs_reply_ok {W} `{!Programs W} `{LogFiles} policy command args (m : Machine W) :
  Api.reply_ok (Handle policy command args m).1.
Proof. apply serve_ok. walk. Qed.

(** A system with one log. *)
#[global] Instance one_log : LogFiles := {|
  EvalSymlinks p := Some (Clean p);
  ReadDir p := if String.eqb p "/var/log/nginx" then Some [mkDirent "access.log" false (Some true); mkDirent "access.log.1" false (Some true)] else None;
  regular _ := false;
  chunks _ := Some ["a"; snl +++ "b"; ""; "c"] |}.
#[global] Instance quiet_tail : Programs unit := {| exec w _ _ := (w, mkOutcome "bc" "" 0); executable _ := true |}.
Definition tail_run : Reply * Machine unit := Handle (loadPolicy None) "tail" ["nginx/access.log"; "1"] (mkMachine tt []).
Example tail_answer :
  tail_run.1 = success [("id", VStr "nginx/access.log"); ("requested_lines", VInt 1); ("total_lines", VInt 2); ("lines", VList [VStr "bc"])].
Proof. vm_compute. reflexivity. Qed.

Lemma logs_confined_witness :
  ∃ log, log ∈ logs logsRoot (loadPolicy None) ∧ ID log = "nginx/access.log" ∧ readable logsRoot (loadPolicy None) log.
Proof.
  destruct (logs_confined None "tail" ["nginx/access.log"; "1"] (mkMachine tt [])) as (l & Hl & Hc).
  - intros p es e Hr He. unfold ReadDir, one_log in Hr. destruct (String.eqb p "/var/log/nginx"); [|discriminate].
    injection Hr as <-. apply elem_of_cons in He as [->|He%list_elem_of_singleton]; [|subst e]; by repeat split.
  - change (ran tail_run.2 = l) in Hl. destruct Hc as [->|(log & n & o & _ & Ha & _ & _ & Hin & Hr)].
    + exfalso. vm_compute in Hl. discriminate.
    + exists log. injection Ha as Ha _. split_and!; [exact Hin|by rewrite Ha|exact Hr].
Defined.
