(* ===== verification/Upgrade.v ===== *)
(** * Upgrade jobs: [domain/updates/upgrade.go]

    The daemon starts an upgrade as a job written to the state directory and carried out by
    a unit of systemd of its own, which runs [RunUpdater].  A job goes from pending to
    running to completed or failed; each change is the whole file rewritten.  The package
    manager is a parameter: its output, read line by line, and its exit code. *)

From S2P Require Import Prelude GoStrings StringFacts Time Codec Json JsonParse Command Files Units.
From S2P Require Api CronTasks.
From Stdlib Require Import Ascii String.
#[local] Open Scope string_scope.
#[local] Open Scope list_scope.
#[local] Open Scope Z_scope.

Import Api(Reply, failure, success, VStr, VInt, VBool, VList, VMap, VNil, Value).
Import CronTasks(path_base).

Definition maximumLogLines : Z := 400.
Definition maximumLineSize : Z := 2048.
Definition aptCommand : string := "/usr/bin/apt".
Definition aptGetCommand : string := "/usr/bin/apt-get".
Definition dnfCommand : string := "/usr/bin/dnf".
Definition systemctlCommand : string := "/usr/bin/systemctl".
Definition systemdRunCommand : string := "/usr/bin/systemd-run".
Definition updateStatePath : string := "/var/lib/aegisadmin/updates".

(** ** Jobs and their file *)

(** [Lines] is [None] for the slice [nil]. *)
Record upgradeJob := mkJob {
  j_ID : string; j_Status : string; j_Backend : string; j_Lines : option (list string);
  j_ExitCode : option Z; j_StartedAt : string; j_FinishedAt : option string;
  j_VersionBefore : string; j_VersionAfter : string }.

Definition validJobID (id : string) : bool := (slen id =? 32) && sforall is_hex id.
Definition jobPath (id : string) : string := updateStatePath +++ "/jobs/" +++ id +++ ".json".
Definition currentPath : string := updateStatePath +++ "/current".

Definition int_json (z : Z) : json := JNum (itoa z).
Definition omitted (key value : string) : list (string * json) := if String.eqb value "" then [] else [(key, JStr value)].
Definition job_json (j : upgradeJob) : json :=
  JObj ([("job_id", JStr (j_ID j)); ("status", JStr (j_Status j)); ("backend", JStr (j_Backend j));
         ("lines", default JNull ((λ l, JArr (map JStr l)) <$> j_Lines j));
         ("exit_code", default JNull (int_json <$> j_ExitCode j)); ("started_at", JStr (j_StartedAt j));
         ("finished_at", default JNull (JStr <$> j_FinishedAt j))] ++
        omitted "version_before" (j_VersionBefore j) ++ omitted "version_after" (j_VersionAfter j)).

Definition store_slice (a : option (list string)) (v : json) : option (list string) * bool :=
  match v with
  | JNull => (None, true)
  | JArr _ => let (l, ok) := store_strings [] v in (Some l, ok)
  | _ => (a, false)
  end.
Definition decode_job (v : json) : option upgradeJob :=
  match v with
  | JNull => Some (mkJob "" "" "" None None "" None "" "")
  | JObj m =>
      let '(id, ok1) := store_field "job_id" store_string "" m in
      let '(status, ok2) := store_field "status" store_string "" m in
      let '(backend, ok3) := store_field "backend" store_string "" m in
      let '(lines, ok4) := store_field "lines" store_slice None m in
      let '(code, ok5) := store_field "exit_code" (store_pointer 0 store_int) None m in
      let '(started, ok6) := store_field "started_at" store_string "" m in
      let '(finished, ok7) := store_field "finished_at" (store_pointer "" store_string) None m in
      let '(before, ok8) := store_field "version_before" store_string "" m in
      let '(after, ok9) := store_field "version_after" store_string "" m in
      if ok1 && ok2 && ok3 && ok4 && ok5 && ok6 && ok7 && ok8 && ok9
      then Some (mkJob id status backend lines code started finished before after) else None
  | _ => None
  end.

Definition with_lines (l : list string) (j : upgradeJob) : upgradeJob :=
  mkJob (j_ID j) (j_Status j) (j_Backend j) (Some l) (j_ExitCode j) (j_StartedAt j) (j_FinishedAt j) (j_VersionBefore j) (j_VersionAfter j).
Definition with_status (s : string) (j : upgradeJob) : upgradeJob :=
  mkJob (j_ID j) s (j_Backend j) (j_Lines j) (j_ExitCode j) (j_StartedAt j) (j_FinishedAt j) (j_VersionBefore j) (j_VersionAfter j).
Definition with_result (s : string) (code : Z) (finished : string) (j : upgradeJob) : upgradeJob :=
  mkJob (j_ID j) s (j_Backend j) (j_Lines j) (Some code) (j_StartedAt j) (Some finished) (j_VersionBefore j) (j_VersionAfter j).
Definition with_version (v : string) (j : upgradeJob) : upgradeJob :=
  mkJob (j_ID j) (j_Status j) (j_Backend j) (j_Lines j) (j_ExitCode j) (j_StartedAt j) (j_FinishedAt j) (j_VersionBefore j) v.

(** The lines kept: the last ones, each cut. *)
Definition ellipsis : string := "…".
Definition truncated_mark : string := "… sortie antérieure tronquée …".
Definition cut_line (line : string) : string :=
  if maximumLineSize <? slen line then stake (Z.to_nat maximumLineSize) line +++ ellipsis else line.
Definition keep_lines (l : list string) : list string :=
  if maximumLogLines <? Z.of_nat (List.length l)
  then truncated_mark :: drop (List.length l - Z.to_nat maximumLogLines + 1) l else l.
Definition appendUpgradeLine (line : string) (j : upgradeJob) : upgradeJob :=
  let line := trim_space (to_valid_utf8 0 false line) in
  if String.eqb line "" then j
  else with_lines (keep_lines (default [] (j_Lines j) ++ [cut_line line])) j.

(** ** The host *)

(** What the jobs need of the host besides its files: the clock in nanoseconds, the state
    directory, the lock of the updater, random bytes, the installed version, and a package
    manager that runs to its end. *)
Class UpdateHost (W : Type) `{!FileSystem W} := {
  now : W → Z;
  secure : W → bool;
  make_jobs_directory : W → bool;
  lock : W → option W;
  unlock : W → W;
  random : W → option string * W;
  version_file : W → option string;
  spawn : W → string → list string → option (W * string * Z);   (** output and exit code *)
  expired : W → bool;                                            (** the deadline of two hours *)
  lock_files w w' : lock w = Some w' → files w' = files w;
  unlock_files w : files (unlock w) = files w;
  exit_code_range w w' name arguments output code :
    spawn w name arguments = Some (w', output, code) → int_min ≤ code ≤ int_max;
}.

(** Why [runUpdater] returns an error. *)
Inductive updater_error :=
| InvalidID | Insecure | Locked | Unreadable | NotPending | NotWritten
| Failed (code : Z).

Section jobs.
Context {W : Type} `{!FileSystem W} `{!UpdateHost W}.

Definition second : Z := 1000000000.
Definition now_text (w : W) : string := rfc3339 (now w / second).
Definition installedVersion (w : W) : string := default "" (trim_space <$> version_file w).

Definition write_job (j : upgradeJob) (w : W) : bool * W :=
  if validJobID (j_ID j) then write_at (jobPath (j_ID j)) (json_text (job_json j) +++ snl) w else (false, w).
Definition read_job (w : W) (id : string) : option upgradeJob :=
  if validJobID id then
    match files w !! jobPath id with
    | Some payload =>
        match json_parse payload with
        | Some v => match decode_job v with
            | Some j => if String.eqb (j_ID j) id then Some j else None
            | None => None end
        | None => None
        end
    | None => None
    end
  else None.
Definition current (w : W) : option string :=
  match files w !! currentPath with
  | Some payload => let id := trim_space payload in if validJobID id then Some id else None
  | None => None
  end.
Definition create_job (j : upgradeJob) (w : W) : bool * W :=
  if negb (secure w) || negb (make_jobs_directory w) then (false, w)
  else let (ok, w) := write_job j w in
       if ok then write_at currentPath (j_ID j +++ snl) w else (false, w).
Definition newJobID (w : W) : option string * W := let (bytes, w) := random w in (hex_encode <$> bytes, w).

(** [time.Since(started) < 30*time.Second]: false for a date that does not parse, whose
    zero value is two thousand years old. *)
Definition recent (w : W) (started : string) : bool :=
  match parse_rfc3339 started with Some t => now w - t * second <? 30 * second | None => false end.
Definition in_progress (j : upgradeJob) : bool := String.eqb (j_Status j) "pending" || String.eqb (j_Status j) "running".
Definition unit_of (id : string) : string := "aegisadmin-updater@" +++ id +++ ".service".

(** ** The updater *)

Definition finishUpgrade (j : upgradeJob) (code : Z) (message : string) (w : W) : res updater_error () * W :=
  let j := appendUpgradeLine message j in
  let j := with_result (if code =? 0 then "completed" else "failed") code (now_text w) j in
  let j := if String.eqb (j_VersionAfter j) "" then with_version (installedVersion w) j else j in
  let (ok, w) := write_job j w in
  (if negb ok then Err NotWritten else if code =? 0 then Ok () else Err (Failed code), w).

(** The lines of a running program, each written before the next is read; a write that
    fails kills the program. *)
Fixpoint log_lines (lines : list string) (j : upgradeJob) (w : W) : bool * upgradeJob * W :=
  match lines with
  | [] => (true, j, w)
  | line :: lines =>
      let j := appendUpgradeLine line j in
      let (ok, w) := write_job j w in
      if ok then log_lines lines j w else (false, j, w)
  end.
(** The longest line of a buffer of 256 KiB that ends with its line feed. *)
Definition longest_line : Z := 262143.
(** The exit code, whether the run is without error, the job and the host. *)
Definition runUpgradeCommand (step : string * list string) (j : upgradeJob) (w : W) : Z * bool * upgradeJob * W :=
  let j := appendUpgradeLine ("$ " +++ path_base step.1 +++ " " +++ join " " step.2) j in
  let (ok, w) := write_job j w in
  if negb ok then (-1, false, j, w)
  else match spawn w step.1 step.2 with
  | None => (-1, false, j, w)
  | Some (w, output, code) =>
      let (lines, whole) := scan_lines_up_to longest_line output in
      let '(ok, j, w) := log_lines lines j w in
      if negb ok then (-1, false, j, w)
      else
        let j := if whole then j
                 else appendUpgradeLine "La lecture de la sortie du gestionnaire de paquets a été interrompue." j in
        (code, code =? 0, j, w)
  end.

Fixpoint run_steps (steps : list (string * list string)) (j : upgradeJob) (w : W) : res updater_error () * W :=
  match steps with
  | [] => finishUpgrade (with_version (installedVersion w) j) 0 "Mise à jour des paquets terminée avec succès." w
  | step :: steps =>
      let '(code, ok, j, w) := runUpgradeCommand step j w in
      if negb ok || negb (code =? 0) then
        if expired w then finishUpgrade j (-1) "La mise à jour a dépassé la durée maximale autorisée." w
        else finishUpgrade j code "La mise à jour des paquets s’est terminée avec une erreur." w
      else run_steps steps j w
  end.

Context `{!Programs W}.
(** The programs a job runs, or why it cannot. *)
Definition upgrade_steps (backend : string) : res string (list (string * list string)) :=
  if String.eqb backend "apt" then
    if executable aptGetCommand
    then Ok [(aptGetCommand, ["update"]);
             (aptGetCommand, ["-y"; "--with-new-pkgs"; "-o"; "Dpkg::Options::=--force-confold"; "upgrade"])]
    else Err "La commande apt-get est introuvable."
  else if String.eqb backend "dnf" then
    if executable dnfCommand then Ok [(dnfCommand, ["-y"; "upgrade"])] else Err "La commande dnf est introuvable."
  else Err "Le gestionnaire de paquets enregistré est invalide.".

Definition run_job (id : string) (w : W) : res updater_error () * W :=
  match read_job w id with
  | None => (Err Unreadable, w)
  | Some j =>
      if negb (String.eqb (j_Status j) "pending") then (Err NotPending, w)
      else
        let j := appendUpgradeLine "Le service indépendant a démarré." (with_status "running" j) in
        let (ok, w) := write_job j w in
        if negb ok then (Err NotWritten, w)
        else match upgrade_steps (j_Backend j) with
             | Err message => finishUpgrade j (-1) message w
             | Ok steps => run_steps steps j w
             end
  end.

Definition runUpdater (id : string) (w : W) : res updater_error () * W :=
  if negb (validJobID id) then (Err InvalidID, w)
  else if negb (secure w) then (Err Insecure, w)
  else match lock w with
       | None => (Err Locked, w)
       | Some w => let (r, w) := run_job id w in (r, unlock w)
       end.

(** ** The commands of the daemon *)

Definition data := list (string * Value).
Definition opt_str (o : option string) : Value := default VNil (VStr <$> o).
Definition opt_int (o : option Z) : Value := default VNil (VInt <$> o).

(** [systemctl is-active] of the unit of a job; false when systemctl is missing. *)
Definition unit_active (id : string) : cmd W bool :=
  if executable systemctlCommand
  then do! o := run systemctlCommand ["is-active"; "--quiet"; unit_of id] in ret (status o =? 0)
  else ret false.

(** The current job when it is pending or running. *)
Definition current_job (w : W) : option upgradeJob :=
  match current w with
  | Some id => match read_job w id with Some j => if in_progress j then Some j else None | None => None end
  | None => None
  end.

Definition close_job (line : upgradeJob → upgradeJob) (j : upgradeJob) (w : W) : bool * W :=
  write_job (line (with_result "failed" (-1) (now_text w) j)) w.

(** The identifier of a job still at work; one whose service is gone is closed. *)
Definition running_job : cmd W (option string) :=
  do! job := look current_job in
  match job with
  | None => ret None
  | Some j =>
      do! active := unit_active (j_ID j) in
      do! young := look (λ w, recent w (j_StartedAt j)) in
      if active || young then ret (Some (j_ID j))
      else
        do! _ := touch (close_job (appendUpgradeLine "Le service de mise à jour n’est plus actif ; le travail a été clôturé.") j) in
        ret None
  end.

Definition package_manager : res Reply string :=
  if executable aptCommand && executable aptGetCommand then Ok "apt"
  else if executable dnfCommand then Ok "dnf"
  else Err (failure 3 "DEPENDENCY_NOT_FOUND" "Aucun gestionnaire de mises à jour APT ou DNF pris en charge n’est installé.").

Definition start_line : string := "Préparation du service indépendant de mise à jour…".
Definition start_failed_line (j : upgradeJob) : upgradeJob :=
  with_lines (default [] (j_Lines j) ++ ["Le service indépendant de mise à jour n’a pas pu démarrer."]) j.

Definition start_job (manager : string) : cmd W data :=
  do! id := touch newJobID in
  match id with
  | None => stop (failure 10 "JOB_ID_GENERATION_FAILED" "Le suivi de la mise à jour n’a pas pu être initialisé.")
  | Some id =>
      do! job := look (λ w, mkJob id "pending" manager (Some [start_line]) None (now_text w) None (installedVersion w) "") in
      do! created := touch (create_job job) in
      if negb created then stop (failure 10 "UPDATE_JOB_CREATE_FAILED" "Le travail de mise à jour n’a pas pu être enregistré.")
      else
        do! o := run systemctlCommand ["start"; "--no-block"; unit_of id] in
        if succeeded o then ret [("job_id", VStr id); ("already_running", VBool false)]
        else
          do! _ := touch (close_job start_failed_line job) in
          stop (failure 10 "UPDATE_SERVICE_START_FAILED" "Le service indépendant de mise à jour n’a pas pu démarrer.")
  end.

Definition startUpgrade : cmd W data :=
  do! safe := look secure in
  if negb safe then stop (failure 10 "UPDATE_STATE_INVALID" "Le répertoire de suivi des mises à jour n’est pas sécurisé.")
  else
    do! at_work := running_job in
    match at_work with
    | Some id => ret [("job_id", VStr id); ("already_running", VBool true)]
    | None =>
        do! manager := lift package_manager in
        if negb (executable systemctlCommand)
        then stop (failure 3 "DEPENDENCY_NOT_FOUND" "systemd est nécessaire pour isoler l’installation des mises à jour.")
        else start_job manager
    end.

Definition job_data (j : upgradeJob) : data :=
  [("job_id", VStr (j_ID j)); ("status", VStr (j_Status j)); ("backend", VStr (j_Backend j));
   ("lines", default VNil ((λ l, VList (VStr <$> l)) <$> j_Lines j)); ("exit_code", opt_int (j_ExitCode j));
   ("started_at", VStr (j_StartedAt j)); ("finished_at", opt_str (j_FinishedAt j));
   ("version_before", VStr (j_VersionBefore j)); ("version_after", VStr (j_VersionAfter j))].
Definition upgradeStatus (id : string) : cmd W data :=
  if negb (validJobID id) then stop (failure 2 "INVALID_JOB_ID" "L’identifiant du travail de mise à jour est invalide.")
  else
    do! job := look (λ w, read_job w id) in
    match job with
    | None => stop (failure 4 "UPDATE_JOB_NOT_FOUND" "Le travail de mise à jour demandé est introuvable.")
    | Some j => ret (job_data j)
    end.

Definition upgradeInProgress : cmd W bool :=
  do! job := look current_job in
  match job with
  | None => ret false
  | Some j =>
      do! active := unit_active (j_ID j) in
      if active then ret true else look (λ w, recent w (j_StartedAt j))
  end.

Definition reboot_delays : list string := ["0"; "5"; "15"; "30"; "60"].
Definition reboot_arguments (delay : string) : list string :=
  ["--unit=aegisadmin-reboot"; "--collect";
   "--on-active=" +++ (if String.eqb delay "0" then "5s" else delay +++ "m"); systemctlCommand; "reboot"; "--no-block"].
Definition scheduleReboot (delay : string) : cmd W data :=
  if negb (bool_decide (delay ∈ reboot_delays)) then
    stop (failure 2 "INVALID_REBOOT_DELAY" "Le délai de redémarrage demandé est invalide.")
  else
    do! busy := upgradeInProgress in
    if (busy : bool) then stop (failure 10 "UPDATE_IN_PROGRESS" "Le serveur ne peut pas redémarrer pendant une mise à jour.")
    else if negb (executable systemctlCommand) || negb (executable systemdRunCommand) then
      stop (failure 3 "DEPENDENCY_NOT_FOUND" "systemd est nécessaire pour redémarrer le serveur.")
    else
      do! o := run systemdRunCommand (reboot_arguments delay) in
      if succeeded o
      then ret [("scheduled", VBool true); ("delay_minutes", if String.eqb delay "0" then VInt 0 else VStr delay)]
      else stop (failure 10 "REBOOT_SCHEDULE_FAILED" "Le redémarrage du serveur n’a pas pu être programmé.").
End jobs.
