(* ===== verification/UpgradeFacts.v ===== *)
(** * Upgrade jobs: what the daemon and the updater guarantee

    A job written is read back; the updater brings a pending job to an end; the daemon
    starts one job at a time and does not reboot during one. *)

From S2P Require Import Prelude GoStrings StringFacts Time Codec Json JsonParse Command Files Units Upgrade.
From S2P Require Api.
From Stdlib Require Import Ascii String.
#[local] Open Scope string_scope.
#[local] Open Scope list_scope.
#[local] Open Scope Z_scope.

Import Api(Reply, failure, success, VStr, VInt, VBool, VList, VMap, VNil, Value).

(** ** Written and read back *)

Lemma is_hex_ascii c : is_hex c = true → is_ascii_byte c = true.
Proof.
  unfold is_hex, is_hex_lower, is_digit, between, is_ascii_byte. intros H. apply Z.ltb_lt.
  apply orb_prop in H as [[H|H]%orb_prop|H]; bool_prop; vm_compute (byte "9") in *; vm_compute (byte "f") in *;
    vm_compute (byte "F") in *; lia.
Qed.

Lemma validJobID_text id : validJobID id = true → to_text id = id.
Proof. intros [_ Hh]%andb_prop. apply to_text_ascii. eapply sforall_weaken; [|exact Hh]. exact is_hex_ascii. Qed.

Definition text_job (j : upgradeJob) : upgradeJob :=
  mkJob (to_text (j_ID j)) (to_text (j_Status j)) (to_text (j_Backend j)) (map to_text <$> j_Lines j) (j_ExitCode j)
    (to_text (j_StartedAt j)) (to_text <$> j_FinishedAt j) (to_text (j_VersionBefore j)) (to_text (j_VersionAfter j)).
Definition code_ok (j : upgradeJob) : Prop := ∀ z, j_ExitCode j = Some z → int_min ≤ z ≤ int_max.

Lemma store_strings_text l : ∀ a,
  fold_left (λ (a : list string * bool) x, let (s, ok) := store_string "" x in (a.1 ++ [s], a.2 && ok))
    (map to_json (map JStr l)) (a, true) = (a ++ map to_text l, true).
Proof.
  induction l as [|x l IH]; intros a; [by rewrite app_nil_r|]. cbn [map fold_left to_json store_string fst snd andb].
  rewrite IH. cbn [map]. by rewrite <- app_assoc.
Qed.

Lemma decode_job_json j : code_ok j → decode_job (to_json (job_json j)) = Some (text_job j).
Proof.
  intros Hc. destruct j as [id st be ls co sa fi vb va]. unfold job_json, omitted. cbn [j_ID j_Status j_Backend j_Lines
    j_ExitCode j_StartedAt j_FinishedAt j_VersionBefore j_VersionAfter].
  assert (∀ z, co = Some z → store_int 0 (JNum (itoa z)) = (z, true)) as Hz.
  { intros z ->. cbn [store_int]. rewrite atoi_itoa by by apply Hc. done. }
  assert (store_slice None (to_json (default JNull ((λ l, JArr (map JStr l)) <$> ls))) = (map to_text <$> ls, true)) as Hl.
  { destruct ls as [l|]; [|done]. cbn [fmap option_fmap option_map from_option Datatypes.id to_json store_slice store_strings].
    by rewrite store_strings_text. }
  assert (store_pointer 0 store_int None (to_json (default JNull (int_json <$> co))) = (co, true)) as Hco.
  { destruct co as [z|]; [|done]. cbn [fmap option_fmap option_map from_option Datatypes.id int_json to_json store_pointer]. by rewrite Hz. }
  assert (store_pointer "" store_string None (to_json (default JNull (JStr <$> fi))) = (to_text <$> fi, true)) as Hfi
    by by destruct fi.
  destruct (String.eqb_spec vb "") as [->|Hvb], (String.eqb_spec va "") as [->|Hva];
    cbn [app map fst snd to_json decode_job]; read_fields; rewrite ?Hl, ?Hco, ?Hfi; done.
Qed.

Lemma json_ok_job j : json_ok max_depth (job_json j) = true.
Proof.
  assert (∃ d, max_depth = S (S d)) as [d ->]. { exists (N.to_nat 9998). unfold max_depth. lia. }
  assert (∀ l d, forallb (λ x, json_ok d x) (map JStr l) = true) as Hs.
  { intros l e. apply forallb_forall. by intros x (s & <- & _)%in_map_iff. }
  destruct j as [id st be ls co sa fi vb va]. unfold job_json, omitted. cbn [j_ID j_Status j_Backend j_Lines
    j_ExitCode j_StartedAt j_FinishedAt j_VersionBefore j_VersionAfter json_ok].
  assert (json_ok (S d) (default JNull ((λ l, JArr (map JStr l)) <$> ls)) = true) as Hl.
  { destruct ls as [l|]; [|done]. apply Hs. }
  assert (json_ok (S d) (default JNull (int_json <$> co)) = true) as Hco by (destruct co; [apply literal_itoa|done]).
  assert (json_ok (S d) (default JNull (JStr <$> fi)) = true) as Hfi by by destruct fi.
  destruct (String.eqb vb ""), (String.eqb va ""); cbn [app forallb snd]; rewrite Hl, Hco, Hfi; done.
Qed.

Section updater.
Context {W : Type} `{!FileSystem W} `{!UpdateHost W} `{!Programs W}.
Implicit Types (w : W) (j : upgradeJob).

Lemma write_job_read j w w' : code_ok j → write_job j w = (true, w') → read_job w' (j_ID j) = Some (text_job j).
Proof.
  intros Hc. unfold write_job, read_job. destruct (validJobID (j_ID j)) eqn:Hv; [|done].
  intros Hw. rewrite (write_at_read _ _ _ _ Hw), parse_text_nl by apply json_ok_job.
  rewrite decode_job_json by done. unfold text_job at 1. cbn [j_ID]. by rewrite validJobID_text, String.eqb_refl.
Qed.

Lemma write_job_cases j w ok w' :
  write_job j w = (ok, w') →
  (ok = true ∧ files w' = <[jobPath (j_ID j) := json_text (job_json j) +++ snl]> (files w)) ∨ (ok = false ∧ w' = w).
Proof.
  unfold write_job. destruct (validJobID (j_ID j)); [|intros [= <- <-]; by right]. apply write_at_cases.
Qed.

Lemma write_job_writable j w : writable W → validJobID (j_ID j) = true → (write_job j w).1 = true.
Proof. intros Hw Hv. unfold write_job. by rewrite Hv, write_at_ok. Qed.

(** ** The bound on the lines *)

Definition bounded j : Prop := ∀ l, j_Lines j = Some l → Z.of_nat (List.length l) ≤ maximumLogLines.

Lemma keep_lines_bound l : Z.of_nat (List.length (keep_lines l)) ≤ maximumLogLines.
Proof.
  unfold keep_lines, maximumLogLines. destruct (Z.ltb_spec 400 (Z.of_nat (List.length l))); [|lia].
  cbn [List.length]. rewrite length_drop. lia.
Qed.

Lemma append_same line j : trim_space (to_valid_utf8 0 false line) = "" → appendUpgradeLine line j = j.
Proof. intros Hl. unfold appendUpgradeLine. by rewrite Hl. Qed.

Lemma append_bounded line j : trim_space (to_valid_utf8 0 false line) ≠ "" ∨ bounded j → bounded (appendUpgradeLine line j).
Proof.
  unfold appendUpgradeLine. destruct (String.eqb_spec (trim_space (to_valid_utf8 0 false line)) "") as [He|He].
  - by intros [H|H].
  - intros _ l Hl. injection Hl as <-. apply keep_lines_bound.
Qed.

Lemma append_ID line j : j_ID (appendUpgradeLine line j) = j_ID j.
Proof. unfold appendUpgradeLine. by destruct (String.eqb _ _). Qed.
Lemma append_ExitCode line j : j_ExitCode (appendUpgradeLine line j) = j_ExitCode j.
Proof. unfold appendUpgradeLine. by destruct (String.eqb _ _). Qed.

(** ** The end of a job *)

(** The file of a job holds its end: the exit code, the state it gives, the date. *)
Definition ended (id : string) (code : Z) w : Prop :=
  ∃ j, read_job w id = Some j ∧ j_ExitCode j = Some code ∧ j_Status j = (if code =? 0 then "completed" else "failed") ∧
    is_Some (j_FinishedAt j) ∧ bounded j.
Definition unwritable : Prop := ∃ w path content, may_write w path content = false.

(** What the updater may answer once the job is its own. *)
Definition concluded (id : string) (r : res updater_error ()) w : Prop :=
  (r = Err NotWritten ∧ unwritable) ∨
  ∃ code, r = (if code =? 0 then Ok () else Err (Failed code)) ∧ ended id code w.

Lemma write_job_fails j w w' : validJobID (j_ID j) = true → write_job j w = (false, w') → unwritable.
Proof.
  unfold write_job, write_at. intros ->. destruct (may_write w _ _) eqn:Hm; [done|]. intros _. by eexists _, _, _.
Qed.

Lemma text_bounded j : bounded j → bounded (text_job j).
Proof. unfold bounded. destruct j as [? ? ? [l|]]; cbn; [|done]. intros Hb k [= <-]. rewrite length_map. by apply Hb. Qed.

Lemma finish_concluded j code message w r w' :
  validJobID (j_ID j) = true → int_min ≤ code ≤ int_max → trim_space (to_valid_utf8 0 false message) ≠ "" →
  finishUpgrade j code message w = (r, w') → concluded (j_ID j) r w'.
Proof.
  intros Hv Hc Hm. unfold finishUpgrade.
  set (j1 := with_result _ _ _ _). set (j2 := if String.eqb (j_VersionAfter j1) "" then _ else j1).
  assert (j_ID j2 = j_ID j) as Hid by (unfold j2; destruct (String.eqb _ _); unfold j1; apply append_ID).
  assert (j_ExitCode j2 = Some code ∧ j_Status j2 = (if code =? 0 then "completed" else "failed") ∧
    j_FinishedAt j2 = Some (now_text w) ∧ bounded j2) as (He & Hs & Hf & Hb).
  { pose proof (append_bounded message j (or_introl Hm)). unfold j2. by destruct (String.eqb _ _). }
  destruct (write_job j2 w) as [ok w2] eqn:Hw. intros Hr. injection Hr as Hr <-. destruct ok; cbn [negb] in Hr.
  - right. exists code. split; [by rewrite <- Hr|]. exists (text_job j2).
    rewrite <- Hid, (write_job_read j2 w w2); [|intros z Hz; congruence|done]. split; [done|].
    repeat split; [by destruct j2| |destruct j2; cbn in *; subst; by eexists|by apply text_bounded].
    destruct j2. cbn in *. subst. by destruct (code =? 0).
  - left. split; [by rewrite <- Hr|]. eapply (write_job_fails j2); [|done]. by rewrite Hid.
Qed.

Lemma log_lines_ID lines : ∀ j w ok j' w', log_lines lines j w = (ok, j', w') → j_ID j' = j_ID j.
Proof.
  induction lines as [|line lines IH]; intros j w ok j' w'; cbn [log_lines]; [by intros [= _ <- _]|].
  destruct (write_job (appendUpgradeLine line j) w) as [[] w1].
  - intros Hl%IH. by rewrite Hl, append_ID.
  - intros [= _ <- _]. apply append_ID.
Qed.

Lemma runUpgradeCommand_spec step j w code ok j' w' :
  runUpgradeCommand step j w = (code, ok, j', w') → j_ID j' = j_ID j ∧ int_min ≤ code ≤ int_max.
Proof.
  unfold runUpgradeCommand. set (j1 := appendUpgradeLine _ j). assert (j_ID j1 = j_ID j) as Hid by apply append_ID.
  assert (int_min ≤ -1 ≤ int_max) as H1 by done.
  destruct (write_job j1 w) as [[] w1]; cbn [negb]; [|intros [= <- _ <- _]; done].
  destruct (spawn w1 step.1 step.2) as [[[w2 output] c]|] eqn:Hs; [|intros [= <- _ <- _]; done].
  apply exit_code_range in Hs. destruct (scan_lines_up_to longest_line output) as [lines whole].
  destruct (log_lines lines j1 w2) as [[ok3 j3] w3] eqn:Hl. apply log_lines_ID in Hl.
  destruct ok3; cbn [negb]; intros [= <- _ <- _]; [|by rewrite Hl].
  destruct whole; rewrite ?append_ID; by rewrite Hl.
Qed.

Lemma run_steps_concluded steps : ∀ j w r w',
  validJobID (j_ID j) = true → run_steps steps j w = (r, w') → concluded (j_ID j) r w'.
Proof.
  induction steps as [|step steps IH]; intros j w r w' Hv; cbn [run_steps].
  - intros Hf. apply finish_concluded in Hf; [exact Hf|done|done|by vm_compute].
  - destruct (runUpgradeCommand step j w) as [[[code ok] j1] w1] eqn:Hc.
    apply runUpgradeCommand_spec in Hc as [Hid Hr]. rewrite <- Hid in *.
    destruct (negb ok || negb (code =? 0)); [|by apply IH].
    destruct (expired w1); intros Hf; (apply finish_concluded in Hf; [exact Hf|done|done|by vm_compute]).
Qed.

Lemma read_job_ID w id j : read_job w id = Some j → j_ID j = id ∧ validJobID id = true.
Proof.
  unfold read_job. destruct (validJobID id); [|done]. destruct (files w !! jobPath id); [|done].
  destruct (json_parse _) as [v|]; [|done]. destruct (decode_job v) as [k|]; [|done].
  destruct (String.eqb_spec (j_ID k) id); [|done]. by intros [= <-].
Qed.

(** The errors by which the updater declines, leaving every file as it is. *)
Definition declined (e : updater_error) : bool :=
  match e with InvalidID | Insecure | Locked | Unreadable | NotPending => true | _ => false end.

Lemma run_job_spec id w r w' :
  run_job id w = (r, w') →
  match read_job w id with
  | Some j => if String.eqb (j_Status j) "pending" then concluded id r w' else r = Err NotPending ∧ w' = w
  | None => r = Err Unreadable ∧ w' = w
  end.
Proof.
  unfold run_job. destruct (read_job w id) as [j|] eqn:Hj; [|by intros [= <- <-]].
  apply read_job_ID in Hj as [Hid Hv]. destruct (String.eqb (j_Status j) "pending"); cbn [negb]; [|by intros [= <- <-]].
  set (j1 := appendUpgradeLine _ _). assert (j_ID j1 = id) as Hid1 by (unfold j1; by rewrite append_ID).
  destruct (write_job j1 w) as [[] w1] eqn:Hw; cbn [negb].
  - destruct (upgrade_steps (j_Backend j1)) as [steps|message] eqn:Hs.
    + intros Hr. apply run_steps_concluded in Hr; by rewrite Hid1 in *.
    + intros Hf. apply finish_concluded in Hf; [by rewrite Hid1 in Hf|by rewrite Hid1|done|].
      unfold upgrade_steps in Hs. repeat case_match; try done; injection Hs as <-; by vm_compute.
  - intros [= <- <-]. left. split; [done|]. eapply write_job_fails; [|exact Hw]. by rewrite Hid1.
Qed.

Lemma unlock_read w id : read_job (unlock w) id = read_job w id.
Proof. unfold read_job. by rewrite unlock_files. Qed.
Lemma unlock_concluded id r w : concluded id r w → concluded id r (unlock w).
Proof.
  intros [H|(c & Hr & j & Hj & H)]; [by left|right]. exists c. split; [done|]. exists j. by rewrite unlock_read.
Qed.

Lemma updater_spec id w :
  let (r, w') := runUpdater id w in
  match lock w, read_job w id with
  | Some _, Some j =>
      if secure w && String.eqb (j_Status j) "pending" then concluded id r w'
      else ∃ e, r = Err e ∧ declined e = true ∧ files w' = files w
  | _, _ => ∃ e, r = Err e ∧ declined e = true ∧ files w' = files w
  end.
Proof.
  unfold runUpdater. destruct (validJobID id) eqn:Hv; cbn [negb].
  2:{ assert (read_job w id = None) as -> by (unfold read_job; by rewrite Hv). destruct (lock w); by eexists. }
  destruct (secure w); cbn [negb andb]; [|destruct (lock w); [destruct (read_job w id)|]; by eexists].
  destruct (lock w) as [w1|] eqn:Hl; [|by eexists]. apply lock_files in Hl.
  assert (read_job w1 id = read_job w id) as Hrd by (unfold read_job; by rewrite Hl).
  destruct (run_job id w1) as [r w2] eqn:Hr. apply run_job_spec in Hr. rewrite Hrd in Hr.
  destruct (read_job w id) as [j|].
  - destruct (String.eqb (j_Status j) "pending"); [by apply unlock_concluded|]. destruct Hr as [-> ->].
    eexists. split; [done|]. by rewrite unlock_files.
  - destruct Hr as [-> ->]. eexists. split; [done|]. by rewrite unlock_files.
Qed.

(** The updater brings the job it is given to an end.  Given the identifier of a pending job, in
    a safe state directory whose lock it gets, it either cannot write the file of the job, or
    leaves in it the end of the job: its exit code, completed when that code is 0 and failed
    otherwise, the date, and at most 400 lines; and it answers success exactly for the code 0.
    In every other case it answers why and changes no file. *)
Theorem runUpdater_ends id w :
  let (r, w') := runUpdater id w in
  match lock w, read_job w id with
  | Some _, Some j =>
      if secure w && String.eqb (j_Status j) "pending" then concluded id r w'
      else ∃ e, r = Err e ∧ declined e = true ∧ files w' = files w
  | _, _ => ∃ e, r = Err e ∧ declined e = true ∧ files w' = files w
  end.
Proof. apply updater_spec. Qed.
End updater.

(** ** The daemon *)

Section daemon.
Context {W : Type} `{!FileSystem W} `{!UpdateHost W} `{!Programs W}.

Definition active_call (id : string) (o : outcome) : call := (systemctlCommand, ["is-active"; "--quiet"; unit_of id], o).
Definition start_call (id : string) (o : outcome) : call := (systemctlCommand, ["start"; "--no-block"; unit_of id], o).

(** What systemctl answered about the unit of the job; nothing is asked when it is missing. *)
Definition asked (id : string) (active : bool) (l : list call) : Prop :=
  if executable systemctlCommand then ∃ o, l = [active_call id o] ∧ active = (status o =? 0) else l = [] ∧ active = false.

Lemma unit_active_spec id (m : Machine W) :
  ∃ active w l, unit_active id m = (Ok active, mkMachine w (ran m ++ l)) ∧ asked id active l.
Proof.
  unfold unit_active, asked. destruct (executable systemctlCommand).
  2:{ exists false, (inside m), []. rewrite app_nil_r. by destruct m. }
  run_program o w.
  exists (status o =? 0), w, [active_call id o]. split; [done|]. by exists o.
Qed.

(** What is known of a job found at work or not: its unit was asked for, and it is at work when the unit is active or the job younger than thirty seconds. *)
Definition job_checked (j : upgradeJob) (busy : bool) (l : list call) (w : W) : Prop :=
  ∃ active, asked (j_ID j) active l ∧ busy = active || recent w (j_StartedAt j).

Lemma running_job_spec (m : Machine W) :
  match current_job (inside m) with
  | None => running_job m = (Ok None, m)
  | Some j => ∃ (busy : bool) w w1 l, running_job m = (Ok (if busy then Some (j_ID j) else None), mkMachine w (ran m ++ l)) ∧
      job_checked j busy l w1 ∧ (if busy then w = w1 else True)
  end.
Proof.
  unfold running_job. rewrite bind_look. destruct (current_job (inside m)) as [j|]; [|done].
  destruct (unit_active_spec (j_ID j) m) as (active & w & l & Hu & Ha). rewrite (bind_Ok_eq _ _ _ _ _ Hu).
  rewrite bind_look. cbn [inside]. set (busy := active || recent w (j_StartedAt j)).
  destruct busy eqn:Hb.
  - exists true, w, w, l. split; [done|]. split; [|done]. exists active. by split.
  - rewrite bind_touch. cbn [inside ran]. destruct (close_job _ j w) as [ok w']. exists false, w', w, l.
    split; [done|]. split; [|done]. exists active. by split.
Qed.

(** What [startUpgrade] runs after the question about the current job. *)
Definition starts (l : list call) (out : res Reply data) : Prop :=
  (l = [] ∧ is_ok out = false) ∨
  ∃ id o, validJobID id = true ∧ l = [start_call id o] ∧
    (if succeeded o then out = Ok [("job_id", VStr id); ("already_running", VBool false)] else is_ok out = false).

Lemma create_job_valid j w w' : create_job j w = (true, w') → validJobID (j_ID j) = true.
Proof.
  unfold create_job, write_job. destruct (negb _ || _); [done|]. destruct (validJobID (j_ID j)); [done|]. done.
Qed.

Lemma start_job_spec manager (m : Machine W) : let (out, m') := start_job manager m in
  ∃ l, ran m' = ran m ++ l ∧ starts l out.
Proof.
  unfold start_job. rewrite bind_touch. destruct (newJobID (inside m)) as [[id|] w]; cbn [fst snd].
  2:{ exists []. split; [by rewrite app_nil_r|by left]. }
  rewrite bind_look, bind_touch. cbn [inside ran].
  destruct (create_job _ w) as [[] w2] eqn:Hc; cbn [fst snd negb].
  2:{ exists []. split; [by rewrite app_nil_r|by left]. }
  apply create_job_valid in Hc. cbn [j_ID] in Hc.
  run_program o w3.
  cbn [ran]. destruct (succeeded o) eqn:Ho.
  - eexists. split; [done|]. right. exists id, o. by rewrite Ho.
  - rewrite bind_touch. eexists. split; [done|]. right. exists id, o. by rewrite Ho.
Qed.

(** The end of [startUpgrade], once no job is at work. *)
Definition start_new : cmd W data :=
  do! manager := lift package_manager in
  if negb (executable systemctlCommand)
  then stop (failure 3 "DEPENDENCY_NOT_FOUND" "systemd est nécessaire pour isoler l’installation des mises à jour.")
  else start_job manager.
Lemma start_new_spec (m : Machine W) : let (out, m') := start_new m in ∃ l, ran m' = ran m ++ l ∧ starts l out.
Proof.
  unfold start_new, lift. destruct package_manager as [manager|r]; unfold bind.
  - destruct (executable systemctlCommand); [apply start_job_spec|].
    exists []. split; [by rewrite app_nil_r|by left].
  - exists []. split; [by rewrite app_nil_r|by left].
Qed.

Lemma upgradeInProgress_spec (m : Machine W) :
  match current_job (inside m) with
  | None => upgradeInProgress m = (Ok false, m)
  | Some j => ∃ (busy : bool) w l, upgradeInProgress m = (Ok busy, mkMachine w (ran m ++ l)) ∧ job_checked j busy l w
  end.
Proof.
  unfold upgradeInProgress. rewrite bind_look. destruct (current_job (inside m)) as [j|]; [|done].
  destruct (unit_active_spec (j_ID j) m) as (active & w & l & Hu & Ha). rewrite (bind_Ok_eq _ _ _ _ _ Hu). destruct active.
  - exists true, w, l. split; [done|]. by exists true.
  - exists (recent w (j_StartedAt j)), w, l. split; [done|]. by exists false.
Qed.

(** The end of [scheduleReboot], once no job is at work. *)
Definition reboot (delay : string) : cmd W data :=
  if negb (executable systemctlCommand) || negb (executable systemdRunCommand) then
    stop (failure 3 "DEPENDENCY_NOT_FOUND" "systemd est nécessaire pour redémarrer le serveur.")
  else
    do! o := run systemdRunCommand (reboot_arguments delay) in
    if succeeded o
    then ret [("scheduled", VBool true); ("delay_minutes", if String.eqb delay "0" then VInt 0 else VStr delay)]
    else stop (failure 10 "REBOOT_SCHEDULE_FAILED" "Le redémarrage du serveur n’a pas pu être programmé.").
Lemma reboot_spec delay (m : Machine W) : ∃ l, ran (reboot delay m).2 = ran m ++ l ∧
  (l = [] ∨ ∃ o, l = [(systemdRunCommand, reboot_arguments delay, o)]).
Proof.
  unfold reboot. destruct (_ || _). { exists []. rewrite app_nil_r. split; [done|by left]. }
  run_program o w.
  exists [(systemdRunCommand, reboot_arguments delay, o)]. split; [by destruct (succeeded o)|right; by exists o].
Qed.

(** One upgrade at a time.  When a job is current and pending or running, its unit is asked for
    first: if it is active, or the job is younger than thirty seconds, the command answers the
    identifier of that job and starts nothing.  Otherwise at most one unit is started, for a
    well-formed identifier, which the answer of success names. *)
Theorem startUpgrade_exclusive (m : Machine W) :
  let (out, m') := startUpgrade m in
  ∃ l, ran m' = ran m ++ l ∧
  match current_job (inside m) with
  | None => starts l out
  | Some j => if secure (inside m) then
        ∃ question rest (busy : bool) w, l = question ++ rest ∧ job_checked j busy question w ∧
          if busy then rest = [] ∧ out = Ok [("job_id", VStr (j_ID j)); ("already_running", VBool true)] else starts rest out
      else l = [] ∧ is_ok out = false
  end.
Proof.
  unfold startUpgrade. rewrite bind_look. destruct (secure (inside m)); cbn [negb].
  2:{ exists []. rewrite app_nil_r. split; [done|]. destruct (current_job _); [done|by left]. }
  pose proof (running_job_spec m) as Hr. destruct (current_job (inside m)) as [j|].
  - destruct Hr as (busy & w & w1 & q & Hr & Hj & _). rewrite (bind_Ok_eq _ _ _ _ _ Hr). destruct busy.
    + exists q. split; [done|]. exists q, [], true, w1. by rewrite app_nil_r.
    + change (let (out, m') := start_new (mkMachine w (ran m ++ q)) in ∃ l, ran m' = ran m ++ l ∧
        ∃ question rest (busy : bool) w, l = question ++ rest ∧ job_checked j busy question w ∧
          if busy then rest = [] ∧ out = Ok [("job_id", VStr (j_ID j)); ("already_running", VBool true)] else starts rest out).
      pose proof (start_new_spec (mkMachine w (ran m ++ q))) as Hs. destruct (start_new _) as [out m'].
      destruct Hs as (l & Hl & Hs). exists (q ++ l). cbn [ran] in Hl.
      split; [by rewrite Hl, app_assoc|]. by exists q, l, false, w1.
  - rewrite (bind_Ok_eq _ _ _ _ _ Hr). exact (start_new_spec m).
Qed.

(** No reboot during an upgrade.  The server is asked to reboot at most once, with one of the five
    delays and the arguments it stands for, and only when no job is current and pending or
    running, or its unit was found inactive and it is thirty seconds old or more. *)
Theorem scheduleReboot_guarded delay (m : Machine W) :
  ∃ l, ran (scheduleReboot delay m).2 = ran m ++ l ∧
  (l = [] ∨ delay ∈ reboot_delays ∧
  match current_job (inside m) with
  | None => ∃ o, l = [(systemdRunCommand, reboot_arguments delay, o)]
  | Some j => ∃ question rest (busy : bool) w, l = question ++ rest ∧ job_checked j busy question w ∧
      (rest = [] ∨ busy = false ∧ ∃ o, rest = [(systemdRunCommand, reboot_arguments delay, o)])
  end).
Proof.
  unfold scheduleReboot. destruct (bool_decide_reflect (delay ∈ reboot_delays)) as [Hd|Hd]; cbn [negb].
  2:{ exists []. rewrite app_nil_r. split; [done|by left]. }
  pose proof (upgradeInProgress_spec m) as Hp. destruct (current_job (inside m)) as [j|].
  - destruct Hp as (busy & w & q & Hu & Hj). rewrite (bind_Ok_eq _ _ _ _ _ Hu). destruct busy.
    + exists q. split; [done|]. right. split; [done|]. exists q, [], true, w. rewrite app_nil_r. auto.
    + destruct (reboot_spec delay (mkMachine w (ran m ++ q))) as (l & Hl & Hs).
      exists (q ++ l). split; [rewrite app_assoc; exact Hl|]. right. split; [done|]. exists q, l, false, w.
      split; [done|]. split; [done|]. destruct Hs as [->|Hs]; [by left|by right].
  - rewrite (bind_Ok_eq _ _ _ _ _ Hp). destruct (reboot_spec delay m) as (l & Hl & Hs).
    exists l. split; [exact Hl|]. destruct Hs as [->|Hs]; [by left|by right].
Qed.

(** ** From the request to the end *)

Lemma jobPath_current id : currentPath ≠ jobPath id.
Proof. intros H. apply (f_equal (String.get 28)) in H. vm_compute in H. discriminate. Qed.

Lemma create_job_read j w w' : code_ok j → create_job j w = (true, w') → read_job w' (j_ID j) = Some (text_job j).
Proof.
  intros Hc. unfold create_job. destruct (negb _ || _); [done|].
  destruct (write_job j w) as [[] w1] eqn:Hw; [|done]. apply write_job_read in Hw; [|done]. intros Hcur.
  unfold read_job in *. by rewrite (write_at_other _ _ _ _ _ _ Hcur (jobPath_current (j_ID j))).
Qed.

(** The programs the daemon runs leave its files alone. *)
Definition programs_keep_files : Prop := ∀ w name arguments, files (exec w name arguments).1 = files w.

Lemma start_job_created manager (m m' : Machine W) id : programs_keep_files →
  start_job manager m = (Ok [("job_id", VStr id); ("already_running", VBool false)], m') →
  ∃ j, read_job (inside m') id = Some j ∧ j_Status j = "pending".
Proof.
  intros Hk. unfold start_job. rewrite bind_touch. destruct (newJobID (inside m)) as [[id'|] w]; cbn [fst snd]; [|done].
  rewrite bind_look, bind_touch. cbn [inside ran]. set (j := mkJob id' _ _ _ _ _ _ _ _).
  destruct (create_job j w) as [[] w2] eqn:Hc; cbn [fst snd negb]; [|done].
  apply create_job_read in Hc; [|by intros z]. unfold bind, run. cbn [inside ran].
  pose proof (Hk w2 systemctlCommand ["start"; "--no-block"; unit_of id']) as Hf.
  destruct (exec w2 _ _) as [w3 o]. cbn [fst] in Hf. destruct (succeeded o); [|unfold touch; by destruct (close_job _ _ _)].
  intros H. injection H as <- <-. exists (text_job j). split; [|done]. unfold read_job in *. cbn [inside]. by rewrite Hf.
Qed.

Lemma startUpgrade_created (m m' : Machine W) id : programs_keep_files →
  startUpgrade m = (Ok [("job_id", VStr id); ("already_running", VBool false)], m') →
  ∃ j, read_job (inside m') id = Some j ∧ j_Status j = "pending".
Proof.
  intros Hk. unfold startUpgrade. rewrite bind_look. destruct (secure (inside m)); cbn [negb]; [|done].
  intros H. apply bind_Ok in H as (at_work & m1 & _ & H). destruct at_work as [id1|]; [by injection H|].
  apply bind_Ok in H as (manager & m2 & _ & H). destruct (negb _); [done|]. by eapply start_job_created.
Qed.

(** C30: an upgrade comes to its end.  When every write succeeds and the programs the daemon runs leave
    its files alone, the job that a start announces is carried out by the updater, run later
    on the same files in a safe directory whose lock it gets: the job then is completed, or
    failed with the exit code that is not 0, and the status command says so. *)
Theorem upgrade_completes (m m1 : Machine W) id w w0 l : writable W → programs_keep_files →
  startUpgrade m = (Ok [("job_id", VStr id); ("already_running", VBool false)], m1) →
  files w = files (inside m1) → secure w = true → lock w = Some w0 →
  ∃ code j, (runUpdater id w).1 = (if code =? 0 then Ok () else Err (Failed code)) ∧
    (upgradeStatus id (mkMachine (runUpdater id w).2 l)).1 = Ok (job_data j) ∧
    j_ExitCode j = Some code ∧ j_Status j = (if code =? 0 then "completed" else "failed") ∧ is_Some (j_FinishedAt j).
Proof.
  intros Hw Hk (j & Hj & Hp)%startUpgrade_created Hf Hs Hl; [|done]. pose proof (updater_spec id w) as He.
  destruct (runUpdater id w) as [r w']. cbn [fst snd]. rewrite Hl in He.
  assert (read_job w id = Some j) as Hj' by (unfold read_job in *; by rewrite Hf). rewrite Hj', Hs, Hp in He.
  destruct He as [[_ (w2 & p & c & Hn)]|(code & -> & j' & Hr & Hc & Hst & Hfin & _)]; [by rewrite Hw in Hn|].
  exists code, j'. split; [done|]. split; [|done]. unfold upgradeStatus. apply read_job_ID in Hr as Hid.
  destruct Hid as [_ ->]. cbn [negb]. rewrite bind_look. cbn [inside]. by rewrite Hr.
Qed.
End daemon.

(** ** A host *)

(** The files and the clock; one update, then one upgrade that prints two lines. *)
Record box := mkBox { box_files : gmap string string; box_now : Z }.
#[global] Instance box_system : FileSystem box.
Proof.
  refine {| files := box_files; set_files fs b := mkBox fs (box_now b); may_write _ _ _ := true; may_remove _ _ := true |}.
  done.
Defined.
#[global] Instance box_host : UpdateHost box.
Proof.
  refine {| now := box_now; secure _ := true; make_jobs_directory _ := true; lock b := Some b; unlock b := b;
    random b := (Some "0123456789abcdef", b); version_file _ := Some ("1.0" +++ snl);
    spawn b name arguments := Some (b, "un" +++ snl +++ "deux" +++ snl, if bool_decide (arguments = ["update"]) then 0 else 100);
    expired _ := false |}.
  - by intros w w' [= <-].
  - done.
  - intros w w' name arguments output code [= _ _ <-]. by destruct (bool_decide _).
Defined.
#[global] Instance box_programs : Programs box := {|
  exec b _ _ := (b, mkOutcome "" "" 0); executable _ := true |}.
Definition box_start : Machine box := mkMachine (mkBox ∅ 1767225600000000000) [].
Definition box_id : string := hex_encode "0123456789abcdef".

Example box_failed_upgrade :
  let m1 := (startUpgrade box_start).2 in
  (runUpdater box_id (inside m1)).1 = Err (Failed 100) ∧
  (j_Lines <$> read_job (runUpdater box_id (inside m1)).2 box_id) = Some (Some
    [start_line; "Le service indépendant a démarré."; "$ apt-get update"; "un"; "deux";
     "$ apt-get -y --with-new-pkgs -o Dpkg::Options::=--force-confold upgrade"; "un"; "deux";
     "La mise à jour des paquets s’est terminée avec une erreur."]).
Proof. vm_compute. done. Qed.

Lemma upgrade_completes_witness :
  ∃ code j, (runUpdater box_id (inside (startUpgrade box_start).2)).1 = (if code =? 0 then Ok () else Err (Failed code)) ∧
    (upgradeStatus box_id (mkMachine (runUpdater box_id (inside (startUpgrade box_start).2)).2 [])).1 = Ok (job_data j) ∧
    j_ExitCode j = Some code ∧ j_Status j = (if code =? 0 then "completed" else "failed") ∧ is_Some (j_FinishedAt j).
Proof.
  apply (upgrade_completes box_start (startUpgrade box_start).2 box_id _ (inside (startUpgrade box_start).2) []).
  - done.
  - done.
  - vm_compute. reflexivity.
  - reflexivity.
  - reflexivity.
  - reflexivity.
Defined.
