(* ===== verification/Composer.v ===== *)
(** * The Composer monitor: [domain/updates/composer.go]

    A periodic job looks for PHP projects behind the virtual hosts of Apache and asks
    Composer, under the identity of the owner of the project, what is outdated and what is
    vulnerable.  The monitor keeps the last snapshot; a refresh is started by a request, one
    at a time, and ends in the background.  The programs run, the accounts and the files are
    parameters. *)

From S2P Require Import Prelude GoStrings StringFacts Regex Time Backtrack Codec Json JsonParse JsonMore Command Files Units.
From S2P Require Api Backup.
From Stdlib Require Import Ascii String.
#[local] Open Scope string_scope.
#[local] Open Scope list_scope.
#[local] Open Scope Z_scope.

Import Api(VStr, VInt, VBool, VList, VMap, VNil, Value).
Import Backup(IsAbs, Clean, Join).

(** ** Patterns *)

Definition alnum (c : ascii) : bool := is_lower c || is_upper c || is_digit c.
Definition not_space : ascii → bool := but re_space.
Definition not_quote : ascii → bool := but (one_byte_of (String "034" (String "039" ""))).
Definition quote_mark : pat := PCls (one_byte_of (String "034" (String "039" ""))).
Definition composerVHostPattern : pat :=
  PAlt (word_i "port" >> spaces1 >> digits >> spaces1 >> word_i "namevhost") (word_i "default server") >>
  spaces1 >> PGroup 1 (some_bytes not_space) >> spaces1 >> word "(" >>
  PGroup 2 (word "/" >> PRep true 1 None not_nl >> word_i ".conf") >> word ":" >> PGroup 3 digits >> word ")" >> PEnd.
Definition composerDomainPattern : rx := Cls alnum ;;; opt (Star (Cls (cls alnum ".-")) ;;; Cls alnum).
Definition composerDocumentRootPattern : pat :=
  word_i "DocumentRoot" >> spaces1 >> maybe quote_mark >> PGroup 1 (some_bytes not_quote) >> maybe quote_mark >> PEnd.
Definition composerEmptyAdvisoriesPattern : pat :=
  word (smap (λ c, if Ascii.eqb c "~" then "034"%char else c) "~advisories~") >> spaces >> word ":" >> spaces >>
  word "[" >> spaces >> word "]".

Definition validComposerDomain (domain : string) : bool := (slen domain <=? 253) && full composerDomainPattern domain.

(** ** Durations *)

Definition duration_units : list (string * Z) :=
  [("ns", 1); ("us", 1000); ("µs", 1000); ("μs", 1000); ("ms", 1000000); ("s", 1000000000);
   ("m", 60000000000); ("h", 3600000000000)].
Definition unit_byte (c : ascii) : bool := negb (Ascii.eqb c ".") && negb (is_digit c).
Fixpoint take_unit (s : string) : string * string :=
  match s with
  | String c s' => if unit_byte c then let (u, r) := take_unit s' in (String c u, r) else ("", s)
  | "" => ("", "")
  end.
(** [time.ParseDuration] without its sign: numbers with a unit each.  The part of a unit
    below one is computed exactly. *)
Fixpoint duration_parts (fuel : nat) (acc : Z) (s : string) : option Z :=
  match fuel with
  | O => None
  | S fuel =>
      match s with
      | "" => Some acc
      | _ =>
          let (int, r) := take_digits s in
          let '(frac, r, dot) := match r with
            | String "." r => let (f, r) := take_digits r in (f, r, true)
            | _ => ("", r, false) end in
          if String.eqb int "" && String.eqb frac "" then None
          else
            let (u, r) := take_unit r in
            match find (λ x, String.eqb x.1 u) duration_units with
            | None => None
            | Some (_, n) =>
                let v := digits_value 0 int * n + digits_value 0 frac * n / 10 ^ slen frac in
                if 2 ^ 63 <? acc + v then None else duration_parts fuel (acc + v) r
            end
      end
  end.
Definition ParseDuration (s : string) : option Z :=
  let (negative, r) := split_sign s in
  if String.eqb r "0" then Some 0
  else if String.eqb r "" then None
  else match duration_parts (S (String.length r)) 0 r with
       | Some d => if negative then Some (- d) else if d =? 2 ^ 63 then None else Some d
       | None => None
       end.
Example six_hours : ParseDuration "6h" = Some 21600000000000 ∧ ParseDuration "1h30m" = Some 5400000000000 ∧
  ParseDuration "1.5m" = Some 90000000000 ∧ ParseDuration "90" = None.
Proof. vm_compute. done. Qed.

(** ** Data *)

Record composerProfile := mkProfile {
  p_enabled : bool; p_interval : Z; p_composer : string; p_apacheControl : string;
  p_roots : list string; p_maxParents : Z; p_rootUser : string }.
Record composerPackage := mkPackage { k_Name : string; k_Current : string; k_Latest : string; k_Status : string; k_Direct : bool }.
Record composerAdvisory := mkAdvisory { v_Package : string; v_ID : string; v_Title : string; v_Affected : string; v_Link : string }.
Record composerSite := mkSite {
  s_Domain : string; s_ProjectID : string; s_Status : string; s_UpdateCount : Z; s_CompatibleCount : Z;
  s_SecurityIssueCount : Z; s_SecurityStatus : string; s_SecurityMessage : string;
  s_Packages : list composerPackage; s_Advisories : list composerAdvisory; s_Message : string; s_Stale : bool }.
(** [Sites] of a copy of an empty slice is nil; both print alike here. *)
Record composerSnapshot := mkSnapshot {
  n_Available : bool; n_Refreshing : bool; n_RefreshedAt : option string; n_Sites : list composerSite; n_Message : string }.
Record composerMonitor := mkMonitor { m_profile : composerProfile; m_snapshot : composerSnapshot; m_refreshing : bool }.

Definition with_domain (d : string) (s : composerSite) : composerSite :=
  mkSite d (s_ProjectID s) (s_Status s) (s_UpdateCount s) (s_CompatibleCount s) (s_SecurityIssueCount s)
    (s_SecurityStatus s) (s_SecurityMessage s) (s_Packages s) (s_Advisories s) (s_Message s) (s_Stale s).
Definition stale (message : string) (s : composerSite) : composerSite :=
  mkSite (s_Domain s) (s_ProjectID s) (s_Status s) (s_UpdateCount s) (s_CompatibleCount s) (s_SecurityIssueCount s)
    (s_SecurityStatus s) (s_SecurityMessage s) (s_Packages s) (s_Advisories s) ("Dernier résultat conservé : " +++ message) true.

(** ** The profile *)

Definition default_profile : composerProfile :=
  mkProfile true 21600000000000 "auto" "auto" ["/var/www"; "/srv/www"] 6 "auto".
(** The lines of the profile keep the spaces around a value until it is used. *)
Definition profile_line (raw : string) : option (string * string) :=
  let line := trim_space raw in
  if String.eqb line "" || has_prefix line "#" then None
  else let '(k, v, found) := cut "=" line in if found then Some (trim_space k, trim_space v) else None.
Definition profile_step (p : composerProfile) (kv : string * string) : composerProfile :=
  let (key, v) := kv in
  let '(mkProfile en int co ap ro mx us) := p in
  if String.eqb key "enabled" then mkProfile (negb (String.eqb v "false")) int co ap ro mx us
  else if String.eqb key "interval" then
    match ParseDuration v with Some d => if 900000000000 <=? d then mkProfile en d co ap ro mx us else p | None => p end
  else if String.eqb key "composer" then mkProfile en int v ap ro mx us
  else if String.eqb key "apache_control" then mkProfile en int co v ro mx us
  else if String.eqb key "roots" then mkProfile en int co ap (split "," v) mx us
  else if String.eqb key "max_parents" then
    match atoi v with Some n => if (0 <=? n) && (n <=? 12) then mkProfile en int co ap ro n us else p | None => p end
  else if String.eqb key "root_project_user" then mkProfile en int co ap ro mx v
  else p.
(** The first absolute value of a key. *)
Definition profileValue (content : option string) (wanted fallback : string) : string :=
  default fallback (head (omap (λ raw,
    let '(k, v, found) := cut "=" (trim_space raw) in
    let v := trim_space v in
    if found && String.eqb (trim_space k) wanted && IsAbs v then Some v else None)
    (match content with Some text => (scan_lines text).1 | None => [] end))).
Definition loadComposerProfile (content apache : option string) : composerProfile :=
  let p := fold_left profile_step (omap profile_line (match content with Some text => (scan_lines text).1 | None => [] end)) default_profile in
  if String.eqb (p_apacheControl p) "auto" || String.eqb (p_apacheControl p) ""
  then mkProfile (p_enabled p) (p_interval p) (p_composer p) (profileValue apache "control" "/usr/sbin/apachectl")
         (p_roots p) (p_maxParents p) (p_rootUser p)
  else p.

(** ** The host *)

(** How a run of Composer ended: both streams, the error with its exit code when the process
    ran, and whether the deadline of 90 seconds had passed. *)
Record composer_run := mkRun {
  r_stdout : string; r_stderr : string; r_error : option (option Z * string); r_timed_out : bool }.
(** A process started under an identity. *)
Record identity_call := mkIdentityCall { i_uid : Z; i_gid : Z; i_dir : string; i_program : string; i_arguments : list string }.
(** A process a collection starts: under an identity, or under that of the daemon. *)
Inductive started := Under (x : identity_call) | Plain (program : string) (arguments : list string).

Class ComposerHost (W : Type) := {
  start_as : W → identity_call → W * composer_run;      (** the environment is a function of the program and the uid *)
  eval_links : W → string → option string;              (** [filepath.EvalSymlinks] *)
  regular_file : W → string → bool;
  open_text : W → string → option string;
  owner_of : W → string → option (Z * Z);               (** [os.Stat] of a file: its uid and gid *)
  lookup_login : W → string → option (string * string); (** [user.Lookup]: Uid and Gid *)
  lookup_uid : W → Z → bool;                            (** [user.LookupId] succeeds *)
  geteuid : Z; getegid : Z;
  read_clock : W → Z;                                   (** seconds *)
  json_error : string → string;                         (** the text of the error of the decoder *)
  group_file : W → option string;                       (** [/etc/group] *)
  monitor : W → option composerMonitor;
  set_monitor : composerMonitor → W → W;
}.

Section composer.
Context {W : Type} `{!Programs W} `{!ComposerHost W} `{UnicodeCase}.

(** ** Where a project is *)

Definition resolveComposer (configured : string) : string :=
  let candidates := if String.eqb configured "auto" || String.eqb configured ""
                    then ["/usr/local/bin/composer"; "/usr/bin/composer"] else [configured] in
  default "" (head (filter (λ c, (String.eqb c "/usr/bin/composer" || String.eqb c "/usr/local/bin/composer") && executable c) candidates)).
Definition resolvePHP : string := default "" (head (filter (λ c, executable c = true) ["/usr/bin/php"; "/usr/local/bin/php"])).

Definition allowed_root (current : string) (root : string) : bool :=
  let root := Clean (trim_space root) in
  negb (String.eqb root ".") && (String.eqb current root || has_prefix current (root +++ "/")).
(** The directory or one of its parents, [levels] more at most, that holds both files. *)
Fixpoint project_above (w : W) (levels : nat) (current : string) : option string :=
  if regular_file w (Join current "composer.json") && regular_file w (Join current "composer.lock") then Some current
  else match levels with
       | O => None
       | S levels => let parent := Dir current in
                     if String.eqb parent current then None else project_above w levels parent
       end.
Definition findComposerProject (w : W) (documentRoot : string) (roots : list string) (maxParents : Z) : option string :=
  match eval_links w documentRoot with
  | None => None
  | Some current => if existsb (allowed_root current) roots then project_above w (Z.to_nat maxParents) current else None
  end.

(** The lines of a configuration file, as far as they fit the buffer. *)
Definition longest_line : Z := 262143.
Fixpoint document_root (inside : bool) (lines : list string) : option string :=
  match lines with
  | [] => None
  | line :: lines =>
      let trimmed := trim_space line in
      let lower := to_lower trimmed in
      if has_prefix lower "<virtualhost" then document_root true lines
      else if inside && has_prefix lower "</virtualhost>" then None
      else if inside then
        match match_here composerDocumentRootPattern trimmed with
        | Some g =>
            let root := trim_right_set (Ascii.eqb "/") (trim_space (group g 1)) in
            let root := if String.eqb root "" then "/" else root in
            if IsAbs root then Some root else None
        | None => document_root inside lines
        end
      else document_root inside lines
  end.
Definition composerDocumentRoot (w : W) (path : string) (virtualHostLine : Z) : option string :=
  if negb (IsAbs path) then None
  else match open_text w path with
       | None => None
       | Some text => document_root false (drop (Z.to_nat (Z.max 0 (virtualHostLine - 1))) (scan_lines_up_to longest_line text).1)
       end.

(** The project of each domain; a domain listed twice keeps the last. *)
Definition host_line (w : W) (p : composerProfile) (projects : gmap string string) (raw : string) : gmap string string :=
  match match_here composerVHostPattern (trim_space raw) with
  | None => projects
  | Some g =>
      if negb (validComposerDomain (group g 1)) then projects
      else match composerDocumentRoot w (group g 2) (atoi_val (group g 3)) with
           | None => projects
           | Some root =>
               match findComposerProject w root (p_roots p) (p_maxParents p) with
               | Some project => <[to_lower (group g 1) := project]> projects
               | None => projects
               end
           end
  end.
Definition unavailable_hosts : string := "La liste des VirtualHosts Apache est indisponible.".
Definition discoverProjects (p : composerProfile) (w : W) : gmap string string * string * W :=
  let (w, o) := exec w (p_apacheControl p) ["-S"] in
  if negb (status o =? 0) then (∅, unavailable_hosts, w)
  else (fold_left (host_line w p) (split nl (stdout o)) ∅, "", w).

(** ** Running Composer *)

Definition composerInvocation (php composer : string) (arguments : list string) : string * list string :=
  if String.eqb php "" then (composer, arguments) else (php, ["-d"; "pcre.jit=0"; composer] ++ arguments).
Definition global_arguments : list string := ["--no-interaction"; "--no-plugins"; "--no-scripts"; "--no-ansi"].

Definition dq (s : string) : string := smap (λ c, if Ascii.eqb c "~" then "034"%char else c) s.
Definition composerRejectsLocked (output : string) : bool :=
  let message := to_lower output in
  contains message (dq "~--locked~ option does not exist") || contains message (dq "option ~--locked~ does not exist") ||
  contains message "option --locked does not exist" || contains message (dq "l'option ~--locked~ n'existe pas").
Definition composerRejectsAbandonedMode (output : string) : bool :=
  let message := to_lower output in
  contains message "--abandoned" &&
  (contains message "option does not exist" || contains message "option n'existe pas" || contains message "does not accept a value").
(** The option Composer says it does not know. *)
Definition unsupported (diagnostic : string) : option string :=
  if composerRejectsLocked diagnostic then Some "--locked"
  else if composerRejectsAbandonedMode diagnostic then Some "--abandoned=ignore" else None.

(** What [runComposer] answers: the output, the error and whether it is a time-out. *)
Definition composer_answer : Type := string * option (option Z * string) * bool.
(** A run that fails on an option is tried again without it; [fuel] bounds the tries, which
    the code does not. *)
Fixpoint runComposer (fuel : nat) (composer project : string) (uid gid : Z) (arguments : list string) (w : W)
    : option composer_answer * list identity_call * W :=
  match fuel with
  | O => (None, [], w)
  | S fuel =>
      let (program, line) := composerInvocation resolvePHP composer (global_arguments ++ arguments) in
      let x := mkIdentityCall uid gid project program line in
      let (w, r) := start_as w x in
      match r_error r with
      | None => (Some (r_stdout r, None, false), [x], w)
      | Some e =>
          let diagnostic := r_stdout r +++ r_stderr r in
          match unsupported diagnostic with
          | Some option_ =>
              let '(a, l, w) := runComposer fuel composer project uid gid (filter (λ y, y ≠ option_) arguments) w in
              (a, x :: l, w)
          | None => (Some (diagnostic, Some e, r_timed_out r), [x], w)
          end
      end
  end.

(** ** Why a run failed *)

(** [runCredentialProbe]: [/usr/bin/true] under an identity. *)
Definition runCredentialProbe (uid gid : Z) : identity_call := mkIdentityCall uid gid "" "/usr/bin/true" [].
(** With the processes started to find out. *)
Definition composerIdentityFailureMessage (uid gid : Z) (w : W) : string * list identity_call * W :=
  if negb (geteuid =? 0) then ("Le daemon doit être exécuté par root pour démarrer Composer sous l’identité du projet.", [], w)
  else
    let x := runCredentialProbe geteuid gid in
    let (w, r) := start_as w x in
    match r_error r with
    | Some _ => ("Le service systemd du daemon ne conserve pas la capacité CAP_SETGID requise pour démarrer Composer.", [x], w)
    | None =>
        let y := runCredentialProbe uid getegid in
        let (w, r) := start_as w y in
        (match r_error r with
         | Some _ => "Le service systemd du daemon ne conserve pas la capacité CAP_SETUID requise pour démarrer Composer."
         | None => "Le confinement du service systemd interdit le démarrage de Composer sous l’identité non-root configurée."
         end, [x; y], w)
    end.
Definition composerFailureMessage (output : string) (e : option Z * string) (timedOut : bool) (uid gid : Z) (w : W) : string * list identity_call * W :=
  let message := to_lower (to_valid_utf8 0 false output +++ " " +++ e.2) in
  let says := contains message in
  if timedOut then ("La vérification Composer a dépassé le délai de 90 secondes.", [], w)
  else if says "permission denied" || says "permission non accordée" then
    ("Composer ne peut pas lire le projet avec l’identité non-root configurée.", [], w)
  else if says "operation not permitted" then composerIdentityFailureMessage uid gid w
  else if says "allocation of jit memory failed" then
    ("PHP n’a pas pu désactiver son JIT PCRE sous le confinement systemd du daemon.", [], w)
  else if says "could not resolve host" || says "network is unreachable" || says "failed to open stream" then
    ("Composer ne peut pas joindre le dépôt de dépendances.", [], w)
  else if says "authentication required" || says "invalid credentials" then
    ("Composer ne dispose pas des identifiants requis pour un dépôt privé.", [], w)
  else if says "composer.lock" && says "not found" then ("Composer ne trouve pas le fichier composer.lock du projet.", [], w)
  else if says "option" && says "does not exist" then
    ("La version de Composer installée ne prend pas en charge une option de surveillance requise.", [], w)
  else (match e.1 with
        | Some code => "Composer a interrompu la vérification avec le code " +++ itoa code +++ "."
        | None => "Le processus Composer n’a pas pu être démarré."
        end, [], w).

(** ** What Composer prints *)

Definition composerEmptyArray (output : string) : bool := String.eqb (trim_space output) "[]".

(** Decoding from the whole text, then from each opening brace, into one target that keeps
    what a failed attempt stored. *)
Fixpoint decode_from_braces {T} (store : T → string → json → T * bool) (target : T) (s : string) : T * bool :=
  match s with
  | "" => (target, false)
  | String c s' =>
      if Ascii.eqb c "{" then
        match json_prefix s with
        | Some (v, r) =>
            let (t, ok) := store target (consumed s r) v in
            if ok then (t, true) else decode_from_braces store t s'
        | None => decode_from_braces store target s'
        end
      else decode_from_braces store target s'
  end.
Definition decodeComposerJSON {T} (store : T → string → json → T * bool) (target : T) (output : string) : T * bool :=
  match json_parse output with
  | Some v =>
      let (t, ok) := store target output v in
      if ok then (t, true) else decode_from_braces store t output
  | None => decode_from_braces store target output
  end.

(** A field decoded over the value it had. *)
Definition store_member {A} (name : string) (store : A → json → A * bool) (a : A) (m : list (string * json)) : A * bool :=
  store_field name store a m.
Record installed_item := mkItem { t_Name : string; t_Version : string; t_Latest : string; t_Status : string; t_Direct : bool }.
Definition store_item (a : installed_item) (v : json) : installed_item * bool :=
  match v with
  | JNull => (a, true)
  | JObj m =>
      let (name, ok1) := store_member "name" store_string (t_Name a) m in
      let (version, ok2) := store_member "version" store_string (t_Version a) m in
      let (latest, ok3) := store_member "latest" store_string (t_Latest a) m in
      let (status, ok4) := store_member "latest-status" store_string (t_Status a) m in
      let (direct, ok5) := store_member "direct-dependency" store_bool (t_Direct a) m in
      (mkItem name version latest status direct, ok1 && ok2 && ok3 && ok4 && ok5)
  | _ => (a, false)
  end.
Definition store_outdated (a : list installed_item) (_ : string) (v : json) : list installed_item * bool :=
  match v with
  | JNull => (a, true)
  | JObj m => store_member "installed" (store_list store_item (mkItem "" "" "" "" false)) a m
  | _ => (a, false)
  end.
Definition outdated_package (i : installed_item) : option composerPackage :=
  if String.eqb (t_Name i) "" || String.eqb (t_Version i) "" || String.eqb (t_Latest i) "" || String.eqb (t_Version i) (t_Latest i)
  then None else Some (mkPackage (t_Name i) (t_Version i) (t_Latest i) (t_Status i) (t_Direct i)).
Definition parseComposerOutdated (output : string) : option (list composerPackage) :=
  if composerEmptyArray output then Some []
  else let (items, ok) := decodeComposerJSON store_outdated [] output in
       if ok then Some (omap outdated_package items) else None.

(** The field [advisories], as it was written. *)
Definition store_audit (a : option string) (text : string) (v : json) : option string * bool :=
  match v with
  | JNull => (a, true)
  | JObj _ => (match raw_field "advisories" text with Some r => Some r | None => a end, true)
  | _ => (a, false)
  end.
Record advisory_item := mkAdvisoryItem {
  d_AdvisoryID : string; d_PackageName : string; d_RemoteID : string; d_Title : string; d_Link : string; d_Affected : string }.
Definition store_advisory (a : advisory_item) (v : json) : advisory_item * bool :=
  match v with
  | JNull => (a, true)
  | JObj m =>
      let (id, ok1) := store_member "advisoryId" store_string (d_AdvisoryID a) m in
      let (name, ok2) := store_member "packageName" store_string (d_PackageName a) m in
      let (remote, ok3) := store_member "remoteId" store_string (d_RemoteID a) m in
      let (title, ok4) := store_member "title" store_string (d_Title a) m in
      let (link, ok5) := store_member "link" store_string (d_Link a) m in
      let (affected, ok6) := store_member "affectedVersions" store_string (d_Affected a) m in
      (mkAdvisoryItem id name remote title link affected, ok1 && ok2 && ok3 && ok4 && ok5 && ok6)
  | _ => (a, false)
  end.
(** A map of slices: each member decoded afresh, the last of a key kept. *)
Definition decode_advisories (v : json) : option (list (string * list advisory_item)) :=
  match v with
  | JNull => Some []
  | JObj m =>
      let decoded := map (λ kv, (kv.1, store_list store_advisory (mkAdvisoryItem "" "" "" "" "" "") [] kv.2)) m in
      if forallb (λ x, x.2.2) decoded
      then Some (map_to_list (fold_left (λ (a : gmap string (list advisory_item)) x, <[x.1 := x.2.1]> a) decoded ∅))
      else None
  | _ => None
  end.
Definition advisory_of (packageName : string) (d : advisory_item) : composerAdvisory :=
  mkAdvisory (if String.eqb (d_PackageName d) "" then packageName else d_PackageName d)
    (if String.eqb (d_AdvisoryID d) "" then d_RemoteID d else d_AdvisoryID d) (d_Title d) (d_Affected d) (d_Link d).
Definition advisory_le (x y : composerAdvisory) : Prop :=
  if String.eqb (v_Package x) (v_Package y) then str_le (v_ID x) (v_ID y) else str_le (v_Package x) (v_Package y).
#[local] Instance advisory_le_dec x y : Decision (advisory_le x y).
Proof. unfold advisory_le. destruct (String.eqb _ _); apply _. Defined.
Definition parseComposerAudit (output : string) : option (list composerAdvisory) :=
  if composerEmptyArray output then Some []
  else
    let (raw, ok) := decodeComposerJSON store_audit None output in
    if negb ok then match find_match composerEmptyAdvisoriesPattern output with Some _ => Some [] | None => None end
    else match raw with
         | None => Some []
         | Some r =>
             if String.eqb (trim_space r) "[]" || String.eqb (trim_space r) "null" then Some []
             else match json_parse r with
                  | Some v => match decode_advisories v with
                      | Some l => Some (merge_sort advisory_le (mjoin ((λ x : string * list advisory_item, advisory_of x.1 <$> x.2) <$> l)))
                      | None => None end
                  | None => None
                  end
         end.

(** ** One project *)

(** The members of the group of the web program, or the account of the profile. *)
Definition group_login (content configured : string) : string :=
  match find (λ f : list string, Nat.eqb (List.length f) 4 && String.eqb (default "" (f !! 0%nat)) "aegisadmin-web")
             (map (split ":") (split nl content)) with
  | Some f => default configured (head (filter (λ m, m ≠ "") (map trim_space (sort_strings (split "," (default "" (f !! 3%nat)))))))
  | None => configured
  end.
Definition resolveRootProjectUser (w : W) (configured : string) : option (Z * Z) :=
  let login :=
    if String.eqb configured "" || String.eqb configured "auto"
    then (λ content, group_login content configured) <$> group_file w else Some configured in
  match login with
  | None => None
  | Some login =>
      match lookup_login w login with
      | Some (uid, gid) =>
          match parse_uint32 uid, parse_uint32 gid with
          | Some u, Some g => if u =? 0 then None else Some (u, g)
          | _, _ => None
          end
      | None => None
      end
  end.

Definition composerProjectID (path : string) : string := hex_encode (sha256 path).
Definition failed_site (project message : string) : composerSite :=
  mkSite "" (composerProjectID project) "error" 0 0 0 "error" "" [] [] message false.
Definition outdated_arguments : list string := ["outdated"; "--locked"; "--no-dev"; "--format=json"].
Definition audit_arguments : list string := ["audit"; "--locked"; "--no-dev"; "--abandoned=ignore"; "--format=json"].

(** The advisories, the status and the message of an audit that ran to its end. *)
Definition audit_result (uid gid : Z) (a : composer_answer) (w : W) : list composerAdvisory * string * string * list identity_call * W :=
  let '(output, e, timedOut) := a in
  match e with
  | Some (None, text) =>
      let '(message, l, w) := composerFailureMessage output (None, text) timedOut uid gid w in ([], "error", message, l, w)
  | _ =>
      match parseComposerAudit output with
      | Some l => (l, "ok", "", [], w)
      | None =>
          ([], "error", "La réponse JSON de l’audit Composer est invalide : " +++ json_error output +++
            match e with Some (Some code, _) => " (code " +++ itoa code +++ ")" | _ => "" end, [], w)
      end
  end.
(** [None]: Composer is run again and again. *)
Definition inspect_as (fuel : nat) (composer project : string) (uid gid : Z) (w : W)
    : option composerSite * list identity_call * W :=
  if negb (lookup_uid w uid) then (Some (failed_site project "Le propriétaire du projet est introuvable."), [], w)
  else
    let '(a, l1, w) := runComposer fuel composer project uid gid outdated_arguments w in
    match a with
    | None => (None, l1, w)
    | Some (output, Some e, timedOut) =>
        let '(message, l2, w) := composerFailureMessage output e timedOut uid gid w in
        (Some (failed_site project message), l1 ++ l2, w)
    | Some (output, None, _) =>
        match parseComposerOutdated output with
        | None => (Some (failed_site project "La réponse JSON de Composer est invalide."), l1, w)
        | Some packages =>
            let '(b, l2, w) := runComposer fuel composer project uid gid audit_arguments w in
            match b with
            | None => (None, l1 ++ l2, w)
            | Some b =>
                let '(advisories, security, message, l3, w) := audit_result uid gid b w in
                let n := Z.of_nat (List.length packages) in
                (Some (mkSite "" (composerProjectID project) (if 0 <? n then "outdated" else "current") n
                   (Z.of_nat (List.length (filter (λ k, k_Status k = "semver-safe-update") packages)))
                   (Z.of_nat (List.length advisories)) security message packages advisories
                   (if 0 <? n then "Des mises à jour Composer sont disponibles." else "Les dépendances sont à jour.") false),
                 l1 ++ l2 ++ l3, w)
            end
        end
    end.
Definition inspectComposerProject (fuel : nat) (composer project rootUser : string) (w : W)
    : option composerSite * list identity_call * W :=
  match owner_of w (Join project "composer.lock") with
  | None => (Some (failed_site project "Le fichier composer.lock n’est pas lisible."), [], w)
  | Some (uid, gid) =>
      if uid =? 0 then
        match resolveRootProjectUser w rootUser with
        | Some (uid, gid) => inspect_as fuel composer project uid gid w
        | None => (Some (failed_site project
                     "Aucune identité non-root n’est disponible pour analyser ce projet appartenant à root."), [], w)
        end
      else inspect_as fuel composer project uid gid w
  end.

(** ** All projects *)

(** The projects with the domains they serve. *)
Definition project_domains (projects : gmap string string) : list (string * list string) :=
  (λ project, (project, sort_strings (omap (λ dp : string * string, if String.eqb dp.2 project then Some dp.1 else None) (map_to_list projects))))
    <$> remove_dups (map_to_list projects).*2.
Fixpoint inspect_all (fuel : nat) (composer rootUser : string) (l : list (string * list string)) (w : W)
    : option (list composerSite) * list identity_call * W :=
  match l with
  | [] => (Some [], [], w)
  | (project, domains) :: l =>
      let '(site, l1, w) := inspectComposerProject fuel composer project rootUser w in
      match site with
      | None => (None, l1, w)
      | Some site =>
          let '(sites, l2, w) := inspect_all fuel composer rootUser l w in
          ((λ sites, ((λ d, with_domain d site) <$> domains) ++ sites) <$> sites, l1 ++ l2, w)
      end
  end.
Definition site_le (x y : composerSite) : Prop := str_le (s_Domain x) (s_Domain y).
#[local] Instance site_le_dec x y : Decision (site_le x y).
Proof. unfold site_le. apply _. Defined.
Definition missing_composer : string := "Composer est introuvable sur le serveur.".
Definition no_project : string := "Aucun projet Composer n’a été détecté parmi les VirtualHosts actifs.".
(** With every process started, in order. *)
Definition collect (fuel : nat) (p : composerProfile) (w : W) : option composerSnapshot * list started * W :=
  let composer := resolveComposer (p_composer p) in
  if String.eqb composer "" then (Some (mkSnapshot false false None [] missing_composer), [], w)
  else
    let '(projects, discovery, w) := discoverProjects p w in
    let '(sites, l, w) := inspect_all fuel composer (p_rootUser p) (project_domains projects) w in
    (match sites with
     | None => None
     | Some sites =>
         let sites := merge_sort site_le sites in
         Some (mkSnapshot true false (Some (rfc3339 (read_clock w))) sites
                 (if String.eqb discovery "" && Nat.eqb (List.length sites) 0 then no_project else discovery))
     end, Plain (p_apacheControl p) ["-S"] :: (Under <$> l), w).
End composer.

(** ** The monitor *)

Definition newComposerMonitor (p : composerProfile) (found : bool) : composerMonitor :=
  let available := p_enabled p && found in
  mkMonitor p (mkSnapshot available false None [] (if p_enabled p && negb available then missing_composer else "")) false.
(** The two ways [requestRefresh] answers. *)
Definition requestRefresh (m : composerMonitor) : bool * composerMonitor :=
  if m_refreshing m then (false, m)
  else let s := m_snapshot m in
       (true, mkMonitor (m_profile m) (mkSnapshot (n_Available s) true (n_RefreshedAt s) (n_Sites s) (n_Message s)) true).
Definition current (m : composerMonitor) : composerSnapshot :=
  let s := m_snapshot m in mkSnapshot (n_Available s) (m_refreshing m) (n_RefreshedAt s) (n_Sites s) (n_Message s).
Definition start (m : composerMonitor) : composerMonitor :=
  if negb (p_enabled (m_profile m)) then
    let s := m_snapshot m in
    mkMonitor (m_profile m) (mkSnapshot (n_Available s) (n_Refreshing s) (n_RefreshedAt s) (n_Sites s)
      "La surveillance Composer est désactivée.") (m_refreshing m)
  else (requestRefresh m).2.

Definition same_site (x y : composerSite) : bool := String.eqb (s_Domain x) (s_Domain y) && String.eqb (s_ProjectID x) (s_ProjectID y).
(** The last site of the map [previous] under the key of [x]. *)
Definition previous_site (previous : list composerSite) (x : composerSite) : option composerSite :=
  last (filter (λ y, same_site x y = true) previous).
Definition kept_site (previous : list composerSite) (site : composerSite) : composerSite :=
  match previous_site previous site with
  | Some old => if String.eqb (s_Status site) "error" && negb (String.eqb (s_Status old) "error") then stale (s_Message site) old else site
  | None => site
  end.
(** What [refresh] stores once the collection is done. *)
Definition refreshed (previous collected : composerSnapshot) : composerSnapshot :=
  if Nat.eqb (List.length (n_Sites collected)) 0 && negb (Nat.eqb (List.length (n_Sites previous)) 0)
     && negb (String.eqb (n_Message collected) no_project)
  then mkSnapshot (n_Available previous) false (n_RefreshedAt previous) (stale (n_Message collected) <$> n_Sites previous) (n_Message collected)
  else mkSnapshot (n_Available collected) false (n_RefreshedAt collected) (kept_site (n_Sites previous) <$> n_Sites collected) (n_Message collected).
Definition refresh (collected : composerSnapshot) (m : composerMonitor) : composerMonitor :=
  mkMonitor (m_profile m) (refreshed (m_snapshot m) collected) false.
