(* ===== verification/ComposerFacts.v ===== *)
(** * The Composer monitor: what it guarantees

    Composer never runs as root; a good result is never lost to a failure; one refresh at a
    time; when the retries of a run end. *)

From S2P Require Import Prelude GoStrings StringFacts Json JsonParse JsonMore Command Units Composer.
From S2P Require Api Backup.
From Stdlib Require Import Ascii String.
#[local] Open Scope string_scope.
#[local] Open Scope list_scope.
#[local] Open Scope Z_scope.

(** ** Identities *)

Section identities.
Context {W : Type} `{!Programs W} `{!ComposerHost W} `{UnicodeCase}.

(** A run under an identity: that identity, the directory, Composer itself or PHP on it. *)
Definition runs_as (composer project : string) (uid gid : Z) (x : identity_call) : Prop :=
  i_uid x = uid ∧ i_gid x = gid ∧ i_dir x = project ∧
  ∃ arguments, (i_program x, i_arguments x) = composerInvocation resolvePHP composer (global_arguments ++ arguments).

Lemma runComposer_identity fuel composer project uid gid : ∀ arguments w a l w',
  runComposer fuel composer project uid gid arguments w = (a, l, w') → Forall (runs_as composer project uid gid) l.
Proof.
  induction fuel as [|fuel IH]; intros arguments w a l w'; cbn [runComposer]; [by intros [= _ <- _]|].
  destruct (composerInvocation resolvePHP composer (global_arguments ++ arguments)) as [program line] eqn:Hi.
  set (x := mkIdentityCall uid gid project program line).
  assert (runs_as composer project uid gid x) as Hx by (repeat split; by exists arguments).
  destruct (start_as w x) as [w1 r]. destruct (r_error r) as [e|]; [|intros [= _ <- _]; by apply Forall_singleton].
  destruct (unsupported _) as [o|]; [|intros [= _ <- _]; by apply Forall_singleton].
  destruct (runComposer fuel composer project uid gid _ w1) as [[b k] w2] eqn:Hr. intros [= _ <- _].
  constructor; [done|]. by eapply IH.
Qed.

(** A probe of what the daemon may do: [/usr/bin/true], by a daemon that is root, under its own user with the group of a
    project, or under the user of a project with its own group. *)
Definition probes (uid gid : Z) (x : identity_call) : Prop :=
  geteuid = 0 ∧ i_program x = "/usr/bin/true" ∧ i_arguments x = [] ∧
  (i_uid x = 0 ∧ i_gid x = gid ∨ i_uid x = uid ∧ i_gid x = getegid).
Lemma identity_message_probes uid gid w : Forall (probes uid gid) (composerIdentityFailureMessage uid gid w).1.2.
Proof.
  unfold composerIdentityFailureMessage. destruct (Z.eqb_spec geteuid 0) as [He|]; [|constructor]. cbn [negb].
  assert (probes uid gid (runCredentialProbe geteuid gid)) as H1 by (split_and!; auto).
  assert (probes uid gid (runCredentialProbe uid getegid)) as H2 by (split_and!; auto).
  destruct (start_as w _) as [w1 r]. destruct (r_error r); [by apply Forall_singleton|]. destruct (start_as w1 _) as [w2 r2].
  cbn [fst snd]. by repeat constructor.
Qed.
Lemma failure_message_probes output e timedOut uid gid w : Forall (probes uid gid) (composerFailureMessage output e timedOut uid gid w).1.2.
Proof. unfold composerFailureMessage. cbv zeta. pose proof (identity_message_probes uid gid w). repeat (case_match; [try done; constructor|]). constructor. Qed.
Lemma audit_probes uid gid a w : Forall (probes uid gid) (audit_result uid gid a w).1.2.
Proof.
  unfold audit_result. destruct a as [[output e] timedOut]. pose proof (λ text, failure_message_probes output (None, text) timedOut uid gid w) as Hf.
  destruct e as [[[code|] text]|]; [by destruct (parseComposerAudit output)| |by destruct (parseComposerAudit output)].
  specialize (Hf text). by destruct (composerFailureMessage _ _ _ _ _ _) as [[message l] w'].
Qed.
(** Composer under an identity, or a probe. *)
Definition serves (composer project : string) (uid gid : Z) (x : identity_call) : Prop := runs_as composer project uid gid x ∨ probes uid gid x.
Lemma runs_serve composer project uid gid l : Forall (runs_as composer project uid gid) l → Forall (serves composer project uid gid) l.
Proof. intros Hl. eapply Forall_impl; [exact Hl|]. intros x Hx. by left. Qed.
Lemma probes_serve composer project uid gid l : Forall (probes uid gid) l → Forall (serves composer project uid gid) l.
Proof. intros Hl. eapply Forall_impl; [exact Hl|]. intros x Hx. by right. Qed.

Lemma inspect_as_identity fuel composer project uid gid w a l w' :
  inspect_as fuel composer project uid gid w = (a, l, w') → Forall (serves composer project uid gid) l.
Proof.
  unfold inspect_as. destruct (negb (lookup_uid w uid)); [by intros [= _ <- _]|].
  destruct (runComposer fuel composer project uid gid outdated_arguments w) as [[a1 l1] w1] eqn:H1.
  apply runComposer_identity, runs_serve in H1.
  destruct a1 as [[[output [e|]] timed]|]; [| |by intros [= _ <- _]].
  { pose proof (failure_message_probes output e timed uid gid w1) as H2%(probes_serve composer project).
    destruct (composerFailureMessage _ _ _ _ _ _) as [[message l2] w2]. intros [= _ <- _]. by apply Forall_app. }
  destruct (parseComposerOutdated output); [|by intros [= _ <- _]].
  destruct (runComposer fuel composer project uid gid audit_arguments w1) as [[a2 l2] w2] eqn:H2.
  apply runComposer_identity, runs_serve in H2. assert (Forall (serves composer project uid gid) (l1 ++ l2)) by by apply Forall_app.
  destruct a2 as [b|]; [|by intros [= _ <- _]]. pose proof (audit_probes uid gid b w2) as H3%(probes_serve composer project).
  destruct (audit_result uid gid b w2) as [[[[adv sec] msg] l3] w3]. intros [= _ <- _]. by rewrite !Forall_app.
Qed.

Lemma resolveRootProjectUser_not_root w configured uid gid :
  resolveRootProjectUser w configured = Some (uid, gid) → uid ≠ 0.
Proof.
  unfold resolveRootProjectUser. destruct (if _ || _ then _ else _) as [login|]; [|done].
  destruct (lookup_login w login) as [[u g]|]; [|done].
  destruct (parse_uint32 u) as [n|]; [|done]. destruct (parse_uint32 g); [|done].
  destruct (Z.eqb_spec n 0); [done|]. by intros [= <- <-].
Qed.

(** A run for a project, under an account that is not root, or a probe for it. *)
Definition unprivileged (composer : string) (projects : list string) (x : identity_call) : Prop :=
  ∃ project uid gid, project ∈ projects ∧ uid ≠ 0 ∧ serves composer project uid gid x.

Lemma inspect_unprivileged fuel composer project rootUser w a l w' :
  inspectComposerProject fuel composer project rootUser w = (a, l, w') → Forall (unprivileged composer [project]) l.
Proof.
  assert (∀ uid gid, uid ≠ 0 → inspect_as fuel composer project uid gid w = (a, l, w') →
    Forall (unprivileged composer [project]) l) as Hin.
  { intros uid gid Hu Hi%inspect_as_identity. eapply Forall_impl; [exact Hi|]. intros x Hx.
    exists project, uid, gid. set_solver. }
  unfold inspectComposerProject. destruct (owner_of w _) as [[uid gid]|]; [|by intros [= _ <- _]].
  destruct (Z.eqb_spec uid 0); [|by apply Hin].
  destruct (resolveRootProjectUser w rootUser) as [[u g]|] eqn:Hr; [|by intros [= _ <- _]].
  apply resolveRootProjectUser_not_root in Hr. by apply Hin.
Qed.

Lemma unprivileged_weaken composer ps qs x : (∀ p, p ∈ ps → p ∈ qs) → unprivileged composer ps x → unprivileged composer qs x.
Proof. intros Hs (p & u & g & Hp & H1). exists p, u, g. split; [auto|done]. Qed.

Lemma inspect_all_unprivileged fuel composer rootUser pds : ∀ w a l w',
  inspect_all fuel composer rootUser pds w = (a, l, w') → Forall (unprivileged composer pds.*1) l.
Proof.
  induction pds as [|[project domains] pds IH]; intros w a l w'; cbn [inspect_all]; [by intros [= _ <- _]|].
  destruct (inspectComposerProject fuel composer project rootUser w) as [[site l1] w1] eqn:H1.
  apply inspect_unprivileged in H1.
  assert (Forall (unprivileged composer ((project, domains) :: pds).*1) l1) as H1'.
  { eapply Forall_impl; [exact H1|]. intros x. apply unprivileged_weaken. cbn. set_solver. }
  destruct site as [site|]; [|by intros [= _ <- _]].
  destruct (inspect_all fuel composer rootUser pds w1) as [[sites l2] w2] eqn:H2. apply IH in H2.
  intros [= _ <- _]. apply Forall_app. split; [done|].
  eapply Forall_impl; [exact H2|]. intros x. apply unprivileged_weaken. cbn. set_solver.
Qed.

(** C31: Composer never runs as root.  A collection starts nothing when no known Composer is
    installed.  Otherwise it starts the control program of Apache with [-S], under the identity
    of the daemon, and then, whatever Apache lists and whoever owns the projects, two kinds of
    processes only: for one of the projects found behind the virtual hosts, in its directory and
    under a uid other than 0, one of the two known Composer programs, or PHP on it, without
    plugins and scripts; and [/usr/bin/true], without arguments, which tells what a daemon that
    is root is allowed to do, under the user of the daemon with the group of such a project
    or under a user that is not root with the group of the daemon. *)
Theorem composer_unprivileged fuel p (w : W) :
  let '(_, l, _) := collect fuel p w in
  let composer := resolveComposer (p_composer p) in
  let projects := (discoverProjects p w).1.1 in
  (composer = "" ∧ l = []) ∨
  (composer ∈ ["/usr/local/bin/composer"; "/usr/bin/composer"] ∧
   ∃ runs, l = Plain (p_apacheControl p) ["-S"] :: (Under <$> runs) ∧
     Forall (λ x, ∃ project uid gid, project ∈ (project_domains projects).*1 ∧ uid ≠ 0 ∧
       (runs_as composer project uid gid x ∨ probes uid gid x)) runs).
Proof.
  unfold collect. destruct (String.eqb_spec (resolveComposer (p_composer p)) "") as [|Hne]; [by left|].
  assert (resolveComposer (p_composer p) ∈ ["/usr/local/bin/composer"; "/usr/bin/composer"]) as Hin.
  { revert Hne. unfold resolveComposer. destruct (head _) as [c|] eqn:Hc; [|done]. intros _. cbn.
    apply head_Some_elem_of, list_elem_of_filter in Hc as [Hc _].
    apply Is_true_true, andb_prop in Hc as [[H1|H1]%orb_prop _]; apply String.eqb_eq in H1 as ->; set_solver. }
  destruct (discoverProjects p w) as [[projects discovery] w1]. cbn [fst].
  destruct (inspect_all _ _ _ _ w1) as [[sites l] w2] eqn:Hi. apply inspect_all_unprivileged in Hi. right. split; [done|]. by exists l.
Qed.
End identities.

(** ** Snapshots *)

Lemma previous_site_spec previous x y :
  previous_site previous x = Some y → y ∈ previous ∧ same_site x y = true.
Proof.
  unfold previous_site. intros Hl. apply last_Some_elem_of in Hl. apply list_elem_of_filter in Hl as [H1 H2]. done.
Qed.

Lemma same_site_spec x y : same_site x y = true ↔ s_Domain x = s_Domain y ∧ s_ProjectID x = s_ProjectID y.
Proof. unfold same_site. by rewrite andb_true_iff, !String.eqb_eq. Qed.

(** The sites of a snapshot have keys of their own. *)
Definition distinct (sites : list composerSite) : Prop := NoDup ((λ s, (s_Domain s, s_ProjectID s)) <$> sites).

Lemma distinct_eq sites x y : distinct sites → x ∈ sites → y ∈ sites → same_site x y = true → x = y.
Proof.
  intros Hd (i & Hi)%list_elem_of_lookup (j & Hj)%list_elem_of_lookup [Hdm Hid]%same_site_spec.
  assert (i = j) as ->; [|congruence].
  eapply (NoDup_lookup _ i j (s_Domain x, s_ProjectID x)); [exact Hd|by rewrite list_lookup_fmap, Hi|].
  rewrite list_lookup_fmap, Hj. cbn. congruence.
Qed.

Lemma previous_site_distinct previous x y :
  distinct previous → y ∈ previous → same_site x y = true → previous_site previous x = Some y.
Proof.
  intros Hd Hy Hs. destruct (previous_site previous x) as [z|] eqn:Hp.
  - apply previous_site_spec in Hp as [Hz Hxz]. f_equal. apply (distinct_eq previous); [done..|].
    apply same_site_spec in Hs as [? ?], Hxz as [? ?]. apply same_site_spec. split; congruence.
  - exfalso. unfold previous_site in Hp. apply last_None in Hp. assert (y ∈ ([] : list composerSite)) as Hy'; [|by apply not_elem_of_nil in Hy'].
    rewrite <- Hp. apply list_elem_of_filter. done.
Qed.

(** A good result is never lost to a failure.  When the sites of the previous snapshot have keys
    of their own, a refresh whose collection found sites keeps those sites, with their keys
    and in their order: the result of a site is the collected one, except that a failure
    gives way to the previous result when that one was good, marked stale with the reason.
    A collection that found nothing because it could not look keeps every previous site. *)
Theorem refreshed_spec previous collected : distinct (n_Sites previous) →
  n_Refreshing (refreshed previous collected) = false ∧
  if Nat.eqb (List.length (n_Sites collected)) 0 && negb (Nat.eqb (List.length (n_Sites previous)) 0)
     && negb (String.eqb (n_Message collected) no_project)
  then n_Sites (refreshed previous collected) = stale (n_Message collected) <$> n_Sites previous ∧
       n_RefreshedAt (refreshed previous collected) = n_RefreshedAt previous
  else Forall2 (λ new shown,
         same_site new shown = true ∧
         (∀ old, old ∈ n_Sites previous → same_site new old = true → s_Status old ≠ "error" →
            s_Status new = "error" → shown = stale (s_Message new) old ∧ s_Status shown ≠ "error") ∧
         (s_Status new ≠ "error" → shown = new))
       (n_Sites collected) (n_Sites (refreshed previous collected)).
Proof.
  intros Hd. unfold refreshed. destruct (_ && _ && _); cbn [n_Refreshing n_Sites n_RefreshedAt]; [done|].
  split; [done|]. apply Forall2_fmap_r, Forall_Forall2_diag, Forall_forall. intros new _. unfold kept_site.
  split; [|split].
  - destruct (previous_site _ new) as [old|] eqn:Hp; [|by apply same_site_spec].
    apply previous_site_spec in Hp as [_ Hs]. destruct (_ && _); [|by apply same_site_spec].
    apply same_site_spec in Hs. by apply same_site_spec.
  - intros old Ho Hs Hg He. rewrite (previous_site_distinct _ _ old) by done. rewrite He, String.eqb_refl. cbn [andb].
    by rewrite (proj2 (String.eqb_neq _ _)).
  - intros Hn. rewrite (proj2 (String.eqb_neq _ _) Hn). by destruct (previous_site _ new).
Qed.

(** ** One refresh at a time *)

(** The monitor with the collections under way: a request (from the ticker or the command),
    and the end of a collection, whatever it found. *)
Record running := mkRunning { r_monitor : composerMonitor; r_collections : nat }.
Inductive monitor_step : running → running → Prop :=
| Step_request m n :
    monitor_step (mkRunning m n)
      (mkRunning (requestRefresh m).2 (if (requestRefresh m).1 then S n else n))
| Step_end m n collected : monitor_step (mkRunning m (S n)) (mkRunning (refresh collected m) n).
Inductive monitor_reaches : running → running → Prop :=
| Reach_here x : monitor_reaches x x
| Reach_step x y z : monitor_reaches x y → monitor_step y z → monitor_reaches x z.

Definition monitor_ok (x : running) : Prop :=
  r_collections x = (if m_refreshing (r_monitor x) then 1 else 0)%nat ∧
  n_Refreshing (m_snapshot (r_monitor x)) = m_refreshing (r_monitor x).

Lemma monitor_step_ok x y : monitor_step x y → monitor_ok x → monitor_ok y.
Proof.
  intros [m n|m n collected]; unfold monitor_ok; cbn [r_collections r_monitor].
  - intros [-> Hs]. unfold requestRefresh. by destruct (m_refreshing m) eqn:Hm; cbn; rewrite ?Hm.
  - intros [Hn _]. unfold refresh. cbn [m_refreshing m_snapshot]. split; [by destruct (m_refreshing m); lia|].
    unfold refreshed. by destruct (_ && _ && _).
Qed.

(** One collection at a time.  However requests and ends of collections follow one another from a
    new monitor, at most one collection runs, exactly when the monitor and its snapshot say
    that a refresh is under way; a request is then refused and changes nothing. *)
Theorem monitor_exclusive p found x :
  monitor_reaches (mkRunning (newComposerMonitor p found) 0) x →
  (r_collections x ≤ 1)%nat ∧
  n_Refreshing (current (r_monitor x)) = bool_decide (r_collections x = 1%nat) ∧
  (r_collections x = 1%nat → requestRefresh (r_monitor x) = (false, r_monitor x)).
Proof.
  intros Hr. assert (monitor_ok x) as [Hc Hs].
  { remember (mkRunning (newComposerMonitor p found) 0) as start eqn:Hst. induction Hr as [y|y z t _ IH Hz].
    - subst. done.
    - eapply monitor_step_ok; [exact Hz|by apply IH]. }
  unfold current, requestRefresh. cbn [n_Refreshing]. destruct (m_refreshing (r_monitor x)); rewrite Hc.
  - by repeat split; try lia.
  - by repeat split; try lia.
Qed.

(** ** The retries of a run *)

Section retries.
Context {W : Type} `{!Programs W} `{!ComposerHost W} `{UnicodeCase}.

(** Composer complains of an option only when it was given. *)
Definition complains_of_given : Prop := ∀ w x o,
  is_Some (r_error (start_as w x).2) → unsupported (r_stdout (start_as w x).2 +++ r_stderr (start_as w x).2) = Some o →
  o ∈ i_arguments x.

Lemma invocation_arguments composer arguments o :
  o ∈ (composerInvocation resolvePHP composer (global_arguments ++ arguments)).2 →
  o = "--locked" ∨ o = "--abandoned=ignore" → o ≠ composer → o ∈ arguments.
Proof.
  unfold composerInvocation. destruct (String.eqb _ _); cbn [snd]; unfold global_arguments; set_solver.
Qed.

Lemma unsupported_options d o : unsupported d = Some o → o = "--locked" ∨ o = "--abandoned=ignore".
Proof. unfold unsupported. destruct (composerRejectsLocked d); [|destruct (composerRejectsAbandonedMode d)]; intros [= <-]; auto. Qed.

(** C32: the retries end when Composer is honest: if it complains of an option only when that option
    was given, a run is tried at most once more per argument, and [runComposer] answers. *)
Theorem runComposer_terminates composer project uid gid : complains_of_given →
  composer = "/usr/local/bin/composer" ∨ composer = "/usr/bin/composer" →
  ∀ fuel arguments w, (List.length arguments < fuel)%nat →
  is_Some (runComposer fuel composer project uid gid arguments w).1.1.
Proof.
  intros Hg Hc. induction fuel as [|fuel IH]; intros arguments w Hf; [lia|]. cbn [runComposer].
  destruct (composerInvocation resolvePHP composer (global_arguments ++ arguments)) as [program line] eqn:Hi.
  specialize (Hg w (mkIdentityCall uid gid project program line)).
  destruct (start_as w _) as [w1 r]. cbn [snd] in Hg. destruct (r_error r) as [e|]; [|by eexists].
  destruct (unsupported (r_stdout r +++ r_stderr r)) as [o|] eqn:Hu; [|by eexists].
  specialize (Hg o ltac:(by eexists) eq_refl). cbn [i_arguments] in Hg. apply unsupported_options in Hu as Ho.
  assert (o ∈ arguments) as Hin.
  { apply (invocation_arguments composer); [by rewrite Hi|done|]. destruct Hc as [->| ->], Ho as [->| ->]; done. }
  specialize (IH (filter (λ y, y ≠ o) arguments) w1).
  destruct (runComposer fuel composer project uid gid (filter (λ y, y ≠ o) arguments) w1) as [[a l] w2]. cbn [fst] in *.
  apply IH. assert (List.length (filter (λ y, y ≠ o) arguments) < List.length arguments)%nat; [|lia].
  clear - Hin. induction arguments as [|y l IH]; [by apply not_elem_of_nil in Hin|].
  rewrite filter_cons. cbn [List.length]. destruct (decide (y ≠ o)) as [Hy|Hy].
  - cbn [List.length]. apply elem_of_cons in Hin as [->|Hin]; [done|]. specialize (IH Hin). lia.
  - pose proof (length_filter (λ z, z ≠ o) l). lia.
Qed.
End retries.

(** ** Hosts *)

Definition refusal_text : string := dq "The ~--locked~ option does not exist.".
(** A host whose Composer prints what [answer] says. *)
Definition host_of (answer : identity_call → composer_run) : ComposerHost unit := {|
  start_as w x := (w, answer x); eval_links _ p := Some p;
  regular_file _ p := String.eqb p "/var/composer.json" || String.eqb p "/var/composer.lock";
  open_text _ _ := None; owner_of _ _ := Some (33, 33); lookup_login _ _ := None; lookup_uid _ _ := true;
  geteuid := 0; getegid := 0; read_clock _ := 0; json_error _ := ""; group_file _ := None;
  monitor _ := None; set_monitor _ w := w |}.
#[local] Instance quiet_programs : Programs unit := {| exec w _ _ := (w, mkOutcome "" "" 0); executable p := String.eqb p "/usr/bin/composer" |}.
(** A Composer without the option, and one that complains whatever it is given. *)
Definition old_composer (x : identity_call) : composer_run :=
  if bool_decide ("--locked" ∈ i_arguments x) then mkRun "" refusal_text (Some (Some 1, "exit status 1")) false
  else mkRun "[]" "" None false.
Definition stubborn_composer (x : identity_call) : composer_run := mkRun "" refusal_text (Some (Some 1, "exit status 1")) false.

(** Nothing bounds the retries: a Composer that complains of the option whatever it is given
    is run for ever. *)
Theorem runComposer_diverges fuel arguments :
  (@runComposer unit quiet_programs (host_of stubborn_composer) ascii_case fuel "/usr/bin/composer" "/var/www" 33 33 arguments tt).1.1 = None.
Proof.
  revert arguments. induction fuel as [|fuel IH]; intros arguments; [done|]. cbn [runComposer].
  destruct (composerInvocation _ _ _) as [program line]. cbn [start_as host_of stubborn_composer r_error r_stdout r_stderr].
  change (@unsupported ascii_case ("" +++ refusal_text)) with (Some "--locked"). cbv iota.
  specialize (IH (filter (λ y, y ≠ "--locked") arguments)).
  by destruct (@runComposer unit quiet_programs (host_of stubborn_composer) ascii_case fuel _ _ _ _ _ tt) as [[a l] w].
Qed.

(** The parents of a document root are not compared with the roots: the project found may lie
    above all of them. *)
Theorem project_above_roots :
  @findComposerProject unit (host_of old_composer) tt "/var/www/html" ["/var/www"] 6 = Some "/var" ∧
  existsb (allowed_root "/var") ["/var/www"] = false.
Proof. vm_compute. done. Qed.

Lemma runComposer_terminates_witness :
  is_Some (@runComposer unit quiet_programs (host_of old_composer) ascii_case 5 "/usr/bin/composer" "/var/www" 33 33 outdated_arguments tt).1.1.
Proof.
  apply (@runComposer_terminates unit quiet_programs (host_of old_composer) ascii_case); [|by right|cbn; lia].
  intros w x o He Hu. cbn [start_as host_of snd] in *. unfold old_composer in *.
  destruct (bool_decide_reflect ("--locked" ∈ i_arguments x)) as [Hin|Hin]; [|by destruct He].
  cbn [r_stdout r_stderr] in Hu. assert (o = "--locked") as ->; [|done].
  change (Some "--locked" = Some o) in Hu. congruence.
Defined.

Definition good_site : composerSite := mkSite "a.example" "1" "current" 0 0 0 "ok" "" [] [] "Les dépendances sont à jour." false.
Definition bad_site : composerSite := mkSite "a.example" "1" "error" 0 0 0 "error" "" [] [] "panne" false.
Lemma refreshed_spec_witness :
  n_Sites (refreshed (mkSnapshot true false None [good_site] "") (mkSnapshot true false None [bad_site] "")) = [stale "panne" good_site].
Proof.
  destruct (refreshed_spec (mkSnapshot true false None [good_site] "") (mkSnapshot true false None [bad_site] "")) as [_ Hf].
  - apply NoDup_singleton.
  - cbn in Hf. apply Forall2_cons in Hf as [(_ & Hk & _) _].
    destruct (Hk good_site ltac:(set_solver) eq_refl ltac:(done) eq_refl) as [He _]. exact (f_equal (λ s, [s]) He).
Defined.

Lemma monitor_exclusive_witness :
  let m := (requestRefresh (newComposerMonitor default_profile true)).2 in requestRefresh m = (false, m).
Proof.
  apply (monitor_exclusive default_profile true (mkRunning (requestRefresh (newComposerMonitor default_profile true)).2 1)); [|done].
  eapply Reach_step; [apply Reach_here|]. exact (Step_request (newComposerMonitor default_profile true) 0).
Defined.
