(* ===== verification/Updates.v ===== *)
(** * The updates domain: [domain/updates/updates.go]

    The packages that can be updated, as apt or dnf print them, the firmware updates of
    fwupd, and the handler of the whole domain, with the upgrade jobs of [Upgrade] and the
    monitor of [Composer].  The programs and what the file system says of the package
    caches are parameters.  Go leaves equal elements of a sorted slice in any order; they
    keep their order here.  Then which programs the domain runs, and how it answers. *)

From S2P Require Import Prelude GoStrings StringFacts Time Backtrack Json JsonParse JsonMore Command Files Upgrade.
From S2P Require Api Composer.
From Stdlib Require Import Ascii String.
#[local] Open Scope string_scope.
#[local] Open Scope list_scope.
#[local] Open Scope Z_scope.

Import Api(Reply, failure, success, VStr, VInt, VBool, VList, VMap, VNil, Value).

Definition rpmCommand : string := "/usr/bin/rpm".
Definition fwupdCommand : string := "/usr/bin/fwupdmgr".
Definition aptListsDirectory : string := "/var/lib/apt/lists".
Definition dnfCacheDirectory : string := "/var/cache/dnf".
Definition rebootRequiredFile : string := "/var/run/reboot-required".

Record Update := mkUpdate {
  u_Name : string; u_Architecture : string; u_InstalledVersion : string; u_CandidateVersion : string; u_Security : bool }.
Record FirmwareUpdate := mkFirmware {
  f_Device : string; f_Vendor : string; f_InstalledVersion : string; f_CandidateVersion : string;
  f_Release : string; f_Summary : string; f_Remote : string; f_RebootRequired : bool; f_Issues : list string }.

(** ** Listings *)

Definition not_slash (c : ascii) : bool := negb (Ascii.eqb c "/").
Definition not_blank (c : ascii) : bool := negb (Ascii.eqb c " ").
Definition not_space : ascii → bool := but re_space.
Definition aptLine : pat :=
  PGroup 1 (some_bytes not_slash) >> word "/" >> PGroup 2 (some_bytes not_blank) >> spaces1 >>
  PGroup 3 (some_bytes not_space) >> spaces1 >> PGroup 4 (some_bytes not_space) >> spaces1 >>
  word "[upgradable from: " >> PGroup 5 (some_bytes not_nl) >> word "]" >> PEnd.

Definition update_le (x y : Update) : Prop :=
  if String.eqb (u_Name x) (u_Name y) then str_le (u_Architecture x) (u_Architecture y) else str_le (u_Name x) (u_Name y).
#[global] Instance update_le_dec x y : Decision (update_le x y).
Proof. unfold update_le. destruct (String.eqb _ _); apply _. Defined.

Section listings.
Context `{UnicodeCase}.

Definition apt_update (raw : string) : option Update :=
  match match_here aptLine (trim_space raw) with
  | Some g =>
      let origin := to_lower (group g 2) in
      Some (mkUpdate (group g 1) (group g 4) (group g 5) (group g 3)
              (contains origin "-security" || contains origin "security.ubuntu.com"))
  | None => None
  end.
Definition parseAPTUpdates (output : string) : list Update := merge_sort update_le (omap apt_update (split nl output)).

Definition dnf_update (line : string) : option Update :=
  match fields line with
  | name_arch :: version :: _ :: _ =>
      let '(name, architecture, found) := cut "." name_arch in
      if negb found || String.eqb name "" || String.eqb architecture "" then None
      else Some (mkUpdate name architecture "" version false)
  | _ => None
  end.
Definition parseDNFUpdates (output : string) : list Update := merge_sort update_le (omap dnf_update (split nl output)).

(** The installed versions rpm prints, the last line of a package kept. *)
Definition rpm_line (versions : gmap string string) (line : string) : gmap string string :=
  match split "009" line with
  | [name; arch; version] => <[name +++ "." +++ arch := version]> versions
  | _ => versions
  end.
Definition key_of (u : Update) : string := u_Name u +++ "." +++ u_Architecture u.
(** [None]: the version of one of the packages is not known. *)
Definition complete_update (versions : gmap string string) (security : string) (u : Update) : option Update :=
  match versions !! key_of u with
  | None => None
  | Some v => Some (mkUpdate (u_Name u) (u_Architecture u) v (u_CandidateVersion u)
      (contains security (to_lower (u_Name u) +++ "-") && contains security ("." +++ to_lower (u_Architecture u))))
  end.

(** ** Firmware *)

Definition text (v : option json) : string := trim_space (any_text v).
Definition stringList (v : option json) : list string :=
  match v with
  | Some (JArr l) => unique_from [] (filter (λ s, s ≠ "") (map (λ x, text (Some x)) l))
  | _ => []
  end.
Definition flagged (m : list (string * json)) (flag : string) : bool := bool_decide (flag ∈ stringList (any_member "Flags" m)).
(** The release kept: the first one, or the first that is an upgrade. *)
Fixpoint select_release (selected : option (list (string * json))) (l : list json) : option (list (string * json)) :=
  match l with
  | [] => selected
  | JObj m :: l =>
      let selected := match selected with None => Some m | Some s => Some s end in
      if flagged m "is-upgrade" then Some m else select_release selected l
  | _ :: l => select_release selected l
  end.
Definition device_update (v : json) : option FirmwareUpdate :=
  match v with
  | JObj device =>
      match any_member "Releases" device with
      | Some (JArr releases) =>
          match select_release None releases with
          | Some s =>
              if flagged s "is-upgrade" then
                Some (mkFirmware (text (any_member "Name" device)) (text (any_member "Vendor" device)) (text (any_member "Version" device))
                  (text (any_member "Version" s)) (text (any_member "Name" s)) (text (any_member "Summary" s))
                  (text (any_member "RemoteId" s)) (flagged device "needs-reboot" || flagged s "needs-reboot")
                  (stringList (any_member "Issues" s)))
              else None
          | None => None
          end
      | _ => None
      end
  | _ => None
  end.
(** A list of maps: objects or null, their numbers in range. *)
Definition is_device (v : json) : bool := match v with JNull | JObj _ => any_ok v | _ => false end.
Definition firmware_le (x y : FirmwareUpdate) : Prop :=
  if String.eqb (to_lower (f_Device x)) (to_lower (f_Device y)) then str_le (to_lower (f_Vendor x)) (to_lower (f_Vendor y))
  else str_le (to_lower (f_Device x)) (to_lower (f_Device y)).
#[local] Instance firmware_le_dec x y : Decision (firmware_le x y).
Proof. unfold firmware_le. destruct (String.eqb _ _); apply _. Defined.
Definition parseFirmware (output : string) (exit : Z) : option (list FirmwareUpdate) :=
  if String.eqb (trim_space output) "" then (if exit =? 2 then Some [] else None)
  else match json_parse output with
       | Some JNull => Some []
       | Some (JObj m) =>
           match (store_field "Devices" store_raw None m).1 with
           | None => Some []
           | Some (JArr devices) => if forallb is_device devices then Some (merge_sort firmware_le (omap device_update devices)) else None
           | Some _ => None
           end
       | _ => None
       end.
Definition fwupdVersion (output : string) : string :=
  default "" (head (omap (λ line, match fields line with
    | a :: b :: c :: rest => if String.eqb a "runtime" && String.eqb b "org.freedesktop.fwupd" then last (c :: rest) else None
    | _ => None end) (split nl output))).
End listings.

(** ** What the file system says *)

Inductive directory_state := Missing | Readable | Unreadable.
(** [os.Stat] and [os.Open] of the lists of apt; the entries of a cache: their names and the
    date of a regular file, in nanoseconds; whether a path is a regular file. *)
Class UpdateFiles (W : Type) := {
  apt_lists : W → directory_state;
  cache_entries : W → string → option (list (string * option Z));
  regularFile : W → string → bool;
}.

Definition zero_time : Z := -62135596800 * 1000000000.
Definition lastRefresh (entries : option (list (string * option Z))) : option Z :=
  match entries with
  | None => None
  | Some l =>
      let latest := fold_left (λ latest e,
        if String.eqb e.1 "lock" || String.eqb e.1 "partial" then latest
        else match e.2 with Some t => if latest <? t then t else latest | None => latest end) l zero_time in
      if latest =? zero_time then None else Some latest
  end.

Section domain.
Context {W : Type} `{UnicodeCase} `{!Programs W} `{!FileSystem W} `{!UpdateHost W} `{!UpdateFiles W} `{!Composer.ComposerHost W}.

Definition data := list (string * Value).
Definition refresh_value (directory : string) : cmd W Value :=
  do! latest := look (λ w, lastRefresh (cache_entries w directory)) in
  ret (match latest with Some t => VStr (rfc3339 (t / 1000000000)) | None => VNil end).

Definition read_failed (message : string) : Reply := failure 3 "UPDATES_READ_FAILED" message.
Definition requireAPT : cmd W () :=
  if negb (executable aptCommand) then
    stop (failure 3 "DEPENDENCY_NOT_FOUND" "La dépendance apt nécessaire au domaine updates est introuvable.")
  else
    do! lists := look apt_lists in
    match lists with
    | Missing => stop (failure 3 "APT_LISTS_NOT_FOUND" "Le répertoire des index APT est introuvable.")
    | Unreadable => stop (failure 3 "APT_LISTS_NOT_READABLE" "Le répertoire des index APT n’est pas lisible.")
    | Readable => ret ()
    end.

Definition rpm_query (updates : list Update) : list string :=
  ["-q"; "--qf"; "%{NAME}\t%{ARCH}\t%{EVR}\n"; "--"] ++ (key_of <$> updates).
Definition dnfUpdates : cmd W (list Update) :=
  do! o := run dnfCommand ["--quiet"; "check-update"] in
  if negb (status o =? 0) && negb (status o =? 100) then
    stop (read_failed "Les informations de mises à jour n’ont pas pu être lues.")
  else
    let updates := parseDNFUpdates (stdout o) in
    match updates with
    | [] => ret []
    | _ =>
        do! installed := run rpmCommand (rpm_query updates) in
        if negb (status installed =? 0) then stop (read_failed "Les versions installées n’ont pas pu être lues.")
        else
          do! security := run dnfCommand ["--quiet"; "updateinfo"; "list"; "--security"; "--available"] in
          if negb (status security =? 0) then
            stop (read_failed "Les informations de sécurité des mises à jour n’ont pas pu être lues.")
          else
            match mapM (complete_update (fold_left rpm_line (split nl (stdout installed)) ∅) (to_lower (stdout security))) updates with
            | Some updates => ret updates
            | None => stop (read_failed "Une version installée n’a pas pu être déterminée.")
            end
    end.

(** The updates, the program that lists them and the date of its cache. *)
Definition packageUpdates : cmd W (list Update * string * Value) :=
  if executable aptCommand then
    do! _ := requireAPT in
    do! o := run aptCommand ["list"; "--upgradable"] in
    if negb (status o =? 0) then stop (read_failed "Les informations de mises à jour n’ont pas pu être lues.")
    else do! refresh := refresh_value aptListsDirectory in ret (parseAPTUpdates (stdout o), "apt", refresh)
  else if executable dnfCommand && executable rpmCommand then
    do! updates := dnfUpdates in
    do! refresh := refresh_value dnfCacheDirectory in
    ret (updates, "dnf", refresh)
  else stop (failure 3 "DEPENDENCY_NOT_FOUND" "Aucun gestionnaire de mises à jour APT ou DNF pris en charge n’est installé.").

Definition update_value (u : Update) : Value :=
  VMap [("name", VStr (u_Name u)); ("architecture", VStr (u_Architecture u)); ("installed_version", VStr (u_InstalledVersion u));
        ("candidate_version", VStr (u_CandidateVersion u)); ("security", VBool (u_Security u))].
Definition firmware_value (f : FirmwareUpdate) : Value :=
  VMap [("device", VStr (f_Device f)); ("vendor", VStr (f_Vendor f)); ("installed_version", VStr (f_InstalledVersion f));
        ("candidate_version", VStr (f_CandidateVersion f)); ("release", VStr (f_Release f)); ("summary", VStr (f_Summary f));
        ("remote", VStr (f_Remote f)); ("reboot_required", VBool (f_RebootRequired f)); ("issues", VList (VStr <$> f_Issues f))].

Definition firmware : cmd W data :=
  if negb (executable fwupdCommand) then
    ret [("backend", VStr "fwupd"); ("version", VNil); ("available", VBool false); ("device_count", VInt 0);
         ("reboot_required", VBool false); ("updates", VList [])]
  else
    do! version := run fwupdCommand ["--version"] in
    do! o := run fwupdCommand ["get-upgrades"; "--json"] in
    if negb (status o =? 0) && negb (status o =? 2) then
      stop (failure 3 "FIRMWARE_UPDATES_READ_FAILED" "Les mises à jour de firmware n’ont pas pu être lues.")
    else
      match parseFirmware (stdout o) (status o) with
      | None => stop (failure 3 "INVALID_FIRMWARE_UPDATES_RESPONSE" "La réponse de fwupd est invalide.")
      | Some updates =>
          let v := fwupdVersion (stdout version) in
          ret [("backend", VStr "fwupd"); ("version", if String.eqb v "" then VNil else VStr v); ("available", VBool true);
               ("device_count", VInt (Z.of_nat (List.length updates))); ("reboot_required", VBool (existsb f_RebootRequired updates));
               ("updates", VList (firmware_value <$> updates))]
      end.

Definition count {A} (l : list A) : Z := Z.of_nat (List.length l).
Definition execute (command : string) : cmd W data :=
  if String.eqb command "firmware" then firmware
  else
    do! x := packageUpdates in
    let '(updates, backend, refresh) := x in
    if String.eqb command "list" then ret [("updates", VList (update_value <$> updates)); ("count", VInt (count updates))]
    else
      do! reboot := look (λ w, regularFile w rebootRequiredFile) in
      ret [("backend", VStr backend); ("last_refresh", refresh); ("update_count", VInt (count updates));
           ("security_update_count", VInt (count (filter (λ u, u_Security u = true) updates))); ("reboot_required", VBool reboot)].

(** ** The monitor *)

Definition package_value (k : Composer.composerPackage) : Value :=
  VMap [("name", VStr (Composer.k_Name k)); ("current_version", VStr (Composer.k_Current k)); ("latest_version", VStr (Composer.k_Latest k));
        ("status", VStr (Composer.k_Status k)); ("direct", VBool (Composer.k_Direct k))].
Definition advisory_value (v : Composer.composerAdvisory) : Value :=
  VMap [("package", VStr (Composer.v_Package v)); ("id", VStr (Composer.v_ID v)); ("title", VStr (Composer.v_Title v));
        ("affected_versions", VStr (Composer.v_Affected v)); ("link", VStr (Composer.v_Link v))].
Definition site_value (s : Composer.composerSite) : Value :=
  VMap [("domain", VStr (Composer.s_Domain s)); ("project_id", VStr (Composer.s_ProjectID s)); ("status", VStr (Composer.s_Status s));
        ("update_count", VInt (Composer.s_UpdateCount s)); ("compatible_update_count", VInt (Composer.s_CompatibleCount s));
        ("security_issue_count", VInt (Composer.s_SecurityIssueCount s)); ("security_status", VStr (Composer.s_SecurityStatus s));
        ("security_message", VStr (Composer.s_SecurityMessage s)); ("packages", VList (package_value <$> Composer.s_Packages s));
        ("security_advisories", VList (advisory_value <$> Composer.s_Advisories s)); ("message", VStr (Composer.s_Message s));
        ("stale", VBool (Composer.s_Stale s))].
(** A snapshot without sites is a copy of an empty slice, nil, which prints as null. *)
Definition sites_value (l : list Composer.composerSite) : Value := match l with [] => VNil | _ => VList (site_value <$> l) end.
Definition composerSnapshot : cmd W data :=
  do! m := look Composer.monitor in
  ret (match m with
       | None => [("available", VBool false); ("refreshing", VBool false); ("refreshed_at", VNil); ("sites", VList []);
                  ("message", VStr "La surveillance Composer n’est pas initialisée.")]
       | Some m => let s := Composer.current m in
           [("available", VBool (Composer.n_Available s)); ("refreshing", VBool (Composer.n_Refreshing s));
            ("refreshed_at", opt_str (Composer.n_RefreshedAt s)); ("sites", sites_value (Composer.n_Sites s));
            ("message", VStr (Composer.n_Message s))]
       end).
Definition refreshComposer : cmd W data :=
  do! m := look Composer.monitor in
  match m with
  | Some m =>
      if Composer.p_enabled (Composer.m_profile m) then
        let (started, m) := Composer.requestRefresh m in
        do! _ := touch (λ w, ((), Composer.set_monitor m w)) in
        ret [("started", VBool started);
             ("message", VStr (if started then "La vérification Composer a démarré." else "Une vérification Composer est déjà en cours."))]
      else ret [("started", VBool false); ("message", VStr "La surveillance Composer n’est pas disponible.")]
  | None => ret [("started", VBool false); ("message", VStr "La surveillance Composer n’est pas disponible.")]
  end.

(** ** The handler *)

Definition invalidArgumentCount : Reply := failure 2 "INVALID_ARGUMENT_COUNT" "Le nombre d’arguments fourni est invalide.".
Definition known : list string :=
  ["info"; "list"; "firmware"; "upgrade-start"; "upgrade-status"; "composer-status"; "composer-refresh"; "reboot"].
Definition handle (command : string) (args : list string) : cmd W data :=
  if String.eqb command "" then stop (failure 2 "MISSING_COMMAND" "Aucune commande n’a été indiquée pour le domaine updates.")
  else if negb (bool_decide (command ∈ known)) then
    stop (failure 4 "COMMAND_NOT_FOUND" "La commande demandée n’existe pas dans le domaine updates.")
  else if String.eqb command "upgrade-start" then match args with [] => startUpgrade | _ => stop invalidArgumentCount end
  else if String.eqb command "upgrade-status" then match args with [id] => upgradeStatus id | _ => stop invalidArgumentCount end
  else if String.eqb command "composer-status" then match args with [] => composerSnapshot | _ => stop invalidArgumentCount end
  else if String.eqb command "composer-refresh" then match args with [] => refreshComposer | _ => stop invalidArgumentCount end
  else if String.eqb command "reboot" then match args with [delay] => scheduleReboot delay | _ => stop invalidArgumentCount end
  else match args with [] => execute command | _ => stop invalidArgumentCount end.
Definition Handle (command : string) (args : list string) : Machine W → Reply * Machine W := serve (handle command args).
End domain.

(** * Properties *)


Section facts.
Context {W : Type} `{UnicodeCase} `{!Programs W} `{!FileSystem W} `{!UpdateHost W} `{!UpdateFiles W} `{!Composer.ComposerHost W}.

(** The programs that only read. *)
Definition reading (n : string) (a : list string) : Prop :=
  (n, a) ∈ [(aptCommand, ["list"; "--upgradable"]); (dnfCommand, ["--quiet"; "check-update"]);
            (dnfCommand, ["--quiet"; "updateinfo"; "list"; "--security"; "--available"]);
            (fwupdCommand, ["--version"]); (fwupdCommand, ["get-upgrades"; "--json"])] ∨
  (n = rpmCommand ∧ ∃ updates, a = rpm_query updates) ∨
  (n = systemctlCommand ∧ ∃ id, a = ["is-active"; "--quiet"; unit_of id]).
(** The programs a command may run. *)
Definition permitted (command : string) (args : list string) (n : string) (a : list string) : Prop :=
  reading n a ∨
  (command = "upgrade-start" ∧ n = systemctlCommand ∧ ∃ id, a = ["start"; "--no-block"; unit_of id]) ∨
  (command = "reboot" ∧ n = systemdRunCommand ∧ ∃ delay, args = [delay] ∧ delay ∈ reboot_delays ∧ a = reboot_arguments delay).

Lemma only_unit_active id : only reading (unit_active (W := W) id).
Proof. unfold unit_active. walk. right. right. split; [done|]. by eexists. Qed.
Lemma only_packages : only reading (packageUpdates (W := W)).
Proof. walk; try (left; set_solver). right. left. split; [done|]. by eexists. Qed.
Lemma only_execute command : only reading (execute (W := W) command).
Proof.
  unfold execute. destruct (String.eqb command "firmware").
  - walk; left; set_solver.
  - apply only_bind; [apply only_packages|]. intros [[updates backend] refresh]. walk.
Qed.

Lemma only_permitted {A} command args (c : cmd W A) : only reading c → only (permitted command args) c.
Proof. apply only_weaken. intros n a Hn. by left. Qed.

Lemma only_start args : only (permitted "upgrade-start" args) (startUpgrade (W := W)).
Proof.
  unfold startUpgrade. apply only_bind; [apply only_look|]. intros safe. destruct (negb safe); [apply only_stop|].
  apply only_bind.
  - apply only_permitted. unfold running_job. apply only_bind; [apply only_look|]. intros [j|]; [|apply only_ret].
    apply only_bind; [apply only_unit_active|]. intros active. walk.
  - intros [id|]; [apply only_ret|]. apply only_bind; [apply only_lift|]. intros manager.
    destruct (negb _); [apply only_stop|]. unfold start_job. walk. right. left. split; [done|]. split; [done|]. by eexists.
Qed.

Lemma only_reboot delay : only (permitted "reboot" [delay]) (scheduleReboot (W := W) delay).
Proof.
  unfold scheduleReboot. destruct (bool_decide_reflect (delay ∈ reboot_delays)) as [Hd|Hd]; cbn [negb]; [|apply only_stop].
  apply only_bind.
  - apply only_permitted. unfold upgradeInProgress. apply only_bind; [apply only_look|]. intros [j|]; [|apply only_ret].
    apply only_bind; [apply only_unit_active|]. intros active. walk.
  - intros busy. destruct busy; [apply only_stop|]. walk. right. right. split; [done|]. split; [done|]. by eexists.
Qed.

Lemma only_handle command args : only (permitted command args) (handle (W := W) command args).
Proof.
  unfold handle. destruct (String.eqb command ""); [apply only_stop|]. destruct (negb _); [apply only_stop|].
  destruct (String.eqb_spec command "upgrade-start") as [->|_]; [destruct args; [apply only_start|apply only_stop]|].
  destruct (String.eqb_spec command "upgrade-status") as [->|_]; [walk|].
  destruct (String.eqb_spec command "composer-status") as [->|_]; [walk|].
  destruct (String.eqb_spec command "composer-refresh") as [->|_]; [walk|].
  destruct (String.eqb_spec command "reboot") as [->|_].
  { destruct args as [|delay [|]]; [apply only_stop|apply only_reboot|apply only_stop]. }
  destruct args; [|apply only_stop]. apply only_permitted, only_execute.
Qed.

(** What the domain may run.  Whatever the command and its arguments, the programs run only read
    (apt, dnf, rpm and fwupd listings, the state of the unit of a job), but for two: the
    command upgrade-start may start the unit of a job, and the command reboot may schedule a
    reboot with one of the five delays, given as its only argument. *)
Theorem updates_effects command args (m : Machine W) :
  ∃ l, ran (Handle command args m).2 = ran m ++ l ∧ Forall (calls (permitted command args)) l.
Proof.
  destruct (handle command args m) as [out m'] eqn:Hh. unfold Handle. rewrite (serve_machine _ _ _ _ Hh).
  exact (only_handle command args m out m' Hh).
Qed.

Lemma refuses_handle command args : refuses (handle (W := W) command args).
Proof.
  walk. match goal with Hx : package_manager = Err ?r |- _ => unfold package_manager in Hx; repeat case_match; try done;
    injection Hx as <-; by apply refusal_failure end.
Qed.
(** Every reply of the domain is well formed. *)
Lemma updates_reply_ok command args (m : Machine W) : Api.reply_ok (Handle command args m).1.
Proof. apply serve_ok, refuses_handle. Qed.
End facts.

(** ** Listings *)

(** A listing is sorted. *)
Lemma update_le_total x y : update_le x y ∨ update_le y x.
Proof.
  unfold update_le. rewrite (String.eqb_sym (u_Name y) (u_Name x)).
  destruct (String.eqb (u_Name x) (u_Name y)); unfold str_le.
  - destruct (String.leb_total (u_Architecture x) (u_Architecture y)); auto.
  - destruct (String.leb_total (u_Name x) (u_Name y)); auto.
Qed.

(** A package whose name holds a point is not read right: the name is cut at its first point
    instead of its last, so that the name and the architecture answered are wrong and the
    security advisories of the package are not found. *)
Theorem dnf_name_with_point :
  let listing := "python3.11-libs.x86_64   3.11.9-2.el9_4   updates" in
  let security := "rhsa-2024:1 important/sec. python3.11-libs-3.11.9-2.el9_4.x86_64" in
  match @parseDNFUpdates listing with
  | [u] => u_Name u = "python3" ∧ u_Architecture u = "11-libs.x86_64" ∧
      (u_Security <$> @complete_update ascii_case {[ key_of u := "3.11.7-1.el9" ]} security u) = Some false
  | _ => False
  end.
Proof. vm_compute. done. Qed.
