(* ===== verification/Apache.v ===== *)
(** * The Apache domain: [domain/apache]

    The sites of Apache as files of a directory, created, changed, enabled and removed
    with a test of the whole configuration before each reload, and undone when a step
    fails; the version, the modules and the virtual hosts as the programs of Apache print
    them.  The directories, the symbolic links and the programs are parameters.  Go leaves
    equal elements of a sorted slice in any order; they keep their order here. *)

From S2P Require Import Prelude GoStrings StringFacts Regex Backtrack Codec Time Json JsonParse JsonMore Command Files Units.
From S2P Require Api Backup CronTasks Logs.
From Stdlib Require Import Ascii String.
#[local] Open Scope string_scope.
#[local] Open Scope list_scope.
#[local] Open Scope Z_scope.

Import Api(Reply, success, VStr, VInt, VBool, VList, VMap, VNil, Value).
Import Backup(Clean, IsAbs, Join, slash).
Import CronTasks(path_base).

(** ** Profile *)

Definition apachectlCommand : string := "/usr/sbin/apachectl".
Definition apacheCommand : string := "/usr/sbin/apache2".
Definition systemctlCommand : string := "/usr/bin/systemctl".
Definition systemdRunCommand : string := "/usr/bin/systemd-run".
Definition a2ensiteCommand : string := "/usr/sbin/a2ensite".
Definition a2dissiteCommand : string := "/usr/sbin/a2dissite".
Definition maximumSiteSize : Z := 65536.
Definition maximumConfigSize : Z := 262144.

Record apacheProfile := mkProfile {
  p_service : string; p_binary : string; p_control : string; p_configRoot : string;
  p_sitesAvailable : string; p_sitesEnabled : string; p_enableCommand : string; p_disableCommand : string }.
Definition defaultApacheProfile : apacheProfile :=
  mkProfile "apache2" apacheCommand apachectlCommand "/etc/apache2" "/etc/apache2/sites-available"
    "/etc/apache2/sites-enabled" a2ensiteCommand a2dissiteCommand.

Definition alnum (c : ascii) : bool := is_lower c || is_upper c || is_digit c.
Definition servicePattern : rx := Cls alnum ;;; Star (Cls (cls alnum "@._-")).
Definition absoluteOr (fallback value : string) : string :=
  if IsAbs value && String.eqb (Clean value) value then value else fallback.

Definition profile_set (p : apacheProfile) (key v : string) : apacheProfile :=
  let '(mkProfile s b c r a e en di) := p in
  if String.eqb key "service" then mkProfile (if full servicePattern v then v else s) b c r a e en di
  else if String.eqb key "binary" then mkProfile s (absoluteOr b v) c r a e en di
  else if String.eqb key "control" then mkProfile s b (absoluteOr c v) r a e en di
  else if String.eqb key "config_root" then mkProfile s b c (absoluteOr r v) a e en di
  else if String.eqb key "sites_available" then mkProfile s b c r (absoluteOr a v) e en di
  else if String.eqb key "sites_enabled" then mkProfile s b c r a (absoluteOr e v) en di
  else if String.eqb key "enable_command" then mkProfile s b c r a e (absoluteOr en v) di
  else if String.eqb key "disable_command" then mkProfile s b c r a e en (absoluteOr di v)
  else p.
Definition profile_line (p : apacheProfile) (raw : string) : apacheProfile :=
  match cut "=" (trim_space (before "#" raw)) with
  | (key, v, true) => let v := trim_space v in if String.eqb v "" then p else profile_set p (trim_space key) v
  | _ => p
  end.
(** [None]: the file cannot be read. *)
Definition loadApacheProfile (content : option string) : apacheProfile :=
  match content with
  | None => defaultApacheProfile
  | Some text => fold_left profile_line (split nl text) defaultApacheProfile
  end.

Record LinuxBackend := mkBackend {
  service : string; apacheBinary : string; apacheControl : string; enableCommand : string; disableCommand : string;
  sitesAvailable : string; sitesEnabled : string; backupRoot : string; apacheRoot : string }.
Definition NewLinuxBackend (content : option string) : LinuxBackend :=
  let p := loadApacheProfile content in
  mkBackend (p_service p) (p_binary p) (p_control p) (p_enableCommand p) (p_disableCommand p)
    (p_sitesAvailable p) (p_sitesEnabled p) "/var/backups/aegisadmin-system/apache" (p_configRoot p).

(** ** Replies *)

Definition domainError (exit : Z) (code message : string) (details : list (string * Value)) : Reply :=
  {| Api.ExitCode := exit;
     Api.Resp := {| Api.resp_success := false; Api.resp_api := Api.Version; Api.resp_data := None;
                    Api.resp_error := Some {| Api.err_code := code; Api.err_message := message; Api.err_details := details |} |} |}.
Definition outputDetails (output : string) : list (string * Value) := [("output", VStr output)].
Definition reason (text : string) : list (string * Value) := [("reason", VStr text)].
Definition sizes (n : Z) (maximum : Z) : list (string * Value) := [("max_bytes", VInt maximum); ("size_bytes", VInt n)].

Lemma refusal_domainError exit code message details : exit ≠ 0 → refusal (domainError exit code message details).
Proof. intros He. split; [|done]. split; [done|]. right. done. Qed.

(** ** What is read of the machine *)

Record Entry := mkEntry { e_Name : string; e_Symlink : bool }.
Inductive part := Info | ConfigTest | VHosts | Sites | Modules.
Definition parts : list part := [Info; ConfigTest; VHosts; Sites; Modules].

Class ApacheHost (W : Type) `{!FileSystem W} := {
  ReadDir : W → string → option (list Entry);
  EvalSymlinks : W → string → option string;
  Stat : W → string → option (bool * Z);              (** whether the file is regular, its size *)
  vacant : W → string → bool;                         (** [os.Lstat] says that nothing has this name *)
  Getwd : W → option string;
  now : W → Z;                                        (** nanoseconds *)
  error_text : W → string → string;                   (** the text of the error of a call on a path *)
  links : W → gmap string string;                     (** the symbolic links, with their targets *)
  set_links : gmap string string → W → W;
  may_link : W → string → bool;
  make_directory : string → W → bool * W;             (** [os.MkdirAll] and [os.Chmod] *)
  left_after : W → string → string → option string;   (** what a failed [os.WriteFile] leaves, if it changed the file *)
  arrival : W → list part;                            (** the order in which the goroutines of the overview end *)
  files_links l w : files (set_links l w) = files w;
  links_links l w : links (set_links l w) = l;
  links_files fs w : links (set_files fs w) = links w;
  files_directory p w : files (make_directory p w).2 = files w;
  links_directory p w : links (make_directory p w).2 = links w;
  vacant_files w p : vacant w p = true → files w !! p = None;
  arrival_parts w : arrival w ≡ₚ parts;
}.

(** [filepath.Abs] *)
Definition Abs `{ApacheHost W} (w : W) (path : string) : string :=
  if IsAbs path then Clean path
  else match Getwd w with Some d => Join d path | None => "" end.

(** The text of the reads: [apachectl -M], [-S] and the files of sites. *)
Definition not_space : ascii → bool := but re_space.
Definition word_byte (c : ascii) : bool := is_upper c || is_lower c || is_digit c || Ascii.eqb c "_".
(** A byte of a name under [(?i)]: with the two code points that fold to s and k. *)
Definition name_char : pat :=
  PAlt (PCls word_byte)
    (PAlt (PCls (Ascii.eqb "197") >> PCls (Ascii.eqb "191"))
          (PCls (Ascii.eqb "226") >> PCls (Ascii.eqb "132") >> PCls (Ascii.eqb "170"))).
(** At most [n] times. *)
Fixpoint many (n : nat) (a : pat) : pat := match n with O => PEps | S n => PAlt (a >> many n a) PEps end.
(** For a text of at most [n] bytes. *)
Definition modulePattern (n : nat) : pat :=
  PGroup 1 (name_char >> many n name_char) >> word_i "_module" >> spaces1 >> word "(" >>
  PGroup 2 (PAlt (word_i "shared") (word_i "static")) >> word ")" >> PEnd.
Definition nameVHostPattern : pat :=
  word_i "port" >> spaces1 >> PGroup 1 digits >> spaces1 >> word_i "namevhost" >> spaces1 >>
  PGroup 2 (some_bytes not_space) >> spaces1 >> word "(" >> PGroup 3 (some_bytes not_nl) >> word ":" >>
  PGroup 4 digits >> word ")" >> PEnd.
Definition defaultServerPattern : pat :=
  word_i "default server" >> spaces1 >> PGroup 1 (some_bytes not_space) >> spaces1 >> word "(" >>
  PGroup 2 (some_bytes not_nl) >> word ":" >> PGroup 3 digits >> word ")" >> PEnd.
Definition configPathPattern : pat :=
  word "(" >> PGroup 1 (word "/" >> some_bytes not_nl >> word_i ".conf") >> word ":" >> PGroup 2 digits >> word ")" >> PEnd.
Definition blank (c : ascii) : bool := Ascii.eqb c " " || Ascii.eqb c "009".
Definition not_space_or_hash (c : ascii) : bool := negb (re_space c || Ascii.eqb c "#").
(** At the head of a line. *)
Definition serverNamePattern : pat :=
  PRep true 0 None blank >> word_i "ServerName" >> PRep true 1 None blank >> PGroup 1 (some_bytes not_space_or_hash).
Definition virtualHostPattern : pat :=
  word_i "<VirtualHost" >> spaces1 >> PRep true 0 None (but (Ascii.eqb ">")) >> word ":" >> PGroup 1 digits >> word ">".
Definition quote_byte (c : ascii) : bool := Ascii.eqb c "034" || Ascii.eqb c "'".
Definition documentRootPattern : pat :=
  word_i "DocumentRoot" >> spaces1 >> maybe (PCls quote_byte) >> PGroup 1 (some_bytes (but quote_byte)) >>
  maybe (PCls quote_byte) >> PEnd.
Definition identifierPattern : rx := Rep (λ c, between "a" "f" c || is_digit c) 64 64.
Definition filenamePattern : rx := Cls alnum ;;; Rep (cls alnum "._-") 0 126 ;;; lit ".conf".
Definition base64Pattern : rx := Star (Cls (cls alnum "+/")) ;;; Rep (Ascii.eqb "=") 0 2.

Example module_line : match_here (modulePattern 24) "core_module_MODULE (Static)" = Some [(2%nat, "Static"); (1%nat, "core_module")].
Proof. vm_compute. reflexivity. Qed.
Example vhost_line :
  match_here nameVHostPattern "port 443 namevhost example.org (/etc/apache2/a:b.conf:12)"
    = Some [(4%nat, "12"); (3%nat, "/etc/apache2/a:b.conf"); (2%nat, "example.org"); (1%nat, "443")].
Proof. vm_compute. reflexivity. Qed.

Section domain.
Context {W : Type} `{!Programs W} `{!FileSystem W} `{!ApacheHost W} `{UnicodeCase} (b : LinuxBackend).
Implicit Types (w : W) (path : string).

Definition data := list (string * Value).

(** ** Programs

    The outcome keeps the two outputs together; the status is -1 when the deadline was
    exceeded, -2 when the program was not started, with the reason as standard error. *)
Definition Run (name : string) (arguments : list string) : cmd W (bool * string) :=
  do! o := run name arguments in
  if status o =? -1 then stop (domainError 124 "APACHE_COMMAND_TIMEOUT" "La commande Apache a dépassé le délai autorisé." [])
  else if status o =? -2 then
    stop (domainError 10 "APACHE_COMMAND_FAILED" "La commande Apache n’a pas pu être exécutée." (reason (stderr o)))
  else ret (status o =? 0, trim_space (stdout o)).

Definition unit_ : string := service b +++ ".service".
Definition configTest : cmd W (bool * string) := Run (apacheControl b) ["configtest"].
Definition reloadCommand : cmd W (bool * string) := Run systemctlCommand ["reload"; "--"; unit_].
Definition siteCommand (command filename : string) : cmd W (bool * string) := Run command [filename].

Fixpoint info_line (a : string * string) (lines : list string) : string * string :=
  match lines with
  | [] => a
  | raw :: lines =>
      let l := trim_space raw in
      info_line (if has_prefix l "Server version:" then (trim_space (trim_prefix l "Server version:"), a.2)
                 else if has_prefix l "Server built:" then (a.1, trim_space (trim_prefix l "Server built:")) else a) lines
  end.
Definition info : cmd W data :=
  do! o := Run (apacheBinary b) ["-v"] in
  if negb o.1 then
    stop (domainError 10 "APACHE_INFO_FAILED" "Les informations de version Apache sont indisponibles." (outputDetails o.2))
  else
    let (version, built) := info_line ("", "") (split nl o.2) in
    if String.eqb version "" then stop (domainError 10 "INVALID_APACHE_INFO_RESPONSE" "La version Apache retournée est invalide." [])
    else ret [("version", VStr version); ("built", VStr built)].

Definition module_of (raw : string) : option (string * string) :=
  let l := trim_space raw in
  match match_here (modulePattern (String.length l)) l with
  | Some g => Some (group g 1, to_lower (group g 2))
  | None => None
  end.
Definition module_le (x y : string * string) : Prop := str_le (to_lower x.1) (to_lower y.1).
#[local] Instance module_le_dec x y : Decision (module_le x y).
Proof. unfold module_le. apply _. Defined.
Definition modules_of (output : string) : list (string * string) := merge_sort module_le (omap module_of (split nl output)).
Definition modules : cmd W data :=
  do! o := Run (apacheControl b) ["-M"] in
  if negb o.1 then stop (domainError 10 "APACHE_MODULES_FAILED" "La liste des modules Apache est indisponible." (outputDetails o.2))
  else ret [("modules", VList ((λ m : string * string, VMap [("name", VStr m.1); ("type", VStr m.2)]) <$> modules_of o.2))].

Definition apacheS : cmd W string :=
  do! o := Run (apacheControl b) ["-S"] in
  if negb o.1 then stop (domainError 10 "APACHE_VHOSTS_FAILED" "La liste des VirtualHosts Apache est indisponible." (outputDetails o.2))
  else ret o.2.

Definition configIdentifier w path : string := hex_encode (sha256 (Abs w (default path (EvalSymlinks w path)))).

(** ** Virtual hosts *)

Record vhost := mkVHost { v_name : string; v_port : Z; v_file : string; v_line : Z }.
#[local] Instance vhost_eq_dec : EqDecision vhost.
Proof. solve_decision. Defined.
Definition vhost_of (raw : string) : option vhost :=
  let l := trim_space raw in
  match match_here nameVHostPattern l with
  | Some g => Some (mkVHost (group g 2) (atoi_val (group g 1)) (group g 3) (atoi_val (group g 4)))
  | None =>
      match match_here defaultServerPattern l with
      | Some g => Some (mkVHost (group g 1) 0 (group g 2) (atoi_val (group g 3)))
      | None => None
      end
  end.
Definition vhost_key (v : vhost) : string :=
  v_name v +++ snul +++ itoa (v_port v) +++ snul +++ v_file v +++ snul +++ itoa (v_line v).
Fixpoint first_of_key (seen : list string) (l : list vhost) : list vhost :=
  match l with
  | [] => []
  | v :: l => if existsb (String.eqb (vhost_key v)) seen then first_of_key seen l
              else v :: first_of_key (vhost_key v :: seen) l
  end.
Definition vhost_le (x y : vhost) : Prop :=
  if String.eqb (to_lower (v_name x)) (to_lower (v_name y)) then v_port x <= v_port y
  else str_le (to_lower (v_name x)) (to_lower (v_name y)).
#[local] Instance vhost_le_dec x y : Decision (vhost_le x y).
Proof. unfold vhost_le. destruct (String.eqb _ _); apply _. Defined.
Definition vhosts_of (output : string) : list vhost := merge_sort vhost_le (first_of_key [] (omap vhost_of (split nl output))).

(** The first [DocumentRoot] of the block that starts at the line. *)
Fixpoint root_in (inside : bool) (lines : list string) : option string :=
  match lines with
  | [] => None
  | line :: lines =>
      let trimmed := trim_space line in
      let lower := to_lower trimmed in
      if String.eqb trimmed "" || has_prefix trimmed "#" then root_in inside lines
      else if has_prefix lower "<virtualhost" then root_in true lines
      else if inside && has_prefix lower "</virtualhost>" then None
      else if inside then
        match match_here documentRootPattern trimmed with
        | Some g =>
            let v := trim_space (group g 1) in
            Some (if String.eqb v "/" then v else trim_right_set (Ascii.eqb slash) v)
        | None => root_in inside lines
        end
      else root_in inside lines
  end.
Definition documentRoot w path (virtualHostLine : Z) : option string :=
  if negb (IsAbs path) then None
  else match files w !! path with
       | None => None
       | Some content => root_in false (drop (Z.to_nat (virtualHostLine - 1)) (scan_lines_up_to (maximumConfigSize - 1) content).1)
       end.
Definition vhost_value w (v : vhost) : Value :=
  VMap [("server_name", VStr (v_name v)); ("port", VInt (v_port v)); ("config_file", VStr (v_file v));
        ("config_id", VStr (configIdentifier w (v_file v))); ("config_line", VInt (v_line v));
        ("document_root", match documentRoot w (v_file v) (v_line v) with Some r => VStr r | None => VNil end)].
Definition vhosts : cmd W data :=
  do! output := apacheS in
  do! l := look (λ w, vhost_value w <$> vhosts_of output) in
  ret [("virtual_hosts", VList l)].

(** ** The files of sites *)

Definition read_failed code message (w : W) path : Reply := domainError 10 code message (reason (error_text w path)).
Definition sites_read_failed := read_failed "APACHE_SITES_READ_FAILED" "La liste des sites Apache ne peut pas être lue.".
Definition site_path w (root : string) (e : Entry) : option string :=
  if negb (has_suffix (e_Name e) ".conf") then None
  else match EvalSymlinks w (Join (sitesAvailable b) (e_Name e)) with
  | None => None
  | Some resolved =>
      if negb (String.eqb (Dir resolved) root) then None
      else match Stat w resolved with Some (true, _) => Some resolved | _ => None end
  end.
Definition path_le (x y : string) : Prop := str_le (to_lower (path_base x)) (to_lower (path_base y)).
#[local] Instance path_le_dec x y : Decision (path_le x y).
Proof. unfold path_le. apply _. Defined.
Definition availableSitePaths w : res Reply (list string) :=
  match ReadDir w (sitesAvailable b), EvalSymlinks w (sitesAvailable b) with
  | None, _ | _, None => Err (sites_read_failed w (sitesAvailable b))
  | Some entries, Some root => Ok (merge_sort path_le (omap (site_path w root) entries))
  end.

Definition invalidSiteID : Reply := domainError 2 "INVALID_APACHE_SITE_ID" "L’identifiant du site Apache est invalide." [].
Definition siteNotFound : Reply := domainError 4 "APACHE_SITE_NOT_FOUND" "Le site Apache demandé n’existe pas." [].
Definition sitePath (identifier : string) w : res Reply string :=
  if negb (full identifierPattern identifier) then Err invalidSiteID
  else
    let! paths := availableSitePaths w in
    from_option_res siteNotFound (find (λ path, String.eqb (configIdentifier w path) identifier) paths).

(** The profile activates every file of the directory. *)
Definition direct : bool := String.eqb (Clean (sitesAvailable b)) (Clean (sitesEnabled b)).
Definition siteEnabled path w : res Reply bool :=
  if direct then Ok true
  else match ReadDir w (sitesEnabled b) with
  | None => Err (read_failed "APACHE_SITES_READ_FAILED" "L’état des sites Apache ne peut pas être lu." w (sitesEnabled b))
  | Some entries =>
      Ok (existsb (λ e, e_Symlink e && bool_decide (EvalSymlinks w (Join (sitesEnabled b) (e_Name e)) = Some path)) entries)
  end.

Fixpoint unique_ints (seen l : list Z) : list Z :=
  match l with
  | [] => []
  | z :: l => if existsb (Z.eqb z) seen then unique_ints seen l else z :: unique_ints (z :: seen) l
  end.
Definition server_names (text : string) : list string :=
  unique_from [] ((λ g, group g 1) <$> omap (match_here serverNamePattern) (split nl text)).
Definition ports (text : string) : list Z :=
  unique_ints [] ((λ g, atoi_val (group g 1)) <$> find_all virtualHostPattern text).
Definition site_value w path : res Reply Value :=
  let failed := read_failed "APACHE_SITE_READ_FAILED" "Un site Apache ne peut pas être lu." w path in
  let! content := from_option_res failed (files w !! path) in
  let! info := from_option_res failed (Stat w path) in
  let! enabled := siteEnabled path w in
  let text := to_valid_utf8 0 false content in
  Ok (VMap [("filename", VStr (path_base path)); ("config_id", VStr (configIdentifier w path)); ("enabled", VBool enabled);
            ("size_bytes", VInt info.2); ("server_names", VList (VStr <$> server_names text)); ("ports", VList (VInt <$> ports text))]).
Fixpoint all_values w (l : list string) : res Reply (list Value) :=
  match l with
  | [] => Ok []
  | path :: l => let! v := site_value w path in let! r := all_values w l in Ok (v :: r)
  end.
Definition sites w : res Reply data :=
  let! paths := availableSitePaths w in
  let! l := all_values w paths in
  Ok [("sites", VList l); ("count", VInt (Z.of_nat (List.length l)))].

Definition site (identifier : string) w : res Reply data :=
  let! path := sitePath identifier w in
  let failed := read_failed "APACHE_SITE_READ_FAILED" "Le site Apache ne peut pas être lu." w path in
  let! info := from_option_res failed (Stat w path) in
  guard! (negb (maximumSiteSize <? info.2)) else
    domainError 10 "APACHE_SITE_TOO_LARGE" "Le site Apache dépasse la taille autorisée." (sizes info.2 maximumSiteSize) in
  let! content := from_option_res failed (files w !! path) in
  guard! (valid_utf8 content) else domainError 10 "APACHE_SITE_READ_FAILED" "Le site Apache n’est pas encodé en UTF-8." [] in
  let! enabled := siteEnabled path w in
  Ok [("filename", VStr (path_base path)); ("config_id", VStr identifier); ("enabled", VBool enabled); ("content", VStr content)].

(** The files the listing of the virtual hosts names, the last of an identifier. *)
Definition active_config w (output identifier : string) : option string :=
  last (filter (λ path, configIdentifier w path = identifier)
    (omap (λ line, match find_match configPathPattern (trim_space line) with
                   | Some g => EvalSymlinks w (group g 1) | None => None end) (split nl output))).
(** The extension of a path, as [filepath.Ext] gives it. *)
Definition Ext path : string := let n := List.last (split slash path) "" in
  match split "." n with _ :: (_ :: _) as l => "." +++ List.last l "" | _ => "" end.
Definition below_root w path : bool :=
  match Logs.Rel (default "" (EvalSymlinks w (apacheRoot b))) path with
  | Some r => negb (String.eqb r ".." || has_prefix r "../")
  | None => false
  end.
Definition read_config (output identifier : string) w : res Reply data :=
  let! path := from_option_res (domainError 4 "APACHE_CONFIG_NOT_FOUND" "La configuration Apache demandée n’est pas active." [])
                 (active_config w output identifier) in
  let refused := domainError 4 "APACHE_CONFIG_NOT_ALLOWED" "La configuration Apache demandée n’est pas autorisée." [] in
  let! info := from_option_res refused (Stat w path) in
  guard! (below_root w path && String.eqb (to_lower (Ext path)) ".conf" && info.1) else refused in
  guard! (negb (maximumConfigSize <? info.2)) else
    domainError 10 "APACHE_CONFIG_TOO_LARGE" "La configuration Apache dépasse la taille autorisée." (sizes info.2 maximumConfigSize) in
  let! content := from_option_res
    (read_failed "APACHE_CONFIG_READ_FAILED" "La configuration Apache ne peut pas être lue." w path) (files w !! path) in
  Ok [("config_file", VStr path); ("content", VStr (to_valid_utf8 0 false content))].
Definition config (identifier : string) : cmd W data :=
  if negb (full identifierPattern identifier) then
    stop (domainError 2 "INVALID_APACHE_CONFIG_ID" "L’identifiant de configuration Apache est invalide." [])
  else do! output := apacheS in consult (read_config output identifier).

(** ** Payloads *)

Record sitePayload := mkPayload { Filename : option string; ConfigID : option string; Content : option string }.
Definition invalidPayload : Reply := domainError 2 "INVALID_APACHE_SITE_PAYLOAD" "Les données du site Apache sont invalides." [].
Definition payload_of (m : list (string * json)) : option sitePayload :=
  let text name := store_field name (store_pointer "" store_string) None m in
  let '(f, ok1) := text "filename" in
  let '(i, ok2) := text "config_id" in
  let '(c, ok3) := text "content" in
  if ok1 && ok2 && ok3 then Some (mkPayload f i c) else None.
Definition parsePayload (argument : string) : res Reply sitePayload :=
  match json_prefix argument with
  | Some (v, r) =>
      let! payload := from_option_res invalidPayload
        (match v with JNull => Some (mkPayload None None None) | JObj m => payload_of m | _ => None end) in
      guard! (String.eqb (skip_space r) "") else invalidPayload in Ok payload
  | None => Err invalidPayload
  end.

Definition invalidContent (message : string) details : Reply := domainError 2 "INVALID_APACHE_SITE_CONTENT" message details.
Definition decodeContent (payload : sitePayload) : res Reply string :=
  let invalid := invalidContent "Le contenu du site Apache est invalide." [] in
  let! encoded := from_option_res invalid (Content payload) in
  guard! (negb (String.eqb encoded "") && full base64Pattern encoded) else invalid in
  let! content := from_option_res invalid (b64_padded_decode true encoded) in
  guard! (negb (String.eqb content "") && (slen content <=? maximumSiteSize)) else
    invalidContent "Le contenu du site Apache dépasse les limites autorisées." (sizes (slen content) maximumSiteSize) in
  guard! (negb (contains_byte nul content)) else invalidContent "Le contenu du site Apache contient un caractère interdit." [] in
  guard! (valid_utf8 content) else invalidContent "Le contenu du site Apache n’est pas encodé en UTF-8." [] in
  Ok (if has_suffix content snl then content else content +++ snl).

Definition actionResponse (action path identifier : string) (enabled : bool) : data :=
  [("action", VStr action); ("filename", VStr (path_base path)); ("config_id", VStr identifier);
   ("enabled", VBool enabled); ("result", VStr "success")].

(** Decimal digits, with leading zeros up to the width. *)
Fixpoint padded (width : nat) (n : Z) : string :=
  match width with O => "" | S k => padded k (n / 10) +++ String (digit (n mod 10)) "" end.
(** [Format("20060102T150405.000000Z")], of nanoseconds; and [Format("150405.000000000")] *)
Definition stamp_us (t : Z) : string := trim_suffix (stamp (t / 10^9)) "Z" +++ "." +++ padded 6 (t mod 10^9 / 1000) +++ "Z".
Definition time_ns (t : Z) : string :=
  let '(h, mi, s) := clock_of ((t / 10^9) mod 86400) in two h +++ two mi +++ two s +++ "." +++ padded 9 (t mod 10^9).
Definition backupName w path : string := stamp_us (now w) +++ "-" +++ path_base path.

(** ** Changes to the files *)

(** [os.WriteFile], which does not go through another file. *)
Definition WriteFile path (content : string) w : bool * W :=
  if may_write w path content then (true, set_files (<[path := content]> (files w)) w)
  else (false, match left_after w path content with
               | Some c => set_files (<[path := c]> (files w)) w | None => w end).
(** [os.Remove] of a file or of a link. *)
Definition Remove path w : bool * W :=
  match files w !! path, links w !! path with
  | Some _, _ => remove_at path w
  | None, Some _ => if may_remove w path then (true, set_links (delete path (links w)) w) else (false, w)
  | None, None => (false, w)
  end.
Definition Symlink (target path : string) w : bool * W :=
  if may_link w path then (true, set_links (<[path := target]> (links w)) w) else (false, w).

Definition remove path : cmd W () := ignore (touch (Remove path)).
(** A temporary file renamed into place. *)
Definition atomicWrite path content : cmd W bool := touch (write_at path content).

Definition failing (code message : string) path : cmd W Reply :=
  look (λ w, domainError 10 code message (reason (error_text w path))).
Definition write_or_fail path content : cmd W () :=
  do! ok := atomicWrite path content in
  do! r := failing "APACHE_SITE_WRITE_FAILED" "L’écriture du site Apache a échoué." path in
  if negb ok then stop r else ret ().

Definition backupPath w path : string := Join (backupRoot b) (backupName w path).
Definition backup path : cmd W string :=
  let failed := failing "APACHE_SITE_BACKUP_FAILED" "La sauvegarde du site Apache a échoué." in
  do! made := touch (make_directory (backupRoot b)) in
  do! r := failed (backupRoot b) in
  if negb made then stop r
  else
    do! content := read_file path in
    do! r := failed path in
    match content with
    | None => stop r
    | Some content =>
        do! saved := look (λ w, backupPath w path) in
        do! ok := touch (WriteFile saved content) in
        do! r := failed saved in
        if negb ok then stop r else ret saved
    end.
Definition restore path (saved : string) : cmd W () :=
  do! content := read_file saved in
  match content with Some content => ignore (touch (WriteFile path content)) | None => ret () end.

Definition validationLink w : string :=
  Join (sitesEnabled b) ("zz-aegisadmin-validation-" +++ time_ns (now w) +++ ".conf").
Definition validateDisabled path : cmd W (bool * string) :=
  if direct then configTest
  else
    do! link := look validationLink in
    do! _ := remove link in
    do! ok := touch (Symlink path link) in
    do! r := failing "APACHE_SITE_VALIDATION_FAILED" "Le site Apache ne peut pas être validé." link in
    if negb ok then stop r else finally configTest (remove link).

(** ** Operations *)

Definition configInvalid (code message output : string) : Reply := domainError 5 code message (outputDetails output).
(** The reload, whose failure is a refusal. *)
Definition reloaded (message : string) : cmd W () :=
  do! o := reloadCommand in
  if negb o.1 then stop (domainError 10 "APACHE_SITE_RELOAD_FAILED" message (outputDetails o.2)) else ret ().
(** A test of the configuration, whose failure is a refusal. *)
Definition tested (test : cmd W (bool * string)) (refused : string → Reply) : cmd W () :=
  do! o := test in if negb o.1 then stop (refused o.2) else ret ().

Definition create (argument : string) : cmd W data :=
  do! payload := lift (parsePayload argument) in
  do! filename := lift (match Filename payload with
    | Some f => if full filenamePattern f && String.eqb (path_base f) f then Ok f
                else Err (domainError 2 "INVALID_APACHE_SITE_FILENAME" "Le nom du fichier de site Apache est invalide." [])
    | None => Err (domainError 2 "INVALID_APACHE_SITE_FILENAME" "Le nom du fichier de site Apache est invalide." []) end) in
  do! content := lift (decodeContent payload) in
  do! root := consult (λ w, from_option_res
    (read_failed "APACHE_SITE_WRITE_FAILED" "L’écriture du site Apache a échoué." w (sitesAvailable b)) (EvalSymlinks w (sitesAvailable b))) in
  let path := Join root filename in
  do! free := look (λ w, vacant w path) in
  if negb free then stop (domainError 5 "APACHE_SITE_ALREADY_EXISTS" "Un site Apache portant ce nom existe déjà." [])
  else
    do! _ := write_or_fail path content in
    do! _ := undoing (tested (validateDisabled path)
      (configInvalid "APACHE_SITE_CONFIG_INVALID" "La configuration du site Apache est invalide.")) (remove path) in
    do! _ := (if direct then
                undoing (reloaded "La création du site Apache a été annulée après l’échec du rechargement.") (remove path)
              else ret ()) in
    look (λ w, actionResponse "create" path (configIdentifier w path) direct).

Definition update (argument : string) : cmd W data :=
  do! payload := lift (parsePayload argument) in
  do! identifier := lift (from_option_res invalidSiteID (ConfigID payload)) in
  do! path := consult (sitePath identifier) in
  do! content := lift (decodeContent payload) in
  do! enabled := consult (siteEnabled path) in
  do! saved := backup path in
  do! _ := write_or_fail path content in
  do! _ := undoing (tested (if enabled : bool then configTest else validateDisabled path)
    (configInvalid "APACHE_SITE_CONFIG_INVALID" "La configuration du site Apache est invalide.")) (restore path saved) in
  do! _ := (if enabled : bool then
              undoing (reloaded "Le site Apache a été restauré après l’échec du rechargement.")
                (do! _ := restore path saved in ignore reloadCommand)
            else ret ()) in
  ret (actionResponse "update" path identifier enabled).

(** [a2ensite] or [a2dissite], after which the site must be in the wanted state. *)
Definition switched (command path : string) (wanted : bool) (code message : string) : cmd W () :=
  do! o := siteCommand command (path_base path) in
  do! enabled := consult (siteEnabled path) in
  if negb o.1 || negb (Bool.eqb enabled wanted) then stop (domainError 10 code message (outputDetails o.2)) else ret ().

Definition enable (identifier : string) : cmd W data :=
  do! path := consult (sitePath identifier) in
  do! enabled := consult (siteEnabled path) in
  if enabled : bool then stop (domainError 5 "APACHE_SITE_ALREADY_ENABLED" "Le site Apache est déjà activé." [])
  else
    let back := ignore (siteCommand (disableCommand b) (path_base path)) in
    do! _ := switched (enableCommand b) path true "APACHE_SITE_ENABLE_FAILED" "L’activation du site Apache a échoué." in
    do! o := configTest in
    if negb o.1 then
      do! _ := back in
      stop (configInvalid "APACHE_SITE_CONFIG_INVALID" "Le site Apache n’a pas été activé car sa configuration est invalide." o.2)
    else
      do! _ := undoing (reloaded "L’activation du site Apache a été annulée après l’échec du rechargement.")
        (do! _ := back in ignore reloadCommand) in
      ret (actionResponse "enable" path identifier true).

Definition disable (identifier : string) : cmd W data :=
  do! path := consult (sitePath identifier) in
  do! enabled := consult (siteEnabled path) in
  if negb enabled then stop (domainError 5 "APACHE_SITE_ALREADY_DISABLED" "Le site Apache est déjà désactivé." [])
  else if direct then
    stop (domainError 5 "APACHE_SITE_DISABLE_UNSUPPORTED" "Ce profil Apache active directement tous les fichiers de site ; la désactivation individuelle n’est pas disponible." [])
  else
    let back := ignore (siteCommand (enableCommand b) (path_base path)) in
    do! _ := switched (disableCommand b) path false "APACHE_SITE_DISABLE_FAILED" "La désactivation du site Apache a échoué." in
    do! o := configTest in
    if negb o.1 then
      do! _ := back in
      stop (domainError 10 "APACHE_CONFIG_INVALID" "La désactivation du site Apache a produit une configuration invalide." (outputDetails o.2))
    else
      do! _ := undoing (reloaded "La désactivation du site Apache a été annulée après l’échec du rechargement.")
        (do! _ := back in ignore reloadCommand) in
      ret (actionResponse "disable" path identifier false).

Definition delete (identifier : string) : cmd W data :=
  do! path := consult (sitePath identifier) in
  do! enabled := consult (siteEnabled path) in
  do! saved := backup path in
  let switch := enabled && negb direct in
  let back : cmd W () := if switch then ignore (siteCommand (enableCommand b) (path_base path)) else ret () in
  do! _ := (if switch then
    switched (disableCommand b) path false "APACHE_SITE_DISABLE_FAILED" "La désactivation du site Apache a échoué." else ret ()) in
  do! removed := touch (Remove path) in
  do! r := failing "APACHE_SITE_DELETE_FAILED" "La suppression du site Apache a échoué." path in
  if negb removed then do! _ := back in stop r
  else
    do! o := undoing configTest (restore path saved) in
    if negb o.1 then
      do! _ := restore path saved in
      do! _ := back in
      stop (domainError 10 "APACHE_CONFIG_INVALID" "La suppression du site Apache a été annulée car la configuration est invalide." (outputDetails o.2))
    else
      do! _ := (if enabled : bool then
                  undoing (reloaded "La suppression du site Apache a été annulée après l’échec du rechargement.")
                    (do! _ := restore path saved in do! _ := back in ignore reloadCommand)
                else ret ()) in
      ret (actionResponse "delete" path identifier false).

Definition reload : cmd W data :=
  do! _ := tested configTest (λ output, domainError 10 "APACHE_CONFIG_INVALID"
    "La configuration Apache est invalide. Le rechargement a été refusé." (outputDetails output)) in
  do! o := reloadCommand in
  if negb o.1 then stop (domainError 10 "APACHE_RELOAD_FAILED" "Le rechargement d’Apache a échoué." (outputDetails o.2))
  else ret [("action", VStr "reload"); ("service", VStr (service b)); ("result", VStr "success")].
Definition restart_arguments : list string :=
  ["--quiet"; "--collect"; "--on-active=5s"; systemctlCommand; "restart"; "--"; unit_].
Definition restart : cmd W data :=
  do! _ := tested configTest (λ output, domainError 10 "APACHE_CONFIG_INVALID"
    "La configuration Apache est invalide. Le redémarrage a été refusé." (outputDetails output)) in
  do! o := Run systemdRunCommand restart_arguments in
  if negb o.1 then
    stop (domainError 10 "APACHE_RESTART_SCHEDULE_FAILED" "La programmation du redémarrage d’Apache a échoué." (outputDetails o.2))
  else ret [("action", VStr "restart"); ("service", VStr (service b)); ("result", VStr "scheduled"); ("delay_seconds", VInt 5)].

(** ** The overview

    Each of its five operations runs one program at most; they run in the order of
    [arrival], and the reply keeps the order of the code. *)
Definition configtest : cmd W data := do! o := configTest in ret [("valid", VBool o.1); ("message", VStr o.2)].
Definition run_part (p : part) : cmd W data :=
  match p with
  | Info => info | ConfigTest => configtest | VHosts => vhosts | Sites => consult sites | Modules => modules end.
Definition part_name (p : part) : string :=
  match p with
  | Info => "info" | ConfigTest => "configtest" | VHosts => "vhosts" | Sites => "sites" | Modules => "modules" end.
#[global] Instance part_eq_dec : EqDecision part.
Proof. solve_decision. Defined.
Definition overview_results := list (part * res Reply data).
Fixpoint run_parts (l : list part) (results : overview_results) : cmd W overview_results :=
  match l with
  | [] => ret results
  | p :: l => do! r := attempt (run_part p) in run_parts l ((p, r) :: results)
  end.
Definition result_of (results : overview_results) (p : part) : option (res Reply data) :=
  snd <$> find (λ x, bool_decide (x.1 = p)) results.
(** The data of the parts in order, or the first error. *)
Fixpoint collected (results : overview_results) (l : list part) : res Reply data :=
  match l with
  | [] => Ok []
  | p :: l =>
      let! d := default (Ok []) (result_of results p) in
      let! r := collected results l in
      Ok ((part_name p, VMap d) :: r)
  end.
Definition not_installed : data :=
  [("installed", VBool false); ("info", VMap [("version", VStr ""); ("built", VStr "")]);
   ("configtest", VMap [("valid", VBool false); ("message", VStr "Apache n’est pas installé sur ce serveur.")]);
   ("vhosts", VMap [("virtual_hosts", VList [])]); ("sites", VMap [("sites", VList [])]);
   ("modules", VMap [("modules", VList [])])].
Definition overview : cmd W data :=
  if negb (executable (apacheBinary b)) then ret not_installed
  else
    do! order := look arrival in
    do! results := run_parts order [] in
    do! d := lift (collected results parts) in
    ret (("installed", VBool true) :: d).

Definition Execute (command argument : string) : cmd W data :=
  if String.eqb command "info" then info
  else if String.eqb command "overview" then overview
  else if String.eqb command "configtest" then configtest
  else if String.eqb command "vhosts" then vhosts
  else if String.eqb command "config" then config argument
  else if String.eqb command "sites" then consult sites
  else if String.eqb command "site" then consult (site argument)
  else if String.eqb command "create" then create argument
  else if String.eqb command "update" then update argument
  else if String.eqb command "enable" then enable argument
  else if String.eqb command "disable" then disable argument
  else if String.eqb command "delete" then delete argument
  else if String.eqb command "modules" then modules
  else if String.eqb command "reload" then reload
  else if String.eqb command "restart" then restart
  else stop (domainError 4 "COMMAND_NOT_FOUND" "La commande demandée n’existe pas dans le domaine apache." []).

Definition argumentCounts : list (string * nat) :=
  [("info", 0%nat); ("overview", 0%nat); ("configtest", 0%nat); ("vhosts", 0%nat); ("config", 1%nat);
   ("sites", 0%nat); ("site", 1%nat); ("create", 1%nat); ("update", 1%nat);
   ("enable", 1%nat); ("disable", 1%nat); ("delete", 1%nat); ("modules", 0%nat); ("reload", 0%nat); ("restart", 0%nat)].
Definition handle (command : string) (arguments : list string) : cmd W data :=
  if String.eqb command "" then stop (domainError 2 "MISSING_COMMAND" "Aucune commande n’a été indiquée pour le domaine apache." [])
  else match find (λ x, String.eqb x.1 command) argumentCounts with
  | None => stop (domainError 4 "COMMAND_NOT_FOUND" "La commande demandée n’existe pas dans le domaine apache." [])
  | Some (_, expected) =>
      if negb (Nat.eqb (List.length arguments) expected) then
        stop (domainError 2 "INVALID_ARGUMENT_COUNT" "Le nombre d’arguments fourni est invalide." [])
      else Execute command (if Nat.eqb expected 1 then default "" (head arguments) else "")
  end.
Definition Handle (command : string) (arguments : list string) : Machine W → Reply * Machine W := serve (handle command arguments).
End domain.
