(* ===== verification/ApacheFacts.v ===== *)
(** * Apache: what the domain guarantees

    Every reply is well formed; Apache is reloaded or restarted only after a test of its
    configuration that passed; a refused change leaves the files as they were; what the
    web program sends is what is written. *)

From S2P Require Import Prelude GoStrings StringFacts Regex Backtrack Codec Json JsonParse JsonMore Command Triple Files Apache.
From S2P Require Api Backup CronTasks.
From Stdlib Require Import Ascii String.
#[local] Open Scope string_scope.
#[local] Open Scope list_scope.
#[local] Open Scope Z_scope.

Import Api(Reply, success, VStr, VInt, VBool, VList, VMap, VNil, Value).
Import Backup(Join).
Import CronTasks(path_base).

Section facts.
Context {W : Type} `{!Programs W} `{!FileSystem W} `{!ApacheHost W} `{UnicodeCase} (b : LinuxBackend).
Implicit Types (w : W) (path : string).

(** ** Replies *)

Lemma from_option_refusal {A} (o : option A) e r : refusal e → from_option_res e o = Err r → refusal r.
Proof. intros He. destruct o; [done|]. by intros [= <-]. Qed.
#[local] Hint Resolve refusal_domainError : commands.
Ltac refused :=
  repeat match goal with
  | H : res_bind _ _ = Err _ |- _ => apply res_bind_Err in H as [H|(? & ? & H)]
  | H : from_option_res _ _ = Err _ |- _ => apply from_option_refusal in H; [exact H|]
  | H : (match ?x with _ => _ end) = Err _ |- _ => destruct x eqn:?; try discriminate H
  | H : Err _ = Err _ |- _ => injection H as <-
  | H : Ok _ = Err _ |- _ => discriminate H
  end; try (apply refusal_domainError; discriminate).

Lemma availableSitePaths_refusal w r : availableSitePaths b w = Err r → refusal r.
Proof. unfold availableSitePaths. intros Hr. refused. Qed.
Lemma sitePath_refusal identifier w r : sitePath b identifier w = Err r → refusal r.
Proof. unfold sitePath. intros Hr. refused. by eapply availableSitePaths_refusal. Qed.
Lemma siteEnabled_refusal path w r : siteEnabled b path w = Err r → refusal r.
Proof. unfold siteEnabled. intros Hr. refused. Qed.
Lemma all_values_refusal w l r : all_values b w l = Err r → refusal r.
Proof.
  revert r. induction l as [|p l IH]; cbn [all_values]; intros r Hr; refused.
  - unfold site_value in Hr. refused. by eapply siteEnabled_refusal.
  - by apply IH.
Qed.
Lemma sites_refusal w r : sites b w = Err r → refusal r.
Proof. unfold sites. intros Hr. refused; [by eapply availableSitePaths_refusal|by eapply all_values_refusal]. Qed.
Lemma site_refusal identifier w r : site b identifier w = Err r → refusal r.
Proof. unfold site. intros Hr. refused; [by eapply sitePath_refusal|by eapply siteEnabled_refusal]. Qed.
Lemma read_config_refusal output identifier w r : read_config b output identifier w = Err r → refusal r.
Proof. unfold read_config. intros Hr. refused. Qed.
Lemma parsePayload_refusal argument r : parsePayload argument = Err r → refusal r.
Proof. unfold parsePayload. intros Hr. refused. Qed.
Lemma decodeContent_refusal payload r : decodeContent payload = Err r → refusal r.
Proof. unfold decodeContent, invalidContent. intros Hr. refused. Qed.

Lemma refuses_Run name arguments : refuses (W := W) (Run name arguments).
Proof.
  unfold Run. apply refuses_bind; [apply refuses_run|]. intros o. destruct (status o =? -1); [apply refuses_stop_of; auto with commands|].
  destruct (status o =? -2); [apply refuses_stop_of; auto with commands|apply refuses_ret].
Qed.
Lemma refuses_failing code message path : ∀ m : Machine W, ∃ r, failing code message path m = (Ok r, m) ∧ refusal r.
Proof. intros m. eexists. split; [done|]. auto with commands. Qed.
Lemma refuses_failing_bind {A} code message path (k : Reply → cmd W A) :
  (∀ r, refusal r → refuses (k r)) → refuses (bind (failing code message path) k).
Proof.
  intros Hk m r m'. destruct (refuses_failing code message path m) as (e & He & Hr). unfold bind. rewrite He.
  by apply Hk.
Qed.
#[local] Hint Resolve refuses_Run availableSitePaths_refusal sitePath_refusal siteEnabled_refusal sites_refusal site_refusal
  read_config_refusal parsePayload_refusal decodeContent_refusal : commands.
Ltac walk_refuses :=
  repeat (first [ progress eauto 3 with commands nocore
                | match goal with |- refuses (bind (failing _ _ _) _) => apply refuses_failing_bind; intros ? ? end
                | match goal with H : from_option_res _ _ = Err ?r |- refusal ?r => apply from_option_refusal in H; [done|] end
                | match goal with H : match ?x with _ => _ end = Err ?r |- refusal ?r => destruct x eqn:?; simplify_eq end
                | match goal with |- refusal (domainError _ _ _ _) => apply refusal_domainError; discriminate end
                | match goal with |- refusal _ => progress unfold configInvalid, invalidSiteID, read_failed end
                | command_step ]; try done).
Lemma refuses_backup path : refuses (backup (W := W) b path).
Proof. unfold backup. walk_refuses. Qed.
Lemma refuses_create argument : refuses (create (W := W) b argument).
Proof. unfold create. walk_refuses. Qed.
Lemma refuses_update argument : refuses (update (W := W) b argument).
Proof. unfold update. walk_refuses. Qed.
Lemma refuses_enable identifier : refuses (enable (W := W) b identifier).
Proof. unfold enable. walk_refuses. Qed.
Lemma refuses_disable identifier : refuses (disable (W := W) b identifier).
Proof. unfold disable. walk_refuses. Qed.
Lemma refuses_delete identifier : refuses (delete (W := W) b identifier).
Proof. unfold delete. walk_refuses. Qed.

Lemma refuses_part p : refuses (run_part (W := W) b p).
Proof.
  destruct p; cbn [run_part]; [unfold info|unfold configtest, configTest|unfold vhosts, apacheS|apply refuses_consult, sites_refusal|unfold modules];
    walk_refuses.
Qed.
Definition results_refuse (l : overview_results) : Prop := Forall (λ x, ∀ r, x.2 = Err r → refusal r) l.
Lemma run_parts_refuse l : ∀ results m out m',
  results_refuse results → run_parts (W := W) b l results m = (out, m') → ∃ results', out = Ok results' ∧ results_refuse results'.
Proof.
  induction l as [|p l IH]; intros results m out m' Hr; cbn [run_parts].
  - intros [= <- <-]. by exists results.
  - unfold bind, attempt. destruct (run_part b p m) as [o m1] eqn:E. apply IH. apply Forall_cons. split; [|done].
    cbn. intros r ->. by apply refuses_part in E.
Qed.
Lemma result_of_refusal results p r : results_refuse results → result_of results p = Some (Err r) → refusal r.
Proof.
  unfold result_of. intros Hr Hf. destruct (find _ results) as [[q o]|] eqn:E; [|done]. injection Hf as ->.
  apply find_some in E as [Hin _]. unfold results_refuse in Hr. rewrite Forall_forall in Hr.
  apply list_elem_of_In in Hin. by apply (Hr _ Hin).
Qed.
Lemma collected_refusal results l r : results_refuse results → collected results l = Err r → refusal r.
Proof.
  intros Hr. revert r. induction l as [|p l IH]; cbn [collected]; intros r Hc; [done|].
  apply res_bind_Err in Hc as [Hc|(d & _ & [Hc|(? & ? & ?)]%res_bind_Err)]; [|by apply IH|done].
  destruct (result_of results p) as [o|] eqn:E; [|done]. cbn in Hc. subst o. by eapply result_of_refusal.
Qed.
Lemma refuses_overview : refuses (overview (W := W) b).
Proof.
  unfold overview. destruct (negb _); [apply refuses_ret|]. apply refuses_bind; [apply refuses_look|]. intros order m r m'.
  unfold bind. destruct (run_parts b order [] m) as [out m1] eqn:E.
  apply run_parts_refuse in E as (results & -> & Hr); [|by constructor]. unfold lift.
  destruct (collected results parts) eqn:Hc; [done|]. intros [= <- _]. by eapply collected_refusal.
Qed.
#[local] Hint Resolve refuses_create refuses_update refuses_enable refuses_disable refuses_delete refuses_overview : commands.

(** Every reply of the domain is a success with data, or a failure with an error. *)
Lemma apache_refuses command arguments : refuses (handle (W := W) b command arguments).
Proof.
  pose proof (refuses_part Info). pose proof (refuses_part VHosts). pose proof (refuses_part Modules).
  unfold handle, Execute. walk_refuses.
Qed.

(** ** Tests before reloads *)

Definition reload_or_restart (n : string) (a : list string) : Prop :=
  a = ["reload"; "--"; unit_ b] ∨ a = restart_arguments b.
Definition test_passed (x : call) : Prop := x.1 = (apacheControl b, ["configtest"]) ∧ succeeded x.2 = true.

(** A command that runs no call of the class, and whose answer, when it satisfies the
    condition, comes after a test that passed. *)
Definition tests {A} (φ : A → bool) (c : cmd W A) : Prop :=
  ∀ m out m', c m = (out, m') →
  ∃ l, ran_since m m' l ∧ Forall (calls (λ n a, ¬ reload_or_restart n a)) l ∧
    (∀ x, out = Ok x → φ x = true → ∃ y, y ∈ l ∧ test_passed y).
Definition calm {A} (c : cmd W A) : Prop := only (λ n a, ¬ reload_or_restart n a) c.

Lemma calm_Run name arguments : ¬ reload_or_restart name arguments → calm (Run name arguments).
Proof.
  intros Hn. unfold Run, calm. apply only_bind; [by apply only_run|]. intros o.
  destruct (status o =? -1); [apply only_stop|]. destruct (status o =? -2); [apply only_stop|apply only_ret].
Qed.
Lemma short_not_reload name x : ¬ reload_or_restart name [x].
Proof. by intros [[=]|[=]]. Qed.
Lemma Run_called name arguments m out m' : Run (W := W) name arguments m = (out, m') →
  ∃ o, ran_since m m' [(name, arguments, o)] ∧ (∀ x, out = Ok x → x.1 = succeeded o).
Proof.
  unfold Run. intros [(r & Hr & _)|(o & m1 & Hm & Hx)]%bind_inv; [by apply run_inv in Hr as (? & ? & _)|].
  apply run_inv in Hm as (o' & [= <-] & Hm1 & _). exists o. unfold ran_since, succeeded.
  destruct (status o =? -1), (status o =? -2); unfold stop, ret in Hx; injection Hx as <- <-;
    (split; [by rewrite Hm1|]); try done. by intros x [= <-].
Qed.
Lemma tests_configTest : tests fst (configTest (W := W) b).
Proof.
  intros m out m' (o & Hl & Ho)%Run_called. eexists. split; [exact Hl|]. split.
  - apply Forall_singleton. apply short_not_reload.
  - intros x Hx Hp. exists (apacheControl b, ["configtest"], o). split; [by left|]. split; [done|]. change (succeeded o = true). by rewrite <- (Ho x Hx).
Qed.
Lemma tests_bind {A B} (φ : B → bool) (c : cmd W A) (k : A → cmd W B) : calm c → (∀ x, tests φ (k x)) → tests φ (bind c k).
Proof.
  intros Hc Hk m out m' [(r & Hr & ->)|(x & m1 & Hm & Hx)]%bind_inv.
  - apply Hc in Hr as (l & Hl & Hf). by exists l.
  - apply Hc in Hm as (l1 & E1 & F1). apply Hk in Hx as (l2 & E2 & F2 & Ht). exists (l1 ++ l2). unfold ran_since in *.
    rewrite E2, E1, app_assoc. split; [done|]. split; [by apply Forall_app|]. intros y Hy Hφ.
    destruct (Ht y Hy Hφ) as (z & Hz & ?). exists z. set_solver.
Qed.
Lemma tests_then {A B} (φ : A → bool) (ψ : B → bool) (c : cmd W A) (k : A → cmd W B) :
  tests φ c → (∀ x, calm (k x)) → (∀ x m y m', k x m = (Ok y, m') → ψ y = true → φ x = true) → tests ψ (bind c k).
Proof.
  intros Hc Hk Hφ m out m' [(r & Hr & ->)|(x & m1 & Hm & Hx)]%bind_inv.
  - apply Hc in Hr as (l & Hl & Hf & _). by exists l.
  - pose proof Hx as Hx'. apply Hc in Hm as (l1 & E1 & F1 & Ht). apply Hk in Hx as (l2 & E2 & F2). exists (l1 ++ l2).
    unfold ran_since in *. rewrite E2, E1, app_assoc. split; [done|]. split; [by apply Forall_app|]. intros y -> Hy.
    destruct (Ht x eq_refl) as (z & Hz & ?); [by eapply Hφ|]. exists z. set_solver.
Qed.
Lemma tests_finally {A} (φ : A → bool) (c : cmd W A) d : tests φ c → calm d → tests φ (finally c d).
Proof.
  intros Hc Hd m out m'. unfold finally. destruct (c m) as [o m1] eqn:E. destruct (d m1) as [e m2] eqn:E'.
  intros [= <- <-]. apply Hc in E as (l1 & E1 & F1 & Ht). apply Hd in E' as (l2 & E2 & F2). exists (l1 ++ l2).
  unfold ran_since in *. cbn [snd]. rewrite E2, E1, app_assoc. split; [done|]. split; [by apply Forall_app|].
  intros x Hx Hφ. destruct (Ht x Hx Hφ) as (z & Hz & ?). exists z. set_solver.
Qed.
Lemma tests_undoing {A} (φ : A → bool) (c : cmd W A) u : tests φ c → calm u → tests φ (undoing c u).
Proof.
  intros Hc Hu m out m'. unfold undoing. destruct (c m) as [[x|r] m1] eqn:E; apply Hc in E as (l1 & E1 & F1 & Ht).
  - intros [= <- <-]. by exists l1.
  - destruct (u m1) as [e m2] eqn:E'. apply Hu in E' as (l2 & E2 & F2). intros [= <- <-]. exists (l1 ++ l2).
    unfold ran_since in *. cbn [snd]. rewrite E2, E1, app_assoc. split; [done|]. split; [by apply Forall_app|done].
Qed.
Lemma guarded_when {A B} (φ : A → bool) (c : cmd W A) (k : A → cmd W B) :
  tests φ c → (∀ x, φ x = false → guarded reload_or_restart test_passed (k x)) → (∀ x, only (λ _ _, True) (k x)) →
  guarded reload_or_restart test_passed (bind c k).
Proof.
  intros Hc Hk Ht m out m' [(r & Hr & _)|(x & m1 & Hm & Hx)]%bind_inv.
  - apply Hc in Hr as (l & Hl & Hf & _). exists l. split; [done|]. by apply preceded_none.
  - apply Hc in Hm as (l1 & E1 & F1 & Hq). destruct (φ x) eqn:Hφ.
    + apply Ht in Hx as (l2 & E2 & F2). exists (l1 ++ l2). unfold ran_since in *. split; [by rewrite E2, E1, app_assoc|].
      apply preceded_app; [done|]. right. by eapply Hq.
    + apply (Hk x Hφ) in Hx as (l2 & E2 & F2). exists (l1 ++ l2). unfold ran_since in *. split; [by rewrite E2, E1, app_assoc|].
      apply preceded_app; auto.
Qed.

Lemma calm_site command filename : calm (siteCommand (W := W) command filename).
Proof. apply calm_Run, short_not_reload. Qed.
Lemma calm_backup path : calm (backup b path).
Proof. unfold calm, backup. walk. Qed.
Lemma calm_remove path : calm (remove path).
Proof. unfold calm. walk. Qed.
Lemma calm_restore path saved : calm (restore path saved).
Proof. unfold calm, restore. walk. Qed.
Lemma calm_write path content : calm (write_or_fail path content).
Proof. unfold calm, write_or_fail. walk. Qed.
Lemma calm_switched command path wanted code message : calm (switched b command path wanted code message).
Proof.
  unfold calm, switched. apply only_bind; [apply calm_site|]. intros o. apply only_bind; [apply only_consult|]. intros e. walk.
Qed.
Lemma tests_validate path : tests fst (validateDisabled b path).
Proof.
  unfold validateDisabled. destruct (direct b); [apply tests_configTest|].
  apply tests_bind; [apply only_look|]. intros link. apply tests_bind; [apply calm_remove|]. intros _.
  apply tests_bind; [apply only_touch|]. intros ok. apply tests_bind; [apply only_look|]. intros r.
  destruct ok; cbn [negb]; [apply tests_finally; [apply tests_configTest|apply calm_remove]|].
  intros m out m' [= <- <-]. exists []. unfold ran_since. by rewrite app_nil_r.
Qed.
Lemma tests_tested test refused : tests fst test → tests (λ _, true) (tested (W := W) test refused).
Proof.
  intros Ht. eapply tests_then; [exact Ht|..].
  - intros o. unfold calm. walk.
  - intros o m y m' Hy _. destruct o.1; [done|]. by injection Hy.
Qed.
Lemma any_ignore {A} (c : cmd W A) : only (λ _ _, True) c → only (λ _ _, True) (ignore c).
Proof. apply only_ignore. Qed.
Lemma any_Run name arguments : only (W := W) (λ _ _, True) (Run name arguments).
Proof. unfold Run. walk. Qed.
#[local] Hint Resolve any_Run : commands.

Lemma guarded_create argument : guarded reload_or_restart test_passed (create b argument).
Proof.
  unfold create. apply guarded_bind; [apply only_lift|]. intros p. apply guarded_bind; [apply only_lift|]. intros f.
  apply guarded_bind; [apply only_lift|]. intros content. apply guarded_bind; [apply only_consult|]. intros root.
  apply guarded_bind; [apply only_look|]. intros free. destruct (negb free); [apply guarded_only, only_stop|].
  apply guarded_bind; [apply calm_write|]. intros _.
  eapply guarded_when; [apply tests_undoing; [apply tests_tested, tests_validate|apply calm_remove]|done|].
  intros _. walk.
Qed.
Lemma guarded_update argument : guarded reload_or_restart test_passed (update b argument).
Proof.
  unfold update. apply guarded_bind; [apply only_lift|]. intros p. apply guarded_bind; [apply only_lift|]. intros i.
  apply guarded_bind; [apply only_consult|]. intros path. apply guarded_bind; [apply only_lift|]. intros content.
  apply guarded_bind; [apply only_consult|]. intros enabled. apply guarded_bind; [apply calm_backup|]. intros saved.
  apply guarded_bind; [apply calm_write|]. intros _.
  eapply guarded_when; [apply tests_undoing; [apply tests_tested|apply calm_restore]|done|].
  - destruct enabled; [apply tests_configTest|apply tests_validate].
  - intros _. walk.
Qed.
Lemma guarded_switch command other path wanted code message k (k' : string → cmd W data) :
  (∀ o, calm (k' o)) → only (λ _ _, True) k →
  guarded reload_or_restart test_passed
    (do! _ := switched b command path wanted code message in
     do! o := configTest b in
     if negb o.1 then do! _ := ignore (siteCommand other (path_base path)) in k' o.2 else k).
Proof.
  intros Hk' Hk. apply guarded_bind; [apply calm_switched|]. intros _. eapply guarded_when; [apply tests_configTest|..].
  - intros o ->. cbn [negb]. apply guarded_only, only_bind; [apply only_ignore, calm_site|]. intros _. apply Hk'.
  - intros o. destruct (negb o.1); [|done]. apply only_bind; [apply only_ignore, any_Run|]. intros _.
    eapply only_weaken; [|apply Hk']. done.
Qed.
Lemma guarded_enable identifier : guarded reload_or_restart test_passed (enable b identifier).
Proof.
  unfold enable. apply guarded_bind; [apply only_consult|]. intros path. apply guarded_bind; [apply only_consult|]. intros enabled.
  destruct enabled; [apply guarded_only, only_stop|]. eapply (guarded_switch _ _ _ _ _ _ _ (λ o, stop (configInvalid _ _ o))); [intros o; apply only_stop|]. walk.
Qed.
Lemma guarded_disable identifier : guarded reload_or_restart test_passed (disable b identifier).
Proof.
  unfold disable. apply guarded_bind; [apply only_consult|]. intros path. apply guarded_bind; [apply only_consult|]. intros enabled.
  destruct (negb enabled); [apply guarded_only, only_stop|]. destruct (direct b); [apply guarded_only, only_stop|].
  eapply (guarded_switch _ _ _ _ _ _ _ (λ o, stop (domainError _ _ _ (outputDetails o)))); [intros o; apply only_stop|]. walk.
Qed.
Lemma guarded_delete identifier : guarded reload_or_restart test_passed (delete b identifier).
Proof.
  unfold delete. apply guarded_bind; [apply only_consult|]. intros path. apply guarded_bind; [apply only_consult|]. intros enabled.
  apply guarded_bind; [apply calm_backup|]. intros saved.
  assert (∀ b' : bool, calm (if b' then ignore (siteCommand (W := W) (enableCommand b) (path_base path)) else ret ())) as Hback.
  { intros []; [apply only_ignore, calm_site|apply only_ret]. }
  apply guarded_bind; [destruct (enabled && _); [apply calm_switched|apply only_ret]|]. intros _.
  apply guarded_bind; [apply only_touch|]. intros removed. apply guarded_bind; [apply only_look|]. intros r.
  destruct (negb removed).
  - apply guarded_only, only_bind; [apply Hback|]. intros _. apply only_stop.
  - eapply guarded_when; [apply tests_undoing; [apply tests_configTest|apply calm_restore]|..].
    + intros o ->. cbn [negb]. apply guarded_only, only_bind; [apply calm_restore|]. intros _.
      apply only_bind; [apply Hback|]. intros _. apply only_stop.
    + intros o. walk.
Qed.
Lemma guarded_service : guarded reload_or_restart test_passed (reload (W := W) b) ∧ guarded reload_or_restart test_passed (restart (W := W) b).
Proof.
  split; (eapply guarded_when; [apply tests_tested, tests_configTest|done|]; intros _; walk).
Qed.

Lemma calm_part p : calm (run_part (W := W) b p).
Proof.
  assert (∀ n x, calm (Run (W := W) n [x])) as Hr by (intros n x; apply calm_Run, short_not_reload).
  assert (∀ B n x (k : bool * string → cmd W B), (∀ o, calm (k o)) → calm (bind (Run n [x]) k)) as Hb.
  { intros B n x k Hk. apply only_bind; [apply Hr|exact Hk]. }
  destruct p; cbn [run_part]; [apply Hb|apply Hb| |apply only_consult|apply Hb].
  1, 2, 4: intros o; unfold calm; walk.
  unfold vhosts. apply only_bind; [apply Hb; intros o|intros o]; unfold calm; walk.
Qed.
Lemma calm_overview : calm (overview (W := W) b).
Proof.
  unfold calm, overview. destruct (negb _); [apply only_ret|]. apply only_bind; [apply only_look|]. intros order.
  apply only_bind; [|intros results; walk]. generalize (@nil (part * res Reply data)).
  induction order as [|p l IH]; intros results; cbn [run_parts]; [apply only_ret|].
  apply only_bind; [apply only_attempt, calm_part|]. intros r. apply IH.
Qed.
Lemma guarded_handle command arguments : guarded reload_or_restart test_passed (handle (W := W) b command arguments).
Proof.
  pose proof guarded_create. pose proof guarded_update. pose proof guarded_enable. pose proof guarded_disable.
  pose proof guarded_delete. pose proof guarded_service as [? ?].
  assert (∀ p, guarded reload_or_restart test_passed (run_part (W := W) b p)) as Hp by (intros p; apply guarded_only, calm_part).
  assert (∀ r, guarded reload_or_restart test_passed (stop (W := W) (A := data) r)) as Hs by (intros r; apply guarded_only, only_stop).
  unfold handle. destruct (String.eqb command ""); [done|]. destruct (find _ argumentCounts) as [[c n]|]; [|done].
  destruct (negb _); [done|]. unfold Execute.
  repeat match goal with |- guarded _ _ (if String.eqb command ?c then _ else _) => destruct (String.eqb command c); try done end.
  - apply (Hp Info).
  - apply guarded_only, calm_overview.
  - apply (Hp ConfigTest).
  - apply (Hp VHosts).
  - unfold config. destruct (negb _); [done|]. apply guarded_only, only_bind; [|intros o; apply only_consult].
    apply only_bind; [apply calm_Run, short_not_reload|]. intros o. walk.
  - apply (Hp Sites).
  - apply guarded_only, only_consult.
  - apply (Hp Modules).
Qed.

(** C14: Apache is reloaded, and its restart scheduled, only after a test of its
    configuration that passed during the same command, whichever the command, also when
    a change is undone. *)
Theorem apache_reloads_tested command arguments m :
  ∃ l, ran_since m (Handle b command arguments m).2 l ∧ preceded reload_or_restart test_passed l.
Proof.
  destruct (handle b command arguments m) as [out m'] eqn:E. unfold Handle. rewrite (serve_machine _ _ _ _ E).
  by apply guarded_handle in E.
Qed.

(** ** What a refused command leaves

    The files but the backups and the names of the validation links. *)
Definition scratch (p : string) : Prop := (∃ w path, p = backupPath b w path) ∨ (∃ w, p = validationLink b w).
Definition same (F : gmap string string) w : Prop := ∀ p, ¬ scratch p → files w !! p = F !! p.
(** An assertion on the files that does not look at the validation links. *)
Definition stable (P : W → Prop) : Prop :=
  ∀ w w', (∀ p, (∀ v, p ≠ validationLink b v) → files w' !! p = files w !! p) → P w → P w'.
(** The site has the content [o], the others the one they had; its backup was made. *)
Definition held (F : gmap string string) path (saved : string) (o : option string) w : Prop :=
  (∀ p, ¬ scratch p → p ≠ path → files w !! p = F !! p) ∧
  (¬ scratch path → files w !! saved = F !! path ∧ files w !! path = o).

Section undone.
Hypothesis every_write : writable W.
Hypothesis every_removal : ∀ w p, may_remove w p = true.
(** The programs of Apache and systemd do not write the files of sites. *)
Hypothesis exec_files : ∀ w n a, files (exec w n a).1 = files w.
(** The backups are not where the sites are enabled. *)
Hypothesis apart : ∀ w w' path, backupPath b w path ≠ validationLink b w'.

Lemma same_stable F : stable (same F).
Proof. intros w w' Hw Hs p Hp. rewrite Hw; [by apply Hs|]. intros v ->. apply Hp. right. by exists v. Qed.
Lemma held_stable F path v saved o : saved = backupPath b v path → stable (held F path saved o).
Proof.
  intros -> w w' Hw [H1 H2]. assert (∀ p, ¬ scratch p → ∀ u, p ≠ validationLink b u) as Hn.
  { intros p Hp u ->. apply Hp. right. by exists u. }
  split.
  - intros p Hp Hne. rewrite Hw by by apply Hn. by apply H1.
  - intros Hp. rewrite (Hw (backupPath b v path)) by (intros u; apply apart). rewrite (Hw path) by by apply Hn. by apply H2.
Qed.
Lemma held_same F path saved o w : held F path saved o w → same (partial_alter (λ _, o) path F) w.
Proof.
  intros [H1 H2] p Hp. destruct (decide (path = p)) as [->|Hne].
  - rewrite lookup_partial_alter_eq. by apply H2.
  - rewrite lookup_partial_alter_ne by done. apply H1; [done|]. by intros ->.
Qed.
Lemma held_first F path saved w : held F path saved (F !! path) w → same F w.
Proof. intros Hh%held_same. by rewrite partial_alter_self in Hh. Qed.

Lemma keeps_Run P name arguments : stable P → keeps P (Run name arguments).
Proof.
  intros HP. unfold Run. apply keeps_bind; [|intros o; hold]. apply triple_run. intros w. apply HP. intros p _. by rewrite exec_files.
Qed.
Lemma Remove_files path w : files (Remove path w).2 = base.delete path (files w).
Proof.
  unfold Remove, remove_at. destruct (files w !! path) eqn:E.
  - rewrite every_removal. cbn [snd]. by rewrite files_set.
  - rewrite (delete_id (files w) path) by done. destruct (links w !! path); [|done]. rewrite every_removal. apply files_links.
Qed.
Lemma keeps_validate P path : stable P → keeps P (validateDisabled b path).
Proof.
  intros HP. unfold validateDisabled. destruct (direct b); [by apply keeps_Run|].
  assert (∀ v, keeps P (remove (validationLink b v))) as Hr.
  { intros v. apply keeps_ignore, triple_touch. intros w. apply HP. intros p Hp. rewrite Remove_files.
    apply lookup_delete_ne. intros Hl. by apply (Hp v). }
  eapply triple_bind; [apply triple_look with (Q := λ l w, P w ∧ ∃ v, l = validationLink b v)|].
  { intros w Hw. split; [done|]. by exists w. }
  intros link m [Hm (v & ->)]. revert m Hm. change (keeps P (do! _ := remove (validationLink b v) in
    do! ok := touch (Symlink path (validationLink b v)) in
    do! r := failing "APACHE_SITE_VALIDATION_FAILED" "Le site Apache ne peut pas être validé." (validationLink b v) in
    if negb ok then stop r else finally (configTest b) (remove (validationLink b v)))).
  apply keeps_bind; [apply Hr|]. intros _. apply keeps_bind.
  { apply triple_touch. intros w. apply HP. intros p _. unfold Symlink. destruct (may_link _ _); [|done]. cbn [snd]. by rewrite files_links. }
  intros ok. apply keeps_bind; [apply keeps_look|]. intros r. destruct (negb ok); [apply keeps_stop|].
  apply keeps_finally; [by apply keeps_Run|apply Hr].
Qed.
Lemma keeps_tested P test refused : keeps P test → keeps P (tested (W := W) test refused).
Proof. intros Ht. unfold tested. apply keeps_bind; [done|]. intros o. hold. Qed.
Lemma keeps_reloaded P message : stable P → keeps P (reloaded (W := W) b message).
Proof. intros HP. unfold reloaded. apply keeps_bind; [by apply keeps_Run|]. intros o. hold. Qed.
Lemma keeps_switched P command path wanted code message : stable P → keeps P (switched b command path wanted code message).
Proof. intros HP. unfold switched. apply keeps_bind; [by apply keeps_Run|]. intros o. hold. Qed.

Lemma backup_held w0 path :
  triple (λ w, w = w0) (backup b path)
    (λ saved w, held (files w0) path saved (files w0 !! path) w ∧
      (∃ v, saved = backupPath b v path) ∧ is_Some (files w0 !! path)) (same (files w0)).
Proof.
  unfold backup. eapply triple_bind; [apply triple_touch with (Q := λ _ w, files w = files w0)|].
  { intros w ->. apply files_directory. }
  intros made. apply triple_look_bind. intros r. destruct (negb made).
  { apply triple_stop. intros w [Hw _] p _. by rewrite Hw. }
  apply triple_look_bind. intros content. apply triple_look_bind. intros r'. destruct content as [content|].
  2: { apply triple_stop. intros w [[[Hw _] _] _] p _. by rewrite Hw. }
  apply triple_look_bind. intros saved.
  eapply triple_bind; [apply triple_touch with (Q := λ _ w, (∃ v, saved = backupPath b v path) ∧
    files w = <[saved := content]> (files w0) ∧ files w0 !! path = Some content)|].
  { intros w [[[[Hw _] Hc] _] <-]. unfold WriteFile. rewrite every_write. cbn [snd]. rewrite files_set, Hw.
    split; [by exists w|]. split; [done|]. by rewrite <- Hw. }
  intros ok. apply triple_look_bind. intros r''. destruct (negb ok).
  - apply triple_stop. intros w [((v & ->) & Hw & _) _] p Hp. rewrite Hw. apply lookup_insert_ne. intros <-.
    apply Hp. left. by eexists _, _.
  - apply triple_ret. intros w [((v & ->) & Hw & Hc) _]. split; [|split; [by exists v|by eexists]]. unfold held. rewrite Hw. split.
    + intros p Hp Hne. apply lookup_insert_ne. intros <-. apply Hp. left. by eexists _, _.
    + intros Hp. rewrite lookup_insert_eq. split; [done|]. apply lookup_insert_ne. intros He. apply Hp. left. exists v, path. by symmetry.
Qed.
Lemma restore_same F path v saved o : saved = backupPath b v path → is_Some (F !! path) →
  triple (held F path saved o) (restore path saved) (λ _, same F) (same F).
Proof.
  intros -> [c Hc]. unfold restore. apply triple_look_bind. intros content. destruct content as [content|].
  - apply triple_ignore, triple_touch. intros w [[H1 H2] Hr]. unfold WriteFile. rewrite every_write. cbn [snd].
    intros p Hp. rewrite files_set. destruct (decide (path = p)) as [->|Hne].
    + rewrite lookup_insert_eq. destruct (H2 Hp) as [Hs _]. congruence.
    + rewrite lookup_insert_ne by done. apply H1; [done|]. by intros ->.
  - apply triple_ret. intros w [[H1 H2] Hr] p Hp. destruct (decide (path = p)) as [->|Hne].
    + destruct (H2 Hp) as [Hs _]. rewrite Hr in Hs. congruence.
    + apply H1; [done|]. by intros ->.
Qed.

Lemma write_held F path v saved o content : saved = backupPath b v path →
  triple (held F path saved o) (write_or_fail path content) (λ _, held F path saved (Some content)) (held F path saved o).
Proof.
  intros ->. unfold write_or_fail. eapply triple_bind; [apply triple_touch with (Q := λ ok w, ok = true ∧ held F path (backupPath b v path) (Some content) w)|].
  - intros w [H1 H2]. rewrite write_at_ok by done. split; [done|]. cbn [snd]. split; rewrite files_set.
    + intros p Hp Hne. rewrite lookup_insert_ne by done. by apply H1.
    + intros Hp. rewrite lookup_insert_eq. split; [|done]. rewrite lookup_insert_ne; [by apply H2|]. intros He. apply Hp.
      left. by exists v, path.
  - intros ok. apply triple_look_bind. intros r. destruct ok; cbn [negb]; [apply triple_ret; by intros w [[_ ?] _]|].
    apply triple_stop. by intros w [[? _] _].
Qed.
(** A step undone by the restoration of the site. *)
Lemma undo_held {A} F path v saved o (c : cmd W A) (k : cmd W ()) : saved = backupPath b v path → is_Some (F !! path) →
  keeps (held F path saved o) c → keeps (same F) k →
  triple (held F path saved o) (undoing c (do! _ := restore path saved in k)) (λ _, held F path saved o) (same F).
Proof.
  intros Hs HF Hc Hk. eapply triple_undoing; [exact Hc|]. eapply triple_bind; [by eapply restore_same|]. intros ?. exact Hk.
Qed.
Lemma undo_held_only {A} F path v saved o (c : cmd W A) : saved = backupPath b v path → is_Some (F !! path) →
  keeps (held F path saved o) c → triple (held F path saved o) (undoing c (restore path saved)) (λ _, held F path saved o) (same F).
Proof. intros Hs HF Hc. eapply triple_undoing; [exact Hc|]. by eapply restore_same. Qed.

Lemma update_same w0 argument :
  triple (λ w, w = w0) (update b argument)
    (λ _ w, ∃ payload identifier path content, parsePayload argument = Ok payload ∧ ConfigID payload = Some identifier ∧
       sitePath b identifier w0 = Ok path ∧ decodeContent payload = Ok content ∧ same (<[path := content]> (files w0)) w)
    (same (files w0)).
Proof.
  assert (∀ w, w = w0 → same (files w0) w) as Hw by by intros w ->.
  unfold update. apply triple_lift_bind; [intros payload Hp|done]. apply triple_lift_bind; [intros identifier Hi|done].
  apply triple_consult_at; [intros path Hpath|by apply Hw]. apply triple_lift_bind; [intros content Hc|done].
  apply triple_consult_at; [intros enabled _|by apply Hw].
  eapply triple_bind; [apply backup_held|]. intros saved. apply triple_given. intros [(v & Hs) HF].
  eapply triple_bind; [eapply triple_weaken; [by eapply write_held|done|done|apply held_first]|]. intros [].
  assert (stable (held (files w0) path saved (Some content))) as Hst by by eapply held_stable.
  eapply triple_bind; [eapply undo_held_only; [done|done|]|intros []].
  { apply keeps_tested. destruct enabled; [by apply keeps_Run|by apply keeps_validate]. }
  eapply (triple_bind _ _ _ (λ _, held (files w0) path saved (Some content))).
  - destruct enabled; [|by apply triple_ret]. eapply undo_held; [done|done|by apply keeps_reloaded|].
    apply keeps_ignore, keeps_Run, same_stable.
  - intros []. apply triple_ret. intros w Hh%held_same. exists payload, identifier, path, content.
    destruct (ConfigID payload); [|done]. injection Hi as ->. done.
Qed.

(** A step undone by the removal of the new site. *)
Lemma undo_new {A} F path content (c : cmd W A) : F !! path = None → keeps (same (<[path := content]> F)) c →
  triple (same (<[path := content]> F)) (undoing c (remove path)) (λ _, same (<[path := content]> F)) (same F).
Proof.
  intros HF Hc. eapply triple_undoing; [exact Hc|]. apply triple_ignore, triple_touch. intros w Hs p Hp.
  rewrite Remove_files. destruct (decide (path = p)) as [->|Hne].
  - by rewrite lookup_delete_eq.
  - rewrite lookup_delete_ne, (Hs p Hp) by done. by apply lookup_insert_ne.
Qed.
Lemma create_same w0 argument :
  triple (λ w, w = w0) (create b argument)
    (λ _ w, ∃ payload filename root content, parsePayload argument = Ok payload ∧ Filename payload = Some filename ∧
       EvalSymlinks w0 (sitesAvailable b) = Some root ∧ decodeContent payload = Ok content ∧
       same (<[Join root filename := content]> (files w0)) w)
    (same (files w0)).
Proof.
  assert (∀ w, w = w0 → same (files w0) w) as Hw by by intros w ->.
  unfold create. apply triple_lift_bind; [intros payload Hp|done]. apply triple_lift_bind; [intros filename Hf|done].
  apply triple_lift_bind; [intros content Hc|done]. apply triple_consult_at; [intros root Hr|by apply Hw].
  apply triple_look_at. destruct (vacant w0 (Join root filename)) eqn:Hv; cbn [negb]; [|by apply triple_stop].
  apply vacant_files in Hv. set (path := Join root filename) in *.
  eapply (triple_bind _ _ _ (λ _, same (<[path := content]> (files w0)))); [|intros ?].
  { unfold write_or_fail. eapply triple_bind; [apply triple_touch with (Q := λ ok w, ok = true ∧ same (<[path := content]> (files w0)) w)|].
    - intros w ->. rewrite write_at_ok by done. split; [done|]. intros p _. cbn [snd]. by rewrite files_set.
    - intros ok. apply triple_look_bind. intros r. destruct ok; cbn [negb]; [apply triple_ret|apply triple_stop]; by intros w [[? ?] _]. }
  eapply triple_bind; [apply undo_new; [done|apply keeps_tested, keeps_validate, same_stable]|intros ?].
  eapply (triple_bind _ _ _ (λ _, same (<[path := content]> (files w0)))); [|intros ?].
  - destruct (direct b); [|by apply triple_ret]. apply undo_new; [done|apply keeps_reloaded, same_stable].
  - apply triple_look. intros w Hs. exists payload, filename, root, content. split; [done|].
    destruct (EvalSymlinks w0 (sitesAvailable b)) as [r|]; [|done]. injection Hr as ->.
    destruct (Filename payload) as [f|]; [|done]. destruct (_ && _); [|done]. by injection Hf as ->.
Qed.
Lemma remove_held F path v saved o w : saved = backupPath b v path → held F path saved o w →
  if (Remove path w).1 then held F path saved None (Remove path w).2 else held F path saved o (Remove path w).2.
Proof.
  intros Hs Hh. pose proof Hh as [H1 H2]. unfold Remove, remove_at. destruct (files w !! path) as [c|] eqn:Hc.
  - rewrite every_removal. cbn [fst snd]. split; rewrite files_set.
    + intros p Hp Hne. rewrite lookup_delete_ne by done. by apply H1.
    + intros Hp. rewrite lookup_delete_eq. split; [|done]. rewrite lookup_delete_ne; [by apply H2|]. intros He. apply Hp.
      left. exists v, path. by rewrite <- Hs.
  - destruct (links w !! path); [|done]. rewrite every_removal. cbn [fst snd]. split; rewrite files_links; [done|].
    intros Hp. split; [by apply H2|done].
Qed.
Lemma delete_same w0 identifier :
  triple (λ w, w = w0) (delete b identifier)
    (λ _ w, ∃ path, sitePath b identifier w0 = Ok path ∧ same (base.delete path (files w0)) w) (same (files w0)).
Proof.
  assert (∀ w, w = w0 → same (files w0) w) as Hw by by intros w ->.
  unfold delete. apply triple_consult_at; [intros path Hpath|by apply Hw]. apply triple_consult_at; [intros enabled _|by apply Hw].
  eapply triple_bind; [apply backup_held|]. intros saved. apply triple_given. intros [(v & Hs) HF].
  set (F := files w0) in *. assert (∀ o, stable (held F path saved o)) as Hst by (intros o; by eapply held_stable).
  assert (∀ P (b' : bool), stable P → keeps P (if b' then ignore (siteCommand (W := W) (enableCommand b) (path_base path)) else ret ())) as Hback.
  { intros P [] HP; [by apply keeps_ignore, keeps_Run|apply keeps_ret]. }
  eapply (triple_bind _ _ _ (λ _, held F path saved (F !! path))); [|intros ?].
  { apply triple_keeps; [|apply held_first]. destruct (enabled && _); [by apply keeps_switched|apply keeps_ret]. }
  eapply triple_bind; [apply triple_touch with (Q := λ removed w, if removed : bool then held F path saved None w else held F path saved (F !! path) w)|].
  { intros w. by eapply remove_held. }
  intros removed. apply triple_look_bind. intros r. destruct removed; cbn [negb].
  - eapply triple_pre; [|intros w [Hh _]; exact Hh].
    eapply triple_bind; [eapply undo_held_only; [done|done|by apply keeps_Run]|]. intros o. destruct (negb o.1).
    + eapply triple_bind; [eapply triple_post; [by eapply restore_same|]|intros ?].
      { intros ? w Hh. exact Hh. }
      eapply triple_bind; [apply Hback, same_stable|]. intros ?. by apply triple_stop.
    + eapply (triple_bind _ _ _ (λ _, held F path saved None)).
      * destruct enabled; [|by apply triple_ret]. eapply undo_held; [done|done|by apply keeps_reloaded|].
        apply keeps_bind; [apply Hback, same_stable|]. intros ?. apply keeps_ignore, keeps_Run, same_stable.
      * intros ?. apply triple_ret. intros w Hh%held_same. by exists path.
  - eapply triple_pre; [|intros w [Hh _]; exact Hh].
    eapply triple_bind; [apply triple_keeps; [by apply Hback|apply held_first]|]. intros ?. apply triple_stop, held_first.
Qed.

(** What the commands promise of the files: the next contents, when the command succeeds. *)
Definition promised (command argument : string) w : option (gmap string string) :=
  if String.eqb command "create" then
    match parsePayload argument with
    | Ok p => match Filename p, decodeContent p, EvalSymlinks w (sitesAvailable b) with
              | Some filename, Ok content, Some root => Some (<[Join root filename := content]> (files w))
              | _, _, _ => None
              end
    | Err _ => None
    end
  else if String.eqb command "update" then
    match parsePayload argument with
    | Ok p => match ConfigID p with
              | Some identifier =>
                  match sitePath b identifier w, decodeContent p with
                  | Ok path, Ok content => Some (<[path := content]> (files w))
                  | _, _ => None
                  end
              | None => None
              end
    | Err _ => None
    end
  else if String.eqb command "delete" then
    match sitePath b argument w with Ok path => Some (base.delete path (files w)) | Err _ => None end
  else Some (files w).
Definition promise (command : string) (arguments : list string) : W → option (gmap string string) :=
  promised command (default "" (head arguments)).

Lemma keeps_part F p : keeps (same F) (run_part b p).
Proof.
  assert (∀ B n x (k : bool * string → cmd W B), (∀ o, keeps (same F) (k o)) → keeps (same F) (bind (Run n [x]) k)) as Hb.
  { intros B n x k Hk. apply keeps_bind; [apply keeps_Run, same_stable|exact Hk]. }
  destruct p; cbn [run_part]; [apply Hb|apply Hb| |apply keeps_consult|apply Hb].
  1, 2, 4: intros o; hold.
  unfold vhosts. apply keeps_bind; [apply Hb; intros o|intros o]; hold.
Qed.
Lemma keeps_overview F : keeps (same F) (overview b).
Proof.
  unfold overview. destruct (negb _); [apply keeps_ret|]. apply keeps_bind; [apply keeps_look|]. intros order.
  apply keeps_bind; [|intros results; hold]. generalize (@nil (part * res Reply data)).
  induction order as [|p l IH]; intros results; cbn [run_parts]; [apply keeps_ret|].
  apply keeps_bind; [apply keeps_attempt, keeps_part|]. intros r. apply IH.
Qed.
Lemma keeps_switches F identifier : keeps (same F) (enable b identifier) ∧ keeps (same F) (disable b identifier).
Proof.
  assert (∀ command path, keeps (same F) (ignore (siteCommand (W := W) command path))) as Hs
    by (intros; apply keeps_ignore, keeps_Run, same_stable).
  assert (∀ command path wanted code message, keeps (same F) (switched b command path wanted code message)) as Hw
    by (intros; apply keeps_switched, same_stable).
  assert (keeps (same F) (ignore (reloadCommand (W := W) b))) as Hr by apply keeps_ignore, keeps_Run, same_stable.
  assert (∀ message, keeps (same F) (reloaded (W := W) b message)) as Hl by (intros; apply keeps_reloaded, same_stable).
  assert (keeps (same F) (configTest (W := W) b)) as Ht by apply keeps_Run, same_stable.
  split; [unfold enable|unfold disable];
    repeat first [apply Hs | apply Hw | apply Hr | apply Hl | apply Ht | keeps_step].
Qed.
Lemma keeps_service F : keeps (same F) (reload (W := W) b) ∧ keeps (same F) (restart (W := W) b).
Proof.
  assert (∀ n a, keeps (same F) (Run n a)) as Hr by (intros; apply keeps_Run, same_stable).
  split; [unfold reload|unfold restart]; (apply keeps_bind; [apply keeps_tested, Hr|]; intros ?;
    apply keeps_bind; [apply Hr|]; intros o; hold).
Qed.

Lemma keeps_promised {A} w0 command argument (c : cmd W A) : keeps (same (files w0)) c → promised command argument w0 = Some (files w0) →
  triple (λ w, w = w0) c (λ _ w, ∃ F, promised command argument w0 = Some F ∧ same F w) (same (files w0)).
Proof.
  intros Hc Hp. eapply triple_weaken; [exact Hc|by intros w ->| |done]. intros x w Hs. by eexists.
Qed.
Lemma config_keeps F identifier : keeps (same F) (config b identifier).
Proof.
  unfold config, apacheS. destruct (negb _); [apply keeps_stop|]. apply keeps_bind; [|intros o; hold].
  apply keeps_bind; [apply keeps_Run, same_stable|intros o; hold].
Qed.
Lemma execute_same w0 command argument :
  triple (λ w, w = w0) (Execute b command argument)
    (λ _ w, ∃ F, promised command argument w0 = Some F ∧ same F w) (same (files w0)).
Proof.
  pose proof (keeps_switches (files w0) argument) as [He Hd]. pose proof (keeps_service (files w0)) as [Hr Ht].
  unfold Execute.
  repeat match goal with |- triple _ (if String.eqb command ?c then _ else _) _ _ =>
    destruct (String.eqb_spec command c) as [->|?] end.
  all: try (apply keeps_promised; [first [done | apply (keeps_part _ Info) | apply (keeps_part _ ConfigTest) | apply (keeps_part _ VHosts)
    | apply (keeps_part _ Sites) | apply (keeps_part _ Modules) | apply keeps_overview | apply config_keeps | apply keeps_consult]|done]).
  - eapply triple_post; [apply create_same|]. intros d w (p & f & root & content & Hp & Hf & He' & Hc & Hs).
    eexists. split; [|exact Hs]. unfold promised. by rewrite Hp, Hf, Hc, He'.
  - eapply triple_post; [apply update_same|]. intros d w (p & i & path & content & Hp & Hi & He' & Hc & Hs).
    eexists. split; [|exact Hs]. unfold promised. by rewrite Hp, Hi, Hc, He'.
  - eapply triple_post; [apply delete_same|]. intros d w (path & Hp & Hs).
    eexists. split; [|exact Hs]. unfold promised. by rewrite Hp.
  - apply triple_stop. by intros w ->.
Qed.
Lemma handle_same w0 command arguments :
  triple (λ w, w = w0) (handle b command arguments)
    (λ _ w, ∃ F, promise command arguments w0 = Some F ∧ same F w) (same (files w0)).
Proof.
  assert (∀ r, triple (A := data) (λ w, w = w0) (stop r)
    (λ _ w, ∃ F, promise command arguments w0 = Some F ∧ same F w) (same (files w0))) as Hs.
  { intros r. apply triple_stop. by intros w ->. }
  unfold handle. destruct (String.eqb command ""); [done|]. destruct (find _ argumentCounts) as [[c n]|] eqn:E; [|done].
  destruct (Nat.eqb_spec (List.length arguments) n) as [Hn|]; cbn [negb]; [|done].
  eapply triple_post; [apply execute_same|]. intros d w (F & HF & Hw). exists F. split; [|done]. rewrite <- HF.
  unfold promise, promised. apply find_some in E as [Hin He]. cbn in He. apply String.eqb_eq in He as <-.
  cbn in Hin. destruct_or! Hin; simplify_eq; destruct arguments as [|x [|y l]]; done.
Qed.

(** C13: The commands on sites do what an abstract map of the files says, or nothing.  A
    success has the files that [promise] gives: the decoded content under the new name or
    in place of the site, or the site removed; a refusal, whatever the step that failed,
    leaves every file as it was.  Apart are the backups kept and the names of the links
    used for validation.  The writes and the removals succeed, and the programs leave the files
    alone. *)
Theorem apache_refines command arguments m :
  let (r, m') := Handle b command arguments m in
  if Api.resp_success (Api.Resp r)
  then ∃ F, promise command arguments (inside m) = Some F ∧ same F (inside m')
  else same (files (inside m)) (inside m').
Proof.
  pose proof (handle_same (inside m) command arguments m eq_refl) as Hh.
  pose proof (apache_refuses command arguments m) as Hr.
  unfold Handle, serve. destruct (handle b command arguments m) as [[d|r] m']; [done|].
  destruct (Hr r m' eq_refl) as [_ ->]. done.
Qed.
End undone.

(** ** The order of the overview *)

(** A command whose answer depends on the machine only, and that leaves it as it was. *)
Definition steady {A} (c : cmd W A) : Prop :=
  ∀ m m0, inside m = inside m0 → (c m).1 = (c m0).1 ∧ inside (c m).2 = inside m.
Lemma steady_bind {A B} (c : cmd W A) (k : A → cmd W B) : steady c → (∀ x, steady (k x)) → steady (bind c k).
Proof.
  intros Hc Hk m m0 Hm. unfold bind. destruct (Hc m m0 Hm) as [H1 H2]. destruct (Hc m0 m0 eq_refl) as [_ H3].
  destruct (c m) as [[x|r] m1], (c m0) as [[y|s] m2]; cbn in *; simplify_eq; [|done].
  destruct (Hk y m1 m2) as [H4 H5]; [congruence|]. split; [done|congruence].
Qed.
Lemma steady_pure {A} (f : W → res Reply A) : steady (consult f).
Proof. intros m m0 Hm. unfold consult. cbn. by rewrite Hm. Qed.
Lemma steady_Run name arguments : (∀ w n a, (exec w n a).1 = w) → steady (Run name arguments).
Proof.
  intros He. unfold Run. apply steady_bind.
  - intros m m0 Hm. unfold run. specialize (He (inside m) name arguments). rewrite <- Hm.
    destruct (exec (inside m) name arguments) as [w o]. by cbn in *.
  - intros o m m0 Hm. destruct (status o =? -1), (status o =? -2); by cbn.
Qed.
Lemma steady_part p : (∀ w n a, (exec w n a).1 = w) → steady (run_part b p).
Proof.
  intros He. pose proof (λ n a, steady_Run n a He) as Hr.
  assert (∀ A (x : A), steady (ret x)) as Ht by (intros A x m m0 Hm; done).
  assert (∀ A r, steady (stop (A := A) r)) as Hs by (intros A r m m0 Hm; done).
  destruct p; cbn [run_part]; [| | |apply steady_pure|]; (apply steady_bind; [|intros x]).
  - apply Hr.
  - destruct (negb x.1); [apply Hs|]. destruct (info_line _ _). destruct (String.eqb _ _); [apply Hs|apply Ht].
  - apply Hr.
  - apply Ht.
  - apply steady_bind; [apply Hr|]. intros o. destruct (negb o.1); [apply Hs|apply Ht].
  - apply steady_bind; [|intros l; apply Ht]. intros m m0 Hm. unfold look. cbn. by rewrite Hm.
  - apply Hr.
  - destruct (negb x.1); [apply Hs|apply Ht].
Qed.
(** Each part answered by itself, in the order of the code. *)
Definition answers (m : Machine W) : res Reply data :=
  collected ((λ p, (p, (run_part b p m).1)) <$> parts) parts.

Lemma run_parts_results l : (∀ w n a, (exec w n a).1 = w) → ∀ results m m0, inside m = inside m0 →
  (run_parts b l results m).1 = Ok (rev ((λ p, (p, (run_part b p m0).1)) <$> l) ++ results).
Proof.
  intros He. induction l as [|p l IH]; intros results m m0 Hm; [done|]. cbn [run_parts]. unfold bind, attempt.
  destruct (steady_part p He m m0 Hm) as [H1 H2]. destruct (run_part b p m) as [o m1]. cbn in H1, H2.
  rewrite (IH _ m1 m0) by congruence. cbn. by rewrite H1, <- app_assoc.
Qed.
Lemma result_of_map (f : part → res Reply data) l p : p ∈ l → NoDup l →
  result_of ((λ q, (q, f q)) <$> l) p = Some (f p).
Proof.
  unfold result_of. intros Hp _. induction l as [|q l IH]; [by apply not_elem_of_nil in Hp|]. cbn.
  destruct (bool_decide_reflect (q = p)) as [->|Hne]; [done|]. apply IH. set_solver.
Qed.
Lemma collected_map (f : part → res Reply data) l l' ps : l ≡ₚ l' → NoDup l → (∀ p, p ∈ ps → p ∈ l) →
  collected ((λ q, (q, f q)) <$> l) ps = collected ((λ q, (q, f q)) <$> l') ps.
Proof.
  intros Hl Hn. induction ps as [|p ps IH]; intros Hp; [done|]. cbn [collected].
  assert (p ∈ l) as Hin by (apply Hp; by left). assert (∀ q, q ∈ ps → q ∈ l) as Hps by (intros q Hq; apply Hp; by right).
  rewrite (result_of_map f l p Hin Hn), (IH Hps). by rewrite (result_of_map f l' p) by (by rewrite <- Hl).
Qed.

(** The overview does not depend on the order in which its five goroutines end: when
    the programs only report, its reply is that of the five operations asked one by one,
    in the order of the code, the first error winning. *)
Theorem overview_order m :
  (∀ w n a, (exec w n a).1 = w) → executable (apacheBinary b) = true →
  (overview b m).1 = res_map (λ d, ("installed", VBool true) :: d) (answers m).
Proof.
  intros He Hx. unfold overview. rewrite Hx. cbn [negb]. rewrite bind_look.
  pose proof (run_parts_results (arrival (inside m)) He [] m m eq_refl) as Hr. unfold bind.
  destruct (run_parts b (arrival (inside m)) [] m) as [out m1]. cbn in Hr. subst out. rewrite app_nil_r.
  assert (NoDup parts) as Hn by (repeat constructor; set_solver).
  assert (collected (rev ((λ p, (p, (run_part b p m).1)) <$> arrival (inside m))) parts = answers m) as ->.
  { pose proof (arrival_parts (inside m)) as Ha.
    change (rev ((λ p, (p, (run_part b p m).1)) <$> arrival (inside m)))
      with (rev (map (λ p, (p, (run_part b p m).1)) (arrival (inside m)))).
    rewrite <- map_rev. apply (collected_map (λ p, (run_part b p m).1)).
    - by rewrite <- Permutation_rev.
    - by rewrite <- Permutation_rev, Ha.
    - intros p. by rewrite <- Permutation_rev, Ha. }
  unfold lift, res_map. by destruct (answers m).
Qed.
End facts.

(** ** What the web program sends *)

Lemma json_prefix_text v : json_ok max_depth v = true → json_prefix (json_text v) = Some (to_json v, "").
Proof.
  intros Hv. unfold json_prefix, fuel_of. rewrite <- (sapp_nil_r (json_text v)), (skip_text v "" max_depth Hv).
  rewrite (value_text v max_depth Hv); [done| |done]. rewrite sapp_nil_r. pose proof (cost_bound v max_depth Hv). lia.
Qed.
Lemma std_char_base64 s : sforall std_char s = true → ∀ pad, pad ∈ [""; "="; "=="] → full base64Pattern (s +++ pad) = true.
Proof.
  intros Hs pad Hp. unfold full, base64Pattern. apply rx_match_spec, Lang_cat. exists s, pad. split; [done|]. split.
  - apply Lang_star_cls. eapply sforall_impl; [|exact Hs]. intros c. destruct c as [[] [] [] [] [] [] [] []]; by vm_compute.
  - apply rx_match_spec. set_unfold in Hp. by destruct_or! Hp; subst.
Qed.
(** A content the domain accepts. *)
Definition site_content (s : string) : Prop :=
  s ≠ "" ∧ slen s <= maximumSiteSize ∧ contains_byte nul s = false ∧ valid_utf8 s = true.
Lemma decodeContent_padded f i s : site_content s →
  decodeContent (mkPayload f i (Some (b64_padded s))) = Ok (if has_suffix s snl then s else s +++ snl).
Proof.
  intros (Hne & Hlen & Hnul & Hv). unfold decodeContent. cbn [Content from_option_res res_bind].
  assert (full base64Pattern (b64_padded s) = true) as ->.
  { apply std_char_base64; [apply b64_encode_std|]. destruct (String.length s mod 3)%nat as [|[|?]]; set_solver. }
  assert (String.eqb (b64_padded s) "" = false) as ->.
  { apply String.eqb_neq. intros He. pose proof (b64_padded_read true s) as Hr. rewrite He in Hr. by injection Hr. }
  cbn [negb andb]. rewrite b64_padded_read. cbn [from_option_res res_bind].
  rewrite (proj2 (String.eqb_neq s "") Hne), (proj2 (Z.leb_le _ _) Hlen), Hnul, Hv. done.
Qed.

(** What the page of a site sends, the domain writes: the arguments that the web
    program builds for a creation and an update are read back as the name or the
    identifier, and the text given, with an end of line at its end. *)
Theorem site_payload_read name s : site_content s →
  parsePayload (json_object [("content", json_quote (b64_padded s)); ("filename", json_quote name)])
    = Ok (mkPayload (Some (to_text name)) None (Some (b64_padded s))) ∧
  parsePayload (json_object [("config_id", json_quote name); ("content", json_quote (b64_padded s))])
    = Ok (mkPayload None (Some (to_text name)) (Some (b64_padded s))) ∧
  ∀ f i, decodeContent (mkPayload f i (Some (b64_padded s))) = Ok (if has_suffix s snl then s else s +++ snl).
Proof.
  intros Hs. assert (to_text (b64_padded s) = b64_padded s) as Ht.
  { unfold b64_padded. apply to_text_ascii. rewrite sforall_app. apply andb_true_intro. split.
    - eapply sforall_impl; [|apply b64_encode_std]. intros c. destruct c as [[] [] [] [] [] [] [] []]; by vm_compute.
    - by destruct (String.length s mod 3)%nat as [|[|?]]. }
  split; [|split; [|intros f i; by apply decodeContent_padded]].
  - change (json_object _) with (json_text (JObj [("content", JStr (b64_padded s)); ("filename", JStr name)])).
    unfold parsePayload. rewrite json_prefix_text by done. cbn [to_json map fst snd]. rewrite Ht. unfold payload_of.
    read_fields. done.
  - change (json_object _) with (json_text (JObj [("config_id", JStr name); ("content", JStr (b64_padded s))])).
    unfold parsePayload. rewrite json_prefix_text by done. cbn [to_json map fst snd]. rewrite Ht. unfold payload_of.
    read_fields. done.
Qed.
Lemma site_payload_read_witness : site_content "<VirtualHost *:80>" ∧
  decodeContent (mkPayload None None (Some "PFZpcnR1YWxIb3N0ICo6ODA+")) = Ok ("<VirtualHost *:80>" +++ snl).
Proof.
  split; [by split_and!|]. by apply (site_payload_read "a.conf" "<VirtualHost *:80>").
Defined.

(** ** A host *)

Record house := mkHouse { h_files : gmap string string; h_links : gmap string string }.
Definition in_directory (d p : string) : bool := String.eqb (Dir p) d.
Definition house_entries (w : house) (d : string) : list Entry :=
  ((λ p, mkEntry (path_base p) false) <$> filter (λ p, in_directory d p = true) (map_to_list (h_files w)).*1) ++
  ((λ p, mkEntry (path_base p) true) <$> filter (λ p, in_directory d p = true) (map_to_list (h_links w)).*1).
#[global] Instance house_system : FileSystem house.
Proof.
  refine {| files := h_files; set_files fs w := mkHouse fs (h_links w); may_write _ _ _ := true; may_remove _ _ := true |}.
  done.
Defined.
#[global] Instance house_host : ApacheHost house.
Proof.
  refine {| ReadDir w d := Some (house_entries w d); EvalSymlinks w p := Some (default p (h_links w !! p));
    Stat w p := (λ c, (true, slen c)) <$> h_files w !! p;
    vacant w p := bool_decide (h_files w !! p = None) && bool_decide (h_links w !! p = None);
    Getwd _ := Some "/"; now _ := 1767225600000000000; error_text _ p := p; links := h_links;
    set_links l w := mkHouse (h_files w) l; may_link _ _ := true; make_directory _ w := (true, w);
    left_after _ _ _ := None; arrival _ := [Sites; Info; Modules; VHosts; ConfigTest] |}; try done.
  - intros w p. by intros [H%bool_decide_eq_true_1 _]%andb_prop.
  - intros w. unfold parts. by solve_Permutation.
Defined.
(** Apache refuses a configuration that holds the word [bad]; [a2ensite] and [a2dissite] work. *)
#[global] Instance house_programs : Programs house := {|
  exec w n a :=
    if String.eqb n a2dissiteCommand
    then (mkHouse (h_files w) (base.delete (Join "/etc/apache2/sites-enabled" (default "" (head a))) (h_links w)), mkOutcome "" "" 0)
    else if String.eqb n a2ensiteCommand
    then (mkHouse (h_files w) (<[Join "/etc/apache2/sites-enabled" (default "" (head a)) :=
                                 Join "/etc/apache2/sites-available" (default "" (head a))]> (h_links w)), mkOutcome "" "" 0)
    else if existsb (λ kv, contains kv.2 "slow") (map_to_list (h_files w)) then (w, mkOutcome "" "" (-1))
    else (w, mkOutcome "" "" (if existsb (λ kv, contains kv.2 "bad") (map_to_list (h_files w)) then 1 else 0));
  executable _ := true |}.
Definition house_backend : LinuxBackend := NewLinuxBackend None.
Definition house_site : string := "/etc/apache2/sites-available/a.conf".
Definition house_link : string := "/etc/apache2/sites-enabled/a.conf".
Definition house_id : string := hex_encode (sha256 house_site).
Definition house_with (content : string) (enabled : bool) : Machine house :=
  mkMachine (mkHouse {[house_site := content]} (if enabled then {[house_link := house_site]} else ∅)) [].
Definition house_update (content : string) : string :=
  json_object [("config_id", json_quote house_id); ("content", json_quote (b64_padded content))].

#[local] Existing Instance ascii_case.
Lemma path_base_cases path : path_base path = "/" ∨ contains_byte Backup.slash (path_base path) = false.
Proof.
  unfold path_base. destruct (String.eqb _ ""); [by left|]. right.
  pose proof (split_no_sep Backup.slash (trim_right_set (Ascii.eqb Backup.slash) path)) as Hs.
  generalize dependent (split Backup.slash (trim_right_set (Ascii.eqb Backup.slash) path)). intros l Hl.
  induction Hl as [|x [|y l] Hx Hl IH]; done.
Qed.
Lemma house_apart (w w' : house) path : backupPath house_backend w path ≠ validationLink house_backend w'.
Proof.
  assert (validationLink house_backend w' = "/etc/apache2/sites-enabled/zz-aegisadmin-validation-000000.000000000.conf") as ->
    by (vm_compute; reflexivity).
  unfold backupPath, backupName. assert (stamp_us (now w) = "20260101T000000.000000Z") as -> by (vm_compute; reflexivity).
  destruct (path_base_cases path) as [->|Hb]; [by vm_compute|].
  change (backupRoot house_backend) with "/var/backups/aegisadmin-system/apache".
  rewrite Backup.Join_elements; [|done|].
  - assert (Backup.clean_elements "/var/backups/aegisadmin-system/apache" = ["var"; "backups"; "aegisadmin-system"; "apache"]) as ->
      by (vm_compute; reflexivity). discriminate.
  - by split_and!.
Qed.

Example house_updates :
  (Handle house_backend "update" [house_update "good"] (house_with "old" true)).1 =
    success [("action", VStr "update"); ("filename", VStr "a.conf"); ("config_id", VStr house_id); ("enabled", VBool true);
             ("result", VStr "success")] ∧
  h_files (inside (Handle house_backend "update" [house_update "good"] (house_with "old" true)).2) !! house_site = Some ("good" +++ snl) ∧
  Api.reply_code (Handle house_backend "update" [house_update "bad"] (house_with "old" true)).1 = "APACHE_SITE_CONFIG_INVALID" ∧
  h_files (inside (Handle house_backend "update" [house_update "bad"] (house_with "old" true)).2) !! house_site = Some "old".
Proof. vm_compute. done. Qed.

Lemma apache_refines_witness :
  let (r, m') := Handle house_backend "update" [house_update "bad"] (house_with "old" true) in
  if Api.resp_success (Api.Resp r)
  then ∃ F, promise house_backend "update" [house_update "bad"] (inside (house_with "old" true)) = Some F ∧ same house_backend F (inside m')
  else same house_backend (files (inside (house_with "old" true))) (inside m').
Proof.
  apply apache_refines; [done|done| |apply house_apart].
  intros w n a. cbn. destruct (String.eqb n a2dissiteCommand); [done|]. destruct (String.eqb n a2ensiteCommand); [done|].
  by destruct (existsb _ _).
Defined.

(** Programs that only report. *)
Definition house_reports : Programs house := {|
  exec w n a := (w, mkOutcome (if bool_decide (a = ["-v"]) then "Server version: Apache/2.4.62 (Debian)" else "") "" 0);
  executable _ := true |}.
Lemma overview_order_witness :
  (overview (Programs0 := house_reports) house_backend (house_with "x" true)).1 =
  res_map (λ d, ("installed", VBool true) :: d) (answers (Programs0 := house_reports) house_backend (house_with "x" true)).
Proof. apply (overview_order (Programs0 := house_reports)); [done|reflexivity]. Defined.

(** A configuration whose test takes too long: the site stays enabled, Apache is not
    reloaded and the command is refused.  Creations and updates are undone in that case. *)
Lemma enable_not_undone :
  let (r, m') := Handle house_backend "enable" [house_id] (house_with "slow" false) in
  Api.reply_code r = "APACHE_COMMAND_TIMEOUT" ∧ h_links (inside m') !! house_link = Some house_site.
Proof. vm_compute. done. Qed.
(** The same of a deletion: the file comes back, its link does not. *)
Lemma delete_not_enabled_again :
  let (r, m') := Handle house_backend "delete" [house_id]
    (mkMachine (mkHouse {[house_site := "a"; "/etc/apache2/slow.conf" := "slow"]} {[house_link := house_site]}) []) in
  Api.reply_code r = "APACHE_COMMAND_TIMEOUT" ∧ h_files (inside m') !! house_site = Some "a" ∧ h_links (inside m') !! house_link = None.
Proof. vm_compute. done. Qed.
