(* ===== verification/AdminAccess.v ===== *)
(** * The dedicated administration access: [domain/adminaccess]

    The HTTPS access to the administration, either a virtual host of Apache in front of
    the web program or a listener of the program itself: the profile that holds its
    settings, the generated configuration, and its replacement, undone when a step fails.
    The parsers of addresses of [net], the quoting of [fmt] and the programs are
    parameters. *)

From S2P Require Import Prelude GoStrings StringFacts Json JsonParse Command Files.
From S2P Require Api Backup.
From Stdlib Require Import Ascii String.
#[local] Open Scope string_scope.
#[local] Open Scope list_scope.
#[local] Open Scope Z_scope.

Import Api(Reply, success, VStr, VInt, VBool, VList, VMap, VNil, Value).
Import Backup(IsAbs, Join).

(** [net.ParseIP] and [net.ParseCIDR] succeed; the verb [%q]. *)
Class Networks := { is_ip : string → bool; is_cidr : string → bool; quoted : string → string }.
(** An address is written with hexadecimal digits, points and colons. *)
Definition ip_char (c : ascii) : bool := is_digit c || between "a" "f" c || between "A" "F" c || contains_byte c ".:".
Class LawfulNetworks `{Networks} : Prop := {
  ip_chars s : is_ip s = true → s ≠ "" ∧ sforall ip_char s = true;
  cidr_chars s : is_cidr s = true → s ≠ "" ∧ sforall (λ c, ip_char c || Ascii.eqb c "/") s = true;
}.
(** [os.Lstat] finds something, and it is a symbolic link. *)
Class AccessHost (W : Type) := { present : W → string → bool; symlink : W → string → bool }.

Definition adminProfile : string := "/etc/aegisadmin-system/admin-web".
Definition apacheProfile : string := "/etc/aegisadmin-system/apache".
Definition certificate : string := "/etc/aegisadmin-system/tls/admin-local.crt".
Definition privateKey : string := "/etc/aegisadmin-system/tls/admin-local.key".
Definition webProfile : string := "/etc/aegisadmin-system/web-server".
Definition site_file : string := "aegisadmin-admin.conf".
Definition systemctl : string := "/usr/bin/systemctl".

Record settings := mkSettings { s_Enabled : bool; s_Port : Z; s_Address : string; s_AllowFrom : string }.
Record profile := mkProfile { Enabled : bool; AppRoot : string; Address : string; AllowFrom : string; Port : Z }.
Record apache := mkApache {
  Service : string; Control : string; SitesAvailable : string; SitesEnabled : string;
  EnableCommand : string; DisableCommand : string }.

(** ** Profiles *)

Definition profile_line (m : gmap string string) (raw : string) : gmap string string :=
  match cut "=" (trim_space (before "#" raw)) with
  | (k, x, true) => <[trim_space k := trim_space x]> m
  | _ => m
  end.
Definition profile_values (content : string) : gmap string string := fold_left profile_line (split nl content) ∅.
Definition entry (v : gmap string string) (k : string) : string := default "" (v !! k).

Section networks.
Context `{Networks}.

(** ** Settings *)

Definition separator (c : ascii) : bool := contains_byte c (String "," (String nl (String cr (String " " (String "009" ""))))).
(** [strings.FieldsFunc] for separators of one byte. *)
Fixpoint fields_by (p : ascii → bool) (cur s : string) : list string :=
  match s with
  | EmptyString => flush cur []
  | String c s' => if p c then flush cur (fields_by p "" s') else fields_by p (cur +++ String c "") s'
  end.
Fixpoint check_items (several : bool) (seen items : list string) : option string :=
  match items with
  | [] => None
  | item :: items =>
      if String.eqb item "*" && several then Some "le caractère * ne peut pas être combiné avec une adresse IP"
      else if negb (String.eqb item "*") && negb (is_ip item) then Some ("l’adresse d’écoute " +++ quoted item +++ " est invalide")
      else if existsb (String.eqb item) seen then Some ("l’adresse d’écoute " +++ quoted item +++ " est indiquée plusieurs fois")
      else check_items several (item :: seen) items
  end.
Definition parseAddresses (value : string) : res string (list string) :=
  let items := fields_by separator "" value in
  if Nat.eqb (List.length items) 0 || Nat.ltb 16 (List.length items) then Err "indiquez entre une et seize adresses d’écoute"
  else match check_items (negb (Nat.eqb (List.length items) 1)) [] items with
       | Some message => Err message
       | None => Ok items
       end.
Definition addresses_of (value : string) : list string := match parseAddresses value with Ok l => l | Err _ => [] end.

(** [None]: valid. *)
Definition validate (s : settings) : option string :=
  if (s_Port s <? 1024) || (65535 <? s_Port s) then Some "le port doit être compris entre 1024 et 65535"
  else match parseAddresses (s_Address s) with
  | Err e => Some e
  | Ok _ =>
      if negb (String.eqb (s_AllowFrom s) "all") && negb (is_ip (s_AllowFrom s)) && negb (is_cidr (s_AllowFrom s))
      then Some "l’adresse ou le réseau autorisé est invalide" else None
  end.
Definition settings_of (text : string) : option settings :=
  match json_parse text with
  | Some JNull => Some (mkSettings false 0 "" "")
  | Some (JObj m) =>
      let '(e, ok1) := store_field "enabled" store_bool false m in
      let '(p, ok2) := store_field "port" store_int 0 m in
      let '(a, ok3) := store_field "address" store_string "" m in
      let '(f, ok4) := store_field "allow_from" store_string "" m in
      if ok1 && ok2 && ok3 && ok4 then Some (mkSettings e p a f) else None
  | _ => None
  end.

Definition loadAdmin (content : option string) : option profile :=
  match content with
  | None => None
  | Some text =>
      let v := profile_values text in
      match atoi (entry v "port") with
      | None => None
      | Some port =>
          let p := mkProfile (String.eqb (entry v "enabled") "true") (entry v "app_root") (entry v "address") (entry v "allow_from") port in
          if String.eqb (AppRoot p) "" then None
          else match validate (mkSettings false (Port p) (Address p) (AllowFrom p)) with None => Some p | Some _ => None end
      end
  end.
Definition loadApache (content : option string) : apache :=
  let v := match content with Some text => profile_values text | None => ∅ end in
  let value k d := if (IsAbs (entry v k) || String.eqb k "service") && negb (String.eqb (entry v k) "") then entry v k else d in
  mkApache (value "service" "apache2") (value "control" "/usr/sbin/apachectl") (value "sites_available" "/etc/apache2/sites-available")
    (value "sites_enabled" "/etc/apache2/sites-enabled") (value "enable_command" "/usr/sbin/a2ensite")
    (value "disable_command" "/usr/sbin/a2dissite").
(** The text of the profile, as it is written. *)
Definition profile_text (p : profile) : string :=
  join snl ["enabled=" +++ json_bool (Enabled p); "app_root=" +++ AppRoot p; "address=" +++ Address p;
            "port=" +++ itoa (Port p); "allow_from=" +++ AllowFrom p] +++ snl.
Definition with_settings (p : profile) (s : settings) : profile :=
  mkProfile (s_Enabled s) (AppRoot p) (join "," (addresses_of (s_Address s))) (s_AllowFrom s) (s_Port s).

(** ** What is generated *)

(** [net.JoinHostPort] *)
Definition JoinHostPort (host port : string) : string :=
  if contains_byte ":" host || contains_byte "%" host then "[" +++ host +++ "]:" +++ port else host +++ ":" +++ port.
Definition endpoint (port : Z) (address : string) : string :=
  if String.eqb address "*" then "*:" +++ itoa port else JoinHostPort address (itoa port).
Definition requirement (allow : string) : string := if String.eqb allow "all" then "Require all granted" else "Require ip " +++ allow.
Definition in_quotes (s : string) : string := String quote_char (s +++ String quote_char "").
Definition vhost_lines (endpoints : list string) (requirement : string) : list string :=
  ((λ e, "Listen " +++ e) <$> endpoints) ++
  [""; "<VirtualHost " +++ join " " endpoints +++ ">"; "    ServerName aegisadmin.local"; "";
   "    SSLEngine on"; "    SSLProtocol all -SSLv3 -TLSv1 -TLSv1.1";
   "    SSLCertificateFile " +++ in_quotes certificate; "    SSLCertificateKeyFile " +++ in_quotes privateKey;
   "    SSLProxyEngine on"; "    SSLProxyVerify none"; "    SSLProxyCheckPeerName off"; "";
   "    Header always set X-Content-Type-Options " +++ in_quotes "nosniff";
   "    Header always set Referrer-Policy " +++ in_quotes "no-referrer";
   "    Header always set X-Frame-Options " +++ in_quotes "DENY"; "";
   "    <Location />"; "        " +++ requirement; "        ProxyPass https://127.0.0.1:9080/";
   "        ProxyPassReverse https://127.0.0.1:9080/"; "    </Location>"; "</VirtualHost>"; ""].
Definition render (endpoints : list string) (root requirement : string) : string := join snl (vhost_lines endpoints requirement).
Definition directListenAddresses (addresses : list string) (port : Z) (enabled : bool) : list string :=
  if negb enabled then ["127.0.0.1:9080"]
  else (λ a, if String.eqb a "*" then ":" +++ itoa port else JoinHostPort a (itoa port)) <$> addresses.
Definition web_text (listeners : list string) (allow : string) : string :=
  join snl ["# Adresse HTTPS du serveur web Go AegisAdmin."; "AEGISADMIN_WEB_LISTEN=" +++ join "," listeners;
            "AEGISADMIN_WEB_ALLOW_FROM=" +++ allow] +++ snl.
End networks.

(** ** Operations *)

Section domain.
Context {W : Type} `{!Programs W} `{!FileSystem W} `{!AccessHost W} `{Networks}.
Implicit Types (w : W) (p : profile) (s : settings) (a : apache).

Definition data := list (string * Value).
Definition failure (code message : string) : Reply := Api.failure 2 code message.

Definition apacheAvailable a : bool := forallb executable [Control a; EnableCommand a; DisableCommand a].
Definition access_url (port : Z) : string := "https://adresse-ip-du-serveur:" +++ itoa port.
Definition status w : data :=
  match loadAdmin (files w !! adminProfile) with
  | None => [("available", VBool false); ("enabled", VBool false); ("message", VStr "Le profil de l’accès dédié est indisponible.")]
  | Some p =>
      let a := loadApache (files w !! apacheProfile) in
      let by_apache := apacheAvailable a in
      [("available", VBool true);
       ("enabled", VBool (Enabled p && (negb by_apache || present w (Join (SitesEnabled a) site_file))));
       ("address", VStr (join snl (addresses_of (Address p)))); ("port", VInt (Port p)); ("allow_from", VStr (AllowFrom p));
       ("url", VStr (access_url (Port p))); ("mode", VStr (if by_apache then "apache" else "direct"));
       ("message", VStr (if by_apache then "Accès HTTPS publié par Apache." else "Accès HTTPS fourni directement par le serveur Go."))]
  end.

Definition Run (name : string) (arguments : list string) : cmd W (bool * string) :=
  do! o := run name arguments in ret (succeeded o, stdout o).
Definition atomicWrite (path content : string) : cmd W bool := touch (write_at path content).

(** The reply of a refusal depends on the command that updates. *)
Section update.
Context (code : string).
Definition fail {A} (message : string) : cmd W A := stop (failure code message).
Definition or_fail (c : cmd W bool) (message : string) : cmd W () := do! ok := c in if negb ok then fail message else ret ().
(** A program whose failure is reported with what it printed. *)
Definition run_or_fail (name : string) (arguments : list string) (message : string) : cmd W () :=
  do! o := Run name arguments in if negb o.1 then fail (message +++ trim_space o.2) else ret ().

Definition managed_link : string := "un fichier géré ne doit pas être un lien symbolique".
Definition not_saved : string := "le profil de l’accès dédié n’a pas pu être enregistré".
Definition target a : string := Join (SitesAvailable a) site_file.
Definition enabledTarget a : string := Join (SitesEnabled a) site_file.

(** The restoration of the virtual host. *)
Definition restore_vhost a (old : option string) (wasEnabled : bool) : cmd W () :=
  do! _ := (match old with
            | Some content => ignore (atomicWrite (target a) content)
            | None => ignore (touch (remove_at (target a))) end) in
  do! _ := (if negb (String.eqb (SitesAvailable a) (SitesEnabled a))
            then ignore (Run (if wasEnabled : bool then EnableCommand a else DisableCommand a) [site_file]) else ret ()) in
  do! _ := ignore (Run (Control a) ["configtest"]) in
  ignore (Run systemctl ["reload"; Service a]).
(** The link of the virtual host, or its removal. *)
Definition publish a (enabled wasEnabled : bool) : cmd W () :=
  let alone := String.eqb (SitesAvailable a) (SitesEnabled a) in
  if enabled then
    if alone then ret ()
    else
      do! there := look (λ w, present w (enabledTarget a)) in
      if there : bool then ret ()
      else do! o := Run (EnableCommand a) [site_file] in if negb o.1 then fail "activation du VirtualHost impossible" else ret ()
  else if alone then
    do! there := read_file (target a) in
    do! removed := touch (remove_at (target a)) in
    if bool_decide (is_Some there) && negb removed then fail "désactivation du VirtualHost impossible" else ret ()
  else if wasEnabled then
    do! o := Run (DisableCommand a) [site_file] in if negb o.1 then fail "désactivation du VirtualHost impossible" else ret ()
  else ret ().

Definition update_apache a p s : cmd W data :=
  if negb (IsAbs (AppRoot p)) || contains_any (AppRoot p) (String quote_char (String cr snl))
  then fail "la racine AegisAdmin enregistrée est invalide"
  else
    do! linked := look (λ w, existsb (symlink w) [adminProfile; certificate; privateKey; target a]) in
    if linked : bool then fail managed_link
    else
      let content := render (endpoint (s_Port s) <$> addresses_of (s_Address s)) (AppRoot p) (requirement (s_AllowFrom s)) in
      do! old := read_file (target a) in
      do! wasEnabled := look (λ w, present w (enabledTarget a)) in
      do! _ := or_fail (atomicWrite (target a) content) "écriture du VirtualHost impossible" in
      let undo := restore_vhost a old wasEnabled in
      do! _ := undoing (publish a (s_Enabled s) wasEnabled) undo in
      do! _ := undoing (run_or_fail (Control a) ["configtest"] "la configuration Apache est invalide : ") undo in
      do! _ := undoing (run_or_fail systemctl ["reload"; Service a] "Apache n’a pas pu être rechargé : ") undo in
      do! _ := undoing (or_fail (atomicWrite adminProfile (profile_text (with_settings p s))) not_saved) undo in
      look status.

Definition restart_web : cmd W (bool * string) := Run systemctl ["restart"; "aegisadmin-web.service"].
Definition restore_profiles (oldWeb oldAdmin : option string) : cmd W () :=
  do! _ := (match oldWeb with Some content => ignore (atomicWrite webProfile content) | None => ret () end) in
  do! _ := (match oldAdmin with Some content => ignore (atomicWrite adminProfile content) | None => ret () end) in
  ignore restart_web.
Definition updateDirect p s : cmd W data :=
  do! linked := look (λ w, existsb (symlink w) [adminProfile; webProfile]) in
  if linked : bool then fail managed_link
  else
    let listeners := directListenAddresses (addresses_of (s_Address s)) (s_Port s) (s_Enabled s) in
    do! oldWeb := read_file webProfile in
    do! oldAdmin := read_file adminProfile in
    let undo := restore_profiles oldWeb oldAdmin in
    do! _ := or_fail (atomicWrite webProfile (web_text listeners (s_AllowFrom s)))
               "le profil du serveur web Go n’a pas pu être enregistré" in
    do! _ := undoing (or_fail (atomicWrite adminProfile (profile_text (with_settings p s))) not_saved) undo in
    do! _ := undoing (do! o := restart_web in
                      if negb o.1 then fail ("le serveur web Go n’a pas pu être redémarré : " +++ trim_space o.2) else ret ()) undo in
    look status.

Definition no_profile : string := "le profil de l’accès dédié est introuvable".
Definition update s : cmd W data :=
  match validate s with
  | Some message => fail message
  | None =>
      do! content := read_file adminProfile in
      match loadAdmin content with
      | None => fail no_profile
      | Some p =>
          do! content := read_file apacheProfile in
          let a := loadApache content in
          if negb (apacheAvailable a) then updateDirect p s else update_apache a p s
      end
  end.
Definition reconcilePackage : cmd W data :=
  do! content := read_file adminProfile in
  match loadAdmin content with
  | None => fail no_profile
  | Some p => update (mkSettings (Enabled p) (Port p) (Address p) (AllowFrom p))
  end.
End update.

Definition handle (command : string) (arguments : list string) : cmd W data :=
  let unknown :=
    if String.eqb command "" then stop (failure "MISSING_COMMAND" "Aucune commande n’a été indiquée pour l’accès d’administration.")
    else stop (failure "COMMAND_NOT_FOUND" "La commande demandée n’existe pas pour l’accès d’administration.") in
  if String.eqb command "status" then match arguments with [] => look status | _ => unknown end
  else if String.eqb command "update" then
    match arguments with
    | [text] => match settings_of text with
                | None => stop (failure "INVALID_ARGUMENT" "Les paramètres d’accès sont invalides.")
                | Some s => update "ADMIN_ACCESS_UPDATE_FAILED" s
                end
    | _ => unknown
    end
  else if String.eqb command "reconcile-package" then
    match arguments with [] => reconcilePackage "ADMIN_ACCESS_RECONCILE_FAILED" | _ => unknown end
  else unknown.
Definition Handle (command : string) (arguments : list string) : Machine W → Reply * Machine W := serve (handle command arguments).
End domain.
