(* ===== verification/AdminAccessFacts.v ===== *)
(** * The dedicated access: what its update guarantees

    The profile written is read back; the configuration generated has the lines it is
    meant to have, whatever the settings; an accepted update leaves its settings in the
    profile, a refused one leaves every file as it was. *)

From S2P Require Import Prelude GoStrings StringFacts Json JsonParse Command Triple Files AdminAccess.
From S2P Require Api Backup.
From Stdlib Require Import Ascii String.
#[local] Open Scope string_scope.
#[local] Open Scope list_scope.
#[local] Open Scope Z_scope.

Import Api(Reply, success, VStr, VInt, VBool, VList, VMap, VNil, Value).
Import Backup(IsAbs, Join).

(** ** Profiles read back *)

Lemma graphic_all_space c s : graphic c = true → all_space (String c s) = false.
Proof. intros Hc. unfold all_space. cbn [all_space_from]. by rewrite graphic_width. Qed.
Lemma trim_right_graphic k v : sforall graphic k = true → trim_right_space (k +++ v) = k +++ trim_right_space v.
Proof.
  induction k as [|c k IH]; [done|]. cbn [sforall]. intros [Hc Hk]%andb_prop. rewrite sapp_cons.
  cbn [trim_right_space]. by rewrite graphic_all_space, IH.
Qed.
Lemma trim_space_key k v : k ≠ "" → sforall graphic k = true → trim_space v = v → trim_space (k +++ v) = k +++ v.
Proof.
  intros Hne Hk Hv. unfold trim_space. rewrite trim_left_id.
  - rewrite trim_right_graphic by done. f_equal. rewrite <- Hv at 1. unfold trim_space. rewrite trim_right_idemp. exact Hv.
  - destruct k as [|c k]; [done|]. cbn in Hk. apply andb_prop in Hk as [Hc _]. by apply graphic_width.
Qed.
Lemma trim_graphic v : sforall graphic v = true → trim_space v = v.
Proof.
  intros Hv. destruct v as [|c v]; [done|]. rewrite <- (sapp_nil_r (String c v)). by apply trim_space_key.
Qed.

(** A value that a profile can hold. *)
Definition line_value (v : string) : Prop :=
  trim_space v = v ∧ contains_byte "#" v = false ∧ contains_byte nl v = false.
Lemma before_free sep s : contains_byte sep s = false → before sep s = s.
Proof.
  intros Hs. unfold before. destruct (cut sep s) as [[a c] found] eqn:E. destruct found.
  - apply cut_found in E as [-> _]. rewrite contains_byte_app in Hs. unfold contains_byte in Hs. cbn in Hs.
    by rewrite Ascii.eqb_refl, orb_true_r in Hs.
  - by apply cut_not_found in E as (-> & _ & _).
Qed.
Lemma profile_line_key m k v : k ≠ "" → sforall graphic k = true → contains_byte "=" k = false → contains_byte "#" k = false →
  line_value v → profile_line m (k +++ "=" +++ v) = <[k := v]> m.
Proof.
  intros Hne Hk Heq Hh (Ht & Hv & _). unfold profile_line.
  rewrite before_free by (rewrite !contains_byte_app, Hh, Hv; done).
  rewrite <- sapp_assoc, trim_space_key; [|by destruct k|by rewrite sforall_app, Hk|done].
  rewrite sapp_assoc. change ("=" +++ v) with (String "=" v). rewrite cut_app by done. by rewrite Ht, trim_graphic.
Qed.
Lemma profile_line_entry m k ke v : ke = k +++ "=" → k ≠ "" → sforall graphic k = true → contains_byte "=" k = false →
  contains_byte "#" k = false → line_value v → profile_line m (ke +++ v) = <[k := v]> m.
Proof. intros ->. rewrite sapp_assoc. apply profile_line_key. Qed.
Lemma split_written_lines l : Forall (λ x, contains_byte nl x = false) l → l ≠ [] → split nl (join snl l +++ snl) = l ++ [""].
Proof. intros Hl Hne. change (join snl l +++ snl) with (join (String nl "") l +++ String nl ""). by rewrite split_app, split_join. Qed.

Lemma trim_free c s : contains_byte c s = false → contains_byte c (trim_space s) = false.
Proof.
  intros Hs. unfold trim_space. destruct (trim_right_prefix (trim_left_space s)) as [t Ht].
  destruct (proj2 (trim_left_from_spec s 0)) as [u Hu]. fold (trim_left_space s) in Hu.
  rewrite Hu, Ht, !contains_byte_app in Hs. by apply orb_false_elim in Hs as [_ [? _]%orb_false_elim].
Qed.
Lemma before_prefix sep s : ∃ t, s = before sep s +++ t ∧ contains_byte sep (before sep s) = false.
Proof.
  unfold before. destruct (cut sep s) as [[a c] []] eqn:E.
  - apply cut_found in E as [-> Ha]. by eexists.
  - apply cut_not_found in E as (-> & -> & Hs). exists "". by rewrite sapp_nil_r.
Qed.
Lemma profile_line_value m raw : contains_byte nl raw = false → map_Forall (λ _, line_value) m → map_Forall (λ _, line_value) (profile_line m raw).
Proof.
  intros Hn Hm. unfold profile_line. destruct (cut "=" (trim_space (before "#" raw))) as [[k x] []] eqn:E; [|done].
  apply map_Forall_insert_2; [|done]. apply cut_found in E as [E _].
  destruct (before_prefix "#" raw) as (t & Ht & Hh). rewrite Ht, contains_byte_app in Hn. apply orb_false_elim in Hn as [Hn _].
  pose proof (trim_free _ _ Hh) as H1. pose proof (trim_free _ _ Hn) as H2. rewrite E in H1, H2.
  change (k +++ String "=" x) with (k +++ ("=" +++ x)) in H1, H2. rewrite !contains_byte_app in H1, H2.
  apply orb_false_elim in H1 as [_ [_ H1]%orb_false_elim]. apply orb_false_elim in H2 as [_ [_ H2]%orb_false_elim].
  split; [apply trim_space_idemp|]. split; by apply trim_free.
Qed.
Lemma profile_values_value content : map_Forall (λ _, line_value) (profile_values content).
Proof.
  unfold profile_values. assert (map_Forall (λ _ : string, line_value) (∅ : gmap string string)) as He by apply map_Forall_empty.
  pose proof (split_no_sep nl content) as Hs. revert He. generalize (∅ : gmap string string).
  induction Hs as [|raw l Hr Hl IH]; intros m Hm; [done|]. cbn [fold_left]. by apply IH, profile_line_value.
Qed.
Lemma entry_value content k : line_value (entry (profile_values content) k).
Proof.
  unfold entry. destruct (profile_values content !! k) eqn:E; [|done]. by eapply profile_values_value.
Qed.

Section networks.
Context `{LawfulNetworks}.

(** ** Addresses *)

Lemma fields_by_run p x : ∀ cur s, sforall (λ c, negb (p c)) x = true → fields_by p cur (x +++ s) = fields_by p (cur +++ x) s.
Proof.
  induction x as [|c x IH]; intros cur s Hx; [by rewrite sapp_nil_r|]. cbn [sforall] in Hx.
  apply andb_prop in Hx as [Hc Hx]. rewrite sapp_cons. cbn [fields_by]. apply negb_true_iff in Hc. rewrite Hc, IH by done.
  by rewrite sapp_assoc.
Qed.
Lemma fields_by_join l : Forall (λ x, x ≠ "" ∧ sforall (λ c, negb (separator c)) x = true) l → fields_by separator "" (join "," l) = l.
Proof.
  induction l as [|x l IH]; [done|]. intros [[Hne Hx] Hl]%Forall_cons. destruct l as [|y l].
  - cbn [join]. rewrite <- (sapp_nil_r x) at 1. rewrite fields_by_run by done. cbn. by destruct x.
  - rewrite join_cons_ne by done. rewrite fields_by_run by done. change ("" +++ x) with x.
    change ("," +++ join "," (y :: l)) with (String "," (join "," (y :: l))). cbn [fields_by].
    change (separator ",") with true. cbn iota. rewrite IH by done. by destruct x.
Qed.
(** An address of the settings. *)
Definition listen_address (x : string) : Prop := x = "*" ∨ is_ip x = true.
Lemma check_items_listen several items : ∀ seen, check_items several seen items = None → Forall listen_address items.
Proof.
  induction items as [|x items IH]; intros seen; cbn [check_items]; [done|].
  destruct (String.eqb x "*" && several); [done|]. destruct (negb (String.eqb x "*") && negb (is_ip x)) eqn:E; [done|].
  destruct (existsb _ seen); [done|]. intros Hc%IH. constructor; [|done]. unfold listen_address.
  destruct (String.eqb_spec x "*"); [by left|]. right. by destruct (is_ip x).
Qed.
Lemma parseAddresses_listen value l : parseAddresses value = Ok l → Forall listen_address l ∧ fields_by separator "" value = l.
Proof.
  unfold parseAddresses. destruct (_ || _); [done|]. destruct (check_items _ [] _) eqn:E; [done|]. intros [= <-].
  split; [by eapply check_items_listen|done].
Qed.
Lemma ip_char_plain c : ip_char c = true →
  negb (separator c) = true ∧ graphic c = true ∧ Ascii.eqb "#" c = false ∧ Ascii.eqb nl c = false.
Proof. destruct c as [[] [] [] [] [] [] [] []]; by vm_compute. Qed.
Lemma listen_address_plain x : listen_address x →
  x ≠ "" ∧ sforall (λ c, negb (separator c)) x = true ∧ sforall graphic x = true ∧ contains_byte "#" x = false ∧ contains_byte nl x = false.
Proof.
  intros [->|[Hne Hx]%ip_chars]; [done|]. split; [done|]. split_and!.
  - eapply sforall_impl; [|exact Hx]. intros c Hc. by apply ip_char_plain.
  - eapply sforall_impl; [|exact Hx]. intros c Hc. by apply ip_char_plain.
  - apply contains_byte_sforall. eapply sforall_impl; [|exact Hx]. intros c Hc. apply ip_char_plain in Hc as (_ & _ & -> & _). done.
  - apply contains_byte_sforall. eapply sforall_impl; [|exact Hx]. intros c Hc. apply ip_char_plain in Hc as (_ & _ & _ & ->). done.
Qed.
(** The addresses as they are stored read back. *)
Lemma addresses_stored value l : parseAddresses value = Ok l → parseAddresses (join "," l) = Ok l.
Proof.
  intros Hp. pose proof (parseAddresses_listen _ _ Hp) as [Hl Hf]. revert Hp. unfold parseAddresses.
  assert (fields_by separator "" (join "," l) = l) as ->; [|by rewrite Hf].
  apply fields_by_join. eapply Forall_impl; [exact Hl|]. intros x Hx. split; by apply listen_address_plain.
Qed.
Lemma join_plain p l : p ","%char = true → Forall (λ x, sforall p x = true) l → sforall p (join "," l) = true.
Proof.
  intros Hp. induction l as [|x l IH]; [done|]. intros [Hx Hl]%Forall_cons. destruct l as [|y l]; [done|].
  rewrite join_cons_ne by done. rewrite !sforall_app, Hx, IH by done. cbn. by rewrite Hp.
Qed.
Lemma stored_line_value l : Forall listen_address l → line_value (join "," l).
Proof.
  intros Hl. split_and!.
  - apply trim_graphic, join_plain; [done|]. eapply Forall_impl; [exact Hl|]. intros x Hx. by apply listen_address_plain.
  - apply contains_byte_sforall, join_plain; [done|]. eapply Forall_impl; [exact Hl|]. intros x Hx.
    by apply contains_byte_sforall, listen_address_plain.
  - apply contains_byte_sforall, join_plain; [done|]. eapply Forall_impl; [exact Hl|]. intros x Hx.
    by apply contains_byte_sforall, listen_address_plain.
Qed.

(** ** The profile *)

Lemma validate_spec s : validate s = None →
  1024 <= s_Port s <= 65535 ∧ (∃ l, parseAddresses (s_Address s) = Ok l) ∧
  (s_AllowFrom s = "all" ∨ is_ip (s_AllowFrom s) = true ∨ is_cidr (s_AllowFrom s) = true).
Proof.
  unfold validate. destruct (_ || _) eqn:E; [done|]. apply orb_false_elim in E as [H1%Z.ltb_ge H2%Z.ltb_ge].
  destruct (parseAddresses (s_Address s)) as [l|]; [|done]. destruct (_ && _) eqn:E; [done|]. intros _.
  split; [lia|]. split; [by eexists|]. destruct (String.eqb_spec (s_AllowFrom s) "all"); [by left|]. right.
  destruct (is_ip _); [by left|]. right. by destruct (is_cidr _).
Qed.
Lemma allow_plain f : f = "all" ∨ is_ip f = true ∨ is_cidr f = true →
  f ≠ "" ∧ sforall (λ c, ip_char c || contains_byte c "/l") f = true.
Proof.
  intros [->|[[Hne Hf]%ip_chars|[Hne Hf]%cidr_chars]]; [done|split; [done|]..].
  - eapply sforall_impl; [|exact Hf]. by intros c ->.
  - eapply sforall_impl; [|exact Hf]. intros c [->|Hc]%orb_prop; [done|]. apply Ascii.eqb_eq in Hc as ->. done.
Qed.
Lemma plain_line f : sforall (λ c, ip_char c || contains_byte c "/l") f = true → line_value f.
Proof.
  intros Hf. split_and!; [apply trim_graphic|apply contains_byte_sforall|apply contains_byte_sforall];
    (eapply sforall_impl; [|exact Hf]); intros c; destruct c as [[] [] [] [] [] [] [] []]; by vm_compute.
Qed.
Lemma itoa_line z : 0 <= z → line_value (itoa z).
Proof.
  intros Hz. pose proof (proj1 (itoa_digits z Hz)) as Hd. unfold digits_only in Hd. apply andb_prop in Hd as [_ Hd].
  apply plain_line. eapply sforall_impl; [|exact Hd]. unfold ip_char. by intros c ->.
Qed.
Lemma bool_line b : line_value (json_bool b).
Proof. by destruct b. Qed.

(** A profile that can be written: each value fits its line. *)
Definition profile_ok (p : profile) : Prop :=
  line_value (AppRoot p) ∧ AppRoot p ≠ "" ∧ line_value (Address p) ∧ line_value (AllowFrom p) ∧ 0 <= Port p <= 65535.
Lemma profile_text_values p : profile_ok p →
  profile_values (profile_text p) =
    <["allow_from" := AllowFrom p]> (<["port" := itoa (Port p)]> (<["address" := Address p]> (<["app_root" := AppRoot p]>
      (<["enabled" := json_bool (Enabled p)]> ∅)))).
Proof.
  intros (Hr & _ & Ha & Hf & Hp). pose proof (bool_line (Enabled p)) as He. pose proof (itoa_line (Port p) ltac:(lia)) as Hi.
  unfold profile_text, profile_values. rewrite split_written_lines; [|repeat constructor|done].
  - cbn [app fold_left]. rewrite (profile_line_entry _ "enabled" "enabled="), (profile_line_entry _ "app_root" "app_root="),
      (profile_line_entry _ "address" "address="), (profile_line_entry _ "port" "port="), (profile_line_entry _ "allow_from" "allow_from=") by done. done.
  - rewrite contains_byte_app. by destruct He as (_ & _ & ->).
  - rewrite contains_byte_app. by destruct Hr as (_ & _ & ->).
  - rewrite contains_byte_app. by destruct Ha as (_ & _ & ->).
  - rewrite contains_byte_app. by destruct Hi as (_ & _ & ->).
  - rewrite contains_byte_app. by destruct Hf as (_ & _ & ->).
Qed.
Lemma profile_read_back p : profile_ok p → validate (mkSettings false (Port p) (Address p) (AllowFrom p)) = None →
  loadAdmin (Some (profile_text p)) = Some p.
Proof.
  intros Hp Hv. unfold loadAdmin, entry. rewrite profile_text_values by done. simplify_map_eq.
  destruct Hp as (_ & Hne & _ & _ & Hport). destruct p as [e r a f port]. cbn in *.
  rewrite atoi_itoa by (unfold int_min, int_max; lia). rewrite Hv, (proj2 (String.eqb_neq _ _) Hne). by destruct e.
Qed.
Lemma loadAdmin_spec content p : loadAdmin content = Some p →
  line_value (AppRoot p) ∧ AppRoot p ≠ "" ∧ validate (mkSettings false (Port p) (Address p) (AllowFrom p)) = None.
Proof.
  destruct content as [text|]; [|done]. cbn [loadAdmin]. destruct (atoi _) as [port|]; [|done].
  cbn [AppRoot Port Address AllowFrom].
  destruct (String.eqb_spec (entry (profile_values text) "app_root") "") as [|Hne]; [done|].
  destruct (validate _) eqn:Hv; [done|]. intros Hp. injection Hp as <-. split; [apply entry_value|]. by split.
Qed.

(** The settings accepted, written with the profile they change, are read back. *)
Lemma updated_read_back content p s : loadAdmin content = Some p → validate s = None →
  loadAdmin (Some (profile_text (with_settings p s))) = Some (with_settings p s).
Proof.
  intros (Hr & Hne & _)%loadAdmin_spec Hv. pose proof (validate_spec s Hv) as (Hport & (l & Hl) & Hf).
  apply allow_plain in Hf as [Hf1 Hf2]. pose proof (addresses_stored _ _ Hl) as Hs.
  apply profile_read_back; unfold with_settings, addresses_of; rewrite Hl.
  - unfold profile_ok. cbn. split_and!; try done; try lia; [|by apply plain_line..].
    apply stored_line_value. by apply parseAddresses_listen in Hl as [? _].
  - revert Hv. unfold validate. cbn. rewrite Hl, Hs. done.
Qed.

(** ** What is generated *)

Lemma endpoint_plain port x : 0 <= port → listen_address x → endpoint port x ≠ "" ∧ sforall graphic (endpoint port x) = true.
Proof.
  intros Hp Hx. pose proof (listen_address_plain x Hx) as (Hne & _ & Hg & _). pose proof (proj1 (itoa_digits port Hp)) as Hd.
  unfold digits_only in Hd. apply andb_prop in Hd as [_ Hd].
  assert (sforall graphic (itoa port) = true) as Hi.
  { eapply sforall_impl; [|exact Hd]. intros c. destruct c as [[] [] [] [] [] [] [] []]; by vm_compute. }
  unfold endpoint, JoinHostPort. destruct (String.eqb x "*"); [by rewrite sforall_app|].
  destruct (_ || _); rewrite !sforall_app, Hg, Hi; (split; [by destruct x|done]).
Qed.
Lemma graphic_free c x : graphic c = false → sforall graphic x = true → contains_byte c x = false.
Proof.
  intros Hc Hx. apply contains_byte_sforall. eapply sforall_impl; [|exact Hx]. intros d Hd.
  destruct (Ascii.eqb_spec c d) as [->|]; [congruence|done].
Qed.
Lemma join_without c sep l : contains_byte c sep = false → Forall (λ x, contains_byte c x = false) l → contains_byte c (join sep l) = false.
Proof.
  intros Hs. induction l as [|x l IH]; [done|]. intros [Hx Hl]%Forall_cons. destruct l as [|y l]; [done|].
  rewrite join_cons_ne by done. by rewrite !contains_byte_app, Hx, Hs, IH.
Qed.
Lemma requirement_line f : line_value f → contains_byte nl (requirement f) = false.
Proof. intros (_ & _ & Hf). unfold requirement. destruct (String.eqb f "all"); [done|]. by rewrite contains_byte_app, Hf. Qed.
Lemma listeners_free s l : 0 <= s_Port s → Forall listen_address l →
  contains_byte nl (join "," (directListenAddresses l (s_Port s) (s_Enabled s))) = false.
Proof.
  intros Hp Hl. apply join_without; [done|]. unfold directListenAddresses. destruct (negb _); [by apply Forall_singleton|].
  apply Forall_fmap. eapply Forall_impl; [exact Hl|]. intros x Hx. pose proof (endpoint_plain (s_Port s) x Hp Hx) as [_ Hg].
  unfold endpoint in Hg. unfold compose. destruct (String.eqb x "*"); [|by apply graphic_free].
  change (sforall graphic (String "*" (":" +++ itoa (s_Port s))) = true) in Hg. cbn [sforall] in Hg.
  apply andb_prop in Hg as [_ Hg]. by apply graphic_free.
Qed.

(** Whatever settings are accepted, the configuration generated has the lines it is
    meant to have and no others: the virtual host of Apache, each [Listen] with its one
    address, and the environment file of the web program. *)
Theorem generated_lines s root : validate s = None →
  let endpoints := endpoint (s_Port s) <$> addresses_of (s_Address s) in
  split nl (render endpoints root (requirement (s_AllowFrom s))) = vhost_lines endpoints (requirement (s_AllowFrom s)) ∧
  Forall (λ e, fields ("Listen " +++ e) = ["Listen"; e]) endpoints ∧
  split nl (web_text (directListenAddresses (addresses_of (s_Address s)) (s_Port s) (s_Enabled s)) (s_AllowFrom s)) =
    ["# Adresse HTTPS du serveur web Go AegisAdmin.";
     "AEGISADMIN_WEB_LISTEN=" +++ join "," (directListenAddresses (addresses_of (s_Address s)) (s_Port s) (s_Enabled s));
     "AEGISADMIN_WEB_ALLOW_FROM=" +++ s_AllowFrom s; ""].
Proof.
  intros (Hp & (l & Hl) & Hf)%validate_spec. apply allow_plain in Hf as [_ Hf]. apply plain_line in Hf.
  assert (addresses_of (s_Address s) = l) as -> by (unfold addresses_of; by rewrite Hl).
  apply parseAddresses_listen in Hl as [Hl _].
  assert (Forall (λ e, e ≠ "" ∧ sforall graphic e = true) (endpoint (s_Port s) <$> l)) as He.
  { apply Forall_fmap. eapply Forall_impl; [exact Hl|]. intros x Hx. apply endpoint_plain; [lia|done]. }
  assert (∀ e, e ≠ "" ∧ sforall graphic e = true → contains_byte nl e = false) as Hn by (intros e [_ Hg]; by apply graphic_free).
  cbv zeta. split; [|split].
  - unfold render. apply split_join; [by destruct (_ <$> _)|]. unfold vhost_lines. apply Forall_app. split.
    + apply Forall_fmap. eapply Forall_impl; [exact He|]. intros e Hg. unfold compose. rewrite contains_byte_app, (Hn e Hg). done.
    + repeat (apply Forall_cons; split; [try done|]); [| |by constructor].
      * rewrite !contains_byte_app. apply orb_false_intro; [done|]. rewrite orb_false_r. apply join_without; [done|].
        eapply Forall_impl; [exact He|exact Hn].
      * rewrite contains_byte_app, requirement_line by done. done.
  - eapply Forall_impl; [exact He|]. intros e [Hne Hg]. apply (fields_join ["Listen"; e]). repeat constructor; [done..| |].
    + done.
    + by apply graphic_spaceless.
  - unfold web_text. rewrite split_written_lines; [done| |done].
    repeat constructor; rewrite contains_byte_app; [by rewrite listeners_free by (done || lia)|by destruct Hf as (_ & _ & ->)].
Qed.
End networks.

(** ** Updates *)

Section facts.
Context {W : Type} `{!Programs W} `{!FileSystem W} `{!AccessHost W} `{Networks}.
Implicit Types (w : W) (p : profile) (s : settings) (a : apache).

Lemma refuses_access_update code s : refuses (update (W := W) code s).
Proof.
  unfold update, update_apache, updateDirect. walk; unfold fail, failure; walk.
Qed.
Lemma access_refuses command arguments : refuses (handle (W := W) command arguments).
Proof.
  pose proof refuses_access_update. unfold handle, reconcilePackage. walk; unfold fail, failure in *; walk.
Qed.

Section undone.
Hypothesis every_write : writable W.
Hypothesis every_removal : ∀ w path, may_remove w path = true.
(** The programs do not write these files. *)
Hypothesis exec_files : ∀ w n args, files (exec w n args).1 = files w.
Implicit Types F G : gmap string string.
Definition holds F w : Prop := files w = F.

Lemma keeps_Run_files F n args : keeps (holds F) (Run n args).
Proof. unfold Run. apply keeps_bind; [|intros o; hold]. apply triple_run. intros w Hw. unfold holds. by rewrite exec_files. Qed.
Lemma keeps_run_or_fail F code n args message : keeps (holds F) (run_or_fail code n args message).
Proof. unfold run_or_fail. apply keeps_bind; [apply keeps_Run_files|]. intros o. destruct (negb o.1); hold. Qed.
Lemma write_holds F path content : triple (holds F) (atomicWrite path content) (λ ok w, ok = true ∧ holds (<[path := content]> F) w) (λ _, False).
Proof. apply triple_touch. intros w <-. rewrite write_at_ok by done. split; [done|]. cbn. apply files_set. Qed.
Lemma or_fail_write F code path content message R :
  triple (holds F) (or_fail code (atomicWrite path content) message) (λ _, holds (<[path := content]> F)) R.
Proof.
  unfold or_fail. eapply triple_bind; [eapply triple_weaken; [apply write_holds|done|done|done]|]. intros ok m [-> Hm]. exact Hm.
Qed.
Lemma remove_holds F path : triple (holds F) (touch (remove_at path)) (λ ok w, (is_Some (F !! path) → ok = true) ∧ holds (base.delete path F) w) (λ _, False).
Proof.
  apply triple_touch. intros w <-. unfold remove_at. destruct (files w !! path) eqn:E.
  - rewrite every_removal. cbn. split; [done|]. apply files_set.
  - cbn. split; [by intros [? [=]]|]. unfold holds. by rewrite delete_id.
Qed.
(** The virtual host may be anything: its restoration gives back what was there. *)
Lemma restore_vhost_holds F G a wasEnabled : (∀ path, path ≠ target a → G !! path = F !! path) →
  triple (holds G) (restore_vhost a (F !! target a) wasEnabled) (λ _, holds F) (holds F).
Proof.
  intros HG. unfold restore_vhost. eapply triple_bind with (Q := λ _, holds F).
  - destruct (F !! target a) as [old|] eqn:E; apply triple_ignore.
    + eapply triple_weaken; [apply write_holds|done| |done]. intros ok w [_ Hw]. unfold holds in *. rewrite Hw.
      apply map_eq. intros path. destruct (decide (target a = path)) as [<-|Hne]; [by rewrite lookup_insert_eq|].
      rewrite lookup_insert_ne by done. by apply HG.
    + eapply triple_weaken; [apply remove_holds|done| |done]. intros ok w [_ Hw]. unfold holds in *. rewrite Hw.
      apply map_eq. intros path. destruct (decide (target a = path)) as [<-|Hne]; [by rewrite lookup_delete_eq|].
      rewrite lookup_delete_ne by done. by apply HG.
  - intros ?. apply keeps_bind.
    + destruct (negb _); [|apply keeps_ret]. apply keeps_ignore. destruct wasEnabled; apply keeps_Run_files.
    + intros ?. apply keeps_bind; [|intros ?]; apply keeps_ignore, keeps_Run_files.
Qed.

(** The files of the virtual host once published. *)
Definition published a (enabled : bool) content F : gmap string string :=
  if negb enabled && String.eqb (SitesAvailable a) (SitesEnabled a)
  then base.delete (target a) F else <[target a := content]> F.
Lemma publish_holds code a (enabled wasEnabled : bool) content F :
  triple (holds (<[target a := content]> F)) (publish code a enabled wasEnabled)
    (λ _, holds (published a enabled content F)) (λ w, ∃ G, holds G w ∧ ∀ path, path ≠ target a → G !! path = F !! path).
Proof.
  set (F' := <[target a := content]> F). assert (∀ path, path ≠ target a → F' !! path = F !! path) as HF.
  { intros path Hp. by apply lookup_insert_ne. }
  assert (∀ n : string, triple (holds F') (do! o := Run n [site_file] in if negb o.1 then fail code "activation du VirtualHost impossible" else ret ())
    (λ _, holds F') (λ w, ∃ G, holds G w ∧ ∀ path, path ≠ target a → G !! path = F !! path)) as Hon.
  { intros n. apply triple_keeps; [|intros w Hw; by exists F']. apply keeps_bind; [apply keeps_Run_files|]. intros o. destruct (negb o.1); hold. }
  unfold publish, published. destruct enabled; cbn [negb andb].
  - destruct (String.eqb _ _); [by apply triple_ret|]. apply triple_look_bind. intros there.
    eapply triple_pre; [|intros w [Hw _]; exact Hw]. destruct there; [by apply triple_ret|apply Hon].
  - destruct (String.eqb _ _).
    + apply triple_look_bind. intros there. eapply triple_bind with (Q := λ ok w, ok = true ∧ holds (base.delete (target a) F) w).
      { eapply triple_weaken; [apply (remove_holds F')|by intros w [Hw _]| |done]. intros ok w [Hok Hw]. split.
        - apply Hok. subst F'. rewrite lookup_insert_eq. by eexists.
        - unfold holds in *. rewrite Hw. subst F'. apply delete_insert_eq. }
      intros ok m [-> Hm]. by rewrite andb_false_r.
    + destruct wasEnabled; [|by apply triple_ret]. apply triple_keeps; [|intros w Hw; by exists F'].
      apply keeps_bind; [apply keeps_Run_files|]. intros o. destruct (negb o.1); hold.
Qed.

(** A step undone by the restoration of the virtual host. *)
Lemma undo_vhost {A} F G a wasEnabled (c : cmd W A) : (∀ path, path ≠ target a → G !! path = F !! path) →
  keeps (holds G) c → triple (holds G) (undoing c (restore_vhost a (F !! target a) wasEnabled)) (λ _, holds G) (holds F).
Proof. intros HG Hc. eapply triple_undoing; [exact Hc|]. by apply restore_vhost_holds. Qed.

Definition vhost_content p s : string :=
  render (endpoint (s_Port s) <$> addresses_of (s_Address s)) (AppRoot p) (requirement (s_AllowFrom s)).
Lemma published_other a enabled content F path : path ≠ target a → published a enabled content F !! path = F !! path.
Proof. intros Hp. unfold published. destruct (_ && _); [by apply lookup_delete_ne|by apply lookup_insert_ne]. Qed.
Lemma update_apache_files code a p s F :
  triple (holds F) (update_apache code a p s)
    (λ d w, holds (<[adminProfile := profile_text (with_settings p s)]> (published a (s_Enabled s) (vhost_content p s) F)) w ∧ d = status w) (holds F).
Proof.
  unfold update_apache. destruct (_ || _); [by apply triple_stop|]. apply triple_look_bind. intros linked.
  destruct linked; [by apply triple_stop; intros w [? _]|]. eapply triple_pre; [|intros w [Hw _]; exact Hw].
  fold (vhost_content p s). set (content := vhost_content p s).
  apply triple_look_bind. intros old. apply triple_look_bind. intros wasEnabled.
  eapply triple_bind with (Q := λ _ w, holds (<[target a := content]> F) w ∧ old = F !! target a).
  { intros m [[Hm Ho] _]. unfold holds in Hm. rewrite Hm in Ho.
    pose proof (or_fail_write F code (target a) content "écriture du VirtualHost impossible" (holds F) m Hm) as Hw.
    destruct (or_fail _ _ _ _) as [[x|r] m']; [|done]. by split. }
  intros ?. apply triple_given. intros ->.
  eapply triple_bind.
  { eapply triple_undoing; [apply publish_holds|]. intros m (G & Hm & HG). revert m Hm. by apply restore_vhost_holds. }
  intros ?. pose proof (published_other a (s_Enabled s) content F) as Hp.
  eapply triple_bind; [apply undo_vhost; [exact Hp|apply keeps_run_or_fail]|]. intros ?.
  eapply triple_bind; [apply undo_vhost; [exact Hp|apply keeps_run_or_fail]|]. intros ?.
  eapply triple_bind; [eapply triple_undoing; [apply (or_fail_write _ _ _ _ _ (λ _, False))|by intros m []]|]. intros ?.
  by apply triple_look.
Qed.

(** A profile of the web program that was not there stays after a refusal. *)
Definition direct_files p s F : gmap string string :=
  <[webProfile := web_text (directListenAddresses (addresses_of (s_Address s)) (s_Port s) (s_Enabled s)) (s_AllowFrom s)]> F.
Definition undone_direct p s F w : Prop := holds F w ∨ (F !! webProfile = None ∧ holds (direct_files p s F) w).
Lemma restore_profiles_holds F G p s : G = direct_files p s F ∨ G = <[adminProfile := profile_text (with_settings p s)]> (direct_files p s F) →
  is_Some (F !! adminProfile) →
  triple (holds G) (restore_profiles (F !! webProfile) (F !! adminProfile)) (λ _, undone_direct p s F) (undone_direct p s F).
Proof.
  intros HG [admin Ha]. unfold restore_profiles, restart_web. rewrite Ha.
  set (G1 := match F !! webProfile with Some c => <[webProfile := c]> G | None => G end).
  assert (holds (<[adminProfile := admin]> G1) = holds F ∨
    (F !! webProfile = None ∧ holds (<[adminProfile := admin]> G1) = holds (direct_files p s F))) as Hend.
  { assert (∀ X, <[adminProfile := admin]> (<[adminProfile := X]> (direct_files p s F)) = <[adminProfile := admin]> (direct_files p s F)) as Hi
      by (intros; by apply insert_insert_eq).
    assert (<[adminProfile := admin]> (direct_files p s F) = direct_files p s F) as He.
    { apply insert_id. unfold direct_files. by rewrite lookup_insert_ne. }
    subst G1. destruct (F !! webProfile) as [web|] eqn:Hw.
    - left. f_equal. apply map_eq. intros path. destruct (decide (adminProfile = path)) as [<-|Hp]; [by rewrite lookup_insert_eq|].
      rewrite lookup_insert_ne by done. destruct (decide (webProfile = path)) as [<-|Hq]; [by rewrite lookup_insert_eq|].
      rewrite lookup_insert_ne by done. destruct HG as [-> | ->]; unfold direct_files; rewrite ?lookup_insert_ne by done; done.
    - right. split; [done|]. f_equal. destruct HG as [-> | ->]; [|rewrite Hi]; exact He. }
  eapply (triple_bind _ _ _ (λ _, holds G1)).
  { subst G1. destruct (F !! webProfile) as [web|]; [|by apply triple_ret]. apply triple_ignore.
    eapply triple_weaken; [apply write_holds|done|by intros ? w [_ ?]|done]. }
  intros ?. eapply (triple_bind _ _ _ (λ _, holds (<[adminProfile := admin]> G1))).
  { apply triple_ignore. eapply triple_weaken; [apply write_holds|done|by intros ? w [_ ?]|done]. }
  intros ?. eapply triple_weaken; [apply keeps_ignore, keeps_Run_files|done|..].
  - intros ? w Hw. cbn in Hw. destruct Hend as [He|[Hn He]]; rewrite He in Hw; [by left|by right].
  - intros w Hw. destruct Hend as [He|[Hn He]]; rewrite He in Hw; [by left|by right].
Qed.
Lemma update_direct_files code p s F : is_Some (F !! adminProfile) →
  triple (holds F) (updateDirect code p s)
    (λ d w, holds (<[adminProfile := profile_text (with_settings p s)]> (direct_files p s F)) w ∧ d = status w) (undone_direct p s F).
Proof.
  intros Ha. unfold updateDirect. apply triple_look_bind. intros linked.
  destruct linked; [by apply triple_stop; intros w [? _]; left|]. eapply triple_pre; [|intros w [Hw _]; exact Hw].
  apply triple_look_bind. intros oldWeb. apply triple_look_bind. intros oldAdmin.
  eapply triple_bind with (Q := λ _ w, holds (direct_files p s F) w ∧ oldWeb = F !! webProfile ∧ oldAdmin = F !! adminProfile).
  { intros m [[Hm Ho] Ho']. unfold holds in Hm. rewrite Hm in Ho, Ho'.
    pose proof (or_fail_write F code webProfile (web_text (directListenAddresses (addresses_of (s_Address s)) (s_Port s) (s_Enabled s)) (s_AllowFrom s))
      "le profil du serveur web Go n’a pas pu être enregistré" (undone_direct p s F) m Hm) as Hw.
    destruct (or_fail _ _ _ _) as [[x|r] m']; [|done]. by split. }
  intros ?. apply triple_given. intros [-> ->].
  eapply triple_bind; [eapply triple_undoing; [apply (or_fail_write _ _ _ _ _ (λ _, False))|by intros m []]|]. intros ?.
  eapply triple_bind.
  { eapply triple_undoing; [|apply (restore_profiles_holds F); [by right|done]]. apply keeps_bind; [apply keeps_Run_files|].
    intros o. destruct (negb o.1); hold. }
  intros ?. by apply triple_look.
Qed.

(** The files after an accepted update. *)
Definition accepted_files p s F : gmap string string :=
  let a := loadApache (F !! apacheProfile) in
  <[adminProfile := profile_text (with_settings p s)]>
    (if apacheAvailable a then published a (s_Enabled s) (vhost_content p s) F else direct_files p s F).

(** C27: An update of the dedicated access is accepted or undone.  Accepted, it was given
    valid settings, the profile that is read from then on has them, its other value kept,
    and the virtual host or the environment of the web program is the one generated; no
    other file changes.  Refused, whatever the step that failed, the files are what they
    were; the one exception is an environment file of the web program that did not exist
    before.  The writes and the removals succeed and the programs leave these files alone. *)
Theorem access_update_spec `{!LawfulNetworks} code s m :
  match update code s m with
  | (Ok d, m') => ∃ p, loadAdmin (files (inside m) !! adminProfile) = Some p ∧ validate s = None ∧
      files (inside m') = accepted_files p s (files (inside m)) ∧
      loadAdmin (files (inside m') !! adminProfile) = Some (with_settings p s) ∧ d = status (inside m')
  | (Err _, m') => files (inside m') = files (inside m) ∨
      (files (inside m) !! webProfile = None ∧ ∃ p, files (inside m') = direct_files p s (files (inside m)))
  end.
Proof.
  set (F := files (inside m)). unfold update. destruct (validate s) eqn:Hv; [by left|].
  unfold read_file. rewrite bind_look. fold F. destruct (loadAdmin (F !! adminProfile)) as [p|] eqn:Hp; [|by left].
  rewrite bind_look. fold F. pose proof (updated_read_back _ _ _ Hp Hv) as Hr.
  assert (∀ G d m', holds (<[adminProfile := profile_text (with_settings p s)]> G) (inside m') ∧ d = status (inside m') →
    (if apacheAvailable (loadApache (F !! apacheProfile)) then published (loadApache (F !! apacheProfile)) (s_Enabled s) (vhost_content p s) F
     else direct_files p s F) = G →
    ∃ q, Some p = Some q ∧ None = @None string ∧ files (inside m') = accepted_files q s F ∧
      loadAdmin (files (inside m') !! adminProfile) = Some (with_settings q s) ∧ d = status (inside m')) as Hend.
  { intros G d m' [Hf Hd] HG. exists p. split; [done|]. split; [done|]. unfold holds in Hf. rewrite Hf. split; [|split; [|done]].
    - unfold accepted_files. cbv zeta. by rewrite HG.
    - by rewrite lookup_insert_eq. }
  destruct (apacheAvailable (loadApache (F !! apacheProfile))) eqn:Ha; cbn [negb].
  - pose proof (update_apache_files code (loadApache (F !! apacheProfile)) p s F m eq_refl) as Hu.
    destruct (update_apache _ _ _ _ m) as [[d|r] m']; [by eapply Hend|by left].
  - assert (is_Some (F !! adminProfile)) as Hs by by destruct (F !! adminProfile).
    pose proof (update_direct_files code p s F Hs m eq_refl) as Hu.
    destruct (updateDirect _ _ _ m) as [[d|r] m']; [by eapply Hend|]. destruct Hu as [Hu|[Hn Hu]]; [by left|right].
    split; [done|]. by exists p.
Qed.
End undone.
End facts.

(** ** A host *)

Record lodge := mkLodge { l_files : gmap string string; l_answer : Z }.
#[global] Instance lodge_system : FileSystem lodge.
Proof.
  refine {| files := l_files; set_files fs w := mkLodge fs (l_answer w); may_write _ _ _ := true; may_remove _ _ := true |}. done.
Defined.
#[global] Instance lodge_host : AccessHost lodge := {| present w p := bool_decide (is_Some (l_files w !! p)); symlink _ _ := false |}.
Definition lodge_addresses : list string := ["192.0.2.1"; "2001:db8::1"].
#[global] Instance lodge_networks : Networks := {|
  is_ip s := existsb (String.eqb s) lodge_addresses; is_cidr s := String.eqb s "192.0.2.0/24"; quoted := in_quotes |}.
#[global] Instance lodge_lawful : LawfulNetworks.
Proof.
  split; intros s; cbn.
  - intros [Hs|[Hs|[=]]%orb_prop]%orb_prop; apply String.eqb_eq in Hs as ->; done.
  - intros Hs. apply String.eqb_eq in Hs as ->. done.
Defined.
(** Without Apache, then with it; every program gives the answer of the host. *)
Definition lodge_direct : Programs lodge := {| exec w _ _ := (w, mkOutcome "" "" (l_answer w)); executable _ := false |}.
Definition lodge_apache : Programs lodge := {| exec w _ _ := (w, mkOutcome "" "" (l_answer w)); executable _ := true |}.
Definition lodge_profile : string := profile_text (mkProfile false "/opt/aegisadmin" "*" "all" 9443).
Definition lodge_settings : settings := mkSettings true 8443 (" 192.0.2.1," +++ snl +++ "2001:db8::1") "192.0.2.0/24".
Definition lodge_before (answer : Z) : Machine lodge := mkMachine (mkLodge {[adminProfile := lodge_profile]} answer) [].

Lemma access_update_spec_witness :
  match update (Programs0 := lodge_apache) "X" lodge_settings (lodge_before 0) with
  | (Ok d, m') => ∃ p, loadAdmin (files (inside (lodge_before 0)) !! adminProfile) = Some p ∧ validate lodge_settings = None ∧
      files (inside m') = accepted_files (Programs0 := lodge_apache) p lodge_settings (files (inside (lodge_before 0))) ∧
      loadAdmin (files (inside m') !! adminProfile) = Some (with_settings p lodge_settings) ∧
      d = status (Programs0 := lodge_apache) (inside m')
  | (Err _, m') => files (inside m') = files (inside (lodge_before 0)) ∨
      (files (inside (lodge_before 0)) !! webProfile = None ∧ ∃ p, files (inside m') = direct_files p lodge_settings (files (inside (lodge_before 0))))
  end.
Proof. apply (access_update_spec (Programs0 := lodge_apache)); first [by intros|apply lodge_lawful]. Defined.
Lemma generated_lines_witness :
  validate lodge_settings = None ∧
  Forall (λ e, fields ("Listen " +++ e) = ["Listen"; e]) ["192.0.2.1:8443"; "[2001:db8::1]:8443"].
Proof. split; [done|]. exact (proj1 (proj2 (generated_lines lodge_settings "/opt/aegisadmin" eq_refl))). Defined.

Example lodge_accepted :
  l_files (inside (update (Programs0 := lodge_apache) "X" lodge_settings (lodge_before 0)).2) !! adminProfile =
    Some (join snl ["enabled=true"; "app_root=/opt/aegisadmin"; "address=192.0.2.1,2001:db8::1"; "port=8443";
                    "allow_from=192.0.2.0/24"; ""]).
Proof. vm_compute. reflexivity. Qed.
(** The web program does not start again: the update is refused, and the environment file
    that was not there before keeps the new listener. *)
Lemma direct_not_undone :
  let (r, m') := update (Programs0 := lodge_direct) "X" lodge_settings (lodge_before 1) in
  is_ok r = false ∧ is_Some (l_files (inside m') !! webProfile) ∧ l_files (inside m') !! adminProfile = Some lodge_profile.
Proof. vm_compute. split_and!; [done|by eexists|done]. Qed.
