(* ===== verification/Snapshots.v ===== *)
(** * Snapshots of the configuration: [domain/configuration/snapshots.go]

    The files the configuration domain keeps: a document that holds an inventory with its
    fingerprint, written once under a name derived from its date and that fingerprint, and
    beside it the editable metadata.  An inventory is the JSON value [encoding/json] writes
    for it; what is decoded holds its objects with sorted keys, as Go's maps are marshalled. *)

From S2P Require Import Prelude GoStrings StringFacts Regex Time Codec Json JsonParse JsonMore JsonPretty Command Files.
From S2P Require Api Backup.
From Stdlib Require Import Ascii String.
#[local] Open Scope string_scope.
#[local] Open Scope list_scope.
#[local] Open Scope Z_scope.
#[local] Notation members := jmap (only parsing).

Import Api(Value, VStr, VInt, VBool, VNum, VList, VMap, VNil).
Import Backup(Join).

(** ** JSON values as Go's [map[string]any] *)

Definition stringValue (v : option json) : string := any_text v.
Definition boolean (v : option json) : bool := match v with Some (JBool b) => b | _ => false end.
Definition object (v : option json) : members := match v with Some (JObj m) => m | _ => [] end.
Notation field k m := (any_member k m) (only parsing).

Fixpoint value_of (v : json) : Value :=
  match v with
  | JNull => VNil
  | JBool b => VBool b
  | JNum s => VNum s
  | JStr s => VStr s
  | JArr l => VList (map value_of l)
  | JObj m => VMap (map (λ kv, (kv.1, value_of kv.2)) m)
  end.

(** ** Documents *)

Definition snapshotSchema : string := "aegisadmin.configuration.snapshot.v1".
Definition maximumSnapshotSize : Z := 32 * 1024 * 1024.
Definition defaultSnapshotDir : string := "/var/lib/aegisadmin-system/configuration/snapshots".
(** [^[0-9]{8}T[0-9]{6}Z-[a-f0-9]{12}$] *)
Definition snapshotIDPattern : rx :=
  Rep is_digit 8 8 ;;; Cls (Ascii.eqb "T") ;;; Rep is_digit 6 6 ;;; Cls (Ascii.eqb "Z") ;;; Cls (Ascii.eqb "-") ;;; Rep is_hex_lower 12 12.

Record Snapshot := mkSnapshot {
  Schema : string; ID : string; CreatedAt : string;
  InventorySchema : string; InventorySHA256 : string; Inventory : members }.
Definition snapshot_json (s : Snapshot) : json :=
  JObj [("schema", JStr (Schema s)); ("id", JStr (ID s)); ("created_at", JStr (CreatedAt s));
        ("inventory_schema", JStr (InventorySchema s)); ("inventory_sha256", JStr (InventorySHA256 s));
        ("inventory", JObj (Inventory s))].
(** What [create] writes. *)
Definition snapshot_text (s : Snapshot) : string := json_pretty 0 (snapshot_json s) +++ snl.

Record snapshotDocument := mkDocument {
  d_Schema : string; d_ID : string; d_CreatedAt : string; d_InventorySchema : string; d_InventorySHA256 : string;
  d_Inventory : option string }.   (** the text of the field *)
Definition document_fields : list string := ["schema"; "id"; "created_at"; "inventory_schema"; "inventory_sha256"; "inventory"].
(** The members of an object whose text is at hand; an unknown field is an error. *)
Definition document_of (m : members) (content : string) : option snapshotDocument :=
  let '(schema, ok1) := store_field "schema" store_string "" m in
  let '(id, ok2) := store_field "id" store_string "" m in
  let '(created, ok3) := store_field "created_at" store_string "" m in
  let '(ischema, ok4) := store_field "inventory_schema" store_string "" m in
  let '(sha, ok5) := store_field "inventory_sha256" store_string "" m in
  if forallb (λ kv, existsb (λ name, same_key name kv.1) document_fields) m && ok1 && ok2 && ok3 && ok4 && ok5
  then Some (mkDocument schema id created ischema sha (raw_field "inventory" content)) else None.

Definition fingerprint (text : string) : string := hex_encode (sha256 text).
Definition decodeSnapshot (content id : string) : option Snapshot :=
  match json_prefix content with
  | Some (JObj m, rest) =>
      if negb (String.eqb (skip_space rest) "") then None
      else match document_of m content with
      | None => None
      | Some d =>
          match d_Inventory d with
          | None => None
          | Some inventory =>
              if negb (String.eqb (d_Schema d) snapshotSchema) || negb (String.eqb (d_ID d) id) || String.eqb (d_InventorySchema d) ""
                 || negb (slen (d_InventorySHA256 d) =? 64)
              then None
              else match parse_rfc3339 (d_CreatedAt d) with
              | None => None
              | Some createdAt =>
                  if negb (has_prefix id (stamp createdAt +++ "-")) then None
                  else if negb (String.eqb (smap ascii_lower (d_InventorySHA256 d)) (fingerprint (compact inventory)))
                          || negb (has_suffix id ("-" +++ stake 12 (d_InventorySHA256 d)))
                  then None
                  else match json_parse inventory with
                  | Some (JObj values) =>
                      let values := canonical_members values in
                      if String.eqb (d_InventorySchema d) (stringValue (field "schema" values))
                      then Some (mkSnapshot (d_Schema d) (d_ID d) (d_CreatedAt d) (d_InventorySchema d) (d_InventorySHA256 d) values)
                      else None
                  | _ => None
                  end
              end
          end
      end
  | _ => None
  end.

(** ** Inventories *)

(** The sections that are objects with an identifier, the last of each. *)
Definition index_section (m : gmap string members) (raw : json) : gmap string members :=
  match raw with
  | JObj section => let id := stringValue (field "id" section) in if String.eqb id "" then m else <[id := section]> m
  | _ => m
  end.
Definition indexedSections (inventory : members) : gmap string members :=
  match field "sections" inventory with Some (JArr l) => fold_left index_section l ∅ | _ => ∅ end.
Definition inventoryCounts (inventory : members) : Z * Z :=
  match field "sections" inventory with
  | Some (JArr l) =>
      (Z.of_nat (List.length (List.filter (λ raw, match raw with JObj section => boolean (field "available" section) | _ => false end) l)),
       Z.of_nat (List.length l))
  | _ => (0, 0)
  end.
(** The first name of the host there is, of the section [system]: the sections have distinct identifiers. *)
Definition inventorySource (inventory : members) : string :=
  match indexedSections inventory !! "system" with
  | None => ""
  | Some section =>
      let info := object (field "info" (object (field "data" section))) in
      default "" (head (List.filter (λ v, negb (String.eqb v "")) ((λ key, stringValue (field key info)) <$> ["hostname"; "host"; "name"])))
  end.

(** ** Metadata *)

Record snapshotMetadata := mkMetadata { Name : string; Imported : bool; ImportedAt : string; Source : string }.
Definition normalizeSnapshotName (name : string) : option string :=
  let name := trim_space name in
  if String.eqb name "" || (100 <? rune_count name) || contains_any name (String cr (String nl (String nul ""))) then None else Some name.
Definition metadata_json (m : snapshotMetadata) : json :=
  JObj ([("name", JStr (Name m)); ("imported", JBool (Imported m))] ++
        (if String.eqb (ImportedAt m) "" then [] else [("imported_at", JStr (ImportedAt m))]) ++
        (if String.eqb (Source m) "" then [] else [("source", JStr (Source m))])).
Definition metadata_text (m : snapshotMetadata) : string := json_pretty 0 (metadata_json m) +++ snl.
Definition metadata_of (text : string) : option snapshotMetadata :=
  match json_parse text with
  | Some JNull => Some (mkMetadata "" false "" "")
  | Some (JObj m) =>
      let '(name, ok1) := store_field "name" store_string "" m in
      let '(imported, ok2) := store_field "imported" store_bool false m in
      let '(at_, ok3) := store_field "imported_at" store_string "" m in
      let '(source, ok4) := store_field "source" store_string "" m in
      if ok1 && ok2 && ok3 && ok4 then Some (mkMetadata name imported at_ source) else None
  | _ => None
  end.

(** ** The store *)

(** The directory as the calls of [os] see it; the regular files are those of [FileSystem]. *)
Class SnapshotHost (W : Type) := {
  directory_ready : W → bool;           (** the directory is made, is a directory, takes its mode *)
  obstacle : W → string → bool;         (** something that is not a regular file has this path *)
  lstat_fails : W → string → bool;      (** [os.Lstat] fails otherwise than for want of a file *)
  may_read : W → string → bool;
  may_chmod : W → string → bool;
  listed : W → option (list (string * bool));   (** the entries of the directory, the symbolic links told apart *)
  clock : W → Z;                        (** when the store reads it *)
  inventory_clock : W → Z;              (** when the inventory is dated, before that *)
}.

Inductive store_error := AlreadyExists | OtherError.

Section store.
Context {W : Type} `{!FileSystem W} `{!SnapshotHost W}.
Implicit Types (w : W).

Definition snapshot_path (id : string) : string := Join defaultSnapshotDir (id +++ ".json").
Definition metadata_path (id : string) : string := Join defaultSnapshotDir (id +++ ".meta.json").
Definition read_at (path : string) w : option string := if may_read w path then files w !! path else None.

(** The file is written apart, then linked under its name, which must be free. *)
Definition writeImmutable (target content : string) w : res store_error () * W :=
  if negb (may_write w target content) then (Err OtherError, w)
  else if bool_decide (is_Some (files w !! target)) || obstacle w target then (Err AlreadyExists, w)
  else (Ok (), set_files (<[target := content]> (files w)) w).

Definition stored (id : string) w : option string :=
  if negb (full snapshotIDPattern id) || negb (directory_ready w) then None
  else if lstat_fails w (snapshot_path id) || obstacle w (snapshot_path id) then None
  else match read_at (snapshot_path id) w with
  | Some content => if maximumSnapshotSize <? slen content then None else Some content
  | None => None
  end.
Definition get (id : string) w : option Snapshot :=
  match stored id w with Some content => decodeSnapshot content id | None => None end.
Definition export (id : string) w : option string :=
  match get id w with None => None | Some _ => read_at (snapshot_path id) w end.

Definition metadata (id : string) w : snapshotMetadata :=
  let unnamed := mkMetadata id false "" "" in
  match read_at (metadata_path id) w with
  | None => unnamed
  | Some content =>
      match metadata_of content with
      | None => unnamed
      | Some m => mkMetadata (default id (normalizeSnapshotName (Name m))) (Imported m) (ImportedAt m) (Source m)
      end
  end.
Definition writeMetadata (id : string) (m : snapshotMetadata) w : bool * W :=
  match normalizeSnapshotName (Name m) with
  | None => (false, w)
  | Some name =>
      if negb (full snapshotIDPattern id) then (false, w)
      else write_at (metadata_path id) (metadata_text (mkMetadata name (Imported m) (ImportedAt m) (Source m))) w
  end.
Definition rename (id name : string) w : bool * W :=
  match get id w with
  | None => (false, w)
  | Some _ => let m := metadata id w in writeMetadata id (mkMetadata name (Imported m) (ImportedAt m) (Source m)) w
  end.

(** The document is written, then its metadata, without which it is removed. *)
Definition keep_with (target : string) (s : Snapshot) (m : snapshotMetadata) w : res store_error Snapshot * W :=
  let (ok, w') := writeMetadata (ID s) m w in
  if ok : bool then (Ok s, w') else (Err OtherError, (remove_at target w').2).
Definition new_snapshot (inventory : members) (createdAt : Z) : Snapshot :=
  let sum := fingerprint (json_text (JObj inventory)) in
  mkSnapshot snapshotSchema (stamp createdAt +++ "-" +++ stake 12 sum) (rfc3339 createdAt)
    (stringValue (field "schema" inventory)) sum inventory.
Definition create (inventory : members) w : res store_error Snapshot * W :=
  if negb (directory_ready w) then (Err OtherError, w)
  else
    let s := new_snapshot inventory (clock w) in
    let content := snapshot_text s in
    if maximumSnapshotSize <? slen content then (Err OtherError, w)
    else
      let target := snapshot_path (ID s) in
      match writeImmutable target content w with
      | (Err e, w) => (match e, get (ID s) w with AlreadyExists, Some existing => Ok existing | _, _ => Err e end, w)
      | (Ok _, w) => keep_with target s (mkMetadata ("Snapshot " +++ CreatedAt s) false "" (inventorySource inventory)) w
      end.
(** [json.Unmarshal] into a struct whose only field is the identifier. *)
Definition identity_of (content : string) : option string :=
  match json_parse content with
  | Some JNull => Some ""
  | Some (JObj m) => let (id, ok) := store_field "id" store_string "" m in if ok : bool then Some id else None
  | _ => None
  end.
Definition importSnapshot (content name : string) w : res store_error Snapshot * W :=
  if negb (directory_ready w) then (Err OtherError, w)
  else if String.eqb content "" || (maximumSnapshotSize <? slen content) then (Err OtherError, w)
  else match identity_of content with
  | None => (Err OtherError, w)
  | Some id =>
      if negb (full snapshotIDPattern id) then (Err OtherError, w)
      else match decodeSnapshot content id, normalizeSnapshotName name with
      | Some s, Some name =>
          let target := snapshot_path (ID s) in
          if lstat_fails w target then (Err OtherError, w)
          else if bool_decide (is_Some (files w !! target)) || obstacle w target then (Err AlreadyExists, w)
          else match writeImmutable target content w with
          | (Err e, w) => (Err e, w)
          | (Ok _, w) => keep_with target s (mkMetadata name true (rfc3339 (clock w)) (inventorySource (Inventory s))) w
          end
      | _, _ => (Err OtherError, w)
      end
  end.
Definition delete (id : string) w : bool * W :=
  match get id w with
  | None => (false, w)
  | Some _ =>
      if negb (may_chmod w (snapshot_path id)) then (false, w)
      else
        let (ok, w) := remove_at (snapshot_path id) w in
        if ok : bool then (true, (remove_at (metadata_path id) w).2) else (false, w)
  end.

Definition data := list (string * Value).
Definition list_entry w (entry : string * bool) : option (string * data) :=
  let (name, link) := entry in
  if link || negb (has_suffix name ".json") then None
  else
    let id := trim_suffix name ".json" in
    if negb (full snapshotIDPattern id) then None
    else Some (id, match get id w with
      | None => [("id", VStr id); ("valid", VBool false); ("message", VStr "Le snapshot est illisible ou altéré.")]
      | Some s =>
          let (available, total) := inventoryCounts (Inventory s) in
          let m := metadata id w in
          [("id", VStr (ID s)); ("created_at", VStr (CreatedAt s)); ("valid", VBool true);
           ("name", VStr (Name m)); ("imported", VBool (Imported m)); ("source", VStr (Source m));
           ("inventory_schema", VStr (InventorySchema s)); ("inventory_sha256", VStr (InventorySHA256 s));
           ("available_sections", VInt available); ("total_sections", VInt total);
           ("size", VInt (match files w !! snapshot_path id with Some content => slen content | None => 0 end))]
      end).
(** The most recent first. *)
Definition later (x y : string * data) : Prop := str_le y.1 x.1.
#[global] Instance later_dec x y : Decision (later x y).
Proof. unfold later. apply _. Defined.
Definition list_snapshots w : option (list data) :=
  if negb (directory_ready w) then None
  else match listed w with
  | None => None
  | Some entries => Some (snd <$> merge_sort later (omap (list_entry w) entries))
  end.
End store.

(** ** Comparison *)

Inductive comparison := identical | different | missing_source | missing_target.
#[global] Instance comparison_eq_dec : EqDecision comparison.
Proof. solve_decision. Defined.
Definition comparison_name (c : comparison) : string :=
  match c with identical => "identical" | different => "different" | missing_source => "missing_source" | missing_target => "missing_target" end.

Definition equalJSON (left right : members) : bool :=
  String.eqb (json_text (canonical (JObj left))) (json_text (canonical (JObj right))).
Definition section_status (left right : option members) : comparison :=
  match left, right with
  | None, _ => missing_source
  | _, None => missing_target
  | Some l, Some r => if equalJSON l r then identical else different
  end.
Definition label_of (section : option members) : string :=
  match section with Some s => stringValue (field "label" s) | None => "" end.
Definition or_null (section : option members) : Value := match section with Some s => value_of (JObj s) | None => VNil end.
Definition compare_section (source target : gmap string members) (id : string) : comparison * data :=
  let left := source !! id in
  let right := target !! id in
  let status := section_status left right in
  let label := if negb (String.eqb (label_of left) "") then label_of left
               else if negb (String.eqb (label_of right) "") then label_of right else id in
  (status, [("id", VStr id); ("label", VStr label); ("status", VStr (comparison_name status))] ++
           (if decide (status = identical) then [] else [("source", or_null left); ("target", or_null right)])).
Definition compared_ids (source target : gmap string members) : list string :=
  sort_strings (base.elements (dom source ∪ dom target : gset string)).
Definition compared (source target : gmap string members) : list (comparison * data) :=
  compare_section source target <$> compared_ids source target.
Definition count_of (c : comparison) (l : list (comparison * data)) : Z :=
  Z.of_nat (List.length (filter (λ x, x.1 = c) l)).
Definition compareSnapshots (source target : Snapshot) : data :=
  let l := compared (indexedSections (Inventory source)) (indexedSections (Inventory target)) in
  [("source_id", VStr (ID source)); ("target_id", VStr (ID target));
   ("counts", VMap ((λ c, (comparison_name c, VInt (count_of c l))) <$> [identical; different; missing_source; missing_target]));
   ("sections", VList (VMap ∘ snd <$> l))].
