(* ===== verification/SnapshotsFacts.v ===== *)
(** * Properties of the snapshots

    What is written is read back, what is exported is imported as it was, a stored
    snapshot only disappears by its deletion, and the comparison of two inventories. *)

From S2P Require Import Prelude GoStrings StringFacts Regex Time Codec Json JsonParse JsonMore JsonPretty Command Triple Files Snapshots.
From S2P Require Api Backup.
From Stdlib Require Import Ascii String.
#[local] Open Scope string_scope.
#[local] Open Scope list_scope.
#[local] Open Scope Z_scope.
#[local] Notation members := jmap (only parsing).

Import Api(Value, VStr, VInt, VBool, VNum, VList, VMap, VNil).
Import Backup(Join).
#[local] Notation get := Snapshots.get.

(** ** Identifiers *)

Lemma sha256_round_length st kw : List.length st = 8%nat → List.length (sha256_round st kw) = 8%nat.
Proof. unfold sha256_round. intros H. by do 9 (destruct st as [|? st]; try done). Qed.
Lemma sha256_block_length h b : List.length h = 8%nat → List.length (sha256_block h b) = 8%nat.
Proof.
  intros Hh. unfold sha256_block. rewrite length_zip_with. enough (∀ l st, List.length st = 8%nat → List.length (fold_left sha256_round l st) = 8%nat) as ->.
  - by rewrite Hh.
  - done.
  - induction l as [|kw l IH]; intros st Hst; [done|]. cbn [fold_left]. by apply IH, sha256_round_length.
Qed.
Lemma sha256_length s : String.length (sha256 s) = 32%nat.
Proof.
  unfold sha256. set (words := fold_left _ _ _).
  assert (List.length words = 8%nat) as Hw.
  { subst words. generalize (blocks_of (sha_pad s)). intros l. assert (List.length sha256_h = 8%nat) as H8 by reflexivity.
    revert H8. generalize sha256_h. induction l as [|b l IH]; intros h Hh; [done|]. cbn [fold_left]. by apply IH, sha256_block_length. }
  clearbody words. do 9 (destruct words as [|? words]; try done).
Qed.
Lemma fingerprint_length s : String.length (fingerprint s) = 64%nat.
Proof. unfold fingerprint. by rewrite hex_encode_length, sha256_length. Qed.
Lemma fingerprint_lower s : sforall is_hex_lower (fingerprint s) = true.
Proof. apply hex_encode_lower. Qed.
Lemma lower_of_hex s : sforall is_hex_lower s = true → smap ascii_lower s = s.
Proof.
  induction s as [|c s IH]; [done|]. cbn [sforall smap]. intros [Hc Hs]%andb_prop. rewrite IH by done. f_equal.
  destruct c as [[] [] [] [] [] [] [] []]; revert Hc; by vm_compute.
Qed.

Lemma two_length n : String.length (two n) = 2%nat.
Proof. done. Qed.
Lemma Lang_fixed p n s : String.length s = n → sforall p s = true → Lang (Rep p n n) s.
Proof. intros <- Hs. by apply Lang_rep. Qed.
(** What a date and a fingerprint make is an identifier. *)
Lemma identifier_full t sum :
  in_range t → String.length sum = 12%nat → sforall is_hex_lower sum = true →
  full snapshotIDPattern (stamp t +++ "-" +++ sum) = true.
Proof.
  intros Ht Hl Hs. unfold stamp. destruct (date_of (t / 86400)) as [[y m] d] eqn:Hd.
  pose proof (year_range t y m d Ht Hd) as Hy. apply date_of_spec in Hd as (_ & Hm & Hdd).
  assert (month_days y m <= 31) by (unfold month_days; repeat case_match; lia).
  pose proof (clock_range t) as Hc. destruct (clock_of (t mod 86400)) as [[h mi] s]. destruct Hc as (Hh & Hmi & Hsec & _).
  unfold full. rewrite rx_match_spec. unfold snapshotIDPattern.
  assert (0 <= y / 100 < 100) by (split; [apply Z.div_pos|apply Z.div_lt_upper_bound]; lia).
  assert (0 <= y mod 100 < 100) by (apply Z.mod_pos_bound; lia).
  replace (_ +++ "-" +++ sum) with ((four y +++ two m +++ two d) +++ "T" +++ (two h +++ two mi +++ two s) +++ "Z" +++ "-" +++ sum)
    by (rewrite !sapp_assoc; done).
  constructor; [apply Lang_fixed; [done|]; unfold four; by rewrite !sforall_app, !two_digits by lia|].
  constructor; [by apply (L_cls _ "T")|].
  constructor; [apply Lang_fixed; [done|]; by rewrite !sforall_app, !two_digits by lia|].
  constructor; [by apply (L_cls _ "Z")|]. constructor; [by apply (L_cls _ "-")|]. by apply Lang_fixed.
Qed.

(** A text whose reading is ASCII was read as it was. *)
Lemma coerce_ascii s : ∀ skip, sforall is_ascii_byte (coerce skip s) = true → coerce skip s = s.
Proof.
  induction s as [|c s IH]; intros skip H; [done|]. cbn [coerce] in *. destruct skip as [|k].
  - destruct (rune_width (String c s)) as [|k]; [done|]. cbn [sforall] in H. apply andb_prop in H as [_ H]. by rewrite IH.
  - cbn [sforall] in H. apply andb_prop in H as [_ H]. by rewrite IH.
Qed.
Lemma any_member_read m k : sforall is_ascii_byte k = true →
  any_member k (map (λ kv, (to_text kv.1, to_json kv.2)) m) = to_json <$> any_member k m.
Proof.
  intros Hk. unfold any_member. rewrite <- fmap_last. f_equal. induction m as [|[k' v] m IH]; [done|].
  cbn [map omap list_omap fst snd]. assert (String.eqb (to_text k') k = String.eqb k' k) as ->.
  { destruct (String.eqb_spec (to_text k') k) as [E|E], (String.eqb_spec k' k) as [->|E']; try done.
    - destruct E'. rewrite <- E. symmetry. apply coerce_ascii. unfold to_text in E. by rewrite E.
    - destruct E. by apply to_text_ascii. }
  destruct (String.eqb k' k); cbn [fmap list_fmap]; by rewrite IH.
Qed.

(** ** What is written is decoded *)

(** The inventory as it is read back. *)
Definition reread (m : members) : members := canonical_members (map (λ kv, (to_text kv.1, to_json kv.2)) m).
Definition read_snapshot (s : Snapshot) : Snapshot :=
  mkSnapshot (Schema s) (ID s) (CreatedAt s) (InventorySchema s) (InventorySHA256 s) (reread (Inventory s)).

Lemma hex_ascii s : sforall is_hex_lower s = true → sforall is_ascii_byte s = true.
Proof. apply sforall_weaken. intros c. by destruct c as [[] [] [] [] [] [] [] []]; vm_compute. Qed.
Lemma graphic_ascii s : sforall graphic s = true → sforall is_ascii_byte s = true.
Proof. apply sforall_weaken. intros c. by destruct c as [[] [] [] [] [] [] [] []]; vm_compute. Qed.
Lemma stamp_ascii t : in_range t → sforall is_ascii_byte (stamp t) = true.
Proof.
  intros Ht. assert (full snapshotIDPattern (stamp t +++ "-" +++ "000000000000") = true) as Hf by (by apply identifier_full).
  apply (full_bytes is_ascii_byte) in Hf.
  - rewrite sforall_app in Hf. by apply andb_prop in Hf as [? _].
  - unfold snapshotIDPattern, rx_bytes.
    split_and!; intros c; by destruct c as [[] [] [] [] [] [] [] []]; vm_compute.
Qed.
(** An inventory the domain can keep: what [encoding/json] writes, with an ASCII schema. *)
Definition encodable (inv : members) : Prop :=
  json_ok (Nat.pred max_depth) (JObj inv) = true ∧
  ∃ schema, any_member "schema" inv = Some (JStr schema) ∧ schema ≠ "" ∧ sforall is_ascii_byte schema = true.

Lemma depth_pred : max_depth = S (Nat.pred max_depth).
Proof. unfold max_depth. lia. Qed.
Lemma snapshot_ok s : json_ok (Nat.pred max_depth) (JObj (Inventory s)) = true → json_ok max_depth (snapshot_json s) = true.
Proof. intros H. rewrite depth_pred. unfold snapshot_json.
  change (json_ok (Nat.pred max_depth) (JObj (Inventory s)) && true = true). by rewrite H.
Qed.
Lemma inventory_ok inv : json_ok (Nat.pred max_depth) (JObj inv) = true → json_ok max_depth (JObj inv) = true.
Proof. intros H. rewrite depth_pred. by apply json_ok_mono. Qed.

(** The fields of a document whose strings are ASCII. *)
Lemma document_written s content :
  sforall is_ascii_byte (Schema s) = true → sforall is_ascii_byte (ID s) = true → sforall is_ascii_byte (CreatedAt s) = true →
  sforall is_ascii_byte (InventorySchema s) = true → sforall is_ascii_byte (InventorySHA256 s) = true →
  ∃ m, to_json (snapshot_json s) = JObj m ∧
    document_of m content = Some (mkDocument (Schema s) (ID s) (CreatedAt s) (InventorySchema s) (InventorySHA256 s) (raw_field "inventory" content)).
Proof.
  intros H1 H2 H3 H4 H5. eexists. split; [reflexivity|]. cbn [map fst snd to_json].
  change (to_text "schema") with "schema". change (to_text "id") with "id". change (to_text "created_at") with "created_at".
  change (to_text "inventory_schema") with "inventory_schema". change (to_text "inventory_sha256") with "inventory_sha256".
  change (to_text "inventory") with "inventory". rewrite !to_text_ascii by done. unfold document_of. read_fields. done.
Qed.
Lemma inventory_written s t : json_ok max_depth (snapshot_json s) = true →
  raw_field "inventory" (json_pretty 0 (snapshot_json s) +++ t) = Some (json_pretty 1 (JObj (Inventory s))).
Proof. intros Hs. unfold raw_field, snapshot_json in *. by rewrite raw_object_pretty by done. Qed.

Lemma decode_written inv t :
  in_range t → encodable inv →
  decodeSnapshot (snapshot_text (new_snapshot inv t)) (ID (new_snapshot inv t)) = Some (read_snapshot (new_snapshot inv t)).
Proof.
  intros Ht (Hinv & schema & Hs & Hne & Ha). set (s := new_snapshot inv t). unfold decodeSnapshot, snapshot_text.
  assert (InventorySchema s = schema) as Hschema by (subst s; unfold new_snapshot; cbn [InventorySchema]; by rewrite Hs).
  pose proof (fingerprint_lower (json_text (JObj inv))) as Hlow.
  assert (json_ok max_depth (snapshot_json s) = true) as Hok by by apply snapshot_ok.
  rewrite prefix_pretty by done.
  destruct (document_written s (json_pretty 0 (snapshot_json s) +++ snl)) as (m & -> & ->).
  - done.
  - subst s. cbn [ID new_snapshot]. rewrite !sforall_app, stamp_ascii by done. by apply sforall_stake, hex_ascii.
  - by apply graphic_ascii, rfc3339_graphic.
  - by rewrite Hschema.
  - by apply hex_ascii.
  - change (skip_space snl) with "". cbn [String.eqb negb d_Inventory d_Schema d_ID d_InventorySchema d_InventorySHA256 d_CreatedAt].
    rewrite inventory_written by done. rewrite Hschema. subst s. cbn [Schema ID InventorySHA256 Inventory CreatedAt new_snapshot].
    rewrite !String.eqb_refl. unfold slen. rewrite fingerprint_length. apply String.eqb_neq in Hne as ->. cbn [negb orb].
    change (Z.of_nat 64 =? 64) with true. cbn [negb].
    rewrite parse_rfc3339_text by done. 
    rewrite (lower_of_hex _ Hlow), compact_of_pretty by by apply inventory_ok.
    rewrite <- sapp_assoc, has_prefix_app. rewrite sapp_assoc, has_suffix_app, String.eqb_refl. cbn [negb orb].
    rewrite <- (sapp_nil_r (json_pretty 1 _)), parse_pretty; [|by apply inventory_ok|done|done].
    cbn [to_json]. rewrite any_member_canonical, any_member_read, Hs by done. cbn [fmap option_fmap option_map to_json canonical stringValue any_text].
    unfold stringValue, any_text. rewrite to_text_ascii by done. rewrite String.eqb_refl. unfold read_snapshot, reread, new_snapshot.
    cbn [Schema ID InventorySHA256 Inventory CreatedAt InventorySchema]. unfold stringValue, any_text. by rewrite Hs.
Qed.

(** ** Paths *)

Definition id_byte (c : ascii) : bool := is_digit c || is_lower c || is_upper c || Ascii.eqb c "-".
Lemma id_bytes id : full snapshotIDPattern id = true → sforall id_byte id = true.
Proof.
  intros Hf. eapply full_bytes; [done|]. unfold snapshotIDPattern, rx_bytes.
  split_and!; intros c; by destruct c as [[] [] [] [] [] [] [] []]; vm_compute.
Qed.
Lemma identifier_free c id : id_byte c = false → full snapshotIDPattern id = true → contains_byte c id = false.
Proof. intros Hc Hid%id_bytes. by eapply sforall_not_contains. Qed.
Lemma file_of_directory id ext : full snapshotIDPattern id = true → ext = ".json" ∨ ext = ".meta.json" →
  Join defaultSnapshotDir (id +++ ext) = defaultSnapshotDir +++ "/" +++ id +++ ext.
Proof.
  intros Hid Hext. rewrite Backup.Join_elements; [|done|].
  - change (Backup.clean_elements defaultSnapshotDir) with ["var"; "lib"; "aegisadmin-system"; "configuration"; "snapshots"]. reflexivity.
  - assert (String.length (id +++ ext) ≥ 3)%nat as Hl by (rewrite sapp_length; destruct Hext as [->| ->]; cbn [String.length]; lia).
    repeat split; try (intros E; rewrite E in Hl; cbn [String.length] in Hl; lia).
    rewrite contains_byte_app, (identifier_free Backup.slash id) by done. by destruct Hext as [->| ->].
Qed.
Lemma extension_inj id id' ext ext' :
  full snapshotIDPattern id = true → full snapshotIDPattern id' = true → id +++ String "." ext = id' +++ String "." ext' → id = id' ∧ ext = ext'.
Proof.
  intros Hid Hid' E. pose proof (cut_app "." id ext (identifier_free "." _ eq_refl Hid)) as H1.
  rewrite E, (cut_app "." id' ext' (identifier_free "." _ eq_refl Hid')) in H1. by injection H1 as -> ->.
Qed.
Lemma snapshot_path_inj id id' :
  full snapshotIDPattern id = true → full snapshotIDPattern id' = true → snapshot_path id = snapshot_path id' → id = id'.
Proof.
  intros Hid Hid'. unfold snapshot_path. rewrite !file_of_directory by auto. intros E%sapp_inj_l%sapp_inj_l.
  by apply extension_inj in E as [? _].
Qed.
Lemma metadata_apart id id' :
  full snapshotIDPattern id = true → full snapshotIDPattern id' = true → snapshot_path id ≠ metadata_path id'.
Proof.
  intros Hid Hid'. unfold snapshot_path, metadata_path. rewrite !file_of_directory by auto. intros E%sapp_inj_l%sapp_inj_l.
  by apply extension_inj in E as [_ ?].
Qed.

(** ** The operations and the files *)

Section store.
Context {W : Type} `{!FileSystem W} `{!SnapshotHost W}.
Implicit Types (w : W).

Lemma decoded_id content id s : decodeSnapshot content id = Some s → ID s = id.
Proof.
  unfold decodeSnapshot. destruct (json_prefix content) as [[[] rest]|]; try done.
  destruct (skip_space rest =? "")%string; cbn [negb]; [|done]. destruct (document_of m content) as [d|]; [|done].
  destruct (d_Inventory d); [|done]. destruct (String.eqb_spec (d_ID d) id) as [Hid|]; [|by rewrite orb_true_r].
  repeat case_match; try done. by intros [= <-].
Qed.
Lemma stored_spec id w content : stored id w = Some content →
  full snapshotIDPattern id = true ∧ files w !! snapshot_path id = Some content.
Proof.
  unfold stored, read_at. destruct (full snapshotIDPattern id); [|done]. destruct (directory_ready w); [|done]. cbn [negb orb].
  destruct (_ || _); [done|]. destruct (may_read w _); [|done]. destruct (files w !! _) eqn:E; [|done].
  destruct (_ <? _); [done|]. by intros [= <-].
Qed.
Lemma get_spec id w s : get id w = Some s → ∃ content,
  full snapshotIDPattern id = true ∧ files w !! snapshot_path id = Some content ∧ decodeSnapshot content id = Some s ∧ ID s = id.
Proof.
  unfold get. destruct (stored id w) as [content|] eqn:E; [|done]. intros Hs. apply stored_spec in E as [Hf Hc].
  exists content. pose proof (decoded_id _ _ _ Hs). done.
Qed.

(** A metadata file is written, or nothing is. *)
Lemma writeMetadata_files id m w ok w' : writeMetadata id m w = (ok, w') →
  files w' = files w ∨ (full snapshotIDPattern id = true ∧ ∃ content, files w' = <[metadata_path id := content]> (files w)).
Proof.
  unfold writeMetadata. destruct (normalizeSnapshotName _); [|intros [= _ <-]; by left].
  destruct (full snapshotIDPattern id); cbn [negb]; [|intros [= _ <-]; by left].
  intros [[_ Hw]|[_ ->]]%write_at_cases; [right|by left]. eauto.
Qed.
Lemma writeImmutable_files target content w out w' : writeImmutable target content w = (out, w') →
  (files w' = files w ∧ out ≠ Ok ()) ∨ (out = Ok () ∧ files w !! target = None ∧ files w' = <[target := content]> (files w)).
Proof.
  unfold writeImmutable. destruct (may_write _ _ _); cbn [negb]; [|intros [= <- <-]; by left].
  destruct (files w !! target) eqn:E; cbn [is_Some]; [intros [= <- <-]; by left|].
  rewrite bool_decide_eq_false_2 by (by intros [? ?]). destruct (obstacle w target); [intros [= <- <-]; by left|].
  intros [= <- <-]. right. by rewrite files_set.
Qed.
Lemma remove_at_files path w : files (remove_at path w).2 = files w ∨ files (remove_at path w).2 = base.delete path (files w).
Proof.
  unfold remove_at. destruct (files w !! path); [|by left]. destruct (may_remove w path); [right|by left]. cbn [snd]. by rewrite files_set.
Qed.

(** A path that is not that of a metadata file. *)
Definition document_path (p : string) : Prop := ∀ id, full snapshotIDPattern id = true → p ≠ metadata_path id.
Lemma snapshot_document id : full snapshotIDPattern id = true → document_path (snapshot_path id).
Proof. intros Hid id' Hid'. by apply metadata_apart. Qed.

Lemma writeMetadata_keeps id m w p : document_path p → files (writeMetadata id m w).2 !! p = files w !! p.
Proof.
  intros Hp. destruct (writeMetadata id m w) as [ok w'] eqn:Hw. cbn [snd].
  apply writeMetadata_files in Hw as [->|(Hf & content & ->)]; [done|].
  apply lookup_insert_ne. intros E. by apply (Hp id).
Qed.
Lemma keep_with_keeps target s m w p : document_path p → p ≠ target → files (keep_with target s m w).2 !! p = files w !! p.
Proof.
  intros Hp Hne. unfold keep_with. pose proof (writeMetadata_keeps (ID s) m w p Hp) as Hm.
  destruct (writeMetadata (ID s) m w) as [[] w'] eqn:E; cbn [snd] in *; [done|].
  rewrite <- Hm. destruct (remove_at_files target w') as [->| ->]; [done|]. by rewrite lookup_delete_ne.
Qed.
(** A document that is there stays. *)
Lemma link_keeps target content w out w' p c :
  document_path p → files w !! p = Some c → writeImmutable target content w = (out, w') →
  files w' !! p = Some c ∧ (out = Ok () → ∀ s m, files (keep_with target s m w').2 !! p = Some c).
Proof.
  intros Hp Hc [[-> Ho]|(-> & Hn & Hw)]%writeImmutable_files; [done|].
  assert (p ≠ target) as Hne by congruence. rewrite Hw, lookup_insert_ne by done. split; [done|]. intros _ s m.
  by rewrite keep_with_keeps, Hw, lookup_insert_ne by done.
Qed.
Lemma create_keeps inv w p c : document_path p → files w !! p = Some c → files (create inv w).2 !! p = Some c.
Proof.
  intros Hp Hc. unfold create. destruct (directory_ready w); cbn [negb]; [|done]. destruct (_ <? _); [done|].
  destruct (writeImmutable _ _ w) as [out w1] eqn:E. apply (link_keeps _ _ _ _ _ p c Hp Hc) in E as [H1 H2].
  destruct out as [[]|e]; [by apply H2|done].
Qed.
Lemma importSnapshot_keeps content name w p c :
  document_path p → files w !! p = Some c → files (importSnapshot content name w).2 !! p = Some c.
Proof.
  intros Hp Hc. unfold importSnapshot. destruct (negb _); [done|]. destruct (_ || _); [done|].
  destruct (identity_of content) as [id|]; [|done]. destruct (negb _); [done|].
  destruct (decodeSnapshot content id) as [s|]; [|done]. destruct (normalizeSnapshotName name) as [n|]; [|done].
  destruct (lstat_fails w _); [done|]. destruct (_ || _); [done|].
  destruct (writeImmutable _ _ w) as [out w1] eqn:E. apply (link_keeps _ _ _ _ _ p c Hp Hc) in E as [H1 H2].
  destruct out as [[]|e]; [by apply H2|done].
Qed.
Lemma rename_keeps id name w p : document_path p → files (rename id name w).2 !! p = files w !! p.
Proof. intros Hp. unfold rename. destruct (get id w); [|done]. by apply writeMetadata_keeps. Qed.
Lemma delete_keeps id w p : document_path p → p ≠ snapshot_path id → files (delete id w).2 !! p = files w !! p.
Proof.
  intros Hp Hne. unfold delete. destruct (get id w) as [s|] eqn:Hs; [|done]. apply get_spec in Hs as (content & Hid & _).
  destruct (negb _); [done|]. pose proof (remove_at_files (snapshot_path id) w) as Hf.
  destruct (remove_at (snapshot_path id) w) as [ok w1] eqn:E. cbn [snd] in Hf.
  assert (files w1 !! p = files w !! p) as <-. { destruct Hf as [->| ->]; [done|]. by rewrite lookup_delete_ne. }
  destruct ok; [|done]. cbn [snd]. destruct (remove_at_files (metadata_path id) w1) as [->| ->]; [done|].
  apply lookup_delete_ne. intros <-. by apply (Hp id).
Qed.

(** ** Read back *)

(** A host whose directory is there and whose files can be read. *)
Definition usable : Prop :=
  ∀ w, directory_ready w = true ∧ ∀ p, obstacle w p = false ∧ lstat_fails w p = false ∧ may_read w p = true.

Lemma stored_usable id w content :
  usable → full snapshotIDPattern id = true → files w !! snapshot_path id = Some content →
  slen content ≤ maximumSnapshotSize → stored id w = Some content.
Proof.
  intros Hu Hid Hc Hl. destruct (Hu w) as [Hd Hp]. destruct (Hp (snapshot_path id)) as (H1 & H2 & H3).
  unfold stored, read_at. rewrite Hid, Hd, H1, H2, H3, Hc. cbn [negb orb]. by rewrite (proj2 (Z.ltb_ge _ _)).
Qed.
Lemma new_id_full inv t : in_range t → full snapshotIDPattern (ID (new_snapshot inv t)) = true.
Proof.
  intros Ht. apply identifier_full; [done| |].
  - by rewrite stake_length, fingerprint_length.
  - apply sforall_stake, fingerprint_lower.
Qed.

(** Keeping a document writes its metadata, and only that; or the document is removed,
    when it may be. *)
Lemma keep_with_spec s m w out w' target content fs :
  full snapshotIDPattern (ID s) = true → target = snapshot_path (ID s) → fs !! target = None →
  files w = <[target := content]> fs → keep_with target s m w = (out, w') →
  (out = Ok s ∧ files w' !! target = Some content ∧
   ∃ name, normalizeSnapshotName (Name m) = Some name ∧
     files w' = <[metadata_path (ID s) := metadata_text (mkMetadata name (Imported m) (ImportedAt m) (Source m))]> (files w)) ∨
  (out = Err OtherError ∧ (files w' = fs ∨ (may_remove w target = false ∧ w' = w))).
Proof.
  intros Hid -> Hn Hw. unfold keep_with, writeMetadata. rewrite Hid. cbn [negb].
  assert (∀ x, (let (ok, w'0) := (false, w) in if ok : bool then (Ok x, w'0) else (Err OtherError, (remove_at (snapshot_path (ID s)) w'0).2)) = (out, w') →
            out = Err OtherError ∧ (files w' = fs ∨ may_remove w (snapshot_path (ID s)) = false ∧ w' = w)) as Hundo.
  { intros x [= <- <-]. split; [done|]. unfold remove_at. rewrite Hw, lookup_insert_eq.
    destruct (may_remove w _); [left|by right]. cbn [snd]. rewrite files_set. by apply delete_insert_id. }
  destruct (normalizeSnapshotName (Name m)) as [name|]; [|intros H; right; by apply (Hundo s)].
  destruct (write_at _ _ w) as [ok w1] eqn:E. apply write_at_cases in E as [[-> Hf]|[-> ->]]; [|intros H; right; by apply (Hundo s)].
  intros [= <- <-]. left. split; [done|]. split; [|by exists name].
  rewrite Hf, lookup_insert_ne, Hw, lookup_insert_eq; [done|]. intros E. by apply (metadata_apart (ID s) (ID s)).
Qed.

(** A snapshot that is created is there and read back, its inventory apart, whose strings
    are those of valid UTF-8 and whose objects are maps; or one of that identifier was there
    and is answered; a refusal changes nothing, except when the removal of a document
    without metadata is refused. *)
Lemma create_spec inv w : usable → in_range (clock w) → encodable inv →
  let (out, w') := create inv w in
  match out with
  | Ok s => (files w !! snapshot_path (ID s) = None ∧ s = new_snapshot inv (clock w) ∧ export (ID s) w' = Some (snapshot_text s) ∧
               get (ID s) w' = Some (read_snapshot s)) ∨
            (w' = w ∧ ID s = ID (new_snapshot inv (clock w)) ∧ get (ID s) w = Some s)
  | Err _ => files w' = files w ∨ files w' = <[snapshot_path (ID (new_snapshot inv (clock w))) := snapshot_text (new_snapshot inv (clock w))]> (files w)
  end.
Proof.
  intros Hu Ht Hi. unfold create. pose proof (proj1 (Hu w)) as ->. cbn [negb]. set (s := new_snapshot inv (clock w)).
  pose proof (new_id_full inv (clock w) Ht : full snapshotIDPattern (ID s) = true) as Hid.
  destruct (Z.ltb_spec maximumSnapshotSize (slen (snapshot_text s))) as [|Hl]; [by left|].
  destruct (writeImmutable _ _ w) as [out w1] eqn:E. assert (out = Err AlreadyExists ∨ out = Err OtherError → w1 = w) as Hsame.
  { unfold writeImmutable in E. repeat case_match; injection E as <- <-; try done. by intros [|]. }
  apply writeImmutable_files in E as [[Hf Ho]|(-> & Hn & Hf)].
  - destruct out as [[]|[]]; [done| |by left]. rewrite Hsame by by left.
    destruct (get (ID s) w) as [existing|] eqn:Hg; [|by left]. right. split; [done|].
    pose proof Hg as Hg'. apply get_spec in Hg as (? & _ & _ & _ & ->). done.
  - destruct (keep_with _ s _ w1) as [out w'] eqn:E. eapply keep_with_spec in E as [(-> & Hc & _)|(-> & [->|[_ ->]])]; [| |by right|done|done|done|done].
    + left. pose proof (stored_usable (ID s) w' _ Hu Hid Hc Hl) as Hst.
      assert (get (ID s) w' = Some (read_snapshot s)) as Hg.
      { unfold Snapshots.get. rewrite Hst. by apply decode_written. }
      split_and!; [done|done| |done]. unfold export. rewrite Hg. unfold read_at.
      destruct (Hu w') as [_ Hp]. destruct (Hp (snapshot_path (ID s))) as (_ & _ & ->). done.
    + by left.
Qed.

(** A host whose documents are the same reads the same. *)
Lemma get_same id w w' : usable → files w' !! snapshot_path id = files w !! snapshot_path id → get id w' = get id w ∧ export id w' = export id w.
Proof.
  intros Hu Hf. assert (read_at (snapshot_path id) w' = read_at (snapshot_path id) w) as Hr.
  { unfold read_at. destruct (proj2 (Hu w) (snapshot_path id)) as (_ & _ & ->), (proj2 (Hu w') (snapshot_path id)) as (_ & _ & ->). done. }
  assert (get id w' = get id w) as Hg; [|by unfold export; rewrite Hg, Hr].
  unfold Snapshots.get, stored. rewrite Hr. destruct (Hu w) as [-> Hp], (Hu w') as [-> Hp'].
  by destruct (Hp (snapshot_path id)) as (-> & -> & _), (Hp' (snapshot_path id)) as (-> & -> & _).
Qed.
(** A rename gives the name, or is refused; no document changes. *)
Lemma rename_spec id name w s : get id w = Some s →
  let (ok, w') := rename id name w in
  (ok = true ∧ ∃ m, normalizeSnapshotName name = Some (Name m) ∧ files w' !! metadata_path id = Some (metadata_text m)) ∨
  (ok = false ∧ (normalizeSnapshotName name = None ∨ ¬ writable W)).
Proof.
  intros Hg. unfold rename. rewrite Hg. apply get_spec in Hg as (_ & Hid & _). unfold writeMetadata. cbn [Name Imported ImportedAt Source].
  destruct (normalizeSnapshotName name) as [name'|]; [|by right; split; [|left]]. rewrite Hid. cbn [negb].
  match goal with |- context [write_at ?p ?c w] => destruct (write_at p c w) as [ok w'] eqn:E end.
  pose proof E as E'. apply write_at_cases in E' as [[-> Hf]|[-> ->]].
  - left. split; [done|]. eexists. split; [|by rewrite Hf, lookup_insert_eq]. done.
  - right. split; [done|]. right. intros Hw. by rewrite (write_at_ok _ _ _ Hw) in E.
Qed.
(** The fingerprint of what is read has the digits of the identifier. *)
Lemma decoded_digits content id s : decodeSnapshot content id = Some s →
  has_suffix id ("-" +++ stake 12 (InventorySHA256 s)) = true ∧ slen (InventorySHA256 s) = 64.
Proof.
  unfold decodeSnapshot. destruct (json_prefix content) as [[[] rest]|]; try done.
  destruct (skip_space rest =? "")%string; cbn [negb]; [|done]. destruct (document_of m content) as [d|]; [|done].
  destruct (d_Inventory d) as [inventory|]; [|done].
  destruct (Z.eqb_spec (slen (d_InventorySHA256 d)) 64) as [Hl|]; [|by rewrite orb_true_r].
  destruct (_ || _); [done|]. destruct (parse_rfc3339 _) as [t|]; [|done].
  destruct (negb _); [done|]. destruct (has_suffix id _) eqn:Hs; [|by rewrite orb_true_r]. destruct (_ || _); [done|].
  destruct (json_parse inventory) as [[]|]; try done. destruct (_ =? _)%string; [|done]. by intros [= <-].
Qed.

(** ** Import *)

Lemma identity_decoded content id s : decodeSnapshot content id = Some s → identity_of content = Some id.
Proof.
  unfold decodeSnapshot, identity_of, json_parse, json_prefix, fuel_of.
  destruct (value _ _ _) as [[[] rest]|]; try done. destruct (skip_space rest =? "")%string; cbn [negb]; [|done].
  unfold document_of. destruct (store_field "schema" _ _ _) as [schema ok1]. destruct (store_field "id" _ _ _) as [i ok2].
  destruct (store_field "created_at" _ _ _) as [ca ok3]. destruct (store_field "inventory_schema" _ _ _) as [isc ok4].
  destruct (store_field "inventory_sha256" _ _ _) as [sha ok5]. destruct (forallb _ m); [|done]. cbn [andb].
  destruct ok1, ok2; try done. destruct (_ && _); [|done]. cbn [d_Inventory d_Schema d_ID].
  destruct (raw_field _ _); [|done]. destruct (String.eqb_spec i id) as [->|]; [done|]. by rewrite orb_true_r.
Qed.
Lemma export_spec id w content : export id w = Some content →
  ∃ s, get id w = Some s ∧ full snapshotIDPattern id = true ∧ files w !! snapshot_path id = Some content ∧
    decodeSnapshot content id = Some s ∧ ID s = id ∧ slen content ≤ maximumSnapshotSize.
Proof.
  unfold export, Snapshots.get. destruct (stored id w) as [c|] eqn:E; [|done]. destruct (decodeSnapshot c id) as [s|] eqn:Hs; [|done].
  pose proof E as E'. apply stored_spec in E' as [Hid Hc]. unfold read_at. rewrite Hc. destruct (may_read w _); [|done].
  intros [= <-]. exists s. split_and!; try done; [by eapply decoded_id|]. unfold stored in E. repeat case_match; simplify_eq.
  bool_prop. done.
Qed.
Lemma decoded_not_empty id : decodeSnapshot "" id = None.
Proof. reflexivity. Qed.

(** What is exported and imported where it is not is there, its text unchanged. *)
Lemma import_spec content name name' id s w : usable →
  full snapshotIDPattern id = true → decodeSnapshot content id = Some s → slen content ≤ maximumSnapshotSize →
  normalizeSnapshotName name = Some name' → writable W →
  let (out, w') := importSnapshot content name w in
  match files w !! snapshot_path id with
  | Some _ => out = Err AlreadyExists ∧ w' = w
  | None => out = Ok s ∧ get id w' = Some s ∧ export id w' = Some content ∧
            files w' = <[metadata_path id := metadata_text (mkMetadata name' true (rfc3339 (clock (set_files (<[snapshot_path id := content]> (files w)) w))) (inventorySource (Inventory s)))]>
                         (<[snapshot_path id := content]> (files w))
  end.
Proof.
  intros Hu Hid Hs Hl Hn Hw. pose proof (decoded_id _ _ _ Hs) as Hi. unfold importSnapshot. pose proof (proj1 (Hu w)) as ->. cbn [negb].
  destruct (String.eqb_spec content "") as [->|_]; [by rewrite decoded_not_empty in Hs|]. rewrite (proj2 (Z.ltb_ge _ _)) by done. cbn [orb].
  rewrite (identity_decoded _ _ _ Hs), Hid, Hs, Hn, Hi. cbn [negb]. destruct (proj2 (Hu w) (snapshot_path id)) as (-> & -> & _). 
  destruct (files w !! snapshot_path id) as [old|] eqn:Hc; [by rewrite bool_decide_eq_true_2|].
  rewrite bool_decide_eq_false_2 by (by intros [? ?]). cbn [orb]. unfold writeImmutable. rewrite Hw. cbn [negb].
  rewrite Hc, bool_decide_eq_false_2 by (by intros [? ?]). destruct (proj2 (Hu w) (snapshot_path id)) as (-> & _ & _). cbn [orb].
  set (w1 := set_files _ w). unfold keep_with, writeMetadata. rewrite Hi, Hid. cbn [negb Name Imported ImportedAt Source].
  assert (normalizeSnapshotName name' = Some name') as ->.
  { unfold normalizeSnapshotName in *. revert Hn. destruct (_ || _) eqn:E; [done|]. intros [= <-]. by rewrite trim_space_idemp, E. }
  rewrite (write_at_ok _ _ _ Hw). subst w1. rewrite files_set. set (w' := set_files _ (set_files _ w)).
  assert (files w' = <[metadata_path id := metadata_text (mkMetadata name' true (rfc3339 (clock (set_files (<[snapshot_path id := content]> (files w)) w))) (inventorySource (Inventory s)))]>
                         (<[snapshot_path id := content]> (files w))) as Hf by apply files_set.
  assert (files w' !! snapshot_path id = Some content) as Hc'.
  { rewrite Hf, lookup_insert_ne, lookup_insert_eq; [done|]. intros E. by apply (metadata_apart id id). }
  assert (get id w' = Some s) as Hg by (unfold Snapshots.get; by rewrite (stored_usable id w' content)).
  split_and!; [done|done| |done]. unfold export. rewrite Hg. unfold read_at. by destruct (proj2 (Hu w') (snapshot_path id)) as (_ & _ & ->).
Qed.
End store.

(** ** Comparison *)

Definition mirror (c : comparison) : comparison :=
  match c with missing_source => missing_target | missing_target => missing_source | c => c end.
Lemma status_mirror (l r : option members) : l ≠ None ∨ r ≠ None → section_status r l = mirror (section_status l r).
Proof.
  intros H. destruct l as [l|], r as [r|]; cbn [section_status mirror]; try done; [|by destruct H].
  unfold equalJSON. rewrite String.eqb_sym. by destruct (_ =? _)%string.
Qed.
Lemma compared_ids_spec (a b : gmap string members) :
  NoDup (compared_ids a b) ∧ StronglySorted str_le (compared_ids a b) ∧ compared_ids b a = compared_ids a b ∧
  ∀ id, id ∈ compared_ids a b ↔ is_Some (a !! id) ∨ is_Some (b !! id).
Proof.
  unfold compared_ids. split_and!.
  - rewrite sort_strings_perm. apply NoDup_elements.
  - apply sort_strings_sorted.
  - by rewrite (union_comm_L (dom b)).
  - intros id. rewrite elem_of_sort_strings, elem_of_elements, elem_of_union, !elem_of_dom. done.
Qed.
Lemma count_of_map {A} (f : A → comparison * data) c l :
  count_of c (f <$> l) = Z.of_nat (List.length (filter (λ x, (f x).1 = c) l)).
Proof. unfold count_of. induction l as [|x l IH]; [done|]. rewrite fmap_cons, !filter_cons. case_decide; cbn [List.length]; lia. Qed.
Lemma count_mirror a b c : count_of c (compared a b) = count_of (mirror c) (compared b a).
Proof.
  unfold compared. destruct (compared_ids_spec a b) as (_ & _ & -> & Hin). rewrite !count_of_map. do 2 f_equal.
  assert (∀ l : list string, (∀ id, id ∈ l → is_Some (a !! id) ∨ is_Some (b !! id)) →
    filter (λ x, (compare_section a b x).1 = c) l = filter (λ x, (compare_section b a x).1 = mirror c) l) as H; [|apply H; intros id; by rewrite Hin].
  induction l as [|id l IH]; intros Hl; [done|]. rewrite !filter_cons, IH by (intros i Hi; apply Hl; by right).
  assert (section_status (b !! id) (a !! id) = mirror (section_status (a !! id) (b !! id))) as Hm.
  { apply status_mirror. destruct (Hl id) as [[x ->]|[x ->]]; [by left| |]; naive_solver. }
  change ((compare_section b a id).1) with (section_status (b !! id) (a !! id)). rewrite Hm.
  change ((compare_section a b id).1) with (section_status (a !! id) (b !! id)).
  destruct (section_status (a !! id) (b !! id)), c; reflexivity.
Qed.
Lemma count_all l : count_of identical l + count_of different l + count_of missing_source l + count_of missing_target l = Z.of_nat (List.length l).
Proof.
  unfold count_of. induction l as [|[[] d] l IH]; [done|..]; rewrite !filter_cons; cbn [fst]; repeat case_decide; try done; cbn [List.length]; lia.
Qed.
Lemma compared_self a : count_of identical (compared a a) = Z.of_nat (List.length (compared a a)).
Proof.
  unfold compared. rewrite count_of_map, length_fmap. do 2 f_equal. apply filter_all. apply Forall_forall. intros id Hid.
  apply (proj2 (proj2 (proj2 (compared_ids_spec a a)))) in Hid. assert (is_Some (a !! id)) as [x Hx] by naive_solver.
  unfold compare_section. rewrite Hx. cbn [fst section_status]. unfold equalJSON. by rewrite String.eqb_refl.
Qed.

(** The comparison of two snapshots lists each section of either once, in the order of the
    identifiers; every section has one of the four statuses, so that their counts add up to
    the number of sections; the two snapshots exchanged, the same sections are listed with
    what is missing on one side missing on the other; and a snapshot is identical to itself. *)
Theorem comparison_spec (s t : Snapshot) :
  let a := indexedSections (Inventory s) in
  let b := indexedSections (Inventory t) in
  NoDup (compared_ids a b) ∧ StronglySorted str_le (compared_ids a b) ∧
  (∀ id, id ∈ compared_ids a b ↔ is_Some (a !! id) ∨ is_Some (b !! id)) ∧
  compareSnapshots s t =
    [("source_id", VStr (ID s)); ("target_id", VStr (ID t));
     ("counts", VMap ((λ c, (comparison_name c, VInt (count_of (mirror c) (compared b a)))) <$> [identical; different; missing_source; missing_target]));
     ("sections", VList ((λ id, VMap (compare_section a b id).2) <$> compared_ids a b))] ∧
  count_of identical (compared a b) + count_of different (compared a b) + count_of missing_source (compared a b) +
    count_of missing_target (compared a b) = Z.of_nat (List.length (compared_ids a b)) ∧
  count_of identical (compared a a) = Z.of_nat (List.length (compared_ids a a)).
Proof.
  cbv zeta. set (a := indexedSections _). set (b := indexedSections _). destruct (compared_ids_spec a b) as (H1 & H2 & H3 & H4).
  split; [done|]. split; [done|]. split; [done|]. split; [|split].
  - unfold compareSnapshots. fold a. fold b. do 2 f_equal. cbn [fmap list_fmap]. rewrite <- !count_mirror. unfold compared. rewrite <- list_fmap_compose. done.
  - rewrite count_all. unfold compared. by rewrite length_fmap.
  - rewrite compared_self. unfold compared. by rewrite length_fmap.
Qed.
