(* ===== verification/Configuration.v ===== *)
(** * The configuration domain: [domain/configuration/configuration.go, platform.go]

    The inventory of the host, gathered from the platform and, concurrently, from the
    other domains, and the commands on the snapshots of [Snapshots].  Each domain asked is
    a goroutine: a schedule says which one asks next, and any interleaving is a schedule.
    What a domain answers is the JSON value of its data. *)

From S2P Require Import Prelude GoStrings StringFacts Time Codec Json JsonParse JsonMore Command Files Units Snapshots.
From S2P Require Api Backup.
From Stdlib Require Import Ascii String.
#[local] Open Scope string_scope.
#[local] Open Scope list_scope.
#[local] Open Scope Z_scope.
#[local] Notation members := jmap (only parsing).

Import Api(Reply, failure, success, Value, VStr, VInt, VBool, VNum, VList, VMap, VNil).

(** ** Sections *)

Record request := mkRequest { id_ : string; label : string; provider : string; commands : list string }.
Definition sections : list request :=
  [mkRequest "system" "Système" "system" ["info"];
   mkRequest "packages" "Paquets installés" "" [];
   mkRequest "services" "Services systemd" "" [];
   mkRequest "accounts" "Utilisateurs et groupes" "" [];
   mkRequest "network" "Réseau" "network" ["list"];
   mkRequest "ports" "Ports en écoute" "" [];
   mkRequest "firewall" "Pare-feu" "firewall" ["info"; "status"; "rules"];
   mkRequest "fail2ban" "Fail2ban" "fail2ban" ["info"; "status"];
   mkRequest "php" "PHP" "php" ["info"; "fpm"; "configuration:cli"; "extensions:cli"];
   mkRequest "apache" "Apache" "apache" ["overview"];
   mkRequest "certificates" "Certificats" "certbot" ["info"; "certificates"];
   mkRequest "mysql" "MySQL / MariaDB" "mysql" ["info"; "status"; "databases"];
   mkRequest "cron" "Tâches planifiées" "cron" ["info"; "status"; "jobs"; "users"];
   mkRequest "tor" "Tor" "tor" ["info"; "status"; "hidden-services"]].
Definition sectionResult (r : request) (available : bool) (data : json) (message : string) : json :=
  JObj [("available", JBool available); ("data", data); ("id", JStr (id_ r)); ("label", JStr (label r)); ("message", JStr message)].

(** The other domains, with the data or the message of their reply, and the platform. *)
Class Collectors (W : Type) := {
  provided : string → bool;
  collect : string → string → list string → Machine W → res string json * Machine W;
  schedule : W → list nat;     (** the goroutines in the order of their commands *)
}.

(** ** The platform *)

(** A file found under a directory by [filepath.WalkDir], neither a directory nor a link. *)
Record found := mkFound { f_path : string; f_mode : string; f_size : Z; f_regular : bool; f_content : option string }.
Class Directories (W : Type) := { walk : W → string → list found }.

Section platform.
Context {W : Type} `{!Programs W} `{!FileSystem W} `{!Directories W}.
Implicit Types (w : W).

Definition run_text (binary : string) (arguments : list string) : cmd W (string * bool) :=
  do! o := run binary arguments in ret (trim_space (to_valid_utf8 0 false (stdout o)), succeeded o).
Definition file_item (f : found) : option json :=
  if negb (f_regular f) || (2 * 1024 * 1024 <? f_size f) then None
  else (λ content, JObj [("mode", JStr (f_mode f)); ("path", JStr (f_path f)); ("sha256", JStr (fingerprint content));
                         ("size", JNum (itoa (f_size f)))]) <$> f_content f.
Definition configurationFiles (roots : list string) w : json := JArr (mjoin ((λ root, omap file_item (walk w root)) <$> roots)).

Definition first_field (line : string) : option string := head (fields line).
Definition unit_item (active : list string) (line : string) : option json :=
  match fields line with
  | name :: state :: _ =>
      Some (JObj [("state", JStr (if existsb (String.eqb name) active then "active" else "inactive"));
                  ("unit", JStr name); ("unit_file_state", JStr state)])
  | _ => None
  end.
Definition systemServices : cmd W json :=
  if negb (executable systemctl) then ret (JArr [])
  else
    do! a := run_text systemctl ["list-units"; "--type=service"; "--state=active"; "--no-legend"; "--no-pager"] in
    do! o := run_text systemctl ["list-unit-files"; "--type=service"; "--no-legend"; "--no-pager"] in
    ret (if negb o.2 then JArr [] else JArr (omap (unit_item (omap first_field (split nl a.1))) (split nl o.1))).

Definition tab : ascii := "009".
Definition parse_pair (raw : string) : option json :=
  match cut tab raw with
  | (name, version, true) =>
      if String.eqb name "" || String.eqb version "" then None
      else Some (JObj [("name", JStr name); ("version", JStr version)])
  | _ => None
  end.
Definition parsePairs (output : string) : list json := omap parse_pair (split nl output).
Definition rpm_packages : cmd W (list json * string) :=
  if executable "/usr/bin/rpm" then
    do! o := run_text "/usr/bin/rpm" ["-qa"; "--qf"; "%{NAME}" +++ String tab "%{VERSION}-%{RELEASE}.%{ARCH}" +++ snl] in
    ret (if o.2 : bool then (parsePairs o.1, "rpm") else ([], "unknown"))
  else ret ([], "unknown").
Definition installedPackages : cmd W (list json * string) :=
  if executable "/usr/bin/dpkg-query" then
    do! o := run_text "/usr/bin/dpkg-query" ["-W"; "-f=${binary:Package}" +++ String tab "${Version}" +++ snl] in
    if o.2 : bool then ret (parsePairs o.1, "dpkg") else rpm_packages
  else rpm_packages.

Definition number_of (n : Z) : json := JNum (itoa n).
Definition lines_of w (path : string) : list string :=
  match files w !! path with Some text => (scan_lines text).1 | None => [] end.
Definition user_item (line : string) : option json :=
  match split ":" line with
  | [name; _; u; g; _; home; shell] =>
      match atoi u, atoi g with
      | Some uid, Some gid =>
          Some (JObj [("gid", number_of gid); ("home", JStr home); ("name", JStr name); ("shell", JStr shell); ("uid", number_of uid)])
      | _, _ => None
      end
  | _ => None
  end.
Definition group_item (line : string) : option json :=
  match split ":" line with
  | [name; _; g; members] =>
      match atoi g with
      | Some gid =>
          Some (JObj [("gid", number_of gid);
                      ("members", JArr (if String.eqb members "" then [] else map JStr (split "," members)));
                      ("name", JStr name)])
      | None => None
      end
  | _ => None
  end.
Definition length_of (l : list json) : json := number_of (Z.of_nat (List.length l)).
Definition accounts w : json :=
  let users := omap user_item (lines_of w "/etc/passwd") in
  let groups := omap group_item (lines_of w "/etc/group") in
  JObj [("group_count", length_of groups); ("groups", JArr groups); ("user_count", length_of users); ("users", JArr users)].

Definition address_and_port (field : string) : option (string * string) :=
  match split ":" field with
  | [] | [_] => None
  | parts => Some (join ":" (removelast parts), List.last parts "")
  end.
Context `{UnicodeCase}.
Definition parseListener (line : string) : option json :=
  match fields (trim_space line) with
  | protocol :: state :: _ :: _ :: local :: _ =>
      match address_and_port local with
      | Some (address, port) =>
          if String.eqb address "" || String.eqb port "" then None
          else Some (JObj [("address", JStr (trim_prefix (trim_suffix address "]") "[")); ("port", JStr port);
                           ("protocol", JStr (to_lower protocol)); ("state", JStr (to_upper state))])
      | None => None
      end
  | _ => None
  end.
Definition listeners_of (binary : string) : cmd W json :=
  do! o := run_text binary ["-H"; "-lntu"] in
  ret (if negb o.2 then JArr [] else JArr (omap parseListener (split nl o.1))).
Definition listeners : cmd W json :=
  if executable "/usr/bin/ss" then listeners_of "/usr/bin/ss"
  else if executable "/usr/sbin/ss" then listeners_of "/usr/sbin/ss"
  else ret (JArr []).

Definition Inventory : cmd W members :=
  do! p := installedPackages in
  do! services := systemServices in
  do! users := look accounts in
  do! ports := listeners in
  look (λ w,
    [("packages", JObj [("count", length_of p.1); ("items", JArr p.1); ("manager", JStr p.2)]);
     ("services", JObj [("items", services)]);
     ("accounts", users);
     ("ports", JObj [("listeners", ports)]);
     ("apache", configurationFiles ["/etc/apache2"; "/etc/httpd"] w);
     ("php", configurationFiles ["/etc/php"; "/etc/php.d"] w);
     ("mysql", configurationFiles ["/etc/mysql"; "/etc/my.cnf.d"] w);
     ("fail2ban", configurationFiles ["/etc/fail2ban"] w);
     ("cron", configurationFiles ["/etc/cron.d"; "/etc/crontab"] w);
     ("tor", configurationFiles ["/etc/tor"] w)]).
End platform.

(** ** The inventory *)

(** A goroutine: the commands it has yet to run with the data it has, or its result. *)
Inductive progress := Running (todo : list string) (have : gmap string json) | Finished (result : json).

Section domain.
Context {W : Type} `{!Programs W} `{!FileSystem W} `{!SnapshotHost W} `{!Collectors W}.
Context (platform : cmd W members).     (** [Platform.Inventory] *)
Implicit Types (w : W).

Definition unreadable (message : string) : string := if String.eqb message "" then "Lecture impossible." else message.
(** The result of a goroutine that has run its commands. *)
Definition settled (supplement : members) (r : request) (todo : list string) (have : gmap string json) : progress :=
  match todo with
  | [] => Finished (sectionResult r true
            (JObj (sorted_members (match any_member (id_ r) supplement with Some files => <["configuration_files" := files]> have | None => have end))) "")
  | _ => Running todo have
  end.
Definition start (supplement : members) (r : request) : progress :=
  if String.eqb (provider r) "" then
    Finished (match any_member (id_ r) supplement with Some d => sectionResult r true d "" | None => sectionResult r false JNull "" end)
  else if negb (provided (provider r)) then Finished (sectionResult r false JNull "Collecteur indisponible.")
  else settled supplement r (commands r) ∅.
Definition ask (provider operation : string) : cmd W (res string json) :=
  λ m, let '(command, argument, hasArgument) := cut ":" operation in
       let (answer, m) := collect provider command (if hasArgument then [argument] else []) m in (Ok answer, m).
Definition advance (supplement : members) (i : nat) (states : list (request * progress)) : cmd W (list (request * progress)) :=
  match states !! i with
  | Some (r, Running (operation :: todo) have) =>
      do! answer := ask (provider r) operation in
      ret (<[i := (r, match answer with
                      | Ok d => settled supplement r todo (<[operation := d]> have)
                      | Err message => Finished (sectionResult r false JNull (unreadable message))
                      end)]> states)
  | _ => ret states
  end.
Fixpoint advance_all (supplement : members) (order : list nat) (states : list (request * progress)) : cmd W (list (request * progress)) :=
  match order with
  | [] => ret states
  | i :: order => do! states := advance supplement i states in advance_all supplement order states
  end.
(** Enough steps for every goroutine to end, after those of the schedule. *)
Definition completion : list nat := mjoin (imap (λ i r, replicate (List.length (commands r)) i) sections).
Definition result_of (x : request * progress) : json := match x.2 with Finished result => result | Running _ _ => JNull end.
Definition inventory : cmd W members :=
  do! supplement := platform in
  do! order := look schedule in
  do! states := advance_all supplement (order ++ completion) ((λ r, (r, start supplement r)) <$> sections) in
  look (λ w,
    [("collected_at", JStr (rfc3339 (inventory_clock w))); ("read_only", JBool true);
     ("schema", JStr "aegisadmin.configuration.inventory.v1"); ("sections", JArr (result_of <$> states))]).

(** ** The commands *)

Definition fail {A} (exit : Z) (code message : string) : cmd W A := stop (failure exit code message).
Definition invalidArgumentCount {A} : cmd W A := fail 2 "INVALID_ARGUMENT_COUNT" "Le nombre d’arguments fourni est invalide.".
Definition snapshot_value (s : Snapshot) : Value := value_of (snapshot_json s).
Definition message_data (message : string) : data := [("message", VStr message)].
Definition or_not_found {A} (message : string) (o : option A) : cmd W A :=
  match o with Some x => ret x | None => fail 5 "CONFIGURATION_SNAPSHOT_NOT_FOUND" message end.

Definition capability (r : request) : Value :=
  VMap [("id", VStr (id_ r)); ("label", VStr (label r)); ("supported", VBool (String.eqb (provider r) "" || provided (provider r)))].
Definition capabilities : data :=
  [("inventory_read_only", VBool true); ("snapshot_storage", VBool true); ("snapshot_import", VBool true);
   ("snapshot_comparison", VBool true); ("sections", VList (capability <$> sections))].
Definition snapshot_create (arguments : list string) : cmd W data :=
  if (1 <? List.length arguments)%nat then invalidArgumentCount
  else
    do! inv := inventory in
    do! out := touch (create inv) in
    match out with
    | Err _ => fail 10 "CONFIGURATION_SNAPSHOT_CREATE_FAILED" "Le snapshot de configuration n’a pas pu être créé."
    | Ok s =>
        match arguments with
        | [name] =>
            do! renamed := touch (rename (ID s) name) in
            if renamed : bool then ret [("snapshot", snapshot_value s)]
            else fail 2 "CONFIGURATION_SNAPSHOT_NAME_INVALID" "Le nom du snapshot est invalide."
        | _ => ret [("snapshot", snapshot_value s)]
        end
    end.
Definition snapshot_name (id name : string) : cmd W data :=
  do! renamed := touch (rename id name) in
  if renamed : bool then ret (message_data "Le nom du snapshot a été modifié.")
  else fail 5 "CONFIGURATION_SNAPSHOT_RENAME_FAILED" "Le nom du snapshot n’a pas pu être modifié.".
Definition snapshot_delete (arguments : list string) : cmd W data :=
  match arguments with
  | [id; confirmation] =>
      if negb (String.eqb id confirmation) then fail 2 "INVALID_CONFIRMATION" "La confirmation de suppression est invalide."
      else
        do! deleted := touch (delete id) in
        if deleted : bool then ret (message_data "Le snapshot a été supprimé.")
        else fail 5 "CONFIGURATION_SNAPSHOT_DELETE_FAILED" "Le snapshot n’a pas pu être supprimé."
  | _ => fail 2 "INVALID_CONFIRMATION" "La confirmation de suppression est invalide."
  end.
Definition snapshot_import (name content : string) : cmd W data :=
  do! out := touch (importSnapshot content name) in
  match out with
  | Ok s => ret [("snapshot", snapshot_value s)]
  | Err AlreadyExists => fail 3 "CONFIGURATION_SNAPSHOT_EXISTS" "Ce snapshot existe déjà sur le serveur."
  | Err OtherError => fail 2 "CONFIGURATION_SNAPSHOT_IMPORT_FAILED" "Le fichier importé n’est pas un snapshot AegisAdmin valide."
  end.
Definition snapshot_compare (source target : string) : cmd W data :=
  if String.eqb source target then invalidArgumentCount
  else
    do! s := look (Snapshots.get source) in
    do! s := or_not_found "Le snapshot source est introuvable ou altéré." s in
    do! t := look (Snapshots.get target) in
    do! t := or_not_found "Le snapshot cible est introuvable ou altéré." t in
    ret [("comparison", VMap (compareSnapshots s t))].
Definition snapshots_list : cmd W data :=
  do! l := look list_snapshots in
  match l with
  | None => fail 10 "CONFIGURATION_SNAPSHOTS_READ_FAILED" "Les snapshots de configuration n’ont pas pu être lus."
  | Some items => ret [("snapshots", VList (VMap <$> items)); ("count", VInt (Z.of_nat (List.length items)))]
  end.
Definition requested : string := "Le snapshot demandé est introuvable ou altéré.".
Definition snapshot_get (id : string) : cmd W data :=
  do! s := look (Snapshots.get id) in do! s := or_not_found requested s in ret [("snapshot", snapshot_value s)].
Definition snapshot_export (id : string) : cmd W data :=
  do! content := look (export id) in do! content := or_not_found requested content in ret [("content", VStr content)].

Definition handle (command : string) (arguments : list string) : cmd W data :=
  if String.eqb command "" then fail 2 "MISSING_COMMAND" "Aucune commande n’a été indiquée pour le domaine configuration."
  else if String.eqb command "capabilities" then
    match arguments with [] => ret capabilities | _ => invalidArgumentCount end
  else if String.eqb command "inventory" then
    match arguments with [] => do! inv := inventory in ret ((λ kv : string * json, (kv.1, value_of kv.2)) <$> inv) | _ => invalidArgumentCount end
  else if String.eqb command "snapshot-create" then snapshot_create arguments
  else if String.eqb command "snapshot-name" then
    match arguments with [id; name] => snapshot_name id name | _ => invalidArgumentCount end
  else if String.eqb command "snapshot-delete" then snapshot_delete arguments
  else if String.eqb command "snapshot-import" then
    match arguments with [name; content] => snapshot_import name content | _ => invalidArgumentCount end
  else if String.eqb command "snapshot-compare" then
    match arguments with [source; target] => snapshot_compare source target | _ => invalidArgumentCount end
  else if String.eqb command "snapshots" then
    match arguments with [] => snapshots_list | _ => invalidArgumentCount end
  else if String.eqb command "snapshot" then
    match arguments with [id] => snapshot_get id | _ => invalidArgumentCount end
  else if String.eqb command "snapshot-export" then
    match arguments with [id] => snapshot_export id | _ => invalidArgumentCount end
  else fail 4 "COMMAND_NOT_FOUND" "La commande demandée n’existe pas dans le domaine configuration.".
Definition Handle (command : string) (arguments : list string) : Machine W → Reply * Machine W := serve (handle command arguments).
End domain.
