(* ===== verification/ConfigurationFacts.v ===== *)
(** * Properties of the configuration domain

    The inventory does not depend on how the domains are interleaved; stored snapshots are
    immutable; what is created is read back, what is exported is imported. *)

From S2P Require Import Prelude GoStrings StringFacts Regex Time Codec Json JsonParse JsonMore JsonPretty Command Triple Files Snapshots SnapshotsFacts Configuration.
From S2P Require Api Backup.
From Stdlib Require Import Ascii String.
#[local] Open Scope string_scope.
#[local] Open Scope list_scope.
#[local] Open Scope Z_scope.
#[local] Notation members := jmap (only parsing).

Import Api(Reply, failure, success, Value, VStr, VInt, VBool, VNum, VList, VMap, VNil).
#[local] Notation get := Snapshots.get.

Section domain.
Context {W : Type} `{!Programs W} `{!FileSystem W} `{!SnapshotHost W} `{!Collectors W}.
Context (platform : cmd W members).
Implicit Types (w : W).

(** ** Replies *)

Lemma refuses_ask p o : refuses (ask p o).
Proof.
  intros m r m'. unfold ask. destruct (cut ":" o) as [[c a] b]. destruct (collect _ _ _ _). by intros [=].
Qed.
Lemma refuses_advance_all supplement order : ∀ states, refuses (advance_all supplement order states).
Proof.
  induction order as [|i order IH]; intros states; cbn [advance_all]; [walk|].
  apply refuses_bind; [|intros x; apply IH]. unfold advance. destruct (states !! i) as [[r [[|o l]|]]|]; try by walk.
  apply refuses_bind; [apply refuses_ask|intros x; walk].
Qed.
Lemma refuses_inventory : refuses platform → refuses (inventory platform).
Proof.
  intros Hp. unfold inventory. apply refuses_bind; [done|]. intros s. apply refuses_bind; [walk|]. intros o.
  apply refuses_bind; [apply refuses_advance_all|intros x; walk].
Qed.
Lemma configuration_reply_ok command arguments m : refuses platform → Api.reply_ok (Handle platform command arguments m).1.
Proof.
  intros Hp. apply serve_ok. unfold handle. pose proof (refuses_inventory Hp) as Hi.
  repeat (first [apply refuses_inventory; exact Hp|progress eauto 3 with commands nocore | command_step]; try done).
Qed.

(** ** Stored snapshots *)

Definition holds (id content : string) : W → Prop := λ w, files w !! snapshot_path id = Some content.

Section immutable.
Context (id content : string) (Hid : full snapshotIDPattern id = true).
Context (Hplatform : keeps (holds id content) platform).
Context (Hcollect : ∀ p c a m, holds id content (inside m) → holds id content (inside (collect p c a m).2)).

Lemma keeps_touch_holds {A} (f : W → A * W) : (∀ w, holds id content w → holds id content (f w).2) → keeps (holds id content) (touch f).
Proof. intros Hf. by apply triple_touch. Qed.
Lemma keeps_ask p o : keeps (holds id content) (ask p o).
Proof.
  intros m Hm. unfold ask. destruct (cut ":" o) as [[c a] b]. pose proof (Hcollect p c (if b then [a] else []) m Hm) as H.
  by destruct (collect _ _ _ _).
Qed.
Lemma keeps_advance_all supplement order : ∀ states, keeps (holds id content) (advance_all supplement order states).
Proof.
  induction order as [|i order IH]; intros states; cbn [advance_all]; [hold|].
  apply keeps_bind; [|intros x; apply IH]. unfold advance. destruct (states !! i) as [[r [[|o l]|]]|]; try by hold.
  apply keeps_bind; [apply keeps_ask|intros x; hold].
Qed.
Lemma keeps_inventory : keeps (holds id content) (inventory platform).
Proof.
  unfold inventory. apply keeps_bind; [done|]. intros s. apply keeps_bind; [hold|]. intros o.
  apply keeps_bind; [apply keeps_advance_all|intros x; hold].
Qed.
Lemma keeps_create inv : keeps (holds id content) (touch (create inv)).
Proof. apply keeps_touch_holds. intros w. by apply create_keeps, snapshot_document. Qed.
Lemma keeps_rename i name : keeps (holds id content) (touch (rename i name)).
Proof. apply keeps_touch_holds. intros w Hw. unfold holds. by rewrite rename_keeps by by apply snapshot_document. Qed.
Lemma keeps_import c name : keeps (holds id content) (touch (importSnapshot c name)).
Proof. apply keeps_touch_holds. intros w. by apply importSnapshot_keeps, snapshot_document. Qed.
Lemma keeps_delete i : i ≠ id → keeps (holds id content) (touch (delete i)).
Proof.
  intros Hne. apply keeps_touch_holds. intros w Hw. unfold holds, delete. destruct (get i w) as [s|] eqn:Hs; [|done].
  pose proof Hs as Hs'. apply get_spec in Hs' as (c & Hi & _). pose proof (delete_keeps i w (snapshot_path id)) as Hk. unfold delete in Hk. rewrite Hs in Hk.
  rewrite Hk; [done|by apply snapshot_document|]. intros E. apply Hne. symmetry. by apply snapshot_path_inj.
Qed.
Lemma keeps_handle command arguments :
  command ≠ "snapshot-delete" ∨ arguments ≠ [id; id] → keeps (holds id content) (handle platform command arguments).
Proof.
  intros Hne. unfold handle, snapshot_create, snapshot_name, snapshot_import.
  destruct (String.eqb_spec command "snapshot-delete") as [->|_].
  - cbn [String.eqb Ascii.eqb Bool.eqb]. destruct Hne as [|Hne]; [done|]. unfold snapshot_delete.
    destruct arguments as [|x [|y [|z l]]]; try by hold. destruct (String.eqb_spec x y) as [<-|]; [|by hold]. cbn [negb].
    apply keeps_bind; [|intros []; hold]. apply keeps_delete. congruence.
  - pose proof keeps_inventory as Hi.
    repeat (first [exact Hi|apply keeps_create|apply keeps_rename|apply keeps_import|progress eauto 3 with commands nocore | keeps_step]; try done).
Qed.
End immutable.

(** C18: a stored snapshot is immutable: provided the platform and the domains that are asked
    leave it alone, no command of the configuration domain changes or removes the file of
    a snapshot, except snapshot-delete with its identifier given twice. *)
Theorem snapshot_immutable id content command arguments m :
  full snapshotIDPattern id = true →
  keeps (holds id content) platform →
  (∀ p c a m, holds id content (inside m) → holds id content (inside (collect p c a m).2)) →
  command ≠ "snapshot-delete" ∨ arguments ≠ [id; id] →
  files (inside m) !! snapshot_path id = Some content →
  files (inside (Handle platform command arguments m).2) !! snapshot_path id = Some content.
Proof.
  intros Hid Hp Hc Hne Hm. pose proof (keeps_handle id content Hid Hp Hc command arguments Hne m Hm) as Hk.
  unfold Handle, serve. by destruct (handle platform command arguments m) as [[d|r] m'].
Qed.

(** ** The inventory *)

Section reading.
(** Domains that answer the same whenever they are asked, and leave the files alone. *)
Context (answers : string → string → list string → res string json).
Context (I : W → Prop).
Context (Hcollect : ∀ p c a m, I (inside m) → (collect p c a m).1 = answers p c a ∧ I (inside (collect p c a m).2)).

Definition answer (p operation : string) : res string json :=
  let '(command, argument, hasArgument) := cut ":" operation in answers p command (if hasArgument then [argument] else []).
(** What a goroutine comes to, left to itself. *)
Fixpoint gathered (supplement : members) (r : request) (todo : list string) (have : gmap string json) : json :=
  match todo with
  | [] => sectionResult r true (JObj (sorted_members (match any_member (id_ r) supplement with
                                                      | Some files => <["configuration_files" := files]> have | None => have end))) ""
  | operation :: todo =>
      match answer (provider r) operation with
      | Ok d => gathered supplement r todo (<[operation := d]> have)
      | Err message => sectionResult r false JNull (unreadable message)
      end
  end.
Definition outcome_of (supplement : members) (x : request * progress) : json :=
  match x.2 with Running todo have => gathered supplement x.1 todo have | Finished result => result end.
Definition left_of (x : request * progress) : nat := match x.2 with Running todo _ => List.length todo | Finished _ => 0 end.
(** A goroutine that has nothing left to ask has its result. *)
Definition proper_state (x : request * progress) : Prop := match x.2 with Running [] _ => False | _ => True end.

Lemma settled_outcome supplement r todo have :
  outcome_of supplement (r, settled supplement r todo have) = gathered supplement r todo have ∧
  (left_of (r, settled supplement r todo have) ≤ List.length todo)%nat ∧ proper_state (r, settled supplement r todo have).
Proof. by destruct todo. Qed.

(** One step: the goroutine that asks has the same future, and less to do. *)
Lemma advance_spec supplement i states m : I (inside m) → Forall proper_state states →
  ∃ states' m', advance supplement i states m = (Ok states', m') ∧ I (inside m') ∧ Forall proper_state states' ∧
    (outcome_of supplement <$> states') = (outcome_of supplement <$> states) ∧
    List.length states' = List.length states ∧
    ∀ j x, states' !! j = Some x → ∃ y, states !! j = Some y ∧ (left_of x ≤ left_of y - (if decide (i = j) then 1 else 0))%nat.
Proof.
  intros Hm Hs. unfold advance. destruct (states !! i) as [[r [todo have|result]]|] eqn:E.
  - destruct todo as [|operation todo]; [by pose proof (proj1 (Forall_lookup _ _) Hs i _ E)|]. unfold bind, ask, ret.
    destruct (cut ":" operation) as [[c a] b] eqn:Hcut. destruct (Hcollect (provider r) c (if b then [a] else []) m Hm) as [Ha Hi].
    destruct (collect _ _ _ _) as [out m']. cbn [fst snd] in *. eexists _, m'. split; [done|]. split; [done|].
    assert (∀ p, outcome_of supplement (r, p) = gathered supplement r (operation :: todo) have → proper_state (r, p) → (left_of (r, p) ≤ List.length todo)%nat →
      Forall proper_state (<[i:=(r, p)]> states) ∧ (outcome_of supplement <$> <[i:=(r, p)]> states) = (outcome_of supplement <$> states) ∧
      List.length (<[i:=(r, p)]> states) = List.length states ∧
      ∀ j x, <[i:=(r, p)]> states !! j = Some x → ∃ y, states !! j = Some y ∧ (left_of x ≤ left_of y - (if decide (i = j) then 1 else 0))%nat) as Hstep.
    { intros p Hp1 Hp2 Hp3. split_and!.
      - by apply Forall_insert.
      - rewrite list_fmap_insert. apply list_insert_id. rewrite list_lookup_fmap, E. cbn. by f_equal.
      - apply length_insert.
      - intros j x. destruct (decide (i = j)) as [<-|Hne].
        + rewrite list_lookup_insert_eq by (by eapply lookup_lt_Some). intros [= <-]. exists (r, Running (operation :: todo) have).
          split; [done|]. cbn [left_of snd List.length] in *. lia.
        + rewrite list_lookup_insert_ne by done. intros Hx. exists x. split; [done|]. lia. }
    cbn [gathered] in Hstep. unfold answer in Hstep. rewrite Hcut, <- Ha in Hstep.
    destruct out as [d|message]; apply Hstep; try done; try apply settled_outcome. cbn. lia.
  - eexists _, m. split; [done|]. split_and!; try done. intros j x Hx. exists x. split; [done|].
    destruct (decide (i = j)) as [<-|]; [|lia]. rewrite E in Hx. injection Hx as <-. cbn. lia.
  - eexists _, m. split; [done|]. split_and!; try done. intros j x Hx. exists x. split; [done|].
    destruct (decide (i = j)) as [<-|]; [congruence|lia].
Qed.
Lemma advance_all_spec supplement order : ∀ states m, I (inside m) → Forall proper_state states →
  ∃ states' m', advance_all supplement order states m = (Ok states', m') ∧ I (inside m') ∧ Forall proper_state states' ∧
    (outcome_of supplement <$> states') = (outcome_of supplement <$> states) ∧
    ∀ j x, states' !! j = Some x → ∃ y, states !! j = Some y ∧ (left_of x ≤ left_of y - count_occ Nat.eq_dec order j)%nat.
Proof.
  induction order as [|i order IH]; intros states m Hm Hs; cbn [advance_all count_occ].
  - exists states, m. split_and!; try done. intros j x Hx. exists x. split; [done|]. lia.
  - destruct (advance_spec supplement i states m Hm Hs) as (s1 & m1 & E1 & Hm1 & Hs1 & Ho1 & _ & Hl1).
    rewrite (bind_Ok_eq _ _ _ _ _ E1). destruct (IH s1 m1 Hm1 Hs1) as (s2 & m2 & E2 & Hm2 & Hs2 & Ho2 & Hl2).
    exists s2, m2. split_and!; try done; [congruence|]. intros j x Hx. apply Hl2 in Hx as (y & Hy & Hle).
    apply Hl1 in Hy as (z & Hz & Hle'). exists z. split; [done|]. destruct (Nat.eq_dec i j); destruct (decide (i = j)); lia.
Qed.

Lemma completion_counts : imap (λ j _, count_occ Nat.eq_dec completion j) sections = (List.length ∘ commands) <$> sections.
Proof. vm_compute. reflexivity. Qed.
Lemma completion_count j r : sections !! j = Some r → count_occ Nat.eq_dec completion j = List.length (commands r).
Proof.
  pose proof completion_counts as E. revert E. generalize completion, sections. intros c l E Hr. apply (f_equal (lookup j)) in E. rewrite list_lookup_imap, list_lookup_fmap, Hr in E.
  cbn in E. by injection E.
Qed.
Lemma start_proper supplement r : proper_state (r, start supplement r) ∧ (left_of (r, start supplement r) ≤ List.length (commands r))%nat.
Proof.
  unfold start. destruct (provider r =? "")%string; [split; [done|cbn; lia]|].
  destruct (provided (provider r)); cbn [negb]; [|split; [done|cbn; lia]].
  destruct (settled_outcome supplement r (commands r) ∅) as (_ & ? & ?). done.
Qed.

(** A section of the inventory: what the platform has, or what its domain answers. *)
Definition section_of (supplement : members) (r : request) : json :=
  if String.eqb (provider r) "" then
    match any_member (id_ r) supplement with Some d => sectionResult r true d "" | None => sectionResult r false JNull "" end
  else if provided (provider r) then gathered supplement r (commands r) ∅
  else sectionResult r false JNull "Collecteur indisponible.".
Lemma start_outcome supplement r : outcome_of supplement (r, start supplement r) = section_of supplement r.
Proof.
  unfold start, section_of. destruct (provider r =? "")%string; [done|]. destruct (provided (provider r)); cbn [negb]; [|done].
  apply settled_outcome.
Qed.
Definition inventory_at (t : Z) (results : list json) : members :=
  [("collected_at", JStr (rfc3339 t)); ("read_only", JBool true);
   ("schema", JStr "aegisadmin.configuration.inventory.v1"); ("sections", JArr results)].

(** Enough steps leave every goroutine with its result. *)
Lemma all_finished supplement (l : list request) order (states : list (request * progress)) :
  (∀ j r, l !! j = Some r → (List.length (commands r) ≤ count_occ Nat.eq_dec order j)%nat) → Forall proper_state states →
  (∀ j x, states !! j = Some x → ∃ y, ((λ r, (r, start supplement r)) <$> l) !! j = Some y ∧
    (left_of x ≤ left_of y - count_occ Nat.eq_dec order j)%nat) →
  result_of <$> states = outcome_of supplement <$> states.
Proof.
  intros Ho Hs Hl. apply list_fmap_ext. intros j x Hx. destruct (Hl j x Hx) as (y & Hy & Hle).
  apply (proj1 (Forall_lookup _ _) Hs) in Hx as Hp. rewrite list_lookup_fmap in Hy. destruct (l !! j) as [r|] eqn:Hr; [|done].
  apply (inj Some) in Hy as <-. apply Ho in Hr. pose proof (proj2 (start_proper supplement r)) as Hst.
  destruct x as [r' [[|o todo]|result]]; [done| |done]. unfold left_of at 1 in Hle. cbn [snd List.length] in Hle. lia.
Qed.
Lemma inventory_spec supplement m m1 : platform m = (Ok supplement, m1) → I (inside m1) →
  ∃ m', inventory platform m = (Ok (inventory_at (inventory_clock (inside m')) (section_of supplement <$> sections)), m') ∧ I (inside m').
Proof.
  intros Hp Hm1. unfold inventory. rewrite (bind_Ok_eq _ _ _ _ _ Hp), bind_look.
  set (states := (λ r, (r, start supplement r)) <$> sections). set (order := schedule (inside m1) ++ completion).
  assert (Forall proper_state states) as Hs.
  { apply Forall_fmap, Forall_true. intros r. apply start_proper. }
  destruct (advance_all_spec supplement order states m1 Hm1 Hs) as (states' & m' & E & Hm' & Hs' & Ho & Hl).
  rewrite (bind_Ok_eq _ _ _ _ _ E). exists m'. split; [|done].
  assert (result_of <$> states' = outcome_of supplement <$> states') as Hdone.
  { apply (all_finished supplement sections order); [|done|done]. intros j r Hr. apply completion_count in Hr.
    unfold order. rewrite count_occ_app, Hr. apply Nat.le_add_l. }
  assert (outcome_of supplement <$> states = section_of supplement <$> sections) as Hsec.
  { unfold states. rewrite <- list_fmap_compose. apply list_fmap_ext. intros j r _. apply start_outcome. }
  unfold look, inventory_at. by rewrite Hdone, Ho, Hsec.
Qed.

(** *** Its depth *)

Definition data_depth : nat := max_depth - 5.
Lemma depth_data : max_depth = S (S (S (S (S data_depth)))).
Proof. unfold data_depth, max_depth. lia. Qed.
Context (Hanswers : ∀ p c a d, answers p c a = Ok d → json_ok data_depth d = true).

Lemma sectionResult_ok d r available data message :
  json_ok (S d) data = true → json_ok (S (S d)) (sectionResult r available data message) = true.
Proof. intros H. unfold sectionResult. change (json_ok (S d) data && true = true). by rewrite H. Qed.
Lemma sorted_members_ok d (m : gmap string json) : map_Forall (λ _ v, json_ok d v = true) m → json_ok (S d) (JObj (sorted_members m)) = true.
Proof.
  intros H. cbn [json_ok]. apply forallb_forall. intros [k v] Hin. apply list_elem_of_In, elem_of_merge_sort, elem_of_map_to_list in Hin.
  by apply (H k).
Qed.
Definition supplement_ok (supplement : members) : Prop := ∀ k d, any_member k supplement = Some d → json_ok data_depth d = true.
Lemma gathered_ok supplement r todo : supplement_ok supplement → ∀ have,
  map_Forall (λ _ v, json_ok data_depth v = true) have → json_ok (S (S data_depth)) (gathered supplement r todo have) = true.
Proof.
  intros Hs. induction todo as [|operation todo IH]; intros have Hh; cbn [gathered].
  - apply sectionResult_ok, sorted_members_ok. destruct (any_member (id_ r) supplement) as [f|] eqn:Hf; [|done].
    apply map_Forall_insert_2; [by eapply Hs|done].
  - unfold answer. destruct (cut ":" operation) as [[c a] b]. destruct (answers _ _ _) as [d|message] eqn:Ha; [|by apply sectionResult_ok].
    apply IH. apply map_Forall_insert_2; [by eapply Hanswers|done].
Qed.
Lemma section_of_ok supplement r : supplement_ok supplement → json_ok (S (S data_depth)) (section_of supplement r) = true.
Proof.
  intros Hs. unfold section_of. destruct (provider r =? "")%string.
  - destruct (any_member (id_ r) supplement) as [d|] eqn:Hd; apply sectionResult_ok; [|done]. apply json_ok_mono. by eapply Hs.
  - destruct (provided (provider r)); [|by apply sectionResult_ok]. apply gathered_ok; [done|]. apply map_Forall_empty.
Qed.
Lemma inventory_encodable t supplement l : supplement_ok supplement → encodable (inventory_at t (section_of supplement <$> l)).
Proof.
  intros Hs. split; [|by exists "aegisadmin.configuration.inventory.v1"]. rewrite depth_data. cbn [Nat.pred].
  unfold inventory_at. change (json_ok (S (S (S data_depth))) (JArr (section_of supplement <$> l)) && true = true).
  rewrite andb_true_r. cbn [json_ok]. apply forallb_forall. intros x Hx. apply list_elem_of_In, list_elem_of_fmap in Hx as (r & -> & _).
  by apply section_of_ok.
Qed.
Lemma snapshot_found id s m : get id (inside m) = Some s → (Handle platform "snapshot" [id] m).1 = success [("snapshot", snapshot_value s)].
Proof. intros Hs. change (Handle platform "snapshot" [id] m) with (serve (snapshot_get id) m). unfold serve, snapshot_get. rewrite bind_look, Hs. done. Qed.
End reading.

(** C26: the inventory does not depend on how the commands of the domains are interleaved:
    when the domains answer the same whenever they are asked and leave the host as the
    invariant [I] wants it, it lists, in the order of the code, what the platform has and
    what each domain answers to its commands, up to the first one refused. *)
Theorem inventory_any_interleaving (answers : string → string → list string → res string json) (I : W → Prop) supplement m m1 :
  (∀ p c a m, I (inside m) → (collect p c a m).1 = answers p c a ∧ I (inside (collect p c a m).2)) →
  platform m = (Ok supplement, m1) → I (inside m1) →
  let (reply, m') := Handle platform "inventory" [] m in
  reply = success ((λ kv : string * json, (kv.1, value_of kv.2)) <$>
            inventory_at (inventory_clock (inside m')) (section_of answers supplement <$> sections)) ∧ I (inside m').
Proof.
  intros Hc Hp Hm1. destruct (inventory_spec answers I Hc supplement m m1 Hp Hm1) as (m' & E & Hm').
  change (Handle platform "inventory" [] m) with
    (serve (do! inv := inventory platform in ret ((λ kv : string * json, (kv.1, value_of kv.2)) <$> inv)) m).
  unfold serve. rewrite (bind_Ok_eq _ _ _ _ _ E). done.
Qed.

(** What is answered for a snapshot that was just created, or was there already. *)
Definition answered_snapshot (inv : members) (created : Z) (arguments : list string) (s : Snapshot) (m' : Machine W) : Prop :=
  (∃ content, (Handle platform "snapshot-export" [ID s] m').1 = success [("content", VStr content)] ∧
    ((s = new_snapshot inv created ∧ content = snapshot_text s ∧ InventorySHA256 s = fingerprint (json_text (JObj inv)) ∧
      (Handle platform "snapshot" [ID s] m').1 = success [("snapshot", snapshot_value (read_snapshot s))]) ∨
     (ID s = ID (new_snapshot inv created) ∧ decodeSnapshot content (ID s) = Some s ∧
      stake 12 (InventorySHA256 s) = stake 12 (fingerprint (json_text (JObj inv))) ∧
      (Handle platform "snapshot" [ID s] m').1 = success [("snapshot", snapshot_value s)]))) ∧
  ∀ name, arguments = [name] → ∃ meta, normalizeSnapshotName name = Some (Name meta) ∧ files (inside m') !! metadata_path (ID s) = Some (metadata_text meta).
Lemma exported_found id content m : export id (inside m) = Some content → (Handle platform "snapshot-export" [id] m).1 = success [("content", VStr content)].
Proof.
  intros Hx. change (Handle platform "snapshot-export" ?a) with (serve (W := W) (snapshot_export id)).
  unfold serve, snapshot_export. by rewrite bind_look, Hx.
Qed.
(** The last twelve digits of an identifier. *)
Lemma same_digits id sum sum' (t : Z) : id = stamp t +++ "-" +++ stake 12 sum → 12 ≤ slen sum → 12 ≤ slen sum' →
  has_suffix id ("-" +++ stake 12 sum') = true → stake 12 sum' = stake 12 sum.
Proof.
  intros -> Hl Hl' [u Hu]%has_suffix_spec. rewrite <- !sapp_assoc in Hu.
  assert (String.length (stamp t +++ "-") = String.length (u +++ "-")) as Hlen.
  { apply (f_equal String.length) in Hu. rewrite !sapp_length, !stake_length in Hu. unfold slen in *. rewrite !sapp_length. lia. }
  apply (f_equal (sdrop (String.length (stamp t +++ "-")))) in Hu. rewrite sdrop_app, Hlen, sdrop_app in Hu. done.
Qed.
Lemma created_answered inv arguments w w' s l : usable (W := W) → in_range (clock w) → encodable inv → create inv w = (Ok s, w') →
  (∀ name, arguments = [name] → ∃ meta, normalizeSnapshotName name = Some (Name meta) ∧ files (inside l) !! metadata_path (ID s) = Some (metadata_text meta)) →
  files (inside l) !! snapshot_path (ID s) = files w' !! snapshot_path (ID s) → answered_snapshot inv (clock w) arguments s l.
Proof.
  intros Hu Ht Hi E Hname Hf. pose proof (create_spec inv w Hu Ht Hi) as Hspec. rewrite E in Hspec.
  destruct (get_same (ID s) w' (inside l) Hu Hf) as [Hgl Hxl]. split; [|done].
  destruct Hspec as [(_ & -> & Hx & Hg)|(-> & Hid & Hg)].
  - eexists. split; [apply exported_found; by rewrite Hxl|]. left. split_and!; try done. apply snapshot_found. by rewrite Hgl.
  - pose proof Hg as Hg'. apply get_spec in Hg' as (content & _ & Hc & Hd & _).
    exists content. split; [|right; split_and!; [done..| |apply snapshot_found; by rewrite Hgl]].
    + apply exported_found. rewrite Hxl. unfold export. rewrite Hg. unfold read_at. by destruct (proj2 (Hu w) (snapshot_path (ID s))) as (_ & _ & ->).
    + apply (same_digits (ID s) _ _ (clock w)); [by rewrite Hid|unfold slen; by rewrite fingerprint_length|..];
        destruct (decoded_digits _ _ _ Hd); [lia|done].
Qed.

(** C15: what snapshot-create answers, without a name or with one, is read back.  It answers a
    snapshot of the inventory of the domains; snapshot then answers it under its identifier,
    its inventory re-read, snapshot-export answers the text of its file, and its
    fingerprint is that of the inventory.  When a snapshot of that identifier was already
    there, that one is answered, whose file decodes to it and whose fingerprint has the same
    twelve first digits.  A name that was given is the one the metadata have.  Or the command
    is refused: the snapshot could not be created, or the name is not one or could not be
    written.  The platform and the domains answer the same whenever they are asked, in
    values whose depth the JSON reader takes; the directory is usable; the clock of the store
    is within the years of four digits. *)
Theorem created_snapshot_read_back (answers : string → string → list string → res string json) (I : W → Prop) supplement arguments m m1 :
  (∀ p c a m, I (inside m) → (collect p c a m).1 = answers p c a ∧ I (inside (collect p c a m).2)) →
  (∀ p c a d, answers p c a = Ok d → json_ok data_depth d = true) →
  platform m = (Ok supplement, m1) → I (inside m1) → supplement_ok supplement →
  usable (W := W) → (∀ w, in_range (clock w)) → (List.length arguments ≤ 1)%nat →
  let (reply, m') := Handle platform "snapshot-create" arguments m in
  ∃ collected created, let inv := inventory_at collected (section_of answers supplement <$> sections) in
  match Api.resp_error (Api.Resp reply) with
  | Some _ =>
      reply = failure 10 "CONFIGURATION_SNAPSHOT_CREATE_FAILED" "Le snapshot de configuration n’a pas pu être créé." ∨
      (reply = failure 2 "CONFIGURATION_SNAPSHOT_NAME_INVALID" "Le nom du snapshot est invalide." ∧
       ∃ name, arguments = [name] ∧ (normalizeSnapshotName name = None ∨ ¬ writable W))
  | None => ∃ s, reply = success [("snapshot", snapshot_value s)] ∧ answered_snapshot inv created arguments s m'
  end.
Proof.
  intros Hc Ha Hp Hm1 Hs Hu Ht Hlen. destruct (inventory_spec answers I Hc supplement m m1 Hp Hm1) as (m2 & E & Hm2).
  change (Handle platform "snapshot-create" arguments m) with (serve (snapshot_create platform arguments) m). unfold serve, snapshot_create.
  rewrite (proj2 (Nat.ltb_ge _ _)) by done. rewrite (bind_Ok_eq _ _ _ _ _ E), bind_touch.
  set (t := inventory_clock (inside m2)). set (inv := inventory_at t (section_of answers supplement <$> sections)).
  pose proof (inventory_encodable answers Ha t supplement sections Hs : encodable inv) as Hi.
  destruct (create inv (inside m2)) as [[s|e] w'] eqn:Hcr; cbn [fst snd]; [|unfold fail, stop; exists t, 0; by left].
  destruct arguments as [|name [|]]; [| |cbn in Hlen; lia].
  - unfold ret. exists t, (clock (inside m2)). fold inv. cbn [Api.resp_error Api.Resp success Api.Success]. exists s. split; [done|].
    by eapply created_answered.
  - rewrite bind_touch. cbn [inside].
    assert (is_Some (get (ID s) w')) as [x Hx].
    { pose proof (create_spec inv (inside m2) Hu (Ht _) Hi) as Hspec. rewrite Hcr in Hspec. destruct Hspec as [(_ & _ & _ & ->)|(-> & _ & ->)]; eauto. }
    pose proof (rename_spec (ID s) name w' x Hx) as Hr. pose proof (rename_keeps (ID s) name w' (snapshot_path (ID s))) as Hk.
    destruct (rename (ID s) name w') as [ok w2]. cbn [fst snd] in *. destruct Hr as [(-> & meta & Hn & Hf)|[-> Hn]].
    + unfold ret. exists t, (clock (inside m2)). fold inv. cbn [Api.resp_error Api.Resp success Api.Success]. exists s. split; [done|].
      eapply created_answered; [done..| |].
      * intros ? [= <-]. by exists meta.
      * apply Hk, snapshot_document. by apply get_spec in Hx as (_ & ? & _).
    + unfold fail, stop. exists t, 0. right. split; [done|]. by exists name.
Qed.

(** What snapshot-export answers on one host is accepted by snapshot-import on another,
    where the snapshot then has the same text and the same content, under a name of its
    own; where a snapshot of that identifier is already there, the import is refused and
    changes nothing. *)
Theorem exported_imported name name' id content m1 m2 :
  usable (W := W) → writable W → normalizeSnapshotName name = Some name' →
  (Handle platform "snapshot-export" [id] m1).1 = success [("content", VStr content)] →
  let (reply, m2') := Handle platform "snapshot-import" [name; content] m2 in
  match files (inside m2) !! snapshot_path id with
  | Some _ => reply = failure 3 "CONFIGURATION_SNAPSHOT_EXISTS" "Ce snapshot existe déjà sur le serveur." ∧ m2' = m2
  | None =>
      (Handle platform "snapshot" [id] m2').1 = (Handle platform "snapshot" [id] m1).1 ∧
      (Handle platform "snapshot-export" [id] m2').1 = success [("content", VStr content)] ∧
      reply = (Handle platform "snapshot" [id] m1).1 ∧
      ∀ p, p ≠ snapshot_path id → p ≠ metadata_path id → files (inside m2') !! p = files (inside m2) !! p
  end.
Proof.
  intros Hu Hw Hn Hx. change (Handle platform "snapshot-export" ?a) with (serve (W := W) (snapshot_export id)) in *.
  change (Handle platform "snapshot-import" ?a) with (serve (W := W) (snapshot_import name content)).
  assert (export id (inside m1) = Some content) as He.
  { unfold serve, snapshot_export in Hx. rewrite bind_look in Hx. destruct (export id (inside m1)) as [c|]; [|done]. by injection Hx as ->. }
  apply export_spec in He as (s & Hg & Hid & _ & Hs & _ & Hl).
  pose proof (import_spec content name name' id s (inside m2) Hu Hid Hs Hl Hn Hw) as Hspec.
  unfold serve at 1, snapshot_import at 1. rewrite bind_touch. destruct (importSnapshot content name (inside m2)) as [out w']. cbn [fst snd].
  rewrite (snapshot_found id s m1 Hg).
  destruct (files (inside m2) !! snapshot_path id) as [old|].
  - destruct Hspec as [-> ->]. unfold fail, stop. split; [done|]. by destruct m2.
  - destruct Hspec as (-> & Hg' & Hx' & Hf). unfold ret. split; [by apply snapshot_found|]. split; [|split; [done|]].
    + unfold serve, snapshot_export. rewrite bind_look. cbn [inside]. by rewrite Hx'.
    + intros p H1 H2. cbn [inside]. by rewrite Hf, !lookup_insert_ne.
Qed.

(** A name that is refused comes too late: the snapshot is kept. *)
Lemma refused_name_keeps inv name m m2 :
  inventory platform m = (Ok inv, m2) → usable (W := W) → in_range (clock (inside m2)) → encodable inv → normalizeSnapshotName name = None →
  let (reply, m') := Handle platform "snapshot-create" [name] m in
  reply = failure 10 "CONFIGURATION_SNAPSHOT_CREATE_FAILED" "Le snapshot de configuration n’a pas pu être créé." ∨
  reply = failure 2 "CONFIGURATION_SNAPSHOT_NAME_INVALID" "Le nom du snapshot est invalide." ∧
    is_Some (get (ID (new_snapshot inv (clock (inside m2)))) (inside m')).
Proof.
  intros E Hu Ht Hi Hn. change (Handle platform "snapshot-create" ?a) with (serve (snapshot_create platform [name])).
  unfold serve, snapshot_create. change (1 <? List.length [name])%nat with false. cbv iota. rewrite (bind_Ok_eq _ _ _ _ _ E), bind_touch.
  pose proof (create_spec inv (inside m2) Hu Ht Hi) as Hspec. destruct (create inv (inside m2)) as [out w']. cbn [fst snd].
  destruct out as [s|e]; [|by left]. rewrite bind_touch. cbn [inside].
  assert (is_Some (get (ID s) w') ∧ ID s = ID (new_snapshot inv (clock (inside m2)))) as [[x Hx] Hid].
  { destruct Hspec as [(_ & -> & _ & Hg)|(-> & Hi' & Hg)]; [|by eauto]. split; [by eexists|done]. }
  assert (rename (ID s) name w' = (false, w')) as ->.
  { unfold rename. rewrite Hx. unfold writeMetadata. cbn [Name]. by rewrite Hn. }
  right. cbn [fst snd]. split; [done|]. cbn [inside]. rewrite <- Hid, Hx. by eexists.
Qed.
End domain.

(** ** A host *)

Record vault := mkVault { v_files : gmap string string; v_time : Z }.
#[global] Instance vault_system : FileSystem vault.
Proof.
  refine {| files := v_files; set_files fs w := mkVault fs (v_time w); may_write _ _ _ := true; may_remove _ _ := true |}. done.
Defined.
#[global] Instance vault_host : SnapshotHost vault := {|
  directory_ready _ := true; obstacle _ _ := false; lstat_fails _ _ := false; may_read _ _ := true; may_chmod _ _ := true;
  listed w := Some []; clock _ := 1772325000; inventory_clock _ := 1772324999 |}.
#[global] Instance vault_programs : Programs vault := {| exec w _ _ := (w, mkOutcome "" "" 0); executable _ := false |}.
#[global] Instance vault_directories : Directories vault := {| walk _ _ := [] |}.
#[global] Instance vault_case : UnicodeCase := ascii_case.
Definition vault_answers (provider command : string) (arguments : list string) : res string json :=
  if String.eqb provider "tor" then Err "" else Ok (JObj [("hostname", JStr "vault")]).
#[global] Instance vault_collectors : Collectors vault := {|
  provided p := negb (String.eqb p "mysql"); collect p c a m := (vault_answers p c a, m); schedule _ := [13; 0; 8; 0]%nat |}.
Definition vault_at (files : gmap string string) : Machine vault := mkMachine (mkVault files 0) [].
Definition vault_supplement : members := Eval vm_compute in match Inventory (vault_at ∅) with (Ok s, _) => s | _ => [] end.
Lemma vault_platform (P : vault → Prop) : keeps P Inventory.
Proof.
  assert (∀ name arguments, keeps P (run name arguments)) as Hr by (intros name arguments; by apply triple_run).
  repeat (first [apply Hr|progress eauto 3 with commands nocore | keeps_step]; try done).
Qed.
Definition vault_id : string := "20260301T003000Z-0123456789ab".
Lemma snapshot_immutable_witness :
  files (inside (Handle Inventory "snapshot-delete" [vault_id; "other"] (vault_at {[snapshot_path vault_id := "kept"]})).2) !! snapshot_path vault_id = Some "kept".
Proof.
  apply (snapshot_immutable Inventory vault_id "kept"); [reflexivity|apply vault_platform|by intros|right; discriminate|reflexivity].
Defined.
Lemma inventory_any_interleaving_witness :
  let (reply, m') := Handle Inventory "inventory" [] (vault_at ∅) in
  reply = success ((λ kv : string * json, (kv.1, value_of kv.2)) <$>
            inventory_at (inventory_clock (inside m')) (section_of vault_answers vault_supplement <$> sections)) ∧ True.
Proof.
  exact (inventory_any_interleaving Inventory vault_answers (λ _, True) vault_supplement (vault_at ∅) (vault_at ∅)
           (λ _ _ _ _ _, conj eq_refl I) eq_refl I).
Defined.
Lemma vault_answers_ok p c a d : vault_answers p c a = Ok d → json_ok data_depth d = true.
Proof. unfold vault_answers. destruct (p =? "tor")%string; [done|]. intros [= <-]. unfold data_depth, max_depth. by vm_compute. Qed.
Lemma vault_supplement_ok : supplement_ok vault_supplement.
Proof.
  intros k d Hd. assert (forallb (λ kv : string * json, json_ok data_depth kv.2) vault_supplement = true) as Hall by (vm_compute; reflexivity).
  unfold any_member in Hd. apply last_Some_elem_of, list_elem_of_omap in Hd as ([k' v] & Hin & Hv).
  rewrite forallb_forall in Hall. apply list_elem_of_In, Hall in Hin. cbn [fst snd] in *. destruct (k' =? k)%string; [|done]. by injection Hv as ->.
Qed.
Lemma vault_time_ok (w : vault) : in_range (clock w).
Proof. by vm_compute. Qed.
Lemma vault_usable : usable (W := vault).
Proof. by repeat split. Qed.

Definition vault_inventory : members := inventory_at 1772324999 (section_of vault_answers vault_supplement <$> sections).
Definition vault_snapshot : Snapshot := new_snapshot vault_inventory 1772325000.
Lemma created_snapshot_read_back_witness :
  let (reply, m') := Handle Inventory "snapshot-create" ["Avant"] (vault_at ∅) in
  ∃ inv created s, reply = success [("snapshot", snapshot_value s)] ∧ answered_snapshot Inventory inv created ["Avant"] s m'.
Proof.
  pose proof (created_snapshot_read_back Inventory vault_answers (λ _, True) vault_supplement ["Avant"] (vault_at ∅) (vault_at ∅)
           (λ _ _ _ _ _, conj eq_refl I) vault_answers_ok eq_refl I vault_supplement_ok vault_usable vault_time_ok (le_n 1)) as H.
  assert (Api.resp_error (Api.Resp (Handle Inventory "snapshot-create" ["Avant"] (vault_at ∅)).1) = None) as Hn by (vm_compute; reflexivity).
  destruct (Handle Inventory "snapshot-create" ["Avant"] (vault_at ∅)) as [reply m']. cbn [fst] in Hn. rewrite Hn in H.
  destruct H as (collected & created & s & Hr & Ha). by exists (inventory_at collected (section_of vault_answers vault_supplement <$> sections)), created, s.
Defined.
(** The branch taken there: the snapshot is new. *)
Example vault_created : get (ID vault_snapshot) (inside (Handle Inventory "snapshot-create" ["Avant"] (vault_at ∅)).2) = Some (read_snapshot vault_snapshot).
Proof. vm_compute. reflexivity. Qed.

Definition vault_full : Machine vault := vault_at {[snapshot_path (ID vault_snapshot) := snapshot_text vault_snapshot]}.
Lemma exported_imported_witness :
  let (reply, m2') := Handle Inventory "snapshot-import" [" Copie "; snapshot_text vault_snapshot] (vault_at ∅) in
  (Handle Inventory "snapshot" [ID vault_snapshot] m2').1 = (Handle Inventory "snapshot" [ID vault_snapshot] vault_full).1 ∧
  (Handle Inventory "snapshot-export" [ID vault_snapshot] m2').1 = success [("content", VStr (snapshot_text vault_snapshot))] ∧
  reply = (Handle Inventory "snapshot" [ID vault_snapshot] vault_full).1 ∧
  ∀ p, p ≠ snapshot_path (ID vault_snapshot) → p ≠ metadata_path (ID vault_snapshot) → files (inside m2') !! p = None.
Proof.
  assert ((Handle Inventory "snapshot-export" [ID vault_snapshot] vault_full).1 = success [("content", VStr (snapshot_text vault_snapshot))]) as Hx
    by (vm_compute; reflexivity).
  exact (exported_imported Inventory " Copie " "Copie" (ID vault_snapshot) (snapshot_text vault_snapshot) vault_full (vault_at ∅)
           vault_usable (λ _ _ _, eq_refl) eq_refl Hx).
Defined.
(** The name is refused, the snapshot is there. *)
Example refused_name_kept :
  let (reply, m') := Handle Inventory "snapshot-create" [" "] (vault_at ∅) in
  reply = failure 2 "CONFIGURATION_SNAPSHOT_NAME_INVALID" "Le nom du snapshot est invalide." ∧
  files (inside m') !! snapshot_path (ID vault_snapshot) = Some (snapshot_text vault_snapshot).
Proof. vm_compute. split; reflexivity. Qed.
