(* ===== verification/Storage.v ===== *)
(** * The storage domain: [domain/storage]

    The mounts [findmnt] prints as JSON, normalised under identifiers, with the physical
    devices found below [/sys], and the profile that chooses the command and the data
    mount.  The program, the tree of [/sys] and the text of large floats are parameters.
    Then the properties: the identifiers of the mounts, and the walk of the tree of [/sys],
    which finds the devices that are reached and ends. *)

From S2P Require Import Prelude GoStrings StringFacts Regex Codec Json JsonParse JsonMore Command Files Units.
From S2P Require Api Backup CronTasks.
From Stdlib Require Import Ascii String.
#[local] Open Scope string_scope.
#[local] Open Scope list_scope.
#[local] Open Scope Z_scope.

Import Api(Reply, failure, success, VStr, VInt, VBool, VNum, VList, VMap, VNil, Value).
Import Backup(IsAbs, Clean, Join).

Definition defaultDataMount : string := "/var/www/data".
Definition findmntCommandCandidates : list string := ["/usr/bin/findmnt"; "/bin/findmnt"; "/usr/local/bin/findmnt"].
Definition ident_byte (c : ascii) : bool := is_lower c || is_digit c || contains_byte c "._-".
(** [^[a-z0-9][a-z0-9._-]*$] *)
Definition identifierPattern : rx := Cls (λ c, is_lower c || is_digit c) ;;; Star (Cls ident_byte).
(** [^[0-9]+:[0-9]+$] *)
Definition majorMinorPattern : rx := plus (Cls is_digit) ;;; lit ":" ;;; plus (Cls is_digit).
Definition excludedFilesystems : list string :=
  ["autofs"; "bpf"; "cgroup"; "cgroup2"; "configfs"; "debugfs"; "devpts"; "devtmpfs"; "efivarfs"; "fusectl";
   "hugetlbfs"; "mqueue"; "overlay"; "proc"; "pstore"; "ramfs"; "securityfs"; "squashfs"; "sysfs"; "tmpfs"; "tracefs"].

Record Mount := mkMount {
  m_ID : string; m_Source : string; m_Mount : string; m_Filesystem : string; m_PhysicalDevice : string; m_MajorMinor : string;
  m_Size : Z; m_Used : Z; m_Available : Z; m_Percent : Z }.

(** ** The profile *)

Record LinuxCollector := mkCollector { findmnt : string; dataMount : string }.
Definition allowedFindmnt (path : string) : bool := existsb (String.eqb path) findmntCommandCandidates.
Definition validMountPath (path : string) : bool :=
  IsAbs path && String.eqb (Clean path) path && negb (String.eqb path "/") && negb (contains_any path (String nul (String cr (String nl "")))).
Definition profile_step (c : LinuxCollector) (kv : string * string) : LinuxCollector :=
  let (key, value) := kv in
  if String.eqb key "findmnt" then
    if negb (String.eqb value "auto") && allowedFindmnt value then mkCollector value (dataMount c) else c
  else if String.eqb key "data_mount" then
    if String.eqb value "none" then mkCollector (findmnt c) ""
    else if validMountPath value then mkCollector (findmnt c) (Clean value) else c
  else c.
Definition loadProfile (c : LinuxCollector) (content : option string) : LinuxCollector :=
  fold_left profile_step (profile_entries content) c.

(** ** What [findmnt] prints *)

Record findmntFilesystem := mkFilesystem {
  fs_Source : string; fs_Target : string; fs_FSType : string; fs_MajorMinor : string;
  fs_Size : option json; fs_Used : option json; fs_Avail : option json; fs_Use : string }.
Definition zero_filesystem : findmntFilesystem := mkFilesystem "" "" "" "" None None None "".
Definition store_filesystem (a : findmntFilesystem) (v : json) : findmntFilesystem * bool :=
  match v with
  | JNull => (a, true)
  | JObj m =>
      let '(source, ok1) := store_field "source" store_string (fs_Source a) m in
      let '(target, ok2) := store_field "target" store_string (fs_Target a) m in
      let '(fstype, ok3) := store_field "fstype" store_string (fs_FSType a) m in
      let '(mm, ok4) := store_field "maj:min" store_string (fs_MajorMinor a) m in
      let '(size, _) := store_field "size" store_raw (fs_Size a) m in
      let '(used, _) := store_field "used" store_raw (fs_Used a) m in
      let '(avail, _) := store_field "avail" store_raw (fs_Avail a) m in
      let '(use, ok5) := store_field "use%" store_string (fs_Use a) m in
      (mkFilesystem source target fstype mm size used avail use, ok1 && ok2 && ok3 && ok4 && ok5)
  | _ => (a, false)
  end.
Definition findmnt_payload (raw : string) : option (list findmntFilesystem) :=
  match json_parse raw with
  | Some JNull => Some []
  | Some (JObj m) =>
      let (l, ok) := store_field "filesystems" (store_list store_filesystem zero_filesystem) [] m in if ok : bool then Some l else None
  | _ => None
  end.

(** The text of a field is a number: the others do not parse. *)
Definition nonNegativeInteger (raw : option json) : option Z :=
  match raw with
  | Some (JNum s) => match atoi s with Some v => if 0 <=? v then Some v else None | None => None end
  | _ => None
  end.
Definition normalizePercent (raw : string) : Z :=
  match atoi (trim_suffix raw "%") with Some v => if (v <? 0) || (100 <? v) then 0 else v | None => 0 end.

(** The text of an error that is not an exit status, and of those of [json.Unmarshal]; the
    text of the float64 nearest to an integer above 2^53. *)
Class StorageTexts := { error_text : outcome → string; json_error : string → string; float_text : Z → string }.

Section storage.
Context `{UnicodeCase} `{!StorageTexts}.

(** The runs of hyphens become one. *)
Fixpoint collapse (s : string) : string :=
  match s with
  | EmptyString => ""
  | String c s' => if Ascii.eqb c "-" then (if has_prefix s' "-" then collapse s' else String c (collapse s')) else String c (collapse s')
  end.
Definition hyphen (c : ascii) : bool := Ascii.eqb c "-".
Definition identifierCandidate (mount dataMount : string) : string :=
  if String.eqb mount "/" then "root"
  else if negb (String.eqb dataMount "") && String.eqb mount dataMount then "data"
  else
    let identifier := to_lower (trim_left_set (Ascii.eqb "/") mount) in
    let identifier := trim_set hyphen (collapse (smap (λ c, if ident_byte c then c else "-"%char) identifier)) in
    if String.eqb identifier "" then "mount" else identifier.

Definition mount_of (dataMount : string) (item : findmntFilesystem) : option Mount :=
  if existsb (String.eqb (fs_FSType item)) excludedFilesystems || String.eqb (fs_Source item) "" || String.eqb (fs_Target item) "" || String.eqb (fs_FSType item) ""
  then None
  else match nonNegativeInteger (fs_Size item), nonNegativeInteger (fs_Used item), nonNegativeInteger (fs_Avail item) with
  | Some size, Some used, Some available =>
      let candidate := identifierCandidate (fs_Target item) dataMount in
      if full identifierPattern candidate
      then Some (mkMount candidate (fs_Source item) (fs_Target item) (fs_FSType item) "" (fs_MajorMinor item) size used available (normalizePercent (fs_Use item)))
      else None
  | _, _, _ => None
  end.
(** A mount takes the place of the one of its mount point. *)
Fixpoint upsert (m : Mount) (l : list Mount) : list Mount :=
  match l with
  | [] => [m]
  | x :: l => if String.eqb (m_Mount x) (m_Mount m) then m :: l else x :: upsert m l
  end.
Definition digest12 (s : string) : string := stake 12 (hex_encode (sha256 s)).
Definition count_id (id : string) (l : list Mount) : nat := List.length (List.filter (λ m, String.eqb (m_ID m) id) l).
Definition with_id (m : Mount) (id : string) : Mount :=
  mkMount id (m_Source m) (m_Mount m) (m_Filesystem m) (m_PhysicalDevice m) (m_MajorMinor m) (m_Size m) (m_Used m) (m_Available m) (m_Percent m).
Definition suffixed (dataMount : string) (all : list Mount) (m : Mount) : Mount :=
  let requiresSuffix :=
    if String.eqb (m_ID m) "root" then negb (String.eqb (m_Mount m) "/")
    else if String.eqb (m_ID m) "data" then negb (String.eqb (m_Mount m) dataMount)
    else (1 <? count_id (m_ID m) all)%nat in
  if requiresSuffix then with_id m (m_ID m +++ "-" +++ digest12 (m_Mount m)) else m.
Fixpoint distinct (seen l : list string) : bool :=
  match l with [] => true | x :: l => negb (existsb (String.eqb x) seen) && distinct (x :: seen) l end.
Definition mount_le (x y : Mount) : Prop := str_le (m_ID x) (m_ID y).
#[global] Instance mount_le_dec x y : Decision (mount_le x y).
Proof. unfold mount_le. apply _. Defined.

(** The counts are those of the candidates: a suffix does not change them. *)
Definition normalizeWithDataMount (raw dataMount : string) : res string (list Mount) :=
  match findmnt_payload raw with
  | None => Err (json_error raw)
  | Some items =>
      let mounts := fold_left (λ l m, upsert m l) (omap (mount_of dataMount) items) [] in
      let mounts := suffixed dataMount mounts <$> mounts in
      if distinct [] (m_ID <$> mounts) then Ok (merge_sort mount_le mounts) else Err "storage identifier collision"
  end.
End storage.

(** ** Errors and devices *)

(** The tree of [/sys]. *)
Class SysTree (W : Type) := {
  EvalSymlinks : W → string → option string;
  exists_path : W → string → bool;
  ReadDir : W → string → list string;     (** the names, none on an error *)
}.

Section domain.
Context {W : Type} `{!Programs W} `{!SysTree W} `{!StorageTexts} `{UnicodeCase}.
Implicit Types (w : W).

Definition safeCommandError (o : outcome) : string :=
  if status o =? -1 then error_text o
  else
    let message := trim_space (to_valid_utf8 0 false (stderr o)) in
    if String.eqb message "" then "exit code " +++ itoa (status o)
    else "exit code " +++ itoa (status o) +++ ": " +++ (if 240 <? slen message then stake 240 message else message).
Definition normalizeFindmntResult (o : outcome) (dataMount : string) : res string (list Mount) :=
  if String.eqb (stdout o) "" then
    Err (if succeeded o then "findmnt returned no output" else "findmnt command failed: " +++ safeCommandError o)
  else match normalizeWithDataMount (stdout o) dataMount with
  | Err e => Err e
  | Ok [] => if succeeded o then Ok [] else Err "findmnt failed without usable mounts"
  | Ok mounts => Ok mounts
  end.

(** The devices found and the directories visited; no fuel left is [None]. *)
Definition walked : Type := gset string * gset string.
Fixpoint collectPhysicalDevices (fuel : nat) w (path : string) (st : walked) : option walked :=
  match fuel with
  | O => None
  | S fuel =>
      match EvalSymlinks w path with
      | None => Some st
      | Some realPath =>
          if decide (realPath ∈ st.2) then Some st
          else
            let st := (st.1, {[realPath]} ∪ st.2) in
            if exists_path w (Join realPath "partition") then collectPhysicalDevices fuel w (Dir realPath) st
            else match ReadDir w (Join realPath "slaves") with
            | [] =>
                let name := CronTasks.path_base realPath in
                Some (if String.eqb name "" || String.eqb name "." then st else ({[name]} ∪ st.1, st.2))
            | slaves =>
                fold_left (λ acc name, match acc with
                                       | Some st => collectPhysicalDevices fuel w (Join (Join realPath "slaves") name) st
                                       | None => None end) slaves (Some st)
            end
      end
  end.
Definition resolvePhysicalDevices (fuel : nat) w (majorMinor sysRoot : string) : option string :=
  if negb (full majorMinorPattern majorMinor) then Some ""
  else match EvalSymlinks w (Join (Join (Join sysRoot "dev") "block") majorMinor) with
  | None => Some ""
  | Some path =>
      match collectPhysicalDevices fuel w path (∅, ∅) with
      | None => None
      | Some st => Some (join ", " (sort_strings ((λ name, "/dev/" +++ name) <$> base.elements st.1)))
      end
  end.

(** ** The commands *)

(** The fuel of the walks, and what the collector was made of when the daemon started. *)
Context (fuel : nat) (profile_file : option string).
Definition executable_path (path : string) : bool := negb (String.eqb path "") && IsAbs path && executable path.
Definition NewLinuxCollector : LinuxCollector :=
  loadProfile (mkCollector (default "" (find executable_path findmntCommandCandidates)) defaultDataMount) profile_file.

Definition with_device w (m : Mount) : Mount :=
  mkMount (m_ID m) (m_Source m) (m_Mount m) (m_Filesystem m) (default "" (resolvePhysicalDevices fuel w (m_MajorMinor m) "/sys"))
    (m_MajorMinor m) (m_Size m) (m_Used m) (m_Available m) (m_Percent m).
Definition findmnt_arguments : list string :=
  ["--json"; "--bytes"; "--df"; "--output"; "SOURCE,TARGET,FSTYPE,MAJ:MIN,SIZE,USED,AVAIL,USE%"].
Definition Mounts : cmd W (res string (list Mount)) :=
  if negb (executable_path (findmnt NewLinuxCollector)) then ret (Err "findmnt unavailable")
  else
    do! o := run (findmnt NewLinuxCollector) findmnt_arguments in
    look (λ w, res_map (fmap (with_device w)) (normalizeFindmntResult o (dataMount NewLinuxCollector))).

Definition data := list (string * Value).
Definition mount_value (m : Mount) : Value :=
  VMap [("id", VStr (m_ID m)); ("source", VStr (m_Source m)); ("mount", VStr (m_Mount m)); ("filesystem", VStr (m_Filesystem m));
        ("physical_device", VStr (m_PhysicalDevice m)); ("size", VInt (m_Size m)); ("used", VInt (m_Used m));
        ("available", VInt (m_Available m)); ("percent", VInt (m_Percent m))].
(** An integer marshalled, decoded into [any] and marshalled again. *)
Definition float_value (n : Z) : Value := if n <=? 2 ^ 53 then VInt n else VNum (float_text n).
Definition mount_data (m : Mount) : data :=
  [("available", float_value (m_Available m)); ("filesystem", VStr (to_text (m_Filesystem m))); ("id", VStr (to_text (m_ID m)));
   ("mount", VStr (to_text (m_Mount m))); ("percent", float_value (m_Percent m)); ("physical_device", VStr (to_text (m_PhysicalDevice m)));
   ("size", float_value (m_Size m)); ("source", VStr (to_text (m_Source m))); ("used", float_value (m_Used m))].
Definition storageReadFailure (reason : string) : Reply :=
  failure_with 3 "STORAGE_READ_FAILED" "Les informations de stockage n’ont pas pu être lues." [("reason", VStr reason)].
Definition invalidArgumentCount : Reply := failure 2 "INVALID_ARGUMENT_COUNT" "Le nombre d’arguments fourni est invalide.".
Definition mounts_read : cmd W (list Mount) :=
  do! r := Mounts in match r with Ok mounts => ret mounts | Err reason => stop (storageReadFailure reason) end.

Definition execute (command : string) (arguments : list string) : cmd W data :=
  if String.eqb command "" then stop (failure 2 "MISSING_COMMAND" "Aucune commande n’a été indiquée pour le domaine storage.")
  else if String.eqb command "list" then
    match arguments with
    | [] => do! mounts := mounts_read in ret [("mounts", VList (mount_value <$> mounts))]
    | _ => stop invalidArgumentCount
    end
  else if String.eqb command "status" then
    match arguments with
    | [id] =>
        if negb (full identifierPattern id) then stop (failure 2 "INVALID_STORAGE_IDENTIFIER" "L’identifiant du point de montage est invalide.")
        else
          do! mounts := mounts_read in
          match find (λ m, String.eqb (m_ID m) id) mounts with
          | Some m => ret (mount_data m)
          | None => stop (failure 5 "STORAGE_NOT_FOUND" "Le point de montage demandé est introuvable.")
          end
    | _ => stop invalidArgumentCount
    end
  else stop (failure 4 "COMMAND_NOT_FOUND" "La commande demandée n’existe pas dans le domaine storage.").
Definition Handle (command : string) (arguments : list string) : Machine W → Reply * Machine W := serve (execute command arguments).
End domain.

(** * Properties *)



(** ** Replies *)

Section replies.
Context {W : Type} `{!Programs W} `{!SysTree W} `{!StorageTexts} `{UnicodeCase}.
Lemma storage_reply_ok fuel profile command arguments (m : Machine W) : Api.reply_ok (Handle fuel profile command arguments m).1.
Proof. apply serve_ok. unfold execute, mounts_read, Mounts, storageReadFailure. walk. Qed.
(** The domain runs [findmnt] and nothing else, as it was found or configured. *)
Lemma storage_runs_findmnt fuel profile command arguments (m : Machine W) :
  let '(_, m') := Handle fuel profile command arguments m in
  ∃ l, ran_since m m' l ∧ Forall (calls (λ name a, name ∈ findmntCommandCandidates ∧ a = findmnt_arguments)) l.
Proof.
  unfold Handle. destruct (serve (execute fuel profile command arguments) m) as [r m'] eqn:E. unfold serve in E.
  destruct (execute fuel profile command arguments m) as [out m1] eqn:Em.
  assert (m' = m1) as -> by (destruct out; congruence).
  assert (only (λ name a, name ∈ findmntCommandCandidates ∧ a = findmnt_arguments) (Mounts fuel profile)) as Hm.
  { unfold Mounts. destruct (executable_path _) eqn:Hx; cbn [negb]; [|walk]. apply only_bind; [|intros o; walk]. apply only_run. split; [|done].
    revert Hx. unfold NewLinuxCollector, loadProfile. generalize (profile_entries profile). intros l.
    assert (∀ c, (findmnt c = "" ∨ findmnt c ∈ findmntCommandCandidates) → findmnt (fold_left profile_step l c) = "" ∨ findmnt (fold_left profile_step l c) ∈ findmntCommandCandidates) as Hf.
    { induction l as [|[k v] l IH]; intros c Hc; [done|]. cbn [fold_left]. apply IH. unfold profile_step, allowedFindmnt.
      destruct (k =? "findmnt")%string; [|by repeat case_match].
      destruct (negb (v =? "auto")%string && existsb (String.eqb v) findmntCommandCandidates) eqn:Hv; [right|done].
      apply andb_prop in Hv as [_ Hv]. by apply existsb_eqb_elem in Hv. }
    set (c0 := mkCollector _ _). destruct (Hf c0) as [Hc| Hc]; [|by rewrite Hc|done].
    subst c0. cbn [findmnt]. destruct (find executable_path findmntCommandCandidates) as [p|] eqn:Hp; [right|by left].
    apply find_some in Hp as [Hp _]. cbn [default]. by apply list_elem_of_In. }
  assert (only (λ name a, name ∈ findmntCommandCandidates ∧ a = findmnt_arguments) (execute fuel profile command arguments)) as Ho.
  { unfold execute, mounts_read.
    repeat (first [exact Hm|progress eauto 3 with commands nocore | command_step]; try done). }
  exact (Ho _ _ _ Em).
Qed.
End replies.

(** ** Identifiers *)

#[export] Instance mount_le_total : Total mount_le.
Proof. intros x y. unfold mount_le. apply str_le_total. Qed.
#[export] Instance mount_le_trans : Transitive mount_le.
Proof. intros x y z. unfold mount_le. apply str_le_trans. Qed.

Section identifiers.
Context `{UnicodeCase} `{!StorageTexts} (dm : string).

(** What is known of a mount before the suffixes. *)
Definition made (m : Mount) : Prop :=
  m_ID m = identifierCandidate (m_Mount m) dm ∧ full identifierPattern (m_ID m) = true ∧ m_Mount m ≠ "" ∧ m_Source m ≠ "" ∧
  m_Filesystem m ∉ excludedFilesystems ∧ 0 ≤ m_Size m ≤ int_max ∧ 0 ≤ m_Used m ≤ int_max ∧ 0 ≤ m_Available m ≤ int_max ∧ 0 ≤ m_Percent m ≤ 100.
Lemma nonNegative_range raw v : nonNegativeInteger raw = Some v → 0 ≤ v ≤ int_max.
Proof.
  unfold nonNegativeInteger. destruct raw as [[| |n| | |]|]; try done. destruct (atoi n) as [z|] eqn:E; [|done].
  apply atoi_range in E. destruct (Z.leb_spec 0 z); [|done]. intros [= <-]. lia.
Qed.
Lemma percent_range raw : 0 ≤ normalizePercent raw ≤ 100.
Proof. unfold normalizePercent. destruct (atoi _); [|lia]. destruct (_ || _) eqn:E; [lia|]. bool_prop. lia. Qed.
Lemma mount_of_made item m : mount_of dm item = Some m → made m.
Proof.
  unfold mount_of. destruct (_ || _) eqn:E; [done|]. bool_prop.
  destruct (nonNegativeInteger (fs_Size item)) as [size|] eqn:Hs; [|done].
  destruct (nonNegativeInteger (fs_Used item)) as [used|] eqn:Hu; [|done].
  destruct (nonNegativeInteger (fs_Avail item)) as [available|] eqn:Ha; [|done].
  destruct (full _ _) eqn:Hf; [|done]. intros [= <-]. unfold made. cbn [m_ID m_Mount m_Source m_Filesystem m_Size m_Used m_Available m_Percent].
  apply nonNegative_range in Hs, Hu, Ha. pose proof (percent_range (fs_Use item)). split_and!; try done; try lia.
  intros Hin%existsb_eqb_elem. congruence.
Qed.
Lemma upsert_elem x m l : x ∈ upsert m l → x = m ∨ x ∈ l.
Proof. induction l as [|y l IH]; cbn [upsert]; [set_solver|]. destruct (_ =? _)%string; set_solver. Qed.
Lemma upsert_mounts p m l : p ∈ m_Mount <$> upsert m l → p = m_Mount m ∨ p ∈ m_Mount <$> l.
Proof. intros (x & -> & [->|Hx]%upsert_elem)%list_elem_of_fmap; [by left|]. right. apply list_elem_of_fmap. eauto. Qed.
Lemma upsert_NoDup m l : NoDup (m_Mount <$> l) → NoDup (m_Mount <$> upsert m l).
Proof.
  induction l as [|y l IH]; intros Hn; cbn [upsert]; [apply NoDup_singleton|]. apply NoDup_cons in Hn as [Hy Hn].
  destruct (String.eqb_spec (m_Mount y) (m_Mount m)) as [E|E]; rewrite fmap_cons; apply NoDup_cons; split; auto.
  - by rewrite <- E.
  - by intros [?|?]%upsert_mounts.
Qed.
Lemma fold_upsert l : ∀ acc, Forall made acc → NoDup (m_Mount <$> acc) → Forall made l →
  Forall made (fold_left (λ l m, upsert m l) l acc) ∧ NoDup (m_Mount <$> fold_left (λ l m, upsert m l) l acc).
Proof.
  induction l as [|m l IH]; intros acc Ha Hn Hl; [done|]. apply Forall_cons in Hl as [Hm Hl]. cbn [fold_left]. apply IH; [|by apply upsert_NoDup|done].
  rewrite Forall_forall in Ha |- *. by intros x [->|Hx]%upsert_elem; [|apply Ha].
Qed.
Lemma distinct_NoDup l : ∀ seen, distinct seen l = true → NoDup l ∧ ∀ x, x ∈ l → x ∉ seen.
Proof.
  induction l as [|x l IH]; intros seen Hd; [split; [constructor|set_solver]|]. cbn [distinct] in Hd.
  apply andb_prop in Hd as [Hx [Hn Hl]%IH]. apply negb_true_iff in Hx. assert (x ∉ seen) by (intros Hin%existsb_eqb_elem; congruence).
  split; [apply NoDup_cons|]; set_solver.
Qed.

Lemma suffix_pattern id s : full identifierPattern id = true → full identifierPattern (id +++ "-" +++ digest12 s) = true.
Proof.
  unfold identifierPattern. rewrite !full_ident. intros (c & t & -> & Hc & Ht). exists c, (t +++ "-" +++ digest12 s). split; [done|]. split; [done|].
  rewrite !sforall_app, Ht. cbn [andb]. unfold digest12. apply sforall_stake. eapply sforall_weaken; [|apply hex_encode_lower].
  intros b. by destruct b as [[] [] [] [] [] [] [] []]; vm_compute.
Qed.
Lemma suffix_hyphen id s t : contains_byte "-" t = false → id +++ "-" +++ digest12 s ≠ t.
Proof. intros Ht <-. rewrite !contains_byte_app in Ht. cbn in Ht. by rewrite orb_true_r in Ht. Qed.

(** The identifier of a mount among the others. *)
Lemma suffixed_id all m : made m → (m_ID (suffixed dm all m) = m_ID m ∧
    (m_ID m = "root" → m_Mount m = "/") ∧ (m_ID m = "data" → m_Mount m = dm)) ∨
  (m_ID (suffixed dm all m) = m_ID m +++ "-" +++ digest12 (m_Mount m) ∧ m_Mount m ≠ "/" ∧ (dm ≠ "" → m_Mount m ≠ dm)) ∨
  (m_ID (suffixed dm all m) = m_ID m +++ "-" +++ digest12 (m_Mount m) ∧ m_ID m ≠ "root" ∧ m_ID m ≠ "data").
Proof.
  intros (Hid & _). unfold suffixed. destruct (String.eqb_spec (m_ID m) "root") as [Hr|Hr].
  - destruct (String.eqb_spec (m_Mount m) "/") as [Hm|Hm]; cbn [negb]; [left; by rewrite Hr|right; left]. split; [done|]. split; [done|].
    intros Hd Hmd. rewrite Hid in Hr. unfold identifierCandidate in Hr. rewrite (proj2 (String.eqb_neq _ _) Hm), Hmd, String.eqb_refl in Hr.
    by rewrite (proj2 (String.eqb_neq dm "") Hd) in Hr.
  - destruct (String.eqb_spec (m_ID m) "data") as [Hd|Hd].
    + destruct (String.eqb_spec (m_Mount m) dm) as [Hm|Hm]; cbn [negb]; [left; by rewrite Hd|right; left]. split; [done|]. split; [|done].
      intros Hs. rewrite Hid, Hs in Hd. done.
    + destruct (1 <? _)%nat; [right; right; done|left]. done.
Qed.
Lemma suffixed_rest all m : m_Mount (suffixed dm all m) = m_Mount m ∧ m_Filesystem (suffixed dm all m) = m_Filesystem m ∧
  m_Size (suffixed dm all m) = m_Size m ∧ m_Used (suffixed dm all m) = m_Used m ∧ m_Available (suffixed dm all m) = m_Available m ∧
  m_Percent (suffixed dm all m) = m_Percent m ∧ m_Source (suffixed dm all m) = m_Source m.
Proof. unfold suffixed. set (b := if (m_ID m =? "root")%string then _ else _). by destruct b. Qed.

(** What a listing holds of each mount. *)
Definition listed_mount (m : Mount) : Prop :=
  full identifierPattern (m_ID m) = true ∧ (m_ID m = "root" ↔ m_Mount m = "/") ∧
  (dm ≠ "" → dm ≠ "/" → (m_ID m = "data" ↔ m_Mount m = dm)) ∧ m_Filesystem m ∉ excludedFilesystems ∧
  0 ≤ m_Size m ≤ int_max ∧ 0 ≤ m_Used m ≤ int_max ∧ 0 ≤ m_Available m ≤ int_max ∧ 0 ≤ m_Percent m ≤ 100.
Lemma suffixed_listed all m : made m → listed_mount (suffixed dm all m).
Proof.
  intros Hm. pose proof (suffixed_id all m Hm) as Hc. destruct Hm as (Hid & Hf & _ & _ & Hx & H1 & H2 & H3 & H4).
  destruct (suffixed_rest all m) as (E1 & E2 & E3 & E4 & E5 & E6 & _). unfold listed_mount. rewrite E1, E2, E3, E4, E5, E6.
  assert (m_Mount m = "/" → m_ID m = "root") as Hroot by (intros E; by rewrite Hid, E).
  assert (dm ≠ "" → dm ≠ "/" → m_Mount m = dm → m_ID m = "data") as Hdata.
  { intros Hd1 Hd2 E. rewrite Hid, E. unfold identifierCandidate.
    by rewrite (proj2 (String.eqb_neq dm "/") Hd2), (proj2 (String.eqb_neq dm "") Hd1), String.eqb_refl. }
  pose proof (suffix_pattern (m_ID m) (m_Mount m) Hf) as Hp.
  assert (m_ID m +++ "-" +++ digest12 (m_Mount m) ≠ "root") as N1 by by apply suffix_hyphen.
  assert (m_ID m +++ "-" +++ digest12 (m_Mount m) ≠ "data") as N2 by by apply suffix_hyphen.
  destruct Hc as [(-> & Hc1 & Hc2)|[(-> & Hc1 & Hc2)|(-> & Hc1 & Hc2)]]; split_and!; try done; try lia; try (split; intros; naive_solver).
Qed.

Lemma find_by_id l m : NoDup (m_ID <$> l) → m ∈ l → find (λ x, String.eqb (m_ID x) (m_ID m)) l = Some m.
Proof.
  induction l as [|x l IH]; intros Hn Hm; [set_solver|]. apply NoDup_cons in Hn as [Hx Hn]. cbn [find].
  apply elem_of_cons in Hm as [->|Hm]; [by rewrite String.eqb_refl|]. destruct (String.eqb_spec (m_ID x) (m_ID m)) as [E|]; [|by apply IH].
  destruct Hx. rewrite E. apply list_elem_of_fmap. eauto.
Qed.
Lemma normalized_spec raw l : normalizeWithDataMount raw dm = Ok l →
  NoDup (m_ID <$> l) ∧ NoDup (m_Mount <$> l) ∧ StronglySorted mount_le l ∧ Forall listed_mount l.
Proof.
  unfold normalizeWithDataMount. destruct (findmnt_payload raw) as [items|]; [|done].
  destruct (fold_upsert (omap (mount_of dm) items) []) as [Hm Hn]; [done|constructor| |].
  { apply Forall_forall. intros m (item & _ & Hi)%list_elem_of_omap. by eapply mount_of_made. }
  set (l0 := fold_left _ _ []) in *. destruct (distinct _ _) eqn:Hd; [|done]. intros [= <-]. apply distinct_NoDup in Hd as [Hd _].
  assert (m_Mount <$> (suffixed dm l0 <$> l0) = m_Mount <$> l0) as Hmounts.
  { rewrite <- list_fmap_compose. apply list_fmap_ext. intros i x _. apply suffixed_rest. }
  split_and!.
  - by rewrite merge_sort_Permutation.
  - rewrite merge_sort_Permutation. by rewrite Hmounts.
  - apply (StronglySorted_merge_sort mount_le).
  - apply Forall_forall. intros x Hx%elem_of_merge_sort. apply list_elem_of_fmap in Hx as (y & -> & Hy). apply suffixed_listed.
    by apply (proj1 (Forall_forall _ _) Hm).
Qed.
End identifiers.

(** ** The walk *)

Section walk.
Context {W : Type} `{!SysTree W} (w : W).

Definition successors (r : string) : list string :=
  if exists_path w (Join r "partition") then [Dir r] else Join (Join r "slaves") <$> ReadDir w (Join r "slaves").
(** A device that is no partition and is made of no other. *)
Definition device_name (r : string) : option string :=
  match successors r with
  | [] => let name := CronTasks.path_base r in if String.eqb name "" || String.eqb name "." then None else Some name
  | _ => None
  end.
Inductive reach : string → string → Prop :=
| reach_here path r : EvalSymlinks w path = Some r → reach path r
| reach_next path r p r' : EvalSymlinks w path = Some r → p ∈ successors r → reach p r' → reach path r'.

Definition walk_list (fuel : nat) (l : list string) (st : walked) : option walked :=
  fold_left (λ acc p, match acc with Some st => collectPhysicalDevices fuel w p st | None => None end) l (Some st).
Lemma collect_unfold fuel path st :
  collectPhysicalDevices (S fuel) w path st =
  match EvalSymlinks w path with
  | None => Some st
  | Some r => if decide (r ∈ st.2) then Some st
              else walk_list fuel (successors r) (match device_name r with Some name => {[name]} ∪ st.1 | None => st.1 end, {[r]} ∪ st.2)
  end.
Proof.
  cbn [collectPhysicalDevices]. destruct (EvalSymlinks w path) as [r|]; [|done]. destruct (decide (r ∈ st.2)); [done|].
  unfold device_name, successors, walk_list. destruct (exists_path w (Join r "partition")); [done|].
  destruct (ReadDir w (Join r "slaves")) as [|x l]; [cbn [fmap list_fmap fold_left fst snd]; by destruct (_ || _)|].
  cbn [fmap list_fmap fst snd]. cbn [fold_left]. generalize (collectPhysicalDevices fuel w (Join (Join r "slaves") x) (st.1, {[r]} ∪ st.2)).
  induction l as [|y l IH]; intros acc; [done|]. cbn [fmap list_fmap fold_left]. apply IH.
Qed.

(** Every visited directory but those still open has its successors visited, and its device found. *)
Definition closed (open : gset string) (st : walked) : Prop :=
  ∀ r, r ∈ st.2 → r ∉ open → (∀ p r', p ∈ successors r → EvalSymlinks w p = Some r' → r' ∈ st.2) ∧
    (∀ name, device_name r = Some name → name ∈ st.1).
Definition grows (st st' : walked) : Prop := st.1 ⊆ st'.1 ∧ st.2 ⊆ st'.2.
Definition sound (P : string → Prop) (st st' : walked) : Prop :=
  ∀ name, name ∈ st'.1 → name ∈ st.1 ∨ ∃ r, P r ∧ device_name r = Some name.
Definition good (open : gset string) (P : string → Prop) (st st' : walked) : Prop :=
  grows st st' ∧ sound P st st' ∧ (closed open st → closed open st').

Section universe.
(** A finite set holds the real paths. *)
Context (U : gset string) (HU : ∀ p r, EvalSymlinks w p = Some r → r ∈ U).

Definition collects (fuel : nat) : Prop :=
  ∀ path st open, st.2 ⊆ U → (size (U ∖ st.2) < fuel)%nat →
  ∃ st', collectPhysicalDevices fuel w path st = Some st' ∧ st'.2 ⊆ U ∧ good open (reach path) st st' ∧
    ∀ r, EvalSymlinks w path = Some r → r ∈ st'.2.
Lemma walk_list_spec fuel l : collects fuel → ∀ st open, st.2 ⊆ U → (size (U ∖ st.2) < fuel)%nat →
  ∃ st', walk_list fuel l st = Some st' ∧ st'.2 ⊆ U ∧ good open (λ r, ∃ p, p ∈ l ∧ reach p r) st st' ∧
    ∀ p r, p ∈ l → EvalSymlinks w p = Some r → r ∈ st'.2.
Proof.
  intros Hc. induction l as [|p l IH]; intros st open Hu Hs.
  - exists st. split; [done|]. split; [done|]. split; [|set_solver]. split; [done|]. split; [|done]. by left.
  - destruct (Hc p st open Hu Hs) as (st1 & E1 & Hu1 & (Hg1 & Hs1 & Hc1) & Hv1).
    destruct (IH st1 open Hu1) as (st2 & E2 & Hu2 & (Hg2 & Hs2 & Hc2) & Hv2).
    { eapply Nat.le_lt_trans; [|exact Hs]. apply subseteq_size. destruct Hg1. set_solver. }
    exists st2. unfold walk_list in *. cbn [fold_left]. rewrite E1. destruct Hg1, Hg2. split_and!; [done|done| |].
    + split; [by split; etrans|]. split; [|auto]. intros name [Hn|(r & (q & Hq & Hr) & Hd)]%Hs2.
      * apply Hs1 in Hn as [?|(r & Hr & Hd)]; [by left|right]. exists r. split; [|done]. exists p. split; [by left|done].
      * right. exists r. split; [|done]. exists q. split; [by right|done].
    + intros q r [->|Hq]%elem_of_cons Hr; [|by eapply Hv2]. set_solver.
Qed.
Lemma collect_spec fuel : collects fuel.
Proof.
  induction fuel as [|fuel IH]; intros path st open Hu Hs; [lia|]. rewrite collect_unfold.
  destruct (EvalSymlinks w path) as [r|] eqn:E.
  2:{ exists st. split; [done|]. split; [done|]. split; [|done]. split; [done|]. split; [|done]. by left. }
  pose proof (HU _ _ E) as Hr. destruct (decide (r ∈ st.2)) as [Hin|Hnin].
  { exists st. split; [done|]. split; [done|]. split; [|by intros ? [= <-]]. split; [done|]. split; [|done]. by left. }
  set (st1 := (_, {[r]} ∪ st.2)). destruct (walk_list_spec fuel (successors r) IH st1 ({[r]} ∪ open)) as (st' & E' & Hu' & (Hg & Hsd & Hcl) & Hv).
  { subst st1. cbn [snd]. set_solver. }
  { assert (size (U ∖ st1.2) < size (U ∖ st.2))%nat; [|lia]. apply subset_size. subst st1. cbn [snd]. split; [set_solver|].
    intros Hsub. specialize (Hsub r). set_solver. }
  exists st'. destruct Hg as [Hg1 Hg2]. subst st1. cbn [fst snd] in *. split_and!; [done|done| |intros ? [= <-]; set_solver].
  split; [split; [destruct (device_name r); set_solver|set_solver]|]. split.
  - intros name Hn. apply Hsd in Hn as [Hn|(r' & (p & Hp & Hpr) & Hd)].
    + destruct (device_name r) as [d|] eqn:Hd; cbn [fst] in Hn; [|by left]. apply elem_of_union in Hn as [->%elem_of_singleton|?]; [right|by left].
      exists r. split; [by constructor|done].
    + right. exists r'. split; [by eapply reach_next|done].
  - intros Hop. assert (closed ({[r]} ∪ open) st') as Hop'.
    { apply Hcl. intros q Hq Hqo. cbn [fst snd] in *. destruct (Hop q) as [H1 H2]; [set_solver|set_solver|]. split.
      - intros p q' Hp Hq'. specialize (H1 p q' Hp Hq'). set_solver.
      - intros name Hd. specialize (H2 name Hd). destruct (device_name r); set_solver. }
    intros q Hq Hqo. destruct (decide (q = r)) as [->|Hne]; [|apply Hop'; set_solver]. split; [by intros p r' Hp Hr'; eapply Hv|].
    intros name Hd. apply Hg1. rewrite Hd. set_solver.
Qed.

(** The walk from a path: it ends, and finds the devices that are reached and no other. *)
Lemma collect_devices fuel path : (size U < fuel)%nat →
  ∃ st, collectPhysicalDevices fuel w path (∅, ∅) = Some st ∧
    ∀ name, name ∈ st.1 ↔ ∃ r, reach path r ∧ device_name r = Some name.
Proof.
  intros Hf. destruct (collect_spec fuel path (∅, ∅) ∅) as (st & E & Hu & (Hg & Hs & Hc) & Hv); [set_solver| |].
  { cbn [snd]. by rewrite difference_empty_L. }
  exists st. split; [done|]. assert (closed ∅ st) as Hcl by (apply Hc; intros r; cbn [snd]; set_solver).
  assert (∀ p r, reach p r → (∀ x, EvalSymlinks w p = Some x → x ∈ st.2) → r ∈ st.2) as Hreach.
  { induction 1 as [p r E1|p r q r' E1 Hq Hr IH]; intros Hin; [by apply Hin|]. apply IH. intros x Hx.
    eapply (proj1 (Hcl r (Hin _ E1) (not_elem_of_empty _))); done. }
  intros name. split.
  - intros Hn. apply Hs in Hn as [Hn|Hn]; [set_solver|done].
  - intros (r & Hr & Hd). apply (proj2 (Hcl r (Hreach _ _ Hr Hv) (not_elem_of_empty _)) name Hd).
Qed.
End universe.
End walk.

(** The physical devices of a mount.  When a finite set holds the real paths below /sys,
    more fuel than it has elements is enough, whatever the cycles of the tree: the text
    lists, sorted and once each, the devices that are reached from that of the mount
    through the disks of partitions and the members of composed devices, and no other. *)
Theorem physical_devices_spec {W} `{!SysTree W} (w : W) (U : gset string) fuel majorMinor :
  (∀ p r, EvalSymlinks w p = Some r → r ∈ U) → (size U < fuel)%nat →
  match full majorMinorPattern majorMinor, EvalSymlinks w (Join "/sys/dev/block" majorMinor) with
  | true, Some path => ∃ l, resolvePhysicalDevices fuel w majorMinor "/sys" = Some (join ", " l) ∧
      NoDup l ∧ StronglySorted str_le l ∧
      ∀ d, d ∈ l ↔ ∃ r name, reach w path r ∧ device_name w r = Some name ∧ d = "/dev/" +++ name
  | _, _ => resolvePhysicalDevices fuel w majorMinor "/sys" = Some ""
  end.
Proof.
  intros HU Hf. unfold resolvePhysicalDevices. change (Join (Join "/sys" "dev") "block") with "/sys/dev/block".
  destruct (full majorMinorPattern majorMinor); cbn [negb]; [|done]. destruct (EvalSymlinks w _) as [path|]; [|done].
  destruct (collect_devices w U HU fuel path Hf) as (st & -> & Hst). eexists. split; [reflexivity|]. split_and!.
  - rewrite sort_strings_perm. apply NoDup_fmap_2; [|apply NoDup_elements]. intros x y E. by apply (sapp_inj_l "/dev/").
  - apply sort_strings_sorted.
  - intros d. rewrite elem_of_sort_strings, list_elem_of_fmap. setoid_rewrite elem_of_elements. setoid_rewrite Hst. naive_solver.
Qed.

Section listing.
Context {W : Type} `{!Programs W} `{!SysTree W} `{!StorageTexts} `{UnicodeCase}.
(** What a listing of the mounts holds: distinct identifiers, in order, one for each mount
    point, of the shape the command status accepts; root is that of / and no other, data
    that of the data mount and no other; sizes are those of an int64 and not negative; and
    status, asked for an identifier of the listing while findmnt prints the same, answers
    that mount. *)
Theorem storage_listing fuel profile (m : Machine W) :
  match (Mounts fuel profile m).1 with
  | Ok (Ok l) =>
      NoDup (m_ID <$> l) ∧ NoDup (m_Mount <$> l) ∧ StronglySorted mount_le l ∧
      Forall (listed_mount (dataMount (NewLinuxCollector profile))) l ∧
      (Handle fuel profile "list" [] m).1 = success [("mounts", VList (mount_value <$> l))] ∧
      ∀ x m2, x ∈ l → (Mounts fuel profile m2).1 = Ok (Ok l) → (Handle fuel profile "status" [m_ID x] m2).1 = success (mount_data x)
  | Ok (Err reason) => (Handle fuel profile "list" [] m).1 = storageReadFailure reason
  | Err _ => False
  end.
Proof.
  destruct (Mounts fuel profile m) as [[[l|reason]|r] m1] eqn:E; cbn [fst].
  - assert (NoDup (m_ID <$> l) ∧ NoDup (m_Mount <$> l) ∧ StronglySorted mount_le l ∧ Forall (listed_mount (dataMount (NewLinuxCollector profile))) l) as (H1 & H2 & H3 & H4).
    { unfold Mounts in E. destruct (executable_path _); cbn [negb] in E; [|done]. apply bind_Ok in E as (o & m2 & _ & E). unfold look in E.
      injection E as E _. destruct (normalizeFindmntResult o _) as [l0|] eqn:Hn; [|done]. cbn [res_map] in E. injection E as <-.
      assert (normalizeWithDataMount (stdout o) (dataMount (NewLinuxCollector profile)) = Ok l0) as Hw.
      { unfold normalizeFindmntResult in Hn. destruct (_ =? _)%string; [done|]. destruct (normalizeWithDataMount _ _) as [[|x l1]|]; [|done|done].
        destruct (succeeded o); [done|]. done. }
      apply normalized_spec in Hw as (H1 & H2 & H3 & H4). rewrite <- !list_fmap_compose. split_and!; [exact H1|exact H2| |].
      - clear -H3. induction H3 as [|x l H3 IH Hx]; [constructor|]. rewrite fmap_cons. constructor; [done|]. by apply Forall_fmap.
      - by apply Forall_fmap. }
    split_and!; try done.
    + change (Handle fuel profile "list" [] m) with (serve (do! mounts := mounts_read fuel profile in ret [("mounts", VList (mount_value <$> mounts))]) m).
      unfold serve, mounts_read. rewrite bind_assoc, (bind_Ok_eq _ _ _ _ _ E). done.
    + intros x m2 Hx E2. pose proof (proj1 (proj1 (Forall_forall _ _) H4 x Hx)) as Hp.
      destruct (Mounts fuel profile m2) as [out m3] eqn:Em. cbn [fst] in E2. subst out.
      unfold Handle, serve, execute. cbn [String.eqb Ascii.eqb Bool.eqb]. rewrite Hp. cbn [negb]. unfold mounts_read.
      rewrite bind_assoc, (bind_Ok_eq _ _ _ _ _ Em), bind_ret, find_by_id by done. done.
  - change (Handle fuel profile "list" [] m) with (serve (do! mounts := mounts_read fuel profile in ret [("mounts", VList (mount_value <$> mounts))]) m).
    unfold serve, mounts_read. rewrite bind_assoc, (bind_Ok_eq _ _ _ _ _ E). done.
  - unfold Mounts in E. destruct (executable_path _); cbn [negb] in E; [|done]. apply bind_inv in E as [(r' & Hr & _)|(o & m2 & _ & E)]; [|done].
    by apply run_inv in Hr as (? & ? & _).
Qed.
End listing.

(** A mount whose name starts with a point is never listed. *)
Definition btrfs_at (target : string) : findmntFilesystem :=
  mkFilesystem "/dev/sda2" target "btrfs" "0:33" (Some (JNum "4096")) (Some (JNum "1024")) (Some (JNum "3072")) "25%".
Example hidden_mount_missed `{UnicodeCase} :
  mount_of "/var/www/data" (btrfs_at "/.snapshots") = None ∧ is_Some (mount_of "/var/www/data" (btrfs_at "/snapshots")).
Proof. split; [done|]. by eexists. Qed.

(** ** A host *)

(** A logical volume on a partition of a disk, whose link of slaves loops back. *)
Definition sys_links : list (string * string) :=
  [("/sys/dev/block/253:0", "/sys/devices/dm-0"); ("/sys/devices/dm-0", "/sys/devices/dm-0");
   ("/sys/devices/dm-0/slaves/sda2", "/sys/devices/sda/sda2"); ("/sys/devices/dm-0/slaves/dm-0", "/sys/devices/dm-0");
   ("/sys/devices/sda", "/sys/devices/sda")].
#[local] Instance volume_tree : SysTree unit := {|
  EvalSymlinks _ p := snd <$> find (λ kv : string * string, String.eqb kv.1 p) sys_links;
  exists_path _ p := String.eqb p "/sys/devices/sda/sda2/partition";
  ReadDir _ p := if String.eqb p "/sys/devices/dm-0/slaves" then ["dm-0"; "sda2"] else [] |}.
Lemma physical_devices_spec_witness :
  resolvePhysicalDevices 6 () "253:0" "/sys" = Some "/dev/sda" ∧
  ∃ l, resolvePhysicalDevices 6 () "253:0" "/sys" = Some (join ", " l) ∧ NoDup l ∧ StronglySorted str_le l ∧
    ∀ d, d ∈ l ↔ ∃ r name, reach () "/sys/devices/dm-0" r ∧ device_name () r = Some name ∧ d = "/dev/" +++ name.
Proof.
  split; [vm_compute; reflexivity|].
  assert (∀ p r, EvalSymlinks () p = Some r → r ∈ (list_to_set (snd <$> sys_links) : gset string)) as HU.
  { intros p r. cbn [EvalSymlinks volume_tree]. destruct (find _ _) as [[k x]|] eqn:E; [|done]. intros [= <-].
    apply find_some in E as [E _]. apply elem_of_list_to_set, list_elem_of_fmap. exists (k, x). split; [done|]. by apply list_elem_of_In. }
  assert (size (list_to_set (snd <$> sys_links) : gset string) < 6)%nat as Hf by (vm_compute; lia).
  exact (physical_devices_spec () (list_to_set (snd <$> sys_links)) 6 "253:0" HU Hf).
Defined.
