(* ===== verification/Mysql.v ===== *)
(** * The mysql domain: [domain/mysql]

    The readings of the database server through its client, four queries in all, the
    state of its service and its restart.  The client, [systemctl] and [systemd-run] are
    run with a delay; what they print is trimmed and valid UTF-8. *)

From S2P Require Import Prelude GoStrings StringFacts Command Units.
From S2P Require Api.
From Stdlib Require Import Ascii String.
#[local] Open Scope string_scope.
#[local] Open Scope list_scope.
#[local] Open Scope Z_scope.

Import Api(Reply, failure, success, VStr, VInt, VBool, VList, VMap, VNil, Value, vset).

Definition statusVariables : list string :=
  ["Aborted_connects"; "Bytes_received"; "Bytes_sent"; "Connections"; "Created_tmp_disk_tables"; "Created_tmp_tables";
   "Innodb_buffer_pool_bytes_data"; "Innodb_buffer_pool_bytes_dirty"; "Innodb_buffer_pool_pages_free"; "Innodb_buffer_pool_pages_total";
   "Innodb_rows_deleted"; "Innodb_rows_inserted"; "Innodb_rows_read"; "Innodb_rows_updated"; "Open_tables"; "Opened_tables"; "Queries";
   "Questions"; "Slow_queries"; "Table_locks_waited"; "Threads_cached"; "Threads_connected"; "Threads_created"; "Threads_running"; "Uptime"].
Definition configurationVariables : list string :=
  ["bind_address"; "character_set_server"; "collation_server"; "innodb_buffer_pool_size"; "innodb_flush_log_at_trx_commit";
   "innodb_log_file_size"; "long_query_time"; "max_allowed_packet"; "max_connections"; "max_heap_table_size"; "performance_schema";
   "slow_query_log"; "sql_mode"; "table_open_cache"; "thread_cache_size"; "tmp_table_size"].
Definition systemDatabases : list string := ["information_schema"; "mysql"; "performance_schema"; "sys"].
Definition clients : list string := ["/usr/bin/mysql"; "/usr/bin/mariadb"; "/usr/local/bin/mysql"; "/usr/local/bin/mariadb"].
Definition credentialsFile : string := "/etc/aegisadmin-system/mysql-client.cnf".

Definition infoSQL : string :=
  "SELECT @@version, @@version_comment, @@hostname, @@port, @@socket, @@datadir, @@default_storage_engine".
Definition databasesSQL : string := "CALL aegisadmin_monitoring.database_inventory_v2()".
Definition inSQL (prefix : string) (names : list string) : string :=
  prefix +++ " (" +++ join ", " ((λ n, "'" +++ n +++ "'") <$> names) +++ ")".
Definition statusSQL : string := inSQL "SHOW GLOBAL STATUS WHERE Variable_name IN" statusVariables.
Definition variablesSQL : string := inSQL "SHOW GLOBAL VARIABLES WHERE Variable_name IN" configurationVariables.
Definition queries : list string := [infoSQL; databasesSQL; statusSQL; variablesSQL].

Definition data := list (string * Value).
Definition tab : ascii := "009"%char.
Definition rows_of (output : string) : list (list string) :=
  split tab <$> List.filter (λ line, negb (String.eqb line "")) (split nl output).

(** [os.Lstat]: the file of credentials is a regular file its group and the others have no right on. *)
Class Credentials (W : Type) := { private_credentials : W → bool }.

Record unit_state := mkUnit { u_unit : string; u_active : bool; u_enabled : bool; u_state : string }.

Section domain.
Context {W : Type} `{!Programs W} `{!Credentials W} `{UnicodeCase}.

Definition fail {A} (exit : Z) (code message : string) (details : data) : cmd W A := stop (failure_with exit code message details).
Definition Run : string → list string → cmd W outcome := run_or_fail "MYSQL" "MySQL".

Definition client : res Reply string :=
  match find executable clients with
  | Some path => Ok path
  | None => Err (failure_with 4 "MYSQL_CLIENT_NOT_FOUND" "Aucun client MySQL ou MariaDB autorisé n’est installé." [])
  end.
Definition validCredentialsFile : cmd W bool := look private_credentials.
Definition query_arguments (sql : string) (credentials : bool) : list string :=
  (if credentials then ["--defaults-extra-file=" +++ credentialsFile] else []) ++
  ["--batch"; "--raw"; "--skip-column-names"; "--protocol=socket"; "--connect-timeout=5"; "--execute"; sql].
Definition query (sql : string) : cmd W (list (list string)) :=
  do! path := lift client in
  do! credentials := validCredentialsFile in
  do! o := Run path (query_arguments sql credentials) in
  if negb (succeeded o) then
    fail 10 "MYSQL_QUERY_FAILED" "Le serveur MySQL n’a pas pu être interrogé." [("client", VStr path); ("output", VStr (stderr o))]
  else ret (rows_of (stdout o)).

Definition number (value name : string) : res Reply Z :=
  let details := [("variable", VStr name); ("value", VStr value)] in
  match atoi value with
  | Some n => if n <? 0 then Err (failure_with 10 "INVALID_MYSQL_NUMERIC_VALUE" "Une valeur numérique retournée par MySQL est négative." details) else Ok n
  | None => Err (failure_with 10 "INVALID_MYSQL_NUMERIC_VALUE" "Une valeur numérique retournée par MySQL est invalide." details)
  end.

(** ** The service *)

Definition systemctlValue (unit_ property : string) : cmd W string :=
  do! o := Run systemctl ["show"; "--property=" +++ property; "--value"; "--"; unit_] in
  ret (if negb (succeeded o) then "" else stdout o).
Definition units : list string := ["mysql.service"; "mariadb.service"; "mysqld.service"].
Definition unit_item (unit_ : string) : cmd W (option unit_state) :=
  do! load := systemctlValue unit_ "LoadState" in
  if negb (present load) then ret None
  else
    do! active := systemctlValue unit_ "ActiveState" in
    do! enabled := systemctlValue unit_ "UnitFileState" in
    do! sub := systemctlValue unit_ "SubState" in
    let state := if String.eqb sub "" then active else sub in
    ret (Some (mkUnit unit_ (String.eqb active "active") (existsb (String.eqb enabled) ["enabled"; "enabled-runtime"; "static"])
                 (if String.eqb state "" then "unknown" else state))).
Fixpoint unit_items (l : list string) : cmd W (list unit_state) :=
  match l with
  | [] => ret []
  | u :: l => do! x := unit_item u in do! r := unit_items l in ret (match x with Some x => x :: r | None => r end)
  end.
(** The first active one, or the first: a stable sort puts the active ones before. *)
Definition chosen (items : list unit_state) : option unit_state :=
  head (List.filter u_active items ++ List.filter (λ x, negb (u_active x)) items).
Definition service : cmd W (option unit_state) := do! items := unit_items units in ret (chosen items).
Definition service_name (u : unit_state) : string := trim_suffix (u_unit u) ".service".
Definition service_data (s : option unit_state) : data :=
  match s with
  | Some u => [("unit", VStr (u_unit u)); ("service", VStr (service_name u)); ("exists", VBool true); ("active", VBool (u_active u));
               ("enabled", VBool (u_enabled u)); ("state", VStr (u_state u))]
  | None => [("unit", VNil); ("service", VNil); ("exists", VBool false); ("active", VBool false); ("enabled", VBool false);
             ("state", VStr "not-found")]
  end.

(** ** The commands *)

Definition invalid_info : string := "Les informations générales retournées par MySQL sont invalides.".
Definition product_of (version comment : string) : string :=
  let combined := to_lower (version +++ " " +++ comment) in
  if contains combined "mariadb" then "MariaDB" else if contains combined "mysql" then "MySQL" else "Compatible MySQL".
Definition blank (s : string) : bool := String.eqb (trim_space s) "".
Definition info : cmd W data :=
  do! rows := query infoSQL in
  match rows with
  | [[version; comment; hostname; port; socket; datadir; engine]] =>
      if blank version || blank hostname || negb (has_prefix socket "/") || negb (has_prefix datadir "/") || blank engine
      then fail 10 "INVALID_MYSQL_INFO_RESPONSE" invalid_info []
      else
        do! port := lift (number port "port") in
        do! s := service in
        ret [("product", VStr (product_of version comment)); ("version", VStr version); ("version_comment", VStr comment);
             ("hostname", VStr hostname); ("port", VInt port); ("socket", VStr socket); ("data_directory", VStr datadir);
             ("default_storage_engine", VStr engine);
             ("client", VStr (match client with Ok path => path | Err _ => "" end)); ("service", VMap (service_data s))]
  | _ =>
      fail 10 "INVALID_MYSQL_INFO_RESPONSE" invalid_info
        [("row_count", VInt (Z.of_nat (List.length rows)));
         ("column_count", VInt (match rows with row :: _ => Z.of_nat (List.length row) | [] => 0 end))]
  end.

Definition invalid_metric : Reply := failure_with 10 "INVALID_MYSQL_STATUS_RESPONSE" "Une métrique MySQL retournée est invalide." [].
Fixpoint metric_rows (raw : gmap string string) (rows : list (list string)) : res Reply (gmap string string) :=
  match rows with
  | [] => Ok raw
  | [name; value] :: rows => metric_rows (<[name := value]> raw) rows
  | _ :: _ => Err invalid_metric
  end.
Fixpoint metrics_of (raw : gmap string string) (names : list string) : res Reply (data * list string) :=
  match names with
  | [] => Ok ([], [])
  | name :: names =>
      match raw !! name with
      | None => match metrics_of raw names with Ok (metrics, missing) => Ok (metrics, name :: missing) | Err r => Err r end
      | Some value =>
          match number value name with
          | Err r => Err r
          | Ok n => match metrics_of raw names with Ok (metrics, missing) => Ok ((to_lower name, VInt n) :: metrics, missing) | Err r => Err r end
          end
      end
  end.
Definition status : cmd W data :=
  do! rows := query statusSQL in
  do! raw := lift (metric_rows ∅ rows) in
  do! r := lift (metrics_of raw statusVariables) in
  ret [("metrics", VMap r.1); ("missing_variables", VList (VStr <$> r.2))].

Definition invalid_database : Reply :=
  failure_with 10 "INVALID_MYSQL_DATABASES_RESPONSE" "Une base de données retournée par MySQL est invalide." [].
Definition database_kind (name : string) : string := if existsb (String.eqb name) systemDatabases then "system" else "user".
Definition database_item (row : list string) : res Reply Value :=
  match row with
  | [name; size; count] =>
      if blank name then Err invalid_database
      else match number size (name +++ ".size_bytes") with
      | Err r => Err r
      | Ok size =>
          match number count (name +++ ".table_count") with
          | Err r => Err r
          | Ok count => Ok (VMap [("name", VStr name); ("kind", VStr (database_kind name)); ("size_bytes", VInt size); ("table_count", VInt count)])
          end
      end
  | _ => Err invalid_database
  end.
Fixpoint database_items (rows : list (list string)) : res Reply (list Value) :=
  match rows with
  | [] => Ok []
  | row :: rows => match database_item row with
                   | Err r => Err r
                   | Ok x => match database_items rows with Ok l => Ok (x :: l) | Err r => Err r end
                   end
  end.
Definition databases : cmd W data :=
  do! rows := query databasesSQL in do! items := lift (database_items rows) in ret [("databases", VList items)].

Definition invalid_variable : Reply :=
  failure_with 10 "INVALID_MYSQL_VARIABLES_RESPONSE" "Une variable de configuration MySQL est invalide." [].
Fixpoint variable_rows (values : data) (rows : list (list string)) : res Reply data :=
  match rows with
  | [] => Ok values
  | [name; value] :: rows => variable_rows (vset values (to_lower name) (VStr value)) rows
  | _ :: _ => Err invalid_variable
  end.
Definition variables : cmd W data :=
  do! rows := query variablesSQL in do! values := lift (variable_rows [] rows) in ret [("variables", VMap values)].

Definition restart : cmd W data :=
  do! s := service in
  match s with
  | None => fail 4 "MYSQL_SERVICE_NOT_FOUND" "Aucun service MySQL ou MariaDB autorisé n’a été détecté." []
  | Some u =>
      do! o := Run systemd_run (restart_later (u_unit u)) in
      if negb (succeeded o) then
        fail 10 "MYSQL_RESTART_SCHEDULE_FAILED" "La programmation du redémarrage du serveur de bases de données a échoué."
          [("output", VStr (if String.eqb (stderr o) "" then stdout o else stderr o))]
      else ret [("action", VStr "restart"); ("service", VStr (service_name u)); ("result", VStr "scheduled"); ("delay_seconds", VInt 5)]
  end.

Definition execute (command : string) : cmd W data :=
  if String.eqb command "service" then do! s := service in ret (service_data s)
  else if String.eqb command "info" then info
  else if String.eqb command "status" then status
  else if String.eqb command "databases" then databases
  else if String.eqb command "variables" then variables
  else restart.
Definition known : list string := ["service"; "info"; "status"; "databases"; "variables"; "restart"].
Definition handle (command : string) (arguments : list string) : cmd W data :=
  if String.eqb command "" then fail 2 "MISSING_COMMAND" "Aucune commande n’a été indiquée pour le domaine mysql." []
  else if negb (existsb (String.eqb command) known) then fail 4 "COMMAND_NOT_FOUND" "La commande demandée n’existe pas dans le domaine mysql." []
  else match arguments with
  | [] => execute command
  | _ => fail 2 "INVALID_ARGUMENT_COUNT" "Le nombre d’arguments fourni est invalide." []
  end.
Definition Handle (command : string) (arguments : list string) : Machine W → Reply * Machine W := serve (handle command arguments).
End domain.

(** ** Properties *)

Section facts.
Context {W : Type} `{!Programs W} `{!Credentials W} `{UnicodeCase}.

Lemma mysql_refuses_Run name arguments : refuses (Run (W := W) name arguments).
Proof. apply refuses_run_or_fail. Qed.
Lemma number_refusal value name r : number value name = Err r → refusal r.
Proof. unfold number. repeat case_match; try done; intros [= <-]; by apply refusal_failure_with. Qed.
Lemma metric_rows_refusal rows : ∀ raw r, metric_rows raw rows = Err r → refusal r.
Proof.
  induction rows as [|row rows IH]; intros raw r; [done|]. destruct row as [|x [|y [|z t]]]; try apply IH;
    intros [= <-]; by apply refusal_failure_with.
Qed.
Lemma metrics_of_refusal raw names : ∀ r, metrics_of raw names = Err r → refusal r.
Proof.
  induction names as [|name names IH]; intros r; [done|]. cbn [metrics_of]. destruct (raw !! name) as [value|].
  - destruct (number value name) eqn:Hn; [|intros [= <-]; by eapply number_refusal]. destruct (metrics_of raw names) as [[]|]; [done|].
    intros [= <-]. by apply IH.
  - destruct (metrics_of raw names) as [[]|]; [done|]. intros [= <-]. by apply IH.
Qed.
Lemma database_items_refusal rows : ∀ r, database_items rows = Err r → refusal r.
Proof.
  induction rows as [|row rows IH]; intros r; [done|]. cbn [database_items].
  destruct (database_item row) as [x|e] eqn:He.
  - destruct (database_items rows); [done|]. intros [= <-]. by apply IH.
  - intros [= <-]. unfold database_item in He. destruct row as [|name [|size [|count [|]]]]; try (injection He as <-; by apply refusal_failure_with).
    destruct (blank name); [injection He as <-; by apply refusal_failure_with|].
    destruct (number size _) eqn:H1; [|injection He as <-; by eapply number_refusal].
    destruct (number count _) eqn:H2; [done|injection He as <-; by eapply number_refusal].
Qed.
Lemma variable_rows_refusal rows : ∀ values r, variable_rows values rows = Err r → refusal r.
Proof.
  induction rows as [|row rows IH]; intros values r; [done|]. destruct row as [|x [|y [|z t]]]; try apply IH;
    intros [= <-]; by apply refusal_failure_with.
Qed.
Lemma client_refusal r : client = Err r → refusal r.
Proof. unfold client. destruct (find _ _); [done|]. intros [= <-]. by apply refusal_failure_with. Qed.
Lemma refuses_unit_items l : refuses (unit_items (W := W) l).
Proof.
  induction l as [|u l IH]; cbn [unit_items]; [walk|]. apply refuses_bind; [|intros x; apply refuses_bind; [done|walk]].
  unfold unit_item, systemctlValue. pose proof mysql_refuses_Run. walk.
Qed.
Lemma mysql_reply_ok command arguments (m : Machine W) : Api.reply_ok (Handle command arguments m).1.
Proof.
  apply serve_ok. pose proof mysql_refuses_Run. pose proof refuses_unit_items. unfold handle, execute, info, status, databases, variables, restart, query, service, fail.
  walk; eauto using client_refusal, number_refusal, metric_rows_refusal, metrics_of_refusal, database_items_refusal, variable_rows_refusal.
Qed.

(** The calls of the domain. *)
Definition reading (name : string) (arguments : list string) : Prop :=
  (name ∈ clients ∧ ∃ sql credentials, sql ∈ queries ∧ arguments = query_arguments sql credentials) ∨
  (name = systemctl ∧ ∃ unit_ property, unit_ ∈ units ∧ arguments = ["show"; "--property=" +++ property; "--value"; "--"; unit_]).
Definition restarting (name : string) (arguments : list string) : Prop :=
  name = systemd_run ∧ ∃ unit_, unit_ ∈ units ∧ arguments = restart_later unit_.

Lemma only_query (P : string → list string → Prop) sql :
  (∀ n a, reading n a → P n a) → sql ∈ queries → only P (query (W := W) sql).
Proof.
  intros HP Hs. unfold query. apply (only_yields P (λ path, path ∈ clients)); [walk| |].
  - apply yields_lift. intros path. unfold client. destruct (find executable clients) as [x|] eqn:Hf; [|done]. intros [= <-].
    apply find_some in Hf as [Hf _]. by apply list_elem_of_In.
  - intros path Hp. apply only_bind; [walk|]. intros c. apply only_bind; [|intros o; walk]. apply only_run_or_fail, HP. left. eauto 6.
Qed.
Lemma only_systemctlValue (P : string → list string → Prop) unit_ property :
  (∀ n a, reading n a → P n a) → unit_ ∈ units → only P (systemctlValue (W := W) unit_ property).
Proof. intros HP Hu. unfold systemctlValue. apply only_bind; [|intros o; walk]. apply only_run_or_fail, HP. right. eauto. Qed.
Lemma only_unit_items (P : string → list string → Prop) l :
  (∀ n a, reading n a → P n a) → (∀ u, u ∈ l → u ∈ units) → only P (unit_items (W := W) l).
Proof.
  intros HP. induction l as [|u l IH]; intros Hl; cbn [unit_items]; [walk|].
  apply only_bind; [|intros x; apply only_bind; [apply IH; set_solver|walk]]. assert (u ∈ units) as Hu by (apply Hl; by left).
  unfold unit_item. apply only_bind; [by apply only_systemctlValue|]. intros load. destruct (negb _); [walk|].
  do 3 (apply only_bind; [by apply only_systemctlValue|]; intros ?). walk.
Qed.
Lemma unit_items_yields l : yields (W := W) (Forall (λ x, u_unit x ∈ l)) (unit_items l).
Proof.
  induction l as [|u l IH]; cbn [unit_items]; [by apply yields_ret|].
  apply (yields_bind (λ o, match o with Some x => u_unit x = u | None => True end)).
  - unfold unit_item. apply yields_then. intros load. destruct (negb _); [by apply yields_ret|].
    do 3 (apply yields_then; intros ?). by apply yields_ret.
  - intros o Ho. eapply yields_bind; [exact IH|]. intros r Hr. apply yields_ret.
    assert (Forall (λ x, u_unit x ∈ u :: l) r) as Hr' by (eapply Forall_impl; [exact Hr|]; intros x; cbn beta; set_solver).
    destruct o as [x|]; [|done]. constructor; [rewrite Ho; by left|done].
Qed.
Lemma service_yields : yields (W := W) (λ s, match s with Some u => u_unit u ∈ units | None => True end) service.
Proof.
  unfold service. eapply yields_bind; [apply unit_items_yields|]. intros items Hi. apply yields_ret.
  destruct (chosen items) as [u|] eqn:Hc; [|done]. unfold chosen in Hc. apply head_Some_elem_of, elem_of_app in Hc.
  rewrite Forall_forall in Hi. apply Hi. by destruct Hc as [Hc|Hc]; apply list_elem_of_In, filter_In in Hc as [Hc%list_elem_of_In _].
Qed.
Lemma only_service (P : string → list string → Prop) : (∀ n a, reading n a → P n a) → only P (service (W := W)).
Proof. intros HP. unfold service. apply only_bind; [by apply only_unit_items|walk]. Qed.

Lemma known_restart command :
  existsb (String.eqb command) known = true → command ≠ "service" → command ≠ "info" → command ≠ "status" → command ≠ "databases" →
  command ≠ "variables" → command = "restart".
Proof.
  intros (x & Hx & ->%String.eqb_eq)%existsb_exists ?????. apply list_elem_of_In in Hx. unfold known in Hx. set_solver.
Qed.
(** A command that is refused, and one that only reads, or that is [restart] alone. *)
Lemma mysql_calls (P : string → list string → Prop) command arguments :
  (∀ n a, reading n a → P n a) → (command = "restart" → arguments = [] → ∀ n a, restarting n a → P n a) →
  only P (handle (W := W) command arguments).
Proof.
  intros HP Hr. assert (∀ sql, sql ∈ queries → only P (query (W := W) sql)) as Hq by (intros; by apply only_query).
  pose proof (only_service P HP) as Hs. unfold handle, fail. destruct (command =? "")%string; [walk|].
  destruct (existsb (String.eqb command) known) eqn:Hk; cbn [negb]; [|walk]. destruct arguments as [|x l]; [|walk].
  unfold execute. destruct (String.eqb_spec command "service"); [walk|]. destruct (String.eqb_spec command "info").
  { unfold info, fail. apply only_bind; [apply Hq; set_solver|]. intros rows. walk. }
  destruct (String.eqb_spec command "status"); [unfold status; apply only_bind; [apply Hq; set_solver|walk]|].
  destruct (String.eqb_spec command "databases"); [unfold databases; apply only_bind; [apply Hq; set_solver|walk]|].
  destruct (String.eqb_spec command "variables"); [unfold variables; apply only_bind; [apply Hq; set_solver|walk]|].
  assert (command = "restart") as Hc by by apply known_restart. unfold restart, fail.
  apply (only_yields P _ _ _ Hs service_yields). intros [u|] Hu; [|walk].
  apply only_bind; [apply only_run_or_fail, Hr; unfold restarting; eauto|]. intros o. walk.
Qed.

(** What the mysql domain runs, whatever the request, the answers of the programs and the
    state of the machine: the client installed at one of its four places, with one of the
    four queries and the file of credentials or none; [systemctl show] of one of the three
    units; and, only for the command [restart] without arguments, the restart of one of these
    three units five seconds later. *)
Theorem mysql_effects (m : Machine W) command arguments :
  ∃ calls, ran (Handle command arguments m).2 = ran m ++ calls ∧
    Forall (λ call, reading call.1.1 call.1.2 ∨ (command = "restart" ∧ arguments = [] ∧ restarting call.1.1 call.1.2)) calls.
Proof.
  apply (only_serve (λ n a, reading n a ∨ (command = "restart" ∧ arguments = [] ∧ restarting n a))).
  apply mysql_calls; [by left|]. intros -> -> n a Hn. by right.
Qed.
End facts.

