(* ===== verification/Php.v ===== *)
(** * The php domain: [domain/php]

    The interpreter of the command line and the instances of PHP-FPM that systemd knows:
    their state, their configuration and extensions as the interpreter prints them, and
    the restart of an instance.  The programs run, the order in which Go walks a map and
    the text of a float64 are parameters. *)

From S2P Require Import Prelude GoStrings StringFacts Regex Json JsonParse JsonMore Command Units.
From S2P Require Api Backup.
From Stdlib Require Import Ascii String.
#[local] Open Scope string_scope.
#[local] Open Scope list_scope.
#[local] Open Scope Z_scope.

Import Api(Reply, failure, success, VStr, VInt, VBool, VNum, VList, VMap, VNil, Value, vset).
Import Backup(Join).

Definition infoSource : string :=
  "echo json_encode(['version' => PHP_VERSION, 'sapi' => PHP_SAPI, 'ini_file' => php_ini_loaded_file() ?: null, 'scan_dir' => PHP_CONFIG_FILE_SCAN_DIR ?: null], JSON_UNESCAPED_SLASHES | JSON_UNESCAPED_UNICODE);".
Definition quotes : string → string := smap (λ c, if Ascii.eqb c "~" then quote_char else c).
Definition importantDirectives : list string :=
  ["memory_limit"; "max_execution_time"; "max_input_time"; "post_max_size"; "upload_max_filesize"; "max_file_uploads";
   "date.timezone"; "display_errors"; "log_errors"; "error_log"; "opcache.enable"; "opcache.memory_consumption"].
Definition configurationSource : string :=
  "$names = json_decode('[" +++ join "," (quotes <$> ((λ n, "~" +++ n +++ "~") <$> importantDirectives)) +++ "]', true); $directives = []; foreach ($names as $name) { $value = ini_get($name); $directives[$name] = $value === false ? null : $value; } echo json_encode(['ini_file' => php_ini_loaded_file() ?: null, 'scan_dir' => PHP_CONFIG_FILE_SCAN_DIR ?: null, 'directives' => $directives], JSON_UNESCAPED_SLASHES | JSON_UNESCAPED_UNICODE);".
Definition extensionsSource : string :=
  "$extensions = get_loaded_extensions(); natcasesort($extensions); echo json_encode(array_values($extensions), JSON_UNESCAPED_SLASHES | JSON_UNESCAPED_UNICODE);".
Definition versionSource : string := quotes "echo PHP_MAJOR_VERSION, ~.~, PHP_MINOR_VERSION;".
Definition sources : list string := [infoSource; configurationSource; extensionsSource; versionSource].

Definition digits : rx := plus (Cls is_digit).
(** [^[0-9]+\.[0-9]+$] *)
Definition versionPattern : rx := digits ;;; lit "." ;;; digits.
(** [^php([0-9]+)\.([0-9]+)-fpm\.service$]: the two groups. *)
Definition fpmUnitPattern : rx := lit "php" ;;; digits ;;; lit "." ;;; digits ;;; lit "-fpm.service".
Definition fpm_unit (s : string) : option (string * string) :=
  if full fpmUnitPattern s then
    let '(major, minor, _) := cut "." (trim_suffix (trim_prefix s "php") "-fpm.service") in Some (major, minor)
  else None.
Definition genericFPMUnit : string := "php-fpm.service".
(** [^fpm-([0-9]+)\.([0-9]+)$] *)
Definition fpmRuntimePattern : rx := lit "fpm-" ;;; digits ;;; lit "." ;;; digits.

Record Instance_ := mkInstance {
  i_ID : string; i_Version : string; i_Service : string; i_Unit : string; i_Exists : bool; i_Active : bool; i_Enabled : bool;
  i_State : string; i_binary : string; i_debianLayout : bool }.
(** The type of a runtime: the command line, or the instance of FPM. *)
Record runtime := mkRuntime { r_ID : string; r_Binary : string; r_Version : string; r_Instance : option Instance_ }.
Record unitVersion := mkUnitVersion { v_unit : string; v_version : string; v_major : Z; v_minor : Z; v_debian : bool }.

Definition binary (name : string) : string := Join "/usr/bin" name.

(** ** The units, the latest first *)

(** [less] of the sort. *)
Definition newer (a b : unitVersion) : bool :=
  if v_major a =? v_major b then
    if v_minor a =? v_minor b then v_debian a && negb (v_debian b) else v_minor b <? v_minor a
  else v_major b <? v_major a.
Definition version_le (a b : unitVersion) : Prop := newer b a = false.
#[global] Instance version_le_dec a b : Decision (version_le a b).
Proof. unfold version_le. apply _. Defined.
(** [units[u.unit] = u] *)
Fixpoint set_unit (u : unitVersion) (l : list unitVersion) : list unitVersion :=
  match l with
  | [] => [u]
  | x :: l => if String.eqb (v_unit x) (v_unit u) then u :: l else x :: set_unit u l
  end.

(** The blocks [systemctl show] prints, one for each unit, under the name of the unit and
    its aliases. *)
Definition block := gmap string string.
Definition property (b : block) (name : string) : string := default "" (b !! name).
Definition flush_block (result : gmap string block) (current : block) : gmap string block :=
  if String.eqb (property current "Id") "" then result
  else fold_left (λ r name, <[name := current]> r) (fields (property current "Names")) (<[property current "Id" := current]> result).
Fixpoint show_lines (result : gmap string block) (current : block) (lines : list string) : gmap string block :=
  match lines with
  | [] => flush_block result current
  | raw :: lines =>
      let line := trim_space raw in
      if String.eqb line "" then show_lines (flush_block result current) ∅ lines
      else match cut "=" line with
      | (key, value, true) =>
          if String.eqb key "Id" && negb (String.eqb (property current "Id") "")
          then show_lines (flush_block result current) {[key := value]} lines
          else show_lines result (<[key := value]> current) lines
      | _ => show_lines result current lines
      end
  end.
Definition parseSystemctlProperties (output : string) : gmap string block := show_lines ∅ ∅ (split nl output).

Definition instance_of (properties : gmap string block) (u : unitVersion) : Instance_ :=
  let b := default ∅ (properties !! v_unit u) in
  let load := property b "LoadState" in
  let active := property b "ActiveState" in
  let sub := property b "SubState" in
  let state := if String.eqb sub "" then active else sub in
  mkInstance ("fpm-" +++ v_version u) (v_version u) (trim_suffix (v_unit u) ".service") (v_unit u) (present load)
    (String.eqb active "active") (String.eqb (property b "UnitFileState") "enabled") (if String.eqb state "" then "unknown" else state)
    (binary (if v_debian u then "php" +++ v_version u else "php")) (v_debian u).
(** One instance for each version, that of the first unit. *)
Fixpoint first_versions (seen : list string) (l : list unitVersion) : list unitVersion :=
  match l with
  | [] => []
  | u :: l => if existsb (String.eqb (v_version u)) seen then first_versions seen l else u :: first_versions (v_version u :: seen) l
  end.

(** ** The world *)

(** The order in which Go walks the map of the units. *)
Class MapOrder := { walk : list unitVersion → list unitVersion; walk_perm : ∀ l, walk l ≡ₚ l }.
(** The programs with [PHP_INI_SCAN_DIR] in their environment. *)
Class ScanDir (W : Type) := { with_scan_dir : string → Programs W }.

Definition data := list (string * Value).

Section domain.
Context {W : Type} `{!Programs W} `{!ScanDir W} `{!MapOrder} `{!FloatTexts}.

Definition fail {A} (exit : Z) (code message : string) (details : data) : cmd W A := stop (failure_with exit code message details).
Definition Run : string → list string → cmd W outcome := run_or_fail "PHP" "PHP".

Definition cliMajorMinor : cmd W string :=
  do! o := run (binary "php") ["-r"; versionSource] in
  if negb (succeeded o) || negb (full versionPattern (stdout o))
  then fail 10 "PHP_VERSION_READ_FAILED" "La version de PHP n’a pas pu être déterminée." []
  else ret (stdout o).
Fixpoint listed (units : list unitVersion) (lines : list string) : cmd W (list unitVersion) :=
  match lines with
  | [] => ret units
  | line :: lines =>
      match fields line with
      | [] => listed units lines
      | name :: _ =>
          match fpm_unit name with
          | Some (major, minor) =>
              listed (set_unit (mkUnitVersion name (major +++ "." +++ minor) (atoi_val major) (atoi_val minor) true) units) lines
          | None =>
              if String.eqb name genericFPMUnit then
                do! version := cliMajorMinor in
                let '(major, minor, _) := cut "." version in
                listed (set_unit (mkUnitVersion name version (atoi_val major) (atoi_val minor) false) units) lines
              else listed units lines
          end
      end
  end.
Definition list_arguments : list string := ["list-unit-files"; "--type=service"; "--no-legend"; "--no-pager"; "php*-fpm.service"].
Definition show_arguments (units : list string) : list string :=
  ["show"; "--property=Id"; "--property=Names"; "--property=LoadState"; "--property=ActiveState"; "--property=SubState";
   "--property=UnitFileState"; "--"] ++ units.
Definition show_units (versions : list unitVersion) : cmd W (gmap string block) :=
  match versions with
  | [] => ret ∅
  | _ => do! o := Run systemctl (show_arguments (v_unit <$> versions)) in
         ret (if succeeded o then parseSystemctlProperties (stdout o) else ∅)
  end.
Definition instances : cmd W (list Instance_) :=
  do! o := Run systemctl list_arguments in
  do! units := (if succeeded o then listed [] (split nl (stdout o)) else ret []) in
  let versions := merge_sort version_le (walk units) in
  do! properties := show_units versions in
  ret (instance_of properties <$> first_versions [] versions).

(** ** The runtime of a request *)

Definition requireRuntime (identifier : string) : cmd W runtime :=
  if String.eqb identifier "cli" then
    if negb (executable (binary "php")) then fail 4 "PHP_CLI_NOT_FOUND" "L’interpréteur PHP en ligne de commande est introuvable." []
    else ret (mkRuntime "cli" (binary "php") "" None)
  else if negb (full fpmRuntimePattern identifier) then
    fail 2 "INVALID_PHP_RUNTIME_ID" "L’identifiant d’exécution PHP est invalide." []
  else
    do! l := instances in
    match find (λ i, String.eqb (i_ID i) identifier) l with
    | None => fail 4 "PHP_RUNTIME_NOT_FOUND" "L’instance PHP-FPM demandée n’est pas installée." []
    | Some i =>
        if negb (executable (i_binary i)) then
          fail 4 "PHP_RUNTIME_BINARY_NOT_FOUND" "L’interpréteur correspondant à cette instance PHP-FPM est introuvable." []
        else ret (mkRuntime identifier (i_binary i) (i_Version i) (Some i))
    end.

Definition configurationRoot (version : string) : string := Join (Join "/etc/php" version) "fpm".
Definition query_run (selected : runtime) (source : string) : cmd W outcome :=
  let root := configurationRoot (r_Version selected) in
  if match r_Instance selected with Some i => i_debianLayout i | None => false end
  then run_or_fail (Programs0 := with_scan_dir (Join root "conf.d")) "PHP" "PHP" (r_Binary selected) ["-c"; Join root "php.ini"; "-r"; source]
  else Run (r_Binary selected) ["-r"; source].
Definition invalid_response {A} : cmd W A := fail 10 "INVALID_PHP_RUNTIME_RESPONSE" "La réponse retournée par PHP est invalide." [].
(** The answer is an object or an array: an object is a map, its members in the order they are written. *)
Definition query (selected : runtime) (source : string) : cmd W json :=
  do! o := query_run selected source in
  if negb (succeeded o) then
    fail 10 "PHP_RUNTIME_QUERY_FAILED" "Les informations de l’exécution PHP sont indisponibles." [("output", VStr (stdout o))]
  else match json_parse (stdout o) with
  | None => invalid_response
  | Some v =>
      if negb (any_ok v) then invalid_response
      else match v with JObj _ | JArr _ => ret (canonical v) | _ => invalid_response end
  end.

(** ** The commands *)

(** The member [runtime] of the answer would take the place of the identifier. *)
Definition described (identifier : string) (m : jmap) : data :=
  fold_left (λ r kv, vset r kv.1 (any_value kv.2)) m [("runtime", VStr identifier)].
Definition read_object (identifier source : string) : cmd W data :=
  do! selected := requireRuntime identifier in
  do! v := query selected source in
  match v with JObj m => ret (described identifier m) | _ => invalid_response end.
Definition info : cmd W data := read_object "cli" infoSource.
Definition configuration (identifier : string) : cmd W data := read_object identifier configurationSource.
Definition extensions (identifier : string) : cmd W data :=
  do! selected := requireRuntime identifier in
  do! v := query selected extensionsSource in
  match v with
  | JArr l => ret [("runtime", VStr identifier); ("extensions", VList (any_value <$> l))]
  | _ => invalid_response
  end.
Definition restart (identifier : string) : cmd W data :=
  do! selected := requireRuntime identifier in
  match r_Instance selected with
  | None => fail 2 "PHP_RUNTIME_NOT_RESTARTABLE" "Seule une instance PHP-FPM peut être redémarrée." []
  | Some i =>
      if negb (i_Exists i) then fail 4 "PHP_FPM_SERVICE_NOT_FOUND" "Le service PHP-FPM demandé est introuvable." []
      else
        do! o := Run systemd_run (restart_later (i_Unit i)) in
        if negb (succeeded o) then
          fail 10 "PHP_FPM_RESTART_SCHEDULE_FAILED" "La programmation du redémarrage de PHP-FPM a échoué." [("output", VStr (stdout o))]
        else ret [("action", VStr "restart"); ("runtime", VStr identifier); ("service", VStr (i_Service i)); ("result", VStr "scheduled");
                  ("delay_seconds", VInt 5)]
  end.
Definition instance_value (i : Instance_) : Value :=
  VMap [("id", VStr (i_ID i)); ("version", VStr (i_Version i)); ("service", VStr (i_Service i)); ("unit", VStr (i_Unit i));
        ("exists", VBool (i_Exists i)); ("active", VBool (i_Active i)); ("enabled", VBool (i_Enabled i)); ("state", VStr (i_State i))].
Definition argumentCounts : list (string * nat) :=
  [("info", 0%nat); ("fpm", 0%nat); ("configuration", 1%nat); ("extensions", 1%nat); ("restart", 1%nat)].
Definition execute (command argument : string) : cmd W data :=
  if String.eqb command "info" then info
  else if String.eqb command "fpm" then do! l := instances in ret [("instances", VList (instance_value <$> l))]
  else if String.eqb command "configuration" then configuration argument
  else if String.eqb command "extensions" then extensions argument
  else if String.eqb command "restart" then restart argument
  else fail 4 "COMMAND_NOT_FOUND" "La commande demandée n’existe pas dans le domaine php." [].
Definition handle (command : string) (arguments : list string) : cmd W data :=
  if String.eqb command "" then fail 2 "MISSING_COMMAND" "Aucune commande n’a été indiquée pour le domaine php." []
  else match find (λ kv, String.eqb kv.1 command) argumentCounts with
  | None => fail 4 "COMMAND_NOT_FOUND" "La commande demandée n’existe pas dans le domaine php." []
  | Some (_, expected) =>
      if negb (Nat.eqb (List.length arguments) expected) then fail 2 "INVALID_ARGUMENT_COUNT" "Le nombre d’arguments fourni est invalide." []
      else execute command (match arguments with [x] => x | _ => "" end)
  end.
Definition Handle (command : string) (arguments : list string) : Machine W → Reply * Machine W := serve (handle command arguments).
End domain.

(** ** Properties *)

(** A version, and the units of its instance. *)
Definition is_version (v : string) : Prop := full versionPattern v = true.
Definition fpm_of (v : string) : string := "php" +++ v +++ "-fpm.service".
Definition unit_of (u : unitVersion) : Prop :=
  is_version (v_version u) ∧ v_unit u = if v_debian u then fpm_of (v_version u) else genericFPMUnit.

Lemma Lang_digits s : Lang digits s ↔ s ≠ "" ∧ sforall is_digit s = true.
Proof. rewrite <- rx_match_spec. apply full_plus. Qed.
Lemma versionPattern_spec v :
  is_version v ↔ ∃ a b, v = a +++ "." +++ b ∧ Lang digits a ∧ Lang digits b.
Proof.
  unfold is_version, full, versionPattern. rewrite rx_match_spec, Lang_cat. split.
  - intros (a & r & -> & Ha & (d & b & -> & ->%Lang_lit & Hb)%Lang_cat). eauto.
  - intros (a & b & -> & Ha & Hb). exists a, ("." +++ b). split; [done|]. split; [done|]. apply Lang_cat. exists ".", b.
    split; [done|]. split; [by apply Lang_lit|done].
Qed.
Lemma fpm_unit_spec s a b : fpm_unit s = Some (a, b) → is_version (a +++ "." +++ b) ∧ s = fpm_of (a +++ "." +++ b).
Proof.
  unfold fpm_unit. destruct (full fpmUnitPattern s) eqn:Hf; [|done]. unfold full, fpmUnitPattern in Hf. apply rx_match_spec in Hf.
  rewrite Lang_cat in Hf. destruct Hf as (p & r & -> & ->%Lang_lit & (a' & r' & -> & Ha & Hr)%Lang_cat).
  apply Lang_cat in Hr as (d & r'' & -> & ->%Lang_lit & (b' & e & -> & Hb & ->%Lang_lit)%Lang_cat).
  rewrite trim_prefix_app. replace (a' +++ "." +++ b' +++ "-fpm.service") with ((a' +++ "." +++ b') +++ "-fpm.service") by by rewrite !sapp_assoc.
  rewrite trim_suffix_app. change ("." +++ b') with (String "." b'). rewrite cut_app.
  - intros [= <- <-]. split; [apply versionPattern_spec; eauto|done].
  - apply Lang_digits in Ha as [_ Ha]. clear -Ha. unfold contains_byte. induction a' as [|c a' IH]; [done|]. cbn [sexists sforall] in *.
    apply andb_true_iff in Ha as [Hc Ha]. rewrite IH by done. apply orb_false_iff. split; [|done]. apply Ascii.eqb_neq. by intros <-.
Qed.
Lemma set_unit_Forall (P : unitVersion → Prop) u l : P u → Forall P l → Forall P (set_unit u l).
Proof.
  intros Hu. induction l as [|x l IH]; intros Hl; [by constructor|]. inversion Hl; subst. cbn [set_unit].
  case_match; constructor; auto.
Qed.
Lemma first_versions_Forall (P : unitVersion → Prop) l : ∀ seen, Forall P l → Forall P (first_versions seen l).
Proof. induction l as [|u l IH]; intros seen Hl; [done|]. inversion Hl; subst. cbn [first_versions]. case_match; auto. Qed.

Section facts.
Context {W : Type} `{!Programs W} `{!ScanDir W} `{!MapOrder} `{!FloatTexts}.

(** An instance is that of a unit. *)
Definition instance_ok (i : Instance_) : Prop :=
  is_version (i_Version i) ∧ i_ID i = "fpm-" +++ i_Version i ∧
  (if i_debianLayout i then i_Unit i = fpm_of (i_Version i) ∧ i_binary i = binary ("php" +++ i_Version i)
   else i_Unit i = genericFPMUnit ∧ i_binary i = binary "php").
Definition runtime_ok (identifier : string) (r : runtime) : Prop :=
  match r_Instance r with
  | None => identifier = "cli" ∧ r_Binary r = binary "php"
  | Some i => instance_ok i ∧ i_ID i = identifier ∧ r_Binary r = i_binary i ∧ r_Version r = i_Version i
  end.

(** What the domain runs to read. *)
Definition reading (name : string) (arguments : list string) : Prop :=
  (name = systemctl ∧ (arguments = list_arguments ∨ ∃ l, Forall unit_of l ∧ arguments = show_arguments (v_unit <$> l))) ∨
  (∃ source, source ∈ sources ∧
     ((name = binary "php" ∧ arguments = ["-r"; source]) ∨
      (∃ v, is_version v ∧ name = binary ("php" +++ v) ∧ arguments = ["-c"; Join (configurationRoot v) "php.ini"; "-r"; source]))).
(** The restart of the unit of an instance. *)
Definition restarting (identifier name : string) (arguments : list string) : Prop :=
  ∃ v unit_, is_version v ∧ identifier = "fpm-" +++ v ∧ (unit_ = fpm_of v ∨ unit_ = genericFPMUnit) ∧
    name = systemd_run ∧ arguments = restart_later unit_.

Context (P : string → list string → Prop) (HP : ∀ n a, reading n a → P n a).

Lemma cliMajorMinor_yields : yields (W := W) is_version cliMajorMinor.
Proof.
  unfold cliMajorMinor. apply yields_then. intros o. destruct (negb (succeeded o) || _) eqn:Hb; [apply yields_stop|].
  apply yields_ret. apply orb_false_iff in Hb as [_ Hb]. by apply negb_false_iff in Hb.
Qed.
Lemma only_cliMajorMinor : only P (cliMajorMinor (W := W)).
Proof. unfold cliMajorMinor, fail. walk. apply HP. right. exists versionSource. unfold sources. split; [set_solver|]. by left. Qed.
Lemma only_listed lines : ∀ units, only P (listed (W := W) units lines).
Proof.
  induction lines as [|line lines IH]; intros units; cbn [listed]; [walk|]. destruct (fields line) as [|name l]; [auto|].
  destruct (fpm_unit name) as [[a b]|]; [auto|]. case_match; [|auto]. apply only_bind; [apply only_cliMajorMinor|].
  intros v. destruct (cut "." v) as [[a b] f]. auto.
Qed.
Lemma listed_yields lines : ∀ units, Forall unit_of units → yields (W := W) (Forall unit_of) (listed units lines).
Proof.
  induction lines as [|line lines IH]; intros units Hu; cbn [listed]; [by apply yields_ret|]. destruct (fields line) as [|name l]; [auto|].
  destruct (fpm_unit name) as [[a b]|] eqn:Hn.
  - apply IH, set_unit_Forall; [|done]. by apply fpm_unit_spec in Hn.
  - destruct (String.eqb_spec name genericFPMUnit) as [->|]; [|auto]. eapply yields_bind; [apply cliMajorMinor_yields|].
    intros v Hv. destruct (cut "." v) as [[a b] f]. apply IH, set_unit_Forall; [|done]. done.
Qed.
Lemma instances_all (Q : Prop) l : Forall unit_of l → Q → Q ∧ Forall unit_of (merge_sort version_le (walk l)).
Proof. intros Hl HQ. split; [done|]. rewrite merge_sort_Permutation, walk_perm. done. Qed.
Lemma instances_yields : yields (W := W) (Forall instance_ok) instances.
Proof.
  unfold instances. apply yields_then. intros o. apply (yields_bind (Forall unit_of)).
  - destruct (succeeded o); [by apply listed_yields|by apply yields_ret].
  - intros l Hl. cbv zeta. apply yields_then. intros properties. apply yields_ret. apply Forall_fmap.
    apply (Forall_impl unit_of); [apply first_versions_Forall; by apply (instances_all True)|].
    intros u [Hv Hu]. split; [done|]. split; [done|]. unfold compose, instance_of. cbn [i_debianLayout i_Unit i_Version i_binary].
    by destruct (v_debian u).
Qed.
Lemma only_Run name arguments : P name arguments → only P (Run (W := W) name arguments).
Proof. apply only_run_or_fail. Qed.
Lemma only_instances : only P (instances (W := W)).
Proof.
  unfold instances. apply only_bind; [apply only_Run, HP; left; auto|]. intros o. apply (only_yields P (Forall unit_of)).
  - destruct (succeeded o); [apply only_listed|walk].
  - destruct (succeeded o); [by apply listed_yields|by apply yields_ret].
  - intros l Hl. cbv zeta. apply only_bind; [|intros properties; walk]. unfold show_units.
    destruct (merge_sort version_le (walk l)) as [|u r] eqn:Hs; [walk|]. apply only_bind; [|intros p; walk]. apply only_Run, HP. left.
    split; [done|]. right. exists (u :: r). split; [|done]. rewrite <- Hs. by apply (instances_all True).
Qed.
Lemma only_requireRuntime identifier : only P (requireRuntime (W := W) identifier).
Proof. pose proof only_instances. unfold requireRuntime, fail. walk. Qed.
Lemma requireRuntime_yields identifier : yields (W := W) (runtime_ok identifier) (requireRuntime identifier).
Proof.
  unfold requireRuntime, fail. destruct (String.eqb_spec identifier "cli") as [->|].
  { case_match; [apply yields_stop|by apply yields_ret]. }
  case_match; [apply yields_stop|]. eapply yields_bind; [apply instances_yields|]. intros l Hl.
  destruct (find _ l) as [i|] eqn:Hf; [|apply yields_stop]. apply find_some in Hf as [Hi Hid%String.eqb_eq].
  case_match; [apply yields_stop|]. apply yields_ret. unfold runtime_ok. cbn. rewrite Forall_forall in Hl. split; [|done].
  apply Hl. by apply list_elem_of_In.
Qed.
Lemma only_php_query identifier r source : runtime_ok identifier r → source ∈ sources → only P (query (W := W) r source).
Proof.
  intros Hr Hs. unfold query, invalid_response, fail. apply only_bind; [|intros o; walk]. unfold query_run, runtime_ok in *.
  destruct (r_Instance r) as [i|].
  - destruct Hr as ((Hv & _ & Hi) & _ & -> & ->). destruct (i_debianLayout i); destruct Hi as [_ ->].
    + apply only_run_or_fail, HP. right. exists source. split; [done|]. right. by exists (i_Version i).
    + apply only_Run, HP. right. exists source. split; [done|]. by left.
  - destruct Hr as [_ ->]. apply only_Run, HP. right. exists source. split; [done|]. by left.
Qed.
Lemma only_read_object identifier source : source ∈ sources → only P (read_object (W := W) identifier source).
Proof.
  intros Hs. unfold read_object, invalid_response, fail. eapply only_yields; [apply only_requireRuntime|apply requireRuntime_yields|].
  intros r Hr. apply only_bind; [by eapply only_php_query|]. intros v. walk.
Qed.
Lemma only_restart identifier : (∀ n a, restarting identifier n a → P n a) → only P (restart (W := W) identifier).
Proof.
  intros Hr. unfold restart, fail. eapply only_yields; [apply only_requireRuntime|apply requireRuntime_yields|].
  intros r Hok. unfold runtime_ok in Hok. destruct (r_Instance r) as [i|]; [|walk]. case_match; [walk|].
  apply only_bind; [|intros o; walk]. apply only_Run, Hr. destruct Hok as ((Hv & Hi & Hu) & Hid & _). exists (i_Version i), (i_Unit i).
  split; [done|]. split; [congruence|]. destruct (i_debianLayout i); destruct Hu as [-> _]; auto.
Qed.
Lemma php_calls command arguments :
  (∀ identifier n a, command = "restart" → arguments = [identifier] → restarting identifier n a → P n a) →
  only P (handle (W := W) command arguments).
Proof.
  intros Hr. pose proof only_instances as Hi.
  assert (∀ i s, s ∈ sources → only P (read_object (W := W) i s)) as Ho by (intros; by apply only_read_object).
  unfold handle, fail. destruct (command =? "")%string; [walk|]. destruct (find _ argumentCounts) as [[name expected]|] eqn:Hf; [|walk].
  destruct (Nat.eqb_spec (List.length arguments) expected) as [Hl|]; cbn [negb]; [|walk]. unfold execute, info, configuration.
  destruct (String.eqb_spec command "info") as [Hn1|Hn1]; [apply Ho; unfold sources; set_solver|]. destruct (String.eqb_spec command "fpm") as [Hn2|Hn2]; [walk|].
  destruct (String.eqb_spec command "configuration") as [Hn3|Hn3]; [apply Ho; unfold sources; set_solver|]. destruct (String.eqb_spec command "extensions") as [Hn4|Hn4].
  { unfold extensions, invalid_response, fail. eapply only_yields; [apply only_requireRuntime|apply requireRuntime_yields|].
    intros r Hok. apply only_bind; [eapply only_php_query; [done|unfold sources; set_solver]|]. intros v. walk. }
  destruct (String.eqb_spec command "restart") as [->|]; [|unfold fail; walk]. injection Hf as <- <-.
  destruct arguments as [|x [|y l]]; try done. apply only_restart. intros n a. by apply Hr.
Qed.
End facts.

(** What the php domain runs, whatever the request, the answers of the programs and the
    order of Go's maps: [systemctl] to list the units of PHP-FPM and to show those of its
    list; the interpreter of the system, or the one of a version with the configuration of
    its FPM, on one of the four fixed sources (no word of the request reaches an
    interpreter); and, only for [restart] of an identifier [fpm-<version>], the restart of
    the unit of that version or of the generic unit. *)
Theorem php_effects {W} `{!Programs W} `{!ScanDir W} `{!MapOrder} `{!FloatTexts} (m : Machine W) command arguments :
  ∃ calls, ran (Handle command arguments m).2 = ran m ++ calls ∧
    Forall (λ call, reading call.1.1 call.1.2 ∨
                    ∃ identifier, command = "restart" ∧ arguments = [identifier] ∧ restarting identifier call.1.1 call.1.2) calls.
Proof.
  apply (only_serve (λ n a, reading n a ∨ ∃ identifier, command = "restart" ∧ arguments = [identifier] ∧ restarting identifier n a)).
  apply php_calls; [by left|]. intros identifier n a -> -> Hn. right. by exists identifier.
Qed.

Section replies.
Context {W : Type} `{!Programs W} `{!ScanDir W} `{!MapOrder} `{!FloatTexts}.
Lemma php_refuses_Run name arguments : refuses (Run (W := W) name arguments).
Proof. apply refuses_run_or_fail. Qed.
Lemma refuses_listed lines : ∀ units, refuses (listed (W := W) units lines).
Proof.
  induction lines as [|line lines IH]; intros units; cbn [listed]; [walk|]. destruct (fields line) as [|name l]; [auto|].
  destruct (fpm_unit name) as [[a b]|]; [auto|]. case_match; [|auto]. apply refuses_bind; [unfold cliMajorMinor, fail; walk|].
  intros v. destruct (cut "." v) as [[a b] f]. auto.
Qed.
Lemma refuses_instances : refuses (instances (W := W)).
Proof.
  pose proof php_refuses_Run. pose proof refuses_listed. unfold instances, show_units. apply refuses_bind; [done|]. intros o.
  apply refuses_bind; [case_match; [done|walk]|]. intros l. cbv zeta. apply refuses_bind; [|intros ?; walk]. case_match; walk.
Qed.
Lemma refuses_query r source : refuses (query (W := W) r source).
Proof.
  unfold query, invalid_response, fail. apply refuses_bind; [unfold query_run; case_match; apply refuses_run_or_fail|]. intros o. walk.
Qed.
Lemma php_reply_ok command arguments (m : Machine W) : Api.reply_ok (Handle command arguments m).1.
Proof.
  apply serve_ok. pose proof php_refuses_Run. pose proof refuses_instances. pose proof refuses_query.
  assert (∀ i, refuses (requireRuntime (W := W) i)) as Hq by (intros i; unfold requireRuntime, fail; walk).
  unfold handle, execute, info, configuration, extensions, restart, read_object, invalid_response, fail. walk.
Qed.
End replies.
