(* ===== verification/Certbot.v ===== *)
(** * The certbot domain: [domain/certbot]

    The certificates certbot manages, the state of its timer, and its actions: an action
    is an execution, a file of the result directory created for the runner that systemd
    starts apart, and read back by [action-result].  The programs, the tree of files, the
    parsing of X.509 certificates, the clock and the random bytes are parameters. *)

From S2P Require Import Prelude GoStrings StringFacts Regex Time Codec Json JsonParse JsonMore Command Files Units.
From S2P Require Api Backup CronTasks Logs.
From Stdlib Require Import Ascii String SpecFloat.
#[local] Open Scope string_scope.
#[local] Open Scope list_scope.
#[local] Open Scope Z_scope.

Import Api(Reply, failure, success, VStr, VInt, VBool, VNum, VList, VMap, VNil, Value).
Import Backup(Join).
Import CronTasks(path_base).

Record Paths := mkPaths {
  Certbot : string; DpkgQuery : string; RPM : string; Systemctl : string; SystemdRun : string; Runner : string;
  RenewalDirectory : string; LiveDirectory : string; ArchiveDirectory : string; ResultDirectory : string }.
Definition runnerPath : string := "/usr/local/lib/aegisadmin-system/libexec/certbot-runner.py".
Definition NewLinuxBackend (executable : string → bool) : Paths :=
  mkPaths (if negb (executable "/usr/bin/certbot") && executable "/usr/local/bin/certbot" then "/usr/local/bin/certbot" else "/usr/bin/certbot")
    "/usr/bin/dpkg-query" "/usr/bin/rpm" "/usr/bin/systemctl" "/usr/bin/systemd-run" runnerPath
    "/etc/letsencrypt/renewal" "/etc/letsencrypt/live" "/etc/letsencrypt/archive" "/run/aegisadmin-system/certbot".

Definition alnum (c : ascii) : bool := is_digit c || is_lower c || is_upper c.
Definition lower_alnum (c : ascii) : bool := is_digit c || is_lower c.
(** [^[a-f0-9]{32}$] *)
Definition executionPattern : rx := Rep is_hex_lower 32 32.
(** [^[A-Za-z0-9][A-Za-z0-9._-]{0,254}$] *)
Definition certificateActionName : rx := Cls alnum ;;; Rep (cls alnum "._-") 0 254.
(** A label of a name: it neither starts nor ends with a hyphen. *)
Definition label_of (first last : ascii → bool) : rx := Cls first ;;; opt (Rep (cls last "-") 0 61 ;;; Cls last).
(** [^(?:[a-z0-9](?:[a-z0-9-]{0,61}[a-z0-9])?\.)+[a-z](?:[a-z0-9-]{0,61}[a-z0-9])?$] *)
Definition domainPattern : rx := plus (label_of lower_alnum lower_alnum ;;; lit ".") ;;; label_of is_lower lower_alnum.
Definition email_byte : ascii → bool := cls alnum ".!#$%&'*+/=?^_{}|~-".
Definition emailPattern : rx := plus (Cls email_byte) ;;; lit "@" ;;; label_of alnum alnum ;;; plus (lit "." ;;; label_of alnum alnum).
Definition white : ascii → bool := cls (λ _, false) (String "009" (String nl (String "012" (String cr " ")))).
(** [certbot], white space, two to four numbers separated by dots, then any of the bytes [-+._] and alphanumeric ones: the group is what follows the white space. *)
Definition dotted : rx := lit "." ;;; plus (Cls is_digit).
Definition versionPattern : rx :=
  lit "certbot" ;;; plus (Cls white) ;;; plus (Cls is_digit) ;;; dotted ;;; opt dotted ;;; opt dotted ;;; Star (Cls (cls alnum "-+._")).
Definition version_of (s : string) : option string :=
  if full versionPattern s then Some (trim_left_set white (trim_prefix s "certbot")) else None.
(** A line made of a star, a space, a lower case letter, then lower case letters, digits and hyphens: the group is what follows the space. *)
Definition pluginPattern : rx := lit "* " ;;; Cls is_lower ;;; Star (Cls (cls lower_alnum "-")).
Definition plugins_of (output : string) : list string :=
  omap (λ l, if full pluginPattern l then Some (trim_prefix l "* ") else None) (split nl output).
(** [^[A-Za-z0-9._-]{1,253}$] *)
Definition readCertificateName : rx := Rep (cls alnum "._-") 1 253.
Definition two : rx := Rep is_digit 2 2.
(** [^[A-Z][a-z]{2} (\d{4}-\d{2}-\d{2}) (\d{2}:\d{2}:\d{2}) (?:UTC|[A-Z]{3,5})$] *)
Definition systemdTime : rx :=
  Cls is_upper ;;; Rep is_lower 2 2 ;;; lit " " ;;; Rep is_digit 4 4 ;;; lit "-" ;;; two ;;; lit "-" ;;; two ;;; lit " " ;;;
  two ;;; lit ":" ;;; two ;;; lit ":" ;;; two ;;; lit " " ;;; (lit "UTC" ||| Rep is_upper 3 5).
(** [None] when it is no date; [Some None] when there is none.  Whatever the zone, the answer says [Z]. *)
Definition systemdTimestamp (value : string) : option (option string) :=
  if String.eqb value "" || String.eqb value "n/a" then Some None
  else if full systemdTime value then Some (Some (stake 10 (sdrop 4 value) +++ "T" +++ stake 8 (sdrop 15 value) +++ "Z"))
  else None.

Definition validActions : list string := ["renew-test"; "renew"; "issue"; "delete"; "reinstall"; "renew-replace"].
Definition fixedArguments : list (string * nat) :=
  [("info", 0%nat); ("status", 0%nat); ("certificates", 0%nat); ("delete", 1%nat); ("reinstall", 1%nat); ("renew-replace", 1%nat);
   ("renew-test", 0%nat); ("renew", 0%nat); ("action-result", 1%nat)].

(** ** Certificates *)

(** What is used of a parsed certificate; the key is of another type when [None]. *)
Inductive key_type := ECDSA | RSA | Ed25519.
Record x509 := mkX509 {
  DNSNames : list string; PublicKey : option key_type; Organization : list string; CommonName : string; NotAfter : Z; SerialNumber : Z }.
Record Certificate := mkCertificate {
  c_Name : string; c_Serial : string; c_KeyType : string; c_Domains : list string; c_Issuer : string; c_Expiry : string;
  c_DaysRemaining : Z; c_Valid : bool; c_Authenticator : string; c_Installer : string }.

(** [big.Int.Text(16)] *)
Definition hex_digit (d : Z) : ascii := if d <? 10 then chr (48 + d) else chr (87 + d).
Fixpoint hex_text (fuel : nat) (n : Z) (acc : string) : string :=
  match fuel with
  | O => acc
  | S fuel => let acc := String (hex_digit (n mod 16)) acc in if n <? 16 then acc else hex_text fuel (n / 16) acc
  end.
Definition Text16 (n : Z) : string := (if n <? 0 then "-" else "") +++ hex_text (S (Z.to_nat (Z.log2 (Z.abs n) / 4))) (Z.abs n) "".
Definition formatSerial `{UnicodeCase} (value : string) : string :=
  let value := to_lower value in if Z.odd (slen value) then "0" +++ value else value.

(** [int(math.Floor(d.Seconds() / 86400))] on float64, [d] in nanoseconds. *)
Definition float64 (n : Z) : spec_float := binary_normalize 53 1024 n 0 false.
Definition Seconds (d : Z) : spec_float :=
  SFadd 53 1024 (float64 (Z.quot d 1000000000)) (SFdiv 53 1024 (float64 (Z.rem d 1000000000)) (float64 1000000000)).
Definition floor_of (f : spec_float) : Z :=
  match f with
  | S754_finite s m e =>
      let m := if s then - Zpos m else Zpos m in
      if 0 <=? e then m * 2 ^ e else m / 2 ^ (- e)
  | _ => 0
  end.
Definition days_of (d : Z) : Z := floor_of (SFdiv 53 1024 (Seconds d) (float64 86400)).
(** [time.Time.Sub], which saturates; times in nanoseconds. *)
Definition time_sub (a b : Z) : Z := Z.max int_min (Z.min int_max (a - b)).

(** The authenticator and the installer of a renewal configuration. *)
Definition renewal_state : Type := bool * gmap string string.
Definition renewal_line (st : renewal_state) (raw : string) : option renewal_state :=
  let line := trim_space raw in
  if String.eqb line "" || has_prefix line "#" || has_prefix line ";" then Some st
  else if has_prefix line "[" && has_suffix line "]" then Some (String.eqb line "[renewalparams]", st.2)
  else if negb st.1 then Some st
  else match cut "=" line with
  | (key, value, true) =>
      let key := trim_space key in
      if negb (String.eqb key "authenticator") && negb (String.eqb key "installer") then Some st
      else match st.2 !! key with Some _ => None | None => Some (st.1, <[key := trim_space value]> st.2) end
  | _ => None
  end.
Definition renewalParameters (content : option string) : option (string * string) :=
  match content with
  | None => None
  | Some content =>
      if negb (valid_utf8 content) then None
      else match foldl (λ acc raw, match acc with Some st => renewal_line st raw | None => None end) (Some (false, ∅)) (split nl content) with
      | None => None
      | Some (_, values) => match values !! "authenticator" with Some auth => Some (auth, default "" (values !! "installer")) | None => None end
      end
  end.
(** Neighbours that are equal become one. *)
Fixpoint unique (l : list string) : list string :=
  match l with
  | x :: ((y :: _) as l') => if String.eqb x y then unique l' else x :: unique l'
  | _ => l
  end.
Definition certificate_le (x y : Certificate) : Prop :=
  if String.eqb (c_Expiry x) (c_Expiry y) then str_le (c_Name x) (c_Name y) else str_le (c_Expiry x) (c_Expiry y).
#[global] Instance certificate_le_dec x y : Decision (certificate_le x y).
Proof. unfold certificate_le. case_match; apply _. Defined.

(** ** The host *)

Definition data := list (string * Value).
Record file_info := mkInfo { is_dir : bool; is_regular : bool; perm : Z; uid : Z; gid : Z; size : Z; mtime : Z }.
Inductive stat_result := Absent | Unknown | Info (i : file_info).

(** What the domain sees of the host besides the contents of its files: the clock in
    nanoseconds, the state of the paths, random bytes, the steps that create a result file,
    and the answer of [info] that the daemon keeps. *)
Class CertbotHost (W : Type) `{!FileSystem W} := {
  now : W → Z;
  Stat : W → string → stat_result;
  Lstat : W → string → stat_result;
  EvalSymlinks : W → string → option string;
  names : W → string → list string;               (** of a directory, none when it cannot be read *)
  secureDirectory : W → string → bool;            (** every call that prepares the directory succeeds *)
  random : W → option string * W;                 (** sixteen bytes *)
  opens : W → string → bool;                      (** a file that does not exist is created *)
  partial : W → string → string → string;         (** what is left of a write that failed *)
  infoCache : W → option data;
  set_infoCache : data → W → W;
  random_length w s w' : random w = (Some s, w') → String.length s = 16%nat;
  random_files w : files (random w).2 = files w;
  random_cache w : infoCache (random w).2 = infoCache w;
  cache_files d w : files (set_infoCache d w) = files w;
  cache_set d w : infoCache (set_infoCache d w) = Some d;
}.
(** [pem.Decode] and [x509.ParseCertificate] of the first block. *)
Class X509 := { parse_certificate : string → option x509 }.

Section domain.
Context {W : Type} `{!FileSystem W} `{!CertbotHost W} `{!Programs W} `{!X509} `{!FloatTexts} `{UnicodeCase} (b : Paths).

Definition fail {A} (exit : Z) (code message : string) : cmd W A := stop (failure exit code message).
Definition read_failure : Reply := failure 10 "CERTBOT_READ_FAILED" "Les informations Certbot n’ont pas pu être lues.".
Definition readFailure {A} : cmd W A := stop read_failure.
Definition commandFailure {A} (status : Z) : cmd W A :=
  if status =? -2 then fail 10 "CERTBOT_COMMAND_TIMEOUT" "La commande Certbot a dépassé le délai autorisé." else readFailure.

(** ** What is installed *)

Definition stab : string := String "009" "".
Definition dpkg_arguments : list string := ["-W"; "-f=${Package}" +++ stab +++ "${Version}" +++ snl; "certbot"].
Definition rpm_arguments : list string := ["-qf"; "--qf"; "%{NAME}" +++ stab +++ "%{EVR}\n"; Certbot b].
(** The package, its version and the kind of installation. *)
Definition package : Type := option (string * string) * string.
Definition package_of (accepted : list string) (kind output : string) : res Reply package :=
  match split "009" (trim_space output) with
  | [name; version] => if existsb (String.eqb name) accepted then Ok (Some (name, version), kind) else Err read_failure
  | _ => Err read_failure
  end.
Definition installation : cmd W package :=
  do! dpkg := (if executable (DpkgQuery b) then do! o := run (DpkgQuery b) dpkg_arguments in ret (Some o) else ret None) in
  match dpkg with
  | Some (mkOutcome output _ 0) => lift (package_of ["certbot"] "apt" output)
  | _ =>
      if executable (RPM b) then
        do! o := run (RPM b) rpm_arguments in
        if succeeded o then lift (package_of ["certbot"; "python3-certbot"] "rpm" (stdout o)) else ret (None, "manual")
      else ret (None, "manual")
  end.
Definition opt_str (o : option string) : Value := default VNil (VStr <$> o).
Definition inspect : cmd W data :=
  do! o := run (Certbot b) ["--version"] in
  match version_of (stdout o) with
  | None => commandFailure (status o)
  | Some version =>
      if negb (succeeded o) then commandFailure (status o)
      else
        do! p := installation in
        do! o := run (Certbot b) ["plugins"] in
        if negb (succeeded o) then commandFailure (status o)
        else match sort_strings (unique_from [] (plugins_of (stdout o))) with
        | [] => readFailure
        | plugins =>
            let d := [("installed", VBool true); ("product", VStr "Certbot"); ("version", VStr version); ("executable", VStr (Certbot b));
                      ("installation", VStr p.2); ("package", opt_str (fst <$> p.1)); ("package_version", opt_str (snd <$> p.1));
                      ("plugins", VList (VStr <$> plugins))] in
            do! _ := touch (λ w, ((), set_infoCache d w)) in ret d
        end
  end.
(** The first inspection that succeeds is kept. *)
Definition info : cmd W data :=
  do! cached := look infoCache in match cached with Some d => ret d | None => inspect end.

(** ** The timer and the service *)

Definition unit_values (output : string) : gmap string string :=
  foldl (λ values line, match cut "=" line with (key, value, true) => <[key := value]> values | _ => values end) ∅ (split nl output).
Definition properties_arguments (unit_ : string) (names : list string) : list string :=
  ["show"; unit_] ++ List.concat ((λ n, ["--property"; n]) <$> names).
Definition properties (unit_ : string) (names : list string) : cmd W (gmap string string) :=
  do! o := run (Systemctl b) (properties_arguments unit_ names) in if negb (succeeded o) then readFailure else ret (unit_values (stdout o)).
Definition timer_properties : list string := ["LoadState"; "ActiveState"; "UnitFileState"; "LastTriggerUSec"; "NextElapseUSecRealtime"].
Definition service_properties : list string := ["LoadState"; "ActiveState"; "SubState"; "Result"; "ExecMainCode"; "ExecMainStatus"].
Definition status_of (timer service : gmap string string) : res Reply data :=
  let t name := default "" (timer !! name) in
  let s name := default "" (service !! name) in
  match atoi (s "ExecMainStatus"), systemdTimestamp (t "LastTriggerUSec"), systemdTimestamp (t "NextElapseUSecRealtime") with
  | Some exit, Some last, Some next =>
      Ok [("service", VStr "certbot"); ("unit", VStr "certbot.service"); ("timer", VStr "certbot.timer");
          ("exists", VBool (String.eqb (s "LoadState") "loaded")); ("timer_exists", VBool (String.eqb (t "LoadState") "loaded"));
          ("timer_active", VBool (String.eqb (t "ActiveState") "active")); ("timer_enabled", VBool (String.eqb (t "UnitFileState") "enabled"));
          ("service_active", VBool (String.eqb (s "ActiveState") "active")); ("service_state", VStr (s "SubState"));
          ("last_result", VStr (s "Result")); ("last_exit_code", VInt exit); ("last_trigger", opt_str last); ("next_trigger", opt_str next)]
  | _, _, _ => Err read_failure
  end.
Definition status : cmd W data :=
  do! timer := properties "certbot.timer" timer_properties in
  do! service := properties "certbot.service" service_properties in
  lift (status_of timer service).

(** ** The certificates *)

(** [os.ReadFile], which follows links. *)
Definition ReadFile (w : W) (path : string) : option string :=
  match EvalSymlinks w path with Some real => files w !! real | None => None end.
Definition conf_name (path : string) : string := trim_suffix (path_base path) ".conf".
(** [os.ReadFile(live)] reads the file the links resolve to. *)
Definition certificate (w : W) (configPath : string) : option Certificate :=
  let name := conf_name configPath in
  if negb (full readCertificateName name) then None
  else match renewalParameters (ReadFile w configPath) with
  | None => None
  | Some (authenticator, installer) =>
      let live := Join (Join (LiveDirectory b) name) "cert.pem" in
      match EvalSymlinks w live, EvalSymlinks w (ArchiveDirectory b) with
      | Some resolved, Some archive =>
          match Logs.Rel archive resolved with
          | None => None
          | Some relative =>
              if String.eqb relative ".." || has_prefix relative "../" then None
              else match files w !! resolved with
              | None => None
              | Some content =>
                  match parse_certificate content with
                  | None => None
                  | Some c =>
                      match unique (sort_strings (DNSNames c)), PublicKey c with
                      | [], _ | _, None => None
                      | domains, Some key =>
                          let issuer := match Organization c with o :: _ => o | [] => CommonName c end in
                          let remaining := time_sub (NotAfter c * 1000000000) (now w) in
                          Some (mkCertificate name (formatSerial (Text16 (SerialNumber c)))
                                  (match key with ECDSA => "ECDSA" | RSA => "RSA" | Ed25519 => "Ed25519" end)
                                  domains issuer (rfc3339 (NotAfter c)) (days_of remaining) (0 <? remaining) authenticator installer)
                      end
                  end
              end
          end
      | _, _ => None
      end
  end.
(** [filepath.Glob] of the [.conf] names, sorted. *)
Definition renewal_files (w : W) : list string :=
  sort_strings (Join (RenewalDirectory b) <$> List.filter (λ n, has_suffix n ".conf") (names w (RenewalDirectory b))).
Definition read_certificates (w : W) : res Reply (list Certificate) :=
  match Stat w (RenewalDirectory b) with
  | Absent => Ok []
  | Unknown => Err read_failure
  | Info i =>
      if negb (is_dir i) then Err read_failure
      else match mapM (certificate w) (renewal_files w) with
      | None => Err read_failure
      | Some items => Ok (merge_sort certificate_le items)
      end
  end.
Definition nullable (value : string) : Value := if String.eqb value "" then VNil else VStr value.
Definition certificate_value (c : Certificate) : Value :=
  VMap [("name", VStr (c_Name c)); ("serial", VStr (c_Serial c)); ("key_type", VStr (c_KeyType c)); ("domains", VList (VStr <$> c_Domains c));
        ("issuer", VStr (c_Issuer c)); ("expiry", VStr (c_Expiry c)); ("days_remaining", VInt (c_DaysRemaining c)); ("valid", VBool (c_Valid c));
        ("authenticator", nullable (c_Authenticator c)); ("installer", nullable (c_Installer c))].
Definition certificates : cmd W data :=
  do! items := consult read_certificates in
  ret [("certificates", VList (certificate_value <$> items)); ("count", VInt (Z.of_nat (List.length items)))].

(** ** The actions *)

Record parameters := mkParameters { p_domains : list string; p_email : string; p_redirect : bool }.
Definition invalid_parameters : Reply :=
  failure 2 "INVALID_CERTBOT_ISSUE_PARAMETERS" "Les paramètres d’émission du certificat sont invalides.".
Definition length_between (low high : Z) (s : string) : bool := (low <=? rune_count s) && (rune_count s <=? high).
Definition valid_domain (domain : string) : bool :=
  let normalized := to_lower (trim_space domain) in
  String.eqb domain normalized && length_between 1 253 normalized && full domainPattern normalized && negb (has_suffix normalized ".onion").
Fixpoint issue_domains (seen l : list string) : bool :=
  match l with
  | [] => true
  | d :: l => valid_domain d && negb (existsb (String.eqb d) seen) && issue_domains (d :: seen) l
  end.
Definition issueParameters (arguments : list string) : res Reply parameters :=
  match arguments with
  | email :: redirect :: domains =>
      if negb (length_between 3 254 email) || negb (full emailPattern email) || (negb (String.eqb redirect "redirect") && negb (String.eqb redirect "no-redirect"))
      then Err invalid_parameters
      else if negb (issue_domains [] domains) then Err invalid_parameters
      else Ok (mkParameters domains email (String.eqb redirect "redirect"))
  | _ => Err invalid_parameters
  end.
Definition parameters_json (p : parameters) : json :=
  JObj [("domains", JArr (JStr <$> p_domains p)); ("email", JStr (p_email p)); ("redirect", JBool (p_redirect p))].
Definition name_json (name : string) : json := JObj [("certificate_name", JStr name)].

(** The content of a new execution, its members in the order of their names. *)
Definition execution_json (execution action : string) (created_at : Z) (p : option json) : json :=
  JObj ([("action", JStr action); ("created_at", JNum (itoa created_at)); ("duration_ms", JNum "0"); ("execution_id", JStr execution);
         ("exit_code", JNull)] ++ match p with Some p => [("parameters", p)] | None => [] end ++
        [("status", JStr "running"); ("stderr", JStr ""); ("stdout", JStr ""); ("timed_out", JBool false); ("truncated", JBool false)]).
Definition result_path (execution : string) : string := Join (ResultDirectory b) (execution +++ ".json").
Inductive creation := Created | Taken | Refused.
(** [O_EXCL], the owner, the content; a file that could not be completed is removed. *)
Definition create_at (path content : string) (w : W) : creation * W :=
  match files w !! path with
  | Some _ => (Taken, w)
  | None =>
      if negb (opens w path) then (Refused, w)
      else if may_write w path content then (Created, set_files (<[path := content]> (files w)) w)
      else (Refused, (remove_at path (set_files (<[path := partial w path content]> (files w)) w)).2)
  end.
Definition prepare_failed {A} : cmd W A := fail 10 "CERTBOT_ACTION_PREPARE_FAILED" "L’exécution Certbot n’a pas pu être préparée.".
(** The attempts left and the execution of the last one, which is returned when none is left. *)
Fixpoint attempts (fuel : nat) (action : string) (p : option json) (execution : string) : cmd W string :=
  match fuel with
  | O => ret execution
  | S fuel =>
      do! bytes := touch random in
      match bytes with
      | None => attempts fuel action p execution
      | Some bytes =>
          let execution := hex_encode bytes in
          do! created_at := look (λ w, now w / 1000000000) in
          do! c := touch (create_at (result_path execution) (json_text (execution_json execution action created_at p) +++ snl)) in
          match c with
          | Taken => attempts fuel action p execution
          | Refused => prepare_failed
          | Created => ret execution
          end
      end
  end.
Definition runner_arguments (action execution : string) : list string :=
  ["--quiet"; "--collect"; "--unit=aegisadmin-certbot-" +++ action +++ "-" +++ execution; "--property=Type=exec"; "--property=User=root";
   "--property=Group=root"; "--property=PrivateTmp=true"; "--property=NoNewPrivileges=true"; "--property=RuntimeMaxSec=930"; "--"; Runner b;
   action; execution].
Definition startAction (action : string) (p : option json) : cmd W data :=
  if negb (existsb (String.eqb action) validActions) then fail 10 "INVALID_CERTBOT_ACTION" "L’action Certbot demandée est invalide."
  else
    do! safe := look (λ w, secureDirectory w (ResultDirectory b)) in
    if negb safe then prepare_failed
    else
      do! execution := attempts 10 action p "" in
      if String.eqb execution "" then prepare_failed
      else
        do! o := run (SystemdRun b) (runner_arguments action execution) in
        if negb (succeeded o) then
          do! _ := remove_file (result_path execution) in
          fail 10 "CERTBOT_ACTION_SCHEDULE_FAILED" "L’exécution Certbot n’a pas pu être programmée."
        else ret [("action", VStr action); ("execution_id", VStr execution); ("result", VStr "scheduled")].

(** ** The result of an action *)

Definition maxResultBytes : Z := 512 * 1024.
Definition maxOutputBytes : Z := 128 * 1024.
Record ActionResult := mkResult {
  ExecutionID : string; Action : string; Status : string; ExitCode : option Z; TimedOut : bool; Truncated : bool; DurationMS : Z;
  Stdout : string; Stderr : string }.
Definition result_fields : list string :=
  ["execution_id"; "action"; "status"; "exit_code"; "timed_out"; "truncated"; "duration_ms"; "stdout"; "stderr"].
Definition decode_result (m : list (string * json)) : option ActionResult :=
  let '(id, ok1) := store_field "execution_id" store_string "" m in
  let '(action, ok2) := store_field "action" store_string "" m in
  let '(status, ok3) := store_field "status" store_string "" m in
  let '(code, ok4) := store_field "exit_code" (store_pointer 0 store_int) None m in
  let '(timed, ok5) := store_field "timed_out" store_bool false m in
  let '(truncated, ok6) := store_field "truncated" store_bool false m in
  let '(duration, ok7) := store_field "duration_ms" store_int 0 m in
  let '(out, ok8) := store_field "stdout" store_string "" m in
  let '(err, ok9) := store_field "stderr" store_string "" m in
  if ok1 && ok2 && ok3 && ok4 && ok5 && ok6 && ok7 && ok8 && ok9
  then Some (mkResult id action status code timed truncated duration out err) else None.
Definition valid_result (id : string) (r : ActionResult) : bool :=
  String.eqb (ExecutionID r) id && existsb (String.eqb (Action r)) validActions &&
  existsb (String.eqb (Status r)) ["running"; "finished"; "failed"] && (0 <=? DurationMS r) && (slen (Stdout r) + slen (Stderr r) <=? maxOutputBytes).
Definition read_result (id content : string) : option ActionResult :=
  match json_parse content with
  | Some (JObj m) =>
      if forallb (λ key, match any_member key m with Some _ => true | None => false end) result_fields then
        match decode_result m with Some r => if valid_result id r then Some r else None | None => None end
      else None
  | _ => None
  end.
Definition expired (r : ActionResult) : ActionResult :=
  mkResult (ExecutionID r) (Action r) "failed" None true false 930000 "" "Le résultat de l’exécution Certbot n’est pas disponible.".
Definition number_value (n : Z) : Value := any_value (JNum (itoa n)).
(** Marshalled, decoded into [any], and marshalled again. *)
Definition result_data (r : ActionResult) : data :=
  [("action", VStr (to_text (Action r))); ("duration_ms", number_value (DurationMS r)); ("execution_id", VStr (to_text (ExecutionID r)));
   ("exit_code", default VNil (number_value <$> ExitCode r)); ("status", VStr (to_text (Status r))); ("stderr", VStr (to_text (Stderr r)));
   ("stdout", VStr (to_text (Stdout r))); ("timed_out", VBool (TimedOut r)); ("truncated", VBool (Truncated r))].
Definition secureRootMode (i : file_info) (directory : bool) : bool :=
  (if directory then is_dir i else is_regular i) && (Z.land (perm i) 63 =? 0) && (uid i =? 0) && (gid i =? 0).
Definition result_failure : Reply := failure 10 "CERTBOT_EXECUTION_READ_FAILED" "Le résultat de l’exécution Certbot n’a pas pu être lu.".
Definition result_missing : Reply := failure 5 "CERTBOT_EXECUTION_NOT_FOUND" "L’exécution Certbot demandée est introuvable.".
Definition execution_timeout : Z := 930 * 1000000000.
Definition action_result (id : string) (w : W) : res Reply data :=
  if negb (full executionPattern id) then Err (failure 2 "INVALID_CERTBOT_EXECUTION_ID" "L’identifiant d’exécution Certbot est invalide.")
  else match Lstat w (ResultDirectory b) with
  | Absent => Err result_missing
  | Unknown => Err result_failure
  | Info directory =>
      if negb (secureRootMode directory true) then Err result_failure
      else match Lstat w (result_path id) with
      | Absent => Err result_missing
      | Unknown => Err result_failure
      | Info i =>
          if negb (secureRootMode i false) || (maxResultBytes <? size i) then Err result_failure
          else match files w !! result_path id with
          | None => Err result_failure
          | Some content =>
              match read_result id content with
              | None => Err result_failure
              | Some r =>
                  Ok (result_data (if String.eqb (Status r) "running" && (execution_timeout <? time_sub (now w) (mtime i)) then expired r else r))
              end
          end
      end
  end.
Definition actionResult (id : string) : cmd W data := consult (action_result id).

(** ** The commands *)

Definition absent_info : data :=
  [("installed", VBool false); ("product", VStr "Certbot"); ("version", VStr ""); ("executable", VStr ""); ("installation", VStr "absent");
   ("package", VNil); ("package_version", VNil); ("plugins", VList [])].
Definition absent_status : data :=
  [("service", VStr "certbot"); ("unit", VStr "certbot.service"); ("timer", VStr "certbot.timer"); ("exists", VBool false);
   ("timer_exists", VBool false); ("timer_active", VBool false); ("timer_enabled", VBool false); ("service_active", VBool false);
   ("service_state", VStr "not-found"); ("last_result", VStr "indisponible"); ("last_exit_code", VInt 0); ("last_trigger", VNil);
   ("next_trigger", VNil)].
Definition absent_certificates : data := [("certificates", VList [])].
Definition reads (command : string) : bool := existsb (String.eqb command) ["info"; "status"; "certificates"].
Definition missing_dependency (label_ : string) : Reply :=
  failure 3 "DEPENDENCY_NOT_FOUND" ("La dépendance " +++ label_ +++ " nécessaire au domaine certbot est introuvable.").
Definition dependencies (command : string) : option Reply :=
  if negb (executable (Certbot b)) then Some (missing_dependency "certbot")
  else if negb (executable (Systemctl b)) then Some (missing_dependency "systemctl")
  else if reads command then None
  else if negb (executable (SystemdRun b)) then Some (missing_dependency "systemd-run")
  else if negb (executable (Runner b)) then Some (missing_dependency "certbot-runner.py")
  else None.
Definition names_certificate (command : string) : bool := existsb (String.eqb command) ["delete"; "reinstall"; "renew-replace"].
Definition first_argument (arguments : list string) : string := default "" (head arguments).
Definition execute (command : string) (arguments : list string) : cmd W data :=
  if String.eqb command "info" then info
  else if String.eqb command "status" then status
  else if String.eqb command "certificates" then certificates
  else if String.eqb command "action-result" then actionResult (first_argument arguments)
  else if String.eqb command "issue" then
    do! p := lift (issueParameters arguments) in startAction command (Some (parameters_json p))
  else if names_certificate command then
    if negb (full certificateActionName (first_argument arguments))
    then fail 2 "INVALID_CERTBOT_CERTIFICATE_NAME" "Le nom du certificat Certbot est invalide."
    else startAction command (Some (name_json (first_argument arguments)))
  else startAction command None.
Definition argument_count_ok (command : string) (arguments : list string) : option bool :=
  if String.eqb command "issue" then Some (Nat.leb 3 (List.length arguments) && Nat.leb (List.length arguments) 22)
  else match find (λ kv, String.eqb kv.1 command) fixedArguments with
  | None => None
  | Some (_, expected) => Some (Nat.eqb (List.length arguments) expected)
  end.
Definition handle (command : string) (arguments : list string) : cmd W data :=
  if String.eqb command "" then fail 2 "MISSING_COMMAND" "Aucune commande n’a été indiquée pour le domaine certbot."
  else match argument_count_ok command arguments with
  | None => fail 4 "COMMAND_NOT_FOUND" "La commande demandée n’existe pas dans le domaine certbot."
  | Some false => fail 2 "INVALID_ARGUMENT_COUNT" "Le nombre d’arguments fourni est invalide."
  | Some true =>
      if negb (executable (Certbot b)) && String.eqb command "info" then ret absent_info
      else if negb (executable (Certbot b)) && String.eqb command "status" then ret absent_status
      else if negb (executable (Certbot b)) && String.eqb command "certificates" then ret absent_certificates
      else match dependencies command with
      | Some r => stop r
      | None => execute command arguments
      end
  end.
Definition Handle (command : string) (arguments : list string) : Machine W → Reply * Machine W := serve (handle command arguments).
End domain.

Example version_group : version_of "certbot  2.11.0" = Some "2.11.0" ∧ version_of "certbot 2" = None.
Proof. vm_compute. done. Qed.
Example serial_text : Text16 1406 = "57e" ∧ Text16 0 = "0" ∧ Text16 (-255) = "-ff".
Proof. vm_compute. done. Qed.
(** A nanosecond before two thousand days counts for the two thousand: the seconds are a float64. *)
Example days : days_of (31 * 86400 * 1000000000) = 31 ∧ days_of (-1) = -1 ∧ days_of (2000 * 86400 * 1000000000 - 1) = 2000.
Proof. vm_compute. done. Qed.
