(* ===== verification/CertbotFacts.v ===== *)
(** * Properties of the certbot domain

    What the domain runs and answers; the execution an action starts is the one
    [action-result] reads; what [issue] accepts. *)

From S2P Require Import Prelude GoStrings StringFacts Regex Time Codec Json JsonParse JsonMore Command Files Units Certbot.
From S2P Require Api Backup.
From Stdlib Require Import Ascii String.
#[local] Open Scope string_scope.
#[local] Open Scope list_scope.
#[local] Open Scope Z_scope.

Import Api(Reply, failure, success, VStr, VInt, VBool, VNum, VList, VMap, VNil, Value).
Import Backup(Join).

Section facts.
Context {W : Type} `{!FileSystem W} `{!CertbotHost W} `{!Programs W} `{!X509} `{!FloatTexts} `{UnicodeCase} (b : Paths).
Notation cmd := (Command.cmd W).

(** ** Replies *)

Lemma refuses_commandFailure {A} z : refuses (commandFailure (W := W) (A := A) z).
Proof. unfold commandFailure, fail, readFailure, read_failure. walk. Qed.
Lemma refuses_prepare_failed {A} : refuses (prepare_failed (W := W) (A := A)).
Proof. unfold prepare_failed, fail. walk. Qed.
Lemma package_of_refusal accepted kind output r : package_of accepted kind output = Err r → refusal r.
Proof. unfold package_of. repeat case_match; try done; intros [= <-]; by apply refusal_failure. Qed.
Lemma refuses_info : refuses (info (W := W) b).
Proof.
  pose proof @refuses_commandFailure. pose proof package_of_refusal. unfold info, inspect, installation, readFailure, read_failure.
  walk; eauto.
Qed.
Lemma status_of_refusal t s r : status_of t s = Err r → refusal r.
Proof. unfold status_of, read_failure. repeat case_match; try done; intros [= <-]; by apply refusal_failure. Qed.
Lemma refuses_status : refuses (status (W := W) b).
Proof. unfold status, properties, readFailure. walk; eauto using status_of_refusal; by apply refusal_failure. Qed.
Lemma refuses_certificates : refuses (certificates (W := W) b).
Proof.
  unfold certificates. apply refuses_bind; [|intros l; walk]. apply refuses_consult. intros w r. unfold read_certificates.
  repeat case_match; try done; intros [= <-]; by apply refusal_failure.
Qed.
Lemma refuses_actionResult id : refuses (actionResult (W := W) b id).
Proof. apply refuses_consult. intros w r. unfold action_result. repeat case_match; try done; intros [= <-]; by apply refusal_failure. Qed.
Lemma refuses_attempts n action p : ∀ e, refuses (attempts (W := W) b n action p e).
Proof. pose proof @refuses_prepare_failed. induction n as [|n IH]; intros e; cbn [attempts]; [walk|]. walk. Qed.
Lemma refuses_startAction action p : refuses (startAction (W := W) b action p).
Proof.
  pose proof @refuses_prepare_failed. pose proof refuses_attempts. unfold startAction, remove_file, fail. walk.
Qed.
Lemma issueParameters_refusal l r : issueParameters l = Err r → refusal r.
Proof. unfold issueParameters. repeat case_match; try done; intros [= <-]; by apply refusal_failure. Qed.
Lemma dependencies_refusal command r : dependencies (W := W) b command = Some r → refusal r.
Proof. unfold dependencies, missing_dependency. repeat case_match; try done; intros [= <-]; by apply refusal_failure. Qed.
Lemma certbot_refuses command arguments : refuses (handle (W := W) b command arguments).
Proof.
  pose proof refuses_info. pose proof refuses_status. pose proof refuses_certificates. pose proof refuses_actionResult.
  pose proof refuses_startAction. pose proof issueParameters_refusal.
  pose proof dependencies_refusal. unfold handle, execute, fail. walk; eauto; by apply refusal_failure.
Qed.
Lemma certbot_reply_ok command arguments (m : Machine W) : Api.reply_ok (Handle b command arguments m).1.
Proof. apply serve_ok, certbot_refuses. Qed.
End facts.

(** ** Programs *)

Section effects.
Context {W : Type} `{!FileSystem W} `{!CertbotHost W} `{!Programs W} `{!X509} `{!FloatTexts} `{UnicodeCase} (b : Paths).

(** What the domain runs to read. *)
Definition reading (name : string) (arguments : list string) : Prop :=
  (name = Certbot b ∧ (arguments = ["--version"] ∨ arguments = ["plugins"])) ∨
  (name = DpkgQuery b ∧ arguments = dpkg_arguments) ∨ (name = RPM b ∧ arguments = rpm_arguments b) ∨
  (name = Systemctl b ∧ (arguments = properties_arguments "certbot.timer" timer_properties ∨
                         arguments = properties_arguments "certbot.service" service_properties)).
Definition hex32 (execution : string) : Prop := full executionPattern execution = true.
(** The start of the runner, apart, on an execution of the action. *)
Definition starting (action name : string) (arguments : list string) : Prop :=
  name = SystemdRun b ∧ action ∈ validActions ∧ ∃ execution, hex32 execution ∧ arguments = runner_arguments b action execution.

Lemma hex32_encode s : String.length s = 16%nat → hex32 (hex_encode s).
Proof.
  intros Hs. apply full_rep. split; [|apply hex_encode_lower]. rewrite hex_encode_length. lia.
Qed.
Lemma hex32_not_empty e : hex32 e → e ≠ "".
Proof. by intros He ->. Qed.

Context (P : string → list string → Prop) (HP : ∀ n a, reading n a → P n a).

Lemma only_commandFailure {A} z : only P (commandFailure (W := W) (A := A) z).
Proof. unfold commandFailure, fail, readFailure. walk. Qed.
Lemma only_info : only P (info (W := W) b).
Proof.
  pose proof @only_commandFailure. unfold info, inspect, installation, readFailure. walk; eauto; apply HP; unfold reading; tauto.
Qed.
Lemma only_status : only P (status (W := W) b).
Proof. unfold status, properties, readFailure. walk; apply HP; unfold reading; tauto. Qed.
Lemma only_attempts n action p : ∀ e, only P (attempts (W := W) b n action p e).
Proof. unfold prepare_failed, fail. induction n as [|n IH]; intros e; cbn [attempts]; unfold prepare_failed, fail; walk. Qed.
Lemma attempts_yields n action p : ∀ e, e = "" ∨ hex32 e → yields (W := W) (λ e, e = "" ∨ hex32 e) (attempts b n action p e).
Proof.
  induction n as [|n IH]; intros e He; cbn [attempts]; [by apply yields_ret|].
  apply (yields_bind (λ o, ∀ s, o = Some s → String.length s = 16%nat)).
  { intros m x m'. unfold touch. destruct (random (inside m)) as [o w] eqn:Hr. intros [= <- <-] s ->. by eapply random_length. }
  intros [s|] Hs; [|by apply IH]. assert (hex32 (hex_encode s)) as Hx by by apply hex32_encode, Hs.
  apply yields_then. intros t. apply yields_then. intros [| |]; [by apply yields_ret; right|by apply IH; right|apply yields_stop].
Qed.
Lemma only_startAction action p : (∀ n a, starting action n a → P n a) → only P (startAction (W := W) b action p).
Proof.
  intros Ha. unfold startAction, prepare_failed, remove_file, fail. destruct (existsb (String.eqb action) validActions) eqn:Hv; cbn [negb]; [|walk].
  apply existsb_exists in Hv as (x & Hx%list_elem_of_In & <-%String.eqb_eq). apply only_bind; [walk|]. intros safe. destruct (negb safe); [walk|].
  eapply only_yields; [apply only_attempts|by apply attempts_yields; left|]. intros e He.
  destruct (String.eqb_spec e "") as [|Hne]; [walk|]. apply only_bind; [apply only_run, Ha|intros o; walk].
  split; [done|]. split; [done|]. destruct He as [|He]; [done|]. eauto.
Qed.
(** A command that reads starts nothing. *)
Lemma certbot_calls command arguments :
  (∀ n a, reads command = false → command ≠ "action-result" → starting command n a → P n a) → only P (handle (W := W) b command arguments).
Proof.
  intros Ha. unfold handle, fail. destruct (command =? "")%string; [walk|]. destruct (argument_count_ok command arguments) as [[]|]; [|walk|walk].
  pose proof only_info. pose proof only_status. case_match; [walk|]. case_match; [walk|]. case_match; [walk|].
  destruct (dependencies (W := W) b command); [walk|]. unfold execute, fail. destruct (String.eqb_spec command "info"); [done|].
  destruct (String.eqb_spec command "status"); [done|]. destruct (String.eqb_spec command "certificates"); [unfold certificates; walk|].
  destruct (String.eqb_spec command "action-result"); [unfold actionResult; walk|].
  assert (reads command = false) as Hr. { unfold reads. cbn [existsb]. by repeat rewrite (proj2 (String.eqb_neq _ _)) by done. }
  assert (∀ p, only P (startAction (W := W) b command p)) by (intros; apply only_startAction; eauto). walk.
Qed.
End effects.

(** C25: what the certbot domain runs, whatever the request, the answers of the programs, the
    files and the random bytes: [certbot --version] and [certbot plugins], the query of the
    package, [systemctl show] of the timer and of the service; and, only for a command that
    acts, [systemd-run] of the runner, with that very action and an identifier of
    thirty-two hexadecimal digits: no address, name or domain of the request is ever part
    of a command line. *)
Theorem certbot_effects {W} `{!FileSystem W} `{!CertbotHost W} `{!Programs W} `{!X509} `{!FloatTexts} `{UnicodeCase}
    (b : Paths) (m : Machine W) command arguments :
  ∃ calls, ran (Handle b command arguments m).2 = ran m ++ calls ∧
    Forall (λ call, reading b call.1.1 call.1.2 ∨
                    (reads command = false ∧ command ≠ "action-result" ∧ starting b command call.1.1 call.1.2)) calls.
Proof.
  apply (only_serve (λ n a, reading b n a ∨ (reads command = false ∧ command ≠ "action-result" ∧ starting b command n a))).
  apply certbot_calls; [by left|]. intros n a Hr Hc Hs. by right.
Qed.

(** ** The execution of an action *)

Lemma serve_success {W} (c : cmd W data) m d m' : refuses c → serve c m = (success d, m') → c m = (Ok d, m').
Proof.
  intros Hc. unfold serve. destruct (c m) as [[d'|r] m1] eqn:E; intros H; [by injection H as -> ->|].
  injection H as -> ->. apply Hc in E as [_ E]. done.
Qed.

(** What the parameters of an action are. *)
Inductive parameters_of : option json → Prop :=
| Without : parameters_of None
| Issue p : parameters_of (Some (parameters_json p))
| Named n : parameters_of (Some (name_json n)).
Definition acting (command : string) : Prop := reads command = false ∧ command ≠ "action-result".
Definition started (action execution : string) : data :=
  [("action", VStr action); ("execution_id", VStr execution); ("result", VStr "scheduled")].
Definition new_result (execution action : string) : ActionResult := mkResult execution action "running" None false false 0 "" "".
Definition execution_text (execution action : string) (t : Z) (p : option json) : string :=
  json_text (execution_json execution action t p) +++ snl.

Lemma json_ok_execution e a t p : parameters_of p → json_ok max_depth (execution_json e a t p) = true.
Proof.
  assert (∃ d, max_depth = S (S (S d))) as [d ->]. { exists (N.to_nat 9997). unfold max_depth. lia. }
  assert (∀ l d, forallb (λ x, json_ok d x) (map JStr l) = true) as Hs.
  { intros l k. apply forallb_forall. by intros x (s & <- & _)%in_map_iff. }
  intros [|p'|n]; cbn [execution_json app json_ok forallb snd parameters_json name_json]; rewrite literal_itoa; [done| |done].
  rewrite Hs. done.
Qed.
Lemma execution_ascii c : is_hex_lower c = true → is_ascii_byte c = true.
Proof.
  unfold is_hex_lower, is_digit, between, is_ascii_byte. intros [H|H]%orb_prop; bool_prop; apply Z.ltb_lt;
    vm_compute (byte "9") in *; vm_compute (byte "f") in *; lia.
Qed.
Lemma to_text_hex e : hex32 e → to_text e = e.
Proof.
  intros He. apply to_text_ascii. apply full_rep in He as [_ He]. eapply sforall_weaken; [|exact He]. exact execution_ascii.
Qed.
Lemma read_result_new e a t p : hex32 e → a ∈ validActions → parameters_of p →
  read_result e (execution_text e a t p) = Some (new_result e a).
Proof.
  intros He Ha Hp. unfold read_result, execution_text. rewrite parse_text_nl by by apply json_ok_execution.
  assert (valid_result e (new_result e a) = true) as Hv.
  { unfold valid_result. cbn [new_result ExecutionID Action Status DurationMS Stdout Stderr]. rewrite String.eqb_refl.
    rewrite (proj2 (existsb_exists _ _)); [done|]. exists a. split; [by apply list_elem_of_In|apply String.eqb_refl]. }
  assert (to_text a = a) as Hta.
  { apply to_text_ascii. assert (Forall (λ a, sforall is_ascii_byte a = true) validActions) as Hf by by repeat constructor.
    by apply (proj1 (Forall_forall _ _) Hf). }
  assert (decode_result (match to_json (execution_json e a t p) with JObj m => m | _ => [] end) = Some (new_result e a)) as Hd.
  { unfold execution_json. inversion Hp; subst; cbn [app map fst snd to_json decode_result]; unfold decode_result; read_fields;
      cbn [store_string store_int store_bool store_pointer]; by rewrite Hta, to_text_hex. }
  unfold execution_json in *. cbn [to_json] in *. rewrite Hd, Hv. inversion Hp; subst; reflexivity.
Qed.

Section executions.
Context {W : Type} `{!FileSystem W} `{!CertbotHost W} `{!Programs W} `{!X509} `{!FloatTexts} `{UnicodeCase} (b : Paths).

(** The file of the execution was there, or has been created. *)
Lemma create_at_cases path content w c w' : create_at path content w = (c, w') →
  (c = Taken ∧ w' = w ∧ is_Some (files w !! path)) ∨ (c = Created ∧ files w' = <[path := content]> (files w)) ∨ c = Refused.
Proof.
  unfold create_at. destruct (files w !! path); [intros [= <- <-]; left; eauto|]. destruct (negb _); [intros [= <- _]; auto|].
  destruct (may_write _ _ _); intros [= <- <-]; [|auto]. right. left. by rewrite files_set.
Qed.
Lemma attempts_spec n action p : ∀ e0 (m : Machine W) e m', attempts b n action p e0 m = (Ok e, m') →
  (e = e0 ∧ files (inside m') = files (inside m)) ∨
  (hex32 e ∧ (is_Some (files (inside m) !! result_path b e) ∨
              ∃ t, files (inside m') !! result_path b e = Some (execution_text e action t p))).
Proof.
  induction n as [|n IH]; intros e0 m e m'; cbn [attempts]; [intros [= <- <-]; by left|].
  rewrite bind_touch. destruct (random (inside m)) as [[s|] w] eqn:Hr; pose proof (random_files (inside m)) as Hf; rewrite Hr in Hf; cbn [fst snd] in *.
  2: { intros Ha%IH. cbn [inside] in Ha. by rewrite Hf in Ha. }
  apply random_length in Hr. rewrite bind_look, bind_touch. cbn [inside ran].
  destruct (create_at _ _ w) as [c w'] eqn:Hc. apply create_at_cases in Hc as [(-> & -> & Hp)|[[-> Hw]| ->]]; cbn [fst snd].
  - rewrite Hf in Hp. intros [[-> Hi]|Hi]%IH; cbn [inside] in *; right; [|by rewrite Hf in Hi].
    split; [by apply hex32_encode|by left].
  - intros [= <- <-]. right. split; [by apply hex32_encode|]. right. eexists. cbn [inside]. rewrite Hw. by rewrite lookup_insert_eq.
  - done.
Qed.

(** The programs leave the result files alone: the runner starts apart. *)
Definition programs_keep_files : Prop := ∀ w name arguments, files (exec w name arguments).1 = files w.

Lemma startAction_spec action p (m : Machine W) d m' : programs_keep_files → startAction b action p m = (Ok d, m') →
  action ∈ validActions ∧ ∃ e, d = started action e ∧ hex32 e ∧
    (is_Some (files (inside m) !! result_path b e) ∨ ∃ t, files (inside m') !! result_path b e = Some (execution_text e action t p)).
Proof.
  intros Hk. unfold startAction. destruct (existsb (String.eqb action) validActions) eqn:Hv; cbn [negb]; [|done].
  apply existsb_exists in Hv as (x & Hx%list_elem_of_In & ->%String.eqb_eq). rewrite bind_look. destruct (negb _); [done|].
  intros (e & m1 & Ha & He)%bind_Ok. split; [done|]. apply attempts_spec in Ha as [[-> _]|[Hh Ha]]; [done|].
  rewrite (proj2 (String.eqb_neq _ _)) in He by by apply hex32_not_empty. apply bind_Ok in He as (o & m2 & Hr & He).
  apply run_inv in Hr as (o' & _ & _ & Hx').
  pose proof (Hk (inside m1) (SystemdRun b) (runner_arguments b x e)) as Hf. rewrite Hx' in Hf.
  destruct (succeeded o); cbn [negb] in He.
  - injection He as <- <-. exists e. split; [done|]. split; [done|]. cbn [fst] in Hf. by rewrite Hf.
  - by apply bind_Ok in He as (? & ? & _ & ?).
Qed.

Lemma handle_acts command arguments (m : Machine W) d m' : acting command → handle b command arguments m = (Ok d, m') →
  dependencies (W := W) b command = None ∧ ∃ p, parameters_of p ∧ startAction b command p m = (Ok d, m').
Proof.
  intros [Hr Ha]. unfold reads in Hr. cbn [existsb] in Hr. apply orb_false_iff in Hr as [E1 Hr]. apply orb_false_iff in Hr as [E2 Hr].
  apply orb_false_iff in Hr as [E3 _]. apply String.eqb_neq in Ha as E4. unfold handle, fail, execute. rewrite E1, E2, E3, E4, !andb_false_r.
  destruct (command =? "")%string; [done|]. destruct (argument_count_ok command arguments) as [[]|]; [|done|done].
  destruct (dependencies (W := W) b command); [done|]. intros Hs. split; [done|]. destruct (command =? "issue")%string.
  { apply bind_Ok in Hs as (p & m1 & Hl & Hs). injection Hl as _ <-. eexists. split; [apply Issue|done]. }
  destruct (names_certificate command); [|eexists; split; [apply Without|done]]. unfold fail in Hs. destruct (negb _); [done|].
  eexists. split; [apply Named|done].
Qed.
Lemma dependencies_action command : reads command = false →
  dependencies (W := W) b command = None → dependencies (W := W) b "action-result" = None.
Proof. unfold dependencies. by intros ->. Qed.
Lemma handle_result id (m : Machine W) : dependencies (W := W) b "action-result" = None →
  handle b "action-result" [id] m = (action_result b id (inside m), m).
Proof.
  intros Hd. unfold handle. change ("action-result" =? "")%string with false. change (argument_count_ok "action-result" [id]) with (Some true).
  change ("action-result" =? "info")%string with false. change ("action-result" =? "status")%string with false.
  change ("action-result" =? "certificates")%string with false. rewrite !andb_false_r, Hd. done.
Qed.
End executions.

(** C19: the execution a command starts is the one [action-result] reads.  When a command that acts is
    answered with an execution of an identifier that no file had, and the programs run leave
    the files alone, then for as long as the file of that execution is as it was left, is
    private to root and small enough, and the runner's time is not over, [action-result] answers that
    this very action is running under this identifier. *)
Theorem started_action_read {W} `{!FileSystem W} `{!CertbotHost W} `{!Programs W} `{!X509} `{!FloatTexts} `{UnicodeCase}
    (b : Paths) (m m' m2 : Machine W) command arguments e directory i :
  programs_keep_files → acting command → Handle b command arguments m = (success (started command e), m') →
  files (inside m) !! result_path b e = None →
  files (inside m2) !! result_path b e = files (inside m') !! result_path b e →
  Lstat (inside m2) (ResultDirectory b) = Info directory → secureRootMode directory true = true →
  Lstat (inside m2) (result_path b e) = Info i → secureRootMode i false = true → size i ≤ maxResultBytes →
  time_sub (now (inside m2)) (mtime i) ≤ execution_timeout →
  Handle b "action-result" [e] m2 = (success (result_data (new_result e command)), m2).
Proof.
  intros Hk Hc Hh Hn Hsame Hd Hds Hi His Hsz Ht. apply serve_success in Hh; [|apply certbot_refuses].
  apply handle_acts in Hh as (Hdep & p & Hp & Hs); [|done]. apply startAction_spec in Hs as (Ha & e' & Hst & He & Hf); [|done].
  injection Hst as <-. destruct Hf as [[c Hf]|[t Hf]]; [by rewrite Hn in Hf|].
  unfold Handle, serve. rewrite handle_result by (eapply dependencies_action; [apply Hc|done]).
  unfold action_result. rewrite (He : full executionPattern e = true), Hd, Hds, Hi, His, Hsame, Hf. cbn [negb orb].
  rewrite (proj2 (Z.ltb_ge _ _)) by done. rewrite read_result_new by done. cbn [new_result Status]. rewrite String.eqb_refl.
  by rewrite (proj2 (Z.ltb_ge _ _)).
Qed.

(** ** A host with one execution *)

Record shelf := mkShelf { s_files : gmap string string; s_cache : option data }.
#[local] Instance shelf_files : FileSystem shelf :=
  {| files := s_files; set_files fs w := mkShelf fs (s_cache w); may_write _ _ _ := true; may_remove _ _ := true; files_set _ _ := eq_refl |}.
Definition sample_bytes : string := "0123456789abcdef".
Definition sample_execution : string := hex_encode sample_bytes.
Definition private_directory : file_info := mkInfo true false 448 0 0 4096 0.
Definition private_file (content : string) : file_info := mkInfo false true 384 0 0 (slen content) 0.
#[local, refine] Instance shelf_certbot : CertbotHost shelf :=
  {| now _ := 0; Stat _ _ := Absent;
     Lstat w path := match s_files w !! path with Some c => Info (private_file c) | None => Info private_directory end;
     EvalSymlinks _ path := Some path; names _ _ := []; secureDirectory _ _ := true; random w := (Some sample_bytes, w);
     opens _ _ := true; partial _ _ _ := ""; infoCache := s_cache; set_infoCache d w := mkShelf (s_files w) (Some d) |}.
Proof. all: try done. by intros w s w' [= <- _]. Defined.
#[local] Instance shelf_programs : Programs shelf := {| exec w _ _ := (w, mkOutcome "" "" 0); executable _ := true |}.
#[local] Instance no_certificates : X509 := {| parse_certificate _ := None |}.
#[local] Instance same_floats : FloatTexts := {| float_literal s := s |}.
#[local] Existing Instance ascii_case.
Definition sample_backend : Paths := NewLinuxBackend (λ _, true).
Definition empty_shelf : Machine shelf := mkMachine (mkShelf ∅ None) [].
Definition renewing : Machine shelf := (Handle sample_backend "renew" [] empty_shelf).2.

Lemma started_action_read_witness :
  Handle sample_backend "action-result" [sample_execution] renewing = (success (result_data (new_result sample_execution "renew")), renewing).
Proof.
  assert (programs_keep_files (W := shelf)) as Hk by done. assert (acting "renew") as Ha by done.
  assert (Handle sample_backend "renew" [] empty_shelf = (success (started "renew" sample_execution), renewing)) as Hs by by vm_compute.
  assert (Lstat (inside renewing) (result_path sample_backend sample_execution) =
          Info (private_file (default "" (s_files (inside renewing) !! result_path sample_backend sample_execution)))) as Hi by by vm_compute.
  refine (started_action_read sample_backend empty_shelf renewing renewing "renew" [] sample_execution private_directory _ Hk Ha Hs _ _ _ _ Hi _ _ _);
    first [reflexivity | by vm_compute].
Defined.

(** When the ten identifiers drawn are taken, the action is started all the same, on the
    execution of another one, whose file stays as it was. *)
Definition taken_shelf : Machine shelf := mkMachine (mkShelf {[ result_path sample_backend sample_execution := "another" ]} None) [].
Example taken_execution_started :
  (Handle sample_backend "renew" [] taken_shelf).1 = success (started "renew" sample_execution) ∧
  inside (Handle sample_backend "renew" [] taken_shelf).2 = inside taken_shelf ∧
  (λ c : call, (c.1.1, c.1.2)) <$> ran (Handle sample_backend "renew" [] taken_shelf).2 =
    [(SystemdRun sample_backend, runner_arguments sample_backend "renew" sample_execution)].
Proof. vm_compute. done. Qed.
(** The local time of a zone is answered as if it were UTC. *)
Example zone_lost : systemdTimestamp "Sat 2026-08-15 12:00:00 CEST" = Some (Some "2026-08-15T12:00:00Z").
Proof. vm_compute. done. Qed.
