(* ===== verification/Floats.v ===== *)
(** * float64

    The binary64 numbers of the code as [SpecFloat] describes them: conversions, the
    decimal literals [strconv.ParseFloat] reads, the roundings of [math].  The text
    [encoding/json] prints for one, and the hexadecimal literals, are parameters. *)

From S2P Require Import Prelude GoStrings StringFacts JsonParse.
From Stdlib Require Import Ascii String.
From Stdlib Require Export SpecFloat.
#[local] Open Scope string_scope.
#[local] Open Scope list_scope.
#[local] Open Scope Z_scope.

Class Floats := {
  format_float : spec_float → string;              (** the shortest text that reads back *)
  hex_float : string → option spec_float;          (** a literal that starts with [0x], its sign before it *)
}.

Definition fadd : spec_float → spec_float → spec_float := SFadd 53 1024.
Definition fmul : spec_float → spec_float → spec_float := SFmul 53 1024.
Definition fdiv : spec_float → spec_float → spec_float := SFdiv 53 1024.
(** The nearest to an integer. *)
Definition float64 (n : Z) : spec_float := binary_normalize 53 1024 n 0 false.
(** The nearest to a quotient of positive numbers: more bits than those of the mantissa, the
    last one set when something is left. *)
Definition nearest (n : Z) (d : positive) : spec_float :=
  let s := Z.max 0 (66 + Z.log2 (Zpos d) - Z.log2 n) in
  let (q, r) := Z.div_eucl (n * 2 ^ s) (Zpos d) in
  binary_normalize 53 1024 (2 * q + (if r =? 0 then 0 else 1)) (- (s + 1)) false.
Definition is_finite (f : spec_float) : bool := match f with S754_zero _ | S754_finite _ _ _ => true | _ => false end.
Definition is_infinite (f : spec_float) : bool := match f with S754_infinity _ => true | _ => false end.

(** ** [math] *)

Definition mantissa (s : bool) (m : positive) : Z := if s then Zneg m else Zpos m.
(** [math.Floor], as an integer. *)
Definition floor_of (f : spec_float) : Z :=
  match f with
  | S754_finite s m e => if 0 <=? e then mantissa s m * 2 ^ e else mantissa s m / 2 ^ (- e)
  | _ => 0
  end.
(** [math.Round]: half away from zero. *)
Definition round_away (f : spec_float) : spec_float :=
  match f with
  | S754_finite s m e =>
      if 0 <=? e then f
      else let q := (Zpos m + 2 ^ (- e - 1)) / 2 ^ (- e) in
           if q =? 0 then S754_zero s else float64 (if s then - q else q)
  | _ => f
  end.

(** ** [strconv.ParseFloat] *)

(** The digits of a mantissa and its power of ten, and the text after them. *)
Definition mantissa_digits (s : string) : string * Z * string :=
  let (int, r) := take_digits s in
  match r with
  | String "." r' => let (frac, r'') := take_digits r' in (int +++ frac, - slen frac, r'')
  | _ => (int, 0, r)
  end.
Definition exponent_of (s : string) : option Z :=
  match s with
  | "" => Some 0
  | String c r =>
      if Ascii.eqb c "e" || Ascii.eqb c "E" then
        let (negative, digits) := split_sign r in
        if digits_only digits then Some (let e := digits_value 0 digits in if negative then - e else e) else None
      else None
  end.
(** A number of that many digits before its point is out of range, or nothing. *)
Definition decimal_float (negative : bool) (m e : Z) : option spec_float :=
  let sign f := if negative then SFopp f else f in
  let n := slen (itoa m) + e in
  if m =? 0 then Some (sign (S754_zero false))
  else if 400 <? n then None
  else if n <? -400 then Some (sign (S754_zero false))
  else let f := if 0 <=? e then float64 (m * 10 ^ e) else nearest m (Z.to_pos (10 ^ (- e))) in
       if is_infinite f then None else Some (sign f).
Definition ParseFloat `{!Floats} (s : string) : option spec_float :=
  let (negative, r) := split_sign s in
  let word := smap ascii_lower r in
  if String.eqb word "inf" || String.eqb word "infinity" then Some (S754_infinity negative)
  else if String.eqb word "nan" then (if String.eqb r s then Some S754_nan else None)
  else if has_prefix word "0x" then hex_float s
  else
    let '(digits, scale, r) := mantissa_digits r in
    if String.eqb digits "" then None
    else match exponent_of r with
    | None => None
    | Some e => decimal_float negative (digits_value 0 digits) (e + scale)
    end.

#[local] Instance no_hex : Floats := {| format_float _ := ""; hex_float _ := None |}.
Example parsed : ParseFloat "0.1" = Some (fdiv (float64 1) (float64 10)) ∧ ParseFloat "1e309" = None ∧
  ParseFloat "-2.5e1" = Some (float64 (-25)) ∧ ParseFloat "." = None ∧ ParseFloat "1_0" = None.
Proof. vm_compute. done. Qed.
Example rounded : round_away (fdiv (float64 5) (float64 2)) = float64 3 ∧ round_away (fdiv (float64 (-5)) (float64 2)) = float64 (-3) ∧
  floor_of (fdiv (float64 (-1)) (float64 2)) = -1.
Proof. vm_compute. done. Qed.
(** Ties go to the even mantissa: 2^53 + 1 is as far from its neighbours. *)
Example tie : ParseFloat "9007199254740993" = Some (float64 9007199254740992) ∧
  ParseFloat "9007199254740993.0000000000000001" = Some (float64 9007199254740994).
Proof. vm_compute. done. Qed.

(** ** [strconv.FormatFloat(f, 'f', prec, 64)] *)

(** A quotient of a natural number by a power of two, to the nearest, ties to the even one. *)
Definition half_even (n d : Z) : Z :=
  let (q, r) := Z.div_eucl n d in
  if 2 * r <? d then q else if d <? 2 * r then q + 1 else if Z.even q then q else q + 1.
Definition fixed_digits (m : positive) (e : Z) (prec : nat) : Z :=
  let n := Zpos m * 10 ^ Z.of_nat prec in if 0 <=? e then n * 2 ^ e else half_even n (2 ^ (- e)).
(** A fraction with its zeros. *)
Fixpoint zeros (n : nat) : string := match n with O => "" | S n => String "0" (zeros n) end.
Definition padded (n : nat) (s : string) : string := zeros (n - String.length s) +++ s.
Definition fixed_text (prec : nat) (n : Z) : string :=
  let unit := 10 ^ Z.of_nat prec in
  itoa (n / unit) +++ match prec with O => "" | _ => "." +++ padded prec (itoa (n mod unit)) end.
Definition FormatFixed (prec : nat) (f : spec_float) : string :=
  match f with
  | S754_nan => "NaN"
  | S754_infinity s => if s then "-Inf" else "+Inf"
  | S754_zero s => (if s then "-" else "") +++ fixed_text prec 0
  | S754_finite s m e => (if s then "-" else "") +++ fixed_text prec (fixed_digits m e prec)
  end.
(** The conversion to [int64]: the fraction is dropped; out of range, what amd64 gives. *)
Definition trunc_of (f : spec_float) : Z :=
  match f with S754_finite true m e => - floor_of (S754_finite false m e) | _ => floor_of f end.
Definition to_int64 (f : spec_float) : Z :=
  if is_finite f then let z := trunc_of f in if (int_min <=? z) && (z <=? int_max) then z else int_min else int_min.
Example fixed : FormatFixed 1 (fdiv (float64 1) (float64 4)) = "0.2" ∧ FormatFixed 1 (fdiv (float64 (-5)) (float64 4)) = "-1.2" ∧
  FormatFixed 2 (float64 3) = "3.00" ∧ FormatFixed 0 (fdiv (float64 7) (float64 2)) = "4" ∧ trunc_of (fdiv (float64 (-7)) (float64 2)) = -3.
Proof. vm_compute. done. Qed.
