(* ===== verification/System.v ===== *)
(** * The system domain: [domain/system]

    The readings of [/proc], [/sys] and [/etc/os-release] as JSON data, the sampler of the
    load of the processors, and the list of processes with a description of each.  The
    files, [ps], [systemctl] and [dpkg-query] are parameters; the floats are those of
    [Floats]. *)

From S2P Require Import Prelude GoStrings StringFacts JsonParse Command Files Units Floats.
From S2P Require Api Backup.
From Stdlib Require Import Ascii String.
#[local] Open Scope string_scope.
#[local] Open Scope list_scope.
#[local] Open Scope Z_scope.

Import Api(Reply, failure, success, VStr, VInt, VBool, VNum, VList, VMap, VNil, Value).
Import Backup(Join, IsAbs).

Definition processLimit : Z := 500.
Definition psCommand : string := "/usr/bin/ps".
Definition dpkgQueryCommand : string := "/usr/bin/dpkg-query".
Definition data := list (string * Value).

Definition safeText (value fallback : string) : string := let v := trim_space value in if String.eqb v "" then fallback else v.
(** [strings.EqualFold] with a text in lower case. *)
Definition EqualFold (s lower : string) : bool := same_key s lower.

(** ** Numbers *)

Definition flt (a b : spec_float) : bool := SFltb a b.
Definition roundOne (value : spec_float) : spec_float := fdiv (round_away (fmul value (float64 10))) (float64 10).
Definition clamp (value minimum maximum : Z) : Z := if value <? minimum then minimum else if maximum <? value then maximum else value.
Definition clamp_float (value minimum maximum : spec_float) : spec_float :=
  if flt value minimum then minimum else if flt maximum value then maximum else value.
Definition parseNonNegativeFloat `{!Floats} (raw : string) : option spec_float :=
  match ParseFloat raw with
  | Some v => if flt v (float64 0) || negb (is_finite v) then None else Some (roundOne v)
  | None => None
  end.
Definition parseNonNegativeInt (raw : string) : option Z :=
  match atoi raw with Some v => if v <? 0 then None else Some v | None => None end.

(** ** The load of the processors *)

Record cpuTimes := mkTimes { total : Z; idle : Z }.
(** A token [fmt.Fscan] reads as an unsigned integer: decimal; another base has a prefix, and
    a digit after a zero is one of base eight. *)
Class Scanner := { prefixed_uint : string → option (Z * string) }.
Definition prefixed (digits rest : string) : bool :=
  match digits, rest with
  | String "0" (String _ _), _ => true
  | String "0" "", String c _ => contains_byte c "bBoOxX_"
  | _, String "_" _ => true
  | _, _ => false
  end.
Definition scan_uint `{!Scanner} (s : string) : option (Z * string) :=
  let s := trim_left_space s in
  let (digits, rest) := take_digits s in
  if prefixed digits rest then prefixed_uint s
  else if String.eqb digits "" then None
  else let n := digits_value 0 digits in if n <? 2 ^ 64 then Some (n, rest) else None.
Fixpoint scan_uints `{!Scanner} (n : nat) (s : string) : option (list Z) :=
  match n with
  | O => Some []
  | S n => match scan_uint s with
           | Some (v, r) => match scan_uints n r with Some l => Some (v :: l) | None => None end
           | None => None
           end
  end.
(** The first word of a text, white space before it left out, and what follows it. *)
Fixpoint word_end (skip : nat) (s : string) : string * string :=
  match s with
  | EmptyString => ("", "")
  | String c s' =>
      match skip with
      | S k => let (w, r) := word_end k s' in (String c w, r)
      | O => if (0 <? space_width s)%nat then ("", s) else let (w, r) := word_end (pred (rune_width s)) s' in (String c w, r)
      end
  end.
Definition parse_cpu_times `{!Scanner} (content : string) : option cpuTimes :=
  let (label, rest) := word_end 0 (trim_left_space content) in
  match scan_uints 8 rest with
  | Some [user; nice; system; idle; iowait; irq; softirq; steal] =>
      if String.eqb label "cpu" then
        Some (mkTimes (wrapu64 (user + nice + system + idle + iowait + irq + softirq + steal)) (wrapu64 (idle + iowait)))
      else None
  | _ => None
  end.
Definition cpuUsageBetween (first second : cpuTimes) : spec_float :=
  if total second <=? total first then float64 0
  else
    let totalDelta := total second - total first in
    let idleDelta := wrapu64 (idle second - idle first) in
    let busyDelta := if idleDelta <? totalDelta then totalDelta - idleDelta else 0 in
    roundOne (clamp_float (fmul (fdiv (float64 busyDelta) (float64 totalDelta)) (float64 100)) (float64 0) (float64 100)).

(** The sampler; [s_failed] stands for the error. *)
Record cpuSampler := mkSampler { previous : cpuTimes; hasValue : bool; usage : spec_float; s_failed : bool }.
Definition zero_sampler : cpuSampler := mkSampler (mkTimes 0 0) false (S754_zero false) true.
(** [sample], with what was read. *)
Definition sample (next : option cpuTimes) (s : cpuSampler) : cpuSampler :=
  match next with
  | None => mkSampler (previous s) (hasValue s) (usage s) true
  | Some t =>
      if hasValue s then mkSampler t true (cpuUsageBetween (previous s) t) false
      else mkSampler t true (usage s) (s_failed s)
  end.
(** [newCPUSampler]: the second reading is made unless the daemon stops first. *)
Definition newCPUSampler (first : option cpuTimes) (second : option (option cpuTimes)) : cpuSampler :=
  match first with
  | None => zero_sampler
  | Some t => let s := mkSampler t true (S754_zero false) true in
              match second with Some next => sample next s | None => s end
  end.
Definition sampler_value (s : cpuSampler) : option spec_float := if s_failed s then None else Some (usage s).

(** ** The files *)

Definition no_model : string := "Processeur non renseigné".
Section texts.
Context `{!Floats} `{UnicodeCase}.

Definition model_line (values : gmap string string) (line : string) : gmap string string :=
  match cut ":" line with
  | (key, value, true) =>
      let key := to_lower (trim_space key) in
      let value := trim_space value in
      if existsb (String.eqb key) ["model name"; "hardware"; "processor"] && negb (String.eqb value "") then
        match atoi value with
        | Some _ => values
        | None => match values !! key with Some _ => values | None => <[key := value]> values end
        end
      else values
  | _ => values
  end.
Definition readCPUModel (content : option string) : string :=
  match content with
  | None => no_model
  | Some text =>
      let values := fold_left model_line (scan_lines text).1 ∅ in
      match omap (λ key, values !! key) ["model name"; "hardware"; "processor"] with v :: _ => v | [] => no_model end
  end.

Definition memory_line (values : gmap string Z) (line : string) : gmap string Z :=
  match cut ":" line with
  | (key, raw, true) =>
      match fields raw with
      | field :: _ => match atoi field with Some v => <[key := wrap64 (v * 1024)]> values | None => values end
      | [] => values
      end
  | _ => values
  end.
Record memory := mkMemory { total_bytes : Z; used_bytes : Z; available_bytes : Z; cached_bytes : Z; percent : spec_float }.
Definition memory_of (values : gmap string Z) : memory :=
  let v key := default 0 (values !! key) in
  let total := Z.max (v "MemTotal") 0 in
  let available := default (wrap64 (v "MemFree" + v "Buffers" + v "Cached")) (values !! "MemAvailable") in
  let available := clamp available 0 total in
  let used := Z.max (total - available) 0 in
  let cached := clamp (wrap64 (v "Buffers" + v "Cached" + v "SReclaimable" - v "Shmem")) 0 total in
  mkMemory total used available cached
    (if 0 <? total then roundOne (fmul (fdiv (float64 used) (float64 total)) (float64 100)) else float64 0).
Definition readMemory (content : option string) : option memory :=
  match content with
  | None => None
  | Some text => let (lines, whole) := scan_lines text in
                 if whole : bool then Some (memory_of (fold_left memory_line lines ∅)) else None
  end.

(** The conversion of a float to [int64], on amd64: out of range, the least one. *)
Definition int64_of (z : Z) : Z := if (int_min <=? z) && (z <=? int_max) then z else int_min.
Definition readUptime (content : option string) : option Z :=
  match content with
  | None => None
  | Some text =>
      match fields text with
      | field :: _ => match ParseFloat field with
                      | Some v => if negb (is_finite v) then None else Some (Z.max (int64_of (floor_of v)) 0)
                      | None => None
                      end
      | [] => None
      end
  end.
Definition load_value (raw : string) : option spec_float :=
  match ParseFloat raw with
  | Some v => if flt v (float64 0) || negb (is_finite v) then None
              else Some (fdiv (round_away (fmul v (float64 100))) (float64 100))
  | None => None
  end.
Definition readLoadAverage (content : option string) : option (list spec_float) :=
  match content with
  | None => None
  | Some text => match fields text with
                 | a :: b :: c :: _ => mapM load_value [a; b; c]
                 | _ => None
                 end
  end.
End texts.

(** ** [strconv.Unquote] *)

Definition octal (c : ascii) : option Z := if (48 <=? byte c) && (byte c <=? 55) then Some (byte c - 48) else None.
Fixpoint hex_value (n : nat) (acc : Z) (s : string) : option (Z * string) :=
  match n, s with
  | O, _ => Some (acc, s)
  | S n, String c s => match hex_digit c with Some d => hex_value n (acc * 16 + d) s | None => None end
  | _, _ => None
  end.
Definition valid_rune (r : Z) : bool := ((0 <=? r) && (r <? 55296)) || ((57343 <? r) && (r <=? 1114111)).
Definition control (c : ascii) : option ascii :=
  match c with
  | "a" => Some (chr 7) | "b" => Some (chr 8) | "f" => Some (chr 12) | "n" => Some nl | "r" => Some cr
  | "t" => Some (chr 9) | "v" => Some (chr 11) | "\" => Some "\"%char | _ => None
  end%char.
(** What a backslash and the text after it stand for. *)
Definition escaped (quote : ascii) (s : string) : option (string * string) :=
  match s with
  | EmptyString => None
  | String c r =>
      match control c with
      | Some d => Some (String d "", r)
      | None =>
          if Ascii.eqb c "x" then match hex_value 2 0 r with Some (v, r) => Some (String (chr v) "", r) | None => None end
          else if Ascii.eqb c "u" || Ascii.eqb c "U" then
            match hex_value (if Ascii.eqb c "u" then 4 else 8) 0 r with
            | Some (v, r) => if valid_rune v then Some (rune_text v, r) else None
            | None => None
            end
          else if Ascii.eqb c "'" || Ascii.eqb c quote_char then (if Ascii.eqb c quote then Some (String c "", r) else None)
          else match octal c, r with
          | Some x, String d (String e r) =>
              match octal d, octal e with
              | Some y, Some z => let v := x * 64 + y * 8 + z in if v <? 256 then Some (String (chr v) "", r) else None
              | _, _ => None
              end
          | _, _ => None
          end
      end
  end.
(** One character of a quoted text. *)
Definition unquote_char (quote : ascii) (s : string) : option (string * string) :=
  match s with
  | EmptyString => None
  | String c r =>
      if Ascii.eqb c "\" then escaped quote r
      else if is_ascii_byte c then Some (String c "", r)
      else match rune_width s with O => Some (replacement_rune, r) | w => Some (stake w s, sdrop w s) end
  end.
Fixpoint unquote_double (fuel : nat) (s : string) : option (string * string) :=
  match fuel, s with
  | S fuel, String c r =>
      if Ascii.eqb c quote_char then Some ("", r)
      else if Ascii.eqb c nl then None
      else match unquote_char quote_char s with
      | Some (t, r) => match unquote_double fuel r with Some (u, r) => Some (t +++ u, r) | None => None end
      | None => None
      end
  | _, _ => None
  end.
Fixpoint without_cr (s : string) : string :=
  match s with EmptyString => "" | String c s => if Ascii.eqb c cr then without_cr s else String c (without_cr s) end.
Definition Unquote (s : string) : option string :=
  match s with
  | String c r =>
      if Ascii.eqb c "`" then
        match cut "`" r with (text, "", true) => Some (without_cr text) | _ => None end
      else if Ascii.eqb c quote_char then
        match unquote_double (S (String.length r)) r with Some (text, "") => Some text | _ => None end
      else if Ascii.eqb c "'" then
        match r with
        | String d _ => if Ascii.eqb d "'" || Ascii.eqb d nl then None
                        else match unquote_char "'" r with Some (text, "'") => Some text | _ => None end
        | EmptyString => None
        end
      else None
  | EmptyString => None
  end.

(** ** Descriptions *)

(** The first [n] code points, an invalid byte as U+FFFD. *)
Fixpoint take_runes (n skip : nat) (s : string) : string :=
  match s with
  | EmptyString => ""
  | String c s' =>
      match skip with
      | S k => String c (take_runes n k s')
      | O => match n with
             | O => ""
             | S n => match rune_width s with O => replacement_rune +++ take_runes n 0 s' | S k => String c (take_runes n k s') end
             end
      end
  end.
Definition safeDescription (value : string) : string :=
  let value := join " " (fields value) in if 240 <? rune_count value then take_runes 240 0 value else value.
Definition validSystemdUnit (value : string) : bool :=
  negb (String.eqb value "") && (slen value <=? 256) &&
  sforall (λ c, is_lower c || is_upper c || is_digit c || contains_byte c "_.@:-\x") value.
Definition unit_component (component : string) : bool := has_suffix component ".service" && validSystemdUnit component.
Definition readProcessUnit (content : option string) : string :=
  match content with
  | None => ""
  | Some text => default "" (head (List.filter unit_component (mjoin (split "/" <$> split nl text))))
  end.
(** [strings.Split(s, "\n\n")] *)
Fixpoint split_blocks (cur s : string) : list string :=
  match s with
  | EmptyString => [cur]
  | String c s' =>
      match s' with
      | String d s'' => if Ascii.eqb c nl && Ascii.eqb d nl then cur :: split_blocks "" s'' else split_blocks (cur +++ String c "") s'
      | EmptyString => [cur +++ String c ""]
      end
  end.
Definition block_properties (block : string) : gmap string string :=
  fold_left (λ properties line, match cut "=" line with (key, value, true) => <[key := trim_space value]> properties | _ => properties end)
    (split nl block) ∅.
Definition described (result : gmap string string) (block : string) : gmap string string :=
  let properties := block_properties block in
  let id := default "" (properties !! "Id") in
  let description := safeDescription (default "" (properties !! "Description")) in
  if String.eqb id "" || String.eqb description "" then result else <[id := description]> result.
Definition parseSystemdDescriptions (output : string) : gmap string string :=
  fold_left described (split_blocks "" (trim_space output)) ∅.
(** The text before the last colon followed by a space, and after it. *)
Fixpoint cut_last (s : string) : option (string * string) :=
  match s with
  | EmptyString => None
  | String c s' =>
      match cut_last s' with
      | Some (a, b) => Some (String c a, b)
      | None => if has_prefix s ": " then Some ("", sdrop 2 s) else None
      end
  end.
Definition owner_line (result : gmap string string) (line : string) : gmap string string :=
  match cut_last line with
  | Some (String _ _ as names, path) =>
      let packageName := trim_space (before "," names) in
      let executable := trim_space path in
      if negb (String.eqb packageName "") && IsAbs executable then <[executable := packageName]> result else result
  | _ => result
  end.
Definition summary_line (result : gmap string string) (line : string) : gmap string string :=
  match cut "009" line with
  | (packageName, description, true) =>
      if negb (String.eqb (trim_space packageName) "") then <[trim_space packageName := safeDescription description]> result else result
  | _ => result
  end.
Definition knownDescriptions : list (string * string) :=
  [("apache2", "Serveur web Apache et traitement de ses connexions."); ("cron", "Planification et lancement des tâches périodiques.");
   ("fail2ban-server", "Surveillance des journaux et bannissement des adresses malveillantes."); ("mariadbd", "Serveur de bases de données MariaDB.");
   ("mysqld", "Serveur de bases de données MySQL."); ("nginx", "Serveur web et proxy inverse Nginx."); ("postgres", "Serveur de bases de données PostgreSQL.");
   ("redis-server", "Serveur de cache et de données Redis."); ("sshd", "Serveur d’accès distant sécurisé SSH.");
   ("tor", "Routage des connexions et services cachés via le réseau Tor.")].
Definition knownPrefixes : list (string * string) :=
  [("aegisadmin-", "Composant interne d’AegisAdmin."); ("php-fpm", "Exécute les applications PHP pour le serveur web.");
   ("php8.", "Exécute les applications PHP pour le serveur web.")].
(** No name has two of the prefixes: the order of the map does not matter. *)
Definition knownProcessDescription `{UnicodeCase} (name : string) : string :=
  let normalized := to_lower (trim_space name) in
  match find (λ kv, String.eqb kv.1 normalized) knownDescriptions with
  | Some (_, description) => description
  | None => match find (λ kv, has_prefix normalized kv.1) knownPrefixes with Some (_, description) => description | None => "" end
  end.

(** ** Processes *)

Record process := mkProcess {
  PID : Z; User : string; State : string; CPUPercent : spec_float; MemoryPercent : spec_float; MemoryBytes : Z; ElapsedSeconds : Z;
  Name : string; Description : string }.
(** One line: an error, nothing, or a process. *)
Definition process_line `{!Floats} (own : Z) (line : string) : option (option process) :=
  match fields line with
  | [pid; user; state; cpu; memory; rss; elapsed; name] =>
      match atoi pid with
      | None => None
      | Some pid =>
          if (pid <? 1) || (pid =? own) then Some None
          else match parseNonNegativeFloat cpu, parseNonNegativeFloat memory, parseNonNegativeInt rss, parseNonNegativeInt elapsed with
          | Some cpu, Some memory, Some rss, Some elapsed =>
              Some (Some (mkProcess pid (safeText user "inconnu") state cpu memory (wrap64 (rss * 1024)) elapsed (safeText name "Processus inconnu") ""))
          | _, _, _, _ => None
          end
      end
  | _ => Some None
  end.
(** [less] of the sort: the load, the memory, then the identifier. *)
Definition process_before (a b : process) : bool :=
  if negb (SFeqb (CPUPercent a) (CPUPercent b)) then flt (CPUPercent b) (CPUPercent a)
  else if negb (SFeqb (MemoryPercent a) (MemoryPercent b)) then flt (MemoryPercent b) (MemoryPercent a)
  else PID a <? PID b.
Definition process_le (a b : process) : Prop := process_before b a = false.
#[global] Instance process_le_dec a b : Decision (process_le a b).
Proof. unfold process_le. apply _. Defined.
Definition parseProcesses `{!Floats} (output : string) (own : Z) : option (list process) :=
  let (lines, whole) := scan_lines output in
  match mapM (process_line own) lines with
  | Some found => if whole : bool then Some (merge_sort process_le (omap id found)) else None
  | None => None
  end.

(** ** The temperature *)

Record temperatureCandidate := mkCandidate { priority : Z; path : string; sensor : string; celsius : spec_float }.
Definition addTemperature (candidates : list temperatureCandidate) (priority : Z) (path sensor raw : string) : list temperatureCandidate :=
  match atoi raw with
  | Some value => if (value <? -50000) || (200000 <? value) then candidates
                  else candidates ++ [mkCandidate priority path sensor (roundOne (fdiv (float64 value) (float64 1000)))]
  | None => candidates
  end.
Definition candidate_before (a b : temperatureCandidate) : bool :=
  if negb (priority a =? priority b) then priority a <? priority b
  else if priority a =? 3 then flt (celsius b) (celsius a)
  else str_ltb (path a) (path b).
Definition candidate_le (a b : temperatureCandidate) : Prop := candidate_before b a = false.
#[global] Instance candidate_le_dec a b : Decision (candidate_le a b).
Proof. unfold candidate_le. apply _. Defined.
Section labels.
Context `{UnicodeCase}.
Definition isCPUHwmon (name : string) : bool := existsb (String.eqb (to_lower name)) ["coretemp"; "k10temp"; "zenpower"].
Definition isCPUTemperatureLabel (label : string) : bool := existsb (String.eqb (to_lower label)) ["tctl"; "tdie"; "cpu"].
Definition input_priority (name label : string) : Z :=
  if EqualFold label "package id 0" then 0
  else if isCPUHwmon name && isCPUTemperatureLabel label then 2
  else if EqualFold name "coretemp" && has_prefix (to_lower label) "core " then 3 else -1.
End labels.

(** ** The host *)

(** A file that does not exist is told from one that cannot be read. *)
Inductive reading := Content (text : string) | NotExist | Unreadable.
Class SystemHost (W : Type) := {
  read : W → string → reading;
  Hostname : W → option string;
  uname : W → option (string * string);
  NumCPU : Z;
  ReadDir : W → string → option (list string);
  Readlink : W → string → option string;
  Glob : W → string → list string;
  Getpid : Z;
  backendVersion : string;
  sampler : W → option cpuSampler;         (** [None] for a collector without one *)
  pause : W → option W;                    (** two hundred milliseconds, or the request is cancelled *)
}.

Section domain.
Context {W : Type} `{!Programs W} `{!SystemHost W} `{!Scanner} `{!Floats} `{UnicodeCase}.
Implicit Types (w : W).

Definition contents w (path : string) : option string := match read w path with Content text => Some text | _ => None end.
Definition readTrimmed w (path : string) : string := match contents w path with Some text => trim_space text | None => "" end.
Definition release_line (values : gmap string string) (raw : string) : gmap string string :=
  let line := trim_space raw in
  if String.eqb line "" || has_prefix line "#" then values
  else match cut "=" line with
  | (key, value, true) =>
      let value := trim_space value in <[to_upper (trim_space key) := default value (Unquote value)]> values
  | _ => values
  end.
(** No file is no value; a line too long, or a file that cannot be read, is an error. *)
Definition readOSRelease (r : reading) : option (gmap string string) :=
  match r with
  | NotExist => Some ∅
  | Unreadable => None
  | Content text => let (lines, whole) := scan_lines text in if whole : bool then Some (fold_left release_line lines ∅) else None
  end.
Definition countProcesses (names : option (list string)) : option Z :=
  (λ l, Z.of_nat (List.length (List.filter (λ n, match atoi n with Some _ => true | None => false end) l))) <$> names.

Definition input_candidate w (candidates : list temperatureCandidate) (input : string) : list temperatureCandidate :=
  let label := readTrimmed w (trim_suffix input "_input" +++ "_label") in
  let name := readTrimmed w (Join (Dir input) "name") in
  let p := input_priority name label in
  if 0 <=? p then addTemperature candidates p input (safeText label (safeText name "CPU")) (readTrimmed w input) else candidates.
Definition zone_candidate w (candidates : list temperatureCandidate) (zone : string) : list temperatureCandidate :=
  let sensor := readTrimmed w (Join zone "type") in
  if EqualFold sensor "x86_pkg_temp" then addTemperature candidates 1 (Join zone "temp") sensor (readTrimmed w (Join zone "temp")) else candidates.
Definition float_value (f : spec_float) : Value := VNum (format_float f).
(** Two cores at the same temperature: the first read, as the sort of a short slice leaves them. *)
Definition readTemperature w : data :=
  let candidates := fold_left (input_candidate w) (sort_strings (Glob w "/sys/class/hwmon/hwmon*/temp*_input")) [] in
  let candidates := fold_left (zone_candidate w) (sort_strings (Glob w "/sys/class/thermal/thermal_zone*")) candidates in
  match merge_sort candidate_le candidates with
  | [] => [("available", VBool false); ("celsius", VNil); ("sensor", VStr "")]
  | c :: _ => [("available", VBool true); ("celsius", float_value (celsius c)); ("sensor", VStr (sensor c))]
  end.

Definition stat_times w : option cpuTimes := match contents w "/proc/stat" with Some text => parse_cpu_times text | None => None end.
Definition readCPUUsage : cmd W (option spec_float) :=
  do! first := look stat_times in
  match first with
  | None => ret None
  | Some first =>
      do! waited := touch (λ w, match pause w with Some w' => (true, w') | None => (false, w) end) in
      if waited : bool then
        do! second := look stat_times in ret ((λ t, cpuUsageBetween first t) <$> second)
      else ret None
  end.
Definition cpuUsage : cmd W (option spec_float) :=
  do! s := look sampler in match s with Some s => ret (sampler_value s) | None => readCPUUsage end.

(** A reading that must succeed. *)
Definition required {A} (failed : Reply) (x : option A) : cmd W A := match x with Some x => ret x | None => stop failed end.
Definition info_failed : Reply := failure 3 "SYSTEM_INFO_READ_FAILED" "Les informations générales du système n’ont pas pu être lues.".
Definition processes_failed : Reply := failure 3 "SYSTEM_PROCESSES_READ_FAILED" "La liste des processus du système n’a pas pu être lue.".
Definition memory_data (m : memory) : data :=
  [("total_bytes", VInt (total_bytes m)); ("used_bytes", VInt (used_bytes m)); ("available_bytes", VInt (available_bytes m));
   ("cached_bytes", VInt (cached_bytes m)); ("percent", float_value (percent m))].
Definition host_data (osRelease : gmap string string) (hostname kernel architecture : string) (uptime : Z) : data :=
  let r key := default "" (osRelease !! key) in
  let distribution := safeText (r "NAME") "Linux" in
  let version := safeText (r "VERSION") (r "VERSION_ID") in
  [("hostname", VStr hostname); ("operating_system", VStr "Linux"); ("distribution", VStr distribution);
   ("distribution_id", VStr (safeText (r "ID") "")); ("version", VStr version); ("version_id", VStr (safeText (r "VERSION_ID") ""));
   ("pretty_name", VStr (safeText (r "PRETTY_NAME") (trim_space (distribution +++ " " +++ version)))); ("kernel", VStr kernel);
   ("architecture", VStr architecture); ("uptime_seconds", VInt uptime)].
Definition Info : cmd W data :=
  do! release := look (λ w, readOSRelease (read w "/etc/os-release")) in
  do! osRelease := required info_failed release in
  do! hostname := look Hostname in
  do! hostname := required info_failed hostname in
  do! names := look uname in
  do! names := required info_failed names in
  do! uptime := look (λ w, readUptime (contents w "/proc/uptime")) in
  do! uptime := required info_failed uptime in
  do! loads := look (λ w, readLoadAverage (contents w "/proc/loadavg")) in
  do! loads := required info_failed loads in
  do! model := look (λ w, readCPUModel (contents w "/proc/cpuinfo")) in
  do! usage := cpuUsage in
  do! usage := required info_failed usage in
  do! memory := look (λ w, readMemory (contents w "/proc/meminfo")) in
  do! memory := required info_failed memory in
  do! total := look (λ w, countProcesses (ReadDir w "/proc")) in
  do! total := required info_failed total in
  do! temperature := look readTemperature in
  ret [("backend", VStr backendVersion); ("features", VList [VStr "system"]);
       ("host", VMap (host_data osRelease (safeText hostname "localhost") names.1 names.2 uptime));
       ("cpu", VMap [("model", VStr model); ("usage_percent", float_value usage); ("load_average", VList (float_value <$> loads));
                     ("cores", VInt (Z.max NumCPU 1))]);
       ("memory", VMap (memory_data memory)); ("temperature", VMap temperature); ("processes", VMap [("total", VInt total)])].

(** ** The processes, described *)

Definition systemdUnitDescriptions (units : list string) : cmd W (gmap string string) :=
  match units with
  | [] => ret ∅
  | _ => do! o := run systemctl (["show"; "--property=Id"; "--property=Description"; "--"] ++ units) in
         ret (if succeeded o then parseSystemdDescriptions (stdout o) else ∅)
  end.
(** The output is the two streams together. *)
Definition debianPackageOwners (executables : list string) : cmd W (gmap string string) :=
  match executables with
  | [] => ret ∅
  | _ => do! o := run dpkgQueryCommand (["-S"; "--"] ++ executables) in ret (fold_left owner_line (split nl (stdout o)) ∅)
  end.
Definition debianPackageDescriptions (packages : list string) : cmd W (gmap string string) :=
  match packages with
  | [] => ret ∅
  | _ => do! o := run dpkgQueryCommand (["-W"; "-f=${binary:Package}\t${binary:Summary}\n"; "--"] ++ packages) in
         ret (if succeeded o then fold_left summary_line (split nl (stdout o)) ∅ else ∅)
  end.
Definition keys_of (l : list string) : list string := sort_strings (base.elements (list_to_set l : gset string)).
Definition proc_path (p : process) (name : string) : string := Join (Join "/proc" (itoa (PID p))) name.
Definition process_unit w (p : process) : string := readProcessUnit (contents w (proc_path p "cgroup")).
(** The executable of a process, when its link can be read and is absolute. *)
Definition process_executable w (p : process) : string :=
  match Readlink w (proc_path p "exe") with
  | Some link => let executable := trim_suffix link " (deleted)" in if IsAbs executable then executable else ""
  | None => ""
  end.
Definition with_description (p : process) (d : string) : process :=
  mkProcess (PID p) (User p) (State p) (CPUPercent p) (MemoryPercent p) (MemoryBytes p) (ElapsedSeconds p) (Name p) d.
Definition nonempty (s : string) : bool := negb (String.eqb s "").
(** That of the unit, else of the package of the executable, else a known one. *)
Definition enrichProcessDescriptions (l : list process) : cmd W (list process) :=
  do! units := look (λ w, process_unit w <$> l) in
  do! descriptions := systemdUnitDescriptions (keys_of (List.filter nonempty units)) in
  let l := zip_with (λ p u, with_description p (default "" (descriptions !! u))) l units in
  do! executables := look (λ w, (λ p, if nonempty (Description p) then "" else process_executable w p) <$> l) in
  do! owners := debianPackageOwners (keys_of (List.filter nonempty executables)) in
  do! summaries := debianPackageDescriptions (keys_of ((map_to_list owners).*2)) in
  ret (zip_with (λ p e,
         if nonempty (Description p) then p
         else match summaries !! default "" (owners !! e) with
         | Some (String _ _ as d) => with_description p d
         | _ => with_description p (knownProcessDescription (Name p))
         end) l executables).
Definition ps_arguments : list string :=
  ["-ww"; "-eo"; "pid=,user=,stat=,pcpu=,pmem=,rss=,etimes=,comm="; "--sort=-pcpu,-pmem,pid"].
Definition process_value (p : process) : Value :=
  VMap ([("pid", VInt (PID p)); ("user", VStr (User p)); ("state", VStr (State p)); ("cpu_percent", float_value (CPUPercent p));
         ("memory_percent", float_value (MemoryPercent p)); ("memory_bytes", VInt (MemoryBytes p)); ("elapsed_seconds", VInt (ElapsedSeconds p));
         ("name", VStr (Name p))] ++ (if nonempty (Description p) then [("description", VStr (Description p))] else [])).
Definition listing (l : list process) : data :=
  let total := Z.of_nat (List.length l) in
  let returned := if processLimit <? total then processLimit else total in
  [("processes", VList (process_value <$> take (Z.to_nat returned) l)); ("total", VInt total); ("returned_count", VInt returned);
   ("limit", VInt processLimit); ("truncated", VBool (returned <? total))].
Definition Processes : cmd W data :=
  do! o := run psCommand ps_arguments in
  if negb (succeeded o) then stop processes_failed
  else
    do! l := required processes_failed (parseProcesses (stdout o) Getpid) in
    do! l := enrichProcessDescriptions l in ret (listing l).

Definition handle (command : string) (arguments : list string) : cmd W data :=
  if String.eqb command "" then stop (failure 2 "MISSING_COMMAND" "Aucune commande n’a été indiquée pour le domaine system.")
  else match arguments with
  | _ :: _ => stop (failure 2 "INVALID_ARGUMENT_COUNT" "Le nombre d’arguments fourni est invalide.")
  | [] =>
      if String.eqb command "info" then Info
      else if String.eqb command "processes" then Processes
      else stop (failure 4 "COMMAND_NOT_FOUND" "La commande demandée n’existe pas dans le domaine system.")
  end.
Definition Handle (command : string) (arguments : list string) : Machine W → Reply * Machine W := serve (handle command arguments).
End domain.
