(* ===== verification/SystemFacts.v ===== *)
(** * Properties of the system domain

    The bounds of the memory readings, what the sampler of the processors answers, what
    the domain runs and replies. *)

From S2P Require Import Prelude GoStrings StringFacts Command Units Floats System.
From S2P Require Api Backup.
From Stdlib Require Import Ascii String.
#[local] Open Scope string_scope.
#[local] Open Scope list_scope.
#[local] Open Scope Z_scope.

(** ** Memory *)

Lemma clamp_range value maximum : 0 ≤ maximum → 0 ≤ clamp value 0 maximum ≤ maximum.
Proof. intros Hm. unfold clamp. destruct (Z.ltb_spec value 0); [lia|]. destruct (Z.ltb_spec maximum value); lia. Qed.
Lemma lookup_in_range (values : gmap string Z) key :
  map_Forall (λ _ v, int_min ≤ v ≤ int_max) values → int_min ≤ default 0 (values !! key) ≤ int_max.
Proof. intros Hv. destruct (values !! key) as [v|] eqn:E; [by apply Hv in E|]. cbn. unfold int_min, int_max. lia. Qed.
Lemma memory_line_range values line :
  map_Forall (λ _ v, int_min ≤ v ≤ int_max) values → map_Forall (λ _ v, int_min ≤ v ≤ int_max) (memory_line values line).
Proof.
  intros Hv. unfold memory_line. destruct (cut ":" line) as [[key raw] []]; [|done]. destruct (fields raw) as [|f l]; [done|].
  destruct (atoi f); [|done]. apply map_Forall_insert_2; [apply wrap64_range|done].
Qed.
Lemma memory_lines_range lines : ∀ values,
  map_Forall (λ _ v, int_min ≤ v ≤ int_max) values →
  map_Forall (λ _ v, int_min ≤ v ≤ int_max) (fold_left memory_line lines values).
Proof. induction lines as [|l lines IH]; intros values Hv; [done|]. cbn [fold_left]. by apply IH, memory_line_range. Qed.

(** Whatever [/proc/meminfo] holds, sizes that overflow included, a reading is consistent: the
    amounts fit an [int64] and are not negative, what is used and what is available make
    the total, and the cache is at most the total. *)
Theorem memory_bounds (content : option string) (m : memory) :
  readMemory content = Some m →
  0 ≤ total_bytes m ≤ int_max ∧ 0 ≤ used_bytes m ∧ 0 ≤ available_bytes m ∧ used_bytes m + available_bytes m = total_bytes m ∧
  0 ≤ cached_bytes m ≤ total_bytes m.
Proof.
  unfold readMemory. destruct content as [text|]; [|done]. destruct (scan_lines text) as [lines []]; [|done]. intros H. injection H as <-.
  assert (map_Forall (λ _ v, int_min ≤ v ≤ int_max) (fold_left memory_line lines ∅)) as Hr by apply memory_lines_range, map_Forall_empty.
  set (values := fold_left memory_line lines ∅) in *. unfold memory_of. cbn [total_bytes used_bytes available_bytes cached_bytes].
  pose proof (lookup_in_range values "MemTotal" Hr) as Ht. set (t := Z.max (default 0 (values !! "MemTotal")) 0).
  assert (0 ≤ t ≤ int_max) as Htr by (unfold int_min, int_max in *; lia).
  pose proof (clamp_range (default (wrap64 (default 0 (values !! "MemFree") + default 0 (values !! "Buffers") + default 0 (values !! "Cached")))
    (values !! "MemAvailable")) t ltac:(lia)) as Ha.
  pose proof (clamp_range (wrap64 (default 0 (values !! "Buffers") + default 0 (values !! "Cached") + default 0 (values !! "SReclaimable") -
    default 0 (values !! "Shmem"))) t ltac:(lia)) as Hc. lia.
Qed.
Lemma memory_bounds_witness :
  let m := memory_of (<["Shmem" := 10240]> (<["Cached" := 204800]> (<["MemAvailable" := 409600]> (<["MemTotal" := 1024000]> ∅)))) in
  let text := "MemTotal: 1000 kB" +++ snl +++ "MemAvailable: 400 kB" +++ snl +++ "Cached: 200 kB" +++ snl +++ "Shmem: 10 kB" +++ snl in
  readMemory (Some text) = Some m ∧ used_bytes m = 614400 ∧ used_bytes m + available_bytes m = total_bytes m.
Proof.
  cbv zeta. split; [by vm_compute|]. split; [by vm_compute|].
  refine (proj1 (proj2 (proj2 (proj2 (memory_bounds (Some ("MemTotal: 1000 kB" +++ snl +++ "MemAvailable: 400 kB" +++ snl +++ "Cached: 200 kB" +++ snl +++ "Shmem: 10 kB" +++ snl)) _ _))))).
  by vm_compute.
Defined.

(** ** The sampler *)

Definition successful (readings : list (option cpuTimes)) : list cpuTimes := omap Datatypes.id readings.
(** The readings of a sampler: the first, the one that follows it at once if it succeeded, those of the ticks. *)
Definition readings_of (first : option cpuTimes) (second : option (option cpuTimes)) (ticks : list (option cpuTimes)) : list (option cpuTimes) :=
  first :: match first, second with Some _, Some r => [r] | _, _ => [] end ++ ticks.
Definition last_two {A} (l : list A) : option (A * A) := match rev l with b :: a :: _ => Some (a, b) | _ => None end.
(** What the sampler has to answer after these readings. *)
Definition expected (readings : list (option cpuTimes)) : option spec_float :=
  match last readings, last_two (successful readings) with
  | Some (Some _), Some (a, b) => Some (cpuUsageBetween a b)
  | _, _ => None
  end.
Definition sampled (readings : list (option cpuTimes)) (s : cpuSampler) : Prop :=
  sampler_value s = expected readings ∧ (hasValue s = true ↔ successful readings ≠ []) ∧
  (∀ t, last (successful readings) = Some t → previous s = t) ∧
  (List.length (successful readings) ≤ 1 → s_failed s = true)%nat.

Lemma last_two_snoc {A} (l : list A) a b : last l = Some a → last_two (l ++ [b]) = Some (a, b).
Proof.
  intros Hl. apply last_Some in Hl as (l' & ->). unfold last_two. by rewrite !rev_app_distr.
Qed.
Lemma sampled_step readings s next : sampled readings s → sampled (readings ++ [next]) (sample next s).
Proof.
  intros (Hv & Hh & Hp & Hf). assert (successful (readings ++ [next]) = successful readings ++ match next with Some t => [t] | None => [] end) as Hs.
  { unfold successful. rewrite omap_app. by destruct next. }
  destruct next as [t|]; cbn [sample].
  2: { rewrite app_nil_r in Hs. split_and!; [|by rewrite Hs|by rewrite Hs|done]. unfold expected. by rewrite last_snoc. }
  destruct (successful readings) as [|x l] eqn:Hg.
  - assert (hasValue s = false) as -> by (destruct (hasValue s); [by destruct Hh as [Hh _]; destruct Hh|done]).
    assert (s_failed s = true) as Hfs by (apply Hf; cbn; lia).
    split_and!; cbn [hasValue previous s_failed]; rewrite ?Hs.
    + unfold sampler_value, expected. cbn [s_failed]. rewrite Hfs, last_snoc, Hs. done.
    + done.
    + intros u. cbn. congruence.
    + done.
  - assert (hasValue s = true) as -> by by apply Hh.
    destruct (last (x :: l)) as [a|] eqn:Ha; [|by apply last_None in Ha]. rewrite (Hp a eq_refl).
    split_and!; cbn [hasValue previous s_failed].
    + unfold sampler_value, expected. cbn [s_failed usage]. rewrite last_snoc, Hs. by rewrite (last_two_snoc _ a).
    + rewrite Hs. done.
    + intros u. rewrite Hs, last_snoc. congruence.
    + rewrite Hs, length_app. cbn. lia.
Qed.
Lemma sampled_ticks ticks : ∀ readings s, sampled readings s → sampled (readings ++ ticks) (fold_left (λ s r, sample r s) ticks s).
Proof.
  induction ticks as [|r ticks IH]; intros readings s Hs; [by rewrite app_nil_r|]. cbn [fold_left].
  replace (readings ++ r :: ticks) with ((readings ++ [r]) ++ ticks) by by rewrite <- app_assoc. by apply IH, sampled_step.
Qed.
Lemma sampled_first first : sampled [first] (newCPUSampler first None).
Proof. destruct first as [t|]; (split_and!; [done|done| |done]); [by intros u [= <-]|done]. Qed.

(** C34: what the sampler answers, whatever its readings of [/proc/stat]: an error when the last
    reading failed or when fewer than two succeeded, and otherwise the load between the
    last two that succeeded, even with failures between them. *)
Theorem sampler_answer (first : option cpuTimes) (second : option (option cpuTimes)) (ticks : list (option cpuTimes)) :
  sampler_value (fold_left (λ s r, sample r s) ticks (newCPUSampler first second)) = expected (readings_of first second ticks).
Proof.
  unfold readings_of. assert (sampled (first :: match first, second with Some _, Some r => [r] | _, _ => [] end) (newCPUSampler first second)) as Hs.
  { pose proof (sampled_first first) as H0. destruct first as [t|], second as [r|]; try exact H0. exact (sampled_step _ _ r H0). }
  apply (sampled_ticks ticks) in Hs. by destruct Hs as [Hs _].
Qed.

(** ** Programs and replies *)

Section facts.
Context {W : Type} `{!Programs W} `{!SystemHost W} `{!Scanner} `{!Floats} `{UnicodeCase}.

Lemma refusal_info : refusal info_failed.
Proof. by apply refusal_failure. Qed.
Lemma refusal_processes : refusal processes_failed.
Proof. by apply refusal_failure. Qed.
#[local] Hint Resolve refusal_info refusal_processes : commands.
Lemma refuses_required {A} r (x : option A) : refusal r → refuses (required (W := W) r x).
Proof. intros Hr. destruct x; [apply refuses_ret|by apply refuses_stop_of]. Qed.
#[local] Hint Resolve refuses_required : commands.
Lemma refuses_cpuUsage : refuses (cpuUsage (W := W)).
Proof. unfold cpuUsage, readCPUUsage. walk. Qed.
Lemma refuses_enrich l : refuses (enrichProcessDescriptions (W := W) l).
Proof. unfold enrichProcessDescriptions, systemdUnitDescriptions, debianPackageOwners, debianPackageDescriptions. walk. Qed.
Lemma system_reply_ok command arguments (m : Machine W) : Api.reply_ok (Handle command arguments m).1.
Proof.
  apply serve_ok. pose proof refuses_cpuUsage. pose proof refuses_enrich. pose proof @refuses_required. pose proof refusal_info. pose proof refusal_processes.
  unfold handle, Info, Processes. walk; by eauto with commands.
Qed.
End facts.
