(* ===== verification/Daemon.v ===== *)
(** * The daemon: [cmd/aegisadmin-daemon]

    The program that runs as root: its router, with the handler of every domain registered
    as [main] registers them, and the answer to a connection.  A domain has its own runner
    of programs (delays, environment, what is kept of the output); the domains act on one
    machine, and the cron domain keeps its crontabs beside.  Then its properties: the router is built and serves every domain; every
    connection is answered by a reply of the protocol. *)

From S2P Require Import Prelude GoStrings Regex Command Files.
From S2P Require Crontab Api AdminAccess AdminAccessFacts Apache ApacheFacts Certbot CertbotFacts Configuration ConfigurationFacts CronTasks.
From S2P Require Fail2ban Firewall FirewallFacts Logs Mysql Network Php Services Snapshots Storage.
From S2P Require System SystemFacts Tor Units Upgrade Updates Composer Floats.
From Stdlib Require Import Ascii String.
#[local] Open Scope string_scope.
#[local] Open Scope list_scope.
#[local] Open Scope Z_scope.

Import Api(Reply, failure, success, Value, reply_ok).

(** The runner of each domain. *)
Class Runners (W : Type) := { runner : string → Programs W }.

(** The files of configuration the constructors of the domains read when the daemon starts,
    and what the handlers are given besides. *)
Record Settings (W : Type) := mkSettings {
  apache_profile : option string;
  certbot_executable : string → bool;
  fail2ban_executable : string → bool; fail2ban_profile : option string;
  firewall_defaults : option string;
  logs_policy : list string * list string;
  services_allowed : option string;
  storage_fuel : nat; storage_profile : option string;
  tor_executable : string → bool; tor_regular : string → bool; tor_profile : option string; tor_file : string → option string;
  cron_executable : string → bool; cron_profile : option (list string);
  cron_decode : string → option (list string * option CronTasks.ExecutionResult);
  cron_tree : W → CronTasks.Tree; cron_answers : W → CronTasks.Answers }.
Arguments apache_profile {W}. Arguments certbot_executable {W}. Arguments fail2ban_executable {W}. Arguments fail2ban_profile {W}.
Arguments firewall_defaults {W}. Arguments logs_policy {W}. Arguments services_allowed {W}. Arguments storage_fuel {W}.
Arguments storage_profile {W}. Arguments tor_executable {W}. Arguments tor_regular {W}. Arguments tor_profile {W}. Arguments tor_file {W}.
Arguments cron_executable {W}. Arguments cron_profile {W}. Arguments cron_decode {W}. Arguments cron_tree {W}. Arguments cron_answers {W}.

Record state (W : Type) := mkState { machine : Machine W; crontabs : CronTasks.Host }.
Arguments mkState {W}. Arguments machine {W}. Arguments crontabs {W}.

Section daemon.
Context {W : Type} `{!Runners W} `{!FileSystem W} `{UnicodeCase} `{AdminAccess.Networks} `{!AdminAccess.AccessHost W}
  `{!Apache.ApacheHost W} `{!Certbot.CertbotHost W} `{Certbot.X509} `{Units.FloatTexts} `{!Snapshots.SnapshotHost W}
  `{!Configuration.Collectors W} `{!Configuration.Directories W} `{CronTasks.CronPrograms} `{Fail2ban.Addresses} `{Firewall.NetIP}
  `{Logs.LogFiles} `{!Mysql.Credentials W} `{!Php.ScanDir W} `{Php.MapOrder} `{!Storage.SysTree W} `{Storage.StorageTexts}
  `{!System.SystemHost W} `{System.Scanner} `{Floats.Floats} `{!Upgrade.UpdateHost W} `{!Updates.UpdateFiles W} `{!Composer.ComposerHost W}.
Context (c : Settings W).

(** A handler on the machine. *)
Definition on_machine (handle : string → list string → Machine W → Reply * Machine W) : Api.Router.Handler (World := state W) :=
  λ s command arguments, let (r, m) := handle command arguments (machine s) in (mkState m (crontabs s), r).
Definition on_crontabs (s : state W) (command : string) (arguments : list string) : state W * Reply :=
  let w := inside (machine s) in
  let (h, r) := CronTasks.Handle (CronTasks.NewLinuxBackend (cron_executable c) (cron_profile c)) (cron_decode c) (cron_tree c w) (cron_answers c w)
                  (crontabs s) command arguments in
  (mkState (machine s) h, r).
(** In the order of [main]. *)
Definition registrations : list (string * Api.Router.Handler (World := state W)) :=
  [("admin-access", on_machine (AdminAccess.Handle (Programs0 := runner "admin-access")));
   ("certbot", on_machine (Certbot.Handle (Programs0 := runner "certbot") (Certbot.NewLinuxBackend (certbot_executable c))));
   ("configuration", on_machine (Configuration.Handle (Configuration.Inventory (Programs0 := runner "configuration"))));
   ("cron", on_crontabs);
   ("fail2ban", on_machine (Fail2ban.Handle (Programs0 := runner "fail2ban") (Fail2ban.NewLinuxBackend (fail2ban_executable c) (fail2ban_profile c))));
   ("firewall", on_machine (Firewall.Handle (Programs0 := runner "firewall") (firewall_defaults c)));
   ("apache", on_machine (Apache.Handle (Programs0 := runner "apache") (Apache.NewLinuxBackend (apache_profile c))));
   ("logs", on_machine (Logs.Handle (Programs0 := runner "logs") (logs_policy c)));
   ("mysql", on_machine (Mysql.Handle (Programs0 := runner "mysql")));
   ("network", on_machine (Network.Handle (Programs0 := runner "network")));
   ("php", on_machine (Php.Handle (Programs0 := runner "php")));
   ("services", on_machine (Services.Handle (Programs0 := runner "services") (services_allowed c)));
   ("storage", on_machine (Storage.Handle (Programs0 := runner "storage") (storage_fuel c) (storage_profile c)));
   ("system", on_machine (System.Handle (Programs0 := runner "system")));
   ("tor", on_machine (Tor.Handle (Programs0 := runner "tor") (Tor.NewLinuxBackend (tor_executable c) (tor_regular c) (tor_profile c)) (tor_file c)));
   ("updates", on_machine (Updates.Handle (Programs0 := runner "updates")))].
(** [None] when a registration panics. *)
Definition backendRouter : option (Api.Router.Router (World := state W)) :=
  fold_left (λ r dh, match r with Some r => Api.Router.Register r dh.1 (Some dh.2) | None => None end) registrations (Some Api.Router.New).

(** The server runs a goroutine for each connection; the state one starts from is that which
    the connections before it left, changed by whatever else went on: [between].  [None]
    when the daemon did not start. *)
Context `{Api.JsonDecoder} (maximum : nat).
Fixpoint answers (r : Api.Router.Router (World := state W)) (s : state W) (connections : list ((state W → state W) * Api.Connection)) :
    list (option Reply * list Api.LogEntry) * state W :=
  match connections with
  | [] => ([], s)
  | (between, connection) :: connections =>
      let (s, outcome) := Api.handleConnection r maximum (between s) connection in
      let (outcomes, s) := answers r s connections in (outcome :: outcomes, s)
  end.
Definition daemon (s : state W) (connections : list ((state W → state W) * Api.Connection)) :
    option (list (option Reply * list Api.LogEntry) * state W) :=
  (λ r, answers r s connections) <$> backendRouter.
End daemon.

(** * Properties *)



(** ** The replies of the cron domain *)

Section cron.
Import CronTasks.
Context `{CronPrograms} `{UnicodeCase} (b : Paths) (decode : string → option (list string * option ExecutionResult)) (t : Tree) (a : Answers).
(** A step that answers with a refusal, or with data. *)
Definition refused {A} (x : res Reply A * Host) : Prop := ∀ r, x.1 = Err r → refusal r.

Lemma refused_failure {A} code name message h : code ≠ 0 → refused (A := A) (Err (failure code name message), h).
Proof. intros Hc r [= <-]. by apply refusal_failure. Qed.
Lemma refused_Ok {A} (x : A) h : refused (Ok x, h).
Proof. by intros r [=]. Qed.
#[local] Hint Resolve refused_failure refused_Ok : core.
Lemma refused_action {A} action h : refused (A := A) (actionFailure action h).
Proof. by apply refused_failure. Qed.
#[local] Hint Resolve refused_action : core.
Lemma startExecution_refused owner id command h : refused (startExecution b a owner id command h).
Proof. unfold startExecution. repeat case_match; auto. Qed.
#[local] Hint Resolve startExecution_refused : core.
Lemma edit_refusal action id schedule command random lines records r :
  edit action id schedule command random lines records = Err r → refusal r.
Proof.
  unfold edit, action_failed, not_found, invalid_state. repeat case_match; try done; intros [= <-]; by apply refusal_failure.
Qed.
Lemma install_refusal action owner lines h r h' : install a action owner lines h = (Some r, h') → refusal r.
Proof.
  unfold install, action_failed, invalid_task. repeat case_match; try done; intros E; injection E as <- _; by apply refusal_failure.
Qed.
Lemma manage_refused action args h : refused (manage b a action args h).
Proof.
  unfold manage, refuse, invalid_task. destruct (negb _); [auto|]. destruct (negb _); [auto|].
  destruct (task_arguments action args) as [[id schedule] command]. destruct (_ && _ && _); [auto|]. destruct (_ && _); [auto|].
  destruct (_ || _ || _); [auto|]. unfold manage_locked, invalid_task, not_found, invalid_state.
  destruct (crontab_list _ _) as [output st]. destruct (_ && _); [auto|]. destruct (Crontab.parseRecords _ _) as [records|]; [|auto].
  destruct (String.eqb action "run"); [repeat case_match; auto|].
  destruct (edit _ _ _ _ _ _ _) as [edition|e] eqn:He; [|intros r [= <-]; by eapply edit_refusal].
  destruct (backup _ _ _ _ _) as [h1|]; [|auto].
  destruct (install _ _ _ _ _) as [[reply|] h2] eqn:Hi; [|auto]. intros r [= <-]. by eapply install_refusal.
Qed.
Lemma runResult_refusal directory file content id r : runResult decode directory file content id = Err r → refusal r.
Proof. unfold runResult, result_missing, result_unreadable. repeat case_match; try done; intros [= <-]; by apply refusal_failure. Qed.
Lemma createBackupTask_refused args h : refused (createBackupTask b a args h).
Proof. unfold createBackupTask, create_failed, refuse, invalid_backup. repeat case_match; auto. Qed.
Lemma deleteBackupTask_refused id h : refused (deleteBackupTask b a id h).
Proof. unfold deleteBackupTask, refuse, invalid_backup. repeat case_match; auto. Qed.
Lemma runBackupTask_refused id h : refused (runBackupTask b a id h).
Proof. unfold runBackupTask, refuse, invalid_backup. repeat case_match; auto. Qed.
Lemma execute_refused command args h : refused (execute b decode t a command args h).
Proof.
  pose proof manage_refused. pose proof createBackupTask_refused. pose proof deleteBackupTask_refused. pose proof runBackupTask_refused.
  unfold execute, refuse. repeat (case_match; [by repeat case_match; auto|]). case_match; [|repeat (case_match; [by auto|]); auto].
  intros r. cbn [fst]. destruct (runResult _ _ _ _ _) eqn:E; [done|]. intros [= <-]. by eapply runResult_refusal.
Qed.
Lemma cron_reply_ok h command args : reply_ok (Handle b decode t a h command args).2.
Proof.
  unfold Handle. case_match; [by apply refusal_failure|]. destruct (List.find _ argumentCounts) as [[name expected]|]; [|by apply refusal_failure].
  case_match; [by apply refusal_failure|]. destruct (dependencies b a command) as [r|] eqn:Hd.
  { assert (refusal r) as [Hr _]; [|done]. revert Hd. unfold dependencies. repeat case_match; try done; intros [= <-]; by apply refusal_failure. }
  destruct (execute _ _ _ _ _ _ _) as [[d|r] h'] eqn:He; [apply Api.success_ok|].
  pose proof (execute_refused command args h) as Hr. rewrite He in Hr. by destruct (Hr r eq_refl) as [? _].
Qed.
End cron.

(** ** The router *)

Lemma register_all {World} (dhs : list (string * Api.Router.Handler (World := World))) : ∀ r,
  Forall (λ dh, full Api.domainPattern dh.1 = true ∧ Api.Router.handlers r !! dh.1 = None) dhs → NoDup dhs.*1 →
  ∃ r', fold_left (λ r dh, match r with Some r => Api.Router.Register r dh.1 (Some dh.2) | None => None end) dhs (Some r) = Some r' ∧
    (∀ d h, Api.Router.handlers r' !! d = Some h → Api.Router.handlers r !! d = Some h ∨ (d, h) ∈ dhs) ∧
    (∀ d, is_Some (Api.Router.handlers r !! d) ∨ d ∈ dhs.*1 → is_Some (Api.Router.handlers r' !! d)).
Proof.
  induction dhs as [|[d h] dhs IH]; intros r Hf Hn; [exists r; split; [done|]; split; [by left|]; intros d [Hd|Hd]; [done|by apply elem_of_nil in Hd]|].
  apply Forall_cons in Hf as [[Hp Hnone] Hf]. apply NoDup_cons in Hn as [Hd Hn]. cbn [fst snd] in *. cbn [fold_left fst snd].
  unfold Api.Router.Register at 2. rewrite Hp, Hnone. cbn [negb].
  destruct (IH {| Api.Router.handlers := <[d := h]> (Api.Router.handlers r) |}) as (r' & Hr & Hin & Hall); [|done|].
  { apply Forall_forall. intros x Hx. rewrite Forall_forall in Hf. destruct (Hf x Hx) as [Hxp Hxn]. split; [done|]. cbn [Api.Router.handlers].
    rewrite lookup_insert_ne; [done|]. intros ->. by apply Hd, list_elem_of_fmap_2. }
  exists r'. split; [done|]. split.
  - intros d' h' [Hd'|Hd']%Hin; [|right; by right]. cbn [Api.Router.handlers] in Hd'. apply lookup_insert_Some in Hd' as [[<- <-]|[_ Hd']]; [right; by left|by left].
  - intros d' [Hd'|Hd']; apply Hall; cbn [Api.Router.handlers].
    + left. destruct (decide (d = d')) as [->|]; [by rewrite lookup_insert_eq|by rewrite lookup_insert_ne].
    + cbn [fmap list_fmap fst] in Hd'. apply elem_of_cons in Hd' as [->|Hd']; [left; by rewrite lookup_insert_eq|by right].
Qed.

Section daemon.
Context {W : Type} `{!Runners W} `{!FileSystem W} `{UnicodeCase} `{AdminAccess.Networks} `{!AdminAccess.AccessHost W}
  `{!Apache.ApacheHost W} `{!Certbot.CertbotHost W} `{Certbot.X509} `{Units.FloatTexts} `{!Snapshots.SnapshotHost W}
  `{!Configuration.Collectors W} `{!Configuration.Directories W} `{CronTasks.CronPrograms} `{Fail2ban.Addresses} `{Firewall.NetIP}
  `{Logs.LogFiles} `{!Mysql.Credentials W} `{!Php.ScanDir W} `{Php.MapOrder} `{!Storage.SysTree W} `{Storage.StorageTexts}
  `{!System.SystemHost W} `{System.Scanner} `{Floats.Floats} `{!Upgrade.UpdateHost W} `{!Updates.UpdateFiles W} `{!Composer.ComposerHost W}.
Context (c : Settings W).

(** A handler whose replies are those of the protocol. *)
Definition handler_ok (h : Api.Router.Handler (World := state W)) : Prop := ∀ s command arguments, reply_ok (h s command arguments).2.
Lemma on_machine_ok handle :
  (∀ command arguments m, reply_ok (handle command arguments m).1) → handler_ok (on_machine handle).
Proof. intros Hh s command arguments. unfold on_machine. pose proof (Hh command arguments (machine s)) as Hr. by destruct (handle _ _ _). Qed.
Lemma on_crontabs_ok : handler_ok (on_crontabs c).
Proof.
  intros s command arguments. unfold on_crontabs. cbv zeta.
  pose proof (cron_reply_ok (CronTasks.NewLinuxBackend (cron_executable c) (cron_profile c)) (cron_decode c) (cron_tree c (inside (machine s)))
    (cron_answers c (inside (machine s))) (crontabs s) command arguments) as Hr. by destruct (CronTasks.Handle _ _ _ _ _ _ _).
Qed.
Lemma refuses_platform `{!Programs W} : refuses (Configuration.Inventory (W := W)).
Proof.
  unfold Configuration.Inventory, Configuration.configurationFiles, Configuration.systemServices, Configuration.installedPackages,
    Configuration.accounts, Configuration.listeners, Configuration.rpm_packages. walk.
Qed.
Lemma registrations_ok : Forall (λ dh, handler_ok dh.2) (registrations c).
Proof.
  unfold registrations. repeat apply Forall_cons_2; try apply Forall_nil_2; cbn [snd]; try exact on_crontabs_ok; apply on_machine_ok; intros command arguments m.
  - apply serve_ok, AdminAccessFacts.access_refuses.
  - apply CertbotFacts.certbot_reply_ok.
  - apply ConfigurationFacts.configuration_reply_ok, refuses_platform.
  - apply Fail2ban.fail2ban_reply_ok.
  - apply FirewallFacts.firewall_reply_ok.
  - apply serve_ok, ApacheFacts.apache_refuses.
  - apply Logs.logs_reply_ok.
  - apply Mysql.mysql_reply_ok.
  - apply Network.network_reply_ok.
  - apply Php.php_reply_ok.
  - apply Services.services_reply_ok.
  - apply Storage.storage_reply_ok.
  - apply SystemFacts.system_reply_ok.
  - apply Tor.tor_reply_ok.
  - apply Updates.updates_reply_ok.
Qed.
Lemma domains_known : (registrations c).*1 ≡ₚ Api.knownDomains.
Proof. cbn [registrations fmap list_fmap fst]. unfold Api.knownDomains. solve_Permutation. Qed.
Lemma domains_distinct : NoDup (registrations c).*1.
Proof. rewrite domains_known. apply (bool_decide_unpack _). by vm_compute. Qed.
Lemma domains_pattern : Forall (λ d, full Api.domainPattern d = true) (registrations c).*1.
Proof. rewrite domains_known. unfold Api.knownDomains. by repeat constructor. Qed.
Lemma router_built : ∃ r, backendRouter c = Some r ∧ (∀ d, is_Some (Api.Router.handlers r !! d) ↔ d ∈ Api.knownDomains) ∧
  (∀ d h, Api.Router.handlers r !! d = Some h → handler_ok h).
Proof.
  destruct (register_all (registrations c) Api.Router.New) as (r & Hr & Hin & Hall).
  { apply Forall_forall. intros x Hx. split; [|done]. pose proof domains_pattern as Hp. rewrite Forall_forall in Hp. apply Hp.
    by apply list_elem_of_fmap_2. }
  { apply domains_distinct. }
  exists r. split; [done|]. split.
  - intros d. rewrite <- domains_known. split; [|by intros Hd; apply Hall; right].
    intros [h [Hd|Hd]%Hin]; [done|]. by apply (list_elem_of_fmap_2 fst) in Hd.
  - intros d h [Hd|Hd]%Hin; [done|]. pose proof registrations_ok as Ho. rewrite Forall_forall in Ho. by apply (Ho (d, h)).
Qed.

(** What becomes of a connection: its reply, of the protocol, is delivered before the deadline;
    or nothing is, for the writing failed, which is logged.  A request that cannot be
    decoded is answered as such, and logged. *)
Definition connection_served `{Api.JsonDecoder} (maximum : nat) (connection : Api.Connection) (outcome : option Reply * list Api.LogEntry) : Prop :=
  match outcome.1 with
  | Some reply =>
      reply_ok reply ∧ Api.writing_ends connection < Api.requestTimeout ∧ Api.peer_error connection = None ∧
      (Api.decodeRequest maximum (Api.incoming connection) = None →
         Api.ExitCode reply = 2 ∧ Api.reply_code reply = "INVALID_REQUEST" ∧ Api.InvalidRequest ∈ outcome.2)
  | None =>
      (Api.requestTimeout ≤ Api.writing_ends connection ∨ is_Some (Api.peer_error connection)) ∧ ∃ err, Api.WriteFailed err ∈ outcome.2
  end.
Lemma answer_ok `{Api.JsonDecoder} r maximum s reader :
  (∀ d h, Api.Router.handlers r !! d = Some h → handler_ok h) → reply_ok (Api.answer r maximum s reader).2.
Proof.
  intros Hr. unfold Api.answer. destruct (Api.decodeRequest maximum reader) as [request|]; [|by apply Api.failure_ok].
  unfold Api.Router.Route. case_match; [by apply Api.failure_ok|]. case_match; [by apply Api.failure_ok|].
  destruct (Api.Router.handlers r !! Api.Domain request) as [h|] eqn:Hd; [by eapply Hr|by apply Api.failure_ok].
Qed.
Lemma connection_ok `{Api.JsonDecoder} r maximum s connection :
  (∀ d h, Api.Router.handlers r !! d = Some h → handler_ok h) →
  connection_served maximum connection (Api.handleConnection r maximum s connection).2.
Proof.
  intros Hr. pose proof (answer_ok r maximum s (Api.incoming connection) Hr) as Ha.
  pose proof (Api.handleConnection_delivers r maximum s connection) as Hd.
  destruct (Api.handleConnection r maximum s connection) as [s' [delivered log]] eqn:E.
  destruct Hd as [_ [(-> & Hw & Hp)|(-> & Hw & Hl)]]; [|by split]. split_and!; [done..|]. cbn [snd]. intros Hdec.
  unfold Api.answer in *. unfold Api.handleConnection, Api.answer in E. rewrite Hdec in E |- *.
  destruct (Api.writeReply _ _). injection E as _ _ <-. split_and!; [done..|]. by left.
Qed.
Lemma answers_ok `{Api.JsonDecoder} maximum r connections : (∀ d h, Api.Router.handlers r !! d = Some h → handler_ok h) →
  ∀ s, Forall2 (λ x, connection_served maximum x.2) connections (answers maximum r s connections).1.
Proof.
  intros Hr. induction connections as [|[between connection] connections IH]; intros s; [constructor|]. cbn [answers].
  pose proof (connection_ok r maximum (between s) connection Hr) as Hc. destruct (Api.handleConnection r maximum (between s) connection) as [s1 outcome].
  specialize (IH s1). destruct (answers maximum r s1 connections) as [outcomes s2]. by constructor.
Qed.

(** C12: the type of the daemon.  Its router is built without a panic and has a handler for each of
    the known domains and for no other name; and from any state of the machine and of the
    crontabs, whatever goes on between the connections, whatever their bytes and whatever
    the programs, the files and the clock answer, every connection is delivered one reply of
    the protocol (exit code 0 with data and no error, or another exit code with an error and
    no data), the refusal of an invalid request when its bytes are not one request; or none,
    when its writing does not end within the thirty seconds of the deadline or fails, and
    that is logged.  The connections are taken one after the other. *)
Theorem daemon_replies `{Api.JsonDecoder} (maximum : nat) (s : state W) (connections : list ((state W → state W) * Api.Connection)) :
  ∃ r outcomes s', backendRouter c = Some r ∧ (∀ d, is_Some (Api.Router.handlers r !! d) ↔ d ∈ Api.knownDomains) ∧
    daemon c maximum s connections = Some (outcomes, s') ∧ Forall2 (λ x, connection_served maximum x.2) connections outcomes.
Proof.
  destruct router_built as (r & Hr & Hd & Hh). pose proof (answers_ok maximum r connections Hh s) as Hf.
  exists r, (answers maximum r s connections).1, (answers maximum r s connections).2. unfold daemon. rewrite Hr. cbn [fmap option_fmap option_map].
  by destruct (answers maximum r s connections).
Qed.
End daemon.
