(* ===== verification/Migrations.v ===== *)
(** * The migrations of the account database: [internal/authstore/lifecycle.go]

    [Migrate] applies the scripts of a directory in the order of their names, each in a
    transaction with the row that records it and its digest.  What a script does to the
    tables at a given time is a parameter, since scripts of the program write
    [strftime('now')], and so is the success of every statement around it. *)

From S2P Require Import Prelude GoStrings Regex Codec Command.
From S2P Require Backup.
From Stdlib Require Import Ascii String.
#[local] Open Scope string_scope.
#[local] Open Scope list_scope.
#[local] Open Scope Z_scope.

Import Backup(Join, IsAbs).

Definition name_byte (c : ascii) : bool := is_lower c || is_digit c || Ascii.eqb c "_".
(** [^[0-9]{3}_[a-z0-9_]+\.sql$] *)
Definition migrationName : rx := Rep is_digit 3 3 ;;; lit "_" ;;; plus (Cls name_byte) ;;; lit ".sql".

(** The tables, the rows of [schema_migrations] beside. *)
Record Base (S : Type) := mkBase { schema : S; recorded : gmap string (string * string) }.
Arguments mkBase {S}. Arguments schema {S}. Arguments recorded {S}.

(** What a run of [Migrate] meets. *)
Record Attempt := mkAttempt {
  opened : bool;                                  (** the directory, the database and the table of the migrations *)
  entries : option (list (string * bool));        (** the directory, [true] for a directory in it *)
  ReadFile : string → option string;
  query_ok : string → bool;
  begin_ok : string → bool;
  insert_ok : string → bool;
  commit_ok : string → bool;
  script_time : string → string;                  (** the time the script of a migration sees *)
  stamp : string → string;                        (** the time its record has *)
}.

Inductive migration_error :=
| NotAbsolute | NotOpened | NotListed | UnreadableMigration (name : string) | ModifiedMigration (name : string) | QueryFailed
| BeginFailed | ApplyFailed (name : string) | CommitFailed.

Section migrate.
(** A script in a transaction, at a time: the tables after it, or an error and they are as before. *)
Context {S : Type} (exec_script : string → string → S → option S).

Definition migration_names (l : list (string * bool)) : list string :=
  sort_strings ((List.filter (λ e, negb e.2 && full migrationName e.1) l).*1).
(** The content of a migration, unless it cannot be read or is blank. *)
Definition content_of (a : Attempt) (directory name : string) : option string :=
  match ReadFile a (Join directory name) with
  | Some content => if String.eqb (trim_space content) "" then None else Some content
  | None => None
  end.
Definition checksum_of (content : string) : string := hex_encode (sha256 content).
Definition record (a : Attempt) (name content : string) (b : Base S) : gmap string (string * string) :=
  <[name := (checksum_of content, stamp a name)]> (recorded b).
(** The transaction of one migration. *)
Definition transaction (a : Attempt) (name content : string) (b : Base S) : res migration_error (Base S) :=
  if negb (begin_ok a name) then Err BeginFailed
  else match exec_script content (script_time a name) (schema b) with
  | None => Err (ApplyFailed name)
  | Some s =>
      if negb (insert_ok a name) then Err (ApplyFailed name)
      else if negb (commit_ok a name) then Err CommitFailed
      else Ok (mkBase s (record a name content b))
  end.
Fixpoint apply_all (a : Attempt) (directory : string) (names applied : list string) (b : Base S) :
    res migration_error (list string) * Base S :=
  match names with
  | [] => (Ok applied, b)
  | name :: names =>
      match content_of a directory name with
      | None => (Err (UnreadableMigration name), b)
      | Some content =>
          if negb (query_ok a name) then (Err QueryFailed, b)
          else match recorded b !! name with
          | Some (existing, _) =>
              if String.eqb existing (checksum_of content) then apply_all a directory names applied b
              else (Err (ModifiedMigration name), b)
          | None =>
              match transaction a name content b with
              | Ok b => apply_all a directory names (applied ++ [name]) b
              | Err e => (Err e, b)
              end
          end
      end
  end.
Definition Migrate (a : Attempt) (databasePath migrationsDirectory : string) (b : Base S) : res migration_error (list string) * Base S :=
  if negb (IsAbs databasePath) || negb (IsAbs migrationsDirectory) then (Err NotAbsolute, b)
  else if negb (opened a) then (Err NotOpened, b)
  else match entries a with
  | None => (Err NotListed, b)
  | Some l => apply_all a migrationsDirectory (migration_names l) [] b
  end.

End migrate.

(** ** Facts *)

Section facts.
Context {S : Type} (exec_script : string → string → S → option S).
(** Tables with the same rows but for the times written in them.  When a script runs changes nothing else. *)
Context (alike : relation S) `{!Equivalence alike}.
Hypothesis script_alike : ∀ content time time' s s', alike s s' → option_Forall2 alike (exec_script content time s) (exec_script content time' s').

(** The tables after the migrations of a list, in order, at the times of an attempt. *)
Fixpoint replay (a : Attempt) (made : list (string * string)) (s : S) : option S :=
  match made with
  | [] => Some s
  | (name, content) :: made => match exec_script content (script_time a name) s with Some s => replay a made s | None => None end
  end.
Definition digests (b : Base S) : gmap string string := fst <$> recorded b.
Definition same (b b' : Base S) : Prop := alike (schema b) (schema b') ∧ digests b = digests b'.
(** The base after these migrations were applied to it, each with its record. *)
Definition migrated (a : Attempt) (b : Base S) (made : list (string * string)) (b' : Base S) : Prop :=
  replay a made (schema b) = Some (schema b') ∧
  digests b' = list_to_map ((λ nc, (nc.1, checksum_of nc.2)) <$> made) ∪ digests b ∧
  Forall (λ nc, digests b !! nc.1 = None) made.

Lemma digests_lookup (b : Base S) name : digests b !! name = None ↔ recorded b !! name = None.
Proof. unfold digests. by rewrite lookup_fmap, fmap_None. Qed.
Lemma digests_record a name content (b : Base S) s :
  digests (mkBase s (record a name content b)) = <[name := checksum_of content]> (digests b).
Proof. unfold digests, record. cbn [recorded]. by rewrite fmap_insert. Qed.
Lemma transaction_Ok a name content b b' :
  transaction exec_script a name content b = Ok b' →
  exec_script content (script_time a name) (schema b) = Some (schema b') ∧ recorded b' = record a name content b.
Proof. unfold transaction. repeat case_match; try done. by intros [= <-]. Qed.
Lemma transaction_digests a name content b b' :
  transaction exec_script a name content b = Ok b' → digests b' = <[name := checksum_of content]> (digests b).
Proof. intros [_ Hr]%transaction_Ok. unfold digests. rewrite Hr. unfold record. by rewrite fmap_insert. Qed.

(** A record is never changed or removed. *)
Lemma recorded_kept a directory names : ∀ applied b r b' name d,
  apply_all exec_script a directory names applied b = (r, b') → recorded b !! name = Some d → recorded b' !! name = Some d.
Proof.
  induction names as [|n names IH]; intros applied b r b' name d; cbn [apply_all]; [by intros [= _ <-]|].
  destruct (content_of a directory n) as [content|]; [|by intros [= _ <-]]. destruct (query_ok a n); cbn [negb]; [|by intros [= _ <-]].
  destruct (recorded b !! n) as [[existing t]|] eqn:Hn.
  - destruct (String.eqb existing _); [|by intros [= _ <-]]. apply IH.
  - destruct (transaction exec_script a n content b) as [b1|e] eqn:Ht; [|by intros [= _ <-]].
    intros Hr Hd. eapply IH; [exact Hr|]. apply transaction_Ok in Ht as [_ ->]. unfold record. rewrite lookup_insert_ne; [done|]. congruence.
Qed.

(** Each migration is applied with its record or not at all: whatever fails, the base a run leaves is the one it
    found after some of the migrations without a record, in the order of their names, and those of a run that
    succeeded are the ones it names. *)
Lemma apply_all_migrated a directory names : ∀ applied b r b',
  NoDup names → apply_all exec_script a directory names applied b = (r, b') →
  ∃ made, migrated a b made b' ∧ made.*1 `sublist_of` names ∧ ∀ l, r = Ok l → l = applied ++ made.*1.
Proof.
  assert (∀ b, migrated a b [] b) as H0.
  { intros b. split_and!; [done| |done]. cbn [fmap list_fmap list_to_map foldr]. by rewrite (left_id_L ∅ (∪)). }
  induction names as [|n names IH]; intros applied b r b' Hd; cbn [apply_all].
  { intros [= <- <-]. exists []. split_and!; [done|done|]. intros l [= <-]. by rewrite app_nil_r. }
  assert (∀ e, (Err e, b) = (r, b') → ∃ made, migrated a b made b' ∧ made.*1 `sublist_of` n :: names ∧ ∀ l, r = Ok l → l = applied ++ made.*1) as Hstop.
  { intros e [= <- <-]. exists []. split_and!; [done|apply sublist_nil_l|done]. }
  apply NoDup_cons in Hd as [Hn Hd].
  destruct (content_of a directory n) as [content|]; [|apply Hstop]. destruct (query_ok a n); cbn [negb]; [|apply Hstop].
  destruct (recorded b !! n) as [[existing t]|] eqn:Hb.
  - destruct (String.eqb existing _); [|apply Hstop]. intros (made & Hm & Hs & Hl)%IH; [|done]. exists made. split_and!; [done|by apply sublist_cons|done].
  - destruct (transaction exec_script a n content b) as [b1|e] eqn:Ht; [|apply Hstop]. intros (made & (Hr & Hg & Hf) & Hs & Hl)%IH; [|done].
    exists ((n, content) :: made). pose proof (transaction_digests _ _ _ _ _ Ht) as Hd1. apply transaction_Ok in Ht as [Hx _].
    split_and!; [split_and!| |].
    + cbn [replay]. by rewrite Hx.
    + rewrite Hg, Hd1. cbn [fmap list_fmap list_to_map foldr]. rewrite <- insert_union_r, insert_union_l; [done|].
      apply not_elem_of_list_to_map_1. intros Hin. apply list_elem_of_fmap in Hin as ([n' c'] & Heq & Hin). apply list_elem_of_fmap in Hin as ([n2 c2] & Heq2 & Hin).
      cbn in Heq, Heq2. injection Heq2 as -> ->. subst n. apply Hn. eapply sublist_subseteq; [exact Hs|]. by apply (list_elem_of_fmap_2 fst) in Hin.
    + constructor; [by apply digests_lookup|]. eapply Forall_impl; [exact Hf|]. intros [n2 c2]. cbn. rewrite Hd1, lookup_insert_None. by intros [? _].
    + cbn [fmap list_fmap fst]. by apply sublist_skip.
    + intros l Hr'. rewrite (Hl l Hr'). cbn. by rewrite <- app_assoc.
Qed.

(** ** A run that failed, made again *)

Lemma apply_all_same a directory names : ∀ applied applied1 b b1 l b',
  apply_all exec_script a directory names applied b = (Ok l, b') → same b b1 →
  ∃ l1 b1', apply_all exec_script a directory names applied1 b1 = (Ok l1, b1') ∧ same b' b1'.
Proof.
  induction names as [|n names IH]; intros applied applied1 b b1 l b'; cbn [apply_all].
  { intros [= <- <-] Hs. by exists applied1, b1. }
  destruct (content_of a directory n) as [content|]; [|done]. destruct (query_ok a n); cbn [negb]; [|done].
  intros Hr [Hs Hd]. assert (fst <$> recorded b !! n = fst <$> recorded b1 !! n) as Hn.
  { rewrite <- !lookup_fmap. fold (digests b) (digests b1). by rewrite Hd. }
  destruct (recorded b !! n) as [[existing t]|], (recorded b1 !! n) as [[existing1 t1]|]; try done.
  - cbn in Hn. injection Hn as ->. destruct (String.eqb existing1 _); [|done]. by eapply IH.
  - unfold transaction in *. destruct (begin_ok a n); [|done]. cbn [negb] in *.
    destruct (script_alike content (script_time a n) (script_time a n) _ _ Hs) as [s s1 Hss|]; [|done]. destruct (insert_ok a n); [|done]. cbn [negb] in *.
    destruct (commit_ok a n); [|done]. cbn [negb] in *. eapply IH; [exact Hr|]. split; [exact Hss|]. by rewrite !digests_record, Hd.
Qed.
Lemma same_refl (b : Base S) : same b b.
Proof. by split. Qed.
Lemma same_trans (b1 b2 b3 : Base S) : same b1 b2 → same b2 b3 → same b1 b3.
Proof. intros [H1 H2] [H3 H4]. split; [by etrans|congruence]. Qed.
(** The step of a migration that is recorded. *)
Lemma apply_recorded a directory n names applied content t b :
  content_of a directory n = Some content → query_ok a n = true → recorded b !! n = Some (checksum_of content, t) →
  apply_all exec_script a directory (n :: names) applied b = apply_all exec_script a directory names applied b.
Proof. intros Hc Hq Hr. cbn [apply_all]. by rewrite Hc, Hq, Hr, String.eqb_refl. Qed.
Lemma apply_all_again a1 a2 directory names : (∀ n, content_of a1 directory n = content_of a2 directory n) →
  ∀ applied1 applied2 applied b l b2 r b1,
  apply_all exec_script a2 directory names applied2 b = (Ok l, b2) → apply_all exec_script a1 directory names applied1 b = (r, b1) →
  ∃ l' b', apply_all exec_script a2 directory names applied b1 = (Ok l', b') ∧ same b2 b' ∧ ((∃ l1, r = Ok l1) → l' = applied ∧ b' = b1).
Proof.
  intros Hc. induction names as [|n names IH]; intros applied1 applied2 applied b l b2 r b1 H2 H1.
  { cbn [apply_all] in *. injection H2 as <- <-. injection H1 as <- <-. by exists applied, b. }
  assert (∀ e, r = Err e → b1 = b → ∃ l' b', apply_all exec_script a2 directory (n :: names) applied b1 = (Ok l', b') ∧ same b2 b' ∧
    ((∃ l1, r = Ok l1) → l' = applied ∧ b' = b1)) as Hstop.
  { intros e -> ->. destruct (apply_all_same _ _ _ _ applied _ b _ _ H2 (same_refl b)) as (l' & b' & Hr & Hs). exists l', b'.
    split_and!; [done|done|]. by intros [l1 [=]]. }
  cbn [apply_all] in H2, H1. rewrite Hc in H1. destruct (content_of a2 directory n) as [content|] eqn:Hn; [|done].
  destruct (query_ok a2 n) eqn:Hq2; cbn [negb] in H2; [|done]. destruct (query_ok a1 n); cbn [negb] in H1; [|injection H1 as <- <-; by eapply Hstop].
  destruct (recorded b !! n) as [[existing t]|] eqn:Hb.
  - destruct (String.eqb_spec existing (checksum_of content)) as [->|]; [|done].
    rewrite (apply_recorded _ _ _ _ _ content t); [by eapply IH|done|done|]. by eapply recorded_kept.
  - destruct (transaction exec_script a1 n content b) as [b3|e] eqn:Ht1; [|injection H1 as <- <-; by eapply Hstop].
    destruct (transaction exec_script a2 n content b) as [b4|e] eqn:Ht2; [|done].
    assert (same b4 b3) as Hs.
    { split; [|by rewrite (transaction_digests _ _ _ _ _ Ht1), (transaction_digests _ _ _ _ _ Ht2)].
      apply transaction_Ok in Ht1 as [Hx1 _]. apply transaction_Ok in Ht2 as [Hx2 _].
      pose proof (script_alike content (script_time a2 n) (script_time a1 n) (schema b) (schema b) (reflexivity _)) as Hx.
      rewrite Hx1, Hx2 in Hx. by inversion Hx. }
    destruct (apply_all_same _ _ _ _ (applied1 ++ [n]) _ b3 _ _ H2 Hs) as (l3 & b5 & H3 & Hs3).
    destruct (IH _ _ applied _ _ _ _ _ H3 H1) as (l' & b' & Hr & Hs' & Hl). exists l', b'. split_and!; [|by eapply same_trans|done].
    rewrite <- Hr. apply (apply_recorded _ _ _ _ _ content (stamp a1 n)); [done|done|]. eapply recorded_kept; [exact H1|].
    apply transaction_Ok in Ht1 as [_ ->]. unfold record. by rewrite lookup_insert_eq.
Qed.

Lemma names_distinct l : NoDup l.*1 → NoDup (migration_names l).
Proof.
  intros Hl. unfold migration_names, sort_strings. rewrite merge_sort_Permutation. induction l as [|[n d] l IH]; [constructor|].
  cbn [fmap list_fmap fst] in Hl. apply NoDup_cons in Hl as [Hn Hl]. cbn [List.filter]. destruct (_ && _); [|by apply IH].
  cbn [fmap list_fmap fst]. constructor; [|by apply IH]. intros Hin. apply Hn. apply list_elem_of_fmap in Hin as (x & -> & Hin).
  apply list_elem_of_fmap. exists x. split; [done|]. apply list_elem_of_In, List.filter_In in Hin as [Hin _]. by apply list_elem_of_In.
Qed.

(** Migrations are atomic and in order.  Whatever fails, the tables a run leaves are those it
    found after the scripts of some migrations that had no record, in the order of their
    names, and the records are those it found with one for each of them, of the digest of
    its script; a run that succeeds names exactly these. *)
Theorem migrate_atomic (a : Attempt) (databasePath directory : string) (b : Base S) (l : list (string * bool)) :
  entries a = Some l → NoDup l.*1 →
  let (r, b') := Migrate exec_script a databasePath directory b in
  ∃ made, migrated a b made b' ∧ made.*1 `sublist_of` migration_names l ∧ ∀ applied, r = Ok applied → applied = made.*1.
Proof.
  intros Hl Hd. assert (migrated a b [] b) as H0.
  { split_and!; [done| |done]. cbn [fmap list_fmap list_to_map foldr]. by rewrite (left_id_L ∅ (∪)). }
  unfold Migrate. destruct (_ || _); [exists []; split_and!; [done|apply sublist_nil_l|done]|].
  destruct (opened a); cbn [negb]; [|exists []; split_and!; [done|apply sublist_nil_l|done]]. rewrite Hl.
  destruct (apply_all _ _ _ _ _ _) as [r b'] eqn:Hr. apply apply_all_migrated in Hr; [done|by apply names_distinct].
Qed.

(** C22: a run of the migrations can always be made again.  If they would have succeeded at once,
    then after a run that failed at any point (or succeeded), at other times, they succeed
    again and end with the tables they would have had at once but for the times written in
    them, and with the same migrations recorded under the same digests (the date of a record
    is that of the run that made it); and after a run that succeeded they apply nothing and
    change nothing.  What a script does is a parameter of which this is assumed: on tables that
    differ only by such times, whether it succeeds and what it leaves, but for times, does not
    depend on when it runs.  The files of the migrations are the same for both runs. *)
Theorem migrate_again (a1 a2 : Attempt) (databasePath directory : string) (b b2 : Base S) (applied : list string) :
  (∀ path, ReadFile a1 path = ReadFile a2 path) → entries a1 = entries a2 →
  Migrate exec_script a2 databasePath directory b = (Ok applied, b2) →
  let (r, b1) := Migrate exec_script a1 databasePath directory b in
  ∃ applied' b', Migrate exec_script a2 databasePath directory b1 = (Ok applied', b') ∧ alike (schema b') (schema b2) ∧ digests b' = digests b2 ∧
    ((∃ l, r = Ok l) → applied' = [] ∧ b' = b1).
Proof.
  intros Hf He. unfold Migrate. destruct (_ || _); [done|]. destruct (opened a2); cbn [negb]; [|done]. rewrite He.
  destruct (entries a2) as [l|]; [|done]. intros H2.
  assert (∀ b', ∃ l', apply_all exec_script a2 directory (migration_names l) [] b = (Ok l', b2)) as Hb by by exists applied.
  destruct (opened a1); cbn [negb].
  - destruct (apply_all exec_script a1 _ _ _ _) as [r b1] eqn:H1.
    assert (∀ n, content_of a1 directory n = content_of a2 directory n) as Hc by (intros n; unfold content_of; by rewrite Hf).
    destruct (apply_all_again a1 a2 directory _ Hc _ _ [] _ _ _ _ _ H2 H1) as (l' & b' & Hr & [Hs Hd] & Hl). by exists l', b'; split_and!.
  - exists applied, b2. split_and!; [done|done|done|]. by intros [? [=]].
Qed.
End facts.

(** ** An example: tables are the list of the scripts that made them, with the times *)

Definition sample_script (content time : string) (s : list (string * string)) : option (list (string * string)) :=
  if contains content "broken" then None else Some (s ++ [(content, time)]).
Definition sample_alike (s s' : list (string * string)) : Prop := s.*1 = s'.*1.
#[local] Instance sample_alike_equivalence : Equivalence sample_alike.
Proof. unfold sample_alike. split; [intros x; reflexivity|intros x y; congruence|intros x y z; congruence]. Qed.
Lemma sample_script_alike content time time' s s' : sample_alike s s' →
  option_Forall2 sample_alike (sample_script content time s) (sample_script content time' s').
Proof. intros Hs. unfold sample_script. destruct (contains content "broken"); constructor. unfold sample_alike. by rewrite !fmap_app, Hs. Qed.
(** At 08:00 the second migration cannot be committed; at 09:00 all goes well. *)
Definition sample_attempt (commits : bool) : Attempt :=
  let now := if commits then "09:00" else "08:00" in
  mkAttempt true (Some [("002_b.sql", false); ("readme", false); ("001_a.sql", false)])
    (λ p, if String.eqb p "/m/001_a.sql" then Some "a" else Some "b")
    (λ _, true) (λ _, true) (λ _, true) (λ n, commits || String.eqb n "001_a.sql") (λ _, now) (λ _, now).
Definition sample_stopped : Base (list (string * string)) := mkBase [("a", "08:00")] {["001_a.sql" := (checksum_of "a", "08:00")]}.
Lemma migrate_again_witness :
  Migrate sample_script (sample_attempt false) "/db" "/m" (mkBase [] ∅) = (Err CommitFailed, sample_stopped) ∧
  schema (Migrate sample_script (sample_attempt true) "/db" "/m" sample_stopped).2 = [("a", "08:00"); ("b", "09:00")] ∧
  ∃ applied' b', Migrate sample_script (sample_attempt true) "/db" "/m" sample_stopped = (Ok applied', b') ∧
    sample_alike (schema b') [("a", "09:00"); ("b", "09:00")].
Proof.
  assert (Migrate sample_script (sample_attempt false) "/db" "/m" (mkBase [] ∅) = (Err CommitFailed, sample_stopped)) as H1 by by vm_compute.
  split; [exact H1|]. split; [by vm_compute|].
  pose proof (migrate_again sample_script sample_alike sample_script_alike (sample_attempt false) (sample_attempt true) "/db" "/m" (mkBase [] ∅)
    (Migrate sample_script (sample_attempt true) "/db" "/m" (mkBase [] ∅)).2 ["001_a.sql"; "002_b.sql"] (λ _, eq_refl) eq_refl ltac:(by vm_compute)) as H2.
  rewrite H1 in H2. destruct H2 as (l & b & H2 & Hs & _). exists l, b. split; [exact H2|]. unfold sample_alike in *. rewrite Hs. by vm_compute.
Defined.
Lemma migrate_atomic_witness :
  ∃ made, migrated sample_script (sample_attempt false) (mkBase [] ∅) made sample_stopped ∧ made.*1 `sublist_of` ["001_a.sql"; "002_b.sql"].
Proof.
  assert (Migrate sample_script (sample_attempt false) "/db" "/m" (mkBase [] ∅) = (Err CommitFailed, sample_stopped)) as H1 by by vm_compute.
  pose proof (migrate_atomic sample_script (sample_attempt false) "/db" "/m" (mkBase [] ∅) _ eq_refl
    ltac:(apply (bool_decide_unpack _); by vm_compute)) as H2.
  rewrite H1 in H2. destruct H2 as (made & Hm & Hs & _). exists made. split; [exact Hm|].
  replace ["001_a.sql"; "002_b.sql"] with (migration_names [("002_b.sql", false); ("readme", false); ("001_a.sql", false)]) by by vm_compute. exact Hs.
Defined.
