(* ===== verification/MysqlSetup.v ===== *)
(** * The account for MySQL: [internal/mysqlsetup]

    The account the daemon reads MySQL with is created by the MySQL client, run as the
    administrator, and its credentials are written in a file of root.  The client, the
    modes of the files, the random bytes and the names of temporary files are parameters. *)

From S2P Require Import Prelude GoStrings StringFacts Codec Command Triple Files Units.
From S2P Require Backup JsonParse.
From stdpp Require stringmap.
From Stdlib Require Import Ascii String.
#[local] Open Scope string_scope.
#[local] Open Scope list_scope.
#[local] Open Scope Z_scope.

Import Backup(Join).
Import JsonParse(quote_char).

Definition monitorLogin : string := "aegisadmin_monitor".
Definition inventorySchema : string := "aegisadmin_monitoring".
Definition inventoryProcedure : string := "database_inventory_v2".
Definition inventoryCheckSQL : string := "CALL aegisadmin_monitoring.database_inventory_v2()".
Definition login_byte (c : ascii) : bool := is_lower c || is_upper c || is_digit c || contains_byte c "_.-".
(** [^[A-Za-z0-9_.-]{1,64}$] *)
Definition loginPattern (s : string) : bool := sforall login_byte s && (1 <=? slen s) && (slen s <=? 64).

Record Administrator := mkAdministrator { Login : string; Password : string }.
Inductive setup_error := NoClient | NoRandom | InvalidLogin | NotStored | AdministratorAuthentication (message : string).

(** ** Texts *)

Definition monitoringSQL (password : string) : string :=
  "CREATE USER IF NOT EXISTS '" +++ monitorLogin +++ "'@'localhost' IDENTIFIED BY '" +++ password +++ "';" +++
  "ALTER USER '" +++ monitorLogin +++ "'@'localhost' IDENTIFIED BY '" +++ password +++ "';" +++
  "CREATE DATABASE IF NOT EXISTS " +++ inventorySchema +++ ";" +++
  "DROP VIEW IF EXISTS " +++ inventorySchema +++ ".database_inventory;" +++
  "DROP PROCEDURE IF EXISTS " +++ inventorySchema +++ "." +++ inventoryProcedure +++ ";" +++
  "CREATE PROCEDURE " +++ inventorySchema +++ "." +++ inventoryProcedure +++ "() SQL SECURITY DEFINER " +++
  "SELECT s.SCHEMA_NAME AS database_name, COALESCE(SUM(t.DATA_LENGTH + t.INDEX_LENGTH), 0) AS size_bytes, COUNT(t.TABLE_NAME) AS table_count " +++
  "FROM information_schema.SCHEMATA AS s LEFT JOIN information_schema.TABLES AS t ON t.TABLE_SCHEMA = s.SCHEMA_NAME " +++
  "WHERE s.SCHEMA_NAME <> '" +++ inventorySchema +++ "' GROUP BY s.SCHEMA_NAME;" +++
  "GRANT PROCESS ON *.* TO '" +++ monitorLogin +++ "'@'localhost';" +++
  "GRANT EXECUTE ON PROCEDURE " +++ inventorySchema +++ "." +++ inventoryProcedure +++ " TO '" +++ monitorLogin +++ "'@'localhost';FLUSH PRIVILEGES;".
Definition option_byte (c : ascii) : string :=
  if Ascii.eqb c "\" then "\\"
  else if Ascii.eqb c quote_char then String "\" (String quote_char "")
  else if Ascii.eqb c nl then "\n" else if Ascii.eqb c cr then "\r" else if Ascii.eqb c "009" then "\t" else String c "".
Fixpoint option_text (value : string) : string :=
  match value with EmptyString => "" | String c value => option_byte c +++ option_text value end.
Definition optionValue (value : string) : string := String quote_char (option_text value +++ String quote_char "").
Definition clientConfiguration (login password : string) : string :=
  "[client]" +++ snl +++ "user=" +++ optionValue login +++ snl +++ "password=" +++ optionValue password +++ snl +++ "protocol=socket" +++ snl.

(** ** The set-up *)

(** [Mode] is that of [os.Lstat], with the bits of [os.FileMode]; [temporary] is the name [os.CreateTemp] would take in
    a directory, with a prefix. *)
Class SetupHost (W : Type) := {
  Mode : W → string → option Z;
  random_bytes : W → option string * W;
  MkdirAll : W → string → bool;
  temporary : W → string → string → string;
  timed_out : outcome → bool;
}.
Definition ModeType : Z := 2^31 + 2^27 + 2^25 + 2^24 + 2^26 + 2^21 + 2^19.
Definition ModeSymlink : Z := 2^27.
Definition Clients : list string := ["/usr/bin/mysql"; "/usr/bin/mariadb"; "/usr/local/bin/mysql"; "/usr/local/bin/mariadb"].
Definition CredentialsPath : string := "/etc/aegisadmin-system/mysql-client.cnf".

Section setup.
Context {W : Type} `{!Programs W} `{!FileSystem W} `{!SetupHost W}.
Implicit Types (w : W).

Definition secureRegular w (path : string) : bool :=
  match Mode w path with
  | Some mode => (Z.land mode ModeSymlink =? 0) && (Z.land mode ModeType =? 0) && (Z.land (Z.land mode 511) 63 =? 0)
  | None => false
  end.
Definition executable_path : option string := List.find executable Clients.
(** [run]: nothing, or the message of its error. *)
Definition run_client (client : string) (arguments : list string) : cmd W (option string) :=
  do! o := run client arguments in
  ret (if timed_out o then Some "la commande MySQL a dépassé le délai autorisé"
       else if succeeded o then None
       else let message := trim_space (to_valid_utf8 0 false (stdout o)) in
            Some (if String.eqb message "" then "commande refusée" else message)).
Definition randomPassword : cmd W (option string) := do! b := touch random_bytes in ret (b64_encode URLAlphabet <$> b).
Definition check_arguments : list string :=
  ["--defaults-extra-file=" +++ CredentialsPath; "--batch"; "--skip-column-names"; "--execute"; inventoryCheckSQL].
Definition setup_arguments (credentials : option string) (password : string) : list string :=
  match credentials with Some path => ["--defaults-extra-file=" +++ path] | None => [] end ++
  ["--batch"; "--protocol=socket"; "--execute"; monitoringSQL password].

Definition temporaryCredentials (directory login password : string) : cmd W (option string) :=
  do! path := look (λ w, if MkdirAll w directory then Some (temporary w directory ".mysql-administrator-") else None) in
  match path with
  | None => ret None
  | Some path =>
      do! created := write_file path "" in
      if created : bool then
        do! written := write_file path (clientConfiguration login password) in
        if written : bool then ret (Some path) else do! _ := remove_file path in ret None
      else ret None
  end.
(** [os.Rename] over the file of the credentials or another. *)
Definition rename_at (from to : string) w : bool * W :=
  match files w !! from with
  | Some content => if may_write w to content then (true, set_files (<[to := content]> (base.delete from (files w))) w) else (false, w)
  | None => (false, w)
  end.
(** [atomicWrite]; the removal of the temporary file is deferred, and there is none after a rename. *)
Definition atomicWrite (path content : string) : cmd W bool :=
  do! temporary := look (λ w, if MkdirAll w (Dir path) then Some (temporary w (Dir path) ".mysql-client-") else None) in
  match temporary with
  | None => ret false
  | Some temporary =>
      do! created := write_file temporary "" in
      if created : bool then
        do! written := write_file temporary content in
        do! renamed := (if written : bool then touch (rename_at temporary path) else ret false) in
        do! _ := remove_file temporary in ret renamed
      else ret false
  end.
(** The account is created and its credentials stored. *)
Definition create_account (client : string) (credentials : option string) (password : string) : cmd W (res setup_error bool) :=
  do! failed := run_client client (setup_arguments credentials password) in
  match failed with
  | Some message => ret (Err (AdministratorAuthentication message))
  | None =>
      do! stored := atomicWrite CredentialsPath (clientConfiguration monitorLogin password) in
      ret (if stored : bool then Ok true else Err NotStored)
  end.
Definition Configure (administrator : option Administrator) : cmd W (res setup_error bool) :=
  match executable_path with
  | None => ret (Err NoClient)
  | Some client =>
      do! secure := look (λ w, secureRegular w CredentialsPath) in
      do! failed := (if secure : bool then run_client client check_arguments else ret (Some "")) in
      match failed with
      | None => ret (Ok false)
      | Some _ =>
          do! password := randomPassword in
          match password, administrator with
          | None, _ => ret (Err NoRandom)
          | Some password, None => create_account client None password
          | Some password, Some a =>
              if negb (loginPattern (Login a)) then ret (Err InvalidLogin)
              else
                do! path := temporaryCredentials (Dir CredentialsPath) (Login a) (Password a) in
                match path with
                | None => ret (Err NotStored)
                | Some path =>
                    do! r := create_account client (Some path) password in
                    do! _ := remove_file path in ret r
                end
          end
      end
  end.
End setup.

(** ** Facts *)

Lemma option_text_one_line value : contains_byte nl (option_text value) = false.
Proof.
  induction value as [|c value IH]; [done|]. cbn [option_text]. rewrite contains_byte_app, IH, orb_false_r.
  unfold option_byte. destruct (Ascii.eqb c "\"); [done|]. destruct (Ascii.eqb c quote_char); [done|].
  destruct (Ascii.eqb c nl) eqn:Hn; [done|]. destruct (Ascii.eqb c cr); [done|]. destruct (Ascii.eqb c "009"); [done|].
  unfold contains_byte. cbn [sexists]. by rewrite orb_false_r, Ascii.eqb_sym.
Qed.
(** Neither a login nor a password can add a line to the file of the credentials. *)
Lemma clientConfiguration_lines login password :
  split nl (clientConfiguration login password) =
    ["[client]"; "user=" +++ optionValue login; "password=" +++ optionValue password; "protocol=socket"; ""].
Proof.
  unfold clientConfiguration. assert (∀ v, contains_byte nl (optionValue v) = false) as Hv.
  { intros v. unfold optionValue. change (String quote_char (option_text v +++ String quote_char "")) with (String quote_char "" +++ (option_text v +++ String quote_char "")).
    by rewrite !contains_byte_app, option_text_one_line. }
  change ("[client]" +++ snl +++ "user=" +++ optionValue login +++ snl +++ "password=" +++ optionValue password +++ snl +++ "protocol=socket" +++ snl)
    with ("[client]" +++ String nl ("user=" +++ (optionValue login +++ String nl ("password=" +++ (optionValue password +++ String nl ("protocol=socket" +++ String nl "")))))).
  rewrite <- (sapp_assoc "user="), <- (sapp_assoc "password="). rewrite !split_app_sep; [done|done| | |done]; rewrite contains_byte_app, Hv; done.
Qed.
Section facts.
Context {W : Type} `{!Programs W} `{!FileSystem W} `{!SetupHost W}.

(** The calls of the set-up: the one that tests the account, and the one that creates it. *)
Definition setup_call (name : string) (arguments : list string) : Prop :=
  name ∈ Clients ∧
  (arguments = check_arguments ∨
   ∃ credentials bytes, arguments = setup_arguments credentials (b64_encode URLAlphabet bytes) ∧
     (credentials = None ∨ ∃ w : W, credentials = Some (temporary w (Dir CredentialsPath) ".mysql-administrator-"))).
Lemma client_listed client : executable_path = Some client → client ∈ Clients.
Proof. unfold executable_path. intros Hf. apply find_some in Hf as [Hf _]. by apply list_elem_of_In. Qed.
Lemma only_setup administrator : only setup_call (Configure (W := W) administrator).
Proof.
  unfold Configure. destruct executable_path as [client|] eqn:Hc; [|walk]. apply client_listed in Hc.
  assert (∀ credentials bytes, (credentials = None ∨ ∃ w : W, credentials = Some (temporary w (Dir CredentialsPath) ".mysql-administrator-")) →
    only setup_call (create_account (W := W) client credentials (b64_encode URLAlphabet bytes))) as Hcreate.
  { intros credentials bytes Ht. unfold create_account, run_client. apply only_bind.
    - apply only_bind; [|intros ?; walk]. apply only_run. split; [done|]. right. by exists credentials, bytes.
    - intros [message|]; [walk|]. unfold atomicWrite, write_file, remove_file. walk. }
  apply only_bind; [walk|]. intros secure. apply only_bind.
  { destruct secure; [|walk]. unfold run_client. apply only_bind; [|intros ?; walk]. apply only_run. split; [done|by left]. }
  intros [m|]; [|walk].
  apply (only_yields setup_call (λ p, ∀ x, p = Some x → ∃ bytes, x = b64_encode URLAlphabet bytes)).
  { unfold randomPassword. walk. }
  { unfold randomPassword. apply yields_then. intros b. apply yields_ret. intros x. destruct b as [b|]; intros [= <-]. by exists b. }
  intros [password|] Hp; [|walk]. destruct (Hp password eq_refl) as [bytes ->]. destruct administrator as [a|]; [|apply Hcreate; by left].
  destruct (negb (loginPattern (Login a))); [walk|].
  apply (only_yields setup_call (λ p, ∀ x, p = Some x → ∃ w : W, x = temporary w (Dir CredentialsPath) ".mysql-administrator-")).
  { unfold temporaryCredentials, write_file, remove_file. walk. }
  { unfold temporaryCredentials. eapply (yields_bind (λ p, ∀ x, p = Some x → ∃ w : W, x = temporary w (Dir CredentialsPath) ".mysql-administrator-")).
    - intros m0 x m1 [= <- <-]. intros x Hx. destruct (MkdirAll _ _); [|done]. injection Hx as <-. by eexists.
    - intros [path|] Ht; [|by apply yields_ret]. apply yields_then. intros [|]; [|by apply yields_ret].
      apply yields_then. intros [|]; [by apply yields_ret|]. apply yields_then. intros ?. by apply yields_ret. }
  intros [path|] Ht; [|walk]. destruct (Ht path eq_refl) as [w ->].
  apply only_bind; [apply Hcreate; right; by exists w|]. intros r. unfold remove_file. walk.
Qed.

(** ** Files *)

Context (Hexec : ∀ (w : W) name arguments, files (exec w name arguments).1 = files w) (Hrandom : ∀ w : W, files (random_bytes w).2 = files w)
  (Hfresh : ∀ (w : W) directory prefix, files w !! temporary w directory prefix = None ∧ temporary w directory prefix ≠ CredentialsPath).

(** The name of a temporary file of the set-up, which no file had before. *)
Definition temporary_name (F : gmap string string) (path : string) : Prop :=
  F !! path = None ∧ path ≠ CredentialsPath ∧
  ∃ (w : W) prefix, prefix ∈ [".mysql-administrator-"; ".mysql-client-"] ∧ path = temporary w (Dir CredentialsPath) prefix.
(** A temporary file the system refused to remove. *)
Definition stuck (F : gmap string string) (path : string) : Prop := temporary_name F path ∧ ∃ w : W, may_remove w path = false.
(** The files are those of [F] but for that of the credentials, these temporary files, and those that could not be removed. *)
Definition held (F : gmap string string) (l : list string) (credentials : option string) (w : W) : Prop :=
  Forall (temporary_name F) l ∧ files w !! CredentialsPath = credentials ∧
  ∀ path, path ≠ CredentialsPath → path ∈ l ∨ files w !! path = F !! path ∨ stuck F path.
Definition never (w : W) : Prop := False.
Section held.
Context (F : gmap string string) (c : option string).
Implicit Types (l : list string).

Lemma held_keeps l w w' : files w' = files w → held F l c w → held F l c w'.
Proof. unfold held. by intros ->. Qed.
Lemma held_temporary l (w : W) prefix : prefix ∈ [".mysql-administrator-"; ".mysql-client-"] → held F l c w →
  temporary_name F (temporary w (Dir CredentialsPath) prefix).
Proof.
  intros Hp (Hl & _ & Hk). destruct (Hfresh w (Dir CredentialsPath) prefix) as [Hn Hne]. split_and!; [|done|by exists w, prefix].
  destruct (Hk _ Hne) as [Hin|[<-|[[Hs _] _]]]; [|done|done]. rewrite Forall_forall in Hl. by destruct (Hl _ Hin).
Qed.
Lemma held_more l path w : temporary_name F path → held F l c w → held F (path :: l) c w.
Proof. intros Ht (Hl & Hc & Hk). split_and!; [by constructor|done|]. intros p Hp. destruct (Hk p Hp) as [?|?]; [left; by right|by right]. Qed.
Lemma held_write l path content w :
  held F (path :: l) c w → held F (path :: l) c (write_at path content w).2 ∧
    ((write_at path content w).1 = true → files (write_at path content w).2 !! path = Some content).
Proof.
  intros Hh. destruct (write_at path content w) as [ok w'] eqn:E. cbn [fst snd].
  apply write_at_cases in E as [[-> E]|[-> ->]]; [|done]. rewrite E, lookup_insert_eq. split; [|done].
  destruct Hh as (Hl & Hc & Hk). pose proof Hl as [(_ & Hne & _) _]%Forall_cons. unfold held. rewrite E. split_and!; [done|by rewrite lookup_insert_ne|].
  intros p Hp. destruct (decide (p = path)) as [->|Hn]; [left; by left|]. rewrite lookup_insert_ne by done. by apply Hk.
Qed.
Lemma held_remove l path w : held F (path :: l) c w → held F l c (remove_at path w).2.
Proof.
  intros (Hl & Hc & Hk). apply Forall_cons in Hl as [Ht Hl]. pose proof Ht as (Hn & Hne & _).
  assert (files w !! path = None → held F l c w) as Hgone.
  { intros Hg. split_and!; [done..|]. intros p Hp. destruct (decide (p = path)) as [->|Hd]; [right; left; by rewrite Hg, Hn|].
    destruct (Hk p Hp) as [[?|?]%elem_of_cons|?]; [done|by left|by right]. }
  unfold remove_at. destruct (files w !! path) as [content|] eqn:E; [|by apply Hgone]. destruct (may_remove w path) eqn:Hr; cbn [snd].
  - unfold held. rewrite files_set. split_and!; [done|by rewrite lookup_delete_ne|]. intros p Hp.
    destruct (decide (p = path)) as [->|Hd]; [right; left; by rewrite lookup_delete_eq, Hn|]. rewrite lookup_delete_ne by done.
    destruct (Hk p Hp) as [[?|?]%elem_of_cons|?]; [done|by left|by right].
  - split_and!; [done..|]. intros p Hp. destruct (Hk p Hp) as [[->|?]%elem_of_cons|?]; [right; right; split; [done|by exists w]|by left|by right].
Qed.
End held.
Lemma held_rename F l c path content w : held F (path :: l) c w → files w !! path = Some content →
  let (ok, w') := rename_at path CredentialsPath w in held F (path :: l) (if ok : bool then Some content else c) w'.
Proof.
  intros (Hl & Hc & Hk) Hp. pose proof Hl as [(_ & Hne & _) _]%Forall_cons. unfold rename_at. rewrite Hp. destruct (may_write w _ _); [|done].
  unfold held. rewrite files_set. split_and!; [done|by rewrite lookup_insert_eq|]. intros p Hq. rewrite lookup_insert_ne by done.
  destruct (decide (p = path)) as [->|Hd]; [left; by left|]. rewrite lookup_delete_ne by done. by apply Hk.
Qed.
Section commands.
Context (F : gmap string string).

Lemma triple_client l c client arguments : triple (held F l c) (run_client (W := W) client arguments) (λ _, held F l c) never.
Proof.
  unfold run_client. eapply triple_bind; [apply (triple_run _ _ _ (λ _, held F l c)); intros w Hw; apply (held_keeps F c l w); [apply Hexec|exact Hw]|].
  intros o. by apply triple_ret.
Qed.
(** A temporary file is named, and made. *)
Definition named (l : list string) c (p : option string) (w : W) : Prop := held F l c w ∧ ∀ path, p = Some path → temporary_name F path.
Lemma triple_named l c prefix (ok : W → bool) : prefix ∈ [".mysql-administrator-"; ".mysql-client-"] →
  triple (held F l c) (look (λ w, if ok w then Some (temporary w (Dir CredentialsPath) prefix) else None)) (named l c) never.
Proof.
  intros Hp. apply triple_look. intros w Hw. split; [done|]. intros path. destruct (ok w); [|done]. intros [= <-]. by apply (held_temporary F c l).
Qed.
Lemma triple_create l c path :
  triple (named l c (Some path)) (write_file (W := W) path "") (λ ok, held F (if ok : bool then path :: l else l) c) never.
Proof.
  apply triple_touch. intros w [Hw Hp]. pose proof (held_write F c l path "" w (held_more F c l path w (Hp path eq_refl) Hw)) as [Hh _].
  destruct (write_at path "" w) as [ok w'] eqn:E. apply write_at_cases in E as [[-> E]|[-> ->]]; [exact Hh|exact Hw].
Qed.
Lemma triple_write l c path content :
  triple (held F (path :: l) c) (write_file (W := W) path content)
    (λ ok w, held F (path :: l) c w ∧ (ok = true → files w !! path = Some content)) never.
Proof. apply triple_touch. intros w Hw. by apply held_write. Qed.
Lemma triple_rename l c path content :
  triple (λ w, held F (path :: l) c w ∧ files w !! path = Some content) (touch (W := W) (rename_at path CredentialsPath))
    (λ ok, held F (path :: l) (if ok : bool then Some content else c)) never.
Proof. apply triple_touch. intros w [Hw Hp]. pose proof (held_rename F l c path content w Hw Hp) as Hr. by destruct (rename_at _ _ _). Qed.
Lemma triple_remove l c path : triple (held F (path :: l) c) (remove_file (W := W) path) (λ _, held F l c) never.
Proof. apply triple_touch. intros w Hw. by apply held_remove. Qed.
Lemma triple_atomic l c content :
  triple (held F l c) (atomicWrite (W := W) CredentialsPath content) (λ ok, held F l (if ok : bool then Some content else c)) never.
Proof.
  unfold atomicWrite. eapply triple_bind; [by apply triple_named; right; left|]. intros [path|]; [|by apply triple_ret; intros w [Hw _]].
  eapply triple_bind; [apply triple_create|]. intros [|]; [|by apply triple_ret].
  eapply triple_bind; [apply triple_write|]. intros written.
  eapply (triple_bind _ _ _ (λ ok, held F (path :: l) (if ok : bool then Some content else c))).
  - destruct written; [|by apply triple_ret; intros w [Hw _]]. eapply triple_pre; [apply triple_rename|]. intros w [Hw Hc]. auto.
  - intros ok. eapply triple_bind; [apply triple_remove|]. intros ?. by apply triple_ret.
Qed.
Lemma triple_temporary c login password :
  triple (held F [] c) (temporaryCredentials (W := W) (Dir CredentialsPath) login password)
    (λ p, held F (match p with Some path => [path] | None => [] end) c) never.
Proof.
  unfold temporaryCredentials. eapply triple_bind; [by apply triple_named; left|]. intros [path|]; [|by apply triple_ret; intros w [Hw _]].
  eapply triple_bind; [apply triple_create|]. intros [|]; [|by apply triple_ret].
  eapply triple_bind; [apply triple_write|]. intros [|]; [by apply triple_ret; intros w [Hw _]|].
  eapply triple_bind; [eapply triple_pre; [apply triple_remove|by intros w [Hw _]]|]. intros ?. by apply triple_ret.
Qed.
(** The file of the credentials is the old one, unless the account was created. *)
Definition created l c (r : res setup_error bool) (w : W) : Prop :=
  match r with
  | Ok true => ∃ bytes, held F l (Some (clientConfiguration monitorLogin (b64_encode URLAlphabet bytes))) w
  | _ => held F l c w
  end.
Lemma triple_account l c client credentials bytes :
  triple (held F l c) (create_account (W := W) client credentials (b64_encode URLAlphabet bytes)) (created l c) never.
Proof.
  unfold create_account. eapply triple_bind; [apply triple_client|]. intros [message|]; [by apply triple_ret|].
  eapply triple_bind; [apply triple_atomic|]. intros [|]; apply triple_ret; [by exists bytes|done].
Qed.
Lemma triple_random l c : triple (held F l c) (randomPassword (W := W))
  (λ p w, held F l c w ∧ ∀ x, p = Some x → ∃ bytes, x = b64_encode URLAlphabet bytes) never.
Proof.
  unfold randomPassword. eapply (triple_bind _ _ _ (λ _, held F l c)).
  - apply triple_touch. intros w Hw. apply (held_keeps F c l w); [apply Hrandom|exact Hw].
  - intros b. apply triple_ret. intros w Hw. split; [done|]. intros x. destruct b as [b|]; intros [= <-]. by exists b.
Qed.
(** The temporary file of the administrator is removed whatever came of it. *)
Lemma triple_deferred c path (c1 : cmd W (res setup_error bool)) :
  triple (held F [path] c) c1 (created [path] c) never →
  triple (held F [path] c) (do! r := c1 in do! _ := remove_file path in ret r) (created [] c) never.
Proof.
  intros Hc. eapply triple_bind; [exact Hc|]. intros r. eapply (triple_bind _ _ _ (λ _, created [] c r)).
  - apply triple_touch. intros w Hr. destruct r as [[|]|e]; cbn [created] in *; [destruct Hr as [bytes Hr]; exists bytes|..]; by apply held_remove.
  - intros ?. by apply triple_ret.
Qed.
Lemma triple_configure c administrator : triple (held F [] c) (Configure (W := W) administrator) (created [] c) never.
Proof.
  unfold Configure. destruct executable_path as [client|]; [|by apply triple_ret].
  eapply triple_bind; [by apply (triple_look _ _ (λ _, held F [] c))|]. intros secure.
  eapply (triple_bind _ _ _ (λ _, held F [] c)); [destruct secure; [apply triple_client|by apply triple_ret]|].
  intros [message|]; [|by apply triple_ret]. eapply triple_bind; [apply triple_random|].
  intros [password|]; [|by apply triple_ret; intros w [Hw _]]. intros m [Hm Hp]. destruct (Hp password eq_refl) as [bytes ->]. revert m Hm.
  destruct administrator as [a|]; [|exact (triple_account [] c client None bytes)].
  destruct (negb (loginPattern (Login a))); [exact (triple_ret (held F [] c) (Err InvalidLogin) (created [] c) never (λ w Hw, Hw))|].
  refine (triple_bind (held F [] c) _ _ _ (created [] c) never (triple_temporary c (Login a) (Password a)) _).
  intros [path|]; [|by apply triple_ret]. apply triple_deferred, triple_account.
Qed.
End commands.
Lemma held_start (w : W) : held (files w) [] (files w !! CredentialsPath) w.
Proof. split_and!; [constructor|done|]. intros path _. right. by left. Qed.

(** C23: the set-up of the account leaves nothing behind and shows no secret of the administrator.
    Whatever the client answers and whatever fails, the only programs run are one of the four
    clients, with arguments that do not depend on the administrator but for the name of a
    temporary file.  Every file but that of the credentials is afterwards what it was, so that
    neither the temporary file with the administrator's password nor that of the new
    credentials is left, except a temporary file whose removal the system refuses, since the
    error of that removal is ignored; and the file of the credentials is what it was, unless the
    set-up answers that the account was created, when it holds its credentials.  It is assumed
    that the client and the draw of random bytes leave the files alone, and that a temporary
    file gets a name no file has, which is not that of the credentials. *)
Theorem setup_leaves_nothing (administrator : option Administrator) (m : Machine W) :
  ∃ r m' l, Configure administrator m = (Ok r, m') ∧ ran m' = ran m ++ l ∧ Forall (calls setup_call) l ∧
    (∀ path, path ≠ CredentialsPath → files (inside m') !! path = files (inside m) !! path ∨ stuck (files (inside m)) path) ∧
    match r with
    | Ok true => ∃ bytes, files (inside m') !! CredentialsPath = Some (clientConfiguration monitorLogin (b64_encode URLAlphabet bytes))
    | _ => files (inside m') !! CredentialsPath = files (inside m) !! CredentialsPath
    end.
Proof.
  pose proof (triple_configure (files (inside m)) (files (inside m) !! CredentialsPath) administrator m (held_start _)) as Ht.
  destruct (Configure administrator m) as [[r|?] m'] eqn:E; [|done]. destruct (only_setup administrator m _ _ E) as (l & Hl & Hf).
  exists r, m', l. split_and!; [done..| |].
  - intros path Hp. destruct r as [[|]|e]; cbn [created] in Ht; [destruct Ht as [? (_ & _ & Ht)]|destruct Ht as (_ & _ & Ht)..];
      by destruct (Ht path Hp) as [?%not_elem_of_nil|?].
  - destruct r as [[|]|e]; cbn [created] in Ht; [destruct Ht as [bytes (_ & Ht & _)]; by exists bytes|by destruct Ht as (_ & ? & _)..].
Qed.
End facts.

(** ** An example: the host is its files, the account does not exist yet, and the file of the administrator cannot be removed *)

Definition sample_programs : Programs (gmap string string) :=
  {| exec w name arguments := (w, mkOutcome "" "" 0); executable := λ p, String.eqb p "/usr/bin/mariadb" |}.
Definition files_of (removable : string → bool) : FileSystem (gmap string string) :=
  {| files w := w; set_files fs _ := fs; may_write _ _ _ := true; may_remove _ := removable; files_set _ _ := eq_refl |}.
Definition sample_files : FileSystem (gmap string string) := files_of (λ _, true).
(** A name no file has, and not that of the credentials. *)
Definition unused (w : gmap string string) (wanted : string) : string := stringmap.fresh_string wanted (<[CredentialsPath := ""]> w).
Lemma unused_fresh w wanted : w !! unused w wanted = None ∧ unused w wanted ≠ CredentialsPath.
Proof.
  pose proof (stringmap.fresh_string_fresh (<[CredentialsPath := ""]> w) wanted) as Hf. fold (unused w wanted) in Hf.
  by apply lookup_insert_None in Hf as [Hw Hne].
Qed.
Definition sample_host : SetupHost (gmap string string) :=
  {| Mode _ _ := None; random_bytes w := (Some "0123456789abcdef0123456789abcdef", w); MkdirAll _ _ := true;
     temporary w directory prefix := unused w (directory +++ "/" +++ prefix +++ "1"); timed_out _ := false |}.
Definition sample_start : gmap string string := {["/etc/hosts" := "127.0.0.1"]}.
Definition kept_password : FileSystem (gmap string string) := files_of (λ p, negb (contains p "administrator")).
Lemma setup_leaves_nothing_witness : ∃ m',
  @Configure _ sample_programs kept_password sample_host (Some (mkAdministrator "root" "secret")) (mkMachine sample_start []) = (Ok (Ok true), m') ∧
  inside m' !! "/etc/aegisadmin-system/.mysql-administrator-1" = Some (clientConfiguration "root" "secret") ∧
  inside m' !! "/etc/aegisadmin-system/.mysql-client-1" = None ∧ inside m' !! "/etc/hosts" = Some "127.0.0.1" ∧
  ∃ bytes, inside m' !! CredentialsPath = Some (clientConfiguration monitorLogin (b64_encode URLAlphabet bytes)).
Proof.
  destruct (@setup_leaves_nothing _ sample_programs kept_password sample_host (λ _ _ _, eq_refl) (λ _, eq_refl)
    (λ w d p, unused_fresh w _) (Some (mkAdministrator "root" "secret")) (mkMachine sample_start [])) as (r & m' & l & E & _ & _ & Hk & Hr).
  pose proof (f_equal fst E) as E1. vm_compute in E1. injection E1 as <-.
  exists m'. split; [exact E|]. cbn [files kept_password files_of inside] in Hk, Hr. pose proof (f_equal snd E) as E2. cbn [snd] in E2.
  split_and!; [rewrite <- E2; by vm_compute|rewrite <- E2; by vm_compute| |exact Hr].
  destruct (Hk "/etc/hosts") as [->|[[Hn _] _]]; [done|by vm_compute|by vm_compute in Hn].
Defined.
