(* ===== verification/AdminTool.v ===== *)
(** * The administration tool: [cmd/aegisadmin-admin]

    The command line a server administrator uses as root: migrations, the creation of the
    root account, its recovery, and whether it was created.  The terminal ([stty]), what
    is typed, the file of the database and the password hash are parameters; the account
    database is that of [Store], inside the tables the migrations make, and the account for
    MySQL is set up by [MysqlSetup]. *)

From S2P Require Import Prelude GoStrings StringFacts Command Files Migrations.
From S2P Require Schema Store Backup MysqlSetup.
From Stdlib Require Import Ascii String.
#[local] Open Scope string_scope.
#[local] Open Scope list_scope.
#[local] Open Scope Z_scope.

Import Backup(IsAbs).

(** ** Reading a line *)

(** [reader.ReadString]: a line with its end, and what follows; [None] when the input ends first. *)
Fixpoint ReadString (input : string) : option (string * string) :=
  match input with
  | EmptyString => None
  | String c rest =>
      if Ascii.eqb c nl then Some (snl, rest)
      else match ReadString rest with Some (line, rest) => Some (String c line, rest) | None => None end
  end.
Definition readValue (input : string) : option string * string :=
  match ReadString input with
  | Some (line, rest) => let value := trim_space line in ((if String.eqb value "" then None else Some value), rest)
  | None => (None, "")
  end.
Definition readValueDefault (fallback input : string) : option string * string :=
  match ReadString input with
  | Some (line, rest) => let value := trim_space line in (Some (if String.eqb value "" then fallback else value), rest)
  | None => (None, "")
  end.

(** ** Reading a password *)

(** [utf8.RuneStart]. *)
Definition RuneStart (c : ascii) : bool := negb (is_cont 128 191 c).
Definition first_byte (s : string) : ascii := match s with String c _ => c | EmptyString => nul end.
(** The size [utf8.DecodeLastRune] answers. *)
Definition last_rune_size (s : string) : nat :=
  let n := String.length s in
  match n with
  | O => 0%nat
  | _ =>
      if is_ascii_byte (first_byte (sdrop (n - 1) s)) then 1%nat
      else match find (λ k, (k <=? n)%nat && RuneStart (first_byte (sdrop (n - k) s))) [2; 3; 4]%nat with
      | Some k => if Nat.eqb (rune_width (sdrop (n - k) s)) k then k else 1%nat
      | None => 1%nat
      end
  end.
Definition drop_last (value : string) : string := stake (String.length value - Nat.max 1 (last_rune_size value)) value.
(** The loop of key 21: at most one turn for each byte. *)
Fixpoint drop_all (fuel : nat) (value : string) : string :=
  match fuel with
  | O => value
  | S fuel => if String.eqb value "" then value else drop_all fuel (drop_last value)
  end.
Definition ends (c : ascii) : bool := Ascii.eqb c cr || Ascii.eqb c nl.
Definition interrupts (c : ascii) : bool := existsb (Z.eqb (byte c)) [3; 4; 26].
Definition erases (c : ascii) : bool := existsb (Z.eqb (byte c)) [8; 127].
Definition kills (c : ascii) : bool := byte c =? 21.
(** The loop over the keys: the password or [None], and what was not read. *)
Fixpoint typed (value input : string) : option string * string :=
  match input with
  | EmptyString => (None, "")
  | String c rest =>
      if ends c then (Some value, rest)
      else if interrupts c then (None, rest)
      else if erases c then typed (if String.eqb value "" then value else drop_last value) rest
      else if kills c then typed (drop_all (String.length value) value) rest
      else typed (value +++ String c "") rest
  end.

(** [stty]: the settings in a form it can be given back, and a change of the settings. *)
Class Terminal (T : Type) := {
  stty_g : T → option string;
  stty : list string → T → bool * T;
}.
Definition raw_mode : list string := ["-echo"; "-icanon"; "-isig"; "min"; "1"; "time"; "0"].
Definition readPassword `{Terminal T} (t : T) (input : string) : option string * T * string :=
  match stty_g t with
  | None => (None, t, input)
  | Some state =>
      let (ok, raw) := stty raw_mode t in
      if ok : bool then
        let (value, rest) := typed "" input in (value, (stty [trim_space state] raw).2, rest)
      else (None, raw, input)
  end.
Definition readConfirmedPassword `{Terminal T} (t : T) (input : string) : option string * T * string :=
  match readPassword t input with
  | (None, t, input) => (None, t, input)
  | (Some first, t, input) =>
      match readPassword t input with
      | (None, t, input) => (None, t, input)
      | (Some second, t, input) => ((if String.eqb first second then Some first else None), t, input)
      end
  end.

(** ** The database *)

(** What [os.Lstat] says of the file. *)
Inductive file_kind := Missing | Unreadable | Regular | OtherFile.
(** [RootInitialized]; [accounts] is [None] when there is no table of the accounts, [answers] whether the database
    answers. *)
Definition RootInitialized (path : string) (k : file_kind) (answers : bool) (accounts : option Schema.Database) : option bool :=
  if negb (IsAbs path) then None
  else match k with
  | Missing => Some false
  | Unreadable | OtherFile => None
  | Regular =>
      if negb answers then None
      else match accounts with
      | None => Some false
      | Some db => Some (0 <? List.length (List.filter (λ iu, Store.is_root iu.2) (map_to_list (Schema.users db))))%nat
      end
  end.

(** ** The command line *)

(** The options of the command line, parsed by the package [flag]. *)
Record Flags := mkFlags { database : string; migrations : string; version : bool; args : list string }.
Inductive parsed := Help | Unparsed | Parsed (flags : Flags).
Inductive tool_error :=
| BadFlags | OneCommand | UnknownCommand (name : string) | StatusFailed | MigrationFailed (e : migration_error) | NotOpened
| InputRequired | NoPassword | Refused (e : Schema.sql_error) | MySQLFailed (e : MysqlSetup.setup_error).
(** What the tool says. *)
Inductive said := Version | Usage | Status (initialized : bool) | Applied (names : list string) | Initialized | PasswordReset | TwoFactorDisabled
| MySQL (created : bool) | MySQLLater.

Definition validCommands : list string :=
  ["migrate"; "initialize-root"; "setup-status"; "reset-root-password"; "disable-root-two-factor"; "configure-mysql"; "configure-mysql-auto"].

(** What the tool meets: the migrations, the file of the database, and the clock. *)
Record Meets := mkMeets { attempt : Attempt; kind : file_kind; answers : bool; opens : bool; now : string }.
(** The database, the terminal, what is typed, and the host. *)
Record Tool (S T W : Type) := mkTool { base : Base S; term : T; input : string; host : Machine W }.
Arguments mkTool {S T W}. Arguments base {S T W}. Arguments term {S T W}. Arguments input {S T W}. Arguments host {S T W}.
Definition with_base {S T W} (w : Tool S T W) (b : Base S) : Tool S T W := mkTool b (term w) (input w) (host w).
Definition with_keys {S T W} (w : Tool S T W) (t : T) (rest : string) : Tool S T W := mkTool (base w) t rest (host w).

Section run.
Context {S T W : Type} `{!Terminal T} `{UnicodeCase} `{!Programs W} `{!FileSystem W} `{!MysqlSetup.SetupHost W}.
Context (exec_script : string → string → S → option S).
(** The accounts among the tables, when they are there. *)
Context (accounts : S → option Schema.Database) (with_accounts : Schema.Database → S → S).
Context (bcrypt_generate parse_address : string → option string).

(** A statement on the accounts: with no table it is an error of the database. *)
Definition on_accounts (f : Schema.Database → res Schema.sql_error Schema.Database) (b : Base S) : res Schema.sql_error (Base S) :=
  match accounts (schema b) with
  | None => Err Schema.ErrDatabase
  | Some db => match f db with Ok db' => Ok (mkBase (with_accounts db' (schema b)) (recorded b)) | Err e => Err e end
  end.
Definition finish (ok : said) (f : Schema.Database → res Schema.sql_error Schema.Database) (w : Tool S T W) : res tool_error said * Tool S T W :=
  match on_accounts f (base w) with
  | Ok b => (Ok ok, with_base w b)
  | Err e => (Err (Refused e), w)
  end.
(** The three lines that name the root account: its last name, its first name and its address. *)
Definition root_lines (input : string) : option (string * string * string) * string :=
  match readValue input with
  | (None, rest) => (None, rest)
  | (Some last, rest) =>
      match readValue rest with
      | (None, rest) => (None, rest)
      | (Some first, rest) => match readValue rest with (None, rest) => (None, rest) | (Some email, rest) => (Some (last, first, email), rest) end
      end
  end.
Definition initialize_root (m : Meets) (w : Tool S T W) : res tool_error said * Tool S T W :=
  match root_lines (input w) with
  | (None, rest) => (Err InputRequired, with_keys w (term w) rest)
  | (Some (last, first, email), rest) =>
      match readConfirmedPassword (term w) rest with
      | (None, t, rest) => (Err NoPassword, with_keys w t rest)
      | (Some password, t, rest) =>
          finish Initialized (λ db, Store.InitializeRoot bcrypt_generate parse_address db (now m) first last email password) (with_keys w t rest)
      end
  end.
Definition reset_root_password (m : Meets) (w : Tool S T W) : res tool_error said * Tool S T W :=
  match readConfirmedPassword (term w) (input w) with
  | (None, t, rest) => (Err NoPassword, with_keys w t rest)
  | (Some password, t, rest) =>
      finish PasswordReset (λ db, Store.ResetRootPassword bcrypt_generate db (now m) password) (with_keys w t rest)
  end.
Definition disable_root_two_factor (m : Meets) (w : Tool S T W) : res tool_error said * Tool S T W :=
  finish TwoFactorDisabled (λ db, Store.DisableRootTwoFactor db (now m)) w.

Definition configure (administrator : option MysqlSetup.Administrator) (w : Tool S T W) : res MysqlSetup.setup_error bool * Tool S T W :=
  let (r, h) := MysqlSetup.Configure administrator (host w) in
  (match r with Ok r => r | Err _ => Err MysqlSetup.NotStored end, mkTool (base w) (term w) (input w) h).
Definition configureMySQL (automatic : bool) (w : Tool S T W) : res tool_error said * Tool S T W :=
  match configure None w with
  | (Ok created, w) => (Ok (MySQL created), w)
  | (Err _, w) =>
      if automatic then (Ok MySQLLater, w)
      else match readValueDefault "root" (input w) with
      | (None, rest) => (Err InputRequired, with_keys w (term w) rest)
      | (Some login, rest) =>
          match readPassword (term w) rest with
          | (None, t, rest) => (Err NoPassword, with_keys w t rest)
          | (Some password, t, rest) =>
              match configure (Some (MysqlSetup.mkAdministrator login password)) (with_keys w t rest) with
              | (Ok created, w) => (Ok (MySQL created), w)
              | (Err e, w) => (Err (MySQLFailed e), w)
              end
          end
      end
  end.

(** A command on the database, migrated first. *)
Definition on_database (m : Meets) (flags : Flags) (command : string) (w : Tool S T W) : res tool_error said * Tool S T W :=
  match Migrate exec_script (attempt m) (database flags) (migrations flags) (base w) with
  | (Err e, b) => (Err (MigrationFailed e), with_base w b)
  | (Ok applied, b) =>
      let w := with_base w b in
      if String.eqb command "migrate" then (Ok (Applied applied), w)
      else if negb (opens m) then (Err NotOpened, w)
      else if String.eqb command "initialize-root" then initialize_root m w
      else if String.eqb command "reset-root-password" then reset_root_password m w
      else disable_root_two_factor m w
  end.
Definition run (m : Meets) (p : parsed) (w : Tool S T W) : res tool_error said * Tool S T W :=
  match p with
  | Help => (Ok Usage, w)
  | Unparsed => (Err BadFlags, w)
  | Parsed flags =>
      if version flags then (Ok Version, w)
      else match args flags with
      | [] => (Ok Usage, w)
      | [command] =>
          if String.eqb command "help" then (Ok Usage, w)
          else if negb (existsb (String.eqb command) validCommands) then (Err (UnknownCommand command), w)
          else if String.eqb command "configure-mysql" || String.eqb command "configure-mysql-auto"
          then configureMySQL (String.eqb command "configure-mysql-auto") w
          else if String.eqb command "setup-status" then
            match RootInitialized (database flags) (kind m) (answers m) (accounts (schema (base w))) with
            | Some b => (Ok (Status b), w)
            | None => (Err StatusFailed, w)
            end
          else on_database m flags command w
      | _ => (Err OneCommand, w)
      end
  end.
End run.
