(* ===== verification/AdminToolFacts.v ===== *)
(** * Properties of the administration tool

    The password that is read is the one the keys edit, the terminal is left as it was, and
    the root account that the tool creates or recovers signs in. *)

From S2P Require Import Prelude GoStrings StringFacts Command Files Migrations AdminTool.
From S2P Require Schema Store Password WebApp MysqlSetup.
From Stdlib Require Import Ascii String.
#[local] Open Scope string_scope.
#[local] Open Scope list_scope.
#[local] Open Scope Z_scope.

(** ** Editing a password *)

Inductive key := Rune (r : string) | Erase (c : ascii) | Kill.
Definition key_text (k : key) : string :=
  match k with Rune r => r | Erase c => String c "" | Kill => String (chr 21) "" end.
Definition plain (c : ascii) : bool := negb (ends c || interrupts c || erases c || kills c).
(** One code point, which is not one of the keys that edit or end. *)
Definition is_rune (r : string) : Prop := r ≠ "" ∧ rune_width r = String.length r ∧ sforall plain r = true.
Definition key_ok (k : key) : Prop := match k with Rune r => is_rune r | Erase c => erases c = true | Kill => True end.
(** What the keys leave, as a list of code points. *)
Definition press (l : list string) (k : key) : list string :=
  match k with Rune r => l ++ [r] | Erase _ => take (List.length l - 1) l | Kill => [] end.
Definition text (l : list string) : string := foldr append "" l.

Lemma text_app l1 l2 : text (l1 ++ l2) = text l1 +++ text l2.
Proof. induction l1 as [|r l1 IH]; [done|]. unfold text in *. cbn [foldr app]. by rewrite IH, sapp_assoc. Qed.
Lemma sdrop_from_end k v r : (k ≤ String.length r)%nat → sdrop (String.length (v +++ r) - k) (v +++ r) = sdrop (String.length r - k) r.
Proof.
  intros Hk. induction v as [|c v IH]; [done|]. cbn [String.append String.length].
  replace (S (String.length (v +++ r)) - k)%nat with (S (String.length (v +++ r) - k))%nat; [exact IH|].
  rewrite sapp_length. lia.
Qed.
Lemma stake_before v r : stake (String.length v) (v +++ r) = v.
Proof. induction v as [|c v IH]; [by destruct r|]. cbn. by rewrite IH. Qed.

Definition continues (c : ascii) : Prop := 128 ≤ byte c ≤ 191.
(** The bytes of a code point: an ASCII byte, or a first byte followed by continuation bytes. *)
Lemma rune_bytes r : r ≠ "" → rune_width r = String.length r →
  (∃ a, r = String a "" ∧ byte a < 128) ∨ (∃ a b, r = String a (String b "") ∧ 192 ≤ byte a ∧ continues b) ∨
  (∃ a b c, r = String a (String b (String c "")) ∧ 192 ≤ byte a ∧ continues b ∧ continues c) ∨
  (∃ a b c d, r = String a (String b (String c (String d ""))) ∧ 192 ≤ byte a ∧ continues b ∧ continues c ∧ continues d).
Proof.
  unfold continues, is_cont. intros Hne Hw. destruct r as [|a [|b [|c [|d [|e r]]]]]; [done|..].
  - left. exists a. split; [done|]. unfold rune_width in Hw. destruct (Z.ltb_spec (byte a) 128); [lia|done].
  - right; left. exists a, b. split; [done|]. revert Hw. unfold rune_width, is_cont. cbn [String.length].
    repeat case_match; bool_prop; try done; intros _; lia.
  - right; right; left. exists a, b, c. split; [done|]. revert Hw. unfold rune_width, is_cont. cbn [String.length].
    repeat case_match; bool_prop; try done; intros _; lia.
  - right; right; right. exists a, b, c, d. split; [done|]. revert Hw. unfold rune_width, is_cont. cbn [String.length].
    repeat case_match; bool_prop; try done; intros _; lia.
  - exfalso. revert Hw. unfold rune_width, is_cont. cbn [String.length]. repeat case_match; done.
Qed.
Lemma continues_byte c : continues c → is_ascii_byte c = false ∧ RuneStart c = false.
Proof.
  unfold continues, is_ascii_byte, RuneStart, is_cont. intros Hc. split; [by apply Z.ltb_ge; lia|].
  rewrite (proj2 (Z.leb_le 128 (byte c)) ltac:(lia)), (proj2 (Z.leb_le (byte c) 191) ltac:(lia)). done.
Qed.
Lemma starts_byte c : 192 ≤ byte c → RuneStart c = true.
Proof. unfold RuneStart, is_cont. intros Hc. rewrite (proj2 (Z.leb_gt (byte c) 191) ltac:(lia)). by rewrite andb_false_r. Qed.
Lemma last_rune_size_app v r : is_rune r → last_rune_size (v +++ r) = String.length r.
Proof.
  intros (Hne & Hw & _). unfold last_rune_size.
  assert (∀ k, (k ≤ String.length r)%nat → sdrop (String.length (v +++ r) - k) (v +++ r) = sdrop (String.length r - k) r) as Hd by (intros; by apply sdrop_from_end).
  assert (String.length (v +++ r) = String.length v + String.length r)%nat as Hl by apply sapp_length.
  assert (String.length (v +++ r) ≠ 0)%nat as Hn by (rewrite Hl; destruct r; [done|cbn; lia]).
  destruct (String.length (v +++ r)) as [|n] eqn:En; [done|]. rewrite <- En in *. clear En.
  destruct (rune_bytes r Hne Hw) as [(a & -> & Ha)|[(a & b & -> & Ha & Hb)|[(a & b & c & -> & Ha & Hb & Hc)|(a & b & c & d & -> & Ha & Hb & Hc & Hdd)]]];
    cbn [String.length] in *; rewrite (Hd 1%nat) by lia; cbn [sdrop first_byte Nat.sub].
  - unfold is_ascii_byte. by rewrite (proj2 (Z.ltb_lt (byte a) 128) Ha).
  - destruct (continues_byte b Hb) as [-> _]. cbn [find]. rewrite (proj2 (Nat.leb_le 2 _)) by lia. rewrite (Hd 2%nat) by lia.
    cbn [sdrop first_byte Nat.sub andb]. rewrite starts_byte by done. cbv iota. rewrite (Hd _) by lia. cbn [Nat.sub sdrop]. by rewrite Hw, Nat.eqb_refl.
  - destruct (continues_byte c Hc) as [-> _]. cbn [find]. rewrite (proj2 (Nat.leb_le 2 _)) by lia. rewrite (Hd 2%nat) by lia.
    cbn [sdrop first_byte Nat.sub andb]. destruct (continues_byte b Hb) as [_ ->]. rewrite (proj2 (Nat.leb_le 3 _)) by lia. rewrite (Hd 3%nat) by lia.
    cbn [sdrop first_byte Nat.sub andb]. rewrite starts_byte by done. cbv iota. rewrite (Hd _) by lia. cbn [Nat.sub sdrop]. by rewrite Hw, Nat.eqb_refl.
  - destruct (continues_byte d Hdd) as [-> _]. cbn [find]. rewrite (proj2 (Nat.leb_le 2 _)) by lia. rewrite (Hd 2%nat) by lia.
    cbn [sdrop first_byte Nat.sub andb]. destruct (continues_byte c Hc) as [_ ->]. rewrite (proj2 (Nat.leb_le 3 _)) by lia. rewrite (Hd 3%nat) by lia.
    cbn [sdrop first_byte Nat.sub andb]. destruct (continues_byte b Hb) as [_ ->]. rewrite (proj2 (Nat.leb_le 4 _)) by lia. rewrite (Hd 4%nat) by lia.
    cbn [sdrop first_byte Nat.sub andb]. rewrite starts_byte by done. cbv iota. rewrite (Hd _) by lia. cbn [Nat.sub sdrop]. by rewrite Hw, Nat.eqb_refl.
Qed.
Lemma append_rune v r : is_rune r → String.eqb (v +++ r) "" = false.
Proof.
  intros (Hne & _ & _). apply String.eqb_neq. intros He. apply (f_equal String.length) in He. rewrite sapp_length in He.
  destruct r; [done|]. cbn in He. lia.
Qed.
Lemma drop_last_app v r : is_rune r → drop_last (v +++ r) = v.
Proof.
  intros Hr. unfold drop_last. rewrite last_rune_size_app by done. destruct Hr as (Hne & _ & _). rewrite sapp_length.
  replace (String.length v + String.length r - Nat.max 1 (String.length r))%nat with (String.length v); [apply stake_before|].
  destruct r; [done|cbn; lia].
Qed.
Lemma text_length l : Forall is_rune l → (List.length l ≤ String.length (text l))%nat.
Proof.
  induction 1 as [|r l (Hne & _ & _) _ IH]; [done|]. cbn [text foldr List.length]. rewrite sapp_length. fold (text l). destruct r; [done|]. cbn. lia.
Qed.
Lemma drop_all_text l : ∀ fuel, Forall is_rune l → (List.length l ≤ fuel)%nat → drop_all fuel (text l) = "".
Proof.
  induction l as [|r l IH] using rev_ind; intros fuel Hf Hl; [by destruct fuel|].
  apply Forall_app in Hf as [Hf Hr]. apply Forall_cons in Hr as [Hr _]. rewrite length_app in Hl. cbn in Hl. destruct fuel as [|fuel]; [lia|].
  rewrite text_app. unfold text at 2. cbn [foldr]. rewrite sapp_nil_r. cbn [drop_all].
  rewrite append_rune, drop_last_app by done. apply IH; [exact Hf|lia].
Qed.
Lemma typed_plain r : ∀ v rest, sforall plain r = true → typed v (r +++ rest) = typed (v +++ r) rest.
Proof.
  induction r as [|c r IH]; intros v rest Hp; [by rewrite sapp_nil_r|]. cbn [sforall] in Hp. apply andb_prop in Hp as [Hc Hp].
  unfold plain in Hc. apply negb_true_iff in Hc. apply orb_false_elim in Hc as [Hc Hk]. apply orb_false_elim in Hc as [Hc He].
  apply orb_false_elim in Hc as [Hn Hi]. cbn [String.append typed]. rewrite Hn, Hi, He, Hk. rewrite IH by done. by rewrite sapp_assoc.
Qed.
Lemma press_runes l k : Forall is_rune l → key_ok k → Forall is_rune (press l k).
Proof.
  intros Hl Hk. destruct k as [r|c|]; cbn [press].
  - apply Forall_app. by split; [|constructor].
  - by apply Forall_take.
  - constructor.
Qed.
Lemma erases_not c : erases c = true → ends c = false ∧ interrupts c = false.
Proof. intros H. destruct c as [[] [] [] [] [] [] [] []]; by vm_compute in H. Qed.
Lemma text_snoc l r : text (l ++ [r]) = text l +++ r.
Proof. rewrite text_app. unfold text at 2. cbn [foldr]. by rewrite sapp_nil_r. Qed.
Lemma typed_key l k rest : Forall is_rune l → key_ok k → typed (text l) (key_text k +++ rest) = typed (text (press l k)) rest.
Proof.
  intros Hl Hk. destruct k as [r|c|]; cbn [key_text press].
  - destruct Hk as (Hne & Hw & Hp). rewrite typed_plain by done. by rewrite text_snoc.
  - change (erases c = true) in Hk. destruct (erases_not c Hk) as [Hn Hi]. cbn [String.append typed]. rewrite Hn, Hi, Hk. f_equal.
    induction l as [|r l _] using rev_ind; [done|]. apply Forall_app in Hl as [_ Hr]. apply Forall_cons in Hr as [Hr _].
    rewrite length_app. cbn [List.length]. replace (List.length l + 1 - 1)%nat with (List.length l) by lia. rewrite take_app_length.
    rewrite text_snoc, append_rune by done. by apply drop_last_app.
  - cbn [String.append typed]. rewrite drop_all_text; [done|done|by apply text_length].
Qed.

(** C24: what is read is what the keys edit.  For any sequence of code points, erasures and kills
    ended by a carriage return or a line feed, the bytes read one by one leave the password
    that the same keys leave on a list of code points: an erasure removes the last code
    point whole, however many bytes it has, and nothing from an empty password. *)
Theorem password_editing (keys : list key) (final : ascii) (rest : string) :
  Forall key_ok keys → ends final = true →
  typed "" (foldr append "" (key_text <$> keys) +++ String final rest) = (Some (text (fold_left press keys [])), rest).
Proof.
  intros Hk Hf. assert (∀ l, Forall is_rune l → typed (text l) (foldr append "" (key_text <$> keys) +++ String final rest) =
    (Some (text (fold_left press keys l)), rest)) as H; [|by apply (H [])].
  induction Hk as [|k keys Hk _ IH]; intros l Hl; cbn [fmap list_fmap foldr fold_left].
  - cbn [String.append typed]. by rewrite Hf.
  - rewrite sapp_assoc, typed_key by done. by apply IH, press_runes.
Qed.
Lemma password_editing_witness :
  typed "" ("né" +++ String (chr 127) ("on" +++ String (chr 21) ("é!" +++ String nl "more"))) = (Some "é!", "more").
Proof.
  refine (password_editing [Rune "n"; Rune "é"; Erase (chr 127); Rune "o"; Rune "n"; Kill; Rune "é"; Rune "!"] nl "more" _ _); [|done].
  repeat constructor; done.
Defined.

(** ** The terminal *)

Section terminal.
Context {T : Type} `{!Terminal T}.
(** What [stty -g] prints restores the settings it was printed for. *)
Context (stty_restores : ∀ (t raw : T) state, stty_g t = Some state → stty raw_mode t = (true, raw) → (stty [trim_space state] raw).2 = t).
(** A change of the settings that is refused changes nothing. *)
Context (stty_refused : ∀ (t t' : T) arguments, stty arguments t = (false, t') → t' = t).

Lemma readPassword_terminal t input : (readPassword t input).1.2 = t.
Proof using stty_restores stty_refused.
  unfold readPassword. destruct (stty_g t) as [state|] eqn:Hg; [|done]. destruct (stty raw_mode t) as [[] raw] eqn:Hs.
  - destruct (typed "" input) as [value rest]. cbn [fst snd]. by eapply stty_restores.
  - by apply stty_refused in Hs.
Qed.
Lemma readConfirmedPassword_terminal t input : (readConfirmedPassword t input).1.2 = t.
Proof using stty_restores stty_refused.
  unfold readConfirmedPassword. pose proof (readPassword_terminal t input) as H1.
  destruct (readPassword t input) as [[[first|] t1] rest]; [|done]. cbn in H1. subst t1.
  pose proof (readPassword_terminal t rest) as H2. by destruct (readPassword t rest) as [[[second|] t2] rest2].
Qed.
End terminal.

(** ** The root account *)

Lemma runes_bytes s : ∀ skip, (String.length s ≤ skip + 4 * Z.to_nat (rune_scan skip s).1)%nat ∧ 0 ≤ (rune_scan skip s).1.
Proof.
  induction s as [|c s IH]; intros skip; [cbn; lia|]. cbn [rune_scan String.length]. destruct skip as [|k].
  - destruct (rune_width (String c s)) as [|k] eqn:Hw.
    + destruct (IH 0%nat) as [Hl Hp]. destruct (rune_scan 0 s) as [n v]. cbn [fst] in *. rewrite Z2Nat.inj_add by lia. lia.
    + assert (k ≤ 3)%nat as Hk.
      { revert Hw. unfold rune_width. repeat case_match; intros [= <-]; lia. }
      destruct (IH k) as [Hl Hp]. destruct (rune_scan k s) as [n v]. cbn [fst] in *. rewrite Z2Nat.inj_add by lia. lia.
  - destruct (IH k) as [Hl Hp]. split; [lia|done].
Qed.
Lemma rune_count_bytes s : slen s ≤ 4 * rune_count s.
Proof. unfold slen, rune_count. destruct (runes_bytes s 0) as [Hl Hp]. lia. Qed.

Section root.
Context `{UnicodeCase} `{Password.PasswordHash} (bcrypt_generate parse_address : string → option string).
(** A hash that was generated has the format of bcrypt and verifies with its password. *)
Context (bcrypt_verifies : ∀ password hash, bcrypt_generate password = Some hash →
  has_prefix hash "$2a$" = true ∧ Password.bcrypt_compare hash password = true).
Import Schema Store.
Import WebApp(Authenticate, StepInvalid, StepAuthenticated).

Lemma administrative_password password hash :
  hashAdministrativePassword bcrypt_generate password = Ok hash → Password.VerifyPassword password hash = true.
Proof using bcrypt_verifies.
  unfold hashAdministrativePassword. destruct (_ || _) eqn:Hlen; [done|]. apply orb_false_elim in Hlen as [Hl%Z.ltb_ge Hu%Z.ltb_ge].
  destruct (bcrypt_generate password) as [h|] eqn:Hg; [|done]. intros [= <-]. apply bcrypt_verifies in Hg as [Hp Hc].
  unfold Password.VerifyPassword. pose proof (rune_count_bytes password).
  assert (String.eqb password "" = false) as -> by (destruct password; [cbn in Hl; lia|done]).
  rewrite (proj2 (Z.ltb_ge 1024 (slen password))) by lia.
  assert (String.eqb h "" = false) as -> by by destruct h. cbn [orb].
  assert (has_prefix h "$argon2id$" = false) as ->.
  { unfold has_prefix in *. destruct h as [|a [|b h]]; cbn [String.prefix] in *; [done|by destruct (ascii_dec _ _)|].
    destruct (ascii_dec "$" a); [|done]. destruct (ascii_dec "2" b) as [<-|]; [|done]. by destruct (ascii_dec "a" "2"). }
  by rewrite Hp, !orb_true_r.
Qed.
(** The step after a password that is right, for an account that is active. *)
Lemma Authenticate_ok d id u name password :
  users_valid (users d) → users d !! id = Some u → nocase_eq (login (u_identity u)) (trim_space name) = true →
  is_active u = true → Password.VerifyPassword password (password_hash (u_credentials u)) = true →
  ∃ step, Authenticate true d name password = Some (Some (scanUser id u), step) ∧ step ≠ StepInvalid ∧
    (two_factor_required (u_credentials u) = 0 → totp_secret (u_credentials u) = None → must_change_password (u_credentials u) = 0 →
      step = StepAuthenticated).
Proof.
  intros Hv Hu Hn Ha Hp. unfold Authenticate. cbn [negb]. rewrite (FindByLogin_unique d id u) by done.
  change (PasswordHash (scanUser id u)) with (password_hash (u_credentials u)). rewrite Hp.
  change (Status (scanUser id u)) with (status (u_rights u)). unfold is_active in Ha. rewrite Ha. cbn [negb orb].
  change (TOTPSecret (scanUser id u)) with (totp_secret (u_credentials u)).
  change (TwoFactorRequired (scanUser id u)) with (two_factor_required (u_credentials u) =? 1).
  change (MustChangePassword (scanUser id u)) with (must_change_password (u_credentials u) =? 1).
  destruct (_ && _) eqn:Ht; [eexists; split; [done|]; split; [done|]; intros _ Hs; by rewrite Hs in Ht|].
  destruct (Z.eqb_spec (two_factor_required (u_credentials u)) 1); [eexists; split; [done|]; split; [done|]; lia|].
  destruct (Z.eqb_spec (must_change_password (u_credentials u)) 1); [eexists; split; [done|]; split; [done|]; lia|].
  by eexists.
Qed.
End root.

Section accounts.
Context `{UnicodeCase} `{Password.PasswordHash} (bcrypt_generate parse_address : string → option string).
Context (bcrypt_verifies : ∀ password hash, bcrypt_generate password = Some hash →
  has_prefix hash "$2a$" = true ∧ Password.bcrypt_compare hash password = true).
Import Schema Store.
Import WebApp(Authenticate, StepInvalid, StepAuthenticated).

Lemma InitializeRoot_signs_in d now_ first last mail password d' :
  InitializeRoot bcrypt_generate parse_address d now_ first last mail password = Ok d' →
  (∃ user, Authenticate true d' "root" password = Some (Some user, StepAuthenticated)) ∧
  ∃ id u, users d' !! id = Some u ∧ is_root u = true ∧ users_valid (users d').
Proof using bcrypt_verifies.
  unfold InitializeRoot. intros Hi. destruct (validateRootIdentity parse_address first last mail) as [[]|]; [|done]. cbn [res_bind] in Hi.
  destruct (hashAdministrativePassword bcrypt_generate password) as [hash|] eqn:Hh; [|done]. cbn [res_bind] in Hi.
  revert Hi. unfold insert_user. cbv zeta. set (u := Build_UserRow _ _ _ _). case_decide as Hv; [|done]. intros Hi. injection Hi as <-. cbn [snd].
  apply (administrative_password bcrypt_generate bcrypt_verifies) in Hh.
  set (d' := with_users d _ _ _). assert (users d' !! (users_seq d + 1) = Some u) as Hu by (cbn; by rewrite lookup_insert_eq).
  split; [|by exists (users_seq d + 1), u].
  destruct (Authenticate_ok d' (users_seq d + 1) u "root" password) as (step & Ha & _ & Hs); [exact Hv|done|done|done|done|].
  exists (scanUser (users_seq d + 1) u). rewrite Ha. by rewrite Hs.
Qed.
(** The root account is made once. *)
Lemma InitializeRoot_once d now_ first last mail password id u d' :
  users d !! id = Some u → is_root u = true → seq_ok d →
  InitializeRoot bcrypt_generate parse_address d now_ first last mail password ≠ Ok d'.
Proof.
  intros Hu Hr Hq. unfold InitializeRoot. intros Hi. destruct (validateRootIdentity parse_address first last mail) as [[]|]; [|done]. cbn [res_bind] in Hi.
  destruct (hashAdministrativePassword bcrypt_generate password) as [hash|]; [|done]. cbn [res_bind] in Hi.
  revert Hi. unfold insert_user. cbv zeta. set (new := Build_UserRow _ _ _ _). case_decide as Hv; [|done]. intros _.
  assert (id ≤ users_seq d) as Hid by (apply Hq; by exists u).
  destruct (Hv (users_seq d + 1) new) as [_ Hc]; [by rewrite lookup_insert_eq|].
  destruct (Hc id u) as [He|He]; [rewrite lookup_insert_ne by lia; done|lia|].
  unfold users_compatible in He. unfold is_root in Hr. rewrite Hr in He. change (kind (u_rights new)) with "root" in He.
  cbn [String.eqb Ascii.eqb Bool.eqb andb negb] in He. by rewrite andb_false_r in He.
Qed.

(** A statement that must change the root row and raises its version. *)
Lemma one_changed_root message d s d' :
  one_changed message (update_users d (λ _ u, is_root u) s) = Ok d' →
  (∀ u, version (s u) = version u + 1) →
  ∃ id u, users d !! id = Some u ∧ is_root u = true ∧ users d' !! id = Some (s u) ∧ users_valid (users d') ∧ users_seq d' = users_seq d.
Proof.
  unfold one_changed. intros Ho Hs. destruct (update_users d _ s) as [[rows d1]|e] eqn:Hup; cbn [res_bind] in Ho; [|done]. cbn [fst snd] in Ho.
  destruct (Nat.eqb_spec (List.length rows) 1) as [Hlen|]; [|done]. injection Ho as <-.
  destruct rows as [|[id r] [|]]; [done| |done]. assert ((id, r) ∈ [(id, r)]) as Hin by by left.
  apply (update_users_rows _ _ _ _ _ id r Hup) in Hin as (u & Hu & Hr & ->).
  exists id, u. split; [done|]. split; [done|]. pose proof (update_users_lookup _ _ _ _ _ id Hup) as Hl. rewrite Hu in Hl. cbn in Hl. rewrite Hr in Hl.
  split; [done|]. split; [by eapply update_users_valid|]. by destruct (update_users_frame _ _ _ _ _ Hup) as (-> & _).
Qed.
(** The sessions of an account whose version was raised are refused for ever. *)
Lemma raised_revokes d d' id u u' :
  seq_ok d → users d !! id = Some u → users d' !! id = Some u' → users_seq d' = users_seq d → seq_ok d' → version u < version u' →
  ∀ sqlite_open later v, store_life bcrypt_generate parse_address sqlite_open d' later → v ≤ version u → ¬ session_accepted later id v.
Proof.
  intros Hq Hu Hu' Hseq Hq' Hver sqlite_open later v Hrun Hv. apply (superseded_final bcrypt_generate parse_address sqlite_open d' later id v Hq'); [|done].
  split; [rewrite Hseq; apply Hq; by exists u|]. intros x Hx. rewrite Hu' in Hx. injection Hx as <-. lia.
Qed.
Lemma update_seq_ok d w s rows d' : update_users d w s = Ok (rows, d') → seq_ok d → seq_ok d'.
Proof.
  intros Hup Hq i [x Hx]. destruct (update_users_frame _ _ _ _ _ Hup) as (-> & _). rewrite (update_users_lookup _ _ _ _ _ i Hup) in Hx.
  apply Hq. destruct (users d !! i); [by eexists|done].
Qed.
Lemma one_changed_seq_ok message d w s d' : one_changed message (update_users d w s) = Ok d' → seq_ok d → seq_ok d'.
Proof.
  unfold one_changed. intros Ho. destruct (update_users d w s) as [[rows d1]|] eqn:Hup; cbn [res_bind fst snd] in Ho; [|done].
  destruct (_ =? 1)%nat; [|done]. injection Ho as <-. by eapply update_seq_ok.
Qed.
(** Both at once. *)
Lemma root_statement_final message d s d' :
  one_changed message (update_users d (λ _ u, is_root u) s) = Ok d' → (∀ u, version (s u) = version u + 1) → seq_ok d →
  ∃ id u, users d !! id = Some u ∧ is_root u = true ∧ users d' !! id = Some (s u) ∧ users_valid (users d') ∧
    ∀ sqlite_open later v, store_life bcrypt_generate parse_address sqlite_open d' later → v ≤ version u → ¬ session_accepted later id v.
Proof.
  intros Ho Hs Hq. destruct (one_changed_root _ _ _ _ Ho Hs) as (id & u & Hu & Hr & Hu' & Hv & Hseq). exists id, u. split_and!; try done.
  apply (raised_revokes d d' id u (s u)); try done; [by eapply one_changed_seq_ok|]. rewrite Hs. lia.
Qed.
End accounts.

(** ** Commands *)

Section runs.
Context {S T W : Type} `{!Terminal T} `{UnicodeCase} `{!Programs W} `{!FileSystem W} `{!MysqlSetup.SetupHost W} `{Password.PasswordHash}.
Context (exec_script : string → string → S → option S) (accounts : S → option Schema.Database) (with_accounts : Schema.Database → S → S).
Context (bcrypt_generate parse_address : string → option string).
Context (bcrypt_verifies : ∀ password hash, bcrypt_generate password = Some hash →
  has_prefix hash "$2a$" = true ∧ Password.bcrypt_compare hash password = true).
Context (accounts_with : ∀ d s, accounts (with_accounts d s) = Some d).
Import Schema Store.
Import WebApp(Authenticate, StepInvalid, StepAuthenticated).
#[local] Notation tool := (run exec_script accounts with_accounts bcrypt_generate parse_address).

Lemma finish_Ok ok f (w w' : Tool S T W) said :
  finish accounts with_accounts ok f w = (Ok said, w') →
  said = ok ∧ ∃ d d', accounts (schema (base w)) = Some d ∧ f d = Ok d' ∧ accounts (schema (base w')) = Some d'.
Proof using accounts_with.
  unfold finish, on_accounts. destruct (accounts (schema (base w))) as [d|] eqn:Ha; [|done]. destruct (f d) as [d'|] eqn:Hf; [|done].
  intros E. injection E as <- <-. split; [done|]. exists d, d'. cbn. by rewrite accounts_with.
Qed.
Lemma configure_mysql_said automatic (w w' : Tool S T W) said :
  configureMySQL automatic w = (Ok said, w') → (∃ c, said = MySQL c) ∨ said = MySQLLater.
Proof.
  unfold configureMySQL. destruct (configure None w) as [[c|e] w1]; [intros E; injection E as <- _; by left; exists c|].
  destruct automatic; [intros E; injection E as <- _; by right|]. destruct (readValueDefault _ _) as [[l|] rest]; [|done].
  destruct (readPassword _ _) as [[[p|] t] rest']; [|done]. destruct (configure _ _) as [[c|e'] w2]; [|done].
  intros E. injection E as <- _. by left; exists c.
Qed.
(** What a command that succeeded did, by what it says. *)
Lemma tool_said (m : Meets) (flags : Flags) (w w' : Tool S T W) said :
  tool m (Parsed flags) w = (Ok said, w') →
  said = Initialized ∨ said = PasswordReset ∨ said = TwoFactorDisabled →
  ∃ applied b, Migrate exec_script (attempt m) (database flags) (migrations flags) (base w) = (Ok applied, b) ∧
    ((said = Initialized ∧ initialize_root accounts with_accounts bcrypt_generate parse_address m (with_base w b) = (Ok said, w')) ∨
     (said = PasswordReset ∧ reset_root_password accounts with_accounts bcrypt_generate m (with_base w b) = (Ok said, w')) ∨
     (said = TwoFactorDisabled ∧ disable_root_two_factor accounts with_accounts m (with_base w b) = (Ok said, w'))).
Proof using accounts_with.
  unfold run. intros Hr Hs. assert (∀ x, (Ok x : res tool_error AdminTool.said, w) = (Ok said, w') → x ≠ Initialized → x ≠ PasswordReset → x ≠ TwoFactorDisabled → False) as Hno.
  { intros x [= -> _] ? ? ?. by destruct Hs as [?|[?|?]]. }
  destruct (AdminTool.version flags); [by destruct (Hno _ Hr)|]. destruct (args flags) as [|command [|]]; [by destruct (Hno _ Hr)| |done].
  destruct (String.eqb command "help"); [by destruct (Hno _ Hr)|]. destruct (negb (existsb _ _)); [done|].
  destruct (_ || _); [by apply configure_mysql_said in Hr as [[c ->]| ->]; destruct Hs as [?|[?|?]]|].
  destruct (String.eqb command "setup-status"); [destruct (RootInitialized _ _ _ _); [by destruct (Hno _ Hr)|done]|].
  unfold on_database in Hr. destruct (Migrate _ _ _ _ _) as [[applied|e] b] eqn:Hm; [|done]. exists applied, b. split; [done|].
  destruct (String.eqb command "migrate"); [injection Hr as <- _; by destruct Hs as [?|[?|?]]|]. destruct (negb (opens m)); [done|].
  destruct (String.eqb command "initialize-root").
  - left. split; [|done]. unfold initialize_root in Hr. destruct (root_lines _) as [[[[la fi] em]|] rest]; [|done].
    destruct (readConfirmedPassword _ _) as [[[p|] t] rest']; [|done]. by apply finish_Ok in Hr as [-> _].
  - destruct (String.eqb command "reset-root-password").
    + right; left. split; [|done]. unfold reset_root_password in Hr. destruct (readConfirmedPassword _ _) as [[[p|] t] rest]; [|done].
      by apply finish_Ok in Hr as [-> _].
    + right; right. split; [|done]. unfold disable_root_two_factor in Hr. by apply finish_Ok in Hr as [-> _].
Qed.

(** C20: the tool and the web program agree.  When the tool says that the root account was created,
    the password typed twice after the three lines signs root in, and the account cannot be
    created again. *)
Theorem initialized_signs_in (m : Meets) (flags : Flags) (w w' : Tool S T W) :
  tool m (Parsed flags) w = (Ok Initialized, w') →
  ∃ lines rest password t rest' d user, root_lines (input w) = (Some lines, rest) ∧
    readConfirmedPassword (term w) rest = (Some password, t, rest') ∧ accounts (schema (base w')) = Some d ∧
    Authenticate true d "root" password = Some (Some user, StepAuthenticated) ∧
    (seq_ok d → ∀ now_ first last mail other d', InitializeRoot bcrypt_generate parse_address d now_ first last mail other ≠ Ok d').
Proof using bcrypt_verifies accounts_with.
  intros Hr. apply tool_said in Hr as (applied & b & Hm & [[_ Hi]|[[? _]|[? _]]]); [|done|done|by left].
  unfold initialize_root in Hi. cbn [with_base input term] in Hi.
  destruct (root_lines (input w)) as [[[[la fi] em]|] rest] eqn:Hl; [|done].
  destruct (readConfirmedPassword (term w) rest) as [[[password|] t] rest'] eqn:Hp; [|done].
  apply finish_Ok in Hi as (_ & d & d' & Ha & Hf & Ha').
  destruct (InitializeRoot_signs_in bcrypt_generate parse_address bcrypt_verifies _ _ _ _ _ _ _ Hf) as [(user & Hu) (id & u & Hid & Hroot & _)].
  exists (la, fi, em), rest, password, t, rest', d', user. split_and!; try done. intros Hq now_ first last mail other d2. by eapply InitializeRoot_once.
Qed.
(** C21: the recovery of the root account.  When the tool says that its password was reset, or its
    second factor disabled, there was a root account; every session it had is refused, and stays
    refused whatever is done later to the accounts, the restore of a backup taken since the
    recovery included (not that of an older one); after a reset the password typed twice is
    accepted. *)
Theorem recovery_revokes (m : Meets) (flags : Flags) (w w' : Tool S T W) (said : AdminTool.said) (d : Database) :
  tool m (Parsed flags) w = (Ok said, w') → said = PasswordReset ∨ said = TwoFactorDisabled →
  accounts (schema (Migrate exec_script (attempt m) (database flags) (migrations flags) (base w)).2) = Some d → seq_ok d →
  ∃ d' id u, accounts (schema (base w')) = Some d' ∧ users d !! id = Some u ∧ is_root u = true ∧
    (∀ sqlite_open later v, store_life bcrypt_generate parse_address sqlite_open d' later → v ≤ Store.version u → ¬ session_accepted later id v) ∧
    (said = PasswordReset → ∃ password t rest, readConfirmedPassword (term w) (input w) = (Some password, t, rest) ∧
       ∀ name, nocase_eq (login (u_identity u)) (trim_space name) = true →
         ∃ step user, Authenticate true d' name password = Some (Some user, step) ∧ step ≠ StepInvalid).
Proof using bcrypt_verifies accounts_with.
  intros Hr Hs Ha Hq. apply tool_said in Hr as (applied & b & Hm & Hc); [|by destruct Hs; auto]. rewrite Hm in Ha. cbn [snd] in Ha.
  destruct Hc as [[-> _]|[[-> Hi]|[-> Hi]]]; [by destruct Hs| |].
  - unfold reset_root_password in Hi. cbn [with_base input term] in Hi.
    destruct (readConfirmedPassword (term w) (input w)) as [[[password|] t] rest] eqn:Hp; [|done].
    apply finish_Ok in Hi as (_ & d1 & d' & Ha1 & Hf & Ha'). cbn [base with_keys with_base] in Ha1. rewrite Ha in Ha1. injection Ha1 as <-.
    unfold ResetRootPassword in Hf. destruct (hashAdministrativePassword bcrypt_generate password) as [hash|] eqn:Hh; [|done]. cbn [res_bind] in Hf.
    apply (administrative_password bcrypt_generate bcrypt_verifies) in Hh.
    destruct (root_statement_final bcrypt_generate parse_address _ _ _ _ Hf (λ _, eq_refl) Hq) as (id & u & Hu & Hroot & Hu' & Hv & Hfinal).
    exists d', id, u. split_and!; try done. intros _.
    assert (∀ name, nocase_eq (login (u_identity u)) (trim_space name) = true → ∃ step, ∃ user, Authenticate true d' name password = Some (Some user, step) ∧ step ≠ StepInvalid) as Hall.
    { intros name Hn. destruct (Hv _ _ Hu') as [Hck _]. destruct (root_checks _ Hck Hroot) as [Hact _].
      destruct (Authenticate_ok d' id _ name password Hv Hu' Hn Hact Hh) as (step & E & Hne & _). by exists step, (scanUser id (stamp_password (now m) (with_credentials (now m) (λ c,
        {| password_hash := hash; must_change_password := 0; auth_version := auth_version c + 1; two_factor_required := two_factor_required c;
           totp_secret := totp_secret c; totp_enabled_at := totp_enabled_at c |}) u))). }
    exists password, t, rest. split_and!; done.
  - unfold disable_root_two_factor in Hi. apply finish_Ok in Hi as (_ & d1 & d' & Ha1 & Hf & Ha'). cbn [base with_base] in Ha1.
    rewrite Ha in Ha1. injection Ha1 as <-. unfold DisableRootTwoFactor in Hf.
    destruct (root_statement_final bcrypt_generate parse_address _ _ _ _ Hf (λ _, eq_refl) Hq) as (id & u & Hu & Hroot & Hu' & Hv & Hfinal).
    exists d', id, u. by split_and!.
Qed.
End runs.

(** ** An example: the tables are the accounts, the terminal a flag *)

Definition sample_hash : Password.PasswordHash :=
  {| Password.argon2_IDKey _ _ _ _ _ _ := ""; Password.bcrypt_compare h p := String.eqb h ("$2a$10$" +++ p) |}.
Lemma sample_verifies password hash :
  Store.no_hash password = Some hash → has_prefix hash "$2a$" = true ∧ Password.bcrypt_compare (PasswordHash := sample_hash) hash password = true.
Proof. intros [= <-]. split; [by vm_compute|]. cbn [Password.bcrypt_compare sample_hash]. apply String.eqb_refl. Qed.
Definition sample_terminal : Terminal bool := {| stty_g t := Some (if t : bool then "cooked" else "raw"); stty l _ := (true, bool_decide (l = ["cooked"])) |}.
Definition no_accounts : Schema.Database :=
  {| Schema.users := ∅; Schema.users_seq := 0; Schema.categories := ∅; Schema.categories_seq := 0; Schema.modules := ∅; Schema.modules_seq := 0;
     Schema.permissions := ∅; Schema.settings := ∅; Schema.preferences := ∅; Schema.access_log := ∅; Schema.access_log_seq := 0 |}.
(** The first script makes the tables, with these accounts. *)
Definition sample_run (d : Schema.Database) (command keys : string) : res tool_error said * Tool (option Schema.Database) bool (gmap string string) :=
  run (Terminal0 := sample_terminal) (H := ascii_case) (Programs0 := MysqlSetup.sample_programs) (FileSystem0 := MysqlSetup.sample_files)
    (H0 := MysqlSetup.sample_host) (λ _ _ _, Some (Some d)) id (λ d _, Some d) Store.no_hash Some
    (mkMeets (sample_attempt true) Missing true true "now") (Parsed (mkFlags "/db" "/m" false [command])) (mkTool (mkBase None ∅) true keys (mkMachine ∅ [])).
Definition lines_of (l : list string) : string := foldr (λ x r, x +++ String nl r) "" l.
Lemma initialized_signs_in_witness :
  ∃ w' d user, sample_run no_accounts "initialize-root" (lines_of ["Doe"; "Jane"; "jane@example.org"; "correct horse"; "correct horse"]) = (Ok Initialized, w') ∧
    schema (base w') = Some d ∧
    WebApp.Authenticate (H := sample_hash) true d "root" "correct horse" = Some (Some user, WebApp.StepAuthenticated).
Proof.
  destruct (sample_run no_accounts "initialize-root" (lines_of ["Doe"; "Jane"; "jane@example.org"; "correct horse"; "correct horse"])) as [r w'] eqn:E.
  assert (r = Ok Initialized) as -> by (apply (f_equal fst) in E; cbn [fst] in E; rewrite <- E; by vm_compute).
  pose proof E as E'. unfold sample_run in E'. apply (initialized_signs_in (H1 := sample_hash) (λ _ _ _, Some (Some no_accounts)) id (λ d _, Some d) Store.no_hash Some sample_verifies (λ _ _, eq_refl)) in E' as
    (lines & rest & password & t & rest' & d & user & Hl & Hp & Hd & Ha & _).
  exists w', d, user. split; [done|]. split; [exact Hd|].
  assert (password = "correct horse") as <-; [|exact Ha]. vm_compute in Hl. injection Hl as <- <-. vm_compute in Hp. congruence.
Defined.
Lemma recovery_revokes_witness :
  ∃ w' d', sample_run (Store.sample_db "old" 1) "reset-root-password" (lines_of ["correct horse"; "correct horse"]) = (Ok PasswordReset, w') ∧
    schema (base w') = Some d' ∧ ¬ Store.session_accepted d' 1 1.
Proof.
  destruct (sample_run (Store.sample_db "old" 1) "reset-root-password" (lines_of ["correct horse"; "correct horse"])) as [r w'] eqn:E.
  assert (r = Ok PasswordReset) as -> by (apply (f_equal fst) in E; cbn [fst] in E; rewrite <- E; by vm_compute).
  pose proof E as E'. unfold sample_run in E'.
  edestruct (recovery_revokes (H1 := sample_hash) (λ _ _ _, Some (Some (Store.sample_db "old" 1))) id (λ d _, Some d) Store.no_hash Some sample_verifies
    (λ _ _, eq_refl) _ _ _ _ _ (Store.sample_db "old" 1) E' (or_introl eq_refl)) as (d' & id & u & Hd & Hu & Hr & Hf & _);
    [by vm_compute|apply Store.sample_seq_ok|].
  exists w', d'. split; [done|]. split; [exact Hd|].
  assert (id = 1 ∧ Store.version u = 1) as [-> Hv]; [|apply (Hf (λ _, None)); [apply Store.life_start|by rewrite Hv]].
  cbn [Schema.users Store.sample_db] in Hu. apply lookup_insert_Some in Hu as [[<- <-]|[_ Hu]]; [done|].
  apply lookup_singleton_Some in Hu as [_ <-]. done.
Defined.
