(* ===== verification/Dashboard.v ===== *)
(** * The dashboard: [internal/webdashboard]

    What the pages of the dashboard and of the processes are made of: the replies of four
    domains of the local API, read without trust in their types, as cards and lines of
    text.  The shortest text of a float is a parameter of [Floats]. *)

From S2P Require Import Prelude GoStrings StringFacts Floats.
From S2P Require Api.
From Stdlib Require Import Ascii String.
#[local] Open Scope string_scope.
#[local] Open Scope list_scope.
#[local] Open Scope Z_scope.

Import Api(Value, VNil, VBool, VInt, VStr, VNum, VList, VMap, vget).

Definition data : Type := list (string * Value).

Record Card := mkCard { c_ID : string; c_Title : string; c_Value : string; c_Subtitle : string; c_Status : string; c_URL : string }.
Record Information := mkInformation { i_Label : string; i_Value : string }.
Record Process := mkProcess {
  p_PID : string; p_User : string; p_State : string; p_StateLabel : string; p_Status : string; p_CPU : string; p_MemoryPercent : string;
  p_Memory : string; p_Elapsed : string; p_Name : string; p_Description : string;
  p_PIDValue : Z; p_MemoryBytes : Z; p_ElapsedSeconds : Z; p_CPUPercentValue : spec_float; p_MemoryPercentValue : spec_float }.
Record ProcessSnapshot := mkProcesses { ps_Total : Z; ps_Returned : Z; ps_Limit : Z; ps_Truncated : bool; ps_Processes : list Process }.
Record Snapshot := mkSnapshot {
  s_Hostname : string; s_System : string; s_Kernel : string; s_Uptime : string; s_UptimeSeconds : Z;
  s_Information : list Information; s_Cards : list Card }.

Section dashboard.
Context `{!Floats}.

(** ** Values of any type *)

Definition object (v : Value) : data := match v with VMap m => m | _ => [] end.
Definition array (v : Value) : list Value := match v with VList l => l | _ => [] end.
Definition text (v : Value) (fallback : string) : string :=
  match v with VStr s => if String.eqb s "" then fallback else s | _ => fallback end.
Definition boolean (v : Value) : bool := match v with VBool b => b | _ => false end.
Definition number (v : Value) : spec_float :=
  match v with
  | VInt z => float64 z
  | VNum literal => default (S754_zero false) (ParseFloat literal)
  | _ => S754_zero false
  end.
Definition integer (v : Value) : Z := to_int64 (number v).

(** ** Texts *)

Definition with_comma : string → string := smap (λ c, if Ascii.eqb c "." then ","%char else c).
Definition formatPercent (value : spec_float) : string := with_comma (FormatFixed 1 value) +++ " %".
Definition at_least (value : spec_float) (limit : Z) : bool := SFleb (float64 limit) value.
Definition usageStatus (percent : spec_float) : string :=
  if at_least percent 90 then "danger" else if at_least percent 80 then "warning" else "success".
(** The amount and the unit: a division for each unit but the first. *)
Fixpoint scaled (units : list string) (unit : string) (amount : spec_float) : spec_float * string :=
  match units with
  | next :: units => if SFleb (float64 1024) amount then scaled units next (fdiv amount (float64 1024)) else (amount, unit)
  | [] => (amount, unit)
  end.
Definition formatBytes (value : Z) : string :=
  let (amount, unit) := scaled ["Kio"; "Mio"; "Gio"; "Tio"; "Pio"] "o" (float64 value) in with_comma (FormatFixed 1 amount) +++ " " +++ unit.
Definition formatDuration (seconds : Z) : string :=
  let seconds := Z.max seconds 0 in
  let days := seconds / 86400 in
  let rest := itoa (seconds mod 86400 / 3600) +++ " h " +++ itoa (seconds mod 3600 / 60) +++ " min" in
  if 0 <? days then itoa days +++ " j " +++ rest else rest.
(** The parts of a duration, three at most. *)
Fixpoint duration_parts (units : list (Z * string)) (seconds : Z) : list string :=
  match units with
  | (unit, label) :: units =>
      if seconds / unit =? 0 then duration_parts units seconds
      else (itoa (seconds / unit) +++ " " +++ label) :: duration_parts units (seconds mod unit)
  | [] => []
  end.
Definition formatProcessDuration (seconds : Z) : string :=
  if seconds <=? 0 then "0 s" else join " " (take 3 (duration_parts [(86400, "j"); (3600, "h"); (60, "min"); (1, "s")] seconds)).
(** The loop of [formatInteger]: a space before the last three digits, then before the three before them. *)
Fixpoint group_digits (fuel : nat) (index : Z) (raw : string) : string :=
  match fuel with
  | O => raw
  | S fuel => if 0 <? index then group_digits fuel (index - 3) (stake (Z.to_nat index) raw +++ " " +++ sdrop (Z.to_nat index) raw) else raw
  end.
Definition formatInteger (value : Z) : string := let raw := itoa value in group_digits (String.length raw) (slen raw - 3) raw.
Definition formatLoadAverage (v : Value) : string :=
  match array v with
  | a :: b :: c :: _ =>
      join " / " (zip_with (λ x label, with_comma (FormatFixed 2 (number x)) +++ " à " +++ label) [a; b; c] ["1 min"; "5 min"; "15 min"])
  | _ => "indisponible"
  end.
Definition processState (state : string) : string * string :=
  match state with
  | EmptyString => ("Inconnu", "neutral")
  | String c _ =>
      match find (λ kv, contains_byte c kv.1)
        [("R", ("En cours", "success")); ("S", ("En veille", "neutral")); ("D", ("Attente disque", "warning")); ("Tt", ("Arrêté", "warning"));
         ("Z", ("Zombie", "danger")); ("Xx", ("Mort", "danger")); ("K", ("Wakekill", "warning")); ("I", ("Inactif", "neutral"));
         ("P", ("Stationné", "neutral")); ("W", ("Pagination", "neutral"))] with
      | Some (_, labels) => labels
      | None => ("Inconnu", "neutral")
      end
  end.

(** ** Cards *)

(** What a domain answered; [None] when it failed. *)
Definition collectionResult : Type := option data.
Definition unavailableCard (id title url : string) : Card := mkCard id title "Indisponible" "Lecture impossible" "neutral" url.
Definition temperatureCard (temperature : data) : Card :=
  if negb (boolean (vget temperature "available")) then mkCard "temperature" "Température CPU" "Indisponible" "Aucun capteur CPU disponible" "neutral" ""
  else
    let celsius := number (vget temperature "celsius") in
    mkCard "temperature" "Température CPU" (with_comma (FormatFixed 1 celsius) +++ " °C") ("Capteur : " +++ text (vget temperature "sensor") "CPU")
      (if at_least celsius 85 then "danger" else if at_least celsius 70 then "warning" else "success") "".
Definition unavailable_system : Snapshot :=
  mkSnapshot "Serveur indisponible" "Informations système indisponibles" "—" "—" 0 [] [unavailableCard "cpu" "Processeur" ""; unavailableCard "memory" "Mémoire" ""].
Definition cpu_card (cpu : data) : Card :=
  let percent := number (vget cpu "usage_percent") in
  mkCard "cpu" "Processeur" (formatPercent percent)
    (itoa (integer (vget cpu "cores")) +++ " cœur(s) · Charge : " +++ formatLoadAverage (vget cpu "load_average")) (usageStatus percent) "".
Definition memory_card (memory : data) : Card :=
  let percent := number (vget memory "percent") in
  let bytes key := formatBytes (integer (vget memory key)) in
  mkCard "memory" "Mémoire" (formatPercent percent)
    (bytes "available_bytes" +++ " disponibles · " +++ bytes "used_bytes" +++ " utilisés sur " +++ bytes "total_bytes") (usageStatus percent) "".
Definition processes_card (processes : data) : Card :=
  mkCard "processes" "Processus" (formatInteger (integer (vget processes "total"))) "Processus actuellement détectés" "neutral" "/processes".
Definition systemSnapshot (item : collectionResult) : Snapshot :=
  match item with
  | None => unavailable_system
  | Some d =>
      let host := object (vget d "host") in
      let cpu := object (vget d "cpu") in
      let name := text (vget host "hostname") "Serveur indisponible" in
      let system := text (vget host "pretty_name") "Informations système indisponibles" in
      let kernel := text (vget host "kernel") "—" in
      let architecture := text (vget host "architecture") "—" in
      let seconds := integer (vget host "uptime_seconds") in
      mkSnapshot name system (kernel +++ " · " +++ architecture) (formatDuration seconds) seconds
        [mkInformation "Nom d’hôte" name; mkInformation "Système d’exploitation" (text (vget host "operating_system") "Linux");
         mkInformation "Distribution" (text (vget host "distribution") system);
         mkInformation "Version" (text (vget host "version") (text (vget host "version_id") "Non renseignée"));
         mkInformation "Noyau" kernel; mkInformation "Architecture" (architecture +++ " · " +++ text (vget cpu "model") "Modèle inconnu");
         mkInformation "Durée de fonctionnement" (formatDuration seconds)]
        [cpu_card cpu; memory_card (object (vget d "memory")); temperatureCard (object (vget d "temperature")); processes_card (object (vget d "processes"))]
  end.
(** [math.Max] *)
Definition Max (a b : spec_float) : spec_float :=
  match a, b with
  | S754_infinity false, _ | _, S754_infinity false => S754_infinity false
  | S754_nan, _ | _, S754_nan => S754_nan
  | S754_zero true, S754_zero _ => b
  | _, _ => if SFltb a b then b else a
  end.
Definition storageCard (item : collectionResult) : Card :=
  match item with
  | None => unavailableCard "stockage" "Stockage" "/storage"
  | Some d =>
      let mounts := array (vget d "mounts") in
      let maximum := fold_left (λ m raw, Max m (number (vget (object raw) "percent"))) mounts (S754_zero false) in
      mkCard "storage" "Stockage" (itoa (Z.of_nat (List.length mounts)) +++ " volume(s)") ("Occupation maximale : " +++ formatPercent maximum)
        (usageStatus maximum) "/storage"
  end.
Definition count (p : data → bool) (l : list Value) : Z := Z.of_nat (List.length (List.filter (λ raw, p (object raw)) l)).
Definition servicesCard (item : collectionResult) : Card :=
  match item with
  | None => unavailableCard "services" "Services" "/services"
  | Some d =>
      let services := array (vget d "services") in
      let installed := count (λ s, boolean (vget s "exists")) services in
      let active := count (λ s, boolean (vget s "active")) services in
      let failed := count (λ s, String.eqb (text (vget s "state") "") "failed") services in
      mkCard "services" "Services" (itoa active +++ " / " +++ itoa installed +++ " actifs") (itoa (Z.of_nat (List.length services)) +++ " service(s) surveillé(s)")
        (if 0 <? failed then "danger" else if active <? installed then "warning" else "success") "/services"
  end.
Definition networkCard (item : collectionResult) : Card :=
  match item with
  | None => unavailableCard "reseau" "Réseau" "/network"
  | Some d =>
      let interfaces := array (vget d "interfaces") in
      let up := count (λ i, String.eqb (text (vget i "state") "unknown") "up") interfaces in
      let down := count (λ i, String.eqb (text (vget i "state") "unknown") "down") interfaces in
      mkCard "network" "Réseau" (itoa up +++ " / " +++ itoa (Z.of_nat (List.length interfaces)) +++ " actives") (itoa down +++ " interface(s) arrêtée(s)")
        (if 0 <? down then "warning" else "success") "/network"
  end.

(** ** The collector *)

(** The local API, which may answer by what was asked before. *)
Context (execute : list Api.Request → Api.Request → res string Api.Reply).
Definition ask (domain command : string) (sent : list Api.Request) : collectionResult * list Api.Request :=
  let q := {| Api.Domain := domain; Api.Command := command; Api.Arguments := [] |} in
  (match execute sent q with
   | Ok r => if Api.resp_success (Api.Resp r) then Api.resp_data (Api.Resp r) else None
   | Err _ => None
   end, q :: sent).
(** The goroutines of [collect], in the order the API answers them; a request whose context is
    cancelled is one that failed. *)
Fixpoint collect (order : list (string * string)) (results : gmap string collectionResult) (sent : list Api.Request) :
    gmap string collectionResult * list Api.Request :=
  match order with
  | [] => (results, sent)
  | (domain, command) :: order => let (r, sent) := ask domain command sent in collect order (<[domain := r]> results) sent
  end.
Definition of_domain (results : gmap string collectionResult) (domain : string) : collectionResult := default None (results !! domain).
Definition supervision_requests : list (string * string) := [("storage", "list"); ("services", "list"); ("network", "list")].
Definition snapshot_requests : list (string * string) := ("system", "info") :: supervision_requests.
Definition supervision_cards (results : gmap string collectionResult) : list Card :=
  [storageCard (of_domain results "storage"); servicesCard (of_domain results "services"); networkCard (of_domain results "network")].
(** [order]: the requests as they are answered. *)
Definition Supervision (order : list (string * string)) (sent : list Api.Request) : list Card * list Api.Request :=
  let (results, sent) := collect order ∅ sent in (supervision_cards results, sent).
Definition Resources (sent : list Api.Request) : list Card * list Api.Request :=
  let (r, sent) := ask "system" "info" sent in (s_Cards (systemSnapshot r), sent).
Definition with_cards (s : Snapshot) (l : list Card) : Snapshot :=
  mkSnapshot (s_Hostname s) (s_System s) (s_Kernel s) (s_Uptime s) (s_UptimeSeconds s) (s_Information s) (s_Cards s ++ l).
Definition take_snapshot (order : list (string * string)) (sent : list Api.Request) : Snapshot * list Api.Request :=
  let (results, sent) := collect order ∅ sent in
  (with_cards (systemSnapshot (of_domain results "system")) (supervision_cards results), sent).
Definition process_of (raw : Value) : Process :=
  let item := object raw in
  let state := text (vget item "state") "?" in
  let (label, status) := processState state in
  let int key := integer (vget item key) in
  let num key := number (vget item key) in
  mkProcess (formatInteger (int "pid")) (text (vget item "user") "—") state label status (formatPercent (num "cpu_percent")) (formatPercent (num "memory_percent"))
    (formatBytes (int "memory_bytes")) (formatProcessDuration (int "elapsed_seconds")) (text (vget item "name") "—") (text (vget item "description") "")
    (int "pid") (int "memory_bytes") (int "elapsed_seconds") (num "cpu_percent") (num "memory_percent").
(** [None]: the listing is not available. *)
Definition Processes (sent : list Api.Request) : option ProcessSnapshot * list Api.Request :=
  let (r, sent) := ask "system" "processes" sent in
  ((λ d, mkProcesses (integer (vget d "total")) (integer (vget d "returned_count")) (integer (vget d "limit")) (boolean (vget d "truncated"))
           (process_of <$> array (vget d "processes"))) <$> r, sent).
End dashboard.

(** ** The order of the answers *)

Section facts.
Context `{!Floats} (answer : Api.Request → res string Api.Reply).
#[local] Definition steady (_ : list Api.Request) (q : Api.Request) : res string Api.Reply := answer q.
Lemma collect_other order d : ∀ results sent, d ∉ order.*1 → (collect steady order results sent).1 !! d = results !! d.
Proof.
  induction order as [|[d' c] order IH]; intros results sent Hd; [done|]. cbn [fmap list_fmap fst] in Hd.
  apply not_elem_of_cons in Hd as [Hne Hd]. cbn [collect ask]. rewrite IH by done. by rewrite lookup_insert_ne.
Qed.
Lemma collect_lookup order d c : ∀ results sent, NoDup order.*1 → (d, c) ∈ order →
  (collect steady order results sent).1 !! d = Some (ask steady d c []).1.
Proof.
  induction order as [|[d' c'] order IH]; intros results sent Hn Hin; [by apply not_elem_of_nil in Hin|].
  cbn [fmap list_fmap fst] in Hn. apply NoDup_cons in Hn as [Hd Hn]. cbn [collect ask]. apply elem_of_cons in Hin as [Heq|Hin]; [|by apply IH].
  injection Heq as <- <-. rewrite collect_other by done. by simplify_map_eq.
Qed.
Lemma collect_sent order : ∀ results sent,
  (collect steady order results sent).2 ≡ₚ ((λ r, {| Api.Domain := r.1; Api.Command := r.2; Api.Arguments := [] |}) <$> order) ++ sent.
Proof.
  induction order as [|[d c] order IH]; intros results sent; [done|]. cbn [collect ask fmap list_fmap fst snd]. rewrite IH. by rewrite <- Permutation_middle.
Qed.
Lemma of_domain_known results d (r : collectionResult) : results !! d = Some r → of_domain results d = r.
Proof. intros Hd. exact (f_equal (default None) Hd). Qed.
(** C17: the four requests of the dashboard, which the program sends at once, may be answered
    in any order: when the API answers each request the same whatever was asked before it, the
    snapshot is the same for every order, and the requests sent are the four, each once. *)
Theorem snapshot_any_order order sent : order ≡ₚ snapshot_requests →
  (take_snapshot steady order sent).1 = (take_snapshot steady snapshot_requests sent).1 ∧
  (take_snapshot steady order sent).2 ≡ₚ ((λ r, {| Api.Domain := r.1; Api.Command := r.2; Api.Arguments := [] |}) <$> snapshot_requests) ++ sent.
Proof.
  intros Ho. assert (NoDup snapshot_requests.*1) as Hn by (apply (bool_decide_unpack _); by vm_compute).
  assert (NoDup order.*1) as Hno by (by rewrite Ho). unfold take_snapshot.
  assert (∀ r, r ∈ snapshot_requests → r ∈ order) as Hin by (intros r; by rewrite Ho).
  pose proof (λ d c Hr, collect_lookup order d c ∅ sent Hno (Hin (d, c) Hr)) as Hl.
  pose proof (λ d c, collect_lookup snapshot_requests d c ∅ sent Hn) as Hr. pose proof (collect_sent order ∅ sent) as Hs.
  destruct (collect _ order ∅ sent) as [r1 s1], (collect _ snapshot_requests ∅ sent) as [r2 s2]. cbn [fst snd] in *. split; [|by rewrite Hs, Ho].
  assert (∀ d c, (d, c) ∈ snapshot_requests → of_domain r1 d = of_domain r2 d) as Heq
    by (intros d c Hd; by rewrite (of_domain_known _ _ _ (Hl d c Hd)), (of_domain_known _ _ _ (Hr d c Hd))).
  unfold supervision_cards. rewrite (Heq "system" "info"), (Heq "storage" "list"), (Heq "services" "list"), (Heq "network" "list"); [done|..];
    apply (bool_decide_unpack _); by vm_compute.
Qed.
End facts.

(** A witness: the network answers first, and the system last. *)
#[local] Instance short_floats : Floats := {| format_float _ := ""; hex_float _ := None |}.
Lemma snapshot_any_order_witness :
  let order := [("network", "list"); ("services", "list"); ("storage", "list"); ("system", "info")] in
  order ≡ₚ snapshot_requests ∧
  (take_snapshot (steady (λ _, Err "down")) order []).1 = (take_snapshot (steady (λ _, Err "down")) snapshot_requests []).1.
Proof.
  intros order. assert (order ≡ₚ snapshot_requests) as Ho by (apply (bool_decide_unpack _); by vm_compute).
  split; [done|]. exact (proj1 (snapshot_any_order (λ _, Err "down") order [] Ho)).
Defined.
