(* ===== verification/Html.v ===== *)
(** * HTML of the web program

    The pages are texts glued together: pieces of markup of the program, and data passed
    through [html.EscapeString].  A small reader of markup tells the tags and attributes of
    a text from its words and its attribute values: [inert] says that a text has no markup
    of its own, [markup] that it is made of the known tags only. *)

From S2P Require Import Prelude GoStrings StringFacts Codec.
From S2P Require Time JsonParse.
From Stdlib Require Import Ascii String.
#[local] Open Scope string_scope.
#[local] Open Scope list_scope.
#[local] Open Scope Z_scope.

Import JsonParse(quote_char).

(** A piece of markup, its double quotes written as single ones, which the program does not use. *)
Definition h (s : string) : string := smap (λ c, if Ascii.eqb c "'" then quote_char else c) s.

(** [html.EscapeString] *)
Definition esc_byte (c : ascii) : string :=
  if Ascii.eqb c "&" then "&amp;" else if Ascii.eqb c "'" then "&#39;" else if Ascii.eqb c "<" then "&lt;"
  else if Ascii.eqb c ">" then "&gt;" else if Ascii.eqb c quote_char then "&#34;" else String c "".
Fixpoint esc (s : string) : string := match s with EmptyString => "" | String c s => esc_byte c +++ esc s end.
(** [url.QueryEscape] *)
Definition upper_hex (n : Z) : ascii := if n <? 10 then chr (48 + n) else chr (55 + n).
Definition unreserved (c : ascii) : bool := is_lower c || is_upper c || is_digit c || contains_byte c "-_.~".
Definition query_byte (c : ascii) : string :=
  if unreserved c then String c "" else if Ascii.eqb c " " then "+"
  else String "%" (String (upper_hex (byte c / 16)) (String (upper_hex (byte c mod 16)) "")).
Fixpoint QueryEscape (s : string) : string := match s with EmptyString => "" | String c s => query_byte c +++ QueryEscape s end.

Definition glue (l : list string) : string := foldr append "" l.

(** ** Translations: [internal/i18n] *)

(** The embedded catalogs. *)
Class Catalogs := { catalog : string → gmap string string }.
Definition DefaultLanguage : string := "fr".
Section i18n.
Context `{!Catalogs}.
Definition Supported (language : string) : bool := String.eqb language "fr" || String.eqb language "en".
(** The texts of a language: none for another one. *)
Definition texts (language : string) : gmap string string := if Supported language then catalog language else ∅.
Definition Text (language key : string) : string :=
  match texts language !! key with
  | Some translated => translated
  | None => match texts DefaultLanguage !! key with Some translated => translated | None => key end
  end.
Fixpoint first_supported (l : list string) : option string :=
  match l with [] => None | x :: l => if Supported x then Some x else first_supported l end.
Definition FromAcceptLanguage `{UnicodeCase} (value : string) : string :=
  default DefaultLanguage (first_supported ((λ item, before "-" (to_lower (trim_space (before ";" item)))) <$> split "," value)).
End i18n.
(** The date and the time a text of RFC 3339 gives, in its own zone, as if it were that of UTC. *)
Fixpoint before_any (seps s : string) : string :=
  match s with EmptyString => "" | String c s => if contains_byte c seps then "" else String c (before_any seps s) end.
Definition wall_clock (value : string) : option Z :=
  match Time.parse_rfc3339 value, cut "T" value with
  | Some _, (date, clock, true) => Time.parse_rfc3339 (date +++ "T" +++ before_any "Z+-" clock +++ "Z")
  | _, _ => None
  end.
Definition FormatDateTime (language : string) (wall : Z) : string :=
  let '(y, m, d) := Time.date_of (wall / 86400) in
  let '(hour, minute, _) := Time.clock_of (wall mod 86400) in
  if String.eqb language "en" then
    Time.two m +++ "/" +++ Time.two d +++ "/" +++ Time.four y +++ " " +++ Time.two (if hour mod 12 =? 0 then 12 else hour mod 12) +++ ":" +++ Time.two minute +++
      (if hour <? 12 then " AM" else " PM")
  else Time.two d +++ "/" +++ Time.two m +++ "/" +++ Time.four y +++ " " +++ Time.two hour +++ ":" +++ Time.two minute.
Definition FormatRFC3339 (language value : string) : string :=
  match wall_clock value with Some wall => FormatDateTime language wall | None => value end.
Example offset_kept : FormatRFC3339 "en" "2026-03-01T14:05:09.25+02:00" = "03/01/2026 02:05 PM". Proof. vm_compute. reflexivity. Qed.
Example day_first : FormatRFC3339 "fr" "2026-03-01T14:05:09Z" = "01/03/2026 14:05". Proof. vm_compute. reflexivity. Qed.

(** ** [strings.NewReplacer(...).Replace], its pairs with no empty text to replace *)

(** The first pair, in the order of the arguments, whose text is here. *)
Definition replacement (pairs : list (string * string)) (s : string) : option (string * string) := find (λ kv, has_prefix s kv.1) pairs.
(** [skip] bytes were replaced. *)
Fixpoint replace_from (pairs : list (string * string)) (skip : nat) (s : string) : string :=
  match s with
  | EmptyString => ""
  | String c s' =>
      match skip with
      | S skip => replace_from pairs skip s'
      | O => match replacement pairs s with
             | Some (old, new) => new +++ replace_from pairs (String.length old - 1) s'
             | None => String c (replace_from pairs 0 s')
             end
      end
  end.
Definition Replace (pairs : list (string * string)) (s : string) : string := replace_from pairs 0 s.
Example replaced : Replace [("Mar", "1"); ("Mardi", "2"); ("i", "")] "Mardi, Mars, ici" = "1d, 1s, c". Proof. reflexivity. Qed.
(** [strings.ReplaceAll] *)
Definition ReplaceAll (s old new : string) : string := Replace [(old, new)] s.

(** ** Reading markup *)

(** Where a byte is: between tags, in the name of a tag, in an attribute, in the value of an
    attribute, after a value. *)
Inductive place := Data | Name (w : string) | Attr (w : string) | Quoted | After.
(** The tags and the attributes of the program's own markup. *)
Definition tag_names : list string :=
  ["a"; "article"; "button"; "code"; "dd"; "details"; "dialog"; "div"; "dl"; "dt"; "fieldset"; "form"; "h2"; "h3"; "h4"; "input"; "label"; "legend"; "li";
   "ol"; "optgroup"; "option"; "p"; "pre"; "section"; "select"; "small"; "span"; "strong"; "summary"; "table"; "tbody"; "td"; "template"; "textarea"; "th"; "thead"; "tr"; "ul"; "br"].
Definition attributes : list string :=
  ["action"; "aria-busy"; "aria-current"; "aria-hidden"; "aria-label"; "aria-live"; "autocomplete"; "class"; "colspan"; "href"; "id"; "label"; "max"; "maxlength";
   "method"; "min"; "name"; "pattern"; "placeholder"; "rel"; "rows"; "scope"; "spellcheck"; "tabindex"; "target"; "title"; "type"; "value";
   "checked"; "disabled"; "hidden"; "open"; "required"; "selected"; "readonly"].
(** An attribute of the program for its scripts. *)
Definition known_attribute (w : string) : bool := existsb (String.eqb w) attributes || has_prefix w "data-".
Definition known_name (w : string) : bool := existsb (String.eqb (trim_prefix w "/")) tag_names.
Definition tag_byte (c : ascii) : bool := is_lower c || is_digit c || contains_byte c "-/".
Definition read_byte (p : place) (c : ascii) : option place :=
  match p with
  | Data => if Ascii.eqb c "<" then Some (Name "") else if Ascii.eqb c quote_char then None else Some Data
  | Name w =>
      if tag_byte c then Some (Name (w +++ String c ""))
      else if negb (known_name w) then None
      else if Ascii.eqb c " " then Some (Attr "") else if Ascii.eqb c ">" then Some Data else None
  | Attr w =>
      if tag_byte c then Some (Attr (w +++ String c ""))
      else if negb (known_attribute (trim_suffix w "=")) then None
      else if Ascii.eqb c " " then Some (Attr "") else if Ascii.eqb c ">" then Some Data
      else if Ascii.eqb c "=" then Some (Attr (w +++ "="))
      else if Ascii.eqb c quote_char && has_suffix w "=" then Some Quoted else None
  | Quoted => Some (if Ascii.eqb c quote_char then After else Quoted)
  | After => if Ascii.eqb c " " then Some (Attr "") else if Ascii.eqb c ">" then Some Data else None
  end.
Fixpoint read (p : place) (s : string) : option place :=
  match s with EmptyString => Some p | String c s => read_byte p c ≫= λ p, read p s end.

(** A text that is only text, between tags or in a value; a text of whole tags of the program. *)
Definition inert_byte (c : ascii) : bool := negb (Ascii.eqb c "<") && negb (Ascii.eqb c quote_char).
Definition inert (s : string) : Prop := sforall inert_byte s = true.
Definition markup (s : string) : Prop := read Data s = Some Data.

Lemma read_app p s t : read p (s +++ t) = (read p s ≫= λ q, read q t).
Proof. revert p. induction s as [|c s IH]; intros p; [done|]. cbn [String.append read]. destruct (read_byte p c); [apply IH|done]. Qed.
Lemma read_parts p q r s t : read p s = Some q → read q t = Some r → read p (s +++ t) = Some r.
Proof. intros Hs Ht. by rewrite read_app, Hs. Qed.
Definition textual (p : place) : bool := match p with Data | Quoted => true | _ => false end.
Lemma read_inert p s : textual p = true → inert s → read p s = Some p.
Proof.
  intros Hp. unfold inert. induction s as [|c s IH]; [done|]. cbn [sforall read]. intros [Hc Hs]%andb_prop.
  unfold inert_byte in Hc. apply andb_prop in Hc as [Hl%negb_true_iff Hq%negb_true_iff].
  destruct p; try discriminate; cbn [read_byte]; [rewrite Hl|]; rewrite Hq; by apply IH.
Qed.
Lemma inert_markup s : inert s → markup s.
Proof. by apply read_inert. Qed.
Lemma markup_nil : markup "".
Proof. done. Qed.
Lemma markup_app s t : markup s → markup t → markup (s +++ t).
Proof. intros Hs Ht. by eapply read_parts. Qed.
Lemma markup_rows {A} (f : A → string) l : (∀ x, x ∈ l → markup (f x)) → markup (glue (f <$> l)).
Proof.
  induction l as [|x l IH]; intros Hf; [apply markup_nil|]. apply (markup_app (f x)); [apply Hf; left|].
  apply IH. intros y Hy. apply Hf. by right.
Qed.
Lemma markup_glue l : Forall markup l → markup (glue l).
Proof. induction 1 as [|x l Hx _ IH]; [apply markup_nil|]. by apply (markup_app x). Qed.
Lemma markup_join sep l : markup sep → Forall markup l → markup (join sep l).
Proof.
  intros Hs. induction 1 as [|x l Hx Hf IH]; [done|]. cbn [join]. destruct l as [|y l]; [done|]. apply markup_app; [done|]. by apply markup_app.
Qed.

(** *** A replacement after the data was put in *)

Definition outside (c : ascii) : bool := negb (tag_byte c) && negb (contains_byte c " =>") && negb (Ascii.eqb c quote_char).
Definition starts_outside (s : string) : bool := match s with EmptyString => false | String c _ => outside c end.
Definition lang_fr : string := h "lang='fr'".
Definition lang_en : string := h "lang='en'".
(** Text for text, that starts with a byte no tag has; or the attribute of the language. *)
Definition harmless (kv : string * string) : bool :=
  (sforall inert_byte kv.1 && sforall inert_byte kv.2 && starts_outside kv.1) || (String.eqb kv.1 lang_fr && String.eqb kv.2 lang_en).
Lemma outside_stuck p c : textual p = false → outside c = true → read_byte p c = None.
Proof.
  unfold outside. intros Hp [[Ht%negb_true_iff Hc]%andb_prop Hq%negb_true_iff]%andb_prop.
  assert (Ascii.eqb c " " = false ∧ Ascii.eqb c "=" = false ∧ Ascii.eqb c ">" = false) as (Hs & He & Hg)
    by (destruct c as [[] [] [] [] [] [] [] []]; by try discriminate).
  destruct p; try discriminate; cbn [read_byte]; rewrite ?Ht, ?Hs, ?He, ?Hg, ?Hq; [by destruct (known_name w)|by destruct (known_attribute _)|done].
Qed.
#[local] Arguments known_name : simpl never.
#[local] Arguments known_attribute : simpl never.
#[local] Arguments trim_suffix : simpl never.
#[local] Arguments has_suffix : simpl never.
Lemma lang_read p q : read p lang_fr = Some q → read p lang_en = Some q.
Proof.
  destruct p as [|w|w| |]; [done| | |done|done]; simpl.
  - case_match; done.
  - case_match; [done|]. simpl. by repeat (case_match; simpl in *; try done).
Qed.
Lemma harmless_read kv p q : harmless kv = true → read p kv.1 = Some q → read p kv.2 = Some q.
Proof.
  destruct kv as [old new]. unfold harmless. cbn [fst snd]. intros [[[Ho Hn]%andb_prop Hs]%andb_prop|[->%String.eqb_eq ->%String.eqb_eq]%andb_prop]%orb_prop;
    [|apply lang_read].
  destruct (textual p) eqn:Hp; [by rewrite !read_inert|]. destruct old as [|c old]; [done|]. cbn [read starts_outside] in *.
  by rewrite outside_stuck.
Qed.
Lemma replace_from_skip pairs n s : replace_from pairs n s = replace_from pairs 0 (sdrop n s).
Proof. revert n. induction s as [|c s IH]; intros [|n]; try done. cbn [replace_from sdrop]. apply IH. Qed.
Lemma has_prefix_split s p : has_prefix s p = true → s = p +++ sdrop (String.length p) s.
Proof. intros [t ->]%has_prefix_spec. by rewrite sdrop_app. Qed.
Lemma read_replace pairs s p q : forallb harmless pairs = true → read p s = Some q → read p (Replace pairs s) = Some q.
Proof.
  intros Hh. unfold Replace. revert p. induction s as [s IH] using (induction_ltof1 _ String.length); intros p Hr. unfold ltof in IH.
  destruct s as [|c s]; [done|]. cbn [replace_from]. destruct (replacement pairs (String c s)) as [[old new]|] eqn:Hf.
  - unfold replacement in Hf. pose proof (find_some _ _ Hf) as [Hin Hp]. cbn [fst] in Hp.
    rewrite forallb_forall in Hh. pose proof (Hh _ Hin) as Hk. apply has_prefix_split in Hp.
    destruct old as [|c' old]; [unfold harmless in Hk; cbn in Hk; rewrite andb_false_r in Hk; discriminate|]. injection Hp as <- Hs.
    rewrite replace_from_skip. cbn [String.length]. rewrite Nat.sub_succ, Nat.sub_0_r. rewrite Hs in Hr. change (String c (old +++ ?t)) with (String c old +++ t) in Hr.
    rewrite read_app in Hr. destruct (read p (String c old)) as [r|] eqn:Hro; [|done]. cbn in Hr.
    eapply read_parts; [by apply (harmless_read _ _ _ Hk)|]. apply IH; [|done]. rewrite Hs at 2. cbn. rewrite sapp_length. lia.
  - cbn [read] in *. destruct (read_byte p c) as [r|]; [|done]. cbn in *. apply IH; [cbn; lia|done].
Qed.
(** ** Texts that are no markup *)

Lemma inert_app x y : inert x → inert y → inert (x +++ y).
Proof. unfold inert. rewrite sforall_app. by intros -> ->. Qed.
Lemma inert_nil : inert "".
Proof. done. Qed.
Lemma inert_byte_text c : inert (esc_byte c).
Proof.
  unfold esc_byte. destruct (Ascii.eqb c "&"); [done|]. destruct (Ascii.eqb c "'"); [done|]. destruct (Ascii.eqb c "<") eqn:Hl; [done|].
  destruct (Ascii.eqb c ">"); [done|]. destruct (Ascii.eqb c quote_char) eqn:Hq; [done|].
  unfold inert. cbn [sforall]. unfold inert_byte. by rewrite Hl, Hq.
Qed.
Lemma inert_esc s : inert (esc s).
Proof. induction s as [|c s IH]; [done|]. cbn [esc]. apply inert_app; [apply inert_byte_text|done]. Qed.
Lemma inert_bytes (p : ascii → bool) s : (∀ c, p c = true → inert_byte c = true) → sforall p s = true → inert s.
Proof. intros Hp. unfold inert. induction s as [|c s IH]; [done|]. cbn [sforall]. intros [Hc Hs]%andb_prop. by rewrite Hp, IH. Qed.
Lemma inert_query s : inert (QueryEscape s).
Proof.
  induction s as [|c s IH]; [done|]. cbn [QueryEscape]. apply inert_app; [|done].
  assert (forallb (λ n, sforall inert_byte (query_byte (chr n))) (seqZ 0 256) = true) as Ha by by vm_compute.
  rewrite forallb_forall in Ha. specialize (Ha (byte c)). unfold inert. rewrite <- (chr_byte c). apply Ha.
  apply list_elem_of_In, elem_of_seqZ. pose proof (byte_range c). lia.
Qed.
Lemma inert_join sep l : inert sep → Forall inert l → inert (join sep l).
Proof.
  intros Hs. induction 1 as [|x l Hx Hf IH]; [done|]. cbn [join]. destruct l as [|y l]; [done|]. apply inert_app; [done|]. by apply inert_app.
Qed.
Lemma inert_if (b : bool) x y : inert x → inert y → inert (if b then x else y).
Proof. by destruct b. Qed.
Lemma inert_itoa z : inert (itoa z).
Proof.
  assert (∀ n, 0 ≤ n → inert (itoa n)) as Hp.
  { intros n Hn. pose proof (proj1 (itoa_digits n Hn)) as Hd. unfold digits_only in Hd. apply andb_prop in Hd as [_ Hd].
    revert Hd. apply inert_bytes. intros c. destruct c as [[] [] [] [] [] [] [] []]; by vm_compute. }
  destruct z as [|p|p]; [by apply Hp|by apply Hp|]. change (itoa (Zneg p)) with (String "-" (itoa (Zpos p))). apply (inert_app "-"); [done|by apply Hp].
Qed.

(** ** Catalogs that are only text

    True of the embedded ones but for the help of a first connection, which the login page
    shows as it is. *)
Class PlainCatalogs `{!Catalogs} : Prop :=
  plain_text : ∀ language key value, texts language !! key = Some value → key ≠ "login.initialization.message" → inert value.
Lemma inert_Text `{PlainCatalogs} language key : key ≠ "login.initialization.message" → inert key → inert (Text language key).
Proof.
  intros Hk Hi. unfold Text. destruct (texts language !! key) eqn:Ht; [by eapply plain_text|].
  destruct (texts DefaultLanguage !! key) eqn:Hd; [by eapply plain_text|done].
Qed.

(** ** The tactic *)

Create HintDb inert discriminated.
Create HintDb markup discriminated.
#[export] Hint Resolve inert_app inert_nil inert_esc inert_query inert_itoa inert_if : inert.
#[export] Hint Extern 1 (inert (Text _ _)) => (apply inert_Text; [discriminate|reflexivity]) : inert.
#[export] Hint Resolve markup_nil : markup.
(** A piece of markup of the program is closed. *)
Ltac closed_text t :=
  lazymatch t with
  | h ?s => closed_text s
  | String _ ?s => closed_text s
  | EmptyString => idtac
  end.
Ltac solve_inert := first [assumption | solve [eauto 12 with inert] | (unfold inert; by vm_compute)].
Ltac reading_step :=
  lazymatch goal with
  | |- read _ (String.append _ _) = _ => eapply read_parts
  | |- read _ (if ?b then _ else _) = _ => destruct b
  | |- read _ ?x = _ =>
      first [ closed_text x; vm_compute; reflexivity
            | apply read_inert; [reflexivity|solve_inert]
            | solve [eauto with markup] ]
  end.
(** The pieces of the program are read as they are, and the texts between them change nothing. *)
Ltac reading := unfold markup; repeat reading_step.
