(* ===== verification/WebReads.v ===== *)
(** * What the pages read ([internal/webstorage], [webservices], [webnetwork], [weblogs],
    [webphp], [webmysql], [webtor], [webapache], [webfail2ban], [webfirewall])

    The clients of the local API that gather what a page shows: the requests they send, one
    after the other, and what they make of the replies.  A reply is decoded by
    [encoding/json] into a structure: a [decoder] gives [None] when a value has another
    type, and the zero of the type for a value that is absent or null.  The keys are those
    the API writes; integers are those a [float64] holds, which the API's are. *)

From S2P Require Import Prelude GoStrings StringFacts Regex Codec Json Floats.
From S2P Require Api Schema Store Dashboard.
From S2P Require Import WebApp WebGate WebAdmin WebActions.
From Stdlib Require Import Ascii String.
#[local] Open Scope string_scope.
#[local] Open Scope list_scope.
#[local] Open Scope Z_scope.

Import Api(Value, VNil, VBool, VInt, VStr, VNum, VList, VMap, vget).

(** ** Decoders *)

Definition decoder (A : Type) : Type := data → option A.
(** The value of a field that is there, or what the field holds. *)
Definition str_onto (base k : string) : decoder string := λ d, match vget d k with VNil => Some base | VStr s => Some s | _ => None end.
Definition bool_onto (base : bool) (k : string) : decoder bool := λ d, match vget d k with VNil => Some base | VBool b => Some b | _ => None end.
Definition int_value (v : Value) : option Z :=
  match v with
  | VInt z => if (int_min <=? z) && (z <=? int_max) then Some z else None
  | VNum literal => atoi literal
  | _ => None
  end.
Definition int_onto (base : Z) (k : string) : decoder Z := λ d, match vget d k with VNil => Some base | v => int_value v end.
Definition has_key (d : data) (k : string) : bool := existsb (λ kv, String.eqb kv.1 k) d.
(** A pointer: a null sets it to nil. *)
Definition pointer_onto (base : option string) (k : string) : decoder (option string) := λ d,
  match vget d k with VNil => Some (if has_key d k then None else base) | VStr s => Some (Some s) | _ => None end.
Definition d_str : string → decoder string := str_onto "".
Definition d_bool : string → decoder bool := bool_onto false.
Definition d_int : string → decoder Z := int_onto 0.
Definition d_opt_str : string → decoder (option string) := pointer_onto None.
Definition d_opt_int (k : string) : decoder (option Z) := λ d, match vget d k with VNil => Some None | v => Some <$> int_value v end.
Definition d_opt_bool (k : string) : decoder (option bool) := λ d, match vget d k with VNil => Some None | VBool b => Some (Some b) | _ => None end.
Definition d_array {A} (of_value : Value → option A) (k : string) : decoder (list A) := λ d,
  match vget d k with VNil => Some [] | VList l => mapM of_value l | _ => None end.
Definition str_value (v : Value) : option string := match v with VNil => Some "" | VStr s => Some s | _ => None end.
Definition d_strs : string → decoder (list string) := d_array str_value.
Definition d_ints : string → decoder (list Z) := d_array (λ v, match v with VNil => Some 0 | v => int_value v end).
Definition of_object {A} (dec : decoder A) (v : Value) : option A := match v with VNil => dec [] | VMap m => dec m | _ => None end.
Definition d_list {A} (dec : decoder A) : string → decoder (list A) := d_array (of_object dec).
Definition d_struct {A} (dec : decoder A) (k : string) : decoder A := λ d, of_object dec (vget d k).
Definition d_counts (k : string) : decoder (list (string * Z)) := λ d,
  match vget d k with
  | VNil => Some []
  | VMap m => mapM (λ kv, (λ z, (kv.1, z)) <$> match kv.2 with VNil => Some 0 | v => int_value v end) m
  | _ => None
  end.

(** ** Requests in a row *)

Definition then_ {A B} (x : res string A * World) (k : A → World → res string B * World) : res string B * World :=
  match x with (Ok a, w) => k a w | (Err e, w) => (Err e, w) end.
Notation "'read!' x , w ':=' m 'in' k" := (then_ m (λ x w, k)) (at level 10, x name, w name, m at level 200, k at level 200) : go_scope.

(** The local API, and the message of [json.Unmarshal] for data of other types. *)
Class LocalAPI := { execute : list Api.Request → Api.Request → res string Api.Reply; decode_error : data → string }.
Definition decode `{LocalAPI} {A} (dec : decoder A) (d : data) (w : World) : res string A * World := (from_option_res (decode_error d) (dec d), w).
(** A client call whose every failure has one message. *)
Definition call `{LocalAPI} (domain failed : string) (w : World) (command : string) (arguments : list string) : res string data * World :=
  fixed_call execute domain failed w command arguments.
(** The call and the decoding of its data. *)
Definition fetch `{LocalAPI} {A} (m : res string data * World) (dec : decoder A) : res string A * World := read! d, w := m in decode dec d w.

(** ** [internal/webstorage] *)
Module webstorage.
Record Mount := mkMount {
  ID : string; Source : string; MountPoint : string; Filesystem : string; PhysicalDevice : string; Size : Z; Used : Z; Available : Z; Percent : Z;
  Status : string; StatusLabel : string; SizeLabel : string; UsedLabel : string; AvailableLabel : string }.
Record Summary := mkSummary { Total : Z; Normal : Z; Warning : Z; Danger : Z }.
Record Snapshot := mkSnapshot { Mounts : list Mount; summary : Summary }.
Definition mount_fields : decoder (string * string * string * string * string * (Z * Z * Z * Z)) := λ d,
  id ← d_str "id" d; source ← d_str "source" d; mount ← d_str "mount" d; filesystem ← d_str "filesystem" d; device ← d_str "physical_device" d;
  size ← d_int "size" d; used ← d_int "used" d; available ← d_int "available" d; percent ← d_int "percent" d;
  Some (id, source, mount, filesystem, device, (size, used, available, percent)).
Definition status (percent : Z) : string * string :=
  if 90 <=? percent then ("danger", "Critique") else if 80 <=? percent then ("warning", "À surveiller") else ("success", "Normal").
Section formatBytes.
Context `{Floats}.
Definition formatBytes (value : Z) : string :=
  let (amount, unit) := Dashboard.scaled ["Kio"; "Mio"; "Gio"; "Tio"; "Pio"] "o" (float64 value) in
  let decimals := if negb (String.eqb unit "o") && SFltb amount (float64 10) then 1%nat else 0%nat in
  Dashboard.with_comma (FormatFixed decimals amount) +++ " " +++ unit.
(** A mount with its labels; [None] for values that cannot be. *)
Definition labelled (m : string * string * string * string * string * (Z * Z * Z * Z)) : option Mount :=
  let '(id, source, mount, filesystem, device, (size, used, available, percent)) := m in
  if (percent <? 0) || (100 <? percent) || (size <? 0) || (used <? 0) || (available <? 0) then None
  else
    let (st, label) := status percent in
    Some (mkMount id source mount filesystem device size used available percent st label (formatBytes size) (formatBytes used) (formatBytes available)).
End formatBytes.
Definition with_status (st : string) (l : list Mount) : Z := Z.of_nat (List.length (List.filter (λ m, String.eqb (Status m) st) l)).
Definition summary_of (l : list Mount) : Summary :=
  let total := Z.of_nat (List.length l) in
  mkSummary total (total - with_status "danger" l - with_status "warning" l) (with_status "warning" l) (with_status "danger" l).
Definition StorageSnapshot `{Floats} `{LocalAPI} (w : World) : res string Snapshot * World :=
  let '(reply, w) := ask execute w "storage" "list" [] in
  match reply with
  | Err e => (Err ("read storage backend: " +++ e), w)
  | Ok r =>
      match Api.resp_success (Api.Resp r), Api.resp_data (Api.Resp r) with
      | true, Some d =>
          match d_list mount_fields "mounts" d with
          | None => (Err ("decode storage response: " +++ decode_error d), w)
          | Some mounts =>
              match mapM labelled mounts with
              | None => (Err "invalid storage values", w)
              | Some mounts => (Ok (mkSnapshot mounts (summary_of mounts)), w)
              end
          end
      | _, _ => (Err "storage backend rejected request", w)
      end
  end.
End webstorage.

(** ** [internal/webservices] *)
Module webservices.
Record Service := mkService { ID : string; Exists : bool; Active : bool; Enabled : bool; State : string; Status : string; StatusLabel : string }.
Record Summary := mkSummary { Total : Z; Installed : Z; active : Z; Inactive : Z; Missing : Z }.
Record Snapshot := mkSnapshot { Services : list Service; summary : Summary }.
Definition serviceStatus (exists_ active : bool) (state : string) : string * string :=
  if negb exists_ then ("neutral", "Non installé") else if active then ("success", "Actif")
  else if String.eqb state "failed" then ("danger", "En échec") else ("warning", "Arrêté").
Definition decode_service : decoder Service := λ d,
  id ← d_str "id" d; exists_ ← d_bool "exists" d; active ← d_bool "active" d; enabled ← d_bool "enabled" d; state ← d_str "state" d;
  let (st, label) := serviceStatus exists_ active state in Some (mkService id exists_ active enabled state st label).
Definition number_of (p : Service → bool) (l : list Service) : Z := Z.of_nat (List.length (List.filter p l)).
Definition summary_of (l : list Service) : Summary :=
  mkSummary (Z.of_nat (List.length l)) (number_of Exists l) (number_of (λ s, Exists s && Active s) l)
    (number_of (λ s, Exists s && negb (Active s)) l) (number_of (λ s, negb (Exists s)) l).
Definition ServicesSnapshot `{LocalAPI} (w : World) : res string Snapshot * World :=
  let '(reply, w) := ask execute w "services" "list" [] in
  match reply with
  | Err e => (Err ("read services backend: " +++ e), w)
  | Ok r =>
      match Api.resp_success (Api.Resp r), Api.resp_data (Api.Resp r) with
      | true, Some d =>
          match d_list decode_service "services" d with
          | None => (Err ("decode services response: " +++ decode_error d), w)
          | Some services =>
              if negb (forallb (λ s, identifierPattern (ID s)) services) then (Err "invalid service identifier", w)
              else (Ok (mkSnapshot services (summary_of services)), w)
          end
      | _, _ => (Err "services backend rejected request", w)
      end
  end.
End webservices.

(** ** [internal/webnetwork] *)
Module webnetwork.
Record Address := mkAddress { address : string; Prefix : Z }.
Record Interface := mkInterface {
  ID : string; Name : string; Type_ : string; State : string; TypeLabel : string; Status : string; StatusLabel : string;
  MAC : option string; MTU : option Z; IPv4 : list Address; IPv6 : list Address }.
Record Summary := mkSummary { Total : Z; Up : Z; Down : Z; Unknown : Z }.
Record Snapshot := mkSnapshot { Interfaces : list Interface; Selected : option Interface; summary : Summary }.
Definition status (state : string) : string * string :=
  if String.eqb state "up" then ("success", "Active") else if String.eqb state "down" then ("warning", "Arrêtée") else ("neutral", "État inconnu").
Definition typeLabel (value : string) : string :=
  match find (λ kv, String.eqb kv.1 value)
    [("ethernet", "Ethernet"); ("loopback", "Boucle locale"); ("bridge", "Pont"); ("vlan", "VLAN"); ("bond", "Agrégation"); ("wireguard", "WireGuard");
     ("tun", "Tunnel TUN"); ("tap", "Tunnel TAP")] with
  | Some (_, label) => label
  | None => "Inconnu"
  end.
Definition decode_address : decoder Address := λ d, a ← d_str "address" d; p ← d_int "prefix" d; Some (mkAddress a p).
Definition interface (d : data) (mac : option string) (mtu : option Z) (v4 v6 : list Address) : option Interface :=
  id ← d_str "id" d; name ← d_str "name" d; kind ← d_str "type" d; state ← d_str "state" d;
  let (st, label) := status state in Some (mkInterface id name kind state (typeLabel kind) st label mac mtu v4 v6).
Definition decode_listed : decoder Interface := λ d, interface d None None [] [].
Definition decode_details : decoder Interface := λ d,
  mac ← d_opt_str "mac" d; mtu ← d_opt_int "mtu" d; v4 ← d_list decode_address "ipv4" d; v6 ← d_list decode_address "ipv6" d; interface d mac mtu v4 v6.
Definition in_state (state : string) (l : list Interface) : Z := Z.of_nat (List.length (List.filter (λ i, String.eqb (State i) state) l)).
Definition summary_of (l : list Interface) : Summary :=
  let total := Z.of_nat (List.length l) in mkSummary total (in_state "up" l) (in_state "down" l) (total - in_state "up" l - in_state "down" l).
(** The loop over the interfaces: the first one that is up and no loopback, or the one asked for. *)
Definition choose (requested : string) (selected : string) (i : Interface) : string :=
  let selected := if String.eqb (State i) "up" && String.eqb selected "" && negb (String.eqb (Type_ i) "loopback") then ID i else selected in
  if negb (String.eqb requested "") && String.eqb requested (ID i) then ID i else selected.
Definition selected_id (requested : string) (l : list Interface) : string :=
  let selected := fold_left (choose requested) l "" in
  if String.eqb selected "" then match l with i :: _ => ID i | [] => "" end else selected.
Definition NetworkSnapshot `{LocalAPI} (w : World) (requested : string) : res string Snapshot * World :=
  read! d, w := call "network" "network list unavailable" w "list" [] in
  match d_list decode_listed "interfaces" d with
  | None => (Err ("decode network list: " +++ decode_error d), w)
  | Some l =>
      let selected := selected_id requested l in
      if String.eqb selected "" then (Ok (mkSnapshot l None (summary_of l)), w)
      else
        read! d, w := call "network" "network status unavailable" w "status" [selected] in
        match decode_details d with
        | None => (Err ("decode network status: " +++ decode_error d), w)
        | Some item => (Ok (mkSnapshot l (Some item) (summary_of l)), w)
        end
  end.
End webnetwork.

(** ** [internal/weblogs] *)
Module weblogs.
Record Snapshot := mkSnapshot { Sources : list string; Selected : string; Lines : list string; Total : Z }.
Definition LogSources `{LocalAPI} (w : World) : res string (list string) * World :=
  read! d, w := call "logs" "logs list unavailable" w "list" [] in
  match d_list (d_str "id") "logs" d with
  | None => (Err ("decode logs list: " +++ decode_error d), w)
  | Some ids => (Ok (List.filter (λ id, negb (String.eqb id "")) ids), w)
  end.
Definition LogsSnapshot `{LocalAPI} (w : World) (requested : string) (lineCount : Z) : res string Snapshot * World :=
  if (lineCount <? 1) || (5000 <? lineCount) then (Err "invalid log line count", w)
  else
    read! sources, w := LogSources w in
    let selected :=
      if negb (String.eqb requested "") && existsb (String.eqb requested) sources then requested
      else match sources with id :: _ => id | [] => "" end in
    if String.eqb selected "" then (Ok (mkSnapshot sources selected [] 0), w)
    else
      read! d, w := call "logs" "log content unavailable" w "tail" [selected; itoa lineCount] in
      match (lines ← d_strs "lines" d; total ← d_int "total_lines" d; Some (lines, total)) with
      | None => (Err ("decode log content: " +++ decode_error d), w)
      | Some (lines, total) => (Ok (mkSnapshot sources selected (rev lines) total), w)
      end.
End weblogs.

(** ** [internal/webphp] *)
Module webphp.
Record CLI := mkCLI { CLIVersion : string; SAPI : string; IniFile : string; ScanDir : string }.
Record Instance_ := mkInstance {
  ID : string; Version : string; Service : string; Exists : bool; Active : bool; Enabled : bool; State : string; Status : string; StatusLabel : string }.
Record Snapshot := mkSnapshot { cli : CLI; Instances : list Instance_ }.
Definition optional (value : option string) : string :=
  match value with Some s => if String.eqb s "" then "Non disponible" else s | None => "Non disponible" end.
Definition status (exists_ active : bool) (state : string) : string * string :=
  if negb exists_ then ("neutral", "Non installée") else if active then ("success", "Active")
  else if String.eqb state "failed" then ("danger", "En échec") else ("warning", "Arrêtée").
Definition decode_cli : decoder CLI := λ d,
  version ← d_str "version" d; sapi ← d_str "sapi" d; ini ← d_opt_str "ini_file" d; scan ← d_opt_str "scan_dir" d;
  Some (mkCLI version sapi (optional ini) (optional scan)).
Definition decode_instance : decoder Instance_ := λ d,
  id ← d_str "id" d; version ← d_str "version" d; service ← d_str "service" d; exists_ ← d_bool "exists" d; active ← d_bool "active" d;
  enabled ← d_bool "enabled" d; state ← d_str "state" d;
  let (st, label) := status exists_ active state in Some (mkInstance id version service exists_ active enabled state st label).
Definition PHPSnapshot `{LocalAPI} (w : World) : res string Snapshot * World :=
  read! info, w := call "php" "PHP backend request failed" w "info" [] in
  match decode_cli info with
  | None => (Err ("decode PHP info: " +++ decode_error info), w)
  | Some cli =>
      read! fpm, w := call "php" "PHP backend request failed" w "fpm" [] in
      match d_list decode_instance "instances" fpm with
      | None => (Err ("decode PHP-FPM: " +++ decode_error fpm), w)
      | Some instances =>
          if negb (forallb (λ i, runtimePattern (ID i)) instances) then (Err "invalid PHP runtime", w) else (Ok (mkSnapshot cli instances), w)
      end
  end.
End webphp.

(** ** [internal/webmysql] *)
Module webmysql.
Record Service := mkService { Unit_ : option string; ServiceName : option string; Exists : bool; Active : bool; Enabled : bool; State : string }.
Record Server := mkServer {
  Product : string; Version : string; VersionComment : string; Hostname : string; Port : Z; Socket : string; DataDirectory : string;
  DefaultStorageEngine : string; service : Service }.
Record Database := mkDatabase { Name : string; Size : Z; Tables : Z; Kind : string }.
(** The metrics are a map that lists its keys as the reply does. *)
Record Snapshot := mkSnapshot { server : Server; Metrics : list (string * Z); Databases : list Database; Warnings : list string }.
Definition no_service : Service := mkService None None false false false "".
Definition no_server : Server := mkServer "" "" "" "" 0 "" "" "" no_service.
(** Decoding into a service or a server that holds values. *)
Definition decode_service (b : Service) : decoder Service := λ d,
  unit ← pointer_onto (Unit_ b) "unit" d; name ← pointer_onto (ServiceName b) "service" d; exists_ ← bool_onto (Exists b) "exists" d;
  active ← bool_onto (Active b) "active" d; enabled ← bool_onto (Enabled b) "enabled" d; state ← str_onto (State b) "state" d;
  Some (mkService unit name exists_ active enabled state).
Definition decode_server (b : Server) : decoder Server := λ d,
  product ← str_onto (Product b) "product" d; version ← str_onto (Version b) "version" d; comment ← str_onto (VersionComment b) "version_comment" d;
  host ← str_onto (Hostname b) "hostname" d; port ← int_onto (Port b) "port" d; socket ← str_onto (Socket b) "socket" d;
  directory ← str_onto (DataDirectory b) "data_directory" d; engine ← str_onto (DefaultStorageEngine b) "default_storage_engine" d;
  s ← d_struct (decode_service (service b)) "service" d;
  Some (mkServer product version comment host port socket directory engine s).
Definition decode_database : decoder Database := λ d,
  name ← d_str "name" d; size ← d_int "size_bytes" d; tables ← d_int "table_count" d; kind ← d_str "kind" d; Some (mkDatabase name size tables kind).
Definition named (product : string) (s : Service) : Server := mkServer product "" "" "" 0 "" "" "" s.
Definition refused_warning : string :=
  "Le service est détecté, mais la connexion locale à MySQL/MariaDB a été refusée. Vérifiez l’authentification du client système.".
Definition metrics_warning : string := "Les métriques MySQL ne sont pas disponibles.".
Definition databases_warning : string := "La liste des bases MySQL ne peut pas être consultée.".
(** A list that is asked for, or its warning. *)
Definition or_warning `{LocalAPI} {A} (w : World) (command warning : string) (dec : decoder (list A)) : res string (list A * list string) * World :=
  match call "mysql" "mysql backend request failed" w command [] with
  | (Err _, w) => (Ok ([], [warning]), w)
  | (Ok d, w) => read! items, w := decode dec d w in (Ok (items, []), w)
  end.
Section snapshot.
Context `{UnicodeCase} `{LocalAPI}.
Definition detectedProduct (s : Service) : string :=
  match ServiceName s with
  | Some name => if contains (to_lower name) "maria" then "MariaDB" else "MySQL / MariaDB"
  | None => "MySQL / MariaDB"
  end.
(** What follows the description of the service, when there is one. *)
Definition server_snapshot (w : World) (described : option Service) : res string Snapshot * World :=
  let s := default no_service described in
  match call "mysql" "mysql backend request failed" w "info" [] with
  | (Err e, w) =>
      match described with
      | Some s => if Exists s then (Ok (mkSnapshot (named (detectedProduct s) s) [] [] [refused_warning]), w) else (Err e, w)
      | None => (Err e, w)
      end
  | (Ok info, w) =>
      match decode_server (named "" s) info with
      | None => (Err ("decode mysql info: " +++ decode_error info), w)
      | Some server =>
          read! metrics, w := or_warning w "status" metrics_warning (d_counts "metrics") in
          read! databases, w := or_warning w "databases" databases_warning (d_list decode_database "databases") in
          (Ok (mkSnapshot server metrics.1 databases.1 (metrics.2 ++ databases.2)), w)
      end
  end.
Definition MySQLSnapshot (w : World) : res string Snapshot * World :=
  match call "mysql" "mysql backend request failed" w "service" [] with
  | (Err _, w) => server_snapshot w None
  | (Ok d, w) =>
      match decode_service no_service d with
      | None => (Err ("decode mysql service: " +++ decode_error d), w)
      | Some s => if negb (Exists s) then (Ok (mkSnapshot (named "MySQL / MariaDB" s) [] [] []), w) else server_snapshot w (Some s)
      end
  end.
Definition MySQLMetrics (w : World) : res string (list (string * Z)) * World :=
  fetch (call "mysql" "mysql backend request failed" w "status" []) (d_counts "metrics").
End snapshot.
End webmysql.

(** ** [internal/webtor] *)
Module webtor.
Record Info := mkInfo { Product : string; Version : string; ConfigFile : string; Service : string; Unit_ : string }.
Record Status := mkStatus {
  Exists : bool; Active : bool; Enabled : bool; LoadState : string; ActiveState : string; State : string; MainPID : Z; Memory : Z; Tasks : Z; Bootstrap : option Z }.
Record Onion := mkOnion { ID : string; Hostname : option string; Ports : list data }.
Record Snapshot := mkSnapshot {
  Installed : bool; info : Info; status : Status; ConfigurationValid : bool; ConfigurationMessage : string; Services : list Onion }.
Definition no_info : Info := mkInfo "" "" "" "" "".
Definition no_status : Status := mkStatus false false false "" "" "" 0 0 0 None.
Definition decode_info : decoder Info := λ d,
  product ← d_str "product" d; version ← d_str "version" d; file ← d_str "config_file" d; service ← d_str "service" d; unit ← d_str "unit" d;
  Some (mkInfo product version file service unit).
Definition decode_status : decoder Status := λ d,
  exists_ ← d_bool "exists" d; active ← d_bool "active" d; enabled ← d_bool "enabled" d; load ← d_str "load_state" d; act ← d_str "active_state" d;
  state ← d_str "state" d; pid ← d_int "main_pid" d; memory ← d_int "memory_bytes" d; tasks ← d_int "tasks" d; bootstrap ← d_opt_int "bootstrap_percent" d;
  Some (mkStatus exists_ active enabled load act state pid memory tasks bootstrap).
Definition decode_test : decoder (bool * string) := λ d, valid ← d_bool "valid" d; message ← d_str "message" d; Some (valid, message).
Definition decode_onion : decoder Onion := λ d,
  id ← d_str "id" d; hostname ← d_opt_str "hostname" d; ports ← d_list (λ m, Some m) "ports" d; Some (mkOnion id hostname ports).
Definition absent : Snapshot := mkSnapshot false no_info no_status false "" [].
(** The first reply tells a server without the program. *)
Definition not_installed (code : string) (r : Api.Reply) : bool :=
  negb (Api.resp_success (Api.Resp r)) && match Api.resp_error (Api.Resp r) with Some e => String.eqb (Api.err_code e) code | None => false end.
Definition first_data (failed : string) (reply : res string Api.Reply) : res string data :=
  match reply with
  | Ok r => if negb (Api.resp_success (Api.Resp r)) then Err failed else from_option_res failed (Api.resp_data (Api.Resp r))
  | Err _ => Err failed
  end.
Definition TorSnapshot `{LocalAPI} (w : World) : res string Snapshot * World :=
  let failed := "Tor backend request failed" in
  let '(reply, w) := ask execute w "tor" "info" [] in
  if match reply with Ok r => not_installed "TOR_NOT_INSTALLED" r | Err _ => false end then (Ok absent, w)
  else
    read! info, w := fetch (first_data failed reply, w) decode_info in
    read! status, w := fetch (call "tor" failed w "status" []) decode_status in
    read! config, w := fetch (call "tor" failed w "configtest" []) decode_test in
    read! services, w := fetch (call "tor" failed w "hidden-services" []) (d_list decode_onion "services") in
    (Ok (mkSnapshot true info status config.1 config.2 services), w).
End webtor.

(** ** [internal/webapache] *)
Module webapache.
Record VHost := mkVHost { ServerName : string; Port : Z; ConfigFile : string; DocumentRoot : option string }.
Record Site := mkSite { Filename : string; ConfigID : string; Enabled : bool; Size : Z; ServerNames : list string; Ports : list Z }.
Record SiteConfig := mkSiteConfig { site_Filename : string; site_ConfigID : string; site_Enabled : bool; Content : string }.
Record Mod := mkMod { Name : string; Type_ : string }.
Record Snapshot := mkSnapshot {
  Installed : bool; Version : string; Built : string; ConfigMessage : string; ConfigValid : bool; VHosts : list VHost; Sites : list Site; Modules : list Mod }.
Definition decode_vhost : decoder VHost := λ d,
  name ← d_str "server_name" d; port ← d_int "port" d; file ← d_str "config_file" d; root ← d_opt_str "document_root" d; Some (mkVHost name port file root).
Definition decode_site : decoder Site := λ d,
  filename ← d_str "filename" d; id ← d_str "config_id" d; enabled ← d_bool "enabled" d; size ← d_int "size_bytes" d; names ← d_strs "server_names" d;
  ports ← d_ints "ports" d; Some (mkSite filename id enabled size names ports).
Definition decode_module : decoder Mod := λ d, name ← d_str "name" d; kind ← d_str "type" d; Some (mkMod name kind).
Definition decode_config : decoder SiteConfig := λ d,
  filename ← d_str "filename" d; id ← d_str "config_id" d; enabled ← d_bool "enabled" d; content ← d_str "content" d;
  Some (mkSiteConfig filename id enabled content).
Definition decode_overview : decoder Snapshot := λ d,
  installed ← d_bool "installed" d;
  info ← d_struct (λ d, version ← d_str "version" d; built ← d_str "built" d; Some (version, built)) "info" d;
  config ← d_struct webtor.decode_test "configtest" d;
  vhosts ← d_struct (d_list decode_vhost "virtual_hosts") "vhosts" d; sites ← d_struct (d_list decode_site "sites") "sites" d;
  modules ← d_struct (d_list decode_module "modules") "modules" d;
  Some (mkSnapshot installed info.1 info.2 config.2 config.1 vhosts sites modules).
Definition ApacheSnapshot `{LocalAPI} (w : World) : res string Snapshot * World :=
  fetch (call "apache" "apache overview unavailable" w "overview" []) decode_overview.
Definition ApacheSite `{LocalAPI} (w : World) (identifier : string) : res string SiteConfig * World :=
  let '(reply, w) := ask execute w "apache" "site" [identifier] in
  (match reply with
   | Err e => Err e
   | Ok r =>
       match Api.resp_success (Api.Resp r), Api.resp_data (Api.Resp r) with
       | true, Some d => from_option_res (decode_error d) (decode_config d)
       | _, _ => Err (responseError r)
       end
   end, w).
End webapache.

(** ** [internal/webfail2ban] *)
Module webfail2ban.
Record Info := mkInfo { Product : string; Version : string; ConfigDirectory : string }.
Record Status := mkStatus {
  Exists : bool; Active : bool; Enabled : bool; State : string; MainPID : Z; Memory : Z; Tasks : Z; Jails : list string }.
Record Jail := mkJail { CurrentlyFailed : Z; TotalFailed : Z; CurrentlyBanned : Z; TotalBanned : Z; BannedIPs : list string }.
Record Snapshot := mkSnapshot {
  Installed : bool; info : Info; status : Status; ConfigValid : bool; ConfigMessage : string; Selected : string; jail : option Jail }.
Definition decode_info : decoder Info := λ d,
  product ← d_str "product" d; version ← d_str "version" d; directory ← d_str "config_directory" d; Some (mkInfo product version directory).
Definition decode_status : decoder Status := λ d,
  exists_ ← d_bool "exists" d; active ← d_bool "active" d; enabled ← d_bool "enabled" d; state ← d_str "state" d; pid ← d_int "main_pid" d;
  memory ← d_int "memory_bytes" d; tasks ← d_int "tasks" d; jails ← d_strs "jails" d; Some (mkStatus exists_ active enabled state pid memory tasks jails).
Definition decode_jail : decoder Jail := λ d,
  failed ← d_int "currently_failed" d; total ← d_int "total_failed" d; banned ← d_int "currently_banned" d; total_banned ← d_int "total_banned" d;
  ips ← d_strs "banned_ips" d; Some (mkJail failed total banned total_banned ips).
Definition absent : Snapshot := mkSnapshot false (mkInfo "" "" "") (mkStatus false false false "" 0 0 0 []) false "" "" None.
Definition select (requested : string) (jails : list string) : string :=
  if negb (String.eqb requested "") && existsb (String.eqb requested) jails then requested else match jails with j :: _ => j | [] => "" end.
Definition Fail2banSnapshot `{LocalAPI} (w : World) (requested : string) : res string Snapshot * World :=
  let failed := "fail2ban request failed" in
  let '(reply, w) := ask execute w "fail2ban" "info" [] in
  if match reply with Ok r => webtor.not_installed "FAIL2BAN_NOT_INSTALLED" r | Err _ => false end then (Ok absent, w)
  else
    read! info, w := fetch (webtor.first_data failed reply, w) decode_info in
    read! status, w := fetch (call "fail2ban" failed w "status" []) decode_status in
    read! config, w := fetch (call "fail2ban" failed w "configtest" []) webtor.decode_test in
    let selected := select requested (Jails status) in
    let shown j := mkSnapshot true info status config.1 config.2 selected j in
    if String.eqb selected "" then (Ok (shown None), w)
    else
      read! j, w := fetch (call "fail2ban" failed w "jail" [selected])
        (λ d, name ← d_str "jail" d; status ← d_struct decode_jail "status" d; Some (name, status)) in
      if negb (String.eqb j.1 selected) then (Err "fail2ban jail response mismatch", w) else (Ok (shown (Some j.2)), w).
End webfail2ban.

(** ** [internal/webfirewall] *)
Module webfirewall.
Record Info := mkInfo {
  Backend : string; Product : string; Installed : bool; Version : option string; Active : bool; IPv6 : option bool;
  DefaultIncoming : string; DefaultOutgoing : string; DefaultRouted : string }.
Record Rule := mkRule {
  ID : Z; Action : string; Direction : string; Protocol : string; Ports : list string; Source : string; Destination : string; Family : string }.
Record Snapshot := mkSnapshot { info : Info; Rules : list Rule }.
Definition decode_info : decoder Info := λ d,
  backend ← d_str "backend" d; product ← d_str "product" d; installed ← d_bool "installed" d; version ← d_opt_str "version" d; active ← d_bool "active" d;
  ipv6 ← d_opt_bool "ipv6" d; incoming ← d_str "default_incoming" d; outgoing ← d_str "default_outgoing" d; routed ← d_str "default_routed" d;
  Some (mkInfo backend product installed version active ipv6 incoming outgoing routed).
Definition decode_rule : decoder Rule := λ d,
  id ← d_int "id" d; action ← d_str "action" d; direction ← d_str "direction" d; protocol ← d_str "protocol" d; ports ← d_strs "ports" d;
  source ← d_str "source" d; destination ← d_str "destination" d; family ← d_str "family" d;
  Some (mkRule id action direction protocol ports source destination family).
Definition FirewallSnapshot `{LocalAPI} (w : World) : res string Snapshot * World :=
  read! info, w := fetch (firewall_call execute w "info" []) decode_info in
  read! rules, w := fetch (firewall_call execute w "rules" []) (d_list decode_rule "rules") in
  (Ok (mkSnapshot info rules), w).
End webfirewall.

(** ** [internal/webcron] *)
Module webcron.
Record Info := mkInfo { Product : string; Version : string; Service : string; Unit_ : string; AnacronAvailable : bool }.
Record Status := mkStatus {
  Exists : bool; Active : bool; Enabled : bool; LoadState : string; ActiveState : string; State : string; MainPID : Z; MemoryBytes : Z; Tasks : Z }.
Record User := mkUser { Name : string; System : bool }.
Record Job := mkJob {
  ID : string; Source : string; Type_ : string; Owner : string; Schedule : string; Command : string; Line : option Z; job_Enabled : bool; Editable : bool; Managed : bool }.
Record Snapshot := mkSnapshot { info : Info; status : Status; Users : list User; Jobs : list Job }.
Record ExecutionResult := mkResult {
  ExecutionID : string; result_Status : string; ExitCode : option Z; TimedOut : bool; Truncated : bool; DurationMS : Z; Stdout : string; Stderr : string }.
Definition decode_info : decoder Info := λ d,
  product ← d_str "product" d; version ← d_str "version" d; service ← d_str "service" d; unit ← d_str "unit" d; anacron ← d_bool "anacron_available" d;
  Some (mkInfo product version service unit anacron).
Definition decode_status : decoder Status := λ d,
  exists_ ← d_bool "exists" d; active ← d_bool "active" d; enabled ← d_bool "enabled" d; load ← d_str "load_state" d; act ← d_str "active_state" d;
  state ← d_str "state" d; pid ← d_int "main_pid" d; memory ← d_int "memory_bytes" d; tasks ← d_int "tasks" d;
  Some (mkStatus exists_ active enabled load act state pid memory tasks).
Definition decode_user : decoder User := λ d, name ← d_str "name" d; system ← d_bool "system" d; Some (mkUser name system).
Definition decode_job : decoder Job := λ d,
  id ← d_str "id" d; source ← d_str "source" d; kind ← d_str "type" d; user ← d_str "user" d; schedule ← d_str "schedule" d; command ← d_str "command" d;
  line ← d_opt_int "line" d; enabled ← d_bool "enabled" d; editable ← d_bool "editable" d; managed ← d_bool "managed" d;
  Some (mkJob id source kind user schedule command line enabled editable managed).
Definition decode_result : decoder ExecutionResult := λ d,
  id ← d_str "execution_id" d; status ← d_str "status" d; code ← d_opt_int "exit_code" d; timed_out ← d_bool "timed_out" d; truncated ← d_bool "truncated" d;
  duration ← d_int "duration_ms" d; stdout ← d_str "stdout" d; stderr ← d_str "stderr" d;
  Some (mkResult id status code timed_out truncated duration stdout stderr).
Definition CronSnapshot `{LocalAPI} (w : World) : res string Snapshot * World :=
  read! info, w := fetch (cron_call execute w "info" []) decode_info in
  read! status, w := fetch (cron_call execute w "status" []) decode_status in
  read! users, w := fetch (cron_call execute w "users" []) (d_list decode_user "users") in
  read! jobs, w := fetch (cron_call execute w "jobs" []) (d_list decode_job "jobs") in
  (Ok (mkSnapshot info status users jobs), w).
Definition CronResult `{LocalAPI} (w : World) (id : string) : res string ExecutionResult * World :=
  fetch (cron_call execute w "run-result" [id]) decode_result.
End webcron.

(** ** [internal/webcertbot] *)
Module webcertbot.
Record Info := mkInfo {
  Installed : bool; Product : string; Version : string; Executable : string; Installation : string; Package : option string;
  PackageVersion : option string; Plugins : list string }.
Record Status := mkStatus {
  Service : string; Unit_ : string; Timer : string; Exists : bool; TimerExists : bool; TimerActive : bool; TimerEnabled : bool; ServiceActive : bool;
  ServiceState : string; LastResult : string; LastExitCode : Z; LastTrigger : option string; NextTrigger : option string }.
Record Certificate := mkCertificate {
  Name : string; Serial : string; KeyType : string; Domains : list string; Issuer : string; Expiry : string; DaysRemaining : Z; Valid : bool }.
Record Snapshot := mkSnapshot { info : Info; status : Status; Certificates : list Certificate }.
Record ActionResult := mkResult {
  ExecutionID : string; Action : string; result_Status : string; ExitCode : option Z; TimedOut : bool; Truncated : bool; DurationMS : Z;
  Stdout : string; Stderr : string }.
Definition decode_info : decoder Info := λ d,
  installed ← d_bool "installed" d; product ← d_str "product" d; version ← d_str "version" d; executable ← d_str "executable" d;
  installation ← d_str "installation" d; package ← d_opt_str "package" d; package_version ← d_opt_str "package_version" d; plugins ← d_strs "plugins" d;
  Some (mkInfo installed product version executable installation package package_version plugins).
Definition decode_status : decoder Status := λ d,
  service ← d_str "service" d; unit ← d_str "unit" d; timer ← d_str "timer" d; exists_ ← d_bool "exists" d; timer_exists ← d_bool "timer_exists" d;
  timer_active ← d_bool "timer_active" d; timer_enabled ← d_bool "timer_enabled" d; service_active ← d_bool "service_active" d;
  state ← d_str "service_state" d; last ← d_str "last_result" d; code ← d_int "last_exit_code" d; previous ← d_opt_str "last_trigger" d;
  next ← d_opt_str "next_trigger" d;
  Some (mkStatus service unit timer exists_ timer_exists timer_active timer_enabled service_active state last code previous next).
Definition decode_certificate : decoder Certificate := λ d,
  name ← d_str "name" d; serial ← d_str "serial" d; key ← d_str "key_type" d; domains ← d_strs "domains" d; issuer ← d_str "issuer" d;
  expiry ← d_str "expiry" d; days ← d_int "days_remaining" d; valid ← d_bool "valid" d;
  Some (mkCertificate name serial key domains issuer expiry days valid).
Definition decode_result : decoder ActionResult := λ d,
  id ← d_str "execution_id" d; action ← d_str "action" d; status ← d_str "status" d; code ← d_opt_int "exit_code" d; timed_out ← d_bool "timed_out" d;
  truncated ← d_bool "truncated" d; duration ← d_int "duration_ms" d; stdout ← d_str "stdout" d; stderr ← d_str "stderr" d;
  Some (mkResult id action status code timed_out truncated duration stdout stderr).
Definition CertbotSnapshot `{LocalAPI} (w : World) : res string Snapshot * World :=
  read! info, w := fetch (certbot_call execute w "info" []) decode_info in
  read! status, w := fetch (certbot_call execute w "status" []) decode_status in
  read! certificates, w := fetch (certbot_call execute w "certificates" []) (d_list decode_certificate "certificates") in
  (Ok (mkSnapshot info status certificates), w).
Definition Result `{LocalAPI} (w : World) (id : string) : res string ActionResult * World :=
  fetch (certbot_call execute w "action-result" [id]) decode_result.
End webcertbot.

(** ** [internal/webupdates] *)
Module webupdates.
Record Info := mkInfo { Backend : string; LastRefresh : Value; UpdateCount : Z; SecurityUpdateCount : Z; RebootRequired : bool }.
Record Update := mkUpdate { Name : string; Architecture : string; InstalledVersion : string; CandidateVersion : string; Security : bool }.
Record FirmwareUpdate := mkFirmwareUpdate {
  Device : string; Vendor : string; fw_InstalledVersion : string; fw_CandidateVersion : string; Release : string; Summary_ : string; fw_RebootRequired : bool;
  Issues : list string }.
Record Firmware := mkFirmware {
  fw_Backend : string; fw_Version : option string; fw_Available : bool; DeviceCount : Z; firmware_RebootRequired : bool; fw_Updates : list FirmwareUpdate }.
Record ComposerPackage := mkPackage { pkg_Name : string; CurrentVersion : string; LatestVersion : string; pkg_Status : string; Direct : bool }.
Record ComposerAdvisory := mkAdvisory { Package : string; adv_ID : string; Title : string; AffectedVersions : string; Link : string }.
Record ComposerSite := mkSite {
  Domain : string; ProjectID : string; site_Status : string; site_UpdateCount : Z; CompatibleCount : Z; SecurityIssueCount : Z; SecurityStatus : string;
  SecurityMessage : string; Packages : list ComposerPackage; SecurityAdvisories : list ComposerAdvisory; site_Message : string; Stale : bool }.
Record Composer := mkComposer { Available : bool; Refreshing : bool; RefreshedAt : option string; Sites : list ComposerSite; composer_Message : string }.
Record Snapshot := mkSnapshot { info : Info; Updates : list Update; firmware : Firmware; composer : Composer }.
Record Summary := mkSummary {
  Success : bool; Message : string; Complete : bool; UpdatesAvailable : bool; sum_UpdateCount : Z; APTUpdateCount : Z; FirmwareUpdateCount : Z;
  sum_SecurityUpdateCount : Z; sum_RebootRequired : bool; Status : string; StatusLabel : string; Value_ : string; Subtitle : string; URL : string }.
Record Job := mkJob {
  JobID : string; job_Status : string; job_Backend : string; Lines : list string; ExitCode : option Z; StartedAt : string; FinishedAt : option string }.
Definition decode_info : decoder Info := λ d,
  backend ← d_str "backend" d; count ← d_int "update_count" d; security ← d_int "security_update_count" d; reboot ← d_bool "reboot_required" d;
  Some (mkInfo backend (vget d "last_refresh") count security reboot).
Definition decode_update : decoder Update := λ d,
  name ← d_str "name" d; architecture ← d_str "architecture" d; installed ← d_str "installed_version" d; candidate ← d_str "candidate_version" d;
  security ← d_bool "security" d; Some (mkUpdate name architecture installed candidate security).
Definition decode_firmware_update : decoder FirmwareUpdate := λ d,
  device ← d_str "device" d; vendor ← d_str "vendor" d; installed ← d_str "installed_version" d; candidate ← d_str "candidate_version" d;
  release ← d_str "release" d; summary ← d_str "summary" d; reboot ← d_bool "reboot_required" d; issues ← d_strs "issues" d;
  Some (mkFirmwareUpdate device vendor installed candidate release summary reboot issues).
Definition decode_firmware : decoder Firmware := λ d,
  backend ← d_str "backend" d; version ← d_opt_str "version" d; available ← d_bool "available" d; count ← d_int "device_count" d;
  reboot ← d_bool "reboot_required" d; updates ← d_list decode_firmware_update "updates" d; Some (mkFirmware backend version available count reboot updates).
Definition decode_package : decoder ComposerPackage := λ d,
  name ← d_str "name" d; current ← d_str "current_version" d; latest ← d_str "latest_version" d; status ← d_str "status" d; direct ← d_bool "direct" d;
  Some (mkPackage name current latest status direct).
Definition decode_advisory : decoder ComposerAdvisory := λ d,
  package ← d_str "package" d; id ← d_str "id" d; title ← d_str "title" d; versions ← d_str "affected_versions" d; link ← d_str "link" d;
  Some (mkAdvisory package id title versions link).
Definition decode_site : decoder ComposerSite := λ d,
  domain ← d_str "domain" d; id ← d_str "project_id" d; status ← d_str "status" d; count ← d_int "update_count" d;
  compatible ← d_int "compatible_update_count" d; issues ← d_int "security_issue_count" d; security ← d_str "security_status" d;
  explained ← d_str "security_message" d; packages ← d_list decode_package "packages" d; advisories ← d_list decode_advisory "security_advisories" d;
  message ← d_str "message" d; stale ← d_bool "stale" d;
  Some (mkSite domain id status count compatible issues security explained packages advisories message stale).
Definition decode_composer : decoder Composer := λ d,
  available ← d_bool "available" d; refreshing ← d_bool "refreshing" d; at_ ← d_opt_str "refreshed_at" d; sites ← d_list decode_site "sites" d;
  message ← d_str "message" d; Some (mkComposer available refreshing at_ sites message).
Definition decode_job : decoder Job := λ d,
  id ← d_str "job_id" d; status ← d_str "status" d; backend ← d_str "backend" d; lines ← d_strs "lines" d; code ← d_opt_int "exit_code" d;
  started ← d_str "started_at" d; finished ← d_opt_str "finished_at" d; Some (mkJob id status backend lines code started finished).
(** What the summary says of the numbers, the security of the firmware counted apart. *)
Definition summary_status (security : Z) (updates reboot complete : bool) : string * string :=
  if 0 <? security then ("danger", "Sécurité")
  else if updates || reboot then ("warning", if updates then "Mises à jour disponibles" else "Redémarrage requis")
  else if negb complete then ("neutral", "État partiel") else ("success", "À jour").
Section summary.
Context `{UnicodeCase}.
Definition summary_texts (backend : string) (count apt firmware security : Z) (complete reboot : bool) : string * string :=
  let backend := if String.eqb backend "" then "Paquets" else to_upper backend in
  if 0 <? count then
    (itoa count +++ " mise" +++ (if 1 <? count then "s" else "") +++ " à jour",
     itoa apt +++ " " +++ backend +++ " · " +++ itoa firmware +++ " firmware · " +++ itoa security +++ " sécurité")
  else if negb complete then (backend +++ " à jour", "Supervision des firmwares indisponible.")
  else if reboot then ("Redémarrage requis", "Aucune nouvelle mise à jour disponible.")
  else ("Système à jour", "Aucune mise à jour " +++ backend +++ " ou firmware.").
Definition summary_of (i : Info) (f : Firmware) : Summary :=
  let count := UpdateCount i + DeviceCount f in
  let security := SecurityUpdateCount i + Z.of_nat (List.length (List.filter (λ u, negb (List.length (Issues u) =? 0)%nat) (fw_Updates f))) in
  let (status, label) := summary_status security (0 <? count) (RebootRequired i) (fw_Available f) in
  let (value, subtitle) := summary_texts (Backend i) count (UpdateCount i) (DeviceCount f) security (fw_Available f) (RebootRequired i) in
  mkSummary true "" (fw_Available f) (0 <? count) count (UpdateCount i) (DeviceCount f) security (RebootRequired i) status label value subtitle "/updates".
Definition Summarize `{LocalAPI} (w : World) : res string Summary * World :=
  read! info, w := fetch (updates_call execute w "info" []) decode_info in
  read! firmware, w := fetch (updates_call execute w "firmware" []) decode_firmware in
  (Ok (summary_of info firmware), w).
End summary.
Definition UpdatesSnapshot `{LocalAPI} (w : World) : res string Snapshot * World :=
  read! info, w := fetch (updates_call execute w "info" []) decode_info in
  read! firmware, w := fetch (updates_call execute w "firmware" []) decode_firmware in
  read! composer, w := fetch (updates_call execute w "composer-status" []) decode_composer in
  read! updates, w := fetch (updates_call execute w "list" []) (d_list decode_update "updates") in
  (Ok (mkSnapshot info updates firmware composer), w).
Definition FindJob `{LocalAPI} (w : World) (id : string) : res string Job * World := fetch (updates_call execute w "upgrade-status" [id]) decode_job.
End webupdates.

(** ** [internal/webconfiguration] *)
Definition configuration_call `{LocalAPI} : World → string → list string → res string data * World := call "configuration" "configuration request failed".
