(* ===== verification/Fragments.v ===== *)
(** * What the pages show (dashboard, processes, storage, services, network, logs, PHP)

    The functions of [internal/webapp/webapp.go] that turn what the clients read into HTML,
    in the order of the source.  [shortest] is [strconv.FormatFloat(f, 'f', -1, 64)]. *)

From S2P Require Import Prelude GoStrings StringFacts Codec Floats Html.
From S2P Require Dashboard WebReads.
From Stdlib Require Import Ascii String.
#[local] Open Scope string_scope.
#[local] Open Scope list_scope.
#[local] Open Scope Z_scope.

Import WebReads.
Import Dashboard(Card, mkCard, c_ID, c_Title, c_Value, c_Subtitle, c_Status, c_URL, Information, i_Label, i_Value, Process, p_PID, p_User, p_State, p_StateLabel,
  p_Status, p_CPU, p_MemoryPercent, p_Memory, p_Elapsed, p_Name, p_Description, p_PIDValue, p_MemoryBytes, p_ElapsedSeconds, p_CPUPercentValue, p_MemoryPercentValue).

Section fragments.
Context `{UnicodeCase} `{!Catalogs}.
Context (shortest : spec_float → string).

(** A translation, as text. *)
Definition tr (language key : string) : string := esc (Text language key).
(** A key of a table. *)
Definition lookup_or {A} (default_ : A) (l : list (string * A)) (key : string) : A :=
  match find (λ kv, String.eqb kv.1 key) l with Some (_, v) => v | None => default_ end.
(** The statuses the style sheet knows. *)
Definition badge (known : list string) (status : string) : string := if existsb (String.eqb status) known then status else "neutral".
Definition three : list string := ["success"; "warning"; "danger"].

(** ** The processes *)

Definition processStateLabel (state fallback language : string) : string :=
  match state with
  | EmptyString => Text language "processes.state.unknown"
  | String c _ =>
      match find (λ kv, contains_byte c kv.1)
        [("R", "running"); ("S", "sleeping"); ("D", "disk_wait"); ("Tt", "stopped"); ("Z", "zombie"); ("Xx", "dead"); ("K", "wakekill"); ("I", "idle");
         ("P", "parked"); ("W", "paging")] with
      | Some (_, key) => Text language ("processes.state." +++ key)
      | None => if negb (String.eqb fallback "") && negb (String.eqb language "en") then fallback else Text language "processes.state.unknown"
      end
  end.
Definition process_name (process : Process) : string :=
  let description := p_Description process in
  let name := esc (p_Name process) in
  if String.eqb description "" then name
  else
    h "<span class='process-name process-name--described' tabindex='0' title='" +++ esc description +++ h "' aria-label='" +++
    esc (p_Name process +++ " : " +++ description) +++ h "'>" +++ name +++ h "<span class='process-name__help' aria-hidden='true'>?</span></span>".
Definition process_row (language : string) (process : Process) : string :=
  let status := badge three (p_Status process) in
  let stateLabel := processStateLabel (p_State process) (p_StateLabel process) language in
  h "<tr><td data-sort-value='" +++ itoa (p_PIDValue process) +++ h "'>" +++ esc (p_PID process) +++
  h "</td><th data-sort-value='" +++ esc (to_lower (p_Name process)) +++ h "'>" +++ process_name process +++
  h "</th><td data-sort-value='" +++ esc (to_lower (p_User process)) +++ h "'>" +++ esc (p_User process) +++
  h "</td><td data-sort-value='" +++ esc (to_lower (stateLabel +++ " " +++ p_State process)) +++ h "'><span class='status-badge status-badge--" +++ status +++ h "'>" +++
  esc (stateLabel +++ " · " +++ p_State process) +++ h "</span></td><td data-sort-value='" +++ shortest (p_CPUPercentValue process) +++ h "'>" +++ esc (p_CPU process) +++
  h "</td><td data-sort-value='" +++ shortest (p_MemoryPercentValue process) +++ h "'>" +++ esc (p_MemoryPercent process) +++
  h "</td><td data-sort-value='" +++ itoa (p_MemoryBytes process) +++ h "'>" +++ esc (p_Memory process) +++
  h "</td><td data-sort-value='" +++ itoa (p_ElapsedSeconds process) +++ h "'>" +++ esc (p_Elapsed process) +++ "</td></tr>".
(** Rows, or the row that says there are none. *)
Definition rows {A} (empty : string) (row : A → string) (l : list A) : string := match l with [] => empty | _ => glue (row <$> l) end.
Definition empty_row (columns : Z) (text : string) : string := h "<tr><td colspan='" +++ itoa columns +++ h "' class='muted'>" +++ text +++ "</td></tr>".
Definition renderProcesses (processes : list Process) (language : string) : string :=
  rows (empty_row 8 (tr language "processes.empty")) (process_row language) processes.

(** ** The dashboard *)

Definition uptime_label : string := "Durée de fonctionnement".
Definition information_labels : list (string * string) :=
  [("Nom d’hôte", "dashboard.host"); ("Système d’exploitation", "dashboard.os"); ("Distribution", "dashboard.distribution"); ("Version", "dashboard.version");
   ("Noyau", "dashboard.kernel"); ("Architecture", "dashboard.architecture"); (uptime_label, "dashboard.uptime")].
Definition formatDashboardUptime (seconds : Z) (language : string) : string :=
  let seconds := Z.max seconds 0 in
  let days := seconds / 86400 in
  let rest := itoa (seconds mod 86400 / 3600) +++ " h " +++ itoa (seconds mod 3600 / 60) +++ " min" in
  if 0 <? days then itoa days +++ (if String.eqb language "en" then " d " else " j ") +++ rest else rest.
Definition information_item (uptimeSeconds : Z) (language : string) (item : Information) : string :=
  let is_uptime := String.eqb (i_Label item) uptime_label in
  let attributes := if is_uptime then h " data-dashboard-uptime data-dashboard-uptime-seconds='" +++ itoa uptimeSeconds +++ h "'" else "" in
  let label := match find (λ kv, String.eqb kv.1 (i_Label item)) information_labels with Some (_, key) => Text language key | None => i_Label item end in
  let value := if is_uptime then formatDashboardUptime uptimeSeconds language else i_Value item in
  "<div><dt>" +++ esc label +++ "</dt><dd" +++ attributes +++ ">" +++ esc value +++ "</dd></div>".
Definition renderSystemInformation (information : list Information) (uptimeSeconds : Z) (language : string) : string :=
  match information with
  | [] => h "<p class='muted'>" +++ tr language "dashboard.unavailable" +++ "</p>"
  | _ =>
      h "<dl class='detail-grid dashboard-information'>" +++ glue (information_item uptimeSeconds language <$> information) +++
      h "<div class='dashboard-information__updates' data-dashboard-updates data-dashboard-updates-url='/updates/summary' aria-live='polite' aria-busy='true'><dt>" +++
      tr language "dashboard.updates" +++ "</dt><dd><span data-dashboard-updates-value>" +++ tr language "dashboard.checking" +++
      h "</span><a href='/updates' data-dashboard-updates-link hidden>" +++ tr language "dashboard.view_updates" +++ "</a></dd></div>" +++ "</dl>"
  end.
Definition filterDashboardCards (cards : list Card) (supervision : bool) : list Card :=
  List.filter (λ card, Bool.eqb (existsb (String.eqb (c_Title card)) ["Stockage"; "Services"; "Réseau"]) supervision) cards.
Definition value_texts : list (string * string) :=
  [("Indisponible", "Unavailable"); (" actifs", " active"); (" actives", " up"); (" volume(s)", " volumes"); (",", ".")].
Definition subtitle_texts : list (string * string) :=
  [("Lecture impossible", "Unable to read"); ("Processus actuellement détectés", "Processes currently detected"); ("Aucun capteur CPU disponible", "No CPU sensor available");
   ("Capteur :", "Sensor:"); (" disponibles", " available"); (" utilisés sur ", " used out of "); ("Occupation maximale :", "Maximum usage:");
   (" service(s) surveillé(s)", " monitored services"); (" interface(s) arrêtée(s)", " interfaces down"); ("cœur(s)", "cores"); ("Charge :", "Load:"); (" à ", " at ");
   (" o", " B"); (" Kio", " KiB"); (" Mio", " MiB"); (" Gio", " GiB"); (" Tio", " TiB"); (",", ".")].
Definition card_titles : list (string * string) :=
  (λ id, (id, "dashboard." +++ id)) <$> ["cpu"; "memory"; "temperature"; "processes"; "storage"; "services"; "network"].
Definition localize_card (language : string) (card : Card) : Card :=
  mkCard (c_ID card)
    (match find (λ kv, String.eqb kv.1 (c_ID card)) card_titles with Some (_, key) => Text language key | None => c_Title card end)
    (Replace value_texts (c_Value card)) (Replace subtitle_texts (c_Subtitle card)) (c_Status card) (c_URL card).
Definition localizeDashboardCards (cards : list Card) (language : string) : list Card :=
  if negb (String.eqb language "en") then cards else localize_card language <$> cards.
Definition overview_card (card : Card) : string :=
  let status := badge three (c_Status card) in
  let '(tag, end_) := if String.eqb (c_URL card) "" then ("article", "article") else (h "a href='" +++ esc (c_URL card) +++ h "'", "a") in
  "<" +++ tag +++ h " class='overview-card overview-card--" +++ status +++ h "' data-dashboard-card='" +++ esc (c_ID card) +++ h "'><h3>" +++ esc (c_Title card) +++
  h "</h3><p class='overview-card__value'>" +++ esc (c_Value card) +++ h "</p><p class='muted'>" +++ esc (c_Subtitle card) +++ "</p></" +++ end_ +++ ">".
Definition renderOverview (cards : list Card) : string := glue (overview_card <$> cards).

(** ** The storage *)

Definition summary_item (label value : string) : string := h "<article class='summary-item'><span>" +++ label +++ "</span><strong>" +++ value +++ "</strong></article>".
Definition renderStorageSummary (s : webstorage.Summary) (language : string) : string :=
  glue ((λ kv, summary_item (Text language kv.1) (itoa kv.2)) <$>
    [("storage.volumes", webstorage.Total s); ("storage.normal", webstorage.Normal s); ("storage.warning", webstorage.Warning s); ("storage.critical", webstorage.Danger s)]).
Definition sorted_cell (value sort : string) : string := h "<td data-sort-value='" +++ esc sort +++ h "'>" +++ esc value +++ "</td>".
Definition mount_row (language : string) (m : webstorage.Mount) : string :=
  let status := badge three (webstorage.Status m) in
  let device := if String.eqb (webstorage.PhysicalDevice m) "" then Text language "storage.undetermined" else webstorage.PhysicalDevice m in
  let label :=
    if String.eqb language "en" then lookup_or "Unknown" [("success", "Healthy"); ("warning", "Warning"); ("danger", "Critical")] status
    else webstorage.StatusLabel m in
  "<tr>" +++
  glue ((λ cell, sorted_cell cell.1 cell.2) <$>
    [(device, to_lower device); (webstorage.MountPoint m, to_lower (webstorage.MountPoint m)); (webstorage.Filesystem m, to_lower (webstorage.Filesystem m));
     (webstorage.SizeLabel m, itoa (webstorage.Size m)); (webstorage.UsedLabel m, itoa (webstorage.Used m)); (webstorage.AvailableLabel m, itoa (webstorage.Available m))]) +++
  h "<td data-sort-value='" +++ itoa (webstorage.Percent m) +++ h "'>" +++ itoa (webstorage.Percent m) +++ h " %</td><td data-sort-value='" +++ esc (to_lower label) +++
  h "'><span class='status-badge status-badge--" +++ status +++ h "'>" +++ esc label +++ h "</span></td><td data-sort-value='" +++ esc (to_lower (webstorage.Source m)) +++ h "'>" +++
  esc (webstorage.Source m) +++ "</td></tr>".
Definition renderStorageMounts (mounts : list webstorage.Mount) (language : string) : string :=
  rows (empty_row 9 (tr language "storage.empty")) (mount_row language) mounts.

(** ** The services *)

Definition yesNoForLanguage (value : bool) (language : string) : string := if value then Text language "common.yes" else Text language "common.no".
Definition yesNo (value : bool) : string := if value then "Oui" else "Non".
Definition renderServicesSummary (s : webservices.Summary) (language : string) : string :=
  glue ((λ kv, summary_item (Text language kv.1) (itoa kv.2)) <$>
    [("services.allowed", webservices.Total s); ("services.installed", webservices.Installed s); ("services.active", webservices.active s);
     ("services.inactive", webservices.Inactive s); ("services.missing", webservices.Missing s)]).
(** The label of a unit of [services] or of [php]. *)
Definition unit_status (module : string) (exists_ active : bool) (state language : string) : string :=
  if negb exists_ then Text language (module +++ ".status.missing") else if active then Text language (module +++ ".status.active")
  else if String.eqb state "failed" then Text language (module +++ ".status.failed") else Text language (module +++ ".status.stopped").
Definition serviceStatusLabel (s : webservices.Service) (language : string) : string :=
  unit_status "services" (webservices.Exists s) (webservices.Active s) (webservices.State s) language.
Definition restart_form (action token name id label : string) : string :=
  h "<form class='inline-form' method='post' action='" +++ action +++ h "'><input type='hidden' name='_token' value='" +++ token +++
  h "'><input type='hidden' name='" +++ name +++ h "' value='" +++ esc id +++ h "'><button class='danger-button' type='submit'>" +++ label +++ "</button></form>".
Definition service_row (csrf : string) (canAct : bool) (language : string) (s : webservices.Service) : string :=
  let status := badge three (webservices.Status s) in
  "<tr>" +++
  (if canAct then
     "<td>" +++ (if webservices.Exists s then restart_form "/services/restart" (esc csrf) "service" (webservices.ID s) (tr language "services.restart") else "") +++ "</td>"
   else "") +++
  h "<th scope='row'>" +++ esc (webservices.ID s) +++ h "</th><td><span class='status-badge status-badge--" +++ status +++ h "'>" +++
  esc (serviceStatusLabel s language) +++ "</span></td><td>" +++ yesNoForLanguage (webservices.Exists s) language +++ "</td><td>" +++
  yesNoForLanguage (webservices.Enabled s) language +++ "</td><td>" +++ esc (webservices.State s) +++ "</td>" +++ "</tr>".
Definition renderServices (services : list webservices.Service) (csrf : string) (canAct : bool) (language : string) : string :=
  rows (empty_row (if canAct then 6 else 5) (tr language "services.empty")) (service_row csrf canAct language) services.

(** ** The network *)

Definition renderNetworkSummary (s : webnetwork.Summary) (language : string) : string :=
  glue ((λ kv, summary_item (Text language kv.1) (itoa kv.2)) <$>
    [("network.detected", webnetwork.Total s); ("network.active", webnetwork.Up s); ("network.down", webnetwork.Down s); ("network.unknown", webnetwork.Unknown s)]).
Definition networkStatusLabel (state language : string) : string :=
  if String.eqb state "up" then Text language "network.status.active"
  else if String.eqb state "down" then Text language "network.status.down" else Text language "network.status.unknown".
Definition networkTypeLabel (kind fallback language : string) : string :=
  match find (String.eqb kind) ["loopback"; "bridge"; "bond"; "tun"; "tap"] with
  | Some key => Text language ("network.type." +++ key)
  | None => if existsb (String.eqb kind) ["ethernet"; "vlan"; "wireguard"] then fallback else Text language "network.type.unknown"
  end.
Definition interface_row (selectedID language : string) (i : webnetwork.Interface) : string :=
  let status := badge ["success"; "warning"] (webnetwork.Status i) in
  "<tr><td>" +++
  (if String.eqb (webnetwork.ID i) selectedID then
     h "<span class='network-selected-button' aria-current='true'>" +++ tr language "network.selected" +++ "</span>"
   else
     h "<a class='secondary-link' href='/network?interface=" +++ QueryEscape (webnetwork.ID i) +++ h "'>" +++ tr language "network.show" +++ "</a>") +++
  h "</td><th scope='row'>" +++ esc (webnetwork.Name i) +++ "</th><td>" +++ esc (networkTypeLabel (webnetwork.Type_ i) (webnetwork.TypeLabel i) language) +++
  h "</td><td><span class='status-badge status-badge--" +++ status +++ h "'>" +++ esc (networkStatusLabel (webnetwork.State i) language) +++ "</span></td></tr>".
Definition renderNetworkInterfaces (interfaces : list webnetwork.Interface) (selected : option webnetwork.Interface) (language : string) : string :=
  let selectedID := match selected with Some i => webnetwork.ID i | None => "" end in
  rows (empty_row 4 (tr language "network.empty")) (interface_row selectedID language) interfaces.
Definition renderAddresses (addresses : list webnetwork.Address) (language : string) : string :=
  match addresses with
  | [] => Text language "network.none"
  | _ => join "<br>" ((λ a, esc (webnetwork.address a) +++ "/" +++ itoa (webnetwork.Prefix a)) <$> addresses)
  end.
Definition renderNetworkDetails (item : option webnetwork.Interface) (language : string) : string :=
  match item with
  | None => ""
  | Some i =>
      let mac := match webnetwork.MAC i with Some s => s | None => Text language "network.unavailable" end in
      let mtu := match webnetwork.MTU i with Some n => itoa n | None => Text language "network.unavailable" end in
      h "<section class='detail-panel'><h2>" +++ tr language "network.details" +++ " " +++ esc (webnetwork.Name i) +++ h "</h2><dl class='detail-grid'><div><dt>" +++
      tr language "network.type" +++ "</dt><dd>" +++ esc (networkTypeLabel (webnetwork.Type_ i) (webnetwork.TypeLabel i) language) +++ "</dd></div><div><dt>" +++
      tr language "network.mac" +++ "</dt><dd>" +++ esc mac +++ "</dd></div><div><dt>MTU</dt><dd>" +++ esc mtu +++ "</dd></div><div><dt>IPv4</dt><dd>" +++
      renderAddresses (webnetwork.IPv4 i) language +++ "</dd></div><div><dt>IPv6</dt><dd>" +++ renderAddresses (webnetwork.IPv6 i) language +++ "</dd></div></dl></section>"
  end.

(** ** The logs *)

(** An option of a list, chosen or not. *)
Definition option_ (value label : string) (selected : bool) : string :=
  h "<option value='" +++ value +++ h "'" +++ (if selected then " selected" else "") +++ ">" +++ label +++ "</option>".
Definition renderLogLevels (selectedLevel language : string) : string :=
  glue ((λ o, option_ o.1 (Text language o.2) (String.eqb o.1 selectedLevel)) <$>
    [("", "logs.level.all"); ("error", "logs.level.error"); ("warning", "logs.level.warning"); ("info", "logs.level.info")]).
Definition logLineLevel (lowerLine : string) : string :=
  let has := existsb (contains lowerLine) in
  if has ["emerg"; "alert"; "critical"; "crit"; "fatal"; "error"; "erreur"; "failed"; "failure"; "échec"] then "error"
  else if has ["warning"; "warn"; "avertissement"] then "warning" else if has ["info"; "notice"] then "info" else "".
Definition filterLogLines (lines : list string) (level keyword : string) : list string :=
  let keyword := to_lower keyword in
  List.filter (λ line,
    let lower := to_lower line in
    (String.eqb keyword "" || contains lower keyword) && (String.eqb level "" || String.eqb (logLineLevel lower) level)) lines.
Definition renderLogSources (sources : list string) (selected language : string) : string :=
  rows (option_ "" (tr language "logs.source.empty") false) (λ source, option_ (esc source) (esc source) (String.eqb source selected)) sources.
Definition logTitle (selected language : string) : string := if String.eqb selected "" then Text language "logs.selected.empty" else selected.

(** ** PHP *)

Definition phpStatusLabel (i : webphp.Instance_) (language : string) : string :=
  unit_status "php" (webphp.Exists i) (webphp.Active i) (webphp.State i) language.
Definition php_row (csrf : string) (canAct : bool) (language : string) (i : webphp.Instance_) : string :=
  let status := badge three (webphp.Status i) in
  "<tr><th>" +++ esc (webphp.Version i) +++ "</th><td>" +++ esc (webphp.Service i) +++ h "</td><td><span class='status-badge status-badge--" +++ status +++ h "'>" +++
  esc (phpStatusLabel i language) +++ "</span></td><td>" +++ yesNoForLanguage (webphp.Enabled i) language +++ "</td><td>" +++ esc (webphp.State i) +++ "</td>" +++
  (if canAct then
     "<td>" +++ (if webphp.Exists i then restart_form "/php/restart" (esc csrf) "runtime" (webphp.ID i) (tr language "php.restart") else "") +++ "</td>"
   else "") +++ "</tr>".
Definition renderPHPInstances (instances : list webphp.Instance_) (csrf : string) (canAct : bool) (language : string) : string :=
  rows (empty_row (if canAct then 6 else 5) (tr language "php.empty")) (php_row csrf canAct language) instances.
Definition localizeUnavailable (value language : string) : string :=
  if String.eqb (trim_space value) "" || String.eqb value "Non disponible" then Text language "network.unavailable" else value.
End fragments.
