(* ===== verification/Fragments2.v ===== *)
(** * What the pages show (MySQL, Tor, Apache, Fail2ban, firewall, Cron)

    The functions of [internal/webapp/webapp.go] that turn what the clients read into HTML,
    in the order of the source. *)

From S2P Require Import Prelude GoStrings StringFacts Regex Codec Floats Html.
From S2P Require Dashboard WebActions WebReads JsonParse.
Import JsonParse(same_key).
From S2P Require Import Fragments.
From Stdlib Require Import Ascii String.
#[local] Open Scope string_scope.
#[local] Open Scope list_scope.
#[local] Open Scope Z_scope.

Import WebReads.

Section fragments.
Context `{UnicodeCase} `{!Catalogs} `{Floats}.

(** ** Numbers *)

(** The loop that puts a separator every three digits: [index] is where the next one goes. *)
Fixpoint group_digits (fuel : nat) (sep : string) (start index : Z) (digits : string) : string :=
  match fuel with
  | O => digits
  | S fuel =>
      if start <? index then group_digits fuel sep start (index - 3) (stake (Z.to_nat index) digits +++ sep +++ sdrop (Z.to_nat index) digits) else digits
  end.
Definition grouped (sep : string) (value : Z) : string :=
  let digits := itoa value in group_digits (String.length digits) sep (if has_prefix digits "-" then 1 else 0) (slen digits - 3) digits.
(** A narrow space that does not break. *)
Definition narrow_space : string := String "226" (String "128" (String "175" "")).
Definition formatFrenchInteger (value : Z) : string := grouped narrow_space value.
Definition formatIntegerForLanguage (value : Z) (language : string) : string :=
  if negb (String.eqb language "en") then formatFrenchInteger value else grouped "," value.
Example grouped_digits : grouped "," (-1234567) = "-1,234,567" ∧ grouped "," 123 = "123". Proof. vm_compute. done. Qed.
Definition formatByteCount (value : Z) : string :=
  let (amount, unit) := Dashboard.scaled ["Kio"; "Mio"; "Gio"; "Tio"] "o" (float64 value) in Dashboard.with_comma (FormatFixed 1 amount) +++ " " +++ unit.
Definition formatByteCountForLanguage (value : Z) (language : string) : string :=
  if negb (String.eqb language "en") then formatByteCount value
  else let (amount, unit) := Dashboard.scaled ["KiB"; "MiB"; "GiB"; "TiB"] "B" (float64 value) in FormatFixed 1 amount +++ " " +++ unit.

(** ** MySQL *)

(** A line of a list of details; a number of a summary. *)
Definition pair_item (r : string * string) : string := "<div><dt>" +++ r.1 +++ "</dt><dd>" +++ esc r.2 +++ "</dd></div>".
Definition renderPairs (rows : list (string * string)) : string := glue (pair_item <$> rows).
Definition metric_item (r : string * string) : string := summary_item r.1 (esc r.2).
Definition renderMetricPairs (rows : list (string * string)) : string := glue (metric_item <$> rows).
Definition renderMySQLServer (s : webmysql.Server) (language : string) : string :=
  let available value := if String.eqb (trim_space value) "" then Text language "mysql.unavailable" else value in
  let unit := match webmysql.Unit_ (webmysql.service s) with Some u => u | None => Text language "mysql.not_detected" end in
  let version := available (trim_space (webmysql.Product s +++ " " +++ webmysql.Version s)) in
  let port := if 0 <? webmysql.Port s then itoa (webmysql.Port s) else Text language "mysql.unavailable" in
  renderPairs
    [(Text language "mysql.version", version); (Text language "mysql.hostname", available (webmysql.Hostname s)); (Text language "mysql.port", port);
     (Text language "mysql.socket", available (webmysql.Socket s)); (Text language "mysql.data_directory", available (webmysql.DataDirectory s));
     (Text language "mysql.default_engine", available (webmysql.DefaultStorageEngine s)); (Text language "mysql.service", unit);
     (Text language "mysql.autostart", yesNoForLanguage (webmysql.Enabled (webmysql.service s)) language);
     (Text language "mysql.service_state", available (webmysql.State (webmysql.service s)))].
(** The last value of a key is the one decoded. *)
Definition metric_value (m : list (string * Z)) (key : string) : option Z := snd <$> find (λ kv, String.eqb kv.1 key) (rev m).
Definition mysql_metric (m : list (string * Z)) (language : string) (key label : string) : string :=
  let value :=
    match metric_value m key with
    | None => Text language "mysql.unavailable"
    | Some n => if String.eqb key "queries" then formatIntegerForLanguage n language else itoa n
    end in
  h "<article class='summary-item' data-mysql-metric='" +++ key +++ h "'><span>" +++ Text language label +++ "</span><strong>" +++ value +++ "</strong></article>".
Definition renderMySQLMetrics (m : list (string * Z)) (language : string) : string :=
  glue ((λ kv, mysql_metric m language kv.1 kv.2) <$>
    [("threads_connected", "mysql.connections"); ("threads_running", "mysql.threads"); ("queries", "mysql.queries"); ("slow_queries", "mysql.slow_queries")]).
Definition database_row (language : string) (i : webmysql.Database) : string :=
  let kind :=
    if String.eqb (webmysql.Kind i) "user" then Text language "mysql.kind.user"
    else if String.eqb (webmysql.Kind i) "system" then Text language "mysql.kind.system" else webmysql.Kind i in
  h "<tr><th data-sort-value='" +++ esc (to_lower (webmysql.Name i)) +++ h "'>" +++ esc (webmysql.Name i) +++ h "</th><td data-sort-value='" +++
  esc (to_lower (webmysql.Kind i)) +++ h "'>" +++ esc kind +++ h "</td><td data-sort-value='" +++ itoa (webmysql.Tables i) +++ h "'>" +++
  formatIntegerForLanguage (webmysql.Tables i) language +++ h "</td><td data-sort-value='" +++ itoa (webmysql.Size i) +++ h "'>" +++
  formatByteCountForLanguage (webmysql.Size i) language +++ "</td></tr>".
Definition renderMySQLDatabases (items : list webmysql.Database) (language : string) : string :=
  rows (empty_row 4 (tr language "mysql.empty")) (database_row language) items.
Definition localizeMySQLWarning (warning language : string) : string :=
  if String.eqb warning webmysql.refused_warning then Text language "mysql.warning.login"
  else if String.eqb warning webmysql.metrics_warning then Text language "mysql.warning.metrics"
  else if String.eqb warning webmysql.databases_warning then Text language "mysql.warning.databases" else warning.

(** ** Tor *)

Definition onion_row (language : string) (i : webtor.Onion) : string :=
  let host := match webtor.Hostname i with Some s => s | None => Text language "tor.address_unavailable" end in
  "<tr><th>" +++ esc (webtor.ID i) +++ "</th><td>" +++ esc host +++ "</td><td>" +++ itoa (Z.of_nat (List.length (webtor.Ports i))) +++ "</td></tr>".
Definition renderOnions (items : list webtor.Onion) (language : string) : string := rows (empty_row 3 (tr language "tor.empty")) (onion_row language) items.

(** ** Apache *)

Definition enabledSites (items : list webapache.Site) : Z := Z.of_nat (List.length (List.filter webapache.Enabled items)).
Definition site_options (token language : string) (site : webapache.Site) : string :=
  h "<select class='compact-select' aria-label='" +++ tr language "apache.action_for" +++ " " +++ esc (webapache.Filename site) +++
  h "' data-apache-site-action data-config-id='" +++ esc (webapache.ConfigID site) +++ h "' data-filename='" +++ esc (webapache.Filename site) +++ h "' data-domains='" +++
  esc (join " " (webapache.ServerNames site)) +++ h "' data-csrf='" +++ esc token +++ h "'><option value=''>" +++ tr language "apache.action_menu" +++
  h "</option><option value='edit'>" +++ tr language "apache.edit" +++ "</option>" +++
  (if webapache.Enabled site then option_ "disable" (tr language "apache.disable") false else option_ "enable" (tr language "apache.enable") false) +++
  (if (0 <? List.length (webapache.ServerNames site))%nat then option_ "certificate" (tr language "apache.certificate") false else "") +++
  option_ "delete" (tr language "apache.delete") false +++ "</select>".
Definition site_row (token : string) (canModify : bool) (language : string) (site : webapache.Site) : string :=
  let '(state, stateClass) :=
    if webapache.Enabled site then (Text language "apache.enabled", "success") else (Text language "apache.disabled", "muted") in
  let actions := if canModify then site_options token language site else h "<span class='muted'>" +++ tr language "apache.read_only" +++ "</span>" in
  let ports := itoa <$> webapache.Ports site in
  "<tr><td>" +++ actions +++ "</td><th>" +++ esc (webapache.Filename site) +++ h "</th><td><span class='status-badge status-badge--" +++ stateClass +++ h "'>" +++ state +++
  "</span></td><td>" +++ esc (join ", " (webapache.ServerNames site)) +++ "</td><td>" +++ esc (join ", " ports) +++ "</td><td>" +++
  formatIntegerForLanguage (webapache.Size site) language +++ " " +++ tr language "apache.bytes" +++ "</td></tr>".
Definition renderApacheSites (items : list webapache.Site) (token : string) (canModify : bool) (language : string) : string :=
  rows (empty_row 6 (tr language "apache.empty_sites")) (site_row token canModify language) items.
Definition create_dialog (token language : string) : string :=
  h "<dialog class='action-dialog action-dialog--wide' data-apache-create-dialog><form method='post' action='/apache/create'><input type='hidden' name='_token' value='" +++
  esc token +++ h "'><h2>" +++ tr language "apache.add_site_title" +++ "</h2><label>" +++ tr language "apache.site_type" +++
  h "<select name='site_type' data-apache-site-type><option value='website'>" +++ tr language "apache.website" +++ h "</option><option value='proxy'>" +++
  tr language "apache.reverse_proxy" +++ "</option></select></label><label>" +++ tr language "apache.domain_name" +++
  h "<input name='server_name' required placeholder='example.org'></label><label>" +++ tr language "apache.domain_aliases" +++
  h "<input name='aliases' placeholder='www.example.org'></label><fieldset data-apache-website-fields><label>DocumentRoot<input name='document_root' value='/var/www/' required></label><label>AllowOverride<select name='allow_override'><option value='None'>None</option><option value='All'>All</option></select></label><label class='check-row'><input type='checkbox' name='follow_sym_links' value='1' checked> " +++
  tr language "apache.follow_symlinks" +++ "</label></fieldset><fieldset data-apache-proxy-fields hidden><label>" +++ tr language "apache.target_url" +++
  h "<input type='url' name='target_url' placeholder='http://127.0.0.1:3000'></label></fieldset><div class='dialog-actions'><button class='secondary-button' type='button' data-apache-create-close>" +++
  tr language "apache.cancel" +++ h "</button><button class='primary-button' type='submit'>" +++ tr language "apache.create_validate" +++ "</button></div></form></dialog>".
Definition edit_dialog (token language : string) : string :=
  h "<dialog class='action-dialog action-dialog--wide' data-apache-edit-dialog><form method='post' action='/apache/update'><input type='hidden' name='_token' value='" +++
  esc token +++ h "'><input type='hidden' name='config_id'><h2>" +++ tr language "apache.edit_vhost" +++ h "</h2><p class='muted' data-apache-edit-filename></p><label>" +++
  tr language "apache.configuration" +++
  h "<textarea name='content' rows='20' required spellcheck='false'></textarea></label><div class='dialog-actions'><button class='secondary-button' type='button' data-apache-edit-close>" +++
  tr language "apache.cancel" +++ h "</button><button class='primary-button' type='submit'>" +++ tr language "apache.save_validate" +++ "</button></div></form></dialog>".
Definition certificate_dialog (token language : string) : string :=
  h "<dialog class='action-dialog' data-apache-certificate-dialog><form method='post' action='/apache/issue-certificate'><input type='hidden' name='_token' value='" +++
  esc token +++ h "'><h2>" +++ tr language "apache.certificate" +++ "</h2><label>" +++ tr language "apache.domains" +++
  h "<input name='domains' required></label><label>" +++ tr language "apache.email" +++
  h "<input type='email' name='email' required></label><label class='check-row'><input type='checkbox' name='redirect' value='1' checked> " +++
  tr language "apache.redirect_https" +++ h "</label><div class='dialog-actions'><button class='secondary-button' type='button' data-apache-certificate-close>" +++
  tr language "apache.cancel" +++ h "</button><button class='primary-button' type='submit'>" +++ tr language "apache.run_certbot" +++ "</button></div></form></dialog>".
Definition renderApacheCreate (token : string) (canModify : bool) (language : string) : string :=
  if negb canModify then ""
  else
    h "<button class='primary-button' type='button' data-apache-create-open>" +++ tr language "apache.add_site" +++ "</button>" +++ snl +++
    create_dialog token language +++ snl +++ edit_dialog token language +++ snl +++ certificate_dialog token language.
Definition vhost_row (language : string) (i : webapache.VHost) : string :=
  let root := match webapache.DocumentRoot i with Some s => s | None => Text language "apache.root_undefined" end in
  "<tr><th>" +++ esc (webapache.ServerName i) +++ "</th><td>" +++ itoa (webapache.Port i) +++ "</td><td>" +++ esc (webapache.ConfigFile i) +++ "</td><td>" +++ esc root +++
  "</td></tr>".
Definition renderVHosts (items : list webapache.VHost) (language : string) : string := rows (empty_row 4 (tr language "apache.empty_vhosts")) (vhost_row language) items.

(** ** Fail2ban *)

Definition renderJailSelector (jails : list string) (selected language : string) : string :=
  match jails with
  | [] => h "<p class='muted'>" +++ tr language "fail2ban.no_jail" +++ "</p>"
  | _ =>
      h "<form class='selector-form' method='get' action='/fail2ban'><label>" +++ tr language "fail2ban.jail" +++ h "</label><select name='jail'>" +++
      glue ((λ j, option_ (esc j) (esc j) (String.eqb j selected)) <$> jails) +++
      h "</select><button class='primary-button'>" +++ tr language "common.show" +++ "</button></form>"
  end.
Definition banned_row (s : webfail2ban.Snapshot) (token : string) (modify : bool) (language ip : string) : string :=
  if modify then
    h "<form class='fail2ban-banned-row' method='post' action='/fail2ban/unban'><input type='hidden' name='_token' value='" +++ token +++
    h "'><input type='hidden' name='jail' value='" +++ esc (webfail2ban.Selected s) +++ h "'><input type='hidden' name='address' value='" +++ esc ip +++
    h "'><button class='danger-button'>" +++ tr language "fail2ban.unban" +++ "</button><code>" +++ esc ip +++ "</code></form>"
  else h "<div class='fail2ban-banned-row'><code>" +++ esc ip +++ "</code></div>".
Definition ban_form (s : webfail2ban.Snapshot) (token language : string) : string :=
  "<h3>" +++ tr language "fail2ban.ban_address" +++ h "</h3><form class='selector-form' method='post' action='/fail2ban/ban'><input type='hidden' name='_token' value='" +++
  token +++ h "'><input type='hidden' name='jail' value='" +++ esc (webfail2ban.Selected s) +++ h "'><label>" +++ tr language "fail2ban.ip_address" +++
  h "</label><input name='address' required><button class='danger-button'>" +++ tr language "fail2ban.ban" +++ "</button></form>".
Definition renderJail (s : webfail2ban.Snapshot) (token : string) (modify : bool) (language : string) : string * string :=
  match webfail2ban.jail s with
  | None => ("", "")
  | Some j =>
      (renderMetricPairs
         [(Text language "fail2ban.current_failed", formatIntegerForLanguage (webfail2ban.CurrentlyFailed j) language);
          (Text language "fail2ban.total_failed", formatIntegerForLanguage (webfail2ban.TotalFailed j) language);
          (Text language "fail2ban.current_banned", formatIntegerForLanguage (webfail2ban.CurrentlyBanned j) language);
          (Text language "fail2ban.total_banned", formatIntegerForLanguage (webfail2ban.TotalBanned j) language)],
       "<h3>" +++ tr language "fail2ban.banned_addresses" +++ "</h3>" +++
       match webfail2ban.BannedIPs j with [] => h "<p class='muted'>" +++ tr language "fail2ban.no_banned_ip" +++ "</p>" | _ => "" end +++
       glue (banned_row s token modify language <$> webfail2ban.BannedIPs j) +++ (if modify then ban_form s token language else ""))
  end.

(** ** The firewall *)

Definition optionalBoolForLanguage (v : option bool) (language : string) : string :=
  match v with None => Text language "common.unknown" | Some b => yesNoForLanguage b language end.
(** [/etc/services]: the names of the ports, the first of a port kept. *)
Definition service_line (raw : string) : option (string * string) :=
  match fields (trim_space (before "#" raw)) with
  | name :: port_protocol :: _ =>
      let '(port, protocol, ok) := cut "/" (to_lower port_protocol) in
      if negb ok || negb (existsb (String.eqb protocol) ["tcp"; "udp"]) then None
      else match atoi port with
           | Some number => if (number <? 1) || (65535 <? number) then None else Some (port +++ "/" +++ protocol, to_lower name)
           | None => None
           end
  | _ => None
  end.
Definition parseFirewallServices (content : string) : gmap string string :=
  fold_left (λ services raw, match service_line raw with
                             | Some (key, name) => match services !! key with Some _ => services | None => <[key := name]> services end
                             | None => services
                             end) (split nl content) ∅.
Definition readFirewallServices (file : option string) : gmap string string := match file with Some content => parseFirewallServices content | None => ∅ end.
Definition firewallPortService (port protocol : string) (services : gmap string string) : string :=
  match atoi port with
  | None => ""
  | Some _ =>
      let protocol := to_lower protocol in
      let named p := default "" (services !! (port +++ "/" +++ p)) in
      if existsb (String.eqb protocol) ["tcp"; "udp"] then named protocol
      else
        let add labels p := if negb (String.eqb (named p) "") && negb (existsb (String.eqb (named p)) labels) then labels ++ [named p] else labels in
        join "/" (fold_left add ["tcp"; "udp"] [])
  end.
Definition formatFirewallPorts (ports : list string) (protocol : string) (services : gmap string string) : string :=
  let one raw :=
    let port := trim_space raw in
    let label := firewallPortService port protocol services in
    if negb (String.eqb label "") then port +++ " (" +++ label +++ ")" else port in
  join ", " (mjoin ((λ expression, one <$> split "," expression) <$> ports)).
Definition formatFirewallRuleTarget (rule : webfirewall.Rule) (services : gmap string string) : string :=
  let ports := formatFirewallPorts (webfirewall.Ports rule) (webfirewall.Protocol rule) services in
  if negb (String.eqb ports "") then ports
  else
    let destination := trim_space (webfirewall.Destination rule) in
    if negb (String.eqb destination "") && negb (same_key destination "any") then destination else "—".
(** The text before the first of [:], [,] and [-]. *)
Fixpoint until_separator (s : string) : string :=
  match s with EmptyString => "" | String c s => if contains_byte c ":,-" then "" else String c (until_separator s) end.
Definition firewallRulePort (rule : webfirewall.Rule) : Z :=
  match webfirewall.Ports rule with [] => int_max | value :: _ => default int_max (atoi (until_separator value)) end.
(** The order of the table: [sort.SliceStable] with its comparison. *)
Definition rule_le (a b : webfirewall.Rule) : Prop :=
  if firewallRulePort a =? firewallRulePort b then webfirewall.ID a ≤ webfirewall.ID b else firewallRulePort a ≤ firewallRulePort b.
#[export] Instance rule_le_dec : RelDecision rule_le.
Proof. intros a b. unfold rule_le. case_match; apply _. Defined.
Definition rule_row (token : string) (modify : bool) (services : gmap string string) (language : string) (i : webfirewall.Rule) : string :=
  "<tr>" +++
  (if modify then
     h "<td><form class='inline-form' method='post' action='/firewall/delete'><input type='hidden' name='_token' value='" +++ token +++
     h "'><input type='hidden' name='id' value='" +++ itoa (webfirewall.ID i) +++ h "'><button class='danger-button'>" +++ tr language "common.delete" +++
     "</button></form></td>"
   else "") +++
  "<th>" +++ itoa (webfirewall.ID i) +++ "</th><td>" +++ esc (webfirewall.Action i) +++ "</td><td>" +++ esc (webfirewall.Direction i) +++ "</td><td>" +++
  esc (webfirewall.Protocol i) +++ "</td><td>" +++ esc (formatFirewallRuleTarget i services) +++ "</td><td>" +++ esc (webfirewall.Source i) +++ "</td><td>" +++
  esc (webfirewall.Family i) +++ "</td></tr>".
Definition renderFirewallRulesWithServices (items : list webfirewall.Rule) (token : string) (modify : bool) (services : gmap string string) (language : string) : string :=
  rows (empty_row (if modify then 8 else 7) (tr language "firewall.empty")) (rule_row token modify services language) (merge_sort rule_le items).
(** [file]: what [/etc/services] holds, if it can be read. *)
Definition renderFirewallRules (items : list webfirewall.Rule) (token : string) (modify : bool) (file : option string) (language : string) : string :=
  renderFirewallRulesWithServices items token modify (readFirewallServices file) language.

(** ** Cron *)

(** [^[a-f0-9-]{36}$] after the program that makes backups. *)
Definition backupTaskID (command : string) : string :=
  let prefix := "/usr/libexec/aegisadmin/aegisadmin-backup " in
  let trimmed := trim_space command in
  if negb (has_prefix trimmed prefix) then ""
  else
    let value := trim_space (trim_prefix trimmed prefix) in
    if full (Rep (λ c, is_digit c || contains_byte c "abcdef-") 36 36) value then value else "".
(** A box per value of a field, [labels] naming the first ones. *)
Definition cronChoice (part : string) (first : Z) (labels : list string) (selected : list Z) (value : Z) : string :=
  let label := match labels !! Z.to_nat (value - first) with Some l => l | None => itoa value end in
  let checked := if existsb (Z.eqb value) selected then " checked" else "" in
  h "<label><input type='checkbox' value='" +++ itoa value +++ h "' data-cron-part='" +++ part +++ h "'" +++ checked +++ "><span>" +++ label +++ "</span></label>".
Definition cronChoiceGroup (title part : string) (first last : Z) (labels : list string) (selected : list Z) : string :=
  h "<fieldset class='cron-choice-group'><legend>" +++ title +++ h "</legend><p class='muted'>Aucune sélection = toutes les valeurs</p><div class='cron-choice-grid'>" +++
  glue (cronChoice part first labels selected <$> seqZ first (last - first + 1)) +++
  h "</div><button class='text-button' type='button' data-cron-clear='" +++ part +++ h "'>Tout effacer</button></fieldset>".
Definition months : list string := ["Jan"; "Fév"; "Mar"; "Avr"; "Mai"; "Juin"; "Juil"; "Août"; "Sep"; "Oct"; "Nov"; "Déc"].
Definition weekdays : list string := ["Dim"; "Lun"; "Mar"; "Mer"; "Jeu"; "Ven"; "Sam"].
Definition library_head : string :=
  h "<section class='content-card backup-library'><h2>Bibliothèque de tâches Cron</h2><p class='muted'>Choisissez un modèle ou créez une tâche personnalisée.</p><div class='cron-library-actions'><label class='library-selector'>Type de tâche<select data-backup-template-select><option value=''>Sélectionner un modèle</option><optgroup label='Sauvegardes'><option value='mysql'>MySQL / MariaDB</option><option value='apache'>Configuration Apache</option><option value='sites'>Sites de /var/www</option></optgroup></select></label><button class='secondary-button' type='button' data-cron-create-open>Créer une tâche utilisateur</button></div>".
Definition library_task (token userOptions : string) : string :=
  h "<dialog class='action-dialog action-dialog--wide' data-cron-create-dialog><form method='post' action='/cron/create' data-cron-create-form><input type='hidden' name='_token' value='" +++
  token +++
  h "'><input type='hidden' name='task_id' data-cron-task-id><h2 data-cron-form-title>Créer une tâche utilisateur</h2><label>Utilisateur<select name='user' required data-cron-user>" +++
  userOptions +++ h "</select></label><fieldset class='cron-schedule-builder'><legend>Périodicité</legend><div class='cron-choice-groups' data-cron-visual>" +++
  cronChoiceGroup "Minutes" "minute" 0 59 ([]) ([0]) +++ cronChoiceGroup "Heures" "hour" 0 23 ([]) ([2]) +++ cronChoiceGroup "Jours du mois" "monthday" 1 31 ([]) ([]) +++
  cronChoiceGroup "Mois" "month" 1 12 months ([]) +++ cronChoiceGroup "Jours de la semaine" "weekday" 0 6 weekdays ([]) +++
  h "</div><p class='muted' data-cron-visual-help hidden>Cette expression ne peut pas être représentée par les cases. Elle reste inchangée ; modifiez-la ci-dessous pour retrouver la sélection interactive.</p><label>Expression Cron<input name='schedule' value='0 2 * * *' maxlength='128' required autocomplete='off' spellcheck='false' data-cron-schedule></label><p class='muted' data-cron-day-warning hidden>Lorsque les jours du mois et de la semaine sont tous deux limités, Cron exécute généralement la tâche si l’un des deux critères correspond.</p></fieldset><label>Commande<input name='command' required autocomplete='off' data-cron-command></label><div class='form-actions'><button class='primary-button' data-cron-submit>Créer la tâche</button><button class='secondary-button' type='button' data-cron-create-close>Annuler</button></div></form></dialog>".
Definition library_backup (token : string) : string :=
  h "<dialog class='action-dialog action-dialog--wide' data-backup-dialog><form method='post' action='/cron/backup/create' class='selector-form'><input type='hidden' name='_token' value='" +++
  token +++
  h "'><input type='hidden' name='kind' data-backup-kind><h2 data-backup-title>Nouvelle sauvegarde</h2><label>Nom<input name='name' maxlength='64' required></label><label>Source<input name='source' data-backup-source required></label><label>Fréquence<select name='schedule' required><option value='0 2 * * *'>Chaque nuit à 2 h</option><option value='0 3 * * 0'>Chaque dimanche à 3 h</option><option value='0 4 1 * *'>Chaque mois à 4 h</option></select></label><label>Stockage temporaire local<input name='destination' value='/var/backups/aegisadmin' required></label><fieldset><legend>Destination rsync/SSH</legend><label>Serveur<input name='remote_host' required></label><label>Utilisateur SSH<input name='remote_user' required></label><label>Port SSH<input name='remote_port' type='number' min='1' max='65535' value='22' required></label><label>Répertoire distant<input name='remote_path' value='/var/backups/aegisadmin' required></label><label>Clé SSH privée<input name='ssh_key' value='/etc/aegisadmin-system/backup-ssh/id_ed25519' required></label></fieldset><label>Conservation locale (jours)<input name='retention_days' type='number' min='0' max='3650' value='2' required></label><label class='checkbox-line'><input type='checkbox' name='remove_local' value='true'> Supprimer la copie locale après un transfert réussi</label><div class='form-actions'><button class='primary-button'>Créer la tâche</button><button class='secondary-button' type='button' data-backup-close>Annuler</button></div></form></dialog></section>".
Definition library_texts : list (string * string) :=
  [("Bibliothèque de tâches Cron", "Cron task library"); ("Choisissez un modèle ou créez une tâche personnalisée.", "Choose a template or create a custom task.");
   ("Type de tâche", "Task type"); ("Sélectionner un modèle", "Select a template"); ("Sauvegardes", "Backups"); ("Configuration Apache", "Apache configuration");
   ("Sites de /var/www", "/var/www sites"); ("Créer une tâche utilisateur", "Create a user task"); ("Utilisateur", "User"); ("Périodicité", "Schedule");
   ("Cette expression ne peut pas être représentée par les cases. Elle reste inchangée ; modifiez-la ci-dessous pour retrouver la sélection interactive.", "This expression cannot be represented by the checkboxes. It remains unchanged; edit it below to restore interactive selection.");
   ("Minutes", "Minutes"); ("Heures", "Hours"); ("Jours du mois", "Days of month"); ("Mois", "Months"); ("Jours de la semaine", "Days of week");
   ("Aucune sélection = toutes les valeurs", "No selection = all values"); ("Tout effacer", "Clear all"); ("Expression Cron", "Cron expression");
   ("Lorsque les jours du mois et de la semaine sont tous deux limités, Cron exécute généralement la tâche si l’un des deux critères correspond.", "When both days of month and weekdays are restricted, Cron generally runs the task when either condition matches.");
   ("Commande", "Command"); ("Créer la tâche", "Create task"); ("Annuler", "Cancel"); ("Nouvelle sauvegarde", "New backup"); ("Nom", "Name"); ("Source", "Source");
   ("Fréquence", "Frequency"); ("Chaque nuit à 2 h", "Every night at 2 AM"); ("Chaque dimanche à 3 h", "Every Sunday at 3 AM");
   ("Chaque mois à 4 h", "Every month at 4 AM"); ("Stockage temporaire local", "Local temporary storage"); ("Destination rsync/SSH", "rsync/SSH destination");
   ("Serveur", "Server"); ("Utilisateur SSH", "SSH user"); ("Port SSH", "SSH port"); ("Répertoire distant", "Remote directory");
   ("Clé SSH privée", "Private SSH key"); ("Conservation locale (jours)", "Local retention (days)");
   ("Supprimer la copie locale après un transfert réussi", "Delete the local copy after a successful transfer"); ("Jan", "Jan"); ("Fév", "Feb"); ("Mar", "Mar");
   ("Avr", "Apr"); ("Mai", "May"); ("Juin", "Jun"); ("Juil", "Jul"); ("Août", "Aug"); ("Sep", "Sep"); ("Oct", "Oct"); ("Nov", "Nov"); ("Déc", "Dec");
   ("Dim", "Sun"); ("Lun", "Mon"); ("Mer", "Wed"); ("Jeu", "Thu"); ("Ven", "Fri"); ("Sam", "Sat")].
(** The English texts are put in the whole fragment, the token and the names of the users included. *)
Definition renderBackupLibrary (token userOptions language : string) : string :=
  let content := library_head +++ library_task token userOptions +++ library_backup token in
  if negb (String.eqb language "en") then content else Replace library_texts content.
Definition job_options (token level language : string) (item : webcron.Job) : string :=
  let backupID := backupTaskID (webcron.Command item) in
  let modify := String.eqb level "modify" in
  let enabled := webcron.job_Enabled item in
  let choice value key := option_ value (tr language key) false in
  if negb (String.eqb backupID "") then
    h "<select class='cron-action-select' data-backup-action data-csrf='" +++ token +++ h "' data-task-id='" +++ backupID +++ h "'><option value=''>" +++
    tr language "cron.action" +++ h "</option><option value='run'>" +++ tr language "cron.run" +++ "</option>" +++
    (if modify then choice "delete" "cron.delete" else "") +++ "</select>"
  else if webcron.Editable item then
    h "<select class='cron-action-select' data-cron-action data-csrf='" +++ token +++ h "' data-user='" +++ esc (webcron.Owner item) +++ h "' data-task-id='" +++
    esc (webcron.ID item) +++ h "' data-schedule='" +++ esc (webcron.Schedule item) +++ h "' data-command='" +++ esc (webcron.Command item) +++ h "'><option value=''>" +++
    tr language "cron.action" +++ "</option>" +++
    (if modify then choice "edit" "cron.edit" else "") +++ (if enabled then choice "run" "cron.run" else "") +++
    (if modify && enabled then choice "suspend" "cron.suspend" else "") +++ (if modify && negb enabled then choice "resume" "cron.resume" else "") +++
    (if modify then choice "delete" "cron.delete" else "") +++ "</select>"
  else h "<span class='muted'>" +++ tr language "cron.read_only" +++ "</span>".
Definition job_row (token level language : string) (item : webcron.Job) : string :=
  let '(state, class) :=
    if webcron.job_Enabled item then (Text language "cron.enabled", "success") else (Text language "cron.suspended", "warning") in
  h "<tr><td><span class='status-badge status-badge--" +++ class +++ h "'>" +++ state +++ "</span></td>" +++
  (if WebActions.acts level then "<td>" +++ job_options token level language item +++ "</td>" else "") +++
  "<th>" +++ esc (webcron.Owner item) +++ "</th><td>" +++ esc (webcron.Schedule item) +++ "</td><td><code>" +++ esc (webcron.Command item) +++ "</code></td><td>" +++
  esc (webcron.Source item) +++ "</td></tr>".
Definition renderCronJobs (items : list webcron.Job) (token level language : string) : string :=
  rows (empty_row (if WebActions.acts level then 6 else 5) (tr language "cron.empty")) (job_row token level language) items.
End fragments.

(** The token of the form is translated with the page. *)
Example token_translated : Replace library_texts (esc "x4Avr") = "x4Apr". Proof. vm_compute. reflexivity. Qed.
