(* ===== verification/Fragments3.v ===== *)
(** * What the pages show (certificates, updates, navigation)

    The functions of [internal/webapp/system_modules.go], and those of [webapp.go] for the
    navigation and the rights, that turn what the clients read into HTML. *)

From S2P Require Import Prelude GoStrings StringFacts Codec Floats Html.
From S2P Require WebReads StoreNav.
From S2P Require Import Fragments Fragments2.
From Stdlib Require Import Ascii String.
#[local] Open Scope string_scope.
#[local] Open Scope list_scope.
#[local] Open Scope Z_scope.

Import WebReads.

(** ** The rights and the navigation *)

Definition permissionLabel (level : string) : string :=
  if String.eqb level "modify" then "Modification" else if String.eqb level "action" then "Actions" else "Consultation".
Definition permissionLabelForLanguage (level language : string) : string :=
  if negb (String.eqb language "en") then permissionLabel level
  else if String.eqb level "modify" then "Modify" else if String.eqb level "action" then "Actions" else "View".
Definition module_routes : list (string * string) :=
  [("dashboard", "/go/dashboard"); ("storage", "/storage"); ("services", "/services"); ("network", "/network"); ("processes", "/processes"); ("logs", "/logs");
   ("about", "/about"); ("php", "/php"); ("mysql", "/mysql"); ("tor", "/tor"); ("apache", "/apache"); ("fail2ban", "/fail2ban"); ("firewall", "/firewall");
   ("cron", "/cron"); ("certbot", "/certbot"); ("updates", "/updates"); ("users", "/users"); ("modules", "/modules"); ("setting", "/setting");
   ("configuration", "/configuration")].
Definition goModuleRoute (key : string) : string := lookup_or "" module_routes key.
(** [renderNavigation] has no entry for the processes. *)
Definition navigation_location (key : string) : string := if String.eqb key "processes" then "" else goModuleRoute key.
Definition navigation_item (m : StoreNav.NavigationModule) : string :=
  let location := navigation_location (StoreNav.nm_Key m) in
  h "<li class='module-item'><span class='module-icon' aria-hidden='true'>" +++ esc (StoreNav.nm_Icon m) +++ h "</span><div><div class='module-meta'><strong>" +++
  (if negb (String.eqb location "") then h "<a href='" +++ location +++ h "'>" +++ esc (StoreNav.nm_Name m) +++ "</a>" else esc (StoreNav.nm_Name m)) +++
  h "</strong><span class='permission-badge'>" +++ esc (permissionLabel (StoreNav.PermissionLevel m)) +++ "</span></div>" +++
  (if String.eqb location "" then h "<span class='migration-label'>Migration Go à venir</span>" else "") +++ "</div></li>".
Definition navigation_category (c : StoreNav.NavigationCategory) : string :=
  h "<section class='navigation-category'><h2>" +++ esc (StoreNav.nc_Name c) +++ h "</h2><ul class='module-list'>" +++
  glue (navigation_item <$> StoreNav.nc_Modules c) +++ "</ul></section>".
Definition renderNavigation (categories : list StoreNav.NavigationCategory) : string := glue (navigation_category <$> categories).
(** The menu: the categories that keep a module with a page. *)
Definition category_names : list (string * string) :=
  [("Vue générale", "Overview"); ("Supervision", "Monitoring"); ("Services", "Services"); ("Sécurité", "Security"); ("Administration", "Administration")].
Definition menu_category (language : string) (c : StoreNav.NavigationCategory) : option (string * list (string * string * string)) :=
  let name := if String.eqb language "en" then lookup_or (StoreNav.nc_Name c) category_names (StoreNav.nc_Name c) else StoreNav.nc_Name c in
  let item m :=
    let route := goModuleRoute (StoreNav.nm_Key m) in
    if String.eqb route "" then None else Some (StoreNav.nm_Name m, StoreNav.nm_Icon m, route) in
  match omap item (StoreNav.nc_Modules c) with [] => None | modules => Some (name, modules) end.
Definition menu (language : string) (categories : list StoreNav.NavigationCategory) : list (string * list (string * string * string)) :=
  omap (menu_category language) categories.

Section fragments.
Context `{UnicodeCase} `{!Catalogs} `{Floats}.
(** [url.Parse] of a link: its scheme and its [String]. *)
Context (ParseLink : string → option (string * string)).

(** ** The certificates *)

Definition certificate_key (c : webcertbot.Certificate) : string := to_lower (join ", " (webcertbot.Domains c)).
(** The order of the table: [sort.SliceStable] with its comparison. *)
Definition certificate_le (a b : webcertbot.Certificate) : Prop :=
  if String.eqb (certificate_key a) (certificate_key b) then str_le (to_lower (webcertbot.Name a)) (to_lower (webcertbot.Name b))
  else str_le (certificate_key a) (certificate_key b).
#[export] Instance certificate_le_dec : RelDecision certificate_le.
Proof. intros a b. unfold certificate_le. case_match; apply _. Defined.
Definition certificate_state (language : string) (c : webcertbot.Certificate) : string * string :=
  if webcertbot.Valid c then
    if webcertbot.DaysRemaining c <=? 30 then (Text language "certbot.renew_due", "warning") else (Text language "certbot.valid", "success")
  else (Text language "certbot.expired", "danger").
Definition certificate_row (token : string) (actions : bool) (language : string) (i : webcertbot.Certificate) : string :=
  let '(state, class) := certificate_state language i in
  "<tr>" +++
  (if actions then
     h "<td><select class='compact-select' aria-label='" +++ tr language "certbot.action_for" +++ " " +++ esc (webcertbot.Name i) +++
     h "' data-certbot-certificate-action data-certificate='" +++ esc (webcertbot.Name i) +++ h "' data-csrf='" +++ token +++ h "'><option value=''>" +++
     tr language "common.actions" +++ h "…</option><option value='reinstall'>" +++ tr language "certbot.reinstall" +++ h "</option><option value='renew-replace'>" +++
     tr language "certbot.renew" +++ h "</option><option value='delete'>" +++ tr language "common.delete" +++ "</option></select></td>"
   else "") +++
  "<th>" +++ esc (webcertbot.Name i) +++ "</th><td>" +++ esc (join ", " (webcertbot.Domains i)) +++ "</td><td>" +++ esc (webcertbot.KeyType i) +++ "</td><td>" +++
  esc (webcertbot.Expiry i) +++ " (" +++ itoa (webcertbot.DaysRemaining i) +++ " " +++ tr language "certbot.day_short" +++
  h ")</td><td><span class='status-badge status-badge--" +++ class +++ h "'>" +++ state +++ "</span></td></tr>".
Definition renderCertificates (items : list webcertbot.Certificate) (token : string) (actions : bool) (language : string) : string :=
  rows (empty_row (if actions then 6 else 5) (tr language "certbot.empty")) (certificate_row token actions language) (merge_sort certificate_le items).
Definition certbotButton (action label class name token : string) : string :=
  h "<form method='post' action='/certbot/" +++ action +++ h "'><input type='hidden' name='_token' value='" +++ token +++
  h "'><input type='hidden' name='certificate' value='" +++ esc name +++ h "'><button class='" +++ class +++ h "'>" +++ label +++ "</button></form>".

(** ** The updates *)

Definition updates_texts : list (string * string) :=
  [(h "lang='fr'", h "lang='en'"); ("Administration", "Administration"); ("État des mises à jour", "Update status"); ("Paquets disponibles", "Available packages");
   ("Mises à jour disponibles", "Available updates"); ("Mises à jour", "Updates");
   ("Paquets système, dépendances Composer et firmwares · Droit", "System packages, Composer dependencies and firmware · Permission");
   ("Se déconnecter", "Sign out"); ("État des mises à jour", "Update status"); ("Gestionnaire", "Manager"); ("Paquets", "Packages"); ("Sécurité", "Security");
   ("Redémarrage", "Reboot"); ("Installer les mises à jour", "Install updates"); ("Paquets disponibles", "Available packages"); ("Paquet", "Package");
   ("Architecture", "Architecture"); ("Installée", "Installed"); ("Candidate", "Candidate"); ("Dépendances Composer", "Composer dependencies");
   ("Vérifier maintenant", "Check now"); ("Détails", "Details"); ("Détail", "Detail"); ("Site", "Site"); ("Firmwares disponibles", "Available firmware");
   ("Périphérique", "Device"); ("Fournisseur", "Vendor"); ("Installé", "Installed"); ("Fermer", "Close"); ("Installation des mises à jour", "Installing updates");
   ("Initialisation…", "Initializing…"); ("Gestionnaire de paquets", "Package manager"); ("Connexion…", "Connecting…");
   ("Connexion au suivi de la mise à jour…", "Connecting to update monitoring…"); ("Démarrage", "Started"); ("Fin", "Finished"); ("Code retour", "Exit code");
   ("Le système est à jour.", "The system is up to date."); ("Aucune mise à jour de firmware.", "No firmware update.");
   ("Aucun projet Composer détecté.", "No Composer project detected."); ("Alertes de sécurité", "Security alerts"); ("Alerte", "Advisory");
   ("Versions affectées", "Affected versions"); ("Référence", "Reference"); ("Aucune alerte.", "No alert."); ("Mises à jour disponibles", "Available updates");
   ("Disponible", "Available"); ("Compatibilité", "Compatibility"); ("Type", "Type"); ("Aucune mise à jour.", "No update."); ("Indirecte", "Indirect");
   ("Directe", "Direct"); ("Redémarrage requis", "Reboot required");
   ("Une mise à jour installée nécessite le redémarrage du serveur.", "An installed update requires a server reboot."); ("Délai", "Delay"); ("Maintenant", "Now");
   ("Dans 5 minutes", "In 5 minutes"); ("Dans 15 minutes", "In 15 minutes"); ("Dans 30 minutes", "In 30 minutes"); ("Dans 1 heure", "In 1 hour");
   ("Je confirme le redémarrage du serveur et l’interruption des services.", "I confirm the server reboot and service interruption.");
   ("Redémarrer le serveur", "Reboot server"); ("Dernière vérification : jamais", "Last check: never");
   ("Vérification Composer en cours…", "Composer check in progress…"); ("Dernière vérification :", "Last check:");
   ("La première vérification des sites est en cours.", "The first site check is in progress.");
   ("Le redémarrage immédiat du serveur a été programmé.", "The immediate server reboot was scheduled.");
   ("Le redémarrage du serveur a été programmé dans", "The server reboot was scheduled in")].
(** The English texts are put in the whole page or fragment, the data included. *)
Definition localizeUpdatesHTML (value language : string) : string := if negb (String.eqb language "en") then value else Replace updates_texts value.
Definition localizeUpdatesText (value language : string) : string :=
  if negb (String.eqb language "en") then value
  else
    let value := ReplaceAll value " mise(s) à jour" " update(s)" in
    let value := ReplaceAll value " alerte(s)" " alert(s)" in
    Replace [("À jour", "Up to date"); ("À revérifier", "Check again"); ("Erreur", "Error"); ("Aucune alerte", "No alert"); ("Indisponible", "Unavailable")] value.
Definition update_row (language : string) (i : webupdates.Update) : string :=
  "<tr><th>" +++ esc (webupdates.Name i) +++ "</th><td>" +++ esc (webupdates.Architecture i) +++ "</td><td>" +++ esc (webupdates.InstalledVersion i) +++ "</td><td>" +++
  esc (webupdates.CandidateVersion i) +++ "</td><td>" +++ yesNoForLanguage (webupdates.Security i) language +++ "</td></tr>".
Definition renderUpdates (items : list webupdates.Update) (language : string) : string := rows (empty_row 5 "Le système est à jour.") (update_row language) items.
Definition firmware_row (language : string) (i : webupdates.FirmwareUpdate) : string :=
  "<tr><th>" +++ esc (webupdates.Device i) +++ "</th><td>" +++ esc (webupdates.Vendor i) +++ "</td><td>" +++ esc (webupdates.fw_InstalledVersion i) +++ "</td><td>" +++
  esc (webupdates.fw_CandidateVersion i) +++ "</td><td>" +++ yesNoForLanguage (webupdates.fw_RebootRequired i) language +++ "</td></tr>".
Definition renderFirmware (items : list webupdates.FirmwareUpdate) (language : string) : string :=
  rows (empty_row 5 "Aucune mise à jour de firmware.") (firmware_row language) items.
Definition no_detail : string := h "<span class='muted'>—</span>".
(** A link of an advisory, when it is one of the web. *)
Definition advisory_link (a : webupdates.ComposerAdvisory) : string :=
  match ParseLink (webupdates.Link a) with
  | Some (scheme, text) =>
      if String.eqb scheme "https" || String.eqb scheme "http" then
        h "<a href='" +++ esc text +++ h "' target='_blank' rel='noopener noreferrer'>" +++ esc (webupdates.adv_ID a) +++ "</a>"
      else no_detail
  | None => no_detail
  end.
Definition advisory_row (a : webupdates.ComposerAdvisory) : string :=
  "<tr><th>" +++ esc (webupdates.Package a) +++ "</th><td>" +++ esc (webupdates.Title a) +++ "</td><td>" +++ esc (webupdates.AffectedVersions a) +++ "</td><td>" +++
  advisory_link a +++ "</td></tr>".
Definition package_row (p : webupdates.ComposerPackage) : string :=
  let direct := if webupdates.Direct p then "Directe" else "Indirecte" in
  "<tr><th>" +++ esc (webupdates.pkg_Name p) +++ "</th><td>" +++ esc (webupdates.CurrentVersion p) +++ "</td><td>" +++ esc (webupdates.LatestVersion p) +++ "</td><td>" +++
  esc (webupdates.pkg_Status p) +++ "</td><td>" +++ direct +++ "</td></tr>".
Definition nothing {A} (l : list A) : bool := (List.length l =? 0)%nat.
Definition composer_details (site : webupdates.ComposerSite) (index : Z) : string :=
  let id := "composer-detail-" +++ itoa index in
  h "<button class='secondary-button compact-link' type='button' data-composer-detail-open='" +++ id +++ h "'>Détails</button><template id='" +++ id +++
  h "'><div class='composer-details'><p><strong>Site : </strong>" +++ esc (webupdates.Domain site) +++ "</p>" +++
  (if String.eqb (webupdates.site_Message site) "" then "" else h "<p class='notice'>" +++ esc (webupdates.site_Message site) +++ "</p>") +++
  (if String.eqb (webupdates.SecurityStatus site) "error" && negb (String.eqb (webupdates.SecurityMessage site) "")
   then h "<p class='notice notice--danger'>" +++ esc (webupdates.SecurityMessage site) +++ "</p>" else "") +++
  h "<h3>Alertes de sécurité</h3><div class='table-scroll'><table class='data-table data-table--nested'><thead><tr><th>Paquet</th><th>Alerte</th><th>Versions affectées</th><th>Référence</th></tr></thead><tbody>" +++
  (if nothing (webupdates.SecurityAdvisories site) then h "<tr><td colspan='4' class='muted'>Aucune alerte.</td></tr>" else "") +++
  glue (advisory_row <$> webupdates.SecurityAdvisories site) +++
  h "</tbody></table></div><h3>Mises à jour disponibles</h3><div class='table-scroll'><table class='data-table data-table--nested'><thead><tr><th>Paquet</th><th>Installée</th><th>Disponible</th><th>Compatibilité</th><th>Type</th></tr></thead><tbody>" +++
  (if nothing (webupdates.Packages site) then h "<tr><td colspan='5' class='muted'>Aucune mise à jour.</td></tr>" else "") +++
  glue (package_row <$> webupdates.Packages site) +++ "</tbody></table></div></div></template>".
Definition renderComposerDetails (site : webupdates.ComposerSite) (index : Z) (language : string) : string :=
  if nothing (webupdates.Packages site) && nothing (webupdates.SecurityAdvisories site) && String.eqb (webupdates.site_Message site) "" then no_detail
  else localizeUpdatesHTML (composer_details site index) language.
Definition composer_status (i : webupdates.ComposerSite) : string * string :=
  if webupdates.Stale i then ("neutral", "À revérifier")
  else if String.eqb (webupdates.site_Status i) "outdated" then ("warning", itoa (webupdates.site_UpdateCount i) +++ " mise(s) à jour")
  else if String.eqb (webupdates.site_Status i) "error" then ("danger", "Erreur") else ("success", "À jour").
Definition composer_security (i : webupdates.ComposerSite) : string * string :=
  if String.eqb (webupdates.SecurityStatus i) "error" then ("neutral", "Indisponible")
  else if 0 <? webupdates.SecurityIssueCount i then ("danger", itoa (webupdates.SecurityIssueCount i) +++ " alerte(s)") else ("success", "Aucune alerte").
Definition composer_row (language : string) (index : Z) (i : webupdates.ComposerSite) : string :=
  let '(statusClass, statusLabel) := composer_status i in
  let '(securityClass, securityLabel) := composer_security i in
  "<tr><td>" +++ renderComposerDetails i index language +++ "</td><th>" +++ esc (webupdates.Domain i) +++ h "</th><td><span class='status-badge status-badge--" +++
  statusClass +++ h "'>" +++ esc (localizeUpdatesText statusLabel language) +++ h "</span></td><td><span class='status-badge status-badge--" +++ securityClass +++ h "'>" +++
  esc (localizeUpdatesText securityLabel language) +++ "</span></td></tr>".
Fixpoint composer_rows (language : string) (index : Z) (items : list webupdates.ComposerSite) : string :=
  match items with [] => "" | i :: items => composer_row language index i +++ composer_rows language (index + 1) items end.
Definition renderComposer (items : list webupdates.ComposerSite) (language : string) : string :=
  match items with [] => empty_row 4 "Aucun projet Composer détecté." | _ => composer_rows language 0 items end.
End fragments.

(** The data is translated with the page, and a short text hides a longer one that starts with it. *)
Example device_translated : localizeUpdatesHTML (esc "Fingerprint") "en" = "Finishedgerprint". Proof. vm_compute. reflexivity. Qed.
Example reboot_hidden : localizeUpdatesHTML "Redémarrage requis" "en" = "Reboot requis". Proof. vm_compute. reflexivity. Qed.
