(* ===== verification/Fragments4.v ===== *)
(** * What the pages show (users, access log, modules, settings)

    The functions of [internal/webapp/users.go], [modules.go] and [settings.go] that turn
    what the account store holds into HTML. *)

From S2P Require Import Prelude GoStrings StringFacts Codec Html.
From S2P Require Store StoreNav StoreSettings Schema JsonParse.
From S2P Require Import Fragments.
From Stdlib Require Import Ascii String.
#[local] Open Scope string_scope.
#[local] Open Scope list_scope.
#[local] Open Scope Z_scope.

Import Store(AdminUser, a_ID, a_Login, FirstName, LastName, Email, a_Type, a_Status, a_TwoFactorRequired, TwoFactorEnabled).
Import StoreNav(AssignableModule, as_ID, as_Name, as_Category, AdminModule, am_ID, am_Name, am_Route, am_Icon, am_AccessPolicy, am_Enabled, am_Essential,
  AdminCategory, ac_ID, ac_Name, ac_Modules).
Import JsonParse(same_key).

Definition selected (v : bool) : string := if v then " selected" else "".
Definition checked (v : bool) : string := if v then " checked" else "".
(** A notice of success, when the address says there is a result. *)
Definition success_notice (result text : string) : string :=
  if String.eqb result "" then "" else h "<p class='notice notice--success'>" +++ text +++ "</p>".

(** ** The users *)

Definition count_users (p : AdminUser → bool) (items : list AdminUser) : Z := Z.of_nat (List.length (List.filter p items)).
Definition is_active (u : AdminUser) : bool := String.eqb (a_Status u) "active".
Definition renderUserStatistics (items : list AdminUser) : string :=
  glue ((λ kv, summary_item kv.1 (itoa kv.2)) <$>
    [("Comptes", Z.of_nat (List.length items)); ("Actifs", count_users is_active items); ("Suspendus", count_users (λ u, negb (is_active u)) items);
     ("2FA activée", count_users TwoFactorEnabled items)]).
Definition current_mark : string :=
  h "<span class='current-account-indicator' role='img' aria-label='Compte actuellement connecté' title='Compte actuellement connecté'></span>".
Definition user_row (currentID : Z) (item : AdminUser) : string :=
  let '(statusClass, statusLabel) := if is_active item then ("success", "Actif") else ("warning", "Suspendu") in
  let twoFactor := if TwoFactorEnabled item then "Activée" else if a_TwoFactorRequired item then "Requise" else "Non configurée" in
  let identity := trim_space (FirstName item +++ " " +++ LastName item) in
  h "<tr><td><span class='user-actions'><a class='secondary-link compact-link' href='/users/" +++ itoa (a_ID item) +++ h "/edit'>Modifier</a>" +++
  (if a_ID item =? currentID then current_mark else "") +++
  h "</span></td><th scope='row'>" +++ esc (a_Login item) +++ "</th><td>" +++ esc identity +++ "</td><td>" +++ esc (Email item) +++ "</td><td>" +++ esc (a_Type item) +++
  h "</td><td><span class='status-badge status-badge--" +++ statusClass +++ h "'>" +++ statusLabel +++ "</span></td><td>" +++ twoFactor +++ "</td></tr>".
Definition renderUserRows (items : list AdminUser) (currentID : Z) : string := rows (empty_row 7 "Aucun compte.") (user_row currentID) items.
Definition permission_choices : list (string * string) := [("none", "Aucun"); ("view", "Consultation"); ("action", "Actions"); ("modify", "Modification")].
Definition permission_choice (name level : string) (choice : string * string) : string :=
  let '(value, label) := choice in
  h "<label class='permission-choice'><input type='radio' name='" +++ name +++ h "' value='" +++ value +++ h "'" +++ checked (String.eqb level value) +++ "><span>" +++
  label +++ "</span></label>".
(** The loop of [renderPermissionFields]: [category] is the one whose section is open. *)
Fixpoint permission_fields (current : gmap Z string) (prefix category : string) (modules : list AssignableModule) : string :=
  match modules with
  | [] => if String.eqb category "" then "" else "</div></section>"
  | m :: modules =>
      (if String.eqb (as_Category m) category then ""
       else
         (if String.eqb category "" then "" else "</div></section>") +++
         h "<section class='user-module-permissions'><h4 class='user-module-permissions__category'>" +++ esc (as_Category m) +++
         h "</h4><div class='user-module-permissions__items'>") +++
      (let level := match current !! as_ID m with Some level => if String.eqb level "" then "none" else level | None => "none" end in
       h "<fieldset class='user-module-permissions__module'><legend>" +++ esc (as_Name m) +++ h "</legend><div class='permission-levels'>" +++
       glue (permission_choice (prefix +++ itoa (as_ID m)) level <$> permission_choices) +++ "</div></fieldset>") +++
      permission_fields current prefix (as_Category m) modules
  end.
Definition renderPermissionFields (modules : list AssignableModule) (current : gmap Z string) (prefix : string) : string :=
  h "<div class='user-module-permissions-list'>" +++ permission_fields current prefix "" modules +++ "</div>".
Definition account_fields (modules : list AssignableModule) (permissions : gmap Z string) (u : AdminUser) : string :=
  h "<label>État</label><select name='status'><option value='active'" +++ selected (String.eqb (a_Status u) "active") +++ h ">Actif</option><option value='suspended'" +++
  selected (String.eqb (a_Status u) "suspended") +++ h ">Suspendu</option></select><label><input type='checkbox' name='two_factor_required' value='1'" +++
  checked (a_TwoFactorRequired u) +++
  h "> 2FA obligatoire</label><label><input type='checkbox' name='reset_totp' value='1'> Réinitialiser la double authentification</label><fieldset><legend>Droits par module</legend>" +++
  renderPermissionFields modules permissions "permission_" +++ "</fieldset>".
Definition account_forms (token : string) (u : AdminUser) : string :=
  h "<form class='selector-form password-generator' method='post' action='/users/" +++ itoa (a_ID u) +++
  h "/password' data-password-generator><input type='hidden' name='_token' value='" +++ esc token +++ h "'><label for='user-password-" +++ itoa (a_ID u) +++
  h "'>Nouveau mot de passe</label><input id='user-password-" +++ itoa (a_ID u) +++
  h "' type='password' name='password' minlength='12' maxlength='128' autocomplete='new-password' spellcheck='false' required data-generated-password><label for='user-password-confirmation-" +++
  itoa (a_ID u) +++ h "'>Confirmation</label><input id='user-password-confirmation-" +++ itoa (a_ID u) +++
  h "' type='password' name='password_confirmation' minlength='12' maxlength='128' autocomplete='new-password' spellcheck='false' required data-generated-password-confirmation><div class='password-generator__actions'><button class='secondary-button' type='button' data-generate-password>Générer un mot de passe</button><button class='secondary-button' type='button' data-toggle-password>Afficher</button><button class='secondary-button' type='button' data-copy-password disabled>Copier</button></div><p class='muted password-generator__status' aria-live='polite' data-password-status>Entre 12 et 128 caractères.</p><button class='secondary-button'>Réinitialiser le mot de passe</button></form><form method='post' action='/users/" +++
  itoa (a_ID u) +++ h "/delete'><input type='hidden' name='_token' value='" +++ esc token +++ h "'><button class='danger-button'>Supprimer</button></form>".
(** One account of [renderAdminUsers], which the page of an account calls with that account. *)
Definition admin_user (modules : list AssignableModule) (permissions : gmap Z string) (token : string) (u : AdminUser) : string :=
  let root := String.eqb (a_Type u) "root" in
  h "<article class='content-card'><h3>" +++ esc (a_Login u) +++ h "</h3><form class='selector-form' method='post' action='/users/" +++ itoa (a_ID u) +++
  h "/update'><input type='hidden' name='_token' value='" +++ esc token +++ h "'><label>Identifiant</label><input name='login' value='" +++ esc (a_Login u) +++ h "'" +++
  (if root then " readonly" else "") +++
  h " required><label>Prénom</label><input name='first_name' value='" +++ esc (FirstName u) +++ h "' required><label>Nom</label><input name='last_name' value='" +++
  esc (LastName u) +++ h "' required><label>E-mail</label><input type='email' name='email' value='" +++ esc (Email u) +++ h "' required>" +++
  (if root then "" else account_fields modules permissions u) +++ h "<button class='primary-button'>Enregistrer</button></form>" +++
  (if root then "" else account_forms token u) +++ "</article>".
(** [permissions]: those of each account. *)
Definition renderAdminUsers (items : list AdminUser) (modules : list AssignableModule) (permissions : Z → gmap Z string) (token : string) : string :=
  rows (h "<p class='muted'>Aucun compte.</p>") (λ u, admin_user modules (permissions (a_ID u)) token u) items.
Definition users_texts : list (string * string) :=
  [(h "lang='fr'", h "lang='en'"); ("Comptes, sécurité et droits par module", "Accounts, security and permissions by module");
   ("Créer un compte et définir ses droits initiaux", "Create an account and define its initial permissions");
   ("Identité, sécurité et droits du compte", "Identity, security and account permissions");
   ("Authentifications et changements de sécurité", "Authentication and security changes"); ("Modifier un utilisateur", "Edit user");
   ("Nouvel utilisateur", "New user"); ("Utilisateurs", "Users"); ("Retour aux utilisateurs", "Back to users"); ("Retour à la liste", "Back to list");
   ("Se déconnecter", "Sign out"); ("Synthèse des comptes", "Account summary"); ("Comptes enregistrés", "Registered accounts");
   ("Root reste protégé. Les autres comptes peuvent être modifiés, suspendus ou supprimés.", "Root remains protected. Other accounts can be edited, suspended or deleted.");
   ("Journal des accès", "Access log"); ("Compte actuellement connecté", "Currently signed-in account");
   ("L’opération a été enregistrée.", "The operation was saved."); ("Aucun compte.", "No account."); ("Comptes", "Accounts"); ("Actifs", "Active");
   ("Suspendus", "Suspended"); ("2FA activée", "2FA enabled"); ("Actions", "Actions"); ("Identifiant", "Username"); ("Utilisateur", "User");
   ("Prénom", "First name"); ("Nom", "Last name"); ("E-mail", "Email"); ("Type", "Type"); ("État", "Status"); ("Actif", "Active"); ("Suspendu", "Suspended");
   ("Non configurée", "Not configured"); ("Activée", "Enabled"); ("Requise", "Required"); ("Modifier", "Edit"); ("Mot de passe initial", "Initial password");
   ("2FA obligatoire", "2FA required"); ("Réinitialiser la double authentification", "Reset two-factor authentication");
   ("Droits par module", "Permissions by module"); ("Aucun", "None"); ("Consultation", "View"); ("Modification", "Modify"); ("Annuler", "Cancel");
   ("Créer l’utilisateur", "Create user"); ("Enregistrer", "Save"); ("Nouveau mot de passe", "New password"); ("Confirmation", "Confirmation");
   ("Générer un mot de passe", "Generate password"); ("Afficher", "Show"); ("Copier", "Copy"); ("Entre 12 et 128 caractères.", "Between 12 and 128 characters.");
   ("Réinitialiser le mot de passe", "Reset password"); ("Supprimer", "Delete"); ("Tous", "All"); ("Adresse IP", "IP address"); ("Événement", "Event");
   ("Filtrer", "Filter"); ("Réinitialiser", "Reset"); ("événement(s)", "event(s)"); ("Résultat", "Result"); ("Navigateur", "Browser");
   ("Aucun événement.", "No event."); ("Page précédente", "Previous page"); ("Page suivante", "Next page"); ("Refusé", "Denied"); ("Réussi", "Successful");
   ("Connexion réussie", "Successful login"); ("Connexion refusée", "Login denied"); ("Double authentification réussie", "Two-factor authentication successful");
   ("Double authentification refusée", "Two-factor authentication denied"); ("Déconnexion", "Logout"); ("Mot de passe modifié", "Password changed");
   ("Double authentification activée", "Two-factor authentication enabled"); ("Double authentification désactivée", "Two-factor authentication disabled");
   ("Redémarrage du serveur programmé", "Server reboot scheduled"); ("Vue générale", "Overview"); ("Supervision", "Monitoring"); ("Sécurité", "Security");
   ("Mises à jour", "Updates"); ("Pare-feu", "Firewall"); ("Stockage", "Storage"); ("Réseau", "Network"); ("Journaux", "Logs"); ("Paramètres", "Settings");
   ("Configuration du serveur", "Server configuration"); ("À propos", "About");
   ("Cette adresse e-mail est déjà utilisée par un autre utilisateur.", "This email address is already used by another user.");
   ("Cet identifiant est déjà utilisé par un autre utilisateur.", "This username is already used by another user.");
   ("Le mot de passe doit contenir entre 12 et 128 caractères.", "The password must contain between 12 and 128 characters.");
   ("Le compte n’a pas pu être créé. Vérifiez que l’identifiant et l’adresse e-mail ne sont pas déjà utilisés.", "The account could not be created. Check that the username and email address are not already in use.")].
(** The English texts are put in the whole page, the data included. *)
Definition localizeUsersHTML (value language : string) : string := if negb (String.eqb language "en") then value else Replace users_texts value.

(** ** The access log *)

Definition accessEventLabels : list (string * string) :=
  [("login_success", "Connexion réussie"); ("login_failure", "Connexion refusée"); ("two_factor_success", "Double authentification réussie");
   ("two_factor_failure", "Double authentification refusée"); ("logout", "Déconnexion"); ("password_changed", "Mot de passe modifié");
   ("two_factor_enabled", "Double authentification activée"); ("two_factor_disabled", "Double authentification désactivée");
   ("server_reboot_scheduled", "Redémarrage du serveur programmé")].
Definition access_row (language : string) (item : Z * Schema.AccessRow) : string :=
  let row := item.2 in
  let '(outcome, class) := if Schema.l_success row then ("Réussi", "success") else ("Refusé", "danger") in
  let label := lookup_or (Schema.l_event row) accessEventLabels (Schema.l_event row) in
  "<tr><td>" +++ esc (FormatRFC3339 language (Schema.l_occurred_at row)) +++ "</td><th>" +++ esc (Schema.l_login row) +++ "</th><td>" +++ esc label +++
  h "</td><td><span class='status-badge status-badge--" +++ class +++ h "'>" +++ outcome +++ "</span></td><td>" +++ esc (Schema.l_ip_address row) +++
  h "</td><td class='access-log-agent'>" +++ esc (Schema.l_user_agent row) +++ "</td></tr>".
Definition access_entries (language : string) (items : list (Z * Schema.AccessRow)) : string := rows (empty_row 6 "Aucun événement.") (access_row language) items.
Definition login_options (filter_login : string) (logins : list string) : string :=
  h "<option value=''>Tous</option>" +++ glue ((λ login, option_ (esc login) (esc login) (same_key filter_login login)) <$> logins).
Definition event_options (filter_event : string) : string :=
  h "<option value=''>Tous</option>" +++
  glue ((λ event, option_ event (esc (lookup_or "" accessEventLabels event)) (String.eqb filter_event event)) <$> StoreSettings.AccessLogEvents).
(** [url.Values.Encode]: by key. *)
Definition access_query (login ip event : string) (target : Z) : string :=
  let given key value := if String.eqb value "" then [] else [key +++ "=" +++ QueryEscape value] in
  "/users/access-log?" +++ join "&" (given "event" event ++ given "ip" ip ++ given "login" login ++ ["page=" +++ QueryEscape (itoa target)]).
Definition page_link (target label : string) : string := h "<a class='secondary-link' href='" +++ esc target +++ h "'>" +++ label +++ "</a>".
Definition access_pagination (login ip event : string) (page per_page total : Z) : string :=
  (if 1 <? page then page_link (access_query login ip event (page - 1)) "Page précédente" else "") +++
  (if wrap64 (page * per_page) <? total then page_link (access_query login ip event (wrap64 (page + 1))) "Page suivante" else "").

(** ** The modules *)

Definition configText (language fr en : string) : string := if String.eqb language "en" then en else fr.
Definition moveForm (action : string) (direction : Z) (label token : string) : string :=
  h "<form method='post' action='" +++ action +++ h "'><input type='hidden' name='_token' value='" +++ esc token +++ h "'><input type='hidden' name='direction' value='" +++
  itoa direction +++ h "'><button class='secondary-button'>" +++ label +++ "</button></form>".
Definition toggle_form (token language mid : string) (m : AdminModule) : string :=
  let enabled := if negb (am_Enabled m) then "true" else "false" in
  let label := if am_Enabled m then configText language "Désactiver" "Disable" else configText language "Activer" "Enable" in
  h "<form class='inline-form' method='post' action='/modules/" +++ mid +++ h "/toggle'><input type='hidden' name='_token' value='" +++ esc token +++
  h "'><input type='hidden' name='enabled' value='" +++ enabled +++ h "'><button class='secondary-button module-toggle-button'>" +++ label +++ "</button></form>".
Definition module_row (token language : string) (m : AdminModule) : string :=
  let mid := itoa (am_ID m) in
  let t := configText language in
  let state := if am_Enabled m then t "Activé" "Enabled" else t "Désactivé" "Disabled" in
  h "<tr class='modules-page__module' draggable='true' data-navigation-module data-module-id='" +++ mid +++
  h "'><td class='modules-order'><button class='drag-handle' type='button' data-navigation-module-handle aria-label='" +++ t "Déplacer le module" "Move module" +++
  h "'>☰</button><span class='fallback-move-actions'>" +++ moveForm ("/modules/" +++ mid +++ "/move") (-1) "↑" token +++
  moveForm ("/modules/" +++ mid +++ "/move") 1 "↓" token +++ h "</span></td><th><div class='module-name-line'><span>" +++ esc (am_Icon m +++ " " +++ am_Name m) +++
  "</span>" +++
  (if negb (am_Essential m) then toggle_form token language mid m else h "<small class='muted'>" +++ t "essentiel" "essential" +++ "</small>") +++
  "</div></th><td><code>" +++ esc (am_Route m) +++ "</code></td><td>" +++ esc (am_AccessPolicy m) +++ "</td><td>" +++ state +++ "</td></tr>".
Definition category_body (token language id : string) (modules : list AdminModule) : string :=
  let t := configText language in
  match modules with
  | [] =>
      h "<div class='table-scroll'><table class='data-table'><tbody data-navigation-module-list><tr data-navigation-empty-row><td class='muted'>" +++
      t "Déposez un module dans cette catégorie." "Drop a module into this category." +++
      h "</td></tr></tbody></table></div><form method='post' action='/modules/categories/" +++ id +++
      h "/delete'><input type='hidden' name='_token' value='" +++ esc token +++ h "'><button class='danger-button'>" +++
      t "Supprimer la catégorie" "Delete category" +++ "</button></form>"
  | _ =>
      h "<div class='table-scroll'><table class='data-table modules-table'><thead><tr><th>" +++ t "Ordre" "Order" +++ "</th><th>Module</th><th>Route</th><th>" +++
      t "Accès" "Access" +++ "</th><th>" +++ t "État" "Status" +++ "</th></tr></thead><tbody data-navigation-module-list>" +++
      glue (module_row token language <$> modules) +++ "</tbody></table></div>"
  end.
Definition admin_category (token language : string) (c : AdminCategory) : string :=
  let id := itoa (ac_ID c) in
  let t := configText language in
  let move := "/modules/categories/" +++ id +++ "/move" in
  h "<section class='content-card modules-page__category' data-navigation-category data-category-id='" +++ id +++
  h "'><header class='modules-page__category-header'><button class='drag-handle' type='button' draggable='true' data-navigation-category-handle aria-label='" +++
  t "Déplacer la catégorie" "Move category" +++ h "'>☰</button><form class='selector-form' method='post' action='/modules/categories/" +++ id +++
  h "/rename'><input type='hidden' name='_token' value='" +++ esc token +++ h "'><input name='name' value='" +++ esc (ac_Name c) +++
  h "' minlength='2' maxlength='64' required><button class='secondary-button'>" +++ t "Renommer" "Rename" +++
  h "</button></form><div class='header-actions fallback-move-actions'>" +++ moveForm move (-1) (t "Monter" "Move up") token +++
  moveForm move 1 (t "Descendre" "Move down") token +++ "</div></header>" +++ category_body token language id (ac_Modules c) +++ "</section>".
Definition renderAdminNavigation (items : list AdminCategory) (token language : string) : string := glue (admin_category token language <$> items).
Definition modules_texts : list (string * string) :=
  [(h "lang='fr'", h "lang='en'"); ("Organisez le menu, ses catégories et les modules disponibles.", "Organize the menu, its categories and available modules.");
   ("Se déconnecter", "Sign out"); ("La navigation a été mise à jour.", "Navigation was updated."); ("Organisation du menu", "Menu organization");
   ("Faites glisser les poignées pour déplacer une catégorie ou un module. Un module peut passer d’une catégorie à une autre.", "Drag the handles to move a category or module. A module can be moved between categories.");
   ("Nouvelle catégorie", "New category"); ("Ajouter", "Add")].
Definition localizeModulesHTML (value language : string) : string := if negb (String.eqb language "en") then value else Replace modules_texts value.

(** ** The settings *)

Definition renderSMTPSecurity (chosen : string) : string :=
  glue ((λ o, option_ o.1 o.2 (String.eqb o.1 chosen)) <$> [("none", "Aucun"); ("starttls", "STARTTLS"); ("tls", "TLS implicite (SMTPS, SSL)")]).
Definition smtpPasswordMask (configured : bool) : string := if configured then "************" else "".
Definition smtpPasswordStatus (configured : bool) : string :=
  if configured then h "<span class='status-badge status-badge--success'>Mot de passe enregistré</span>"
  else h "<span class='muted'>Aucun mot de passe enregistré.</span>".
Definition renderLanguageOptions (chosen : string) : string :=
  glue ((λ o, option_ o.1 o.2 (String.eqb o.1 chosen)) <$> [("fr", "Français"); ("en", "English")]).
Definition renderSettingLogSources (sources : option (list string)) (chosen : string) : string :=
  match sources with
  | None => h "<input type='hidden' name='default_log' value='" +++ esc chosen +++ h "'><select disabled><option>Journaux indisponibles</option></select>"
  | Some sources =>
      h "<select name='default_log'><option value=''>Premier journal disponible</option>" +++
      glue ((λ source, option_ (esc source) (esc source) (String.eqb source chosen)) <$> sources) +++ "</select>"
  end.
Definition settings_texts : list (string * string) :=
  [(h "lang='fr'", h "lang='en'"); ("Mot de passe enregistré", "Password saved"); ("Aucun mot de passe enregistré.", "No password saved.");
   ("Enregistrer la configuration SMTP", "Save SMTP configuration"); ("Restaurer la sauvegarde", "Restore backup"); ("Paramètres", "Settings");
   ("Préférences applicatives et accès d’administration", "Application preferences and administration access"); ("Tableau de bord", "Dashboard");
   ("Se déconnecter", "Sign out"); ("Les paramètres ont été enregistrés.", "Settings were saved."); ("Préférences", "Preferences");
   ("Langue par défaut de l’interface et de la page de connexion", "Default language for the interface and login page");
   ("Journal ouvert par défaut", "Default log to open"); ("Adresse e-mail utilisée par défaut pour les certificats", "Default email address for certificates");
   ("Enregistrer", "Save"); ("Serveur de messagerie SMTP", "SMTP mail server");
   ("Ces paramètres seront utilisés pour les futurs envois de notifications. Le mot de passe est chiffré avant son enregistrement en base de données.", "These settings will be used for future notifications. The password is encrypted before being stored in the database.");
   ("Serveur Host", "Server host"); ("Nom utilisateur (login)", "Username (login)"); ("Mot de passe", "Password"); ("Mot de passe enregistré", "Password saved");
   ("Aucun mot de passe enregistré.", "No password saved."); ("Effacer le mot de passe enregistré", "Clear saved password");
   ("TLS implicite (SMTPS, SSL)", "Implicit TLS (SMTPS, SSL)"); ("Aucun", "None"); ("Enregistrer la configuration SMTP", "Save SMTP configuration");
   ("Accès HTTPS dédié", "Dedicated HTTPS access"); ("Accès activé", "Access enabled"); ("Adresses d’écoute", "Listening addresses");
   ("IP ou réseau autorisé", "Allowed IP or network"); ("Appliquer et recharger Apache", "Apply and reload Apache"); ("Sauvegarde SQLite", "SQLite backup");
   ("Télécharger une sauvegarde cohérente", "Download a consistent backup"); ("Restaurer", "Restore");
   ("Je confirme le remplacement de la base active", "I confirm replacement of the active database"); ("Restaurer la sauvegarde", "Restore backup");
   ("Journaux indisponibles", "Logs unavailable")].
Definition localizeSettingsHTML (value language : string) : string := if negb (String.eqb language "en") then value else Replace settings_texts value.

(** The texts are translated in the values of the fields too. *)
Example name_translated : localizeUsersHTML (esc "Nomura") "en" = "Last nameura". Proof. vm_compute. reflexivity. Qed.
