(* ===== verification/Differences.v ===== *)
(** * What differs between two snapshots ([internal/webapp/configuration.go])

    The comparison page walks through two values of [encoding/json] and makes a row of each
    place where they differ.  Elements of two lists are matched by what identifies them: a
    virtual host by its file, name and port, a listening socket by its protocol, address and
    port, a firewall rule by all but its number, a task by its user, source and command,
    anything else by the first key that tells all of them apart.

    Values are [json] with the members of an object in the order of their keys, one per key,
    as [json.Marshal] writes them; a nil is [JNull].  Numbers are the literals
    [json.Decoder.UseNumber] keeps. *)

From S2P Require Import Prelude GoStrings StringFacts JsonParse JsonMore.
From S2P Require System.
From Stdlib Require Import Ascii String.
#[local] Open Scope string_scope.
#[local] Open Scope list_scope.
#[local] Open Scope Z_scope.

(** ** Values *)

(** [fmt.Sprint]: the elements of a slice, the entries of a map in the order of its keys. *)
Fixpoint Sprint (num : string → string) (v : json) : string :=
  match v with
  | JNull => "<nil>"
  | JBool b => if b then "true" else "false"
  | JNum literal => num literal
  | JStr s => s
  | JArr l => "[" +++ join " " (map (Sprint num) l) +++ "]"
  | JObj m => "map[" +++ join " " (map (λ kv, kv.1 +++ ":" +++ Sprint num kv.2) m) +++ "]"
  end.
Definition stringValueOf (num : string → string) (v : json) : string := match v with JNull => "" | _ => Sprint num v end.
(** Of a number kept as its literal. *)
Definition stringValueAny : json → string := stringValueOf id.
(** [m[key]]: nil when there is none. *)
Definition at_key (m : jmap) (key : string) : json := default JNull (snd <$> find (λ kv, String.eqb kv.1 key) m).
Definition has_member (m : jmap) (key : string) : bool := existsb (λ kv, String.eqb kv.1 key) m.
Definition mapValue (v : json) : option jmap := match v with JObj m => Some m | _ => None end.
Definition sliceValue (v : json) : option (list json) := match v with JArr l => Some l | _ => None end.
Definition without (key : string) (m : jmap) : jmap := List.filter (λ kv, negb (String.eqb kv.1 key)) m.
(** [structuredValuesEqual] *)
Definition structuredValuesEqual (source target : json) : bool := String.eqb (json_text source) (json_text target).

(** [filepath.Base] *)
Definition Base (path : string) : string :=
  if String.eqb path "" then "."
  else
    let trimmed := trim_right_set (Ascii.eqb "/") path in
    if String.eqb trimmed "" then "/" else List.last (split "/" trimmed) "".
Section labels.
Context `{UnicodeCase}.
Definition label_names : list (string * string) :=
  [("id", "Identifiant"); ("label", "Libellé"); ("available", "Disponible"); ("message", "Message"); ("data", "Données"); ("created_at", "Créé le");
   ("collected_at", "Collecté le"); ("read_only", "Lecture seule"); ("status", "État"); ("enabled", "Activé"); ("active", "Actif"); ("exists", "Présent");
   ("version", "Version"); ("name", "Nom"); ("type", "Type"); ("path", "Chemin"); ("size", "Taille"); ("source", "Source"); ("target", "Cible");
   ("config_file", "Fichier de configuration"); ("server_name", "Nom du serveur"); ("document_root", "Racine du site"); ("sha256", "Empreinte SHA-256");
   ("config_line", "Ligne de configuration")].
Definition configurationLabel (key : string) : string :=
  match find (λ kv, String.eqb kv.1 key) label_names with
  | Some (_, label) => label
  | None =>
      match smap (λ c, if Ascii.eqb c "_" then " "%char else c) key with
      | EmptyString => "Valeur"
      | String c rest => to_upper (String c "") +++ rest
      end
  end.
End labels.

(** ** Matching the elements of two lists *)

(** The elements by what identifies them; [None] when one cannot be identified or two are alike. *)
Definition index : Type := list (string * json).
Definition known (key : string) (r : index) : bool := existsb (λ kv, String.eqb kv.1 key) r.
(** [identify]: the key and what is compared, given the elements before. *)
Fixpoint index_items (identify : index → json → option (string * json)) (acc : index) (items : list json) : option index :=
  match items with
  | [] => Some acc
  | raw :: items =>
      match identify acc raw with
      | Some (key, v) => if known key acc then None else index_items identify (acc ++ [(key, v)]) items
      | None => None
      end
  end.
(** The keys of both sides, in order. *)
Definition union_keys (lhs rhs : index) : list string := sort_strings (lhs.*1 ++ List.filter (λ key, negb (known key lhs)) rhs.*1).
Definition matching : Type := index * index * list string.
Definition match_items (identify : index → json → option (string * json)) (source target : list json) : option matching :=
  match index_items identify [] source, index_items identify [] target with
  | Some lhs, Some rhs => if (List.length lhs + List.length rhs =? 0)%nat then None else Some (lhs, rhs, union_keys lhs rhs)
  | _, _ => None
  end.
Definition zero_byte : string := String "000" "".
Section indexes.
Context `{UnicodeCase}.
Definition apache_identity (acc : index) (raw : json) : option (string * json) :=
  match raw with
  | JObj item =>
      let s key := stringValueAny (at_key item key) in
      if String.eqb (s "config_file") "" then None
      else
        let serverName := if String.eqb (s "server_name") "" then "(sans ServerName)" else s "server_name" in
        let port := if String.eqb (s "port") "" then "(port inconnu)" else s "port" in
        let key := s "config_file" +++ zero_byte +++ to_lower serverName +++ zero_byte +++ port in
        let comparable := JObj (without "config_line" item) in
        if known key acc then
          if String.eqb (s "config_line") "" then None else Some (key +++ zero_byte +++ "ligne:" +++ s "config_line", comparable)
        else Some (key, comparable)
  | _ => None
  end.
Definition listener (protocol state address port : string) : json :=
  JObj [("address", JStr address); ("port", JStr port); ("protocol", JStr (to_lower protocol)); ("state", JStr (to_upper state))].
(** A socket as it is recorded now, or as a line of [ss]. *)
Definition normalizedListener (raw : json) : option json :=
  match raw with
  | JObj item =>
      let s key := stringValueAny (at_key item key) in
      if existsb (λ field, String.eqb (s field) "") ["protocol"; "state"; "address"; "port"] then None
      else Some (listener (s "protocol") (s "state") (s "address") (s "port"))
  | JStr line =>
      match fields line with
      | protocol :: state :: _ :: _ :: endpoint :: _ =>
          let parts := split ":" endpoint in
          if (List.length parts <? 2)%nat then None
          else
            let address := trim_prefix (trim_suffix (join ":" (removelast parts)) "]") "[" in
            let port := List.last parts "" in
            if String.eqb address "" || String.eqb port "" then None else Some (listener protocol state address port)
      | _ => None
      end
  | _ => None
  end.
Definition listener_identity (_ : index) (raw : json) : option (string * json) :=
  match normalizedListener raw with
  | Some (JObj m as item) =>
      let s key := stringValueAny (at_key m key) in Some (s "protocol" +++ zero_byte +++ s "address" +++ zero_byte +++ s "port", item)
  | _ => None
  end.
Definition firewall_fields : list string := ["action"; "destination"; "direction"; "family"; "ports"; "protocol"; "source"].
Definition firewall_identity (_ : index) (raw : json) : option (string * json) :=
  match raw with
  | JObj item =>
      if negb (forallb (has_member item) firewall_fields) then None
      else
        let value field :=
          if String.eqb field "ports" then JArr (JStr <$> sort_strings (stringValueAny <$> default [] (sliceValue (at_key item field)))) else at_key item field in
        Some (json_text (JObj ((λ field, (field, value field)) <$> firewall_fields)), JObj (without "id" item))
  | _ => None
  end.
Definition cron_identity (_ : index) (raw : json) : option (string * json) :=
  match raw with
  | JObj item =>
      let s key := stringValueAny (at_key item key) in
      if existsb (λ field, String.eqb (s field) "") ["user"; "source"; "command"; "schedule"] then None
      else Some ("task:" +++ s "user" +++ zero_byte +++ s "source" +++ zero_byte +++ s "command", JObj (without "id" (without "line" item)))
  | _ => None
  end.
Definition key_identity (identity : string) (_ : index) (raw : json) : option (string * json) :=
  match raw with
  | JObj item =>
      let key := stringValueAny (at_key item identity) in
      if has_member item identity && negb (String.eqb key "") then Some (key, raw) else None
  | _ => None
  end.
Definition candidates : list string :=
  ["name"; "filename"; "config_file"; "path"; "server_name"; "id"; "login"; "unit"; "service"; "domain"; "package"; "source"; "mount"; "address"; "device";
   "port"; "interface"].
(** The first key that identifies every element of both lists. *)
Fixpoint first_identity (l : list string) (source target : list json) : option (string * matching) :=
  match l with
  | [] => None
  | identity :: l =>
      match match_items (key_identity identity) source target with Some m => Some (identity, m) | None => first_identity l source target end
  end.
Definition indexedDifferenceItems : list json → list json → option (string * matching) := first_identity candidates.
(** Values that are no list and no object, by their text: a value that is there twice counts once. *)
Fixpoint scalar_set (acc : index) (items : list json) : option index :=
  match items with
  | [] => Some acc
  | (JArr _ | JObj _) :: _ => None
  | item :: items => scalar_set (if known (json_text item) acc then acc else acc ++ [(json_text item, item)]) items
  end.
Definition scalarDifferenceSets (source target : list json) : option matching :=
  match scalar_set [] source, scalar_set [] target with
  | Some lhs, Some rhs => Some (lhs, rhs, union_keys lhs rhs)
  | _, _ => None
  end.

(** ** Labels *)

Definition either_side (source target : json) : jmap := match mapValue source with Some m => m | None => default [] (mapValue target) end.
Definition or_text (s fallback : string) : string := if String.eqb s "" then fallback else s.
Definition apacheVirtualHostIdentityLabel (source target : json) : string :=
  let s key := stringValueAny (at_key (either_side source target) key) in
  "VirtualHost " +++ Base (s "config_file") +++ " · " +++ or_text (s "server_name") "sans ServerName" +++ " · port " +++ or_text (s "port") "inconnu".
Definition listenerDifferenceIdentityLabel (source target : json) : string :=
  let s key := stringValueAny (at_key (either_side source target) key) in
  let address := if contains (s "address") ":" then "[" +++ s "address" +++ "]" else s "address" in
  "Écoute " +++ s "protocol" +++ " " +++ address +++ ":" +++ s "port".
Definition firewallDifferenceIdentityLabel (source target : json) : string :=
  let item := either_side source target in
  let s key := stringValueAny (at_key item key) in
  let port := or_text (join "," (stringValueAny <$> default [] (sliceValue (at_key item "ports")))) "tous ports" in
  "Règle " +++ s "action" +++ " " +++ s "direction" +++ " · " +++ s "protocol" +++ " " +++ port +++ " · " +++ s "source".
Definition shortened (command : string) : string := if 72 <? rune_count command then System.take_runes 69 0 command +++ "…" else command.
Definition cronDifferenceIdentityLabel (key : string) (source target : json) : string :=
  let s key := stringValueAny (at_key (either_side source target) key) in
  if negb (String.eqb (s "user") "") && negb (String.eqb (s "command") "") then "Tâche " +++ s "user" +++ " · " +++ shortened (s "command")
  else "Tâche " +++ key.
Definition differenceIdentityLabel (identity key : string) : string :=
  if existsb (String.eqb identity) ["config_file"; "filename"; "path"] then "Fichier " +++ Base key else configurationLabel identity +++ " " +++ key.

(** ** The rows *)

Definition row : Type := list string * json * json.
(** What the two sides of a place are made of: a label, and a value on each side. *)
Definition part : Type := string * json * json.
Definition sides (label : string → json → json → string) (m : matching) : list part :=
  let '(lhs, rhs, keys) := m in
  (λ key, (label key (at_key lhs key) (at_key rhs key), at_key lhs key, at_key rhs key)) <$> keys.
(** The keys of two objects. *)
Definition member_parts (source target : jmap) : list part :=
  (λ key, (configurationLabel key, at_key source key, at_key target key)) <$>
  sort_strings (source.*1 ++ List.filter (λ key, negb (has_member source key)) target.*1).
Definition set_parts (m : matching) : list part :=
  let '(lhs, rhs, keys) := m in
  (λ key, ("Valeur " +++ stringValueAny (if known key lhs then at_key lhs key else at_key rhs key), at_key lhs key, at_key rhs key)) <$>
  List.filter (λ key, negb (known key lhs && known key rhs)) keys.
(** The elements at the same position. *)
Definition position_parts (source target : list json) : list part :=
  (λ i, ("Élément " +++ itoa (Z.of_nat i + 1), default JNull (source !! i), default JNull (target !! i))) <$>
  seq 0 (Nat.max (List.length source) (List.length target)).
Definition list_parts (source target : list json) : list part :=
  match match_items apache_identity source target with
  | Some m => sides (λ _, apacheVirtualHostIdentityLabel) m
  | None =>
      match match_items listener_identity source target with
      | Some m => sides (λ _, listenerDifferenceIdentityLabel) m
      | None =>
          match match_items firewall_identity source target with
          | Some m => sides (λ _, firewallDifferenceIdentityLabel) m
          | None =>
              match match_items cron_identity source target with
              | Some m => sides cronDifferenceIdentityLabel m
              | None =>
                  match indexedDifferenceItems source target with
                  | Some (identity, m) => sides (λ key _ _, differenceIdentityLabel identity key) m
                  | None =>
                      match scalarDifferenceSets source target with
                      | Some m => set_parts m
                      | None => position_parts source target
                      end
                  end
              end
          end
      end
  end.
(** The parts two different values are compared by; [None] when the values make a row. *)
Definition parts_of (source target : json) : option (list part) :=
  match mapValue source, mapValue target with
  | None, None =>
      match sliceValue source, sliceValue target with
      | None, None => None
      | s, t => Some (list_parts (default [] s) (default [] t))
      end
  | s, t => match member_parts (default [] s) (default [] t) with [] => None | l => Some l end
  end.
(** [renderDifferenceRows]: [fuel] bounds the depth. *)
Fixpoint difference_rows (fuel : nat) (path : list string) (source target : json) : list row :=
  match fuel with
  | O => []
  | S fuel =>
      if structuredValuesEqual source target then []
      else
        match parts_of source target with
        | None => [(path, source, target)]
        | Some parts => mjoin ((λ p : part, let '(label, s, t) := p in difference_rows fuel (path ++ [label]) s t) <$> parts)
        end
  end.
End indexes.

(** ** The walk ends *)

Definition maximum (l : list nat) : nat := foldr Nat.max 0%nat l.
(** How deep a value is; a list counts for two, since a line of [ss] becomes an object. *)
Fixpoint depth (v : json) : nat :=
  match v with
  | JArr l => 2 + maximum (map depth l)
  | JObj m => 1 + maximum (map (λ kv, depth kv.2) m)
  | _ => 0
  end.
Lemma maximum_le l n : n ∈ l → (n ≤ maximum l)%nat.
Proof. induction l as [|m l IH]; [by intros ?%not_elem_of_nil|]. change (maximum (m :: l)) with (Nat.max m (maximum l)). intros [->|?%IH]%elem_of_cons; lia. Qed.
Lemma maximum_bound l n : (∀ m, m ∈ l → (m ≤ n)%nat) → (maximum l ≤ n)%nat.
Proof.
  induction l as [|m l IH]; intros Hl; [cbn; lia|]. change (maximum (m :: l)) with (Nat.max m (maximum l)). assert (m ≤ n)%nat by (apply Hl; left). assert (maximum l ≤ n)%nat by (apply IH; intros; apply Hl; by right). lia.
Qed.
Lemma depth_member kv m : kv ∈ m → (depth kv.2 < depth (JObj m))%nat.
Proof. intros Hk. cbn [depth]. enough (depth kv.2 ≤ maximum (map (λ kv, depth kv.2) m))%nat by lia. apply maximum_le, list_elem_of_fmap. by exists kv. Qed.
Lemma depth_element v l : v ∈ l → (S (depth v) < depth (JArr l))%nat.
Proof. intros Hv. cbn [depth]. enough (depth v ≤ maximum (map depth l))%nat by lia. apply maximum_le, list_elem_of_fmap. by exists v. Qed.
Lemma at_key_cases m key : at_key m key = JNull ∨ ∃ kv, kv ∈ m ∧ at_key m key = kv.2.
Proof.
  unfold at_key. destruct (find _ m) as [kv|] eqn:Hf; [|by left]. right. exists kv. split; [|done].
  apply find_some in Hf as [Hin _]. by apply list_elem_of_In.
Qed.
Lemma at_key_depth m key : (depth (at_key m key) < depth (JObj m))%nat.
Proof. destruct (at_key_cases m key) as [->|(kv & Hk & ->)]; [cbn; lia|by apply depth_member]. Qed.
Lemma without_depth key m : (depth (JObj (without key m)) ≤ depth (JObj m))%nat.
Proof.
  cbn [depth]. apply le_n_S, maximum_bound. intros n [kv [-> Hk]]%list_elem_of_fmap. apply maximum_le, list_elem_of_fmap. exists kv. split; [done|].
  apply list_elem_of_In in Hk. apply filter_In in Hk as [Hk _]. by apply list_elem_of_In.
Qed.

(** What is compared of an element is not deeper than it, or is a flat object. *)
Definition bounded (identify : index → json → option (string * json)) : Prop :=
  ∀ acc raw key v, identify acc raw = Some (key, v) → (depth v ≤ Nat.max 1 (depth raw))%nat.
Section depth.
Context `{UnicodeCase}.
Lemma apache_bounded : bounded apache_identity.
Proof.
  intros acc raw key v. unfold apache_identity. destruct raw; try done. cbv zeta. pose proof (without_depth "config_line" m) as Hd.
  intros Hs. repeat (case_match; simplify_eq; try lia).
Qed.
Lemma normalized_depth raw v : normalizedListener raw = Some v → depth v = 1%nat.
Proof. unfold normalizedListener. destruct raw; try done; cbv zeta; intros Hs; repeat (case_match; try done); by injection Hs as <-. Qed.
Lemma listener_bounded : bounded listener_identity.
Proof.
  intros acc raw key v. unfold listener_identity. destruct (normalizedListener raw) as [item|] eqn:Hn; [|done]. apply normalized_depth in Hn.
  destruct item; try done. cbv zeta. intros [= <- <-]. rewrite Hn. lia.
Qed.
Lemma firewall_bounded : bounded firewall_identity.
Proof.
  intros acc raw key v. unfold firewall_identity. destruct raw; try done. cbv zeta. pose proof (without_depth "id" m) as Hd.
  case_match; [done|]. intros [= <- <-]. lia.
Qed.
Lemma cron_bounded : bounded cron_identity.
Proof.
  intros acc raw key v. unfold cron_identity. destruct raw; try done. cbv zeta. pose proof (without_depth "id" (without "line" m)) as Hd.
  pose proof (without_depth "line" m) as Hl. case_match; [done|]. intros [= <- <-]. lia.
Qed.
Lemma key_bounded identity : bounded (key_identity identity).
Proof. intros acc raw key v. unfold key_identity. destruct raw; try done. case_match; [|done]. intros [= <- <-]. lia. Qed.
Lemma index_depth identify n items : bounded identify → ∀ acc r, index_items identify acc items = Some r →
  (∀ kv, kv ∈ acc → (depth kv.2 < n)%nat) → (1 < n)%nat → (∀ v, v ∈ items → (depth v < n)%nat) → ∀ kv, kv ∈ r → (depth kv.2 < n)%nat.
Proof.
  intros Hb. induction items as [|raw items IH]; intros acc r; cbn [index_items]; [by intros [= <-]|].
  destruct (identify acc raw) as [[key v]|] eqn:Hi; [|done]. destruct (known key acc); [done|]. intros Hr Ha Hn Hv.
  apply (IH _ _ Hr); [|done|intros; apply Hv; by right]. intros kv [Hk| ->%list_elem_of_singleton]%elem_of_app; [by apply Ha|].
  cbn. apply Hb in Hi. assert (depth raw < n)%nat by (apply Hv; left). lia.
Qed.
Lemma matched_depth identify source target m n : bounded identify → match_items identify source target = Some m → (1 < n)%nat →
  (∀ v, v ∈ source ++ target → (depth v < n)%nat) → ∀ key, (depth (at_key m.1.1 key) < n)%nat ∧ (depth (at_key m.1.2 key) < n)%nat.
Proof.
  intros Hb Hm Hn Hv key. unfold match_items in Hm. destruct (index_items identify [] source) as [l|] eqn:Hl; [|done].
  destruct (index_items identify [] target) as [r|] eqn:Hr; [|done]. case_match; [done|]. injection Hm as <-. cbn [fst snd].
  assert (∀ acc items, index_items identify [] items = Some acc → (∀ v, v ∈ items → (depth v < n)%nat) → (depth (at_key acc key) < n)%nat) as Ha.
  { intros acc items Hi Hd. destruct (at_key_cases acc key) as [->|(kv & Hk & ->)]; [cbn; lia|].
    eapply (index_depth identify n items); [done|done| |done|done|done]. by intros ? ?%not_elem_of_nil. }
  split; [apply (Ha _ _ Hl)|apply (Ha _ _ Hr)]; intros; apply Hv, elem_of_app; auto.
Qed.
Lemma sides_depth label m n p : (∀ key, (depth (at_key m.1.1 key) < n)%nat ∧ (depth (at_key m.1.2 key) < n)%nat) → p ∈ sides label m →
  (depth p.1.2 < n ∧ depth p.2 < n)%nat.
Proof. destruct m as [[l r] keys]. intros Hd [key [-> _]]%list_elem_of_fmap. apply Hd. Qed.
Lemma scalar_depth acc items r key : scalar_set acc items = Some r → (∀ kv, kv ∈ acc → depth kv.2 = 0%nat) → depth (at_key r key) = 0%nat.
Proof.
  revert acc. induction items as [|v items IH]; intros acc; cbn [scalar_set].
  - intros [= <-] Ha. destruct (at_key_cases acc key) as [->|(kv & Hk & ->)]; [done|by apply Ha].
  - intros Hs Ha. destruct v; try done; (apply (IH _ Hs); case_match; [done|]; intros kv [Hk| ->%list_elem_of_singleton]%elem_of_app; [by apply Ha|done]).
Qed.
Lemma identity_depth l source target identity m n : first_identity l source target = Some (identity, m) → (1 < n)%nat →
  (∀ v, v ∈ source ++ target → (depth v < n)%nat) → ∀ key, (depth (at_key m.1.1 key) < n)%nat ∧ (depth (at_key m.1.2 key) < n)%nat.
Proof.
  induction l as [|c l IH]; [done|]. cbn [first_identity]. destruct (match_items _ _ _) as [m'|] eqn:Hm; [|apply IH].
  intros [= <- <-]. by eapply matched_depth; [apply key_bounded|..].
Qed.
Lemma list_parts_depth source target n p : (1 < n)%nat → (∀ v, v ∈ source ++ target → (depth v < n)%nat) → p ∈ list_parts source target →
  (depth p.1.2 < n ∧ depth p.2 < n)%nat.
Proof.
  intros Hn Hv. unfold list_parts.
  destruct (match_items apache_identity _ _) eqn:H1; [apply sides_depth; by eapply matched_depth; [apply apache_bounded|..]|].
  destruct (match_items listener_identity _ _) eqn:H2; [apply sides_depth; by eapply matched_depth; [apply listener_bounded|..]|].
  destruct (match_items firewall_identity _ _) eqn:H3; [apply sides_depth; by eapply matched_depth; [apply firewall_bounded|..]|].
  destruct (match_items cron_identity _ _) eqn:H4; [apply sides_depth; by eapply matched_depth; [apply cron_bounded|..]|].
  destruct (indexedDifferenceItems _ _) as [[identity m]|] eqn:H5; [apply sides_depth; by eapply identity_depth|].
  unfold scalarDifferenceSets. destruct (scalar_set [] source) as [l|] eqn:Hl; [destruct (scalar_set [] target) as [r|] eqn:Hr|].
  1: { intros [key [-> _]]%list_elem_of_fmap. cbn [fst snd].
       rewrite (scalar_depth [] source l key), (scalar_depth [] target r key) by (try done; by intros ? ?%not_elem_of_nil). lia. }
  all: intros [i [-> _]]%list_elem_of_fmap; cbn [fst snd];
    assert (∀ k : list json, (∀ v, v ∈ k → (depth v < n)%nat) → (depth (default JNull (k !! i)) < n)%nat) as Hd
      by (intros k Hk; destruct (k !! i) eqn:Hi; [by apply Hk; eapply list_elem_of_lookup_2|cbn; lia]);
    split; apply Hd; intros; apply Hv, elem_of_app; auto.
Qed.
(** Every part is less deep than the deeper of the two values. *)
Lemma member_parts_depth source target n p : (0 < n)%nat → (depth (JObj source) ≤ n)%nat → (depth (JObj target) ≤ n)%nat →
  p ∈ member_parts source target → (depth p.1.2 < n ∧ depth p.2 < n)%nat.
Proof.
  intros Hn Hs Ht [key [-> _]]%list_elem_of_fmap. pose proof (at_key_depth source key). pose proof (at_key_depth target key). cbn [fst snd]. lia.
Qed.
Lemma default_members v n : (1 ≤ n)%nat → (depth v ≤ n)%nat → (depth (JObj (default [] (mapValue v))) ≤ n)%nat.
Proof. intros Hn Hv. destruct v; try (cbn; lia). done. Qed.
Lemma default_elements u v n : (1 < n)%nat → (depth u ≤ n)%nat → (depth v ≤ n)%nat →
  ∀ w, w ∈ default [] (sliceValue u) ++ default [] (sliceValue v) → (depth w < n)%nat.
Proof.
  intros Hn Hu Hv w [Hw|Hw]%elem_of_app; [destruct u as [| | | |l|]|destruct v as [| | | |l|]]; simpl in Hw;
    try (by apply not_elem_of_nil in Hw); apply depth_element in Hw; lia.
Qed.
Lemma parts_depth source target parts n p : parts_of source target = Some parts → (depth source ≤ n)%nat → (depth target ≤ n)%nat →
  p ∈ parts → (depth p.1.2 < n ∧ depth p.2 < n)%nat.
Proof.
  intros Hp Hs Ht Hin. assert (mapValue source ≠ None ∨ mapValue target ≠ None ∨ sliceValue source ≠ None ∨ sliceValue target ≠ None) as Hcase.
  { unfold parts_of in Hp. destruct (mapValue source), (mapValue target), (sliceValue source), (sliceValue target); auto; discriminate. }
  destruct (mapValue source) as [s|] eqn:Hms, (mapValue target) as [t|] eqn:Hmt; unfold parts_of in Hp; rewrite Hms, Hmt in Hp.
  1-3: assert (1 ≤ n)%nat by (destruct source, target; try done; cbn [depth] in Hs, Ht; lia);
    assert (p ∈ member_parts (default [] (mapValue source)) (default [] (mapValue target))) as Hm
      by (rewrite Hms, Hmt; destruct (member_parts _ _); by simplify_eq);
    revert Hm; by apply member_parts_depth; [lia|apply default_members..].
  assert (1 < n)%nat as Hn by (destruct source, target; try (cbn [depth] in Hs, Ht; lia); by (destruct Hcase as [?|[?|[?|?]]])).
  assert (p ∈ list_parts (default [] (sliceValue source)) (default [] (sliceValue target))) as Hl
    by (destruct (sliceValue source), (sliceValue target); by simplify_eq).
  revert Hl. apply list_parts_depth; [done|]. by apply default_elements.
Qed.
Lemma rows_enough fuel more : ∀ path source target, (depth source < fuel)%nat → (depth target < fuel)%nat → (fuel ≤ more)%nat →
  difference_rows more path source target = difference_rows fuel path source target.
Proof.
  revert more. induction fuel as [|fuel IH]; intros more path source target Hs Ht Hm; [lia|]. destruct more as [|more]; [lia|].
  cbn [difference_rows]. destruct (structuredValuesEqual _ _); [done|]. destruct (parts_of source target) as [parts|] eqn:Hp; [|done].
  f_equal. apply list_fmap_ext. intros i [[label s] t] Hi%list_elem_of_lookup_2.
  destruct (parts_depth source target parts fuel (label, s, t)) as [? ?]; [done|lia|lia|done|]. by apply IH; [..|lia].
Qed.
Lemma rows_differ fuel : ∀ path source target r, r ∈ difference_rows fuel path source target →
  structuredValuesEqual r.1.2 r.2 = false ∧ path `prefix_of` r.1.1.
Proof.
  induction fuel as [|fuel IH]; intros path source target r; cbn [difference_rows]; [by intros ?%not_elem_of_nil|].
  destruct (structuredValuesEqual source target) eqn:He; [by intros ?%not_elem_of_nil|].
  destruct (parts_of source target) as [parts|]; [|by intros ->%list_elem_of_singleton].
  intros [l [Hr [[[label s] t] [-> _]]%list_elem_of_fmap]]%list_elem_of_join. apply IH in Hr as [? Hp]. split; [done|].
  etrans; [|exact Hp]. by eexists.
Qed.

(** ** What the rows are *)

Definition members (v : json) : jmap := default [] (mapValue v).
Definition elements (v : json) : list json := default [] (sliceValue v).
Definition is_object (v : json) : Prop := is_Some (mapValue v).
Definition is_list (v : json) : Prop := is_Some (sliceValue v).

(** Each element has a key, which no other element of its list has, and a value that is compared. *)
Inductive identified (identify : index → json → option (string * json)) : list json → index → Prop :=
| identified_none : identified identify [] []
| identified_one items r raw key v : identified identify items r → identify r raw = Some (key, v) → key ∉ r.*1 →
    identified identify (items ++ [raw]) (r ++ [(key, v)]).
(** The ways to match the elements of two lists, in order of preference, with the label of a pair. *)
Definition strategy : Type := (index → json → option (string * json)) * (string → json → json → string).
Definition strategies : list strategy :=
  [(apache_identity, λ _, apacheVirtualHostIdentityLabel); (listener_identity, λ _, listenerDifferenceIdentityLabel);
   (firewall_identity, λ _, firewallDifferenceIdentityLabel); (cron_identity, cronDifferenceIdentityLabel)]
  ++ map (λ identity, (key_identity identity, λ key _ _, differenceIdentityLabel identity key)) candidates.
Definition applies (st : strategy) (source target : list json) : Prop :=
  (∃ lhs, identified st.1 source lhs) ∧ (∃ rhs, identified st.1 target rhs) ∧ source ++ target ≠ [].
Definition preferred (st : strategy) (source target : list json) : Prop :=
  ∃ before after, strategies = before ++ st :: after ∧ applies st source target ∧ Forall (λ st, ¬ applies st source target) before.
Definition scalar (v : json) : bool := match v with JArr _ | JObj _ => false | _ => true end.
Definition value_with (text : string) (l : list json) : json := default JNull (find (λ v, String.eqb (json_text v) text) l).

(** The places two different values are compared at: every key of two objects; every element of two lists with the one of the
    same key on the other side, or with nothing; every value that is in one list of scalars only; or the elements at each
    position. *)
Inductive part_of (source target : json) : part → Prop :=
| of_member key : is_object source ∨ is_object target → key ∈ (members source).*1 ∨ key ∈ (members target).*1 →
    part_of source target (configurationLabel key, at_key (members source) key, at_key (members target) key)
| of_element st lhs rhs key : ¬ is_object source → ¬ is_object target →
    preferred st (elements source) (elements target) → identified st.1 (elements source) lhs → identified st.1 (elements target) rhs →
    key ∈ lhs.*1 ∨ key ∈ rhs.*1 →
    part_of source target (st.2 key (at_key lhs key) (at_key rhs key), at_key lhs key, at_key rhs key)
| of_value text : ¬ is_object source → ¬ is_object target →
    Forall (λ st, ¬ applies st (elements source) (elements target)) strategies → forallb scalar (elements source ++ elements target) = true →
    (text ∈ json_text <$> elements source) ∧ (text ∉ json_text <$> elements target) ∨
    (text ∉ json_text <$> elements source) ∧ (text ∈ json_text <$> elements target) →
    part_of source target ("Valeur " +++ stringValueAny (value_with text (elements source ++ elements target)),
      value_with text (elements source), value_with text (elements target))
| of_position i : ¬ is_object source → ¬ is_object target →
    Forall (λ st, ¬ applies st (elements source) (elements target)) strategies → forallb scalar (elements source ++ elements target) = false →
    (i < Nat.max (List.length (elements source)) (List.length (elements target)))%nat →
    part_of source target ("Élément " +++ itoa (Z.of_nat i + 1), default JNull (elements source !! i), default JNull (elements target !! i)).
(** Values that are compared as they are. *)
Definition leaf (source target : json) : Prop :=
  members source = [] ∧ members target = [] ∧ (is_object source ∨ is_object target ∨ (¬ is_list source ∧ ¬ is_list target)).
(** A row: a leaf where the values differ, reached through places where they differ, its path made of the labels of these. *)
Inductive differs : list string → json → json → row → Prop :=
| differs_here path source target : structuredValuesEqual source target = false → leaf source target → differs path source target (path, source, target)
| differs_within path source target label s t r : structuredValuesEqual source target = false → part_of source target (label, s, t) →
    differs (path ++ [label]) s t r → differs path source target r.

Lemma known_elem key (r : index) : known key r = true ↔ key ∈ r.*1.
Proof.
  unfold known. rewrite existsb_exists. split.
  - intros (kv & Hin & He). apply String.eqb_eq in He as <-. apply list_elem_of_In in Hin. by apply list_elem_of_fmap_2.
  - intros (kv & -> & Hin)%list_elem_of_fmap. exists kv. split; [by apply list_elem_of_In|apply String.eqb_refl].
Qed.
Lemma index_items_app identify items raw : ∀ acc,
  index_items identify acc (items ++ [raw]) =
  match index_items identify acc items with Some r => index_items identify r [raw] | None => None end.
Proof.
  induction items as [|x items IH]; intros acc; [done|]. cbn [index_items app]. destruct (identify acc x) as [[key v]|]; [|done].
  destruct (known key acc); [done|apply IH].
Qed.
Lemma index_items_spec identify items r : index_items identify [] items = Some r ↔ identified identify items r.
Proof.
  split.
  - revert r. induction items as [|raw items IH] using rev_ind; intros r; [intros [= <-]; constructor|]. rewrite index_items_app.
    destruct (index_items identify [] items) as [r0|]; [|done]. specialize (IH r0 eq_refl). cbn [index_items].
    destruct (identify r0 raw) as [[key v]|] eqn:Hi; [|done]. destruct (known key r0) eqn:Hk; [done|]. intros [= <-].
    constructor; [done|done|]. by rewrite <- known_elem, Hk.
  - induction 1 as [|items r raw key v _ IH Hi Hk]; [done|]. rewrite index_items_app, IH. cbn [index_items]. rewrite Hi.
    rewrite <- known_elem in Hk. by destruct (known key r).
Qed.
Lemma identified_length identify items r : identified identify items r → List.length r = List.length items.
Proof. induction 1; [done|]. rewrite !length_app. by f_equal. Qed.
Lemma elem_of_kept {A} (keep : A → bool) (l : list A) x : x ∈ List.filter keep l ↔ x ∈ l ∧ keep x = true.
Proof. by rewrite !list_elem_of_In, filter_In. Qed.
Lemma union_keys_elem lhs rhs key : key ∈ union_keys lhs rhs ↔ key ∈ lhs.*1 ∨ key ∈ rhs.*1.
Proof.
  unfold union_keys. rewrite elem_of_sort_strings, elem_of_app, elem_of_kept, negb_true_iff. destruct (known key lhs) eqn:Hk; [apply known_elem in Hk; naive_solver|].
  assert (key ∉ lhs.*1) by (by rewrite <- known_elem, Hk). naive_solver.
Qed.
Lemma match_items_spec identify source target :
  match match_items identify source target with
  | Some (lhs, rhs, keys) =>
      identified identify source lhs ∧ identified identify target rhs ∧ source ++ target ≠ [] ∧ keys = union_keys lhs rhs
  | None => ∀ label, ¬ applies (identify, label) source target
  end.
Proof.
  unfold match_items, applies. cbn [fst].
  destruct (index_items identify [] source) as [lhs|] eqn:Hl; [|intros label ([x Hx%index_items_spec] & _); congruence].
  destruct (index_items identify [] target) as [rhs|] eqn:Hr; [|intros label (_ & [x Hx%index_items_spec] & _); congruence].
  apply index_items_spec in Hl, Hr. pose proof (identified_length _ _ _ Hl). pose proof (identified_length _ _ _ Hr).
  destruct (Nat.eqb_spec (List.length lhs + List.length rhs) 0) as [Hz|Hz].
  - intros label (_ & _ & Hne). apply Hne. destruct source, target; (done || (cbn in *; lia)).
  - split_and!; [done..| |done]. intros [-> ->]%app_nil. cbn in *. lia.
Qed.
Lemma sides_elem label lhs rhs x : x ∈ sides label (lhs, rhs, union_keys lhs rhs) ↔
  ∃ key, (key ∈ lhs.*1 ∨ key ∈ rhs.*1) ∧ x = (label key (at_key lhs key) (at_key rhs key), at_key lhs key, at_key rhs key).
Proof.
  unfold sides. rewrite list_elem_of_fmap. split.
  - intros (key & -> & Hk%union_keys_elem). by exists key.
  - intros (key & Hk & ->). exists key. by rewrite union_keys_elem.
Qed.
(** The first strategy that applies, as a list of strategies is gone through. *)
Fixpoint first_match (l : list strategy) (source target : list json) : option (list part) :=
  match l with
  | [] => None
  | st :: l => match match_items st.1 source target with Some m => Some (sides st.2 m) | None => first_match l source target end
  end.
Lemma first_match_app l1 l2 source target :
  first_match (l1 ++ l2) source target = match first_match l1 source target with Some x => Some x | None => first_match l2 source target end.
Proof. induction l1 as [|st l1 IH]; [done|]. cbn [app first_match]. by destruct (match_items _ _ _). Qed.
Lemma first_identity_match l source target :
  (λ x : string * matching, sides (λ key _ _, differenceIdentityLabel x.1 key) x.2) <$> first_identity l source target =
  first_match (map (λ identity, (key_identity identity, λ key _ _, differenceIdentityLabel identity key)) l) source target.
Proof. induction l as [|identity l IH]; [done|]. cbn [first_identity map first_match fst snd]. by destruct (match_items _ _ _). Qed.
Lemma list_parts_match source target : list_parts source target =
  match first_match strategies source target with
  | Some l => l
  | None => match scalarDifferenceSets source target with Some m => set_parts m | None => position_parts source target end
  end.
Proof.
  unfold list_parts, strategies. rewrite first_match_app, <- first_identity_match. cbn [first_match fst snd]. unfold indexedDifferenceItems.
  destruct (match_items apache_identity _ _); [done|]. destruct (match_items listener_identity _ _); [done|].
  destruct (match_items firewall_identity _ _); [done|]. destruct (match_items cron_identity _ _); [done|].
  by destruct (first_identity _ _ _) as [[identity m]|].
Qed.
Lemma first_match_spec l source target :
  match first_match l source target with
  | Some parts => ∃ before st after lhs rhs, l = before ++ st :: after ∧ Forall (λ st, ¬ applies st source target) before ∧
      applies st source target ∧ identified st.1 source lhs ∧ identified st.1 target rhs ∧ parts = sides st.2 (lhs, rhs, union_keys lhs rhs)
  | None => Forall (λ st, ¬ applies st source target) l
  end.
Proof.
  induction l as [|[identify label] l IH]; [constructor|]. cbn [first_match fst snd]. pose proof (match_items_spec identify source target) as Hm.
  destruct (match_items identify source target) as [[[lhs rhs] keys]|].
  - destruct Hm as (Hl & Hr & Hne & ->). exists [], (identify, label), l, lhs, rhs. split; [done|]. split; [constructor|].
    split; [|by split_and!]. split; [by exists lhs|]. split; [by exists rhs|done].
  - destruct (first_match l source target) as [parts|]; [|by constructor].
    destruct IH as (before & st & after & lhs & rhs & -> & Hb & Hrest). exists ((identify, label) :: before), st, after, lhs, rhs.
    split; [done|]. split; [by constructor|exact Hrest].
Qed.
Lemma identified_fun identify items r r' : identified identify items r → identified identify items r' → r = r'.
Proof. rewrite <- !index_items_spec. congruence. Qed.
Lemma preferred_fun st st' source target : preferred st source target → preferred st' source target → st = st'.
Proof.
  intros (b & a & E & Ha & Hb) (b' & a' & E' & Ha' & Hb'). rewrite E in E'. clear E. revert b' Hb' E'.
  induction Hb as [|x b Hx Hb IH]; intros [|x' b'] Hb'; cbn [app]; intros E; injection E.
  - done.
  - intros _ ->. by apply Forall_cons in Hb' as [? _].
  - intros _ <-. done.
  - intros E' _. apply Forall_cons in Hb' as [_ Hb']. by eapply IH.
Qed.
(** Lists of scalars, by their texts. *)
Lemma at_key_app key (acc : index) kv : at_key (acc ++ [kv]) key = if known key acc then at_key acc key else if String.eqb kv.1 key then kv.2 else JNull.
Proof.
  unfold at_key, known. induction acc as [|x acc IH]; cbn [app find existsb]; [by destruct (String.eqb kv.1 key)|].
  destruct (String.eqb x.1 key); [done|exact IH].
Qed.
Lemma scalar_set_spec items : ∀ acc,
  match scalar_set acc items with
  | Some r => forallb scalar items = true ∧ ∀ key, (known key r = known key acc || existsb (λ v, String.eqb (json_text v) key) items) ∧
      at_key r key = if known key acc then at_key acc key else value_with key items
  | None => forallb scalar items = false
  end.
Proof.
  induction items as [|v items IH]; intros acc.
  { split; [done|]. intros key. rewrite orb_false_r. split; [done|]. unfold value_with. cbn [find]. unfold at_key.
    destruct (known key acc) eqn:Hk; [done|]. destruct (find _ acc) as [kv|] eqn:Hf; [|done]. apply find_some in Hf as [Hin He].
    apply not_true_iff_false in Hk. destruct Hk. unfold known. apply existsb_exists. by exists kv. }
  cbn [scalar_set forallb existsb]. destruct (scalar v) eqn:Hv; [|by destruct v].
  specialize (IH (if known (json_text v) acc then acc else acc ++ [(json_text v, v)])).
  assert (scalar_set acc (v :: items) = scalar_set (if known (json_text v) acc then acc else acc ++ [(json_text v, v)]) items) as E by (by destruct v).
  cbn [scalar_set] in E. rewrite E. destruct (scalar_set _ items) as [r|]; [|done]. destruct IH as [Hs IH]. split; [done|]. intros key. destruct (IH key) as [-> ->].
  unfold value_with. cbn [find]. destruct (known (json_text v) acc) eqn:Hk.
  - destruct (String.eqb_spec (json_text v) key) as [<-|]; [by rewrite Hk|done].
  - assert (known key (acc ++ [(json_text v, v)]) = known key acc || String.eqb (json_text v) key) as ->
      by (unfold known; rewrite existsb_app; cbn [existsb fst]; by rewrite orb_false_r).
    rewrite at_key_app. cbn [fst snd]. destruct (known key acc); [by rewrite orb_true_l|]. by destruct (String.eqb (json_text v) key).
Qed.
Lemma exists_text text l : existsb (λ v, String.eqb (json_text v) text) l = true ↔ text ∈ json_text <$> l.
Proof.
  rewrite existsb_exists, list_elem_of_fmap. split.
  - intros (v & Hin & He). apply String.eqb_eq in He as <-. exists v. by rewrite list_elem_of_In.
  - intros (v & -> & Hin). exists v. rewrite <- list_elem_of_In. by rewrite String.eqb_refl.
Qed.
Lemma value_with_app text l k : value_with text (l ++ k) = if existsb (λ v, String.eqb (json_text v) text) l then value_with text l else value_with text k.
Proof. unfold value_with. induction l as [|v l IH]; [done|]. cbn [app find existsb]. by destruct (String.eqb (json_text v) text). Qed.
Lemma value_with_left text l k : text ∈ json_text <$> l → value_with text (l ++ k) = value_with text l.
Proof. rewrite <- exists_text, value_with_app. by intros ->. Qed.
Lemma value_with_right text l k : text ∉ json_text <$> l → value_with text (l ++ k) = value_with text k.
Proof. rewrite <- exists_text, value_with_app. by destruct (existsb _ l). Qed.
Lemma set_parts_elem source target m x : scalarDifferenceSets source target = Some m →
  x ∈ set_parts m ↔ ∃ text,
    ((text ∈ json_text <$> source) ∧ (text ∉ json_text <$> target) ∨ (text ∉ json_text <$> source) ∧ (text ∈ json_text <$> target)) ∧
    x = ("Valeur " +++ stringValueAny (value_with text (source ++ target)), value_with text source, value_with text target).
Proof.
  unfold scalarDifferenceSets. pose proof (scalar_set_spec source []) as Hs. pose proof (scalar_set_spec target []) as Ht.
  destruct (scalar_set [] source) as [lhs|]; [|done]. destruct (scalar_set [] target) as [rhs|]; [|done]. intros [= <-]. cbn [set_parts].
  destruct Hs as [_ Hs], Ht as [_ Ht].
  assert (∀ key, known key lhs = true ↔ key ∈ json_text <$> source) as Kl by (intros key; rewrite (proj1 (Hs key)); apply exists_text).
  assert (∀ key, known key rhs = true ↔ key ∈ json_text <$> target) as Kr by (intros key; rewrite (proj1 (Ht key)); apply exists_text).
  assert (∀ key, at_key lhs key = value_with key source) as Al by (intros key; by rewrite (proj2 (Hs key))).
  assert (∀ key, at_key rhs key = value_with key target) as Ar by (intros key; by rewrite (proj2 (Ht key))).
  assert (∀ key, (if known key lhs then at_key lhs key else at_key rhs key) = value_with key (source ++ target)) as Ab.
  { intros key. rewrite Al, Ar. destruct (known key lhs) eqn:Hk; [apply Kl in Hk; by rewrite value_with_left|].
    rewrite value_with_right; [done|]. rewrite <- Kl, Hk. done. }
  rewrite list_elem_of_fmap. split.
  - intros (key & -> & [Hu%union_keys_elem Hb]%elem_of_kept). exists key. rewrite Ab, Al, Ar. split; [|done].
    rewrite <- !known_elem in Hu. rewrite <- Kl, <- Kr. destruct (known key lhs), (known key rhs); naive_solver.
  - intros (key & Hk & ->). exists key. rewrite Ab, Al, Ar. split; [done|]. rewrite elem_of_kept, union_keys_elem, <- !known_elem.
    rewrite <- Kl, <- Kr in Hk. destruct (known key lhs), (known key rhs); naive_solver.
Qed.
Lemma position_parts_elem source target x : x ∈ position_parts source target ↔ ∃ i, (i < Nat.max (List.length source) (List.length target))%nat ∧
  x = ("Élément " +++ itoa (Z.of_nat i + 1), default JNull (source !! i), default JNull (target !! i)).
Proof.
  unfold position_parts. rewrite list_elem_of_fmap. split; [intros (i & -> & [? ?]%elem_of_seq); exists i; split; [lia|done]|].
  intros (i & Hi & ->). exists i. split; [done|]. apply elem_of_seq. lia.
Qed.
Lemma scalar_sets source target :
  match scalarDifferenceSets source target with Some _ => forallb scalar (source ++ target) = true | None => forallb scalar (source ++ target) = false end.
Proof.
  unfold scalarDifferenceSets. rewrite forallb_app. pose proof (scalar_set_spec source []). pose proof (scalar_set_spec target []).
  destruct (scalar_set [] source), (scalar_set [] target); rewrite ?andb_true_iff, ?andb_false_iff; naive_solver.
Qed.
(** The parts of two lists. *)
Lemma list_parts_spec source target x : ¬ is_object source → ¬ is_object target →
  x ∈ list_parts (elements source) (elements target) ↔ part_of source target x.
Proof.
  intros Ns Nt. rewrite list_parts_match. pose proof (first_match_spec strategies (elements source) (elements target)) as Hm.
  destruct (first_match strategies (elements source) (elements target)) as [parts|].
  - destruct Hm as (before & st & after & lhs & rhs & E & Hb & Ha & Hl & Hr & ->). rewrite sides_elem.
    assert (preferred st (elements source) (elements target)) as Hp by (by exists before, after). split.
    + intros (key & Hk & ->). by eapply of_element.
    + assert (¬ Forall (λ st, ¬ applies st (elements source) (elements target)) strategies) as Hno.
      { intros Hf. rewrite E in Hf. apply Forall_app in Hf as [_ Hf%Forall_cons_1]. naive_solver. }
      destruct 1 as [key [?|?] _|st' lhs' rhs' key _ _ Hp' Hl' Hr' Hk|text _ _ Hf|i _ _ Hf]; try done.
      rewrite (preferred_fun _ _ _ _ Hp' Hp) in *. rewrite (identified_fun _ _ _ _ Hl' Hl), (identified_fun _ _ _ _ Hr' Hr) in *. by exists key.
  - assert (∀ st, ¬ preferred st (elements source) (elements target)) as Hno.
    { intros st (b & a & E & Ha & _). rewrite E in Hm. apply Forall_app in Hm as [_ Hm%Forall_cons_1]. naive_solver. }
    pose proof (scalar_sets (elements source) (elements target)) as Hsc.
    destruct (scalarDifferenceSets (elements source) (elements target)) as [m|] eqn:Hd.
    + rewrite (set_parts_elem _ _ _ _ Hd). split; [intros (text & Ht & ->); by apply of_value|].
      destruct 1 as [key [?|?] _|st' lhs' rhs' key _ _ Hp'|text _ _ _ _ Hk|i _ _ _ Hs]; [done|done|by destruct (Hno st')|by exists text|congruence].
    + rewrite position_parts_elem. split; [intros (i & Hi & ->); by apply of_position|].
      destruct 1 as [key [?|?] _|st' lhs' rhs' key _ _ Hp'|text _ _ _ Hs|i _ _ _ _ Hi]; [done|done|by destruct (Hno st')|congruence|by exists i].
Qed.
(** The parts of an object and another value. *)
Lemma member_parts_spec source target x : is_object source ∨ is_object target →
  x ∈ member_parts (members source) (members target) ↔ part_of source target x.
Proof.
  intros Ho. unfold member_parts. rewrite list_elem_of_fmap.
  assert (∀ key, key ∈ sort_strings ((members source).*1 ++ List.filter (λ key, negb (has_member (members source) key)) (members target).*1) ↔
    key ∈ (members source).*1 ∨ key ∈ (members target).*1) as Hk by (intros key; exact (union_keys_elem (members source) (members target) key)).
  split; [intros (key & -> & ?%Hk); by apply of_member|].
  destruct 1 as [key _ Hin|st lhs rhs key Ns Nt|text Ns Nt|i Ns Nt]; [exists key; by rewrite Hk|by destruct Ho..].
Qed.
Lemma members_nil source target : members source = [] → members target = [] → member_parts (members source) (members target) = [].
Proof. by intros -> ->. Qed.
Lemma members_some source target : member_parts (members source) (members target) = [] → members source = [] ∧ members target = [].
Proof.
  intros Hm. assert (∀ key, ¬ (key ∈ (members source).*1 ∨ key ∈ (members target).*1)) as Hno.
  { intros key. rewrite <- (union_keys_elem (members source) (members target)). intros Hk.
    apply (list_elem_of_fmap_2 (λ key, (configurationLabel key, at_key (members source) key, at_key (members target) key))) in Hk.
    assert (member_parts (members source) (members target) ≠ []) as Hne by (intros Hm'; unfold member_parts in Hm'; setoid_rewrite Hm' in Hk; by apply not_elem_of_nil in Hk).
    by destruct Hne. }
  split; [destruct (members source) as [|kv l] eqn:E|destruct (members target) as [|kv l] eqn:E]; try done; destruct (Hno kv.1); [left|right]; by left.
Qed.
Lemma parts_spec source target :
  match parts_of source target with
  | Some parts => ¬ leaf source target ∧ ∀ x, x ∈ parts ↔ part_of source target x
  | None => leaf source target ∧ ∀ x, ¬ part_of source target x
  end.
Proof.
  assert (is_object source ∨ is_object target ∨ ¬ is_object source ∧ ¬ is_object target) as Hcase
    by (unfold is_object; destruct (mapValue source), (mapValue target); naive_solver).
  assert (is_object source ∨ is_object target → parts_of source target = match member_parts (members source) (members target) with [] => None | l => Some l end) as Hobj.
  { unfold parts_of, is_object, members. destruct (mapValue source), (mapValue target); try done. by intros [[? ?]|[? ?]]. }
  destruct Hcase as [Ho|[Ho|[Ns Nt]]].
  1-2: assert (is_object source ∨ is_object target) as Hor by auto; rewrite Hobj by done;
    pose proof (λ x, member_parts_spec source target x Hor) as Hx; pose proof (members_some source target) as Hm;
    pose proof (members_nil source target) as Hn; destruct (member_parts (members source) (members target)) as [|y l];
    [destruct Hm as [? ?]; [done|]; split; [split; [done|]; split; [done|]; tauto|intros x Hp%Hx; by apply not_elem_of_nil in Hp]
    |split; [intros (E1 & E2 & _); by specialize (Hn E1 E2)|exact Hx]].
  assert (mapValue source = None ∧ mapValue target = None) as [Es Et] by (rewrite !eq_None_not_Some; done).
  pose proof (λ x, list_parts_spec source target x Ns Nt) as Hx. unfold parts_of. rewrite Es, Et. unfold leaf, is_list, elements, members in *. rewrite Es, Et.
  destruct (sliceValue source) as [l|], (sliceValue target) as [l'|]; cbn [default] in *;
    try (split; [intros (_ & _ & [?|[?|[H1 H2]]]); [done|done|first [by destruct H1; eexists|by destruct H2; eexists]]|exact Hx]).
  split; [split; [done|split; [done|right; right; split; apply is_Some_None]]|]. intros x Hp%Hx. revert Hp. vm_compute. by intros ?%not_elem_of_nil.
Qed.
Definition enough (source target : json) : nat := S (Nat.max (depth source) (depth target)).
Lemma rows_found fuel : ∀ path source target r, (depth source < fuel)%nat → (depth target < fuel)%nat →
  r ∈ difference_rows fuel path source target ↔ differs path source target r.
Proof.
  induction fuel as [|fuel IH]; intros path source target r Hs Ht; [lia|]. cbn [difference_rows]. pose proof (parts_spec source target) as Hp.
  destruct (structuredValuesEqual source target) eqn:He; [split; [by intros ?%not_elem_of_nil|]; by destruct 1; congruence|].
  destruct (parts_of source target) as [parts|] eqn:Hparts; destruct Hp as [Hleaf Hp].
  - assert (∀ label s t, (label, s, t) ∈ parts → (depth s < fuel)%nat ∧ (depth t < fuel)%nat) as Hd
      by (intros label s t Hin; apply (parts_depth source target parts fuel (label, s, t)); (done || lia)).
    rewrite list_elem_of_join. setoid_rewrite list_elem_of_fmap. split.
    + intros (l & Hr & [[label s] t] & -> & Hin). destruct (Hd _ _ _ Hin). apply differs_within with label s t; [done|by apply Hp|by apply IH].
    + inversion 1 as [|? ? ? label s t ? _ Hin Hr]; subst; [done|]. apply Hp in Hin. destruct (Hd _ _ _ Hin).
      exists (difference_rows fuel (path ++ [label]) s t). split; [by apply IH|].
      by exists (label, s, t).
  - rewrite list_elem_of_singleton. split; [intros ->; by constructor|]. by inversion 1 as [|? ? ? label s t ? _ Hin Hr]; subst; [|destruct (Hp (label, s, t))].
Qed.
End depth.

(** A rule that moved and a task whose line changed are matched; only what changed of them is shown. *)
Example rows_of_tasks `{UnicodeCase} :
  let task schedule line := JObj [("command", JStr "true"); ("id", JStr line); ("line", JNum line); ("schedule", JStr schedule); ("source", JStr "crontab"); ("user", JStr "root")] in
  difference_rows 9 [] (JArr [task "* * * * *" "1"]) (JArr [task "@daily" "2"]) = [(["Tâche root · true"; configurationLabel "schedule"], JStr "* * * * *", JStr "@daily")].
Proof. vm_compute. reflexivity. Qed.
(** An object and a text are compared member by member: the text itself is in no row. *)
Example object_and_text `{UnicodeCase} :
  difference_rows 9 [] (JObj [("id", JNum "1")]) (JStr "gone") = [(["Identifiant"], JNum "1", JNull)].
Proof. vm_compute. reflexivity. Qed.
(** A member that is null in one snapshot and missing in the other is no row, though the values differ. *)
Example null_member `{UnicodeCase} :
  structuredValuesEqual (JObj [("id", JNull)]) (JObj []) = false ∧ difference_rows 9 [] (JObj [("id", JNull)]) (JObj []) = [].
Proof. vm_compute. split; reflexivity. Qed.
