(* ===== verification/Fragments5.v ===== *)
(** * What the pages show (configuration)

    The functions of [internal/webapp/configuration.go] that turn an inventory, the snapshots
    and a comparison into HTML.  The client decodes numbers into [float64]; a value is kept as
    [json] with the literal [encoding/json] writes for that number, and the members of an
    object in the order of their keys. *)

From S2P Require Import Prelude GoStrings StringFacts JsonParse JsonMore Floats Html.
From S2P Require Api.
From S2P Require Import Fragments Fragments2 Fragments4 Differences.
From Stdlib Require Import Ascii String.
#[local] Open Scope string_scope.
#[local] Open Scope list_scope.
#[local] Open Scope Z_scope.

(** ** Values *)

(** [normalizedJSONValue] of what the client decoded. *)
Fixpoint normalizedJSONValue (v : Api.Value) : json :=
  match v with
  | Api.VNil => JNull
  | Api.VBool b => JBool b
  | Api.VInt z => JNum (itoa z)
  | Api.VNum literal => JNum literal
  | Api.VStr s => JStr s
  | Api.VList l => JArr (map normalizedJSONValue l)
  | Api.VMap m => JObj (as_map (map (λ kv, (kv.1, normalizedJSONValue kv.2)) m))
  end.
(** The digits of a mantissa without the zeros at its end. *)
Fixpoint strip_zeros (fuel : nat) (m e : Z) : Z * Z :=
  match fuel with
  | O => (m, e)
  | S fuel => if (m =? 0) || negb (m mod 10 =? 0) then (m, e) else strip_zeros fuel (m / 10) (e + 1)
  end.
Definition exponent_text (x : Z) : string := (if x <? 0 then "e-" else "e+") +++ padded 2 (itoa (Z.abs x)).
(** [fmt.Sprint] of the [float64] whose shortest digits a literal has: an exponent from a million on. *)
Definition general_text (literal : string) : string :=
  let (negative, r) := split_sign literal in
  let '(digits, scale, r) := mantissa_digits r in
  let '(m, e) := strip_zeros (String.length digits) (digits_value 0 digits) (default 0 (exponent_of r) + scale) in
  let d := itoa m in
  let x := slen d - 1 + e in
  (if negative then "-" else "") +++
  (if m =? 0 then "0"
   else if (x <? -4) || (6 <=? x) then
     stake 1 d +++ (if 1 <? slen d then "." +++ sdrop 1 d else "") +++ exponent_text x
   else if 0 <=? e then d +++ zeros (Z.to_nat e)
   else if x <? 0 then "0." +++ zeros (Z.to_nat (- x - 1)) +++ d
   else stake (Z.to_nat (x + 1)) d +++ "." +++ sdrop (Z.to_nat (x + 1)) d).
Example general_numbers : general_text <$> ["8080"; "20971520"; "1e+21"; "0.5"; "-12.25"; "0.00001"; "0"; "999999"] =
  ["8080"; "2.097152e+07"; "1e+21"; "0.5"; "-12.25"; "1e-05"; "0"; "999999"].
Proof. vm_compute. reflexivity. Qed.
(** [stringValueAny] of a decoded value. *)
Definition decoded_text : json → string := stringValueOf general_text.
Definition member (v : option jmap) (key : string) : json := at_key (default [] v) key.
Definition typed_text (v : json) : string := match v with JStr s => s | _ => "" end.
Definition typed_bool (v : json) : bool := match v with JBool b => b | _ => false end.
Definition typed_list (v : json) : list json := default [] (sliceValue v).

Section fragments.
Context `{UnicodeCase} `{!Floats}.
Definition intValue (v : json) : Z := match v with JNum literal => from_option to_int64 0 (ParseFloat literal) | _ => 0 end.

(** ** The list of snapshots *)

(** The snapshots that can be compared. *)
Definition comparable (data : jmap) : list (option jmap) :=
  List.filter (λ item, typed_bool (member item "valid") && negb (String.eqb (decoded_text (member item "id")) "")) (mapValue <$> typed_list (at_key data "snapshots")).
Definition compare_option (language : string) (selected : nat) (i : nat) (item : option jmap) : string :=
  let id := decoded_text (member item "id") in
  let name := decoded_text (member item "name") in
  let created := decoded_text (member item "created_at") in
  h "<option value='" +++ esc id +++ h "'" +++ (if (i =? selected)%nat then " selected" else "") +++ ">" +++ esc (or_text name id) +++
  (if String.eqb created "" then "" else " · " +++ esc (FormatRFC3339 language created)) +++ "</option>".
Definition compare_options (language : string) (selected : nat) (items : list (option jmap)) : string := glue (imap (compare_option language selected) items).
Definition renderSnapshotCompareOptions (data : jmap) (language : string) : string * string * string :=
  let items := comparable data in
  if (List.length items <? 2)%nat then
    let message := h "<option value=''>" +++ configText language "Au moins deux snapshots sont nécessaires" "At least two snapshots are required" +++ "</option>" in
    (message, message, " disabled")
  else (compare_options language 1 items, compare_options language 0 items, "").
Definition inventoryCounts (data : jmap) : Z * Z :=
  let sections := typed_list (at_key data "sections") in
  (Z.of_nat (List.length (List.filter (λ v, typed_bool (member (mapValue v) "available")) sections)), Z.of_nat (List.length sections)).
Definition section_labels : list (string * string) :=
  [("system", "System"); ("packages", "Installed packages"); ("services", "systemd services"); ("accounts", "Users and groups"); ("network", "Network");
   ("ports", "Listening ports"); ("firewall", "Firewall"); ("fail2ban", "Fail2ban"); ("php", "PHP"); ("apache", "Apache"); ("certificates", "Certificates");
   ("mysql", "MySQL / MariaDB"); ("cron", "Scheduled tasks"); ("tor", "Tor")].
Definition configurationSectionLabel (id fallback language : string) : string :=
  if negb (String.eqb language "en") then fallback else lookup_or fallback section_labels id.
Definition done_fr : string := "L’opération sur les snapshots est terminée.".
Definition done_en : string := "The snapshot operation completed.".
Definition localizedConfigurationFragment (value language : string) : string :=
  if negb (String.eqb language "en") then value else ReplaceAll value done_fr done_en.
Definition configuration_texts : list (string * string) :=
  [(h "lang='fr'", h "lang='en'"); ("Afficher le JSON brut de la comparaison", "Show raw comparison JSON"); ("Configuration serveur", "Server configuration");
   ("Inventaire en lecture seule et snapshots immuables", "Read-only inventory and immutable snapshots"); ("Tableau de bord", "Dashboard");
   ("Se déconnecter", "Sign out"); ("Créer un snapshot", "Create snapshot"); ("Capturer l’état actuel", "Capture current state");
   ("Importer un snapshot", "Import snapshot"); ("Nom", "Name"); ("Snapshot JSON", "JSON snapshot"); ("Importer", "Import");
   ("Comparer des snapshots", "Compare snapshots"); ("Snapshot source", "Source snapshot"); ("Snapshot cible", "Target snapshot"); ("Comparer", "Compare");
   ("Liste des Snapshots", "Snapshot list"); ("Inventaire actuel", "Current inventory"); ("Détail du snapshot", "Snapshot details");
   ("Retour aux snapshots", "Back to snapshots"); ("Exporter le JSON", "Export JSON"); ("Informations", "Information"); ("Identifiant", "Identifier");
   ("Schéma", "Schema"); ("Empreinte SHA-256", "SHA-256 fingerprint"); ("Afficher le JSON brut", "Show raw JSON");
   ("Comparaison de snapshots", "Snapshot comparison"); ("Résumé de la comparaison", "Comparison summary")].
Definition localizeConfigurationTemplate (value language : string) : string := if negb (String.eqb language "en") then value else Replace configuration_texts value.
Definition muted (text : string) : string := h "<p class='muted'>" +++ text +++ "</p>".
Definition inventory_section (language : string) (raw : json) : string :=
  let item := mapValue raw in
  let label := configurationSectionLabel (decoded_text (member item "id")) (typed_text (member item "label")) language in
  h "<article class='content-card'><h3>" +++ esc label +++ "</h3>" +++
  (if negb (typed_bool (member item "available")) then h "<p class='notice'>" +++ esc (typed_text (member item "message")) +++ "</p>"
   else "<pre>" +++ esc (json_pretty 0 (member item "data")) +++ "</pre>") +++ "</article>".
Definition renderInventory (data : jmap) (language : string) : string :=
  rows (muted (configText language "Aucune section disponible." "No section available.")) (inventory_section language) (typed_list (at_key data "sections")).
Definition snapshot_actions (id token language : string) : string :=
  h "<td><div class='snapshot-table__actions'><a class='secondary-link compact-link' href='/configuration/snapshots/" +++ esc id +++ h "'>" +++
  configText language "Ouvrir" "Open" +++ h "</a><a class='secondary-link compact-link' href='/configuration/snapshots/" +++ esc id +++ h "/export'>" +++
  configText language "Exporter" "Export" +++ h "</a><form method='post' action='/configuration/snapshots/" +++ esc id +++
  h "/delete'><input type='hidden' name='_token' value='" +++ esc token +++ h "'><input type='hidden' name='confirmation' value='" +++ esc id +++
  h "'><button class='danger-button compact-link'>" +++ configText language "Supprimer" "Delete" +++ "</button></form></div></td>".
Definition snapshot_name (id name token language : string) : string :=
  h "<td><form class='snapshot-table__rename' method='post' action='/configuration/snapshots/" +++ esc id +++ h "/name'><input type='hidden' name='_token' value='" +++
  esc token +++ h "'><input name='name' value='" +++ esc name +++ h "' maxlength='100' aria-label='" +++ configText language "Nom du snapshot" "Snapshot name" +++
  h "' required><button class='secondary-button compact-link'>" +++ configText language "Renommer" "Rename" +++ "</button></form></td>".
Definition snapshot_row (token language : string) (raw : json) : string :=
  let item := mapValue raw in
  let text key := typed_text (member item key) in
  let number key := intValue (member item key) in
  let id := text "id" in
  let sections := itoa (number "available_sections") +++ " / " +++ itoa (number "total_sections") in
  let '(integrityClass, integrityLabel) :=
    if typed_bool (member item "valid") then ("success", configText language "Valide" "Valid") else ("danger", configText language "Invalide" "Invalid") in
  "<tr>" +++ snapshot_actions id token language +++ snapshot_name id (or_text (text "name") id) token language +++ "<td>" +++ esc (FormatRFC3339 language (text "created_at")) +++
  "</td><td>" +++ esc (text "source") +++ "</td><td>" +++ sections +++ "</td><td>" +++ esc (formatByteCountForLanguage (number "size") language) +++
  h "</td><td><span class='status-badge status-badge--" +++ integrityClass +++ h "'>" +++ integrityLabel +++ "</span></td></tr>".
Definition snapshots_head (language : string) : string :=
  h "<div class='table-scroll'><table class='data-table snapshot-table'><thead><tr><th>Actions</th><th>" +++ configText language "Nom" "Name" +++
  "</th><th>Date</th><th>Source</th><th>Sections</th><th>" +++ configText language "Taille" "Size" +++ "</th><th>" +++ configText language "Intégrité" "Integrity" +++
  "</th></tr></thead><tbody>".
Definition renderSnapshots (data : jmap) (token language : string) : string :=
  match typed_list (at_key data "snapshots") with
  | [] => muted (configText language "Aucun snapshot." "No snapshot.")
  | items => snapshots_head language +++ glue (snapshot_row token language <$> items) +++ "</tbody></table></div>"
  end.

(** ** One snapshot *)

Definition absent_mark : string := h "<span class='muted'>Absent</span>".
Definition scalar (text : string) : string := h "<span class='snapshot-scalar'>" +++ esc text +++ "</span>".
Fixpoint renderStructuredValue (v : json) : string :=
  match v with
  | JNull => absent_mark
  | JObj m =>
      h "<div class='table-scroll'><table class='data-table data-table--nested'><tbody>" +++
      glue (map (λ kv, "<tr><th>" +++ esc (configurationLabel kv.1) +++ "</th><td>" +++ renderStructuredValue kv.2 +++ "</td></tr>") m) +++ "</tbody></table></div>"
  | JArr [] => h "<span class='muted'>Aucun élément</span>"
  | JArr l => h "<ol class='snapshot-value-list'>" +++ glue (map (λ item, "<li>" +++ renderStructuredValue item +++ "</li>") l) +++ "</ol>"
  | JBool b => yesNo b
  | JNum literal => scalar (general_text literal)
  | JStr s => scalar s
  end.
Definition section_anchor (i : nat) : string := "snapshot-section-" +++ itoa (Z.of_nat i).
Definition snapshot_label (language : string) (section : option jmap) : string :=
  let id := decoded_text (member section "id") in or_text (configurationSectionLabel id (decoded_text (member section "label")) language) id.
Definition section_link (language : string) (i : nat) (raw : json) : string :=
  h "<a href='#" +++ section_anchor i +++ h "'>" +++ esc (snapshot_label language (mapValue raw)) +++ "</a>".
Definition section_content (language : string) (i : nat) (raw : json) : string :=
  let section := mapValue raw in
  h "<section class='content-card snapshot-section' id='" +++ section_anchor i +++ h "'><h2>" +++ esc (snapshot_label language section) +++ "</h2>" +++
  (if negb (typed_bool (member section "available")) then h "<p class='notice'>" +++ esc (decoded_text (member section "message")) +++ "</p>"
   else renderStructuredValue (member section "data")) +++ "</section>".
Definition renderSnapshotSections (v : json) (language : string) : string :=
  match typed_list v with
  | [] => muted (configText language "Aucune section disponible." "No section available.")
  | sections =>
      h "<nav class='snapshot-navigation' aria-label='" +++ configText language "Sections du snapshot" "Snapshot sections" +++ h "'>" +++
      glue (imap (section_link language) sections) +++ "</nav>" +++ glue (imap (section_content language) sections)
  end.

(** ** A comparison *)

Definition renderComparisonSummary (counts : option jmap) (language : string) : string :=
  let item fr en key := (configText language fr en, formatIntegerForLanguage (intValue (member counts key)) language) in
  renderMetricPairs [item "Identiques" "Identical" "identical"; item "Différentes" "Different" "different";
    item "Absentes de la source" "Missing from source" "missing_source"; item "Absentes de la cible" "Missing from target" "missing_target"].
Definition renderDifferenceValue (v : json) : string :=
  match v with
  | JNull => absent_mark
  | JBool b => yesNo b
  | JObj [] => h "<span class='muted'>Objet vide</span>"
  | JArr [] => h "<span class='muted'>Liste vide</span>"
  | _ => scalar (stringValueAny v)
  end.
Definition difference_row (r : row) : string :=
  let '(path, source, target) := r in
  "<tr><th>" +++ esc (or_text (join " › " path) "Valeur") +++ "</th><td>" +++ renderDifferenceValue source +++ "</td><td>" +++ renderDifferenceValue target +++ "</td></tr>".
Definition renderStructuredDifferences (source target : json) (language : string) : string :=
  match difference_rows (enough source target) [] source target with
  | [] => muted (configText language "Aucune valeur différente dans cette section." "No different value in this section.")
  | rows =>
      h "<div class='table-scroll'><table class='data-table snapshot-difference-table'><thead><tr><th>" +++ configText language "Élément" "Item" +++ "</th><th>" +++
      configText language "Snapshot source" "Source snapshot" +++ "</th><th>" +++ configText language "Snapshot cible" "Target snapshot" +++ "</th></tr></thead><tbody>" +++
      glue (difference_row <$> rows) +++ "</tbody></table></div>"
  end.
(** The label and the class of a status. *)
Definition status_texts : list (string * (string * string * string)) :=
  [("identical", ("Identique", "Identical", "success")); ("different", ("Modifiée", "Changed", "warning"));
   ("missing_source", ("Ajoutée", "Added", "success")); ("missing_target", ("Supprimée", "Removed", "danger"))].
Definition compared_section (language : string) (section : option jmap) : string :=
  let '(fr, en, class_) := lookup_or ("", "", "") status_texts (decoded_text (member section "status")) in
  let label := configurationSectionLabel (decoded_text (member section "id")) (decoded_text (member section "label")) language in
  h "<section class='content-card snapshot-section'><header class='section-heading section-heading--flush'><h2>" +++ esc label +++
  h "</h2><span class='status-badge status-badge--" +++ class_ +++ h "'>" +++ configText language fr en +++ "</span></header>" +++
  renderStructuredDifferences (member section "source") (member section "target") language +++ "</section>".
Definition renderComparisonSections (v : json) (language : string) : string :=
  match typed_list v with
  | [] => muted (configText language "Aucune section à comparer." "No section to compare.")
  | sections =>
      rows (h "<p class='notice notice--success'>" +++ configText language "Aucune différence entre ces deux snapshots." "No difference between these snapshots." +++ "</p>")
        (compared_section language) (List.filter (λ section, negb (String.eqb (decoded_text (member section "status")) "identical")) (mapValue <$> sections))
  end.
End fragments.

(** A number from a million on is shown with an exponent in a snapshot, in full in a comparison. *)
Example large_numbers `{UnicodeCase} :
  renderStructuredValue (JNum "20971520") = scalar "2.097152e+07" ∧ renderDifferenceValue (JNum "20971520") = scalar "20971520".
Proof. vm_compute. split; reflexivity. Qed.
