(* ===== verification/Pages.v ===== *)
(** * The pages that only read ([internal/webapp])

    The handlers of the GET requests: who may read a page, what is asked of the local API
    and of the account store, and the answer.  A page is its template and what is put in the
    places of it, [values]; a JSON answer is its text.  The templates, the catalogs, the list
    of the known services and the order in which the four requests of the dashboard are
    answered are given ([Assets], [Catalogs], [Arrival]); the timeouts are not modelled. *)

From S2P Require Import Prelude GoStrings StringFacts Codec Floats Html.
From S2P Require Api Session Schema Store StoreNav StoreSettings Dashboard Time JsonParse JsonMore.
From S2P Require Import Limiter Totp Password WebApp WebGate WebAdmin WebActions WebReads.
From S2P Require Import Fragments Fragments2 Fragments3 Fragments4 Differences Fragments5.
From Stdlib Require Import Ascii String.
#[local] Open Scope string_scope.
#[local] Open Scope list_scope.
#[local] Open Scope Z_scope.

Import JsonParse(json, JNull, JBool, JNum, JStr, JArr, JObj, json_text, json_pretty).
Import JsonMore(jmap, as_map).

(** ** What a page is made of *)

(** The embedded files, the version of the build, and what [/etc/services] holds. *)
Class Assets := { asset : string → string; Version : string; services_file : option string }.
(** The order in which requests sent at once are answered. *)
Class Arrival := { arrive : list (string * string) → list (string * string); arrive_perm : ∀ l, arrive l ≡ₚ l }.
Definition pairs : Type := list (string * string).

(** What the address and the headers of a GET request say. *)
Record Query := { Get : string → string; PathValue : string; Accept : string }.

(** [fmt.Sprintf] of texts and numbers already written. *)
Fixpoint Sprintf (format : string) (args : list string) : string :=
  match format with
  | EmptyString => ""
  | String "%" (String c rest) =>
      if Ascii.eqb c "s" || Ascii.eqb c "d" then
        match args with a :: args => a +++ Sprintf rest args | [] => "%!" +++ String c "(MISSING)" +++ Sprintf rest [] end
      else String "%" (String c (Sprintf rest args))
  | String c rest => String c (Sprintf rest args)
  end.
Example formatted : Sprintf "%d lignes sur %s" ["3"; "10"] = "3 lignes sur 10". Proof. reflexivity. Qed.

(** The first place of a text. *)
Fixpoint ReplaceFirst (s old new : string) : string :=
  if has_prefix s old then new +++ sdrop (String.length old) s
  else match s with EmptyString => "" | String c s => String c (ReplaceFirst s old new) end.

Section render.
Context `{UnicodeCase} `{!Catalogs} `{!Floats} `{!Assets}.
(** [strconv.FormatFloat(f, 'f', -1, 64)]; [url.Parse] of a link. *)
Context (shortest : spec_float → string) (ParseLink : string → option (string * string)).

(** [newApplication] *)
Definition template (name : string) : string := ReplaceAll (asset name) "{{VERSION}}" (esc Version).
(** [i18n.Localize]: the keys in an order of their own; no translation has the place of another. *)
Definition Localize (text language : string) : string :=
  let language := if Supported language then language else DefaultLanguage in
  ReplaceAll (foldl (λ t kv, ReplaceAll t ("{{T:" +++ kv.1 +++ "}}") (default kv.2 (texts language !! kv.1))) text (map_to_list (texts DefaultLanguage)))
    "{{LANG}}" language.
(** [writeHTML] adds the script to a page that has none. *)
Definition body_class : string := h "class='dashboard-body'".
Definition script : string := h "<script src='/assets/app.js?v=" +++ QueryEscape Version +++ h "' defer></script></body>".
Definition writeHTML (text : string) : string :=
  if contains text body_class && negb (contains text "/assets/app.js") then ReplaceFirst text "</body>" script else text.
(** The text sent. *)
Definition page_text (p : Page) : string :=
  match p with Html template values finish => writeHTML (finish (Replace values template)) | Body text => text | _ => "" end.

Definition html (name language : string) (values : pairs) : Answer := show (Html (Localize (template name) language) values id) StatusOK.
(** The pages translated once the data is in them. *)
Definition translated (name : string) (localize : string → string) (values : pairs) : Answer := show (Html (template name) values localize) StatusOK.
Definition writeJSON (v : json) (status : Z) : Answer := show (Body (json_text v +++ snl)) status.

Definition notice (text : string) : string := h "<p class='notice'>" +++ text +++ "</p>".
Definition success (text : string) : string := h "<p class='notice notice--success'>" +++ text +++ "</p>".
Definition danger (text : string) : string := h "<p class='notice notice--danger'>" +++ text +++ "</p>".
Definition warning (text : string) : string := h "<p class='notice notice--warning'>" +++ text +++ "</p>".
Definition when (b : bool) (text : string) : string := if b then text else "".
Definition cell (text : string) : string := "<th>" +++ text +++ "</th>".
(** [<form method="post" …><button …>], its token escaped already. *)
Definition button_form (action token class_ label : string) : string :=
  h "<form method='post' action='" +++ action +++ h "'><input type='hidden' name='_token' value='" +++ token +++ h "'><button class='" +++ class_ +++
  h "' type='submit'>" +++ label +++ "</button></form>".
Definition short_form (action token class_ label : string) : string :=
  h "<form method='post' action='" +++ action +++ h "'><input type='hidden' name='_token' value='" +++ token +++ h "'><button class='" +++ class_ +++ h "'>" +++ label +++
  "</button></form>".
Definition header_actions (text : string) : string := h "<div class='header-actions'>" +++ text +++ "</div>".
Definition status_badge (class_ text : string) : string := h "<span class='status-badge status-badge--" +++ class_ +++ h "'>" +++ text +++ "</span>".
Definition paragraph (text : string) : string := "<p>" +++ text +++ "</p>".
(** The places every page of a module has. *)
Definition head (token level language : string) : pairs :=
  [("{{CSRF}}", esc token); ("{{PERMISSION}}", esc (permissionLabelForLanguage level language))].

(** ** The dashboard and the processes *)

Definition dashboard_values (login token language : string) (s : Dashboard.Snapshot) : pairs :=
  let cards supervision := renderOverview (localizeDashboardCards (filterDashboardCards (Dashboard.s_Cards s) supervision) language) in
  [("{{USER}}", esc login); ("{{CSRF}}", esc token);
   ("{{SYSTEM_INFORMATION}}", renderSystemInformation (Dashboard.s_Information s) (Dashboard.s_UptimeSeconds s) language);
   ("{{RESOURCES}}", cards false); ("{{SUPERVISION}}", cards true)].
Definition card_json (c : Dashboard.Card) : json :=
  JObj ([("id", JStr (Dashboard.c_ID c)); ("title", JStr (Dashboard.c_Title c)); ("value", JStr (Dashboard.c_Value c));
         ("subtitle", JStr (Dashboard.c_Subtitle c)); ("status", JStr (Dashboard.c_Status c))] ++
        if String.eqb (Dashboard.c_URL c) "" then [] else [("url", JStr (Dashboard.c_URL c))]).
Definition processes_values (token language : string) (s : Dashboard.ProcessSnapshot) : pairs :=
  let number f := itoa (f s) in
  [("{{CSRF}}", esc token); ("{{TOTAL}}", number Dashboard.ps_Total); ("{{RETURNED}}", number Dashboard.ps_Returned); ("{{LIMIT}}", number Dashboard.ps_Limit);
   ("{{NOTICE}}", when (Dashboard.ps_Truncated s)
      (notice (esc (Sprintf (Text language "processes.truncated") [number Dashboard.ps_Returned; number Dashboard.ps_Total]))));
   ("{{PROCESSES}}", renderProcesses shortest (Dashboard.ps_Processes s) language)].

(** ** Storage, services, network, logs, PHP *)

Definition storage_values (token level language : string) (s : webstorage.Snapshot) : pairs :=
  head token level language ++
  [("{{SUMMARY}}", renderStorageSummary (webstorage.summary s) language); ("{{MOUNTS}}", renderStorageMounts (webstorage.Mounts s) language)].
Definition services_values (token level language result : string) (s : webservices.Snapshot) : pairs :=
  head token level language ++
  [("{{NOTICE}}", when (String.eqb result "restarted") (success (tr language "services.restarted")));
   ("{{SUMMARY}}", renderServicesSummary (webservices.summary s) language);
   ("{{ACTION_HEADER}}", when (acts level) (cell (tr language "services.action")));
   ("{{SERVICES}}", renderServices (webservices.Services s) token (acts level) language)].
Definition network_values (token level language : string) (s : webnetwork.Snapshot) : pairs :=
  head token level language ++
  [("{{SUMMARY}}", renderNetworkSummary (webnetwork.summary s) language);
   ("{{INTERFACES}}", renderNetworkInterfaces (webnetwork.Interfaces s) (webnetwork.Selected s) language);
   ("{{DETAILS}}", renderNetworkDetails (webnetwork.Selected s) language)].
Definition results_text (language : string) (shown : Z) (total : string) : string :=
  if shown =? 1 then Sprintf (Text language "logs.results.one") [total] else Sprintf (Text language "logs.results.many") [itoa shown; total].
Definition logs_values (token level language logLevel keyword : string) (lineCount : Z) (s : weblogs.Snapshot) : pairs :=
  let lines := filterLogLines (weblogs.Lines s) logLevel keyword in
  let content := match lines with [] => Text language "logs.lines.empty" | _ => join snl lines end in
  head token level language ++
  [("{{SOURCES}}", renderLogSources (weblogs.Sources s) (weblogs.Selected s) language); ("{{LEVELS}}", renderLogLevels logLevel language);
   ("{{LINE_COUNT}}", itoa lineCount); ("{{KEYWORD}}", esc keyword); ("{{SELECTED}}", esc (logTitle (weblogs.Selected s) language));
   ("{{RESET_URL}}", "/logs");
   ("{{RESULTS}}", esc (results_text language (Z.of_nat (List.length lines)) (formatIntegerForLanguage (weblogs.Total s) language)));
   ("{{LINES}}", esc content)].
Definition about_values (token language : string) : pairs :=
  [("{{CSRF}}", esc token);
   ("{{AGPL_URL}}", if String.eqb language "fr" then "https://www.gnu.org/licenses/agpl-3.0.fr.html" else "https://www.gnu.org/licenses/agpl-3.0.html")].
Definition php_values (token level language result : string) (s : webphp.Snapshot) : pairs :=
  let cli := webphp.cli s in
  head token level language ++
  [("{{NOTICE}}", when (String.eqb result "restarted") (success (tr language "php.restarted")));
   ("{{CLI_VERSION}}", esc (webphp.CLIVersion cli)); ("{{CLI_SAPI}}", esc (webphp.SAPI cli));
   ("{{CLI_INI}}", esc (localizeUnavailable (webphp.IniFile cli) language)); ("{{CLI_SCAN}}", esc (localizeUnavailable (webphp.ScanDir cli) language));
   ("{{ACTION_HEADER}}", when (acts level) (cell (tr language "php.action")));
   ("{{INSTANCES}}", renderPHPInstances (webphp.Instances s) token (acts level) language)].

(** ** MySQL, Tor, Apache *)

Definition metrics_hook : string := h " data-mysql-metrics data-mysql-metrics-url='/mysql/metrics' data-mysql-metrics-interval='2000'".
Definition mysql_values (token level language result : string) (s : webmysql.Snapshot) : pairs :=
  let server := webmysql.server s in
  let present := webmysql.Exists (webmysql.service server) in
  head token level language ++
  [("{{NOTICE}}",
     if present then
       when (String.eqb result "restarted") (success (tr language "mysql.restarted")) +++
       glue ((λ text, warning (esc (localizeMySQLWarning text language))) <$> webmysql.Warnings s)
     else notice (tr language "mysql.not_installed"));
   ("{{RESTART}}", when (present && acts level)
     (button_form "/mysql/restart" (esc token) "danger-button" (tr language "mysql.restart" +++ " " +++ esc (webmysql.Product server))));
   ("{{SERVER}}", renderMySQLServer server language); ("{{METRICS_HOOK}}", when present metrics_hook);
   ("{{METRICS}}", renderMySQLMetrics (webmysql.Metrics s) language);
   ("{{DATABASES}}", renderMySQLDatabases (if present then webmysql.Databases s else []) language)].
Definition metrics_json (m : list (string * Z)) : json := JObj (as_map ((λ kv, (kv.1, JNum (itoa kv.2))) <$> m)).
Definition tor_config (language : string) (s : webtor.Snapshot) : string :=
  if webtor.ConfigurationValid s then
    let message := webtor.ConfigurationMessage s in
    let valid := String.eqb message "La configuration de Tor est valide." || String.eqb message "Configuration valide" in
    status_badge "success" (tr language "tor.valid") +++ paragraph (esc (if valid then Text language "tor.config_valid_message" else message))
  else status_badge "danger" (tr language "tor.invalid").
Definition tor_status (language bootstrap memory tasks pid : string) : string :=
  renderMetricPairs [(Text language "tor.bootstrap", bootstrap); (Text language "tor.memory", memory); (Text language "tor.tasks", tasks);
                     (Text language "tor.main_pid", pid)].
Definition tor_absent (token level language : string) : pairs :=
  let unavailable := Text language "tor.unavailable" in
  head token level language ++
  [("{{NOTICE}}", notice (tr language "tor.module_available")); ("{{INFO}}", renderPairs [(Text language "tor.state", Text language "tor.not_installed")]);
   ("{{CONFIG}}", status_badge "neutral" (esc unavailable) +++ paragraph (tr language "tor.install_help")); ("{{ACTIONS}}", "");
   ("{{INSTANCE_TITLE}}", tr language "tor.service"); ("{{STATUS}}", tor_status language unavailable unavailable unavailable unavailable);
   ("{{ONIONS}}", renderOnions [] language)].
Definition tor_values (token level language result : string) (s : webtor.Snapshot) : pairs :=
  if negb (webtor.Installed s) then tor_absent token level language
  else
    let info := webtor.info s in
    let status := webtor.status s in
    let forms := button_form "/tor/reload" (esc token) "primary-button" (tr language "tor.reload") +++
                 button_form "/tor/restart" (esc token) "danger-button" (tr language "tor.restart") in
    let bootstrap := match webtor.Bootstrap status with Some n => itoa n +++ " %" | None => Text language "tor.unavailable" end in
    head token level language ++
    [("{{NOTICE}}", when (String.eqb result "reload" || String.eqb result "restart") (success (tr language "tor.action_done")));
     ("{{INFO}}", renderPairs [(Text language "tor.version", webtor.Product info +++ " " +++ webtor.Version info);
        (Text language "tor.configuration", webtor.ConfigFile info); (Text language "tor.service", webtor.Service info); (Text language "tor.unit", webtor.Unit_ info)]);
     ("{{CONFIG}}", tor_config language s); ("{{ACTIONS}}", when (acts level && webtor.Exists status) (header_actions forms));
     ("{{INSTANCE_TITLE}}", tr language "tor.instance" +++ " " +++ esc (webtor.Service info));
     ("{{STATUS}}", tor_status language bootstrap (formatByteCountForLanguage (webtor.Memory status) language)
        (formatIntegerForLanguage (webtor.Tasks status) language) (itoa (webtor.MainPID status)));
     ("{{ONIONS}}", renderOnions (webtor.Services s) language)].
Definition apache_summary (language vhosts sites modules enabled : string) : string :=
  renderMetricPairs [(Text language "apache.vhosts", vhosts); (Text language "apache.sites", sites); (Text language "apache.modules", modules);
                     (Text language "apache.active_sites", enabled)].
Definition apache_absent (token level language : string) : pairs :=
  head token level language ++
  [("{{NOTICE}}", notice (tr language "apache.not_installed_notice"));
   ("{{INFO}}", renderPairs [(Text language "apache.installation", Text language "apache.not_installed")]);
   ("{{CONFIG}}", status_badge "neutral" (tr language "apache.unavailable") +++ paragraph (tr language "apache.install_help")); ("{{ACTIONS}}", "");
   ("{{SUMMARY}}", apache_summary language "0" "0" "0" "0"); ("{{VHOSTS}}", renderVHosts [] language);
   ("{{SITE_ACTIONS}}", renderApacheSites [] token false language); ("{{CREATE_SITE}}", "")].
Definition apache_notice (language result error : string) : string :=
  if String.eqb result "reload" || String.eqb result "restart" then success (tr language "apache.action_done")
  else if negb (String.eqb result "") then success (tr language "apache.operation_done")
  else if negb (String.eqb error "") then danger (esc error) else "".
Definition apache_values (token level language result error : string) (s : webapache.Snapshot) : pairs :=
  if negb (webapache.Installed s) && String.eqb (webapache.Version s) "" then apache_absent token level language
  else
    let count {A} (l : list A) := itoa (Z.of_nat (List.length l)) in
    let forms := button_form "/apache/reload" (esc token) "primary-button" (tr language "apache.reload") +++
                 button_form "/apache/restart" (esc token) "danger-button" (tr language "apache.restart") in
    let badge := if webapache.ConfigValid s then status_badge "success" (Text language "apache.valid") else status_badge "danger" (Text language "apache.invalid") in
    head token level language ++
    [("{{NOTICE}}", apache_notice language result error);
     ("{{INFO}}", renderPairs [(Text language "apache.version", webapache.Version s); (Text language "apache.build", webapache.Built s)]);
     ("{{CONFIG}}", badge +++ paragraph (esc (webapache.ConfigMessage s))); ("{{ACTIONS}}", when (acts level) (header_actions forms));
     ("{{SUMMARY}}", apache_summary language (count (webapache.VHosts s)) (count (webapache.Sites s)) (count (webapache.Modules s))
        (itoa (enabledSites (webapache.Sites s))));
     ("{{VHOSTS}}", renderVHosts (webapache.VHosts s) language); ("{{SITE_ACTIONS}}", renderApacheSites (webapache.Sites s) token (modifies level) language);
     ("{{CREATE_SITE}}", renderApacheCreate token (modifies level) language)].
Definition site_json (c : webapache.SiteConfig) : json :=
  JObj [("filename", JStr (webapache.site_Filename c)); ("config_id", JStr (webapache.site_ConfigID c)); ("enabled", JBool (webapache.site_Enabled c));
        ("content", JStr (webapache.Content c))].

(** ** Fail2ban, firewall *)

Definition fail2ban_absent (token level language : string) : pairs :=
  head token level language ++
  [("{{NOTICE}}", notice (tr language "fail2ban.not_installed_notice"));
   ("{{INFO}}", renderPairs [(Text language "common.status", Text language "fail2ban.not_installed"); (Text language "fail2ban.autostart", Text language "common.no");
      (Text language "fail2ban.jails", "0")]);
   ("{{SERVICE_ACTIONS}}", "");
   ("{{CONFIG}}", status_badge "neutral" (tr language "fail2ban.unavailable") +++ paragraph (tr language "fail2ban.install_help"));
   ("{{JAIL_SELECTOR}}", renderJailSelector [] "" language); ("{{JAIL}}", ""); ("{{MODIFY_ACTIONS}}", "")].
Definition state_names : list (string * string) := [("active", "Active"); ("running", "Running"); ("inactive", "Inactive"); ("failed", "Failed")].
Definition fail2ban_state (language state : string) : string := if String.eqb language "en" then lookup_or state state_names (to_lower state) else state.
Definition fail2ban_values (token level language result : string) (s : webfail2ban.Snapshot) : pairs :=
  if negb (webfail2ban.Installed s) then fail2ban_absent token level language
  else
    let info := webfail2ban.info s in
    let status := webfail2ban.status s in
    let '(jail, modify) := renderJail s (esc token) (modifies level) language in
    let forms := short_form "/fail2ban/reload" (esc token) "primary-button" (tr language "common.reload") +++
                 short_form "/fail2ban/restart" (esc token) "danger-button" (tr language "common.restart") in
    let message := if String.eqb language "en" && webfail2ban.ConfigValid s then Text language "fail2ban.config_valid" else webfail2ban.ConfigMessage s in
    head token level language ++
    [("{{NOTICE}}", when (negb (String.eqb result "")) (success (tr language "fail2ban.action_done")));
     ("{{INFO}}", renderPairs [(Text language "common.version", webfail2ban.Product info +++ " " +++ webfail2ban.Version info);
        (Text language "common.status", fail2ban_state language (webfail2ban.State status));
        (Text language "fail2ban.autostart", yesNoForLanguage (webfail2ban.Enabled status) language);
        (Text language "fail2ban.jails", formatIntegerForLanguage (Z.of_nat (List.length (webfail2ban.Jails status))) language)]);
     ("{{SERVICE_ACTIONS}}", when (acts level) (header_actions forms));
     ("{{CONFIG}}", status_badge (if webfail2ban.ConfigValid s then "success" else "danger") (esc message));
     ("{{JAIL_SELECTOR}}", renderJailSelector (webfail2ban.Jails status) (webfail2ban.Selected s) language); ("{{JAIL}}", jail); ("{{MODIFY_ACTIONS}}", modify)].
Definition state_form (action token class_ label : string) : string :=
  h "<form method='post' action='/firewall/" +++ action +++ h "' data-firewall-state-form data-firewall-state='" +++ action +++
  h "'><input type='hidden' name='_token' value='" +++ token +++ h "'><button class='" +++ class_ +++ h "'>" +++ label +++ "</button></form>".
Definition firewall_reload (token language : string) (active : bool) : string :=
  if active then
    header_actions (short_form "/firewall/reload" token "primary-button" (tr language "firewall.reload") +++
                    state_form "disable" token "danger-button" (tr language "firewall.disable"))
  else state_form "enable" token "primary-button" (tr language "firewall.enable").
Definition firewall_add (token language : string) : string :=
  h "<article class='content-card'><h2>" +++ tr language "firewall.add_inbound" +++
  h "</h2><form class='selector-form' method='post' action='/firewall/add'><input type='hidden' name='_token' value='" +++ token +++ h "'><label>" +++
  tr language "common.action" +++
  h "</label><select name='rule_action'><option>allow</option><option>deny</option><option>reject</option><option>limit</option></select><label>" +++
  tr language "firewall.ports" +++ h "</label><input name='ports' required><label>" +++ tr language "firewall.protocol" +++
  h "</label><select name='protocol'><option>tcp</option><option>udp</option></select><label>" +++ tr language "firewall.source" +++
  h "</label><input name='source' value='any' required><button class='danger-button'>" +++ tr language "firewall.add_rule" +++ "</button></form></article>".
Definition firewall_values (token level language result error : string) (s : webfirewall.Snapshot) : pairs :=
  let info := webfirewall.info s in
  let version := default (Text language "common.unknown") (webfirewall.Version info) in
  head token level language ++
  [("{{NOTICE}}", if negb (String.eqb error "") then danger (esc error)
                  else when (negb (String.eqb result "")) (success (tr language "firewall.action_scheduled")));
   ("{{INFO}}", renderPairs [(Text language "firewall.product", webfirewall.Product info +++ " " +++ version);
      (Text language "firewall.active", yesNoForLanguage (webfirewall.Active info) language); ("IPv6", optionalBoolForLanguage (webfirewall.IPv6 info) language);
      (Text language "firewall.default_incoming", webfirewall.DefaultIncoming info); (Text language "firewall.default_outgoing", webfirewall.DefaultOutgoing info)]);
   ("{{RELOAD}}", when (acts level) (firewall_reload (esc token) language (webfirewall.Active info)));
   ("{{ADD}}", when (modifies level) (firewall_add (esc token) language));
   ("{{ACTION_HEADER}}", when (modifies level) (cell (tr language "common.action")));
   ("{{RULES}}", renderFirewallRules (webfirewall.Rules s) (esc token) (modifies level) services_file language)].

(** ** Cron, certificates *)

Definition owner_option (u : webcron.User) : string :=
  h "<option value='" +++ esc (webcron.Name u) +++ h "'>" +++ esc (webcron.Name u +++ when (webcron.System u) " (service)") +++ "</option>".
Definition cron_values (token level language execution result : string) (s : webcron.Snapshot) : pairs :=
  let info := webcron.info s in
  let status := webcron.status s in
  let yes b := yesNoForLanguage b language in
  head token level language ++
  [("{{NOTICE}}", if negb (String.eqb execution "") then success (tr language "cron.execution_scheduled")
                  else when (negb (String.eqb result "")) (success (tr language "cron.action_done")));
   ("{{INFO}}", renderPairs [(Text language "cron.version", webcron.Product info +++ " " +++ webcron.Version info); (Text language "cron.service", webcron.Service info);
      (Text language "cron.systemd_unit", webcron.Unit_ info); (Text language "cron.anacron", yes (webcron.AnacronAvailable info))]);
   ("{{STATUS}}", renderPairs [(Text language "cron.installed", yes (webcron.Exists status)); (Text language "cron.active", yes (webcron.Active status));
      (Text language "cron.autostart", yes (webcron.Enabled status)); (Text language "cron.status", webcron.State status);
      (Text language "cron.main_pid", itoa (webcron.MainPID status)); (Text language "cron.memory", formatByteCountForLanguage (webcron.MemoryBytes status) language);
      (Text language "cron.tasks", formatIntegerForLanguage (webcron.Tasks status) language)]);
   ("{{CREATE}}", when (modifies level) (renderBackupLibrary (esc token) (glue (owner_option <$> webcron.Users s)) language));
   ("{{ACTION_HEADER}}", when (acts level) (cell (tr language "cron.actions")));
   ("{{JOBS}}", renderCronJobs (webcron.Jobs s) (esc token) level language)].
Definition opt_number (v : option Z) : json := match v with Some n => JNum (itoa n) | None => JNull end.
Definition opt_string (v : option string) : json := match v with Some s => JStr s | None => JNull end.
Definition cron_result_json (x : webcron.ExecutionResult) : json :=
  JObj [("execution_id", JStr (webcron.ExecutionID x)); ("status", JStr (webcron.result_Status x)); ("exit_code", opt_number (webcron.ExitCode x));
        ("timed_out", JBool (webcron.TimedOut x)); ("truncated", JBool (webcron.Truncated x)); ("duration_ms", JNum (itoa (webcron.DurationMS x)));
        ("stdout", JStr (webcron.Stdout x)); ("stderr", JStr (webcron.Stderr x))].
Definition certbot_status (language : string) (texts_ : string * string * string * string) : string :=
  let '(exists_, active, enabled, last) := texts_ in
  renderPairs [(Text language "certbot.timer_exists", exists_); (Text language "certbot.timer_active", active); (Text language "certbot.autostart", enabled);
               (Text language "certbot.last_result", last)].
Definition certbot_absent (token level language : string) : pairs :=
  let no := Text language "common.no" in
  head token level language ++
  [("{{NOTICE}}", notice (tr language "certbot.not_installed_notice"));
   ("{{INFO}}", renderPairs [(Text language "certbot.installation", Text language "certbot.not_installed"); (Text language "certbot.function", Text language "certbot.function_value")]);
   ("{{STATUS}}", certbot_status language (no, no, no, Text language "certbot.unavailable")); ("{{ACTIONS}}", ""); ("{{ACTION_HEADER}}", "");
   ("{{CERTIFICATES}}", renderCertificates [] (esc token) false language)].
Definition certbot_notice (language execution : string) : string :=
  success (tr language "certbot.action_scheduled" +++
    h " <button class='secondary-button compact-link' type='button' data-certbot-result-open='" +++ esc execution +++ h "'>" +++ tr language "certbot.view_result" +++
    "</button>").
Definition certbot_values (token level language execution : string) (s : webcertbot.Snapshot) : pairs :=
  let info := webcertbot.info s in
  let status := webcertbot.status s in
  let yes b := yesNoForLanguage b language in
  if negb (webcertbot.Installed info) then certbot_absent token level language
  else
    head token level language ++
    [("{{NOTICE}}", when (negb (String.eqb execution "")) (certbot_notice language execution));
     ("{{INFO}}", renderPairs [(Text language "certbot.product", webcertbot.Product info +++ " " +++ webcertbot.Version info);
        (Text language "certbot.installation", webcertbot.Installation info); (Text language "certbot.executable", webcertbot.Executable info);
        (Text language "certbot.plugins", join ", " (webcertbot.Plugins info))]);
     ("{{STATUS}}", certbot_status language (yes (webcertbot.TimerExists status), yes (webcertbot.TimerActive status), yes (webcertbot.TimerEnabled status),
        webcertbot.LastResult status));
     ("{{ACTIONS}}", when (acts level)
        (certbotButton "renew-test" (Text language "certbot.test_renewal") "secondary-button" "" (esc token) +++
         certbotButton "renew" (Text language "certbot.renew") "primary-button" "" (esc token)));
     ("{{ACTION_HEADER}}", when (acts level) (cell (tr language "common.actions")));
     ("{{CERTIFICATES}}", renderCertificates (webcertbot.Certificates s) (esc token) (acts level) language)].
Definition certbot_result_json (x : webcertbot.ActionResult) : json :=
  JObj [("execution_id", JStr (webcertbot.ExecutionID x)); ("action", JStr (webcertbot.Action x)); ("status", JStr (webcertbot.result_Status x));
        ("exit_code", opt_number (webcertbot.ExitCode x)); ("timed_out", JBool (webcertbot.TimedOut x)); ("truncated", JBool (webcertbot.Truncated x));
        ("duration_ms", JNum (itoa (webcertbot.DurationMS x))); ("stdout", JStr (webcertbot.Stdout x)); ("stderr", JStr (webcertbot.Stderr x))].

(** ** The updates *)

Definition start_form (token : string) : string :=
  h "<div class='section-actions'><form method='post' action='/updates/start'><input type='hidden' name='_token' value='" +++ token +++
  h "'><button class='danger-button'>Installer les mises à jour</button></form></div>".
Definition reboot_form (token : string) : string :=
  h "<div class='notice notice--warning reboot-required'><h3>Redémarrage requis</h3><p>Une mise à jour installée nécessite le redémarrage du serveur.</p><form class='selector-form' method='post' action='/updates/reboot'><input type='hidden' name='_token' value='" +++
  token +++
  h "'><label>Délai<select name='delay'><option value='0'>Maintenant</option><option value='5'>Dans 5 minutes</option><option value='15'>Dans 15 minutes</option><option value='30'>Dans 30 minutes</option><option value='60'>Dans 1 heure</option></select></label><label class='checkbox-line'><input type='checkbox' name='confirmation' value='reboot' required> Je confirme le redémarrage du serveur et l’interruption des services.</label><button class='danger-button'>Redémarrer le serveur</button></form></div>".
Definition last_check (c : webupdates.Composer) : string :=
  if webupdates.Refreshing c then "Vérification Composer en cours…"
  else "Dernière vérification : " +++ or_text (default "" (webupdates.RefreshedAt c)) "jamais".
Definition composer_state (c : webupdates.Composer) : string :=
  when (negb (webupdates.Available c) || nothing (webupdates.Sites c))
    (notice (esc (or_text (or_text (webupdates.composer_Message c) (when (webupdates.Refreshing c) "La première vérification des sites est en cours."))
                          "Aucun projet Composer détecté."))).
Definition updates_values (token level language delay : string) (root : bool) (s : webupdates.Snapshot) : pairs :=
  let info := webupdates.info s in
  let composer := webupdates.composer s in
  let number n := formatIntegerForLanguage n language in
  head token level language ++
  [("{{NOTICE}}",
     if String.eqb delay "now" then warning "Le redémarrage immédiat du serveur a été programmé."
     else when (negb (String.eqb delay "")) (warning ("Le redémarrage du serveur a été programmé dans " +++ esc delay +++ " minutes.")));
   ("{{SUMMARY}}", renderMetricPairs [("Gestionnaire", webupdates.Backend info); ("Paquets", number (webupdates.UpdateCount info));
      ("Sécurité", number (webupdates.SecurityUpdateCount info)); ("Redémarrage", yesNoForLanguage (webupdates.RebootRequired info) language)]);
   ("{{ACTIONS}}", when (modifies level) (start_form (esc token)) +++ when (root && webupdates.RebootRequired info) (reboot_form (esc token)));
   ("{{PACKAGES}}", renderUpdates (webupdates.Updates s) language); ("{{FIRMWARE}}", renderFirmware (webupdates.fw_Updates (webupdates.firmware s)) language);
   ("{{COMPOSER}}", renderComposer ParseLink (webupdates.Sites composer) language);
   ("{{COMPOSER_ACTION}}", when (modifies level && webupdates.Available composer)
      (short_form "/updates/composer-refresh" (esc token) "primary-button" "Vérifier maintenant"));
   ("{{COMPOSER_STATUS}}", esc (last_check composer)); ("{{COMPOSER_STATE}}", composer_state composer);
   ("{{COMPOSER_REFRESHING}}", if webupdates.Refreshing composer then "true" else "false")].
Definition failed_summary : webupdates.Summary :=
  webupdates.mkSummary false "L’état des mises à jour est indisponible." false false 0 0 0 0 false "neutral" "Indisponible" "État indisponible"
    "La vérification n’a pas pu être effectuée." "/updates".
Definition label_texts : list (string * string) :=
  [("Sécurité", "Security"); ("Mises à jour disponibles", "Updates available"); ("Redémarrage requis", "Reboot required"); ("État partiel", "Partial status");
   ("À jour", "Up to date"); ("Indisponible", "Unavailable")].
Definition localizeUpdatesSummary (s : webupdates.Summary) (language : string) : webupdates.Summary :=
  if negb (String.eqb language "en") then s
  else
    let count := webupdates.sum_UpdateCount s in
    let '(value, subtitle) :=
      if webupdates.UpdatesAvailable s then
        (itoa count +++ " " +++ (if count =? 1 then "update" else "updates"),
         itoa (webupdates.APTUpdateCount s) +++ " packages · " +++ itoa (webupdates.FirmwareUpdateCount s) +++ " firmware · " +++
         itoa (webupdates.sum_SecurityUpdateCount s) +++ " security")
      else if webupdates.sum_RebootRequired s then ("Reboot required", "No new update available.")
      else if negb (webupdates.Complete s) then ("Packages up to date", "Firmware monitoring unavailable.")
      else ("System up to date", "No package or firmware update.") in
    let '(message, value, subtitle) :=
      if negb (webupdates.Success s) then ("Update status is unavailable.", "Status unavailable", "The check could not be completed.")
      else (webupdates.Message s, value, subtitle) in
    webupdates.mkSummary (webupdates.Success s) message (webupdates.Complete s) (webupdates.UpdatesAvailable s) count (webupdates.APTUpdateCount s)
      (webupdates.FirmwareUpdateCount s) (webupdates.sum_SecurityUpdateCount s) (webupdates.sum_RebootRequired s) (webupdates.Status s)
      (lookup_or (webupdates.StatusLabel s) label_texts (webupdates.StatusLabel s)) value subtitle (webupdates.URL s).
Definition summary_json (s : webupdates.Summary) : json :=
  let number f := JNum (itoa (f s)) in
  JObj [("success", JBool (webupdates.Success s)); ("message", JStr (webupdates.Message s)); ("complete", JBool (webupdates.Complete s));
        ("updatesAvailable", JBool (webupdates.UpdatesAvailable s)); ("updateCount", number webupdates.sum_UpdateCount);
        ("aptUpdateCount", number webupdates.APTUpdateCount); ("firmwareUpdateCount", number webupdates.FirmwareUpdateCount);
        ("securityUpdateCount", number webupdates.sum_SecurityUpdateCount); ("rebootRequired", JBool (webupdates.sum_RebootRequired s));
        ("status", JStr (webupdates.Status s)); ("statusLabel", JStr (webupdates.StatusLabel s)); ("value", JStr (webupdates.Value_ s));
        ("subtitle", JStr (webupdates.Subtitle s)); ("url", JStr (webupdates.URL s))].
(** The lines are a list, as the API sends them. *)
Definition job_json (x : webupdates.Job) : json :=
  JObj [("job_id", JStr (webupdates.JobID x)); ("status", JStr (webupdates.job_Status x)); ("backend", JStr (webupdates.job_Backend x));
        ("lines", JArr (JStr <$> webupdates.Lines x)); ("exit_code", opt_number (webupdates.ExitCode x)); ("started_at", JStr (webupdates.StartedAt x));
        ("finished_at", opt_string (webupdates.FinishedAt x))].
Definition menu_json (m : list (string * list (string * string * string))) : json :=
  JArr ((λ c, JObj [("Name", JStr c.1);
                    ("Modules", JArr ((λ x, JObj [("Name", JStr x.1.1); ("Icon", JStr x.1.2); ("Route", JStr x.2)]) <$> c.2))]) <$> m).

(** ** The pages of root *)

Definition users_values (token result : string) (items : list Store.AdminUser) (current : Z) : pairs :=
  [("{{CSRF}}", esc token); ("{{NOTICE}}", success_notice result "L’opération a été enregistrée."); ("{{STATISTICS}}", renderUserStatistics items);
   ("{{USERS}}", renderUserRows items current)].
Definition access_values (token language login ip event : string) (page : Z) (logins : list string) (result : StoreSettings.AccessLogResult) : pairs :=
  [("{{CSRF}}", esc token); ("{{USERS}}", login_options login logins); ("{{IP}}", esc ip); ("{{EVENTS}}", event_options event);
   ("{{TOTAL}}", itoa (StoreSettings.Total result)); ("{{ENTRIES}}", access_entries language (StoreSettings.Items result));
   ("{{PAGINATION}}", access_pagination login ip event page (StoreSettings.PerPage result) (StoreSettings.Total result))].
(** [renderUserCreatePage] *)
Definition create_values (token : string) (modules : list StoreNav.AssignableModule) (permissions : gmap Z string) (user : Store.AdminUser) (message : string) : pairs :=
  [("{{CSRF}}", esc token);
   ("{{ERROR}}", when (negb (String.eqb message "")) (h "<p class='error' role='alert'>" +++ esc message +++ "</p>"));
   ("{{LOGIN}}", esc (Store.a_Login user)); ("{{FIRST_NAME}}", esc (Store.FirstName user)); ("{{LAST_NAME}}", esc (Store.LastName user));
   ("{{EMAIL}}", esc (Store.Email user)); ("{{TWO_FACTOR_REQUIRED}}", checked (Store.a_TwoFactorRequired user));
   ("{{CREATE_PERMISSIONS}}", renderPermissionFields modules permissions "")].
Definition no_user : Store.AdminUser :=
  {| Store.a_ID := 0; Store.a_Login := ""; Store.FirstName := ""; Store.LastName := ""; Store.Email := ""; Store.a_Type := ""; Store.a_Status := "";
     Store.a_MustChangePassword := false; Store.a_TwoFactorRequired := false; Store.TwoFactorEnabled := false; Store.a_AuthVersion := 0 |}.
Definition edit_values (token : string) (d : Schema.Database) (user : Store.AdminUser) : pairs :=
  [("{{CSRF}}", esc token); ("{{USER}}", renderAdminUsers [user] (StoreNav.AssignableModules d) (Store.ModulePermissions d) token)].
Definition modules_values (token language result : string) (items : list StoreNav.AdminCategory) : pairs :=
  [("{{CSRF}}", esc token); ("{{NOTICE}}", success_notice result "La navigation a été mise à jour.");
   ("{{CATEGORIES}}", renderAdminNavigation items token language)].
Record AdminAccess := mkAdminAccess { aa_Available : bool; aa_Enabled : bool; aa_Address : string; aa_Port : Z; aa_AllowFrom : string; aa_URL : string; aa_Message : string }.
Definition decode_admin_access : decoder AdminAccess := λ d,
  available ← d_bool "available" d; enabled ← d_bool "enabled" d; address ← d_str "address" d; port ← d_int "port" d; allow ← d_str "allow_from" d;
  url ← d_str "url" d; message ← d_str "message" d; Some (mkAdminAccess available enabled address port allow url message).
Definition settings_values (token result language_ : string) (values : StoreSettings.ApplicationSettings) (smtp : StoreSettings.SMTPSettings_)
    (sources : option (list string)) (admin : AdminAccess) : pairs :=
  let configured := StoreSettings.PasswordConfigured smtp in
  [("{{CSRF}}", esc token); ("{{NOTICE}}", success_notice result "Les paramètres ont été enregistrés."); ("{{DEFAULT_LANGUAGE}}", renderLanguageOptions language_);
   ("{{LOG_SOURCES}}", renderSettingLogSources sources (StoreSettings.DefaultLog values)); ("{{CERTBOT_EMAIL}}", esc (StoreSettings.CertbotEmail values));
   ("{{SMTP_HOST}}", esc (StoreSettings.Host smtp)); ("{{SMTP_USERNAME}}", esc (StoreSettings.Username smtp)); ("{{SMTP_PORT}}", itoa (StoreSettings.Port smtp));
   ("{{SMTP_SECURITY}}", renderSMTPSecurity (StoreSettings.Security smtp)); ("{{SMTP_PASSWORD_MASK}}", smtpPasswordMask configured);
   ("{{SMTP_PASSWORD_STATUS}}", smtpPasswordStatus configured);
   ("{{ADMIN_MESSAGE}}", when (negb (String.eqb (aa_Message admin) "")) (notice (esc (aa_Message admin)))); ("{{ADMIN_ENABLED}}", checked (aa_Enabled admin));
   ("{{ADMIN_ADDRESS}}", esc (aa_Address admin)); ("{{ADMIN_PORT}}", itoa (aa_Port admin)); ("{{ADMIN_ALLOW}}", esc (aa_AllowFrom admin))].

(** ** The configuration *)

(** What the client decoded, and an object in it. *)
Definition decoded (d : data) : jmap := default [] (mapValue (normalizedJSONValue (Api.VMap d))).
Definition pretty (m : option jmap) : string := json_pretty 0 (match m with Some m => JObj m | None => JNull end).
Definition configuration_values (token language result : string) (inventory snapshots : jmap) : pairs :=
  let '(available, total) := inventoryCounts inventory in
  let '(sources, targets, disabled) := renderSnapshotCompareOptions snapshots language in
  let number n := formatIntegerForLanguage n language in
  [("{{CSRF}}", esc token); ("{{NOTICE}}", localizedConfigurationFragment (success_notice result done_fr) language);
   ("{{SUMMARY}}", renderMetricPairs [(configText language "Sections disponibles" "Available sections", number available);
      (configText language "Sections totales" "Total sections", number total); ("Snapshots", number (intValue (at_key snapshots "count")))]);
   ("{{INVENTORY}}", renderInventory inventory language); ("{{SNAPSHOTS}}", renderSnapshots snapshots token language);
   ("{{SNAPSHOT_SOURCE_OPTIONS}}", sources); ("{{SNAPSHOT_TARGET_OPTIONS}}", targets); ("{{COMPARE_DISABLED}}", disabled)].
Definition compare_values (language : string) (comparison : option jmap) : pairs :=
  [("{{SOURCE}}", esc (decoded_text (member comparison "source_id"))); ("{{TARGET}}", esc (decoded_text (member comparison "target_id")));
   ("{{SUMMARY}}", renderComparisonSummary (mapValue (member comparison "counts")) language);
   ("{{SECTIONS}}", renderComparisonSections (member comparison "sections") language); ("{{RAW}}", esc (pretty comparison))].
Definition snapshot_values (language : string) (snapshot : option jmap) : pairs :=
  let text key := decoded_text (member snapshot key) in
  [("{{ID}}", esc (text "id")); ("{{CREATED}}", esc (FormatRFC3339 language (text "created_at"))); ("{{SCHEMA}}", esc (text "inventory_schema"));
   ("{{FINGERPRINT}}", esc (text "inventory_sha256"));
   ("{{SECTIONS}}", renderSnapshotSections (member (mapValue (member snapshot "inventory")) "sections") language); ("{{RAW}}", esc (pretty snapshot))].
(** The template is translated before the data is put in. *)
Definition configuration_page (name language : string) (values : pairs) : Answer :=
  show (Html (localizeConfigurationTemplate (template name) language) values id) StatusOK.
End render.

(** ** The handlers *)

Section handlers.
Context `{UnicodeCase} `{PasswordHash} `{NetIP} `{!Catalogs} `{!Floats} `{!LocalAPI} `{!Assets} `{!Arrival}.
Context (flag_language : string) (shortest : spec_float → string) (ParseLink : string → option (string * string)).

Definition languageForUser (e : Env) (user : Z) (w : World) : string :=
  match (if db_up e then StoreSettings.LanguageForUser (db w) user else Err (Schema.ErrMessage "")) with
  | Ok language => if Supported language then language else defaultLanguage flag_language e w
  | Err _ => defaultLanguage flag_language e w
  end.
(** A read that failed has one answer; what was read makes the other. *)
Definition reading {A} (result : res string A * World) (failed : string → Answer) (k : A → World → Answer) : Answer * World :=
  let '(r, w) := result in (match r with Ok a => k a w | Err error => failed error end, w).
(** The account may open the module: [k] has the session, the account, the right and the language. *)
Definition on_page (e : Env) (r : HTTPRequest) (module : string) (w : World)
    (k : Session.Session → Store.User → string → World → Answer * World) : Answer * World :=
  authenticatedUser e r w (λ s user w, modulePermission e user module w (λ level granted w, if negb granted then (forbidden, w) else k s user level w)).
Definition token (s : Session.Session) : string := Session.CSRFToken s.
Definition language_of (e : Env) (user : Store.User) (w : World) : string := languageForUser e (Store.UserID user) w.

(** The requests sent at once, as the API answers them. *)
Definition with_collector {A} (w : World) (x : A * list Api.Request) : A * World := (x.1, with_sent w x.2).
Definition dashboard (e : Env) (r : HTTPRequest) (w : World) : Answer * World :=
  authenticatedUser e r w (λ s user w,
    let '(snapshot, w) := with_collector w (Dashboard.take_snapshot execute (arrive Dashboard.snapshot_requests) (sent w)) in
    let language := language_of e user w in
    (html "dashboard.html" language (dashboard_values (Store.Login user) (token s) language snapshot), w)).
Definition cards_answer (e : Env) (user : Store.User) (x : list Dashboard.Card * World) : Answer * World :=
  let '(cards, w) := x in (writeJSON (JArr (card_json <$> localizeDashboardCards cards (language_of e user w))) StatusOK, w).
Definition dashboardResources (e : Env) (r : HTTPRequest) (w : World) : Answer * World :=
  authenticatedUser e r w (λ _ user w, cards_answer e user (with_collector w (Dashboard.Resources execute (sent w)))).
Definition dashboardSupervision (e : Env) (r : HTTPRequest) (w : World) : Answer * World :=
  authenticatedUser e r w (λ _ user w,
    cards_answer e user (with_collector w (Dashboard.Supervision execute (arrive Dashboard.supervision_requests) (sent w)))).
Definition updatesSummary (e : Env) (r : HTTPRequest) (w : World) : Answer * World :=
  authenticatedUser e r w (λ _ user w,
    let '(result, w) := webupdates.Summarize w in
    let answer s status := writeJSON (summary_json (localizeUpdatesSummary s (language_of e user w))) status in
    (match result with Ok s => answer s StatusOK | Err _ => answer failed_summary StatusServiceUnavailable end, w)).
Definition processes (e : Env) (r : HTTPRequest) (w : World) : Answer * World :=
  on_page e r "processes" w (λ s user _ w,
    let '(snapshot, w) := with_collector w (Dashboard.Processes execute (sent w)) in
    match snapshot with
    | None => (unavailable "Les processus n’ont pas pu être chargés.", w)
    | Some snapshot => let language := language_of e user w in (html "processes.html" language (processes_values shortest (token s) language snapshot), w)
    end).
Definition navigationMenu (e : Env) (r : HTTPRequest) (w : World) : Answer * World :=
  authenticatedUser e r w (λ _ user w,
    if negb (db_up e) then (unavailable "Navigation indisponible.", w)
    else (writeJSON (menu_json (menu (language_of e user w) (StoreNav.Menu (db w) user))) StatusOK, w)).
Definition storage (e : Env) (r : HTTPRequest) (w : World) : Answer * World :=
  on_page e r "storage" w (λ s user level w,
    reading (webstorage.StorageSnapshot w) (λ _, unavailable "Les informations de stockage n’ont pas pu être chargées.")
      (λ x w, let language := language_of e user w in html "storage.html" language (storage_values (token s) level language x))).
Definition services (e : Env) (r : HTTPRequest) (q : Query) (w : World) : Answer * World :=
  on_page e r "services" w (λ s user level w,
    reading (webservices.ServicesSnapshot w) (λ _, unavailable "Les services n’ont pas pu être chargés.")
      (λ x w, let language := language_of e user w in html "services.html" language (services_values (token s) level language (Get q "result") x))).
Definition network (e : Env) (r : HTTPRequest) (q : Query) (w : World) : Answer * World :=
  on_page e r "network" w (λ s user level w,
    if 64 <? slen (Get q "interface") then (http_error [] "L’interface demandée est invalide." StatusBadRequest, w)
    else
      reading (webnetwork.NetworkSnapshot w (Get q "interface")) (λ _, unavailable "Les informations réseau n’ont pas pu être chargées.")
        (λ x w, let language := language_of e user w in html "network.html" language (network_values (token s) level language x))).
(** The number of lines asked for, 100 when none is. *)
Definition line_count (value : string) : option Z :=
  if String.eqb value "" then Some 100
  else match atoi value with
       | Some n => if (n <? 1) || (5000 <? n) || negb (String.eqb value (itoa n)) then None else Some n
       | None => None
       end.
Definition logs (e : Env) (r : HTTPRequest) (q : Query) (w : World) : Answer * World :=
  on_page e r "logs" w (λ s user level w,
    let bad message := (http_error [] message StatusBadRequest, w) in
    let logLevel := trim_space (Get q "level") in
    let keyword := trim_space (Get q "keyword") in
    if 255 <? slen (Get q "source") then bad "Le journal demandé est invalide."
    else if negb (existsb (String.eqb logLevel) [""; "error"; "warning"; "info"]) then bad "Le type d’événement demandé est invalide."
    else if (128 <? slen keyword) || contains_any keyword (String nul (String cr (String nl ""))) then bad "Le mot-clé demandé est invalide."
    else match line_count (Get q "lines") with
    | None => bad "Le nombre de lignes doit être compris entre 1 et 5000."
    | Some lineCount =>
        let default_log := if db_up e then trim_space (StoreSettings.DefaultLog (StoreSettings.Settings (db w))) else "" in
        reading (weblogs.LogsSnapshot w (or_text (Get q "source") default_log) lineCount) (λ _, unavailable "Les journaux n’ont pas pu être chargés.")
          (λ x w, let language := language_of e user w in html "logs.html" language (logs_values (token s) level language logLevel keyword lineCount x))
    end).
Definition about (e : Env) (r : HTTPRequest) (w : World) : Answer * World :=
  on_page e r "about" w (λ s user _ w, let language := language_of e user w in (html "about.html" language (about_values (token s) language), w)).
Definition php (e : Env) (r : HTTPRequest) (q : Query) (w : World) : Answer * World :=
  on_page e r "php" w (λ s user level w,
    reading (webphp.PHPSnapshot w) (λ _, unavailable "Les informations PHP n’ont pas pu être chargées.")
      (λ x w, let language := language_of e user w in html "php.html" language (php_values (token s) level language (Get q "result") x))).
Definition mysql (e : Env) (r : HTTPRequest) (q : Query) (w : World) : Answer * World :=
  on_page e r "mysql" w (λ s user level w,
    reading (webmysql.MySQLSnapshot w) (λ _, unavailable "Les informations MySQL n’ont pas pu être chargées.")
      (λ x w, let language := language_of e user w in html "mysql.html" language (mysql_values (token s) level language (Get q "result") x))).
Definition mysqlMetrics (e : Env) (r : HTTPRequest) (w : World) : Answer * World :=
  authenticatedUser e r w (λ _ _ w,
    reading (webmysql.MySQLMetrics w) (λ _, unavailable "Les métriques MySQL n’ont pas pu être actualisées.")
      (λ m _, writeJSON (metrics_json m) StatusOK)).
Definition tor (e : Env) (r : HTTPRequest) (q : Query) (w : World) : Answer * World :=
  on_page e r "tor" w (λ s user level w,
    reading (webtor.TorSnapshot w) (λ _, unavailable "Les informations Tor n’ont pas pu être chargées.")
      (λ x w, let language := language_of e user w in html "tor.html" language (tor_values (token s) level language (Get q "result") x))).
Definition apache (e : Env) (r : HTTPRequest) (q : Query) (w : World) : Answer * World :=
  on_page e r "apache" w (λ s user level w,
    reading (webapache.ApacheSnapshot w) (λ _, unavailable "Les informations Apache n’ont pas pu être chargées.")
      (λ x w, let language := language_of e user w in
        html "apache.html" language (apache_values (token s) level language (Get q "result") (Get q "error") x))).
Definition apacheSite (e : Env) (r : HTTPRequest) (q : Query) (w : World) : Answer * World :=
  on_page e r "apache" w (λ _ _ level w,
    if negb (modifies level) then (forbidden, w)
    else reading (webapache.ApacheSite w (PathValue q)) (λ error, http_error [] error StatusNotFound) (λ c _, writeJSON (site_json c) StatusOK)).
Definition fail2ban (e : Env) (r : HTTPRequest) (q : Query) (w : World) : Answer * World :=
  on_page e r "fail2ban" w (λ s user level w,
    let language := language_of e user w in
    reading (webfail2ban.Fail2banSnapshot w (Get q "jail")) (λ _, unavailable "Les informations Fail2ban n’ont pas pu être chargées.")
      (λ x _, html "fail2ban.html" language (fail2ban_values (token s) level language (Get q "result") x))).
Definition firewall (e : Env) (r : HTTPRequest) (q : Query) (w : World) : Answer * World :=
  on_page e r "firewall" w (λ s user level w,
    let language := language_of e user w in
    reading (webfirewall.FirewallSnapshot w) (λ _, unavailable "Les informations du pare-feu n’ont pas pu être chargées.")
      (λ x _, html "firewall.html" language (firewall_values (token s) level language (Get q "result") (Get q "error") x))).
Definition cron (e : Env) (r : HTTPRequest) (q : Query) (w : World) : Answer * World :=
  on_page e r "cron" w (λ s user level w,
    reading (webcron.CronSnapshot w) (λ _, unavailable "Les informations Cron n’ont pas pu être chargées.")
      (λ x w, let language := language_of e user w in
        html "cron.html" language (cron_values (token s) level language (Get q "execution") (Get q "result") x))).
Definition cronResult (e : Env) (r : HTTPRequest) (q : Query) (w : World) : Answer * World :=
  on_page e r "cron" w (λ _ _ level w,
    if negb (acts level) then (forbidden, w)
    else reading (webcron.CronResult w (PathValue q)) (λ error, http_error [] error StatusNotFound) (λ x _, writeJSON (cron_result_json x) StatusOK)).
Definition certbot (e : Env) (r : HTTPRequest) (q : Query) (w : World) : Answer * World :=
  on_page e r "certbot" w (λ s user level w,
    let language := language_of e user w in
    reading (webcertbot.CertbotSnapshot w) (λ _, unavailable "Les certificats TLS n’ont pas pu être chargés.")
      (λ x _, html "certbot.html" language (certbot_values (token s) level language (Get q "execution") x))).
Definition certbotResult (e : Env) (r : HTTPRequest) (q : Query) (w : World) : Answer * World :=
  on_page e r "certbot" w (λ _ _ _ w,
    if negb (contains (Accept q) "application/json") then (redirect [] ("/certbot?execution=" +++ QueryEscape (PathValue q)), w)
    else reading (webcertbot.Result w (PathValue q)) (λ _, http_error [] "Résultat indisponible." StatusNotFound)
           (λ x _, writeJSON (certbot_result_json x) StatusOK)).
Definition updates (e : Env) (r : HTTPRequest) (q : Query) (w : World) : Answer * World :=
  on_page e r "updates" w (λ s user level w,
    let language := language_of e user w in
    reading (webupdates.UpdatesSnapshot w) (λ _, unavailable "Les mises à jour n’ont pas pu être chargées.")
      (λ x _, translated "updates.html" (λ text, localizeUpdatesHTML text language)
                (updates_values ParseLink (token s) level language (Get q "reboot") (String.eqb (Store.Type_ user) "root") x))).
(** The age of a job, in nanoseconds, since it started. *)
Definition recent_job (e : Env) (x : webupdates.Job) : bool :=
  match Time.parse_rfc3339 (webupdates.StartedAt x) with
  | Some started => let age := now e - started * 10^9 in negb (age <? -5 * 60 * 10^9) && negb (4 * 3600 * 10^9 <? age)
  | None => false
  end.
(** The job is read first: without a session its identifier is enough, for four hours. *)
Definition updatesJob (e : Env) (r : HTTPRequest) (q : Query) (w : World) : Answer * World :=
  let '(result, w) := webupdates.FindJob w (PathValue q) in
  match result with
  | Err _ => (http_error [] "Suivi indisponible." StatusNotFound, w)
  | Ok job =>
      let '(found, w) := requestSession e r w in
      if is_valid found then on_page e r "updates" w (λ _ _ _ w, (writeJSON (job_json job) StatusOK, w))
      else if recent_job e job then (writeJSON (job_json job) StatusOK, w)
      else (http_error [] "Suivi indisponible." StatusNotFound, w)
  end.
Definition users (e : Env) (r : HTTPRequest) (q : Query) (w : World) : Answer * World :=
  rootUser e r w (λ s user w,
    if negb (db_up e) then (unavailable "Les utilisateurs n’ont pas pu être chargés.", w)
    else (translated "users.html" (λ text, localizeUsersHTML text (language_of e user w))
            (users_values (token s) (Get q "result") (Store.AdminUsers (db w)) (Store.UserID user)), w)).
Definition userAccessLog (e : Env) (r : HTTPRequest) (q : Query) (w : World) : Answer * World :=
  rootUser e r w (λ s user w,
    if negb (db_up e) then (unavailable "Le journal des accès n’a pas pu être chargé.", w)
    else
      let page := let p := atoi_val (Get q "page") in if p <? 1 then 1 else p in
      let '(login, ip, event) := (Get q "login", Get q "ip", Get q "event") in
      let result := StoreSettings.AccessLog (db w)
        {| StoreSettings.f_Login := login; StoreSettings.f_IPAddress := ip; StoreSettings.f_Event := event; StoreSettings.f_Page := page; StoreSettings.f_PerPage := 50 |} in
      let language := language_of e user w in
      (translated "user-access-log.html" (λ text, localizeUsersHTML text language)
         (access_values (token s) language login ip event page (Store.AccessLogUsers (db w)) result), w)).
Definition newUser (e : Env) (r : HTTPRequest) (w : World) : Answer * World :=
  rootUser e r w (λ s user w,
    if negb (db_up e) then (unavailable "Les modules n’ont pas pu être chargés.", w)
    else (translated "user-create.html" (λ text, localizeUsersHTML text (language_of e user w))
            (create_values (token s) (StoreNav.AssignableModules (db w)) ∅ no_user ""), w)).
Definition editUser (e : Env) (r : HTTPRequest) (q : Query) (w : World) : Answer * World :=
  rootUser e r w (λ s user w,
    match atoi (PathValue q) with
    | None => (not_found, w)
    | Some id =>
        if negb (db_up e) then (unavailable "L’utilisateur n’a pas pu être chargé.", w)
        else match find (λ u, Store.a_ID u =? id) (Store.AdminUsers (db w)) with
        | None => (not_found, w)
        | Some selected =>
            (translated "user-edit.html" (λ text, localizeUsersHTML text (language_of e user w)) (edit_values (token s) (db w) selected), w)
        end
    end).
Definition modules (e : Env) (r : HTTPRequest) (q : Query) (w : World) : Answer * World :=
  rootUser e r w (λ s user w,
    if negb (db_up e) then (unavailable "Les modules n’ont pas pu être chargés.", w)
    else
      let language := language_of e user w in
      (translated "modules.html" (λ text, localizeModulesHTML text language)
         (modules_values (token s) language (Get q "result") (StoreNav.AdminNavigation (db w))), w)).
Definition settings (e : Env) (r : HTTPRequest) (q : Query) (w : World) : Answer * World :=
  rootUser e r w (λ s user w,
    if negb (db_up e) then (unavailable "Les paramètres n’ont pas pu être chargés.", w)
    else
      let values := StoreSettings.Settings (db w) in
      let stored := StoreSettings.DefaultLanguage values in
      let language_ := if Supported stored then stored else defaultLanguage flag_language e w in
      let '(sources, w) := weblogs.LogSources w in
      reading (fetch (admin_access_call execute w "status" []) decode_admin_access) (λ _, unavailable "L’accès HTTPS n’a pas pu être contrôlé.")
        (λ admin w, translated "settings.html" (λ text, localizeSettingsHTML text (language_of e user w))
           (settings_values (token s) (Get q "result") language_ values (StoreSettings.SMTPSettings (db w))
              (match sources with Ok l => Some l | Err _ => None end) admin))).
Definition configuration (e : Env) (r : HTTPRequest) (q : Query) (w : World) : Answer * World :=
  rootUser e r w (λ s user w,
    let '(inventory, w) := configuration_call w "inventory" [] in
    match inventory with
    | Err _ => (unavailable "L’inventaire n’a pas pu être collecté.", w)
    | Ok inventory =>
        reading (configuration_call w "snapshots" []) (λ _, unavailable "Les snapshots n’ont pas pu être chargés.")
          (λ snapshots w, let language := language_of e user w in
            configuration_page "configuration.html" language (configuration_values (token s) language (Get q "result") (decoded inventory) (decoded snapshots)))
    end).
Definition compareConfigurationSnapshots (e : Env) (r : HTTPRequest) (q : Query) (w : World) : Answer * World :=
  rootUser e r w (λ _ user w,
    let '(source, target) := (Get q "source", Get q "target") in
    if String.eqb source "" || String.eqb target "" || String.eqb source target then (http_error [] "Comparaison invalide." StatusBadRequest, w)
    else
      reading (configuration_call w "snapshot-compare" [source; target]) (λ _, http_error [] "Comparaison indisponible." StatusNotFound)
        (λ d w, let language := language_of e user w in
          configuration_page "configuration-compare.html" language (compare_values language (mapValue (at_key (decoded d) "comparison"))))).
Definition configurationSnapshot (e : Env) (r : HTTPRequest) (q : Query) (w : World) : Answer * World :=
  rootUser e r w (λ _ user w,
    reading (configuration_call w "snapshot" [PathValue q]) (λ _, http_error [] "Snapshot introuvable." StatusNotFound)
      (λ d w, let language := language_of e user w in
        configuration_page "configuration-snapshot.html" language (snapshot_values language (mapValue (at_key (decoded d) "snapshot"))))).
Definition exportConfigurationSnapshot (e : Env) (r : HTTPRequest) (q : Query) (w : World) : Answer * World :=
  rootUser e r w (λ _ _ w,
    reading (configuration_call w "snapshot-export" [PathValue q]) (λ _, http_error [] "Export indisponible." StatusNotFound)
      (λ d _, show (Body (match Api.vget d "content" with Api.VStr s => s | _ => "" end)) StatusOK)).

(** *** The snapshots, made and changed *)

Definition configurationPost (e : Env) (r : HTTPRequest) (command : string) (args : list string) (w : World) : Answer * World :=
  rootUser e r w (λ s _ w, validForm e r s w (λ w,
    answered (configuration_call w command args) (λ _, unavailable "L’opération de configuration a échoué.")
      (λ _, redirect [] ("/configuration?result=" +++ command)))).
Definition createConfigurationSnapshot (e : Env) (r : HTTPRequest) : World → Answer * World :=
  configurationPost e r "snapshot-create" [trim_space (field r "name")].
Definition renameConfigurationSnapshot (e : Env) (r : HTTPRequest) (q : Query) : World → Answer * World :=
  configurationPost e r "snapshot-name" [PathValue q; trim_space (field r "name")].
Definition deleteConfigurationSnapshot (e : Env) (r : HTTPRequest) (q : Query) : World → Answer * World :=
  configurationPost e r "snapshot-delete" [PathValue q; field r "confirmation"].
(** [file]: the file of the form, as it was read. *)
Definition importConfigurationSnapshot (e : Env) (r : HTTPRequest) (file : option string) (w : World) : Answer * World :=
  rootUser e r w (λ s _ w,
    let '(ok, w) := csrf_ok e r s w in
    let bad message := (http_error [] message StatusBadRequest, w) in
    if negb ok then bad "Import invalide."
    else
      let name := trim_space (field r "name") in
      match file with
      | Some content =>
          if String.eqb name "" || (100 <? slen name) || (5 * 1024 * 1024 <? slen content) then bad "Snapshot invalide."
          else answered (configuration_call w "snapshot-import" [name; content])
                 (λ _, http_error [] "Le snapshot importé est invalide ou existe déjà." StatusBadRequest)
                 (λ _, redirect [] "/configuration?result=imported")
      | None => bad "Snapshot invalide."
      end).

(** ** The table of the pages *)

Inductive page_request :=
| DashboardPage | DashboardResources | DashboardSupervision | UpdatesSummary | ProcessesPage | NavigationMenu | StoragePage | ServicesPage | NetworkPage
| LogsPage | AboutPage | PHPPage | MySQLPage | MySQLMetrics | TorPage | ApachePage | ApacheSite | Fail2banPage | FirewallPage | CronPage | CronResult
| CertbotPage | CertbotResult | UpdatesPage | UpdatesJob | UsersPage | AccessLogPage | NewUser | EditUser | ModulesPage | SettingsPage | ConfigurationPage
| ComparePage | SnapshotPage | ExportPage.
Definition serve_get (p : page_request) (e : Env) (r : HTTPRequest) (q : Query) : World → Answer * World :=
  match p with
  | DashboardPage => dashboard e r | DashboardResources => dashboardResources e r | DashboardSupervision => dashboardSupervision e r
  | UpdatesSummary => updatesSummary e r | ProcessesPage => processes e r | NavigationMenu => navigationMenu e r | StoragePage => storage e r
  | ServicesPage => services e r q | NetworkPage => network e r q | LogsPage => logs e r q | AboutPage => about e r | PHPPage => php e r q
  | MySQLPage => mysql e r q | MySQLMetrics => mysqlMetrics e r | TorPage => tor e r q | ApachePage => apache e r q | ApacheSite => apacheSite e r q
  | Fail2banPage => fail2ban e r q | FirewallPage => firewall e r q | CronPage => cron e r q | CronResult => cronResult e r q
  | CertbotPage => certbot e r q | CertbotResult => certbotResult e r q | UpdatesPage => updates e r q | UpdatesJob => updatesJob e r q
  | UsersPage => users e r q | AccessLogPage => userAccessLog e r q | NewUser => newUser e r | EditUser => editUser e r q | ModulesPage => modules e r q
  | SettingsPage => settings e r q | ConfigurationPage => configuration e r q | ComparePage => compareConfigurationSnapshots e r q
  | SnapshotPage => configurationSnapshot e r q | ExportPage => exportConfigurationSnapshot e r q
  end.
End handlers.
