(* ===== verification/PagesFacts.v ===== *)
(** * Who reads the pages, and what is asked for them

    A GET request changes nothing in the account store and asks the local API nothing but to
    read; nothing is asked, and nothing is shown, for someone without the right. *)

From S2P Require Import Prelude GoStrings StringFacts Codec Floats Html.
From S2P Require Api Session Schema Store StoreNav StoreSettings Dashboard Time.
From S2P Require Import Limiter Totp Password WebApp WebGate WebAdmin WebActions WebReads.
From S2P Require Import Fragments Fragments2 Fragments3 Fragments4 Differences Fragments5 Pages.
From Stdlib Require Import Ascii String.
#[local] Open Scope string_scope.
#[local] Open Scope list_scope.
#[local] Open Scope Z_scope.

(** ** Who may read what *)

(** What an answer shows besides an error. *)
Definition shows (a : Answer) : bool := match page a with Html _ _ _ | Body _ => true | _ => false end.
Definition page_module (p : page_request) : option string :=
  match p with
  | ProcessesPage => Some "processes" | StoragePage => Some "storage" | ServicesPage => Some "services" | NetworkPage => Some "network" | LogsPage => Some "logs"
  | AboutPage => Some "about" | PHPPage => Some "php" | MySQLPage => Some "mysql" | TorPage => Some "tor" | ApachePage | ApacheSite => Some "apache"
  | Fail2banPage => Some "fail2ban" | FirewallPage => Some "firewall" | CronPage | CronResult => Some "cron" | CertbotPage | CertbotResult => Some "certbot"
  | UpdatesPage | UpdatesJob => Some "updates"
  | _ => None
  end.
Definition level_reads (p : page_request) (level : string) : bool :=
  match p with ApacheSite => modifies level | CronResult => acts level | _ => true end.
Definition for_root (p : page_request) : bool :=
  match p with
  | UsersPage | AccessLogPage | NewUser | EditUser | ModulesPage | SettingsPage | ConfigurationPage | ComparePage | SnapshotPage | ExportPage => true
  | _ => false
  end.
(** Two of these are of the modules mysql and updates, and do not look at the right on them. *)
Definition for_anyone (p : page_request) : bool :=
  match p with DashboardPage | DashboardResources | DashboardSupervision | NavigationMenu | UpdatesSummary | MySQLMetrics => true | _ => false end.
(** The right on the module, the root account, or any account. *)
Definition may_read (p : page_request) (d : Schema.Database) (user : Store.User) : Prop :=
  match page_module p with
  | Some m => ∃ level, StoreNav.PermissionForModule d user m = Some level ∧ level_reads p level = true
  | None => if for_root p then Store.Type_ user = "root" else for_anyone p = true
  end.
(** The requests to the API a page is made of: each of them reads. *)
Definition page_reads (p : page_request) : list (string * string) :=
  match p with
  | DashboardPage | DashboardResources | DashboardSupervision => Dashboard.snapshot_requests
  | UpdatesSummary => [("updates", "info"); ("updates", "firmware")]
  | ProcessesPage => [("system", "processes")]
  | StoragePage => [("storage", "list")]
  | ServicesPage => [("services", "list")]
  | NetworkPage => [("network", "list"); ("network", "status")]
  | LogsPage => [("logs", "list"); ("logs", "tail")]
  | PHPPage => [("php", "info"); ("php", "fpm")]
  | MySQLPage => [("mysql", "service"); ("mysql", "info"); ("mysql", "status"); ("mysql", "databases")]
  | MySQLMetrics => [("mysql", "status")]
  | TorPage => [("tor", "info"); ("tor", "status"); ("tor", "configtest"); ("tor", "hidden-services")]
  | ApachePage => [("apache", "overview")]
  | ApacheSite => [("apache", "site")]
  | Fail2banPage => [("fail2ban", "info"); ("fail2ban", "status"); ("fail2ban", "configtest"); ("fail2ban", "jail")]
  | FirewallPage => [("firewall", "info"); ("firewall", "rules")]
  | CronPage => [("cron", "info"); ("cron", "status"); ("cron", "users"); ("cron", "jobs")]
  | CronResult => [("cron", "run-result")]
  | CertbotPage => [("certbot", "info"); ("certbot", "status"); ("certbot", "certificates")]
  | CertbotResult => [("certbot", "action-result")]
  | UpdatesPage => [("updates", "info"); ("updates", "firmware"); ("updates", "composer-status"); ("updates", "list")]
  | UpdatesJob => [("updates", "upgrade-status")]
  | SettingsPage => [("logs", "list"); ("admin-access", "status")]
  | ConfigurationPage => [("configuration", "inventory"); ("configuration", "snapshots")]
  | ComparePage => [("configuration", "snapshot-compare")]
  | SnapshotPage => [("configuration", "snapshot")]
  | ExportPage => [("configuration", "snapshot-export")]
  | NavigationMenu | AboutPage | UsersPage | AccessLogPage | NewUser | EditUser | ModulesPage => []
  end.

(** The store is as it was, and the requests added are among these. *)
Definition asks (cs : list (string * string)) (w w' : World) : Prop :=
  db w' = db w ∧ ∃ l, sent w' = l ++ sent w ∧ Forall (λ q, (Api.Domain q, Api.Command q) ∈ cs) l.

Section facts.
Context `{UnicodeCase} `{PasswordHash} `{NetIP} `{!Catalogs} `{!Floats} `{!LocalAPI} `{!Assets} `{!Arrival}.
Context (flag_language : string) (shortest : spec_float → string) (ParseLink : string → option (string * string)).

(** ** The clients *)

Lemma asks_refl cs w : asks cs w w.
Proof. split; [done|]. by exists []. Qed.
Lemma asks_trans cs w1 w2 w3 : asks cs w1 w2 → asks cs w2 w3 → asks cs w1 w3.
Proof.
  intros [Hd1 (l1 & E1 & F1)] [Hd2 (l2 & E2 & F2)]. split; [congruence|]. exists (l2 ++ l1). rewrite E2, E1, app_assoc. split; [done|by apply Forall_app].
Qed.
Lemma ask_asks cs w domain command arguments : (domain, command) ∈ cs → asks cs w (ask execute w domain command arguments).2.
Proof. intros Hc. split; [done|]. eexists [_]. split; [reflexivity|]. by constructor. Qed.
Lemma fixed_call_asks cs w domain message command arguments : (domain, command) ∈ cs → asks cs w (fixed_call execute domain message w command arguments).2.
Proof. apply ask_asks. Qed.
Lemma message_call_asks cs w domain rejected incomplete quoted command arguments : (domain, command) ∈ cs →
  asks cs w (message_call execute domain rejected incomplete quoted w command arguments).2.
Proof. apply ask_asks. Qed.
Lemma then_asks {A B} cs w (m : res string A * World) (k : A → World → res string B * World) :
  asks cs w m.2 → (∀ a w1, asks cs w1 (k a w1).2) → asks cs w (then_ m k).2.
Proof. destruct m as [[a|err] w1]; cbn [then_ snd]; intros Hm Hk; [|done]. eapply asks_trans; [done|apply Hk]. Qed.
Lemma decode_asks {A} cs (dec : decoder A) d w : asks cs w (decode dec d w).2.
Proof. apply asks_refl. Qed.
Lemma fetch_asks {A} cs w (m : res string data * World) (dec : decoder A) : asks cs w m.2 → asks cs w (fetch m dec).2.
Proof. intros Hm. apply then_asks; [done|]. intros. apply decode_asks. Qed.
Lemma let_asks {A B} cs w (m : A * World) (k : A → World → B * World) :
  asks cs w m.2 → (∀ a w1, asks cs w1 (k a w1).2) → asks cs w (let '(a, w1) := m in k a w1).2.
Proof. destruct m as [a w1]. intros Hm Hk. eapply asks_trans; [exact Hm|apply Hk]. Qed.
Lemma reading_asks {A} cs w (m : res string A * World) failed k : asks cs w m.2 → asks cs w (reading m failed k).2.
Proof. by destruct m as [[a|err] w1]. Qed.

(** What a client asks is read off its body. *)
Ltac listed := by (apply (bool_decide_unpack _); vm_compute).
Ltac asking :=
  repeat first
    [ apply asks_refl
    | apply ask_asks; listed | apply fixed_call_asks; listed | apply message_call_asks; listed
    | apply reading_asks | apply fetch_asks | apply then_asks; [|intros ? ?]
    | match goal with
      | |- asks _ _ (let '(_, _) := ?m in _).2 => apply let_asks; [|intros ? ?]
      | |- asks _ _ (match ?x with (_, _) => _ end).2 => apply let_asks; [|intros ? ?]
      | |- asks _ _ (match ?x with _ => _ end).2 => destruct x
      end ].
Create HintDb clients.
#[local] Hint Unfold webstorage.StorageSnapshot webservices.ServicesSnapshot webnetwork.NetworkSnapshot webphp.PHPSnapshot webtor.TorSnapshot webapache.ApacheSnapshot webapache.ApacheSite webfail2ban.Fail2banSnapshot webfirewall.FirewallSnapshot webcron.CronSnapshot webcertbot.CertbotSnapshot webupdates.UpdatesSnapshot webupdates.Summarize : clients.
Ltac client := intros; autounfold with clients; asking.

Lemma storage_asks w : asks (page_reads StoragePage) w (webstorage.StorageSnapshot w).2.
Proof. client. Qed.
Lemma services_asks w : asks (page_reads ServicesPage) w (webservices.ServicesSnapshot w).2.
Proof. client. Qed.
Lemma network_asks w x : asks (page_reads NetworkPage) w (webnetwork.NetworkSnapshot w x).2.
Proof. client. Qed.
Lemma sources_asks cs w : ("logs", "list") ∈ cs → asks cs w (weblogs.LogSources w).2.
Proof. intros Hc. unfold weblogs.LogSources. apply then_asks; [by apply fixed_call_asks|]. intros. asking. Qed.
Lemma logs_asks w x n : asks (page_reads LogsPage) w (weblogs.LogsSnapshot w x n).2.
Proof. unfold weblogs.LogsSnapshot. asking. Qed.
Lemma php_asks w : asks (page_reads PHPPage) w (webphp.PHPSnapshot w).2.
Proof. client. Qed.
Lemma tor_asks w : asks (page_reads TorPage) w (webtor.TorSnapshot w).2.
Proof. client. Qed.
Lemma apache_asks w : asks (page_reads ApachePage) w (webapache.ApacheSnapshot w).2.
Proof. client. Qed.
Lemma site_asks w x : asks (page_reads ApacheSite) w (webapache.ApacheSite w x).2.
Proof. client. Qed.
Lemma fail2ban_asks w x : asks (page_reads Fail2banPage) w (webfail2ban.Fail2banSnapshot w x).2.
Proof. client. Qed.
Lemma firewall_asks w : asks (page_reads FirewallPage) w (webfirewall.FirewallSnapshot w).2.
Proof. client. Qed.
Lemma cron_asks w : asks (page_reads CronPage) w (webcron.CronSnapshot w).2.
Proof. client. Qed.
Lemma certbot_asks w : asks (page_reads CertbotPage) w (webcertbot.CertbotSnapshot w).2.
Proof. client. Qed.
Lemma updates_asks w : asks (page_reads UpdatesPage) w (webupdates.UpdatesSnapshot w).2.
Proof. client. Qed.
Lemma summary_asks w : asks (page_reads UpdatesSummary) w (webupdates.Summarize w).2.
Proof. client. Qed.
Lemma or_warning_asks {A} cs w command warning (dec : decoder (list A)) : ("mysql", command) ∈ cs → asks cs w (webmysql.or_warning w command warning dec).2.
Proof.
  intros Hc. unfold webmysql.or_warning. pose proof (fixed_call_asks cs w "mysql" "mysql backend request failed" command [] Hc) as Hm. fold (call "mysql" "mysql backend request failed" w command []) in Hm.
  destruct (call _ _ _ _ _) as [[d|err] w1]; cbn [snd] in *; [|done]. eapply asks_trans; [exact Hm|]. asking.
Qed.
Lemma mysql_asks w : asks (page_reads MySQLPage) w (webmysql.MySQLSnapshot w).2.
Proof.
  assert (∀ command, ("mysql", command) ∈ page_reads MySQLPage → ∀ w, asks (page_reads MySQLPage) w (call "mysql" "mysql backend request failed" w command []).2) as Hc
    by (intros; by apply fixed_call_asks).
  assert (∀ w d, asks (page_reads MySQLPage) w (webmysql.server_snapshot w d).2) as Hs.
  { intros w1 d. unfold webmysql.server_snapshot. pose proof (Hc "info" ltac:(listed) w1) as Hi. destruct (call _ _ _ _ _) as [[x|err] w2]; cbn [snd] in Hi; (eapply asks_trans; [exact Hi|]).
    - asking; apply or_warning_asks; listed.
    - asking. }
  unfold webmysql.MySQLSnapshot. pose proof (Hc "service" ltac:(listed) w) as Hi. destruct (call _ _ _ _ _) as [[x|err] w2]; cbn [snd] in Hi; (eapply asks_trans; [exact Hi|]).
  - destruct (webmysql.decode_service _ x) as [d|]; [|apply asks_refl]. destruct (negb _); [apply asks_refl|apply Hs].
  - apply Hs.
Qed.
(** The collector of the dashboard. *)
Lemma collect_asks order : ∀ w results, Forall (λ r, r ∈ Dashboard.snapshot_requests) order →
  asks Dashboard.snapshot_requests w (with_sent w (Dashboard.collect execute order results (sent w)).2).
Proof.
  induction order as [|[d c] order IH]; intros w results Hf; [by destruct w; apply asks_refl|]. apply Forall_cons in Hf as [Hd Hf].
  cbn [Dashboard.collect Dashboard.ask]. set (q := {| Api.Domain := d; Api.Command := c; Api.Arguments := [] |}).
  apply (asks_trans _ w (with_sent w (q :: sent w))); [split; [done|]; exists [q]; split; [done|by constructor]|].
  exact (IH (with_sent w (q :: sent w)) _ Hf).
Qed.
Lemma arrived l : Forall (λ r, r ∈ Dashboard.snapshot_requests) l → Forall (λ r, r ∈ Dashboard.snapshot_requests) (arrive l).
Proof. by rewrite arrive_perm. Qed.
Lemma take_snapshot_asks w : asks Dashboard.snapshot_requests w (with_sent w (Dashboard.take_snapshot execute (arrive Dashboard.snapshot_requests) (sent w)).2).
Proof.
  pose proof (collect_asks (arrive Dashboard.snapshot_requests) w ∅) as Hc. unfold Dashboard.take_snapshot. destruct (Dashboard.collect _ _ _ _).
  apply Hc, arrived. by apply Forall_forall.
Qed.
Lemma Supervision_asks w : asks Dashboard.snapshot_requests w (with_sent w (Dashboard.Supervision execute (arrive Dashboard.supervision_requests) (sent w)).2).
Proof.
  pose proof (collect_asks (arrive Dashboard.supervision_requests) w ∅) as Hc. unfold Dashboard.Supervision. destruct (Dashboard.collect _ _ _ _).
  apply Hc, arrived. apply (bool_decide_unpack _). by vm_compute.
Qed.

(** ** The gate *)

(** Nothing is shown, and nothing but sessions changed; or the account may read the page, and only what the page is made of was asked. *)
Definition reads (p : page_request) (e : Env) (r : HTTPRequest) (w : World) (x : Answer * World) : Prop :=
  (shows x.1 = false ∧ unmoved w x.2) ∨
  ((∃ s u, signed_in e r w s u ∧ may_read p (db w) (Store.scanUser (Session.UserID s) u)) ∧ asks (page_reads p) w x.2).
Lemma gate_reads p e r w k : Session.wf (mgr w) →
  (∀ s user w1, (shows (k s user w1).1 = false ∧ unmoved w1 (k s user w1).2) ∨ (may_read p (db w1) user ∧ asks (page_reads p) w1 (k s user w1).2)) →
  reads p e r w (authenticatedUser e r w k).
Proof.
  intros Hw Hk. assert (shows (authenticatedUser e r w k).1 = false ∧ unmoved w (authenticatedUser e r w k).2 ∨
    ∃ s u w1, signed_in e r w s u ∧ unmoved w w1 ∧ authenticatedUser e r w k = k (Session.touch s (now e)) (Store.scanUser (Session.UserID s) u) w1) as [Hn|Hn].
  { pose proof (requestSession_unmoved e r w) as [Hdb Hsent]. pose proof (requestSession_live e r w) as Hlive. unfold authenticatedUser.
    match goal with |- context [guarded e r ?sa ?ua w k] =>
      destruct (guarded_cases e r sa ua w k) as [[i ->]|[->|(s & u & Hf & Hst & Hb & _ & _ & ->)]] end; [left|left|right].
    - split; [done|]. destruct (reject_unmoved e i (requestSession e r w).2) as [Hd Hs]. split; congruence.
    - split; [done|split; done].
    - rewrite Hf in Hlive. destruct (session_cookie r) as [id|] eqn:Hc; [|done].
      destruct (Session.live (mgr w) (now e) id) as [s0|] eqn:El; [|done]. injection Hlive as ->.
      exists s0, u, (requestSession e r w).2. unfold in_state in Hst. apply String.eqb_eq in Hst. split_and!; [|done|done].
      split_and!; [by exists id|done|]. unfold behind in *. by rewrite Hdb in Hb. }
  - by left.
  - destruct Hn as (s & u & w1 & Hs & [Hd Hq] & ->). destruct (Hk (Session.touch s (now e)) (Store.scanUser (Session.UserID s) u) w1) as [[Hh [Hd2 Hq2]]|[Hm [Hd2 (l & Hl & F)]]].
    + left. split; [done|split; congruence].
    + right. rewrite <- Hd. split; [exists s, u; by rewrite Hd in *|]. split; [congruence|]. exists l. by rewrite Hl, Hq.
Qed.
Lemma unmoved_asks cs w w' : unmoved w w' → asks cs w w'.
Proof. intros [Hd Hs]. split; [done|]. by exists []. Qed.
Lemma refused_reads p e r w a : shows a = false → reads p e r w (a, w).
Proof. intros Ha. left. by split. Qed.
Lemma page_gate p m e r w k : Session.wf (mgr w) → page_module p = Some m →
  (∀ s user level w1, (shows (k s user level w1).1 = false ∧ unmoved w1 (k s user level w1).2) ∨
                      (level_reads p level = true ∧ asks (page_reads p) w1 (k s user level w1).2)) →
  reads p e r w (on_page e r m w k).
Proof.
  intros Hw Hm Hk. apply gate_reads; [done|]. intros s user w1. unfold modulePermission. destruct (negb (db_up e)); [by left|].
  destruct (StoreNav.PermissionForModule (db w1) user m) as [level|] eqn:Hp; cbn [negb]; [|by left].
  destruct (Hk s user level w1) as [?|[Hl Ha]]; [by left|right]. split; [|done]. unfold may_read. rewrite Hm. by exists level.
Qed.
Lemma root_gate p e r w k : Session.wf (mgr w) → page_module p = None → for_root p = true →
  (∀ s user w1, asks (page_reads p) w1 (k s user w1).2) → reads p e r w (rootUser e r w k).
Proof.
  intros Hw Hm Hr Hk. apply gate_reads; [done|]. intros s user w1. destruct (String.eqb (Store.Type_ user) "root") eqn:Ht; cbn [negb]; [right|by left].
  split; [|apply Hk]. unfold may_read. rewrite Hm, Hr. by apply String.eqb_eq.
Qed.
Lemma user_gate p e r w k : Session.wf (mgr w) → page_module p = None → for_root p = false →
  (∀ s user w1, asks (page_reads p) w1 (k s user w1).2) → reads p e r w (authenticatedUser e r w k).
Proof. intros Hw Hm Hr Hk. apply gate_reads; [done|]. intros s user w1. right. split; [|apply Hk]. unfold may_read. rewrite Hm, Hr. by destruct p. Qed.

#[local] Hint Resolve storage_asks services_asks network_asks logs_asks php_asks tor_asks apache_asks site_asks fail2ban_asks firewall_asks cron_asks certbot_asks
  updates_asks mysql_asks asks_refl : clients.
Ltac known_client := solve [apply reading_asks; auto with clients | auto with clients].
Notation answer p e r q w := (serve_get flag_language shortest ParseLink p e r q w).
Lemma serve_user p e r q w : Session.wf (mgr w) → page_module p = None → for_root p = false → reads p e r w (answer p e r q w).
Proof.
  intros Hw Hm Hr. destruct p; try discriminate; cbn [serve_get]; (apply user_gate; [done..|]); intros s user w1.
  - apply (take_snapshot_asks w1).
  - apply (ask_asks _ w1 "system" "info" []). listed.
  - apply (Supervision_asks w1).
  - pose proof (summary_asks w1) as Hs. by destruct (webupdates.Summarize w1) as [[x|err] w2].
  - destruct (negb (db_up e)); apply asks_refl.
  - apply reading_asks, fetch_asks, fixed_call_asks. listed.
Qed.
Lemma serve_root p e r q w : Session.wf (mgr w) → for_root p = true → reads p e r w (answer p e r q w).
Proof.
  intros Hw Hr. destruct p; try discriminate; cbn [serve_get]; (apply root_gate; [done..|]); intros s user w1.
  - case_match; known_client.
  - case_match; known_client.
  - case_match; known_client.
  - repeat case_match; known_client.
  - case_match; known_client.
  - case_match; [known_client|]. cbv zeta.
    pose proof (sources_asks (page_reads SettingsPage) w1 ltac:(listed)) as Hs. destruct (weblogs.LogSources w1) as [sources w2].
    eapply asks_trans; [exact Hs|]. apply reading_asks, fetch_asks, fixed_call_asks. listed.
  - pose proof (fixed_call_asks (page_reads ConfigurationPage) w1 "configuration" "configuration request failed" "inventory" [] ltac:(listed)) as Hs.
    change (fixed_call execute _ _ w1 _ _) with (configuration_call w1 "inventory" []) in Hs.
    destruct (configuration_call w1 "inventory" []) as [[x|err] w2]; (eapply asks_trans; [exact Hs|]); [|known_client].
    apply reading_asks, fixed_call_asks. listed.
  - case_match; [known_client|]. apply reading_asks, fixed_call_asks. listed.
  - apply reading_asks, fixed_call_asks. listed.
  - apply reading_asks, fixed_call_asks. listed.
Qed.
Lemma serve_module p m e r q w : Session.wf (mgr w) → page_module p = Some m → p ≠ UpdatesJob → reads p e r w (answer p e r q w).
Proof.
  intros Hw Hm Hj. destruct p; try discriminate; try done; cbn [serve_get]; injection Hm as <-; (apply page_gate; [done..|]); intros s user level w1; cbv zeta.
  - right. split; [done|]. pose proof (ask_asks (page_reads ProcessesPage) w1 "system" "processes" [] ltac:(listed)) as Ha.
    unfold Dashboard.Processes, with_collector, Dashboard.ask. cbn [fst snd]. by case_match.
  - right. split; [done|known_client].
  - right. split; [done|known_client].
  - destruct (64 <? _); [by left|right]. split; [done|known_client].
  - repeat (case_match; [by left|]). case_match; [|by left]. right. split; [done|known_client].
  - right. split; [done|known_client].
  - right. split; [done|known_client].
  - right. split; [done|known_client].
  - right. split; [done|known_client].
  - right. split; [done|known_client].
  - destruct (modifies level) eqn:Hl; [right|by left]. split; [done|known_client].
  - right. split; [done|known_client].
  - right. split; [done|known_client].
  - right. split; [done|known_client].
  - destruct (acts level) eqn:Hl; [right|by left]. split; [done|]. apply reading_asks, fetch_asks, message_call_asks. listed.
  - right. split; [done|known_client].
  - destruct (negb _); [by left|right]. split; [done|]. apply reading_asks, fetch_asks, message_call_asks. listed.
  - right. split; [done|known_client].
Qed.
(** C4: A page other than the follow-up of an upgrade (C5), whatever the request: the account
    store is as it was.  Either nothing but an error or a redirection is answered and the
    local API is asked nothing; or the request carries the session of an active account that
    may read the page, and the API was asked only the readings the page is made of.  To read a
    page, an account needs: the right on its module, of the level that page needs; the root
    account for the administration; nothing but its session for the dashboard, the menu, the
    summary of the updates and the metrics of MySQL (the last two belong to modules, whose
    right is not looked at). *)
Theorem page_authorized p e r q w : Session.wf (mgr w) → p ≠ UpdatesJob →
  let x := answer p e r q w in
  db x.2 = db w ∧
  ((shows x.1 = false ∧ sent x.2 = sent w) ∨
   ((∃ s u, signed_in e r w s u ∧ may_read p (db w) (Store.scanUser (Session.UserID s) u)) ∧
    ∃ l, sent x.2 = l ++ sent w ∧ Forall (λ q, (Api.Domain q, Api.Command q) ∈ page_reads p) l)).
Proof.
  intros Hw Hp x. assert (reads p e r w x) as [[Hs [Hd Hq]]|[Hr [Hd Hl]]]; [|by split; [|left]|by split; [|right]].
  destruct (page_module p) as [m|] eqn:Hm; [by eapply serve_module|]. destruct (for_root p) eqn:Hr; [by apply serve_root|by apply serve_user].
Qed.
(** C5: The follow-up of an upgrade: only the state of a job is asked, and the job is shown to an account with the right on the updates,
    signed in once the session was looked up; or, when the request has no session at all, to whoever knows the identifier of a
    job that is recent. *)
Theorem job_followed e r q w : Session.wf (mgr w) →
  let x := answer UpdatesJob e r q w in
  let looked := requestSession e r (webupdates.FindJob w (PathValue q)).2 in
  asks (page_reads UpdatesJob) w x.2 ∧
  (shows x.1 = true →
   (is_valid looked.1 = true ∧ ∃ s u, signed_in e r looked.2 s u ∧ may_read UpdatesJob (db w) (Store.scanUser (Session.UserID s) u)) ∨
   (looked.1 = None ∧
    ∃ job, (webupdates.FindJob w (PathValue q)).1 = Ok job ∧ recent_job e job = true ∧ x.1 = writeJSON (job_json job) StatusOK)).
Proof.
  intros Hw. cbv zeta. cbn [serve_get]. unfold updatesJob.
  assert (asks (page_reads UpdatesJob) w (webupdates.FindJob w (PathValue q)).2) as Ha by (apply fetch_asks, fixed_call_asks; listed).
  assert (mgr (webupdates.FindJob w (PathValue q)).2 = mgr w) as Hm
    by (unfold webupdates.FindJob, fetch, then_, updates_call, fixed_call, ask; cbn [snd]; repeat case_match; simplify_eq; done).
  destruct (webupdates.FindJob w (PathValue q)) as [[job|err] w1]; cbn [fst snd] in *; [|split; [done|discriminate]].
  assert (Session.wf (mgr (requestSession e r w1).2)) as Hwf by (apply requestSession_wf; by rewrite Hm).
  pose proof (requestSession_unmoved e r w1) as Hu. destruct (requestSession e r w1) as [found w2]. cbn [fst snd] in *.
  assert (asks (page_reads UpdatesJob) w w2) as Hw2 by (eapply asks_trans; [exact Ha|by apply unmoved_asks]).
  destruct found as [s|]; cbn [is_valid].
  - destruct (page_gate UpdatesJob "updates" e r w2 (λ _ _ _ w, (writeJSON (job_json job) StatusOK, w)) Hwf eq_refl) as [[Hs Hn]|[Hr Hq]].
    + intros. right. split; [done|apply asks_refl].
    + split; [by eapply asks_trans; [exact Hw2|apply unmoved_asks]|]. by rewrite Hs.
    + split; [by eapply asks_trans|]. intros _. left. split; [done|]. destruct Hr as (s' & u & Hsig & Hmay). exists s', u. split; [done|].
      destruct Hw2 as [Hd _]. by rewrite Hd in Hmay.
  - destruct (recent_job e job) eqn:Hrec; cbn [fst snd]; (split; [done|]); [|discriminate]. intros _. right. split; [done|]. by exists job.
Qed.
End facts.

(** ** A page of a concrete server *)

#[local] Existing Instance ascii_case.
#[local] Existing Instance toy_hash.
#[local] Existing Instance toy_ip.
#[local] Instance bare_floats : Floats := {| format_float _ := ""; hex_float _ := None |}.
#[local] Instance bare_catalogs : Catalogs := {| catalog _ := ∅ |}.
#[local] Instance bare_assets : Assets := {| asset name := name +++ " {{SERVICES}}"; Version := "1"; services_file := None |}.
#[local] Program Instance in_order : Arrival := {| arrive l := l |}.
Next Obligation. done. Qed.
Definition sample_services : data :=
  [("services", Api.VList [Api.VMap [("id", Api.VStr "ssh"); ("exists", Api.VBool true); ("active", Api.VBool true); ("enabled", Api.VBool true); ("state", Api.VStr "active")]])].
#[local] Instance sample_api : LocalAPI := {|
  execute _ _ := Ok {| Api.ExitCode := 0; Api.Resp := Api.Success (Some sample_services) |};
  decode_error _ := "" |}.
Definition sample_query : Query := {| Get _ := ""; PathValue := ""; Accept := "" |}.
Definition sample_page (p : page_request) : Answer * World :=
  serve_get "fr" (λ _, "") (λ _, None) p root_env (root_request []) sample_query root_world.
Lemma page_authorized_witness :
  sent (sample_page ServicesPage).2 = [{| Api.Domain := "services"; Api.Command := "list"; Api.Arguments := [] |}] ∧
  ∃ s u, signed_in root_env (root_request []) root_world s u ∧ may_read ServicesPage (db root_world) (Store.scanUser (Session.UserID s) u).
Proof.
  assert (sent (sample_page ServicesPage).2 = [{| Api.Domain := "services"; Api.Command := "list"; Api.Arguments := [] |}]) as Hs by (vm_compute; reflexivity).
  split; [exact Hs|].
  destruct (page_authorized "fr" (λ _, "") (λ _, None) ServicesPage root_env (root_request []) sample_query root_world root_world_wf ltac:(discriminate))
    as [_ [[_ Hn]|[Hr _]]]; [|exact Hr].
  exfalso. change (serve_get _ _ _ _ _ _ _ _) with (sample_page ServicesPage) in Hn. rewrite Hs in Hn. vm_compute in Hn. discriminate Hn.
Defined.
(** The same without a session, for a job that starts at the hour of the request. *)
#[local] Instance job_api : LocalAPI := {|
  execute _ _ := Ok {| Api.ExitCode := 0; Api.Resp := Api.Success (Some [("job_id", Api.VStr "j"); ("started_at", Api.VStr (Time.rfc3339 (now root_env / 10^9)))]) |};
  decode_error _ := "" |}.
Definition no_session : HTTPRequest :=
  {| session_cookie := None; content_type := ""; form := None; RemoteAddr := ""; X_Forwarded_For := ""; X_Real_IP := ""; UserAgent := "" |}.
Definition followed : Answer * World :=
  serve_get (H4 := job_api) "fr" (λ _, "") (λ _, None) UpdatesJob root_env no_session sample_query root_world.
Lemma job_followed_witness :
  shows followed.1 = true ∧ ∃ job, recent_job root_env job = true ∧ followed.1 = writeJSON (job_json job) StatusOK.
Proof.
  assert (shows followed.1 = true) as Hs by (vm_compute; reflexivity). split; [exact Hs|].
  destruct (job_followed (H4 := job_api) "fr" (λ _, "") (λ _, None) root_env no_session sample_query root_world root_world_wf) as [_ Hj].
  destruct (Hj Hs) as [[Hv _]|(_ & job & _ & Hr & Ha)]; [vm_compute in Hv; discriminate Hv|]. exists job. split; [exact Hr|exact Ha].
Defined.
(** The metrics of MySQL are shown to an ordinary account without any right on the module, which is on. *)
Definition plain_world : World := with_db root_world
  (let d := Store.sample_db sample_hash 1 in
   {| Schema.users := {[ 1 := Store.sample_user "user" "alice" sample_hash 1 ]}; Schema.users_seq := Schema.users_seq d;
      Schema.categories := Schema.categories d; Schema.categories_seq := Schema.categories_seq d;
      Schema.modules := {[ 1 := Store.sample_module "mysql" 1 0 1 0 "view" ]}; Schema.modules_seq := Schema.modules_seq d;
      Schema.permissions := ∅; Schema.settings := Schema.settings d; Schema.preferences := Schema.preferences d;
      Schema.access_log := Schema.access_log d; Schema.access_log_seq := Schema.access_log_seq d |}).
Definition plain_page (p : page_request) : Answer * World :=
  serve_get "fr" (λ _, "") (λ _, None) p root_env (root_request []) sample_query plain_world.
Example metrics_need_no_right :
  StoreNav.PermissionForModule (db plain_world) (Store.scanUser 1 (Store.sample_user "user" "alice" sample_hash 1)) "mysql" = None ∧
  shows (plain_page MySQLPage).1 = false ∧ shows (plain_page MySQLMetrics).1 = true.
Proof. split_and!; vm_compute; reflexivity. Qed.
